(* ===== verification/_CoqProject ===== *)
-Q . S2P
Prelude.v
History.v
Parse.v
Complete.v
LineEdit.v
LineEditSpec.v
Fds.v
Registry.v
Io.v
Redir.v
Prefix.v
Shell.v
ShellSpec.v
Script.v
Auth.v
Env.v
Edit.v
EditSpec.v
EditText.v
EditScreen.v
EditEvents.v
EditClaims.v
Nand.v
NandSpec.v
NandClaims.v
NandSim.v
Clib.v
Nandpart.v
NandpartSpec.v
Stream.v
Migrate.v
MigrateSpec.v
MigrateClaims.v
Pages.v
Psd.v
PsdSpec.v
PsdClaims.v
Chmod.v
ChmodSpec.v
Dd.v
DdSpec.v
Lowmemd.v
LowmemdSpec.v
Event.v
EventSpec.v
PcHist.v
PcHistSpec.v
Report.v
ReportSpec.v
ReportClaims.v
ReportRun.v
ReportRunSpec.v
ReportRows.v
Ls.v
LsSpec.v
LsSafe.v
LsClaims.v
Nandtool.v
NandtoolSpec.v
NandtoolClaims.v
Ping.v
PingSpec.v
Wget.v
WgetSpec.v
Metacheck.v
MetacheckSpec.v
Ntp.v
NtpSpec.v
Sms.v
SmsSpec.v
PsdRt.v
PsdRtSpec.v
Copy.v
CopySpec.v
Hd.v
HdSpec.v
Pm.v
PmSpec.v
Record.v
RecordSpec.v
