(* ===== verification/Prelude.v ===== *)
(** * Phoenix-RTOS utilities: a verification library

    The utilities of Phoenix-RTOS are a set of programs for a small operating system:
    the shell [psh] with its applets ([src/psh]), the tools for NAND flash
    ([src/nandpart], [src/nandtool], [src/metacheck], [src/psd]), the migration of
    meterfs partitions ([src/meterfs-migrate]) and smaller programs.  This library
    models the code that carries their logic and proves what makes it correct, or,
    where the code does not do what it means to do, what it does instead.

    ** Conventions of the models

    - A C integer is a [Z]; conversions and wrap-around are written out ([u8], [u32],
      [s32], ...) where a computation can leave the range of its type.
    - A memory object is a list with checked accesses ([rd], [wr], [memcpy],
      [memmove]); [None] is an access outside an object, the use of an uninitialised
      or freed value, or fuel that does not suffice.  "Returns [Some]" is therefore
      memory safety and termination; theorems say so where it holds.
    - An [int] result is kept as it is: negative [errno] values for errors.
    - Devices, files, descriptors and the library (system calls, [getpwnam], [crypt],
      [setenv], the applets a shell runs, the flash server, [ptable]) are arguments
      or classes; their documented behaviour is a class of laws ([FdLaws],
      [FlashLaws]) or a hypothesis, each with a concrete instance in the witnesses.
    - [malloc] succeeds or fails by an oracle.  Diagnostics on [stderr] and the
      buffering of [stdout] are not modelled.
    - Loops are structural where they count; otherwise they have fuel.  The fuel is
      what the loop can use at most: the length of the remaining input, the number of
      blocks of a range plus one, the rows of a screen.  Lemmas whose name ends in
      [_total] or [_ok] show that it suffices.

    ** The shell ([src/psh/psh.c], [src/psh/pshapp/])

    - [History]: the ring of commands.  [psh_hist_t] is the C structure; [hist_list]
      is the bounded list it stands for, and recording refines pushing on that list.
    - [Parse]: [psh_parsecmd] over the state of [strtok]: it cuts a line into its
      words, and a history entry gives back the line.
    - [Complete]: [psh_completepath] and the columns of [psh_printfiles].
    - [LineEdit]: the line editor of [psh_readcmd], one definition per key;
      [LineEditSpec]: the editor refines a text with a cursor, iterations are safe,
      browsing shows the history, and a key that breaks the escape state.
    - [Fds]: descriptors and the class [FdLaws]; [Io]: [psh_read], [psh_write] and
      the opening of the terminal; [Redir]: [psh_parseRedirections], redirecting and
      restoring the standard streams.
    - [Registry]: the sorted list of applets, and finding one.
    - [Prefix]: numbers with binary and decimal prefixes.
    - [Shell], [ShellSpec]: a command line from the keyboard to the applet, which runs
      unless the system refuses one of the line's redirections ([Redir.refused]).
    - [Script]: scripts, the login loop and the start of [psh]; [Auth]: the login;
      [Env]: [export] and [unset].

    [Shell.run_line] composes the others the way [psh_run] calls them: a line read by
    [LineEdit], cut by [Parse], recorded in [History], redirected by [Redir] and run
    through [Registry].

    ** The text editor ([src/psh/edit/edit.c])

    - [Edit]: the keyboard decoder, rows, cursor, screen and files; the model follows
      the C functions by name.
    - [EditSpec]: rows refine lines, the cursor a zipper; [EditText]: the text as two
      lists around the cursor; [EditScreen]: the window and the rendering of rows;
      [EditEvents]: every event keeps the editor well formed and does to the text
      what its key says; [EditClaims]: sessions, files, the decoder and the defects.

    ** NAND partitions ([src/nandpart/])

    - [Nand]: the requests of [flashmng.c] and the block moving routines of
      [nandpart.c], from [nandpart_copyBlock] to [nandpart_movePart].
    - [NandSpec]: a device as good and bad blocks of pages, the laws of the flash
      server, and what copying forwards and backwards does to the contents, whatever
      blocks are bad or turn bad; [NandClaims]: moves end on every device, move the
      contents on reliable ones, and the cases where they go wrong; [NandSim]: a
      simulated device for the witnesses.
    - [Nandpart]: tables, command line entries, actions and runs; [NandpartSpec]:
      entries round trip, accepted partitions are inside the device and apart,
      modifications keep a table consistent, updates split into actions, and the
      actions that do not work.

    ** meterfs migration ([src/meterfs-migrate/migrate.c])

    - [Stream]: a [FILE] as contents and position, and the monad of operations that
      succeed, fail or are undefined; a stream may fail from any operation on.
    - [Migrate]: the whole conversion; [MigrateSpec]: writing in whole sectors;
      [MigrateClaims]: sectors move, headers round trip, foreign partitions are
      refused, and how records are lost.

    ** Serial downloader ([src/psd/])

    - [Pages]: flash as pages in good and bad blocks, pages written in order, and the
      pages a file is cut into; shared with the NAND tool.
    - [Psd]: the protocol of [common/sdp.c] and the server of [imx6ull/]: requests to
      the flash server, boot control blocks, commands, files, and the start.  The
      reports of the host are a list of results of [hid_recv].
    - [PsdSpec]: a partition as pages and bad blocks; a session that sends a file puts
      it on the good pages in order and answers every command.
    - [PsdClaims]: the scan for bad blocks stays inside the table; partition numbers
      behind the last one are accepted; a simulated partition.

    - [PsdRt]: the server of [imxrt/], which writes to NOR memories over the same
      transport.  [PsdRtSpec]: a file that is sent is in the memory at its address; the
      fuel of a file is the number of reports.

    ** NAND tool ([src/nandtool/])

    - [Nandtool]: [nandtool.c], [flashmng.c] and [bcb.c], with the one place where
      [flashmng_info] keeps what it learnt last.
    - [NandtoolSpec]: the laws of a partition whose reads are short and whose pages
      may be unreadable before they are written; a file that is flashed is on the good
      pages in order, and the digest that is printed is that of the file.  A loop over
      the pages needs at most as much fuel as there are pages.
    - [NandtoolClaims]: scanning stays inside the table whatever servers answer, ranges
      round trip, two ways in which flashing fails, and a simulated partition.

    ** Applets for files ([src/psh/chmod/], [dd/], [ls/], [cp/], [mv/], [hd/])

    - [Clib]: [strtoul], [scanf], characters, the search in strings and hexadecimal
      text.
    - [Chmod]: symbolic modes, files and trees.  [ChmodSpec]: a grammar of modes with
      the meaning of every bit, which [parsemode] decides and computes; the overrun of
      the recursive form.
    - [Dd]: numbers, operands and the copy.  [DdSpec]: [dd] as a filter copies the
      prefix its [count] allows, whatever the lengths of reads and writes.
    - [Ls]: entries, their order, the three layouts and the loop over the operands.
      [LsSpec]: the search for a layout and the buffers; [LsSafe]: [ls] never leaves its
      memory; [LsClaims]: the table of names, the orders, the operands, the defects.

    - [Copy]: [cp] and [mv] over a class of file system calls that may fail or do less
      than asked.  [CopySpec]: what is in which file afterwards.  The fuel is the length
      of the file, and how often calls are interrupted.
    - [Hd]: the text of a dump and the loop over a file.  [HdSpec]: a reader of dumps,
      which gets back what was asked for; the fuel is as in [Copy].

    ** Network applets ([src/psh/ping/], [src/psh/wget/], [src/psh/ntpclient/])

    - [Ping]: requests, checksums, replies and the loop of both protocols.  [PingSpec]:
      the checksum is that of RFC 1071, a host that answers is reported request by
      request, and how odd and negative sizes leave the buffer.  The fuel of a request
      bounds the packets that may arrive before its reply.
    - [Wget]: URLs, the request, the headers and the file.  [WgetSpec]: the buffer as a
      window of what the connection delivers; a response is saved as its body, whatever
      the lengths of the reads.  The fuel bounds every loop: the length of the response
      is enough.  There are a simulated connection and responses that go wrong.
    - [Ntp]: the configuration, an exchange, the time of a packet and the attempts.
      [NtpSpec]: under a timeout a run ends and sets the clock once, from a packet of
      a server, or not at all; with [-t 0] a silent server is waited for for ever;
      the server is found behind comments; the accuracy of the conversions.  Attempts
      are three seconds apart, so a third of the window bounds them.

    ** SMS tool ([src/gsm/sms/sms.c])

    - [Sms]: commands to a modem, result codes and the three operations.  [SmsSpec]: an
      answer in pieces is gathered up to its code, whatever older answers left in the
      buffer; a message that is sent is the one that was stored.

    ** Metadata check ([src/metacheck/main.c])

    - [Metacheck]: the kinds of pages, the loop over a partition, the exit value; the
      encoder of the BCH library is a parameter.  [MetacheckSpec]: the counters are those
      of the pages up to the last, and a bit of the exit value means damage in that
      partition or one that cannot be read; which damage is looked for is told apart
      from which there is.

    ** Low memory monitor ([src/lowmemd/lowmemd.c])

    - [Lowmemd]: the scan of the processes with its insertion sort on the array, the
      reports, the choice of a victim, one iteration of the loop and the start.
      [LowmemdSpec]: the table is sorted and lists every process once, and the calls of
      a run of any length, recorded: each [kill] is behind a reading of the memory
      under the reserve and a scan, of the largest process that may be killed, with
      the time between two of them.

    ** Process monitor ([src/psh/pm/pm.c])

    - [Pm]: lists of threads, the comparison, limits and the loop.  [PmSpec]: a round
      reports the processes that are gone when the last one is not among them, and what
      happens when it is.  The fuel is the length of both lists.

    ** Profiler ([src/prof/])

    - [Record]: a recording: options, channels in memory, their files, and what is said
      of the processes.  [RecordSpec]: what was traced is in the files and is loaded from
      them, for a kernel that traces while it is read.  The fuel bounds the seconds in
      milliseconds, the megabytes in bytes, interrupted writes and mappings.

    - [Event]: sizes of events, boundaries in a stream that begins inside an event, and
      the counts per type and processor.  [EventSpec]: any stream is read inside its
      bounds, and a stream of encoded events is counted event by event.
    - [PcHist]: the histogram of program counters, a hash table that grows; [qsort] is
      a function with laws ([QsortLaws]).  [PcHistSpec]: it counts a list of keys.
    - [Report]: the replay of a trace: threads, their waits, messages in flight, who
      blocked whom.  [ReportSpec]: its tables; [ReportClaims]: what they say of the
      events of the trace.
    - [ReportRun]: loading recordings and the order of events; [ReportRunSpec]: a
      recording is loaded event by event.  [ReportRows]: the rows that are printed,
      and that every report ends.

    ** Not modelled

    - [src/nandtool/bch.c], [src/psd/imx6ull/bch.c] and [src/metacheck/bch.c] are
      copies of a BCH library, and SHA-256 is a library: parameters of their callers.
      [src/cm4-tool] holds a firmware image.
    - In [psd]: the fuses, which are registers; [psd-old.c] is not built.
    - In [prof]: messages; in the report the widths of columns, percentages and the
      names of system calls.  In [nandtool]: messages and
      progress.
    - In [ping], [wget] and [ntpclient]: times of packets, progress and messages.  In [metacheck]: what is printed of pages.
    - [src/benchmarks] measures the system; [src/spitool], [src/nfs-smoke] and the
      remaining applets of [src/psh] mostly print what a system call returns.
    - In the shell: signals and job control of the terminal; in [edit]: the terminal
      set-up beyond its size; in [nandpart]: opening and closing of the device. *)

From stdpp Require Export base tactics option list numbers strings.
From Stdlib Require Export ZArith Lia.

#[global] Open Scope Z_scope.

(** ** C integers

    An [int], [unsigned] or [size_t] is a [Z]; where a computation can leave the
    range of its type the model applies the conversion explicitly. *)

Definition wrapu (w x : Z) : Z := x mod 2 ^ w.
Definition wraps (w x : Z) : Z := (x + 2 ^ (w - 1)) mod 2 ^ w - 2 ^ (w - 1).

Abbreviation u8 := (wrapu 8).
Abbreviation u16 := (wrapu 16).
Abbreviation u32 := (wrapu 32).
Abbreviation u64 := (wrapu 64).
Abbreviation s32 := (wraps 32).
Abbreviation s64 := (wraps 64).

Lemma wrapu_range (w x : Z) : 0 <= w -> 0 <= wrapu w x < 2 ^ w.
Proof. intros. unfold wrapu. apply Z.mod_pos_bound. lia. Qed.

Lemma wrapu_small (w x : Z) : 0 <= x < 2 ^ w -> wrapu w x = x.
Proof. intros. unfold wrapu. by apply Z.mod_small. Qed.

Lemma u32_small (x : Z) : 0 <= x < 4294967296 -> u32 x = x.
Proof. intros. by apply wrapu_small. Qed.

Lemma u8_small (x : Z) : 0 <= x < 256 -> u8 x = x.
Proof. intros. by apply wrapu_small. Qed.

Lemma wraps_small (w x : Z) : 0 < w -> - 2 ^ (w - 1) <= x < 2 ^ (w - 1) -> wraps w x = x.
Proof.
  intros. unfold wraps.
  assert (2 ^ w = 2 * 2 ^ (w - 1)).
  { replace w with (1 + (w - 1)) at 1 by lia. rewrite Z.pow_add_r; lia. }
  rewrite Z.mod_small; lia.
Qed.

(** ** Bytes and C strings

    A [char] is the value of its byte, [0..255].  A C string literal is written
    as a Rocq [string] and converted once. *)

Abbreviation bytes := (list Z).

Definition bstr (s : string) : bytes :=
  (fun a => Z.of_N (Ascii.N_of_ascii a)) <$> String.list_ascii_of_string s.

(** The characters before the first NUL: what [strlen], [strcmp] and [%s] see. *)
Fixpoint cstr (b : bytes) : bytes :=
  match b with
  | [] => []
  | c :: b => if c =? 0 then [] else c :: cstr b
  end.

(** [strcmp]: the sign of the comparison, as unsigned characters. *)
Fixpoint strcmp (a b : bytes) : Z :=
  match a, b with
  | [], [] => 0
  | [], _ => -1
  | _, [] => 1
  | x :: a, y :: b => if x =? y then strcmp a b else if x <? y then -1 else 1
  end.

(** [strncmp(a, b, n) == 0] for buffers that hold a NUL-terminated string or at
    least [n] characters. *)
Fixpoint strncmp_eq (a b : bytes) (n : nat) : bool :=
  match n with
  | O => true
  | S n =>
      let x := default 0 (head a) in
      let y := default 0 (head b) in
      (x =? y) && ((x =? 0) || strncmp_eq (tail a) (tail b) n)
  end.

Lemma strcmp_eq (a b : bytes) : strcmp a b = 0 <-> a = b.
Proof.
  revert b. induction a as [|x a IH]; intros [|y b]; simpl; try (split; congruence || lia).
  destruct (Z.eqb_spec x y) as [->|Hne].
  - rewrite IH. split; congruence.
  - destruct (x <? y); split; intros; try lia; congruence.
Qed.

Lemma strcmp_refl (a : bytes) : strcmp a a = 0.
Proof. by apply strcmp_eq. Qed.

Lemma strcmp_antisym (a b : bytes) : strcmp a b < 0 <-> 0 < strcmp b a.
Proof.
  revert b. induction a as [|x a IH]; intros [|y b]; simpl; try lia.
  rewrite (Z.eqb_sym y x). destruct (Z.eqb_spec x y) as [->|Hne]; [apply IH|].
  destruct (Z.ltb_spec x y), (Z.ltb_spec y x); lia.
Qed.

Lemma strcmp_trans (a b c : bytes) : strcmp a b < 0 -> strcmp b c < 0 -> strcmp a c < 0.
Proof.
  revert b c. induction a as [|x a IH]; intros [|y b] [|z c]; simpl; try lia.
  destruct (Z.eqb_spec x y) as [->|Hxy].
  - destruct (Z.eqb_spec y z) as [->|Hyz]; [apply IH|]. lia.
  - destruct (Z.ltb_spec x y); [|lia].
    destruct (Z.eqb_spec y z) as [->|Hyz].
    + intros _ _. destruct (Z.eqb_spec x z); [lia|]. destruct (Z.ltb_spec x z); lia.
    + destruct (Z.ltb_spec y z); [|lia]. intros _ _.
      destruct (Z.eqb_spec x z); [lia|]. destruct (Z.ltb_spec x z); lia.
Qed.

Lemma strcmp_le_trans (a b c : bytes) : strcmp a b <= 0 -> strcmp b c <= 0 -> strcmp a c <= 0.
Proof.
  intros Hab Hbc.
  destruct (Z.eq_dec (strcmp a b) 0) as [->%strcmp_eq|]; [done|].
  destruct (Z.eq_dec (strcmp b c) 0) as [<-%strcmp_eq|]; [done|].
  pose proof (strcmp_trans a b c). lia.
Qed.

Definition isdigit (c : Z) : bool := (48 <=? c) && (c <=? 57).
Definition isprint (c : Z) : bool := (32 <=? c) && (c <=? 126).

(** ** Exit codes and error numbers *)

Definition EXIT_SUCCESS : Z := 0.
Definition EXIT_FAILURE : Z := 1.

Definition EPERM : Z := 1.
Definition ENOENT : Z := 2.
Definition EINTR : Z := 4.
Definition EIO : Z := 5.
Definition EBADF : Z := 9.
Definition EAGAIN : Z := 11.
Definition ENOMEM : Z := 12.
Definition EFAULT : Z := 14.
Definition ENODEV : Z := 19.
Definition EINVAL : Z := 22.
Definition EMFILE : Z := 24.
Definition ENOSPC : Z := 28.
Definition ENOTTY : Z := 25.

(** ** Buffers

    A memory object is the list of its elements.  Every access is checked: the
    result is [None] where the C program would touch memory outside the object,
    so "never [None]" is memory safety. *)

Definition zlen {A} (l : list A) : Z := Z.of_nat (length l).

Section buffers.
Context {A : Type}.
Implicit Types (buf : list A) (i off len : Z).

Definition rd buf i : option A :=
  if 0 <=? i then buf !! Z.to_nat i else None.

Definition wr buf i (v : A) : option (list A) :=
  if (0 <=? i) && (i <? zlen buf) then Some (<[Z.to_nat i := v]> buf) else None.

Definition rd_range buf off len : option (list A) :=
  if (0 <=? off) && (0 <=? len) && (off + len <=? zlen buf)
  then Some (take (Z.to_nat len) (drop (Z.to_nat off) buf)) else None.

Definition wr_range buf off (data : list A) : option (list A) :=
  if (0 <=? off) && (off + zlen data <=? zlen buf)
  then Some (take (Z.to_nat off) buf ++ data ++ drop (Z.to_nat off + length data) buf)
  else None.

(** [memmove(buf + dst, buf + src, len)] inside one object. *)
Definition memmove buf dst src len : option (list A) :=
  data ← rd_range buf src len; wr_range buf dst data.

(** [memcpy(dbuf + dst, sbuf + src, len)] between two objects. *)
Definition memcpy dbuf dst sbuf src len : option (list A) :=
  data ← rd_range sbuf src len; wr_range dbuf dst data.
End buffers.

(** [for (i = lo; i < lo + k; i++) s = body(i, s)], stopping at the first fault. *)
Fixpoint for_loop {S} (lo : Z) (k : nat) (body : Z -> S -> option S) (s : S) : option S :=
  match k with
  | O => Some s
  | Datatypes.S k => s' ← body lo s; for_loop (lo + 1) k body s'
  end.

Lemma zlen_nonneg {A} (l : list A) : 0 <= zlen l.
Proof. unfold zlen. lia. Qed.

Lemma zlen_nil {A} : zlen (@nil A) = 0.
Proof. done. Qed.

Lemma zlen_cons {A} (x : A) l : zlen (x :: l) = 1 + zlen l.
Proof. unfold zlen. simpl. lia. Qed.

Lemma zlen_app {A} (l k : list A) : zlen (l ++ k) = zlen l + zlen k.
Proof. unfold zlen. rewrite length_app. lia. Qed.

Lemma zlen_fmap {A B} (f : A -> B) l : zlen (f <$> l) = zlen l.
Proof. unfold zlen. by rewrite length_fmap. Qed.

Lemma zlen_take {A} (l : list A) (k : nat) : zlen (take k l) = Z.min (Z.of_nat k) (zlen l).
Proof. unfold zlen. rewrite length_take. lia. Qed.

Lemma zlen_drop {A} (l : list A) (k : nat) : zlen (drop k l) = Z.max 0 (zlen l - Z.of_nat k).
Proof. unfold zlen. rewrite length_drop. lia. Qed.

Lemma zlen_insert {A} (l : list A) i x : zlen (<[i:=x]> l) = zlen l.
Proof. unfold zlen. by rewrite length_insert. Qed.

Lemma zlen_replicate {A} (k : nat) (x : A) : zlen (replicate k x) = Z.of_nat k.
Proof. unfold zlen. by rewrite length_replicate. Qed.

Lemma zlen_reverse {A} (l : list A) : zlen (reverse l) = zlen l.
Proof. unfold zlen. by rewrite length_reverse. Qed.

Lemma zlen_0_nil {A} (l : list A) : zlen l = 0 -> l = [].
Proof. destruct l; [done|]. rewrite zlen_cons. pose proof (zlen_nonneg l). lia. Qed.

Create Rewrite HintDb zlen.
#[export] Hint Rewrite @zlen_nil @zlen_cons @zlen_app @zlen_fmap @zlen_take @zlen_drop
  @zlen_insert @zlen_replicate @zlen_reverse : zlen.

(** Arithmetic on lengths: normalise every [zlen] and call [lia]. *)
Ltac zlia :=
  autorewrite with zlen in *;
  repeat match goal with
  | l : list _ |- _ =>
      lazymatch goal with
      | _ : 0 <= zlen l |- _ => fail
      | _ => pose proof (zlen_nonneg l)
      end
  end;
  try lia.

(** Equality of concatenations, by re-association. *)
Ltac appeq :=
  repeat first [rewrite <-(assoc_L (++)) | progress simpl]; reflexivity.

(** Case analysis on the first boolean test of the goal, as propositions. *)
Ltac bcase :=
  match goal with
  | |- context [if ?b then _ else _] =>
      let E := fresh "Hb" in destruct b eqn:E
  end.

(** Turn boolean comparison hypotheses into propositions. *)
Ltac bprop :=
  repeat match goal with
  | H : (_ && _) = true |- _ => apply andb_true_iff in H as [? ?]
  | H : (_ || _) = false |- _ => apply orb_false_iff in H as [? ?]
  | H : (_ || _) = true |- _ => apply orb_true_iff in H
  | H : (_ && _) = false |- _ => apply andb_false_iff in H
  | H : negb _ = true |- _ => apply negb_true_iff in H
  | H : negb _ = false |- _ => apply negb_false_iff in H
  | H : (_ =? _) = true |- _ => apply Z.eqb_eq in H
  | H : (_ =? _) = false |- _ => apply Z.eqb_neq in H
  | H : (_ <? _) = true |- _ => apply Z.ltb_lt in H
  | H : (_ <? _) = false |- _ => apply Z.ltb_ge in H
  | H : (_ <=? _) = true |- _ => apply Z.leb_le in H
  | H : (_ <=? _) = false |- _ => apply Z.leb_gt in H
  end.

(** Invert an [option] bind in a hypothesis. *)
Ltac obind H :=
  let x := fresh "x" in let E := fresh "E" in
  apply bind_Some in H as (x & E & H).

Section buffer_lemmas.
Context {A : Type}.
Implicit Types (buf a b c d : list A) (i off len : Z).

Lemma list_split_at buf n :
  0 <= n <= zlen buf -> exists a c, buf = a ++ c /\ zlen a = n.
Proof.
  intros Hn. exists (take (Z.to_nat n) buf), (drop (Z.to_nat n) buf).
  rewrite take_drop. split; [done|]. zlia.
Qed.

Lemma list_split_at2 buf n m :
  0 <= n -> 0 <= m -> n + m <= zlen buf ->
  exists a b c, buf = a ++ b ++ c /\ zlen a = n /\ zlen b = m.
Proof.
  intros Hn Hm Hl. destruct (list_split_at buf n) as (a & c & -> & Ha); [lia|].
  destruct (list_split_at c m) as (b & c' & -> & Hb); [zlia|].
  by exists a, b, c'.
Qed.

Lemma drop_zlen_app a c : drop (Z.to_nat (zlen a)) (a ++ c) = c.
Proof. unfold zlen. rewrite Nat2Z.id. apply drop_app_length. Qed.

Lemma take_zlen_app a c : take (Z.to_nat (zlen a)) (a ++ c) = a.
Proof. unfold zlen. rewrite Nat2Z.id. apply take_app_length. Qed.

Lemma rd_range_app a b c off len :
  off = zlen a -> len = zlen b -> rd_range (a ++ b ++ c) off len = Some b.
Proof.
  intros -> ->. unfold rd_range.
  rewrite drop_zlen_app, take_zlen_app. bcase; [done|]. exfalso. bprop.
  destruct Hb as [[?|?]%andb_false_iff|?]; bprop; zlia.
Qed.

Lemma wr_range_app a b c off d :
  off = zlen a -> zlen d = zlen b -> wr_range (a ++ b ++ c) off d = Some (a ++ d ++ c).
Proof.
  intros -> Hd. unfold wr_range. bcase.
  - f_equal. rewrite take_zlen_app. f_equal. f_equal.
    unfold zlen in *. rewrite Nat2Z.id.
    replace (length a + length d)%nat with (length (a ++ b)) by (rewrite length_app; lia).
    rewrite (assoc_L (++)). apply drop_app_length.
  - bprop. destruct Hb as [?|?]; bprop; zlia.
Qed.

Lemma rd_app a x c i : i = zlen a -> rd (a ++ x :: c) i = Some x.
Proof.
  intros ->. unfold rd. bcase; [|bprop; zlia].
  unfold zlen. rewrite Nat2Z.id. by rewrite list_lookup_middle.
Qed.

Lemma wr_app a x y c i : i = zlen a -> wr (a ++ x :: c) i y = Some (a ++ y :: c).
Proof.
  intros ->. unfold wr. bcase.
  - f_equal. unfold zlen. rewrite Nat2Z.id.
    replace (length a) with (length a + 0)%nat by lia. by rewrite insert_app_r.
  - bprop. destruct Hb as [?|?]; bprop; zlia.
Qed.

Lemma rd_is_Some buf i : is_Some (rd buf i) <-> 0 <= i < zlen buf.
Proof.
  unfold rd. bcase; bprop.
  - rewrite lookup_lt_is_Some. unfold zlen. lia.
  - split; [by intros []|lia].
Qed.

Lemma wr_is_Some buf i x : is_Some (wr buf i x) <-> 0 <= i < zlen buf.
Proof.
  unfold wr. bcase; bprop; [split; [lia|eauto]|].
  split; [by intros []|]. intros. destruct Hb as [?|?]; bprop; lia.
Qed.

Lemma wr_zlen buf i x buf' : wr buf i x = Some buf' -> zlen buf' = zlen buf.
Proof. unfold wr. bcase; intros [= <-]. zlia. Qed.

Lemma rd_wr buf i j x buf' :
  wr buf i x = Some buf' -> 0 <= j -> rd buf' j = if i =? j then Some x else rd buf j.
Proof.
  unfold wr, rd. intros Hw Hj.
  destruct ((0 <=? i) && (i <? zlen buf)) eqn:Hb; [|done]. bprop. injection Hw as <-.
  destruct (Z.leb_spec 0 j); [|lia]. destruct (Z.eqb_spec i j) as [->|Hij].
  - apply list_lookup_insert_eq. unfold zlen in *. lia.
  - apply list_lookup_insert_ne. lia.
Qed.

(** Stores to different elements commute. *)
Lemma wr_comm buf i j x y b1 b2 :
  wr buf i x = Some b1 -> wr buf j y = Some b2 -> i <> j ->
  exists b3, wr b1 j y = Some b3 /\ wr b2 i x = Some b3.
Proof.
  intros H1 H2 Hij.
  pose proof (wr_zlen _ _ _ _ H1) as L1. pose proof (wr_zlen _ _ _ _ H2) as L2.
  assert (is_Some (wr buf i x)) as Hi%wr_is_Some by eauto.
  assert (is_Some (wr buf j y)) as Hj%wr_is_Some by eauto.
  unfold wr in *. rewrite L1, L2.
  destruct ((0 <=? i) && (i <? zlen buf)) eqn:E1; [|done].
  destruct ((0 <=? j) && (j <? zlen buf)) eqn:E2; [|done].
  injection H1 as <-. injection H2 as <-. eexists. split; [done|].
  f_equal. apply list_insert_insert_ne. lia.
Qed.

Lemma rd_range_is_Some buf off len :
  is_Some (rd_range buf off len) <-> 0 <= off /\ 0 <= len /\ off + len <= zlen buf.
Proof.
  unfold rd_range. bcase; bprop; [split; [lia|eauto]|].
  split; [by intros []|]. intros (?&?&?).
  destruct Hb as [[?|?]%andb_false_iff|?]; bprop; lia.
Qed.

Lemma rd_range_0 buf len :
  0 <= len <= zlen buf -> rd_range buf 0 len = Some (take (Z.to_nat len) buf).
Proof.
  intros. unfold rd_range. bcase; [done|]. bprop.
  destruct Hb as [[?|?]%andb_false_iff|?]; bprop; lia.
Qed.

Lemma rd_range_zlen buf off len d : rd_range buf off len = Some d -> zlen d = len.
Proof. unfold rd_range. bcase; [|done]. bprop. intros [= <-]. zlia. Qed.

Lemma wr_range_is_Some buf off d :
  is_Some (wr_range buf off d) <-> 0 <= off /\ off + zlen d <= zlen buf.
Proof.
  unfold wr_range. bcase; bprop; [split; [lia|eauto]|].
  split; [by intros []|]. intros (?&?). destruct Hb as [?|?]; bprop; lia.
Qed.

Lemma wr_range_zlen buf off d buf' :
  wr_range buf off d = Some buf' -> zlen buf' = zlen buf.
Proof.
  unfold wr_range. bcase; [|done]. bprop. intros [= <-].
  autorewrite with zlen. unfold zlen in *. lia.
Qed.

Lemma memmove_is_Some buf dst src len :
  is_Some (memmove buf dst src len) <->
  0 <= len /\ 0 <= src /\ 0 <= dst /\ src + len <= zlen buf /\ dst + len <= zlen buf.
Proof.
  unfold memmove. split.
  - intros [buf' H]. obind H.
    assert (is_Some (rd_range buf src len)) as Hr%rd_range_is_Some by eauto.
    assert (is_Some (wr_range buf dst x)) as Hw%wr_range_is_Some by eauto.
    apply rd_range_zlen in E. lia.
  - intros. destruct (proj2 (rd_range_is_Some buf src len)) as [d Hd]; [lia|].
    rewrite Hd. simpl. apply wr_range_is_Some. apply rd_range_zlen in Hd. lia.
Qed.

Lemma memmove_zlen buf dst src len buf' :
  memmove buf dst src len = Some buf' -> zlen buf' = zlen buf.
Proof. unfold memmove. intros H. obind H. by eapply wr_range_zlen. Qed.
End buffer_lemmas.

Lemma insert_middle {A} (a c : list A) (x y : A) : <[length a := y]> (a ++ x :: c) = a ++ y :: c.
Proof.
  replace (length a) with (length a + 0)%nat by lia. by rewrite insert_app_r.
Qed.

Lemma take_take_app {A} (k : nat) (a b : list A) : take k (take k a ++ b) = take k (a ++ b).
Proof.
  rewrite !take_app, take_take, length_take. f_equal; [f_equal; lia|]. f_equal. lia.
Qed.

(** ** Loops that fill a buffer element by element *)

Lemma for_loop_fill {A B} (f : A -> B) (a b c : list A) (d e g : list B) (lo : Z) :
  lo = zlen a -> lo = zlen d -> zlen b = zlen e ->
  for_loop lo (length b) (fun i dst => x ← rd (a ++ b ++ c) i; wr dst i (f x)) (d ++ e ++ g)
  = Some (d ++ (f <$> b) ++ g).
Proof.
  revert a d e lo. induction b as [|x b IH]; intros a d e lo -> Hd He.
  - symmetry in He. apply zlen_0_nil in He as ->. done.
  - destruct e as [|y e]; [zlia|]. simpl.
    rewrite rd_app by done. simpl. rewrite wr_app by lia. simpl.
    replace (a ++ x :: b ++ c) with ((a ++ [x]) ++ b ++ c) by by rewrite <-(assoc_L (++)).
    replace (d ++ f x :: e ++ g) with ((d ++ [f x]) ++ e ++ g) by by rewrite <-(assoc_L (++)).
    rewrite IH; [by rewrite <-(assoc_L (++))|zlia..].
Qed.

Lemma for_loop_ext {S} (f g : Z -> S -> option S) lo k s :
  (forall i s, f i s = g i s) -> for_loop lo k f s = for_loop lo k g s.
Proof.
  intros Hfg. revert lo s. induction k as [|k IH]; intros lo s; simpl; [done|].
  rewrite Hfg. destruct (g lo s); simpl; [apply IH|done].
Qed.

(** An invariant of the loop body is an invariant of the loop. *)
Lemma for_loop_inv {S} (P : Z -> S -> Prop) (body : Z -> S -> option S) lo k s :
  P lo s ->
  (forall i s, lo <= i < lo + Z.of_nat k -> P i s -> exists s', body i s = Some s' /\ P (i + 1) s') ->
  exists s', for_loop lo k body s = Some s' /\ P (lo + Z.of_nat k) s'.
Proof.
  revert lo s. induction k as [|k IH]; intros lo s H0 Hb.
  - exists s. split; [done|]. by rewrite Z.add_0_r.
  - destruct (Hb lo s) as (s1 & Hs1 & H1); [lia|done|].
    destruct (IH (lo + 1) s1) as (s2 & Hs2 & H2); [done| |].
    + intros i s' Hi. apply Hb. lia.
    + exists s2. simpl. rewrite Hs1. simpl. split; [done|].
      by replace (lo + Z.of_nat (Datatypes.S k)) with (lo + 1 + Z.of_nat k) by lia.
Qed.

(** Linear arithmetic with [/], [mod], [Z.quot] and [Z.rem]. *)
Ltac dlia := Z.to_euclidean_division_equations; lia.

(** ** Moving text inside a buffer *)

Section moves.
Context {A : Type}.
Implicit Types (a b c d : list A).

Lemma wr_range_suffix a b c off d :
  off = zlen a -> zlen d <= zlen b + zlen c ->
  exists e, wr_range (a ++ b ++ c) off d = Some (a ++ d ++ e) /\
    zlen e = zlen b + zlen c - zlen d.
Proof.
  intros -> Hd. destruct (list_split_at (b ++ c) (zlen d)) as (x & e & He & Hx); [zlia|].
  exists e. rewrite He. split; [by apply wr_range_app|].
  apply (f_equal zlen) in He. zlia.
Qed.

(** Closing a gap: [d] is overwritten by the text [b] that follows it. *)
Lemma memmove_left a d b c dst src len :
  dst = zlen a -> src = zlen a + zlen d -> len = zlen b ->
  exists e, memmove (a ++ d ++ b ++ c) dst src len = Some (a ++ b ++ e) /\
    zlen e = zlen d + zlen c.
Proof.
  intros -> -> ->. unfold memmove.
  rewrite (assoc_L (++) a d), (rd_range_app (a ++ d)), <-(assoc_L (++) a d) by zlia. simpl.
  destruct (wr_range_suffix a d (b ++ c) (zlen a) b) as (e & -> & He); [done|zlia|].
  exists e. split; [done|]. zlia.
Qed.

(** Opening a gap of [i] elements before the text [b]. *)
Lemma memmove_right a b c dst src len i :
  src = zlen a -> dst = zlen a + i -> len = zlen b -> 0 <= i <= zlen c ->
  exists g e, memmove (a ++ b ++ c) dst src len = Some (a ++ g ++ b ++ e) /\
    zlen g = i /\ zlen e = zlen c - i.
Proof.
  intros -> -> -> Hi. unfold memmove. rewrite rd_range_app by done. simpl.
  destruct (list_split_at (b ++ c) i) as (g & h & Hg & Hl); [zlia|].
  rewrite Hg, (assoc_L (++)). apply (f_equal zlen) in Hg.
  destruct (wr_range_suffix (a ++ g) h [] (zlen a + i) b) as (e & He & Hle); [zlia..|].
  rewrite app_nil_r in He. exists g, e. rewrite He. rewrite <-(assoc_L (++)).
  split; [done|]. zlia.
Qed.

(** Copying the text [b] to the start of another object. *)
Lemma memcpy_to dbuf a b c off len :
  off = zlen a -> len = zlen b -> zlen b <= zlen dbuf ->
  exists e, memcpy dbuf 0 (a ++ b ++ c) off len = Some (b ++ e) /\
    zlen e = zlen dbuf - zlen b.
Proof.
  intros -> -> Hl. unfold memcpy. rewrite rd_range_app by done. simpl.
  destruct (wr_range_suffix [] dbuf [] 0 b) as (e & He & Hle); [done|zlia|].
  rewrite app_nil_r in He. exists e. simpl in He. rewrite He. split; [done|]. zlia.
Qed.

Lemma zlen_app_inj a b c d : zlen a = zlen b -> a ++ c = b ++ d -> a = b /\ c = d.
Proof. intros Hl He. apply app_inj_1 in He; [done|]. unfold zlen in Hl. lia. Qed.
End moves.

(** A loop that appends one element per iteration. *)
Lemma for_loop_map {A B} (f : A -> B) (a b c : list A) (out : list B) (lo : Z) :
  lo = zlen a ->
  for_loop lo (length b) (fun i out => x ← rd (a ++ b ++ c) i; Some (out ++ [f x])) out
  = Some (out ++ (f <$> b)).
Proof.
  revert a out lo. induction b as [|x b IH]; intros a out lo ->; simpl.
  - by rewrite app_nil_r.
  - rewrite rd_app by done. simpl.
    replace (a ++ x :: b ++ c) with ((a ++ [x]) ++ b ++ c) by by rewrite <-(assoc_L (++)).
    rewrite IH by zlia. by rewrite <-(assoc_L (++)).
Qed.
