(* ===== verification/History.v ===== *)
(** * Command history ([psh/pshapp/pshapp.c])

    The ring of [HISTSZ] history entries that the line editor recalls from,
    [psh_run] appends to and the [history] applet prints and clears.  The
    abstract view of a ring is the list of its live commands, oldest first;
    recording a command is shown to refine the obvious list operation. *)

From S2P Require Import Prelude.

Definition HISTSZ : Z := 512.

(** One history entry: [n] characters, and the buffer that holds them
    ([None] is a NULL [cmd]).  Words are followed by NUL, as [strtok] left them. *)
Record psh_histent_t := Histent { ent_n : Z; ent_cmd : option bytes }.

Record psh_hist_t := Hist { hb : Z; he : Z; entries : list psh_histent_t }.

Definition set_entry (i : Z) (e : psh_histent_t) (h : psh_hist_t) : option psh_hist_t :=
  es ← wr (entries h) i e; Some (Hist (hb h) (he h) es).
Definition set_hb (v : Z) (h : psh_hist_t) : psh_hist_t := Hist v (he h) (entries h).
Definition set_he (v : Z) (h : psh_hist_t) : psh_hist_t := Hist (hb h) v (entries h).

(** [calloc(1, sizeof(psh_hist_t))]. *)
Definition hist_init : psh_hist_t :=
  Hist 0 0 (replicate (Z.to_nat HISTSZ) (Histent 0 None)).

(** The character the editor shows for one stored character. *)
Definition nul2sp (c : Z) : Z := if c =? 0 then 32 else c.

(** Copy entry's text over the command buffer. *)
Definition psh_histentcmd (cmd : bytes) (entry : psh_histent_t) : option bytes :=
  src ← ent_cmd entry;
  for_loop 0 (Z.to_nat (ent_n entry))
    (fun i cmd => c ← rd src i; wr cmd i (nul2sp c)) cmd.

(** The characters [psh_printhistent] writes, one [psh_write] each. *)
Definition psh_printhistent (entry : psh_histent_t) : option bytes :=
  match ent_cmd entry with
  | None => if ent_n entry <=? 0 then Some [] else None
  | Some src =>
      for_loop 0 (Z.to_nat (ent_n entry))
        (fun i out => c ← rd src i; Some (out ++ [nul2sp c])) []
  end.

(** [memcmp(a, b, n) == 0]. *)
Definition memcmp_eq (a b : bytes) (n : Z) : option bool :=
  x ← rd_range a 0 n; y ← rd_range b 0 n; Some (bool_decide (x = y)).

(** The history update of [psh_run]: [cmd] is the line just read, already cut
    by [psh_parsecmd], [n] its length. *)
Definition hist_select (h : psh_hist_t) (cmd : bytes) (n : Z) : option (psh_hist_t * Z) :=
  if negb (he h =? hb h) then
    let prev := if he h =? 0 then HISTSZ - 1 else he h - 1 in
    entry ← rd (entries h) prev;
    same ← (if n =? ent_n entry
            then old ← ent_cmd entry; memcmp_eq cmd old n
            else Some false);
    if same : bool then Some (set_he prev h, prev) else Some (h, he h)
  else Some (h, he h).

Definition hist_record (h : psh_hist_t) (cmd : bytes) (n : Z) : option psh_hist_t :=
  '(h, entry) ← hist_select h cmd n;
  h ← set_entry entry (Histent n (Some cmd)) h;
  let h := set_he (Z.rem (he h + 1) HISTSZ) h in
  if he h =? hb h then
    old ← rd (entries h) (hb h);
    h ← set_entry (hb h) (Histent (ent_n old) None) h;
    Some (set_hb (Z.rem (hb h + 1) HISTSZ) h)
  else Some h.

(** ** The abstract view *)

(** Number of live entries. *)
Definition hist_len (h : psh_hist_t) : Z := (he h - hb h) mod HISTSZ.

(** Index of the [i]-th oldest entry. *)
Definition hist_idx (h : psh_hist_t) (i : nat) : Z := (hb h + Z.of_nat i) mod HISTSZ.

(** The stored text of an entry. *)
Definition ent_text (e : psh_histent_t) : bytes :=
  take (Z.to_nat (ent_n e)) (default [] (ent_cmd e)).

Definition hist_at (h : psh_hist_t) (i : nat) : bytes :=
  default [] (ent_text <$> rd (entries h) (hist_idx h i)).

(** The live commands, oldest first. *)
Definition hist_list (h : psh_hist_t) : list bytes :=
  hist_at h <$> seq 0 (Z.to_nat (hist_len h)).

(** What recording [c] means: do not repeat the newest command, keep at most
    [HISTSZ - 1] commands by dropping the oldest. *)
Definition record_spec (l : list bytes) (c : bytes) : list bytes :=
  if bool_decide (last l = Some c) then l
  else if Z.of_nat (length l) =? HISTSZ - 1 then tail l ++ [c] else l ++ [c].

(** An entry that can be recalled: its text lies inside its buffer, which is a
    command buffer of [sz] characters and a NUL. *)
Definition ent_ok (sz : Z) (e : psh_histent_t) : Prop :=
  exists cmd, ent_cmd e = Some cmd /\ 0 <= ent_n e <= sz /\ zlen cmd = sz + 1.

(** Index [i] holds a live entry. *)
Definition hist_live (h : psh_hist_t) (i : Z) : Prop :=
  0 <= i < HISTSZ /\ (i - hb h) mod HISTSZ < hist_len h.

Record hist_ok (sz : Z) (h : psh_hist_t) : Prop := {
  hist_hb : 0 <= hb h < HISTSZ;
  hist_he : 0 <= he h < HISTSZ;
  hist_size : zlen (entries h) = HISTSZ;
  hist_entries : forall i, hist_live h i ->
    exists e, rd (entries h) i = Some e /\ ent_ok sz e;
}.

(** ** Index arithmetic of the ring *)

Section indices.
Context (sz : Z).
Implicit Types (h : psh_hist_t).

Lemma hist_len_range h : 0 <= hist_len h < HISTSZ.
Proof. unfold hist_len, HISTSZ. dlia. Qed.

Lemma hist_idx_range h i : 0 <= hist_idx h i < HISTSZ.
Proof. unfold hist_idx, HISTSZ. dlia. Qed.

Lemma hist_idx_live h i :
  0 <= hb h < HISTSZ -> Z.of_nat i < hist_len h -> hist_live h (hist_idx h i).
Proof.
  intros Hb Hi. split; [apply hist_idx_range|].
  unfold hist_idx, hist_len, HISTSZ in *. dlia.
Qed.

Lemma hist_live_idx h i :
  hist_live h i -> exists k, i = hist_idx h k /\ Z.of_nat k < hist_len h.
Proof.
  intros [Hr Hl]. exists (Z.to_nat ((i - hb h) mod HISTSZ)).
  unfold hist_idx, hist_len, HISTSZ in *. dlia.
Qed.

Lemma hist_list_length h : zlen (hist_list h) = hist_len h.
Proof.
  unfold hist_list. autorewrite with zlen. unfold zlen. rewrite length_seq.
  pose proof (hist_len_range h). lia.
Qed.

Lemma hist_list_lookup h (k : nat) :
  Z.of_nat k < hist_len h -> hist_list h !! k = Some (hist_at h k).
Proof.
  intros Hk. unfold hist_list. rewrite list_lookup_fmap, lookup_seq_lt by lia. done.
Qed.

(** A list that agrees with the ring position by position is its view. *)
Lemma hist_list_eq h (l : list bytes) :
  zlen l = hist_len h ->
  (forall k : nat, Z.of_nat k < hist_len h -> l !! k = Some (hist_at h k)) ->
  hist_list h = l.
Proof.
  intros Hlen Hl. apply list_eq_same_length with (n := length l); [done| |].
  - pose proof (hist_list_length h). unfold zlen in *. lia.
  - intros i x y Hi H1 H2. unfold zlen in *. rewrite Hl in H2 by lia.
    rewrite hist_list_lookup in H1 by lia. congruence.
Qed.

(** A ring whose slot [he] is filled and [he] advanced gains one command. *)
Lemma hist_push h e es :
  hist_ok sz h -> hist_len h < HISTSZ - 1 -> ent_ok sz e ->
  wr (entries h) (he h) e = Some es ->
  let h' := Hist (hb h) (Z.rem (he h + 1) HISTSZ) es in
  hist_ok sz h' /\ hist_list h' = hist_list h ++ [ent_text e].
Proof.
  intros [Hb He Hs Hes] Hl Hok Hw h'.
  assert (hist_len h' = hist_len h + 1) as Hlen.
  { unfold hist_len, HISTSZ in *. simpl. dlia. }
  assert (forall i, hist_live h i -> rd es i = rd (entries h) i) as Hold.
  { intros i [Hi Hi']. rewrite (rd_wr _ _ _ _ _ Hw) by lia.
    destruct (Z.eqb_spec (he h) i) as [<-|]; [|done].
    unfold hist_len in *. lia. }
  assert (rd es (he h) = Some e) as Hnew.
  { rewrite (rd_wr _ _ _ _ _ Hw) by lia. by rewrite Z.eqb_refl. }
  split.
  - constructor; simpl; try done.
    + unfold HISTSZ in *. dlia.
    + by rewrite (wr_zlen _ _ _ _ Hw).
    + intros i [Hi Hi']. destruct (decide (i = he h)) as [->|Hne]; [eauto|].
      assert (hist_live h i) as Hlive.
      { split; [done|]. unfold hist_len, HISTSZ in *. simpl in *. dlia. }
      rewrite Hold by done. by apply Hes.
  - apply hist_list_eq.
    { autorewrite with zlen. rewrite hist_list_length. lia. }
    intros k Hk. rewrite Hlen in Hk.
    destruct (decide (Z.of_nat k < hist_len h)) as [Hlt|Hge].
    + rewrite lookup_app_l by (pose proof (hist_list_length h); unfold zlen in *; lia).
      rewrite hist_list_lookup by done. unfold hist_at.
      replace (hist_idx h' k) with (hist_idx h k) by done. simpl.
      by rewrite Hold by by apply hist_idx_live.
    + rewrite lookup_app_r by (pose proof (hist_list_length h); unfold zlen in *; lia).
      replace (k - length (hist_list h))%nat with 0%nat
        by (pose proof (hist_list_length h); unfold zlen in *; lia).
      simpl. f_equal. unfold hist_at.
      replace (hist_idx h' k) with (he h)
        by (unfold hist_idx, hist_len, HISTSZ in *; simpl; dlia).
      simpl. by rewrite Hnew.
Qed.

(** Dropping the oldest slot of a non-empty ring. *)
Lemma hist_pop h e es :
  hist_ok sz h -> 0 < hist_len h -> wr (entries h) (hb h) e = Some es ->
  let h' := Hist (Z.rem (hb h + 1) HISTSZ) (he h) es in
  hist_ok sz h' /\ hist_list h' = tail (hist_list h) /\ hist_len h' = hist_len h - 1.
Proof.
  intros [Hb He Hs Hes] Hl Hw h'.
  assert (hist_len h' = hist_len h - 1) as Hlen.
  { unfold hist_len, HISTSZ in *. simpl. dlia. }
  assert (forall i, 0 <= i -> i <> hb h -> rd es i = rd (entries h) i) as Hold.
  { intros i Hi Hne. rewrite (rd_wr _ _ _ _ _ Hw) by lia.
    by destruct (Z.eqb_spec (hb h) i) as [<-|]. }
  split_and!; [constructor; simpl; try done| |done].
  - unfold HISTSZ in *. dlia.
  - by rewrite (wr_zlen _ _ _ _ Hw).
  - intros i [Hi Hi']. rewrite Hold; [apply Hes; split; [done|]|lia|];
      unfold hist_len, HISTSZ in *; simpl in *; dlia.
  - apply hist_list_eq.
    { pose proof (hist_list_length h). unfold zlen in *.
      destruct (hist_list h); simpl in *; lia. }
    intros k Hk.
    assert (tail (hist_list h) !! k = hist_list h !! Datatypes.S k) as ->
      by by destruct (hist_list h).
    rewrite hist_list_lookup by lia. f_equal. unfold hist_at.
    replace (hist_idx h' k) with (hist_idx h (Datatypes.S k))
      by (unfold hist_idx, HISTSZ in *; simpl; dlia).
    simpl. rewrite Hold; [done| |]; unfold hist_idx, hist_len, HISTSZ in *; dlia.
Qed.

(** Stepping [he] back over the newest command. *)
Lemma hist_unpush h :
  hist_ok sz h -> 0 < hist_len h ->
  let prev := if he h =? 0 then HISTSZ - 1 else he h - 1 in
  exists e, rd (entries h) prev = Some e /\ ent_ok sz e /\
    hist_ok sz (set_he prev h) /\ hist_len (set_he prev h) = hist_len h - 1 /\
    hist_list h = hist_list (set_he prev h) ++ [ent_text e].
Proof.
  intros [Hb He Hs Hes] Hl prev.
  assert (hist_live h prev) as Hprev.
  { subst prev. split; [|unfold hist_len];
      destruct (Z.eqb_spec (he h) 0); unfold hist_len, HISTSZ in *; dlia. }
  assert (hist_len (set_he prev h) = hist_len h - 1) as Hlen.
  { subst prev. unfold hist_len, HISTSZ in *. simpl.
    destruct (Z.eqb_spec (he h) 0); dlia. }
  destruct (Hes _ Hprev) as (e & Hrd & Hok). exists e.
  split_and!; [done..| |done|].
  - constructor; simpl; try done; [by destruct Hprev|].
    intros i [Hi Hi']. apply Hes. split; [done|].
    rewrite Hlen in Hi'. simpl in *. lia.
  - apply hist_list_eq.
    { autorewrite with zlen. rewrite hist_list_length. lia. }
    intros k Hk. destruct (decide (Z.of_nat k < hist_len h - 1)).
    + rewrite lookup_app_l by (pose proof (hist_list_length (set_he prev h)); unfold zlen in *; lia).
      by rewrite hist_list_lookup by lia.
    + rewrite lookup_app_r by (pose proof (hist_list_length (set_he prev h)); unfold zlen in *; lia).
      replace (k - length (hist_list (set_he prev h)))%nat with 0%nat
        by (pose proof (hist_list_length (set_he prev h)); unfold zlen in *; lia).
      simpl. f_equal. unfold hist_at.
      replace (hist_idx h k) with prev; [by rewrite Hrd|].
      subst prev. unfold hist_idx, hist_len, HISTSZ in *.
      destruct (Z.eqb_spec (he h) 0); dlia.
Qed.
End indices.

(** ** Recording a command *)

Lemma memcmp_eq_ok (a b : bytes) n :
  0 <= n <= zlen a -> n <= zlen b ->
  memcmp_eq a b n = Some (bool_decide (take (Z.to_nat n) a = take (Z.to_nat n) b)).
Proof.
  intros Ha Hb. unfold memcmp_eq.
  by rewrite !rd_range_0 by lia.
Qed.

Lemma ent_text_len sz e : ent_ok sz e -> zlen (ent_text e) = ent_n e.
Proof.
  intros (cmd & Hc & Hn & Hl). unfold ent_text. rewrite Hc. simpl. zlia.
Qed.

(** What [hist_select] leaves: a ring to which the new entry is pushed. *)
Lemma hist_select_ok sz h cmd n :
  hist_ok sz h -> 0 <= n <= sz -> zlen cmd = sz + 1 ->
  exists h1, hist_select h cmd n = Some (h1, he h1) /\ hist_ok sz h1 /\
    ((hist_len h1 = hist_len h - 1 /\ 0 < hist_len h /\
      hist_list h = hist_list h1 ++ [take (Z.to_nat n) cmd]) \/
     (h1 = h /\ last (hist_list h) <> Some (take (Z.to_nat n) cmd))).
Proof.
  intros Hok Hn Hc. unfold hist_select.
  destruct (Z.eqb_spec (he h) (hb h)) as [Heq|Hne]; simpl.
  - exists h. split; [done|]. split; [done|]. right. split; [done|].
    assert (hist_len h = 0) as H0 by (unfold hist_len; rewrite Heq, Z.sub_diag; done).
    pose proof (hist_list_length h) as Hlen. rewrite H0 in Hlen.
    by rewrite (zlen_0_nil _ Hlen).
  - assert (0 < hist_len h) as Hpos.
    { destruct Hok. unfold hist_len, HISTSZ in *. dlia. }
    destruct (hist_unpush sz h Hok Hpos) as (e & -> & He & Hok' & Hlen & Hlist). simpl.
    destruct (Z.eqb_spec n (ent_n e)) as [->|Hnn].
    + pose proof He as (old & Hold & _ & Hol). rewrite Hold. simpl.
      rewrite memcmp_eq_ok by lia. simpl.
      destruct (bool_decide_reflect (take (Z.to_nat (ent_n e)) cmd = take (Z.to_nat (ent_n e)) old))
        as [Heq|Hdiff].
      * match goal with |- exists _, Some (?x, _) = _ /\ _ => exists x end. split; [done|]. split; [done|]. left.
        split; [exact Hlen|]. split; [exact Hpos|].
        rewrite Hlist. unfold ent_text. by rewrite Hold, Heq.
      * exists h. split; [done|]. split; [done|]. right. split; [done|].
        rewrite Hlist, last_snoc. unfold ent_text. rewrite Hold. simpl. congruence.
    + simpl. exists h. split; [done|]. split; [done|]. right. split; [done|].
      rewrite Hlist, last_snoc. intros [= Heq]. apply (f_equal zlen) in Heq.
      rewrite (ent_text_len sz) in Heq by done. zlia.
Qed.

Lemma hist_record_ok sz h cmd n :
  hist_ok sz h -> 0 <= n <= sz -> zlen cmd = sz + 1 ->
  exists h', hist_record h cmd n = Some h' /\ hist_ok sz h' /\
    hist_list h' = record_spec (hist_list h) (take (Z.to_nat n) cmd).
Proof.
  intros Hok Hn Hc. unfold hist_record.
  destruct (hist_select_ok sz h cmd n Hok Hn Hc) as (h1 & -> & Hok1 & Hcase).
  simpl. set (e := Histent n (Some cmd)).
  assert (ent_ok sz e) as He by (exists cmd; done).
  assert (ent_text e = take (Z.to_nat n) cmd) as Het by done.
  destruct (proj2 (wr_is_Some (entries h1) (he h1) e)) as [es Hes].
  { destruct Hok1. lia. }
  unfold set_entry. rewrite Hes. simpl.
  pose proof (hist_len_range h) as Hr. pose proof (hist_len_range h1) as Hr1.
  assert (record_spec (hist_list h) (take (Z.to_nat n) cmd) =
    if hist_len h1 =? HISTSZ - 1 then tail (hist_list h1) ++ [ent_text e]
    else hist_list h1 ++ [ent_text e]) as ->.
  { unfold record_spec. destruct Hcase as [(Hl & Hp & Hlist)|[-> Hlast]].
    - rewrite bool_decide_eq_true_2 by (by rewrite Hlist, last_snoc).
      destruct (Z.eqb_spec (hist_len h1) (HISTSZ - 1)); [lia|]. done.
    - rewrite bool_decide_eq_false_2 by done. fold (zlen (hist_list h)).
      by rewrite hist_list_length. }
  destruct (Z.eqb_spec (Z.rem (he h1 + 1) HISTSZ) (hb h1)) as [Hfull|Hnf].
  - assert (hist_len h1 = HISTSZ - 1) as Hlen.
    { destruct Hok1. unfold hist_len, HISTSZ in *. dlia. }
    rewrite Hlen, Z.eqb_refl.
    destruct (proj2 (rd_is_Some es (hb h1))) as [old Hold].
    { rewrite (wr_zlen _ _ _ _ Hes). destruct Hok1. lia. }
    rewrite Hold. simpl.
    destruct (proj2 (wr_is_Some (entries h1) (hb h1) (Histent (ent_n old) None))) as [es1 Hes1].
    { destruct Hok1. lia. }
    destruct (hist_pop sz h1 _ _ Hok1 ltac:(unfold HISTSZ in *; lia) Hes1) as (Hokp & Hlp & Hlenp).
    set (hp := Hist _ _ es1) in *.
    assert (exists es2, wr es (hb h1) (Histent (ent_n old) None) = Some es2 /\
      wr (entries hp) (he hp) e = Some es2) as (es2 & -> & He2).
    { apply wr_comm with (1 := Hes) (2 := Hes1).
      destruct Hok1. unfold hist_len, HISTSZ in *. dlia. }
    destruct (hist_push sz hp e es2 Hokp ltac:(lia) He He2) as [Hokf Hlf].
    simpl. eexists. split; [done|]. unfold set_hb, set_he. simpl in *.
    split; [done|]. by rewrite Hlf, Hlp.
  - assert (hist_len h1 < HISTSZ - 1) as Hlen.
    { destruct Hok1. unfold hist_len, HISTSZ in *. dlia. }
    destruct (Z.eqb_spec (hist_len h1) (HISTSZ - 1)); [lia|].
    destruct (hist_push sz h1 e es Hok1 Hlen He Hes) as [Hokf Hlf].
    eexists. split; [done|]. by split.
Qed.

(** C1: recording a line never touches memory outside the ring or the entries,
    keeps the ring well formed, and its effect on the list of remembered
    commands is exactly [record_spec]: an immediate repetition is not stored
    twice and the oldest command makes room when the ring is full. *)
Theorem hist_record_refines sz h cmd n :
  hist_ok sz h -> 0 <= n <= sz -> zlen cmd = sz + 1 ->
  exists h', hist_record h cmd n = Some h' /\ hist_ok sz h' /\
    hist_list h' = record_spec (hist_list h) (take (Z.to_nat n) cmd).
Proof. apply hist_record_ok. Qed.

(** A ring that holds one command, ["ls"], in a command buffer of 8 characters. *)
Definition ex_ent : psh_histent_t := Histent 2 (Some (bstr "ls" ++ replicate 7 0)).
Definition ex_hist : psh_hist_t :=
  Hist 0 1 (ex_ent :: replicate (Z.to_nat HISTSZ - 1) (Histent 0 None)).

Lemma ex_hist_ok : hist_ok 8 ex_hist.
Proof.
  constructor; [by vm_compute..|].
  intros i [Hi Hl]. change ((i - 0) mod HISTSZ < 1) in Hl.
  assert (i = 0) as -> by (unfold HISTSZ in *; dlia).
  exists ex_ent. split; [done|]. exists (bstr "ls" ++ replicate 7 0). by vm_compute.
Qed.

Lemma hist_record_refines_witness :
  exists h', hist_record ex_hist (bstr "ps" ++ replicate 7 0) 2 = Some h' /\ hist_ok 8 h' /\
    hist_list h' = [bstr "ls"; bstr "ps"].
Proof.
  destruct (hist_record_refines 8 ex_hist (bstr "ps" ++ replicate 7 0) 2)
    as (h' & H1 & H2 & H3); [apply ex_hist_ok|lia|reflexivity|].
  exists h'. split; [exact H1|]. split; [exact H2|]. rewrite H3. vm_compute. reflexivity.
Defined.
