(* ===== verification/Parse.v ===== *)
(** * Splitting a command line ([psh_parsecmd] of [psh/pshapp/pshapp.c])

    [psh_parsecmd] cuts the line buffer in place with [strtok] and collects the
    word pointers in a growing [argv].  Pointers into the line are offsets. *)

From S2P Require Import Prelude History.

(** The delimiters of the command line. *)
Definition is_delim (c : Z) : bool := (c =? 9) || (c =? 32).

(** Number of leading elements that satisfy [p]. *)
Fixpoint span_len (p : Z -> bool) (l : bytes) : nat :=
  match l with
  | [] => 0
  | c :: l => if p c then Datatypes.S (span_len p l) else 0
  end.

Inductive tok :=
  | TokNull
  | Tok (start : nat) (line : bytes) (next : nat).

(** C's [strtok] on the delimiters above: [pos] is the saved position.  [None]
    is a read past the end of a buffer that holds no NUL. *)
Definition strtok (line : bytes) (pos : nat) : option tok :=
  let start := (pos + span_len is_delim (drop pos line))%nat in
  c ← line !! start;
  if c =? 0 then Some TokNull else
  let stop := (start + span_len (fun c => negb (is_delim c) && negb (c =? 0)%Z) (drop start line))%nat in
  e ← line !! stop;
  if e =? 0 then Some (Tok start line stop)
  else Some (Tok start (<[stop := 0]> line) (Datatypes.S stop)).

(** The [for (;;)] of [psh_parsecmd]; [mem k] is the success of allocation [k]. *)
Fixpoint parsecmd_loop (fuel : nat) (mem : nat -> bool) (line : bytes) (pos : nat)
    (argv : list nat) : option (Z * bytes * list nat) :=
  match fuel with
  | O => None
  | Datatypes.S fuel =>
      t ← strtok line pos;
      match t with
      | TokNull => Some (0, line, argv)
      | Tok arg line pos =>
          if mem (length argv) then parsecmd_loop fuel mem line pos (argv ++ [arg])
          else Some (- ENOMEM, line, [])
      end
  end.

(** Result: the return value, the cut line and [argv] ([argc] is its length). *)
Definition psh_parsecmd (mem : nat -> bool) (line : bytes) : option (Z * bytes * list nat) :=
  let fuel := length line in
  t ← strtok line 0;
  match t with
  | TokNull => Some (- EINVAL, line, [])
  | Tok cmd line pos =>
      if mem 0%nat then parsecmd_loop fuel mem line pos [cmd]
      else Some (- ENOMEM, line, [])
  end.

(** The string an [argv] element points to. *)
Definition arg_at (line : bytes) (off : nat) : bytes := cstr (drop off line).

(** ** Reference: the words of a line *)

Fixpoint words_from (cur : bytes) (l : bytes) : list bytes :=
  match l with
  | [] => if decide (cur = []) then [] else [cur]
  | c :: l =>
      if is_delim c then
        if decide (cur = []) then words_from [] l else cur :: words_from [] l
      else words_from (cur ++ [c]) l
  end.
Definition words (l : bytes) : list bytes := words_from [] l.

(** Every byte is a character of a C string. *)
Definition nonul (s : bytes) : Prop := Forall (fun c => c <> 0) s.

Lemma words_from_word w l cur :
  Forall (fun c => is_delim c = false) w -> words_from cur (w ++ l) = words_from (cur ++ w) l.
Proof.
  intros Hw. revert cur. induction Hw as [|c w Hc Hw IH]; intros cur; simpl.
  - by rewrite app_nil_r.
  - rewrite Hc, IH. by rewrite <-(assoc_L (++)).
Qed.

Lemma words_delims d l : Forall (fun c => is_delim c = true) d -> words (d ++ l) = words l.
Proof. induction 1 as [|c d Hc _ IH]; unfold words; simpl; [done|]. by rewrite Hc. Qed.

Lemma words_word w l :
  w <> [] -> Forall (fun c => is_delim c = false) w ->
  words (w ++ l) = match l with [] => [w] | c :: l' => if is_delim c then w :: words l' else words (w ++ l) end.
Proof.
  intros Hw Hf. destruct l as [|c l].
  - unfold words. rewrite words_from_word by done. simpl. by rewrite decide_False.
  - destruct (is_delim c) eqn:Hc; [|done].
    unfold words. rewrite words_from_word by done. simpl. rewrite Hc. by rewrite decide_False.
Qed.

Lemma span_len_split p l :
  exists a b, l = a ++ b /\ length a = span_len p l /\ Forall (fun c => p c = true) a /\
    match b with [] => True | c :: _ => p c = false end.
Proof.
  induction l as [|c l IH]; simpl.
  - by exists [], [].
  - destruct (p c) eqn:Hc.
    + destruct IH as (a & b & -> & Ha & Hf & Hb). exists (c :: a), b.
      split_and!; [done|simpl; lia|by constructor|done].
    + exists [], (c :: l). by split_and!.
Qed.

Lemma span_len_app p a c b :
  Forall (fun c => p c = true) a -> p c = false -> span_len p (a ++ c :: b) = length a.
Proof. intros Ha Hc. induction Ha as [|x a Hx _ IH]; simpl; [by rewrite Hc|]. by rewrite Hx, IH. Qed.

(** A line is all delimiters, or starts with a word that ends at a delimiter or
    at the end of the line. *)
Lemma line_cases s :
  Forall (fun c => is_delim c = true) s \/
  exists d w t, s = d ++ w ++ t /\ Forall (fun c => is_delim c = true) d /\ w <> [] /\
    Forall (fun c => is_delim c = false) w /\
    match t with [] => True | c :: _ => is_delim c = true end.
Proof.
  destruct (span_len_split is_delim s) as (d & b & -> & _ & Hd & Hb).
  destruct b as [|c b]; [left; by rewrite app_nil_r|]. right.
  destruct (span_len_split (fun c => negb (is_delim c)) (c :: b)) as (w & t & Hwt & Hl & Hw & Ht).
  exists d, w, t. rewrite Hwt. split_and!; [done|done| | |].
  - intros ->. simpl in Hl. by rewrite Hb in Hl.
  - eapply Forall_impl; [exact Hw|]. intros x. apply negb_true_iff.
  - destruct t; [done|]. by apply negb_false_iff in Ht.
Qed.

Lemma nonul_app a b : nonul (a ++ b) <-> nonul a /\ nonul b.
Proof. apply Forall_app. Qed.

Lemma delims_nonul d : Forall (fun c => is_delim c = true) d -> nonul d.
Proof. intros H. eapply Forall_impl; [exact H|]. intros x Hx ->. done. Qed.

Lemma cstr_app s rest : nonul s -> cstr (s ++ 0 :: rest) = s.
Proof.
  induction 1 as [|c s Hc _ IH]; simpl; [done|].
  destruct (Z.eqb_spec c 0); [done|]. by rewrite IH.
Qed.

Lemma arg_at_word pre w rest : nonul w -> arg_at (pre ++ w ++ 0 :: rest) (length pre) = w.
Proof. intros. unfold arg_at. rewrite drop_app_length. by apply cstr_app. Qed.

(** One delimiter after each word became NUL; nothing else changed. *)
Definition cut_of (s' s : bytes) : Prop :=
  Forall2 (fun x y => x = y \/ (x = 0 /\ is_delim y = true)) s' s.

Lemma cut_of_refl s : cut_of s s.
Proof. induction s; constructor; auto. Qed.

Lemma cut_of_app a y s' s :
  is_delim y = true -> cut_of s' s -> cut_of (a ++ 0 :: s') (a ++ y :: s).
Proof.
  intros Hy Hs. apply Forall2_app; [apply cut_of_refl|]. constructor; [by right|done].
Qed.

Section strtok.
Implicit Types (pre d w t rest : bytes).

Lemma strtok_delims pre d rest :
  Forall (fun c => is_delim c = true) d ->
  strtok (pre ++ d ++ 0 :: rest) (length pre) = Some TokNull.
Proof.
  intros Hd. unfold strtok. rewrite drop_app_length.
  rewrite span_len_app by done.
  rewrite (assoc_L (++)).
  rewrite (list_lookup_middle _ _ _ (length pre + length d)) by by rewrite length_app.
  done.
Qed.

(** The two scans of [strtok] on a line whose next word is [w]. *)
Lemma strtok_scan pre d w x y rest :
  Forall (fun c => is_delim c = true) d -> nonul (x :: w) ->
  Forall (fun c => is_delim c = false) (x :: w) -> is_delim y = true \/ y = 0 ->
  strtok (pre ++ d ++ (x :: w) ++ y :: rest) (length pre) =
    Some (if y =? 0
          then Tok (length (pre ++ d)) (pre ++ d ++ (x :: w) ++ y :: rest)
                 (length (pre ++ d ++ x :: w))
          else Tok (length (pre ++ d)) (pre ++ d ++ (x :: w) ++ 0 :: rest)
                 (Datatypes.S (length (pre ++ d ++ x :: w)))).
Proof.
  intros Hd Hn Hw Hy. unfold strtok.
  inversion Hw as [|? ? Hx Hw']; subst. inversion Hn as [|? ? Hx0 Hn']; subst.
  rewrite drop_app_length. simpl ((x :: w) ++ y :: rest).
  rewrite span_len_app by done.
  replace (length pre + length d)%nat with (length (pre ++ d)) by by rewrite length_app.
  rewrite (assoc_L (++)), (list_lookup_middle _ _ _ (length (pre ++ d))) by done. simpl.
  destruct (Z.eqb_spec x 0); [done|]. rewrite drop_app_length.
  change (x :: w ++ y :: rest) with ((x :: w) ++ y :: rest).
  rewrite span_len_app; first last.
  { destruct Hy as [->| ->]; done. }
  { apply Forall_forall. intros c Hc.
    unfold nonul in Hn. rewrite Forall_forall in Hn, Hw. rewrite (Hw c Hc). simpl.
    apply negb_true_iff, Z.eqb_neq. by apply Hn. }
  replace (length (pre ++ d) + length (x :: w))%nat with (length ((pre ++ d) ++ x :: w))
    by by rewrite (length_app (pre ++ d)).
  rewrite (assoc_L (++) (pre ++ d)), list_lookup_middle by done. simpl.
  destruct (y =? 0); rewrite ?insert_middle, <-?(assoc_L (++)); done.
Qed.
End strtok.

Section parsecmd.
Context (mem : nat -> bool) (mem_ok : forall k, mem k = true).

Lemma parsecmd_loop_ok fuel pre s rest argv :
  nonul s -> (length s < fuel)%nat ->
  exists s' offs,
    parsecmd_loop fuel mem (pre ++ s ++ 0 :: rest) (length pre) argv
      = Some (0, pre ++ s' ++ 0 :: rest, argv ++ offs) /\
    cut_of s' s /\ arg_at (pre ++ s' ++ 0 :: rest) <$> offs = words s.
Proof.
  revert pre s argv. induction fuel as [|fuel IH]; intros pre s argv Hs Hf; [lia|].
  destruct (line_cases s) as [Hd|(d & w & t & -> & Hd & Hw0 & Hw & Ht)].
  - simpl. rewrite strtok_delims by done. exists s, []. simpl. rewrite app_nil_r.
    split_and!; [done|apply cut_of_refl|].
    rewrite <-(app_nil_r s), words_delims by done. done.
  - apply nonul_app in Hs as [_ Hs]. apply nonul_app in Hs as [Hnw Hnt].
    destruct w as [|x w]; [done|].
    destruct t as [|y t].
    + rewrite (app_nil_r (x :: w)) in *. cbn [parsecmd_loop]. rewrite <-(assoc_L (++)).
      rewrite strtok_scan by (done || by right). simpl. rewrite mem_ok.
      destruct (IH (pre ++ d ++ x :: w) [] (argv ++ [length (pre ++ d)]))
        as (s' & offs & Hl & Hc & Ha); [done|repeat (rewrite length_app in Hf || simpl in Hf); simpl; lia|].
      apply Forall2_nil_inv_r in Hc as ->. simpl in Hl, Ha.
      rewrite <-!(assoc_L (++)) in Hl. simpl in Hl. rewrite Hl.
      exists (d ++ x :: w), (length (pre ++ d) :: offs).
      rewrite <-?(assoc_L (++)). simpl. split_and!; [done|apply cut_of_refl|].
      rewrite words_delims by done.
      rewrite <-(app_nil_r (x :: w)), words_word by done. simpl.
      f_equal; [|rewrite <-?(assoc_L (++)) in Ha; by destruct offs].
      rewrite (assoc_L (++) pre). by apply (arg_at_word (pre ++ d) (x :: w)).
    + cbn [parsecmd_loop]. rewrite <-?(assoc_L (++)). inversion Hnt as [|? ? Hy Hnt']; subst.
      change ((y :: t) ++ 0 :: rest) with (y :: t ++ 0 :: rest).
      rewrite strtok_scan by (done || by left).
      destruct (Z.eqb_spec y 0); [done|]. simpl. rewrite mem_ok.
      destruct (IH (pre ++ d ++ (x :: w) ++ [0]) t (argv ++ [length (pre ++ d)]))
        as (s' & offs & Hl & Hc & Ha).
      { done. } { repeat (rewrite length_app in Hf || simpl in Hf). lia. }
      replace (length (pre ++ d ++ (x :: w) ++ [0])) with (Datatypes.S (length (pre ++ d ++ x :: w))) in Hl
        by (rewrite !length_app; simpl; rewrite ?length_app; simpl; lia).
      rewrite <-?(assoc_L (++)) in Hl. simpl in Hl. rewrite <-?(assoc_L (++)) in Hl.
      simpl in Hl. rewrite Hl.
      exists (d ++ (x :: w) ++ 0 :: s'), (length (pre ++ d) :: offs).
      rewrite <-?(assoc_L (++)). split_and!.
      * simpl. by rewrite <-?(assoc_L (++)).
      * pose proof (cut_of_app (d ++ x :: w) y s' t Ht Hc) as Hcut.
        by rewrite <-!(assoc_L (++)) in Hcut.
      * rewrite words_delims by done.
        pose proof (words_word (x :: w) (y :: t) Hw0 Hw) as Hww.
        simpl in Hww. rewrite Ht in Hww. simpl. rewrite Hww. f_equal.
        -- rewrite <-(arg_at_word (pre ++ d) (x :: w) (s' ++ 0 :: rest)) by done.
           f_equal. by appeq.
        -- rewrite <-Ha. do 2 f_equal. by appeq.
Qed.
End parsecmd.

(** [psh_parsecmd] is the loop started on an empty [argv], except for its
    return value on a line without words. *)
Lemma psh_parsecmd_loop mem line :
  (forall k, mem k = true) ->
  psh_parsecmd mem line =
    r ← parsecmd_loop (Datatypes.S (length line)) mem line 0 [];
    match strtok line 0 with Some TokNull => Some (- EINVAL, line, []) | _ => Some r end.
Proof.
  intros Hm. unfold psh_parsecmd. cbn [parsecmd_loop].
  destruct (strtok line 0) as [[|arg l p]|]; simpl; [done| |done].
  rewrite Hm. by destruct (parsecmd_loop _ _ _ _ _).
Qed.

(** What [psh_parsecmd] returns, through the loop. *)
Lemma parsecmd_ok mem s rest :
  (forall k, mem k = true) -> nonul s ->
  exists line' argv,
    psh_parsecmd mem (s ++ 0 :: rest) =
      Some (if decide (words s = []) then - EINVAL else 0, line' ++ 0 :: rest, argv) /\
    cut_of line' s /\ arg_at (line' ++ 0 :: rest) <$> argv = words s.
Proof.
  intros Hm Hs. rewrite psh_parsecmd_loop by done.
  destruct (parsecmd_loop_ok mem Hm (Datatypes.S (length (s ++ 0 :: rest))) [] s rest [])
    as (s' & offs & Hl & Hc & Ha); [done|rewrite length_app; simpl; lia|].
  rewrite !app_nil_l in Hl. change (length (@nil Z)) with 0%nat in Hl.
  rewrite Hl. cbn [mbind option_bind].
  destruct (line_cases s) as [Hd|(d & w & t & Heq & Hd & Hw0 & Hw & Ht)].
  - pose proof (strtok_delims [] s rest Hd) as Hn. simpl in Hn. rewrite Hn.
    assert (words s = []) as Hws by (rewrite <-(app_nil_r s), words_delims by done; done).
    rewrite decide_True by done. exists s, []. rewrite Hws.
    split_and!; [done|apply cut_of_refl|done].
  - destruct w as [|x w]; [done|].
    assert (words s <> []) as Hws.
    { rewrite Heq, words_delims, words_word by done. destruct t; [done|]. by rewrite Ht. }
    rewrite decide_False by done. exists s', offs. split; [|done].
    destruct offs as [|o offs]; [by rewrite <-Ha in Hws|].
    cbn [parsecmd_loop] in Hl. destruct (strtok (s ++ 0 :: rest) 0) as [[|? ? ?]|]; by simpl in *.
Qed.

(** C2: on every NUL-terminated line, when memory suffices, [psh_parsecmd]
    returns an error exactly when the line has no word; otherwise it succeeds,
    its [argv] is the list of words of the line in order, and the only
    characters of the line it changed are delimiters, to NUL. *)
Theorem psh_parsecmd_words mem s rest :
  (forall k, mem k = true) -> nonul s ->
  exists line' argv,
    psh_parsecmd mem (s ++ 0 :: rest) =
      Some (if decide (words s = []) then - EINVAL else 0, line' ++ 0 :: rest, argv) /\
    cut_of line' s /\ arg_at (line' ++ 0 :: rest) <$> argv = words s.
Proof. apply parsecmd_ok. Qed.

(** ** Recalling a command from the history *)

Lemma psh_histentcmd_ok cmd src n :
  0 <= n <= zlen src -> n <= zlen cmd ->
  psh_histentcmd cmd (Histent n (Some src)) =
    Some ((nul2sp <$> take (Z.to_nat n) src) ++ drop (Z.to_nat n) cmd).
Proof.
  intros Hs Hc. unfold psh_histentcmd. simpl.
  destruct (list_split_at src n) as (a & b & -> & Ha); [lia|].
  destruct (list_split_at cmd n) as (d & e & -> & Hd); [lia|].
  rewrite <-Ha at 2. rewrite take_zlen_app. rewrite <-Hd. rewrite drop_zlen_app.
  replace (Z.to_nat (zlen d)) with (length a) by (unfold zlen in *; lia).
  apply (for_loop_fill nul2sp [] a b [] d e); zlia.
Qed.

Lemma cut_of_shown s' s :
  cut_of s' s -> nonul s -> Forall (fun c => c <> 9) s -> nul2sp <$> s' = s.
Proof.
  induction 1 as [|x y s' s Hxy _ IH]; intros Hn Ht; [done|].
  inversion Hn; subst. inversion Ht; subst. simpl. f_equal; [|by apply IH].
  unfold nul2sp, is_delim in *.
  destruct Hxy as [->|[-> Hd]].
  - by destruct (Z.eqb_spec y 0).
  - simpl. bprop. destruct Hd; bprop; lia.
Qed.

(** History round trip.  A line without tabs that [psh_parsecmd] has cut
    into words and that is stored as a history entry reads back, through
    [psh_histentcmd], as the line that was typed. *)
Theorem parsecmd_recall mem s rest cmd err line' argv :
  (forall k, mem k = true) -> nonul s -> Forall (fun c => c <> 9) s -> zlen s <= zlen cmd ->
  psh_parsecmd mem (s ++ 0 :: rest) = Some (err, line', argv) ->
  psh_histentcmd cmd (Histent (zlen s) (Some line')) =
    Some (s ++ drop (length s) cmd).
Proof.
  intros Hm Hs Ht Hl Hp.
  destruct (parsecmd_ok mem s rest Hm Hs) as (l & av & Hp' & Hc & _).
  rewrite Hp in Hp'. injection Hp' as _ -> _.
  pose proof (Forall2_length _ _ _ Hc) as Hlen.
  rewrite psh_histentcmd_ok by (zlia; unfold zlen in *; lia).
  unfold zlen. rewrite Nat2Z.id, <-Hlen, take_app_length.
  by rewrite (cut_of_shown l s).
Qed.

Lemma psh_parsecmd_words_witness :
  exists line' argv,
    psh_parsecmd (fun _ => true) (bstr "ls  -l" ++ 0 :: []) = Some (0, line' ++ 0 :: [], argv) /\
    cut_of line' (bstr "ls  -l") /\ arg_at (line' ++ 0 :: []) <$> argv = [bstr "ls"; bstr "-l"].
Proof.
  apply (psh_parsecmd_words (fun _ => true) (bstr "ls  -l") []); [done|].
  repeat constructor; discriminate.
Defined.

Lemma parsecmd_recall_witness :
  psh_histentcmd (replicate 9 7) (Histent 5 (Some (bstr "ls" ++ 0 :: bstr "-l" ++ [0])))
    = Some (bstr "ls -l" ++ replicate 4 7).
Proof.
  apply (parsecmd_recall (fun _ => true) (bstr "ls -l") [] (replicate 9 7) 0 _ [0; 3]%nat);
    [done|repeat constructor; discriminate|repeat constructor; discriminate|vm_compute; done|].
  vm_compute. reflexivity.
Defined.
