(* ===== verification/Complete.v ===== *)
(** * Path completion ([psh_completepath], [psh_printfiles] of [psh/pshapp/pshapp.c])

    The directory listing is what [opendir]/[readdir] deliver: [None] when the
    directory cannot be opened.  [mem k] is the success of the [k]-th allocation
    of the call. *)

From S2P Require Import Prelude Parse.

(** ** Collecting the candidates *)

(** A directory entry: its name ([d_namlen] is the length) and whether
    [d_type == DT_DIR]. *)
Record dirent := Dirent { d_name : bytes; d_isdir : bool }.

(** The entries the loop skips with [continue]. *)
Definition skip_entry (base : bytes) (d : dirent) : bool :=
  (zlen (d_name d) <? zlen base) || negb (strncmp_eq (d_name d) base (length base))
  || ((zlen base =? 0) &&
      (bool_decide (d_name d = bstr ".") || bool_decide (d_name d = bstr ".."))).

(** The stored candidate: the name and its class marker. *)
Definition classify (d : dirent) : bytes :=
  d_name d ++ [if d_isdir d then 47 else 32].

(** The [while (readdir)] loop: [k] is the next allocation, [size] the capacity
    of [files].  The error of a failed allocation makes the caller free
    everything. *)
Fixpoint completepath_loop (mem : nat -> bool) (k : nat) (base : bytes) (size : Z)
    (ents : list dirent) (files : list bytes) : Z * list bytes :=
  match ents with
  | [] => (zlen files, files)
  | d :: ents =>
      if skip_entry base d then completepath_loop mem k base size ents files
      else
        let grow := zlen files =? size in
        if grow && negb (mem k) then (- ENOMEM, [])
        else
          let k := if grow then Datatypes.S k else k in
          let size := if grow then size * 2 else size in
          if negb (mem k) then (- ENOMEM, [])
          else completepath_loop mem (Datatypes.S k) base size ents (files ++ [classify d])
  end.

(** Return value and [*files]. *)
Definition psh_completepath (mem : nat -> bool) (dir : option (list dirent)) (base : bytes)
    : Z * list bytes :=
  match dir with
  | None => (0, [])
  | Some ents =>
      if negb (mem 0%nat) then (- ENOMEM, [])
      else completepath_loop mem 1 base 32 ents []
  end.

(** ** Printing the candidates in columns *)

(** [colsz]: [None] is an element of the [malloc]ed array not yet written. *)
Abbreviation cells := (list (option Z)).

(** [colsz[i]], undefined when the element was never written. *)
Definition rd_cell (c : cells) (i : Z) : option Z := x ← rd c i; x.

(** One attempt with [rows] rows: the column widths and the line length. *)
Definition layout (files : list bytes) (rows cols : Z) (colsz : cells) : option (cells * Z) :=
  let nfiles := zlen files in
  colsz ← for_loop 0 (Z.to_nat cols) (fun i c => wr c i (Some 0)) colsz;
  colsz ← for_loop 0 (Z.to_nat nfiles)
    (fun i c =>
       f ← rd files i;
       let col := Z.quot i rows in
       w ← rd_cell c col;
       if w <? zlen f + 2 then wr c col (Some (zlen f + 2)) else Some c) colsz;
  last ← rd_cell colsz (cols - 1);
  colsz ← wr colsz (cols - 1) (Some (last - 2));
  len ← for_loop 0 (Z.to_nat cols) (fun col len => w ← rd_cell colsz col; Some (len + w)) 0;
  Some (colsz, len).

(** [for (; rows <= nfiles; rows++)]: the final [rows], [cols] and widths. *)
Fixpoint layout_loop (fuel : nat) (ws_col : Z) (files : list bytes) (rows cols : Z)
    (colsz : cells) : option (Z * Z * cells) :=
  let nfiles := zlen files in
  if nfiles <? rows then Some (rows, cols, colsz) else
  match fuel with
  | O => None
  | Datatypes.S fuel =>
      let cols := Z.quot nfiles rows + (if Z.rem nfiles rows =? 0 then 0 else 1) in
      '(colsz, len) ← layout files rows cols colsz;
      if len <? ws_col then Some (rows, cols, colsz)
      else layout_loop fuel ws_col files (rows + 1) cols colsz
  end.

(** [printf("%-*s", width, s)] *)
Definition pad_right (width : Z) (s : bytes) : bytes :=
  s ++ replicate (Z.to_nat (Z.abs width - zlen s)) 32.

(** One printed row: the indices and cell widths of its files. *)
Definition print_row (ws_col rows cols : Z) (files : list bytes) (colsz : cells) (row : Z)
    : option (list (Z * Z)) :=
  for_loop 0 (Z.to_nat cols)
    (fun col line =>
       let i := col * rows + row in
       if zlen files <=? i then Some line
       else
         len ← rd_cell colsz col;
         Some (line ++ [(i, if ws_col <? len then ws_col else len)])) [].

(** [psh_printfiles]: the return value and, row by row, the printed cells (file
    index and field width).  [None] is an access the C program may not make: a
    division by zero columns or a read of an unwritten width. *)
Definition psh_printfiles (ws_col : Z) (mem_ok : bool) (files : list bytes)
    : option (Z * list (list (Z * Z))) :=
  let nfiles := zlen files in
  len ← for_loop 0 (Z.to_nat nfiles) (fun i len => f ← rd files i; Some (len + zlen f)) 0;
  if ws_col =? 0 then None else
  let rows := Z.quot len ws_col + 1 in
  let cols := Z.quot nfiles rows + 1 in
  if negb mem_ok then Some (- ENOMEM, []) else
  '(rows, cols, colsz) ← layout_loop (Datatypes.S (Z.to_nat nfiles)) ws_col files rows cols
    (replicate (Z.to_nat cols) None);
  lines ← for_loop 0 (Z.to_nat rows)
    (fun row lines => l ← print_row ws_col rows cols files colsz row; Some (lines ++ [l])) [];
  Some (0, lines).

(** The characters of the printed table. *)
Definition render_cell (files : list bytes) (cell : Z * Z) : bytes :=
  pad_right (snd cell) (default [] (rd files (fst cell))).
Definition render_table (files : list bytes) (lines : list (list (Z * Z))) : bytes :=
  [13; 10] ++ concat ((fun l => concat (render_cell files <$> l) ++ [13; 10]) <$> lines).

Example printfiles_ex :
  psh_printfiles 20 true (bstr <$> ["alpha "; "beta "; "gamma/"; "d "]%string)
  = Some (0, [[(0, 8); (2, 6)]; [(1, 8); (3, 6)]]).
Proof. vm_compute. reflexivity. Qed.

(** ** Which entries are offered *)

(** A candidate extends [base]; with an empty [base], not [.] or [..]. *)
Definition candidate (base : bytes) (d : dirent) : Prop :=
  base `prefix_of` d_name d /\
  (base = [] -> d_name d <> bstr "." /\ d_name d <> bstr "..").

Lemma strncmp_eq_prefix name base :
  nonul base -> strncmp_eq name base (length base) = true <-> base `prefix_of` name.
Proof.
  intros Hb. revert name. induction Hb as [|b base Hb0 _ IH]; intros name;
    cbn [length strncmp_eq].
  - split; [intros _; apply prefix_nil|done].
  - destruct name as [|x name]; cbn [head tail default].
    + rewrite (proj2 (Z.eqb_neq _ b)) by (simpl; congruence). cbn [andb]. split; [done|].
      intros H. by apply prefix_nil_inv in H.
    + cbn [from_option id]. destruct (Z.eqb_spec x b) as [->|Hne]; cbn [andb].
      * destruct (Z.eqb_spec b 0); [done|]. cbn [orb andb]. rewrite IH. split.
        -- apply prefix_cons.
        -- apply prefix_cons_inv_2.
      * split; [done|]. intros H. by apply prefix_cons_inv_1 in H.
Qed.

Lemma skip_entry_spec base d : nonul base -> skip_entry base d = false <-> candidate base d.
Proof.
  intros Hb. unfold skip_entry, candidate. rewrite !orb_false_iff, negb_false_iff.
  rewrite strncmp_eq_prefix by done. rewrite andb_false_iff, orb_false_iff, !bool_decide_eq_false.
  split.
  - intros [[_ Hp] Hd]. split; [done|]. intros ->. destruct Hd as [Hd|Hd]; [by rewrite zlen_nil in Hd|done].
  - intros [Hp Hd]. pose proof (prefix_length _ _ Hp). split; [split; [|done]|].
    + apply Z.ltb_ge. unfold zlen. lia.
    + destruct base as [|x base]; [right; by apply Hd|left]. apply Z.eqb_neq. zlia.
Qed.

#[export] Instance candidate_dec base d : Decision (candidate base d).
Proof. unfold candidate. apply _. Defined.

(** The loop result for any allocation behaviour. *)
Lemma completepath_loop_ok mem base ents k size files :
  nonul base ->
  let r := files ++ (classify <$> filter (candidate base) ents) in
  completepath_loop mem k base size ents files = (- ENOMEM, []) \/
  completepath_loop mem k base size ents files = (zlen r, r).
Proof.
  intros Hb. revert k size files. induction ents as [|d ents IH]; intros k size files; simpl.
  - right. by rewrite app_nil_r.
  - destruct (skip_entry base d) eqn:Hs.
    + rewrite filter_cons_False; [apply IH|]. rewrite <-skip_entry_spec by done. congruence.
    + rewrite filter_cons_True by by apply skip_entry_spec.
      repeat case_match; try (by left);
        match goal with |- context [completepath_loop _ ?k _ ?sz _ ?fl] =>
          destruct (IH k sz fl) as [->| ->]; [by left|right] end;
        by rewrite fmap_cons, <-(assoc_L (++)).
Qed.

Lemma completepath_loop_mem mem base ents k size files :
  (forall k, mem k = true) -> 0 <= fst (completepath_loop mem k base size ents files).
Proof.
  intros Hm. revert k size files.
  induction ents as [|d ents IH]; intros k size files; simpl; [apply zlen_nonneg|].
  rewrite !Hm. simpl. rewrite andb_false_r. destruct (skip_entry base d); apply IH.
Qed.

(** C37: completion candidates.  For every directory and prefix,
    [psh_completepath] either reports that memory ran out and returns nothing,
    or returns exactly the entries that extend the prefix ([.] and [..] only
    when asked for), in directory order, each marked as directory or file; with
    enough memory the second case holds, whatever the number of entries (the
    array growth is invisible). *)
Theorem completepath_spec mem ents base :
  nonul base ->
  let r := classify <$> filter (candidate base) ents in
  (psh_completepath mem (Some ents) base = (- ENOMEM, []) \/
   psh_completepath mem (Some ents) base = (zlen r, r)) /\
  ((forall k, mem k = true) -> psh_completepath mem (Some ents) base = (zlen r, r)).
Proof.
  intros Hb r. unfold psh_completepath.
  assert (Hor := completepath_loop_ok mem base ents 1 32 [] Hb). simpl in Hor. fold r in Hor.
  split.
  - destruct (mem 0%nat); simpl; [done|by left].
  - intros Hm. rewrite Hm. simpl. destruct Hor as [Hor|Hor]; [|done].
    pose proof (completepath_loop_mem mem base ents 1 32 [] Hm) as Hp.
    rewrite Hor in Hp. unfold ENOMEM in Hp. simpl in Hp. lia.
Qed.

Lemma completepath_spec_witness :
  psh_completepath (fun _ => true)
    (Some [Dirent (bstr "bin") true; Dirent (bstr "dev") true; Dirent (bstr "boot") false])
    (bstr "b") = (2, [bstr "bin/"; bstr "boot "]).
Proof.
  apply (completepath_spec (fun _ => true)
    [Dirent (bstr "bin") true; Dirent (bstr "dev") true; Dirent (bstr "boot") false] (bstr "b")).
  - repeat constructor; discriminate.
  - done.
Defined.
