(* ===== verification/LineEdit.v ===== *)
(** * The interactive line editor ([psh_readcmd] of [psh/pshapp/pshapp.c])

    The state of one [psh_readcmd] call is the record [rdl]; every key branch of
    its [for (;;)] is a definition on it.  The line lives in one buffer of
    [CMDSZ + 1] bytes: [n] characters before the cursor, [m] after it.  The
    abstract view is a zipper (text before, text after, clipboard). *)

From S2P Require Import Prelude History Parse Complete.

(** ** Terminal output *)

(** What is written to the terminal: raw bytes, and the cursor sequences
    [ESC[<p>A/B/C/D] of [psh_movecursor]. *)
Inductive tty_ev :=
  | TWrite (b : bytes)
  | TUp (p : Z) | TDown (p : Z) | TRight (k : Z) | TLeft (k : Z).

Definition PROMPT : bytes := bstr "(psh)% ".
(** [sizeof(PROMPT)], NUL included. *)
Definition PROMPTSZ : Z := zlen PROMPT + 1.
Definition CSI_CLEAR0 : bytes := 27 :: bstr "[0J".
Definition CSI_HOME : bytes := 27 :: bstr "[f".

(** The width that [psh_movecursor] uses: [TIOCGWINSZ], or 80 when it fails. *)
Definition ws_cols (ws : option Z) : Z := default 80 ws.

(** [None] is the division by zero of a terminal that reports no columns. *)
Definition psh_movecursor (ws_col col n : Z) : option (list tty_ev) :=
  if ws_col =? 0 then None else
  let col := Z.rem col ws_col in
  let '(ev, n) :=
    if col + n <? 0 then
      let p := Z.quot (- (col + n) + ws_col - 1) ws_col in ([TUp p], n + p * ws_col)
    else if ws_col - 1 <? col + n then
      let p := Z.quot (col + n) ws_col in ([TDown p], n - p * ws_col)
    else ([], n) in
  Some (ev ++ (if 0 <? n then [TRight n] else if n <? 0 then [TLeft (- n)] else [])).

(** ** Escape sequences *)

Inductive key :=
  | kUp | kDown | kRight | kLeft | kDelete | kHome | kEnd | kCtrlRight | kCtrlLeft
  | kCtrlUp | kCtrlDown | kAltRight | kAltLeft | kAltUp | kAltDown | kAltD.
#[export] Instance key_eq_dec : EqDecision key.
Proof. solve_decision. Defined.

Definition escKeys : list (Z * key) :=
  [(102, kAltRight); (98, kAltLeft); (100, kAltD)].

Definition csiKeys : list (bytes * key) :=
  [(bstr "A", kUp); (bstr "B", kDown); (bstr "C", kRight); (bstr "D", kLeft);
   (bstr "F", kEnd); (bstr "H", kHome); (bstr "1;5C", kCtrlRight); (bstr "1;5D", kCtrlLeft);
   (bstr "1;5A", kCtrlUp); (bstr "1;5B", kCtrlDown); (bstr "1~", kHome); (bstr "3~", kDelete);
   (bstr "4~", kEnd); (bstr "7~", kHome); (bstr "8~", kEnd); (bstr "1;3C", kAltRight);
   (bstr "1;3D", kAltLeft); (bstr "1;3A", kAltUp); (bstr "1;3B", kAltDown)].

Inductive keyres := KAgain | KInval | KKey (k : key).

Fixpoint esc_lookup (tbl : list (Z * key)) (c : Z) : keyres :=
  match tbl with
  | [] => KInval
  | (ch, k) :: tbl => if c =? ch then KKey k else esc_lookup tbl c
  end.

(** The [csiKeys] loop: [None] after it, i.e. no sequence starts with [b]. *)
Fixpoint csi_lookup (tbl : list (bytes * key)) (b : bytes) (esc : Z) : keyres :=
  match tbl with
  | [] => KInval
  | (seq, k) :: tbl =>
      if negb (strncmp_eq b seq (Z.to_nat esc)) then csi_lookup tbl b esc
      else if negb (esc =? zlen seq) then KAgain
      else KKey k
  end.

(** [psh_keyCode(buff, &esc)]: the key and the new value of [*pEsc].  [*pEsc]
    is cleared for the [csiKeys] only. *)
Definition psh_keyCode (buff : bytes) (esc : Z) : option (keyres * Z) :=
  if esc <? 3 then Some (KAgain, esc) else
  b0 ← rd buff 0; b1 ← rd buff 1; b2 ← rd buff 2;
  if (b0 =? 94) && (b1 =? 91) && negb (b2 =? 91) && negb (b2 =? 79) then
    Some (esc_lookup escKeys b2, esc)
  else if esc <? 4 then Some (KAgain, esc)
  else if (b0 =? 94) && (b1 =? 91) && ((b2 =? 91) || (b2 =? 79)) then
    match csi_lookup csiKeys (drop 3 buff) (esc - 3) with
    | KKey k => Some (KKey k, 0)
    | r => Some (r, esc)
    end
  else Some (KInval, esc).

(** ** Word scanning *)

Definition isalnum (c : Z) : bool :=
  ((48 <=? c) && (c <=? 57)) || ((65 <=? c) && (c <=? 90)) || ((97 <=? c) && (c <=? 122)).
Definition isgraph (c : Z) : bool := (33 <=? c) && (c <=? 126).

(** [while ((cur != end) && (iswordchr(cur[0]) == want)) cur += step], with
    [cur], [end] as indices into [buf]. *)
Fixpoint scan (fuel : nat) (buf : bytes) (cur stop step : Z) (p : Z -> bool) : option Z :=
  if cur =? stop then Some cur else
  match fuel with
  | O => None
  | Datatypes.S fuel =>
      c ← rd buf cur;
      if p c then scan fuel buf (cur + step) stop step p else Some cur
  end.

(** [psh_skipword(buf + str, n, iswordchr)]; the fuel is the distance to go. *)
Definition psh_skipword (buf : bytes) (str n : Z) (iswordchr : Z -> bool) : option Z :=
  let stop := str + n in
  let step := if n <? 0 then -1 else 1 in
  let fuel := Z.to_nat (Z.abs n) in
  cur ← scan fuel buf str stop step (fun c => negb (iswordchr c));
  cur ← scan fuel buf cur stop step iswordchr;
  Some (if n <? 0 then str - cur else cur - str).

(** ** State of one [psh_readcmd] call *)

Record rdl := Rdl {
  r_cmd : bytes;          (* [*cmd], [CMDSZ + 1] bytes *)
  r_n : Z; r_m : Z;       (* characters before and after the cursor *)
  r_ln : Z;               (* length of the edited line while in the history *)
  r_hp : Z;               (* history position; [he] when editing *)
  r_esc : Z;              (* escape characters collected in [buff] *)
  r_buff : bytes;         (* [char buff[8]] *)
  r_c : option Z;         (* [c], the last character read; [None] before the first *)
  r_hist : psh_hist_t;
  r_clip : bytes; r_clipLen : Z;     (* [pshapp_common.clipboard] *)
  r_newline : Z; r_exit : Z;         (* [pshapp_common.newline], [.exit] *)
  r_err : Z;
  r_tty : list tty_ev }.             (* output so far *)

Definition set_line (cmd : bytes) (n m : Z) (s : rdl) : rdl :=
  Rdl cmd n m (r_ln s) (r_hp s) (r_esc s) (r_buff s) (r_c s) (r_hist s) (r_clip s)
    (r_clipLen s) (r_newline s) (r_exit s) (r_err s) (r_tty s).
Definition set_nav (ln hp : Z) (s : rdl) : rdl :=
  Rdl (r_cmd s) (r_n s) (r_m s) ln hp (r_esc s) (r_buff s) (r_c s) (r_hist s) (r_clip s)
    (r_clipLen s) (r_newline s) (r_exit s) (r_err s) (r_tty s).
Definition set_esc (esc : Z) (buff : bytes) (s : rdl) : rdl :=
  Rdl (r_cmd s) (r_n s) (r_m s) (r_ln s) (r_hp s) esc buff (r_c s) (r_hist s) (r_clip s)
    (r_clipLen s) (r_newline s) (r_exit s) (r_err s) (r_tty s).
Definition set_c (c : option Z) (s : rdl) : rdl :=
  Rdl (r_cmd s) (r_n s) (r_m s) (r_ln s) (r_hp s) (r_esc s) (r_buff s) c (r_hist s) (r_clip s)
    (r_clipLen s) (r_newline s) (r_exit s) (r_err s) (r_tty s).
Definition set_clip (clip : bytes) (len : Z) (s : rdl) : rdl :=
  Rdl (r_cmd s) (r_n s) (r_m s) (r_ln s) (r_hp s) (r_esc s) (r_buff s) (r_c s) (r_hist s)
    clip len (r_newline s) (r_exit s) (r_err s) (r_tty s).
Definition set_flags (newline exit err : Z) (s : rdl) : rdl :=
  Rdl (r_cmd s) (r_n s) (r_m s) (r_ln s) (r_hp s) (r_esc s) (r_buff s) (r_c s) (r_hist s)
    (r_clip s) (r_clipLen s) newline exit err (r_tty s).
Definition put (ev : list tty_ev) (s : rdl) : rdl :=
  Rdl (r_cmd s) (r_n s) (r_m s) (r_ln s) (r_hp s) (r_esc s) (r_buff s) (r_c s) (r_hist s)
    (r_clip s) (r_clipLen s) (r_newline s) (r_exit s) (r_err s) (r_tty s ++ ev).

Definition set_cmd (cmd : bytes) (s : rdl) : rdl := set_line cmd (r_n s) (r_m s) s.
Definition set_cur (n m : Z) (s : rdl) : rdl := set_line (r_cmd s) n m s.
Definition write (b : bytes) (s : rdl) : rdl := put [TWrite b] s.

(** How the body of the loop ends: next iteration, [break], or [break] after
    [free( *cmd); *cmd = NULL]. *)
Inductive flow := Next (s : rdl) | Leave (s : rdl) | LeaveNull (s : rdl).

Section readcmd.
(** Build and environment: the command buffer size; the terminal width. *)
Context (CMDSZ : Z) (ws_col : Z).

Definition movecursor (col n : Z) (s : rdl) : option rdl :=
  ev ← psh_movecursor ws_col col n; Some (put ev s).

Definition hist_entry (s : rdl) : option psh_histent_t :=
  rd (entries (r_hist s)) (r_hp s).

(** [if (hp != he) { psh_histentcmd(cmd, entries + hp); hp = he; }] *)
Definition recall (s : rdl) : option rdl :=
  if r_hp s =? he (r_hist s) then Some s else
  e ← hist_entry s;
  cmd ← psh_histentcmd (r_cmd s) e;
  Some (set_nav (r_ln s) (he (r_hist s)) (set_cmd cmd s)).

(** [psh_write(STDOUT_FILENO, *cmd + off, len)] *)
Definition echo (off len : Z) (s : rdl) : option rdl :=
  b ← rd_range (r_cmd s) off len; Some (write b s).

(** [memmove( *cmd + dst, *cmd + src, len)] *)
Definition shift (dst src len : Z) (s : rdl) : option rdl :=
  cmd ← memmove (r_cmd s) dst src len; Some (set_cmd cmd s).

(** [memcpy(clipboard, *cmd + off, len); clipboardLen = len] *)
Definition cut (off len : Z) (s : rdl) : option rdl :=
  clip ← memcpy (r_clip s) 0 (r_cmd s) off len; Some (set_clip clip len s).

(** *** Control characters *)

(** SOH: jump to start of the line. *)
Definition key_soh (s : rdl) : option rdl :=
  if 0 <? r_n s then
    s ← movecursor (r_n s + PROMPTSZ - 1) (- r_n s) s;
    Some (set_cur 0 (r_m s + r_n s) s)
  else Some s.

(** STX: move backward by a char. *)
Definition key_stx (s : rdl) : option rdl :=
  if 0 <? r_n s then
    s ← movecursor (r_n s + PROMPTSZ - 1) (-1) s;
    Some (set_cur (r_n s - 1) (r_m s + 1) s)
  else Some s.

(** ETX: cancel command. *)
Definition key_etx (s : rdl) : option rdl :=
  let s := write (bstr "^C") s in
  s ← (if 2 <? r_m s then movecursor (r_n s + PROMPTSZ + 1) (r_m s - 2) s else Some s);
  Some (set_cur 0 0 (write [13; 10] s)).

(** Delete the character under the cursor (EOT and the Delete key). *)
Definition del_char (s : rdl) : option rdl :=
  s ← recall s;
  let s := set_cur (r_n s) (r_m s - 1) s in
  s ← shift (r_n s) (r_n s + 1) (r_m s) s;
  let s := write CSI_CLEAR0 s in
  s ← echo (r_n s) (r_m s) s;
  movecursor (r_n s + r_m s + PROMPTSZ - 1) (- r_m s) s.

(** EOT: delete next character, or exit on an empty line. *)
Definition key_eot (s : rdl) : option flow :=
  if negb (r_m s =? 0) then s ← del_char s; Some (Next s)
  else if r_n s + r_m s =? 0 then
    Some (LeaveNull (set_flags (r_newline s) 1 (r_err s) (write (bstr "exit" ++ [13; 10]) s)))
  else Some (Next s).

(** ENQ: jump to end of the line. *)
Definition key_enq (s : rdl) : option rdl :=
  if 0 <? r_m s then
    s ← movecursor (r_n s + PROMPTSZ - 1) (r_m s) s;
    Some (set_cur (r_n s + r_m s) 0 s)
  else Some s.

(** ACK: move forward by a char. *)
Definition key_ack (s : rdl) : option rdl :=
  if 0 <? r_m s then
    s ← movecursor (r_n s + PROMPTSZ - 1) 1 s;
    Some (set_cur (r_n s + 1) (r_m s - 1) s)
  else Some s.

(** BS: remove last character. *)
Definition key_bs (s : rdl) : option rdl :=
  if negb (r_n s =? 0) then
    s ← recall s;
    let s := write [8] s in
    let s := set_cur (r_n s - 1) (r_m s) s in
    s ← shift (r_n s) (r_n s + 1) (r_m s) s;
    s ← echo (r_n s) (r_m s) s;
    let s := write [32] s in
    movecursor (r_n s + r_m s + PROMPTSZ) (- (r_m s + 1)) s
  else Some s.

(** VT: cut text between cursor and end of line. *)
Definition key_vt (s : rdl) : option rdl :=
  if 0 <? r_m s then
    s ← recall s;
    s ← cut (r_n s) (r_m s) s;
    let s := write CSI_CLEAR0 s in
    Some (set_cur (r_n s) 0 s)
  else Some s.

(** FF: clear screen. *)
Definition key_ff (s : rdl) : option rdl :=
  let s := write (CSI_HOME ++ CSI_CLEAR0) s in
  let s := write PROMPT s in
  s ← (if negb (r_hp s =? he (r_hist s)) then
         e ← hist_entry s; b ← psh_printhistent e; Some (write b s)
       else echo 0 (r_n s + r_m s) s);
  movecursor (r_n s + r_m s + PROMPTSZ - 1) (- r_m s) s.

(** LF or CR: finished reading command. *)
Definition key_newline (c : Z) (s : rdl) : option rdl :=
  let finish (s : rdl) :=
    s ← recall s;
    s ← movecursor (r_n s + PROMPTSZ - 1) (r_m s) s;
    Some (write [13; 10] s) in
  if c =? 13 then finish (set_flags 1 (r_exit s) (r_err s) s)
  else if (c =? 10) && negb (r_newline s =? 0) then
    Some (set_flags 0 (r_exit s) (r_err s) s)
  else finish s.

(** NAK: cut text between beginning of line and cursor. *)
Definition key_nak (s : rdl) : option rdl :=
  if 0 <? r_n s then
    s ← recall s;
    s ← cut 0 (r_n s) s;
    s ← shift 0 (r_n s) (r_m s) s;
    s ← movecursor (r_n s + PROMPTSZ - 1) (- r_n s) s;
    let s := set_cur 0 (r_m s) s in
    s ← echo 0 (r_m s) s;
    let s := write CSI_CLEAR0 s in
    movecursor (r_m s + PROMPTSZ - 1) (- r_m s) s
  else Some s.

(** ETB: cut previous word. *)
Definition key_etb (s : rdl) : option rdl :=
  if 0 <? r_n s then
    s ← recall s;
    i ← psh_skipword (r_cmd s) (r_n s - 1) (- r_n s) isgraph;
    if 0 <? i then
      let s := set_cur (r_n s - i) (r_m s) s in
      s ← cut (r_n s) i s;
      s ← shift (r_n s) (r_n s + i) (r_m s) s;
      s ← movecursor (r_n s + i + PROMPTSZ - 1) (- i) s;
      s ← echo (r_n s) (r_m s) s;
      let s := write CSI_CLEAR0 s in
      movecursor (r_n s + r_m s + PROMPTSZ - 1) (- r_m s) s
    else Some s
  else Some s.

(** EM: paste. *)
Definition key_em (s : rdl) : option rdl :=
  let i := r_clipLen s in
  let i := if CMDSZ <? r_n s + r_m s + i then CMDSZ - r_n s - r_m s else i in
  if 0 <? i then
    s ← recall s;
    s ← shift (r_n s + i) (r_n s) (r_m s) s;
    cmd ← memcpy (r_cmd s) (r_n s) (r_clip s) 0 i;
    let s := set_cmd cmd s in
    s ← echo (r_n s) (i + r_m s) s;
    let s := set_cur (r_n s + i) (r_m s) s in
    movecursor (r_n s + r_m s + PROMPTSZ - 1) (- r_m s) s
  else Some s.

(** Any other control character; ESC starts an escape sequence. *)
Definition key_other (c : Z) (s : rdl) : option rdl :=
  let s := set_flags 0 (r_exit s) (r_err s) s in
  if c =? 27 then
    b ← wr (r_buff s) (r_esc s) 94;
    b ← wr b (r_esc s + 1) 91;
    Some (set_esc (r_esc s + 2) b s)
  else Some s.

(** *** Regular characters and escape sequences *)

Definition key_insert (c : Z) (s : rdl) : option rdl :=
  if r_n s + r_m s <? CMDSZ then
    s ← recall s;
    s ← shift (r_n s + 1) (r_n s) (r_m s) s;
    cmd ← wr (r_cmd s) (r_n s) c;
    let s := set_line cmd (r_n s + 1) (r_m s) s in
    s ← echo (r_n s - 1) (r_m s + 1) s;
    movecursor (r_n s + r_m s + PROMPTSZ - 1) (- r_m s) s
  else Some (write [7] s).

(** Replace the line on the screen: back to its start, clear, prompt. *)
Definition redraw_prompt (s : rdl) : option rdl :=
  s ← movecursor (r_n s + PROMPTSZ - 1) (- (r_n s + PROMPTSZ - 1)) s;
  Some (write PROMPT (write CSI_CLEAR0 s)).

Definition key_up (s : rdl) : option rdl :=
  if negb (r_hp s =? hb (r_hist s)) then
    let s := if r_hp s =? he (r_hist s) then set_nav (r_n s + r_m s) (r_hp s) s else s in
    s ← redraw_prompt s;
    let s := set_nav (r_ln s) (if r_hp s =? 0 then HISTSZ - 1 else r_hp s - 1) s in
    e ← hist_entry s;
    b ← psh_printhistent e;
    Some (set_cur (ent_n e) 0 (write b s))
  else Some s.

Definition key_down (s : rdl) : option rdl :=
  if negb (r_hp s =? he (r_hist s)) then
    s ← redraw_prompt s;
    let s := set_nav (r_ln s) (Z.rem (r_hp s + 1) HISTSZ) s in
    if r_hp s =? he (r_hist s) then
      let s := set_cur (r_ln s) (r_m s) s in
      s ← echo 0 (r_n s) s;
      Some (set_cur (r_n s) 0 s)
    else
      e ← hist_entry s;
      b ← psh_printhistent e;
      Some (set_cur (ent_n e) 0 (write b s))
  else Some s.

Definition key_right (s : rdl) : option rdl :=
  if negb (r_m s =? 0) then
    s ← movecursor (r_n s + PROMPTSZ - 1) 1 s;
    Some (set_cur (r_n s + 1) (r_m s - 1) s)
  else Some s.

Definition key_left (s : rdl) : option rdl :=
  if negb (r_n s =? 0) then
    s ← movecursor (r_n s + PROMPTSZ - 1) (-1) s;
    Some (set_cur (r_n s - 1) (r_m s + 1) s)
  else Some s.

Definition key_end (s : rdl) : option rdl :=
  if negb (r_m s =? 0) then
    s ← movecursor (r_n s + PROMPTSZ - 1) (r_m s) s;
    Some (set_cur (r_n s + r_m s) 0 s)
  else Some s.

Definition key_home (s : rdl) : option rdl :=
  if negb (r_n s =? 0) then
    s ← movecursor (r_n s + PROMPTSZ - 1) (- r_n s) s;
    Some (set_cur 0 (r_m s + r_n s) s)
  else Some s.

Definition key_delete (s : rdl) : option rdl :=
  if negb (r_m s =? 0) then del_char s else Some s.

Definition key_wordleft (s : rdl) : option rdl :=
  if 0 <? r_n s then
    s ← recall s;
    i ← psh_skipword (r_cmd s) (r_n s - 1) (- r_n s) isalnum;
    s ← movecursor (r_n s + PROMPTSZ - 1) (- i) s;
    Some (set_cur (r_n s - i) (r_m s + i) s)
  else Some s.

Definition key_wordright (s : rdl) : option rdl :=
  if 0 <? r_m s then
    s ← recall s;
    i ← psh_skipword (r_cmd s) (r_n s) (r_m s) isalnum;
    s ← movecursor (r_n s + PROMPTSZ - 1) i s;
    Some (set_cur (r_n s + i) (r_m s - i) s)
  else Some s.

(** Alt-d: cut the word after the cursor. *)
Definition key_altd (s : rdl) : option rdl :=
  if 0 <? r_m s then
    s ← recall s;
    i ← psh_skipword (r_cmd s) (r_n s) (r_m s) isalnum;
    if 0 <? i then
      let s := set_cur (r_n s) (r_m s - i) s in
      s ← cut (r_n s) i s;
      s ← shift (r_n s) (r_n s + i) (r_m s) s;
      s ← echo (r_n s) (r_m s) s;
      let s := write CSI_CLEAR0 s in
      movecursor (r_n s + r_m s + PROMPTSZ - 1) (- r_m s) s
    else Some s
  else Some s.

Definition key_do (k : key) (s : rdl) : option rdl :=
  match k with
  | kUp => key_up s | kDown => key_down s | kRight => key_right s | kLeft => key_left s
  | kEnd => key_end s | kHome => key_home s | kDelete => key_delete s
  | kCtrlLeft | kAltLeft => key_wordleft s
  | kCtrlRight | kAltRight => key_wordright s
  | kAltD => key_altd s
  | kCtrlUp | kCtrlDown | kAltUp | kAltDown => Some s
  end.

(** A regular character while an escape sequence is being collected. *)
Definition key_escape (c : Z) (s : rdl) : option rdl :=
  b ← wr (r_buff s) (r_esc s) c;
  let s := set_esc (r_esc s + 1) b s in
  '(k, esc) ← psh_keyCode (r_buff s) (r_esc s);
  let s := set_esc esc (r_buff s) s in
  match k with
  | KInval => s ← recall s; Some (set_esc 0 (r_buff s) s)
  | KAgain => Some s
  | KKey k => key_do k s
  end.

Definition key_regular (c : Z) (s : rdl) : option rdl :=
  if r_esc s =? 0 then key_insert c s else key_escape c s.

(** *** TAB: autocomplete paths

    External code: [resolve_path] (an [errno] or a path), [splitname] (base
    and directory parts), the directory listings, [qsort]; [mem] and
    [mem_print] are the allocations of the two completion functions. *)
Context (resolve_path : bytes -> Z + bytes) (splitname : bytes -> bytes * bytes)
  (listing : bytes -> option (list dirent)) (qsort : list bytes -> list bytes)
  (mem : nat -> bool) (mem_print : bool).

(** [for (i = n; i && path[i - 1] != ' ' && path[i - 1] != '\0'; i--)] *)
Fixpoint word_start (fuel : nat) (path : bytes) (i : Z) : option Z :=
  if i =? 0 then Some 0 else
  match fuel with
  | O => None
  | Datatypes.S fuel =>
      c ← rd path (i - 1);
      if negb (c =? 32) && negb (c =? 0) then word_start fuel path (i - 1) else Some i
  end.

(** Print hints: the candidates, then the prompt and the line again. *)
Definition tab_hints (files : list bytes) (s : rdl) : option flow :=
  s ← movecursor (r_n s + PROMPTSZ - 1) (r_m s) s;
  let files := qsort files in
  '(err, lines) ← psh_printfiles ws_col mem_print files;
  let s := set_flags (r_newline s) (r_exit s) err s in
  if err <? 0 then Some (Leave s) else
  let s := write (render_table files lines) s in
  let s := write PROMPT (write CSI_CLEAR0 s) in
  s ← (if r_hp s =? he (r_hist s) then echo 0 (r_n s + r_m s) s
       else e ← hist_entry s; b ← psh_printhistent e; Some (write b s));
  s ← movecursor (r_n s + r_m s + PROMPTSZ - 1) (- r_m s) s;
  Some (Next s).

(** Complete path: insert the rest of the only candidate. *)
Definition tab_complete (file base : bytes) (s : rdl) : option rdl :=
  s ← recall s;
  let i := zlen file - zlen base in
  let i := if CMDSZ <? r_n s + r_m s + i then CMDSZ - r_n s - r_m s else i in
  s ← shift (r_n s + i) (r_n s) (r_m s) s;
  cmd ← memcpy (r_cmd s) (r_n s) file (zlen base) i;
  let s := set_cmd cmd s in
  s ← echo (r_n s) (i + r_m s) s;
  let s := set_cur (r_n s + i) (r_m s) s in
  movecursor (r_n s + r_m s + PROMPTSZ - 1) (- r_m s) s.

Definition key_tab (s : rdl) : option flow :=
  path ← (if negb (r_hp s =? he (r_hist s)) then e ← hist_entry s; ent_cmd e
          else Some (r_cmd s));
  start ← word_start (Z.to_nat (r_n s)) path (r_n s);
  if start =? r_n s then Some (Next s) else
  c ← rd path (r_n s);
  cutpath ← wr path (r_n s) 0;
  let s := set_c (Some c) s in
  match resolve_path (cstr (drop (Z.to_nat start) cutpath)) with
  | inl errno =>
      if errno =? ENOENT then Some (Next s)
      else Some (Leave (set_flags (r_newline s) (r_exit s) (- errno) s))
  | inr fpath =>
      lastc ← rd path (r_n s - 1);
      flast ← rd fpath (zlen fpath - 1);
      let fpath := if (lastc =? 47) && negb (flast =? 47) then fpath ++ [47] else fpath in
      let '(base, dir) := splitname fpath in
      let '(nfiles, files) := psh_completepath mem (listing dir) base in
      if nfiles <=? 0 then
        let s := set_flags (r_newline s) (r_exit s) nfiles s in
        Some (if nfiles <? 0 then Leave s else Next s)
      else if 1 <? nfiles then tab_hints files s
      else file ← rd files 0; s ← tab_complete file base s; Some (Next s)
  end.

(** *** The loop *)

Definition key_control (c : Z) (s : rdl) : option flow :=
  let s := set_esc 0 (r_buff s) s in
  let next (r : option rdl) := s ← r; Some (Next s) in
  let leave (r : option rdl) := s ← r; Some (Leave s) in
  if c =? 1 then next (key_soh s)
  else if c =? 2 then next (key_stx s)
  else if c =? 3 then leave (key_etx s)
  else if c =? 4 then key_eot s
  else if c =? 5 then next (key_enq s)
  else if c =? 6 then next (key_ack s)
  else if (c =? 8) || (c =? 127) then next (key_bs s)
  else if c =? 9 then key_tab s
  else if c =? 11 then next (key_vt s)
  else if c =? 12 then next (key_ff s)
  else if (c =? 13) || (c =? 10) then leave (key_newline c s)
  else if c =? 21 then next (key_nak s)
  else if c =? 23 then next (key_etb s)
  else if c =? 25 then next (key_em s)
  else next (key_other c s).

(** Whether plain [char] is signed is a property of the target. *)
Context (char_signed : bool).
Definition char_val (c : Z) : Z := if char_signed && (128 <=? c) then c - 256 else c.
Definition is_control (c : Z) : bool := (char_val c <? 32) || (c =? 127).

(** One iteration: [inp] is the byte that [read] stored, [None] when it stored
    none and [c] keeps its value. *)
Definition readcmd_step (inp : option Z) (s : rdl) : option flow :=
  let s := match inp with Some c => set_c (Some c) s | None => s end in
  c ← r_c s;
  if is_control c then key_control c s else s ← key_regular c s; Some (Next s).

(** The iterations for the given input; [Next] when it waits for more. *)
Fixpoint readcmd_loop (input : list (option Z)) (s : rdl) : option flow :=
  match input with
  | [] => Some (Next s)
  | c :: input =>
      f ← readcmd_step c s;
      match f with Next s => readcmd_loop input s | _ => Some f end
  end.

(** [psh_readcmd]: [junk] and [jbuff] are the indeterminate contents of the
    fresh buffers, [tc_raw] and [tc_orig] the results of the two [tcsetattr]. *)
Inductive rdres :=
  | RdWait (s : rdl)                  (* still reading *)
  | RdErr (err : Z) (s : rdl)         (* negative return, no line *)
  | RdLine (len : Z) (cmd : bytes) (s : rdl).

Definition readcmd_start (h : psh_hist_t) (junk jbuff clip : bytes) (clipLen newline exit tc : Z)
    : rdl :=
  write PROMPT (write CSI_CLEAR0
    (Rdl junk 0 0 0 (he h) 0 jbuff None h clip clipLen newline exit tc [])).

Definition readcmd_finish (tc_orig : Z) (f : flow) : option rdres :=
  match f with
  | Next s => Some (RdWait s)
  | LeaveNull s =>
      let err := if (tc_orig <? 0) && (0 <=? r_err s) then tc_orig else r_err s in
      Some (RdErr (if err <? 0 then err else - ENODEV) s)
  | Leave s =>
      let err := if (tc_orig <? 0) && (0 <=? r_err s) then tc_orig else r_err s in
      if err <? 0 then Some (RdErr err s)
      else cmd ← wr (r_cmd s) (r_n s + r_m s) 0; Some (RdLine (r_n s + r_m s) cmd s)
  end.

Definition psh_readcmd (mem_cmd : bool) (tc_raw tc_orig : Z) (h : psh_hist_t)
    (junk jbuff clip : bytes) (clipLen newline exit : Z) (input : list (option Z))
    : option rdres :=
  let s := readcmd_start h junk jbuff clip clipLen newline exit tc_raw in
  if negb mem_cmd then Some (RdErr (- ENOMEM) (set_flags newline exit 0 s))
  else if tc_raw <? 0 then Some (RdErr tc_raw s)
  else f ← readcmd_loop input s; readcmd_finish tc_orig f.
End readcmd.
