(* ===== verification/LineEditSpec.v ===== *)
(** * Correctness of the line editor

    [view s l r] is the abstraction of an editor state: text [l] before and [r]
    after the cursor, read from the command buffer or, while the user browses
    the history, from the entry shown.  Each key is shown to implement its
    operation on (text before, text after, clipboard), without ever leaving the
    command buffer, the clipboard or a history entry. *)

From S2P Require Import Prelude History Parse Complete LineEdit.

Definition view (s : rdl) (l r : bytes) : Prop :=
  r_n s = zlen l /\ r_m s = zlen r /\
  ((r_hp s = he (r_hist s) /\ exists k, r_cmd s = l ++ r ++ k) \/
   (r_hp s <> he (r_hist s) /\ exists e src, hist_entry s = Some e /\ ent_cmd e = Some src /\
      ent_n e = zlen (l ++ r) /\ nul2sp <$> take (Z.to_nat (ent_n e)) src = l ++ r)).

Definition clipboard (s : rdl) : bytes := take (Z.to_nat (r_clipLen s)) (r_clip s).

(** The invariant of the [for (;;)] of [psh_readcmd]. *)
Record inv (CMDSZ : Z) (s : rdl) : Prop := Inv {
  inv_cmd : zlen (r_cmd s) = CMDSZ + 1;
  inv_clip : zlen (r_clip s) = CMDSZ;
  inv_cliplen : 0 <= r_clipLen s <= CMDSZ;
  inv_buff : zlen (r_buff s) = 8;
  inv_esc : 0 <= r_esc s <= 8;
  inv_hist : hist_ok CMDSZ (r_hist s);
  inv_ln : 0 <= r_ln s <= CMDSZ;
  inv_len : r_n s + r_m s <= CMDSZ;
  inv_hp : r_hp s = he (r_hist s) \/ hist_live (r_hist s) (r_hp s);
  inv_view : exists l r, view s l r;
}.

(** ** Scanning words *)

(** Length of the word skipped from the start of [l]: leading delimiters, then
    word characters. *)
Definition skip_len (p : Z -> bool) (l : bytes) : nat :=
  let d := span_len (fun c => negb (p c)) l in
  (d + span_len p (drop d l))%nat.

Lemma span_len_le p l : (span_len p l <= length l)%nat.
Proof. induction l; simpl; [lia|]. destruct (p a); lia. Qed.

Lemma scan_fwd p a b c fuel :
  (length b <= fuel)%nat ->
  scan fuel (a ++ b ++ c) (zlen a) (zlen a + zlen b) 1 p = Some (zlen a + Z.of_nat (span_len p b)).
Proof.
  revert a fuel. induction b as [|x b IH]; intros a fuel Hf.
  - rewrite zlen_nil, Z.add_0_r. destruct fuel; simpl; by rewrite Z.eqb_refl, ?Z.add_0_r.
  - destruct fuel as [|fuel]; [simpl in Hf; lia|]. simpl.
    destruct (Z.eqb_spec (zlen a) (zlen a + zlen (x :: b))); [zlia|].
    rewrite rd_app by done. simpl. destruct (p x); [|by rewrite Z.add_0_r].
    specialize (IH (a ++ [x]) fuel ltac:(simpl in Hf; lia)).
    rewrite <-(assoc_L (++)) in IH. simpl in IH.
    replace (zlen (a ++ [x]) + zlen b) with (zlen a + zlen (x :: b)) in IH by zlia.
    replace (zlen (a ++ [x])) with (zlen a + 1) in IH by zlia.
    rewrite IH. f_equal. lia.
Qed.

Lemma scan_bwd p a c fuel :
  (length a <= fuel)%nat ->
  scan fuel (a ++ c) (zlen a - 1) (-1) (-1) p =
    Some (zlen a - 1 - Z.of_nat (span_len p (reverse a))).
Proof.
  revert c fuel. induction a as [|x a IH] using rev_ind; intros c fuel Hf.
  - rewrite zlen_nil. destruct fuel; done.
  - rewrite length_app in Hf. simpl in Hf. destruct fuel as [|fuel]; [lia|]. simpl.
    destruct (Z.eqb_spec (zlen (a ++ [x]) - 1) (-1)); [zlia|].
    rewrite <-(assoc_L (++)). simpl. rewrite rd_app by zlia. simpl.
    rewrite reverse_snoc. simpl. destruct (p x); [|by rewrite Z.sub_0_r].
    replace (zlen (a ++ [x]) - 1 + -1) with (zlen a - 1) by zlia.
    rewrite IH by lia. f_equal. zlia.
Qed.

Lemma psh_skipword_fwd p a b c :
  psh_skipword (a ++ b ++ c) (zlen a) (zlen b) p = Some (Z.of_nat (skip_len p b)).
Proof.
  unfold psh_skipword, skip_len. pose proof (zlen_nonneg b).
  destruct (Z.ltb_spec (zlen b) 0); [lia|].
  set (q := fun c => negb (p c)). set (d := span_len q b).
  rewrite scan_fwd by (unfold zlen; lia). fold d. cbn [mbind option_bind].
  pose proof (span_len_le q b) as Hd. fold d in Hd.
  assert (a ++ b ++ c = (a ++ take d b) ++ drop d b ++ c) as ->.
  { rewrite <-(assoc_L (++) a). f_equal. by rewrite (assoc_L (++)), take_drop. }
  replace (zlen a + Z.of_nat d) with (zlen (a ++ take d b)) by (zlia; unfold zlen in *; lia).
  replace (zlen a + zlen b) with (zlen (a ++ take d b) + zlen (drop d b))
    by (zlia; unfold zlen in *; lia).
  rewrite scan_fwd by (rewrite length_drop; unfold zlen; lia). simpl. f_equal.
  zlia. unfold zlen in *. lia.
Qed.

Lemma psh_skipword_bwd p a c :
  a <> [] ->
  psh_skipword (a ++ c) (zlen a - 1) (- zlen a) p = Some (Z.of_nat (skip_len p (reverse a))).
Proof.
  intros Ha. unfold psh_skipword, skip_len.
  assert (0 < zlen a) by (destruct a; [done|zlia]).
  destruct (Z.ltb_spec (- zlen a) 0); [|lia].
  set (q := fun c => negb (p c)). set (d := span_len q (reverse a)).
  replace (zlen a - 1 + - zlen a) with (-1) by lia.
  rewrite scan_bwd by (unfold zlen; lia). fold d. cbn [mbind option_bind].
  pose proof (span_len_le q (reverse a)) as Hd. fold d in Hd. rewrite length_reverse in Hd.
  assert (a ++ c = take (length a - d) a ++ drop (length a - d) a ++ c) as ->.
  { by rewrite (assoc_L (++)), take_drop. }
  replace (zlen a - 1 - Z.of_nat d) with (zlen (take (length a - d) a) - 1)
    by (zlia; unfold zlen in *; lia).
  rewrite scan_bwd by (rewrite length_take; unfold zlen; lia). simpl.
  rewrite drop_reverse. f_equal. zlia. unfold zlen in *. lia.
Qed.

Lemma skip_len_le p l : (skip_len p l <= length l)%nat.
Proof.
  unfold skip_len. pose proof (span_len_le (fun c => negb (p c)) l).
  pose proof (span_len_le p (drop (span_len (fun c => negb (p c)) l) l)) as H1.
  rewrite length_drop in H1. lia.
Qed.

Lemma skip_len_pos p x l : (0 < skip_len p (x :: l))%nat.
Proof. unfold skip_len. simpl. destruct (p x) eqn:E; simpl; [rewrite E|]; lia. Qed.

(** ** Symbolic execution of the handlers *)

(** An editing state: the line is [l ++ r], [k] is the unused rest of the
    buffer. *)
Definition edst (l r k : bytes) (s : rdl) : rdl :=
  set_nav (r_ln s) (he (r_hist s)) (set_line (l ++ r ++ k) (zlen l) (zlen r) s).

(** The outcome of a handler: text, clipboard, and what it must not touch. *)
Definition shows (CMDSZ : Z) (s : rdl) (o : option rdl) (l r cb : bytes) : Prop :=
  exists s', o = Some s' /\ inv CMDSZ s' /\ view s' l r /\ clipboard s' = cb /\
    r_hist s' = r_hist s /\ r_esc s' = r_esc s /\ r_exit s' = r_exit s /\ r_buff s' = r_buff s /\
    r_err s' = r_err s.

Section handlers.
Context (CMDSZ : Z) (ws_col : Z) (ws_pos : 0 < ws_col).
Implicit Types (l r k cb : bytes) (s : rdl).

Lemma movecursor_ok col n s : exists ev, movecursor ws_col col n s = Some (put ev s).
Proof.
  unfold movecursor, psh_movecursor. destruct (Z.eqb_spec ws_col 0); [lia|].
  repeat case_match; simplify_eq/=; eauto.
Qed.

Lemma recall_ok s l r :
  inv CMDSZ s -> view s l r ->
  exists k, recall s = Some (edst l r k s) /\ zlen l + zlen r + zlen k = CMDSZ + 1 /\
    zlen l + zlen r <= CMDSZ.
Proof.
  intros Hi (Hn & Hm & Hv). pose proof (inv_cmd _ _ Hi) as Hc.
  pose proof (inv_len _ _ Hi) as Hl. unfold recall.
  destruct Hv as [[He [k Hk]]|(He & e & src & Hent & Hsrc & Hen & Htxt)].
  - rewrite He, Z.eqb_refl. exists k. split.
    + destruct s; simpl in *. unfold edst, set_nav, set_line. simpl. congruence.
    + rewrite Hk in Hc. split; zlia.
  - destruct (Z.eqb_spec (r_hp s) (he (r_hist s))); [done|]. rewrite Hent. simpl.
    assert (ent_n e <= zlen src) as Hle.
    { apply (f_equal zlen) in Htxt. zlia. }
    destruct e as [en ec]. simpl in *. subst ec.
    rewrite psh_histentcmd_ok by zlia. simpl. rewrite Htxt.
    eexists. split; [|split].
    + unfold edst, set_cmd, set_nav, set_line. simpl. rewrite <-(assoc_L (++)).
      by rewrite Hn, Hm.
    + zlia.
    + zlia.
Qed.

(** The end of every editing handler: the line is [l ++ r], the state has left
    the history, and only output, cursor, line and clipboard changed. *)
Lemma shows_intro s s' l r k cb :
  inv CMDSZ s -> r_cmd s' = l ++ r ++ k -> r_n s' = zlen l -> r_m s' = zlen r ->
  zlen l + zlen r + zlen k = CMDSZ + 1 -> zlen l + zlen r <= CMDSZ ->
  zlen (r_clip s') = CMDSZ -> 0 <= r_clipLen s' <= CMDSZ -> clipboard s' = cb ->
  r_hp s' = he (r_hist s) -> r_hist s' = r_hist s -> r_ln s' = r_ln s ->
  r_esc s' = r_esc s -> r_buff s' = r_buff s -> r_exit s' = r_exit s -> r_err s' = r_err s ->
  shows CMDSZ s (Some s') l r cb.
Proof.
  intros [] Hc Hn Hm Hk Hl Hcl Hcll Hcb Hhp Hh Hln He Hb Hex Her.
  assert (view s' l r) as Hv.
  { split_and!; [done..|]. left. rewrite Hhp, Hh. eauto. }
  exists s'. split; [done|]. split; [|done].
  constructor; rewrite ?Hc, ?Hh, ?Hln, ?He, ?Hb, ?Hhp, ?Hn, ?Hm; try done; [zlia|by left|eauto].
Qed.

(** A handler that does nothing, and one that only moves the cursor, keep the
    text; they may stay inside the history. *)
Lemma shows_same s l r :
  inv CMDSZ s -> view s l r -> shows CMDSZ s (Some s) l r (clipboard s).
Proof. intros. by exists s. Qed.

Lemma shows_cursor s l r l' r' ev :
  inv CMDSZ s -> view s l r -> l' ++ r' = l ++ r ->
  shows CMDSZ s (Some (set_cur (zlen l') (zlen r') (put ev s))) l' r' (clipboard s).
Proof.
  intros [] (Hn & Hm & Hv) Heq.
  assert (zlen l' + zlen r' = zlen l + zlen r) as Hlen
    by (apply (f_equal zlen) in Heq; zlia).
  assert (view (set_cur (zlen l') (zlen r') (put ev s)) l' r') as Hv'.
  { split_and!; [done..|]. rewrite Heq. destruct Hv as [[? [k Hk]]|Hv]; [left|by right].
    split; [done|]. exists k. simpl. by rewrite Hk, !(assoc_L (++)), Heq. }
  eexists. split; [done|]. split; [|done].
  constructor; simpl; try done; [zlia|eauto].
Qed.

Lemma put_put a b s : put a (put b s) = put (b ++ a) s.
Proof. unfold put. simpl. by rewrite (assoc_L (++)). Qed.

Lemma put_set_cur a n m s : put a (set_cur n m s) = set_cur n m (put a s).
Proof. done. Qed.

Lemma shows_output s l r ev :
  inv CMDSZ s -> view s l r -> shows CMDSZ s (Some (put ev s)) l r (clipboard s).
Proof.
  intros Hi Hv. pose proof (shows_cursor s l r l r ev Hi Hv eq_refl) as H.
  destruct Hv as (Hn & Hm & _). rewrite <-Hn, <-Hm in H. by destruct s.
Qed.

Ltac start Hi Hv :=
  let k := fresh "k" in let Hk := fresh "Hk" in let Hl := fresh "Hl" in
  let Hr := fresh "Hr" in
  pose proof Hi as []; pose proof Hv as (Hnl & Hmr & _);
  destruct (recall_ok _ _ _ Hi Hv) as (k & Hr & Hk & Hl).

(** One step of a handler: evaluate the record operations, then run the next
    cursor movement. *)
Ltac mv :=
  cbn [mbind option_bind];
  match goal with
  | |- context [movecursor ?w ?c ?n ?s] =>
      let ev := fresh "ev" in let E := fresh "E" in
      destruct (movecursor_ok c n s) as [ev E]; rewrite E; clear E
  end; cbn [mbind option_bind].

Ltac fin j := apply (shows_intro _ _ _ _ j); simpl; try done; try zlia.


Lemma key_bs_ok s l r :
  inv CMDSZ s -> view s l r ->
  shows CMDSZ s (key_bs ws_col s) (take (length l - 1) l) r (clipboard s).
Proof.
  intros Hi Hv. start Hi Hv. unfold key_bs. rewrite Hnl.
  destruct l as [|x l _] using rev_ind; [by apply shows_same|].
  destruct (Z.eqb_spec (zlen (l ++ [x])) 0); [zlia|]. rewrite Hr. simpl.
  destruct (memmove_left l [x] r k (zlen (l ++ [x]) - 1) (zlen (l ++ [x]) - 1 + 1) (zlen r))
    as (e & Hm & He); [zlia..|].
  unfold shift, echo. simpl. rewrite <-(assoc_L (++)), Hm. simpl.
  rewrite rd_range_app by zlia. simpl. mv.
  replace (length (l ++ [x]) - 1)%nat with (length l) by (rewrite length_app; simpl; lia).
  rewrite take_app_length. fin e.
Qed.

Lemma key_soh_ok s l r :
  inv CMDSZ s -> view s l r -> shows CMDSZ s (key_soh ws_col s) [] (l ++ r) (clipboard s).
Proof.
  intros Hi Hv. pose proof Hv as (Hn & Hm & _). unfold key_soh.
  destruct (Z.ltb_spec 0 (r_n s)).
  - mv. simpl. replace (r_m s + r_n s) with (zlen (l ++ r)) by zlia.
    by apply (shows_cursor _ l r []).
  - assert (l = []) as -> by (apply zlen_0_nil; zlia). by apply shows_same.
Qed.

Lemma key_enq_ok s l r :
  inv CMDSZ s -> view s l r -> shows CMDSZ s (key_enq ws_col s) (l ++ r) [] (clipboard s).
Proof.
  intros Hi Hv. pose proof Hv as (Hn & Hm & _). unfold key_enq.
  destruct (Z.ltb_spec 0 (r_m s)).
  - mv. simpl. replace (r_n s + r_m s) with (zlen (l ++ r)) by zlia.
    apply (shows_cursor _ l r (l ++ r) []); [done..|by rewrite app_nil_r].
  - assert (r = []) as -> by (apply zlen_0_nil; zlia).
    rewrite app_nil_r. by apply shows_same.
Qed.

Lemma key_stx_ok s l r :
  inv CMDSZ s -> view s l r ->
  shows CMDSZ s (key_stx ws_col s) (take (length l - 1) l) (drop (length l - 1) l ++ r)
    (clipboard s).
Proof.
  intros Hi Hv. pose proof Hv as (Hn & Hm & _). unfold key_stx.
  destruct (Z.ltb_spec 0 (r_n s)).
  - mv. simpl. set (l1 := take _ _). set (l2 := drop _ _ ++ r).
    replace (r_n s - 1) with (zlen l1) by (subst l1; zlia; unfold zlen in *; lia).
    replace (r_m s + 1) with (zlen l2) by (subst l2; zlia; unfold zlen in *; lia).
    apply (shows_cursor _ l r l1 l2); [done..|]. subst l1 l2.
    by rewrite (assoc_L (++)), take_drop.
  - assert (l = []) as -> by (apply zlen_0_nil; zlia). by apply shows_same.
Qed.

Lemma key_ack_ok s l r :
  inv CMDSZ s -> view s l r ->
  shows CMDSZ s (key_ack ws_col s) (l ++ take 1 r) (drop 1 r) (clipboard s).
Proof.
  intros Hi Hv. pose proof Hv as (Hn & Hm & _). unfold key_ack.
  destruct (Z.ltb_spec 0 (r_m s)).
  - mv. simpl. replace (r_n s + 1) with (zlen (l ++ take 1 r)) by zlia.
    replace (r_m s - 1) with (zlen (drop 1 r)) by zlia.
    apply (shows_cursor _ l r); [done..|]. by rewrite <-(assoc_L (++)), take_drop.
  - assert (r = []) as -> by (apply zlen_0_nil; zlia). simpl.
    rewrite app_nil_r. by apply shows_same.
Qed.

Lemma del_char_ok s l x r :
  inv CMDSZ s -> view s l (x :: r) ->
  shows CMDSZ s (del_char ws_col s) l r (clipboard s).
Proof.
  intros Hi Hv. start Hi Hv. unfold del_char. rewrite Hr. simpl.
  destruct (memmove_left l [x] r k (zlen l) (zlen l + 1) (zlen (x :: r) - 1))
    as (e & Hm & He); [zlia..|].
  unfold shift, echo. simpl in *. rewrite Hm. simpl.
  rewrite rd_range_app by zlia. simpl. mv. fin e.
Qed.

Lemma key_delete_ok s l r :
  inv CMDSZ s -> view s l r ->
  shows CMDSZ s (key_delete ws_col s) l (drop 1 r) (clipboard s).
Proof.
  intros Hi Hv. pose proof Hv as (Hn & Hm & _). unfold key_delete.
  destruct (Z.eqb_spec (r_m s) 0); simpl.
  - assert (r = []) as -> by (apply zlen_0_nil; zlia). by apply shows_same.
  - destruct r as [|x r]; [zlia|]. by apply del_char_ok with (x := x).
Qed.

Lemma key_vt_ok s l r :
  inv CMDSZ s -> view s l r ->
  shows CMDSZ s (key_vt s) l [] (if decide (r = []) then clipboard s else r).
Proof.
  intros Hi Hv. start Hi Hv. unfold key_vt. rewrite Hmr.
  destruct (Z.ltb_spec 0 (zlen r)).
  - rewrite decide_False by (intros ->; zlia). rewrite Hr. simpl.
    destruct (memcpy_to (r_clip s) l r k (zlen l) (zlen r)) as (e & Hm & He); [zlia..|].
    unfold cut. simpl. rewrite Hm. simpl. fin (r ++ k).
    unfold clipboard. simpl. unfold zlen. rewrite Nat2Z.id. apply take_app_length.
  - assert (r = []) as -> by (apply zlen_0_nil; zlia).
    rewrite decide_True by done. by apply shows_same.
Qed.

Lemma key_nak_ok s l r :
  inv CMDSZ s -> view s l r ->
  shows CMDSZ s (key_nak ws_col s) [] r (if decide (l = []) then clipboard s else l).
Proof.
  intros Hi Hv. start Hi Hv. unfold key_nak. rewrite Hnl.
  destruct (Z.ltb_spec 0 (zlen l)).
  - rewrite decide_False by (intros ->; zlia). rewrite Hr. simpl.
    destruct (memcpy_to (r_clip s) [] l (r ++ k) 0 (zlen l)) as (c & Hm & He); [zlia..|].
    unfold cut. simpl in *. rewrite Hm. simpl.
    destruct (memmove_left [] l r k 0 (zlen l) (zlen r)) as (e & Hs & Hle); [zlia..|].
    unfold shift, echo. simpl in *. rewrite Hs. simpl. mv. simpl.
    pose proof (rd_range_app [] r e 0 (zlen r)) as Hrd. simpl in Hrd. rewrite Hrd by done.
    simpl. mv. fin e.
    unfold clipboard. simpl. unfold zlen. rewrite Nat2Z.id. apply take_app_length.
  - assert (l = []) as -> by (apply zlen_0_nil; zlia).
    rewrite decide_True by done. by apply shows_same.
Qed.

(** Splitting a text [i] characters before its end. *)
Lemma split_end l (i : nat) :
  (i <= length l)%nat ->
  exists a b, l = a ++ b /\ length b = i /\ take (length l - i) l = a /\
    drop (length l - i) l = b.
Proof.
  intros Hi. exists (take (length l - i) l), (drop (length l - i) l).
  rewrite take_drop, length_drop. split_and!; [done|lia|done|done].
Qed.

Lemma key_etb_ok s l r :
  let i := skip_len isgraph (reverse l) in
  inv CMDSZ s -> view s l r ->
  shows CMDSZ s (key_etb ws_col s) (take (length l - i) l) r
    (if decide (l = []) then clipboard s else drop (length l - i) l).
Proof.
  intros i Hi Hv. start Hi Hv. unfold key_etb. rewrite Hnl.
  destruct (Z.ltb_spec 0 (zlen l)).
  2:{ assert (l = []) as -> by (apply zlen_0_nil; zlia).
      rewrite decide_True by done. by apply shows_same. }
  assert (l <> []) as Hne by (intros ->; zlia). rewrite decide_False by done.
  rewrite Hr. simpl. rewrite psh_skipword_bwd by done. fold i. cbn [mbind option_bind].
  assert (0 < i)%nat as Hpos.
  { subst i. destruct (reverse l) eqn:E; [|apply skip_len_pos].
    by apply (f_equal reverse) in E; rewrite reverse_involutive in E. }
  pose proof (skip_len_le isgraph (reverse l)) as Hle. fold i in Hle.
  rewrite length_reverse in Hle.
  destruct (split_end l i Hle) as (a & b & Hab & Hb & -> & ->).
  clearbody i. subst l. destruct (Z.ltb_spec 0 (Z.of_nat i)); [|lia].
  assert (Z.of_nat i = zlen b) as -> by (unfold zlen; lia).
  destruct (memcpy_to (r_clip s) a b (r ++ k) (zlen (a ++ b) - zlen b) (zlen b))
    as (c & Hm & He); [zlia..|].
  unfold cut, shift, echo. simpl. rewrite <-(assoc_L (++)), Hm. simpl.
  destruct (memmove_left a b r k (zlen (a ++ b) - zlen b) (zlen (a ++ b) - zlen b + zlen b)
    (zlen r)) as (e & Hs & Hle'); [zlia..|].
  rewrite <-?(assoc_L (++)), Hs. simpl. mv. simpl. rewrite rd_range_app by zlia. simpl.
  mv. fin e.
  unfold clipboard. simpl. unfold zlen. rewrite Nat2Z.id. apply take_app_length.
Qed.

Lemma key_em_ok s l r :
  let i := Z.min (r_clipLen s) (CMDSZ - zlen l - zlen r) in
  inv CMDSZ s -> view s l r ->
  shows CMDSZ s (key_em CMDSZ ws_col s) (l ++ take (Z.to_nat i) (clipboard s)) r (clipboard s).
Proof.
  intros i Hi Hv. start Hi Hv. unfold key_em. rewrite Hnl, Hmr.
  assert ((if CMDSZ <? zlen l + zlen r + r_clipLen s then CMDSZ - zlen l - zlen r
           else r_clipLen s) = i) as ->.
  { subst i. destruct (Z.ltb_spec CMDSZ (zlen l + zlen r + r_clipLen s)); lia. }
  set (b := take (Z.to_nat i) (clipboard s)).
  destruct (Z.ltb_spec 0 i).
  2:{ subst b. replace (Z.to_nat i) with 0%nat by lia. simpl. rewrite app_nil_r.
      by apply shows_same. }
  assert (zlen b = i) as Hb by (subst b; unfold clipboard; zlia).
  assert (r_clip s = b ++ drop (Z.to_nat i) (r_clip s)) as Hclip.
  { subst b. unfold clipboard. rewrite take_take.
    replace (Z.to_nat i `min` Z.to_nat (r_clipLen s))%nat with (Z.to_nat i) by lia.
    by rewrite take_drop. }
  rewrite Hr. simpl.
  destruct (memmove_right l r k (zlen l + i) (zlen l) (zlen r) i) as (g & e & Hm & Hg & He);
    [zlia..|].
  unfold shift, echo. simpl. rewrite Hm. simpl. unfold memcpy.
  rewrite rd_range_0 by zlia.
  replace (take (Z.to_nat i) (r_clip s)) with b
    by (rewrite Hclip at 1; unfold zlen in Hb; by rewrite take_app_length' by lia).
  simpl. rewrite wr_range_app by zlia. simpl.
  rewrite (assoc_L (++) b), rd_range_app by zlia. simpl. mv. fin e.
  all: by rewrite ?(assoc_L (++)).
Qed.

Lemma key_insert_ok s l r c :
  inv CMDSZ s -> view s l r ->
  shows CMDSZ s (key_insert CMDSZ ws_col c s)
    (if zlen l + zlen r <? CMDSZ then l ++ [c] else l) r (clipboard s).
Proof.
  intros Hi Hv. start Hi Hv. unfold key_insert. rewrite Hnl, Hmr.
  destruct (Z.ltb_spec (zlen l + zlen r) CMDSZ); [|by apply shows_output].
  rewrite Hr. simpl.
  destruct (memmove_right l r k (zlen l + 1) (zlen l) (zlen r) 1) as (g & e & Hm & Hg & He);
    [zlia..|].
  unfold shift, echo. simpl. rewrite Hm. simpl.
  destruct g as [|x [|y g]]; [zlia| |zlia]. simpl. rewrite wr_app by done. simpl.
  replace (l ++ c :: r ++ e) with (l ++ (c :: r) ++ e) by done.
  rewrite rd_range_app by zlia. simpl. mv. fin e.
  by rewrite <-(assoc_L (++)).
Qed.

Lemma key_altd_ok s l r :
  let i := skip_len isalnum r in
  inv CMDSZ s -> view s l r ->
  shows CMDSZ s (key_altd ws_col s) l (drop i r)
    (if decide (r = []) then clipboard s else take i r).
Proof.
  intros i Hi Hv. start Hi Hv. unfold key_altd. rewrite Hmr.
  destruct (Z.ltb_spec 0 (zlen r)).
  2:{ assert (r = []) as -> by (apply zlen_0_nil; zlia).
      rewrite decide_True, drop_nil by done. by apply shows_same. }
  assert (r <> []) as Hne by (intros ->; zlia). rewrite decide_False by done.
  rewrite Hr. simpl. rewrite psh_skipword_fwd. fold i. cbn [mbind option_bind].
  assert (0 < i)%nat as Hpos by (subst i; destruct r; [done|apply skip_len_pos]).
  pose proof (skip_len_le isalnum r) as Hle. fold i in Hle. clearbody i.
  assert (r = take i r ++ drop i r) as Hsplit by by rewrite take_drop.
  assert (zlen (take i r) = Z.of_nat i) as Hb by (zlia; unfold zlen in *; lia).
  set (b := take i r) in *. set (a := drop i r) in *. clearbody a b. subst r.
  destruct (Z.ltb_spec 0 (Z.of_nat i)); [|lia]. rewrite <-Hb.
  destruct (memcpy_to (r_clip s) l b (a ++ k) (zlen l) (zlen b)) as (c & Hm & He); [zlia..|].
  unfold cut, shift, echo. simpl. rewrite <-(assoc_L (++)), Hm. simpl.
  destruct (memmove_left l b a k (zlen l) (zlen l + zlen b) (zlen (b ++ a) - zlen b))
    as (e & Hs & Hle'); [zlia..|].
  rewrite <-?(assoc_L (++)), Hs. simpl. rewrite rd_range_app by zlia. simpl. mv. fin e.
  unfold clipboard. simpl. unfold zlen. rewrite Nat2Z.id. apply take_app_length.
Qed.

Lemma key_wordright_ok s l r :
  let i := skip_len isalnum r in
  inv CMDSZ s -> view s l r ->
  shows CMDSZ s (key_wordright ws_col s) (l ++ take i r) (drop i r) (clipboard s).
Proof.
  intros i Hi Hv. start Hi Hv. unfold key_wordright. rewrite Hmr.
  destruct (Z.ltb_spec 0 (zlen r)).
  2:{ assert (r = []) as -> by (apply zlen_0_nil; zlia).
      rewrite take_nil, drop_nil, app_nil_r. by apply shows_same. }
  rewrite Hr. simpl. rewrite psh_skipword_fwd. fold i. mv.
  pose proof (skip_len_le isalnum r) as Hle. fold i in Hle. clearbody i. unfold zlen in *.
  fin k.
  - by rewrite <-!(assoc_L (++)), (assoc_L (++) (take i r)), take_drop.
  - unfold zlen in *. lia.
  - unfold zlen in *. lia.
  - unfold zlen in *. lia.
  - unfold zlen in *. lia.
Qed.

Lemma key_wordleft_ok s l r :
  let i := skip_len isalnum (reverse l) in
  inv CMDSZ s -> view s l r ->
  shows CMDSZ s (key_wordleft ws_col s) (take (length l - i) l)
    (drop (length l - i) l ++ r) (clipboard s).
Proof.
  intros i Hi Hv. start Hi Hv. unfold key_wordleft. rewrite Hnl.
  destruct (Z.ltb_spec 0 (zlen l)).
  2:{ assert (l = []) as -> by (apply zlen_0_nil; zlia). by apply shows_same. }
  assert (l <> []) as Hne by (intros ->; zlia).
  rewrite Hr. simpl. rewrite psh_skipword_bwd by done. fold i. mv.
  pose proof (skip_len_le isalnum (reverse l)) as Hle. fold i in Hle.
  rewrite length_reverse in Hle.
  destruct (split_end l i Hle) as (a & b & Hab & Hb & -> & ->). clearbody i. subst l.
  assert (Z.of_nat i = zlen b) as -> by (unfold zlen; lia).
  fin k. by rewrite <-!(assoc_L (++)).
Qed.

Lemma key_left_ok s l r :
  inv CMDSZ s -> view s l r ->
  shows CMDSZ s (key_left ws_col s) (take (length l - 1) l) (drop (length l - 1) l ++ r)
    (clipboard s).
Proof.
  intros Hi Hv. pose proof (key_stx_ok s l r Hi Hv) as H. pose proof Hv as (Hn & _).
  unfold key_stx, key_left in *.
  destruct (Z.eqb_spec (r_n s) 0), (Z.ltb_spec 0 (r_n s)); simpl in *; try done; zlia.
Qed.

Lemma key_right_ok s l r :
  inv CMDSZ s -> view s l r ->
  shows CMDSZ s (key_right ws_col s) (l ++ take 1 r) (drop 1 r) (clipboard s).
Proof.
  intros Hi Hv. pose proof (key_ack_ok s l r Hi Hv) as H. pose proof Hv as (_ & Hn & _).
  unfold key_ack, key_right in *.
  destruct (Z.eqb_spec (r_m s) 0), (Z.ltb_spec 0 (r_m s)); simpl in *; try done; zlia.
Qed.

Lemma key_home_ok s l r :
  inv CMDSZ s -> view s l r -> shows CMDSZ s (key_home ws_col s) [] (l ++ r) (clipboard s).
Proof.
  intros Hi Hv. pose proof (key_soh_ok s l r Hi Hv) as H. pose proof Hv as (Hn & _).
  unfold key_soh, key_home in *.
  destruct (Z.eqb_spec (r_n s) 0), (Z.ltb_spec 0 (r_n s)); simpl in *; try done; zlia.
Qed.

Lemma key_end_ok s l r :
  inv CMDSZ s -> view s l r -> shows CMDSZ s (key_end ws_col s) (l ++ r) [] (clipboard s).
Proof.
  intros Hi Hv. pose proof (key_enq_ok s l r Hi Hv) as H. pose proof Hv as (_ & Hn & _).
  unfold key_enq, key_end in *.
  destruct (Z.eqb_spec (r_m s) 0), (Z.ltb_spec 0 (r_m s)); simpl in *; try done; zlia.
Qed.

(** *** History browsing *)

Lemma printhistent_ok e :
  ent_ok CMDSZ e -> psh_printhistent e = Some (nul2sp <$> ent_text e).
Proof.
  intros (src & Hs & Hn & Hl). unfold psh_printhistent, ent_text. rewrite Hs. simpl.
  destruct (list_split_at src (ent_n e)) as (a & b & -> & Ha); [lia|].
  replace (Z.to_nat (ent_n e)) with (length a) by (unfold zlen in *; lia).
  rewrite take_app_length. by apply (for_loop_map nul2sp [] a b []).
Qed.

(** The slot before a live one, or before [he], unless it is the oldest. *)
Lemma live_prev h hp :
  hist_ok CMDSZ h -> (hp = he h \/ hist_live h hp) -> hp <> hb h ->
  hist_live h (if hp =? 0 then HISTSZ - 1 else hp - 1) /\
  (if hp =? 0 then HISTSZ - 1 else hp - 1) <> he h.
Proof.
  intros [Hb He _ _] Hhp Hne. unfold hist_live, hist_len, HISTSZ in *.
  destruct (Z.eqb_spec hp 0); destruct Hhp as [->|[? ?]]; (split; [split|]); dlia.
Qed.

Lemma live_next h hp :
  hist_ok CMDSZ h -> hist_live h hp -> hp <> he h ->
  Z.rem (hp + 1) HISTSZ = he h \/ hist_live h (Z.rem (hp + 1) HISTSZ).
Proof.
  intros [Hb He _ _] [? ?] Hne. unfold hist_live, hist_len, HISTSZ in *.
  destruct (Z.eq_dec (Z.rem (hp + 1) 512) (he h)); [by left|right]. split; dlia.
Qed.

Lemma redraw_ok s : exists ev, redraw_prompt ws_col s = Some (put ev s).
Proof.
  unfold redraw_prompt.
  destruct (movecursor_ok (r_n s + PROMPTSZ - 1) (- (r_n s + PROMPTSZ - 1)) s) as [ev ->].
  simpl. unfold write. rewrite !put_put. eauto.
Qed.

(** Showing the live entry [hp]: text, cursor at its end, buffer untouched. *)
Lemma browse_ok s s' hp e :
  inv CMDSZ s -> hist_live (r_hist s) hp -> hp <> he (r_hist s) ->
  rd (entries (r_hist s)) hp = Some e ->
  r_cmd s' = r_cmd s -> r_hp s' = hp -> r_hist s' = r_hist s -> r_n s' = ent_n e -> r_m s' = 0 ->
  0 <= r_ln s' <= CMDSZ -> r_clip s' = r_clip s -> r_clipLen s' = r_clipLen s ->
  r_esc s' = r_esc s -> r_buff s' = r_buff s ->
  inv CMDSZ s' /\ view s' (nul2sp <$> ent_text e) [].
Proof.
  intros [] Hlive Hne Hrd Hc Hhp Hh Hn Hm Hln Hcl Hcll He Hb.
  destruct (hist_entries _ _ inv_hist0 hp Hlive) as (e' & Hrd' & Hok).
  rewrite Hrd in Hrd'. injection Hrd' as <-.
  pose proof Hok as (src & Hsrc & Hen & Hsl).
  assert (view s' (nul2sp <$> ent_text e) []) as Hv.
  { split; [rewrite zlen_fmap, (ent_text_len CMDSZ) by done; done|]. split; [done|].
    right. rewrite Hhp, Hh. split; [done|]. exists e, src. rewrite app_nil_r.
    unfold hist_entry. rewrite Hh, Hhp. split_and!; [done..| |].
    - by rewrite zlen_fmap, (ent_text_len CMDSZ).
    - unfold ent_text. by rewrite Hsrc. }
  split; [|done]. constructor; rewrite ?Hc, ?Hh, ?He, ?Hb, ?Hcl, ?Hcll, ?Hn, ?Hm, ?Hhp;
    try done; [lia|by right|eauto].
Qed.

Lemma key_up_ok s :
  inv CMDSZ s -> r_hp s <> hb (r_hist s) ->
  let hp := if r_hp s =? 0 then HISTSZ - 1 else r_hp s - 1 in
  exists s' e, key_up ws_col s = Some s' /\ rd (entries (r_hist s)) hp = Some e /\
    inv CMDSZ s' /\ view s' (nul2sp <$> ent_text e) [] /\
    r_hp s' = hp /\ hp <> he (r_hist s) /\ r_hist s' = r_hist s /\ r_cmd s' = r_cmd s /\
    clipboard s' = clipboard s /\ r_esc s' = r_esc s /\ r_exit s' = r_exit s /\
    r_ln s' = (if r_hp s =? he (r_hist s) then r_n s + r_m s else r_ln s).
Proof.
  intros Hi Hne hp. pose proof Hi as [].
  destruct (live_prev _ _ inv_hist0 inv_hp0 Hne) as [Hlive Hnhe]. fold hp in Hlive, Hnhe.
  destruct (hist_entries _ _ inv_hist0 hp Hlive) as (e & Hrd & Hok).
  destruct inv_view0 as (l & r & Hn & Hm & _).
  set (ln := if r_hp s =? he (r_hist s) then r_n s + r_m s else r_ln s).
  assert (0 <= ln <= CMDSZ) as Hln by (subst ln; case_match; zlia).
  unfold key_up. destruct (Z.eqb_spec (r_hp s) (hb (r_hist s))); [done|].
  cbn [negb]. set (s1 := if _ =? _ then _ else s).
  assert (s1 = set_nav ln (r_hp s) s) as ->
    by (subst s1 ln; destruct (r_hp s =? he (r_hist s)); [done|by destruct s]).
  destruct (redraw_ok (set_nav ln (r_hp s) s)) as [ev ->]. cbn [mbind option_bind].
  unfold hist_entry. simpl. fold hp. rewrite Hrd. simpl. rewrite (printhistent_ok e Hok).
  simpl. eexists _, e. split; [done|]. split; [done|].
  match goal with |- inv _ ?s2 /\ _ =>
    destruct (browse_ok s s2 hp e Hi Hlive Hnhe Hrd) as [Hi' Hv']; try done end.
Qed.

Lemma key_down_ok s :
  inv CMDSZ s -> r_hp s <> he (r_hist s) ->
  let hp := Z.rem (r_hp s + 1) HISTSZ in
  exists s' l, key_down ws_col s = Some s' /\ inv CMDSZ s' /\ view s' l [] /\
    r_hp s' = hp /\ r_hist s' = r_hist s /\ r_cmd s' = r_cmd s /\ r_ln s' = r_ln s /\
    clipboard s' = clipboard s /\ r_esc s' = r_esc s /\ r_exit s' = r_exit s /\
    if hp =? he (r_hist s) then l = take (Z.to_nat (r_ln s)) (r_cmd s)
    else exists e, rd (entries (r_hist s)) hp = Some e /\ l = nul2sp <$> ent_text e.
Proof.
  intros Hi Hne hp. pose proof Hi as []. destruct inv_hp0 as [?|Hlive]; [done|].
  unfold key_down. destruct (Z.eqb_spec (r_hp s) (he (r_hist s))); [done|]. cbn [negb].
  destruct (redraw_ok s) as [ev ->]. cbn [mbind option_bind]. simpl. fold hp.
  destruct (Z.eqb_spec hp (he (r_hist s))) as [Heq|Hhe].
  - unfold echo. simpl. rewrite rd_range_0 by lia. simpl.
    set (l := take _ _). assert (zlen l = r_ln s) as Hl by (subst l; zlia).
    eexists _, l. split; [done|].
    match goal with |- inv _ ?s2 /\ _ =>
      assert (view s2 l []) as Hv end.
    { split_and!; [done..|]. left. simpl. split; [done|].
      exists (drop (Z.to_nat (r_ln s)) (r_cmd s)). simpl. subst l. by rewrite take_drop. }
    split; [|done]. constructor; simpl; try done; [lia|by left|eauto].
  - destruct (live_next _ _ inv_hist0 Hlive Hne) as [?|Hlive']; [done|]. fold hp in Hlive'.
    destruct (hist_entries _ _ inv_hist0 hp Hlive') as (e & Hrd & Hok).
    unfold hist_entry. simpl. rewrite Hrd. simpl. rewrite (printhistent_ok e Hok). simpl.
    eexists _, _. split; [done|].
    match goal with |- inv _ ?s2 /\ _ =>
      destruct (browse_ok s s2 hp e Hi Hlive' Hhe Hrd) as [Hi' Hv']; try done end.
    split; [done|]. split; [done|]. split_and!; eauto.
Qed.

Lemma key_ff_ok s l r :
  inv CMDSZ s -> view s l r -> shows CMDSZ s (key_ff ws_col s) l r (clipboard s).
Proof.
  intros Hi Hv. pose proof Hi as []. pose proof Hv as (Hn & Hm & Hs). unfold key_ff. simpl.
  destruct Hs as [[Hhe [k Hk]]|(Hhe & e & src & Hent & _)].
  - rewrite Hhe, Z.eqb_refl. simpl. unfold echo. simpl.
    rewrite rd_range_0 by zlia. simpl.
    mv. unfold write. rewrite !put_put. by apply shows_output.
  - destruct (Z.eqb_spec (r_hp s) (he (r_hist s))); [done|]. simpl.
    destruct inv_hp0 as [?|Hlive]; [done|].
    destruct (hist_entries _ _ inv_hist0 _ Hlive) as (e' & Hrd & Hok).
    unfold hist_entry in *. simpl. rewrite Hrd. simpl. rewrite (printhistent_ok e' Hok). simpl.
    mv. unfold write. rewrite !put_put. by apply shows_output.
Qed.

Lemma inv_set_esc s e b l r :
  inv CMDSZ s -> view s l r -> 0 <= e <= 8 -> zlen b = 8 ->
  inv CMDSZ (set_esc e b s) /\ view (set_esc e b s) l r.
Proof.
  intros [] (?&?&Hv) He Hb. assert (view (set_esc e b s) l r) as Hv' by done.
  split; [|done]. constructor; simpl; try done; eauto.
Qed.

Lemma inv_set_flags s a b c l r :
  inv CMDSZ s -> view s l r ->
  inv CMDSZ (set_flags a b c s) /\ view (set_flags a b c s) l r.
Proof.
  intros [] Hv. assert (view (set_flags a b c s) l r) as Hv' by done.
  split; [|done]. constructor; simpl; try done; eauto.
Qed.

Lemma key_other_ok s l r c :
  inv CMDSZ s -> view s l r -> r_esc s = 0 ->
  exists s', key_other c s = Some s' /\ inv CMDSZ s' /\ view s' l r /\
    clipboard s' = clipboard s /\ r_hist s' = r_hist s /\ r_exit s' = r_exit s.
Proof.
  intros Hi Hv He. unfold key_other.
  destruct (inv_set_flags s 0 (r_exit s) (r_err s) l r Hi Hv) as [Hi' Hv'].
  destruct (c =? 27); [|by eexists]. pose proof Hi as []. simpl. rewrite He.
  destruct (proj2 (wr_is_Some (r_buff s) 0 94)) as [b Hb]; [lia|].
  pose proof (wr_zlen _ _ _ _ Hb) as Hl. rewrite Hb. cbn [mbind option_bind].
  destruct (proj2 (wr_is_Some b (0 + 1) 91)) as [b' Hb']; [lia|].
  pose proof (wr_zlen _ _ _ _ Hb') as Hl'. rewrite Hb'. simpl.
  eexists. split; [done|].
  destruct (inv_set_esc _ 2 b' l r Hi' Hv') as [Hi2 Hv2]; [lia|lia|]. done.
Qed.

(** Enter: the buffer holds the whole line, whatever was shown. *)
Lemma key_newline_ok c s l r :
  inv CMDSZ s -> view s l r -> (c = 13 \/ r_newline s = 0 \/ r_hp s = he (r_hist s)) ->
  exists s' k, key_newline ws_col c s = Some s' /\ r_cmd s' = l ++ r ++ k /\
    r_n s' = zlen l /\ r_m s' = zlen r /\ inv CMDSZ s' /\ r_err s' = r_err s /\
    r_hist s' = r_hist s /\ r_exit s' = r_exit s.
Proof.
  intros Hi Hv Hc. unfold key_newline.
  assert (forall f, exists s' k, (s0 ← recall (set_flags f (r_exit s) (r_err s) s);
     s1 ← movecursor ws_col (r_n s0 + PROMPTSZ - 1) (r_m s0) s0;
     Some (write [13; 10] s1)) = Some s' /\ r_cmd s' = l ++ r ++ k /\
    r_n s' = zlen l /\ r_m s' = zlen r /\ inv CMDSZ s' /\ r_err s' = r_err s /\
      r_hist s' = r_hist s /\ r_exit s' = r_exit s) as Hfin.
  { intros f. destruct (inv_set_flags s f (r_exit s) (r_err s) l r Hi Hv) as [Hi' Hv'].
    set (sf := set_flags _ _ _ s) in *. start Hi' Hv'. rewrite Hr. mv.
    assert (shows CMDSZ sf (Some (write [13; 10] (put ev (edst l r k sf)))) l r (clipboard sf))
      as (s' & [= <-] & His & _) by fin k.
    eexists _, k. done. }
  destruct (Z.eqb_spec c 13); [apply Hfin|].
  destruct ((c =? 10) && negb (r_newline s =? 0)) eqn:Hskip.
  - bprop. destruct Hc as [?|[?|Hhp]]; [lia|lia|].
    destruct Hv as (Hn & Hm & [[_ [k Hk]]|[? _]]); [|done].
    exists (set_flags 0 (r_exit s) (r_err s) s), k. simpl.
    destruct (inv_set_flags s 0 (r_exit s) (r_err s) l r Hi) as [Hi' _]; [|done].
    split_and!; [done..|left; eauto].
  - specialize (Hfin (r_newline s)).
    replace (set_flags (r_newline s) (r_exit s) (r_err s) s) with s in Hfin by by destruct s.
    done.
Qed.
End handlers.

(** ** The editing operations, abstractly

    On (text before, text after, clipboard). *)

Abbreviation zip := (bytes * bytes * bytes)%type.

Definition z_home : zip -> zip := fun '(l, r, cb) => ([], l ++ r, cb).
Definition z_end : zip -> zip := fun '(l, r, cb) => (l ++ r, [], cb).
Definition z_left (i : nat) : zip -> zip :=
  fun '(l, r, cb) => (take (length l - i) l, drop (length l - i) l ++ r, cb).
Definition z_right (i : nat) : zip -> zip :=
  fun '(l, r, cb) => (l ++ take i r, drop i r, cb).
Definition z_backspace : zip -> zip := fun '(l, r, cb) => (take (length l - 1) l, r, cb).
Definition z_delete : zip -> zip := fun '(l, r, cb) => (l, drop 1 r, cb).
Definition z_kill_end : zip -> zip :=
  fun '(l, r, cb) => (l, [], if decide (r = []) then cb else r).
Definition z_kill_begin : zip -> zip :=
  fun '(l, r, cb) => ([], r, if decide (l = []) then cb else l).
Definition z_kill_left (i : nat) : zip -> zip :=
  fun '(l, r, cb) =>
    (take (length l - i) l, r, if decide (l = []) then cb else drop (length l - i) l).
Definition z_kill_right (i : nat) : zip -> zip :=
  fun '(l, r, cb) => (l, drop i r, if decide (r = []) then cb else take i r).
(** Insert as much of [t] as fits in [sz] characters. *)
Definition z_insert (sz : Z) (t : bytes) : zip -> zip :=
  fun '(l, r, cb) => (l ++ take (Z.to_nat (sz - zlen l - zlen r)) t, r, cb).

(** What a control character does to the line ([c] not Enter, ^C, TAB). *)
Definition abs_control (sz c : Z) (z : zip) : zip :=
  let '(l, r, cb) := z in
  if c =? 1 then z_home z
  else if c =? 2 then z_left 1 z
  else if c =? 4 then z_delete z
  else if c =? 5 then z_end z
  else if c =? 6 then z_right 1 z
  else if (c =? 8) || (c =? 127) then z_backspace z
  else if c =? 11 then z_kill_end z
  else if c =? 21 then z_kill_begin z
  else if c =? 23 then z_kill_left (skip_len isgraph (reverse l)) z
  else if c =? 25 then z_insert sz cb z
  else z.

(** What a decoded key does to the line (keys other than Up and Down). *)
Definition abs_key (k : key) (z : zip) : zip :=
  let '(l, r, cb) := z in
  match k with
  | kRight => z_right 1 z | kLeft => z_left 1 z
  | kEnd => z_end z | kHome => z_home z | kDelete => z_delete z
  | kCtrlLeft | kAltLeft => z_left (skip_len isalnum (reverse l)) z
  | kCtrlRight | kAltRight => z_right (skip_len isalnum r) z
  | kAltD => z_kill_right (skip_len isalnum r) z
  | _ => z
  end.

Definition at_zip (s : rdl) (z : zip) : Prop :=
  let '(l, r, cb) := z in view s l r /\ clipboard s = cb.

Lemma key_eqb_ne c n : c <> n -> (c =? n) = false.
Proof. apply Z.eqb_neq. Qed.

Section refinement.
Context (CMDSZ ws_col : Z) (ws_pos : 0 < ws_col)
  (resolve_path : bytes -> Z + bytes) (splitname : bytes -> bytes * bytes)
  (listing : bytes -> option (list dirent)) (qsort : list bytes -> list bytes)
  (mem : nat -> bool) (mem_print : bool) (char_signed : bool).

Abbreviation control := (key_control CMDSZ ws_col resolve_path splitname listing qsort mem mem_print).
Abbreviation step :=
  (readcmd_step CMDSZ ws_col resolve_path splitname listing qsort mem mem_print char_signed).
Abbreviation loop :=
  (readcmd_loop CMDSZ ws_col resolve_path splitname listing qsort mem mem_print char_signed).

(** From the outcome of a handler to the outcome of the iteration. *)
Lemma shows_next s o l r cb :
  shows CMDSZ s o l r cb ->
  exists s', (s' ← o; Some (Next s')) = Some (Next s') /\ inv CMDSZ s' /\ at_zip s' (l, r, cb) /\
    r_hist s' = r_hist s /\ r_esc s' = r_esc s /\ r_exit s' = r_exit s.
Proof. intros (s' & -> & Hi & Hv & Hcb & ? & ? & ? & _). by exists s'. Qed.

(** Control characters that edit the line or move the cursor. *)
Definition edit_control (c : Z) (r : bytes) : Prop :=
  c <> 3 /\ c <> 9 /\ c <> 10 /\ c <> 13 /\ (c = 4 -> r <> []).

(** C35: every editing control character (^A ^B ^D ^E ^F ^H ^K ^L ^U ^W ^Y, DEL,
    and the ignored ones), pressed in any reachable editor state, performs its
    abstract operation on the text around the cursor and the clipboard and
    keeps the editor's invariant, also when the line shown comes from the
    history. *)
Theorem control_key_refines s l r c :
  inv CMDSZ s -> view s l r -> edit_control c r ->
  exists s', control c s = Some (Next s') /\ inv CMDSZ s' /\
    at_zip s' (abs_control CMDSZ c (l, r, clipboard s)) /\
    r_hist s' = r_hist s /\ r_exit s' = r_exit s.
Proof.
  intros Hi Hv (H3 & H9 & H10 & H13 & H4). unfold key_control.
  rewrite (key_eqb_ne c 3), (key_eqb_ne c 9), (key_eqb_ne c 10), (key_eqb_ne c 13) by done.
  cbn [orb].
  pose proof Hi as []. destruct (inv_set_esc CMDSZ s 0 (r_buff s) l r Hi Hv) as [Hi0 Hv0];
    [lia|done|].
  set (s0 := set_esc 0 (r_buff s) s) in *.
  assert (clipboard s = clipboard s0) as -> by done.
  assert (forall o l' r' cb', shows CMDSZ s0 o l' r' cb' ->
    abs_control CMDSZ c (l, r, clipboard s0) = (l', r', cb') ->
    exists s', (s' ← o; Some (Next s')) = Some (Next s') /\ inv CMDSZ s' /\
      at_zip s' (abs_control CMDSZ c (l, r, clipboard s0)) /\
      r_hist s' = r_hist s /\ r_exit s' = r_exit s) as Hnext.
  { intros o l' r' cb' Hs ->. destruct (shows_next _ _ _ _ _ Hs) as (s' & ? & ? & ? & ? & _ & ?).
    by exists s'. }
  unfold abs_control in *.
  destruct (Z.eqb_spec c 1); [eapply Hnext; [by apply key_soh_ok|done]|].
  destruct (Z.eqb_spec c 2); [eapply Hnext; [by apply key_stx_ok|done]|].
  destruct (Z.eqb_spec c 4) as [->|].
  { unfold key_eot. destruct r as [|x r]; [by specialize (H4 eq_refl)|].
    pose proof Hv0 as (_ & Hm & _).
    destruct (Z.eqb_spec (r_m s0) 0); [zlia|]. cbn [negb].
    eapply Hnext; [by apply del_char_ok with (x := x)|done]. }
  destruct (Z.eqb_spec c 5); [eapply Hnext; [by apply key_enq_ok|done]|].
  destruct (Z.eqb_spec c 6); [eapply Hnext; [by apply key_ack_ok|done]|].
  destruct ((c =? 8) || (c =? 127)); [eapply Hnext; [by apply key_bs_ok|done]|].
  destruct (Z.eqb_spec c 11); [eapply Hnext; [by apply key_vt_ok|done]|].
  destruct (Z.eqb_spec c 12) as [->|]; [eapply Hnext; [by apply key_ff_ok|done]|].
  destruct (Z.eqb_spec c 21); [eapply Hnext; [by apply key_nak_ok|done]|].
  destruct (Z.eqb_spec c 23); [eapply Hnext; [by apply key_etb_ok|done]|].
  destruct (Z.eqb_spec c 25).
  { eapply Hnext; [by apply key_em_ok|]. unfold z_insert.
    assert (take (Z.to_nat (CMDSZ - zlen l - zlen r)) (clipboard s0) =
      take (Z.to_nat (Z.min (r_clipLen s0) (CMDSZ - zlen l - zlen r))) (clipboard s0)) as ->;
      [|done].
    unfold clipboard. rewrite !take_take. f_equal. lia. }
  destruct (key_other_ok CMDSZ s0 l r c) as (s' & -> & ? & ? & ? & ? & ?); [done..|].
  exists s'. done.
Qed.

(** A regular character typed outside an escape sequence is inserted before
    the cursor when the line holds fewer than [CMDSZ] characters; otherwise
    the text is left alone and the bell is rung. *)
Theorem regular_key_inserts s l r c :
  inv CMDSZ s -> view s l r -> r_esc s = 0 ->
  exists s', key_regular CMDSZ ws_col c s = Some s' /\ inv CMDSZ s' /\
    at_zip s' (z_insert CMDSZ [c] (l, r, clipboard s)) /\
    (CMDSZ <= zlen l + zlen r -> s' = write [7] s).
Proof.
  intros Hi Hv He. unfold key_regular. rewrite He. simpl.
  destruct (key_insert_ok CMDSZ ws_col ws_pos s l r c Hi Hv) as (s' & Hs' & Hi' & Hv' & Hc' & _).
  pose proof Hv as (Hn & Hm & _).
  exists s'. split; [done|]. split; [done|]. split.
  - split; [|done]. destruct (Z.ltb_spec (zlen l + zlen r) CMDSZ).
    + by rewrite take_ge by (simpl; lia).
    + replace (Z.to_nat (CMDSZ - zlen l - zlen r)) with 0%nat by lia.
      simpl. by rewrite app_nil_r.
  - intros Hfull. unfold key_insert in Hs'. rewrite Hn, Hm in Hs'.
    destruct (Z.ltb_spec (zlen l + zlen r) CMDSZ); [lia|]. by injection Hs'.
Qed.

(** Every decoded editing key (arrows left/right, Home, End, Delete, word
    left/right, Alt-d) performs its abstract operation. *)
Theorem decoded_key_refines s l r k :
  inv CMDSZ s -> view s l r -> k <> kUp -> k <> kDown ->
  exists s', key_do ws_col k s = Some s' /\ inv CMDSZ s' /\
    at_zip s' (abs_key k (l, r, clipboard s)) /\
    r_hist s' = r_hist s /\ r_esc s' = r_esc s.
Proof.
  intros Hi Hv Hup Hdown.
  assert (forall o l' r' cb', shows CMDSZ s o l' r' cb' ->
    abs_key k (l, r, clipboard s) = (l', r', cb') ->
    exists s', o = Some s' /\ inv CMDSZ s' /\ at_zip s' (abs_key k (l, r, clipboard s)) /\
      r_hist s' = r_hist s /\ r_esc s' = r_esc s) as Hnext.
  { intros o l' r' cb' (s' & ? & ? & ? & ? & ? & ? & _) ->. by exists s'. }
  destruct k; try done; simpl key_do;
    (eapply Hnext; [|reflexivity]);
    eauto using key_right_ok, key_left_ok, key_delete_ok, key_home_ok, key_end_ok,
      key_wordleft_ok, key_wordright_ok, key_altd_ok, shows_same.
Qed.

(** *** Safety of every iteration *)

Lemma keyCode_ok buff esc :
  zlen buff = 8 -> exists k e, psh_keyCode buff esc = Some (k, e) /\ (e = esc \/ e = 0).
Proof.
  intros Hb. unfold psh_keyCode. destruct (esc <? 3); [eauto|].
  destruct (proj2 (rd_is_Some buff 0)) as [b0 ->]; [lia|].
  destruct (proj2 (rd_is_Some buff 1)) as [b1 ->]; [lia|].
  destruct (proj2 (rd_is_Some buff 2)) as [b2 ->]; [lia|]. simpl.
  repeat case_match; eauto.
Qed.

Lemma key_do_safe s k :
  inv CMDSZ s ->
  exists s', key_do ws_col k s = Some s' /\ inv CMDSZ s' /\
    r_hist s' = r_hist s /\ r_esc s' = r_esc s.
Proof.
  intros Hi. pose proof Hi as []. destruct inv_view0 as (l & r & Hv).
  destruct (decide (k = kUp)) as [->|Hup]; [|destruct (decide (k = kDown)) as [->|Hdown]].
  - simpl. destruct (decide (r_hp s = hb (r_hist s))) as [He|He].
    + unfold key_up. rewrite He, Z.eqb_refl. by exists s.
    + destruct (key_up_ok CMDSZ ws_col ws_pos s Hi He) as (s' & e & ? & ? & ? & ? & ? & ? & ? & ? & ? & ? & _).
      by exists s'.
  - simpl. destruct (decide (r_hp s = he (r_hist s))) as [He|He].
    + unfold key_down. rewrite He, Z.eqb_refl. by exists s.
    + destruct (key_down_ok CMDSZ ws_col ws_pos s Hi He) as (s' & e & ? & ? & ? & ? & ? & ? & ? & ? & ? & _).
      by exists s'.
  - assert (exists l' r' cb', shows CMDSZ s (key_do ws_col k s) l' r' cb')
      as (l' & r' & cb' & s' & ? & ? & _ & _ & ? & ? & _).
    { destruct k; try done; simpl; do 3 eexists;
        eauto using key_right_ok, key_left_ok, key_delete_ok, key_home_ok, key_end_ok,
          key_wordleft_ok, key_wordright_ok, key_altd_ok, shows_same. }
    by exists s'.
Qed.

(** Collecting one more escape character: the store into [buff] is the only
    access that can leave its object. *)
Lemma key_escape_safe s c :
  inv CMDSZ s -> r_esc s < 8 ->
  exists s', key_escape ws_col c s = Some s' /\ inv CMDSZ s' /\ r_hist s' = r_hist s.
Proof.
  intros Hi He. pose proof Hi as []. destruct inv_view0 as (l & r & Hv).
  unfold key_escape. destruct (proj2 (wr_is_Some (r_buff s) (r_esc s) c)) as [b Hb]; [lia|].
  pose proof (wr_zlen _ _ _ _ Hb) as Hbl. rewrite Hb. cbn [mbind option_bind].
  cbn [r_buff r_esc set_esc].
  destruct (keyCode_ok b (r_esc s + 1)) as (k & e & -> & Hke); [lia|].
  cbn [mbind option_bind].
  destruct (inv_set_esc CMDSZ s e b l r Hi Hv) as [Hi' Hv']; [lia|lia|].
  set (s1 := set_esc e b (set_esc (r_esc s + 1) b s)).
  replace s1 with (set_esc e b s) by done. clear s1.
  destruct k as [| |k].
  - eauto.
  - destruct (recall_ok CMDSZ _ l r Hi' Hv') as (k & -> & Hk & Hl).
    cbn [mbind option_bind]. eexists. split; [done|]. split; [|done].
    destruct Hi'. constructor; simpl; try done; [zlia|by left|].
    exists l, r. split_and!; [done..|]. left. eauto.
  - destruct (key_do_safe _ k Hi') as (s' & ? & ? & ? & _). eauto.
Qed.

(** What holds after an iteration: the invariant, or, when the loop is left,
    what storing the final NUL needs. *)
Definition flow_ok (f : flow) : Prop :=
  match f with
  | Next s => inv CMDSZ s
  | Leave s => zlen (r_cmd s) = CMDSZ + 1 /\ 0 <= r_n s /\ 0 <= r_m s /\ r_n s + r_m s <= CMDSZ
  | LeaveNull s => r_n s + r_m s = 0
  end.

Lemma inv_leave s : inv CMDSZ s -> flow_ok (Leave s).
Proof. intros []. destruct inv_view0 as (l & r & ? & ? & _). simpl. zlia. Qed.

Lemma inv_set_c s c : inv CMDSZ s -> inv CMDSZ (set_c c s).
Proof. by intros []. Qed.

Lemma key_etx_safe s :
  inv CMDSZ s -> exists s', key_etx ws_col s = Some s' /\ flow_ok (Leave s').
Proof.
  intros Hi. pose proof (inv_leave s Hi) as (Hc & Hn & Hm & Hl). unfold key_etx.
  destruct (2 <? r_m _).
  - set (s1 := write (bstr "^C") s). set (col := r_n s1 + PROMPTSZ + 1).
    destruct (movecursor_ok ws_col ws_pos col (r_m s1 - 2) s1) as [ev ->].
    eexists. split; [reflexivity|]. simpl. lia.
  - eexists. split; [reflexivity|]. simpl. lia.
Qed.

Lemma key_newline_safe s c :
  inv CMDSZ s -> exists s', key_newline ws_col c s = Some s' /\ flow_ok (Leave s').
Proof.
  intros Hi. pose proof (inv_leave s Hi) as (Hc & Hn & Hm & Hl).
  pose proof Hi as []. destruct inv_view0 as (l & r & Hv).
  destruct (decide (c = 13 \/ r_newline s = 0 \/ r_hp s = he (r_hist s))) as [Hnl|Hnl].
  - destruct (key_newline_ok CMDSZ ws_col ws_pos c s l r Hi Hv Hnl)
      as (s' & k & ? & _ & _ & _ & Hi' & _). exists s'. split; [done|by apply inv_leave].
  - unfold key_newline. destruct (Z.eqb_spec c 13); [lia|].
    destruct (Z.eqb_spec c 10) as [->|Hc10].
    + destruct (Z.eqb_spec (r_newline s) 0); [lia|]. simpl. by eexists.
    + destruct (recall_ok CMDSZ s l r Hi Hv) as (k & Hr & Hk & Hlr). simpl. rewrite Hr. simpl.
      set (s1 := edst l r k s). set (col := zlen l + PROMPTSZ - 1).
      destruct (movecursor_ok ws_col ws_pos col (zlen r) s1) as [ev Hev].
      rewrite Hev. simpl. eexists. split; [done|]. simpl. zlia.
Qed.

(** The TAB key is treated separately. *)
Lemma control_safe s c :
  inv CMDSZ s -> c <> 9 -> exists f, control c s = Some f /\ flow_ok f.
Proof.
  intros Hi H9. pose proof Hi as []. destruct inv_view0 as (l & r & Hv).
  destruct (inv_set_esc CMDSZ s 0 (r_buff s) l r Hi Hv) as [Hi0 Hv0]; [lia|done|].
  destruct (decide (c = 3)) as [->|H3].
  { unfold key_control. cbn [Z.eqb Pos.eqb].
    destruct (key_etx_safe _ Hi0) as (s' & -> & ?). by exists (Leave s'). }
  destruct (decide (c = 13 \/ c = 10)) as [Hnl|Hnl].
  { destruct (key_newline_safe _ c Hi0) as (s' & Hs' & ?). exists (Leave s').
    unfold key_control. destruct Hnl as [->| ->]; cbn [Z.eqb Pos.eqb orb]; by rewrite Hs'. }
  destruct (decide (c = 4 /\ r = [])) as [[-> ->]|H4].
  { unfold key_control, key_eot. cbn [Z.eqb Pos.eqb orb].
    pose proof Hv0 as (Hn & Hm & _). rewrite Hm, Hn. cbn [zlen length Z.of_nat Z.eqb negb].
    destruct (Z.eqb_spec (zlen l + zlen (@nil Z)) 0); eexists; (split; [reflexivity|]);
      [simpl in *; zlia|done]. }
  destruct (control_key_refines s l r c Hi Hv) as (s' & ? & ? & _).
  { split_and!; [done|done|tauto|tauto|]. intros -> ->. tauto. }
  by exists (Next s').
Qed.

(** C36: memory safety of the editor.  From a state that satisfies the
    invariant and in which the escape buffer [buff[8]] is not full (keys after Alt-f fill
    it, and the next one is stored behind it, [alt_key_overflows_buff]), the iteration
    for any character other than TAB stays inside every buffer (command buffer,
    clipboard, history, escape buffer) and re-establishes the invariant. *)
Theorem readcmd_step_safe s c :
  inv CMDSZ s -> c <> 9 -> r_esc s < 8 ->
  exists f, step (Some c) s = Some f /\ flow_ok f.
Proof.
  intros Hi H9 He. unfold readcmd_step. simpl.
  pose proof (inv_set_c s (Some c) Hi) as Hi'. set (s1 := set_c (Some c) s) in *.
  destruct (is_control char_signed c); [by apply control_safe|].
  unfold key_regular. destruct (Z.eqb_spec (r_esc s1) 0).
  - pose proof Hi' as []. destruct inv_view0 as (l & r & Hv).
    destruct (key_insert_ok CMDSZ ws_col ws_pos s1 l r c Hi' Hv) as (s' & -> & ? & _).
    by exists (Next s').
  - destruct (key_escape_safe s1 c Hi' He) as (s' & -> & ? & _). by exists (Next s').
Qed.

(** *** The escape buffer *)

(** ESC starts a sequence. *)
Lemma esc_step s l r :
  inv CMDSZ s -> view s l r ->
  exists s' rest, step (Some 27) s = Some (Next s') /\ inv CMDSZ s' /\ view s' l r /\
    r_buff s' = 94 :: 91 :: rest /\ r_esc s' = 2.
Proof.
  intros Hi Hv. pose proof Hi as []. unfold readcmd_step. cbn [mbind option_bind r_c set_c].
  replace (is_control char_signed 27) with true by by destruct char_signed.
  unfold key_control, key_other. cbn [Z.eqb Pos.eqb orb r_buff r_esc r_exit r_err set_c set_esc set_flags].
  destruct (r_buff s) as [|x [|y rest]] eqn:E; [zlia..|].
  change (x :: y :: rest) with ([] ++ x :: y :: rest).
  rewrite (wr_app [] x 94 (y :: rest) 0) by done. cbn [mbind option_bind app].
  change (94 :: y :: rest) with ([94] ++ y :: rest).
  rewrite (wr_app [94] y 91 rest (0 + 1)) by done. cbn [mbind option_bind app].
  eexists _, rest. split; [reflexivity|].
  match goal with |- inv _ ?x /\ _ => replace x with
    (set_esc 2 (94 :: 91 :: rest) (set_flags 0 (r_exit s) (r_err s) (set_c (Some 27) s))) by done end.
  destruct (inv_set_flags CMDSZ (set_c (Some 27) s) 0 (r_exit s) (r_err s) l r) as [Hi1 Hv1];
    [by apply inv_set_c|done|].
  destruct (inv_set_esc CMDSZ _ 2 (94 :: 91 :: rest) l r Hi1 Hv1) as [Hi2 Hv2]; [lia|zlia|].
  split; [exact Hi2|]. split; [exact Hv2|]. done.
Qed.

(** [buff] holds the start of an Alt-f sequence. *)
Definition alt_f (s : rdl) : Prop :=
  exists rest, r_buff s = 94 :: 91 :: 102 :: rest /\ zlen rest = 5.

(** One regular character stored in the escape buffer when the result starts
    with ESC f: a word move to the right, escape state kept. *)
Lemma alt_store_step s c l r b rest :
  inv CMDSZ s -> view s l r -> 2 <= r_esc s < 8 -> is_control char_signed c = false ->
  wr (r_buff s) (r_esc s) c = Some b -> b = 94 :: 91 :: 102 :: rest ->
  exists s' l' r', step (Some c) s = Some (Next s') /\ inv CMDSZ s' /\ view s' l' r' /\
    l' ++ r' = l ++ r /\ r_buff s' = b /\ r_esc s' = r_esc s + 1.
Proof.
  intros Hi Hv He Hc Hb Hbr. pose proof Hi as []. pose proof (wr_zlen _ _ _ _ Hb) as Hbl.
  unfold readcmd_step. cbn [mbind option_bind r_c set_c]. rewrite Hc.
  unfold key_regular. cbn [r_esc set_c]. destruct (Z.eqb_spec (r_esc s) 0); [lia|].
  unfold key_escape. cbn [r_esc r_buff set_c]. rewrite Hb. cbn [mbind option_bind].
  unfold psh_keyCode. cbn [r_esc r_buff set_esc set_c].
  destruct (Z.ltb_spec (r_esc s + 1) 3); [lia|]. subst b. simpl.
  set (b := 94 :: 91 :: 102 :: rest) in *.
  destruct (inv_set_esc CMDSZ (set_c (Some c) s) (r_esc s + 1) b l r) as [Hi' Hv'];
    [by apply inv_set_c|done|lia|lia|].
  set (s1 := set_esc (r_esc s + 1) b (set_c (Some c) s)) in *.
  match goal with |- context [key_wordright _ ?x] => replace x with s1 by done end.
  destruct (key_wordright_ok CMDSZ ws_col ws_pos s1 l r Hi' Hv')
    as (s' & Hs' & Hi2 & Hv2 & _ & _ & He2 & _ & Hb2 & _).
  rewrite Hs'. simpl. eexists s', _, _. split; [done|]. split; [done|]. split; [exact Hv2|].
  split; [by rewrite <-(assoc_L (++)), take_drop|]. done.
Qed.

Lemma loop_app a b s :
  loop (a ++ b) s = f ← loop a s; match f with Next s' => loop b s' | _ => Some f end.
Proof.
  revert s. induction a as [|c a IH]; intros s; [done|]. simpl.
  destruct (readcmd_step _ _ _ _ _ _ _ _ _ _ _) as [[s'| |]|]; simpl; [apply IH|done..].
Qed.

Lemma alt_f_loop cs s l r :
  inv CMDSZ s -> view s l r -> alt_f s -> 3 <= r_esc s -> r_esc s + zlen cs <= 8 ->
  Forall (fun c => is_control char_signed c = false) cs ->
  exists s' l' r', loop (Some <$> cs) s = Some (Next s') /\ inv CMDSZ s' /\ view s' l' r' /\
    l' ++ r' = l ++ r /\ alt_f s' /\ r_esc s' = r_esc s + zlen cs.
Proof.
  revert s l r. induction cs as [|c cs IH]; intros s l r Hi Hv Ha He Hl Hcs.
  { exists s, l, r. rewrite zlen_nil, Z.add_0_r. done. }
  inversion Hcs as [|? ? Hc Hcs']; subst. rewrite zlen_cons in *.
  pose proof (zlen_nonneg cs). pose proof Ha as (rest & Hr & Hrl).
  destruct (proj2 (wr_is_Some (r_buff s) (r_esc s) c)) as [b Hb]; [rewrite Hr; zlia|].
  assert (exists rest', b = 94 :: 91 :: 102 :: rest' /\ zlen rest' = 5) as (rest' & Hb' & Hl').
  { rewrite Hr in Hb. unfold wr in Hb. case_match; [|done]. injection Hb as <-.
    destruct (Z.to_nat (r_esc s)) as [|[|[|i]]] eqn:E; [lia..|]. simpl.
    eexists. split; [done|]. zlia. }
  destruct (alt_store_step s c l r b rest' Hi Hv ltac:(lia) Hc Hb Hb')
    as (s1 & l1 & r1 & Hs1 & Hi1 & Hv1 & Ht1 & Hb1 & He1).
  destruct (IH s1 l1 r1) as (s2 & l2 & r2 & Hs2 & ? & ? & Ht2 & ? & He2); try done; try lia.
  { exists rest'. by rewrite Hb1. }
  exists s2, l2, r2. split; [|split_and!; try done; [congruence|lia]].
  cbn [fmap list_fmap readcmd_loop]. by rewrite Hs1.
Qed.

(** [psh_keyCode] does not clear [*pEsc] for Alt-f, so in every state the
    keys ESC f leave the editor in its escape state: the next five regular
    characters are not inserted (the text stays what it was), and the sixth is
    stored outside [char buff[8]]. *)
Theorem alt_key_overflows_buff s l r c1 c2 c3 c4 c5 c6 :
  inv CMDSZ s -> view s l r ->
  Forall (fun c => is_control char_signed c = false) [c1; c2; c3; c4; c5; c6] ->
  (exists s' l' r', loop (Some <$> [27; 102; c1; c2; c3; c4; c5]) s = Some (Next s') /\
     view s' l' r' /\ l' ++ r' = l ++ r) /\
  loop (Some <$> [27; 102; c1; c2; c3; c4; c5; c6]) s = None.
Proof.
  intros Hi Hv Hcs.
  assert (exists s2 l2 r2, loop (Some <$> [27; 102]) s = Some (Next s2) /\ inv CMDSZ s2 /\
    view s2 l2 r2 /\ l2 ++ r2 = l ++ r /\ alt_f s2 /\ r_esc s2 = 3)
    as (s2 & l2 & r2 & Hs2 & Hi2 & Hv2 & Ht2 & Ha2 & He2).
  { destruct (esc_step s l r Hi Hv) as (s1 & rest & Hs1 & Hi1 & Hv1 & Hb1 & He1).
    pose proof (inv_buff _ _ Hi1) as Hbl. rewrite Hb1 in Hbl.
    destruct rest as [|y rest]; [zlia|].
    assert (wr (r_buff s1) (r_esc s1) 102 = Some (94 :: 91 :: 102 :: rest)) as Hw.
    { rewrite Hb1, He1. by apply (wr_app [94; 91] y 102 rest 2). }
    assert (is_control char_signed 102 = false) as Hc by by destruct char_signed.
    destruct (alt_store_step s1 102 l r _ rest Hi1 Hv1 ltac:(lia) Hc Hw eq_refl)
      as (s2 & l2 & r2 & Hs2 & ? & ? & ? & Hb2 & He2).
    exists s2, l2, r2. split; [|split_and!; try done; [|lia]].
    - cbn [fmap list_fmap readcmd_loop]. rewrite Hs1. cbn [mbind option_bind]. by rewrite Hs2.
    - exists rest. split; [done|]. zlia. }
  apply (Forall_app _ [c1; c2; c3; c4; c5] [c6]) in Hcs as [Hcs H6].
  destruct (alt_f_loop [c1; c2; c3; c4; c5] s2 l2 r2 Hi2 Hv2 Ha2)
    as (s3 & l3 & r3 & Hs3 & Hi3 & Hv3 & Ht3 & Ha3 & He3); [lia|rewrite He2; done|done|].
  assert (loop (Some <$> [27; 102; c1; c2; c3; c4; c5]) s = Some (Next s3)) as Hall.
  { change (Some <$> [27; 102; c1; c2; c3; c4; c5])
      with ((Some <$> [27; 102]) ++ (Some <$> [c1; c2; c3; c4; c5])).
    by rewrite loop_app, Hs2. }
  split; [exists s3, l3, r3; split_and!; [done..|congruence]|].
  change (Some <$> [27; 102; c1; c2; c3; c4; c5; c6])
    with ((Some <$> [27; 102; c1; c2; c3; c4; c5]) ++ [Some c6]).
  rewrite loop_app, Hall. cbn [mbind option_bind readcmd_loop].
  inversion H6 as [|? ? Hc6 _]; subst.
  unfold readcmd_step. cbn [mbind option_bind r_c set_c]. rewrite Hc6.
  assert (r_esc s3 = 8) as He8 by (rewrite He3, He2; done).
  unfold key_regular, key_escape. cbn [r_esc r_buff set_c]. rewrite He8. cbn [Z.eqb].
  destruct (wr (r_buff s3) 8 c6) as [b|] eqn:E; [|done].
  assert (is_Some (wr (r_buff s3) 8 c6)) as H8%wr_is_Some by eauto.
  pose proof (inv_buff _ _ Hi3). lia.
Qed.

(** *** Browsing the history *)

(** Pressing a key [k] times. *)
Fixpoint press (k : nat) (f : rdl -> option rdl) (s : rdl) : option rdl :=
  match k with O => Some s | Datatypes.S k => s ← f s; press k f s end.

Lemma press_last k f s : press (Datatypes.S k) f s = s ← press k f s; f s.
Proof.
  revert s. induction k as [|k IH]; intros s; [simpl; by destruct (f s)|].
  change (press (Datatypes.S (Datatypes.S k)) f s) with (s ← f s; press (Datatypes.S k) f s).
  simpl press at 2. destruct (f s); simpl; [apply IH|done].
Qed.

(** The editor shows the [p]-th oldest command of history [h]; the line being
    edited is the first [ln] characters of [cmd]. *)
Definition browsing (h : psh_hist_t) (cmd : bytes) (ln : Z) (cb : bytes) (p : nat) (s : rdl) : Prop :=
  inv CMDSZ s /\ r_hist s = h /\ r_cmd s = cmd /\ r_ln s = ln /\ clipboard s = cb /\
  r_hp s = hist_idx h p /\ view s (nul2sp <$> hist_at h p) [].

Lemma hist_idx_he h p :
  hist_ok CMDSZ h -> Z.of_nat p <= hist_len h ->
  hist_idx h p = he h <-> Z.of_nat p = hist_len h.
Proof using CMDSZ. clear mem.
  intros [Hb He _ _] Hp. unfold hist_idx, hist_len, HISTSZ in *. dlia.
Qed.

Lemma hist_idx_pred h p :
  hist_ok CMDSZ h -> Z.of_nat (Datatypes.S p) <= hist_len h ->
  (if hist_idx h (Datatypes.S p) =? 0 then HISTSZ - 1 else hist_idx h (Datatypes.S p) - 1) = hist_idx h p.
Proof using CMDSZ. clear mem.
  intros [Hb He _ _] Hp. unfold hist_idx, hist_len, HISTSZ in *.
  destruct (Z.eqb_spec ((hb h + Z.of_nat (Datatypes.S p)) mod 512) 0); dlia.
Qed.

Lemma hist_idx_succ h p :
  hist_ok CMDSZ h -> Z.rem (hist_idx h p + 1) HISTSZ = hist_idx h (Datatypes.S p).
Proof using CMDSZ. clear mem. intros [Hb He _ _]. unfold hist_idx, HISTSZ in *. dlia. Qed.

Lemma hist_idx_hb h p :
  hist_ok CMDSZ h -> Z.of_nat (Datatypes.S p) <= hist_len h -> hist_idx h (Datatypes.S p) <> hb h.
Proof using CMDSZ. clear mem. intros [Hb He _ _] Hp. unfold hist_idx, hist_len, HISTSZ in *. dlia. Qed.

(** One Up, from position [p + 1] (or from the edited line) to [p]. *)
Lemma up_step s h p :
  inv CMDSZ s -> r_hist s = h -> r_hp s = hist_idx h (Datatypes.S p) ->
  Z.of_nat (Datatypes.S p) <= hist_len h ->
  exists s', key_up ws_col s = Some s' /\
    browsing h (r_cmd s) (if r_hp s =? he h then r_n s + r_m s else r_ln s) (clipboard s) p s'.
Proof using CMDSZ ws_col ws_pos.
  intros Hi Hh Hp Hl. pose proof (inv_hist _ _ Hi) as Hok. rewrite Hh in Hok.
  destruct (key_up_ok CMDSZ ws_col ws_pos s Hi)
    as (s' & e & Hs' & Hrd & Hi' & Hv & Hhp & _ & Hh' & Hc & Hcb & _ & _ & Hln).
  { rewrite Hh, Hp. by apply hist_idx_hb. }
  rewrite Hh, Hp, hist_idx_pred in Hrd by done. rewrite Hp, hist_idx_pred in Hhp by done.
  exists s'. split; [done|]. rewrite Hh in *. split_and!; try done.
  unfold hist_at. by rewrite Hrd.
Qed.

(** History browsing.  From any line being edited, pressing Up [k] times
    (as long as there are that many commands) shows the [k]-th most recent
    command with the cursor at its end; pressing Down [k] times from there
    brings back the text of the line that was being edited. *)
Theorem history_browse s l r k :
  inv CMDSZ s -> view s l r -> r_hp s = he (r_hist s) -> (0 < k)%nat ->
  Z.of_nat k <= hist_len (r_hist s) ->
  exists s1 s2 c, press k (key_up ws_col) s = Some s1 /\
    hist_list (r_hist s) !! (Z.to_nat (hist_len (r_hist s)) - k)%nat = Some c /\
    view s1 (nul2sp <$> c) [] /\
    press k (key_down ws_col) s1 = Some s2 /\ inv CMDSZ s2 /\
    at_zip s2 (l ++ r, [], clipboard s).
Proof using CMDSZ ws_col ws_pos.
  intros Hi Hv Hhp Hk Hl. set (h := r_hist s) in *. set (len := Z.to_nat (hist_len h)).
  pose proof (inv_hist _ _ Hi) as Hok. fold h in Hok. pose proof (hist_len_range h) as Hr.
  pose proof Hv as (Hn & Hm & Hvv).
  assert (take (Z.to_nat (r_n s + r_m s)) (r_cmd s) = l ++ r) as Htxt.
  { destruct Hvv as [[_ [x ->]]|[? _]]; [|done]. rewrite (assoc_L (++)).
    replace (r_n s + r_m s) with (zlen (l ++ r)) by zlia. apply take_zlen_app. }
  assert (forall j, (0 < j)%nat -> (j <= k)%nat -> exists s1,
    press j (key_up ws_col) s = Some s1 /\
    browsing h (r_cmd s) (r_n s + r_m s) (clipboard s) (len - j) s1) as Hups.
  { intros j Hj. induction j as [|j IH]; [lia|]. intros Hjk. rewrite press_last.
    destruct (decide (j = 0)%nat) as [->|Hj0].
    - simpl. destruct (up_step s h (len - 1)) as (s1 & Hs1 & Hb1); [done|done| |lia|].
      { rewrite Hhp. symmetry. apply hist_idx_he; [done|lia|lia]. }
      exists s1. split; [done|]. fold h in Hhp. by rewrite Hhp, Z.eqb_refl in Hb1.
    - destruct IH as (s1 & -> & Hb1); [lia|lia|]. cbn [mbind option_bind].
      destruct Hb1 as (Hi1 & Hh1 & Hc1 & Hln1 & Hcb1 & Hp1 & Hv1).
      destruct (up_step s1 h (len - Datatypes.S j)) as (s2 & Hs2 & Hb2); [done|done| |lia|].
      { rewrite Hp1. f_equal. lia. }
      exists s2. split; [done|].
      destruct (Z.eqb_spec (r_hp s1) (he h)) as [He|He].
      { rewrite Hp1 in He. apply hist_idx_he in He; [lia|done|lia]. }
      by rewrite Hc1, Hln1, Hcb1 in Hb2. }
  destruct (Hups k Hk ltac:(lia)) as (s1 & Hs1 & Hb1).
  assert (forall j s', browsing h (r_cmd s) (r_n s + r_m s) (clipboard s) (len - j) s' ->
    (0 < j)%nat -> (j <= k)%nat -> exists s2, press j (key_down ws_col) s' = Some s2 /\
      inv CMDSZ s2 /\ at_zip s2 (l ++ r, [], clipboard s)) as Hdowns.
  { induction j as [|j IH]; intros s' Hb Hj Hjk; [lia|]. simpl.
    destruct Hb as (Hi1 & Hh1 & Hc1 & Hln1 & Hcb1 & Hp1 & Hv1).
    assert (r_hp s' <> he (r_hist s')) as Hne.
    { rewrite Hp1, Hh1. intros He. apply hist_idx_he in He; [lia|done|lia]. }
    destruct (key_down_ok CMDSZ ws_col ws_pos s' Hi1 Hne)
      as (s2 & t & -> & Hi2 & Hv2 & Hp2 & Hh2 & Hc2 & Hln2 & Hcb2 & _ & _ & Ht).
    rewrite Hp1, hist_idx_succ in Hp2, Ht by done. simpl.
    destruct (decide (j = 0)%nat) as [->|Hj0].
    - exists s2. simpl. split; [done|]. split; [done|].
      replace (hist_idx h (Datatypes.S (len - 1))) with (he h) in Ht
        by (symmetry; apply hist_idx_he; [done|lia|lia]).
      rewrite Hh1, Z.eqb_refl in Ht. rewrite Hc1, Hln1, Htxt in Ht. subst t.
      split; [done|congruence].
    - apply IH; [|lia|lia].
      replace (Datatypes.S (len - Datatypes.S j)) with (len - j)%nat in Ht, Hp2 by lia.
      split_and!; try congruence; try done.
      destruct (Z.eqb_spec (hist_idx h (len - j)) (he (r_hist s'))) as [He|He].
      { rewrite Hh1 in He. apply hist_idx_he in He; [lia|done|lia]. }
      destruct Ht as (e & Hrd & ->). rewrite Hh1 in Hrd. unfold hist_at. by rewrite Hrd. }
  destruct (Hdowns k s1 Hb1 Hk ltac:(lia)) as (s2 & Hs2 & Hi2 & Hz2).
  exists s1, s2, (hist_at h (len - k)). split_and!; try done.
  - apply hist_list_lookup. lia.
  - apply Hb1.
Qed.

(** *** Typing a line *)

Lemma type_chars cs s l :
  inv CMDSZ s -> view s l [] -> r_esc s = 0 ->
  Forall (fun c => is_control char_signed c = false) cs ->
  exists s', loop (Some <$> cs) s = Some (Next s') /\ inv CMDSZ s' /\
    view s' (take (Z.to_nat CMDSZ) (l ++ cs)) [] /\ r_esc s' = 0 /\ r_err s' = r_err s /\
    r_hist s' = r_hist s /\ r_exit s' = r_exit s.
Proof.
  revert s l. induction cs as [|c cs IH]; intros s l Hi Hv He Hcs.
  - exists s. split; [done|]. split; [done|]. rewrite app_nil_r.
    pose proof (inv_len _ _ Hi). destruct Hv as (Hn & Hm & Hv).
    rewrite take_ge by (unfold zlen in *; simpl in *; lia). done.
  - inversion Hcs as [|? ? Hc Hcs']; subst.
    set (s1 := set_c (Some c) s).
    assert (inv CMDSZ s1) as Hi1 by by apply inv_set_c.
    destruct (key_insert_ok CMDSZ ws_col ws_pos s1 l [] c Hi1 Hv)
      as (s2 & Hs2 & Hi2 & Hv2 & _ & Hh2 & He2 & Hx2 & _ & Her2).
    destruct (IH s2 (take (Z.to_nat CMDSZ) (l ++ [c]))) as (s3 & Hs3 & Hi3 & Hv3 & He3 & Her3 & Hh3 & Hx3);
      [done| |by rewrite He2|done|].
    { pose proof (inv_len _ _ Hi). destruct Hv as (Hn & Hm & _). rewrite zlen_nil in *.
      destruct (Z.ltb_spec (zlen l + 0) CMDSZ).
      - by rewrite take_ge by (rewrite length_app; unfold zlen in *; simpl; lia).
      - rewrite take_app_length' by (unfold zlen in *; lia). done. }
    exists s3. split; [|split_and!; try done; [|by rewrite Her3, Her2|by rewrite Hh3, Hh2|by rewrite Hx3, Hx2]].
    + cbn [fmap list_fmap readcmd_loop]. unfold readcmd_step at 1.
      cbn [mbind option_bind r_c set_c]. rewrite Hc. unfold key_regular.
      fold s1. change (r_esc s1) with (r_esc s). rewrite He. cbn [Z.eqb]. rewrite Hs2. done.
    + assert (take (Z.to_nat CMDSZ) (l ++ c :: cs) =
        take (Z.to_nat CMDSZ) (take (Z.to_nat CMDSZ) (l ++ [c]) ++ cs)) as ->; [|done].
      by rewrite take_take_app, <-(assoc_L (++)).
Qed.

(** What fits of a typed line. *)
Definition typed (sz : Z) (cs : bytes) : bytes := take (Z.to_nat sz) cs.

(** Enter ends the call with the line that is shown. *)
Lemma enter_line tc_orig s l :
  inv CMDSZ s -> view s l [] -> 0 <= r_err s -> 0 <= tc_orig ->
  exists rest x f, loop [Some 13] s = Some f /\
    readcmd_finish tc_orig f = Some (RdLine (zlen l) (l ++ 0 :: rest) x) /\
    inv CMDSZ x /\ r_hist x = r_hist s /\ r_exit x = r_exit s /\ zlen (l ++ 0 :: rest) = CMDSZ + 1.
Proof.
  intros Hi Hv Her Hto. set (s2 := set_esc 0 (r_buff s) (set_c (Some 13) s)).
  destruct (inv_set_esc CMDSZ (set_c (Some 13) s) 0 (r_buff s) l []) as [Hi2 Hv2];
    [by apply inv_set_c|done|lia|apply Hi|].
  destruct (key_newline_ok CMDSZ ws_col ws_pos 13 s2 l [] Hi2 Hv2)
    as (s3 & k & Hs3 & Hc3 & Hn3 & Hm3 & Hi3 & Her3 & Hh3 & Hx3); [by left|].
  pose proof (inv_cmd _ _ Hi3) as Hlen. pose proof (inv_len _ _ Hi3) as Hle.
  rewrite Hc3 in Hlen. rewrite Hn3, Hm3 in *. rewrite zlen_nil in *. simpl in Hc3, Hlen.
  destruct k as [|x k]; [zlia|]. exists k, s3, (Leave s3).
  split; [|split; [|split_and!; [done..|zlia]]].
  - cbn [readcmd_loop]. unfold readcmd_step. cbn [mbind option_bind r_c set_c].
    replace (is_control char_signed 13) with true by by destruct char_signed.
    unfold key_control. cbn [Z.eqb Pos.eqb orb r_buff set_c]. fold s2. by rewrite Hs3.
  - unfold readcmd_finish. rewrite Her3. change (r_err s2) with (r_err s).
    destruct (Z.ltb_spec tc_orig 0); [lia|]. cbn [andb]. destruct (Z.ltb_spec (r_err s) 0); [lia|].
    rewrite Hc3, Hn3, Hm3, wr_app by lia. cbn [mbind option_bind]. by rewrite Z.add_0_r.
Qed.

Lemma typed_line_ok h junk jbuff clip clipLen newline exit tc_raw tc_orig cs :
  0 < CMDSZ -> hist_ok CMDSZ h -> zlen junk = CMDSZ + 1 -> zlen jbuff = 8 -> zlen clip = CMDSZ ->
  0 <= clipLen <= CMDSZ -> 0 <= tc_raw -> 0 <= tc_orig ->
  Forall (fun c => is_control char_signed c = false) cs ->
  exists rest x, psh_readcmd CMDSZ ws_col resolve_path splitname listing qsort mem mem_print
    char_signed true tc_raw tc_orig h junk jbuff clip clipLen newline exit
    ((Some <$> cs) ++ [Some 13]) =
      Some (RdLine (zlen (typed CMDSZ cs)) (typed CMDSZ cs ++ 0 :: rest) x) /\
    inv CMDSZ x /\ r_hist x = h /\ r_exit x = exit /\
    zlen (typed CMDSZ cs ++ 0 :: rest) = CMDSZ + 1.
Proof.
  intros Hsz Hh Hj Hjb Hc Hcl Htr Hto Hcs. set (line := typed CMDSZ cs). unfold psh_readcmd. cbn [negb].
  destruct (Z.ltb_spec tc_raw 0); [lia|].
  set (s0 := readcmd_start _ _ _ _ _ _ _ _).
  assert (view s0 [] []) as Hv0 by (split_and!; [done..|left; split; [done|by exists junk]]).
  assert (inv CMDSZ s0) as Hi0.
  { constructor; simpl; try done; try lia; eauto. }
  destruct (type_chars cs s0 [] Hi0 Hv0 eq_refl Hcs) as (s1 & Hs1 & Hi1 & Hv1 & He1 & Her1 & Hh1 & Hx1).
  rewrite loop_app, Hs1. cbn [mbind option_bind].
  destruct (enter_line tc_orig s1 line Hi1 Hv1) as (rest & x & f & -> & Hf & Hix & Hhx & Hxx & Hlen);
    [by rewrite Her1|done|].
  exists rest, x. cbn [mbind option_bind]. rewrite Hf, Hhx, Hxx, Hh1, Hx1. done.
Qed.

(** End to end, typing.  Starting a fresh [psh_readcmd] with a working
    terminal and typing the characters [cs] followed by Enter makes it return
    exactly those characters, NUL-terminated, cut to the first [CMDSZ]. *)
Theorem typed_line_returned h junk jbuff clip clipLen newline exit tc_raw tc_orig cs :
  0 < CMDSZ -> hist_ok CMDSZ h -> zlen junk = CMDSZ + 1 -> zlen jbuff = 8 -> zlen clip = CMDSZ ->
  0 <= clipLen <= CMDSZ -> 0 <= tc_raw -> 0 <= tc_orig ->
  Forall (fun c => is_control char_signed c = false) cs ->
  exists rest x, psh_readcmd CMDSZ ws_col resolve_path splitname listing qsort mem mem_print
    char_signed true tc_raw tc_orig h junk jbuff clip clipLen newline exit
    ((Some <$> cs) ++ [Some 13]) =
      Some (RdLine (zlen (typed CMDSZ cs)) (typed CMDSZ cs ++ 0 :: rest) x).
Proof.
  intros Hsz Hh Hj Hjb Hc Hcl Htr Hto Hcs.
  destruct (typed_line_ok h junk jbuff clip clipLen newline exit tc_raw tc_orig cs)
    as (rest & x & Hr & _); [done..|]. by exists rest, x.
Qed.

(** *** Path completion *)

Definition word_chr (c : Z) : bool := negb (c =? 32) && negb (c =? 0).

(** The word that ends at the cursor. *)
Definition word_before (l : bytes) : bytes :=
  drop (length l - span_len word_chr (reverse l)) l.

Lemma word_start_ok a b fuel :
  (length a <= fuel)%nat ->
  word_start fuel (a ++ b) (zlen a) = Some (zlen a - Z.of_nat (span_len word_chr (reverse a))).
Proof.
  revert b fuel. induction a as [|x a IH] using rev_ind; intros b fuel Hf.
  - destruct fuel; done.
  - rewrite length_app in Hf. simpl in Hf. destruct fuel as [|fuel]; [lia|]. simpl.
    destruct (Z.eqb_spec (zlen (a ++ [x])) 0); [zlia|].
    rewrite <-(assoc_L (++)). simpl. rewrite rd_app by zlia. simpl.
    rewrite reverse_snoc. simpl. unfold word_chr at 1.
    destruct (negb (x =? 32) && negb (x =? 0)); [|by rewrite Z.sub_0_r].
    replace (zlen (a ++ [x]) - 1) with (zlen a) by zlia. rewrite IH by lia. f_equal. zlia.
Qed.

(** Inserting the rest of the only candidate. *)
Lemma tab_complete_ok s l r base t :
  inv CMDSZ s -> view s l r ->
  shows CMDSZ s (tab_complete CMDSZ ws_col (base ++ t) base s)
    (l ++ take (Z.to_nat (CMDSZ - zlen l - zlen r)) t) r (clipboard s).
Proof.
  intros Hi Hv. pose proof Hi as []. pose proof Hv as (Hnl & Hmr & _).
  destruct (recall_ok CMDSZ s l r Hi Hv) as (k & Hr & Hk & Hl).
  unfold tab_complete. rewrite Hr. cbn [mbind option_bind]. simpl.
  set (ins := take _ t). set (i := if _ <? _ then _ else _).
  assert (i = zlen ins) as ->.
  { subst i ins. destruct (Z.ltb_spec CMDSZ (zlen l + zlen r + (zlen (base ++ t) - zlen base)));
      zlia. }
  destruct (memmove_right l r k (zlen l + zlen ins) (zlen l) (zlen r) (zlen ins))
    as (g & e & Hm & Hg & He); [zlia..|subst ins; zlia|].
  unfold shift, echo. simpl. rewrite Hm. simpl. unfold memcpy.
  assert (base ++ t = base ++ ins ++ drop (Z.to_nat (CMDSZ - zlen l - zlen r)) t) as ->
    by (subst ins; by rewrite take_drop).
  rewrite rd_range_app by done. simpl. rewrite wr_range_app by zlia. simpl.
  rewrite (assoc_L (++) ins), rd_range_app by zlia. simpl.
  match goal with |- context [movecursor _ ?c ?n ?s0] =>
    destruct (movecursor_ok ws_col ws_pos c n s0) as [ev ->] end. simpl.
  apply (shows_intro CMDSZ _ _ _ _ e); simpl; try done; try zlia.
  - by rewrite <-!(assoc_L (++)).
  - subst ins. zlia.
Qed.

Lemma word_before_split l :
  exists p, l = p ++ word_before l /\ length (word_before l) = span_len word_chr (reverse l) /\
    Forall (fun c => word_chr c = true) (word_before l).
Proof.
  unfold word_before. destruct (span_len_split word_chr (reverse l)) as (u & v & Hl & Hu & Hf & _).
  assert (l = reverse v ++ reverse u) as -> by (by rewrite <-reverse_app, <-Hl, reverse_involutive).
  rewrite <-Hu. exists (reverse v).
  replace (length (reverse v ++ reverse u) - length u)%nat with (length (reverse v))
    by (rewrite length_app, length_reverse; rewrite length_reverse; lia).
  rewrite drop_app_length, length_reverse. split_and!; [done|done|]. by apply Forall_reverse.
Qed.

Lemma word_nonul w : Forall (fun c => word_chr c = true) w -> nonul w.
Proof.
  intros H. eapply Forall_impl; [exact H|]. intros c Hc ->. done.
Qed.

(** Stored history text and shown text have the same word before the cursor. *)
Lemma word_before_nul2sp a :
  word_before (nul2sp <$> a) = word_before a /\
  span_len word_chr (reverse (nul2sp <$> a)) = span_len word_chr (reverse a).
Proof.
  assert (forall x, span_len word_chr (nul2sp <$> x) = span_len word_chr x) as Hs.
  { induction x as [|c x IH]; [done|]. rewrite fmap_cons. cbn [span_len]. rewrite IH.
    unfold nul2sp, word_chr. destruct (Z.eqb_spec c 0) as [->|Hc]; [done|].
    by rewrite (key_eqb_ne c 0). }
  rewrite <-fmap_reverse. rewrite Hs. split; [|done]. unfold word_before at 1.
  rewrite <-fmap_reverse, Hs, length_fmap, <-fmap_drop. fold (word_before a).
  destruct (word_before_split a) as (_ & _ & _ & Hw).
  induction Hw as [|c w Hc _ IH]; [done|]. rewrite fmap_cons. f_equal; [|done].
  unfold nul2sp, word_chr in *. destruct (Z.eqb_spec c 0) as [->|]; done.
Qed.

(** The buffer TAB looks at ends, before the cursor, with the same word as the
    text shown. *)
Lemma tab_path s l r :
  inv CMDSZ s -> view s l r ->
  exists a x k, (if negb (r_hp s =? he (r_hist s)) then e ← hist_entry s; ent_cmd e
     else Some (r_cmd s)) = Some (a ++ x :: k) /\ zlen a = zlen l /\
    span_len word_chr (reverse a) = span_len word_chr (reverse l) /\
    word_before a = word_before l.
Proof.
  intros Hi Hv. pose proof Hi as []. pose proof Hv as (Hn & Hm & Hs).
  destruct Hs as [[Hhe [k Hk]]|(Hhe & e & src & Hent & Hsrc & Hen & Htxt)].
  - rewrite Hhe, Z.eqb_refl. simpl. rewrite Hk in *.
    destruct (r ++ k) as [|x k'] eqn:E.
    { apply (f_equal zlen) in E. zlia. }
    by exists l, x, k'.
  - destruct (Z.eqb_spec (r_hp s) (he (r_hist s))); [done|]. simpl. rewrite Hent. simpl.
    destruct inv_hp0 as [?|Hlive]; [done|].
    destruct (hist_entries _ _ inv_hist0 _ Hlive) as (e' & Hrd & src' & Hsrc' & Hen' & Hlen').
    unfold hist_entry in Hent. rewrite Hent in Hrd. injection Hrd as <-.
    rewrite Hsrc in Hsrc'. injection Hsrc' as <-.
    destruct (list_split_at src (zlen l)) as (a & k & -> & Ha); [zlia|].
    destruct k as [|x k]; [zlia|]. exists a, x, k. split; [done|]. split; [done|].
    assert (nul2sp <$> a = l) as <-.
    { rewrite Hen in Htxt. apply (f_equal (take (length a))) in Htxt.
      rewrite <-fmap_take, take_take in Htxt.
      replace (length a `min` Z.to_nat (zlen (l ++ r)))%nat with (length a) in Htxt
        by (unfold zlen in *; rewrite length_app; lia).
      rewrite take_app_length in Htxt. rewrite Htxt.
      rewrite take_app_length' by (unfold zlen in *; lia). done. }
    destruct (word_before_nul2sp a) as [-> ->]. done.
Qed.

(** TAB completion.  When the word before the cursor is not empty,
    [resolve_path] accepts it and one directory entry matches, TAB inserts at
    the cursor the rest of that entry's name and its marker, cut to the room
    left in the line; the text after the cursor and the clipboard stay. *)
Theorem tab_completes s l r fpath base dir t :
  inv CMDSZ s -> view s l r -> word_before l <> [] ->
  resolve_path (word_before l) = inr fpath -> fpath <> [] ->
  splitname (if bool_decide (last (word_before l) = Some 47) && negb (bool_decide (last fpath = Some 47))
             then fpath ++ [47] else fpath) = (base, dir) ->
  psh_completepath mem (listing dir) base = (1, [base ++ t]) ->
  exists s', control 9 s = Some (Next s') /\ inv CMDSZ s' /\
    at_zip s' (z_insert CMDSZ t (l, r, clipboard s)).
Proof.
  intros Hi Hv Hw Hres Hfp Hsplit Hcomp. pose proof Hi as [].
  destruct (inv_set_esc CMDSZ s 0 (r_buff s) l r Hi Hv) as [Hi0 Hv0]; [lia|done|].
  unfold key_control. cbn [Z.eqb Pos.eqb orb].
  change (clipboard s) with (clipboard (set_esc 0 (r_buff s) s)).
  set (s0 := set_esc 0 (r_buff s) s) in *. pose proof Hv0 as (Hn & Hm & _).
  unfold key_tab. destruct (tab_path s0 l r Hi0 Hv0) as (a & x & k & -> & Ha & Hsp & Hwb).
  cbn [mbind option_bind]. rewrite Hn, <-Ha. rewrite word_start_ok by (unfold zlen; lia).
  cbn [mbind option_bind]. destruct (word_before_split a) as (p & Hpa & Hwl & Hwf).
  rewrite Hwb in Hpa, Hwl, Hwf.
  assert (0 < length (word_before l))%nat by (destruct (word_before l); [done|simpl; lia]).
  destruct (Z.eqb_spec (zlen a - Z.of_nat (span_len word_chr (reverse a))) (zlen a)); [lia|].
  rewrite rd_app, wr_app by done. cbn [mbind option_bind].
  assert (drop (Z.to_nat (zlen a - Z.of_nat (span_len word_chr (reverse a)))) (a ++ 0 :: k)
    = word_before l ++ 0 :: k) as ->.
  { rewrite <-Hwl. replace (a ++ 0 :: k) with (p ++ word_before l ++ 0 :: k)
      by (rewrite (assoc_L (++)); by rewrite <-Hpa).
    apply drop_app_length'. apply (f_equal length) in Hpa. rewrite length_app in Hpa.
    unfold zlen. lia. }
  rewrite cstr_app by by apply word_nonul. rewrite Hres.
  destruct (exists_last Hw) as (w & c & Hwc).
  destruct (exists_last Hfp) as (f & d & Hfd). rewrite Hwc, Hfd, !last_snoc in Hsplit.
  change (r_n (set_c (Some x) s0)) with (r_n s0). rewrite Hn, <-Ha.
  assert (rd (a ++ x :: k) (zlen a - 1) = Some c) as ->.
  { rewrite Hwc in Hpa. rewrite Hpa, <-!(assoc_L (++)). simpl. rewrite (assoc_L (++)).
    apply rd_app. zlia. }
  assert (rd fpath (zlen fpath - 1) = Some d) as ->.
  { rewrite Hfd. apply rd_app. zlia. }
  cbn [mbind option_bind].
  assert ((c =? 47) && negb (d =? 47) =
    bool_decide (Some c = Some 47) && negb (bool_decide (Some d = Some 47))) as ->.
  { by destruct (Z.eqb_spec c 47), (Z.eqb_spec d 47); repeat case_bool_decide; simplify_eq. }
  rewrite <-Hfd in Hsplit. rewrite Hsplit, Hcomp. cbn [Z.leb Z.ltb Z.compare Pos.compare Pos.compare_cont].
  destruct (tab_complete_ok (set_c (Some x) s0) l r base t) as (s' & Hs' & Hi' & Hv' & Hcb & _);
    [by apply inv_set_c|done|].
  change (rd [base ++ t] 0) with (Some (base ++ t)). cbn [mbind option_bind].
  rewrite Hs'. cbn [mbind option_bind]. exists s'. done.
Qed.
End refinement.

(** ** Concrete editor states

    Build with [CMDSZ] = 8 and an 80 column terminal. *)

(** The line [ab|cd] with ["xy"] in the clipboard. *)
Definition ex_line : rdl :=
  Rdl (bstr "abcd" ++ replicate 5 0) 2 2 0 1 0 (replicate 8 0) None ex_hist
    (bstr "xy" ++ replicate 6 0) 2 0 0 0 [].

Lemma ex_line_view : view ex_line (bstr "ab") (bstr "cd").
Proof. split; [done|]. split; [done|]. left. split; [done|]. by exists (replicate 5 0). Qed.

Lemma ex_line_inv : inv 8 ex_line.
Proof.
  constructor; try (by vm_compute); [apply ex_hist_ok|by left|].
  exists (bstr "ab"), (bstr "cd"). apply ex_line_view.
Qed.

(** A file system whose only directory entry is [abc], a directory. *)
Definition ex_listing (_ : bytes) : option (list dirent) := Some [Dirent (bstr "abc") true].

(** ^W cuts the word before the cursor into the clipboard. *)
Lemma control_key_refines_witness :
  exists s', key_control 8 80 (fun p => inr p) (fun p => (p, [])) ex_listing id (fun _ => true) true
    23 ex_line = Some (Next s') /\ inv 8 s' /\ at_zip s' ([], bstr "cd", bstr "ab").
Proof.
  destruct (control_key_refines 8 80 eq_refl (fun p => inr p) (fun p => (p, [])) ex_listing id
    (fun _ => true) true ex_line (bstr "ab") (bstr "cd") 23) as (s' & H1 & H2 & H3 & _);
    [apply ex_line_inv|apply ex_line_view|split_and!; discriminate|].
  exists s'. split; [exact H1|]. split; [exact H2|exact H3].
Defined.

Lemma regular_key_inserts_witness :
  exists s', key_regular 8 80 122 ex_line = Some s' /\ at_zip s' (bstr "abz", bstr "cd", bstr "xy").
Proof.
  destruct (regular_key_inserts 8 80 eq_refl ex_line (bstr "ab") (bstr "cd") 122)
    as (s' & H1 & _ & H3 & _); [apply ex_line_inv|apply ex_line_view|done|].
  exists s'. split; [exact H1|exact H3].
Defined.

(** Alt-d cuts the word after the cursor. *)
Lemma decoded_key_refines_witness :
  exists s', key_do 80 kAltD ex_line = Some s' /\ at_zip s' (bstr "ab", [], bstr "cd").
Proof.
  destruct (decoded_key_refines 8 80 eq_refl ex_line (bstr "ab") (bstr "cd") kAltD)
    as (s' & H1 & _ & H3 & _); [apply ex_line_inv|apply ex_line_view|done..|].
  exists s'. split; [exact H1|exact H3].
Defined.

Lemma readcmd_step_safe_witness :
  exists f, readcmd_step 8 80 (fun p => inr p) (fun p => (p, [])) ex_listing id (fun _ => true) true
    false (Some 122) ex_line = Some f /\ flow_ok 8 f.
Proof.
  apply (readcmd_step_safe 8 80 eq_refl); [apply ex_line_inv|done|done].
Defined.

Lemma alt_key_overflows_buff_witness :
  readcmd_loop 8 80 (fun p => inr p) (fun p => (p, [])) ex_listing id (fun _ => true) true false
    (Some <$> [27; 102; 97; 97; 97; 97; 97; 97]) ex_line = None.
Proof.
  apply (alt_key_overflows_buff 8 80 eq_refl (fun p => inr p) (fun p => (p, [])) ex_listing id
    (fun _ => true) true false ex_line (bstr "ab") (bstr "cd"));
    [apply ex_line_inv|apply ex_line_view|repeat constructor].
Defined.

Lemma history_browse_witness :
  exists s1 s2, press 1 (key_up 80) ex_line = Some s1 /\ view s1 (bstr "ls") [] /\
    press 1 (key_down 80) s1 = Some s2 /\ at_zip s2 (bstr "abcd", [], bstr "xy").
Proof.
  destruct (history_browse 8 80 eq_refl ex_line (bstr "ab") (bstr "cd") 1)
    as (s1 & s2 & c & H1 & Hc & H2 & H3 & _ & H4);
    [apply ex_line_inv|apply ex_line_view|done|lia|by vm_compute|].
  exists s1, s2. split; [exact H1|]. split; [|split; [exact H3|exact H4]].
  vm_compute in Hc. injection Hc as <-. exact H2.
Defined.

(** Nine characters are cut to eight. *)
Lemma typed_line_returned_witness :
  exists rest s, psh_readcmd 8 80 (fun p => inr p) (fun p => (p, [])) ex_listing id (fun _ => true)
    true false true 0 0 ex_hist (replicate 9 7) (replicate 8 0) (replicate 8 0) 0 0 0
    ((Some <$> bstr "abcdefghi") ++ [Some 13]) = Some (RdLine 8 (bstr "abcdefgh" ++ 0 :: rest) s).
Proof.
  apply (typed_line_returned 8 80 eq_refl (fun p => inr p) (fun p => (p, [])) ex_listing id
    (fun _ => true) true false ex_hist (replicate 9 7) (replicate 8 0) (replicate 8 0) 0 0 0 0 0
    (bstr "abcdefghi")); try done; [apply ex_hist_ok|repeat constructor].
Defined.

(** Completing [ab] to [abc/]. *)
Lemma tab_completes_witness :
  exists s', key_control 8 80 (fun p => inr p) (fun p => (p, [])) ex_listing id (fun _ => true) true
    9 ex_line = Some (Next s') /\ inv 8 s' /\ at_zip s' (bstr "abc/", bstr "cd", bstr "xy").
Proof.
  apply (tab_completes 8 80 eq_refl (fun p => inr p) (fun p => (p, [])) ex_listing id (fun _ => true)
    true ex_line (bstr "ab") (bstr "cd") (bstr "ab") (bstr "ab") [] (bstr "c/"));
    [apply ex_line_inv|apply ex_line_view|done|done|done|done|reflexivity].
Defined.
