(* ===== verification/Fds.v ===== *)
(** * File descriptors

    The interface between the shell and the system calls on descriptors:
    [FdOps] is the signature, [FdLaws] what the shell relies on (POSIX).  The
    theorems about redirection and terminals are proved against the laws;
    [ftab] is a concrete table that satisfies them. *)

From stdpp Require Import gmap.
From S2P Require Import Prelude.

(** The flags of [open] that the sources use. *)
Inductive oflag := O_RDONLY | O_WRONLY | O_RDWR | O_CREAT | O_APPEND | O_TRUNC.

#[export] Instance oflag_eq_dec : EqDecision oflag.
Proof. solve_decision. Defined.

(** What an open descriptor refers to: the path and flags it was opened with. *)
Record desc := Desc { d_path : bytes; d_flags : list oflag }.

#[export] Instance desc_eq_dec : EqDecision desc.
Proof. solve_decision. Defined.

(** The table as a function, compared pointwise. *)
Abbreviation fdmap := (Z -> option desc).
Definition same_fds (f g : fdmap) : Prop := forall i, f i = g i.
Definition fd_upd (i : Z) (d : option desc) (f : fdmap) : fdmap :=
  fun j => if decide (j = i) then d else f j.

#[export] Instance same_fds_equiv : Equivalence same_fds.
Proof. split; [done|by intros ?? H i|]. intros f g h H1 H2 i. by rewrite H1. Qed.

#[export] Instance fd_upd_proper i d : Proper (same_fds ==> same_fds) (fd_upd i d).
Proof. intros f g H j. unfold fd_upd. by case_decide. Qed.

#[export] Instance fd_app_proper : Proper (same_fds ==> eq ==> eq) (fun (f : fdmap) i => f i).
Proof. intros f g H i ? <-. apply H. Qed.

Class FdOps (S : Type) := {
  fd_get : S -> fdmap;
  (** Each returns the descriptor, or a negative number with [errno] set. *)
  os_open : bytes -> list oflag -> S -> Z * S;
  os_dup : Z -> S -> Z * S;
  os_dup2 : Z -> Z -> S -> Z * S;
  os_close : Z -> S -> S;
  os_isatty : Z -> S -> bool;
  os_errno : S -> Z;
}.

Class FdLaws (S : Type) `{FdOps S} := {
  open_law path flags s r s' : os_open path flags s = (r, s') ->
    (r < 0 /\ 0 < os_errno s' /\ same_fds (fd_get s') (fd_get s)) \/
    (0 <= r /\ fd_get s r = None /\
     same_fds (fd_get s') (fd_upd r (Some (Desc path flags)) (fd_get s)));
  dup_law fd s r s' : os_dup fd s = (r, s') ->
    (r < 0 /\ 0 < os_errno s' /\ same_fds (fd_get s') (fd_get s)) \/
    (0 <= r /\ fd_get s r = None /\ is_Some (fd_get s fd) /\
     same_fds (fd_get s') (fd_upd r (fd_get s fd) (fd_get s)));
  dup2_law a b s r s' : os_dup2 a b s = (r, s') ->
    (r < 0 /\ same_fds (fd_get s') (fd_get s)) \/
    (r = b /\ is_Some (fd_get s a) /\ same_fds (fd_get s') (fd_upd b (fd_get s a) (fd_get s)));
  close_law a s : same_fds (fd_get (os_close a s)) (fd_upd a None (fd_get s));
  close_errno a s : 0 < os_errno s -> 0 < os_errno (os_close a s);
}.

(** Rewrite every lookup in an updated table, by cases on the descriptor. *)
Ltac fds :=
  unfold fd_upd in *; repeat case_decide; simplify_eq; try done; try lia.

(** ** A concrete table *)

(** At most [ft_max] descriptors, allocated lowest first; [ft_files] tells which
    paths can be opened with which flags. *)
Record ftab := Ftab {
  ft_map : gmap Z desc; ft_files : bytes -> list oflag -> bool; ft_max : nat; ft_errno : Z }.

(** The lowest free descriptor among [i .. i + k - 1]. *)
Fixpoint lowest_free (k : nat) (i : Z) (m : gmap Z desc) : option Z :=
  match k with
  | O => None
  | S k => match m !! i with None => Some i | Some _ => lowest_free k (i + 1) m end
  end.

Definition ft_set (m : gmap Z desc) (t : ftab) : ftab := Ftab m (ft_files t) (ft_max t) (ft_errno t).
Definition ft_fail (e : Z) (t : ftab) : Z * ftab := (-1, Ftab (ft_map t) (ft_files t) (ft_max t) e).

Definition ft_alloc (d : desc) (t : ftab) : Z * ftab :=
  match lowest_free (ft_max t) 0 (ft_map t) with
  | None => ft_fail EMFILE t
  | Some i => (i, ft_set (<[i := d]> (ft_map t)) t)
  end.

#[export] Instance ftab_ops : FdOps ftab := {
  fd_get t i := ft_map t !! i;
  os_open p fl t := if ft_files t p fl then ft_alloc (Desc p fl) t else ft_fail ENOENT t;
  os_dup fd t := match ft_map t !! fd with None => ft_fail EBADF t | Some d => ft_alloc d t end;
  os_dup2 a b t :=
    match ft_map t !! a with
    | None => ft_fail EBADF t
    | Some d => (b, ft_set (<[b := d]> (ft_map t)) t)
    end;
  os_close a t := ft_set (delete a (ft_map t)) t;
  os_isatty fd t :=
    match ft_map t !! fd with Some d => bool_decide (take 8 (d_path d) = bstr "/dev/tty") | None => false end;
  os_errno t := ft_errno t;
}.

Lemma lowest_free_ok k i m r : 0 <= i -> lowest_free k i m = Some r -> 0 <= r /\ m !! r = None.
Proof.
  revert i. induction k as [|k IH]; intros i Hi; simpl; [done|].
  destruct (m !! i) eqn:E; [apply IH; lia|]. intros [= <-]. done.
Qed.

Lemma ft_alloc_ok d t r t' :
  ft_alloc d t = (r, t') ->
  (r < 0 /\ 0 < ft_errno t' /\ ft_map t' = ft_map t) \/
  (0 <= r /\ ft_map t !! r = None /\ ft_map t' = <[r := d]> (ft_map t)).
Proof.
  unfold ft_alloc. destruct (lowest_free _ _ _) as [i|] eqn:E; intros [= <- <-].
  - right. apply lowest_free_ok in E as [? ?]; [done|lia].
  - by left.
Qed.

Lemma same_insert (m : gmap Z desc) (i : Z) (d : desc) :
  same_fds (fun j => <[i := d]> m !! j) (fd_upd i (Some d) (fun j => m !! j)).
Proof. intros j. unfold fd_upd. case_decide; subst; by simplify_map_eq. Qed.

#[export] Instance ftab_laws : FdLaws ftab.
Proof.
  split; simpl.
  - intros p fl t r t'. destruct (ft_files t p fl).
    + intros [(?&?&Hm)|(?&?&Hm)]%ft_alloc_ok; [left|right].
      * by rewrite Hm.
      * rewrite Hm. auto using same_insert.
    + intros [= <- <-]. by left.
  - intros fd t r t'. destruct (ft_map t !! fd) as [d|] eqn:E.
    + intros [(?&?&Hm)|(?&?&Hm)]%ft_alloc_ok; [left|right].
      * by rewrite Hm.
      * rewrite Hm. eauto using same_insert.
    + intros [= <- <-]. by left.
  - intros a b t r t'. destruct (ft_map t !! a) as [d|] eqn:E; intros [= <- <-].
    + right. split_and!; [done|done|apply same_insert].
    + by left.
  - intros a t j. unfold fd_upd. case_decide; subst; simpl; by simplify_map_eq.
  - done.
Qed.
