(* ===== verification/Registry.v ===== *)
(** * The applet registry ([psh/psh.c])

    The applet list is a linked list of statically allocated entries, so it is
    modelled in a store of entries with [next] pointers. *)

From stdpp Require Import gmap.
From S2P Require Import Prelude.

(** ** The applet list *)

(** [psh_appentry_t]: [run] and [info] are identified by the entry's address. *)
Record psh_appentry_t := App { a_name : bytes; a_next : option Z }.

(** The entries, by address, and [psh_common.pshapplist]. *)
Record applist := Applist { al_store : gmap Z psh_appentry_t; al_head : option Z }.

Definition set_next (p : Z) (n : option Z) (m : gmap Z psh_appentry_t)
    : option (gmap Z psh_appentry_t) :=
  e ← m !! p; Some (<[p := App (a_name e) n]> m).

(** The search for the position: it advances [newapp->next] itself. *)
Fixpoint register_loop (fuel : nat) (new : Z) (prev : option Z) (m : gmap Z psh_appentry_t)
    : option (option Z * gmap Z psh_appentry_t) :=
  e ← m !! new;
  match a_next e with
  | None => Some (prev, m)
  | Some p =>
      a ← m !! p;
      if strcmp (a_name a) (a_name e) <? 0 then
        match fuel with
        | O => None
        | Datatypes.S fuel => m ← set_next new (a_next a) m; register_loop fuel new (Some p) m
        end
      else Some (prev, m)
  end.

(** The fuel is the number of entries that exist. *)
Definition psh_registerapp (new : Z) (l : applist) : option applist :=
  m ← set_next new (al_head l) (al_store l);
  '(prev, m) ← register_loop (size m) new None m;
  match prev with
  | None => Some (Applist m (Some new))
  | Some p => m ← set_next p (Some new) m; Some (Applist m (al_head l))
  end.

(** Result: [None] is a wild pointer, [Some None] is NULL. *)
Fixpoint findapp_loop (fuel : nat) (name : bytes) (p : option Z) (m : gmap Z psh_appentry_t)
    : option (option Z) :=
  match p with
  | None => Some None
  | Some p =>
      a ← m !! p;
      if strcmp name (a_name a) =? 0 then Some (Some p)
      else match fuel with
           | O => None
           | Datatypes.S fuel => findapp_loop fuel name (a_next a) m
           end
  end.

Definition psh_findapp (name : bytes) (l : applist) : option (option Z) :=
  findapp_loop (size (al_store l)) name (al_head l) (al_store l).

Definition psh_applist_first (l : applist) : option Z := al_head l.
Definition psh_applist_next (p : option Z) (l : applist) : option (option Z) :=
  match p with None => Some None | Some p => a_next <$> al_store l !! p end.

(** ** Abstract view: the list of (address, name), in list order *)

Abbreviation apps := (list (Z * bytes)).

Fixpoint linked (m : gmap Z psh_appentry_t) (p : option Z) (l : apps) : Prop :=
  match l with
  | [] => p = None
  | (a, name) :: l => p = Some a /\ exists n, m !! a = Some (App name n) /\ linked m n l
  end.

Definition registered (l : applist) (k : apps) : Prop :=
  linked (al_store l) (al_head l) k /\ NoDup k.*1.

(** Insertion before the first name that is not smaller. *)
Fixpoint insert_app (x : Z * bytes) (l : apps) : apps :=
  match l with
  | [] => [x]
  | y :: l => if strcmp y.2 x.2 <? 0 then y :: insert_app x l else x :: y :: l
  end.

Fixpoint sorted_apps (l : apps) : Prop :=
  match l with
  | [] => True
  | x :: l => Forall (fun y => strcmp x.2 y.2 <= 0) l /\ sorted_apps l
  end.

(** The entry a name denotes: the first in list order. *)
Definition lookup_app (name : bytes) (l : apps) : option Z :=
  fst <$> head (filter (fun x => x.2 = name) l).

Lemma linked_insert_ne m p l a e :
  a ∉ l.*1 -> linked m p l -> linked (<[a := e]> m) p l.
Proof.
  revert p. induction l as [|[b name] l IH]; intros p Ha; simpl; [done|].
  intros (-> & n & Hb & Hl). apply not_elem_of_cons in Ha as [Hab Ha].
  split; [done|]. exists n. rewrite lookup_insert_ne by done. auto.
Qed.

Lemma linked_dom m p l : linked m p l -> forall a, a ∈ l.*1 -> is_Some (m !! a).
Proof.
  revert p. induction l as [|[b name] l IH]; intros p; simpl.
  - intros _ a Ha. by apply elem_of_nil in Ha.
  - intros (_ & n & Hb & Hl) a [->|Ha]%elem_of_cons; eauto.
Qed.

Lemma linked_size m p l : linked m p l -> NoDup l.*1 -> (length l <= size m)%nat.
Proof.
  intros Hl Hn. rewrite <-(length_fmap fst l), <-(size_list_to_set (C := gset Z)) by done.
  rewrite <-size_dom. apply subseteq_size. intros a Ha%elem_of_list_to_set.
  apply elem_of_dom. by eapply linked_dom.
Qed.

(** The loop stops at the right place: [new] points at the rest of the list,
    [prev] at the entry before. *)
Lemma register_loop_ok new name l fuel prev m :
  (length l <= fuel)%nat -> new ∉ l.*1 -> NoDup l.*1 ->
  (exists p, m !! new = Some (App name p) /\ linked m p l) ->
  exists a b m', l = a ++ b /\ insert_app (new, name) l = a ++ (new, name) :: b /\
    register_loop fuel new prev m = Some (last (prev :: (Some <$> a.*1)) ≫= id, m') /\
    m' !! new = Some (App name (fst <$> head b)) /\
    (forall q, q <> new -> m' !! q = m !! q).
Proof.
  revert fuel prev m. induction l as [|[b bn] l IH]; intros fuel prev m Hf Hnew Hnd (p & Hm & Hl).
  - simpl in Hl. subst p. exists [], [], m.
    split_and!; [done|done| |done|done]. destruct fuel; simpl; by rewrite Hm.
  - destruct Hl as (-> & n & Hb & Hl). destruct fuel as [|fuel]; [simpl in Hf; lia|].
    apply not_elem_of_cons in Hnew as [Hne Hnew]. apply NoDup_cons in Hnd as [Hbl Hnd].
    simpl. rewrite Hm. simpl. rewrite Hb. simpl.
    destruct (Z.ltb_spec (strcmp bn name) 0).
    + unfold set_next. rewrite Hm. simpl.
      destruct (IH fuel (Some b) (<[new := App name n]> m)) as (a & c & m' & -> & Hi & Hr & Hn & Ho);
        [simpl in Hf; lia|done|done| |].
      { exists n. rewrite lookup_insert_eq. split; [done|]. by apply linked_insert_ne. }
      exists ((b, bn) :: a), c, m'. rewrite Hi, Hr.
      split_and!; [done|done| |done|].
      * by destruct a.
      * intros q Hq. rewrite Ho by done. by rewrite lookup_insert_ne.
    + exists [], ((b, bn) :: l), m. by split_and!.
Qed.

Lemma linked_ext m m' p l :
  (forall q, q ∈ l.*1 -> m' !! q = m !! q) -> linked m p l -> linked m' p l.
Proof.
  revert p. induction l as [|[b name] l IH]; intros p He; simpl; [done|].
  intros (-> & n & Hb & Hl). split; [done|]. exists n. rewrite He by by left.
  split; [done|]. apply IH; [|done]. intros q Hq. apply He. by right.
Qed.

Lemma linked_suffix m p a b : linked m p (a ++ b) -> linked m (fst <$> head b) b.
Proof.
  revert p. induction a as [|[q n] a IH]; intros p; simpl.
  - destruct b as [|[q n] b]; simpl; [done|]. by intros (-> & ?).
  - intros (_ & ? & _ & Hl). eauto.
Qed.

Lemma set_next_ok p n m name o :
  m !! p = Some (App name o) -> set_next p n m = Some (<[p := App name n]> m).
Proof. intros Hp. unfold set_next. by rewrite Hp. Qed.

(** Redirecting the [next] of the entry [q] to another list. *)
Lemma linked_splice m p a q qn b c new :
  NoDup (a ++ (q, qn) :: b).*1 -> linked m p (a ++ (q, qn) :: b) ->
  linked (<[q := App qn (Some new)]> m) (Some new) c ->
  linked (<[q := App qn (Some new)]> m) p (a ++ (q, qn) :: c).
Proof.
  revert p. induction a as [|[r rn] a IH]; intros p Hnd; simpl.
  - intros (-> & n & _ & _) Hc. split; [done|]. exists (Some new). by rewrite lookup_insert_eq.
  - intros (-> & n & Hr & Hl) Hc. simpl in Hnd. apply NoDup_cons in Hnd as [Hri Hnd].
    split; [done|]. exists n. rewrite lookup_insert_ne; [auto|].
    intros <-. apply Hri. rewrite fmap_app. apply elem_of_app. right. by left.
Qed.

Lemma sorted_apps_insert x l :
  sorted_apps l -> sorted_apps (insert_app x l) /\ insert_app x l ≡ₚ x :: l.
Proof.
  induction l as [|y l IH]; simpl; [done|]. intros [Hy Hl].
  destruct (IH Hl) as [Hs Hp]. destruct (Z.ltb_spec (strcmp y.2 x.2) 0) as [Hlt|Hge].
  - simpl. split; [split; [|done]|].
    + rewrite Hp. constructor; [simpl; lia|done].
    + rewrite Hp. by constructor.
  - simpl. split; [|done]. pose proof (strcmp_antisym x.2 y.2) as Ha.
    pose proof (strcmp_antisym y.2 x.2) as Hb.
    assert (strcmp x.2 y.2 <= 0) as Hxy by lia.
    split; [|done]. constructor; [done|]. eapply Forall_impl; [exact Hy|].
    intros z Hz. by eapply strcmp_le_trans.
Qed.

(** The newest registration of a name is the one found. *)
Lemma lookup_app_insert x l name :
  sorted_apps l ->
  lookup_app name (insert_app x l) = if decide (x.2 = name) then Some x.1 else lookup_app name l.
Proof.
  unfold lookup_app. induction l as [|y l IH]; simpl; intros Hs.
  - rewrite filter_cons. by case_decide.
  - destruct Hs as [Hy Hs]. destruct (Z.ltb_spec (strcmp y.2 x.2) 0).
    + specialize (IH Hs). rewrite !(filter_cons _ y).
      destruct (decide (y.2 = name)) as [Hn|]; [|done].
      rewrite decide_False; [done|]. intros Hx. rewrite Hn, Hx, strcmp_refl in *. lia.
    + rewrite filter_cons. by case_decide.
Qed.

Lemma findapp_loop_ok name m p l fuel :
  (length l <= fuel)%nat -> linked m p l ->
  findapp_loop fuel name p m = Some (lookup_app name l).
Proof.
  revert p fuel. induction l as [|[b bn] l IH]; intros p fuel Hf; simpl.
  - intros ->. by destruct fuel.
  - intros (-> & n & Hb & Hl). destruct fuel as [|fuel]; [simpl in Hf; lia|].
    simpl. rewrite Hb. simpl. unfold lookup_app. rewrite filter_cons. simpl.
    destruct (Z.eqb_spec (strcmp name bn) 0) as [He|He].
    + apply strcmp_eq in He as ->. by rewrite decide_True.
    + rewrite decide_False; [apply IH; [simpl in Hf; lia|done]|].
      intros ->. by rewrite strcmp_refl in He.
Qed.

(** [psh_registerapp] is sorted insertion into the abstract list. *)
Lemma registerapp_insert new name p0 l k :
  registered l k -> new ∉ k.*1 -> al_store l !! new = Some (App name p0) ->
  exists l', psh_registerapp new l = Some l' /\
    linked (al_store l') (al_head l') (insert_app (new, name) k).
Proof.
  intros [Hl Hnd] Hnew He. unfold psh_registerapp.
  rewrite (set_next_ok _ _ _ _ _ He). cbn [mbind option_bind].
  set (m := <[new := _]> _).
  assert (linked m (al_head l) k) as Hm by by apply linked_insert_ne.
  destruct (register_loop_ok new name k (size m) None m) as (a & b & m' & -> & Hi & -> & Hn & Ho);
    [by eapply linked_size|done|done| |].
  { exists (al_head l). split; [apply lookup_insert_eq|done]. }
  rewrite Hi. cbn [mbind option_bind].
  assert (linked m' (al_head l) (a ++ b)) as Hm'.
  { eapply linked_ext; [|exact Hm]. intros q Hq. apply Ho. by intros ->. }
  assert (forall m'', (forall q, q ∈ (new :: b.*1) -> m'' !! q = m' !! q) ->
    linked m'' (Some new) ((new, name) :: b)) as Hnb.
  { intros m'' Hq. split; [done|]. exists (fst <$> head b). rewrite Hq by by left.
    split; [done|]. apply linked_suffix in Hm'. eapply linked_ext; [|exact Hm'].
    intros q Hqb. apply Hq. by right. }
  destruct a as [|[q qn] a _] using rev_ind; simpl.
  - eexists. split; [done|]. simpl. by apply Hnb.
  - rewrite fmap_app. simpl. rewrite fmap_app. simpl.
    assert (last (None :: (Some <$> a.*1) ++ [Some q]) = Some (Some q)) as ->
      by by rewrite app_comm_cons, last_snoc.
    simpl. rewrite <-(assoc_L (++)) in Hm', Hnd, Hnew |- *. simpl in *.
    assert (m' !! q = Some (App qn (fst <$> head b))) as Hq.
    { apply linked_suffix in Hm' as Hs. simpl in Hs. destruct Hs as (_ & n & Hq & Hb).
      rewrite Hq. f_equal. f_equal. destruct b as [|[??] ?]; simpl in *; [done|]. by destruct Hb. }
    rewrite (set_next_ok _ _ _ _ _ Hq). eexists. split; [done|]. simpl.
    apply linked_splice with b; [done|done|]. apply Hnb.
    intros r Hr. apply lookup_insert_ne. intros <-.
    rewrite fmap_app in Hnd, Hnew. simpl in *. apply NoDup_app in Hnd as (_ & _ & Hnd).
    apply NoDup_cons in Hnd as [Hqb _]. apply elem_of_cons in Hr as [->|Hr]; [|done].
    apply Hnew, elem_of_app. right. by left.
Qed.

(** Registering an applet.  For a well-formed, sorted list and an entry that
    is not yet on it, [psh_registerapp] follows no wild pointer, keeps the list
    linked and sorted with exactly one more entry, and [psh_findapp] then
    returns the new entry for its name and what it returned before for every
    other name. *)
Theorem registerapp_find new name p0 l k :
  registered l k -> sorted_apps k -> new ∉ k.*1 -> al_store l !! new = Some (App name p0) ->
  exists l' k', psh_registerapp new l = Some l' /\ registered l' k' /\ sorted_apps k' /\
    k' ≡ₚ (new, name) :: k /\
    forall n, psh_findapp n l' = if decide (n = name) then Some (Some new) else psh_findapp n l.
Proof.
  intros Hr Hs Hnew He.
  destruct (registerapp_insert new name p0 l k Hr Hnew He) as (l' & Hl' & Hlk).
  destruct (sorted_apps_insert (new, name) k Hs) as [Hs' Hp].
  destruct Hr as [Hl Hnd].
  assert (NoDup (insert_app (new, name) k).*1) as Hnd'.
  { rewrite Hp. simpl. by constructor. }
  exists l', (insert_app (new, name) k). split_and!; try done.
  intros n. unfold psh_findapp.
  rewrite (findapp_loop_ok n _ _ _ _ (linked_size _ _ _ Hlk Hnd') Hlk).
  rewrite (findapp_loop_ok n _ _ _ _ (linked_size _ _ _ Hl Hnd) Hl).
  rewrite lookup_app_insert by done. simpl. repeat case_decide; congruence.
Qed.

(** The list [exit], [psh] and the unregistered entry 3 for [history]. *)
Definition ex_applist : applist :=
  Applist (list_to_map [(1, App (bstr "exit") (Some 2)); (2, App (bstr "psh") None);
                        (3, App (bstr "history") None)]) (Some 1).

Lemma registerapp_find_witness :
  exists l', psh_registerapp 3 ex_applist = Some l' /\
    psh_findapp (bstr "history") l' = Some (Some 3) /\ psh_findapp (bstr "psh") l' = Some (Some 2).
Proof.
  destruct (registerapp_find 3 (bstr "history") None ex_applist [(1, bstr "exit"); (2, bstr "psh")])
    as (l' & k' & Hr & _ & _ & _ & Hf).
  - split; [|by vm_compute; apply (bool_decide_unpack _)].
    split; [done|]. exists (Some 2). split; [done|]. split; [done|]. by exists None.
  - repeat constructor. simpl. discriminate.
  - by apply (bool_decide_unpack _).
  - done.
  - exists l'. split; [exact Hr|]. split; rewrite Hf; vm_compute; reflexivity.
Defined.
