(* ===== verification/Io.v ===== *)
(** * Reading, writing and the terminal ([psh/psh.c])

    [psh_write] and [psh_read] retry short and interrupted transfers; they run
    against the list of answers of the system call.  [psh_ttyopen] works on the
    descriptor table of [Fds]. *)

From stdpp Require Import gmap.
From S2P Require Import Prelude Fds.

(** Whether the loops try again after a failure. *)
Definition retryable (errno : Z) : bool := (errno =? EINTR) || (errno =? EAGAIN).

(** ** [psh_write] *)

(** One answer of [write]: the result, and [errno] after the call. *)
Abbreviation answer := (Z * Z)%type.

(** The loop from offset [len]; the result is the return value ([None] when it
    still waits for the next answer) and the bytes that reached the file. *)
Fixpoint write_loop (rs : list answer) (buf : bytes) (count len : Z) (out : bytes)
    : option (option Z * bytes) :=
  if len =? count then Some (Some len, out) else
  match rs with
  | [] => Some (None, out)
  | (res, errno) :: rs =>
      if res <=? 0 then
        if retryable errno then write_loop rs buf count len out else Some (Some len, out)
      else d ← rd_range buf len res; write_loop rs buf count (len + res) (out ++ d)
  end.

Definition psh_write (rs : list answer) (buf : bytes) (count : Z) : option (option Z * bytes) :=
  write_loop rs buf count 0 [].

(** ** [psh_read] *)

(** One answer of [read]: the bytes stored ([[]] when it returned no positive
    number), and [errno] after the call. *)
Fixpoint read_loop (rs : list (bytes * Z)) (buf : bytes) (count len : Z)
    : option (option Z * bytes) :=
  if len =? count then Some (Some len, buf) else
  match rs with
  | [] => Some (None, buf)
  | (d, errno) :: rs =>
      if zlen d <=? 0 then
        if retryable errno then read_loop rs buf count len else Some (Some len, buf)
      else buf ← wr_range buf len d; read_loop rs buf count (len + zlen d)
  end.

Definition psh_read (rs : list (bytes * Z)) (buf : bytes) (count : Z) : option (option Z * bytes) :=
  read_loop rs buf count 0.

(** ** The terminal *)

Section tty.
Context {S : Type} `{FdOps S}.

(** [psh_common.ttydev] and the descriptor table. *)
Record ttyst := Ttyst { t_dev : option bytes; t_fds : S }.

Definition psh_ttyinstall (fd : Z) (ttydev : bytes) (s : ttyst) : ttyst :=
  let '(_, f) := os_dup2 fd 0 (t_fds s) in
  let '(_, f) := os_dup2 fd 1 f in
  let '(_, f) := os_dup2 fd 2 f in
  Ttyst (Some ttydev) (os_close fd f).

(** [mem] is the success of [strdup]. *)
Definition psh_ttyopen (mem : bool) (ttydev : bytes) (s : ttyst) : Z * ttyst :=
  let '(fd, f) := os_open ttydev [O_RDWR] (t_fds s) in
  let s1 := Ttyst (t_dev s) f in
  if fd <? 0 then (- os_errno f, s1)
  else if negb (os_isatty fd f) then (- ENOTTY, Ttyst (t_dev s) (os_close fd f))
  else if negb mem then (- ENOMEM, Ttyst (t_dev s) (os_close fd f))
  else (0, psh_ttyinstall fd ttydev s1).
End tty.
Arguments ttyst : clear implicits.

(** ** Correctness *)

(** [write] and [read] never transfer more than asked for. *)
Fixpoint fits (rs : list Z) (rem : Z) : Prop :=
  match rs with
  | [] => True
  | r :: rs => r <= rem /\ fits rs (rem - Z.max 0 r)
  end.

Fixpoint total (rs : list Z) : Z :=
  match rs with
  | [] => 0
  | r :: rs => Z.max 0 r + total rs
  end.

Lemma write_loop_ok rs buf count len out :
  0 <= len <= count -> count <= zlen buf -> out = take (Z.to_nat len) buf ->
  fits rs.*1 (count - len) ->
  exists res l, write_loop rs buf count len out = Some (res, take (Z.to_nat l) buf) /\
    len <= l <= count /\ (res = Some l \/ res = None) /\
    (res = Some l -> l = count \/ exists r e, (r, e) ∈ rs /\ r <= 0 /\ retryable e = false) /\
    (Forall (fun a => 0 < a.1 \/ retryable a.2 = true) rs -> l = len + total rs.*1 /\
       (res = None -> l < count)).
Proof.
  intros Hlen Hc -> Hfit. revert len Hlen Hfit.
  induction rs as [|[r e] rs IH]; intros len Hlen Hfit; csimpl in *.
  - destruct (Z.eqb_spec len count) as [->|]; [exists (Some count), count|exists None, len];
      (split_and!; [done|lia|lia|auto|auto; discriminate|]);
      intros _; (split; [lia|]); [discriminate|lia].
  - destruct (Z.eqb_spec len count) as [->|Hne].
    { exists (Some count), count. split_and!; [done|lia|lia|auto|auto|].
      intros Hall. split; [|done]. destruct Hfit as [Hr Hfit].
      assert (total rs.*1 = 0) as ->; [|lia]. clear -Hfit Hr.
      replace (count - count - Z.max 0 r) with 0 in Hfit by lia.
      induction rs as [|[r' e'] rs IH]; csimpl in *; [done|].
      destruct Hfit as [? Hf]. replace (0 - Z.max 0 r') with 0 in Hf by lia. specialize (IH Hf). lia. }
    destruct Hfit as [Hr Hfit]. destruct (Z.leb_spec r 0).
    + destruct (retryable e) eqn:He.
      * replace (count - len - Z.max 0 r) with (count - len) in Hfit by lia.
        destruct (IH len Hlen Hfit) as (res & l & -> & ? & ? & H1 & H2).
        exists res, l. split_and!; [done|lia|lia|done| |].
        -- intros Hres. destruct (H1 Hres) as [?|(r' & e' & Hin & ?)]; [by left|right].
           exists r', e'. split; [by right|done].
        -- intros [_ Hall]%Forall_cons. replace (Z.max 0 r + total rs.*1) with (total rs.*1) by lia.
           by apply H2.
      * exists (Some len), len. split_and!; [done|lia|lia|auto| |].
        -- intros _. right. exists r, e. split; [by left|done].
        -- intros [[?|?] _]%Forall_cons; simpl in *; [lia|congruence].
    + unfold rd_range at 1. destruct ((0 <=? len) && (0 <=? r) && (len + r <=? zlen buf)) eqn:Hb.
      2:{ exfalso. bprop. destruct Hb as [[?|?]%andb_false_iff|?]; bprop; lia. }
      cbn [mbind option_bind].
      replace (count - len - Z.max 0 r) with (count - (len + r)) in Hfit by lia.
      destruct (IH (len + r) ltac:(lia) Hfit) as (res & l & Hw & ? & ? & H1 & H2).
      exists res, l. split_and!; [|lia|lia|done| |].
      * rewrite <-Hw. f_equal. rewrite Z2Nat.inj_add by lia. by rewrite take_take_drop.
      * intros Hres. destruct (H1 Hres) as [?|(r' & e' & Hin & ?)]; [by left|right].
        exists r', e'. split; [by right|done].
      * intros [_ Hall]%Forall_cons. destruct (H2 Hall). split; [lia|done].
Qed.

(** [psh_write] hides short and interrupted writes.  Whatever the answers of
    [write] (never more than asked for), it stays inside the buffer and what
    reaches the file is a prefix of it, of the returned length; it returns
    less than [count] only after a failure other than EINTR and EAGAIN; and
    when every failure is one of these, it returns [count] as soon as the
    successful answers add up to it. *)
Theorem psh_write_prefix rs buf count :
  0 <= count <= zlen buf -> fits rs.*1 count ->
  exists res l, psh_write rs buf count = Some (res, take (Z.to_nat l) buf) /\
    0 <= l <= count /\ (res = Some l \/ res = None) /\
    (res = Some l -> l = count \/ exists r e, (r, e) ∈ rs /\ r <= 0 /\ retryable e = false) /\
    (Forall (fun a => 0 < a.1 \/ retryable a.2 = true) rs -> total rs.*1 = count ->
       res = Some count).
Proof.
  intros Hc Hf. destruct (write_loop_ok rs buf count 0 []) as (res & l & Hw & Hl & Hr & H1 & H2);
    [lia|lia|done|by rewrite Z.sub_0_r|].
  exists res, l. split_and!; [done|lia|lia|done|done|].
  intros Hall Ht. destruct (H2 Hall) as [Hlt Hn]. destruct Hr as [->| ->].
  - f_equal. lia.
  - specialize (Hn eq_refl). lia.
Qed.

Lemma psh_write_prefix_witness :
  exists l, psh_write [(2, 0); (-1, EINTR); (1, 0)] (bstr "abc") 3 = Some (Some 3, take (Z.to_nat l) (bstr "abc")).
Proof.
  destruct (psh_write_prefix [(2, 0); (-1, EINTR); (1, 0)] (bstr "abc") 3)
    as (res & l & Hw & _ & _ & _ & Hr); [vm_compute; split; discriminate|vm_compute; repeat split; discriminate|].
  exists l. rewrite Hw. rewrite Hr; [done| |done].
  rewrite !Forall_cons, Forall_nil. split_and!; [by left|by right|by left|done].
Defined.

(** *** [psh_read] *)

Lemma fits_0 (rs : list (bytes * Z)) : fits (zlen <$> rs.*1) 0 -> concat rs.*1 = [].
Proof.
  induction rs as [|[d e] rs IH]; csimpl; [done|]. intros [Hd Hf].
  pose proof (zlen_nonneg d). assert (d = []) as -> by (apply zlen_0_nil; lia).
  change (@zlen Z []) with 0 in Hf. by apply IH.
Qed.

Lemma read_loop_ok rs a b k count :
  zlen a + zlen b = count -> fits (zlen <$> rs.*1) (zlen b) ->
  exists res d e, read_loop rs (a ++ b ++ k) count (zlen a) = Some (res, a ++ d ++ e ++ k) /\
    zlen d + zlen e = zlen b /\ d `prefix_of` concat rs.*1 /\ e = drop (length d) b /\
    (res = Some (zlen a + zlen d) \/ res = None) /\
    (res <> None -> e = [] \/ exists x err, (x, err) ∈ rs /\ x = [] /\ retryable err = false) /\
    (Forall (fun x => x.1 <> [] \/ retryable x.2 = true) rs -> concat rs.*1 = d).
Proof.
  revert a b. induction rs as [|[d err] rs IH]; intros a b Hc Hf; csimpl in *.
  - exists (if zlen a =? count then Some (zlen a) else None), [], b.
    destruct (Z.eqb_spec (zlen a) count) as [He|];
      (split_and!; [done|by rewrite zlen_nil|done|done| | |done]).
    + left. by rewrite zlen_nil, Z.add_0_r.
    + intros _. left. apply zlen_0_nil. lia.
    + by right.
    + done.
  - destruct Hf as [Hd Hf].
    destruct (Z.eqb_spec (zlen a) count) as [He|Hne].
    { assert (b = []) as -> by (apply zlen_0_nil; lia).
      exists (Some (zlen a)), [], []. split_and!; try done; [apply prefix_nil| |by left|].
      - left. by rewrite zlen_nil, Z.add_0_r.
      - intros _. change (@zlen Z []) with 0 in *. by apply (fits_0 ((d, err) :: rs)). }
    pose proof (zlen_nonneg d). destruct (Z.leb_spec (zlen d) 0).
    + assert (d = []) as -> by (apply zlen_0_nil; lia). change (@zlen Z []) with 0 in Hf.
      destruct (retryable err) eqn:Hret.
      * replace (zlen b - Z.max 0 0) with (zlen b) in Hf by lia.
        destruct (IH a b Hc Hf) as (res & d & e & -> & ? & ? & ? & ? & H1 & H2).
        exists res, d, e. split_and!; try done.
        -- intros Hn. destruct (H1 Hn) as [?|(x & er & Hin & ?)]; [by left|].
           right. exists x, er. split; [by right|done].
        -- intros [_ Hall]%Forall_cons. by apply H2.
      * exists (Some (zlen a)), [], b. split_and!; try done; [apply prefix_nil| | |].
        -- left. by rewrite zlen_nil, Z.add_0_r.
        -- intros _. right. exists [], err. split; [by left|done].
        -- intros [[?|?] _]%Forall_cons; simpl in *; congruence.
    + destruct (list_split_at b (zlen d)) as (b1 & b2 & -> & Hb1); [lia|].
      replace (a ++ (b1 ++ b2) ++ k) with (a ++ b1 ++ (b2 ++ k)) by appeq.
      rewrite wr_range_app by done. cbn [mbind option_bind].
      replace (a ++ d ++ b2 ++ k) with ((a ++ d) ++ b2 ++ k) by appeq.
      replace (zlen a + zlen d) with (zlen (a ++ d)) by zlia.
      replace (zlen (b1 ++ b2) - Z.max 0 (zlen d)) with (zlen b2) in Hf by zlia.
      destruct (IH (a ++ d) b2) as (res & d' & e & -> & Hl & [t Ht] & He & Hr & H1 & H2); [zlia|done|].
      exists res, (d ++ d'), e. split_and!.
      * by rewrite <-!(assoc_L (++)).
      * zlia.
      * exists t. by rewrite Ht, (assoc_L (++)).
      * subst e. unfold zlen in Hb1. rewrite length_app, <-drop_drop.
        f_equal. symmetry. apply drop_app_length'. lia.
      * destruct Hr as [->| ->]; [left|by right]. f_equal. zlia.
      * intros Hn. destruct (H1 Hn) as [?|(x & er & Hin & ?)]; [by left|].
        right. exists x, er. split; [by right|done].
      * intros [_ Hall]%Forall_cons. f_equal. by apply H2.
Qed.

(** [psh_read] fills the buffer with exactly the bytes delivered, in order.
    Whatever the answers of [read] (never more than asked for), the buffer ends
    up as the delivered bytes [d] followed by its old contents; it returns less
    than [count] only after end of file or a failure other than EINTR and
    EAGAIN, and loses no byte while every failure is one of these. *)
Theorem psh_read_fills rs buf count :
  0 <= count <= zlen buf -> fits (zlen <$> rs.*1) count ->
  exists res d, psh_read rs buf count = Some (res, d ++ drop (length d) buf) /\
    zlen d <= count /\ d `prefix_of` concat rs.*1 /\
    (res = Some (zlen d) \/ res = None) /\
    (res <> None -> zlen d = count \/ exists err, ([], err) ∈ rs /\ retryable err = false) /\
    (Forall (fun x => x.1 <> [] \/ retryable x.2 = true) rs -> concat rs.*1 = d).
Proof.
  intros Hc Hf. destruct (list_split_at buf count) as (b & k & -> & Hb); [lia|].
  rewrite <-Hb in Hf.
  destruct (read_loop_ok rs [] b k count) as (res & d & e & Hr & Hl & Hp & He & Hres & H1 & H2);
    [zlia|done|]. simpl in Hr, Hres. unfold psh_read. change (zlen (@nil Z)) with 0 in *.
  exists res, d. pose proof (zlen_nonneg e). split_and!; try done.
  - rewrite Hr, He. f_equal. f_equal. f_equal. rewrite drop_app_le; [done|]. unfold zlen in *. lia.
  - lia.
  - intros Hn. destruct (H1 Hn) as [He0|(x & er & Hin & -> & ?)]; [left|right; eauto].
    rewrite He0, zlen_nil in Hl. lia.
Qed.

Lemma psh_read_fills_witness :
  exists res d, psh_read [(bstr "ab", 0); ([], EINTR); (bstr "c", 0)] (replicate 4 0) 3 =
    Some (res, d ++ drop (length d) (replicate 4 0)) /\ d = bstr "abc".
Proof.
  destruct (psh_read_fills [(bstr "ab", 0); ([], EINTR); (bstr "c", 0)] (replicate 4 0) 3)
    as (res & d & Hr & _ & _ & _ & _ & Hd);
    [vm_compute; split; discriminate|vm_compute; repeat split; discriminate|].
  exists res, d. split; [exact Hr|]. symmetry. apply Hd.
  rewrite !Forall_cons, Forall_nil. split_and!; [by left|by right|by left|done].
Defined.

(** *** The terminal *)

Section tty_laws.
Context {S : Type} `{FdLaws S}.

(** [dup2] succeeds on open descriptors. *)
Definition dup2_works : Prop :=
  forall a b (f : S), 0 <= b -> is_Some (fd_get f a) -> 0 <= fst (os_dup2 a b f).

Lemma dup2_get a b s r s' :
  os_dup2 a b s = (r, s') -> 0 <= r -> same_fds (fd_get s') (fd_upd b (fd_get s a) (fd_get s)).
Proof. intros He Hr. by destruct (dup2_law a b s r s' He) as [[??]|(->&_&?)]; [lia|]. Qed.

Lemma ttyinstall_get fd dev d s :
  dup2_works ->
  fd_get (t_fds s) fd = Some d ->
  forall i, fd_get (t_fds (psh_ttyinstall fd dev s)) i =
    if decide (i = fd) then None
    else if decide (0 <= i <= 2) then Some d else fd_get (t_fds s) i.
Proof.
  intros Hok Hd i. unfold psh_ttyinstall.
  destruct (os_dup2 fd 0 (t_fds s)) as [r0 f0] eqn:E0.
  destruct (os_dup2 fd 1 f0) as [r1 f1] eqn:E1.
  destruct (os_dup2 fd 2 f1) as [r2 f2] eqn:E2. simpl.
  pose proof (Hok fd 0 (t_fds s)) as P0. rewrite E0 in P0. simpl in P0.
  assert (same_fds (fd_get f0) (fd_upd 0 (Some d) (fd_get (t_fds s)))) as G0.
  { rewrite <-Hd. eapply dup2_get; eauto with lia. }
  assert (fd_get f0 fd = Some d) as D0 by (rewrite G0; unfold fd_upd; by case_decide).
  pose proof (Hok fd 1 f0) as P1. rewrite E1 in P1. simpl in P1.
  assert (same_fds (fd_get f1) (fd_upd 1 (Some d) (fd_get f0))) as G1.
  { rewrite <-D0. eapply dup2_get; eauto with lia. }
  assert (fd_get f1 fd = Some d) as D1 by (rewrite G1; unfold fd_upd; by case_decide).
  pose proof (Hok fd 2 f1) as P2. rewrite E2 in P2. simpl in P2.
  assert (same_fds (fd_get f2) (fd_upd 2 (Some d) (fd_get f1))) as G2.
  { rewrite <-D1. eapply dup2_get; eauto with lia. }
  rewrite (close_law fd f2 i). unfold fd_upd. case_decide; [done|].
  rewrite G2. unfold fd_upd. case_decide; [by rewrite decide_True by lia|].
  rewrite G1. unfold fd_upd. case_decide; [by rewrite decide_True by lia|].
  rewrite G0. unfold fd_upd. case_decide; [by rewrite decide_True by lia|].
  by rewrite decide_False by lia.
Qed.

(** Opening a terminal.  [psh_ttyopen] either fails with a negative error and
    leaves every descriptor as it was (nothing leaks), or succeeds: then stdin,
    stdout and stderr refer to the terminal, the temporary descriptor is closed
    and every other descriptor is untouched.  The temporary descriptor is the
    one [open] returned: when it is itself one of 0, 1, 2 (a process started
    without them), closing it closes that stream. *)
Theorem ttyopen_outcome mem dev s :
  dup2_works ->
  let '(err, s') := psh_ttyopen mem dev s in
  (err < 0 /\ same_fds (fd_get (t_fds s')) (fd_get (t_fds s)) /\ t_dev s' = t_dev s) \/
  (err = 0 /\ t_dev s' = Some dev /\ exists fd, fd_get (t_fds s) fd = None /\
    forall i, fd_get (t_fds s') i =
      if decide (i = fd) then None
      else if decide (0 <= i <= 2) then Some (Desc dev [O_RDWR]) else fd_get (t_fds s) i).
Proof.
  intros Hok. unfold psh_ttyopen. destruct (os_open dev [O_RDWR] (t_fds s)) as [fd f] eqn:E.
  destruct (open_law _ _ _ _ _ E) as [(Hfd & He & Hg)|(Hfd & Hn & Hg)].
  - destruct (Z.ltb_spec fd 0); [|lia]. left. split_and!; [lia|done|done].
  - destruct (Z.ltb_spec fd 0); [lia|].
    assert (same_fds (fd_get (os_close fd f)) (fd_get (t_fds s))) as Hback.
    { intros i. rewrite (close_law fd f i). unfold fd_upd. case_decide; [by subst|].
      rewrite Hg. unfold fd_upd. by case_decide. }
    destruct (os_isatty fd f); simpl; [|left; done].
    destruct mem; simpl; [|left; done].
    right. split; [done|].
    pose proof (ttyinstall_get fd dev (Desc dev [O_RDWR]) (Ttyst (t_dev s) f) Hok) as Hi. simpl in Hi.
    split; [unfold psh_ttyinstall; by repeat case_match|].
    exists fd. split; [done|]. intros i. rewrite Hi.
    + repeat case_decide; try done. rewrite Hg. unfold fd_upd. by case_decide.
    + rewrite Hg. unfold fd_upd. by case_decide.
Qed.
End tty_laws.

(** A process with its three streams on [/dev/console]; one terminal exists. *)
Definition ex_fds : ftab :=
  Ftab (list_to_map [(0, Desc (bstr "/dev/console") [O_RDWR]); (1, Desc (bstr "/dev/console") [O_RDWR]);
                     (2, Desc (bstr "/dev/console") [O_RDWR])])
    (fun p _ => bool_decide (p = bstr "/dev/tty1") || bool_decide (p = bstr "out")) 10 0.


Lemma ftab_dup2_works : dup2_works (S := ftab).
Proof. intros a b f Hb [d Hd]. simpl in *. by rewrite Hd. Qed.

Lemma ttyopen_outcome_witness :
  exists fd, forall i, fd_get (t_fds (snd (psh_ttyopen true (bstr "/dev/tty1") (Ttyst None ex_fds)))) i =
    if decide (i = fd) then None
    else if decide (0 <= i <= 2) then Some (Desc (bstr "/dev/tty1") [O_RDWR]) else fd_get ex_fds i.
Proof.
  pose proof (ttyopen_outcome true (bstr "/dev/tty1") (Ttyst None ex_fds) ftab_dup2_works) as Ht.
  destruct (psh_ttyopen true _ _) as [err s'] eqn:E.
  assert (err = 0) as -> by (vm_compute in E; congruence).
  destruct Ht as [[Herr _]|(_ & _ & fd & _ & Hi)]; [discriminate|]. exists fd. exact Hi.
Defined.
