(* ===== verification/Redir.v ===== *)
(** * Redirections ([psh_parseRedirections], [psh_redirCleanup],
    [psh_streamRedirect], [psh_streamRestore] of [psh/pshapp/pshapp.c])

    Proved against the descriptor interface of [Fds].  The words of [argv] are
    their characters; a word that is removed only moves the pointers after it. *)

From stdpp Require Import gmap.
From S2P Require Import Prelude Fds Io.

Definition PSH_REDIRSZ : nat := 3.
Definition PSH_UNKNOWN_CMD : Z := 127.

(** [struct psh_redir]; -1 is "none". *)
Record psh_redir := Redir { save : list Z; red : list Z }.

(** [memset(redir, -1, sizeof( *redir))] *)
Definition redir_none : psh_redir := Redir (replicate PSH_REDIRSZ (-1)) (replicate PSH_REDIRSZ (-1)).

Definition set_red (i v : Z) (r : psh_redir) : option psh_redir :=
  l ← wr (red r) i v; Some (Redir (save r) l).
Definition set_save (i v : Z) (r : psh_redir) : option psh_redir :=
  l ← wr (save r) i v; Some (Redir l (red r)).

(** Character [i] of a word, its NUL included. *)
Definition word_at (w : bytes) (i : Z) : option Z := rd (w ++ [0]) i.

(** ** The syntax of one word *)

Inductive marker := MNone | MIn | MOut | MErr | MBoth.

(** The word's leading descriptor: the marker and the characters it takes. *)
Definition leading (c0 : Z) : marker * Z :=
  if c0 =? 49 then (MOut, 1)
  else if c0 =? 50 then (MErr, 1)
  else if c0 =? 38 then (MBoth, 1)
  else (MNone, 0).

(** [Some None]: not a redirection; otherwise the streams, the flags and the
    position of the operator's last character. *)
Definition redir_op (w : bytes) : option (option (marker * list oflag * Z)) :=
  c0 ← word_at w 0;
  let '(marker, c) := leading c0 in
  cc ← word_at w c;
  if cc =? 62 then
    let marker := match marker with MNone => MOut | m => m end in
    cn ← word_at w (c + 1);
    if cn =? 62 then Some (Some (marker, [O_WRONLY; O_CREAT; O_APPEND], c + 1))
    else Some (Some (marker, [O_WRONLY; O_CREAT; O_TRUNC], c))
  else if (match marker with MNone => true | _ => false end) && (c0 =? 60) then
    Some (Some (MIn, [O_RDONLY], c))
  else Some None.

Section redir.
Context {S : Type} `{FdOps S}.

(** [if (fd >= 0) close(fd)] *)
Definition close_if (fd : Z) (s : S) : S := if 0 <=? fd then os_close fd s else s.

Definition psh_redirCleanup (r : psh_redir) (s : S) : option (psh_redir * S) :=
  for_loop 0 PSH_REDIRSZ (fun i '(r, s) =>
    fd ← rd (red r) i;
    r ← (if 0 <=? fd then set_red i (-1) r else Some r);
    let s := close_if fd s in
    sv ← rd (save r) i;
    r ← (if 0 <=? sv then set_save i (-1) r else Some r);
    Some (r, close_if sv s)) (r, s).

(** [if (redir->red[i] >= 0) close(redir->red[i]); redir->red[i] = fd;] *)
Definition replace_red (i fd : Z) (r : psh_redir) (s : S) : option (psh_redir * S) :=
  old ← rd (red r) i;
  r ← set_red i fd r;
  Some (r, close_if old s).

(** Attach the opened [fd] to the streams; the first component is the early
    [return], if any. *)
Definition attach (m : marker) (fd : Z) (r : psh_redir) (s : S)
    : option (option Z * psh_redir * S) :=
  match m with
  | MIn => '(r, s) ← replace_red 0 fd r s; Some (None, r, s)
  | _ =>
      '(r, s) ← match m with
                | MOut | MBoth => replace_red 1 fd r s
                | _ => Some (r, s)
                end;
      match m with
      | MErr => '(r, s) ← replace_red 2 fd r s; Some (None, r, s)
      | MBoth =>
          old ← rd (red r) 2;
          let s := close_if old s in
          let '(fd2, s) := os_dup fd s in
          r ← set_red 2 fd2 r;
          if fd2 <? 0 then '(r, s) ← psh_redirCleanup r s; Some (Some (- os_errno s), r, s)
          else Some (None, r, s)
      | _ => Some (None, r, s)
      end
  end.

(** The loop from word [i]; the result is the return value, the words left, the
    redirections and the descriptor table. *)
Fixpoint redir_loop (fuel : nat) (i : Z) (argv : list bytes) (r : psh_redir) (s : S)
    : option (Z * list bytes * psh_redir * S) :=
  if negb (i <? zlen argv) then Some (0, argv, r, s) else
  match fuel with
  | O => None
  | Datatypes.S fuel =>
      w ← rd argv i;
      op ← redir_op w;
      match op with
      | None => redir_loop fuel (i + 1) argv r s
      | Some (m, flags, c) =>
          last ← word_at w (c + 1);
          if (last =? 0) && (zlen argv <=? i + 1) then
            '(r, s) ← psh_redirCleanup r s; Some (- EINVAL, argv, r, s)
          else
            path ← (if last =? 0 then rd argv (i + 1) else Some (drop (Z.to_nat (c + 1)) w));
            let eat := if last =? 0 then 2 else 1 in
            let '(fd, s) := os_open path flags s in
            if fd <? 0 then '(r, s) ← psh_redirCleanup r s; Some (- ENOENT, argv, r, s)
            else
              let argv := take (Z.to_nat i) argv ++ drop (Z.to_nat (i + eat)) argv in
              '(ret, r, s) ← attach m fd r s;
              match ret with
              | Some err => Some (err, argv, r, s)
              | None => redir_loop fuel i argv r s
              end
      end
  end.

(** Every iteration passes a word or removes one. *)
Definition psh_parseRedirections (argv : list bytes) (s : S)
    : option (Z * list bytes * psh_redir * S) :=
  redir_loop (length argv) 0 argv redir_none s.

(** ** Applying and undoing the redirections *)

(** One stream: the result is whether to go on ([None] is [break]), the
    saved descriptor and the table. *)
Inductive redir_outcome := RedOk | RedFail | RedBreak.

Definition redirect_one (i fd : Z) (s : S) : redir_outcome * Z * S :=
  let '(sv, s) := os_dup i s in
  if sv <? 0 then (RedBreak, sv, os_close fd s)
  else
    let '(res, s) := os_dup2 fd i s in
    if res <? 0 then (RedFail, -1, os_close fd (os_close sv s))
    else (RedOk, sv, os_close fd s).

Fixpoint redirect_loop (k : nat) (i : Z) (err : Z) (r : psh_redir) (s : S)
    : option (Z * psh_redir * S) :=
  match k with
  | O => Some (err, r, s)
  | Datatypes.S k =>
      fd ← rd (red r) i;
      if 0 <=? fd then
        let '(res, sv, s) := redirect_one i fd s in
        r ← set_save i sv r;
        r ← set_red i (-1) r;
        match res with
        | RedOk => redirect_loop k (i + 1) err r s
        | RedFail => redirect_loop k (i + 1) (-1) r s
        | RedBreak => Some (-1, r, s)
        end
      else redirect_loop k (i + 1) err r s
  end.

Definition psh_streamRedirect (r : psh_redir) (s : S) : option (Z * psh_redir * S) :=
  '(err, r, s) ← redirect_loop PSH_REDIRSZ 0 0 (Redir (replicate PSH_REDIRSZ (-1)) (red r)) s;
  Some (if err =? 0 then 0 else PSH_UNKNOWN_CMD, r, s).

(** [dup2(save, i); close(save)]: whether [dup2] failed. *)
Definition restore_one (i sv : Z) (s : S) : bool * S :=
  let '(res, s) := os_dup2 sv i s in (res <? 0, os_close sv s).

Definition psh_streamRestore (r : psh_redir) (s : S) : option (Z * psh_redir * S) :=
  '(err, r, s) ← for_loop 0 PSH_REDIRSZ (fun i '(err, r, s) =>
    sv ← rd (save r) i;
    if 0 <=? sv then
      let '(failed, s) := restore_one i sv s in
      r ← set_save i (-1) r;
      Some (if failed : bool then -1 else err, r, s)
    else Some (err, r, s)) (0, r, s);
  '(r, s) ← psh_redirCleanup r s;
  Some (err, r, s).
End redir.

(** ** What a command line asks for *)

(** A redirection request: streams, flags, file. *)
Abbreviation request := (marker * list oflag * bytes)%type.

(** The words that are not redirections, the requests in order, and whether the
    last operator has its file name. *)
Fixpoint redir_spec (argv : list bytes) : list bytes * list request * bool :=
  match argv with
  | [] => ([], [], true)
  | w :: argv =>
      match redir_op w with
      | Some (Some (m, flags, c)) =>
          if decide (drop (Z.to_nat (c + 1)) w = []) then
            match argv with
            | [] => ([w], [], false)
            | p :: argv => let '(ws, rs, ok) := redir_spec argv in (ws, (m, flags, p) :: rs, ok)
            end
          else let '(ws, rs, ok) := redir_spec argv in
               (ws, (m, flags, drop (Z.to_nat (c + 1)) w) :: rs, ok)
      | _ => let '(ws, rs, ok) := redir_spec argv in (w :: ws, rs, ok)
      end
  end.

(** What stdin, stdout and stderr are redirected to. *)
Record targets := Targets { to_in : option desc; to_out : option desc; to_err : option desc }.
Definition no_targets : targets := Targets None None None.

(** A later request for a stream replaces an earlier one. *)
Definition apply_request (t : targets) (q : request) : targets :=
  let '(m, flags, path) := q in
  let d := Some (Desc path flags) in
  match m with
  | MIn => Targets d (to_out t) (to_err t)
  | MOut => Targets (to_in t) d (to_err t)
  | MErr => Targets (to_in t) (to_out t) d
  | MBoth => Targets (to_in t) d d
  | MNone => t
  end.

(** ** Ownership of the descriptors held by a [psh_redir] *)

(** Slot value [a] holds the fresh descriptor for [d], or nothing. *)
Definition slot (g : fdmap) (d : option desc) (a : Z) : Prop :=
  match d with Some _ => 0 <= a /\ g a = None | None => a < 0 end.
Definition over (a : Z) (d : option desc) (f : fdmap) : fdmap :=
  match d with Some _ => fd_upd a d f | None => f end.

(** The table is [g0] plus the descriptors of the three slots, all distinct. *)
Record own3 (g0 : fdmap) (d1 d2 d3 : option desc) (a b c : Z) (g : fdmap) : Prop := {
  own_1 : slot g0 d1 a; own_2 : slot g0 d2 b; own_3 : slot g0 d3 c;
  own_12 : a = b -> a < 0; own_13 : a = c -> a < 0; own_23 : b = c -> b < 0;
  own_map : same_fds g (over a d1 (over b d2 (over c d3 g0)));
}.

Section own.
Implicit Types (g : fdmap) (d : option desc) (a b c : Z).

Lemma own3_swap12 g0 d1 d2 d3 a b c g :
  own3 g0 d1 d2 d3 a b c g -> own3 g0 d2 d1 d3 b a c g.
Proof.
  intros [H1 H2 H3 E1 E2 E3 Hm]. constructor; try done; try (intros; lia).
  intros i. rewrite (Hm i). destruct d1, d2; simpl in *; try done.
  unfold fd_upd. repeat case_decide; try done. lia.
Qed.

Lemma own3_swap23 g0 d1 d2 d3 a b c g :
  own3 g0 d1 d2 d3 a b c g -> own3 g0 d1 d3 d2 a c b g.
Proof.
  intros [H1 H2 H3 E1 E2 E3 Hm]. constructor; try done; try (intros; lia).
  intros i. rewrite (Hm i). destruct d1, d2, d3; simpl in *; try done;
  unfold fd_upd; repeat case_decide; try done; lia.
Qed.

Lemma own3_map g0 d1 d2 d3 a b c g g' :
  own3 g0 d1 d2 d3 a b c g -> same_fds g' g -> own3 g0 d1 d2 d3 a b c g'.
Proof. intros [] He. constructor; try done. by etrans. Qed.

(** Closing the first slot. *)
Lemma own3_close g0 d1 d2 d3 a b c g g' x :
  own3 g0 d1 d2 d3 a b c g -> x < 0 ->
  same_fds g' (if 0 <=? a then fd_upd a None g else g) -> own3 g0 None d2 d3 x b c g'.
Proof.
  intros [H1 H2 H3 E1 E2 E3 Hm] Hx He. constructor; try done; try (intros; lia).
  intros i. rewrite (He i). destruct (Z.leb_spec 0 a) as [Ha|Ha].
  - destruct d1 as [d1|]; [destruct H1 as [_ H1]|simpl in H1; lia].
    unfold fd_upd at 1. case_decide as Hi.
    + subst i. destruct d2, d3; simpl in *; unfold fd_upd; repeat case_decide; try done; lia.
    + rewrite (Hm i). simpl. unfold fd_upd at 1. by rewrite decide_False.
  - rewrite (Hm i). destruct d1; simpl in *; [lia|done].
Qed.

(** Filling an empty first slot with a fresh descriptor. *)
Lemma own3_fill g0 d2 d3 x a b c g g' (d : desc) :
  own3 g0 None d2 d3 x b c g -> 0 <= a -> g a = None ->
  same_fds g' (fd_upd a (Some d) g) -> own3 g0 (Some d) d2 d3 a b c g'.
Proof.
  intros [H1 H2 H3 E1 E2 E3 Hm] Ha Hn He.
  rewrite (Hm a) in Hn. simpl in Hn. constructor; try done; try (intros; lia).
  - split; [done|]. destruct d2, d3; simpl in *; unfold fd_upd in *; repeat case_decide; try done; lia.
  - intros ->. destruct d2; simpl in *; [|lia]. unfold fd_upd in Hn. by case_decide.
  - intros ->. destruct d2, d3; simpl in *; try lia; unfold fd_upd in Hn; repeat case_decide; done.
  - intros i. rewrite (He i). simpl. unfold fd_upd. case_decide; [done|]. apply Hm.
Qed.

(** Replacing the first slot: the new descriptor is opened before the old one
    is closed. *)
Lemma own3_replace g0 d1 d2 d3 a b c g g1 g2 fd (d : desc) :
  own3 g0 d1 d2 d3 a b c g -> 0 <= fd -> g fd = None ->
  same_fds g1 (fd_upd fd (Some d) g) ->
  same_fds g2 (if 0 <=? a then fd_upd a None g1 else g1) ->
  own3 g0 (Some d) d2 d3 fd b c g2.
Proof.
  intros Ho Hfd Hn He1 He2.
  assert (own3 g0 None d2 d3 (-1) b c (if 0 <=? a then fd_upd a None g else g)) as Hc.
  { by apply own3_close with (1 := Ho). }
  assert (0 <= a -> a <> fd) as Hne.
  { intros Ha ->. destruct Ho as [H1 _ _ _ _ _ Hm]. rewrite (Hm fd) in Hn.
    destruct d1; simpl in *; [|lia]. unfold fd_upd in Hn. by case_decide. }
  apply own3_fill with (1 := Hc); [done| |].
  - destruct (Z.leb_spec 0 a); [|done]. unfold fd_upd. by case_decide.
  - intros i. rewrite (He2 i). destruct (Z.leb_spec 0 a); [|apply He1].
    unfold fd_upd at 1. rewrite (He1 i). unfold fd_upd. repeat case_decide; try done. lia.
Qed.

Lemma own3_none g0 a b c g : own3 g0 None None None a b c g -> same_fds g g0.
Proof. by intros []. Qed.

(** A descriptor open below the slots is not one of them. *)
Lemma own3_open g0 d1 d2 d3 a b c g k o :
  own3 g0 d1 d2 d3 a b c g -> g0 k = Some o -> 0 <= k -> g k = Some o /\ k <> a /\ k <> b /\ k <> c.
Proof.
  intros [H1 H2 H3 _ _ _ Hm] Hk H0. rewrite (Hm k).
  destruct d1, d2, d3; simpl in *; unfold fd_upd; repeat case_decide; subst;
    repeat match goal with H : _ /\ _ |- _ => destruct H end; simplify_eq;
    split_and!; try done; lia.
Qed.

(** Changing a descriptor that is not a slot. *)
Lemma own3_base g0 d1 d2 d3 a b c g g' k v :
  own3 g0 d1 d2 d3 a b c g -> (0 <= a -> k <> a) -> (0 <= b -> k <> b) -> (0 <= c -> k <> c) ->
  same_fds g' (fd_upd k v g) -> own3 (fd_upd k v g0) d1 d2 d3 a b c g'.
Proof.
  intros [H1 H2 H3 E1 E2 E3 Hm] Ha Hb Hc He.
  assert (forall d x, slot g0 d x -> (0 <= x -> k <> x) -> slot (fd_upd k v g0) d x) as Hs.
  { intros [d|] x; simpl; [|done]. intros [Hx Hn] Hk. split; [done|].
    unfold fd_upd. rewrite decide_False; [done|]. intros ->. by apply Hk. }
  constructor; auto. intros i. rewrite (He i). unfold fd_upd at 1. case_decide as Hi.
  - subst i. unfold slot in *.
    destruct d1, d2, d3; simpl in *; unfold fd_upd; repeat case_decide; try done; lia.
  - rewrite (Hm i). destruct d1, d2, d3; simpl; unfold fd_upd; repeat case_decide; done.
Qed.

Lemma own3_slot1 g0 (d : desc) d2 d3 a b c g :
  own3 g0 (Some d) d2 d3 a b c g -> 0 <= a /\ g a = Some d /\ g0 a = None.
Proof.
  intros [[Ha Hn] _ _ _ _ _ Hm]. split_and!; [done| |done]. rewrite (Hm a). simpl.
  unfold fd_upd. by case_decide.
Qed.

Lemma own3_slot_neg g0 d1 d2 d3 a b c g : own3 g0 d1 d2 d3 a b c g -> a < 0 -> d1 = None.
Proof. intros [H1 _ _ _ _ _ _] Ha. destruct d1; simpl in *; [lia|done]. Qed.

Lemma own3_fresh g0 d1 d2 d3 a b c g k :
  own3 g0 d1 d2 d3 a b c g -> g k = None ->
  (0 <= a -> k <> a) /\ (0 <= b -> k <> b) /\ (0 <= c -> k <> c) /\ g0 k = None.
Proof.
  intros [H1 H2 H3 _ _ _ Hm]. rewrite (Hm k).
  destruct d1, d2, d3; simpl in *; unfold fd_upd; repeat case_decide; try done;
    intros; split_and!; try done; lia.
Qed.

(** Saved descriptors over a base table, and redirections over both. *)
Definition redirecting (base : fdmap) (o1 o2 o3 : option desc) (x y z : Z)
    (d1 d2 d3 : option desc) (a b c : Z) (g : fdmap) : Prop :=
  exists g1, own3 base o1 o2 o3 x y z g1 /\ own3 g1 d1 d2 d3 a b c g.

Lemma redirecting_swap12 base o1 o2 o3 x y z d1 d2 d3 a b c g :
  redirecting base o1 o2 o3 x y z d1 d2 d3 a b c g ->
  redirecting base o2 o1 o3 y x z d2 d1 d3 b a c g.
Proof. intros (g1 & H1 & H2). exists g1. auto using own3_swap12. Qed.

Lemma redirecting_swap23 base o1 o2 o3 x y z d1 d2 d3 a b c g :
  redirecting base o1 o2 o3 x y z d1 d2 d3 a b c g ->
  redirecting base o1 o3 o2 x z y d1 d3 d2 a c b g.
Proof. intros (g1 & H1 & H2). exists g1. auto using own3_swap23. Qed.
End own.

Section redir_laws.
Context {S : Type} `{FdLaws S}.
Implicit Types (s : S) (r : psh_redir).

Definition owns (g0 : fdmap) (t : targets) r s : Prop :=
  save r = [-1; -1; -1] /\
  exists a b c, red r = [a; b; c] /\ own3 g0 (to_in t) (to_out t) (to_err t) a b c (fd_get s).

(** ** When a redirection is refused *)

(** The descriptor tables that the system calls for the requests [rs] lead to. *)
Inductive reached (rs : list request) (f0 : S) : S -> Prop :=
| reached_refl : reached rs f0 f0
| reached_open f m flags path :
    reached rs f0 f -> (m, flags, path) ∈ rs -> reached rs f0 (snd (os_open path flags f))
| reached_dup f fd : reached rs f0 f -> reached rs f0 (snd (os_dup fd f))
| reached_dup2 f a b : reached rs f0 f -> reached rs f0 (snd (os_dup2 a b f))
| reached_close f fd : reached rs f0 f -> reached rs f0 (os_close fd f).

(** [f] differs from [g0] in nine descriptors at most. *)
Definition near (g0 : fdmap) (f : S) : Prop :=
  exists l : list Z, (length l <= 9)%nat /\ forall i, i ∉ l -> fd_get f i = g0 i.

(** The system call refuses a redirection: with no more than a few descriptors
    open besides those of [f0], the file of a request cannot be opened, or an
    open descriptor cannot be duplicated. *)
Definition refused (g0 : fdmap) (rs : list request) (f0 : S) : Prop :=
  rs <> [] /\ exists f, reached rs f0 f /\ near g0 f /\
    ((exists m flags path, (m, flags, path) ∈ rs /\ fst (os_open path flags f) < 0) \/
     (exists fd, is_Some (fd_get f fd) /\ fst (os_dup fd f) < 0)).

Lemma reached_close_if rs f0 fd f : reached rs f0 f -> reached rs f0 (close_if fd f).
Proof. intros Hf. unfold close_if. case_match; [by constructor|done]. Qed.

Lemma own3_near g0 d1 d2 d3 a b c f : own3 g0 d1 d2 d3 a b c (fd_get f) -> near g0 f.
Proof.
  intros [_ _ _ _ _ _ Hm]. exists [a; b; c]. split; [simpl; lia|]. intros i Hi. rewrite (Hm i).
  rewrite !not_elem_of_cons in Hi. destruct d1, d2, d3; simpl; unfold fd_upd; repeat case_decide; tauto.
Qed.

Lemma owns_near g0 t r f : owns g0 t r f -> near g0 f.
Proof. intros (_ & a & b & c & _ & Ho). by eapply own3_near. Qed.

Lemma close_if_get a s :
  same_fds (fd_get (close_if a s)) (if 0 <=? a then fd_upd a None (fd_get s) else fd_get s).
Proof. unfold close_if. destruct (0 <=? a); [apply close_law|done]. Qed.

Lemma close_if_errno a s : 0 < os_errno s -> 0 < os_errno (close_if a s).
Proof. unfold close_if. destruct (0 <=? a); [apply close_errno|done]. Qed.

Lemma cleanup_ok g0 d1 d2 d3 x y z a b c r s :
  save r = [x; y; z] -> x < 0 -> y < 0 -> z < 0 -> red r = [a; b; c] -> own3 g0 d1 d2 d3 a b c (fd_get s) ->
  exists r' s', psh_redirCleanup r s = Some (r', s') /\ same_fds (fd_get s') g0 /\
    (0 < os_errno s -> 0 < os_errno s') /\ Forall (fun x => x < 0) (red r') /\ save r' = save r.
Proof.
  intros Hs Hx Hy Hz Hr Ho. apply Z.leb_gt in Hx, Hy, Hz.
  exists (Redir (save r) ((fun x => if 0 <=? x then -1 else x) <$> red r)),
    (close_if c (close_if b (close_if a s))).
  split_and!.
  - destruct r as [sv rd]. simpl in *. subst. unfold psh_redirCleanup. simpl.
    destruct (0 <=? a) eqn:Ea, (0 <=? b) eqn:Eb, (0 <=? c) eqn:Ec;
      repeat (progress (simpl; rewrite ?Ea, ?Eb, ?Ec, ?Hx, ?Hy, ?Hz));
      unfold close_if; by rewrite ?Ea, ?Eb, ?Ec, ?Hx, ?Hy, ?Hz.
  - pose proof (own3_close _ _ _ _ _ _ _ _ _ (-1) Ho ltac:(lia) (close_if_get a s)) as H1.
    apply own3_swap12 in H1.
    pose proof (own3_close _ _ _ _ _ _ _ _ _ (-1) H1 ltac:(lia) (close_if_get b _)) as H2.
    apply own3_swap23, own3_swap12 in H2.
    pose proof (own3_close _ _ _ _ _ _ _ _ _ (-1) H2 ltac:(lia) (close_if_get c _)) as H3.
    by eapply own3_none.
  - auto using close_if_errno.
  - rewrite Hr. simpl. repeat constructor; case_match; lia.
  - done.
Qed.

(** Attaching a freshly opened file carries out the request. *)
Lemma attach_ok g0 t r s s0 fd m flags path rs f0 :
  owns g0 t r s0 -> 0 <= fd -> fd_get s0 fd = None -> m <> MNone ->
  reached rs f0 s -> (m, flags, path) ∈ rs ->
  same_fds (fd_get s) (fd_upd fd (Some (Desc path flags)) (fd_get s0)) ->
  exists ret r' s', attach m fd r s = Some (ret, r', s') /\
    match ret with
    | None => owns g0 (apply_request t (m, flags, path)) r' s' /\ reached rs f0 s'
    | Some err => err < 0 /\ same_fds (fd_get s') g0 /\ Forall (fun x => x < 0) (red r') /\
        refused g0 rs f0
    end.
Proof.
  intros (Hsv & a & b & c & Hr & Ho) Hfd Hn Hm Hreach Hin Hg. destruct r as [sv rr]. simpl in *. subst.
  set (d := Desc path flags) in *.
  destruct m; simpl; [done| | | |].
  - eexists _, _, _. split; [reflexivity|]. split; [|by apply reached_close_if]. split; [done|].
    exists fd, b, c. split; [done|]. simpl. by eapply own3_replace; eauto using close_if_get.
  - eexists _, _, _. split; [reflexivity|]. split; [|by apply reached_close_if]. split; [done|].
    exists a, fd, c. split; [done|].
    simpl. apply own3_swap12, own3_replace with (1 := own3_swap12 _ _ _ _ _ _ _ _ Ho) (4 := Hg);
      auto using close_if_get.
  - eexists _, _, _. split; [reflexivity|]. split; [|by apply reached_close_if]. split; [done|].
    exists a, b, fd. split; [done|].
    simpl. apply own3_swap23, own3_swap12,
      own3_replace with (1 := own3_swap12 _ _ _ _ _ _ _ _ (own3_swap23 _ _ _ _ _ _ _ _ Ho)) (4 := Hg);
      auto using close_if_get.
  - set (s1 := close_if b s).
    assert (own3 g0 (to_in t) (Some d) (to_err t) a fd c (fd_get s1)) as H1.
    { apply own3_swap12, own3_replace with (1 := own3_swap12 _ _ _ _ _ _ _ _ Ho) (4 := Hg);
        [done|done|apply close_if_get]. }
    set (s2 := close_if c s1).
    assert (own3 g0 (to_in t) (Some d) None a fd (-1) (fd_get s2)) as H2.
    { apply own3_swap23, own3_swap12. apply own3_swap23, own3_swap12 in H1.
      by apply own3_close with (1 := H1); [|apply close_if_get]. }
    assert (fd_get s2 fd = Some d) as Hd.
    { rewrite (own_map _ _ _ _ _ _ _ _ H2 fd). simpl.
      destruct H2 as [H2 _ _ E _ _ _]. destruct (to_in t) eqn:Ht; simpl; unfold fd_upd;
        repeat case_decide; try done; lia. }
    assert (reached rs f0 s2) as Hr2 by (by do 2 apply reached_close_if).
    pose proof (reached_dup rs f0 s2 fd Hr2) as Hr3.
    destruct (os_dup fd s2) as [fd2 s3] eqn:Hdup. simpl.
    destruct (dup_law _ _ _ _ Hdup) as [(Hf2 & He & Hg3)|(Hf2 & Hn2 & _ & Hg3)].
    + destruct (Z.ltb_spec fd2 0); [|lia].
      destruct (cleanup_ok g0 (to_in t) (Some d) None (-1) (-1) (-1) a fd fd2
        (Redir [-1; -1; -1] [a; fd; fd2]) s3)
        as (r' & s' & Hc & Hs' & He' & Hneg & _); [done..| |].
      { destruct H2. constructor; try done; try (intros; lia). by rewrite Hg3. }
      eexists _, _, _. rewrite Hc. split; [reflexivity|]. specialize (He' He).
      split_and!; [lia|done|done|]. split; [intros ->; by apply elem_of_nil in Hin|]. exists s2.
      split_and!; [done|by eapply own3_near|]. right. exists fd. by rewrite Hd, Hdup.
    + destruct (Z.ltb_spec fd2 0); [lia|].
      eexists _, _, _. split; [reflexivity|]. split; [|done]. split; [done|].
      exists a, fd, fd2. split; [done|]. simpl.
      apply own3_swap23, own3_swap12. apply own3_swap23, own3_swap12 in H2.
      apply own3_fill with (1 := H2); [done|done|]. by rewrite Hg3, Hd.
Qed.
Lemma word_at_some w i : 0 <= i <= zlen w -> exists c, word_at w i = Some c.
Proof.
  intros Hi. destruct (proj2 (rd_is_Some (w ++ [0]) i)) as [c Hc]; [zlia|]. by exists c.
Qed.

Lemma word_at_inside w i c : word_at w i = Some c -> c <> 0 -> 0 <= i < zlen w.
Proof.
  intros Hw Hc. assert (is_Some (rd (w ++ [0]) i)) as Hi%rd_is_Some by by exists c.
  autorewrite with zlen in Hi. assert (i <> zlen w); [|change (zlen [0]) with 1 in Hi; lia].
  intros ->. unfold word_at in Hw. by rewrite (rd_app w 0 [] (zlen w) eq_refl) in Hw; simplify_eq.
Qed.

Lemma redir_op_ok w :
  exists op, redir_op w = Some op /\
    match op with Some (m, _, c) => m <> MNone /\ 0 <= c < zlen w | None => True end.
Proof.
  unfold redir_op. destruct (word_at_some w 0) as [c0 E0]; [zlia|]. rewrite E0. simpl.
  destruct (leading c0) as [m c] eqn:El.
  assert (0 <= c <= zlen w) as Hc.
  { revert El. unfold leading. pose proof (word_at_inside w 0 c0 E0). pose proof (zlen_nonneg w).
    destruct (Z.eqb_spec c0 49); [intros [= <- <-]; lia|].
    destruct (Z.eqb_spec c0 50); [intros [= <- <-]; lia|].
    destruct (Z.eqb_spec c0 38); intros [= <- <-]; lia. }
  destruct (word_at_some w c Hc) as [cc Ec]. rewrite Ec. simpl.
  destruct (Z.eqb_spec cc 62) as [->|].
  - pose proof (word_at_inside w c _ Ec ltac:(done)) as Hcw.
    destruct (word_at_some w (c + 1)) as [cn En]; [lia|]. rewrite En. simpl.
    destruct (Z.eqb_spec cn 62) as [->|]; eexists; (split; [reflexivity|]).
    + apply word_at_inside in En; [|done]. split; [by destruct m|lia].
    + split; [by destruct m|lia].
  - case_match eqn:Hlt; eexists; (split; [reflexivity|]); [|done].
    destruct m; simpl in Hlt; try done. apply Z.eqb_eq in Hlt. subst c0.
    split; [done|]. unfold leading in El. simpl in El. injection El as <-.
    apply word_at_inside in E0; [lia|done].
Qed.

(** The word ends after position [c] exactly when nothing follows. *)
Lemma word_at_drop w c x :
  Forall (fun b => b <> 0) w -> 0 <= c < zlen w -> word_at w (c + 1) = Some x ->
  (x =? 0) = bool_decide (drop (Z.to_nat (c + 1)) w = []).
Proof.
  intros Hw Hc Hx.
  destruct (list_split_at w (c + 1)) as (a & b & -> & Ha); [lia|].
  rewrite <-Ha, drop_zlen_app. rewrite <-Ha in Hx. unfold word_at in Hx.
  destruct b as [|y b].
  - rewrite app_nil_r, (rd_app a 0 []) in Hx by done. injection Hx as <-. done.
  - rewrite <-(assoc_L (++)) in Hx. simpl in Hx. rewrite rd_app in Hx by done. injection Hx as <-.
    apply Forall_app in Hw as [_ [Hy _]%Forall_cons]. by apply Z.eqb_neq.
Qed.

(** The loop carries out the requests of the words still to be read. *)
Lemma redir_loop_ok g0 rs0 f0 todo fuel dn t r s :
  (length todo <= fuel)%nat -> Forall (Forall (fun b => b <> 0)) todo -> owns g0 t r s ->
  reached rs0 f0 s ->
  let '(ws, rs, ok) := redir_spec todo in
  rs ⊆ rs0 ->
  exists err argv' r' s', redir_loop fuel (zlen dn) (dn ++ todo) r s = Some (err, argv', r', s') /\
    ((err = 0 /\ ok = true /\ argv' = dn ++ ws /\ owns g0 (foldl apply_request t rs) r' s' /\
        reached rs0 f0 s') \/
     (err < 0 /\ same_fds (fd_get s') g0 /\ (ok = true -> refused g0 rs0 f0))).
Proof.
  revert fuel dn t r s.
  induction todo as [todo IH] using (induction_ltof1 _ length). unfold ltof in IH.
  intros fuel dn t r s Hf Hnn Ho Hre.
  assert (exists r' s', psh_redirCleanup r s = Some (r', s') /\ same_fds (fd_get s') g0)
    as (rc & sc & Hclean & Hcs).
  { destruct Ho as (Hsv & a & b & c & Hr & Ho).
    destruct (cleanup_ok _ _ _ _ _ _ _ _ _ _ _ _ Hsv eq_refl eq_refl eq_refl Hr Ho) as (r' & s' & ? & ? & _). by exists r', s'. }
  destruct todo as [|w todo].
  { simpl. intros _. rewrite app_nil_r. exists 0, dn, r, s. split; [|left; done].
    destruct fuel; simpl; by rewrite (proj2 (Z.ltb_ge _ _)) by lia. }
  destruct fuel as [|fuel]; [simpl in Hf; lia|].
  apply Forall_cons in Hnn as [Hw Hnn].
  cbn [redir_spec redir_loop]. rewrite (proj2 (Z.ltb_lt _ _)) by zlia. cbn [negb].
  rewrite (rd_app dn w todo (zlen dn) eq_refl). cbn [mbind option_bind].
  destruct (redir_op_ok w) as (op & -> & Hop). cbn [mbind option_bind].
  destruct op as [[[m flags] c]|].
  2:{ destruct (redir_spec todo) as [[ws rs] ok] eqn:Es.
      pose proof (IH todo ltac:(simpl; lia) fuel (dn ++ [w]) t r s ltac:(simpl in Hf; lia) Hnn Ho Hre) as Hrec.
      rewrite Es in Hrec. replace (zlen (dn ++ [w])) with (zlen dn + 1) in Hrec by zlia.
      rewrite <-!(assoc_L (++)) in Hrec. simpl in Hrec. exact Hrec. }
  destruct Hop as [Hm Hc]. destruct (word_at_some w (c + 1)) as [x Hx]; [lia|].
  rewrite Hx. cbn [mbind option_bind]. rewrite (word_at_drop w c x Hw Hc Hx).
  set (eat := if _ : bool then 2 else 1). 
  (* one request: file [path], continuing after [eat] words *)
  assert (forall path todo', drop (Z.to_nat (zlen dn + eat)) (dn ++ w :: todo) = todo' ->
    (length todo' <= length todo)%nat -> Forall (Forall (fun b => b <> 0)) todo' ->
    let '(ws, rs, ok) := redir_spec todo' in
    (m, flags, path) :: rs ⊆ rs0 ->
    exists err argv' r' s',
      (let '(fd, s) := os_open path flags s in
       if fd <? 0 then '(r, s) ← psh_redirCleanup r s; Some (- ENOENT, dn ++ w :: todo, r, s)
       else
         let argv := take (Z.to_nat (zlen dn)) (dn ++ w :: todo) ++
                     drop (Z.to_nat (zlen dn + eat)) (dn ++ w :: todo) in
         '(ret, r, s) ← attach m fd r s;
         match ret with
         | Some err => Some (err, argv, r, s)
         | None => redir_loop fuel (zlen dn) argv r s
         end) = Some (err, argv', r', s') /\
      ((err = 0 /\ ok = true /\ argv' = dn ++ ws /\
        owns g0 (foldl apply_request t ((m, flags, path) :: rs)) r' s' /\ reached rs0 f0 s') \/
       (err < 0 /\ same_fds (fd_get s') g0 /\ (ok = true -> refused g0 rs0 f0)))) as Hreq.
  { intros path todo' -> Hle Hnn'. destruct (redir_spec todo') as [[ws rs] ok] eqn:Es.
    intros [Hin Hsub]%list_subseteq_cons_iff.
    pose proof (reached_open rs0 f0 s m flags path Hre Hin) as Hre1.
    destruct (os_open path flags s) as [fd s1] eqn:Hopen.
    destruct (open_law _ _ _ _ _ Hopen) as [(Hfd & _ & Hg)|(Hfd & Hn & Hg)].
    - destruct (Z.ltb_spec fd 0); [|lia].
      pose proof (owns_near _ _ _ _ Ho) as Hnear.
      destruct Ho as (Hsv & a & b & cc & Hr & Ho).
      destruct (cleanup_ok _ _ _ _ _ _ _ _ _ _ _ _ Hsv eq_refl eq_refl eq_refl Hr (own3_map _ _ _ _ _ _ _ _ _ Ho Hg))
        as (r' & s' & -> & ? & _).
      eexists _, _, _, _. split; [reflexivity|]. right. split_and!; [done|done|intros _].
      split; [intros ->; by apply elem_of_nil in Hin|]. exists s. split_and!; [done|done|].
      left. exists m, flags, path. by rewrite Hopen.
    - destruct (Z.ltb_spec fd 0); [lia|]. rewrite take_zlen_app.
      destruct (attach_ok g0 t r s1 s fd m flags path rs0 f0 Ho Hfd Hn Hm Hre1 Hin Hg)
        as (ret & r' & s' & -> & Hret).
      cbn [mbind option_bind]. destruct ret as [err|].
      + eexists _, _, _, _. split; [reflexivity|]. right. by destruct Hret as (? & ? & _ & ?).
      + destruct Hret as [Hret Hre'].
        pose proof (IH todo' ltac:(simpl; lia) fuel dn _ r' s' ltac:(simpl in Hf; lia) Hnn' Hret Hre') as Hrec.
        rewrite Es in Hrec. by apply Hrec. }
  destruct (decide (drop (Z.to_nat (c + 1)) w = [])) as [Hd|Hd].
  - subst eat. rewrite bool_decide_eq_true_2 in Hreq |- * by done. cbn [andb].
    destruct todo as [|p todo].
    + intros _. rewrite (proj2 (Z.leb_le _ _)) by zlia. rewrite Hclean.
      eexists _, _, _, _. split; [reflexivity|]. right. done.
    + destruct (Z.leb_spec (zlen (dn ++ w :: p :: todo)) (zlen dn + 1)); [zlia|].
      replace (rd (dn ++ w :: p :: todo) (zlen dn + 1)) with (Some p)
        by (symmetry; change (w :: p :: todo) with ([w] ++ p :: todo); rewrite (assoc_L (++));
            apply rd_app; zlia).
      cbn [mbind option_bind]. apply Forall_cons in Hnn as [_ Hnn].
      specialize (Hreq p todo). destruct (redir_spec todo) as [[ws rs] ok].
      apply Hreq; [|simpl; lia|done].
      change (w :: p :: todo) with ([w; p] ++ todo). rewrite (assoc_L (++)).
      apply drop_app_length'. rewrite length_app. unfold zlen. simpl. lia.
  - subst eat. rewrite bool_decide_eq_false_2 in Hreq |- * by done. cbn [andb mbind option_bind].
    specialize (Hreq (drop (Z.to_nat (c + 1)) w) todo). destruct (redir_spec todo) as [[ws rs] ok].
    apply Hreq; [|lia|done].
    change (w :: todo) with ([w] ++ todo). rewrite (assoc_L (++)).
    apply drop_app_length'. rewrite length_app. unfold zlen. simpl. lia.
Qed.

Lemma parseRedirections_ok argv s :
  Forall (Forall (fun b => b <> 0)) argv ->
  let '(ws, rs, ok) := redir_spec argv in
  exists err argv' r s', psh_parseRedirections argv s = Some (err, argv', r, s') /\
    ((err = 0 /\ ok = true /\ argv' = ws /\
      owns (fd_get s) (foldl apply_request no_targets rs) r s' /\ reached rs s s') \/
     (err < 0 /\ same_fds (fd_get s') (fd_get s) /\ (ok = true -> refused (fd_get s) rs s))).
Proof.
  intros Hnn. unfold psh_parseRedirections.
  assert (owns (fd_get s) no_targets redir_none s) as Ho.
  { split; [done|]. exists (-1), (-1), (-1). split; [done|]. by constructor. }
  pose proof (redir_loop_ok (fd_get s) (redir_spec argv).1.2 s argv (length argv) [] no_targets redir_none s
    ltac:(lia) Hnn Ho (reached_refl _ _)) as Hl.
  destruct (redir_spec argv) as [[ws rs] ok]. by apply Hl.
Qed.
Lemma redirect_one_ok base o2 o3 x y z d d2 d3 a b c s i o res sv s' :
  redirecting base None o2 o3 x y z (Some d) d2 d3 a b c (fd_get s) ->
  base i = Some o -> 0 <= i -> redirect_one i a s = (res, sv, s') ->
  match res with
  | RedOk => redirecting (fd_upd i (Some d) base) (Some o) o2 o3 sv y z None d2 d3 (-1) b c (fd_get s')
  | _ => redirecting base None o2 o3 sv y z None d2 d3 (-1) b c (fd_get s') /\ sv < 0
  end.
Proof.
  intros (g1 & HI & HO) Hbi Hi. unfold redirect_one.
  destruct (own3_open _ _ _ _ _ _ _ _ _ _ HI Hbi Hi) as (Hgi & Hix & Hiy & Hiz).
  destruct (own3_open _ _ _ _ _ _ _ _ _ _ HO Hgi Hi) as (Hsi & Hia & Hib & Hic).
  destruct (own3_slot1 _ _ _ _ _ _ _ _ HO) as (Ha & _ & _).
  assert (forall x', x' < 0 -> own3 base None o2 o3 x' y z g1) as HI'.
  { intros x' Hx'. apply own3_close with (1 := HI); [done|].
    destruct HI as [Hx _ _ _ _ _ _]. simpl in Hx. by rewrite (proj2 (Z.leb_gt _ _)). }
  destruct (os_dup i s) as [sv1 s1] eqn:E1.
  destruct (dup_law _ _ _ _ E1) as [(Hsv & _ & Hg)|(Hsv & Hn & _ & Hg)].
  { rewrite (proj2 (Z.ltb_lt _ _)) by done. intros [= <- <- <-]. split; [|done].
    exists g1. split; [by apply HI'|]. apply own3_close with (1 := HO); [done|].
    rewrite (proj2 (Z.leb_le _ _)) by done. by rewrite (close_law a s1), Hg. }
  rewrite (proj2 (Z.ltb_ge _ _)) by done. rewrite Hsi in Hg.
  destruct (own3_fresh _ _ _ _ _ _ _ _ _ HO Hn) as (Hna & Hnb & Hnc & Hng).
  destruct (own3_fresh _ _ _ _ _ _ _ _ _ HI Hng) as (_ & Hny & Hnz & _).
  pose proof (own3_base _ _ _ _ _ _ _ _ _ _ _ HO Hna Hnb Hnc Hg) as HO1.
  assert (own3 base (Some o) o2 o3 sv1 y z (fd_upd sv1 (Some o) g1)) as HI1
    by by apply own3_fill with (1 := HI).
  destruct (own3_slot1 _ _ _ _ _ _ _ _ HO1) as (_ & Hda & _).
  destruct (os_dup2 a i s1) as [res2 s2] eqn:E2.
  destruct (dup2_law _ _ _ _ _ E2) as [(Hr & Hg2)|(-> & _ & Hg2)].
  - rewrite (proj2 (Z.ltb_lt _ _)) by done. intros [= <- <- <-]. split; [|done].
    exists g1. split; [by apply HI'|]. apply own3_close with (1 := HO); [done|].
    rewrite (proj2 (Z.leb_le _ _)) by done. rewrite (close_law a _), (close_law sv1 _), Hg2, Hg.
    intros j. unfold fd_upd. repeat case_decide; try done. by subst.
  - rewrite (proj2 (Z.ltb_ge _ _)) by done. intros [= <- <- <-]. rewrite Hda in Hg2.
    exists (fd_upd i (Some d) (fd_upd sv1 (Some o) g1)). split.
    + apply own3_base with (1 := HI1); [|auto..|done]. intros _ ->. congruence.
    + eapply own3_close; [eapply own3_base with (1 := HO1) (5 := Hg2); auto|done|].
      rewrite (proj2 (Z.leb_le _ _)) by done. apply close_law.
Qed.

Lemma restore_one_ok base o o2 o3 x y z d1 d2 d3 a b c s i failed s' :
  dup2_works (S := S) -> redirecting base (Some o) o2 o3 x y z d1 d2 d3 a b c (fd_get s) ->
  is_Some (base i) -> 0 <= i -> restore_one i x s = (failed, s') ->
  failed = false /\
  redirecting (fd_upd i (Some o) base) None o2 o3 (-1) y z d1 d2 d3 a b c (fd_get s').
Proof.
  intros Hok (g1 & HI & HO) [v Hbi] Hi. unfold restore_one.
  destruct (own3_open _ _ _ _ _ _ _ _ _ _ HI Hbi Hi) as (Hgi & Hix & Hiy & Hiz).
  destruct (own3_open _ _ _ _ _ _ _ _ _ _ HO Hgi Hi) as (Hsi & Hia & Hib & Hic).
  destruct (own3_slot1 _ _ _ _ _ _ _ _ HI) as (Hx & Hgx & _).
  destruct (own3_open _ _ _ _ _ _ _ _ _ _ HO Hgx Hx) as (Hsx & Hxa & Hxb & Hxc).
  destruct (os_dup2 x i s) as [res s1] eqn:E. pose proof (Hok x i s Hi (mk_is_Some _ _ Hsx)) as Hr.
  rewrite E in Hr. simpl in Hr.
  destruct (dup2_law _ _ _ _ _ E) as [(?&_)|(-> & _ & Hg)]; [lia|]. rewrite Hsx in Hg.
  intros [= <- <-]. split; [by apply Z.ltb_ge|].
  exists (fd_upd x None (fd_upd i (Some o) g1)). split.
  - eapply own3_close; [eapply own3_base with (1 := HI); auto; done|done|].
    by rewrite (proj2 (Z.leb_le _ _)).
  - eapply own3_base; [eapply own3_base with (1 := HO) (5 := Hg); auto|auto..|]. apply close_law.
Qed.
(** Parsing redirections.  On every [argv], [psh_parseRedirections] ends
    within one iteration per word and either succeeds - then the words left are
    exactly those that are not redirections, in order, and stdin, stdout and
    stderr are each redirected to the last file asked for, by a fresh
    descriptor, no other descriptor having changed - or returns a negative
    error with every descriptor it opened closed again. *)
Theorem parseRedirections_outcome argv s :
  Forall (Forall (fun b => b <> 0)) argv ->
  let '(ws, rs, ok) := redir_spec argv in
  exists err argv' r s', psh_parseRedirections argv s = Some (err, argv', r, s') /\
    ((err = 0 /\ ok = true /\ argv' = ws /\
      owns (fd_get s) (foldl apply_request no_targets rs) r s') \/
     (err < 0 /\ same_fds (fd_get s') (fd_get s))).
Proof.
  intros Hw. pose proof (parseRedirections_ok argv s Hw) as Hp.
  destruct (redir_spec argv) as [[ws rs] ok].
  destruct Hp as (err & argv' & r & s' & E & Hor). exists err, argv', r, s'. split; [done|]. tauto.
Qed.

(** One stream of a partly redirected shell: its target, the saved description
    and its descriptor, the redirection still held and its descriptor. *)
Record stream := Stream {
  st_i : Z; st_to : option desc; st_o : option desc; st_x : Z; st_d : option desc; st_a : Z }.

Definition tab (base : fdmap) (p q w : stream) (g : fdmap) : Prop :=
  redirecting base (st_o p) (st_o q) (st_o w) (st_x p) (st_x q) (st_x w)
    (st_d p) (st_d q) (st_d w) (st_a p) (st_a q) (st_a w) g.

Definition stream_ok (g0 base : fdmap) (p : stream) : Prop :=
  (st_d p = None \/ st_d p = st_to p) /\
  match st_o p with
  | Some v => g0 (st_i p) = Some v /\ st_to p <> None /\ base (st_i p) = st_to p
  | None => base (st_i p) = g0 (st_i p)
  end.

Definition waiting (p : stream) : Prop := st_o p = None /\ st_d p = st_to p.
Definition settled (p : stream) : Prop := st_d p = None /\ (st_to p <> None -> st_o p <> None).
Definition done_if (err : Z) (p : stream) : Prop := err = 0 -> settled p.

(** The three streams, with the status of each. *)
Definition redirected (g0 : fdmap) (t : targets) (P Q W : stream -> Prop) r s : Prop :=
  exists base p q w,
    save r = [st_x p; st_x q; st_x w] /\ red r = [st_a p; st_a q; st_a w] /\
    tab base p q w (fd_get s) /\
    (stream_ok g0 base p /\ stream_ok g0 base q /\ stream_ok g0 base w) /\
    (forall i, ~ 0 <= i <= 2 -> base i = g0 i) /\
    (st_i p = 0 /\ st_i q = 1 /\ st_i w = 2) /\
    (st_to p = to_in t /\ st_to q = to_out t /\ st_to w = to_err t) /\ P p /\ Q q /\ W w.

Lemma stream_ok_upd g0 base j v p :
  st_i p <> j -> stream_ok g0 base p -> stream_ok g0 (fd_upd j v base) p.
Proof. intros Hij. unfold stream_ok, fd_upd. by rewrite decide_False. Qed.

Lemma tab_swap12 base p q w g : tab base p q w g -> tab base q p w g.
Proof. apply redirecting_swap12. Qed.
Lemma tab_swap23 base p q w g : tab base p q w g -> tab base p w q g.
Proof. apply redirecting_swap23. Qed.

Lemma tab_neg base p q w g :
  tab base p q w g ->
  match st_d p with Some _ => 0 <= st_a p | None => st_a p < 0 end /\
  match st_o p with Some _ => 0 <= st_x p | None => st_x p < 0 end.
Proof.
  intros (g1 & [H1 _ _ _ _ _ _] & [H2 _ _ _ _ _ _]).
  split; [destruct (st_d p); simpl in H2; [by destruct H2|done]|].
  destruct (st_o p); simpl in H1; [by destruct H1|done].
Qed.

(** The first stream of [tab] is redirected. *)
Lemma stream_redirect g0 base p q w s v :
  tab base p q w (fd_get s) -> stream_ok g0 base p -> waiting p ->
  stream_ok g0 base q -> stream_ok g0 base w ->
  g0 (st_i p) = Some v -> 0 <= st_i p <= 2 -> st_i q <> st_i p -> st_i w <> st_i p ->
  (forall i, ~ 0 <= i <= 2 -> base i = g0 i) ->
  if 0 <=? st_a p then
    exists res sv s1 base' p', redirect_one (st_i p) (st_a p) s = (res, sv, s1) /\
      tab base' p' q w (fd_get s1) /\ st_i p' = st_i p /\ st_to p' = st_to p /\
      st_x p' = sv /\ st_a p' = -1 /\
      (stream_ok g0 base' p' /\ stream_ok g0 base' q /\ stream_ok g0 base' w) /\
      (forall i, ~ 0 <= i <= 2 -> base' i = g0 i) /\
      (res = RedOk -> settled p')
  else settled p.
Proof.
  intros Ht Hp [Ho Hd] Hq Hw Hv Hi Hiq Hiw Hout. destruct (tab_neg _ _ _ _ _ Ht) as [Ha _].
  destruct p as [i to o x d a]. simpl in *. subst o d.
  pose proof Hp as [_ Hb]. simpl in Hb. rewrite Hv in Hb. destruct to as [to|].
  - rewrite (proj2 (Z.leb_le _ _)) by done.
    destruct (redirect_one i a s) as [[res sv] s1] eqn:E.
    pose proof (redirect_one_ok _ _ _ _ _ _ _ _ _ _ _ _ _ _ _ _ _ _ Ht Hb ltac:(lia) E) as Hone.
    exists res, sv, s1. destruct res.
    + exists (fd_upd i (Some to) base), (Stream i (Some to) (Some v) sv None (-1)).
      split_and!; try done; auto using stream_ok_upd.
      * split; [by left|]. simpl. unfold fd_upd. by rewrite decide_True.
      * intros j Hj. unfold fd_upd. rewrite decide_False by lia. by apply Hout.
    + exists base, (Stream i (Some to) None sv None (-1)). destruct Hone as [Hone _].
      split_and!; try done. split; [by left|simpl; congruence].
    + exists base, (Stream i (Some to) None sv None (-1)). destruct Hone as [Hone _].
      split_and!; try done. split; [by left|simpl; congruence].
  - rewrite (proj2 (Z.leb_gt _ _)) by done. split; [done|]. simpl. congruence.
Qed.

(** What handling stream [n] leads to; [R] is the status left. *)
Definition step_outcome (R : (stream -> Prop) -> psh_redir -> S -> Prop) (n fd err : Z) r s : Prop :=
  if 0 <=? fd then
    exists res sv s1 r1 r2, redirect_one n fd s = (res, sv, s1) /\
      set_save n sv r = Some r1 /\ set_red n (-1) r1 = Some r2 /\
      R (done_if (match res with RedOk => err | _ => -1 end)) r2 s1
  else R (done_if err) r s.

Lemma redirect_step0 g0 t Q W r s v err :
  redirected g0 t waiting Q W r s -> g0 0 = Some v ->
  exists fd, rd (red r) 0 = Some fd /\
    step_outcome (fun P => redirected g0 t P Q W) 0 fd err r s.
Proof.
  intros (base & p & q & w & Hsv & Hrd & Ht & (Sp & Sq & Sw) & Hout & (Ip & Iq & Iw) & Hto & Hp & Hq & Hw) Hv.
  destruct r as [sv0 rd0]. simpl in Hsv, Hrd. subst. exists (st_a p). split; [done|].
  pose proof (stream_redirect g0 base p q w s v Ht Sp Hp Sq Sw) as Hst.
  rewrite Ip, Iq, Iw in Hst. specialize (Hst Hv ltac:(lia) ltac:(done) ltac:(done) Hout).
  unfold step_outcome. destruct (0 <=? st_a p).
  - destruct Hst as (res & sv & s1 & base' & p' & -> & Ht' & Ip' & Tp' & Hx & Ha & Sok & Hout' & Hset).
    eexists res, sv, s1, _, _. split_and!; [done..|].
    exists base', p', q, w. rewrite Ip', Tp', Ha, Hx. split_and!; try done; try apply Hto; try apply Sok.
    destruct res; intros ?; [by apply Hset|done..].
  - exists base, p, q, w. split_and!; try done; first [apply Hto|by intros _].
Qed.

Lemma redirect_step1 g0 t P W r s v err :
  redirected g0 t P waiting W r s -> g0 1 = Some v ->
  exists fd, rd (red r) 1 = Some fd /\
    step_outcome (fun Q => redirected g0 t P Q W) 1 fd err r s.
Proof.
  intros (base & p & q & w & Hsv & Hrd & Ht & (Sp & Sq & Sw) & Hout & (Ip & Iq & Iw) & Hto & Hp & Hq & Hw) Hv.
  destruct r as [sv0 rd0]. simpl in Hsv, Hrd. subst. exists (st_a q). split; [done|].
  pose proof (stream_redirect g0 base q p w s v (tab_swap12 _ _ _ _ _ Ht) Sq Hq Sp Sw) as Hst.
  rewrite Ip, Iq, Iw in Hst. specialize (Hst Hv ltac:(lia) ltac:(done) ltac:(done) Hout).
  unfold step_outcome. destruct (0 <=? st_a q).
  - destruct Hst as (res & sv & s1 & base' & q' & -> & Ht' & Iq' & Tq' & Hx & Ha & Sok & Hout' & Hset).
    eexists res, sv, s1, _, _. split_and!; [done..|].
    exists base', p, q', w. apply tab_swap12 in Ht'.
    rewrite Iq', Tq', Ha, Hx. split_and!; try done; try apply Hto; try apply Sok.
    destruct res; intros ?; [by apply Hset|done..].
  - exists base, p, q, w. split_and!; try done; first [apply Hto|by intros _].
Qed.

Lemma redirect_step2 g0 t P Q r s v err :
  redirected g0 t P Q waiting r s -> g0 2 = Some v ->
  exists fd, rd (red r) 2 = Some fd /\
    step_outcome (fun W => redirected g0 t P Q W) 2 fd err r s.
Proof.
  intros (base & p & q & w & Hsv & Hrd & Ht & (Sp & Sq & Sw) & Hout & (Ip & Iq & Iw) & Hto & Hp & Hq & Hw) Hv.
  destruct r as [sv0 rd0]. simpl in Hsv, Hrd. subst. exists (st_a w). split; [done|].
  pose proof (stream_redirect g0 base w p q s v (tab_swap12 _ _ _ _ _ (tab_swap23 _ _ _ _ _ Ht))
    Sw Hw Sp Sq) as Hst.
  rewrite Ip, Iq, Iw in Hst. specialize (Hst Hv ltac:(lia) ltac:(done) ltac:(done) Hout).
  unfold step_outcome. destruct (0 <=? st_a w).
  - destruct Hst as (res & sv & s1 & base' & w' & -> & Ht' & Iw' & Tw' & Hx & Ha & Sok & Hout' & Hset).
    eexists res, sv, s1, _, _. split_and!; [done..|].
    exists base', p, q, w'. apply tab_swap12, tab_swap23 in Ht'.
    rewrite Iw', Tw', Ha, Hx. split_and!; try done; try apply Hto; try apply Sok.
    destruct res; intros ?; [by apply Hset|done..].
  - exists base, p, q, w. split_and!; try done; first [apply Hto|by intros _].
Qed.

Lemma redirected_mono g0 t (P Q W P' Q' W' : stream -> Prop) r s :
  redirected g0 t P Q W r s -> (forall p, P p -> P' p) -> (forall p, Q p -> Q' p) ->
  (forall p, W p -> W' p) -> redirected g0 t P' Q' W' r s.
Proof.
  intros (base & p & q & w & ? & ? & ? & ? & ? & ? & ? & Hp & Hq & Hw) HP HQ HW.
  exists base, p, q, w. auto 15.
Qed.

Lemma done_if_fail P p : P p -> done_if (-1) p.
Proof. by intros _ ?. Qed.

Lemma done_if_weaken e e' p : (e' = 0 -> e = 0) -> done_if e p -> done_if e' p.
Proof. unfold done_if. auto. Qed.

Lemma tab_near base p q w g0 f :
  tab base p q w (fd_get f) -> (forall i, ~ 0 <= i <= 2 -> base i = g0 i) -> near g0 f.
Proof.
  intros (g1 & [_ _ _ _ _ _ HI] & [_ _ _ _ _ _ HO]) Hout.
  exists [0; 1; 2; st_x p; st_x q; st_x w; st_a p; st_a q; st_a w]. split; [simpl; lia|].
  intros i Hi. rewrite !not_elem_of_cons in Hi. rewrite (HO i).
  assert (g1 i = g0 i) as E.
  { rewrite (HI i). rewrite <-(Hout i) by lia.
    destruct (st_o p), (st_o q), (st_o w); simpl; unfold fd_upd; repeat case_decide; tauto. }
  destruct (st_d p), (st_d q), (st_d w); simpl; unfold fd_upd; repeat case_decide; tauto.
Qed.

(** What a partly redirected shell has open. *)
Lemma redirected_open g0 t P Q W r s :
  redirected g0 t P Q W r s -> (forall i, 0 <= i <= 2 -> is_Some (g0 i)) ->
  near g0 s /\ (forall i, 0 <= i <= 2 -> is_Some (fd_get s i)) /\
  (forall i fd, rd (red r) i = Some fd -> 0 <= fd -> is_Some (fd_get s fd) /\ t <> no_targets).
Proof.
  intros (base & p & q & w & _ & Hr & Ht & (Sp & Sq & Sw) & Hout & (Ip & Iq & Iw) & (Tp & Tq & Tw) & _) Hopen.
  split; [by eapply tab_near|]. split.
  - destruct Ht as (g1 & HI & HO).
    assert (forall k st, stream_ok g0 base st -> st_i st = k -> 0 <= k <= 2 -> is_Some (fd_get s k)) as Hk.
    { intros k st [_ Hst] <- Hrange. destruct (Hopen (st_i st) Hrange) as [v Hv].
      assert (exists u, base (st_i st) = Some u) as [u Hu].
      { destruct (st_o st) as [o|]; [destruct Hst as (_ & Hto & ->)|rewrite Hst, Hv; eauto].
        destruct (st_to st); [eauto|done]. }
      destruct (own3_open _ _ _ _ _ _ _ _ _ _ HI Hu) as (Hg1 & _); [lia|].
      destruct (own3_open _ _ _ _ _ _ _ _ _ _ HO Hg1) as (Hg & _); [lia|]. by exists u. }
    intros i Hi. assert (i = 0 \/ i = 1 \/ i = 2) as [->|[->| ->]] by lia;
      [by apply (Hk 0 p)|by apply (Hk 1 q)|by apply (Hk 2 w)].
  - assert (forall st q' w' fd, tab base st q' w' (fd_get s) -> stream_ok g0 base st -> st_a st = fd ->
      0 <= fd -> is_Some (fd_get s fd) /\ st_to st <> None) as Hk.
    { intros st q' w' fd (g1 & _ & HO) [Hd _] <- Hfd. destruct (st_d st) as [d|] eqn:Ed.
      - destruct (own3_slot1 _ _ _ _ _ _ _ _ HO) as (_ & Hg & _). split; [by exists d|].
        destruct Hd as [|Hd]; [done|]. congruence.
      - destruct HO as [Hneg _ _ _ _ _ _]. simpl in Hneg. lia. }
    rewrite Hr. intros i fd Hi Hfd.
    assert (i = 0 \/ i = 1 \/ i = 2) as Hi3.
    { assert (is_Some (rd [st_a p; st_a q; st_a w] i)) as Hs by by exists fd.
      apply rd_is_Some in Hs. change (zlen _) with 3 in Hs. lia. }
    destruct Hi3 as [->|[->| ->]]; injection Hi as Hi.
    + destruct (Hk p q w fd Ht Sp Hi Hfd) as [? Hto]. split; [done|]. intros ->. by rewrite Tp in Hto.
    + destruct (Hk q p w fd (tab_swap12 _ _ _ _ _ Ht) Sq Hi Hfd) as [? Hto].
      split; [done|]. intros ->. by rewrite Tq in Hto.
    + destruct (Hk w p q fd (tab_swap12 _ _ _ _ _ (tab_swap23 _ _ _ _ _ Ht)) Sw Hi Hfd) as [? Hto].
      split; [done|]. intros ->. by rewrite Tw in Hto.
Qed.

(** The requests behind the targets, and how far the calls have come. *)
Definition under_way (g0 : fdmap) (rs : list request) (f0 : S) (err : Z) s : Prop :=
  reached rs f0 s /\ (err = 0 \/ refused g0 rs f0).

(** Redirecting one stream succeeds unless a [dup] is refused. *)
Lemma redirect_one_under_way g0 t P Q W r s n fd res sv s' rs f0 err :
  dup2_works (S := S) -> redirected g0 t P Q W r s -> (forall i, 0 <= i <= 2 -> is_Some (g0 i)) ->
  0 <= n <= 2 -> rd (red r) n = Some fd -> 0 <= fd -> (rs = [] -> t = no_targets) ->
  under_way g0 rs f0 err s -> redirect_one n fd s = (res, sv, s') ->
  under_way g0 rs f0 (match res with RedOk => err | _ => -1 end) s'.
Proof.
  intros Hok Hr Hopen Hn Hfd Hpos Ht [Hre Herr].
  destruct (redirected_open _ _ _ _ _ _ _ Hr Hopen) as (Hnear & Hstd & Hred).
  destruct (Hred n fd Hfd Hpos) as [Hisfd Htn].
  pose proof (reached_dup rs f0 s n Hre) as Hre1. unfold redirect_one.
  destruct (os_dup n s) as [sv1 s1] eqn:E1. simpl in Hre1.
  destruct (dup_law _ _ _ _ E1) as [(Hsv & _ & _)|(Hsv & Hnone & _ & Hg)].
  - rewrite (proj2 (Z.ltb_lt _ _)) by done. intros [= <- <- <-]. split; [by constructor|]. right.
    split; [tauto|]. exists s. split_and!; [done|done|]. right. exists n. rewrite E1. auto.
  - rewrite (proj2 (Z.ltb_ge _ _)) by done.
    assert (is_Some (fd_get s1 fd)) as Hs1.
    { rewrite (Hg fd). unfold fd_upd. case_decide; [by apply Hstd|done]. }
    pose proof (Hok fd n s1 ltac:(lia) Hs1) as Hd. pose proof (reached_dup2 rs f0 s1 fd n Hre1) as Hre2.
    destruct (os_dup2 fd n s1) as [r2 s2]. simpl in Hd, Hre2.
    rewrite (proj2 (Z.ltb_ge _ _)) by lia. intros [= <- <- <-]. split; [by constructor|done].
Qed.

(** One iteration of the loop. *)
Lemma redirect_loop_step R k i fd err r s :
  rd (red r) i = Some fd -> step_outcome R i fd err r s ->
  exists err' r' s', R (done_if err') r' s' /\ (err' = 0 -> err = 0) /\
    (s' = s /\ err' = err \/ 0 <= fd /\ exists res sv, redirect_one i fd s = (res, sv, s') /\
       err' = match res with RedOk => err | _ => -1 end) /\
    (redirect_loop (Datatypes.S k) i err r s = redirect_loop k (i + 1) err' r' s' \/
     err' = -1 /\ redirect_loop (Datatypes.S k) i err r s = Some (-1, r', s')).
Proof.
  intros Hfd Hst. cbn [redirect_loop]. rewrite Hfd. cbn [mbind option_bind].
  unfold step_outcome in Hst. destruct (Z.leb_spec 0 fd) as [Hpos|].
  - destruct Hst as (res & sv & s1 & r1 & r2 & -> & -> & Hset & HR). cbn [mbind option_bind].
    rewrite Hset. cbn [mbind option_bind]. destruct res.
    + exists err, r2, s1. split_and!; auto. right. split; [done|]. by eexists _, _.
    + exists (-1), r2, s1. split_and!; auto; [lia|]. right. split; [done|]. by eexists _, _.
    + exists (-1), r2, s1. split_and!; auto; [lia|]. right. split; [done|]. by eexists _, _.
  - exists err, r, s. split_and!; auto.
Qed.

Lemma step_under_way g0 t P Q W r s n fd s' err err' :
  redirected g0 t P Q W r s -> (forall i, 0 <= i <= 2 -> is_Some (g0 i)) -> 0 <= n <= 2 ->
  rd (red r) n = Some fd ->
  (s' = s /\ err' = err \/ 0 <= fd /\ exists res sv, redirect_one n fd s = (res, sv, s') /\
     err' = match res with RedOk => err | _ => -1 end) ->
  forall rs f0, dup2_works (S := S) -> (rs = [] -> t = no_targets) ->
    under_way g0 rs f0 err s -> under_way g0 rs f0 err' s'.
Proof.
  intros Hr Hopen Hn Hfd [[-> ->]|(Hpos & res & sv & E & ->)] rs f0 Hok Ht Hu; [done|].
  by eapply redirect_one_under_way.
Qed.

Lemma streamRedirect_ok g0 t r s :
  owns g0 t r s -> (forall i, 0 <= i <= 2 -> is_Some (g0 i)) ->
  exists err r' s', psh_streamRedirect r s = Some (if err =? 0 then 0 else PSH_UNKNOWN_CMD, r', s') /\
    redirected g0 t (done_if err) (done_if err) (done_if err) r' s' /\
    (forall rs f0, dup2_works (S := S) -> (rs = [] -> t = no_targets) -> reached rs f0 s ->
       err = 0 \/ refused g0 rs f0).
Proof.
  intros (Hsv & a & b & c & Hr & Ho) Hopen.
  destruct (Hopen 0) as [v0 V0]; [lia|]. destruct (Hopen 1) as [v1 V1]; [lia|].
  destruct (Hopen 2) as [v2 V2]; [lia|].
  assert (redirected g0 t waiting waiting waiting (Redir [-1; -1; -1] (red r)) s) as Hs.
  { exists g0, (Stream 0 (to_in t) None (-1) (to_in t) a),
      (Stream 1 (to_out t) None (-1) (to_out t) b), (Stream 2 (to_err t) None (-1) (to_err t) c).
    rewrite Hr. split_and!; try done; try (split; [by right|done]).
    exists g0. split; [by constructor|done]. }
  unfold psh_streamRedirect. change (replicate PSH_REDIRSZ (-1)) with [-1; -1; -1]. unfold PSH_REDIRSZ.
  set (ro := Redir _ _) in *.
  destruct (redirect_step0 _ _ _ _ _ _ _ 0 Hs V0) as (fd0 & Hf0 & St0).
  destruct (redirect_loop_step _ 2 _ _ _ _ _ Hf0 St0) as (e0 & r0 & s0 & R0 & _ & C0 & L0).
  pose proof (step_under_way _ _ _ _ _ _ _ 0 _ _ _ _ Hs Hopen ltac:(lia) Hf0 C0) as U0.
  assert (forall rs f0, reached rs f0 s -> under_way g0 rs f0 0 s) as U by (by split; auto).
  destruct L0 as [L0|[-> L0]].
  2:{ rewrite L0. exists (-1), r0, s0. split; [done|]. split.
      - eapply redirected_mono; eauto using done_if_fail.
      - intros rs f0 Hd Ht Hre. by apply (U0 rs f0 Hd Ht (U rs f0 Hre)). }
  change (0 + 1) with 1 in L0.
  destruct (redirect_step1 _ _ _ _ _ _ _ e0 R0 V1) as (fd1 & Hf1 & St1).
  destruct (redirect_loop_step _ 1 _ _ _ _ _ Hf1 St1) as (e1 & r1 & s1 & R1 & E1 & C1 & L1).
  pose proof (step_under_way _ _ _ _ _ _ _ 1 _ _ _ _ R0 Hopen ltac:(lia) Hf1 C1) as U1.
  destruct L1 as [L1|[-> L1]].
  2:{ rewrite L0, L1. exists (-1), r1, s1. split; [done|]. split.
      - eapply redirected_mono; eauto using done_if_fail.
      - intros rs f0 Hd Ht Hre. by apply (U1 rs f0 Hd Ht (U0 rs f0 Hd Ht (U rs f0 Hre))). }
  change (1 + 1) with 2 in L1.
  destruct (redirect_step2 _ _ _ _ _ _ _ e1 R1 V2) as (fd2 & Hf2 & St2).
  destruct (redirect_loop_step _ 0 _ _ _ _ _ Hf2 St2) as (e2 & r2 & s2 & R2 & E2 & C2 & L2).
  pose proof (step_under_way _ _ _ _ _ _ _ 2 _ _ _ _ R1 Hopen ltac:(lia) Hf2 C2) as U2.
  assert (forall rs f0, dup2_works (S := S) -> (rs = [] -> t = no_targets) -> reached rs f0 s ->
    e2 = 0 \/ refused g0 rs f0) as Hall.
  { intros rs f0 Hd Ht Hre. by apply (U2 rs f0 Hd Ht (U1 rs f0 Hd Ht (U0 rs f0 Hd Ht (U rs f0 Hre)))). }
  rewrite L0, L1. exists e2, r2, s2.
  assert (redirected g0 t (done_if e2) (done_if e2) (done_if e2) r2 s2) as R3
    by (eapply redirected_mono; eauto using done_if_weaken).
  destruct L2 as [->|[-> ->]]; done.
Qed.

Definition target_or (to old : option desc) : option desc :=
  match to with Some d => Some d | None => old end.

(** During the command every redirected stream is its target, and the others
    are what they were. *)
Lemma redirected_streams g0 t r s :
  redirected g0 t settled settled settled r s ->
  (forall i, 0 <= i <= 2 -> is_Some (g0 i)) ->
  (fd_get s 0 = target_or (to_in t) (g0 0)) /\
  (fd_get s 1 = target_or (to_out t) (g0 1)) /\
  (fd_get s 2 = target_or (to_err t) (g0 2)).
Proof.
  intros (base & p & q & w & _ & _ & (g1 & HI & HO) & (Sp & Sq & Sw) & _ & (Ip & Iq & Iw) &
    (Tp & Tq & Tw) & Hp & Hq & Hw) Hopen.
  assert (forall k st, stream_ok g0 base st -> settled st -> st_i st = k -> 0 <= k <= 2 ->
    fd_get s k = target_or (st_to st) (g0 k)) as Hk.
  { intros k st [_ Hok] [_ Hset] <- Hr. destruct (Hopen (st_i st) Hr) as [v Hv].
    assert (exists u, base (st_i st) = Some u /\
      Some u = target_or (st_to st) (g0 (st_i st))) as (u & Hu & <-).
    { destruct (st_o st) as [o|].
      - destruct Hok as (_ & Hto & ->). destruct (st_to st); [eauto|done].
      - destruct (st_to st); [by destruct Hset|]. rewrite Hok, Hv. eauto. }
    destruct (own3_open _ _ _ _ _ _ _ _ _ _ HI Hu) as (Hg1 & _); [lia|].
    by destruct (own3_open _ _ _ _ _ _ _ _ _ _ HO Hg1) as (Hg & _); [lia|]. }
  rewrite <-Tp, <-Tq, <-Tw. split_and!; apply Hk; auto; lia.
Qed.
Lemma own3_under g0 g0' d1 d2 d3 a b c g :
  own3 g0 d1 d2 d3 a b c g -> same_fds g0' g0 -> own3 g0' d1 d2 d3 a b c g.
Proof.
  intros [H1 H2 H3 E1 E2 E3 Hm] He.
  assert (forall d x, slot g0 d x -> slot g0' d x) as Hs.
  { intros [d|] x; simpl; [|done]. by rewrite (He x). }
  constructor; auto. intros i. rewrite (Hm i).
  destruct d1, d2, d3; simpl; unfold fd_upd; repeat case_decide; try done; by rewrite (He i).
Qed.

Lemma redirected_same g0 t P Q W r s s' :
  redirected g0 t P Q W r s -> same_fds (fd_get s') (fd_get s) -> redirected g0 t P Q W r s'.
Proof.
  intros (base & p & q & w & ? & ? & (g1 & HI & HO) & Hrest) He.
  exists base, p, q, w. split_and!; try apply Hrest; try done.
  exists g1. split; [done|]. by eapply own3_map.
Qed.

(** The stream is back on its own descriptor. *)
Definition back (p : stream) : Prop := st_o p = None /\ st_x p < 0.

Lemma stream_restore g0 base p q w s :
  dup2_works (S := S) -> tab base p q w (fd_get s) ->
  stream_ok g0 base p -> stream_ok g0 base q -> stream_ok g0 base w ->
  0 <= st_i p <= 2 -> st_i q <> st_i p -> st_i w <> st_i p ->
  (forall i, ~ 0 <= i <= 2 -> base i = g0 i) ->
  if 0 <=? st_x p then
    exists s1 base' p', restore_one (st_i p) (st_x p) s = (false, s1) /\
      tab base' p' q w (fd_get s1) /\ st_i p' = st_i p /\ st_to p' = st_to p /\
      st_x p' = -1 /\ st_a p' = st_a p /\
      (stream_ok g0 base' p' /\ stream_ok g0 base' q /\ stream_ok g0 base' w) /\
      (forall i, ~ 0 <= i <= 2 -> base' i = g0 i) /\ back p'
  else back p.
Proof.
  intros Hok Ht Hp Hq Hw Hi Hiq Hiw Hout. destruct (tab_neg _ _ _ _ _ Ht) as [_ Hx].
  destruct p as [i to o x d a]. unfold back. simpl in *. destruct o as [o|].
  - rewrite (proj2 (Z.leb_le _ _)) by done.
    destruct (restore_one i x s) as [failed s1] eqn:E.
    pose proof Hp as [Hd (Hv & Hto & Hb)]. simpl in *.
    assert (is_Some (base i)) as Hs by (rewrite Hb; destruct to; [done|by destruct Hto]).
    destruct (restore_one_ok _ _ _ _ _ _ _ _ _ _ _ _ _ _ _ _ _ Hok Ht Hs ltac:(lia) E) as [-> Ht'].
    exists s1, (fd_upd i (Some o) base), (Stream i to None (-1) d a).
    split_and!; try done; auto using stream_ok_upd.
    + split; [done|]. simpl. unfold fd_upd. by rewrite decide_True.
    + intros j Hj. unfold fd_upd. rewrite decide_False by lia. by apply Hout.
  - by rewrite (proj2 (Z.leb_gt _ _)).
Qed.

Definition restore_outcome (R : psh_redir -> S -> Prop) (n sv : Z) r s : Prop :=
  if 0 <=? sv then
    exists s1 r1, restore_one n sv s = (false, s1) /\ set_save n (-1) r = Some r1 /\ R r1 s1
  else R r s.

Lemma restore_step0 g0 t P Q W r s :
  dup2_works (S := S) -> redirected g0 t P Q W r s ->
  exists sv, rd (save r) 0 = Some sv /\ restore_outcome (redirected g0 t back Q W) 0 sv r s.
Proof.
  intros Hok (base & p & q & w & Hsv & Hrd & Ht & (Sp & Sq & Sw) & Hout & (Ip & Iq & Iw) & Hto & Hp & Hq & Hw).
  destruct r as [sv0 rd0]. simpl in Hsv, Hrd. subst. exists (st_x p). split; [done|].
  pose proof (stream_restore g0 base p q w s Hok Ht Sp Sq Sw) as Hst.
  rewrite Ip, Iq, Iw in Hst. specialize (Hst ltac:(lia) ltac:(done) ltac:(done) Hout).
  unfold restore_outcome. destruct (0 <=? st_x p).
  - destruct Hst as (s1 & base' & p' & -> & Ht' & Ip' & Tp' & Hx & Ha & Sok & Hout' & Hback).
    eexists s1, _. split_and!; [done..|].
    exists base', p', q, w. rewrite Ip', Tp', Ha, Hx. split_and!; try done; try apply Hto; apply Sok.
  - exists base, p, q, w. split_and!; try done; apply Hto.
Qed.

Lemma restore_step1 g0 t P Q W r s :
  dup2_works (S := S) -> redirected g0 t P Q W r s ->
  exists sv, rd (save r) 1 = Some sv /\ restore_outcome (redirected g0 t P back W) 1 sv r s.
Proof.
  intros Hok (base & p & q & w & Hsv & Hrd & Ht & (Sp & Sq & Sw) & Hout & (Ip & Iq & Iw) & Hto & Hp & Hq & Hw).
  destruct r as [sv0 rd0]. simpl in Hsv, Hrd. subst. exists (st_x q). split; [done|].
  pose proof (stream_restore g0 base q p w s Hok (tab_swap12 _ _ _ _ _ Ht) Sq Sp Sw) as Hst.
  rewrite Ip, Iq, Iw in Hst. specialize (Hst ltac:(lia) ltac:(done) ltac:(done) Hout).
  unfold restore_outcome. destruct (0 <=? st_x q).
  - destruct Hst as (s1 & base' & q' & -> & Ht' & Iq' & Tq' & Hx & Ha & Sok & Hout' & Hback).
    eexists s1, _. split_and!; [done..|]. apply tab_swap12 in Ht'.
    exists base', p, q', w. rewrite Iq', Tq', Ha, Hx. split_and!; try done; try apply Hto; apply Sok.
  - exists base, p, q, w. split_and!; try done; apply Hto.
Qed.

Lemma restore_step2 g0 t P Q W r s :
  dup2_works (S := S) -> redirected g0 t P Q W r s ->
  exists sv, rd (save r) 2 = Some sv /\ restore_outcome (redirected g0 t P Q back) 2 sv r s.
Proof.
  intros Hok (base & p & q & w & Hsv & Hrd & Ht & (Sp & Sq & Sw) & Hout & (Ip & Iq & Iw) & Hto & Hp & Hq & Hw).
  destruct r as [sv0 rd0]. simpl in Hsv, Hrd. subst. exists (st_x w). split; [done|].
  pose proof (stream_restore g0 base w p q s Hok (tab_swap12 _ _ _ _ _ (tab_swap23 _ _ _ _ _ Ht)) Sw Sp Sq) as Hst.
  rewrite Ip, Iq, Iw in Hst. specialize (Hst ltac:(lia) ltac:(done) ltac:(done) Hout).
  unfold restore_outcome. destruct (0 <=? st_x w).
  - destruct Hst as (s1 & base' & w' & -> & Ht' & Iw' & Tw' & Hx & Ha & Sok & Hout' & Hback).
    eexists s1, _. split_and!; [done..|]. apply tab_swap12, tab_swap23 in Ht'.
    exists base', p, q, w'. rewrite Iw', Tw', Ha, Hx. split_and!; try done; try apply Hto; apply Sok.
  - exists base, p, q, w. split_and!; try done; apply Hto.
Qed.

Lemma restore_fold R n sv r s :
  rd (save r) n = Some sv -> restore_outcome R n sv r s ->
  exists r1 s1, R r1 s1 /\
    (sv ← rd (save r) n;
     (if 0 <=? sv then
        let '(failed, s) := restore_one n sv s in
        r ← set_save n (-1) r;
        Some (if failed : bool then -1 else 0, r, s)
      else Some (0, r, s))) = Some (0, r1, s1).
Proof.
  intros Hsv Hst. rewrite Hsv. cbn [mbind option_bind]. unfold restore_outcome in Hst.
  destruct (0 <=? sv).
  - destruct Hst as (s1 & r1 & -> & -> & HR). by exists r1, s1.
  - by exists r, s.
Qed.

Lemma streamRestore_ok g0 t P Q W r s :
  dup2_works (S := S) -> redirected g0 t P Q W r s ->
  exists r' s', psh_streamRestore r s = Some (0, r', s') /\ same_fds (fd_get s') g0.
Proof.
  intros Hok Hr. unfold psh_streamRestore. cbn [for_loop PSH_REDIRSZ].
  destruct (restore_step0 _ _ _ _ _ _ _ Hok Hr) as (x0 & Hx0 & St0).
  destruct (restore_fold _ _ _ _ _ Hx0 St0) as (r0 & s0 & R0 & ->). cbn [mbind option_bind].
  destruct (restore_step1 _ _ _ _ _ _ _ Hok R0) as (x1 & Hx1 & St1).
  destruct (restore_fold _ _ _ _ _ Hx1 St1) as (r1 & s1 & R1 & E1).
  change (0 + 1) with 1. rewrite E1. cbn [mbind option_bind].
  destruct (restore_step2 _ _ _ _ _ _ _ Hok R1) as (x2 & Hx2 & St2).
  destruct (restore_fold _ _ _ _ _ Hx2 St2) as (r2 & s2 & R2 & E2).
  change (1 + 1) with 2. rewrite E2. cbn [mbind option_bind].
  destruct R2 as (base & p & q & w & Hsv & Hrd & (g1 & HI & HO) & (Sp & Sq & Sw) & Hout &
    (Ip & Iq & Iw) & _ & [Op Xp] & [Oq Xq] & [Ow Xw]).
  rewrite Op, Oq, Ow in HI. apply own3_none in HI.
  assert (same_fds base g0) as Hb.
  { intros i. destruct (decide (0 <= i <= 2)) as [Hi|]; [|by apply Hout].
    destruct Sp as [_ Sp], Sq as [_ Sq], Sw as [_ Sw]. rewrite Op in Sp. rewrite Oq in Sq.
    rewrite Ow in Sw. assert (i = st_i p \/ i = st_i q \/ i = st_i w) as [->|[->| ->]] by lia; done. }
  assert (same_fds g0 g1) as Hg by (by rewrite <-Hb, HI).
  destruct (cleanup_ok _ _ _ _ _ _ _ _ _ _ _ _ Hsv Xp Xq Xw Hrd (own3_under _ _ _ _ _ _ _ _ _ HO Hg))
    as (r' & s' & -> & Hs' & _).
  by exists r', s'.
Qed.

(** C6: a command runs with its redirections and leaves no trace.  When the
    redirections that [psh_parseRedirections] opened are applied by
    [psh_streamRedirect] and undone by [psh_streamRestore], the descriptor
    table is the one before the command line was read: nothing leaks, also when
    [dup] fails half way.  If [psh_streamRedirect] returned 0, each of stdin,
    stdout and stderr was meanwhile its last requested file, or untouched;
    otherwise it returned 127. *)
Theorem redirect_restore g0 t r s :
  dup2_works (S := S) -> owns g0 t r s -> (forall i, 0 <= i <= 2 -> is_Some (g0 i)) ->
  exists ret r1 s1, psh_streamRedirect r s = Some (ret, r1, s1) /\
    (ret = 0 /\ fd_get s1 0 = target_or (to_in t) (g0 0) /\
       fd_get s1 1 = target_or (to_out t) (g0 1) /\ fd_get s1 2 = target_or (to_err t) (g0 2)
     \/ ret = PSH_UNKNOWN_CMD) /\
    forall s2, same_fds (fd_get s2) (fd_get s1) ->
      exists r3 s3, psh_streamRestore r1 s2 = Some (0, r3, s3) /\ same_fds (fd_get s3) g0.
Proof.
  intros Hok Ho Hopen. destruct (streamRedirect_ok g0 t r s Ho Hopen) as (err & r1 & s1 & -> & Hr & _).
  eexists _, r1, s1. split; [done|]. split.
  - destruct (Z.eqb_spec err 0) as [->|]; [left|by right]. split; [done|].
    eapply redirected_streams; [|done].
    eapply redirected_mono; [exact Hr|..]; intros p Hp; by apply Hp.
  - intros s2 He. eapply streamRestore_ok; [done|]. by eapply redirected_same.
Qed.
End redir_laws.

(** ** A concrete run *)

(** [cat x > out] *)
Definition ex_words : list bytes := bstr <$> ["cat"; "x"; ">"; "out"]%string.

Lemma parseRedirections_outcome_witness :
  exists err argv' r s', psh_parseRedirections ex_words ex_fds = Some (err, argv', r, s') /\
    err = 0 /\ argv' = bstr <$> ["cat"; "x"]%string.
Proof.
  assert (Forall (Forall (fun b => b <> 0)) ex_words) as Hw
    by (repeat constructor; discriminate).
  destruct (parseRedirections_outcome ex_words ex_fds Hw) as (err & argv' & r & s' & E & Hor).
  exists err, argv', r, s'. split; [exact E|].
  destruct Hor as [(-> & _ & -> & _)|[Hneg _]]; [done|].
  exfalso. apply (f_equal (fun o => match o with Some (e, _, _, _) => e | None => 0 end)) in E.
  vm_compute in E. subst err. lia.
Defined.

Definition ex_out : desc := Desc (bstr "out") [O_WRONLY; O_CREAT; O_TRUNC].

(** The descriptor table after [open("out")]. *)
Definition ex_redirected : ftab := ft_set (<[3 := ex_out]> (ft_map ex_fds)) ex_fds.

Lemma ex_owns :
  owns (fd_get ex_fds) (Targets None (Some ex_out) None) (Redir [-1; -1; -1] [-1; 3; -1]) ex_redirected.
Proof.
  split; [done|]. exists (-1), 3, (-1). split; [done|]. constructor; simpl; try done; try lia.
  apply same_insert.
Qed.

Lemma redirect_restore_witness :
  exists ret r1 s1, psh_streamRedirect (Redir [-1; -1; -1] [-1; 3; -1]) ex_redirected = Some (ret, r1, s1) /\
    fd_get s1 1 = Some ex_out /\
    exists r3 s3, psh_streamRestore r1 s1 = Some (0, r3, s3) /\ same_fds (fd_get s3) (fd_get ex_fds).
Proof.
  destruct (redirect_restore (fd_get ex_fds) (Targets None (Some ex_out) None)
    (Redir [-1; -1; -1] [-1; 3; -1]) ex_redirected ftab_dup2_works ex_owns) as (ret & r1 & s1 & E & Hret & Hs).
  - intros i Hi. assert (i = 0 \/ i = 1 \/ i = 2) as [->|[->| ->]] by lia; by eexists.
  - exists ret, r1, s1. split; [exact E|]. split; [|by apply Hs].
    destruct Hret as [(_ & _ & H1 & _)|Hr]; [exact H1|].
    exfalso. apply (f_equal (fun o => match o with Some (e, _, _) => e | None => 0 end)) in E.
    vm_compute in E. subst ret. discriminate.
Defined.
