(* ===== verification/Prefix.v ===== *)
(** * Numbers with a unit prefix ([psh_prefix] of [psh/pshapp/pshapp.c])

    Integers are unbounded here and every intermediate value is shown to fit its
    C type, so the C program computes the same numbers. *)

From S2P Require Import Prelude.

Definition BP_OFFS : Z := 0.
Definition BP_EXP_OFFS : Z := 10.
Definition SI_OFFS : Z := 8.
Definition SI_EXP_OFFS : Z := 3.

Definition bp : list bytes := [] :: (bstr <$> ["K"; "M"; "G"; "T"; "P"; "E"; "Z"; "Y"]%string).
Definition si : list bytes :=
  (bstr <$> ["y"; "z"; "a"; "f"; "p"; "n"; "u"; "m"]%string) ++ [] ::
  (bstr <$> ["k"; "M"; "G"; "T"; "P"; "E"; "Z"; "Y"]%string).

Definition psh_mod (x y : Z) : Z :=
  let ret := Z.rem x y in if ret <? 0 then ret + Z.abs y else ret.

Definition psh_div (x y : Z) : Z := Z.quot (x - psh_mod x y) y.

(** [while (x /= base) ret++;] *)
Fixpoint log_loop (fuel : nat) (base x ret : Z) : option Z :=
  let x := x / base in
  if x =? 0 then Some ret else
  match fuel with
  | O => None
  | Datatypes.S fuel => log_loop fuel base x (ret + 1)
  end.

(** An unsigned [x] has at most 32 binary digits; [None] is a division by zero,
    or base 1, for which the loop does not end. *)
Definition psh_log (base x : Z) : option Z :=
  if base =? 0 then None else log_loop 32 base x 0.

Fixpoint pow_loop (fuel : nat) (ret x y : Z) : option Z :=
  if y =? 0 then Some ret else
  let ret := if Z.land y 1 =? 0 then ret else ret * x in
  let y := Z.shiftr y 1 in
  if y =? 0 then Some ret else
  match fuel with
  | O => None
  | Datatypes.S fuel => pow_loop fuel ret (x * x) y
  end.
Definition psh_pow (x y : Z) : option Z := pow_loop 32 1 x y.

Definition psh_bp (exp : Z) : option bytes := rd bp (psh_div exp BP_EXP_OFFS + BP_OFFS).
Definition psh_si (exp : Z) : option bytes := rd si (psh_div exp SI_EXP_OFFS + SI_OFFS).

(** [while (fpart && !(fpart % 10)) { fpart /= 10; prec--; }] *)
Fixpoint trim_zeros (fuel : nat) (fpart prec : Z) : option (Z * Z) :=
  if negb (fpart =? 0) && (Z.rem fpart 10 =? 0) then
    match fuel with
    | O => None
    | Datatypes.S fuel => trim_zeros fuel (Z.quot fpart 10) (prec - 1)
    end
  else Some (fpart, prec).

(** [%d] of a non-negative number, and [%0*d]. *)
Fixpoint dec_loop (fuel : nat) (x : Z) (acc : bytes) : bytes :=
  let acc := (48 + x mod 10) :: acc in
  match fuel with
  | O => acc
  | Datatypes.S fuel => if x / 10 =? 0 then acc else dec_loop fuel (x / 10) acc
  end.
Definition dec (x : Z) : bytes := dec_loop 20 x [].
Definition dec_pad (width x : Z) : bytes :=
  replicate (Z.to_nat (width - zlen (dec x))) 48 ++ dec x.

(** From [div = psh_log(base, abs(x))] on: the integer part, fraction, precision left and
    the exponent whose prefix is used. *)
Definition prefix_parts (div base offs x y prec : Z) : option (Z * Z * Z * Z) :=
  let exp := div + y in
  let div := div - psh_mod exp offs in
  x ← (if div <? 0 then k ← psh_pow base (- div); Some (x * k) else Some x);
  let div := if div <? 0 then 0 else div in
  div ← psh_pow base div;
  let ipart := Z.quot (Z.abs x) div in
  p1 ← psh_pow 10 (prec + 1);
  let fpart := p1 * Z.rem (Z.abs x) div / div in
  p ← psh_pow 10 prec;
  b ← psh_pow base offs;
  let fpart := Z.quot (fpart + 5) 10 in
  let '(ipart, fpart, exp) :=
    if fpart =? p then
      if ipart + 1 =? b then (1, 0, exp + offs) else (ipart + 1, 0, exp)
    else (ipart, fpart, exp) in
  '(fpart, prec) ← trim_zeros 10 fpart prec;
  Some (ipart, fpart, prec, exp).

(** The return value, and the string stored when it is 0. *)
Definition psh_prefix (base x y prec : Z) : option (Z * bytes) :=
  div ← psh_log base (Z.abs x);
  if 8 <? prec then Some (- EINVAL, []) else
  if negb ((base =? 2) || (base =? 10)) then Some (- EINVAL, []) else
  let offs := if base =? 2 then BP_EXP_OFFS else SI_EXP_OFFS in
  let fp := if base =? 2 then psh_bp else psh_si in
  '(ipart, fpart, prec, exp) ← prefix_parts div base offs x y prec;
  match fp (if (ipart =? 0) && (fpart =? 0) then y else exp) with
  | None => Some (- EINVAL, [])
  | Some prefix =>
      Some (0, (if x <? 0 then bstr "-" else []) ++ dec ipart ++
               (if negb (fpart =? 0) then bstr "." ++ dec_pad prec fpart else []) ++ prefix)
  end.

Example prefix_ex1 : psh_prefix 10 (-15496) 3 2 = Some (0, bstr "-15.5M").
Proof. vm_compute. reflexivity. Qed.
Example prefix_ex2 : psh_prefix 2 2000 10 3 = Some (0, bstr "1.953M").
Proof. vm_compute. reflexivity. Qed.

(** ** The arithmetic helpers *)

Lemma psh_mod_ok x y : 0 < y -> psh_mod x y = x mod y.
Proof.
  intros Hy. unfold psh_mod. pose proof (Z.rem_bound_abs x y ltac:(lia)).
  pose proof (Z.quot_rem' x y) as Hq.
  destruct (Z.ltb_spec (Z.rem x y) 0).
  - apply Z.mod_unique with (q := Z.quot x y - 1); lia.
  - apply Z.mod_unique with (q := Z.quot x y); lia.
Qed.

Lemma psh_div_ok x y : 0 < y -> psh_div x y = x / y.
Proof.
  intros Hy. unfold psh_div. rewrite psh_mod_ok by done.
  pose proof (Z.div_mod x y ltac:(lia)).
  replace (x - x mod y) with (x / y * y) by lia. apply Z.quot_mul. lia.
Qed.

Lemma log_loop_ok fuel base x ret :
  2 <= base -> 0 <= x < base ^ (Z.of_nat fuel + 1) ->
  exists l, log_loop fuel base x ret = Some (ret + l) /\ 0 <= l <= Z.of_nat fuel /\
    (l = 0 \/ base ^ l <= x) /\ x < base ^ (l + 1).
Proof.
  intros Hb. revert x ret. induction fuel as [|fuel IH]; intros x ret Hx.
  - exists 0. rewrite Z.pow_1_r in Hx. simpl. rewrite Z.div_small by lia. simpl.
    split_and!; [f_equal; lia|lia|lia|by left|lia].
  - cbn [log_loop]. assert (base ^ (Z.of_nat (Datatypes.S fuel) + 1) = base * base ^ (Z.of_nat fuel + 1)) as Hp.
    { rewrite <-Z.pow_succ_r by lia. f_equal. lia. }
    destruct (Z.eqb_spec (x / base) 0) as [H0|H0].
    + exists 0. apply Z.div_small_iff in H0; [|lia].
      split_and!; [f_equal; lia|lia|lia|by left|rewrite Z.pow_1_r; lia].
    + destruct (IH (x / base) (ret + 1)) as (l & -> & Hl & Hlo & Hhi).
      { split; [apply Z.div_pos; lia|]. apply Z.div_lt_upper_bound; lia. }
      exists (1 + l). split_and!; [f_equal; lia|lia|lia| |].
      * right. replace (1 + l) with (Z.succ l) by lia. rewrite Z.pow_succ_r by lia.
        pose proof (Z.mul_div_le x base ltac:(lia)).
        destruct Hlo as [->|Hlo]; [|nia].
        assert (1 <= x / base); [|rewrite Z.pow_0_r; nia].
        pose proof (Z.div_pos x base ltac:(lia) ltac:(lia)). lia.
      * replace (1 + l + 1) with (Z.succ (l + 1)) by lia. rewrite Z.pow_succ_r by lia.
        pose proof (Z.mul_succ_div_gt x base ltac:(lia)). nia.
Qed.

Lemma psh_log_ok base x :
  2 <= base -> 0 <= x < 2 ^ 32 ->
  exists l, psh_log base x = Some l /\ 0 <= l <= 32 /\ (l = 0 \/ base ^ l <= x) /\ x < base ^ (l + 1).
Proof.
  intros Hb Hx. unfold psh_log. destruct (Z.eqb_spec base 0); [lia|].
  destruct (log_loop_ok 32 base x 0 Hb) as (l & Hl & ?); [|by exists l].
  split; [lia|]. change (Z.of_nat 32 + 1) with 33.
  pose proof (Z.pow_le_mono_l 2 base 33 ltac:(lia)). lia.
Qed.

Lemma pow_loop_ok fuel ret x y :
  0 <= y < 2 ^ (Z.of_nat fuel + 1) -> pow_loop fuel ret x y = Some (ret * x ^ y).
Proof.
  revert ret x y. induction fuel as [|fuel IH]; intros ret x y Hy.
  - change (2 ^ (Z.of_nat 0 + 1)) with 2 in Hy. assert (y = 0 \/ y = 1) as [->| ->] by lia.
    + rewrite Z.pow_0_r, Z.mul_1_r. reflexivity.
    + rewrite Z.pow_1_r. reflexivity.
  - cbn [pow_loop]. destruct (Z.eqb_spec y 0) as [->|Hy0]; [f_equal; rewrite Z.pow_0_r; lia|].
    assert (2 ^ (Z.of_nat (Datatypes.S fuel) + 1) = 2 * 2 ^ (Z.of_nat fuel + 1)) as Hp.
    { rewrite <-Z.pow_succ_r by lia. f_equal. lia. }
    rewrite Z.shiftr_div_pow2 by lia. change (2 ^ 1) with 2.
    assert (Z.land y 1 = y mod 2) as -> by (change 1 with (Z.ones 1); by rewrite Z.land_ones).
    pose proof (Z.div_mod y 2 ltac:(lia)) as Hd. pose proof (Z.mod_pos_bound y 2 ltac:(lia)) as Hm.
    assert (0 <= y / 2) as Hq by (apply Z.div_pos; lia).
    assert (x ^ y = x ^ (y mod 2) * (x * x) ^ (y / 2)) as Hxy.
    { rewrite Hd at 1. rewrite Z.pow_add_r by lia. rewrite Z.pow_mul_r by lia.
      rewrite Z.pow_2_r. lia. }
    rewrite Hxy. clear Hxy.
    assert ((if y mod 2 =? 0 then ret else ret * x) = ret * x ^ (y mod 2)) as ->.
    { assert (y mod 2 = 0 \/ y mod 2 = 1) as [-> | ->] by lia; simpl; lia. }
    destruct (Z.eqb_spec (y / 2) 0) as [->|].
    + by rewrite Z.pow_0_r, Z.mul_1_r.
    + rewrite IH by lia. by rewrite Z.mul_assoc.
Qed.

Lemma psh_pow_ok x y : 0 <= y < 2 ^ 33 -> psh_pow x y = Some (x ^ y).
Proof. intros Hy. unfold psh_pow. rewrite pow_loop_ok by done. f_equal. lia. Qed.

(** ** What is printed *)

Lemma some_bind {A B} (a : A) (f : A -> option B) : (Some a ≫= f) = f a.
Proof. done. Qed.

(** [n / d] rounded to the nearest integer, halves up. *)
Definition round_div (n d : Z) : Z := (2 * n + d) / (2 * d).

Lemma round_div_fraction p r d :
  0 <= p -> 0 <= r < d ->
  Z.quot (10 ^ (p + 1) * r / d + 5) 10 = round_div (r * 10 ^ p) d /\
  0 <= round_div (r * 10 ^ p) d <= 10 ^ p.
Proof.
  intros Hp Hr. assert (0 < 10 ^ p) by (apply Z.pow_pos_nonneg; lia).
  assert (0 <= 10 ^ (p + 1) * r / d) as H0.
  { apply Z.div_pos; [|lia]. apply Z.mul_nonneg_nonneg; [apply Z.pow_nonneg|]; lia. }
  split; [|split].
  - rewrite Z.quot_div_nonneg by lia. unfold round_div.
    rewrite <-Z.div_add by lia. rewrite Z.div_div by lia.
    rewrite Z.pow_add_r, Z.pow_1_r by lia.
    replace (10 ^ p * 10 * r + 5 * d) with ((2 * (r * 10 ^ p) + d) * 5) by lia.
    replace (d * 10) with (2 * d * 5) by lia. apply Z.div_mul_cancel_r; lia.
  - unfold round_div. apply Z.div_pos; nia.
  - unfold round_div. apply Z.lt_succ_r. apply Z.div_lt_upper_bound; nia.
Qed.

Lemma round_div_split n d p :
  0 < d -> round_div (n * 10 ^ p) d = n / d * 10 ^ p + round_div (n mod d * 10 ^ p) d.
Proof.
  intros Hd. unfold round_div. rewrite <-Z.div_add_l by lia. f_equal.
  rewrite (Z.div_mod n d) at 1 by lia. lia.
Qed.

Lemma trim_zeros_ok fuel f p :
  0 <= f < 10 ^ p -> 0 <= p <= Z.of_nat fuel ->
  exists f' p', trim_zeros fuel f p = Some (f', p') /\ 0 <= p' <= p /\ f = f' * 10 ^ (p - p') /\
    0 <= f' < 10 ^ p' /\ (f' = 0 \/ f' mod 10 <> 0).
Proof.
  revert f p. induction fuel as [|fuel IH]; intros f p Hf Hp.
  - assert (p = 0) as -> by lia. rewrite Z.pow_0_r in Hf. assert (f = 0) as -> by lia.
    exists 0, 0. by repeat split; try lia; left.
  - cbn [trim_zeros]. destruct (Z.eqb_spec f 0) as [->|Hf0]; cbn [negb andb].
    { exists 0, p. rewrite Z.sub_diag. split_and!; try done; try lia. }
    rewrite Z.rem_mod_nonneg by lia. destruct (Z.eqb_spec (f mod 10) 0) as [Hm|Hm].
    + assert (p <> 0) by (intros ->; rewrite Z.pow_0_r in Hf; lia).
      assert (10 ^ p = 10 * 10 ^ (p - 1)) as Hp10.
      { rewrite <-Z.pow_succ_r by lia. f_equal. lia. }
      rewrite Z.quot_div_nonneg by lia. pose proof (Z.div_mod f 10 ltac:(lia)) as Hd.
      destruct (IH (f / 10) (p - 1)) as (f' & p' & -> & Hp' & He & ? & ?);
        [split; [apply Z.div_pos; lia|]; lia|lia|].
      exists f', p'. split_and!; try done; try lia.
      rewrite Hd, Hm, He. replace (p - p') with (Z.succ (p - 1 - p')) by lia.
      rewrite Z.pow_succ_r by lia. lia.
    + exists f, p. rewrite Z.sub_diag, Z.pow_0_r. split_and!; try done; try lia.
Qed.

Section parts.
Context (base offs x y prec l : Z).
Context (Hbase : 2 <= base) (Hoffs : 0 < offs < 32) (Hprec : 0 <= prec <= 8).
Context (Hl : 0 <= l <= 32) (Hlo : l = 0 \/ base ^ l <= Z.abs x) (Hhi : Z.abs x < base ^ (l + 1)).

(** [|x| * base^y] is [scale_n / scale_d * base^scale_e]. *)
Definition scale_m : Z := (l + y) mod offs.
Definition scale_e : Z := l + y - scale_m.
Definition scale_n : Z := Z.abs x * base ^ Z.max 0 (scale_m - l).
Definition scale_d : Z := base ^ Z.max 0 (l - scale_m).

Lemma scale_m_range : 0 <= scale_m < offs.
Proof. unfold scale_m. apply Z.mod_pos_bound. lia. Qed.

Lemma scale_d_pos : 0 < scale_d.
Proof. unfold scale_d. apply Z.pow_pos_nonneg; lia. Qed.

Lemma scale_quotient : 0 <= scale_n / scale_d < base ^ offs.
Proof.
  pose proof scale_m_range as Hm. pose proof scale_d_pos as Hd.
  assert (0 <= scale_n) as Hn.
  { unfold scale_n. apply Z.mul_nonneg_nonneg; [lia|]. apply Z.pow_nonneg. lia. }
  split; [by apply Z.div_pos|]. apply Z.div_lt_upper_bound; [done|].
  assert (base ^ (scale_m + 1) <= base ^ offs) as Hle by (apply Z.pow_le_mono_r; lia).
  unfold scale_n, scale_d in *. destruct (Z.le_gt_cases scale_m l).
  - replace (Z.max 0 (scale_m - l)) with 0 by lia. replace (Z.max 0 (l - scale_m)) with (l - scale_m) in * by lia.
    rewrite Z.pow_0_r, Z.mul_1_r.
    assert (base ^ (l + 1) = base ^ (l - scale_m) * base ^ (scale_m + 1)) as Hp.
    { rewrite <-Z.pow_add_r by lia. f_equal. lia. }
    nia.
  - replace (Z.max 0 (l - scale_m)) with 0 by lia. replace (Z.max 0 (scale_m - l)) with (scale_m - l) in * by lia.
    rewrite Z.pow_0_r, Z.mul_1_l.
    assert (base ^ (scale_m + 1) = base ^ (l + 1) * base ^ (scale_m - l)) as Hp.
    { rewrite <-Z.pow_add_r by lia. f_equal. lia. }
    assert (0 < base ^ (scale_m - l)) by (apply Z.pow_pos_nonneg; lia). nia.
Qed.

Lemma scale_n_nonneg : 0 <= scale_n.
Proof. unfold scale_n. apply Z.mul_nonneg_nonneg; [lia|]. apply Z.pow_nonneg. lia. Qed.

(** A non-zero number has a non-zero integer part. *)
Lemma scale_quotient_pos : x <> 0 -> 0 < scale_n / scale_d.
Proof.
  intros Hx. pose proof scale_d_pos. apply Z.div_str_pos. split; [done|]. unfold scale_d, scale_n.
  assert (base ^ l <= Z.abs x) by (destruct Hlo as [->|]; [rewrite Z.pow_0_r|]; lia).
  destruct (Z.le_gt_cases l scale_m).
  - replace (Z.max 0 (l - scale_m)) with 0 by lia. rewrite Z.pow_0_r.
    assert (0 < base ^ Z.max 0 (scale_m - l)) by (apply Z.pow_pos_nonneg; lia). nia.
  - replace (Z.max 0 (scale_m - l)) with 0 by lia. rewrite Z.pow_0_r, Z.mul_1_r.
    pose proof scale_m_range.
    assert (base ^ Z.max 0 (l - scale_m) <= base ^ l) by (apply Z.pow_le_mono_r; lia). lia.
Qed.

(** The rounded fraction, in units of the last decimal. *)
Definition scale_f : Z := round_div (scale_n mod scale_d * 10 ^ prec) scale_d.

Lemma prefix_parts_scaled :
  exists x', (if l - scale_m <? 0 then k ← psh_pow base (- (l - scale_m)); Some (x * k) else Some x) = Some x' /\
    Z.abs x' = scale_n.
Proof.
  pose proof scale_m_range as Hm. unfold scale_n. destruct (Z.ltb_spec (l - scale_m) 0).
  - rewrite psh_pow_ok by lia. eexists. split; [reflexivity|]. rewrite Z.abs_mul.
    rewrite (Z.abs_eq (base ^ _)) by (apply Z.pow_nonneg; lia). do 2 f_equal. lia.
  - exists x. split; [done|]. replace (Z.max 0 (scale_m - l)) with 0 by lia.
    rewrite Z.pow_0_r. lia.
Qed.

Lemma prefix_parts_eval :
  prefix_parts l base offs x y prec =
    (let i := scale_n / scale_d in
     let '(ip, fp, e) :=
       if scale_f =? 10 ^ prec then
         if i + 1 =? base ^ offs then (1, 0, l + y + offs) else (i + 1, 0, l + y)
       else (i, scale_f, l + y) in
     '(fp, p) ← trim_zeros 10 fp prec;
     Some (ip, fp, p, e)).
Proof.
  pose proof scale_m_range as Hm. pose proof scale_d_pos as Hd. pose proof scale_n_nonneg as Hn.
  unfold prefix_parts. rewrite psh_mod_ok by lia. fold scale_m.
  destruct prefix_parts_scaled as (x' & -> & Hx'). rewrite some_bind. rewrite Hx'.
  assert ((if l - scale_m <? 0 then 0 else l - scale_m) = Z.max 0 (l - scale_m)) as ->
    by (destruct (Z.ltb_spec (l - scale_m) 0); lia).
  rewrite (psh_pow_ok base (Z.max 0 (l - scale_m))) by lia. fold scale_d. rewrite some_bind.
  rewrite (psh_pow_ok 10 (prec + 1)) by lia. rewrite some_bind.
  rewrite (psh_pow_ok 10 prec) by lia. rewrite some_bind.
  rewrite (psh_pow_ok base offs) by lia. rewrite some_bind.
  rewrite (Z.quot_div_nonneg scale_n scale_d), (Z.rem_mod_nonneg scale_n scale_d) by lia.
  destruct (round_div_fraction prec (scale_n mod scale_d) scale_d) as [-> _];
    [lia|apply Z.mod_pos_bound; lia|].
  reflexivity.
Qed.

Lemma prefix_parts_ok :
  exists ip fp p e, prefix_parts l base offs x y prec = Some (ip, fp, p, e) /\
    0 <= p <= prec /\ 0 <= ip < base ^ offs /\ 0 <= fp < 10 ^ p /\ (fp = 0 \/ fp mod 10 <> 0) /\
    (e = l + y \/ ip = 1) /\ (x <> 0 -> 0 < ip) /\
    let u := e - e mod offs in
    scale_e <= u /\
    (ip * 10 ^ prec + fp * 10 ^ (prec - p)) * base ^ (u - scale_e) =
      round_div (scale_n * 10 ^ prec) scale_d.
Proof.
  pose proof scale_d_pos as Hd. pose proof scale_quotient as Hq. pose proof scale_quotient_pos as Hpos.
  assert (0 < 10 ^ prec) as H10 by (apply Z.pow_pos_nonneg; lia).
  rewrite prefix_parts_eval. cbv zeta.
  destruct (round_div_fraction prec (scale_n mod scale_d) scale_d) as [_ Hf];
    [lia|apply Z.mod_pos_bound; lia|]. fold scale_f in Hf.
  rewrite (round_div_split scale_n scale_d prec Hd). fold scale_f.
  generalize dependent scale_f. generalize dependent (scale_n / scale_d). intros i Hq Hpos f Hf.
  assert ((l + y) - (l + y) mod offs = scale_e) as He by done.
  assert ((l + y + offs) - (l + y + offs) mod offs = scale_e + offs) as He'.
  { rewrite <-(Z.mul_1_l offs) at 2. rewrite Z.mod_add by lia. lia. }
  generalize dependent scale_e. intros se He He'.
  destruct (Z.eqb_spec f (10 ^ prec)) as [->|Hc].
  - assert (trim_zeros 10 0 prec = Some (0, prec)) as Ht by done.
    destruct (Z.eqb_spec (i + 1) (base ^ offs)) as [Hb|Hb]; rewrite Ht; cbn [mbind option_bind].
    + exists 1, 0, prec, (l + y + offs). rewrite He'.
      assert (1 < base ^ offs) by (apply Z.pow_gt_1; lia).
      split_and!; try done; try lia.
      replace (se + offs - se) with offs by lia. rewrite <-Hb. lia.
    + exists (i + 1), 0, prec, (l + y). rewrite He.
      split_and!; try done; try lia.
      rewrite !Z.sub_diag, !Z.pow_0_r. lia.
  - destruct (trim_zeros_ok 10 f prec) as (f' & p' & -> & Hp' & -> & Hr' & Ht'); [lia|lia|].
    cbn [mbind option_bind]. exists i, f', p', (l + y). rewrite He.
    split_and!; try done; try lia.
    rewrite Z.sub_diag, Z.pow_0_r, Z.mul_1_r. done.
Qed.

(** The intermediate values fit their C types. *)
Lemma prefix_parts_fit :
  base ^ offs <= 1024 -> Z.abs x < 2 ^ 31 ->
  scale_n < 2 ^ 31 /\ scale_d < 2 ^ 31 /\
  10 ^ (prec + 1) * (scale_n mod scale_d) < 2 ^ 64 /\
  10 ^ (prec + 1) * (scale_n mod scale_d) / scale_d < 2 ^ 31 - 5.
Proof.
  intros Hb Hx. pose proof scale_m_range as Hm. pose proof scale_d_pos as Hd.
  change (2 ^ 31) with 2147483648 in *. change (2 ^ 64) with 18446744073709551616.
  assert (scale_d < 2147483648) as Hd31.
  { unfold scale_d. destruct (Z.le_gt_cases l scale_m) as [Hlm|Hlm].
    - replace (Z.max 0 (l - scale_m)) with 0 by lia. by rewrite Z.pow_0_r.
    - replace (Z.max 0 (l - scale_m)) with (l - scale_m) by lia.
      assert (base ^ (l - scale_m) <= base ^ l) by (apply Z.pow_le_mono_r; lia).
      destruct Hlo as [->|]; lia. }
  assert (scale_n < 2147483648) as Hn31.
  { unfold scale_n. destruct (Z.le_gt_cases scale_m l) as [Hlm|Hlm].
    - replace (Z.max 0 (scale_m - l)) with 0 by lia. rewrite Z.pow_0_r. lia.
    - replace (Z.max 0 (scale_m - l)) with (scale_m - l) by lia.
      assert (base ^ (scale_m + 1) <= base ^ offs) by (apply Z.pow_le_mono_r; lia).
      assert (base ^ (scale_m + 1) = base ^ (l + 1) * base ^ (scale_m - l)) as Hp.
      { rewrite <-Z.pow_add_r by lia. f_equal. lia. }
      assert (0 < base ^ (scale_m - l)) by (apply Z.pow_pos_nonneg; lia). nia. }
  pose proof (Z.mod_pos_bound scale_n scale_d Hd) as Hr.
  assert (10 ^ (prec + 1) <= 10 ^ 9) as Hp by (apply Z.pow_le_mono_r; lia).
  assert (0 < 10 ^ (prec + 1)) by (apply Z.pow_pos_nonneg; lia).
  change (10 ^ 9) with 1000000000 in Hp. split_and!; [done|done|nia|].
  apply Z.div_lt_upper_bound; nia.
Qed.
End parts.

(** The exponent of the prefix, for the two bases. *)
Definition prefix_offs (base : Z) : Z := if base =? 2 then BP_EXP_OFFS else SI_EXP_OFFS.
Definition prefix_table (base u : Z) : option bytes :=
  if base =? 2 then rd bp (u / BP_EXP_OFFS) else rd si (u / SI_EXP_OFFS + 8).

(** What the printed text denotes: [neg], integer part, [p] decimals, exponent. *)
Definition render_prefixed (neg : bool) (ip fp p : Z) (prefix : bytes) : bytes :=
  (if neg then bstr "-" else []) ++ dec ip ++
  (if negb (fp =? 0) then bstr "." ++ dec_pad p fp else []) ++ prefix.

(** Prefixed numbers.  For base 2 or 10, every [int] [x] but [INT_MIN] and at
    most 8 decimals, [psh_prefix] either has no prefix for the magnitude and
    returns [-EINVAL], or prints [ip.fp] and the prefix of [base^u], where the
    integer part is below one prefix step, there is no trailing zero, and the
    number printed is [|x| * base^y / base^u] rounded (half up) to [prec]
    decimals, carry into the next prefix included.  All intermediate values fit
    their C types. *)
Theorem prefix_rounds base x y prec :
  base = 2 \/ base = 10 -> Z.abs x < 2 ^ 31 -> 0 <= prec <= 8 ->
  exists l ip fp p u,
    let e0 := scale_e (prefix_offs base) y l in
    let n := scale_n base (prefix_offs base) x y l in
    let d := scale_d base (prefix_offs base) y l in
    (psh_prefix base x y prec =
       Some match prefix_table base u with
            | None => (- EINVAL, [])
            | Some s => (0, render_prefixed (x <? 0) ip fp p s)
            end) /\
    0 <= p <= prec /\ 0 <= ip < base ^ prefix_offs base /\ 0 <= fp < 10 ^ p /\
    (fp = 0 \/ fp mod 10 <> 0) /\
    (n = Z.abs x * base ^ (y - e0) /\ d = 1 \/ n = Z.abs x /\ d = base ^ (e0 - y)) /\
    e0 <= u /\ u mod prefix_offs base = 0 /\
    (ip * 10 ^ prec + fp * 10 ^ (prec - p)) * base ^ (u - e0) = round_div (n * 10 ^ prec) d /\
    (n < 2 ^ 31 /\ d < 2 ^ 31 /\ 10 ^ (prec + 1) * (n mod d) < 2 ^ 64 /\
       10 ^ (prec + 1) * (n mod d) / d < 2 ^ 31 - 5).
Proof.
  intros Hbase Hx Hprec. assert (2 <= base) as Hb by lia.
  destruct (psh_log_ok base (Z.abs x) Hb) as (l & Hlog & Hl & Hlo & Hhi).
  { change (2 ^ 31) with 2147483648 in *. change (2 ^ 32) with 4294967296. lia. }
  assert (0 < prefix_offs base < 32 /\ base ^ prefix_offs base <= 1024) as [Hoffs Hb10]
    by (by destruct Hbase as [->| ->]).
  destruct (prefix_parts_ok base (prefix_offs base) x y prec l) as
    (ip & fp & p & e & Hparts & Hp & Hip & Hfp & Htrim & He & Hpos & Hu & Hval); try done; try lia.
  pose proof (prefix_parts_fit base (prefix_offs base) x y prec l Hb Hoffs Hprec Hl Hlo Hhi Hb10 Hx) as Hfit.
  exists l, ip, fp, p, (e - e mod prefix_offs base). cbv zeta.
  assert (scale_n base (prefix_offs base) x y l = Z.abs x * base ^ (y - scale_e (prefix_offs base) y l) /\
      scale_d base (prefix_offs base) y l = 1 \/
    scale_n base (prefix_offs base) x y l = Z.abs x /\
      scale_d base (prefix_offs base) y l = base ^ (scale_e (prefix_offs base) y l - y)) as Hnd.
  { unfold scale_n, scale_d, scale_e. set (m := scale_m _ _ _).
    destruct (Z.le_gt_cases l m); [left|right].
    - replace (Z.max 0 (l - m)) with 0 by lia. split; [do 2 f_equal; lia|done].
    - replace (Z.max 0 (m - l)) with 0 by lia. rewrite Z.pow_0_r. split; [lia|]. f_equal. lia. }
  refine (conj _ (conj Hp (conj Hip (conj Hfp (conj Htrim (conj Hnd (conj Hu (conj _ (conj Hval Hfit))))))))).
  - unfold psh_prefix. rewrite Hlog. cbn [mbind option_bind].
    destruct (Z.ltb_spec 8 prec); [lia|].
    assert (negb ((base =? 2) || (base =? 10)) = false) as -> by (by destruct Hbase as [->| ->]).
    fold (prefix_offs base). rewrite Hparts. cbn [mbind option_bind].
    set (v := if (ip =? 0) && (fp =? 0) then y else e).
    assert (v = e) as ->.
    { subst v. destruct (Z.eqb_spec ip 0) as [Hip0|]; [|done].
      destruct (Z.eqb_spec fp 0); [|done]. cbn [andb].
      destruct He as [->|]; [|lia]. destruct (Z.eq_dec x 0) as [->|]; [|specialize (Hpos ltac:(done)); lia].
      destruct Hlo as [->|Hlo]; [lia|]. assert (0 < base ^ l) by (apply Z.pow_pos_nonneg; lia). lia. }
    set (tbl := prefix_table base _).
    assert ((if base =? 2 then psh_bp else psh_si) e = tbl) as ->.
    { subst tbl. unfold prefix_table, prefix_offs, psh_bp, psh_si.
      assert (forall o, 0 < o -> (e - e mod o) / o = e / o) as Ho.
      { intros o Ho. rewrite (Z.div_mod e o) at 1 by lia.
        replace (o * (e / o) + e mod o - e mod o) with (e / o * o) by lia. apply Z.div_mul. lia. }
      destruct (base =? 2); rewrite psh_div_ok, Ho by done; [by rewrite Z.add_0_r|done]. }
    by destruct tbl.
  - assert (forall o, 0 < o -> (e - e mod o) mod o = 0) as Ho; [|apply Ho; lia].
    intros o Ho. rewrite (Z.div_mod e o) at 1 by lia.
    replace (o * (e / o) + e mod o - e mod o) with (e / o * o) by lia. apply Z.mod_mul. lia.
Qed.

Lemma prefix_rounds_witness :
  exists l ip fp p u, psh_prefix 2 2000 10 3 =
      Some match prefix_table 2 u with
           | None => (- EINVAL, [])
           | Some s => (0, render_prefixed false ip fp p s)
           end /\
    (ip * 10 ^ 3 + fp * 10 ^ (3 - p)) * 2 ^ (u - scale_e 10 10 l) =
      round_div (scale_n 2 10 2000 10 l * 10 ^ 3) (scale_d 2 10 10 l).
Proof.
  destruct (prefix_rounds 2 2000 10 3) as (l & ip & fp & p & u & Hp & _ & _ & _ & _ & _ & _ & _ & Hv & _);
    [by left|by vm_compute|lia|].
  exists l, ip, fp, p, u. split; [exact Hp|exact Hv].
Defined.
