(* ===== verification/Shell.v ===== *)
(** * The shell ([psh_run], [psh_runscript], [psh_history], [psh_pshapp] of
    [psh/pshapp/pshapp.c]; [main] of [psh/psh.c])

    One iteration of the interactive loop reads a line with the editor, splits
    it, records it in the history, opens its redirections and dispatches the
    applet it names.  Applets are a parameter: a function of the entry's address,
    [argv] and the shell state. *)

From stdpp Require Import gmap.
From S2P Require Import Prelude History Parse Complete Registry Fds Io Redir Prefix LineEdit.


(** ** The [history] applet *)

(** [free(entries[i].cmd)]: a freed command can no longer be read. *)
Definition free_entry (i : Z) (h : psh_hist_t) : option psh_hist_t :=
  e ← rd (entries h) i; set_entry i (Histent (ent_n e) None) h.

(** [for (i = hb; i != he; i = (i + 1) % HISTSZ) free(entries[i].cmd)] *)
Fixpoint free_live (fuel : nat) (i : Z) (h : psh_hist_t) : option psh_hist_t :=
  if i =? he h then Some h else
  match fuel with
  | O => None
  | Datatypes.S fuel => h ← free_entry i h; free_live fuel (Z.rem (i + 1) HISTSZ) h
  end.

Definition hist_clear (h : psh_hist_t) : option psh_hist_t :=
  h ← free_live (Z.to_nat HISTSZ) (hb h) h; Some (set_hb 0 (set_he 0 h)).

(** [printf("  %*u  ", c, i + 1)], the entry and a newline. *)
Definition pad_left (width : Z) (s : bytes) : bytes :=
  replicate (Z.to_nat (width - zlen s)) 32 ++ s.
Definition history_row (c : Z) (i : Z) (text : bytes) : bytes :=
  [32; 32] ++ pad_left c (dec (i + 1)) ++ [32; 32] ++ text ++ [10].

Definition history_print (h : psh_hist_t) : option bytes :=
  let size := if hb h <? he h then he h - hb h else HISTSZ - hb h + he h in
  l ← psh_log 10 size;
  for_loop 0 (Z.to_nat size) (fun i out =>
    e ← rd (entries h) (Z.rem (hb h + i) HISTSZ);
    t ← psh_printhistent e;
    Some (out ++ history_row (l + 1) i t)) [].

(** What the [getopt] loop of the applet found: [opts] are the characters
    returned, [optind] its final value. *)
Inductive hist_opts := HoFail | HoOk (clear help : bool).

Fixpoint history_opts (opts : list Z) (clear help : bool) : hist_opts :=
  match opts with
  | [] => HoOk clear help
  | c :: opts =>
      if c =? 99 then history_opts opts true help
      else if c =? 104 then history_opts opts clear true
      else HoFail
  end.

(** Result: return value, the history and the rows printed ([None] when the
    usage text is printed instead of rows). *)
Definition psh_history (h : option psh_hist_t) (argc : Z) (opts : list Z) (optind : Z)
    : option (Z * option psh_hist_t * bytes) :=
  match h with
  | None => Some (EXIT_FAILURE, None, [])
  | Some h =>
      if 1 <? argc then
        match history_opts opts false false with
        | HoFail => Some (EXIT_FAILURE, Some h, [])
        | HoOk clear help =>
            if optind <? argc then Some (EXIT_FAILURE, Some h, [])
            else h ← (if clear then hist_clear h else Some h); Some (EXIT_SUCCESS, Some h, [])
        end
      else out ← history_print h; Some (EXIT_SUCCESS, Some h, out)
  end.

(** ** The interactive loop *)

(** Whether an unknown command is a path or an executable name: the leading
    dots counted by the loop, 3 when the name goes on with something else. *)
Fixpoint path_scan (s : bytes) (cnt : Z) : Z * Z :=
  match s with
  | [] => (cnt, 0)
  | c :: s => if negb (c =? 46) then (if negb (c =? 47) then 3 else cnt, c) else path_scan s (cnt + 1)
  end.

Definition runs_file (arg0 : bytes) : bool :=
  let '(cnt, c) := path_scan arg0 0 in
  ((cnt <? 3) && (c =? 47)) || isalnum (default 0 (head arg0)).

Section shell.
Context {S : Type} `{FdOps S}.

(** [psh_common] and [pshapp_common], the descriptor table and the terminal. *)
Record shell := Shell {
  sh_hist : psh_hist_t; sh_clip : bytes; sh_clipLen : Z; sh_newline : Z; sh_exit : Z;
  sh_sigint : Z; sh_sigquit : Z; sh_sigstop : Z; sh_status : Z;
  sh_fds : S; sh_tty : list tty_ev }.

Definition sh_set_hist (h : psh_hist_t) (s : shell) : shell :=
  Shell h (sh_clip s) (sh_clipLen s) (sh_newline s) (sh_exit s) (sh_sigint s) (sh_sigquit s)
    (sh_sigstop s) (sh_status s) (sh_fds s) (sh_tty s).
Definition sh_set_fds (f : S) (s : shell) : shell :=
  Shell (sh_hist s) (sh_clip s) (sh_clipLen s) (sh_newline s) (sh_exit s) (sh_sigint s)
    (sh_sigquit s) (sh_sigstop s) (sh_status s) f (sh_tty s).
Definition sh_clear_signals (s : shell) : shell :=
  Shell (sh_hist s) (sh_clip s) (sh_clipLen s) (sh_newline s) (sh_exit s) 0 0 0 (sh_status s)
    (sh_fds s) (sh_tty s).
Definition sh_set_status (v : Z) (s : shell) : shell :=
  Shell (sh_hist s) (sh_clip s) (sh_clipLen s) (sh_newline s) (sh_exit s) (sh_sigint s)
    (sh_sigquit s) (sh_sigstop s) v (sh_fds s) (sh_tty s).
Definition sh_print (b : bytes) (s : shell) : shell :=
  Shell (sh_hist s) (sh_clip s) (sh_clipLen s) (sh_newline s) (sh_exit s) (sh_sigint s)
    (sh_sigquit s) (sh_sigstop s) (sh_status s) (sh_fds s) (sh_tty s ++ [TWrite b]).

(** The applets, the registry, the success of allocations. *)
Context (run : Z -> list bytes -> shell -> Z * shell) (apps : applist) (mem : nat -> bool).

(** Find and run: [argv] is not empty. *)
Definition find_command (arg0 : bytes) : option (option Z) :=
  app ← psh_findapp arg0 apps;
  match app with
  | Some a => Some (Some a)
  | None => if runs_file arg0 then psh_findapp (bstr "/") apps else Some None
  end.

Definition dispatch (arg0 : bytes) (argv : list bytes) (r : psh_redir) (s : shell)
    : option (Z * shell) :=
  let s := sh_clear_signals s in
  app ← find_command arg0;
  match app with
  | Some a =>
      '(err, r, f) ← psh_streamRedirect r (sh_fds s);
      let s := sh_set_fds f s in
      let '(err, s) := if err =? 0 then run a argv s else (err, s) in
      let s := sh_set_status err s in
      '(_, _, f) ← psh_streamRestore r (sh_fds s);
      Some (err, sh_set_fds f s)
  | None =>
      Some (PSH_UNKNOWN_CMD,
            sh_print (bstr "Unknown command!" ++ [10]) (sh_set_status PSH_UNKNOWN_CMD s))
  end.

(** The loop body after [psh_readcmd] returned [n >= 0] and [cmd]: [inl] leaves
    the loop with [err], [inr] is the next iteration. *)
Definition run_line (n : Z) (cmd : bytes) (s : shell) : option (Z * shell + Z * shell) :=
  '(err, line, argv) ← psh_parsecmd mem cmd;
  if err <? 0 then
    Some (if err =? - EINVAL then inr (err, s) else inl (err, s))
  else
    h ← hist_record (sh_hist s) line n;
    let s := sh_set_hist h s in
    '(rerr, argv, r, f) ← psh_parseRedirections (arg_at line <$> argv) (sh_fds s);
    let s := sh_set_fds f s in
    if rerr <? 0 then Some (inr (err, s))
    else match argv with
         | [] => Some (inr (err, s))
         | arg0 :: _ => '(err, s) ← dispatch arg0 argv r s; Some (inr (err, s))
         end.

(** *** Reading and running *)

Context (CMDSZ ws_col : Z) (resolve_path : bytes -> Z + bytes) (splitname : bytes -> bytes * bytes)
  (listing : bytes -> option (list dirent)) (qsort : list bytes -> list bytes)
  (mem_print char_signed : bool).

(** What one iteration meets: whether psh still owns the terminal, the outcomes
    of [psh_readcmd]'s system calls, the fresh buffers and the keys. *)
Record round := Round {
  rn_fg : bool; rn_mem : bool; rn_raw : Z; rn_orig : Z; rn_junk : bytes; rn_jbuff : bytes;
  rn_keys : list (option Z) }.

(** The shell after [psh_readcmd]. *)
Definition sh_of_rdl (x : rdl) (s : shell) : shell :=
  Shell (r_hist x) (r_clip x) (r_clipLen x) (r_newline x) (r_exit x) (sh_sigint s) (sh_sigquit s)
    (sh_sigstop s) (sh_status s) (sh_fds s) (sh_tty s ++ r_tty x).

Inductive run_res :=
  | RunWait (s : shell)                 (* waiting for keys, or for the next round *)
  | RunDone (err : Z) (s : shell).      (* left the loop *)

(** The [while] loop; [err] is the variable of [psh_run]. *)
Fixpoint run_loop (rounds : list round) (err : Z) (s : shell) : option run_res :=
  match rounds with
  | [] => Some (RunWait s)
  | rn :: rounds =>
      if negb (sh_exit s =? 0) || negb (rn_fg rn) then Some (RunDone err s) else
      res ← psh_readcmd CMDSZ ws_col resolve_path splitname listing qsort mem mem_print char_signed
              (rn_mem rn) (rn_raw rn) (rn_orig rn) (sh_hist s) (rn_junk rn) (rn_jbuff rn)
              (sh_clip s) (sh_clipLen s) (sh_newline s) (sh_exit s) (rn_keys rn);
      match res with
      | RdWait x => Some (RunWait (sh_of_rdl x s))
      | RdErr e x => Some (RunDone e (sh_of_rdl x s))
      | RdLine n cmd x =>
          out ← run_line n cmd (sh_of_rdl x s);
          match out with
          | inl (err, s) => Some (RunDone err s)
          | inr (err, s) => run_loop rounds err s
          end
      end
  end.
End shell.
Arguments shell : clear implicits.
Arguments run_res : clear implicits.
