(* ===== verification/ShellSpec.v ===== *)
(** * Correctness of the shell *)

From stdpp Require Import gmap.
From S2P Require Import Prelude History Parse Complete Registry Fds Io Redir Prefix LineEdit LineEditSpec Shell.

(** ** The [history] applet *)

(** The loop frees the slots from position [k] on, whatever they hold. *)
Lemma free_live_ok h k fuel :
  0 <= hb h < HISTSZ -> 0 <= he h < HISTSZ -> zlen (entries h) = HISTSZ ->
  Z.of_nat k <= hist_len h -> hist_len h <= Z.of_nat (k + fuel) ->
  exists h', free_live fuel (hist_idx h k) h = Some h' /\ zlen (entries h') = HISTSZ.
Proof.
  revert h k. induction fuel as [|fuel IH]; intros h k Hb He Hs Hk Hf.
  - exists h. simpl. split; [|done].
    assert (hist_idx h k = he h) as -> by (unfold hist_idx, hist_len, HISTSZ in *; dlia).
    by rewrite Z.eqb_refl.
  - cbn [free_live]. destruct (Z.eqb_spec (hist_idx h k) (he h)) as [Heq|Hne]; [by exists h|].
    pose proof (hist_idx_range h k) as Hr.
    destruct (proj2 (rd_is_Some (entries h) (hist_idx h k))) as [e Hrd]; [lia|].
    destruct (proj2 (wr_is_Some (entries h) (hist_idx h k) (Histent (ent_n e) None))) as [es Hes]; [lia|].
    unfold free_entry, set_entry. rewrite Hrd. cbn [mbind option_bind]. rewrite Hes. cbn [mbind option_bind].
    set (h1 := Hist (hb h) (he h) es).
    replace (Z.rem (hist_idx h k + 1) HISTSZ) with (hist_idx h1 (Datatypes.S k))
      by (unfold hist_idx, HISTSZ; simpl; dlia).
    assert (Z.of_nat k <> hist_len h) as Hlt.
    { intros Hkl. apply Hne. unfold hist_idx, hist_len, HISTSZ in *. dlia. }
    apply IH; try done; [exact (eq_trans (wr_zlen _ _ _ _ Hes) Hs)| |]; change (hist_len h1) with (hist_len h); lia.
Qed.

Lemma hist_clear_ok sz h :
  hist_ok sz h -> exists h', hist_clear h = Some h' /\ hist_ok sz h' /\ hist_list h' = [].
Proof.
  intros [Hb He Hs _]. unfold hist_clear.
  destruct (free_live_ok h 0 (Z.to_nat HISTSZ)) as (h' & Hf & Hs'); try done.
  { unfold hist_len, HISTSZ in *. simpl. dlia. }
  { pose proof (hist_len_range h). unfold HISTSZ in *. lia. }
  replace (hist_idx h 0) with (hb h) in Hf by (unfold hist_idx, HISTSZ in *; dlia).
  rewrite Hf. eexists. split; [done|]. split; [|done].
  constructor; simpl; try done. intros i [_ Hl]. unfold hist_len in Hl. simpl in Hl.
  rewrite Z.mod_0_l in Hl by done. unfold HISTSZ in *. dlia.
Qed.

(** Every row of the listing, for [len] commands numbered from 1. *)
Definition history_rows (c : Z) (h : psh_hist_t) : bytes :=
  concat ((fun i => history_row c (Z.of_nat i) (nul2sp <$> hist_at h i)) <$> seq 0 (Z.to_nat (hist_len h))).

Lemma history_print_ok sz h :
  hist_ok sz h -> 0 < hist_len h ->
  exists c, history_print h = Some (history_rows c h) /\ 10 ^ (c - 1) <= hist_len h < 10 ^ c.
Proof.
  intros Hok Hpos. pose proof (hist_len_range h) as Hr. destruct Hok as [Hb He Hs Hes].
  unfold history_print.
  assert ((if hb h <? he h then he h - hb h else HISTSZ - hb h + he h) = hist_len h) as ->.
  { unfold hist_len, HISTSZ in *. destruct (Z.ltb_spec (hb h) (he h)); dlia. }
  destruct (psh_log_ok 10 (hist_len h)) as (l & -> & Hl & Hlo & Hhi); [lia|unfold HISTSZ in *; lia|].
  cbn [mbind option_bind]. exists (l + 1). split.
  - unfold history_rows.
    destruct (for_loop_inv
      (fun i out => out = concat ((fun i => history_row (l + 1) (Z.of_nat i) (nul2sp <$> hist_at h i))
        <$> seq 0 (Z.to_nat i)))
      (fun i out => e ← rd (entries h) (Z.rem (hb h + i) HISTSZ); t ← psh_printhistent e;
         Some (out ++ history_row (l + 1) i t)) 0 (Z.to_nat (hist_len h)) []) as (out & Ho & ->); [done| |].
    + intros i out Hi ->.
      assert (Z.rem (hb h + i) HISTSZ = hist_idx h (Z.to_nat i)) as ->
        by (unfold hist_idx, HISTSZ in *; dlia).
      destruct (Hes (hist_idx h (Z.to_nat i))) as (e & Hrd & Hent).
      { apply hist_idx_live; [done|lia]. }
      rewrite Hrd. cbn [mbind option_bind]. rewrite (printhistent_ok sz e Hent). cbn [mbind option_bind].
      eexists. split; [done|]. replace (Z.to_nat (i + 1)) with (Datatypes.S (Z.to_nat i)) by lia.
      rewrite seq_S, fmap_app, concat_app. simpl. rewrite app_nil_r, Z2Nat.id by lia.
      unfold hist_at. rewrite Hrd. done.
    + rewrite Ho. f_equal. rewrite Z.add_0_l, Nat2Z.id. done.
  - replace (l + 1 - 1) with l by lia. destruct Hlo as [->|]; [|lia].
    rewrite Z.pow_0_r. lia.
Qed.

Lemma bool_decide_cons (x c : Z) l : bool_decide (x ∈ c :: l) = (c =? x) || bool_decide (x ∈ l).
Proof.
  destruct (Z.eqb_spec c x) as [->|Hne]; simpl.
  - apply bool_decide_eq_true_2. by left.
  - apply bool_decide_ext. rewrite elem_of_cons. split; [by intros [?|?]|by right].
Qed.

Lemma history_opts_ok opts clear help :
  Forall (fun c => c = 99 \/ c = 104) opts ->
  history_opts opts clear help = HoOk (clear || bool_decide (99 ∈ opts)) (help || bool_decide (104 ∈ opts)).
Proof.
  intros Hf. revert clear help. induction Hf as [|c opts Hc _ IH]; intros clear help; simpl.
  - by rewrite !orb_false_r.
  - rewrite !bool_decide_cons. destruct Hc as [-> | ->]; simpl; rewrite IH; simpl;
      by rewrite ?orb_true_r.
Qed.

Lemma history_opts_bad opts clear help :
  Exists (fun c => c <> 99 /\ c <> 104) opts -> history_opts opts clear help = HoFail.
Proof.
  intros He. revert clear help. induction He as [c opts [H1 H2]|c opts _ IH]; intros clear help; simpl.
  - by rewrite (proj2 (Z.eqb_neq _ _) H1), (proj2 (Z.eqb_neq _ _) H2).
  - by rewrite !IH, !Tauto.if_same.
Qed.

(** The [history] applet.  Without arguments it lists the remembered
    commands, oldest first, numbered from 1 in a column as wide as the last
    number.  With valid options it empties the history exactly when [-c] is
    among them, never reading a freed command afterwards, and with a bad option
    or an argument it fails and changes nothing. *)
Theorem history_applet sz h opts optind argc :
  hist_ok sz h -> 0 < hist_len h ->
  (exists c, psh_history (Some h) 1 opts optind = Some (EXIT_SUCCESS, Some h, history_rows c h) /\
     10 ^ (c - 1) <= hist_len h < 10 ^ c) /\
  (1 < argc -> Forall (fun c => c = 99 \/ c = 104) opts -> argc <= optind ->
     exists h', psh_history (Some h) argc opts optind = Some (EXIT_SUCCESS, Some h', []) /\
       hist_ok sz h' /\ hist_list h' = if decide (99 ∈ opts) then [] else hist_list h) /\
  (1 < argc -> Exists (fun c => c <> 99 /\ c <> 104) opts \/ optind < argc ->
     psh_history (Some h) argc opts optind = Some (EXIT_FAILURE, Some h, [])).
Proof.
  intros Hok Hpos. split_and!.
  - destruct (history_print_ok sz h Hok Hpos) as (c & Hp & Hc). exists c. split; [|done].
    simpl. by rewrite Hp.
  - intros Ha Hf Ho. cbn [psh_history]. rewrite (proj2 (Z.ltb_lt _ _)) by done.
    rewrite history_opts_ok by done. rewrite (proj2 (Z.ltb_ge _ _)) by done. simpl.
    destruct (decide (99 ∈ opts)) as [Hin|Hin].
    + rewrite bool_decide_eq_true_2 by done.
      destruct (hist_clear_ok sz h Hok) as (h' & -> & ? & ?). by exists h'.
    + rewrite bool_decide_eq_false_2 by done. by exists h.
  - intros Ha Hor. cbn [psh_history]. rewrite (proj2 (Z.ltb_lt _ _)) by done.
    destruct Hor as [Hbad|Hlt]; [by rewrite history_opts_bad|].
    rewrite (proj2 (Z.ltb_lt _ _)) by done. by case_match.
Qed.

Lemma history_applet_witness :
  psh_history (Some ex_hist) 1 [] 0 = Some (EXIT_SUCCESS, Some ex_hist, bstr "  1  ls" ++ [10]).
Proof.
  destruct (proj1 (history_applet 8 ex_hist [] 0 1 ex_hist_ok ltac:(by vm_compute)))
    as (c & Hp & Hc).
  rewrite Hp. change (hist_len ex_hist) with 1 in Hc.
  assert (c = 1) as ->; [|vm_compute; reflexivity].
  destruct (Z.le_gt_cases c 0).
  - destruct (Z.eq_dec c 0) as [->|]; [simpl in Hc; lia|].
    rewrite (Z.pow_neg_r 10 c) in Hc by lia. lia.
  - destruct (Z.le_gt_cases c 1); [lia|].
    pose proof (Z.pow_le_mono_r 10 1 (c - 1) ltac:(lia) ltac:(lia)). lia.
Defined.

(** ** One command line *)

Lemma words_from_ok cur s :
  nonul cur -> nonul s -> Forall nonul (words_from cur s).
Proof.
  revert cur. induction s as [|c s IH]; intros cur Hc Hs; simpl.
  - case_decide; by repeat constructor.
  - apply Forall_cons in Hs as [Hc0 Hs]. destruct (is_delim c).
    + case_decide; [|constructor; [done|]]; by apply IH; [constructor|].
    + apply IH; [|done]. apply Forall_app. by repeat constructor.
Qed.

Section shell.
Context {S : Type} `{FdLaws S}.
Context (run : Z -> list bytes -> shell S -> Z * shell S) (apps : applist) (mem : nat -> bool).
Context (k : Registry.apps) (apps_ok : registered apps k) (mem_ok : forall i, mem i = true).
Implicit Types (s : shell S).

(** Applets close what they open. *)
Definition applets_clean : Prop :=
  forall a argv s, same_fds (fd_get (sh_fds (snd (run a argv s)))) (fd_get (sh_fds s)).

Definition std_open (f : S) : Prop := forall i, 0 <= i <= 2 -> is_Some (fd_get f i).

Lemma findapp_total name : psh_findapp name apps = Some (lookup_app name k).
Proof.
  destruct apps_ok as [Hl Hnd]. unfold psh_findapp.
  apply findapp_loop_ok; [by eapply linked_size|done].
Qed.

(** Which entry a command name runs. *)
Definition command_of (arg0 : bytes) : option Z :=
  match lookup_app arg0 k with
  | Some a => Some a
  | None => if runs_file arg0 then lookup_app (bstr "/") k else None
  end.

Lemma find_command_ok arg0 : find_command apps arg0 = Some (command_of arg0).
Proof.
  unfold find_command, command_of. rewrite !findapp_total. cbn [mbind option_bind].
  by destruct (lookup_app arg0 k), (runs_file arg0).
Qed.

(** A known command runs once, redirected, and leaves the descriptors as [g0]. *)
Lemma dispatch_known g0 t r s arg0 argv a rs f0 :
  applets_clean -> dup2_works (S := S) -> owns g0 t r (sh_fds s) ->
  (rs = [] -> t = no_targets) -> reached rs f0 (sh_fds s) ->
  (forall i, 0 <= i <= 2 -> is_Some (g0 i)) -> command_of arg0 = Some a ->
  exists err s', dispatch run apps arg0 argv r s = Some (err, s') /\
    same_fds (fd_get (sh_fds s')) g0 /\ sh_status s' = err /\
    ((exists f, let s1 := sh_set_fds f (sh_clear_signals s) in
        fd_get f 0 = target_or (to_in t) (g0 0) /\ fd_get f 1 = target_or (to_out t) (g0 1) /\
        fd_get f 2 = target_or (to_err t) (g0 2) /\
        err = fst (run a argv s1) /\
        s' = sh_set_fds (sh_fds s') (sh_set_status err (snd (run a argv s1)))) \/
     err = PSH_UNKNOWN_CMD /\ refused g0 rs f0 /\
       s' = sh_set_fds (sh_fds s') (sh_set_status err (sh_clear_signals s))).
Proof.
  intros Hclean Hok Ho Ht Hre Hopen Hcmd. unfold dispatch. rewrite find_command_ok, Hcmd. cbn [mbind option_bind].
  change (sh_fds (sh_clear_signals s)) with (sh_fds s).
  destruct (streamRedirect_ok g0 t r (sh_fds s) Ho Hopen) as (e & r1 & f1 & -> & Hr1 & Href).
  cbn [mbind option_bind]. destruct (Z.eqb_spec e 0) as [->|He].
  - cbn [Z.eqb]. set (s1 := sh_set_fds f1 (sh_clear_signals s)).
    destruct (run a argv s1) as [err s2] eqn:Er.
    pose proof (Hclean a argv s1) as Hc. rewrite Er in Hc. simpl in Hc.
    destruct (streamRestore_ok g0 t _ _ _ r1 (sh_fds s2) Hok (redirected_same _ _ _ _ _ _ _ _ Hr1 Hc))
      as (r3 & f3 & Hres & Hf3).
    change (sh_fds (sh_set_status err s2)) with (sh_fds s2). rewrite Hres. cbn [mbind option_bind].
    eexists err, _. split; [reflexivity|]. split; [done|]. split; [done|]. left.
    exists f1. fold s1. rewrite Er.
    destruct (redirected_streams g0 t r1 f1) as (G0 & G1 & G2); [|done|].
    { eapply redirected_mono; [exact Hr1|..]; intros p Hp; by apply Hp. }
    split_and!; done.
  - change (PSH_UNKNOWN_CMD =? 0) with false. cbv iota.
    change (sh_fds (sh_set_status PSH_UNKNOWN_CMD (sh_set_fds f1 (sh_clear_signals s)))) with f1.
    destruct (streamRestore_ok g0 t _ _ _ r1 f1 Hok Hr1) as (r3 & f3 & Hres & Hf3).
    rewrite Hres. cbn [mbind option_bind].
    eexists _, _. split; [reflexivity|]. split; [done|]. split; [done|]. right.
    split_and!; [done| |done]. by destruct (Href rs f0 Hok Ht Hre).
Qed.

(** Everything before the dispatch of a line that has words. *)
Lemma run_line_prepare sz line rest s :
  hist_ok sz (sh_hist s) -> nonul line -> zlen (line ++ 0 :: rest) = sz + 1 -> words line <> [] ->
  let '(ws, rs, ok) := redir_spec (words line) in
  exists line' h err f r, cut_of line' line /\ hist_ok sz h /\
    hist_list h = record_spec (hist_list (sh_hist s)) line' /\
    let s1 := sh_set_fds f (sh_set_hist h s) in
    ((err < 0 /\ same_fds (fd_get f) (fd_get (sh_fds s)) /\
        (ok = true -> refused (fd_get (sh_fds s)) rs (sh_fds s)) /\
        run_line run apps mem (zlen line) (line ++ 0 :: rest) s = Some (inr (0, s1))) \/
     (err = 0 /\ ok = true /\ owns (fd_get (sh_fds s)) (foldl apply_request no_targets rs) r f /\
        reached rs (sh_fds s) f /\
        run_line run apps mem (zlen line) (line ++ 0 :: rest) s =
          match ws with
          | [] => Some (inr (0, s1))
          | arg0 :: _ => '(e, s') ← dispatch run apps arg0 ws r s1; Some (inr (e, s'))
          end)).
Proof.
  intros Hh Hn Hlen Hw.
  destruct (parsecmd_ok mem line rest mem_ok Hn) as (line' & argv & Hp & Hcut & Hargs).
  rewrite decide_False in Hp by done.
  pose proof (Forall2_length _ _ _ Hcut) as Hll.
  destruct (hist_record_ok sz (sh_hist s) (line' ++ 0 :: rest) (zlen line) Hh) as (h & Hrec & Hh' & Hlist).
  { autorewrite with zlen in *. pose proof (zlen_nonneg line). pose proof (zlen_nonneg rest). lia. }
  { autorewrite with zlen in *. unfold zlen in *. lia. }
  assert (take (Z.to_nat (zlen line)) (line' ++ 0 :: rest) = line') as Htk.
  { unfold zlen. rewrite Nat2Z.id, <-Hll. apply take_app_length. }
  rewrite Htk in Hlist.
  assert (Forall nonul (words line)) as Hnw by (by apply words_from_ok; [constructor|]).
  pose proof (parseRedirections_ok (words line) (sh_fds s) Hnw) as Hred.
  destruct (redir_spec (words line)) as [[ws rs] ok].
  destruct Hred as (err & argv' & r & f & Hpr & Hor).
  exists line', h, err, f, r. split; [done|]. split; [done|]. split; [done|]. cbv zeta.
  unfold run_line. rewrite Hp. cbn [mbind option_bind]. change (0 <? 0) with false. cbv iota.
  rewrite Hrec. cbn [mbind option_bind]. rewrite Hargs.
  change (sh_fds (sh_set_hist h s)) with (sh_fds s). rewrite Hpr. cbn [mbind option_bind].
  destruct Hor as [(-> & -> & -> & Ho & Hre)|(Hneg & Hsame & Href)].
  - right. done.
  - left. split_and!; [done|done|done|]. by rewrite (proj2 (Z.ltb_lt _ _)).
Qed.

(** The outcome of a line that names the applet [a]: it ran exactly once, with
    the words that are not redirections and its streams redirected, on a shell
    that had recorded the line; or the line asks for redirections, the system
    refused one of them, and all that happened is that the line was recorded and
    the status set (it is left alone when a file could not be opened).
    Descriptors are as before in every case. *)
Definition ran sz line arg0 args rs a s (err : Z) s' : Prop :=
  same_fds (fd_get (sh_fds s')) (fd_get (sh_fds s)) /\
  exists line' h, cut_of line' line /\ hist_ok sz h /\
    hist_list h = record_spec (hist_list (sh_hist s)) line' /\
    ((exists f, let t := foldl apply_request no_targets rs in
        let s1 := sh_set_fds f (sh_clear_signals (sh_set_hist h s)) in
        fd_get f 0 = target_or (to_in t) (fd_get (sh_fds s) 0) /\
        fd_get f 1 = target_or (to_out t) (fd_get (sh_fds s) 1) /\
        fd_get f 2 = target_or (to_err t) (fd_get (sh_fds s) 2) /\
        err = fst (run a (arg0 :: args) s1) /\
        s' = sh_set_fds (sh_fds s') (sh_set_status err (snd (run a (arg0 :: args) s1)))) \/
     (refused (fd_get (sh_fds s)) rs (sh_fds s) /\
      (err = 0 /\ s' = sh_set_fds (sh_fds s') (sh_set_hist h s) \/
       err = PSH_UNKNOWN_CMD /\
         s' = sh_set_fds (sh_fds s') (sh_set_status err (sh_clear_signals (sh_set_hist h s)))))).

Lemma run_line_known sz line rest s arg0 args rs a :
  applets_clean -> dup2_works (S := S) -> std_open (sh_fds s) ->
  hist_ok sz (sh_hist s) -> nonul line -> zlen (line ++ 0 :: rest) = sz + 1 ->
  redir_spec (words line) = (arg0 :: args, rs, true) -> command_of arg0 = Some a ->
  exists err s', run_line run apps mem (zlen line) (line ++ 0 :: rest) s = Some (inr (err, s')) /\
    ran sz line arg0 args rs a s err s'.
Proof.
  intros Hclean Hok Hopen Hh Hn Hlen Hspec Hcmd.
  assert (words line <> []) as Hw by (intros Hw; by rewrite Hw in Hspec).
  pose proof (run_line_prepare sz line rest s Hh Hn Hlen Hw) as Hp. rewrite Hspec in Hp.
  destruct Hp as (line' & h & err & f & r & Hcut & Hh' & Hlist & [(_ & Hsame & Href & ->)|(-> & _ & Ho & Hre & ->)]).
  - eexists _, _. split; [reflexivity|]. split; [done|].
    exists line', h. split_and!; try done. right. split; [by apply Href|]. by left.
  - destruct (dispatch_known (fd_get (sh_fds s)) (foldl apply_request no_targets rs) r
      (sh_set_fds f (sh_set_hist h s)) arg0 (arg0 :: args) a rs (sh_fds s) Hclean Hok Ho
      (fun E => f_equal _ E) Hre Hopen Hcmd)
      as (err & s' & -> & Hfds & Hst & Hor).
    cbn [mbind option_bind]. eexists _, _. split; [reflexivity|]. split; [done|].
    exists line', h. split_and!; try done. destruct Hor as [(f1 & G0 & G1 & G2 & He & Hs')|(-> & Href & Hs')].
    + left. exists f1. split_and!; done.
    + right. split; [done|]. right. done.
Qed.

(** Redirections of an unknown command leak.  When a line opens its
    redirections but names no applet (or consists of redirections only), the
    descriptors they opened are still open when the next prompt appears: each
    redirected stream's file is open under a descriptor that was free before. *)
Theorem unknown_command_leaks sz line rest s ws rs :
  hist_ok sz (sh_hist s) -> nonul line -> zlen (line ++ 0 :: rest) = sz + 1 ->
  redir_spec (words line) = (ws, rs, true) -> rs <> [] ->
  match ws with [] => True | arg0 :: _ => command_of arg0 = None end ->
  exists err s', run_line run apps mem (zlen line) (line ++ 0 :: rest) s = Some (inr (err, s')) /\
    (same_fds (fd_get (sh_fds s')) (fd_get (sh_fds s)) (* a file could not be opened *) \/
     let t := foldl apply_request no_targets rs in
     forall d, d ∈ [to_in t; to_out t; to_err t] -> is_Some d ->
       exists i, fd_get (sh_fds s) i = None /\ fd_get (sh_fds s') i = d).
Proof.
  intros Hh Hn Hlen Hspec Hrs Hcmd.
  assert (words line <> []) as Hw by (intros Hw; rewrite Hw in Hspec; by injection Hspec as <- <-).
  pose proof (run_line_prepare sz line rest s Hh Hn Hlen Hw) as Hp. rewrite Hspec in Hp.
  destruct Hp as (line' & h & err & f & r & _ & _ & _ & [(_ & Hsame & _ & ->)|(_ & _ & Ho & _ & ->)]).
  - eexists _, _. split; [reflexivity|]. by left.
  - assert (exists err s', match ws with
        | [] => Some (inr (0, sh_set_fds f (sh_set_hist h s)))
        | arg0 :: _ => '(e, s') ← dispatch run apps arg0 ws r (sh_set_fds f (sh_set_hist h s));
            Some (inr (A := Z * shell S) (e, s'))
        end = Some (inr (err, s')) /\ sh_fds s' = f) as (e & s' & -> & Hf).
    { destruct ws as [|arg0 ws]; [by eexists _, _|].
      unfold dispatch. rewrite find_command_ok, Hcmd. cbn [mbind option_bind]. by eexists _, _. }
    eexists _, _. split; [reflexivity|]. right. intros t d Hd [v Hv]. subst d. rewrite Hf.
    destruct Ho as (_ & a & b & c & _ & Ho). fold t in Ho.
    rewrite !elem_of_cons in Hd. destruct Hd as [Hd|[Hd|[Hd|Hd]]]; [..|by apply elem_of_nil in Hd].
    + rewrite <-Hd in Ho. destruct (own3_slot1 _ _ _ _ _ _ _ _ Ho) as (_ & ? & ?). by exists a.
    + apply own3_swap12 in Ho. rewrite <-Hd in Ho.
      destruct (own3_slot1 _ _ _ _ _ _ _ _ Ho) as (_ & ? & ?). by exists b.
    + apply own3_swap23, own3_swap12 in Ho. rewrite <-Hd in Ho.
      destruct (own3_slot1 _ _ _ _ _ _ _ _ Ho) as (_ & ? & ?). by exists c.
Qed.

(** *** From the keys to the command *)

Context (CMDSZ ws_col : Z) (ws_pos : 0 < ws_col) (size_pos : 0 < CMDSZ)
  (resolve_path : bytes -> Z + bytes) (splitname : bytes -> bytes * bytes)
  (listing : bytes -> option (list dirent)) (qsort : list bytes -> list bytes)
  (mem_print char_signed : bool).

(** The well-formed shell between two commands. *)
Definition shell_ok s : Prop :=
  hist_ok CMDSZ (sh_hist s) /\ zlen (sh_clip s) = CMDSZ /\ 0 <= sh_clipLen s <= CMDSZ /\
  std_open (sh_fds s).

(** C5: end to end.  A user of a running shell who types a line of printable
    characters and Enter, on a line that names an applet and whose redirections
    all have a file, has the line recorded and that applet run exactly once, with
    the typed words as [argv] and its redirections applied.  Only a line with
    redirections can fail to run: when the system refuses to open one of its
    files or to duplicate an open descriptor, with at most nine descriptors of
    the shell's table changed; then nothing else happens than that the line is
    recorded and the status set.  Afterwards the shell waits for the next line
    with the descriptors it had.  The terminal can be switched to raw mode, the
    standard descriptors are open, memory suffices, the applets close what they
    open, and [dup2] of an open descriptor works. *)
Theorem typed_command_runs s err0 junk jbuff raw orig cs arg0 args rs a :
  shell_ok s -> sh_exit s = 0 -> zlen junk = CMDSZ + 1 -> zlen jbuff = 8 -> 0 <= raw -> 0 <= orig ->
  applets_clean -> dup2_works (S := S) ->
  Forall (fun c => is_control char_signed c = false) cs ->
  redir_spec (words (typed CMDSZ cs)) = (arg0 :: args, rs, true) -> command_of arg0 = Some a ->
  exists x err s',
    run_loop run apps mem CMDSZ ws_col resolve_path splitname listing qsort mem_print char_signed
      [Round true true raw orig junk jbuff ((Some <$> cs) ++ [Some 13])] err0 s = Some (RunWait s') /\
    r_hist x = sh_hist s /\ ran CMDSZ (typed CMDSZ cs) arg0 args rs a (sh_of_rdl x s) err s'.
Proof.
  intros (Hh & Hc & Hcl & Hopen) Hx Hj Hjb Hraw Horig Hclean Hok Hcs Hspec Hcmd.
  destruct (typed_line_ok CMDSZ ws_col ws_pos resolve_path splitname listing qsort mem mem_print
    char_signed (sh_hist s) junk jbuff (sh_clip s) (sh_clipLen s) (sh_newline s) (sh_exit s) raw orig cs)
    as (rest & x & Hrd & Hix & Hhx & _ & Hlen); [done..|].
  assert (nonul (typed CMDSZ cs)) as Hn.
  { apply Forall_take. eapply Forall_impl; [exact Hcs|]. intros c Hctl ->. by destruct char_signed. }
  destruct (run_line_known CMDSZ (typed CMDSZ cs) rest (sh_of_rdl x s) arg0 args rs a)
    as (err & s' & Hrun & Hran); try done.
  { change (hist_ok CMDSZ (r_hist x)). by rewrite Hhx. }
  exists x, err, s'. cbn [run_loop rn_fg rn_mem rn_raw rn_orig rn_junk rn_jbuff rn_keys].
  rewrite Hx at 1. cbn [Z.eqb negb orb]. rewrite Hrd. cbn [mbind option_bind]. rewrite Hrun.
  cbn [mbind option_bind]. done.
Qed.
End shell.

(** ** A concrete shell *)

(** [exit] and [psh] are registered; applets print their words. *)
Definition ex_run (a : Z) (argv : list bytes) (s : shell ftab) : Z * shell ftab :=
  (0, sh_print (concat argv) s).

Definition ex_shell : shell ftab :=
  Shell ex_hist (replicate 8 0) 0 0 0 0 0 0 0 ex_fds [].

Lemma ex_registered : registered ex_applist [(1, bstr "exit"); (2, bstr "psh")].
Proof.
  split; [|by apply (bool_decide_unpack _)].
  split; [done|]. exists (Some 2). split; [done|]. split; [done|]. by exists None.
Qed.

Lemma ex_std_open : std_open ex_fds.
Proof. intros i Hi. assert (i = 0 \/ i = 1 \/ i = 2) as [->|[->| ->]] by lia; by eexists. Qed.

(** The user types [psh >out]. *)
Lemma typed_command_runs_witness :
  exists x err s',
    run_loop ex_run ex_applist (fun _ => true) 8 80 (fun p => inr p) (fun p => (p, [])) ex_listing id
      true false [Round true true 0 0 (replicate 9 7) (replicate 8 0) ((Some <$> bstr "psh >out") ++ [Some 13])]
      0 ex_shell = Some (RunWait s') /\
    r_hist x = ex_hist /\
    ran ex_run 8 (bstr "psh >out") (bstr "psh") [] [(MOut, [O_WRONLY; O_CREAT; O_TRUNC], bstr "out")] 2
      (sh_of_rdl x ex_shell) err s'.
Proof.
  apply (typed_command_runs ex_run ex_applist (fun _ => true) [(1, bstr "exit"); (2, bstr "psh")]
    ex_registered (fun _ => eq_refl) 8 80 eq_refl eq_refl (fun p => inr p) (fun p => (p, [])) ex_listing id
    true false ex_shell 0 (replicate 9 7) (replicate 8 0) 0 0 (bstr "psh >out")); try done.
  - split; [apply ex_hist_ok|]. split; [done|]. split; [done|apply ex_std_open].
  - exact ftab_dup2_works.
  - repeat constructor.
Defined.

(** [foo >out] with no applet [foo] (and no [/]). *)
Lemma unknown_command_leaks_witness :
  exists err s', run_line ex_run ex_applist (fun _ => true) 8 (bstr "foo >out" ++ [0]) ex_shell =
      Some (inr (err, s')) /\
    (same_fds (fd_get (sh_fds s')) (fd_get ex_fds) \/
     exists i, fd_get ex_fds i = None /\ fd_get (sh_fds s') i = Some ex_out).
Proof.
  destruct (unknown_command_leaks ex_run ex_applist (fun _ => true) [(1, bstr "exit"); (2, bstr "psh")]
    ex_registered (fun _ => eq_refl) 8 (bstr "foo >out") [] ex_shell [bstr "foo"]
    [(MOut, [O_WRONLY; O_CREAT; O_TRUNC], bstr "out")]) as (err & s' & Hrun & Hor);
    [apply ex_hist_ok|by apply (bool_decide_unpack _)|done|done|done|done|].
  exists err, s'. split; [exact Hrun|]. destruct Hor as [Hs|Hl]; [by left|right].
  apply (Hl (Some ex_out)); [right; left|by eexists].
Defined.
