(* ===== verification/Script.v ===== *)
(** * Scripts and program start ([psh_runscript], [psh_pshapp] of
    [psh/pshapp/pshapp.c]; [main] of [psh/psh.c])

    What a script does to the world (spawning programs, opening the terminal,
    running applets) is a parameter on a world [W]; the interpretation of the
    lines and the control flow are the model. *)

From S2P Require Import Prelude History Parse Redir Shell.

Definition SCRIPT_MAGIC : bytes := bstr ":{}:".
Definition scriptCmds : list bytes := bstr <$> ["export"; "unset"]%string.
Definition PSH_SCRIPT_NOTOPENED : Z := -65536.
Definition PSH_RUNSCRIPT_RETRIES : nat := 300.

Definition isspace (c : Z) : bool := (c =? 32) || ((9 <=? c) && (c <=? 13)).

Section script.
Context {W : Type}.
(** [vfork] and [execv]: the pid, or a negative number; [waitpid]; the terminal;
    running the applet of a name ([None] when it is not registered). *)
Context (spawn : list bytes -> W -> Z * W) (waitpid : Z -> W -> Z * W)
  (ttyopen : bytes -> W -> Z * W) (run_app : list bytes -> W -> option W).
Context (mem : nat -> bool).

(** The state of the script loop: [err] and the world. *)
Abbreviation sst := (Z * W)%type.

(** Lines that start with X, W or T. *)
Definition script_exec (line : bytes) (w : W) : option sst :=
  c0 ← rd line 0;
  '(err, l, argv) ← psh_parsecmd mem (drop 1 line);
  let args := arg_at l <$> argv in
  if err <? 0 then Some (err, w)
  else if c0 =? 84 then arg0 ← rd args 0; Some (ttyopen arg0 w)
  else
    let '(pid, w) := spawn args w in
    if pid <? 0 then Some (pid, w)
    else if c0 =? 87 then Some (waitpid pid w)
    else Some (err, w).

(** The commands psh runs itself: the loop over [scriptCmds].  [line] is the
    whole buffer, [lineLen] the length of the line in it. *)
Fixpoint script_cmds (cmds : list bytes) (line : bytes) (lineLen err : Z) (w : W) : option sst :=
  match cmds with
  | [] => Some (err, w)
  | cmd :: cmds =>
      let len := zlen cmd in
      if lineLen <? len then script_cmds cmds line lineLen err w
      else
        c ← rd line len;
        if negb (c =? 0) && negb (isspace c) && negb (strncmp_eq line cmd (length cmd)) then
          script_cmds cmds line lineLen err w
        else
          '(err, l, argv) ← psh_parsecmd mem line;
          if err <? 0 then Some (err, w)
          else Some (err, default w (run_app (arg_at l <$> argv) w))
  end.

(** Line [i]: [None] in the second component goes on with the loop, [Some e]
    breaks with [err = e].  [l] is what [getline] read. *)
Definition script_line (i : Z) (l : bytes) (err : Z) (w : W) : option (sst * bool) :=
  let lineLen := zlen l in
  last ← rd l (lineLen - 1);
  let line := if last =? 10 then take (Z.to_nat (lineLen - 1)) l else l in
  let lineLen := zlen line in
  (* the buffer is NUL-terminated *)
  if (i =? 1) && negb (strcmp (cstr line) SCRIPT_MAGIC =? 0) then Some ((- EINVAL, w), true)
  else if lineLen =? 0 then Some ((err, w), false)
  else
    c0 ← rd line 0;
    if c0 =? 35 then Some ((err, w), false)
    else
      '(err, w) ← (if (c0 =? 88) || (c0 =? 87) || (c0 =? 84) then script_exec (line ++ [0]) w
                   else script_cmds scriptCmds (line ++ [0]) lineLen err w);
      Some ((err, w), err <? 0).

Fixpoint script_loop (i : Z) (lines : list bytes) (err : Z) (w : W) : option sst :=
  match lines with
  | [] => Some (err, w)
  | l :: lines =>
      '((err, w), stop) ← script_line i l err w;
      if stop : bool then Some (err, w) else script_loop (i + 1) lines err w
  end.

(** [fopen], tried again while it fails: [None] when it never succeeds. *)
Fixpoint open_retry (k : nat) (opens : list (option (list bytes))) : option (list bytes) :=
  match opens with
  | Some lines :: _ => Some lines
  | None :: opens => match k with O => None | Datatypes.S k => open_retry k opens end
  | [] => None
  end.

(** [psh_runscript]: [opens] are the outcomes of the [fopen] calls; a success
    delivers the lines of the file. *)
Definition psh_runscript (opens : list (option (list bytes))) (w : W) : option sst :=
  match open_retry PSH_RUNSCRIPT_RETRIES opens with
  | None => Some (PSH_SCRIPT_NOTOPENED, w)
  | Some lines => script_loop 1 lines 0 w
  end.

(** ** [psh_pshapp] *)

(** One result of [getopt(argc, argv, "t:i:h")] and its argument. *)
Record optres := Optres { o_char : Z; o_arg : bytes }.

(** The terminal and the script chosen, or [None] for the usage text. *)
Fixpoint pshapp_opts (opts : list optres) (console : bytes) (path : option bytes)
    : option (bytes * option bytes) :=
  match opts with
  | [] => Some (console, path)
  | o :: opts =>
      if o_char o =? 116 then pshapp_opts opts (o_arg o) path
      else if o_char o =? 105 then pshapp_opts opts console (Some (o_arg o))
      else None
  end.

(** [run] is [psh_run], [opens] the outcomes of opening the script. *)
Definition psh_pshapp (PATH_CONSOLE : bytes) (argv : list bytes) (opts : list optres) (optind : Z)
    (opens : bytes -> list (option (list bytes))) (clockSync : W -> W) (run : bytes -> W -> Z * W)
    (w : W) : option sst :=
  let interactive (console : bytes) :=
    let '(err, w) := run console (clockSync w) in
    Some (if err <? 0 then EXIT_FAILURE else EXIT_SUCCESS, w) in
  if 1 <? zlen argv then
    match pshapp_opts opts PATH_CONSOLE None with
    | None => Some (EXIT_SUCCESS, w)
    | Some (console, path) =>
        let path := if optind <? zlen argv then rd argv optind else path in
        match path with
        | Some path =>
            '(err, w') ← psh_runscript (opens path) w;
            if negb (err =? PSH_SCRIPT_NOTOPENED) then
              Some (if err <? 0 then EXIT_FAILURE else EXIT_SUCCESS, w')
            else interactive console
        | None => interactive console
        end
    end
  else interactive PATH_CONSOLE.
End script.

(** ** [main] *)

Section main.
Context {W : Type}.
(** Finding and running the applet of a name; [None] when there is none. *)
Context (run_app : bytes -> W -> option (Z * W)).

(** [while (app->run(argc, argv) != 0);]: whether it has ended after [fuel] repetitions. *)
Fixpoint auth_loop (fuel : nat) (w : W) : bool * W :=
  match run_app (bstr "auth") w with
  | None => (true, w)
  | Some (err, w) =>
      if err =? 0 then (true, w)
      else match fuel with O => (false, w) | Datatypes.S fuel => auth_loop fuel w end
  end.

(** The [do] loop, from the base name of [argv[0]]; without a status it is still
    running after [fuel] sessions. *)
Fixpoint main_loop (fuel : nat) (base : bytes) (first_shell : bool) (w : W) : option Z * W :=
  let login := bool_decide (base = bstr "pshlogin") in
  let '(passed, w) := if login then auth_loop fuel w else (true, w) in
  if negb passed then (None, w)
  else
    match run_app base w with
    | None => (Some PSH_UNKNOWN_CMD, w)
    | Some (err, w) =>
        if first_shell && login then
          match fuel with O => (None, w) | Datatypes.S fuel => main_loop fuel base first_shell w end
        else (Some (if err <? 0 then 1 else err), w)
    end.
End main.

(** ** Reference: what the lines of a script mean *)

Inductive item :=
  | Skip
  | Bad
  | Spawn (wait : bool) (args : list bytes)
  | Tty (dev : bytes)
  | Applet (args : list bytes).

Definition words_item (f : bytes -> list bytes -> item) (s : bytes) : item :=
  match words s with [] => Bad | a :: ws => f a (a :: ws) end.

(** A line is handed to the applets when its character at the length of a
    reserved command is white space, or the line ends there, or the line starts
    with the command. *)
Definition reserved_by (line cmd : bytes) : bool :=
  (length cmd <=? length line)%nat &&
  (match line !! length cmd with None => true | Some c => isspace c end ||
   bool_decide (cmd `prefix_of` line)).
Definition reserved (line : bytes) : bool := existsb (reserved_by line) scriptCmds.

Definition line_item (line : bytes) : item :=
  match line with
  | [] => Skip
  | c :: rest =>
      if c =? 35 then Skip
      else if c =? 84 then words_item (fun dev _ => Tty dev) rest
      else if (c =? 88) || (c =? 87) then words_item (fun _ ws => Spawn (c =? 87) ws) rest
      else if reserved line then words_item (fun _ ws => Applet ws) line
      else Skip
  end.

(** A line without its newline. *)
Definition chomp (l : bytes) : bytes := default l (s ← last l; if s =? 10 then Some (take (length l - 1) l) else None).

Definition script_items (lines : list bytes) : list item :=
  match chomp <$> lines with
  | [] => []
  | l :: ls => (if decide (l = SCRIPT_MAGIC) then Skip else Bad) :: (line_item <$> ls)
  end.

Definition script_text (lines : list bytes) : Prop := Forall (fun l => l <> [] /\ nonul l) lines.

Section meaning.
Context {W : Type}.
Context (spawn : list bytes -> W -> Z * W) (waitpid : Z -> W -> Z * W)
  (ttyopen : bytes -> W -> Z * W) (run_app : list bytes -> W -> option W).
Context (mem : nat -> bool) (Hmem : forall k, mem k = true).

Definition run_item (it : item) (err : Z) (w : W) : Z * W :=
  match it with
  | Skip => (err, w)
  | Bad => (- EINVAL, w)
  | Tty dev => ttyopen dev w
  | Spawn wait args =>
      let '(pid, w) := spawn args w in
      if pid <? 0 then (pid, w) else if wait then waitpid pid w else (0, w)
  | Applet args => (0, default w (run_app args w))
  end.

(** The items in order, up to the first that fails. *)
Fixpoint run_items (its : list item) (err : Z) (w : W) : Z * W :=
  match its with
  | [] => (err, w)
  | it :: its =>
      let '(err, w) := run_item it err w in
      if err <? 0 then (err, w) else run_items its err w
  end.

Lemma strncmp_prefix (cmd line : bytes) :
  nonul cmd -> (length cmd <= length line)%nat ->
  strncmp_eq (line ++ [0]) cmd (length cmd) = bool_decide (cmd `prefix_of` line).
Proof.
  intros Hn. revert line. induction Hn as [|c cmd Hc Hn IH]; intros line Hl.
  - symmetry. by apply bool_decide_eq_true, prefix_nil.
  - destruct line as [|x line]; [simpl in Hl; lia|]. simpl in *.
    destruct (Z.eqb_spec x c) as [->|Hne]; simpl.
    + destruct (Z.eqb_spec c 0); [done|]. simpl. rewrite IH by lia.
      apply bool_decide_ext. split; [apply prefix_cons|apply prefix_cons_inv_2].
    + symmetry. apply bool_decide_eq_false. by intros ->%prefix_cons_inv_1.
Qed.

Lemma script_exec_item c rest err w :
  nonul (c :: rest) -> (c = 88 \/ c = 87 \/ c = 84) ->
  script_exec spawn waitpid ttyopen mem ((c :: rest) ++ [0]) w =
    Some (run_item (line_item (c :: rest)) err w).
Proof.
  intros Hn Hc. inversion_clear Hn as [|? ? _ Hr].
  destruct (parsecmd_ok mem rest [] Hmem Hr) as (l & argv & Hp & _ & Ha).
  unfold script_exec. simpl. rewrite drop_0, Hp. simpl. rewrite Ha.
  destruct Hc as [->|[->| ->]]; simpl; unfold words_item;
    (destruct (words rest) as [|a ws]; simpl; [reflexivity|]); try reflexivity;
    destruct (spawn _ w) as [pid w']; by destruct (pid <? 0).
Qed.

Lemma script_cmds_item cmds line err w :
  nonul line -> Forall nonul cmds ->
  script_cmds run_app mem cmds (line ++ [0]) (zlen line) err w =
    Some (if existsb (reserved_by line) cmds
          then run_item (words_item (fun _ ws => Applet ws) line) err w else (err, w)).
Proof.
  intros Hn Hc. induction Hc as [|cmd cmds Hcmd _ IH]; [reflexivity|]. cbn [script_cmds existsb].
  unfold reserved_by at 1.
  destruct (Nat.leb_spec (length cmd) (length line)) as [Hl|Hl]; simpl.
  2:{ destruct (Z.ltb_spec (zlen line) (zlen cmd)); [|unfold zlen in *; lia]. apply IH. }
  destruct (Z.ltb_spec (zlen line) (zlen cmd)); [unfold zlen in *; lia|].
  rewrite strncmp_prefix by done.
  assert (rd (line ++ [0]) (zlen cmd) = Some (default 0 (line !! length cmd))) as ->.
  { unfold rd, zlen. destruct (Z.leb_spec 0 (Z.of_nat (length cmd))); [|lia].
    rewrite Nat2Z.id. destruct (line !! length cmd) as [x|] eqn:E; simpl.
    - rewrite lookup_app_l; [done|]. by apply lookup_lt_Some in E.
    - apply lookup_ge_None in E. rewrite lookup_app_r by done.
      by replace (length cmd - length line)%nat with 0%nat by lia. }
  simpl.
  assert (negb (default 0 (line !! length cmd) =? 0) && negb (isspace (default 0 (line !! length cmd)))
    = negb match line !! length cmd with None => true | Some c => isspace c end) as ->.
  { destruct (line !! length cmd) as [x|] eqn:E; simpl; [|done].
    destruct (Z.eqb_spec x 0) as [->|]; [|done].
    exfalso. eapply Forall_lookup_1 in Hn; [|exact E]. done. }
  rewrite <-negb_orb. destruct (_ || bool_decide _); simpl; [|apply IH].
  destruct (parsecmd_ok mem line [] Hmem Hn) as (l & argv & -> & _ & Ha). simpl.
  rewrite Ha. unfold words_item. by destruct (words line).
Qed.

Lemma cstr_nonul s : nonul s -> cstr s = s.
Proof. induction 1 as [|c s Hc _ IH]; simpl; [done|]. destruct (Z.eqb_spec c 0); [done|]. by rewrite IH. Qed.

Lemma chomp_snoc l c : chomp (l ++ [c]) = if c =? 10 then l else l ++ [c].
Proof.
  unfold chomp. rewrite last_snoc. simpl. destruct (c =? 10); simpl; [|done].
  rewrite length_app. simpl. replace (length l + 1 - 1)%nat with (length l + 0)%nat by lia.
  rewrite take_app_add. simpl. by rewrite app_nil_r.
Qed.

Lemma run_item_skip_neg it err w :
  0 <= err -> (it = Skip -> (fst (run_item it err w) <? 0) = false).
Proof. intros He ->. simpl. by apply Z.ltb_ge. Qed.

Lemma chomped l : l <> [] -> nonul l ->
  (last ← rd l (zlen l - 1);
   Some (if last =? 10 then take (Z.to_nat (zlen l - 1)) l else l)) = Some (chomp l) /\
  nonul (chomp l).
Proof.
  intros Hl Hn. destruct (exists_last Hl) as (s & c & ->). apply nonul_app in Hn as [Hs Hc].
  rewrite chomp_snoc. rewrite (rd_app s c []) by zlia. simpl.
  replace (Z.to_nat (zlen (s ++ [c]) - 1)) with (Z.to_nat (zlen s)) by zlia.
  rewrite take_zlen_app. split; [done|]. destruct (c =? 10); [done|]. apply nonul_app; by split.
Qed.

Lemma script_cmds_nonul : Forall nonul scriptCmds.
Proof. repeat constructor; discriminate. Qed.

#[local] Opaque scriptCmds.

Lemma script_line_item i l err w :
  l <> [] -> nonul l -> 0 <= err ->
  script_line spawn waitpid ttyopen run_app mem i l err w =
    Some (if (i =? 1) && negb (bool_decide (chomp l = SCRIPT_MAGIC)) then ((- EINVAL, w), true)
          else let r := run_item (line_item (chomp l)) err w in (r, r.1 <? 0)).
Proof.
  intros Hl Hn He. destruct (chomped l Hl Hn) as [Hch Hcn].
  unfold script_line. destruct (rd l (zlen l - 1)) as [last|]; [|done]. simpl in *.
  apply (inj Some) in Hch. rewrite Hch.
  rewrite cstr_nonul by done.
  assert ((strcmp (chomp l) SCRIPT_MAGIC =? 0) = bool_decide (chomp l = SCRIPT_MAGIC)) as ->.
  { apply eq_bool_prop_intro. rewrite bool_decide_spec, <-strcmp_eq, Is_true_true. apply Z.eqb_eq. }
  destruct (_ && _); [done|].
  destruct (chomp l) as [|c rest] eqn:E.
  { simpl. by rewrite (proj2 (Z.ltb_ge _ _) He). }
  destruct (Z.eqb_spec (zlen (c :: rest)) 0); [zlia|].
  cbn [rd Z.leb Z.compare Z.to_nat lookup]. simpl.
  destruct (Z.eqb_spec c 35) as [->|H35]; simpl.
  { by rewrite (proj2 (Z.ltb_ge _ _) He). }
  destruct ((c =? 88) || (c =? 87) || (c =? 84)) eqn:Ek; simpl.
  - assert (c = 88 \/ c = 87 \/ c = 84) as Hc.
    { destruct (Z.eqb_spec c 88), (Z.eqb_spec c 87), (Z.eqb_spec c 84); auto; done. }
    pose proof (script_exec_item c rest err w Hcn Hc) as He'. simpl in He'. rewrite He'. simpl.
    destruct (Z.eqb_spec c 35); [done|].
    by destruct (run_item _ err w).
  - apply orb_false_iff in Ek as [[E88 E87]%orb_false_iff E84]. rewrite E84, E88, E87. simpl.
    pose proof (script_cmds_item scriptCmds (c :: rest) err w Hcn script_cmds_nonul) as Hs.
    unfold reserved. simpl in Hs. rewrite Hs. simpl.
    destruct (existsb _ scriptCmds); simpl.
    + by destruct (run_item _ err w).
    + done.
Qed.

Lemma script_loop_rest lines i err w :
  1 < i -> script_text lines -> 0 <= err ->
  script_loop spawn waitpid ttyopen run_app mem i lines err w =
    Some (run_items (line_item <$> (chomp <$> lines)) err w).
Proof.
  intros Hi Ht. revert i err w Hi. induction Ht as [|l lines [Hl Hn] _ IH]; intros i err w Hi He; [done|].
  cbn [script_loop]. rewrite script_line_item by done.
  destruct (Z.eqb_spec i 1); [lia|]. simpl.
  destruct (run_item _ err w) as [e w']. simpl. destruct (Z.ltb_spec e 0); [done|].
  apply IH; lia.
Qed.

Lemma script_loop_items lines w :
  script_text lines ->
  script_loop spawn waitpid ttyopen run_app mem 1 lines 0 w = Some (run_items (script_items lines) 0 w).
Proof.
  intros Ht. destruct Ht as [|l lines [Hl Hn] Ht]; [done|].
  cbn [script_loop]. rewrite script_line_item by done.
  unfold script_items. simpl. destruct (decide (chomp l = SCRIPT_MAGIC)) as [E|E].
  - rewrite bool_decide_eq_true_2 by done. rewrite E. simpl. by apply script_loop_rest.
  - by rewrite bool_decide_eq_false_2 by done.
Qed.

Lemma open_retry_spec k n lines rest :
  open_retry k (replicate n None ++ Some lines :: rest) =
    (if (n <=? k)%nat then Some lines else None) .
Proof.
  revert k. induction n as [|n IH]; intros k; [by destruct k|]. simpl. destruct k as [|k]; [done|]. apply IH.
Qed.

(** C30: scripts.  When the first [n] attempts to open the script fail and the next
    one succeeds, [psh_runscript] gives up with [PSH_SCRIPT_NOTOPENED], the world
    untouched, if [n] is more than [PSH_RUNSCRIPT_RETRIES]; otherwise it runs
    the meaning of the lines in order until one fails: the first line must be the
    magic, empty lines and comments mean nothing, X and W lines spawn their words
    (W waits), T lines open the terminal named by their first word, lines for a
    reserved command run the applet of their first word, other lines are
    ignored, and a command line without words is an error. *)
Theorem runscript_meaning n lines rest w :
  script_text lines ->
  psh_runscript spawn waitpid ttyopen run_app mem (replicate n None ++ Some lines :: rest) w =
    Some (if (n <=? PSH_RUNSCRIPT_RETRIES)%nat then run_items (script_items lines) 0 w
          else (PSH_SCRIPT_NOTOPENED, w)).
Proof.
  intros Ht. unfold psh_runscript. rewrite open_retry_spec.
  destruct (n <=? PSH_RUNSCRIPT_RETRIES)%nat; [|done]. by apply script_loop_items.
Qed.

(** A line of a script as the file holds it. *)
Definition text_line (l : bytes) : bytes := l ++ [10].

Definition plain_start (line : bytes) : Prop :=
  match line with c :: _ => c <> 35 /\ c <> 84 /\ c <> 88 /\ c <> 87 | [] => False end.

(** Scripts reach every applet with a name of five or six characters.  The
    command after the magic line names an applet that is neither [export] nor
    [unset], but its length is that of one of them: the test of the line is a
    conjunction, so the applet is run on the words of the line. *)
Theorem script_runs_other_applets cmd args w :
  (length cmd = 5%nat \/ length cmd = 6%nat) -> plain_start cmd -> cmd <> bstr "export" -> cmd <> bstr "unset" ->
  nonul (cmd ++ args) -> match args with [] => True | c :: _ => c = 32 end ->
  psh_runscript spawn waitpid ttyopen run_app mem
      [Some [text_line SCRIPT_MAGIC; text_line (cmd ++ args)]] w =
    Some (if decide (words (cmd ++ args) = []) then (- EINVAL, w)
          else (0, default w (run_app (words (cmd ++ args)) w))).
Proof.
  intros Hlen Hs _ _ Hn Ha. unfold psh_runscript. cbv [open_retry PSH_RUNSCRIPT_RETRIES].
  rewrite script_loop_items.
  2:{ repeat constructor; try (by destruct cmd); try discriminate.
      apply nonul_app. split; [done|repeat constructor; discriminate]. }
  unfold script_items, text_line. rewrite !fmap_cons, !chomp_snoc. simpl.
  assert (line_item (cmd ++ args) = words_item (fun _ ws => Applet ws) (cmd ++ args)) as ->.
  { destruct cmd as [|c cmd]; [done|]. destruct Hs as (H1 & H2 & H3 & H4). cbn [line_item app].
    rewrite (proj2 (Z.eqb_neq _ _) H1), (proj2 (Z.eqb_neq _ _) H2),
      (proj2 (Z.eqb_neq _ _) H3), (proj2 (Z.eqb_neq _ _) H4). cbn [orb].
    assert (forall k, length (c :: cmd) = k -> existsb (fun x => (length x =? k)%nat) scriptCmds = true ->
              reserved (c :: cmd ++ args) = true) as Hk.
    { intros k Hk He. apply existsb_exists in He as (x & Hx & He). apply Nat.eqb_eq in He.
      apply existsb_exists. exists x. split; [done|]. unfold reserved_by.
      change (c :: cmd ++ args) with ((c :: cmd) ++ args). rewrite He, <-Hk.
      rewrite length_app, lookup_app_r, Nat.sub_diag by done.
      destruct (Nat.leb_spec (length (c :: cmd)) (length (c :: cmd) + length args)); [|lia].
      destruct args; simpl; [done|]. by subst. }
    destruct Hlen as [Hlen|Hlen]; by rewrite (Hk _ Hlen eq_refl). }
  unfold words_item. destruct (words (cmd ++ args)); reflexivity.
Qed.

(** What the system calls and [psh_ttyopen] return is never as small as
    [PSH_SCRIPT_NOTOPENED]: their errors are small negative numbers. *)
Definition small_errors : Prop :=
  (forall args w, PSH_SCRIPT_NOTOPENED < (spawn args w).1) /\
  (forall pid w, PSH_SCRIPT_NOTOPENED < (waitpid pid w).1) /\
  (forall dev w, PSH_SCRIPT_NOTOPENED < (ttyopen dev w).1).

Lemma run_items_small its err w :
  small_errors -> PSH_SCRIPT_NOTOPENED < err -> PSH_SCRIPT_NOTOPENED < (run_items its err w).1.
Proof.
  intros (Hs & Hw & Ht). revert err w. induction its as [|it its IH]; intros err w He; [done|].
  simpl. assert (PSH_SCRIPT_NOTOPENED < (run_item it err w).1) as Hi.
  { destruct it as [| |wait args|dev|args]; simpl; try done.
    specialize (Hs args w). destruct (spawn args w) as [pid w']; simpl in *.
    destruct (pid <? 0); [done|]. by destruct wait. }
  destruct (run_item it err w) as [e w']; simpl in *. destruct (e <? 0); [done|]. by apply IH.
Qed.

(** The shell starts a script or itself, never both.  With a script chosen on
    the command line, [psh_pshapp] runs the interactive shell exactly when the
    script was never opened, in the untouched world; a script that was opened
    decides the exit status, whatever happened to it. *)
Theorem pshapp_script_or_shell PATH_CONSOLE argv opts optind opens clockSync run w
    console path0 path n lines rest :
  small_errors -> 1 < zlen argv ->
  pshapp_opts opts PATH_CONSOLE None = Some (console, path0) ->
  (if optind <? zlen argv then rd argv optind else path0) = Some path ->
  opens path = replicate n None ++ Some lines :: rest -> script_text lines ->
  psh_pshapp spawn waitpid ttyopen run_app mem PATH_CONSOLE argv opts optind opens clockSync run w =
    Some (let '(err, w') := if (n <=? PSH_RUNSCRIPT_RETRIES)%nat then run_items (script_items lines) 0 w
                            else run console (clockSync w) in
          (if err <? 0 then EXIT_FAILURE else EXIT_SUCCESS, w')).
Proof.
  intros Hsm Ha Ho Hp Hopen Ht. unfold psh_pshapp.
  rewrite (proj2 (Z.ltb_lt _ _) Ha), Ho, Hp, Hopen. unfold psh_runscript. rewrite open_retry_spec.
  destruct (n <=? PSH_RUNSCRIPT_RETRIES)%nat.
  - rewrite script_loop_items by done. simpl.
    pose proof (run_items_small (script_items lines) 0 w Hsm ltac:(done)) as Hr.
    destruct (run_items _ 0 w) as [e w']; simpl in *.
    destruct (Z.eqb_spec e PSH_SCRIPT_NOTOPENED); [lia|]. done.
  - simpl. by destruct (run console (clockSync w)).
Qed.
End meaning.

(** ** Reference: sessions *)

Section sessions.
Context {W : Type}.
Context (run_app : bytes -> W -> option (Z * W)).

(** The applets with a record of those that were run and what they returned. *)
Definition logged (name : bytes) (s : W * list (bytes * Z)) : option (Z * (W * list (bytes * Z))) :=
  match run_app name s.1 with Some (err, w) => Some (err, (w, s.2 ++ [(name, err)])) | None => None end.

Definition AUTH : bytes := bstr "auth".
Definition LOGIN : bytes := bstr "pshlogin".

(** Whatever ran besides [auth] is the shell, directly behind an [auth] that accepted. *)
Definition guarded (tr : list (bytes * Z)) : Prop :=
  forall pre name err post, tr = pre ++ (name, err) :: post -> name <> AUTH ->
    name = LOGIN /\ exists pre', pre = pre' ++ [(AUTH, 0)].

Definition refusals (tr : list (bytes * Z)) : Prop := Forall (fun c => c.1 = AUTH /\ c.2 <> 0) tr.

Lemma guarded_snoc tr name err :
  guarded tr -> (name <> AUTH -> name = LOGIN /\ exists pre', tr = pre' ++ [(AUTH, 0)]) -> guarded (tr ++ [(name, err)]).
Proof.
  intros Hg Hn pre nm e post E Hne. destruct post as [|x post _] using rev_ind.
  - apply app_inj_tail in E as [-> [= -> ->]]. by apply Hn.
  - rewrite app_comm_cons, (assoc_L (++)) in E. apply app_inj_tail in E as [-> _]. by apply (Hg pre nm e post).
Qed.

Lemma guarded_refusals tr fails : guarded tr -> refusals fails -> guarded (tr ++ fails).
Proof.
  intros Hg Hf. induction fails as [|[name err] fails IH] using rev_ind; [by rewrite app_nil_r|].
  apply Forall_app in Hf as [Hf [[Hn _] _]%Forall_cons]. rewrite (assoc_L (++)). apply guarded_snoc; [by apply IH|]. simpl in Hn. by rewrite Hn.
Qed.

Context (Hauth : forall w, is_Some (run_app AUTH w)).

Lemma auth_loop_trace fuel : forall w tr, exists ok w' fails,
  auth_loop logged fuel (w, tr) = (ok, (w', tr ++ fails ++ (if ok : bool then [(AUTH, 0)] else []))) /\ refusals fails.
Proof.
  induction fuel as [|fuel IH]; intros w tr; cbn [auth_loop]; change (bstr "auth") with AUTH; unfold logged at 1; cbn [fst snd];
    destruct (Hauth w) as [[err w1] ->]; destruct (Z.eqb_spec err 0) as [->|Hne];
    try (exists true, w1, []; split; [done|constructor]).
  - exists false, w1, [(AUTH, err)]. split; [done|]. by repeat constructor.
  - destruct (IH w1 (tr ++ [(AUTH, err)])) as (ok & w' & fails & -> & Hf). exists ok, w', ((AUTH, err) :: fails).
    rewrite <- (assoc_L (++)). split; [done|]. by constructor.
Qed.

Definition exit_status (err : Z) : Z := if err <? 0 then 1 else err.

(** How a run as [pshlogin] ends, from the applets run. *)
Definition login_ended (first : bool) (st : option Z) (tr : list (bytes * Z)) : Prop :=
  match st with
  | Some code => exists pre,
      code = PSH_UNKNOWN_CMD /\ tr = pre ++ [(AUTH, 0)] \/
      first = false /\ exists err, tr = pre ++ [(AUTH, 0); (LOGIN, err)] /\ code = exit_status err
  | None => first = true \/ refusals tr
  end.

(** One round of [main]. *)
Lemma login_step fuel first s : main_loop logged fuel LOGIN first s =
  let '(passed, s) := auth_loop logged fuel s in
  if negb passed then (None, s)
  else
    match logged LOGIN s with
    | None => (Some PSH_UNKNOWN_CMD, s)
    | Some (err, s) =>
        if first then match fuel with O => (None, s) | Datatypes.S fuel => main_loop logged fuel LOGIN first s end
        else (Some (exit_status err), s)
    end.
Proof. by destruct fuel, first. Qed.

(** C31: a login shell lets nobody in unauthenticated.  Started as [pshlogin] where the
    [auth] applet is registered, [main] never runs anything but [auth] and the shell, and
    every run of the shell comes directly after a run of [auth] that returned 0, in the
    first shell of a console, which asks again after each session, as in others.  It ends
    with the status of the session, or with [PSH_UNKNOWN_CMD] behind an accepted [auth]
    when there is no such applet; where the console has a shell already it is otherwise
    still asking, and nothing but refused [auth]s ran.  The applets and the world are
    arbitrary. *)
Theorem login_after_auth fuel first w : exists st w' tr,
  main_loop logged fuel LOGIN first (w, []) = (st, (w', tr)) /\ guarded tr /\ login_ended first st tr.
Proof.
  assert (H : forall tr, guarded tr -> (first = true \/ tr = []) -> exists st w' tr',
    main_loop logged fuel LOGIN first (w, tr) = (st, (w', tr')) /\ guarded tr' /\ login_ended first st tr').
  2:{ apply H; [|by right]. by intros [|? pre] name err post E. }
  revert w. induction fuel as [fuel IH] using lt_wf_ind. intros w tr Hg Ht. rewrite login_step.
  destruct (auth_loop_trace fuel w tr) as (ok & w1 & fails & -> & Hf).
  pose proof (guarded_refusals tr fails Hg Hf) as Hg1. destruct ok; cbn [negb].
  2:{ exists None, w1, (tr ++ fails ++ []). rewrite app_nil_r. split; [done|]. split; [done|]. destruct Ht as [->| ->]; [by left|by right]. }
  rewrite (assoc_L (++)). assert (Hg2 : guarded ((tr ++ fails) ++ [(AUTH, 0)])) by by apply guarded_snoc.
  unfold logged at 1. cbn [fst snd]. destruct (run_app LOGIN w1) as [[err w2]|].
  2:{ do 3 eexists. split; [done|]. split; [done|]. exists (tr ++ fails). by left. }
  assert (Hg3 : guarded (((tr ++ fails) ++ [(AUTH, 0)]) ++ [(LOGIN, err)])) by (apply guarded_snoc; [done|]; intros _; split; [done|by eexists]).
  destruct first.
  - destruct fuel as [|fuel]; [do 3 eexists; split; [done|]; split; [done|by left]|]. apply IH; [lia|done|by left].
  - do 3 eexists. split; [done|]. split; [done|]. exists (tr ++ fails). right. split; [done|]. exists err. by rewrite <- !(assoc_L (++)).
Qed.
End sessions.

Section first.
Context {W : Type} (run_app : bytes -> W -> option (Z * W)).

(** The first login shell of a console never ends while its applet is
    registered: after any number of sessions it is still running. *)
Theorem first_login_never_ends fuel w :
  (forall w, is_Some (run_app (bstr "pshlogin") w)) ->
  (main_loop run_app fuel (bstr "pshlogin") true w).1 = None.
Proof.
  intros Happ. revert w. induction fuel as [|fuel IH]; intros w; cbn [main_loop];
    (rewrite bool_decide_eq_true_2 by done);
    (destruct (auth_loop _ _ w) as [[] w1]; [|done]); cbn [negb];
    destruct (Happ w1) as [[e w2] ->]; simpl; done.
Qed.
End first.

(** ** Witnesses *)

(** A world that records what was run. *)
Definition ex_spawn (args : list bytes) (w : list (list bytes)) : Z * list (list bytes) := (7, args :: w).
Definition ex_waitpid (pid : Z) (w : list (list bytes)) : Z * list (list bytes) := (Z.max 0 pid, w).
Definition ex_ttyopen (dev : bytes) (w : list (list bytes)) : Z * list (list bytes) := (0, [dev] :: w).
Definition ex_app (args : list bytes) (w : list (list bytes)) : option (list (list bytes)) := Some (args :: w).

Lemma runscript_meaning_witness :
  psh_runscript ex_spawn ex_waitpid ex_ttyopen ex_app (fun _ => true)
      [None; Some (text_line <$> [SCRIPT_MAGIC; bstr "# boot"; bstr "T /dev/tty0"; bstr "W /bin/a -x"])] [] =
    Some (7, [[bstr "/bin/a"; bstr "-x"]; [bstr "/dev/tty0"]]).
Proof.
  pose proof (runscript_meaning ex_spawn ex_waitpid ex_ttyopen ex_app (fun _ => true) (fun _ => eq_refl) 1
    (text_line <$> [SCRIPT_MAGIC; bstr "# boot"; bstr "T /dev/tty0"; bstr "W /bin/a -x"]) [] []) as H.
  simpl replicate in H. cbn [app] in H. rewrite H; [vm_compute; reflexivity|].
  repeat constructor; discriminate.
Defined.

Lemma script_runs_other_applets_witness :
  psh_runscript ex_spawn ex_waitpid ex_ttyopen ex_app (fun _ => true)
      [Some [text_line SCRIPT_MAGIC; text_line (bstr "reboot" ++ bstr " now")]] [] =
    Some (0, [[bstr "reboot"; bstr "now"]]).
Proof.
  rewrite (script_runs_other_applets ex_spawn ex_waitpid ex_ttyopen ex_app (fun _ => true) (fun _ => eq_refl)
    (bstr "reboot") (bstr " now")); [vm_compute; reflexivity|by right|..|done].
  - by vm_compute.
  - discriminate.
  - discriminate.
  - repeat constructor; discriminate.
Defined.

Lemma pshapp_script_or_shell_witness :
  psh_pshapp ex_spawn ex_waitpid ex_ttyopen ex_app (fun _ => true) (bstr "/dev/console")
    [bstr "psh"; bstr "-i"; bstr "/etc/rc"] [Optres 105 (bstr "/etc/rc")] 3
    (fun _ => [Some [text_line (bstr "no magic")]]) id (fun _ w => (0, w)) [] = Some (EXIT_FAILURE, []).
Proof.
  rewrite (pshapp_script_or_shell ex_spawn ex_waitpid ex_ttyopen ex_app (fun _ => true) (fun _ => eq_refl)
    (bstr "/dev/console") [bstr "psh"; bstr "-i"; bstr "/etc/rc"] [Optres 105 (bstr "/etc/rc")] 3
    (fun _ => [Some [text_line (bstr "no magic")]]) id (fun _ w => (0, w)) []
    (bstr "/dev/console") (Some (bstr "/etc/rc")) (bstr "/etc/rc") 0 [text_line (bstr "no magic")] []);
    [vm_compute; reflexivity|..].
  - split; [|split]; intros; simpl; unfold PSH_SCRIPT_NOTOPENED; lia.
  - done.
  - reflexivity.
  - reflexivity.
  - reflexivity.
  - repeat constructor; discriminate.
Defined.

(** One wrong password, then the right one. *)
Definition ex_login (name : bytes) (w : Z) : option (Z * Z) :=
  if strcmp name (bstr "auth") =? 0 then Some (if w =? 0 then (1, 1) else (0, 2)) else Some (- EIO, w).

Lemma first_login_never_ends_witness :
  (forall w, is_Some (ex_login (bstr "pshlogin") w)) /\ (main_loop ex_login 5 (bstr "pshlogin") true 0).1 = None.
Proof.
  assert (forall w, is_Some (ex_login (bstr "pshlogin") w)) as H by (intros; by eexists).
  split; [exact H|]. apply (first_login_never_ends ex_login 5 0 H).
Defined.

Example ex_login_runs : main_loop ex_login 5 (bstr "pshlogin") false 0 = (Some 1, 2).
Proof. vm_compute. reflexivity. Qed.

Lemma login_after_auth_witness : exists st w' tr,
  main_loop (logged ex_login) 5 LOGIN false (0, []) = (st, (w', tr)) /\ guarded tr /\ login_ended false st tr.
Proof. apply (login_after_auth ex_login); intros w; by eexists. Defined.

(** What was run in it. *)
Example ex_login_trace : main_loop (logged ex_login) 5 LOGIN false (0, []) = (Some 1, (2, [(AUTH, 1); (AUTH, 0); (LOGIN, - EIO)])).
Proof. vm_compute. reflexivity. Qed.
