(* ===== verification/Auth.v ===== *)
(** * Login ([psh_authcredentget] and [psh_auth] of [psh/pshapp/auth.c])

    The terminal delivers a list of bytes; when it is exhausted [read] stops
    returning 1.  The password database and [crypt] are parameters. *)

From S2P Require Import Prelude Parse Fds Io.

Definition EACCES : Z := 13.

(** The terminal calls of one [psh_authcredentget]: whether each succeeds. *)
Record ttycalls := Ttycalls { get_ok : bool; set_ok : bool; reset_ok : bool }.

Section auth.
Context (ICANON ECHO ISIG : Z).

Definition prompt (ispasswd : bool) : bytes :=
  if ispasswd then bstr "Password: " else bstr "Login: ".

(** The [for (;;)]: the final [inputlen], the buffer, the input left and the
    prompts printed. *)
Fixpoint cred_loop (ispasswd : bool) (maxinlen : Z) (input : bytes) (inputlen : Z)
    (buff out : bytes) : option (Z * bytes * bytes * bytes) :=
  let out := if inputlen <? 0 then out ++ prompt ispasswd else out in
  let inputlen := if inputlen <? 0 then inputlen + 1 else inputlen in
  match input with
  | [] => Some (-1, buff, [], out)
  | c :: input =>
      if c =? 10 then
        if (inputlen <=? maxinlen) && (0 <? inputlen) then
          buff ← wr buff inputlen 0;
          Some (inputlen - 1, buff, input, out)
        else if ispasswd then
          buff ← wr_range buff 0 (replicate (Z.to_nat maxinlen) 0);
          Some (0, buff, input, out)
        else cred_loop ispasswd maxinlen input (-1) buff out
      else if isprint c then
        buff ← (if inputlen <? maxinlen then wr buff inputlen c else Some buff);
        cred_loop ispasswd maxinlen input (inputlen + 1) buff out
      else cred_loop ispasswd maxinlen input inputlen buff out
  end.

(** One call.  [lflag] is the terminal's [c_lflag]; [cr_during] is its value
    while the user types. *)
Record cred := Cred {
  cr_ret : Z; cr_buff : bytes; cr_input : bytes; cr_out : bytes; cr_during : Z; cr_lflag : Z
}.

Definition psh_authcredentget (tty : ttycalls) (lflag : Z) (buff : bytes) (ispasswd : bool)
    (maxinlen : Z) (input : bytes) : option cred :=
  if negb (get_ok tty) then Some (Cred (- ENOTTY) buff input [] lflag lflag)
  else
    let during := if ispasswd then Z.land lflag (Z.lnot ECHO)
                  else Z.lor lflag (Z.lor ICANON (Z.lor ECHO ISIG)) in
    if negb (set_ok tty) then Some (Cred (- ENOTTY) buff input [] lflag lflag)
    else
      '(inputlen, buff, input, out) ← cred_loop ispasswd maxinlen input (-1) buff [];
      let out := if ispasswd || (inputlen <? 0) then out ++ [10] else out in
      if negb (reset_ok tty) then Some (Cred (- ENOTTY) buff input out during during)
      else Some (Cred (if 0 <=? inputlen then inputlen else - EINTR) buff input out during lflag).
End auth.

(** A buffer used as a C string: [None] when it holds no NUL. *)
Definition as_string (b : bytes) : option bytes :=
  if existsb (fun c => c =? 0) b then Some (cstr b) else None.

Section login.
Context (ICANON ECHO ISIG : Z).
Context {S : Type} `{FdOps S}.
Context (usleep : S -> S) (getpwnam : bytes -> option bytes)
  (crypt : bytes -> bytes -> option bytes) (PSH_DEFUSRPWDHASH : bytes).

(** The options of [psh_auth]: the console, or [None] for the usage text. *)
Fixpoint auth_opts (opts : list (Z * bytes)) (console : bytes) : option bytes :=
  match opts with
  | [] => Some console
  | (c, arg) :: opts => if c =? 116 then auth_opts opts arg else None
  end.

(** The five attempts to open the console. *)
Fixpoint auth_open (retries : nat) (mem : nat -> bool) (console : bytes) (s : ttyst S) : ttyst S :=
  match retries with
  | O => s
  | Datatypes.S retries =>
      let '(err, s) := psh_ttyopen (mem retries) console s in
      if err =? 0 then s
      else auth_open retries mem console (Ttyst (t_dev s) (usleep (t_fds s)))
  end.

(** What the caller can see of one run: the result, the terminal, the input
    left, the output and the password buffer. *)
Record login := Login {
  lg_ret : Z; lg_tty : ttyst S; lg_input : bytes; lg_out : bytes; lg_passwd : bytes
}.

Definition maxlen : Z := 32.

(** The validation of the two strings. *)
Definition auth_check (userdata : option bytes) (username passwd : bytes) : option (Z * bytes) :=
  let wiped := wr_range passwd 0 (replicate (Z.to_nat maxlen) 0) in
  ok ← match userdata with
       | None => Some false
       | Some pw_passwd =>
           pass ← as_string passwd;
           Some match crypt pass pw_passwd with
                | Some shadow => strcmp pw_passwd shadow =? 0
                | None => false
                end
       end;
  if ok : bool then p ← wiped; Some (0, p)
  else
    pass ← as_string passwd;
    let shadow := crypt pass PSH_DEFUSRPWDHASH in
    p ← wiped;
    match shadow with
    | Some shadow =>
        user ← as_string username;
        Some (if (strcmp user (bstr "defuser") =? 0) && (strcmp shadow PSH_DEFUSRPWDHASH =? 0)
              then 0 else - EACCES, p)
    | None => Some (- EACCES, p)
    end.

(** [username] and [passwd] are what the stack held before the call. *)
Definition psh_auth (mem : nat -> bool) (tty1 tty2 : ttycalls) (lflag : Z) (username passwd : bytes)
    (PATH_CONSOLE : bytes) (opts : list (Z * bytes)) (input : bytes) (s : ttyst S) : option login :=
  match auth_opts opts PATH_CONSOLE with
  | None => Some (Login 0 s input [] passwd)
  | Some console =>
      let s := auth_open 5 mem console s in
      if negb (os_isatty 1 (t_fds s)) then Some (Login (- ENOTTY) s input [] passwd)
      else
        u ← psh_authcredentget ICANON ECHO ISIG tty1 lflag username false maxlen input;
        if cr_ret u =? - EINTR then Some (Login (- EINTR) s (cr_input u) (cr_out u) passwd)
        else
          user ← as_string (cr_buff u);
          let userdata := getpwnam user in
          p ← psh_authcredentget ICANON ECHO ISIG tty2 (cr_lflag u) passwd true maxlen (cr_input u);
          let out := cr_out u ++ cr_out p in
          if cr_ret p =? - EINTR then Some (Login (- EINTR) s (cr_input p) out (cr_buff p))
          else
            '(ret, passwd) ← auth_check userdata (cr_buff u) (cr_buff p);
            Some (Login ret s (cr_input p) out passwd)
  end.
End login.
Arguments login : clear implicits.

(** ** Reference: what the user typed *)

Definition typed (l : bytes) : bytes := List.filter isprint l.
Definition no_newline (l : bytes) : Prop := Forall (fun c => c <> 10) l.
Definition usable (maxinlen : Z) (p : bytes) : bool := (0 <? zlen p) && (zlen p <=? maxinlen).
Definition text (ls : list bytes) : bytes := concat ((fun l => l ++ [10]) <$> ls).
Definition all_ok : ttycalls := Ttycalls true true true.

Lemma typed_app a b : typed (a ++ b) = typed a ++ typed b.
Proof. apply List.filter_app. Qed.

Lemma text_cons l ls rest : text (l :: ls) ++ rest = l ++ 10 :: text ls ++ rest.
Proof. unfold text. simpl. appeq. Qed.

Lemma typed_nonul l : nonul (typed l).
Proof.
  induction l as [|c l IH]; simpl; [constructor|]. destruct (isprint c) eqn:E; [|done].
  constructor; [by intros ->|done].
Qed.

Lemma as_string_app p rest : nonul p -> as_string (p ++ 0 :: rest) = Some p.
Proof.
  intros Hp. unfold as_string. rewrite existsb_app. simpl. rewrite orb_true_r.
  by rewrite cstr_app.
Qed.

(** The first [maxinlen] characters typed are in the buffer. *)
Definition holds (maxinlen : Z) (p buff : bytes) : Prop :=
  zlen buff = maxinlen + 1 /\
  exists tl, buff = take (Z.to_nat maxinlen) p ++ tl.

Lemma holds_nil maxinlen buff : zlen buff = maxinlen + 1 -> holds maxinlen [] buff.
Proof. intros H. split; [done|]. exists buff. by rewrite take_nil. Qed.

Section cred.
Context (ispasswd : bool) (maxinlen : Z) (Hmax : 0 <= maxinlen).

Lemma holds_push p c buff :
  holds maxinlen p buff ->
  exists buff', (if zlen p <? maxinlen then wr buff (zlen p) c else Some buff) = Some buff' /\
    holds maxinlen (p ++ [c]) buff'.
Proof.
  intros (Hl & tl & ->). destruct (Z.ltb_spec (zlen p) maxinlen) as [Hp|Hp].
  - rewrite take_ge in Hl |- * by (unfold zlen in *; lia).
    destruct tl as [|x tl]; [zlia|]. rewrite wr_app by done. eexists. split; [done|].
    split; [zlia|]. exists tl. rewrite take_ge by (rewrite length_app; unfold zlen in *; simpl; lia). appeq.
  - eexists. split; [done|]. split; [done|]. exists tl.
    rewrite take_app_le by (unfold zlen in *; lia). done.
Qed.

Lemma cred_loop_prompt input buff out :
  cred_loop ispasswd maxinlen input (-1) buff out =
  cred_loop ispasswd maxinlen input 0 buff (out ++ prompt ispasswd).
Proof. destruct input; reflexivity. Qed.

Lemma cred_loop_line l rest p buff out :
  no_newline l -> holds maxinlen p buff ->
  exists buff', cred_loop ispasswd maxinlen (l ++ rest) (zlen p) buff out =
    cred_loop ispasswd maxinlen rest (zlen (p ++ typed l)) buff' out /\
    holds maxinlen (p ++ typed l) buff'.
Proof.
  intros Hl. revert p buff. induction Hl as [|c l Hc _ IH]; intros p buff Hh.
  - exists buff. simpl. by rewrite app_nil_r.
  - cbn [app cred_loop typed List.filter].
    destruct (Z.ltb_spec (zlen p) 0); [zlia|].
    rewrite (proj2 (Z.eqb_neq _ _) Hc). destruct (isprint c) eqn:Ep.
    + destruct (holds_push p c buff Hh) as (b & -> & Hb). simpl.
      destruct (IH _ _ Hb) as (b' & E & Hb'). exists b'.
      replace (zlen p + 1) with (zlen (p ++ [c])) by zlia. rewrite E.
      fold (typed l). by rewrite <-(assoc_L (++)) in *.
    + by apply IH.
Qed.

(** A line of a usable length ends the loop with the characters in the buffer. *)
Lemma cred_loop_usable l rest buff out :
  no_newline l -> zlen buff = maxinlen + 1 -> usable maxinlen (typed l) = true ->
  exists tl, cred_loop ispasswd maxinlen (l ++ 10 :: rest) 0 buff out =
      Some (zlen (typed l) - 1, typed l ++ 0 :: tl, rest, out) /\
    zlen (typed l ++ 0 :: tl) = maxinlen + 1.
Proof.
  intros Hl Hb Hu. unfold usable in Hu. bprop.
  destruct (cred_loop_line l (10 :: rest) [] buff out Hl (holds_nil _ _ Hb)) as (b & E & Hh & tl & ->).
  exists (drop 1 tl). replace (zlen []) with 0 in E by zlia. rewrite E. simpl in *.
  rewrite take_ge in * by (unfold zlen in *; lia).
  destruct (Z.ltb_spec (zlen (typed l)) 0); [lia|]. simpl.
  destruct (Z.leb_spec (zlen (typed l)) maxinlen), (Z.ltb_spec 0 (zlen (typed l))); try lia. simpl.
  destruct tl as [|x tl]; [zlia|]. rewrite wr_app by done. simpl. by rewrite drop_0; split; zlia.
Qed.

Lemma cred_loop_unusable l rest buff out :
  no_newline l -> zlen buff = maxinlen + 1 -> usable maxinlen (typed l) = false ->
  exists buff', zlen buff' = maxinlen + 1 /\
    cred_loop ispasswd maxinlen (l ++ 10 :: rest) 0 buff out =
      if ispasswd then Some (0, replicate (Z.to_nat maxinlen) 0 ++ drop (Z.to_nat maxinlen) buff', rest, out)
      else cred_loop ispasswd maxinlen rest (-1) buff' out.
Proof.
  intros Hl Hb Hu.
  destruct (cred_loop_line l (10 :: rest) [] buff out Hl (holds_nil _ _ Hb)) as (b & E & Hh & _).
  exists b. split; [done|]. replace (zlen []) with 0 in E by zlia. rewrite E. simpl.
  destruct (Z.ltb_spec (zlen (typed l)) 0); [pose proof (zlen_nonneg (typed l)); lia|].
  unfold usable in Hu. rewrite (andb_comm (_ <=? maxinlen)), Hu. destruct ispasswd; [|done].
  destruct (list_split_at b maxinlen) as (x & y & -> & Hx); [lia|].
  rewrite (wr_range_app [] x y 0) by zlia. simpl.
  by rewrite <-Hx, drop_zlen_app.
Qed.

(** The end of the input ends the loop without a line. *)
Lemma cred_loop_eof l buff out :
  no_newline l -> zlen buff = maxinlen + 1 ->
  exists buff', cred_loop ispasswd maxinlen l 0 buff out = Some (-1, buff', [], out).
Proof.
  intros Hl Hb.
  destruct (cred_loop_line l [] [] buff out Hl (holds_nil _ _ Hb)) as (b & E & Hh & _).
  exists b. rewrite app_nil_r in E. replace (zlen []) with 0 in E by zlia. rewrite E. simpl.
  destruct (Z.ltb_spec (zlen (typed l)) 0); [pose proof (zlen_nonneg (typed l)); lia|done].
Qed.
End cred.

(** The login loop asks again after every unusable line. *)
Lemma cred_loop_retry maxinlen bad rest buff out :
  0 <= maxinlen -> zlen buff = maxinlen + 1 ->
  Forall (fun l => no_newline l /\ usable maxinlen (typed l) = false) bad ->
  exists buff', zlen buff' = maxinlen + 1 /\
    cred_loop false maxinlen (text bad ++ rest) (-1) buff out =
    cred_loop false maxinlen rest 0 buff' (out ++ mjoin (replicate (length bad + 1) (prompt false))).
Proof.
  intros Hm Hb Hbad. revert buff out Hb. induction Hbad as [|l bad [Hl Hu] _ IH]; intros buff out Hb.
  - exists buff. split; [done|]. by rewrite cred_loop_prompt.
  - rewrite cred_loop_prompt, text_cons.
    destruct (cred_loop_unusable false maxinlen Hm l (text bad ++ rest) buff (out ++ prompt false) Hl Hb Hu)
      as (b & Hb' & E). rewrite E.
    destruct (IH b (out ++ prompt false) Hb') as (b' & Hb'' & E'). exists b'. split; [done|].
    rewrite E'. f_equal. by rewrite <-(assoc_L (++)).
Qed.

Section credentials.
Context (ICANON ECHO ISIG : Z).
Context (maxinlen : Z) (Hmax : 0 <= maxinlen).

Lemma login_line lflag buff bad good rest :
  zlen buff = maxinlen + 1 ->
  Forall (fun l => no_newline l /\ usable maxinlen (typed l) = false) bad ->
  no_newline good -> usable maxinlen (typed good) = true ->
  exists buff', zlen buff' = maxinlen + 1 /\ as_string buff' = Some (typed good) /\
    psh_authcredentget ICANON ECHO ISIG all_ok lflag buff false maxinlen (text (bad ++ [good]) ++ rest) =
    Some (Cred (zlen (typed good) - 1) buff' rest (mjoin (replicate (length bad + 1) (prompt false)))
               (Z.lor lflag (Z.lor ICANON (Z.lor ECHO ISIG))) lflag).
Proof.
  intros Hb Hbad Hg Hu.
  destruct (cred_loop_retry maxinlen bad (good ++ 10 :: rest) buff [] Hmax Hb Hbad) as (b & Hb' & E).
  destruct (cred_loop_usable false maxinlen Hmax good rest b
    ([] ++ mjoin (replicate (length bad + 1) (prompt false))) Hg Hb' Hu) as (tl & E2 & Hl).
  eexists. split; [exact Hl|]. split; [apply as_string_app, typed_nonul|].
  assert (text (bad ++ [good]) ++ rest = text bad ++ good ++ 10 :: rest) as ->.
  { unfold text. rewrite fmap_app, concat_app. simpl. rewrite app_nil_r. appeq. }
  unfold psh_authcredentget. simpl. rewrite E, E2. unfold usable in Hu. bprop. simpl.
  destruct (Z.ltb_spec (zlen (typed good) - 1) 0); [lia|].
  destruct (Z.leb_spec 0 (zlen (typed good) - 1)); [done|lia].
Qed.

(** The password is the first line, or empty when it has no usable length. *)
Definition password (l : bytes) : bytes := if usable maxinlen (typed l) then typed l else [].

Lemma password_line lflag buff l rest :
  zlen buff = maxinlen + 1 -> 0 < maxinlen -> no_newline l ->
  exists buff', zlen buff' = maxinlen + 1 /\ as_string buff' = Some (password l) /\
    psh_authcredentget ICANON ECHO ISIG all_ok lflag buff true maxinlen (l ++ 10 :: rest) =
    Some (Cred (Z.max 0 (zlen (password l) - 1)) buff' rest (prompt true ++ [10])
               (Z.land lflag (Z.lnot ECHO)) lflag).
Proof.
  intros Hb Hm Hl. unfold psh_authcredentget, password. cbn [negb get_ok set_ok reset_ok all_ok].
  rewrite cred_loop_prompt, app_nil_l.
  destruct (usable maxinlen (typed l)) eqn:Hu.
  - destruct (cred_loop_usable true maxinlen Hmax l rest buff (prompt true) Hl Hb Hu) as (tl & E & Hl').
    eexists. split; [exact Hl'|]. split; [apply as_string_app, typed_nonul|]. rewrite E.
    unfold usable in Hu. bprop. simpl.
    destruct (Z.leb_spec 0 (zlen (typed l) - 1)); [|lia]. by rewrite Z.max_r by lia.
  - destruct (cred_loop_unusable true maxinlen Hmax l rest buff (prompt true) Hl Hb Hu) as (b & Hb' & E).
    eexists. split; [|split; [|rewrite E; reflexivity]].
    + autorewrite with zlen. lia.
    + destruct (Z.to_nat maxinlen) as [|k] eqn:Ek; [lia|]. reflexivity.
Qed.

Lemma credentials_eof lflag buff ispasswd bad l :
  zlen buff = maxinlen + 1 -> no_newline l ->
  Forall (fun l => no_newline l /\ usable maxinlen (typed l) = false) bad -> (ispasswd = true -> bad = []) ->
  exists c, psh_authcredentget ICANON ECHO ISIG all_ok lflag buff ispasswd maxinlen (text bad ++ l) = Some c /\
    cr_ret c = - EINTR /\ cr_lflag c = lflag.
Proof.
  intros Hb Hl Hbad Hi. unfold psh_authcredentget. simpl.
  assert (exists b o, cred_loop ispasswd maxinlen (text bad ++ l) (-1) buff [] = Some (-1, b, [], o)) as (b & o & ->).
  { destruct ispasswd.
    - rewrite Hi by done. simpl. rewrite cred_loop_prompt.
      destruct (cred_loop_eof true maxinlen Hmax l buff ([] ++ prompt true) Hl Hb) as [b E]. eauto.
    - destruct (cred_loop_retry maxinlen bad l buff [] Hmax Hb Hbad) as (b & Hb' & ->).
      edestruct (cred_loop_eof false maxinlen Hmax l b) as [b' E]; [done|done|]. eauto. }
  simpl. eexists. split; [reflexivity|]. done.
Qed.
End credentials.

(** ** Correctness of [psh_auth] *)

Section decide.
Context (ICANON ECHO ISIG : Z).
Context {S : Type} `{FdOps S}.
Context (usleep : S -> S) (getpwnam : bytes -> option bytes)
  (crypt : bytes -> bytes -> option bytes) (PSH_DEFUSRPWDHASH : bytes).

(** The user is known and the password hashes to the stored hash, or the default
    user gives the default password. *)
Definition valid (user pass : bytes) : Prop :=
  (exists h, getpwnam user = Some h /\ crypt pass h = Some h) \/
  (user = bstr "defuser" /\ crypt pass PSH_DEFUSRPWDHASH = Some PSH_DEFUSRPWDHASH).

Definition decided (user pass : bytes) (ret : Z) : Prop :=
  (ret = 0 /\ valid user pass) \/ (ret = - EACCES /\ ~ valid user pass).

Lemma wipe_ok passwd :
  zlen passwd = maxlen + 1 ->
  exists p, wr_range passwd 0 (replicate (Z.to_nat maxlen) 0) = Some p /\
    take (Z.to_nat maxlen) p = replicate (Z.to_nat maxlen) 0.
Proof.
  intros Hl. destruct (list_split_at passwd maxlen) as (x & y & -> & Hx); [unfold maxlen in *; lia|].
  exists (replicate (Z.to_nat maxlen) 0 ++ y). rewrite (wr_range_app [] x y 0); [|done|by zlia].
  split; [done|]. by rewrite take_app_le, take_ge by (rewrite length_replicate; done).
Qed.

Lemma auth_check_decides username passwd user pass :
  zlen passwd = maxlen + 1 -> as_string username = Some user -> as_string passwd = Some pass ->
  exists ret p, auth_check crypt PSH_DEFUSRPWDHASH (getpwnam user) username passwd = Some (ret, p) /\
    decided user pass ret /\ take (Z.to_nat maxlen) p = replicate (Z.to_nat maxlen) 0.
Proof.
  intros Hl Hu Hp. destruct (wipe_ok passwd Hl) as (p & Hw & Ht). unfold auth_check, decided, valid.
  rewrite Hw, Hp, Hu. cbn [mbind option_bind].
  destruct (match getpwnam user with
            | None => Some false
            | Some pw => Some match crypt pass pw with Some sh => strcmp pw sh =? 0 | None => false end
            end) as [[]|] eqn:E; [| |by destruct (getpwnam user)].
  - exists 0, p. split; [reflexivity|]. split; [|done]. left. split; [done|]. left.
    destruct (getpwnam user) as [h|]; [|done]. exists h. split; [done|].
    destruct (crypt pass h) as [sh|]; [|done]. apply (inj Some), Z.eqb_eq, strcmp_eq in E. by subst.
  - assert (~ exists h, getpwnam user = Some h /\ crypt pass h = Some h) as Hn.
    { intros (h & Hh & Hc). rewrite Hh, Hc, strcmp_refl in E. done. }
    simpl. destruct (crypt pass PSH_DEFUSRPWDHASH) as [sh|] eqn:Ec.
    + eexists _, p. split; [reflexivity|]. split; [|done].
      destruct (Z.eqb_spec (strcmp user (bstr "defuser")) 0) as [Hd|Hd], (Z.eqb_spec (strcmp sh PSH_DEFUSRPWDHASH) 0) as [Hs|Hs]; simpl.
      1:{ left. apply strcmp_eq in Hd, Hs. subst. eauto. }
      all: right; split; [done|]; intros [?|[Hd' Hs']]; [done|]; simplify_eq; by rewrite strcmp_refl in *.
    + eexists _, p. split; [reflexivity|]. split; [|done]. right. split; [done|].
      by intros [?|[_ ?]].
Qed.

(** Lines the login prompt does not accept. *)
Definition refused (bad : list bytes) : Prop :=
  Forall (fun l => no_newline l /\ usable maxlen (typed l) = false) bad.

(** C29: authentication.  On a terminal whose calls all succeed and with options that were
    parsed: after any number of login lines without a usable name, a line with a usable
    name and a password line, [psh_auth] accepts exactly the valid credentials: it
    returns 0 if the printable characters typed are those of a user whose stored hash the
    password hashes to, or the default user's, and [-EACCES] otherwise.  It consumes
    exactly those lines, and the password's bytes are wiped. *)
Theorem auth_decides mem lflag username passwd PATH_CONSOLE opts console s bad good pw rest :
  auth_opts opts PATH_CONSOLE = Some console ->
  os_isatty 1 (t_fds (auth_open usleep 5 mem console s)) = true ->
  zlen username = maxlen + 1 -> zlen passwd = maxlen + 1 ->
  refused bad -> no_newline good -> usable maxlen (typed good) = true -> no_newline pw ->
  exists ret out p,
    psh_auth ICANON ECHO ISIG usleep getpwnam crypt PSH_DEFUSRPWDHASH mem all_ok all_ok lflag
        username passwd PATH_CONSOLE opts (text (bad ++ [good]) ++ pw ++ 10 :: rest) s =
      Some (Login ret (auth_open usleep 5 mem console s) rest out p) /\
    decided (typed good) (password maxlen pw) ret /\
    take (Z.to_nat maxlen) p = replicate (Z.to_nat maxlen) 0.
Proof.
  intros Ho Ht Hu Hp Hb Hg Hgu Hpw. assert (0 <= maxlen) as Hm by done.
  destruct (login_line ICANON ECHO ISIG maxlen Hm lflag username bad good (pw ++ 10 :: rest) Hu Hb Hg Hgu)
    as (ub & Hul & Hus & HU).
  destruct (password_line ICANON ECHO ISIG maxlen Hm lflag passwd pw rest Hp ltac:(done) Hpw)
    as (pb & Hpl & Hps & HP).
  destruct (auth_check_decides ub pb _ _ Hpl Hus Hps) as (ret & p & HC & Hd & Hz).
  unfold psh_auth. rewrite Ho, Ht. cbn [negb]. rewrite HU. cbn [mbind option_bind cr_ret].
  unfold usable in Hgu. bprop.
  destruct (Z.eqb_spec (zlen (typed good) - 1) (- EINTR)); [unfold EINTR in *; lia|].
  cbn [cr_buff cr_lflag cr_input]. rewrite Hus. cbn [mbind option_bind].
  rewrite HP. cbn [mbind option_bind cr_ret cr_input cr_buff].
  destruct (Z.eqb_spec (Z.max 0 (zlen (password maxlen pw) - 1)) (- EINTR)); [unfold EINTR in *; lia|].
  rewrite HC. simpl. eauto 10.
Qed.

(** An interrupted login lets nobody in.  When the input ends before a usable
    name, or before the end of the password line, [psh_auth] returns [-EINTR]. *)
Theorem auth_interrupted mem lflag username passwd PATH_CONSOLE opts console s bad good part input :
  auth_opts opts PATH_CONSOLE = Some console ->
  os_isatty 1 (t_fds (auth_open usleep 5 mem console s)) = true ->
  zlen username = maxlen + 1 -> zlen passwd = maxlen + 1 ->
  refused bad -> no_newline good -> no_newline part ->
  (input = text bad ++ part \/ (usable maxlen (typed good) = true /\ input = text (bad ++ [good]) ++ part)) ->
  exists lg,
    psh_auth ICANON ECHO ISIG usleep getpwnam crypt PSH_DEFUSRPWDHASH mem all_ok all_ok lflag
        username passwd PATH_CONSOLE opts input s = Some lg /\ lg_ret lg = - EINTR.
Proof.
  intros Ho Ht Hu Hp Hb Hg Hpart Hin. assert (0 <= maxlen) as Hm by done.
  unfold psh_auth. rewrite Ho, Ht. cbn [negb]. destruct Hin as [->|[Hgu ->]].
  - destruct (credentials_eof ICANON ECHO ISIG maxlen Hm lflag username false bad part Hu Hpart Hb ltac:(done))
      as (c & -> & Hr & _). cbn [mbind option_bind]. rewrite Hr. simpl. eauto.
  - destruct (login_line ICANON ECHO ISIG maxlen Hm lflag username bad good part Hu Hb Hg Hgu)
      as (ub & Hul & Hus & ->). cbn [mbind option_bind cr_ret].
    unfold usable in Hgu. bprop.
    destruct (Z.eqb_spec (zlen (typed good) - 1) (- EINTR)); [unfold EINTR in *; lia|].
    cbn [cr_buff cr_lflag cr_input]. rewrite Hus. cbn [mbind option_bind].
    destruct (credentials_eof ICANON ECHO ISIG maxlen Hm lflag passwd true [] part Hp Hpart ltac:(constructor) ltac:(done))
      as (c & E & Hr & _). simpl in E. rewrite E. cbn [mbind option_bind]. rewrite Hr. simpl. eauto.
Qed.

(** A terminal whose attributes cannot be read is not noticed.  Both calls of
    [psh_authcredentget] then fail with [-ENOTTY], which [psh_auth] does not
    test: it decides on whatever the stack held in [username] and [passwd],
    and no input is read. *)
Theorem auth_reads_garbage mem tty1 tty2 lflag username passwd user pass PATH_CONSOLE opts console s input :
  auth_opts opts PATH_CONSOLE = Some console ->
  os_isatty 1 (t_fds (auth_open usleep 5 mem console s)) = true ->
  get_ok tty1 = false -> get_ok tty2 = false -> zlen passwd = maxlen + 1 ->
  as_string username = Some user -> as_string passwd = Some pass ->
  exists lg,
    psh_auth ICANON ECHO ISIG usleep getpwnam crypt PSH_DEFUSRPWDHASH mem tty1 tty2 lflag
        username passwd PATH_CONSOLE opts input s = Some lg /\
    decided user pass (lg_ret lg) /\ lg_input lg = input.
Proof.
  intros Ho Ht H1 H2 Hp Hus Hps.
  destruct (auth_check_decides username passwd _ _ Hp Hus Hps) as (ret & p & HC & Hd & Hz).
  unfold psh_auth. rewrite Ho, Ht. cbn [negb].
  unfold psh_authcredentget. rewrite H1, H2. cbn. rewrite Hus. cbn. rewrite HC. cbn. eauto.
Qed.
End decide.

(** ** Witnesses *)

(** A toy password database, whose hash is the reversed password, on a table
    where descriptor 1 is a terminal. *)
Definition ex_getpwnam (u : bytes) : option bytes := if decide (u = bstr "root") then Some (bstr "toor") else None.
Definition ex_crypt (p _ : bytes) : option bytes := Some (reverse p).
Definition ex_tty : ttyst ftab := Ttyst None ex_fds.

Lemma ex_tty_open :
  os_isatty 1 (t_fds (auth_open id 5 (fun _ => true) (bstr "/dev/tty1") ex_tty)) = true.
Proof. vm_compute. reflexivity. Qed.

Ltac lines := repeat first [done | constructor].

Lemma auth_decides_witness :
  exists ret out p,
    psh_auth 2 8 1 id ex_getpwnam ex_crypt (bstr "x") (fun _ => true) all_ok all_ok 11
        (replicate 33 7) (replicate 33 7) (bstr "/dev/console") [(116, bstr "/dev/tty1")]
        (text ([[]] ++ [bstr "root"]) ++ bstr "root" ++ 10 :: []) ex_tty =
      Some (Login ret (auth_open id 5 (fun _ => true) (bstr "/dev/tty1") ex_tty) [] out p) /\
    decided ex_getpwnam ex_crypt (bstr "x") (bstr "root") (bstr "root") ret /\
    take (Z.to_nat maxlen) p = replicate (Z.to_nat maxlen) 0.
Proof.
  apply (auth_decides 2 8 1 id ex_getpwnam ex_crypt (bstr "x") (fun _ => true) 11
    (replicate 33 7) (replicate 33 7) (bstr "/dev/console") [(116, bstr "/dev/tty1")] (bstr "/dev/tty1") ex_tty
    [[]] (bstr "root") (bstr "root") []); try reflexivity; lines.
Defined.

Lemma auth_interrupted_witness :
  exists lg,
    psh_auth 2 8 1 id ex_getpwnam ex_crypt (bstr "x") (fun _ => true) all_ok all_ok 11
        (replicate 33 7) (replicate 33 7) (bstr "/dev/console") [(116, bstr "/dev/tty1")]
        (text ([[]] ++ [bstr "root"]) ++ bstr "ro") ex_tty = Some lg /\ lg_ret lg = - EINTR.
Proof.
  apply (auth_interrupted 2 8 1 id ex_getpwnam ex_crypt (bstr "x") (fun _ => true) 11
    (replicate 33 7) (replicate 33 7) (bstr "/dev/console") [(116, bstr "/dev/tty1")] (bstr "/dev/tty1") ex_tty
    [[]] (bstr "root") (bstr "ro")); try reflexivity;
    try (right; split; reflexivity); lines.
Defined.

Lemma auth_reads_garbage_witness :
  exists lg,
    psh_auth 2 8 1 id ex_getpwnam ex_crypt (bstr "x") (fun _ => true)
        (Ttycalls false true true) (Ttycalls false true true) 11
        (bstr "defuser" ++ [0]) (bstr "x" ++ replicate 32 0) (bstr "/dev/console") [(116, bstr "/dev/tty1")] [] ex_tty = Some lg /\
    decided ex_getpwnam ex_crypt (bstr "x") (bstr "defuser") (bstr "x") (lg_ret lg) /\ lg_input lg = [].
Proof.
  apply (auth_reads_garbage 2 8 1 id ex_getpwnam ex_crypt (bstr "x") (fun _ => true)
    (Ttycalls false true true) (Ttycalls false true true) 11 (bstr "defuser" ++ [0]) (bstr "x" ++ replicate 32 0)
    (bstr "defuser") (bstr "x") (bstr "/dev/console") [(116, bstr "/dev/tty1")] (bstr "/dev/tty1") ex_tty []); reflexivity.
Defined.
