(* ===== verification/Env.v ===== *)
(** * The environment applets ([psh/pshapp/env.c])

    The environment is a state [E] of the C library behind [setenv],
    [unsetenv] and [environ]; the theorems use what they document. *)

From stdpp Require Import gmap.
From S2P Require Import Prelude Parse LineEdit Shell.

(** The [while] of [psh_validateVarName]; [name] is a C string. *)
Fixpoint validate_loop (name : bytes) (len : Z) : Z :=
  match name with
  | [] => 0
  | c :: name =>
      if len =? 0 then 0
      else if negb (isalnum c) && negb (c =? 95) then - EINVAL
      else validate_loop name (len - 1)
  end.

Definition psh_validateVarName (name : bytes) (len : Z) : Z :=
  if len =? 0 then - EINVAL
  else match name with
       | [] => - EINVAL
       | c :: _ => if isdigit c then - EINVAL else validate_loop name len
       end.

(** [strchr(s, '=')] as an index. *)
Fixpoint find_eq (s : bytes) : option Z :=
  match s with
  | [] => None
  | c :: s => if c =? 61 then Some 0 else n ← find_eq s; Some (n + 1)
  end.

Section env.
Context {E : Type}.
Context (setenv : bytes -> bytes -> E -> Z * E) (unsetenv : bytes -> E -> E) (environ : E -> list bytes).
Context (mem : nat -> bool).

(** The [while (argc > 1)] over the remaining arguments. *)
Fixpoint export_loop (argv : list bytes) (err : Z) (e : E) : Z * E :=
  match argv with
  | [] => (if negb (err =? 0) then EXIT_FAILURE else EXIT_SUCCESS, e)
  | a :: argv =>
      let value := find_eq a in
      let len := default (-1) value in
      if negb (psh_validateVarName a len =? 0) then export_loop argv err e
      else
        match value with
        | None => export_loop argv err e
        | Some v =>
            if negb (mem (length argv)) then (EXIT_FAILURE, e)
            else
              let '(r, e) := setenv (take (Z.to_nat len) a) (drop (Z.to_nat (v + 1)) a) e in
              export_loop argv (if negb (r =? 0) then 1 else err) e
        end
  end.

(** Result, environment and output. *)
Definition psh_exportEnv (argv : list bytes) (e : E) : option (Z * E * bytes) :=
  if zlen argv =? 1 then
    Some (EXIT_SUCCESS, e, mjoin ((fun l => bstr "export " ++ l ++ [10]) <$> environ e))
  else
    a ← rd argv 1;
    c ← rd (a ++ [0]) 0;
    if c =? 45 then Some (EXIT_FAILURE, e, [])
    else Some (export_loop (drop 1 argv) 0 e, []).

Definition psh_unsetEnv (argv : list bytes) (e : E) : option (Z * E) :=
  if 1 <? zlen argv then
    a ← rd argv 1;
    c ← rd (a ++ [0]) 0;
    if c =? 45 then Some (EXIT_FAILURE, e)
    else Some (EXIT_SUCCESS, foldl (fun e a => unsetenv a e) e (drop 1 argv))
  else Some (EXIT_SUCCESS, e).
End env.

(** ** Reference: assignments *)

Definition ident_char (c : Z) : bool := isalnum c || (c =? 95).

(** An identifier: letters, digits and underscores, not starting with a digit. *)
Definition identifier (name : bytes) : bool :=
  match name with [] => false | c :: _ => negb (isdigit c) && forallb ident_char name end.

(** The name and value of an argument, when it assigns to an identifier. *)
Definition assignment (a : bytes) : option (bytes * bytes) :=
  n ← find_eq a;
  let name := take (Z.to_nat n) a in
  if identifier name then Some (name, drop (Z.to_nat (n + 1)) a) else None.

Lemma validate_loop_spec name len :
  validate_loop name len =
    if forallb ident_char (if len <? 0 then name else take (Z.to_nat len) name) then 0 else - EINVAL.
Proof.
  revert len. induction name as [|c name IH]; intros len; [by destruct (len <? 0); rewrite ?take_nil|].
  simpl. destruct (Z.eqb_spec len 0) as [->|Hl]; [done|].
  assert (negb (isalnum c) && negb (c =? 95) = negb (ident_char c)) as ->.
  { unfold ident_char. by rewrite negb_orb. }
  destruct (Z.ltb_spec len 0).
  - simpl. rewrite IH. destruct (Z.ltb_spec (len - 1) 0); [|lia]. by destruct (ident_char c).
  - replace (Z.to_nat len) with (Datatypes.S (Z.to_nat (len - 1))) by lia. simpl.
    rewrite IH. destruct (Z.ltb_spec (len - 1) 0); [lia|]. by destruct (ident_char c).
Qed.

Lemma find_eq_range a n : find_eq a = Some n -> 0 <= n < zlen a.
Proof.
  revert n. induction a as [|c a IH]; intros n; simpl; [done|]. destruct (c =? 61).
  - intros [= <-]. zlia.
  - intros H. obind H. simplify_eq. specialize (IH _ E). zlia.
Qed.

Lemma validate_assignment a n :
  find_eq a = Some n -> (psh_validateVarName a n =? 0) = identifier (take (Z.to_nat n) a).
Proof.
  intros Hn. pose proof (find_eq_range _ _ Hn) as Hr. unfold psh_validateVarName.
  destruct (Z.eqb_spec n 0) as [->|Hz]; [done|].
  destruct a as [|c a]; [zlia|]. rewrite validate_loop_spec.
  destruct (Z.ltb_spec n 0); [lia|].
  replace (Z.to_nat n) with (Datatypes.S (Z.to_nat (n - 1))) by lia. unfold identifier. simpl take.
  cbv beta iota. destruct (isdigit c); [reflexivity|]. cbn [negb andb]. destruct (forallb _ _); reflexivity.
Qed.

Section laws.
Context {E : Type}.
Context (setenv : bytes -> bytes -> E -> Z * E) (unsetenv : bytes -> E -> E) (environ : E -> list bytes).
Context (mem : nat -> bool) (Hmem : forall k, mem k = true).
Context (getenv : bytes -> E -> option bytes).
(** [setenv] with overwriting, and [unsetenv]. *)
Context (setenv_law : forall n v e m,
  getenv m (setenv n v e).2 =
    if decide ((setenv n v e).1 = 0 /\ m = n) then Some v else getenv m e).
Context (unsetenv_law : forall n e m,
  getenv m (unsetenv n e) = if decide (m = n) then None else getenv m e).

(** The last assignment of the arguments to [m], on top of [old]. *)
Definition assigned (args : list bytes) (m : bytes) (old : option bytes) : option bytes :=
  foldl (fun old a => match assignment a with
                      | Some (n, v) => if decide (m = n) then Some v else old
                      | None => old
                      end) old args.

Lemma export_loop_step a args err e :
  export_loop setenv mem (a :: args) err e =
    match assignment a with
    | Some (n, v) => export_loop setenv mem args (if negb ((setenv n v e).1 =? 0) then 1 else err) (setenv n v e).2
    | None => export_loop setenv mem args err e
    end.
Proof.
  cbn [export_loop]. unfold assignment. destruct (find_eq a) as [n|] eqn:En; simpl.
  - rewrite (validate_assignment a n En). destruct (identifier _); simpl; [|done].
    rewrite Hmem. simpl. by destruct (setenv _ _ e).
  - by destruct (negb _).
Qed.

Lemma export_loop_failed args err e :
  err <> 0 -> (export_loop setenv mem args err e).1 = EXIT_FAILURE.
Proof.
  revert err e. induction args as [|a args IH]; intros err e He.
  - simpl. by rewrite (proj2 (Z.eqb_neq _ _) He).
  - rewrite export_loop_step. destruct (assignment a) as [[n v]|]; apply IH; [|done].
    by destruct (negb _).
Qed.

Lemma export_loop_assigned args e :
  (export_loop setenv mem args 0 e).1 = EXIT_SUCCESS ->
  forall m, getenv m (export_loop setenv mem args 0 e).2 = assigned args m (getenv m e).
Proof.
  revert e. induction args as [|a args IH]; intros e; [done|]. rewrite export_loop_step. simpl.
  destruct (assignment a) as [[n v]|]; [|apply IH].
  pose proof (fun m => setenv_law n v e m) as Hl. destruct (setenv n v e) as [r e'] eqn:Es; simpl in *.
  destruct (Z.eqb_spec r 0) as [->|Hr]; simpl.
  - intros H m. rewrite (IH _ H), Hl. f_equal. apply decide_ext. clear; tauto.
  - intros H. by rewrite export_loop_failed in H.
Qed.

Lemma unset_all args e m :
  getenv m (foldl (fun e a => unsetenv a e) e args) = if decide (m ∈ args) then None else getenv m e.
Proof.
  revert e. induction args as [|a args IH]; intros e; simpl; [done|]. rewrite IH, unsetenv_law.
  clear IH. destruct (decide (m = a)) as [->|Hne].
  - rewrite (decide_True (P := a ∈ a :: args)) by left. by destruct (decide (a ∈ args)).
  - apply decide_ext. rewrite elem_of_cons. clear -Hne. tauto.
Qed.

(** [export].  When the applet succeeds, every variable has the value of the
    last argument that assigns it, a [NAME=value] whose name is an identifier;
    all other variables keep theirs, and malformed arguments change nothing. *)
Theorem export_assigns name args e e' out :
  args <> [] -> psh_exportEnv setenv environ mem (name :: args) e = Some (EXIT_SUCCESS, e', out) ->
  out = [] /\ forall m, getenv m e' = assigned args m (getenv m e).
Proof.
  intros Ha. unfold psh_exportEnv. destruct args as [|a args]; [done|].
  destruct (Z.eqb_spec (zlen (name :: a :: args)) 1); [zlia|].
  change (rd (name :: a :: args) 1) with (Some a). cbn [mbind option_bind drop].
  destruct (rd (a ++ [0]) 0) as [c|]; [|done]. simpl. destruct (c =? 45); [done|].
  intros [= Hr <-]. split; [done|]. intros m.
  pose proof (export_loop_assigned (a :: args) e) as Hx.
  simpl in Hr, Hx. rewrite Hr in Hx. by apply Hx.
Qed.

(** [unset] removes exactly the variables it names, unless the first argument
    looks like an option. *)
Theorem unset_removes name a args e :
  match a with c :: _ => c <> 45 | [] => True end ->
  exists e', psh_unsetEnv unsetenv (name :: a :: args) e = Some (EXIT_SUCCESS, e') /\
    forall m, getenv m e' = if decide (m ∈ a :: args) then None else getenv m e.
Proof.
  intros Hc. unfold psh_unsetEnv.
  destruct (Z.ltb_spec 1 (zlen (name :: a :: args))); [|unfold zlen in *; simpl in *; lia].
  change (rd (name :: a :: args) 1) with (Some a). cbn [mbind option_bind drop].
  destruct a as [|c a]; simpl.
  - eexists. split; [reflexivity|]. intros m. exact (unset_all ([] :: args) e m).
  - rewrite (proj2 (Z.eqb_neq _ _) Hc). eexists. split; [reflexivity|]. intros m.
    exact (unset_all ((c :: a) :: args) e m).
Qed.
End laws.

(** ** Witnesses *)

Definition ex_setenv (n v : bytes) (e : gmap bytes bytes) : Z * gmap bytes bytes := (0, <[n := v]> e).
Definition ex_unsetenv (n : bytes) (e : gmap bytes bytes) : gmap bytes bytes := delete n e.
Definition ex_getenv (n : bytes) (e : gmap bytes bytes) : option bytes := e !! n.

Lemma ex_setenv_law n v e m :
  ex_getenv m (ex_setenv n v e).2 =
    if decide ((ex_setenv n v e).1 = 0 /\ m = n) then Some v else ex_getenv m e.
Proof.
  unfold ex_getenv, ex_setenv. simpl. case_decide as Hd.
  - destruct Hd as [_ ->]. by rewrite lookup_insert_eq.
  - rewrite lookup_insert_ne; naive_solver.
Qed.

Lemma ex_unsetenv_law n e m :
  ex_getenv m (ex_unsetenv n e) = if decide (m = n) then None else ex_getenv m e.
Proof.
  unfold ex_getenv, ex_unsetenv. case_decide as Hd.
  - subst. apply lookup_delete_eq.
  - by rewrite lookup_delete_ne by done.
Qed.

Definition ex_args : list bytes := bstr <$> ["A=1"; "2B=x"; "A=7=8"; "C"]%string.

Lemma export_assigns_witness :
  exists e', psh_exportEnv ex_setenv (fun _ => []) (fun _ => true) (bstr "export" :: ex_args) ∅ = Some (EXIT_SUCCESS, e', []) /\
    ex_getenv (bstr "A") e' = Some (bstr "7=8").
Proof.
  destruct (psh_exportEnv ex_setenv (fun _ => []) (fun _ => true) (bstr "export" :: ex_args) ∅)
    as [[[r e'] out]|] eqn:E0; [|vm_compute in E0; discriminate].
  assert (r = EXIT_SUCCESS) as -> by (vm_compute in E0; by inversion E0).
  destruct (export_assigns ex_setenv (fun _ => []) (fun _ => true) (fun _ => eq_refl) ex_getenv ex_setenv_law
    (bstr "export") ex_args ∅ e' out ltac:(discriminate) E0) as [-> Hm].
  exists e'. split; [done|]. rewrite Hm. reflexivity.
Defined.

Lemma unset_removes_witness :
  exists e', psh_unsetEnv ex_unsetenv [bstr "unset"; bstr "A"; bstr "B"] {[ bstr "B" := [49]; bstr "C" := [50] ]}
      = Some (EXIT_SUCCESS, e') /\
    forall m, ex_getenv m e' =
      if decide (m ∈ [bstr "A"; bstr "B"]) then None
      else ex_getenv m {[ bstr "B" := [49]; bstr "C" := [50] ]}.
Proof.
  apply (unset_removes ex_unsetenv ex_getenv ex_unsetenv_law (bstr "unset") (bstr "A") [bstr "B"]).
  discriminate.
Defined.
