(* ===== verification/Edit.v ===== *)
(** * The text editor ([psh/edit/edit.c])

    The globals [edit_common] and [term_common] are one state [ed].  The array of
    rows is the list of the allocated elements, a row's text the list of the
    allocated characters; bytes and rows that [malloc] and [realloc] leave
    undefined hold [junk].  What the editor prints is appended to [e_out], the file
    it edits is [e_disk]. *)

From S2P Require Import Prelude Prefix.

Definition EDIT_TAB_STOP : Z := 4.

Record row_t := Row { r_chars : option bytes; r_len : Z; r_updated : bool }.

Inductive ev_what := evNone | evRedraw | evQuit | evFatalError | evKey | evKeyDead.
(** The union of [key] and [errcode] is one [int]. *)
Record event_t := Event { what : ev_what; data : Z }.

Definition colorDefault : Z := 112.
Definition colorInfo : Z := 96.
Definition colorWarn : Z := 176.
Definition colorError : Z := 16.

Definition keyEsc : Z := 27.
Definition keyEnter : Z := 13.
Definition keyEditFirst : Z := 256.
Definition keyBksp : Z := keyEditFirst + 37.
Definition keyTab : Z := keyEditFirst + 45.
Definition keyShiftTab : Z := keyEditFirst + 61.
Definition keyUp : Z := keyEditFirst + 65.
Definition keyDown : Z := keyEditFirst + 66.
Definition keyRight : Z := keyEditFirst + 67.
Definition keyLeft : Z := keyEditFirst + 68.
Definition keyIns : Z := keyEditFirst + 50.
Definition keyDel : Z := keyEditFirst + 51.
Definition keyPgup : Z := keyEditFirst + 53.
Definition keyPgdn : Z := keyEditFirst + 54.
Definition keyHome : Z := keyEditFirst + 55.
Definition keyEnd : Z := keyEditFirst + 56.
Definition keyCtrlFirst : Z := 512.
Definition keyCtrlC : Z := keyCtrlFirst + 67.
Definition keyCtrlD : Z := keyCtrlFirst + 68.
Definition keyCtrlL : Z := keyCtrlFirst + 76.
Definition keyCtrlQ : Z := keyCtrlFirst + 81.
Definition keyCtrlS : Z := keyCtrlFirst + 83.
Definition keyCtrlX : Z := keyCtrlFirst + 88.

Record ed := Ed {
  e_filename : option bytes;
  e_row : list row_t;
  e_rows : Z;
  e_cols : Z;
  e_hbar : Z;
  e_cx : Z;
  e_cy : Z;
  e_vx : Z;
  e_vy : Z;
  e_rx : Z;
  e_nrows : Z;
  e_msg : option bytes;
  e_color : Z;
  e_dirty : bool;
  e_replace : bool;
  t_ev : event_t;
  t_evCnt : Z;
  t_cols : Z;
  t_rows : Z;
  e_out : bytes;
  e_disk : option bytes
}.

Definition set_filename (v : option bytes) (s : ed) : ed :=
  Ed v (e_row s) (e_rows s) (e_cols s) (e_hbar s) (e_cx s) (e_cy s) (e_vx s) (e_vy s) (e_rx s) (e_nrows s) (e_msg s) (e_color s) (e_dirty s) (e_replace s) (t_ev s) (t_evCnt s) (t_cols s) (t_rows s) (e_out s) (e_disk s).
Definition set_row (v : list row_t) (s : ed) : ed :=
  Ed (e_filename s) v (e_rows s) (e_cols s) (e_hbar s) (e_cx s) (e_cy s) (e_vx s) (e_vy s) (e_rx s) (e_nrows s) (e_msg s) (e_color s) (e_dirty s) (e_replace s) (t_ev s) (t_evCnt s) (t_cols s) (t_rows s) (e_out s) (e_disk s).
Definition set_rows (v : Z) (s : ed) : ed :=
  Ed (e_filename s) (e_row s) v (e_cols s) (e_hbar s) (e_cx s) (e_cy s) (e_vx s) (e_vy s) (e_rx s) (e_nrows s) (e_msg s) (e_color s) (e_dirty s) (e_replace s) (t_ev s) (t_evCnt s) (t_cols s) (t_rows s) (e_out s) (e_disk s).
Definition set_cols (v : Z) (s : ed) : ed :=
  Ed (e_filename s) (e_row s) (e_rows s) v (e_hbar s) (e_cx s) (e_cy s) (e_vx s) (e_vy s) (e_rx s) (e_nrows s) (e_msg s) (e_color s) (e_dirty s) (e_replace s) (t_ev s) (t_evCnt s) (t_cols s) (t_rows s) (e_out s) (e_disk s).
Definition set_hbar (v : Z) (s : ed) : ed :=
  Ed (e_filename s) (e_row s) (e_rows s) (e_cols s) v (e_cx s) (e_cy s) (e_vx s) (e_vy s) (e_rx s) (e_nrows s) (e_msg s) (e_color s) (e_dirty s) (e_replace s) (t_ev s) (t_evCnt s) (t_cols s) (t_rows s) (e_out s) (e_disk s).
Definition set_cx (v : Z) (s : ed) : ed :=
  Ed (e_filename s) (e_row s) (e_rows s) (e_cols s) (e_hbar s) v (e_cy s) (e_vx s) (e_vy s) (e_rx s) (e_nrows s) (e_msg s) (e_color s) (e_dirty s) (e_replace s) (t_ev s) (t_evCnt s) (t_cols s) (t_rows s) (e_out s) (e_disk s).
Definition set_cy (v : Z) (s : ed) : ed :=
  Ed (e_filename s) (e_row s) (e_rows s) (e_cols s) (e_hbar s) (e_cx s) v (e_vx s) (e_vy s) (e_rx s) (e_nrows s) (e_msg s) (e_color s) (e_dirty s) (e_replace s) (t_ev s) (t_evCnt s) (t_cols s) (t_rows s) (e_out s) (e_disk s).
Definition set_vx (v : Z) (s : ed) : ed :=
  Ed (e_filename s) (e_row s) (e_rows s) (e_cols s) (e_hbar s) (e_cx s) (e_cy s) v (e_vy s) (e_rx s) (e_nrows s) (e_msg s) (e_color s) (e_dirty s) (e_replace s) (t_ev s) (t_evCnt s) (t_cols s) (t_rows s) (e_out s) (e_disk s).
Definition set_vy (v : Z) (s : ed) : ed :=
  Ed (e_filename s) (e_row s) (e_rows s) (e_cols s) (e_hbar s) (e_cx s) (e_cy s) (e_vx s) v (e_rx s) (e_nrows s) (e_msg s) (e_color s) (e_dirty s) (e_replace s) (t_ev s) (t_evCnt s) (t_cols s) (t_rows s) (e_out s) (e_disk s).
Definition set_rx (v : Z) (s : ed) : ed :=
  Ed (e_filename s) (e_row s) (e_rows s) (e_cols s) (e_hbar s) (e_cx s) (e_cy s) (e_vx s) (e_vy s) v (e_nrows s) (e_msg s) (e_color s) (e_dirty s) (e_replace s) (t_ev s) (t_evCnt s) (t_cols s) (t_rows s) (e_out s) (e_disk s).
Definition set_nrows (v : Z) (s : ed) : ed :=
  Ed (e_filename s) (e_row s) (e_rows s) (e_cols s) (e_hbar s) (e_cx s) (e_cy s) (e_vx s) (e_vy s) (e_rx s) v (e_msg s) (e_color s) (e_dirty s) (e_replace s) (t_ev s) (t_evCnt s) (t_cols s) (t_rows s) (e_out s) (e_disk s).
Definition set_msg (v : option bytes) (s : ed) : ed :=
  Ed (e_filename s) (e_row s) (e_rows s) (e_cols s) (e_hbar s) (e_cx s) (e_cy s) (e_vx s) (e_vy s) (e_rx s) (e_nrows s) v (e_color s) (e_dirty s) (e_replace s) (t_ev s) (t_evCnt s) (t_cols s) (t_rows s) (e_out s) (e_disk s).
Definition set_color (v : Z) (s : ed) : ed :=
  Ed (e_filename s) (e_row s) (e_rows s) (e_cols s) (e_hbar s) (e_cx s) (e_cy s) (e_vx s) (e_vy s) (e_rx s) (e_nrows s) (e_msg s) v (e_dirty s) (e_replace s) (t_ev s) (t_evCnt s) (t_cols s) (t_rows s) (e_out s) (e_disk s).
Definition set_dirty (v : bool) (s : ed) : ed :=
  Ed (e_filename s) (e_row s) (e_rows s) (e_cols s) (e_hbar s) (e_cx s) (e_cy s) (e_vx s) (e_vy s) (e_rx s) (e_nrows s) (e_msg s) (e_color s) v (e_replace s) (t_ev s) (t_evCnt s) (t_cols s) (t_rows s) (e_out s) (e_disk s).
Definition set_replace (v : bool) (s : ed) : ed :=
  Ed (e_filename s) (e_row s) (e_rows s) (e_cols s) (e_hbar s) (e_cx s) (e_cy s) (e_vx s) (e_vy s) (e_rx s) (e_nrows s) (e_msg s) (e_color s) (e_dirty s) v (t_ev s) (t_evCnt s) (t_cols s) (t_rows s) (e_out s) (e_disk s).
Definition set_t_ev (v : event_t) (s : ed) : ed :=
  Ed (e_filename s) (e_row s) (e_rows s) (e_cols s) (e_hbar s) (e_cx s) (e_cy s) (e_vx s) (e_vy s) (e_rx s) (e_nrows s) (e_msg s) (e_color s) (e_dirty s) (e_replace s) v (t_evCnt s) (t_cols s) (t_rows s) (e_out s) (e_disk s).
Definition set_t_evCnt (v : Z) (s : ed) : ed :=
  Ed (e_filename s) (e_row s) (e_rows s) (e_cols s) (e_hbar s) (e_cx s) (e_cy s) (e_vx s) (e_vy s) (e_rx s) (e_nrows s) (e_msg s) (e_color s) (e_dirty s) (e_replace s) (t_ev s) v (t_cols s) (t_rows s) (e_out s) (e_disk s).
Definition set_t_cols (v : Z) (s : ed) : ed :=
  Ed (e_filename s) (e_row s) (e_rows s) (e_cols s) (e_hbar s) (e_cx s) (e_cy s) (e_vx s) (e_vy s) (e_rx s) (e_nrows s) (e_msg s) (e_color s) (e_dirty s) (e_replace s) (t_ev s) (t_evCnt s) v (t_rows s) (e_out s) (e_disk s).
Definition set_t_rows (v : Z) (s : ed) : ed :=
  Ed (e_filename s) (e_row s) (e_rows s) (e_cols s) (e_hbar s) (e_cx s) (e_cy s) (e_vx s) (e_vy s) (e_rx s) (e_nrows s) (e_msg s) (e_color s) (e_dirty s) (e_replace s) (t_ev s) (t_evCnt s) (t_cols s) v (e_out s) (e_disk s).
Definition set_out (v : bytes) (s : ed) : ed :=
  Ed (e_filename s) (e_row s) (e_rows s) (e_cols s) (e_hbar s) (e_cx s) (e_cy s) (e_vx s) (e_vy s) (e_rx s) (e_nrows s) (e_msg s) (e_color s) (e_dirty s) (e_replace s) (t_ev s) (t_evCnt s) (t_cols s) (t_rows s) v (e_disk s).
Definition set_disk (v : option bytes) (s : ed) : ed :=
  Ed (e_filename s) (e_row s) (e_rows s) (e_cols s) (e_hbar s) (e_cx s) (e_cy s) (e_vx s) (e_vy s) (e_rx s) (e_nrows s) (e_msg s) (e_color s) (e_dirty s) (e_replace s) (t_ev s) (t_evCnt s) (t_cols s) (t_rows s) (e_out s) v.

(** [fprintf(stdout, ...)] and [fputc]. *)
Definition print (b : bytes) (s : ed) : ed := set_out (e_out s ++ b) s.
Definition ESC : bytes := [27].
(** [%d]. *)
Definition fmt_d (x : Z) : bytes := if x <? 0 then 45 :: dec (- x) else dec x.

Definition edit_status (msg : bytes) (color : Z) (s : ed) : ed :=
  set_msg (Some msg) (set_color color s).

Definition edit_error (errcode : Z) (s : ed) : Z * ed :=
  (- errcode, set_t_ev (Event evFatalError errcode) s).

(** [realloc] of [l] to [n] elements. *)
Definition realloc {A} (junk : A) (n : Z) (l : list A) : list A :=
  take (Z.to_nat n) l ++ replicate (Z.to_nat n - length l) junk.
Definition junk_row : row_t := Row None 0 false.

Definition mark (r : row_t) : row_t := Row (r_chars r) (r_len r) true.
(** [for (i = lo; i < hi; i++) row[i].updated = 1]. *)
Definition mark_rows (lo hi : Z) (rs : list row_t) : option (list row_t) :=
  for_loop lo (Z.to_nat (hi - lo)) (fun i rs => r ← rd rs i; wr rs i (mark r)) rs.

(** Row [i] and its characters. *)
Definition get_row (i : Z) (s : ed) : option (row_t * bytes) :=
  r ← rd (e_row s) i; c ← r_chars r; Some (r, c).
Definition put_row (i : Z) (r : row_t) (s : ed) : option ed :=
  rs ← wr (e_row s) i r; Some (set_row rs s).

Section ops.
(** What fresh memory holds, and the success of the allocations of one event. *)
Context (junk : Z) (mem : nat -> bool).

Definition edit_rowInsert (k : nat) (pos : Z) (line : bytes) (len : Z) (s : ed) : option (Z * ed) :=
  if (pos <? 0) || (e_nrows s <? pos) then Some (0, s)
  else if negb (mem k) then Some (edit_error ENOMEM s)
  else if negb (mem (k + 1)%nat) then Some (edit_error ENOMEM s)
  else
    let n := e_nrows s in
    let row := realloc junk_row (n + 1) (e_row s) in
    row ← (if 0 <? n - pos then memmove row (pos + 1) pos (n - pos) else Some row);
    old ← rd row pos;
    d ← rd_range line 0 len;
    row ← wr row pos (Row (Some (d ++ [junk])) len (r_updated old));
    row ← mark_rows pos (n + 1) row;
    Some (1, set_dirty true (set_nrows (n + 1) (set_row row s))).

Definition edit_rowDelete (cury : Z) (s : ed) : option ed :=
  let n := e_nrows s in
  if (cury <? 0) || (n <=? cury) then Some s
  else
    '(r, _) ← get_row cury s;
    row ← wr (e_row s) cury (Row None (r_len r) (r_updated r));
    row ← (if 1 <? n then
             row ← memmove row cury (cury + 1) (n - cury - 1); mark_rows cury n row
           else Some row);
    Some (set_dirty true (set_nrows (n - 1) (set_row row s))).

Definition edit_rowAppend (k : nat) (cury : Z) (chars : bytes) (len : Z) (s : ed) : option (Z * ed) :=
  '(r, c) ← get_row cury s;
  if negb (mem k) then Some (edit_error ENOMEM s)
  else
    d ← rd_range chars 0 len;
    tmp ← wr_range (realloc junk (r_len r + len + 1) c) (r_len r) d;
    s ← put_row cury (Row (Some tmp) (r_len r + len) true) s;
    Some (0, set_dirty true s).

Definition edit_rowInsertChar (k : nat) (curx cury ch : Z) (s : ed) : option (Z * ed) :=
  '(r, c) ← get_row cury s;
  let curx := if (curx <? 0) || (r_len r <? curx) then r_len r else curx in
  let grow := negb (e_replace s) || (curx =? r_len r) in
  if grow && negb (mem k) then Some (edit_error ENOMEM s)
  else
    let c := if grow then realloc junk (r_len r + 1) c else c in
    c ← (if grow && negb (e_replace s) then memmove c (curx + 1) curx (r_len r - curx) else Some c);
    c ← wr c curx ch;
    s ← put_row cury (Row (Some c) (if grow then r_len r + 1 else r_len r) true) s;
    Some (0, set_dirty true s).

Definition edit_rowDeleteChar (curx cury : Z) (s : ed) : option ed :=
  '(r, c) ← get_row cury s;
  if (curx <? 0) || (r_len r <=? curx) then Some s
  else
    let len := r_len r - 1 in
    c ← memmove c curx (curx + 1) (len - curx);
    s ← put_row cury (Row (Some c) len true) s;
    Some (set_dirty true s).

Definition edit_insertChar (ch : Z) (s : ed) : option ed :=
  '(err, s) ← (if e_cy s =? e_nrows s then edit_rowInsert 0 (e_nrows s) [] 0 s else Some (0, s));
  if err <? 0 then Some s
  else
    '(err, s) ← edit_rowInsertChar 2 (e_cx s) (e_cy s) ch s;
    Some (if err =? 0 then set_cx (e_cx s + 1) s else s).

Definition edit_deleteChar (s : ed) : option ed :=
  single ← (if e_nrows s =? 1 then r ← rd (e_row s) 0; Some (r_len r =? 0) else Some false);
  if single : bool then edit_rowDelete 0 (set_cx 0 (set_cy 0 s))
  else if (e_cx s =? 0) && (e_cy s =? 0) then Some s
  else if 0 <? e_cx s then
    s ← edit_rowDeleteChar (e_cx s - 1) (e_cy s) s;
    Some (set_cx (e_cx s - 1) s)
  else
    p ← rd (e_row s) (e_cy s - 1);
    let s := set_cx (r_len p) s in
    '(err, s) ← (if e_cy s <? e_nrows s then
                   '(r, c) ← get_row (e_cy s) s;
                   edit_rowAppend 0 (e_cy s - 1) c (r_len r) s
                 else Some (0, s));
    if err <? 0 then Some s
    else s ← edit_rowDelete (e_cy s) s; Some (set_cy (e_cy s - 1) s).

Definition edit_insertNewLine (s : ed) : option ed :=
  '(err, s) ←
    (if e_cx s =? 0 then edit_rowInsert 0 (e_cy s) [] 0 s
     else
       '(r, c) ← get_row (e_cy s) s;
       '(err, s) ← edit_rowInsert 0 (e_cy s + 1) (drop (Z.to_nat (e_cx s)) c) (r_len r - e_cx s) s;
       if err <? 0 then Some (err, s)
       else
         r ← rd (e_row s) (e_cy s);
         s ← put_row (e_cy s) (Row (r_chars r) (e_cx s) true) s;
         Some (err, s));
  if err <? 0 then Some s else Some (set_cx 0 (set_cy (e_cy s + 1) s)).
End ops.

(** ** The cursor and the window *)

Definition row_len (i : Z) (s : ed) : option Z := r ← rd (e_row s) i; Some (r_len r).

(** One step of [edit_cursorMove]. *)
Definition cursor_step (key : Z) (s : ed) : option ed :=
  s ← (if key =? keyUp then Some (if 0 <? e_cy s then set_cy (e_cy s - 1) s else s)
       else if key =? keyDown then Some (if e_cy s <? e_nrows s then set_cy (e_cy s + 1) s else s)
       else if key =? keyLeft then
         if 0 <? e_cx s then Some (set_cx (e_cx s - 1) s)
         else if 0 <? e_cy s then
           let s := set_cy (e_cy s - 1) s in
           n ← row_len (e_cy s) s; Some (set_cx n s)
         else Some s
       else if key =? keyRight then
         if e_cy s <? e_nrows s then
           n ← row_len (e_cy s) s;
           Some (if e_cx s <? n then set_cx (e_cx s + 1) s
                 else if e_cx s =? n then set_cx 0 (set_cy (e_cy s + 1) s)
                 else s)
         else Some s
       else Some s);
  if e_cy s <? e_nrows s then
    n ← row_len (e_cy s) s; Some (if n <? e_cx s then set_cx n s else s)
  else Some (set_cx 0 s).

Definition edit_cursorMove (key count : Z) (s : ed) : option ed :=
  for_loop 0 (Z.to_nat count) (fun _ => cursor_step key) s.

Definition edit_updateScroll (s : ed) : option (bool * ed) :=
  let vx := e_vx s in
  let vy := e_vy s in
  let s := set_rows (t_rows s - e_hbar s) (set_cols (t_cols s) (set_rx 0 s)) in
  s ← (if e_cy s <? e_nrows s then
         '(_, c) ← get_row (e_cy s) s;
         rx ← for_loop 0 (Z.to_nat (e_cx s)) (fun i rx =>
                ch ← rd c i;
                let rx := if ch =? 9 then rx + (EDIT_TAB_STOP - 1 - Z.rem rx EDIT_TAB_STOP) else rx in
                Some (rx + 1)) 0;
         Some (set_rx rx s)
       else Some s);
  let s := if e_cy s <? e_vy s then set_vy (e_cy s) s else s in
  let s := if e_vy s + e_rows s <=? e_cy s then set_vy (e_cy s - e_rows s + 1) s else s in
  let s := if e_rx s <? e_vx s then set_vx (e_rx s) s else s in
  let s := if e_vx s + e_cols s <=? e_rx s then set_vx (e_rx s - e_cols s + 1) s else s in
  Some (negb (vx =? e_vx s) || negb (vy =? e_vy s), s).

(** ** Drawing *)

(** [do ... while ((j % EDIT_TAB_STOP) != 0)]: at most four rounds. *)
Fixpoint tab_loop (fuel : nat) (offset last j : Z) (out : bytes) : option (Z * bytes) :=
  match fuel with
  | O => None
  | Datatypes.S fuel =>
      let out := if (offset <=? j) && (j <? last) then out ++ [32] else out in
      if Z.rem (j + 1) EDIT_TAB_STOP =? 0 then Some (j + 1, out)
      else tab_loop fuel offset last (j + 1) out
  end.

Definition render_char (c : bytes) (offset last i : Z) (st : Z * bytes) : option (Z * bytes) :=
  let '(j, out) := st in
  ch ← rd c i;
  if ch =? 9 then tab_loop (Z.to_nat EDIT_TAB_STOP) offset last j out
  else
    let ch := if (32 <=? ch) && (ch <=? 126) then ch else 63 in
    Some (j + 1, if (offset <=? j) && (j <? last) then out ++ [ch] else out).

(** The characters printed for a row; [offset] is an [int], [end] unsigned. *)
Definition edit_rowRender (c : bytes) (len offset cols : Z) : option bytes :=
  let last := u32 (offset + cols) in
  tabs ← for_loop 0 (Z.to_nat len) (fun i j => ch ← rd c i; Some (if ch =? 9 then j + 1 else j)) 0;
  let j := u32 (len + tabs * (EDIT_TAB_STOP - 1) + 1) in
  let offset := if j <? u32 offset then j else u32 offset in
  '(_, out) ← for_loop 0 (Z.to_nat len) (render_char c offset last) (0, []);
  Some out.

(** Line [y] of the window. *)
Definition draw_row (force : bool) (y : Z) (s : ed) : option ed :=
  let ry := u32 (y + e_vy s) in
  let goto := ESC ++ bstr "[" ++ fmt_d (y + 1) in
  if ry <? e_nrows s then
    r ← rd (e_row s) ry;
    if force || r_updated r then
      c ← r_chars r;
      text ← edit_rowRender c (r_len r) (e_vx s) (e_cols s);
      s ← put_row ry (Row (r_chars r) (r_len r) false) s;
      Some (print (goto ++ bstr "H" ++ text ++ ESC ++ bstr "[0K") s)
    else Some s
  else if force || (ry =? e_nrows s) then Some (print (goto ++ bstr "H~" ++ ESC ++ bstr "[0K") s)
  else Some s.

Definition edit_drawRows (force : bool) (s : ed) : option ed :=
  for_loop 0 (Z.to_nat (u32 (e_rows s))) (draw_row force) s.

Definition edit_drawStatusBar (s : ed) : ed :=
  let color := match e_msg s with Some _ => e_color s | None => colorDefault end in
  let s := print (ESC ++ bstr "7" ++ ESC ++ bstr "[" ++ fmt_d (e_rows s + 1) ++ bstr "H" ++ ESC ++ bstr "["
    ++ fmt_d ((if Z.testbit color 7 then 100 else 40) + Z.land (Z.shiftr color 4) 7) ++ bstr ";"
    ++ fmt_d ((if Z.testbit color 3 then 90 else 30) + Z.land color 7) ++ bstr "m" ++ ESC ++ bstr "[0K") s in
  let s := match e_msg s with
           | None =>
               print (match e_filename s with
                      | Some f => bstr " [" ++ f ++ bstr "]"
                      | None => bstr " [No name]"
                      end ++ bstr " - " ++ fmt_d (e_nrows s) ++ bstr " lines ") s
           | Some m => set_msg None (print (bstr " " ++ m) s)
           end in
  let buf := bstr "[" ++ fmt_d (e_cy s + 1) ++ bstr ":" ++ fmt_d (e_cx s + 1) ++ bstr "] "
    ++ bstr (if e_replace s then "R" else "I") ++ bstr (if e_dirty s then "*" else " ") in
  print (ESC ++ bstr "[" ++ fmt_d (e_rows s + 1) ++ bstr ";" ++ fmt_d (e_cols s - zlen buf) ++ bstr "H"
    ++ take 31 buf ++ ESC ++ bstr "8" ++ ESC ++ bstr "[0m") s.

Definition edit_keys : list (bytes * bytes) :=
  [(bstr "^S", bstr "Save"); (bstr "^Q", bstr "Quit"); (bstr "^D", bstr "Delete row");
   (bstr "^L", bstr "Redraw"); (bstr "Ins", bstr "Insert/Replace")].

Fixpoint keys_loop (keys : list (bytes * bytes)) (len cols : Z) : bytes :=
  match keys with
  | [] => []
  | (key, descr) :: keys =>
      let len := len + (zlen key + zlen descr + 3) in
      if u32 cols <=? len then []
      else bstr " " ++ ESC ++ bstr "[1;40;33m" ++ key ++ ESC ++ bstr "[21;0m " ++ descr ++ bstr " "
             ++ keys_loop keys len cols
  end.

Definition edit_drawKeys (force : bool) (s : ed) : ed :=
  if negb force then s
  else print (ESC ++ bstr "7" ++ ESC ++ bstr "[" ++ fmt_d (t_rows s) ++ bstr "H" ++ ESC ++ bstr "[37;40m"
    ++ ESC ++ bstr "[0K" ++ ESC ++ bstr "[0m" ++ keys_loop edit_keys 0 (e_cols s)
    ++ ESC ++ bstr "[0K" ++ ESC ++ bstr "8" ++ ESC ++ bstr "[0m") s.

Definition edit_draw (force : bool) (s : ed) : option ed :=
  '(changed, s) ← edit_updateScroll s;
  let s := print (ESC ++ bstr "[?25l") s in
  let s := edit_drawKeys force (edit_drawStatusBar s) in
  s ← edit_drawRows (force || changed) s;
  Some (print (ESC ++ bstr "[?25h" ++ ESC ++ bstr "[" ++ fmt_d (e_cy s - e_vy s + 1) ++ bstr ";"
    ++ fmt_d (e_rx s - e_vx s + 1) ++ bstr "H") s).

(** ** Files *)

(** The end of a line read by [getline], without line terminators. *)
Fixpoint strip_eol (fuel : nat) (line : bytes) (len : Z) : option Z :=
  if 0 <? len then
    c ← rd line (len - 1);
    if (c =? 10) || (c =? 13) then
      match fuel with O => None | Datatypes.S fuel => strip_eol fuel line (len - 1) end
    else Some len
  else Some len.

Section files.
Context (junk : Z) (mem : nat -> bool).

(** The [while] of [edit_open]: [lines] is what [getline] delivers. *)
Fixpoint open_loop (k : nat) (lines : list bytes) (s : ed) : option ed :=
  match lines with
  | [] => Some s
  | line :: lines =>
      len ← strip_eol (length line) line (zlen line);
      '(err, s) ← edit_rowInsert junk mem k (e_nrows s) line len s;
      if err <? 0 then Some s else open_loop (k + 2) lines s
  end.

(** [file] is the file of that name: [None] when [stat] fails; [readable] whether
    [fopen] succeeds. *)
Definition edit_open (filename : bytes) (file : option (list bytes)) (readable : bool) (s : ed)
    : option (Z * ed) :=
  if negb (mem 0%nat) then Some (edit_error ENOMEM (set_filename None s))
  else
    let s := set_filename (Some filename) s in
    match file with
    | None => Some (0, edit_status (bstr "Editing new empty file") colorDefault s)
    | Some lines =>
        if negb readable then Some (-1, s)
        else
          s ← open_loop 1 lines s;
          Some (e_nrows s, set_dirty false s)
    end.
End files.

(** The [for] of [edit_save] from row [n]: [-1] after a failure, and the bytes
    written.  [wr_ok] is the success of each [fprintf]; ["%.*s"] stops at a NUL. *)
Fixpoint save_loop (k : nat) (n : Z) (wr_ok : Z -> bool) (s : ed) (out : bytes) : option (Z * bytes) :=
  match k with
  | O => Some (n, out)
  | Datatypes.S k =>
      '(r, c) ← get_row n s;
      text ← rd_range c 0 (r_len r);
      let line := cstr text ++ [10] in
      if negb (wr_ok n) then Some (-1, out)
      else if negb (zlen line =? r_len r + 1) then Some (-1, out ++ line)
      else save_loop k (n + 1) wr_ok s (out ++ line)
  end.

Definition edit_save (open_ok : bool) (wr_ok : Z -> bool) (s : ed) : option ed :=
  match e_filename s with
  | None => Some s
  | Some _ =>
      '(n, s) ← (if open_ok then
                   '(n, out) ← save_loop (Z.to_nat (e_nrows s)) 0 wr_ok s [];
                   Some (n, set_disk (Some out) s)
                 else Some (-1, s));
      if n <? 0 then Some (edit_status (bstr "Unable to write file to disk!") colorError s)
      else Some (edit_status (bstr "File saved.") colorInfo (set_dirty false s))
  end.

(** ** Events *)

Definition term_clearEvent (ev : event_t) : event_t := Event evNone (data ev).

Definition iscntrl (c : Z) : bool := (c <? 32) || (c =? 127).

(** Always returns 0. *)
Definition term_handleCtrl (c : Z) (ev : event_t) : Z * event_t :=
  let key k := (0, Event evKey k) in
  if c =? 3 then key keyCtrlC
  else if c =? 4 then key keyCtrlD
  else if (c =? 8) || (c =? 127) then key keyBksp
  else if c =? 9 then key keyTab
  else if c =? 12 then key keyCtrlL
  else if (c =? 10) || (c =? 13) then key keyEnter
  else if c =? 17 then key keyCtrlQ
  else if c =? 19 then key keyCtrlS
  else if c =? 24 then key keyCtrlX
  else if c =? 27 then key keyEsc
  else (0, Event evKeyDead (data ev)).

Definition in_chars (c : Z) (l : list Z) : bool := existsb (Z.eqb c) l.

Definition term_handleEscape (buf : bytes) (len : Z) (ev : event_t) : option (Z * event_t) :=
  let dead r := Some (r, Event evKeyDead (data ev)) in
  let key k := Some (0, Event evKey k) in
  b1 ← rd buf 1;
  fin ← rd buf (len - 1);
  if (len =? 4) && (fin =? 126) then
    c ← rd buf (len - 2);
    if c =? 49 then key keyHome
    else if c =? 52 then key keyEnd
    else if in_chars c [50; 51; 53; 54; 55; 56] then key (keyEditFirst + c)
    else dead 1
  else if (len =? 3) && ((b1 =? 91) || (b1 =? 79)) then
    let c := fin in
    if in_chars c [65; 66; 67; 68] then key (keyEditFirst + c)
    else if c =? 72 then key keyHome
    else if c =? 70 then key keyEnd
    else if c =? 90 then key keyShiftTab
    else if in_chars c [80; 81; 82; 83] then dead 0
    else dead 1
  else dead 1.

(** One [read] of a byte: a byte, the end of the input, or a failure. *)
Inductive rd1 := RByte (c : Z) | REof | RErr (errno : Z).

Definition EVBUF : Z := 16.

(** After the reading loop; [rlen] and [errno] are those of the last [read], [c]
    the last byte. *)
Definition get_done (rlen errno c pos : Z) (buf : bytes) (ev : event_t) : option (Z * event_t) :=
  b0 ← rd buf 0;
  if (pos =? 1) && (b0 =? 27) then
    let '(r, ev) := term_handleCtrl c ev in Some (if r =? 0 then 1 else 0, ev)
  else if (rlen <? 0) && negb (errno =? EAGAIN) then Some (rlen, ev)
  else Some (1, ev).

(** The reading loop. *)
Fixpoint get_loop (input : list rd1) (c pos : Z) (buf : bytes) (ev : event_t)
    : option (Z * event_t * list rd1) :=
  let finish rlen errno c input := '(r, ev) ← get_done rlen errno c pos buf ev; Some (r, ev, input) in
  if EVBUF <=? pos then finish 1 0 c input
  else
    match input with
    | [] => finish 0 0 0 []
    | REof :: input => finish 0 0 0 input
    | RErr errno :: input => finish (-1) errno 0 input
    | RByte c :: input =>
        if iscntrl c then
          again ← (if 0 <? pos then p ← rd buf (pos - 1); Some (p =? 27) else Some false);
          if negb (c =? 27) || (again : bool) then
            let '(r, ev) := term_handleCtrl c ev in Some (if r =? 0 then 1 else 0, ev, input)
          else
            buf ← wr buf 0 27;
            get_loop input c 1 buf ev
        else if pos =? 0 then Some (1, Event evKey c, input)
        else
          buf ← wr buf pos c;
          let pos := pos + 1 in
          b1 ← rd buf 1;
          if (2 <? pos) && ((b1 =? 91) || (b1 =? 79)) then
            '(r, ev) ← term_handleEscape buf pos ev;
            if r =? 0 then Some (1, ev, input)
            else
              fin ← rd buf (pos - 1);
              if fin =? 126 then Some (1, Event evKeyDead (data ev), input)
              else get_loop input c pos buf ev
          else get_loop input c pos buf ev
    end.

Definition term_getEvent (ev : event_t) (input : list rd1) (s : ed) : option (Z * event_t * list rd1 * ed) :=
  let pending := match what (t_ev s) with evNone => false | _ => true end in
  let '(ev, s) := if pending then (t_ev s, set_t_ev (term_clearEvent (t_ev s)) s) else (ev, s) in
  let read s :=
    let ev := term_clearEvent ev in
    '(r, ev, input) ← get_loop input 0 0 (replicate (Z.to_nat EVBUF) 0) ev;
    Some (r, ev, input, set_t_evCnt 0 s) in
  match what ev with
  | evQuit => Some (0, ev, input, s)
  | evFatalError => Some (- data ev, ev, input, s)
  | evNone => read s
  | _ =>
      if t_evCnt s <? 3 then Some (t_evCnt s + 1, ev, input, set_t_evCnt (t_evCnt s + 1) s)
      else read s
  end.

Section events.
Context (junk : Z) (mem : nat -> bool).
(** [term_getSize], and the outcome of the calls of [edit_save]. *)
Context (getSize : option (Z * Z)) (open_ok : bool) (wr_ok : Z -> bool).

(** The [switch] on a key: [inl] is an early [return] with the new event. *)
Definition handle_key (key : Z) (ev : event_t) (s : ed) : option (event_t * ed + ed) :=
  let ok (r : option ed) := s ← r; Some (inr s) in
  if key =? keyCtrlL then Some (inl (Event evRedraw (data ev), s))
  else if key =? keyCtrlX then Some (inr s)
  else if key =? keyCtrlC then Some (inl (Event evQuit (data ev), s))
  else if key =? keyCtrlQ then
    if negb (e_dirty s) then Some (inl (Event evQuit (data ev), s))
    else Some (inr (edit_status (bstr "Please save file or use ^C to abandon editing.") colorWarn s))
  else if key =? keyCtrlS then ok (edit_save open_ok wr_ok s)
  else if key =? keyEnter then ok (edit_insertNewLine junk mem s)
  else if key =? keyCtrlD then
    let s := if (0 <? e_nrows s) && (e_cy s =? e_nrows s) then set_cy (e_cy s - 1) s else s in
    ok (s ← edit_rowDelete (e_cy s) s; Some (set_cx 0 s))
  else if key =? keyDel then ok (s ← edit_cursorMove keyRight 1 s; edit_deleteChar junk mem s)
  else if key =? keyBksp then ok (edit_deleteChar junk mem s)
  else if key =? keyIns then Some (inr (set_replace (negb (e_replace s)) s))
  else if key =? keyHome then Some (inr (set_cx 0 s))
  else if key =? keyEnd then
    if e_cy s <? e_nrows s then ok (n ← row_len (e_cy s) s; Some (set_cx n s)) else Some (inr s)
  else if key =? keyPgup then ok (edit_cursorMove keyUp (e_rows s) (set_cy (e_vy s) s))
  else if key =? keyPgdn then
    let s := set_cy (e_vy s + e_rows s - 1) s in
    let s := if e_nrows s <? e_cy s then set_cy (e_nrows s) s else s in
    ok (edit_cursorMove keyDown (e_rows s) s)
  else if in_chars key [keyUp; keyDown; keyLeft; keyRight] then ok (edit_cursorMove key 1 s)
  else if key =? keyTab then ok (edit_insertChar junk mem 9 s)
  else ok (edit_insertChar junk mem (u8 key) s).

Definition edit_handleEvent (ev : event_t) (s : ed) : option (event_t * ed) :=
  match what ev with
  | evKey =>
      r ← handle_key (data ev) ev s;
      match r with
      | inl r => Some r
      | inr s => s ← edit_draw false s; Some (term_clearEvent ev, s)
      end
  | evRedraw =>
      let s := match getSize with Some (col, row) => set_t_cols col (set_t_rows row s) | None => s end in
      s ← edit_draw true s;
      Some (term_clearEvent ev, s)
  | _ => Some (ev, s)
  end.
End events.

(** ** The applet *)

(** What the system answers during one event. *)
Record answers := Answers {
  an_mem : nat -> bool; an_size : option (Z * Z); an_open : bool; an_wr : Z -> bool
}.

(** [term_setup(-1, -1)]: the two dimensions are exchanged. *)
Definition term_setup (getSize : option (Z * Z)) (s : ed) : ed :=
  let '(cols, rows) := default (80, 25) getSize in
  let s := if negb (cols =? 0) then set_t_rows cols s else s in
  if negb (rows =? 0) then set_t_cols rows s else s.

Definition edit_common0 (evs : ed) : ed :=
  Ed None [] 0 0 0 0 0 0 0 0 0 None 0 false false (t_ev evs) (t_evCnt evs) (t_cols evs) (t_rows evs)
     (e_out evs) (e_disk evs).

(** The event loop: the result is [None] in its first component while the editor
    is still running when [fuel] is exhausted. *)
Fixpoint edit_loop (fuel : nat) (junk : Z) (an : nat -> answers) (ev : event_t) (input : list rd1) (s : ed)
    : option (option Z * ed) :=
  match fuel with
  | O => Some (None, s)
  | Datatypes.S fuel =>
      '(ret, ev, input, s) ← term_getEvent ev input s;
      if ret <=? 0 then Some (Some ret, s)
      else
        let '(ev, s) := if 1 <? ret then (term_clearEvent ev, print [7] s) else (ev, s) in
        let a := an fuel in
        '(ev, s) ← edit_handleEvent junk (an_mem a) (an_size a) (an_open a) (an_wr a) ev s;
        edit_loop fuel junk an ev input s
  end.

Definition edit_init (junk : Z) (mem : nat -> bool) (argv : list bytes) (file : option (list bytes))
    (readable : bool) (s : ed) : option (Z * ed) :=
  let s := edit_common0 s in
  match argv with
  | [_; filename] =>
      '(ret, s) ← edit_open junk mem filename file readable s;
      Some (ret, set_hbar 2 s)
  | _ => Some (- EINVAL, s)
  end.

Definition edit_main (fuel : nat) (junk : Z) (mem : nat -> bool) (an : nat -> answers) (argv : list bytes)
    (file : option (list bytes)) (readable : bool) (size0 : option (Z * Z)) (input : list rd1) (s : ed)
    : option (option Z * ed) :=
  '(ret, s) ← edit_init junk mem argv file readable s;
  if ret <? 0 then Some (Some ret, s)
  else
    '(ret, s) ← edit_loop fuel junk an (Event evRedraw 0) input (term_setup size0 s);
    Some (ret, print (ESC ++ bstr "[H" ++ ESC ++ bstr "[2J") s).

(** ** Examples *)

Definition ed0 : ed :=
  Ed None [] 0 0 0 0 0 0 0 0 0 None 0 false false (Event evNone 0) 0 0 0 [] None.
Definition an0 : nat -> answers := fun _ => Answers (fun _ => true) (Some (20, 6)) true (fun _ => true).
Definition keys (s : string) : list rd1 := RByte <$> bstr s.

Example ex_session :
  (r ← edit_main 40 7 (fun _ => true) an0 [bstr "edit"; bstr "f"] None true (Some (20, 6))
         (keys "ab" ++ [RByte 13] ++ keys "c" ++ [RByte 127; RByte 127] ++ keys "d" ++ [RByte 19; RByte 17]) ed0;
   Some (r.1, e_disk r.2, e_dirty r.2)) = Some (Some 0, Some (bstr "abd" ++ [10]), false).
Proof. vm_compute. reflexivity. Qed.
