(* ===== verification/EditSpec.v ===== *)
(** * Correctness of the text editor

    The rows of the editor abstract to a list of lines; every editing operation
    is an operation on that list ([shows]).  On top of it the lines and the
    cursor are a position in a plain text, and typing, Enter, Backspace and the
    arrow keys are insertion, deletion and motion in that text. *)

From S2P Require Import Prelude Parse Edit.

(** ** Rows and lines *)

(** A line and its [updated] flag. *)
Abbreviation aline := (bytes * bool)%type.

Definition row_is (r : row_t) (l : aline) : Prop :=
  exists cap, r_chars r = Some (l.1 ++ cap) /\ r_len r = zlen l.1 /\ r_updated r = l.2.

Definition rows_show (rs : list row_t) (n : Z) (ls : list aline) : Prop :=
  exists front rest, rs = front ++ rest /\ Forall2 row_is front ls /\ n = zlen ls.

Definition touch (l : aline) : aline := (l.1, true).

(** The state shows the lines [ls]. *)
Definition shows (s : ed) (ls : list aline) : Prop := rows_show (e_row s) (e_nrows s) ls.

(** The effect of an operation on the rows. *)
Definition with_rows (rs : list row_t) (n : Z) (s : ed) : ed :=
  set_dirty true (set_nrows n (set_row rs s)).

Lemma realloc_keep {A} (junk : A) n (a b : list A) :
  zlen a <= n -> exists c, realloc junk n (a ++ b) = a ++ c /\ zlen c = n - zlen a.
Proof.
  intros Hn. exists (take (Z.to_nat n - length a) b ++ replicate (Z.to_nat n - length (a ++ b)) junk).
  unfold realloc. rewrite take_app, take_ge, <-(assoc_L (++)) by (unfold zlen in *; lia).
  split; [done|]. unfold zlen in *. rewrite length_app, length_take, length_replicate, length_app. lia.
Qed.

Lemma forall2_zlen {A B} (R : A -> B -> Prop) l k : Forall2 R l k -> zlen l = zlen k.
Proof. intros H. unfold zlen. by rewrite (Forall2_length _ _ _ H). Qed.

Lemma row_is_mark r l : row_is r l -> row_is (mark r) (touch l).
Proof. intros (cap & Hc & Hl & _). by exists cap. Qed.

Lemma mark_rows_ok fa fb rest lo hi :
  lo = zlen fa -> hi = zlen fa + zlen fb ->
  mark_rows lo hi (fa ++ fb ++ rest) = Some (fa ++ (mark <$> fb) ++ rest).
Proof.
  intros -> ->. unfold mark_rows. replace (Z.to_nat _) with (length fb) by (unfold zlen; lia).
  revert fa. induction fb as [|r fb IH]; intros fa; [done|]. cbn [length for_loop app].
  rewrite rd_app by done. cbn [mbind option_bind]. rewrite wr_app by done. cbn [mbind option_bind].
  replace (fa ++ mark r :: fb ++ rest) with ((fa ++ [mark r]) ++ fb ++ rest) by by rewrite <-(assoc_L (++)).
  replace (zlen fa + 1) with (zlen (fa ++ [mark r])) by zlia.
  rewrite IH. by rewrite <-(assoc_L (++)).
Qed.

Lemma forall2_mark fb b : Forall2 row_is fb b -> Forall2 row_is (mark <$> fb) (touch <$> b).
Proof. intros H. apply Forall2_fmap. eapply Forall2_impl; [exact H|apply row_is_mark]. Qed.

Lemma rows_show_split rs n a b :
  rows_show rs n (a ++ b) ->
  exists fa fb rest, rs = fa ++ fb ++ rest /\ Forall2 row_is fa a /\ Forall2 row_is fb b /\
    n = zlen a + zlen b /\ zlen fa = zlen a /\ zlen fb = zlen b.
Proof.
  intros (front & rest & -> & Hf & ->). apply Forall2_app_inv_r in Hf as (fa & fb & Ha & Hb & ->).
  exists fa, fb, rest. rewrite <-(assoc_L (++)). rewrite (forall2_zlen _ _ _ Ha), (forall2_zlen _ _ _ Hb).
  repeat split; try done. zlia.
Qed.

Lemma rows_show_intro fa fb rest a b n :
  Forall2 row_is fa a -> Forall2 row_is fb b -> n = zlen a + zlen b ->
  rows_show (fa ++ fb ++ rest) n (a ++ b).
Proof.
  intros Ha Hb ->. exists (fa ++ fb), rest. split; [by rewrite <-(assoc_L (++))|].
  split; [by apply Forall2_app|zlia].
Qed.

(** Reading and replacing one row. *)
Lemma rows_get rs n a l b i :
  rows_show rs n (a ++ l :: b) -> i = zlen a ->
  exists r, rd rs i = Some r /\ row_is r l /\
    forall r' l', row_is r' l' -> exists rs', wr rs i r' = Some rs' /\ rows_show rs' n (a ++ l' :: b).
Proof.
  intros H ->. destruct (rows_show_split _ _ _ _ H) as (fa & fb & rest & -> & Ha & Hb & -> & Hla & Hlb).
  inversion Hb as [|r ? fb' ? Hr Hb' Er El]; subst. exists r.
  split; [by apply rd_app|]. split; [done|]. intros r' l' Hr'.
  exists (fa ++ (r' :: fb') ++ rest). split; [by apply wr_app|].
  apply rows_show_intro; [done|by constructor|zlia].
Qed.

Lemma get_row_ok s a l b i :
  shows s (a ++ l :: b) -> i = zlen a ->
  exists r c, get_row i s = Some (r, l.1 ++ c) /\ row_is r l /\ r_len r = zlen l.1 /\
    forall r' l', row_is r' l' -> exists rs', put_row i r' s = Some (set_row rs' s) /\
      rows_show rs' (e_nrows s) (a ++ l' :: b).
Proof.
  intros H Hi. destruct (rows_get _ _ _ _ _ _ H Hi) as (r & Hr & (c & Hc & Hl & Hu) & Hput).
  exists r, c. unfold get_row, put_row. rewrite Hr. simpl. rewrite Hc. split; [done|].
  split; [by exists c|]. split; [done|]. intros r' l' Hr'.
  destruct (Hput r' l' Hr') as (rs' & -> & Hs). by exists rs'.
Qed.

Lemma shows_len s ls : shows s ls -> e_nrows s = zlen ls.
Proof. by intros (? & ? & _ & _ & ?). Qed.

Section rows.
Context (junk : Z) (mem : nat -> bool).

(** ** The row operations on lines *)

Lemma rowInsert_ok k s a b pos line text tl :
  shows s (a ++ b) -> pos = zlen a -> line = text ++ tl ->
  exists rs n', edit_rowInsert junk mem k pos line (zlen text) s =
      Some (if mem k && mem (k + 1)%nat then (1, with_rows rs n' s) else edit_error ENOMEM s) /\
    rows_show rs n' (a ++ (touch <$> ((text, true) :: b))).
Proof.
  intros H -> ->. destruct (rows_show_split _ _ _ _ H) as (fa & fb & rest & Er & Ha & Hb & En & Hla & Hlb).
  unfold edit_rowInsert. rewrite En, Er.
  destruct (Z.ltb_spec (zlen a) 0), (Z.ltb_spec (zlen a + zlen b) (zlen a)); try zlia. simpl.
  destruct (realloc_keep junk_row (zlen a + zlen b + 1) (fa ++ fb) rest ltac:(zlia)) as (one & Hre & Hone).
  rewrite <-(assoc_L (++)) in Hre. rewrite Hre, <-(assoc_L (++)).
  assert (exists x : row_t, (if 0 <? zlen a + zlen b - zlen a
    then memmove (fa ++ fb ++ one) (zlen a + 1) (zlen a) (zlen a + zlen b - zlen a)
    else Some (fa ++ fb ++ one)) = Some (fa ++ x :: fb)) as (x & Hmv).
  { destruct (Z.ltb_spec 0 (zlen a + zlen b - zlen a)) as [Hb0|Hb0].
    - destruct (memmove_right fa fb one (zlen a + 1) (zlen a) (zlen a + zlen b - zlen a) 1)
        as (g & e & Hm & Hg & He); [zlia..|].
      destruct g as [|x [|? ?]]; [zlia| |zlia]. exists x.
      rewrite Hm. rewrite (zlen_0_nil e) by zlia. by rewrite app_nil_r.
    - destruct b; [|zlia]. inversion Hb; subst fb.
      destruct one as [|x [|? ?]]; [zlia| |zlia]. by exists x. }
  exists (fa ++ (mark <$> (Row (Some (text ++ [junk])) (zlen text) (r_updated x) :: fb))), (zlen a + zlen b + 1).
  split.
  - rewrite Hmv. cbn [mbind option_bind]. rewrite rd_app by done. cbn [mbind option_bind].
    rewrite (rd_range_app [] text tl) by zlia. cbn [mbind option_bind].
    rewrite wr_app by done. cbn [mbind option_bind].
    rewrite <-(app_nil_r (fa ++ _ :: fb)), <-(assoc_L (++)).
    rewrite mark_rows_ok by (zlia || done). cbn [mbind option_bind]. rewrite app_nil_r.
    destruct (mem k), (mem (k + 1)%nat); reflexivity.
  - rewrite <-(app_nil_r (mark <$> _)).
    apply rows_show_intro; [done| |by zlia].
    apply (forall2_mark _ ((text, r_updated x) :: b)). constructor; [|done]. by exists [junk].
Qed.

Lemma with_rows_same rs s : set_dirty true (set_row rs s) = with_rows rs (e_nrows s) s.
Proof. by destruct s. Qed.

Lemma rowDelete_ok s a l b i :
  shows s (a ++ l :: b) -> i = zlen a ->
  exists rs n', edit_rowDelete i s = Some (with_rows rs n' s) /\ rows_show rs n' (a ++ (touch <$> b)).
Proof.
  intros H ->. destruct (get_row_ok s a l b (zlen a) H eq_refl) as (r & c & Hg & Hr & Hl & _).
  destruct (rows_show_split _ _ _ _ H) as (fa & fb & rest & Er & Ha & Hb & En & Hla & Hlb).
  inversion Hb as [|r0 ? fb' ? Hr0 Hb' E1 E2]; subst. clear Hr0.
  unfold edit_rowDelete. rewrite En.
  destruct (Z.ltb_spec (zlen a) 0), (Z.leb_spec (zlen a + zlen (l :: b)) (zlen a)); try zlia. simpl.
  rewrite Hg, Er. cbn [mbind option_bind]. simpl. rewrite wr_app by done. cbn [mbind option_bind].
  destruct (Z.ltb_spec 1 (zlen a + (1 + zlen b))) as [Hn|Hn].
  - destruct (memmove_left fa [Row None (r_len r) (r_updated r)] fb' rest (zlen a) (zlen a + 1)
      (zlen a + (1 + zlen b) - zlen a - 1)) as (e & Hm & He); [zlia..|].
    simpl in Hm. rewrite Hm. cbn [mbind option_bind]. destruct e as [|x e]; [zlia|].
    replace (fa ++ fb' ++ x :: e) with (fa ++ (fb' ++ [x]) ++ e) by (by rewrite <-!(assoc_L (++))).
    rewrite mark_rows_ok by zlia. cbn [mbind option_bind].
    eexists _, _. split; [reflexivity|]. rewrite fmap_app, <-(assoc_L (++)).
    apply rows_show_intro; [done|by apply forall2_mark|zlia].
  - destruct b; [|zlia]. destruct a; [|zlia]. inversion Ha. inversion Hb'. subst.
    eexists _, _. split; [reflexivity|]. by exists [], (Row None (r_len r) (r_updated r) :: rest).
Qed.

Lemma rowAppend_ok k s a l b i text tl :
  shows s (a ++ l :: b) -> i = zlen a ->
  exists rs, edit_rowAppend junk mem k i (text ++ tl) (zlen text) s =
      Some (if mem k then (0, with_rows rs (e_nrows s) s) else edit_error ENOMEM s) /\
    rows_show rs (e_nrows s) (a ++ (l.1 ++ text, true) :: b).
Proof.
  intros H Hi. destruct (get_row_ok s a l b i H Hi) as (r & c & Hg & Hr & Hl & Hput).
  destruct (realloc_keep junk (zlen l.1 + zlen text + 1) l.1 c ltac:(zlia)) as (c' & Hre & Hc').
  destruct (wr_range_suffix l.1 c' [] (zlen l.1) text eq_refl ltac:(zlia)) as (e & He & _).
  rewrite app_nil_r in He.
  destruct (Hput (Row (Some (l.1 ++ text ++ e)) (r_len r + zlen text) true) (l.1 ++ text, true)) as (rs & Hp & Hs).
  { exists e. simpl. split; [by rewrite (assoc_L (++))|]. split; [zlia|done]. }
  exists rs. split; [|done]. unfold edit_rowAppend. rewrite Hg. cbn [mbind option_bind].
  destruct (mem k); cbn [negb]; [|done].
  rewrite (rd_range_app [] text tl) by zlia. cbn [mbind option_bind].
  rewrite Hl, Hre, He. cbn [mbind option_bind]. rewrite Hl in Hp. rewrite Hp. cbn [mbind option_bind].
  by rewrite with_rows_same.
Qed.

(** Storing a character: insertion, or replacement of the next character. *)
Definition put_char (replace : bool) (x y : bytes) (ch : Z) : bytes :=
  x ++ ch :: (if replace then tail y else y).
Definition grows (replace : bool) (y : bytes) : bool :=
  negb replace || match y with [] => true | _ => false end.

Lemma rowInsertChar_ok k s a x y u b i curx ch :
  shows s (a ++ (x ++ y, u) :: b) -> i = zlen a -> curx = zlen x ->
  exists rs, edit_rowInsertChar junk mem k curx i ch s =
      Some (if grows (e_replace s) y && negb (mem k) then edit_error ENOMEM s
            else (0, with_rows rs (e_nrows s) s)) /\
    rows_show rs (e_nrows s) (a ++ (put_char (e_replace s) x y ch, true) :: b).
Proof.
  intros H Hi ->. destruct (get_row_ok s a _ b i H Hi) as (r & c & Hg & Hr & Hl & Hput). simpl in Hg, Hl.
  unfold edit_rowInsertChar. rewrite Hg. cbn [mbind option_bind].
  rewrite Hl. replace ((zlen x <? 0) || (zlen (x ++ y) <? zlen x)) with false
    by (destruct (Z.ltb_spec (zlen x) 0), (Z.ltb_spec (zlen (x ++ y)) (zlen x)); done || zlia).
  assert ((zlen x =? zlen (x ++ y)) = match y with [] => true | _ => false end) as ->.
  { destruct (Z.eqb_spec (zlen x) (zlen (x ++ y))), y; done || zlia. }
  fold (grows (e_replace s) y).
  assert (exists e, (c0 ← (if grows (e_replace s) y && negb (e_replace s)
      then memmove (if grows (e_replace s) y then realloc junk (zlen (x ++ y) + 1) ((x ++ y) ++ c) else (x ++ y) ++ c)
        (zlen x + 1) (zlen x) (zlen (x ++ y) - zlen x)
      else Some (if grows (e_replace s) y then realloc junk (zlen (x ++ y) + 1) ((x ++ y) ++ c) else (x ++ y) ++ c));
      wr c0 (zlen x) ch) = Some (put_char (e_replace s) x y ch ++ e)) as (e & He).
  { destruct (realloc_keep junk (zlen (x ++ y) + 1) (x ++ y) c ltac:(zlia)) as (c1 & Hre & Hc1).
    rewrite Hre. unfold grows, put_char. destruct (e_replace s); simpl.
    - destruct y as [|y0 y]; simpl.
      + destruct c1 as [|z c1]; [zlia|]. exists c1. rewrite app_nil_r, wr_app by done. appeq.
      + exists c. rewrite <-(assoc_L (++)). simpl. rewrite wr_app by done. appeq.
    - rewrite <-(assoc_L (++)).
      destruct (memmove_right x y c1 (zlen x + 1) (zlen x) (zlen (x ++ y) - zlen x) 1) as (g & e & -> & Hg1 & He);
        [zlia..|]. destruct g as [|g0 [|? ?]]; [zlia| |zlia]. exists e. simpl. rewrite wr_app by done. appeq. }
  destruct (Hput (Row (Some (put_char (e_replace s) x y ch ++ e))
      (if grows (e_replace s) y then zlen (x ++ y) + 1 else zlen (x ++ y)) true)
      (put_char (e_replace s) x y ch, true)) as (rs & Hp & Hs).
  { exists e. simpl. split; [done|]. split; [|done]. unfold grows, put_char.
    destruct (e_replace s), y; simpl; zlia. }
  exists rs. split; [|done]. destruct (grows (e_replace s) y && negb (mem k)); [done|].
  obind He. rewrite E. cbn [mbind option_bind]. rewrite He. cbn [mbind option_bind].
  rewrite Hp. cbn [mbind option_bind]. by rewrite with_rows_same.
Qed.

Lemma rowDeleteChar_ok s a x c0 y u b i curx :
  shows s (a ++ (x ++ c0 :: y, u) :: b) -> i = zlen a -> curx = zlen x ->
  exists rs, edit_rowDeleteChar curx i s = Some (with_rows rs (e_nrows s) s) /\
    rows_show rs (e_nrows s) (a ++ (x ++ y, true) :: b).
Proof.
  intros H Hi ->. destruct (get_row_ok s a _ b i H Hi) as (r & c & Hg & Hr & Hl & Hput). simpl in Hg, Hl.
  destruct (memmove_left x [c0] y c (zlen x) (zlen x + 1) (zlen (x ++ c0 :: y) - 1 - zlen x)) as (e & Hm & _);
    [zlia..|].
  destruct (Hput (Row (Some (x ++ y ++ e)) (zlen (x ++ c0 :: y) - 1) true) (x ++ y, true)) as (rs & Hp & Hs).
  { exists e. simpl. split; [by rewrite (assoc_L (++))|]. split; [zlia|done]. }
  exists rs. split; [|done]. unfold edit_rowDeleteChar. rewrite Hg. cbn [mbind option_bind]. rewrite Hl.
  destruct (Z.ltb_spec (zlen x) 0), (Z.leb_spec (zlen (x ++ c0 :: y)) (zlen x)); try zlia. cbn [orb].
  replace ((x ++ c0 :: y) ++ c) with (x ++ [c0] ++ y ++ c) by (by rewrite <-(assoc_L (++))).
  rewrite Hm. cbn [mbind option_bind]. rewrite Hp. cbn [mbind option_bind]. by rewrite with_rows_same.
Qed.
End rows.

(** ** The cursor in the lines *)

(** The line under the cursor, split at the cursor, with the lines below; or the
    place after the last line. *)
Inductive here := Past | In (x y : bytes) (u : bool) (down : list aline).
Abbreviation zipper := (list aline * here)%type.

Definition here_lines (h : here) : list aline :=
  match h with Past => [] | In x y u down => (x ++ y, u) :: down end.
Definition here_col (h : here) : Z := match h with Past => 0 | In x _ _ _ => zlen x end.
Definition z_lines (z : zipper) : list aline := z.1 ++ here_lines z.2.

Record on (s : ed) (z : zipper) : Prop := {
  on_rows : shows s (z_lines z);
  on_cy : e_cy s = zlen z.1;
  on_cx : e_cx s = here_col z.2
}.

(** An operation that changes only the rows, the cursor and the dirty flag. *)
Definition edits (s s' : ed) : Prop :=
  exists rs n cx cy d, s' = set_cx cx (set_cy cy (set_dirty d (set_nrows n (set_row rs s)))).

Lemma edits_refl s : edits s s.
Proof. exists (e_row s), (e_nrows s), (e_cx s), (e_cy s), (e_dirty s). by destruct s. Qed.

Lemma edits_trans s1 s2 s3 : edits s1 s2 -> edits s2 s3 -> edits s1 s3.
Proof.
  intros (? & ? & ? & ? & ? & ->) (rs & n & cx & cy & d & ->). exists rs, n, cx, cy, d. by destruct s1.
Qed.

Lemma edits_with_rows rs n s : edits s (with_rows rs n s).
Proof. exists rs, n, (e_cx s), (e_cy s), true. by destruct s. Qed.
Lemma edits_cx v s : edits s (set_cx v s).
Proof. exists (e_row s), (e_nrows s), v, (e_cy s), (e_dirty s). by destruct s. Qed.
Lemma edits_cy v s : edits s (set_cy v s).
Proof. exists (e_row s), (e_nrows s), (e_cx s), v, (e_dirty s). by destruct s. Qed.

(** Peel the setters of the final state, outermost first. *)
Ltac edits :=
  lazymatch goal with
  | |- edits ?s ?s => apply edits_refl
  | |- edits _ (set_cx _ _) => eapply edits_trans; [|apply edits_cx]; edits
  | |- edits _ (set_cy _ _) => eapply edits_trans; [|apply edits_cy]; edits
  | |- edits _ (with_rows _ _ _) => eapply edits_trans; [|apply edits_with_rows]; edits
  end.

Definition z_insert (replace : bool) (ch : Z) (z : zipper) : zipper :=
  match z with
  | (up, Past) => (up, In [ch] [] true [])
  | (up, In x y u down) => (up, In (x ++ [ch]) (if replace then tail y else y) true down)
  end.

Definition z_enter (z : zipper) : zipper :=
  match z with
  | (up, Past) => (up ++ [([], true)], Past)
  | (up, In x y u down) => (up ++ [(x, true)], In [] y true (touch <$> down))
  end.

(** The last element of a list and what is before it. *)
Definition unsnoc {A} (l : list A) : option (list A * A) := x ← last l; Some (removelast l, x).

Lemma unsnoc_snoc {A} (l : list A) x : unsnoc (l ++ [x]) = Some (l, x).
Proof. unfold unsnoc. by rewrite last_snoc, removelast_last. Qed.

Lemma unsnoc_case {A} (l : list A) : l = [] \/ exists l' x, l = l' ++ [x].
Proof. destruct l as [|y l]; [by left|right]. destruct (exists_last (l := y :: l)) as (l' & x & ->); eauto. Qed.

(** Whether the text is a single empty line. *)
Definition z_single (z : zipper) : bool :=
  match z_lines z with [([], _)] => true | _ => false end.

Definition z_back (z : zipper) : zipper :=
  if z_single z then ([], Past)
  else match z with
  | (up, In x y u down) =>
      match unsnoc x, unsnoc up with
      | Some (x', _), _ => (up, In x' y true down)
      | None, Some (up', p) => (up', In p.1 y true (touch <$> down))
      | None, None => z
      end
  | (up, Past) =>
      match unsnoc up with
      | Some (up', p) => (up', In p.1 [] p.2 [])
      | None => z
      end
  end.

Section operations.
Context (junk : Z) (mem : nat -> bool) (Hmem : forall k, mem k = true).

Lemma on_past s up h : on s (up, h) -> (e_cy s =? e_nrows s) = match h with Past => true | _ => false end.
Proof.
  intros [Hr Hy _]. rewrite Hy, (shows_len _ _ Hr). unfold z_lines. simpl.
  destruct (Z.eqb_spec (zlen up) (zlen (up ++ here_lines h))), h; simpl in *; done || zlia.
Qed.

Lemma insertChar_on s z ch :
  on s z -> exists s', edit_insertChar junk mem ch s = Some s' /\
    on s' (z_insert (e_replace s) ch z) /\ edits s s' /\ e_dirty s' = true.
Proof.
  destruct z as [up h]. intros Hon. pose proof (on_past _ _ _ Hon) as Hp. destruct Hon as [Hr Hy Hx].
  unfold edit_insertChar. rewrite Hp. destruct h as [|x y u down]; unfold z_lines in Hr; simpl in Hr, Hy, Hx.
  - destruct (rowInsert_ok junk mem 0 s up [] (e_nrows s) [] [] [] Hr) as (rs & n & E & Hs); [|done|].
    { rewrite (shows_len _ _ Hr). zlia. }
    change (zlen []) with 0 in E. rewrite E, !Hmem. cbn [mbind option_bind andb fst]. simpl in Hs.
    destruct (rowInsertChar_ok junk mem 2 (with_rows rs n s) up [] [] true [] (e_cy s) (e_cx s) ch Hs Hy)
      as (rs' & E' & Hs'); [done|].
    simpl e_cx. simpl e_cy. rewrite E', Hmem, andb_false_r. cbn [mbind option_bind Z.eqb].
    eexists. split; [reflexivity|]. split; [|split; [|done]].
    + split; [|done|simpl; zlia]. unfold z_lines, shows. simpl. unfold put_char in Hs'. simpl in Hs'.
      by destruct (e_replace s).
    + edits.
  - destruct (rowInsertChar_ok junk mem 2 s up x y u down (e_cy s) (e_cx s) ch Hr Hy Hx) as (rs' & E' & Hs').
    cbn [mbind option_bind]. simpl. rewrite E', Hmem, andb_false_r. cbn [mbind option_bind Z.eqb].
    eexists. split; [reflexivity|]. split; [|split; [|done]].
    + split; [|done|simpl; zlia]. unfold z_lines, shows. simpl. unfold put_char in Hs'.
      by rewrite <-(assoc_L (++)).
    + edits.
Qed.

Lemma insertNewLine_on s z :
  on s z -> exists s', edit_insertNewLine junk mem s = Some s' /\ on s' (z_enter z) /\ edits s s' /\ e_dirty s' = true.
Proof.
  destruct z as [up h]. intros [Hr Hy Hx]. unfold edit_insertNewLine, z_lines in *. simpl in Hr, Hy, Hx.
  assert (e_cx s = 0 -> exists s', edit_insertNewLine junk mem s = Some s' /\
    shows s' ((up ++ [([], true)]) ++ (touch <$> here_lines h)) /\ e_cy s' = zlen (up ++ [([], true)]) /\
    e_cx s' = 0 /\ edits s s' /\ e_dirty s' = true) as H0.
  { intros Hx0. destruct (rowInsert_ok junk mem 0 s up _ (e_cy s) [] [] [] Hr Hy eq_refl) as (rs & n & E & Hs).
    change (zlen []) with 0 in E. unfold edit_insertNewLine. rewrite Hx0. cbn [Z.eqb].
    rewrite E, !Hmem. cbn [andb mbind option_bind].
    eexists. split; [reflexivity|]. split; [by rewrite <-(assoc_L (++))|].
    split; [simpl; zlia|]. split; [done|]. split; [edits|done]. }
  destruct h as [|x y u down]; [|destruct x as [|x0 x]].
  - destruct (H0 Hx) as (s' & E & Hs & Hc & Hc' & He & Hd). exists s'. split; [exact E|]. by repeat split.
  - destruct (H0 Hx) as (s' & E & Hs & Hc & Hc' & He & Hd). exists s'. split; [exact E|]. by repeat split.
  - clear H0. remember (x0 :: x) as w eqn:Ew. simpl in Hr, Hx.
    destruct (Z.eqb_spec (e_cx s) 0); [subst w; zlia|].
    destruct (get_row_ok s up _ down (e_cy s) Hr Hy) as (r & c & Hg & Hri & Hl & _). simpl in Hg, Hl.
    rewrite Hg. cbn [mbind option_bind].
    replace (drop (Z.to_nat (e_cx s)) ((w ++ y) ++ c)) with (y ++ c)
      by (rewrite Hx, <-(assoc_L (++)); symmetry; apply drop_zlen_app).
    replace (r_len r - e_cx s) with (zlen y) by (rewrite Hl, Hx; zlia).
    assert (shows s ((up ++ [(w ++ y, u)]) ++ down)) as Hr' by by rewrite <-(assoc_L (++)).
    destruct (rowInsert_ok junk mem 0 s _ down (e_cy s + 1) (y ++ c) y c Hr' ltac:(zlia) eq_refl) as (rs & m & E & Hs).
    rewrite E, !Hmem. cbn [andb mbind option_bind]. simpl.
    rewrite <-(assoc_L (++)) in Hs. simpl in Hs.
    destruct (rows_get rs m up _ _ (e_cy s) Hs Hy) as (r1 & Hr1 & (c1 & Hc1 & Hl1 & _) & Hput).
    rewrite Hr1. cbn [mbind option_bind].
    destruct (Hput (Row (r_chars r1) (e_cx s) true) (w, true)) as (rs2 & Hw & Hs2).
    { exists (y ++ c1). simpl in *. rewrite Hc1, <-(assoc_L (++)). by rewrite Hx. }
    unfold put_row. simpl. rewrite Hw. cbn [mbind option_bind]. simpl.
    eexists. split; [reflexivity|]. split; [|split; [|done]].
    + split; [|simpl; zlia|done]. unfold z_lines, shows. simpl. by rewrite <-(assoc_L (++)).
    + eexists rs2, m, _, _, true. by destruct s.
Qed.

Lemma rd_row0 s ls : shows s ls -> ls <> [] -> exists r, rd (e_row s) 0 = Some r /\
  r_len r = zlen (default ([], false) (head ls)).1.
Proof.
  intros Hs Hl. destruct ls as [|l ls]; [done|].
  destruct (rows_get _ _ [] l ls 0 Hs eq_refl) as (r & Hr & (c & _ & Hc & _) & _). by exists r.
Qed.

(** The test at the start of [edit_deleteChar]. *)
Lemma single_ok s z :
  on s z -> (if e_nrows s =? 1 then r ← rd (e_row s) 0; Some (r_len r =? 0) else Some false) = Some (z_single z).
Proof.
  intros [Hr _ _]. rewrite (shows_len _ _ Hr). unfold z_single.
  destruct (z_lines z) as [|[l u] [|l2 ls]] eqn:E.
  - done.
  - destruct (rd_row0 s _ Hr ltac:(done)) as (r & -> & Hl). simpl in Hl |- *. rewrite Hl.
    destruct l; [done|]. by destruct (Z.eqb_spec (zlen (z0 :: l)) 0); [zlia|].
  - destruct (Z.eqb_spec (zlen ((l, u) :: l2 :: ls)) 1); [zlia|]. by destruct l.
Qed.

(** What deleting does to the dirty flag: set, unless the lines stay the same. *)
Definition dirties (z z' : zipper) (d d' : bool) : Prop :=
  d' = true \/ (d' = d /\ fst <$> z_lines z' = fst <$> z_lines z).

Lemma deleteChar_on s z :
  on s z -> exists s', edit_deleteChar junk mem s = Some s' /\
    on s' (z_back z) /\ edits s s' /\ dirties z (z_back z) (e_dirty s) (e_dirty s').
Proof.
  intros Hon. unfold edit_deleteChar. rewrite (single_ok s z Hon). cbn [mbind option_bind].
  unfold z_back. destruct (z_single z) eqn:Ez.
  { unfold z_single in Ez. destruct Hon as [Hr _ _]. destruct (z_lines z) as [|[[|? ?] u] [|? ?]] eqn:El; try done.
    destruct (rowDelete_ok (set_cx 0 (set_cy 0 s)) [] ([], u) [] 0 Hr eq_refl) as (rs & n & E & Hs).
    rewrite E. eexists. split; [reflexivity|]. split; [by split|]. split; [edits|by left]. }
  destruct z as [up h]. pose proof (on_past _ _ _ Hon) as Hp. destruct Hon as [Hr Hy Hx].
  unfold z_lines in Hr. simpl in Hr, Hy, Hx.
  destruct h as [|x y u down]; [|destruct (unsnoc_case x) as [->|(x' & c & ->)]].
  - simpl in Hx. rewrite Hx. simpl. destruct (unsnoc_case up) as [->|(up' & [p v] & ->)].
    + simpl in Hy. rewrite Hy. simpl. exists s. split; [done|]. split; [by split|].
      split; [apply edits_refl|]. right. done.
    + rewrite unsnoc_snoc. simpl. destruct (Z.eqb_spec (e_cy s) 0); [zlia|].
      rewrite app_nil_r in Hr.
      destruct (rows_get _ _ up' _ _ (e_cy s - 1) Hr ltac:(zlia)) as (r & -> & (c & _ & Hc & _) & _).
      cbn [mbind option_bind]. simpl. assert (e_nrows s = e_cy s) as En by (rewrite (shows_len _ _ Hr), Hy; zlia).
      rewrite En. rewrite Z.ltb_irrefl. cbn [mbind option_bind].
      change (0 <? 0) with false. cbn iota. unfold edit_rowDelete. simpl. rewrite En.
      destruct (Z.leb_spec (e_cy s) (e_cy s)); [|lia]. rewrite orb_true_r. cbn [mbind option_bind].
      eexists. split; [reflexivity|]. split; [|split].
      * split; [|simpl; zlia|done]. unfold z_lines. simpl. by rewrite app_nil_r.
      * edits.
      * right. split; [done|]. unfold z_lines. simpl. by rewrite !app_nil_r.
  - simpl in Hx. rewrite Hx. simpl. destruct (unsnoc_case up) as [->|(up' & [p v] & ->)].
    + simpl in Hy. rewrite Hy. simpl. exists s. split; [done|]. split; [by split|].
      split; [apply edits_refl|]. right. done.
    + rewrite unsnoc_snoc. simpl. destruct (Z.eqb_spec (e_cy s) 0); [zlia|].
      rewrite <-(assoc_L (++)) in Hr. simpl in Hr.
      destruct (rows_get _ _ up' _ _ (e_cy s - 1) Hr ltac:(zlia)) as (r & -> & (c & _ & Hc & _) & _).
      cbn [mbind option_bind]. simpl in Hc. rewrite Hc.
      change (e_cy (set_cx (zlen p) s)) with (e_cy s). change (e_nrows (set_cx (zlen p) s)) with (e_nrows s).
      assert (e_cy s < e_nrows s) as Hlt by (rewrite (shows_len _ _ Hr), Hy; zlia).
      rewrite (proj2 (Z.ltb_lt _ _) Hlt).
      assert (shows (set_cx (zlen p) s) ((up' ++ [(p, v)]) ++ (y, u) :: down)) as Hr2 by by rewrite <-(assoc_L (++)).
      destruct (get_row_ok _ _ _ _ (e_cy s) Hr2 Hy) as (r2 & c2 & Hg2 & _ & Hl2 & _). simpl in Hg2, Hl2.
      rewrite Hg2. cbn [mbind option_bind]. rewrite Hl2.
      destruct (rowAppend_ok junk mem 0 (set_cx (zlen p) s) up' (p, v) ((y, u) :: down) (e_cy s - 1) y c2 Hr ltac:(zlia))
        as (rs & E & Hs). rewrite E, Hmem. cbn [mbind option_bind]. change (0 <? 0) with false. cbn iota.
      simpl in Hs. change (up' ++ (p ++ y, true) :: (y, u) :: down) with (up' ++ [(p ++ y, true)] ++ (y, u) :: down) in Hs.
      rewrite (assoc_L (++)) in Hs.
      destruct (rowDelete_ok (with_rows rs (e_nrows s) (set_cx (zlen p) s)) _ _ _ (e_cy s) Hs ltac:(zlia))
        as (rs2 & n2 & E2 & Hs2). 
      match goal with |- context [edit_rowDelete ?i ?s0] =>
        change (edit_rowDelete i s0) with (edit_rowDelete (e_cy s) (with_rows rs (e_nrows s) (set_cx (zlen p) s))) end.
      rewrite E2. cbn [mbind option_bind].
      eexists. split; [reflexivity|]. split; [|split; [edits|by left]].
      split; [|simpl; zlia|done]. unfold z_lines, shows. simpl. by rewrite <-(assoc_L (++)) in Hs2.
  - rewrite unsnoc_snoc. simpl in Hx. destruct (Z.eqb_spec (e_cx s) 0); [zlia|]. cbn [andb].
    destruct (Z.ltb_spec 0 (e_cx s)); [|zlia]. simpl in Hr. rewrite <-(assoc_L (++)) in Hr. simpl in Hr.
    destruct (rowDeleteChar_ok s up x' c y u down (e_cy s) (e_cx s - 1) Hr Hy ltac:(zlia)) as (rs & E & Hs).
    rewrite E. cbn [mbind option_bind]. eexists. split; [reflexivity|]. split; [|split; [edits|by left]].
    split; [done|done|simpl; zlia].
Qed.
End operations.

(** ** Moving the cursor *)

(** Line [i], column [col], cut to the line. *)
Definition z_goto (i col : Z) (ls : list aline) : zipper :=
  (take (Z.to_nat i) ls,
   match drop (Z.to_nat i) ls with
   | [] => Past
   | (l, u) :: down => In (take (Z.to_nat col) l) (drop (Z.to_nat col) l) u down
   end).

Definition line_len (i : Z) (ls : list aline) : Z := default 0 (l ← rd ls i; Some (zlen l.1)).

(** The cursor after one step of [edit_cursorMove]. *)
Definition z_move (key : Z) (z : zipper) : zipper :=
  let ls := z_lines z in
  let cy := zlen z.1 in
  let cx := here_col z.2 in
  if key =? keyUp then z_goto (if 0 <? cy then cy - 1 else cy) cx ls
  else if key =? keyDown then z_goto (if cy <? zlen ls then cy + 1 else cy) cx ls
  else if key =? keyLeft then
    if 0 <? cx then z_goto cy (cx - 1) ls
    else if 0 <? cy then z_goto (cy - 1) (line_len (cy - 1) ls) ls
    else z_goto cy cx ls
  else if key =? keyRight then
    if cy <? zlen ls then
      if cx <? line_len cy ls then z_goto cy (cx + 1) ls
      else if cx =? line_len cy ls then z_goto (cy + 1) 0 ls
      else z_goto cy cx ls
    else z_goto cy cx ls
  else z_goto cy cx ls.

Lemma z_goto_lines i col ls : z_lines (z_goto i col ls) = ls.
Proof.
  unfold z_lines, z_goto. simpl. rewrite <-(take_drop (Z.to_nat i) ls) at 3.
  destruct (drop (Z.to_nat i) ls) as [|[l u] down]; simpl; [done|]. by rewrite take_drop.
Qed.

Lemma z_goto_here up x y u down :
  z_goto (zlen up) (zlen x) (up ++ (x ++ y, u) :: down) = (up, In x y u down).
Proof. unfold z_goto. rewrite take_zlen_app, drop_zlen_app. f_equal. by rewrite take_zlen_app, drop_zlen_app. Qed.

Lemma z_goto_past ls col : z_goto (zlen ls) col ls = (ls, Past).
Proof.
  unfold z_goto, zlen. rewrite Nat2Z.id. rewrite take_ge by done. by rewrite drop_ge by done.
Qed.

(** Every position in the lines is the end of some prefix. *)
Lemma lines_at (ls : list aline) i :
  0 <= i <= zlen ls -> i = zlen ls \/ exists up l u down, ls = up ++ (l, u) :: down /\ zlen up = i.
Proof.
  intros Hi. destruct (list_split_at ls i Hi) as (up & [|[l u] down] & -> & Hu).
  - left. zlia.
  - right. by exists up, l, u, down.
Qed.

Definition clip (s : ed) : option ed :=
  if e_cy s <? e_nrows s then
    n ← row_len (e_cy s) s; Some (if n <? e_cx s then set_cx n s else s)
  else Some (set_cx 0 s).

Lemma clip_on s ls :
  shows s ls -> 0 <= e_cy s <= zlen ls -> 0 <= e_cx s ->
  exists s', clip s = Some s' /\ on s' (z_goto (e_cy s) (e_cx s) ls) /\ edits s s' /\ e_dirty s' = e_dirty s.
Proof.
  intros Hs Hy Hx. unfold clip. rewrite (shows_len _ _ Hs).
  destruct (lines_at ls (e_cy s) Hy) as [E|(up & l & u & down & -> & E)].
  - rewrite E. rewrite Z.ltb_irrefl. eexists. split; [reflexivity|].
    rewrite z_goto_past. split; [|split; [edits|done]].
    split; [unfold z_lines; simpl; by rewrite app_nil_r|exact E|done].
  - destruct (Z.ltb_spec (e_cy s) (zlen (up ++ (l, u) :: down))); [|zlia].
    destruct (rows_get _ _ _ _ _ (e_cy s) Hs (eq_sym E)) as (r & Hr & (c & _ & Hl & _) & _).
    unfold row_len. rewrite Hr. cbn [mbind option_bind]. simpl in Hl. rewrite Hl.
    rewrite <-E. destruct (Z.ltb_spec (zlen l) (e_cx s)) as [Hc|Hc].
    + eexists. split; [reflexivity|]. split; [|split; [edits|done]].
      unfold z_goto. rewrite take_zlen_app, drop_zlen_app.
      rewrite take_ge, drop_ge by (unfold zlen in *; lia).
      split; [unfold z_lines; simpl; by rewrite app_nil_r|done|done].
    + eexists. split; [reflexivity|]. split; [|split; [edits|done]].
      unfold z_goto. rewrite take_zlen_app, drop_zlen_app.
      split; [unfold z_lines; simpl; by rewrite take_drop|done|simpl; zlia].
Qed.

Lemma row_len_ok s ls i : shows s ls -> 0 <= i < zlen ls -> row_len i s = Some (line_len i ls).
Proof.
  intros Hs Hi. destruct (lines_at ls i ltac:(lia)) as [->|(up & l & u & down & -> & Hu)]; [lia|].
  destruct (rows_get _ _ _ _ _ i Hs (eq_sym Hu)) as (r & Hr & (c & _ & Hl & _) & _).
  unfold row_len, line_len. rewrite Hr, rd_app by done. simpl. by rewrite Hl.
Qed.

Lemma line_len_nonneg i ls : 0 <= line_len i ls.
Proof. unfold line_len. destruct (rd ls i); simpl; [apply zlen_nonneg|done]. Qed.

(** A move followed by the clipping of the column. *)
Lemma moved_on s ls cy cx :
  shows s ls -> 0 <= cy <= zlen ls -> 0 <= cx ->
  exists s', clip (set_cx cx (set_cy cy s)) = Some s' /\ on s' (z_goto cy cx ls) /\ edits s s' /\ e_dirty s' = e_dirty s.
Proof.
  intros Hs Hy Hx. destruct (clip_on (set_cx cx (set_cy cy s)) ls Hs Hy Hx) as (s' & E & Ho & He & Hd).
  exists s'. split; [done|]. split; [done|]. split; [|done].
  eapply edits_trans; [|exact He]. edits.
Qed.

Lemma set_c_same s : set_cx (e_cx s) (set_cy (e_cy s) s) = s.
Proof. by destruct s. Qed.
Lemma set_cx_cy v w s : set_cx v (set_cy w s) = set_cy w (set_cx v s).
Proof. done. Qed.

Lemma cursor_step_on key s z :
  on s z -> exists s', cursor_step key s = Some s' /\ on s' (z_move key z) /\ edits s s' /\ e_dirty s' = e_dirty s.
Proof.
  intros [Hr Hy Hx]. pose proof (shows_len _ _ Hr) as Hn. unfold cursor_step, z_move.
  set (ls := z_lines z) in *. rewrite <-Hy, <-Hx, <-Hn.
  assert (0 <= e_cx s) as Hx0 by (rewrite Hx; destruct z as [? []]; simpl; zlia).
  assert (0 <= e_cy s <= zlen ls) as Hy0 by (rewrite Hy; unfold ls, z_lines; rewrite zlen_app;
    pose proof (zlen_nonneg (here_lines z.2)); pose proof (zlen_nonneg z.1); lia).
  assert (forall cy cx s0, s0 = set_cx cx (set_cy cy s) -> 0 <= cy <= zlen ls -> 0 <= cx ->
    exists s', (s ← Some s0; clip s) = Some s' /\ on s' (z_goto cy cx ls) /\ edits s s' /\ e_dirty s' = e_dirty s) as Hm.
  { intros cy cx s0 -> ? ?. by apply moved_on. }
  fold clip.
  destruct (key =? keyUp); [|destruct (key =? keyDown); [|destruct (key =? keyLeft); [|destruct (key =? keyRight)]]].
  - apply Hm; [|destruct (Z.ltb_spec 0 (e_cy s)); lia|done].
    destruct (0 <? e_cy s); by destruct s.
  - apply Hm; [|destruct (Z.ltb_spec (e_cy s) (e_nrows s)); lia|done].
    destruct (e_cy s <? e_nrows s); by destruct s.
  - destruct (Z.ltb_spec 0 (e_cx s)); [apply Hm; [by destruct s|lia..]|].
    destruct (Z.ltb_spec 0 (e_cy s)).
    + rewrite (row_len_ok _ ls) by (done || simpl; lia). cbn [mbind option_bind].
      apply Hm; [done|lia|apply line_len_nonneg].
    + apply Hm; [by destruct s|lia..].
  - destruct (Z.ltb_spec (e_cy s) (e_nrows s)); [|apply Hm; [by destruct s|lia..]].
    rewrite (row_len_ok _ ls) by (done || lia). cbn [mbind option_bind].
    destruct (e_cx s <? line_len (e_cy s) ls); [apply Hm; [by destruct s|lia..]|].
    destruct (e_cx s =? line_len (e_cy s) ls); apply Hm; (by destruct s) || lia.
  - apply Hm; [by destruct s|lia..].
Qed.

Fixpoint z_moves (n : nat) (key : Z) (z : zipper) : zipper :=
  match n with O => z | Datatypes.S n => z_moves n key (z_move key z) end.

Lemma cursorMove_on key count s z :
  on s z -> exists s', edit_cursorMove key count s = Some s' /\ on s' (z_moves (Z.to_nat count) key z) /\
    edits s s' /\ e_dirty s' = e_dirty s.
Proof.
  unfold edit_cursorMove. generalize 0. generalize (Z.to_nat count). intros n. revert s z.
  induction n as [|n IH]; intros s z lo Hon; simpl.
  - exists s. split; [done|split; [done|split; [apply edits_refl|done]]].
  - destruct (cursor_step_on key s z Hon) as (s1 & -> & H1 & He1 & Hd1). simpl.
    destruct (IH s1 _ (lo + 1) H1) as (s2 & -> & H2 & He2 & Hd2). exists s2.
    split; [done|]. split; [done|]. split; [by eapply edits_trans|congruence].
Qed.
