(* ===== verification/EditText.v ===== *)
(** * The editor as a text with a cursor

    The lines and the cursor of [EditSpec] read as one text cut in two at the
    cursor.  Typing, Enter, Backspace, Delete and the horizontal arrows are
    insertion, deletion and motion by one character in it; the file holds that
    text whenever the editor says it is not modified. *)

From S2P Require Import Prelude Parse Edit EditSpec.

#[local] Opaque z_goto.

Definition flat (ls : list bytes) : bytes := mjoin ((fun l => l ++ [10]) <$> ls).

Lemma flat_app a b : flat (a ++ b) = flat a ++ flat b.
Proof. unfold flat. by rewrite fmap_app, join_app. Qed.

Lemma flat_cons l ls : flat (l :: ls) = l ++ 10 :: flat ls.
Proof. unfold flat. simpl. by rewrite <-(assoc_L (++)). Qed.

Abbreviation textpos := (bytes * bytes)%type.

(** The text before and after the cursor. *)
Definition z_text (z : zipper) : textpos :=
  match z with
  | (up, Past) => (flat (fst <$> up), [])
  | (up, In x y u down) => (flat (fst <$> up) ++ x, y ++ 10 :: flat (fst <$> down))
  end.

Definition clean_lines (ls : list aline) : Prop := Forall (fun l => Forall (fun c => c <> 10) l.1) ls.

(** ** Operations on a text *)

Definition t_type (replace : bool) (ch : Z) (t : textpos) : textpos :=
  match t with
  | (b, []) => (b ++ [ch], [10])
  | (b, c :: a) => (b ++ [ch], if replace && negb (c =? 10) then a else c :: a)
  end.

Definition t_enter (t : textpos) : textpos := (t.1 ++ [10], t.2).

Definition t_left (t : textpos) : textpos :=
  match unsnoc t.1 with Some (b, c) => (b, c :: t.2) | None => t end.

Definition t_right (t : textpos) : textpos :=
  match t with (b, c :: a) => (b ++ [c], a) | (_, []) => t end.

(** Deleting backwards: the newline that ends the text stays, except that of a
    text of one empty line. *)
Definition t_back (t : textpos) : textpos :=
  if decide (t.1 ++ t.2 = [10]) then ([], [])
  else match unsnoc t.1 with
       | Some (b, c) => (b, match t.2 with [] => [c] | a => a end)
       | None => t
       end.

Definition t_key (replace : bool) (key : Z) (t : textpos) : textpos :=
  if key =? keyEnter then t_enter t
  else if key =? keyDel then t_back (t_right t)
  else if key =? keyBksp then t_back t
  else if key =? keyLeft then t_left t
  else if key =? keyRight then t_right t
  else if key =? keyTab then t_type replace 9 t
  else t_type replace (u8 key) t.

(** ** The zipper operations are the text operations *)

Lemma fst_touch (ls : list aline) : fst <$> (touch <$> ls) = fst <$> ls.
Proof. rewrite <-list_fmap_compose. by apply list_fmap_ext. Qed.

Lemma z_text_app z : (z_text z).1 ++ (z_text z).2 = flat (fst <$> z_lines z).
Proof.
  destruct z as [up [|x y u down]]; unfold z_lines; simpl; rewrite fmap_app, flat_app; [done|].
  simpl. rewrite flat_cons. by rewrite <-!(assoc_L (++)).
Qed.

Lemma flat_single ls : flat ls = [10] <-> ls = [[]].
Proof.
  split; [|by intros ->]. destruct ls as [|l ls]; [done|]. rewrite flat_cons.
  destruct l as [|c l]; simpl; [|by destruct l].
  destruct ls as [|l2 ls]; [done|]. rewrite flat_cons. by destruct l2.
Qed.

Lemma z_single_text z : z_single z = bool_decide ((z_text z).1 ++ (z_text z).2 = [10]).
Proof.
  rewrite z_text_app. unfold z_single. symmetry.
  destruct (z_lines z) as [|[l u] [|l2 ls]].
  - by apply bool_decide_eq_false.
  - destruct l as [|c l]; [by apply bool_decide_eq_true|].
    apply bool_decide_eq_false. by intros H%flat_single.
  - transitivity false; [|by destruct l]. apply bool_decide_eq_false. by intros H%flat_single.
Qed.

Lemma z_insert_text replace ch z :
  clean_lines (z_lines z) -> z_text (z_insert replace ch z) = t_type replace ch (z_text z).
Proof.
  intros Hc. destruct z as [up [|x y u down]]; simpl; [done|].
  destruct y as [|c y]; simpl.
  - rewrite andb_false_r, <-(assoc_L (++)). by destruct replace.
  - assert (c <> 10) as Hne.
    { unfold clean_lines, z_lines in Hc. simpl in Hc. apply Forall_app in Hc as [_ Hc].
      inversion_clear Hc as [|? ? Hl _]. simpl in Hl. apply Forall_app in Hl as [_ Hl]. by inversion Hl. }
    rewrite (proj2 (Z.eqb_neq _ _) Hne), andb_true_r, <-(assoc_L (++)). by destruct replace.
Qed.

Lemma z_enter_text z : z_text (z_enter z) = t_enter (z_text z).
Proof.
  destruct z as [up [|x y u down]]; unfold t_enter; simpl; rewrite fmap_app, flat_app; simpl.
  - done.
  - rewrite fst_touch. unfold flat at 2. simpl. by rewrite !app_nil_r, <-(assoc_L (++)).
Qed.

Lemma z_back_text z : z_text (z_back z) = t_back (z_text z).
Proof.
  unfold z_back, t_back. rewrite z_single_text.
  destruct (bool_decide_reflect ((z_text z).1 ++ (z_text z).2 = [10])) as [E|E].
  { by rewrite decide_True. }
  rewrite decide_False by done. clear E.
  destruct z as [up [|x y u down]]; simpl.
  - destruct (unsnoc_case up) as [->|(up' & [p v] & ->)]; simpl; [done|].
    rewrite unsnoc_snoc, fmap_app, flat_app. simpl. rewrite flat_cons. simpl.
    rewrite (assoc_L (++)). change (flat []) with (@nil Z). by rewrite unsnoc_snoc.
  - destruct (unsnoc_case x) as [->|(x' & c & ->)]; simpl.
    + rewrite app_nil_r. destruct (unsnoc_case up) as [->|(up' & [p v] & ->)]; simpl; [done|].
      rewrite unsnoc_snoc, fmap_app, flat_app. simpl. rewrite flat_cons. simpl.
      rewrite (assoc_L (++)). change (flat []) with (@nil Z). rewrite unsnoc_snoc, fst_touch.
      by destruct y.
    + rewrite unsnoc_snoc, (assoc_L (++)), unsnoc_snoc. by destruct y.
Qed.

(** The zipper at a given split of the text. *)
Lemma z_left_text z : z_text (z_move keyLeft z) = t_left (z_text z).
Proof.
  unfold z_move, t_left.
  change (keyLeft =? keyUp) with false. change (keyLeft =? keyDown) with false. change (keyLeft =? keyLeft) with true.
  cbn iota. destruct z as [up [|x y u down]]; unfold z_lines; simpl.
  - rewrite app_nil_r. destruct (unsnoc_case up) as [->|(up' & [p v] & ->)]; [done|].
    destruct (Z.ltb_spec 0 (zlen (up' ++ [(p, v)]))); [|zlia].
    replace (zlen (up' ++ [(p, v)]) - 1) with (zlen up') by zlia.
    unfold line_len. rewrite rd_app by done. simpl.
    replace (up' ++ [(p, v)]) with (up' ++ (p ++ [], v) :: []) by (by rewrite app_nil_r).
    rewrite z_goto_here. simpl. rewrite fmap_app, flat_app. simpl. rewrite app_nil_r, flat_cons.
    rewrite (assoc_L (++)). change (flat []) with (@nil Z). by rewrite unsnoc_snoc.
  - destruct (unsnoc_case x) as [->|(x' & c & ->)].
    + change (0 <? zlen []) with false. cbn iota. rewrite app_nil_r.
      destruct (unsnoc_case up) as [->|(up' & [p v] & ->)].
      { change (0 <? @zlen aline []) with false. cbn iota. by rewrite (z_goto_here [] [] y u down). }
      destruct (Z.ltb_spec 0 (zlen (up' ++ [(p, v)]))); [|zlia].
      replace (zlen (up' ++ [(p, v)]) - 1) with (zlen up') by zlia.
      rewrite <-(assoc_L (++)). simpl. unfold line_len. rewrite rd_app by done. simpl.
      replace (p, v) with (p ++ [], v) by (by rewrite app_nil_r).
      rewrite z_goto_here. simpl. rewrite fmap_app, flat_app. simpl. rewrite !flat_cons, !app_nil_r.
      change (flat []) with (@nil Z). rewrite (assoc_L (++) _ p). by rewrite unsnoc_snoc.
    + destruct (Z.ltb_spec 0 (zlen (x' ++ [c]))); [|zlia].
      replace (zlen (x' ++ [c]) - 1) with (zlen x') by zlia.
      rewrite <-(assoc_L (++)). simpl. rewrite z_goto_here. simpl.
      by rewrite (assoc_L (++)), unsnoc_snoc.
Qed.

Lemma z_right_text z : z_text (z_move keyRight z) = t_right (z_text z).
Proof.
  unfold z_move.
  change (keyRight =? keyUp) with false. change (keyRight =? keyDown) with false.
  change (keyRight =? keyLeft) with false. change (keyRight =? keyRight) with true.
  cbn iota. destruct z as [up [|x y u down]]; unfold z_lines; simpl.
  - rewrite app_nil_r. rewrite Z.ltb_irrefl, z_goto_past. done.
  - destruct (Z.ltb_spec (zlen up) (zlen (up ++ (x ++ y, u) :: down))); [|zlia].
    unfold line_len. rewrite rd_app by done. simpl.
    destruct y as [|c y].
    + rewrite app_nil_r. rewrite Z.ltb_irrefl, Z.eqb_refl.
      replace (up ++ (x, u) :: down) with ((up ++ [(x, u)]) ++ down) by (by rewrite <-(assoc_L (++))).
      replace (zlen up + 1) with (zlen (up ++ [(x, u)])) by zlia.
      destruct down as [|[l v] down].
      * rewrite app_nil_r, z_goto_past. simpl. rewrite fmap_app, flat_app. simpl. rewrite flat_cons.
        by rewrite <-(assoc_L (++)).
      * change (l, v) with (([] : bytes) ++ l, v). change 0 with (zlen (@nil Z)). rewrite z_goto_here.
        simpl. rewrite fmap_app, flat_app. simpl. rewrite !flat_cons, app_nil_r. change (flat []) with (@nil Z).
        by rewrite <-(assoc_L (++)).
    + destruct (Z.ltb_spec (zlen x) (zlen (x ++ c :: y))); [|zlia].
      replace (x ++ c :: y) with ((x ++ [c]) ++ y) by (by rewrite <-(assoc_L (++))).
      replace (zlen x + 1) with (zlen (x ++ [c])) by zlia. rewrite z_goto_here. simpl.
      by rewrite (assoc_L (++)).
Qed.
