(* ===== verification/EditScreen.v ===== *)
(** * What the editor shows

    A row is shown with its tabs expanded and its other control characters
    replaced; [edit_rowRender] prints the window's part of that, and
    [edit_updateScroll] moves the window over the cursor. *)

From S2P Require Import Prelude Parse Edit EditSpec EditText.

(** A row as it is shown, from column [col] on. *)
Fixpoint expand (col : Z) (l : bytes) : bytes :=
  match l with
  | [] => []
  | c :: l =>
      if c =? 9 then replicate (Z.to_nat (4 - col mod 4)) 32 ++ expand (col + (4 - col mod 4)) l
      else (if (32 <=? c) && (c <=? 126) then c else 63) :: expand (col + 1) l
  end.

(** The columns from [o] to before [e]. *)
Definition window (o e : Z) (w : bytes) : bytes := take (Z.to_nat (e - o)) (drop (Z.to_nat o) w).

Lemma window_snoc o e w c :
  0 <= o ->
  window o e (w ++ [c]) = if (o <=? zlen w) && (zlen w <? e) then window o e w ++ [c] else window o e w.
Proof.
  intros Ho. unfold window. destruct (Z.leb_spec o (zlen w)) as [Hl|Hl]; simpl.
  - rewrite drop_app_le by (unfold zlen in *; lia).
    destruct (Z.ltb_spec (zlen w) e) as [He|He].
    + rewrite !take_ge; [done|..]; rewrite ?length_app, ?length_drop; unfold zlen in *; simpl; lia.
    + rewrite take_app_le; [done|]. rewrite length_drop. unfold zlen in *. lia.
  - rewrite !drop_ge; [done|..]; rewrite ?length_app; unfold zlen in *; simpl; lia.
Qed.

Lemma expand_app col a b : expand col (a ++ b) = expand col a ++ expand (col + zlen (expand col a)) b.
Proof.
  revert col. induction a as [|c a IH]; intros col; simpl.
  - f_equal. zlia.
  - destruct (c =? 9); rewrite IH.
    + rewrite <-(assoc_L (++)). do 3 f_equal.
      pose proof (Z.mod_pos_bound col 4 ltac:(lia)). zlia.
    + simpl. do 3 f_equal. zlia.
Qed.

Section render.
Context (o e : Z) (Ho : 0 <= o).

Lemma tab_loop_ok fuel n w :
  Z.of_nat n = 4 - zlen w mod 4 -> (n <= fuel)%nat ->
  tab_loop fuel o e (zlen w) (window o e w) = Some (zlen w + Z.of_nat n, window o e (w ++ replicate n 32)).
Proof.
  revert fuel w. induction n as [|n IH]; intros fuel w Hn Hf.
  { pose proof (Z.mod_pos_bound (zlen w) 4 ltac:(lia)). lia. }
  destruct fuel as [|fuel]; [lia|]. cbn [tab_loop].
  pose proof (window_snoc o e w 32 Ho) as Hw. rewrite <-Hw.
  rewrite Z.rem_mod_nonneg by (pose proof (zlen_nonneg w); unfold EDIT_TAB_STOP; lia).
  unfold EDIT_TAB_STOP. destruct (Z.eqb_spec ((zlen w + 1) mod 4) 0) as [E|E].
  - assert (n = 0%nat) as -> by (pose proof (zlen_nonneg w); Z.div_mod_to_equations; lia). done.
  - replace (zlen w + 1) with (zlen (w ++ [32])) by zlia. rewrite IH; [|zlia|lia].
    + rewrite <-(assoc_L (++)). do 2 f_equal. zlia.
    + replace (zlen (w ++ [32])) with (zlen w + 1) by zlia. pose proof (zlen_nonneg w).
      Z.div_mod_to_equations. lia.
Qed.

Lemma render_char_ok c l1 ch l2 :
  c = l1 ++ ch :: l2 ->
  render_char c o e (zlen l1) (zlen (expand 0 l1), window o e (expand 0 l1)) =
    Some (zlen (expand 0 (l1 ++ [ch])), window o e (expand 0 (l1 ++ [ch]))).
Proof.
  intros ->. unfold render_char. rewrite rd_app by done. cbn [mbind option_bind].
  rewrite expand_app. cbn [expand]. rewrite Z.add_0_l. destruct (Z.eqb_spec ch 9) as [->|Hch].
  - pose proof (Z.mod_pos_bound (zlen (expand 0 l1)) 4 ltac:(lia)).
    rewrite (tab_loop_ok _ (Z.to_nat (4 - zlen (expand 0 l1) mod 4))) by (unfold EDIT_TAB_STOP; lia).
    rewrite app_nil_r. do 2 f_equal. zlia.
  - rewrite window_snoc by done. f_equal. f_equal. zlia.
Qed.

Lemma render_loop_ok c l rest :
  c = l ++ rest ->
  for_loop 0 (length l) (render_char c o e) (0, []) = Some (zlen (expand 0 l), window o e (expand 0 l)).
Proof.
  intros Hc.
  destruct (for_loop_inv (fun i st => st = (zlen (expand 0 (take (Z.to_nat i) l)), window o e (expand 0 (take (Z.to_nat i) l))))
    (render_char c o e) 0 (length l) (0, [])) as (st & E & ->).
  - simpl. unfold window. by rewrite drop_nil, take_nil.
  - intros i st Hi ->. eexists. split; [|reflexivity].
    destruct (list_split_at l i) as (l1 & [|ch l2] & -> & Hl); [unfold zlen; lia| |].
    { unfold zlen in Hl. rewrite app_nil_r in Hi. lia. }
    rewrite <-Hl. rewrite take_zlen_app. rewrite (render_char_ok c l1 ch (l2 ++ rest)).
    2:{ rewrite Hc. by rewrite <-(assoc_L (++)). }
    replace (zlen l1 + 1) with (zlen (l1 ++ [ch])) by zlia.
    replace (l1 ++ ch :: l2) with ((l1 ++ [ch]) ++ l2) by (by rewrite <-(assoc_L (++))).
    by rewrite take_zlen_app.
  - rewrite E. rewrite Z.add_0_l, Nat2Z.id, take_ge by done. done.
Qed.
End render.

(** The number of tabs, as counted by the first loop. *)
Definition tabs (l : bytes) : Z := zlen (List.filter (fun c => c =? 9) l).

Lemma tabs_loop c l rest :
  c = l ++ rest ->
  for_loop 0 (length l) (fun i j => ch ← rd c i; Some (if ch =? 9 then j + 1 else j)) 0 = Some (tabs l).
Proof.
  intros Hc.
  destruct (for_loop_inv (fun i j => j = tabs (take (Z.to_nat i) l))
    (fun i j => ch ← rd c i; Some (if ch =? 9 then j + 1 else j)) 0 (length l) 0) as (st & E & ->).
  - done.
  - intros i st Hi ->. eexists. split; [|reflexivity].
    destruct (list_split_at l i) as (l1 & [|ch l2] & -> & Hl); [unfold zlen; lia| |].
    { unfold zlen in Hl. rewrite app_nil_r in Hi. lia. }
    subst c. rewrite <-Hl, <-(assoc_L (++)). simpl. rewrite rd_app by done. simpl.
    replace (zlen l1 + 1) with (zlen (l1 ++ [ch])) by zlia.
    replace (l1 ++ ch :: l2) with ((l1 ++ [ch]) ++ l2) by (by rewrite <-(assoc_L (++))).
    rewrite <-(assoc_L (++)), take_zlen_app, (assoc_L (++)), take_zlen_app.
    unfold tabs. rewrite List.filter_app. simpl. destruct (ch =? 9); f_equal; zlia.
  - rewrite E. by rewrite Z.add_0_l, Nat2Z.id, take_ge by done.
Qed.

Lemma expand_len l col : 0 <= zlen (expand col l) <= zlen l + 3 * tabs l.
Proof.
  unfold tabs. revert col. induction l as [|c l IH]; intros col; [done|]. simpl.
  pose proof (Z.mod_pos_bound col 4 ltac:(lia)).
  destruct (c =? 9).
  - specialize (IH (col + (4 - col mod 4))). autorewrite with zlen in *. lia.
  - specialize (IH (col + 1)). autorewrite with zlen in *. lia.
Qed.

Lemma tabs_le l : 0 <= tabs l <= zlen l.
Proof. unfold tabs, zlen. pose proof (List.filter_length_le (fun c => c =? 9) l). lia. Qed.

(** [edit_rowRender] prints exactly the window's columns of the expanded row. *)
Lemma rowRender_ok l cap offset cols :
  0 <= offset -> 0 <= cols -> offset + cols < 2 ^ 32 -> 4 * zlen l + 1 < 2 ^ 32 ->
  edit_rowRender (l ++ cap) (zlen l) offset cols = Some (window offset (offset + cols) (expand 0 l)).
Proof.
  intros Ho Hc H1 H2. change (2 ^ 32) with 4294967296 in *. unfold edit_rowRender. rewrite (u32_small (offset + cols)), (u32_small offset) by lia.
  replace (Z.to_nat (zlen l)) with (length l) by (unfold zlen; lia).
  rewrite (tabs_loop _ l cap eq_refl). cbn [mbind option_bind]. unfold EDIT_TAB_STOP.
  pose proof (tabs_le l). pose proof (zlen_nonneg l). pose proof (expand_len l 0).
  rewrite u32_small by lia.
  destruct (Z.ltb_spec (zlen l + tabs l * (4 - 1) + 1) offset) as [Hj|Hj].
  - rewrite (fun o e H => render_loop_ok o e H (l ++ cap) l cap eq_refl) by lia. simpl. unfold window.
    rewrite !drop_ge by (unfold zlen in *; lia). by rewrite !take_nil.
  - by rewrite (fun o e H => render_loop_ok o e H (l ++ cap) l cap eq_refl) by lia.
Qed.

(** ** The cursor is in the window *)

Definition shown_col (z : zipper) : Z :=
  match z.2 with Past => 0 | In x _ _ _ => zlen (expand 0 x) end.

Lemma column_loop c l rest :
  c = l ++ rest ->
  for_loop 0 (length l) (fun i rx =>
    ch ← rd c i;
    let rx := if ch =? 9 then rx + (EDIT_TAB_STOP - 1 - Z.rem rx EDIT_TAB_STOP) else rx in
    Some (rx + 1)) 0 = Some (zlen (expand 0 l)).
Proof.
  intros Hc.
  edestruct (for_loop_inv (fun i rx => rx = zlen (expand 0 (take (Z.to_nat i) l)))) as (st & E & Hst);
    [| |rewrite E, Hst, Z.add_0_l, Nat2Z.id, take_ge by done; done].
  - done.
  - intros i st Hi ->. eexists. split; [|reflexivity].
    destruct (list_split_at l i) as (l1 & [|ch l2] & -> & Hl); [unfold zlen; lia| |].
    { unfold zlen in Hl. rewrite app_nil_r in Hi. lia. }
    subst c. rewrite <-Hl, <-(assoc_L (++)). simpl. rewrite rd_app by done. simpl.
    replace (zlen l1 + 1) with (zlen (l1 ++ [ch])) by zlia.
    replace (l1 ++ ch :: l2) with ((l1 ++ [ch]) ++ l2) by (by rewrite <-(assoc_L (++))).
    rewrite <-(assoc_L (++)), take_zlen_app, (assoc_L (++)), take_zlen_app.
    rewrite expand_app. simpl. unfold EDIT_TAB_STOP.
    rewrite Z.rem_mod_nonneg by (pose proof (zlen_nonneg (expand 0 l1)); lia).
    pose proof (Z.mod_pos_bound (zlen (expand 0 l1)) 4 ltac:(lia)). rewrite Z.add_0_l.
    destruct (ch =? 9); f_equal; zlia.
Qed.

(** The window after [edit_updateScroll], from the old one. *)
Definition scroll_to (pos first size : Z) : Z :=
  let first := if pos <? first then pos else first in
  if first + size <=? pos then pos - size + 1 else first.

Lemma scroll_to_shows pos first size :
  1 <= size -> scroll_to pos first size <= pos < scroll_to pos first size + size.
Proof.
  intros Hs. unfold scroll_to.
  destruct (Z.ltb_spec pos first);
    [destruct (Z.leb_spec (pos + size) pos)|destruct (Z.leb_spec (first + size) pos)]; lia.
Qed.

Lemma scroll_to_nonneg pos first size : 1 <= size -> 0 <= pos -> 0 <= first -> 0 <= scroll_to pos first size.
Proof.
  intros Hs Hp Hf. unfold scroll_to. destruct (Z.ltb_spec pos first);
    [destruct (Z.leb_spec (pos + size) pos)|destruct (Z.leb_spec (first + size) pos)]; lia.
Qed.

Definition scrolled (z : zipper) (s : ed) : ed :=
  let rows := t_rows s - e_hbar s in
  set_vx (scroll_to (shown_col z) (e_vx s) (t_cols s))
    (set_vy (scroll_to (e_cy s) (e_vy s) rows)
      (set_rx (shown_col z) (set_rows rows (set_cols (t_cols s) s)))).

Lemma window_update s :
  let s1 := if e_cy s <? e_vy s then set_vy (e_cy s) s else s in
  let s2 := if e_vy s1 + e_rows s1 <=? e_cy s1 then set_vy (e_cy s1 - e_rows s1 + 1) s1 else s1 in
  let s3 := if e_rx s2 <? e_vx s2 then set_vx (e_rx s2) s2 else s2 in
  (if e_vx s3 + e_cols s3 <=? e_rx s3 then set_vx (e_rx s3 - e_cols s3 + 1) s3 else s3) =
  set_vx (scroll_to (e_rx s) (e_vx s) (e_cols s)) (set_vy (scroll_to (e_cy s) (e_vy s) (e_rows s)) s).
Proof.
  cbv zeta. unfold scroll_to. destruct s; simpl.
  destruct (e_cy <? e_vy); simpl; (destruct (_ <=? e_cy); simpl);
    (destruct (e_rx <? e_vx); simpl); by destruct (_ <=? e_rx).
Qed.

Lemma updateScroll_on s z :
  on s z -> exists changed, edit_updateScroll s = Some (changed, scrolled z s) /\
    (changed = false -> e_vx (scrolled z s) = e_vx s /\ e_vy (scrolled z s) = e_vy s).
Proof.
  intros Hon. pose proof Hon as [Hr Hy Hx]. unfold edit_updateScroll. cbv zeta.
  set (s1 := set_rows (t_rows s - e_hbar s) (set_cols (t_cols s) (set_rx 0 s))).
  assert ((if e_cy s1 <? e_nrows s1 then
         '(_, c) ← get_row (e_cy s1) s1;
         rx ← for_loop 0 (Z.to_nat (e_cx s1)) (fun i rx =>
                ch ← rd c i;
                Some ((if ch =? 9 then rx + (EDIT_TAB_STOP - 1 - Z.rem rx EDIT_TAB_STOP) else rx) + 1)) 0;
         Some (set_rx rx s1)
       else Some s1) = Some (set_rx (shown_col z) s1)) as ->.
  { change (e_cy s1) with (e_cy s). change (e_nrows s1) with (e_nrows s). change (e_cx s1) with (e_cx s).
    destruct z as [up [|x y u down]]; unfold z_lines in Hr; simpl in Hr, Hy, Hx.
    - rewrite (shows_len _ _ Hr), Hy. rewrite app_nil_r, Z.ltb_irrefl. done.
    - rewrite (shows_len _ _ Hr), Hy. destruct (Z.ltb_spec (zlen up) (zlen (up ++ (x ++ y, u) :: down))); [|zlia].
      destruct (get_row_ok s1 up _ down (zlen up) Hr eq_refl) as (r & c & Hg & _). rewrite Hg.
      cbn [mbind option_bind fst]. rewrite Hx. replace (Z.to_nat (zlen x)) with (length x) by (unfold zlen; lia).
      by rewrite (column_loop _ x (y ++ c)) by (by rewrite (assoc_L (++))). }
  cbn [mbind option_bind].
  pose proof (window_update (set_rx (shown_col z) s1)) as E. cbv zeta in E. rewrite E.
  eexists. split; [reflexivity|].
  intros [H1 H2]%orb_false_iff. apply negb_false_iff, Z.eqb_eq in H1, H2. done.
Qed.

(** ** Drawing never fails *)

Lemma tab_loop_total o e fuel j out :
  0 <= j -> 4 - j mod 4 <= Z.of_nat fuel -> exists j' out', tab_loop fuel o e j out = Some (j', out') /\ 0 <= j'.
Proof.
  revert j out. induction fuel as [|fuel IH]; intros j out Hj Hf.
  { pose proof (Z.mod_pos_bound j 4 ltac:(lia)). lia. }
  cbn [tab_loop]. unfold EDIT_TAB_STOP. rewrite Z.rem_mod_nonneg by lia.
  destruct (Z.eqb_spec ((j + 1) mod 4) 0) as [E|E]; [eexists _, _; split; [reflexivity|lia]|].
  apply IH; [lia|]. Z.div_mod_to_equations. lia.
Qed.

Lemma rowRender_total l cap offset cols : exists out, edit_rowRender (l ++ cap) (zlen l) offset cols = Some out.
Proof.
  unfold edit_rowRender. replace (Z.to_nat (zlen l)) with (length l) by (unfold zlen; lia).
  rewrite (tabs_loop _ l cap eq_refl). cbn [mbind option_bind].
  match goal with |- context [render_char _ ?o ?e] => generalize o, e end. intros o e.
  edestruct (for_loop_inv (fun _ (st : Z * bytes) => 0 <= st.1) (render_char (l ++ cap) o e) 0 (length l) (0, []))
    as ([j out] & -> & _); [done| |simpl; eauto].
  intros i [j out] Hi Hj. simpl in Hj. unfold render_char.
  assert (is_Some (rd (l ++ cap) i)) as [ch ->] by (apply rd_is_Some; unfold zlen; rewrite length_app; lia).
  cbn [mbind option_bind]. destruct (ch =? 9).
  - pose proof (Z.mod_pos_bound j 4 ltac:(lia)).
    destruct (tab_loop_total o e (Z.to_nat EDIT_TAB_STOP) j out Hj) as (j' & out' & -> & Hj');
      [unfold EDIT_TAB_STOP; lia|]. eauto.
  - eexists. split; [reflexivity|]. simpl. lia.
Qed.

(** Drawing changes the flags of the rows, the message and the output. *)
Definition drawn (s s' : ed) : Prop := exists rs m o, s' = set_msg m (set_out o (set_row rs s)).

Lemma drawn_refl s : drawn s s.
Proof. exists (e_row s), (e_msg s), (e_out s). by destruct s. Qed.
Lemma drawn_trans s1 s2 s3 : drawn s1 s2 -> drawn s2 s3 -> drawn s1 s3.
Proof. intros (? & ? & ? & ->) (rs & m & o & ->). by exists rs, m, o. Qed.
Lemma drawn_print b s : drawn s (print b s).
Proof. exists (e_row s), (e_msg s), (e_out s ++ b). by destruct s. Qed.

Lemma drawn_msg m s : drawn s (set_msg m s).
Proof. exists (e_row s), m, (e_out s). by destruct s. Qed.

Definition redrawn (s : ed) (ls : list aline) (s' : ed) : Prop :=
  drawn s s' /\ exists ls', shows s' ls' /\ fst <$> ls' = fst <$> ls.

Lemma draw_row_ok force y s ls :
  shows s ls -> exists s', draw_row force y s = Some s' /\ redrawn s ls s'.
Proof.
  intros Hs. unfold draw_row. rewrite (shows_len _ _ Hs).
  pose proof (wrapu_range 32 (y + e_vy s) ltac:(lia)) as [Hry _].
  destruct (Z.ltb_spec (u32 (y + e_vy s)) (zlen ls)) as [Hlt|_].
  - destruct (lines_at ls _ (conj Hry (Z.lt_le_incl _ _ Hlt))) as [Heq|(up & l & u & down & -> & Hu)]; [lia|].
    destruct (get_row_ok s up _ down _ Hs (eq_sym Hu)) as (r & c & Hg & Hri & Hl & Hput).
    unfold get_row in Hg. obind Hg. rewrite E. cbn [mbind option_bind]. obind Hg. simplify_eq.
    destruct (force || r_updated r).
    + rewrite E0. cbn [mbind option_bind]. simpl in Hl. rewrite Hl. simpl.
      destruct (rowRender_total l c (e_vx s) (e_cols s)) as (out & ->). cbn [mbind option_bind].
      destruct Hri as (cap & Hc & Hl' & _).
      destruct (Hput (Row (r_chars r) (r_len r) false) (l, false)) as (rs & Hp & Hrs); [by exists cap|].
      rewrite E0, Hl in Hp. simpl in Hp. rewrite Hp. cbn [mbind option_bind]. eexists. split; [reflexivity|]. split.
      * eapply drawn_trans; [|apply drawn_print]. exists rs, (e_msg s), (e_out s). by destruct s.
      * exists (up ++ (l, false) :: down). split; [done|]. by rewrite !fmap_app.
    + exists s. split; [done|]. split; [apply drawn_refl|]. by eexists.
  - destruct (_ || _); (eexists; split; [reflexivity|]); (split; [|by exists ls]).
    + apply drawn_print.
    + apply drawn_refl.
Qed.

Lemma drawRows_ok force s ls :
  shows s ls -> exists s', edit_drawRows force s = Some s' /\ redrawn s ls s'.
Proof.
  intros Hs. unfold edit_drawRows.
  destruct (for_loop_inv (fun _ s' => redrawn s ls s') (draw_row force) 0 (Z.to_nat (u32 (e_rows s))) s)
    as (s' & -> & H); [|intros i s1 _ (Hd & ls1 & Hs1 & E1)|by exists s'].
  - split; [apply drawn_refl|by exists ls].
  - destruct (draw_row_ok force i s1 ls1 Hs1) as (s2 & -> & Hd2 & ls2 & Hs2 & E2).
    exists s2. split; [done|]. split; [by eapply drawn_trans|]. exists ls2. split; [done|]. congruence.
Qed.

(** The text around a position given by line and column. *)
Definition t_goto (i col : Z) (ls : list bytes) : textpos :=
  match drop (Z.to_nat i) ls with
  | [] => (flat (take (Z.to_nat i) ls), [])
  | l :: down => (flat (take (Z.to_nat i) ls) ++ take (Z.to_nat col) l, drop (Z.to_nat col) l ++ 10 :: flat down)
  end.

Lemma z_goto_text i col ls : z_text (z_goto i col ls) = t_goto i col (fst <$> ls).
Proof.
  unfold z_goto, t_goto. rewrite <-fmap_take, <-fmap_drop.
  by destruct (drop (Z.to_nat i) ls) as [|[l u] down].
Qed.

Lemma on_goto s z : on s z -> z = z_goto (e_cy s) (e_cx s) (z_lines z).
Proof.
  intros [_ -> ->]. destruct z as [up [|x y u down]]; unfold z_lines; simpl.
  - by rewrite app_nil_r, z_goto_past.
  - by rewrite z_goto_here.
Qed.

(** Changing the flags only. *)
Lemma reflag s s' z ls' :
  on s z -> shows s' ls' -> fst <$> ls' = fst <$> z_lines z -> e_cy s' = e_cy s -> e_cx s' = e_cx s ->
  exists z', on s' z' /\ z_text z' = z_text z /\ z_lines z' = ls'.
Proof.
  intros Hon Hs Hl Hy Hx. exists (z_goto (e_cy s) (e_cx s) ls'). split; [|split].
  - destruct Hon as [Hr Hy' Hx'].
    assert (zlen ls' = zlen (z_lines z)) as Hlen by (by rewrite <-(zlen_fmap fst ls'), Hl, zlen_fmap).
    split; [by rewrite z_goto_lines| |].
    + rewrite Hy, Hy'. unfold z_goto. simpl. rewrite zlen_take, Hlen. unfold z_lines.
      rewrite zlen_app. pose proof (zlen_nonneg (here_lines z.2)). pose proof (zlen_nonneg z.1). lia.
    + rewrite Hx, Hx', Hy'. unfold z_goto. simpl.
      assert (fst <$> drop (Z.to_nat (zlen z.1)) ls' = fst <$> here_lines z.2) as Hd.
      { rewrite fmap_drop, Hl, <-fmap_drop. unfold z_lines. by rewrite drop_zlen_app. }
      destruct (drop _ ls') as [|[l u] down], z as [up [|x y v d]]; simpl in Hd; simplify_eq; simpl; [done|].
      by rewrite take_zlen_app.
  - transitivity (z_text (z_goto (e_cy s) (e_cx s) (z_lines z))).
    + by rewrite !z_goto_text, Hl.
    + by rewrite <-(on_goto s z Hon).
  - apply z_goto_lines.
Qed.

Lemma drawn_status s : drawn s (edit_drawStatusBar s).
Proof.
  unfold edit_drawStatusBar. eapply drawn_trans; [|apply drawn_print].
  destruct (e_msg s) as [m|] eqn:Em; simpl; rewrite Em.
  - eapply drawn_trans; [|apply drawn_msg]. eapply drawn_trans; [|apply drawn_print]. apply drawn_print.
  - eapply drawn_trans; [|apply drawn_print]. apply drawn_print.
Qed.

Lemma drawn_keys force s : drawn s (edit_drawKeys force s).
Proof. unfold edit_drawKeys. destruct force; [apply drawn_print|apply drawn_refl]. Qed.

Lemma draw_on force s z :
  on s z -> exists s' z', edit_draw force s = Some s' /\ on s' z' /\ z_text z' = z_text z /\
    fst <$> z_lines z' = fst <$> z_lines z /\ drawn (scrolled z s) s'.
Proof.
  intros Hon. pose proof Hon as [Hr Hy Hx]. unfold edit_draw.
  destruct (updateScroll_on s z Hon) as (changed & -> & _). cbn [mbind option_bind].
  set (s1 := edit_drawKeys force _).
  assert (drawn (scrolled z s) s1) as Hd1.
  { eapply drawn_trans; [|apply drawn_keys]. eapply drawn_trans; [|apply drawn_status]. apply drawn_print. }
  assert (shows s1 (z_lines z)) as Hs1.
  { unfold s1, edit_drawKeys, edit_drawStatusBar, shows. destruct force; simpl;
      destruct (e_msg s); done. }
  destruct (drawRows_ok (force || changed) s1 (z_lines z) Hs1) as (s2 & -> & Hd2 & ls & Hs2 & El).
  cbn [mbind option_bind].
  pose proof (drawn_trans _ _ _ Hd1 Hd2) as Hd. pose proof Hd as (rs & m & o & E2).
  destruct (reflag s s2 z ls Hon Hs2 El) as (z' & [Hr' Hy' Hx'] & Ht & Hl); [by rewrite E2..|].
  eexists _, z'. split; [reflexivity|]. split; [by split|]. split; [done|].
  split; [congruence|]. eapply drawn_trans; [exact Hd|apply drawn_print].
Qed.
