(* ===== verification/EditEvents.v ===== *)
(** * The editor's events

    Every key on a well-formed editor gives a well-formed editor; the keys that
    edit are the operations of [EditText]; what the status bar says about
    unsaved changes is the truth; opening and saving a file keep its lines. *)

From S2P Require Import Prelude Parse Edit EditSpec EditText EditScreen.

(** ** Positions *)

Lemma on_at s ls :
  shows s ls -> 0 <= e_cy s <= zlen ls -> 0 <= e_cx s ->
  (if e_cy s <? zlen ls then e_cx s <= line_len (e_cy s) ls else e_cx s = 0) ->
  on s (z_goto (e_cy s) (e_cx s) ls).
Proof.
  intros Hs Hy Hx Hc.
  destruct (lines_at ls (e_cy s) Hy) as [E|(up & l & u & down & -> & E)].
  - rewrite E in Hc |- *. rewrite Z.ltb_irrefl in Hc. rewrite z_goto_past.
    split; [unfold z_lines; simpl; by rewrite app_nil_r|exact E|exact Hc].
  - destruct (Z.ltb_spec (e_cy s) (zlen (up ++ (l, u) :: down))); [|zlia].
    unfold line_len in Hc. rewrite rd_app in Hc by done. simpl in Hc.
    unfold z_goto. rewrite <-E, take_zlen_app, drop_zlen_app.
    split; [unfold z_lines; simpl; by rewrite take_drop|done|simpl; zlia].
Qed.

Lemma on_pos s z : on s z -> 0 <= e_cy s <= zlen (z_lines z) /\ 0 <= e_cx s.
Proof.
  intros [_ -> ->]. unfold z_lines. rewrite zlen_app. pose proof (zlen_nonneg z.1).
  pose proof (zlen_nonneg (here_lines z.2)). split; [lia|]. destruct z.2; [done|apply zlen_nonneg].
Qed.

(** Up and down do not look at the column. *)
Lemma updown_on key s ls :
  key = keyUp \/ key = keyDown -> shows s ls -> 0 <= e_cy s <= zlen ls -> 0 <= e_cx s ->
  exists s' z', cursor_step key s = Some s' /\ on s' z' /\ z_lines z' = ls /\ edits s s' /\ e_dirty s' = e_dirty s.
Proof.
  intros Hk Hs Hy Hx. unfold cursor_step.
  assert (exists cy, 0 <= cy <= zlen ls /\
    (if key =? keyUp then Some (if 0 <? e_cy s then set_cy (e_cy s - 1) s else s)
     else if key =? keyDown then Some (if e_cy s <? e_nrows s then set_cy (e_cy s + 1) s else s)
     else None) = Some (set_cy cy s)) as (cy & Hcy & E).
  { rewrite (shows_len _ _ Hs). destruct Hk as [-> | ->]; simpl.
    - destruct (Z.ltb_spec 0 (e_cy s)); [exists (e_cy s - 1)|exists (e_cy s)]; (split; [lia|]); by destruct s.
    - destruct (Z.ltb_spec (e_cy s) (zlen ls)); [exists (e_cy s + 1)|exists (e_cy s)]; (split; [lia|]); by destruct s. }
  destruct (moved_on s ls cy (e_cx s) Hs Hcy Hx) as (s' & Ec & Ho & He & Hd).
  exists s', (z_goto cy (e_cx s) ls). split; [|split; [done|split; [apply z_goto_lines|done]]].
  replace (set_cx (e_cx s) (set_cy cy s)) with (set_cy cy s) in Ec by by destruct s.
  destruct Hk as [-> | ->].
  - change (keyUp =? keyUp) with true in *. cbn iota in *. rewrite E. exact Ec.
  - change (keyDown =? keyUp) with false in *. change (keyDown =? keyDown) with true in *. cbn iota in *.
    rewrite E. exact Ec.
Qed.

Lemma z_moves_lines n key z : z_lines (z_moves n key z) = z_lines z.
Proof.
  revert z. induction n as [|n IH]; intros z; simpl; [done|]. rewrite IH. unfold z_move.
  repeat case_match; apply z_goto_lines.
Qed.

Lemma z_move_lines key z : z_lines (z_move key z) = z_lines z.
Proof. apply (z_moves_lines 1 key z). Qed.

Lemma pages_on key count s ls :
  key = keyUp \/ key = keyDown -> 1 <= count -> shows s ls -> 0 <= e_cy s <= zlen ls -> 0 <= e_cx s ->
  exists s' z', edit_cursorMove key count s = Some s' /\ on s' z' /\ z_lines z' = ls /\ edits s s' /\ e_dirty s' = e_dirty s.
Proof.
  intros Hk Hc Hs Hy Hx. unfold edit_cursorMove.
  replace (Z.to_nat count) with (Datatypes.S (Z.to_nat (count - 1))) by lia. cbn [for_loop].
  destruct (updown_on key s ls Hk Hs Hy Hx) as (s1 & z1 & -> & H1 & E1 & He1 & Hd1). cbn [mbind option_bind].
  destruct (cursorMove_on key (count - 1) s1 z1 H1) as (s2 & E2 & H2 & He2 & Hd2).
  unfold edit_cursorMove in E2. revert E2. generalize (0 + 1). intros lo E2.
  assert (forall n lo lo' s, for_loop lo n (fun _ => cursor_step key) s = for_loop lo' n (fun _ => cursor_step key) s) as Hlo.
  { intros n. induction n as [|n IH]; intros; simpl; [done|]. destruct (cursor_step key s0); simpl; [apply IH|done]. }
  rewrite (Hlo _ lo 0), E2. exists s2, (z_moves (Z.to_nat (count - 1)) key z1). split; [done|]. split; [done|].
  split; [by rewrite z_moves_lines|]. split; [by eapply edits_trans|congruence].
Qed.

(** Deleting a line: the cursor goes to the start of the next one. *)
Lemma ctrlD_on s z :
  on s z ->
  exists s' z', (let s := if (0 <? e_nrows s) && (e_cy s =? e_nrows s) then set_cy (e_cy s - 1) s else s in
     s ← edit_rowDelete (e_cy s) s; Some (set_cx 0 s)) = Some s' /\ on s' z' /\ edits s s' /\
     (forall P, Forall P (fst <$> z_lines z) -> Forall P (fst <$> z_lines z')) /\
     dirties z z' (e_dirty s) (e_dirty s').
Proof.
  intros Hon. pose proof (on_pos _ _ Hon) as [Hy _]. destruct Hon as [Hr _ _].
  pose proof (shows_len _ _ Hr) as Hn. set (ls := z_lines z) in *. cbv zeta.
  assert (exists s0, (if (0 <? e_nrows s) && (e_cy s =? e_nrows s) then set_cy (e_cy s - 1) s else s) = s0 /\
    shows s0 ls /\ edits s s0 /\ e_dirty s0 = e_dirty s /\
    (ls = [] /\ e_cy s0 = 0 \/ 0 <= e_cy s0 < zlen ls)) as (s0 & -> & Hs0 & He0 & Hd0 & Hc0).
  { destruct (Z.ltb_spec 0 (e_nrows s)) as [H0|H0]; simpl.
    - destruct (Z.eqb_spec (e_cy s) (e_nrows s)).
      + eexists. split; [reflexivity|]. split; [done|]. split; [edits|]. split; [done|]. right. simpl. lia.
      + exists s. split; [done|]. split; [done|]. split; [apply edits_refl|]. split; [done|]. right. lia.
    - exists s. split; [done|]. split; [done|]. split; [apply edits_refl|]. split; [done|]. left.
      assert (ls = []) as -> by (apply zlen_0_nil; lia). split; [done|]. change (zlen []) with 0 in *. lia. }
  destruct Hc0 as [[El Ec]|Hc].
  - unfold edit_rowDelete. rewrite (shows_len _ _ Hs0), El, Ec. change (@zlen aline []) with 0. simpl.
    exists (set_cx 0 s0), ([], Past). split; [done|]. split; [|split; [|split]].
    + split; [|exact Ec|done]. unfold z_lines. simpl. by rewrite <-El.
    + eapply edits_trans; [exact He0|apply edits_cx].
    + constructor.
    + right. split; [exact Hd0|]. fold ls. by rewrite El.
  - destruct (lines_at ls (e_cy s0) ltac:(lia)) as [E|(up & l & u & down & El & Eu)]; [lia|].
    rewrite El in Hs0.
    destruct (rowDelete_ok s0 up (l, u) down (e_cy s0) Hs0 (eq_sym Eu)) as (rs & n & E & Hs). rewrite E.
    cbn [mbind option_bind]. eexists _, (z_goto (zlen up) 0 (up ++ (touch <$> down))).
    split; [reflexivity|]. split; [|split; [|split]].
    + pose proof (on_at (set_cx 0 (with_rows rs n s0)) (up ++ (touch <$> down)) Hs) as Ho. simpl in Ho.
      rewrite <-Eu in Ho. apply Ho; [zlia|done|].
      destruct (_ <? _); [apply line_len_nonneg|done].
    + eapply edits_trans; [exact He0|]. edits.
    + intros P. rewrite z_goto_lines. fold ls. rewrite El, !fmap_app, fst_touch. simpl.
      rewrite !Forall_app, Forall_cons. tauto.
    + by left.
Qed.

(** ** Saving *)

Lemma cstr_full t : zlen (cstr t) = zlen t -> cstr t = t.
Proof.
  induction t as [|c t IH]; simpl; [done|]. destruct (c =? 0); [zlia|]. intros H. f_equal. apply IH. zlia.
Qed.

Lemma save_loop_ok wr_ok s a b out :
  shows s (a ++ b) ->
  exists r out', save_loop (length b) (zlen a) wr_ok s out = Some (r, out') /\
    (r = -1 \/ (r = zlen a + zlen b /\ out' = out ++ flat (fst <$> b))) /\
    ((forall i, wr_ok i = true) -> Forall nonul (fst <$> b) -> r <> -1).
Proof.
  revert a out. induction b as [|[l u] b IH]; intros a out Hs; cbn [length save_loop].
  - exists (zlen a), out. split; [done|]. split; [right; split; [zlia|by rewrite app_nil_r]|].
    intros _ _. pose proof (zlen_nonneg a). lia.
  - destruct (get_row_ok s a _ b (zlen a) Hs eq_refl) as (r & c & -> & _ & Hl & _). simpl in Hl.
    cbn [mbind option_bind fst]. rewrite (rd_range_app [] l c) by (done || by rewrite Hl). cbn [mbind option_bind].
    destruct (wr_ok (zlen a)) eqn:Ew; simpl.
    2:{ exists (-1), out. split; [done|]. split; [by left|]. intros Hw. by rewrite Hw in Ew. }
    rewrite Hl. destruct (Z.eqb_spec (zlen (cstr l ++ [10])) (zlen l + 1)) as [El|El]; simpl.
    + rewrite (cstr_full l) by zlia.
      replace (zlen a + 1) with (zlen (a ++ [(l, u)])) by zlia.
      destruct (IH (a ++ [(l, u)]) (out ++ l ++ [10])) as (r' & out' & E & Hr & Hok); [by rewrite <-(assoc_L (++))|].
      exists r', out'. rewrite E. split; [done|]. split.
      * destruct Hr as [Hr|[Hr ->]]; [by left|]. right. split; [rewrite Hr; zlia|].
        rewrite flat_cons, <-!(assoc_L (++)). done.
      * intros Hw Hn. inversion_clear Hn. by apply Hok.
    + eexists (-1), _. split; [reflexivity|]. split; [by left|]. intros _ Hn. inversion_clear Hn as [|? ? Hl0 _].
      destruct El. simpl in Hl0.
      assert (cstr l = l) as ->; [|zlia].
      clear -Hl0. induction Hl0 as [|c l Hc _ IH]; simpl; [done|]. destruct (Z.eqb_spec c 0); [done|]. by rewrite IH.
Qed.

(** The fields of the window and the terminal. *)
Record keeps (s s' : ed) : Prop := {
  k_rows : e_rows s' = e_rows s; k_hbar : e_hbar s' = e_hbar s; k_vy : e_vy s' = e_vy s;
  k_trows : t_rows s' = t_rows s; k_ev : t_ev s' = t_ev s; k_name : e_filename s' = e_filename s
}.

Lemma keeps_edits s s' : edits s s' -> keeps s s' /\ e_disk s' = e_disk s.
Proof. intros (rs & n & cx & cy & d & ->). by destruct s. Qed.

Lemma save_on open_ok wr_ok s z :
  on s z -> exists s', edit_save open_ok wr_ok s = Some s' /\ on s' z /\ keeps s s' /\
    ((forall i, wr_ok i = true) -> Forall nonul (fst <$> z_lines z) ->
      (e_dirty s' = e_dirty s /\ e_disk s' = e_disk s) \/
      (e_dirty s' = false /\ e_disk s' = Some (flat (fst <$> z_lines z)))).
Proof.
  intros [Hr Hy Hx]. unfold edit_save. destruct (e_filename s) as [f|].
  2:{ exists s. split; [done|]. split; [by split|]. split; [done|]. intros. by left. }
  destruct open_ok; cbn [mbind option_bind].
  - pose proof (save_loop_ok wr_ok s [] (z_lines z) [] Hr) as (r & out & E & Hout & Hok).
    change (@zlen aline []) with 0 in *. rewrite (shows_len _ _ Hr).
    replace (Z.to_nat (zlen (z_lines z))) with (length (z_lines z)) by (unfold zlen; lia). rewrite E.
    cbn [mbind option_bind]. destruct (Z.ltb_spec r 0) as [Hr0|Hr0].
    + eexists. split; [reflexivity|]. split; [by split|]. split; [done|]. intros Hw Hn. specialize (Hok Hw Hn).
      destruct Hout as [?|[? _]]; [done|]. pose proof (zlen_nonneg (z_lines z)). lia.
    + eexists. split; [reflexivity|]. split; [by split|]. split; [done|]. intros Hw Hn. right.
      split; [done|]. simpl. destruct Hout as [?|[_ ->]]; [lia|]. done.
  - eexists. split; [reflexivity|]. split; [by split|]. split; [done|]. intros _ _. by left.
Qed.

Lemma save_succeeds wr_ok s z f :
  on s z -> e_filename s = Some f -> (forall i, wr_ok i = true) -> Forall nonul (fst <$> z_lines z) ->
  edit_save true wr_ok s = Some (edit_status (bstr "File saved.") colorInfo
    (set_dirty false (set_disk (Some (flat (fst <$> z_lines z))) s))).
Proof.
  intros [Hr _ _] Hf Hw Hn. unfold edit_save. rewrite Hf.
  pose proof (save_loop_ok wr_ok s [] (z_lines z) [] Hr) as (r & out & E & Hout & Hok).
  change (@zlen aline []) with 0 in *. rewrite (shows_len _ _ Hr).
  replace (Z.to_nat (zlen (z_lines z))) with (length (z_lines z)) by (unfold zlen; lia). rewrite E.
  specialize (Hok Hw Hn). destruct Hout as [?|[-> ->]]; [done|]. cbn [mbind option_bind].
  destruct (Z.ltb_spec (0 + zlen (z_lines z)) 0); [|done].
  pose proof (zlen_nonneg (z_lines z)). lia.
Qed.

(** ** Keys *)

Definition writes_ok (wr_ok : Z -> bool) (z : zipper) : Prop :=
  (forall i, wr_ok i = true) /\ Forall nonul (fst <$> z_lines z).

(** The editor is not modified, and then the text is as it was; or the text was
    written. *)
Definition truthful (s : ed) (z : zipper) (s' : ed) (z' : zipper) : Prop :=
  e_dirty s' = false ->
    (e_dirty s = false /\ e_disk s' = e_disk s /\ fst <$> z_lines z' = fst <$> z_lines z) \/
    (e_disk s' = Some (flat (fst <$> z_lines z')) /\ fst <$> z_lines z' = fst <$> z_lines z).

Lemma truthful_edits s z s' z' :
  edits s s' -> dirties z z' (e_dirty s) (e_dirty s') -> truthful s z s' z'.
Proof.
  intros He Hd Hf. destruct (keeps_edits _ _ He) as [_ Hdisk]. left.
  destruct Hd as [Hd|[Hd Hl]]; [congruence|]. split; [congruence|done].
Qed.

Record ready (s : ed) (z : zipper) : Prop := {
  rd_on : on s z;
  rd_clean : clean_lines (z_lines z);
  rd_vy : 0 <= e_vy s <= e_cy s;
  rd_rows : 1 <= e_rows s;
  rd_size : 1 <= t_rows s - e_hbar s
}.

Lemma clean_fst ls : clean_lines ls <-> Forall (fun l => Forall (fun c => c <> 10) l) (fst <$> ls).
Proof. unfold clean_lines. by rewrite Forall_fmap. Qed.

Lemma clean_same ls ls' : fst <$> ls' = fst <$> ls -> clean_lines ls -> clean_lines ls'.
Proof. rewrite !clean_fst. by intros ->. Qed.

Lemma clean_insert replace ch z : ch <> 10 -> clean_lines (z_lines z) -> clean_lines (z_lines (z_insert replace ch z)).
Proof.
  intros Hch. destruct z as [up [|x y u down]]; unfold clean_lines, z_lines; simpl; rewrite !Forall_app; simpl.
  - intros [Hu _]. split; [done|]. repeat constructor. done.
  - intros [Hu Hl]. split; [done|]. inversion_clear Hl as [|? ? Hxy Hd]. constructor; [|done].
    simpl in *. apply Forall_app in Hxy as [Hx Hy]. rewrite !Forall_app. repeat split; [done|by repeat constructor|].
    destruct replace; [|done]. by destruct Hy.
Qed.

Lemma clean_enter z : clean_lines (z_lines z) -> clean_lines (z_lines (z_enter z)).
Proof.
  destruct z as [up [|x y u down]]; rewrite !clean_fst; unfold z_lines; simpl;
    rewrite !fmap_app, !Forall_app; simpl; rewrite ?fst_touch.
  - intros [Hu _]. repeat split; [done|by repeat constructor|done].
  - intros [Hu Hl]. inversion_clear Hl as [|? ? Hxy Hd]. apply Forall_app in Hxy as [Hx Hy].
    repeat split; [done|by constructor|by constructor].
Qed.

Lemma clean_back z : clean_lines (z_lines z) -> clean_lines (z_lines (z_back z)).
Proof.
  unfold z_back. destruct (z_single z); [constructor|].
  destruct z as [up [|x y u down]]; simpl.
  - destruct (unsnoc_case up) as [->|(up' & [p v] & ->)]; [done|]. rewrite unsnoc_snoc.
    unfold z_lines. simpl. by rewrite !app_nil_r.
  - destruct (unsnoc_case x) as [->|(x' & c & ->)].
    + destruct (unsnoc_case up) as [->|(up' & [p v] & ->)]; [done|]. simpl. rewrite unsnoc_snoc.
      rewrite !clean_fst. unfold z_lines. simpl. rewrite !fmap_app, !Forall_app. simpl. rewrite fst_touch.
      intros [[Hu Hp] Hl]. inversion_clear Hl. inversion_clear Hp. split; [done|]. constructor; [|done]. by apply Forall_app.
    + rewrite unsnoc_snoc. unfold clean_lines, z_lines. simpl. rewrite !Forall_app.
      intros [Hu Hl]. inversion_clear Hl as [|? ? Hxy Hd]. split; [done|]. constructor; [|done]. simpl in *.
      apply Forall_app in Hxy as [[Hx _]%Forall_app Hy]. by apply Forall_app.
Qed.

Section keys.
Context (junk : Z) (mem : nat -> bool) (Hmem : forall k, mem k = true).
Context (open_ok : bool) (wr_ok : Z -> bool).

(** The result of a key on a well-formed editor. *)
Definition good (s : ed) (z : zipper) (r : option (event_t * ed + ed)) : Prop :=
  match r with
  | Some (inl (_, s')) => s' = s
  | Some (inr s') =>
      exists z', on s' z' /\ clean_lines (z_lines z') /\ keeps s s' /\ (writes_ok wr_ok z -> truthful s z s' z')
  | None => False
  end.

Lemma good_edits s z s' z' :
  on s' z' -> clean_lines (z_lines z') -> edits s s' -> dirties z z' (e_dirty s) (e_dirty s') ->
  good s z (Some (inr s')).
Proof.
  intros Ho Hc He Hd. exists z'. split; [done|]. split; [done|]. split; [by apply keeps_edits|].
  intros _. by apply truthful_edits.
Qed.

Lemma dirties_moved z z' d : z_lines z' = z_lines z -> dirties z z' d d.
Proof. intros Hl. right. by rewrite Hl. Qed.

Lemma good_same s z s' :
  on s' z -> clean_lines (z_lines z) -> keeps s s' -> e_dirty s' = e_dirty s -> e_disk s' = e_disk s ->
  good s z (Some (inr s')).
Proof.
  intros Ho Hc Hk Hd Hdisk. exists z. split; [done|]. split; [done|]. split; [done|].
  intros _ Hf. left. split; [congruence|done].
Qed.

Lemma good_insert ch s z :
  ready s z -> ch <> 10 -> good s z (s ← edit_insertChar junk mem ch s; Some (inr s)).
Proof.
  intros [Hon Hc _ _ _] Hch. destruct (insertChar_on junk mem Hmem s z ch Hon) as (s' & -> & Ho & He & Hd).
  cbn [mbind option_bind]. eapply good_edits; [exact Ho|by apply clean_insert|done|by left].
Qed.

Lemma good_back s0 s z :
  on s z -> clean_lines (z_lines z) -> edits s0 s -> e_dirty s = e_dirty s0 ->
  forall z0, z_lines z0 = z_lines z -> good s0 z0 (s ← edit_deleteChar junk mem s; Some (inr s)).
Proof.
  intros Hon Hc He0 Hd0 z0 Hl. destruct (deleteChar_on junk mem Hmem s z Hon) as (s' & -> & Ho & He & Hd).
  cbn [mbind option_bind]. eapply good_edits; [exact Ho|by apply clean_back|by eapply edits_trans|].
  unfold dirties in *. rewrite Hl, <-Hd0. exact Hd.
Qed.

Lemma good_at cx s z :
  ready s z -> 0 <= cx -> (if e_cy s <? zlen (z_lines z) then cx <= line_len (e_cy s) (z_lines z) else cx = 0) ->
  good s z (Some (inr (set_cx cx s))).
Proof.
  intros [Hon Hc _ _ _] H0 Hcx. pose proof (on_pos _ _ Hon) as [Hy _]. destruct Hon as [Hr _ _].
  pose proof (on_at (set_cx cx s) _ Hr Hy H0 Hcx) as Ho.
  eapply good_edits; [exact Ho|by rewrite z_goto_lines|edits|].
  apply dirties_moved, z_goto_lines.
Qed.

Lemma good_pages key cy count s z :
  key = keyUp \/ key = keyDown -> 1 <= count -> ready s z -> 0 <= cy <= zlen (z_lines z) ->
  good s z (s ← edit_cursorMove key count (set_cy cy s); Some (inr s)).
Proof.
  intros Hk Hn [Hon Hc _ _ _] Hcy. pose proof (on_pos _ _ Hon) as [_ Hx]. destruct Hon as [Hr _ _].
  destruct (pages_on key count (set_cy cy s) (z_lines z) Hk Hn Hr Hcy Hx) as (s' & z' & -> & Ho & Hl & He & Hd).
  cbn [mbind option_bind]. eapply good_edits; [exact Ho|by rewrite Hl| |].
  - eapply edits_trans; [apply edits_cy|exact He].
  - rewrite Hd. by apply dirties_moved.
Qed.

Lemma handle_key_good key ev s z :
  ready s z -> u8 key <> 10 -> good s z (handle_key junk mem open_ok wr_ok key ev s).
Proof.
  intros Hrd H10. pose proof Hrd as [Hon Hc Hvy Hrows Hsize].
  pose proof (on_pos _ _ Hon) as [Hy Hx]. pose proof (shows_len _ _ (on_rows _ _ Hon)) as Hn.
  unfold handle_key. cbv zeta.
  destruct (key =? keyCtrlL); [done|]. destruct (key =? keyCtrlX); [by apply good_same|].
  destruct (key =? keyCtrlC); [done|].
  destruct (key =? keyCtrlQ).
  { destruct (negb (e_dirty s)); [done|]. apply good_same; [|done|done|done|done].
    destruct Hon. by split. }
  destruct (key =? keyCtrlS).
  { destruct (save_on open_ok wr_ok s z Hon) as (s' & -> & Ho & Hk & Ht). simpl.
    exists z. split; [done|]. split; [done|]. split; [done|]. intros [Hw Hnn] Hf.
    destruct (Ht Hw Hnn) as [[Hd Hdk]|[_ Hdk]]; [left; split; [congruence|done]|by right]. }
  destruct (key =? keyEnter).
  { destruct (insertNewLine_on junk mem Hmem s z Hon) as (s' & -> & Ho & He & Hd).
    eapply good_edits; [exact Ho|by apply clean_enter|done|by left]. }
  destruct (key =? keyCtrlD).
  { destruct (ctrlD_on s z Hon) as (s' & z' & E & Ho & He & Hl & Hd). cbv zeta in E. rewrite E.
    eapply good_edits; [exact Ho| |done|done]. rewrite clean_fst in Hc |- *. by apply Hl. }
  destruct (key =? keyDel).
  { destruct (cursorMove_on keyRight 1 s z Hon) as (s1 & -> & H1 & He1 & Hd1). cbn [mbind option_bind].
    eapply good_back; [exact H1|by rewrite z_moves_lines|done|done|by rewrite z_moves_lines]. }
  destruct (key =? keyBksp); [by apply (good_back s s z Hon Hc (edits_refl s))|].
  destruct (key =? keyIns).
  { apply good_same; [|done|done|done|done]. destruct Hon. by split. }
  destruct (key =? keyHome).
  { apply good_at; [done|done|]. destruct (_ <? _); [apply line_len_nonneg|done]. }
  destruct (key =? keyEnd).
  { rewrite Hn. destruct (Z.ltb_spec (e_cy s) (zlen (z_lines z))) as [Hlt|Hlt].
    - rewrite (row_len_ok s _ (e_cy s) (on_rows _ _ Hon)) by lia. cbn [mbind option_bind].
      apply good_at; [done|apply line_len_nonneg|]. by rewrite (proj2 (Z.ltb_lt _ _) Hlt).
    - by apply good_same. }
  destruct (key =? keyPgup); [apply good_pages; [by left|done|done|lia]|].
  destruct (key =? keyPgdn).
  { change (e_nrows (set_cy _ s)) with (e_nrows s). change (e_cy (set_cy ?v s)) with v. rewrite Hn.
    destruct (Z.ltb_spec (zlen (z_lines z)) (e_vy s + e_rows s - 1)).
    - change (set_cy (zlen (z_lines z)) (set_cy _ s)) with (set_cy (zlen (z_lines z)) s).
      apply good_pages; [by right|done|done|lia].
    - apply good_pages; [by right|done|done|lia]. }
  destruct (in_chars key _).
  { destruct (cursorMove_on key 1 s z Hon) as (s1 & -> & H1 & He1 & Hd1). cbn [mbind option_bind].
    eapply good_edits; [exact H1|by rewrite z_moves_lines|done|].
    rewrite Hd1. apply dirties_moved, z_moves_lines. }
  destruct (key =? keyTab); by apply good_insert.
Qed.

(** After the key the window is moved and drawn. *)
Lemma draw_ready force s z :
  on s z -> clean_lines (z_lines z) -> 0 <= e_vy s -> 1 <= t_rows s - e_hbar s ->
  exists s' z', edit_draw force s = Some s' /\ ready s' z' /\ z_text z' = z_text z /\
    fst <$> z_lines z' = fst <$> z_lines z /\ e_dirty s' = e_dirty s /\ e_disk s' = e_disk s /\
    e_replace s' = e_replace s /\ keeps (scrolled z s) s'.
Proof.
  intros Hon Hc Hvy Hsize. destruct (draw_on force s z Hon) as (s' & z' & E & Ho & Ht & Hl & rs & m & o & Hs').
  pose proof (on_pos _ _ Hon) as [Hy _].
  exists s', z'. split; [done|]. split; [|rewrite Hs'; done]. split; [done|by eapply clean_same|..];
    rewrite Hs'; simpl; [|lia|lia].
  pose proof (scroll_to_shows (e_cy s) (e_vy s) _ Hsize) as Hs1.
  pose proof (scroll_to_nonneg (e_cy s) (e_vy s) _ Hsize ltac:(lia) Hvy). lia.
Qed.

(** ** The events *)

Context (getSize : option (Z * Z)).

(** The terminal has room for the status bar and at least one line. *)
Definition roomy (s : ed) : Prop :=
  match getSize with Some (_, rows) => e_hbar s + 1 <= rows | None => True end.

Lemma event_ok ev s z :
  ready s z -> roomy s -> u8 (data ev) <> 10 ->
  exists ev' s' z', edit_handleEvent junk mem getSize open_ok wr_ok ev s = Some (ev', s') /\ ready s' z' /\
    (writes_ok wr_ok z -> truthful s z s' z').
Proof.
  intros Hrd Hroom H10. pose proof Hrd as [Hon Hc Hvy Hrows Hsize]. unfold edit_handleEvent.
  assert (truthful s z s z) as Hself by (left; done).
  destruct (what ev).
  1, 3, 4, 6: (exists ev, s, z; done).
  - set (s0 := match getSize with Some (col, row) => set_t_cols col (set_t_rows row s) | None => s end).
    assert (on s0 z /\ 0 <= e_vy s0 /\ 1 <= t_rows s0 - e_hbar s0 /\ e_dirty s0 = e_dirty s /\ e_disk s0 = e_disk s)
      as (Ho & Hv & Hs & Hd & Hdk).
    { unfold s0, roomy in *. destruct getSize as [[col row]|]; simpl.
      - split; [by destruct Hon; split|]. split; [lia|]. split; [lia|done].
      - repeat split; try done; try (by destruct Hon); lia. }
    destruct (draw_ready true s0 z Ho Hc Hv Hs) as (s' & z' & -> & Hr' & _ & Hl & Hd' & Hdk' & _).
    cbn [mbind option_bind]. eexists _, s', z'. split; [reflexivity|]. split; [done|].
    intros _ Hf. left. rewrite Hdk', Hdk. split; [congruence|done].
  - pose proof (handle_key_good (data ev) ev s z Hrd H10) as Hg.
    destruct (handle_key junk mem open_ok wr_ok (data ev) ev s) as [[[ev' s1]|s1]|]; [| |done]; simpl in Hg |- *.
    + subst s1. by exists ev', s, z.
    + destruct Hg as (z1 & Ho & Hc1 & Hk & Ht).
      assert (0 <= e_vy s1 /\ 1 <= t_rows s1 - e_hbar s1) as [Hv Hs].
      { rewrite (k_vy _ _ Hk), (k_trows _ _ Hk), (k_hbar _ _ Hk). lia. }
      destruct (draw_ready false s1 z1 Ho Hc1 Hv Hs) as (s' & z' & -> & Hr' & _ & Hl & Hd' & Hdk' & _).
      cbn [mbind option_bind]. eexists _, s', z'. split; [reflexivity|]. split; [done|].
      intros Hw Hf. rewrite Hd' in Hf. unfold truthful in Ht. rewrite Hdk', Hl.
      destruct (Ht Hw Hf) as [(H1 & H2 & H3)|[H1 H2]].
      * left. split; [done|]. split; congruence.
      * right. split; congruence.
Qed.

(** Keys that edit or move by one character. *)
Definition text_key (key : Z) : bool :=
  in_chars key [keyEnter; keyDel; keyBksp; keyLeft; keyRight; keyTab] ||
  ((32 <=? key) && (key <? 256)).

Lemma handle_key_text key ev s z :
  on s z -> clean_lines (z_lines z) -> text_key key = true ->
  exists s' z', handle_key junk mem open_ok wr_ok key ev s = Some (inr s') /\ on s' z' /\ clean_lines (z_lines z') /\
    edits s s' /\ z_text z' = t_key (e_replace s) key (z_text z).
Proof.
  intros Hon Hc Hk. unfold text_key in Hk. apply orb_true_iff in Hk as [Hk|Hk].
  - unfold in_chars in Hk. simpl in Hk.
    destruct (Z.eqb_spec key keyEnter) as [->|_].
    { destruct (insertNewLine_on junk mem Hmem s z Hon) as (s' & E & Ho & He & Hd).
      exists s', (z_enter z). unfold handle_key. simpl. rewrite E. split; [done|]. split; [done|].
      split; [by apply clean_enter|]. split; [done|]. apply z_enter_text. }
    destruct (Z.eqb_spec key keyDel) as [->|_].
    { destruct (cursorMove_on keyRight 1 s z Hon) as (s1 & E1 & H1 & He1 & Hd1). change (Z.to_nat 1) with 1%nat in H1. simpl in H1.
      destruct (deleteChar_on junk mem Hmem s1 _ H1) as (s' & E & Ho & He & Hd).
      exists s', (z_back (z_move keyRight z)). unfold handle_key. simpl. rewrite E1. simpl. rewrite E.
      split; [done|]. split; [done|]. split; [apply clean_back; by rewrite z_move_lines|].
      split; [by eapply edits_trans|]. unfold t_key. simpl. by rewrite z_back_text, z_right_text. }
    destruct (Z.eqb_spec key keyBksp) as [->|_].
    { destruct (deleteChar_on junk mem Hmem s z Hon) as (s' & E & Ho & He & Hd).
      exists s', (z_back z). unfold handle_key. simpl. rewrite E. split; [done|]. split; [done|].
      split; [by apply clean_back|]. split; [done|]. apply z_back_text. }
    destruct (Z.eqb_spec key keyLeft) as [->|_].
    { destruct (cursorMove_on keyLeft 1 s z Hon) as (s1 & E1 & H1 & He1 & Hd1).
      exists s1, (z_move keyLeft z). unfold handle_key. simpl. rewrite E1. split; [done|]. split; [done|].
      split; [by rewrite z_move_lines|]. split; [done|]. apply z_left_text. }
    destruct (Z.eqb_spec key keyRight) as [->|_].
    { destruct (cursorMove_on keyRight 1 s z Hon) as (s1 & E1 & H1 & He1 & Hd1).
      exists s1, (z_move keyRight z). unfold handle_key. simpl. rewrite E1. split; [done|]. split; [done|].
      split; [by rewrite z_move_lines|]. split; [done|]. apply z_right_text. }
    destruct (Z.eqb_spec key keyTab) as [->|_]; [|done].
    destruct (insertChar_on junk mem Hmem s z 9 Hon) as (s' & E & Ho & He & Hd).
    exists s', (z_insert (e_replace s) 9 z). unfold handle_key. simpl. rewrite E. split; [done|]. split; [done|].
    split; [by apply clean_insert|]. split; [done|]. by apply z_insert_text.
  - bprop. destruct (insertChar_on junk mem Hmem s z key Hon) as (s' & E & Ho & He & Hd).
    exists s', (z_insert (e_replace s) key z).
    assert (forall k, 256 <= k -> (key =? k) = false) as Hne by (intros; apply Z.eqb_neq; lia).
    unfold handle_key, t_key, in_chars. cbn [existsb].
    rewrite !(Hne keyCtrlL), !(Hne keyCtrlX), !(Hne keyCtrlC), !(Hne keyCtrlQ), !(Hne keyCtrlS), !(Hne keyCtrlD),
      !(Hne keyDel), !(Hne keyBksp), !(Hne keyIns), !(Hne keyHome), !(Hne keyEnd), !(Hne keyPgup), !(Hne keyPgdn),
      !(Hne keyUp), !(Hne keyDown), !(Hne keyLeft), !(Hne keyRight), !(Hne keyTab) by done.
    destruct (Z.eqb_spec key keyEnter); [unfold keyEnter in *; lia|]. cbn [orb].
    rewrite u8_small by lia. rewrite E. split; [done|]. split; [done|].
    split; [apply clean_insert; [lia|done]|]. split; [done|]. by apply z_insert_text.
Qed.

Lemma key_text key s z d :
  ready s z -> text_key key = true -> data d = key -> what d = evKey ->
  exists s' z', edit_handleEvent junk mem getSize open_ok wr_ok d s = Some (Event evNone key, s') /\
    ready s' z' /\ z_text z' = t_key (e_replace s) key (z_text z) /\ e_replace s' = e_replace s /\
    t_ev s' = t_ev s /\ e_filename s' = e_filename s.
Proof.
  intros [Hon Hc Hvy Hrows Hsize] Hk Hd Hw. unfold edit_handleEvent. rewrite Hw, Hd.
  destruct (handle_key_text key d s z Hon Hc Hk) as (s1 & z1 & -> & Ho & Hc1 & He & Ht). simpl.
  destruct (keeps_edits _ _ He) as [[K1 K2 K3 K4 K5 K6] _].
  assert (e_replace s1 = e_replace s) as Hrep by (destruct He as (? & ? & ? & ? & ? & ->); by destruct s).
  destruct (draw_ready false s1 z1 Ho Hc1) as (s' & z' & -> & Hr' & Ht' & Hl & Hd' & Hdk' & Hrep' & [Q1 Q2 Q3 Q4 Q5 Q6]); [lia..|].
  cbn [mbind option_bind]. exists s', z'. unfold term_clearEvent. rewrite Hd. split; [done|]. split; [done|].
  split; [congruence|]. split; [congruence|]. simpl in Q5, Q6. split; congruence.
Qed.
End keys.
