(* ===== verification/EditClaims.v ===== *)
(** * Theorems about the editor

    Decoding of the terminal's bytes, whole sessions, and the editor's defects. *)

From S2P Require Import Prelude Parse Edit EditSpec EditText EditScreen EditEvents.

(** ** Decoding *)

Lemma get_done_total rlen errno c pos buf ev : zlen buf = EVBUF -> is_Some (get_done rlen errno c pos buf ev).
Proof.
  intros Hb. unfold get_done. assert (is_Some (rd buf 0)) as [b ->] by (apply rd_is_Some; unfold EVBUF in *; lia).
  cbn [mbind option_bind]. destruct (_ && _); [destruct (term_handleCtrl c ev); eauto|].
  destruct (_ && _); eauto.
Qed.

Lemma handleEscape_total buf len ev :
  zlen buf = EVBUF -> 3 <= len <= EVBUF -> is_Some (term_handleEscape buf len ev).
Proof.
  intros Hb Hl. unfold term_handleEscape, EVBUF in *.
  assert (forall i, 0 <= i < 16 -> is_Some (rd buf i)) as Hrd by (intros; apply rd_is_Some; lia).
  destruct (Hrd 1) as [b1 ->]; [lia|]. destruct (Hrd (len - 1)) as [f ->]; [lia|].
  destruct (Hrd (len - 2)) as [g ->]; [lia|]. cbn [mbind option_bind].
  repeat (case_match; try by eauto).
Qed.

Lemma get_loop_total input c pos buf ev :
  zlen buf = EVBUF -> 0 <= pos <= EVBUF -> is_Some (get_loop input c pos buf ev).
Proof.
  revert c pos buf ev. induction input as [|r input IH]; intros c pos buf ev Hb Hp; cbn [get_loop].
  { destruct (EVBUF <=? pos).
    - destruct (get_done_total 1 0 c pos buf ev Hb) as [[r e] ->]. simpl. eauto.
    - destruct (get_done_total 0 0 0 pos buf ev Hb) as [[r e] ->]. simpl. eauto. }
  destruct (Z.leb_spec EVBUF pos) as [_|Hlt].
  { destruct (get_done_total 1 0 c pos buf ev Hb) as [[r' e] ->]. simpl. eauto. }
  destruct r as [ch| |errno].
  - destruct (iscntrl ch).
    + assert (is_Some (if 0 <? pos then p ← rd buf (pos - 1); Some (p =? 27) else Some false)) as [again ->].
      { destruct (Z.ltb_spec 0 pos); [|eauto].
        assert (is_Some (rd buf (pos - 1))) as [p ->] by (apply rd_is_Some; lia). simpl. eauto. }
      cbn [mbind option_bind]. destruct (_ || _); [destruct (term_handleCtrl ch ev); eauto|].
      assert (is_Some (wr buf 0 27)) as [b' Hw] by (apply wr_is_Some; unfold EVBUF in *; lia).
      rewrite Hw. cbn [mbind option_bind]. apply wr_zlen in Hw. apply IH; unfold EVBUF in *; lia.
    + destruct (pos =? 0); [eauto|].
      assert (is_Some (wr buf pos ch)) as [b' Hw] by (apply wr_is_Some; lia).
      rewrite Hw. cbn [mbind option_bind]. apply wr_zlen in Hw.
      assert (is_Some (rd b' 1)) as [b1 ->] by (apply rd_is_Some; unfold EVBUF in *; lia).
      cbn [mbind option_bind]. destruct (Z.ltb_spec 2 (pos + 1)) as [H2|H2]; simpl; [|apply IH; lia].
      destruct ((b1 =? 91) || (b1 =? 79)); [|apply IH; lia].
      destruct (handleEscape_total b' (pos + 1) ev) as [[r e] ->]; [lia..|]. cbn [mbind option_bind].
      destruct (r =? 0); [eauto|].
      assert (is_Some (rd b' (pos + 1 - 1))) as [f ->] by (apply rd_is_Some; lia). cbn [mbind option_bind].
      destruct (f =? 126); [eauto|]. apply IH; lia.
  - destruct (get_done_total 0 0 0 pos buf ev Hb) as [[r' e] ->]. simpl. eauto.
  - destruct (get_done_total (-1) errno 0 pos buf ev Hb) as [[r' e] ->]. simpl. eauto.
Qed.

(** Decoding is safe.  Whatever bytes the terminal delivers and whatever event is
    pending, [term_getEvent] returns: it never leaves its 16-byte buffer. *)
Theorem getEvent_safe ev input s : is_Some (term_getEvent ev input s).
Proof.
  unfold term_getEvent.
  assert (forall ev0 s0, is_Some ('(r, ev1, input0) ← get_loop input 0 0 (replicate (Z.to_nat EVBUF) 0) ev0;
    Some (r, ev1, input0, set_t_evCnt 0 s0))) as Hread.
  { intros ev0 s0. destruct (get_loop_total input 0 0 (replicate (Z.to_nat EVBUF) 0) ev0) as [[[r e] i] ->];
      [done|unfold EVBUF; lia|]. simpl. eauto. }
  destruct (match what (t_ev s) with evNone => false | _ => true end);
    cbv zeta; (case_match; [apply Hread| | | | |]); eauto; (case_match; [eauto|apply Hread]).
Qed.

(** The sequences of a terminal and the keys they stand for. *)
Definition sequences : list (bytes * Z) :=
  (fun p : string * Z => (27 :: bstr p.1, p.2)) <$>
  [("[A", keyUp); ("[B", keyDown); ("[C", keyRight); ("[D", keyLeft); ("[H", keyHome); ("[F", keyEnd);
   ("OA", keyUp); ("OB", keyDown); ("OC", keyRight); ("OD", keyLeft); ("OH", keyHome); ("OF", keyEnd);
   ("[1~", keyHome); ("[2~", keyIns); ("[3~", keyDel); ("[4~", keyEnd); ("[5~", keyPgup); ("[6~", keyPgdn);
   ("[7~", keyHome); ("[8~", keyEnd); ("[Z", keyShiftTab)]%string.

Definition idle (s : ed) (ev : event_t) : Prop := what (t_ev s) = evNone /\ what ev = evNone.

(** An escape sequence of the terminal is exactly one key, and the input after it
    is left for the next events. *)
Theorem sequence_decodes seq key rest s ev :
  List.In (seq, key) sequences -> idle s ev ->
  term_getEvent ev ((RByte <$> seq) ++ rest) s = Some (1, Event evKey key, rest, set_t_evCnt 0 s).
Proof.
  intros Hin [H1 H2]. unfold term_getEvent. rewrite H1, H2. unfold sequences in Hin. simpl in Hin.
  repeat (destruct Hin as [Hin|Hin]; [injection Hin as <- <-; reflexivity|]). destruct Hin.
Qed.

(** Bytes that edit. *)
Definition text_byte (c : Z) : bool :=
  in_chars c [8; 9; 10; 13; 127] || ((32 <=? c) && (c <? 127)) || ((128 <=? c) && (c <? 256)).

Definition byte_key (c : Z) : Z :=
  if (c =? 8) || (c =? 127) then keyBksp
  else if c =? 9 then keyTab
  else if (c =? 10) || (c =? 13) then keyEnter
  else c.

Lemma byte_decodes c rest s ev :
  text_byte c = true -> idle s ev ->
  term_getEvent ev (RByte c :: rest) s = Some (1, Event evKey (byte_key c), rest, set_t_evCnt 0 s).
Proof.
  intros Hc [H1 H2]. unfold term_getEvent. rewrite H1, H2. cbn [get_loop].
  change (EVBUF <=? 0) with false. cbn iota. unfold text_byte, in_chars in Hc. simpl in Hc.
  destruct (Z.eqb_spec c 8) as [->|N1]; [reflexivity|]. destruct (Z.eqb_spec c 9) as [->|N2]; [reflexivity|].
  destruct (Z.eqb_spec c 10) as [->|N3]; [reflexivity|]. destruct (Z.eqb_spec c 13) as [->|N4]; [reflexivity|].
  destruct (Z.eqb_spec c 127) as [->|N5]; [reflexivity|]. simpl in Hc.
  assert (iscntrl c = false) as ->.
  { unfold iscntrl. apply orb_false_iff. split; [|by apply Z.eqb_neq]. apply Z.ltb_ge.
    apply orb_true_iff in Hc as [Hc|Hc]; bprop; lia. }
  unfold byte_key.
  rewrite (proj2 (Z.eqb_neq c 8)), (proj2 (Z.eqb_neq c 9)), (proj2 (Z.eqb_neq c 10)),
    (proj2 (Z.eqb_neq c 13)), (proj2 (Z.eqb_neq c 127)) by done. reflexivity.
Qed.

Lemma byte_key_text c : text_byte c = true -> text_key (byte_key c) = true.
Proof.
  unfold text_byte, in_chars. intros Hc. simpl in Hc. unfold byte_key.
  destruct (Z.eqb_spec c 8) as [_|N1]; [reflexivity|]. destruct (Z.eqb_spec c 127) as [_|N5]; [reflexivity|].
  destruct (Z.eqb_spec c 9) as [_|N2]; [reflexivity|].
  destruct (Z.eqb_spec c 10) as [_|N3]; [reflexivity|]. destruct (Z.eqb_spec c 13) as [_|N4]; [reflexivity|].
  simpl in *. unfold text_key. apply orb_true_iff. right.
  apply orb_true_iff in Hc as [Hc|Hc]; bprop; apply andb_true_iff; split; lia.
Qed.

(** ** Sessions *)

(** The text after some bytes typed in insert mode. *)
Definition type_bytes (t : textpos) (cs : bytes) : textpos :=
  foldl (fun t c => t_key false (byte_key c) t) t cs.

(** All the system calls of the session succeed, on a terminal of at least three lines. *)
Definition working (an : nat -> answers) : Prop :=
  forall k, (forall i, an_mem (an k) i = true) /\ (forall n, an_wr (an k) n = true) /\ an_open (an k) = true /\
    exists cols rows, an_size (an k) = Some (cols, rows) /\ 3 <= rows.

Lemma idle_evCnt n s ev : idle s ev -> idle (set_t_evCnt n s) ev.
Proof. done. Qed.

Lemma ready_evCnt n s z : ready s z -> ready (set_t_evCnt n s) z.
Proof. intros [[? ? ?] ? ? ? ?]. split; [by split|done..]. Qed.

Lemma loop_step n junk an ev input s ev1 input1 s1 ev2 s2 :
  term_getEvent ev input s = Some (1, ev1, input1, s1) ->
  edit_handleEvent junk (an_mem (an n)) (an_size (an n)) (an_open (an n)) (an_wr (an n)) ev1 s1 = Some (ev2, s2) ->
  edit_loop (Datatypes.S n) junk an ev input s = edit_loop n junk an ev2 input1 s2.
Proof. intros H1 H2. cbn [edit_loop]. rewrite H1. simpl. by rewrite H2. Qed.

Lemma loop_end n junk an ev input s ev1 input1 s1 :
  term_getEvent ev input s = Some (0, ev1, input1, s1) ->
  edit_loop (Datatypes.S n) junk an ev input s = Some (Some 0, s1).
Proof. intros H1. cbn [edit_loop]. by rewrite H1. Qed.

Lemma loop_types junk an cs n input ev s z :
  working an -> Forall (fun c => text_byte c = true) cs ->
  ready s z -> idle s ev -> e_replace s = false ->
  exists ev' s' z', edit_loop (length cs + n) junk an ev ((RByte <$> cs) ++ input) s = edit_loop n junk an ev' input s' /\
    ready s' z' /\ idle s' ev' /\ e_replace s' = false /\ e_filename s' = e_filename s /\
    z_text z' = type_bytes (z_text z) cs.
Proof.
  intros Hw Hcs. revert ev s z. induction Hcs as [|c cs Hc _ IH]; intros ev s z Hr Hi Hrep.
  - by exists ev, s, z.
  - cbn [length plus]. rewrite fmap_cons. cbn [app].
    destruct (Hw (length cs + n)%nat) as (Hmem & _ & _ & _).
    destruct (key_text junk _ Hmem (an_open (an (length cs + n)%nat))
      (an_wr (an (length cs + n)%nat)) (an_size (an (length cs + n)%nat)) (byte_key c) (set_t_evCnt 0 s) z
      (Event evKey (byte_key c)) (ready_evCnt _ _ _ Hr) (byte_key_text c Hc) eq_refl eq_refl)
      as (s1 & z1 & E1 & Hr1 & Ht1 & Hrep1 & Hev1 & Hf1).
    rewrite (loop_step _ _ _ _ _ _ _ _ _ _ _ (byte_decodes c _ s ev Hc Hi) E1).
    simpl in Hrep1, Hev1, Hf1.
    destruct (IH (Event evNone (byte_key c)) s1 z1 Hr1) as (ev' & s' & z' & E & Hr' & Hi' & Hrep' & Hf' & Ht').
    { split; [|done]. rewrite Hev1. apply Hi. }
    { congruence. }
    exists ev', s', z'. rewrite E. split; [done|]. split; [done|]. split; [done|]. split; [done|].
    split; [congruence|]. rewrite Ht', Ht1. simpl. by rewrite Hrep.
Qed.

Definition t_nonul (t : textpos) : Prop := nonul t.1 /\ nonul t.2.

Lemma unsnoc_forall {A} (P : A -> Prop) l l' x : unsnoc l = Some (l', x) -> Forall P l -> Forall P l' /\ P x.
Proof.
  destruct (unsnoc_case l) as [->|(k & y & ->)]; [done|]. rewrite unsnoc_snoc. intros [= -> ->].
  rewrite Forall_app, Forall_singleton. done.
Qed.

Lemma t_type_nonul r ch t : ch <> 0 -> t_nonul t -> t_nonul (t_type r ch t).
Proof.
  intros Hch [Hb Ha]. destruct t as [b [|c a]]; simpl in *; (split; simpl; [by apply nonul_app; split; [|repeat constructor]|]).
  - repeat constructor. done.
  - destruct (r && _); [by inversion Ha|done].
Qed.

Lemma t_back_nonul t : t_nonul t -> t_nonul (t_back t).
Proof.
  intros [Hb Ha]. unfold t_back. case_decide; [by split; constructor|].
  destruct (unsnoc t.1) as [[b c]|] eqn:E; [|by split].
  destruct (unsnoc_forall _ _ _ _ E Hb) as [Hb' Hc]. split; [done|]. simpl. destruct t.2; [by repeat constructor|done].
Qed.

Lemma type_bytes_nonul cs t : Forall (fun c => text_byte c = true) cs -> t_nonul t -> t_nonul (type_bytes t cs).
Proof.
  intros Hcs. revert t. induction Hcs as [|c cs Hc _ IH]; intros t Ht; [done|]. simpl. apply IH. clear IH.
  unfold t_key, byte_key. unfold text_byte, in_chars in Hc. simpl in Hc.
  destruct (Z.eqb_spec c 8) as [E8|N8]; [by apply t_back_nonul|].
  destruct (Z.eqb_spec c 127) as [E127|N127]; [by apply t_back_nonul|].
  destruct (Z.eqb_spec c 9) as [E9|N9]; [by apply t_type_nonul|]. simpl.
  assert (t_nonul (t_enter t)) as He.
  { destruct Ht as [Hb Ha]. split; [|done]. apply nonul_app. split; [done|by repeat constructor]. }
  destruct ((c =? 10) || (c =? 13)) eqn:E10; [done|].
  assert (32 <= c < 256) as Hr.
  { apply orb_false_iff in E10 as [E10 E13]. simpl in Hc. rewrite E10, E13 in Hc. simpl in Hc.
    apply orb_true_iff in Hc as [Hc|Hc]; bprop; lia. }
  assert (forall k, 256 <= k -> (c =? k) = false) as Hne by (intros; apply Z.eqb_neq; lia).
  rewrite !(Hne keyDel), !(Hne keyBksp), !(Hne keyLeft), !(Hne keyRight), !(Hne keyTab) by done.
  destruct (c =? keyEnter); [done|]. apply t_type_nonul; [|done]. rewrite u8_small; lia.
Qed.

Lemma text_lines_nonul z : t_nonul (z_text z) -> Forall nonul (fst <$> z_lines z).
Proof.
  intros [Hb Ha]. pose proof (z_text_app z) as E.
  assert (nonul (flat (fst <$> z_lines z))) as Hf by (rewrite <-E; by apply nonul_app).
  revert Hf. clear. induction (z_lines z) as [|[l u] ls IH]; [constructor|]. rewrite fmap_cons, flat_cons.
  intros [Hl Hn]%nonul_app. inversion_clear Hn. constructor; [done|]. by apply IH.
Qed.

Lemma idle_reads c key s ev rest :
  idle s ev -> iscntrl c = true -> c <> 27 -> term_handleCtrl c (term_clearEvent ev) = (0, Event evKey key) ->
  term_getEvent ev (RByte c :: rest) s = Some (1, Event evKey key, rest, set_t_evCnt 0 s).
Proof.
  intros [H1 H2] Hc H27 Hk. unfold term_getEvent. rewrite H1, H2. cbn [get_loop].
  change (EVBUF <=? 0) with false. cbn iota. rewrite Hc. change (0 <? 0) with false. cbn iota.
  cbn [mbind option_bind]. rewrite (proj2 (Z.eqb_neq _ _) H27). cbn [negb orb]. rewrite Hk. reflexivity.
Qed.

(** Ctrl-S on an idle editor. *)
Lemma save_event junk an n ev rest s z f :
  working an -> ready s z -> idle s ev -> e_filename s = Some f -> Forall nonul (fst <$> z_lines z) ->
  exists ev' s' z', edit_loop (Datatypes.S n) junk an ev (RByte 19 :: rest) s = edit_loop n junk an ev' rest s' /\
    ready s' z' /\ idle s' ev' /\ e_dirty s' = false /\ e_disk s' = Some (flat (fst <$> z_lines z)).
Proof.
  intros Hw Hr Hi Hf Hnn. destruct (Hw n) as (Hmem & Hwr & Hopen & _).
  pose proof (ready_evCnt 0 _ _ Hr) as [Hon Hc [Hv _] _ Hsi].
  pose proof (save_succeeds _ _ _ _ Hon Hf Hwr Hnn) as Hs. set (s5 := edit_status _ _ _) in Hs.
  assert (on s5 z) as Hon5 by (destruct Hon; by split).
  destruct (draw_ready false s5 z Hon5 Hc Hv Hsi) as (s6 & z6 & E6 & Hr6 & _ & _ & Hd6 & Hdk6 & _ & [_ _ _ _ Hev6 _]).
  assert (edit_handleEvent junk (an_mem (an n)) (an_size (an n)) (an_open (an n)) (an_wr (an n))
    (Event evKey keyCtrlS) (set_t_evCnt 0 s) = Some (Event evNone keyCtrlS, s6)) as E.
  { unfold edit_handleEvent. cbn [what data]. rewrite Hopen.
    change (handle_key junk (an_mem (an n)) true (an_wr (an n)) keyCtrlS (Event evKey keyCtrlS) (set_t_evCnt 0 s))
      with (s ← edit_save true (an_wr (an n)) (set_t_evCnt 0 s); Some (inr s) : option (event_t * ed + ed)).
    rewrite Hs. cbn [mbind option_bind]. by rewrite E6. }
  exists (Event evNone keyCtrlS), s6, z6. split.
  { eapply loop_step; [by apply (idle_reads 19 keyCtrlS)|exact E]. }
  split; [done|]. split; [split; [|done]; rewrite Hev6; apply Hi|]. split; [by rewrite Hd6|by rewrite Hdk6].
Qed.

(** Ctrl-Q on an editor without unsaved changes. *)
Lemma quit_event junk an n ev rest s :
  idle s ev -> e_dirty s = false ->
  exists s', edit_loop (Datatypes.S (Datatypes.S n)) junk an ev (RByte 17 :: rest) s = Some (Some 0, s') /\
    e_disk s' = e_disk s /\ e_dirty s' = false.
Proof.
  intros Hi Hd. exists (set_t_evCnt 0 s). split; [|done].
  rewrite (loop_step _ junk an ev _ s (Event evKey keyCtrlQ) rest (set_t_evCnt 0 s) (Event evQuit keyCtrlQ) (set_t_evCnt 0 s)).
  - eapply loop_end. unfold term_getEvent. destruct Hi as [H1 _]. cbn [t_ev set_t_evCnt]. rewrite H1. reflexivity.
  - by apply (idle_reads 17 keyCtrlQ).
  - unfold edit_handleEvent, handle_key. cbn [what data].
    change (e_dirty (set_t_evCnt 0 s)) with (e_dirty s). rewrite Hd. reflexivity.
Qed.

(** The first event draws the window. *)
Lemma first_event junk an n input s z :
  working an -> on s z -> clean_lines (z_lines z) -> e_vy s = 0 -> e_hbar s = 2 ->
  what (t_ev s) = evNone -> t_evCnt s = 0 ->
  exists ev' s' z', edit_loop (Datatypes.S n) junk an (Event evRedraw 0) input s = edit_loop n junk an ev' input s' /\
    ready s' z' /\ idle s' ev' /\ z_text z' = z_text z /\ e_replace s' = e_replace s /\ e_filename s' = e_filename s.
Proof.
  intros Hw Hon Hc Hv Hh Hev Hcnt. destruct (Hw n) as (_ & _ & _ & cols & rows & Hsz & Hrows).
  set (s2 := set_t_cols cols (set_t_rows rows (set_t_evCnt 1 s))).
  assert (on s2 z) as Hon2 by (destruct Hon; by split).
  destruct (draw_ready true s2 z Hon2 Hc) as (s3 & z3 & E3 & Hr3 & Ht3 & _ & Hd3 & _ & Hrep3 & [_ _ _ _ Hev3 Hf3]);
    [simpl; lia|simpl; lia|].
  exists (Event evNone 0), s3, z3. split.
  { eapply (loop_step _ _ _ _ _ _ (Event evRedraw 0) input (set_t_evCnt 1 s)).
    - unfold term_getEvent. rewrite Hev. cbn [what]. rewrite Hcnt. reflexivity.
    - unfold edit_handleEvent. cbn [what]. rewrite Hsz. fold s2. rewrite E3. reflexivity. }
  split; [done|]. split; [split; [by rewrite Hev3|done]|]. done.
Qed.

(** Whatever the terminal answers at the start, only its size is set. *)
Lemma term_setup_sets size s : exists c r, term_setup size s = set_t_cols c (set_t_rows r s).
Proof.
  unfold term_setup. destruct (default _ size) as [cols rows].
  exists (if negb (rows =? 0) then rows else t_cols s), (if negb (cols =? 0) then cols else t_rows s).
  destruct s, (negb (cols =? 0)), (negb (rows =? 0)); reflexivity.
Qed.

(** C3: a whole session.  On a system whose memory, terminal and file calls
    succeed, with a terminal of at least three lines, and whatever the terminal
    answers when the editor asks its size at the start: starting the editor on
    a new file, typing any printable characters, tabs, newlines and backspaces,
    then Ctrl-S and Ctrl-Q, ends the editor with status 0 and leaves in the
    file exactly the text those keys compose. *)
Theorem edit_session junk an name filename size0 cs rest k s0 :
  working an -> t_ev s0 = Event evNone 0 -> t_evCnt s0 = 0 ->
  Forall (fun c => text_byte c = true) cs ->
  exists s', edit_main (length cs + 4 + k) junk (fun _ => true) an [name; filename] None true size0
      ((RByte <$> cs ++ [19; 17]) ++ rest) s0 = Some (Some 0, s') /\
    e_disk s' = Some ((type_bytes ([], []) cs).1 ++ (type_bytes ([], []) cs).2) /\ e_dirty s' = false.
Proof.
  intros Hw Hev Hcnt Hcs. unfold edit_main, edit_init, edit_open. simpl negb. cbn iota.
  cbn [mbind option_bind]. change (0 <? 0) with false. cbn iota.
  match goal with |- context [term_setup size0 ?x] => destruct (term_setup_sets size0 x) as (c0 & r0 & ->) end.
  set (s1 := set_t_cols c0 _).
  replace (length cs + 4 + k)%nat with (Datatypes.S (length cs + (3 + k)))%nat by lia.
  assert (on s1 ([], Past)) as Hon1 by (split; [by exists [], []|done|done]).
  destruct (first_event junk an (length cs + (3 + k)) ((RByte <$> cs ++ [19; 17]) ++ rest) s1 _ Hw Hon1)
    as (ev3 & s3 & z3 & -> & Hr3 & Hi3 & Ht3 & Hrep3 & Hf3); [constructor|done|done|by rewrite (Hev : t_ev s1 = _)|exact Hcnt|].
  rewrite fmap_app, <-(assoc_L (++)).
  destruct (loop_types junk an cs (3 + k) ((RByte <$> [19; 17]) ++ rest) ev3 s3 z3 Hw Hcs Hr3 Hi3 Hrep3)
    as (ev4 & s4 & z4 & -> & Hr4 & Hi4 & Hrep4 & Hf4 & Ht4).
  rewrite Ht3 in Ht4. change (z_text ([], Past)) with (([], []) : textpos) in Ht4.
  pose proof (type_bytes_nonul cs ([], []) Hcs ltac:(by split; constructor)) as Hnn. rewrite <-Ht4 in Hnn.
  apply text_lines_nonul in Hnn.
  destruct (save_event junk an (2 + k) ev4 (RByte 17 :: rest) s4 z4 filename Hw Hr4 Hi4) as
    (ev5 & s5 & z5 & E5 & Hr5 & Hi5 & Hd5 & Hdk5); [by rewrite Hf4, Hf3|done|].
  destruct (quit_event junk an k ev5 rest s5 Hi5 Hd5) as (s6 & E6 & Hdk6 & Hd6).
  change (3 + k)%nat with (Datatypes.S (2 + k)). change ((RByte <$> [19; 17]) ++ rest) with (RByte 19 :: RByte 17 :: rest).
  rewrite E5. change (2 + k)%nat with (Datatypes.S (Datatypes.S k)). rewrite E6. cbn [mbind option_bind].
  eexists. split; [reflexivity|]. split; [|exact Hd6].
  change (e_disk s6 = Some ((type_bytes ([], []) cs).1 ++ (type_bytes ([], []) cs).2)).
  by rewrite Hdk6, Hdk5, <-z_text_app, Ht4.
Qed.

(** ** Opening a file *)

Definition is_eol (c : Z) : bool := (c =? 10) || (c =? 13).
Fixpoint drop_while (p : Z -> bool) (l : bytes) : bytes :=
  match l with [] => [] | c :: l' => if p c then drop_while p l' else l end.
(** A line without the terminators at its end. *)
Definition strip (l : bytes) : bytes := reverse (drop_while is_eol (reverse l)).

Lemma strip_snoc l c : strip (l ++ [c]) = if is_eol c then strip l else l ++ [c].
Proof.
  unfold strip. rewrite reverse_snoc. simpl. destruct (is_eol c); [done|].
  by rewrite reverse_cons, reverse_involutive.
Qed.

Lemma strip_prefix l : exists tl, l = strip l ++ tl.
Proof.
  induction l as [|c l IH] using rev_ind; [by exists []|]. rewrite strip_snoc. destruct (is_eol c).
  - destruct IH as [tl Htl]. exists (tl ++ [c]). by rewrite (assoc_L (++)), <-Htl.
  - exists []. by rewrite app_nil_r.
Qed.

Lemma strip_eol_ok fuel l rest :
  (length l <= fuel)%nat -> strip_eol fuel (l ++ rest) (zlen l) = Some (zlen (strip l)).
Proof.
  revert fuel rest. induction l as [|c l IH] using rev_ind; intros fuel rest Hf; [by destruct fuel|].
  rewrite length_app in Hf. simpl in Hf. destruct fuel as [|fuel]; [lia|]. cbn [strip_eol].
  destruct (Z.ltb_spec 0 (zlen (l ++ [c]))); [|zlia].
  rewrite <-(assoc_L (++)). simpl. rewrite rd_app by zlia. cbn [mbind option_bind].
  rewrite strip_snoc. unfold is_eol. destruct (_ || _); [|done].
  replace (zlen (l ++ [c]) - 1) with (zlen l) by zlia. apply (IH fuel (c :: rest)). lia.
Qed.

Lemma open_loop_ok junk mem k lines s ls :
  (forall i, mem i = true) -> shows s ls ->
  exists s' ls', open_loop junk mem k lines s = Some s' /\ shows s' ls' /\
    fst <$> ls' = (fst <$> ls) ++ (strip <$> lines) /\ edits s s' /\ e_cx s' = e_cx s /\ e_cy s' = e_cy s.
Proof.
  intros Hm. revert k s ls. induction lines as [|l lines IH]; intros k s ls Hs; cbn [open_loop].
  - exists s, ls. split; [done|]. split; [done|]. split; [by rewrite app_nil_r|]. split; [apply edits_refl|done].
  - pose proof (strip_eol_ok (length l) l [] (le_n _)) as Hse. rewrite app_nil_r in Hse. rewrite Hse.
    cbn [mbind option_bind]. clear Hse.
    destruct (strip_prefix l) as [tl Htl].
    rewrite <-(app_nil_r ls) in Hs.
    destruct (rowInsert_ok junk mem k s ls [] (e_nrows s) l (strip l) tl Hs) as (rs & n & E & Hrs); [|done|].
    { rewrite (shows_len _ _ Hs). zlia. }
    rewrite E, !Hm. cbn [andb mbind option_bind]. change (1 <? 0) with false. cbn iota.
    destruct (IH (k + 2)%nat (with_rows rs n s) _ Hrs) as (s' & ls' & -> & Hs' & El & He & Hcx & Hcy).
    exists s', ls'. split; [done|]. split; [done|]. split.
    + rewrite El. rewrite fmap_app, <-(assoc_L (++)). done.
    + split; [eapply edits_trans; [apply edits_with_rows|exact He]|done].
Qed.

(** A file survives the editor.  Opening a file and saving it unchanged writes
    its lines, each ended by one newline instead of whatever carriage returns
    and newlines ended it; until then the editor has nothing to save. *)
Theorem open_save junk mem wr_ok filename lines s :
  (forall i, mem i = true) -> (forall i, wr_ok i = true) ->
  shows s [] -> e_cx s = 0 -> e_cy s = 0 -> Forall nonul (strip <$> lines) ->
  exists s1 s2, edit_open junk mem filename (Some lines) true s = Some (zlen lines, s1) /\ e_dirty s1 = false /\
    edit_save true wr_ok s1 = Some s2 /\ e_disk s2 = Some (flat (strip <$> lines)) /\ e_dirty s2 = false.
Proof.
  intros Hm Hw Hs Hx Hy Hn. unfold edit_open. rewrite Hm. cbn [negb].
  destruct (open_loop_ok junk mem 1 lines (set_filename (Some filename) s) [] Hm Hs)
    as (s' & ls & -> & Hs' & El & He & Hx' & Hy'). cbn [mbind option_bind].
  assert (zlen ls = zlen lines) as Hlen by (by rewrite <-(zlen_fmap fst ls), El; simpl; rewrite zlen_fmap).
  rewrite (shows_len _ _ Hs'), Hlen.
  assert (on (set_dirty false s') (z_goto 0 0 ls)) as Hon.
  { pose proof (on_at (set_dirty false s') ls Hs') as Ho. simpl in Ho. rewrite Hx', Hy' in Ho. simpl in Ho.
    rewrite Hx, Hy in Ho. apply Ho; [pose proof (zlen_nonneg ls); lia|done|].
    destruct (_ <? _); [apply line_len_nonneg|done]. }
  assert (e_filename (set_dirty false s') = Some filename) as Hf.
  { destruct (keeps_edits _ _ He) as [[_ _ _ _ _ Hf] _]. exact Hf. }
  assert (Forall nonul (fst <$> z_lines (z_goto 0 0 ls))) as Hn'.
  { rewrite z_goto_lines, El. exact Hn. }
  pose proof (save_succeeds wr_ok _ _ _ Hon Hf Hw Hn') as E.
  eexists _, _. split; [reflexivity|]. split; [done|]. split; [exact E|]. split; [|done].
  simpl. rewrite z_goto_lines, El. done.
Qed.

(** ** One event *)

(** C32: the editor stays well formed and truthful.  With memory available and a
    terminal that has room for the status bar and a line, any event, except a
    key whose low byte is a newline, takes a well-formed editor to a
    well-formed editor whose window does not start below its cursor.  If
    moreover the writes of a save succeed and the text has no NUL, and the
    status bar then shows no unsaved changes, either it showed none before and
    text and file are as they were, or the file was just written and holds
    the text. *)
Theorem edit_event_ok junk mem open_ok wr_ok getSize ev s z :
  (forall k, mem k = true) -> ready s z -> roomy getSize s -> u8 (data ev) <> 10 ->
  exists ev' s' z', edit_handleEvent junk mem getSize open_ok wr_ok ev s = Some (ev', s') /\ ready s' z' /\
    (writes_ok wr_ok z -> truthful s z s' z').
Proof. intros. by apply event_ok. Qed.

(** C4: editing is editing a text.  A key that types, deletes or moves by one
    character does to the text around the cursor what [t_key] says. *)
Theorem edit_key_text junk mem open_ok wr_ok getSize key s z :
  (forall k, mem k = true) -> ready s z -> text_key key = true ->
  exists s' z', edit_handleEvent junk mem getSize open_ok wr_ok (Event evKey key) s = Some (Event evNone key, s') /\
    ready s' z' /\ z_text z' = t_key (e_replace s) key (z_text z).
Proof.
  intros Hm Hr Hk.
  destruct (key_text junk mem Hm open_ok wr_ok getSize key s z (Event evKey key) Hr Hk eq_refl eq_refl)
    as (s' & z' & H1 & H2 & H3 & _). eauto.
Qed.

(** The window follows the cursor and shows the rows.  After [edit_updateScroll]
    the cursor's line and its displayed column are in the window, and
    [edit_rowRender] prints of a row exactly the window's columns, with every tab
    filled to the next multiple of four and other control characters replaced. *)
Theorem window_shows s z l cap :
  on s z -> 1 <= t_rows s - e_hbar s -> 1 <= t_cols s -> 0 <= e_vx s ->
  t_cols s + 4 * zlen l + Z.max (e_vx s) (shown_col z) + 1 < 2 ^ 32 ->
  exists changed s', edit_updateScroll s = Some (changed, s') /\
    e_vy s' <= e_cy s' < e_vy s' + e_rows s' /\ e_rx s' = shown_col z /\
    e_vx s' <= e_rx s' < e_vx s' + e_cols s' /\
    edit_rowRender (l ++ cap) (zlen l) (e_vx s') (e_cols s') =
      Some (window (e_vx s') (e_vx s' + e_cols s') (expand 0 l)).
Proof.
  intros Hon Hr Hc Hv Hb. change (2 ^ 32) with 4294967296 in Hb.
  destruct (updateScroll_on s z Hon) as (changed & E & _).
  exists changed, (scrolled z s). split; [exact E|].
  assert (0 <= shown_col z) as H0 by (unfold shown_col; destruct z.2; [done|apply zlen_nonneg]).
  pose proof (scroll_to_shows (e_cy s) (e_vy s) _ Hr). pose proof (scroll_to_shows (shown_col z) (e_vx s) _ Hc).
  pose proof (scroll_to_nonneg (shown_col z) (e_vx s) _ Hc H0 Hv). pose proof (zlen_nonneg l).
  split; [done|]. split; [done|]. split; [done|]. simpl. apply rowRender_ok; [done|lia|..];
    change (2 ^ 32) with 4294967296; lia.
Qed.

(** ** Defects *)

(** Shift-Tab types an equals sign.  The code of the key, cut to a [char], is
    that of [=]: the key has the effect of typing it. *)
Theorem shift_tab_types_equals junk mem open_ok wr_ok ev s :
  handle_key junk mem open_ok wr_ok keyShiftTab ev s = (s ← edit_insertChar junk mem 61 s; Some (inr s)).
Proof. reflexivity. Qed.

(** The end of the input is not the end of the editor.  When the terminal is
    closed, [read] returns 0 for ever and the event loop runs for ever. *)
Theorem edit_eof_spins fuel junk an ev s :
  idle s ev -> exists s', edit_loop fuel junk an ev [] s = Some (None, s').
Proof.
  revert ev s. induction fuel as [|fuel IH]; intros ev s Hi; [by exists s|]. cbn [edit_loop].
  assert (term_getEvent ev [] s = Some (1, Event evNone (data ev), [], set_t_evCnt 0 s)) as ->.
  { destruct Hi as [H1 H2]. unfold term_getEvent. rewrite H1, H2. reflexivity. }
  cbn [mbind option_bind]. simpl. apply IH. destruct Hi. done.
Qed.

(** A failed save is forgotten.  On an editor without unsaved changes, a save
    whose first write fails leaves the file empty, and still Ctrl-Q quits
    without a warning. *)
Theorem failed_save_loses_file junk mem getSize wr_ok s z f :
  ready s z -> e_dirty s = false -> e_filename s = Some f -> z_lines z <> [] -> wr_ok 0 = false ->
  exists s', edit_handleEvent junk mem getSize true wr_ok (Event evKey keyCtrlS) s = Some (Event evNone keyCtrlS, s') /\
    e_disk s' = Some [] /\
    edit_handleEvent junk mem getSize true wr_ok (Event evKey keyCtrlQ) s' = Some (Event evQuit keyCtrlQ, s').
Proof.
  intros [Hon Hc Hv Hro Hsi] Hd Hf Hl Hw.
  assert (edit_save true wr_ok s = Some (edit_status (bstr "Unable to write file to disk!") colorError (set_disk (Some []) s))) as E.
  { unfold edit_save. rewrite Hf. destruct Hon as [Hr _ _]. rewrite (shows_len _ _ Hr).
    destruct (z_lines z) as [|[l u] ls]; [done|].
    replace (Z.to_nat (zlen ((l, u) :: ls))) with (Datatypes.S (length ls)) by (unfold zlen; simpl; lia).
    cbn [save_loop]. destruct (get_row_ok s [] (l, u) ls 0 Hr eq_refl) as (r & c & -> & _ & Hlen & _).
    cbn [mbind option_bind fst]. simpl in Hlen. rewrite (rd_range_app [] l c) by (done || by rewrite Hlen).
    cbn [mbind option_bind]. rewrite Hw. done. }
  set (s5 := edit_status _ _ _) in E.
  assert (on s5 z) as Hon5 by (destruct Hon; by split).
  destruct (draw_ready false s5 z Hon5 Hc (proj1 Hv) Hsi) as (s6 & z6 & E6 & _ & _ & _ & Hd6 & Hdk6 & _).
  exists s6. split; [|split; [by rewrite Hdk6|]].
  - unfold edit_handleEvent. cbn [what data].
    change (handle_key junk mem true wr_ok keyCtrlS (Event evKey keyCtrlS) s)
      with (s ← edit_save true wr_ok s; Some (inr s) : option (event_t * ed + ed)).
    rewrite E. cbn [mbind option_bind]. by rewrite E6.
  - unfold edit_handleEvent, handle_key. cbn [what data].
    assert (e_dirty s6 = false) as -> by (by rewrite Hd6). reflexivity.
Qed.

(** ** Witnesses *)

(** Two lines, the cursor at the start of the second, in a window of three. *)
Definition ex_ed : ed :=
  Ed (Some (bstr "f")) [Row (Some (bstr "abc" ++ [0])) 3 false; Row (Some (bstr "d")) 1 false]
     3 20 2 0 1 0 0 0 2 None 0 false false (Event evNone 0) 0 20 5 [] (Some (bstr "abc" ++ 10 :: bstr "d" ++ [10])).
Definition ex_z : zipper := ([(bstr "abc", false)], In [] (bstr "d") false []).

Lemma ex_ready : ready ex_ed ex_z.
Proof.
  split; [|repeat constructor; discriminate|simpl; lia|simpl; lia|simpl; lia].
  split; [|reflexivity|reflexivity].
  exists (e_row ex_ed), []. split; [reflexivity|]. split; [|reflexivity].
  constructor; [by exists [0]|]. constructor; [by exists []|]. constructor.
Qed.

Lemma sequence_decodes_witness :
  term_getEvent (Event evNone 0) ((RByte <$> (27 :: bstr "[3~")) ++ [RByte 97]) ed0 =
    Some (1, Event evKey keyDel, [RByte 97], set_t_evCnt 0 ed0).
Proof. apply (sequence_decodes (27 :: bstr "[3~") keyDel); [vm_compute; tauto|done]. Defined.

Lemma an0_working : working an0.
Proof. intros k. do 3 (split; [done|]). by exists 20, 6. Qed.

Lemma edit_session_witness :
  exists s', edit_main (2 + 4 + 0) 7 (fun _ => true) an0 [bstr "edit"; bstr "f"] None true (Some (20, 6))
      ((RByte <$> bstr "hi" ++ [19; 17]) ++ []) ed0 = Some (Some 0, s') /\
    e_disk s' = Some (bstr "hi" ++ [10]) /\ e_dirty s' = false.
Proof.
  apply (edit_session 7 an0 (bstr "edit") (bstr "f") (Some (20, 6)) (bstr "hi") [] 0 ed0 an0_working eq_refl eq_refl).
  repeat constructor.
Defined.

Lemma open_save_witness :
  exists s1 s2, edit_open 7 (fun _ => true) (bstr "f") (Some [bstr "ab" ++ [13; 10]; bstr "c"]) true ed0 =
      Some (2, s1) /\ e_dirty s1 = false /\
    edit_save true (fun _ => true) s1 = Some s2 /\ e_disk s2 = Some (bstr "ab" ++ 10 :: bstr "c" ++ [10]) /\
    e_dirty s2 = false.
Proof.
  apply (open_save 7 (fun _ => true) (fun _ => true) (bstr "f") [bstr "ab" ++ [13; 10]; bstr "c"] ed0);
    [done|done|by exists [], []|done|done|].
  repeat constructor; discriminate.
Defined.

Lemma edit_event_ok_witness :
  exists ev' s' z', edit_handleEvent 7 (fun _ => true) None true (fun _ => true) (Event evKey keyBksp) ex_ed = Some (ev', s') /\
    ready s' z' /\ (writes_ok (fun _ => true) ex_z -> truthful ex_ed ex_z s' z').
Proof.
  apply (edit_event_ok 7 (fun _ => true) true (fun _ => true) None (Event evKey keyBksp) ex_ed ex_z);
    [done|exact ex_ready|done|vm_compute; discriminate].
Defined.

Lemma edit_key_text_witness :
  exists s' z', edit_handleEvent 7 (fun _ => true) None true (fun _ => true) (Event evKey keyBksp) ex_ed
      = Some (Event evNone keyBksp, s') /\ ready s' z' /\ z_text z' = (bstr "abc", bstr "d" ++ [10]).
Proof.
  apply (edit_key_text 7 (fun _ => true) true (fun _ => true) None keyBksp ex_ed ex_z); [done|exact ex_ready|done].
Defined.

Lemma window_shows_witness :
  exists changed s', edit_updateScroll ex_ed = Some (changed, s') /\
    e_vy s' <= e_cy s' < e_vy s' + e_rows s' /\ e_rx s' = 0 /\ e_vx s' <= e_rx s' < e_vx s' + e_cols s' /\
    edit_rowRender ([97; 9; 1] ++ []) 3 (e_vx s') (e_cols s') =
      Some (window (e_vx s') (e_vx s' + e_cols s') (bstr "a   ?")).
Proof.
  apply (window_shows ex_ed ex_z [97; 9; 1] []); [exact (rd_on _ _ ex_ready)|simpl; lia|simpl; lia|simpl; lia|].
  vm_compute. reflexivity.
Defined.

Lemma edit_eof_spins_witness :
  exists s', edit_loop 9 7 an0 (Event evNone 0) [] ed0 = Some (None, s').
Proof. apply (edit_eof_spins 9 7 an0 (Event evNone 0) ed0). done. Defined.

Lemma failed_save_loses_file_witness :
  exists s', edit_handleEvent 7 (fun _ => true) None true (fun _ => false) (Event evKey keyCtrlS) ex_ed
      = Some (Event evNone keyCtrlS, s') /\ e_disk s' = Some [] /\
    edit_handleEvent 7 (fun _ => true) None true (fun _ => false) (Event evKey keyCtrlQ) s' = Some (Event evQuit keyCtrlQ, s').
Proof.
  apply (failed_save_loses_file 7 (fun _ => true) None (fun _ => false) ex_ed ex_z (bstr "f") ex_ready);
    [done|done|discriminate|done].
Defined.

(** Running out of memory while joining lines is not survived.  Backspace at the
    start of a line moves the cursor to the end of the line above before it
    allocates; when that fails, the drawing that follows reads the shorter
    line up to that column, outside its characters. *)
Theorem join_enomem_overreads :
  exists s z, ready s z /\ z_text z = (bstr "abc" ++ [10], bstr "d" ++ [10]) /\
    edit_handleEvent 7 (fun _ => false) None true (fun _ => true) (Event evKey keyBksp) s = None.
Proof. exists ex_ed, ex_z. split; [exact ex_ready|]. split; vm_compute; reflexivity. Qed.
