(* ===== verification/Nand.v ===== *)
(** * NAND devices ([nandpart/flashmng.c], [nandpart/nandpart.c])

    The requests [flashmng] sends to the flash server and the routines of
    [nandpart] that move the blocks of a partition on top of them.  The server and
    the block device file are the interface [Flash]. *)

From S2P Require Import Prelude.

(** ** The device *)

(** A request of [msgSend]: the device control and its addresses. *)
Inductive req :=
  | ReqIsBad (address : Z)
  | ReqErase (address size : Z)
  | ReqReadMeta (address size : Z)
  | ReqWriteMeta (address : Z) (data : bytes)
  | ReqReadPtable (size : Z)
  | ReqWritePtable (data : bytes)
  | ReqInfo.

(** What [msgSend] gives back: its result, [msg.o.err] and the output data. *)
Record reply := Reply { rp_ret : Z; rp_err : Z; rp_data : bytes }.

Class Flash (D : Type) := {
  msgSend : req -> D -> reply * D;
  (** [lseek] and [read]/[write] of the device file at an offset: a negative
      result is a failed [lseek], with [errno]. *)
  dev_read : Z -> Z -> D -> (Z * bytes) * D;
  dev_write : Z -> bytes -> D -> Z * D;
  dev_seek : Z -> D -> Z * D;
}.

(** A partition: its name up to the NUL, offset and size in bytes, and type. *)
Record ptable_part_t := Part { pt_name : bytes; pt_offset : Z; pt_size : Z; pt_type : Z }.

Record flash_info := Info { fi_size : Z; fi_writesz : Z; fi_erasesz : Z; fi_oobsz : Z }.

Definition EBADMSG : Z := 74.

Section flash.
Context {D : Type} `{Flash D}.
Context (info : flash_info).

(** ** [flashmng] *)

Definition flash_call (r : req) (d : D) : Z * bytes * D :=
  let '(rp, d) := msgSend r d in
  (if rp_ret rp <? 0 then rp_ret rp else rp_err rp, rp_data rp, d).

Definition flashmng_isBad (block : Z) (d : D) : Z * D :=
  let '(err, _, d) := flash_call (ReqIsBad (u32 (block * fi_erasesz info))) d in (err, d).

Definition flashmng_erase (start size : Z) (d : D) : Z * D :=
  let '(err, _, d) := flash_call (ReqErase (u32 (start * fi_erasesz info)) (u32 (size * fi_erasesz info))) d in (err, d).

Definition flashmng_readMeta (page : Z) (d : D) : Z * bytes * D :=
  flash_call (ReqReadMeta (u32 (page * fi_writesz info)) (fi_oobsz info)) d.

Definition flashmng_writeMeta (data : bytes) (page : Z) (d : D) : Z * D :=
  let '(err, _, d) := flash_call (ReqWriteMeta (u32 (page * fi_writesz info)) data) d in (err, d).

Definition flashmng_readPtable (d : D) : Z * bytes * D := flash_call (ReqReadPtable (fi_writesz info)) d.
Definition flashmng_writePtable (data : bytes) (d : D) : Z * D :=
  let '(err, _, d) := flash_call (ReqWritePtable data) d in (err, d).

(** The loop of [flashmng_markClean] over [k] blocks; [n] of them were marked. *)
Fixpoint markClean_loop (k : nat) (block n : Z) (buff : bytes) (d : D) : Z * D :=
  match k with
  | O => (n, d)
  | Datatypes.S k =>
      let '(err, d) := flashmng_isBad block d in
      if err <? 0 then (err, d)
      else if err =? 0 then
        let npages := fi_erasesz info / fi_writesz info in
        let '(err, d) := flashmng_writeMeta buff (u32 (block * npages)) d in
        if err <? 0 then (err, d) else markClean_loop k (block + 1) (n + 1) buff d
      else markClean_loop k (block + 1) n buff d
  end.

(** The JFFS2 clean marker, little endian. *)
Definition jffs2_cleanmarker : bytes := [133; 25; 3; 32; 8; 0; 0; 0].

Definition flashmng_markClean (mem : bool) (start size : Z) (d : D) : Z * D :=
  if negb mem then (- ENOMEM, d)
  else markClean_loop (Z.to_nat size) start 0
         (jffs2_cleanmarker ++ replicate (Z.to_nat (fi_oobsz info) - length jffs2_cleanmarker) 255) d.

(** ** Blocks *)

Definition all_ff (b : bytes) : bool := forallb (fun c => c =? 255) b.

Definition npages : Z := fi_erasesz info / fi_writesz info.

(** One page of [nandpart_copyBlock]; [errno] is that of a failed [lseek]. *)
Definition copyPage (srcBlock dstBlock page : Z) (d : D) : Z * D :=
  let sp := u32 (srcBlock * npages + page) in
  let dp := u32 (dstBlock * npages + page) in
  let '(err, meta, d) := flashmng_readMeta sp d in
  if err <? 0 then (err, d)
  else
    let '(err, d) := if all_ff meta then (0, d) else flashmng_writeMeta meta dp d in
    if err <? 0 then (err, d)
    else
      let '(pos, d) := dev_seek (sp * fi_writesz info) d in
      if pos <? 0 then (pos, d)
      else
        let '(n, data, d) := dev_read (sp * fi_writesz info) (fi_writesz info) d in
        if negb (n =? fi_writesz info) then (- EIO, d)
        else if all_ff data then (0, d)
        else
          let '(pos, d) := dev_seek (dp * fi_writesz info) d in
          if pos <? 0 then (pos, d)
          else
            let '(n, d) := dev_write (dp * fi_writesz info) data d in
            if negb (n =? fi_writesz info) then (- EIO, d) else (0, d).

Fixpoint copyPages (k : nat) (srcBlock dstBlock page : Z) (d : D) : Z * D :=
  match k with
  | O => (0, d)
  | Datatypes.S k =>
      let '(err, d) := copyPage srcBlock dstBlock page d in
      if err <? 0 then (err, d) else copyPages k srcBlock dstBlock (page + 1) d
  end.

Definition nandpart_copyBlock (srcBlock dstBlock : Z) (d : D) : Z * D :=
  copyPages (Z.to_nat npages) srcBlock dstBlock 0 d.

(** [nandpart_prevBlock] over the [k] blocks before [block]; the new end. *)
Fixpoint prev_loop (k : nat) (block last : Z) (d : D) : Z * Z * D :=
  match k with
  | O => (1, last, d)
  | Datatypes.S k =>
      let '(err, d) := flashmng_isBad (block - 1) d in
      if err <=? 0 then (err, if err =? 0 then block else last, d)
      else prev_loop k (block - 1) last d
  end.
Definition nandpart_prevBlock (start last : Z) (d : D) : Z * Z * D :=
  prev_loop (Z.to_nat (last - start)) last last d.

Fixpoint next_loop (k : nat) (block start : Z) (d : D) : Z * Z * D :=
  match k with
  | O => (1, start, d)
  | Datatypes.S k =>
      let '(err, d) := flashmng_isBad block d in
      if err <=? 0 then (err, if err =? 0 then block else start, d)
      else next_loop k (block + 1) start d
  end.
Definition nandpart_nextBlock (start last : Z) (d : D) : Z * Z * D :=
  next_loop (Z.to_nat (last - start)) start start d.

(** The search for a destination block: [Found] with the block, [Here] is the
    early return when it is the source block, [Fail] a result. *)
Inductive target := Found (last : Z) | Here | Fail (err last : Z).

Fixpoint back_target (fuel : nat) (failBad : bool) (srcEnd dstStart dstEnd : Z) (d : D) : option (target * D) :=
  match fuel with
  | O => None
  | Datatypes.S fuel =>
      let '(err, dstEnd, d) := nandpart_prevBlock dstStart dstEnd d in
      if negb (err =? 0) then Some (Fail (if err =? 1 then - ENOSPC else err) dstEnd, d)
      else if dstEnd =? srcEnd then Some (Here, d)
      else
        let '(err, d) := flashmng_erase (dstEnd - 1) 1 d in
        if negb (err =? 0) then Some (if err =? 1 then Found dstEnd else Fail err dstEnd, d)
        else if failBad then Some (Fail (- EBADMSG) dstEnd, d)
        else back_target fuel failBad srcEnd dstStart (dstEnd - 1) d
  end.

Fixpoint fwd_target (fuel : nat) (failBad : bool) (srcStart dstStart dstEnd : Z) (d : D) : option (target * D) :=
  match fuel with
  | O => None
  | Datatypes.S fuel =>
      let '(err, dstStart, d) := nandpart_nextBlock dstStart dstEnd d in
      if negb (err =? 0) then Some (Fail (if err =? 1 then - ENOSPC else err) dstStart, d)
      else if dstStart =? srcStart then Some (Here, d)
      else
        let '(err, d) := flashmng_erase dstStart 1 d in
        if negb (err =? 0) then Some (if err =? 1 then Found dstStart else Fail err dstStart, d)
        else if failBad then Some (Fail (- EBADMSG) dstStart, d)
        else fwd_target fuel failBad srcStart (dstStart + 1) dstEnd d
  end.

(** The result of a copy: the error, [*src] and [*dst] ([None] where they were
    never stored) and the device. *)
Record copied := Copied { cp_err : Z; cp_src : option Z; cp_dst : option Z; cp_dev : D }.

Fixpoint back_loop (fuel : nat) (failBad : bool) (srcStart srcEnd dstStart dstEnd : Z)
    (src dst : option Z) (d : D) : option copied :=
  match fuel with
  | O => None
  | Datatypes.S fuel =>
      let '(err, srcEnd, d) := nandpart_prevBlock srcStart srcEnd d in
      if negb (err =? 0) then Some (Copied err src dst d)
      else
        '(t, d) ← back_target (Datatypes.S (Z.to_nat (dstEnd - dstStart))) failBad srcEnd dstStart dstEnd d;
        match t with
        | Here => Some (Copied 0 src dst d)
        | Fail err _ => Some (Copied err src dst d)
        | Found dstEnd =>
            let '(err, d) := nandpart_copyBlock (srcEnd - 1) (dstEnd - 1) d in
            if err <? 0 then Some (Copied err src dst d)
            else back_loop fuel failBad srcStart (srcEnd - 1) dstStart (dstEnd - 1)
                   (Some (srcEnd - 1)) (Some (dstEnd - 1)) d
        end
  end.

Definition nandpart_copyBackward (failBad : bool) (srcStart srcEnd dstStart dstEnd : Z)
    (src dst : option Z) (d : D) : option copied :=
  back_loop (Datatypes.S (Z.to_nat (srcEnd - srcStart))) failBad srcStart srcEnd dstStart dstEnd src dst d.

Fixpoint fwd_loop (fuel : nat) (failBad : bool) (srcStart srcEnd dstStart dstEnd : Z)
    (src dst : option Z) (d : D) : option copied :=
  match fuel with
  | O => None
  | Datatypes.S fuel =>
      let '(err, srcStart, d) := nandpart_nextBlock srcStart srcEnd d in
      if negb (err =? 0) then Some (Copied err src dst d)
      else
        '(t, d) ← fwd_target (Datatypes.S (Z.to_nat (dstEnd - dstStart))) failBad srcStart dstStart dstEnd d;
        match t with
        | Here => Some (Copied 0 src dst d)
        | Fail err _ => Some (Copied err src dst d)
        | Found dstStart =>
            let '(err, d) := nandpart_copyBlock srcStart dstStart d in
            if err <? 0 then Some (Copied err src dst d)
            else fwd_loop fuel failBad (srcStart + 1) srcEnd (dstStart + 1) dstEnd
                   (Some srcStart) (Some dstStart) d
        end
  end.

Definition nandpart_copyForward (failBad : bool) (srcStart srcEnd dstStart dstEnd : Z)
    (src dst : option Z) (d : D) : option copied :=
  fwd_loop (Datatypes.S (Z.to_nat (srcEnd - srcStart))) failBad srcStart srcEnd dstStart dstEnd src dst d.

(** The [do] loop of [nandpart_shiftRightSafe]: the result, the last source and
    destination blocks, [dstEnd] and the [srcEnd] of the last round. *)
Fixpoint shift_loop (fuel : nat) (srcStart dstEnd maxEnd : Z) (src dst : Z) (d : D)
    : option (Z * Z * Z * Z * Z * D) :=
  match fuel with
  | O => None
  | Datatypes.S fuel =>
      let srcEnd := dstEnd in
      let '(err, dstEnd, d) := nandpart_nextBlock dstEnd maxEnd d in
      if err =? 1 then Some (- ENOSPC, src, dst, dstEnd, srcEnd, d)
      else
        (* other failures of nextBlock are overwritten by the copy *)
        let dstEnd := dstEnd + 1 in
        c ← nandpart_copyBackward true srcStart srcEnd (srcStart + 1) dstEnd (Some src) (Some dst) d;
        s ← cp_src c;
        t ← cp_dst c;
        if cp_err c =? - EBADMSG then shift_loop fuel srcStart dstEnd maxEnd s t (cp_dev c)
        else Some (cp_err c, s, t, dstEnd, srcEnd, cp_dev c)
  end.

(** Result, [*start] and [*end]. *)
Definition nandpart_shiftRightSafe (start last maxEnd : Z) (d : D) : option (Z * Z * Z * D) :=
  '(err, src, dst, dstEnd, srcEnd, d) ←
    shift_loop (Datatypes.S (Z.to_nat (maxEnd - last))) start last maxEnd last last d;
  if err <? 0 then
    c ← nandpart_copyForward true dst dstEnd src srcEnd None None d;
    Some (err, start, last, cp_dev c)
  else Some (err, dst, dstEnd, d).

Definition nandpart_eraseBlocks (mem : bool) (start size : Z) (markClean : bool) (d : D) : Z * D :=
  let '(err, d) := flashmng_erase start size d in
  if (err <=? 0) || negb markClean then (err, d)
  else
    let '(err, d) := flashmng_markClean mem start size d in
    if err <? 0 then (err, d) else (0, d).

(** The [for] of [nandpart_copyBackwardSafe]: the result, [src], [dst] and
    [odstEnd]. *)
Fixpoint backSafe_loop (fuel : nat) (srcStart srcEnd dstStart dstEnd odstEnd maxEnd src dst : Z) (d : D)
    : option (Z * Z * Z * Z * D) :=
  match fuel with
  | O => None
  | Datatypes.S fuel =>
      c ← nandpart_copyBackward true srcStart srcEnd dstStart dstEnd (Some src) (Some dst) d;
      src ← cp_src c;
      dst ← cp_dst c;
      if negb (cp_err c =? - EBADMSG) then Some (cp_err c, src, dst, odstEnd, cp_dev c)
      else
        '(err, dst, odstEnd, d) ← nandpart_shiftRightSafe dst odstEnd maxEnd (cp_dev c);
        if err <? 0 then Some (err, src, dst, odstEnd, d)
        else backSafe_loop fuel srcStart src dstStart dst odstEnd maxEnd src dst d
  end.

Definition nandpart_copyBackwardSafe (mem : bool) (srcStart srcEnd dstStart dstEnd maxEnd : Z) (markClean : bool)
    (d : D) : option (Z * D) :=
  '(err, src, dst, odstEnd, d) ←
    backSafe_loop (Datatypes.S (Z.to_nat (maxEnd - dstStart))) srcStart srcEnd dstStart dstEnd dstEnd maxEnd srcEnd dstEnd d;
  if err <? 0 then
    c ← nandpart_copyForward true dst odstEnd src srcEnd None None d; Some (err, cp_dev c)
  else if odstEnd <? maxEnd then Some (nandpart_eraseBlocks mem odstEnd (maxEnd - odstEnd) markClean d)
  else Some (err, d).

(** [src] and [dst] start uninitialised: using them before [nandpart_copyForward]
    stored them is undefined. *)
Definition nandpart_copyForwardSafe (mem : bool) (srcStart srcEnd dstStart dstEnd : Z) (markClean : bool)
    (d : D) : option (Z * D) :=
  c ← nandpart_copyForward false srcStart srcEnd dstStart dstEnd None None d;
  dst ← cp_dst c;
  if cp_err c <? 0 then
    src ← cp_src c;
    r ← nandpart_copyBackward true dstStart (dst + 1) srcStart (src + 1) None None (cp_dev c);
    Some (cp_err c, cp_dev r)
  else if dst + 1 <? dstEnd then
    Some (nandpart_eraseBlocks mem (dst + 1) (dstEnd - dst - 1) markClean (cp_dev c))
  else Some (cp_err c, cp_dev c).

Fixpoint count_loop (fuel : nat) (start last n : Z) (d : D) : option (Z * D) :=
  match fuel with
  | O => None
  | Datatypes.S fuel =>
      let '(err, start, d) := nandpart_nextBlock start last d in
      if err =? 0 then count_loop fuel (start + 1) last (n + 1) d
      else Some (if err <? 0 then err else n, d)
  end.
Definition nandpart_countBlocks (start last : Z) (d : D) : option (Z * D) :=
  count_loop (Datatypes.S (Z.to_nat (last - start))) start last 0 d.

(** The end of the destination area: after [n] good blocks. *)
Fixpoint find_end (n : nat) (e dstEnd : Z) (d : D) : (Z * Z) * D :=
  match n with
  | O => ((0, e), d)
  | Datatypes.S n =>
      let '(err, e, d) := nandpart_nextBlock e dstEnd d in
      if negb (err =? 0) then ((if err =? 1 then - ENOSPC else err, e), d)
      else find_end n (e + 1) dstEnd d
  end.

(** The blocks of a partition. *)
Definition part_start (p : ptable_part_t) : Z := pt_offset p / fi_erasesz info.
Definition part_end (p : ptable_part_t) : Z := u32 (pt_offset p + pt_size p) / fi_erasesz info.

(** [ptable_jffs2] is the code of the partition type; [mem] and [mem'] tell whether
    the allocations of the buffer and of the clean marker succeed. *)
Definition nandpart_movePart (ptable_jffs2 : Z) (mem mem' : bool) (part pmod : ptable_part_t) (d : D) : option (Z * D) :=
  if negb mem then Some (- ENOMEM, d)
  else
    let markClean := pt_type pmod =? ptable_jffs2 in
    let srcStart := part_start part in
    let srcEnd := part_end part in
    let dstStart := part_start pmod in
    let dstEnd := part_end pmod in
    if (srcStart <? dstStart) && (dstStart <? srcEnd) then
      '(n, d) ← nandpart_countBlocks srcStart srcEnd d;
      if n <=? 0 then Some (n, d)
      else
        let '((err, e), d) := find_end (Z.to_nat n) dstStart dstEnd d in
        if negb (err =? 0) then Some (err, d)
        else nandpart_copyBackwardSafe mem' srcStart srcEnd dstStart (e + 1) dstEnd markClean d
    else nandpart_copyForwardSafe mem' srcStart srcEnd dstStart dstEnd markClean d.
End flash.
