(* ===== verification/NandSpec.v ===== *)
(** * What the block moving routines of [nandpart] do to the device

    The device seen as good and bad blocks of pages, the documented behaviour of
    the flash server over that view, and the contract of the copying routines: the
    contents of the good blocks move in order, whatever blocks are or turn bad. *)

From S2P Require Import Prelude.
From S2P Require Import Nand.

(** ** The view of a device *)

Class NandView (D : Type) := {
  bad : D -> Z -> bool;
  (** Metadata and data of a page. *)
  page : D -> Z -> bytes * bytes;
}.

(** Devices that show the same blocks and pages. *)
#[export] Instance dev_equiv {D} `{NandView D} : Equiv D := fun d d' =>
  (forall b, bad d b = bad d' b) /\ (forall p, page d p = page d' p).

#[export] Instance dev_equivalence {D} `{NandView D} : Equivalence (≡@{D}).
Proof.
  split; [done | intros ?? [E F]; split; by intros |].
  intros ??? [E F] [E' F']. split; intros; [by rewrite E | by rewrite F].
Qed.

#[export] Instance bad_proper {D} `{NandView D} : Proper ((≡@{D}) ==> eq ==> eq) bad.
Proof. intros ?? [E _] ?? ->. apply E. Qed.
#[export] Instance page_proper {D} `{NandView D} : Proper ((≡@{D}) ==> eq ==> eq) page.
Proof. intros ?? [_ E] ?? ->. apply E. Qed.

Definition clean (info : flash_info) : bytes * bytes :=
  (replicate (Z.to_nat (fi_oobsz info)) 255, replicate (Z.to_nat (fi_writesz info)) 255).

(** [d'] is [d] but for page [p]. *)
Definition page_set {D} `{NandView D} (d : D) (p : Z) (x : bytes * bytes) (d' : D) : Prop :=
  (forall b, bad d' b = bad d b) /\ page d' p = x /\ forall q, q <> p -> page d' q = page d q.

(** The flash server on a device of [nblocks] blocks. *)
Class FlashLaws (D : Type) `{Flash D, NandView D} (info : flash_info) (nblocks : Z) : Prop := {
  law_writesz : 0 < fi_writesz info;
  law_oobsz : 0 <= fi_oobsz info;
  law_npages : 0 < npages info;
  law_erasesz : fi_erasesz info = npages info * fi_writesz info;
  law_size : nblocks * fi_erasesz info < 2 ^ 32;
  law_page : forall (d : D) p,
    zlen (page d p).1 = fi_oobsz info /\ zlen (page d p).2 = fi_writesz info;
  law_isBad : forall d b, 0 <= b < nblocks ->
    exists data d', msgSend (ReqIsBad (b * fi_erasesz info)) d = (Reply 0 (if bad d b then 1 else 0) data, d') /\ d ≡ d';
  (** An erase erases the block, or finds that it turned bad. *)
  law_erase : forall d b, 0 <= b < nblocks -> bad d b = false ->
    exists (ok : bool) data d',
      msgSend (ReqErase (b * fi_erasesz info) (fi_erasesz info)) d = (Reply 0 (if ok then 1 else 0) data, d') /\
      bad d' b = negb ok /\
      (ok = true -> forall j, 0 <= j < npages info -> page d' (b * npages info + j) = clean info) /\
      (forall b', b' <> b -> bad d' b' = bad d b') /\
      (forall q, ~ (b * npages info <= q < b * npages info + npages info) -> page d' q = page d q);
  law_eraseRange : forall d b n, 0 <= b -> 0 < n -> b + n <= nblocks ->
    exists k data d', msgSend (ReqErase (b * fi_erasesz info) (n * fi_erasesz info)) d = (Reply 0 k data, d') /\ 0 <= k /\
      (forall x, ~ (b <= x < b + n /\ bad d x = false) ->
        bad d' x = bad d x /\ forall j, 0 <= j < npages info -> page d' (x * npages info + j) = page d (x * npages info + j)) /\
      (forall x, b <= x < b + n -> bad d' x = false ->
        forall j, 0 <= j < npages info -> page d' (x * npages info + j) = clean info);
  law_readMeta : forall d p, 0 <= p < nblocks * npages info ->
    exists err d', msgSend (ReqReadMeta (p * fi_writesz info) (fi_oobsz info)) d = (Reply 0 err (page d p).1, d') /\
      0 <= err /\ d ≡ d';
  law_writeMeta : forall d p data, 0 <= p < nblocks * npages info -> zlen data = fi_oobsz info ->
    (page d p).1 = (clean info).1 ->
    exists err o d', msgSend (ReqWriteMeta (p * fi_writesz info) data) d = (Reply 0 err o, d') /\
      0 <= err /\ page_set d p (data, (page d p).2) d';
  law_seek : forall d off, 0 <= off -> exists d', dev_seek off d = (off, d') /\ d ≡ d';
  law_read : forall d p, 0 <= p < nblocks * npages info ->
    exists d', dev_read (p * fi_writesz info) (fi_writesz info) d = ((fi_writesz info, (page d p).2), d') /\ d ≡ d';
  law_write : forall d p data, 0 <= p < nblocks * npages info -> zlen data = fi_writesz info ->
    (page d p).2 = (clean info).2 ->
    exists d', dev_write (p * fi_writesz info) data d = (fi_writesz info, d') /\ page_set d p ((page d p).1, data) d';
}.

Section contract.
Context {D : Type} `{Flash D} `{NandView D} (info : flash_info) (nblocks : Z).
Context {Laws : FlashLaws D info nblocks}.
Abbreviation np := (npages info).
Abbreviation ws := (fi_writesz info).

Lemma page_addr p : 0 <= p < nblocks * np -> 0 <= p * ws /\ u32 (p * ws) = p * ws /\ u32 p = p.
Proof.
  intros. pose proof law_writesz. pose proof law_size as S. rewrite law_erasesz in S.
  assert (p * ws < 2 ^ 32) by nia. assert (p <= p * ws) by nia.
  split; [nia | split; apply wrapu_small; nia].
Qed.

Lemma block_addr b : 0 <= b < nblocks -> u32 (b * fi_erasesz info) = b * fi_erasesz info.
Proof.
  intros. pose proof law_size. pose proof law_writesz. pose proof law_npages.
  assert (0 < fi_erasesz info) by (rewrite law_erasesz; nia).
  apply wrapu_small. nia.
Qed.

Lemma block_page b j : 0 <= b < nblocks -> 0 <= j < np -> 0 <= b * np + j < nblocks * np.
Proof. nia. Qed.

(** ** Pages *)

Lemma all_ff_clean (l : bytes) n : all_ff l = true -> zlen l = n -> l = replicate (Z.to_nat n) 255.
Proof.
  intros A <-. unfold zlen. rewrite Nat2Z.id. unfold all_ff in A.
  induction l as [| c l IH]; simpl in *; [done |]. bprop. subst c. f_equal. by apply IH.
Qed.

Lemma page_set_same d p x d' : page_set d p x d' -> page d p = x -> d ≡ d'.
Proof.
  intros (B & P & Q) <-. split; [by intros; rewrite B | intros q].
  destruct (decide (q = p)) as [-> | N]; [done | by rewrite Q].
Qed.

Lemma copyPage_ok s t j d :
  0 <= s < nblocks -> 0 <= t < nblocks -> s <> t -> 0 <= j < np ->
  page d (t * np + j) = clean info ->
  exists d', copyPage info s t j d = (0, d') /\ page_set d (t * np + j) (page d (s * np + j)) d'.
Proof.
  intros Hs Ht N Hj C.
  pose proof (block_page s j Hs Hj) as Ps. pose proof (block_page t j Ht Hj) as Pt.
  destruct (page_addr _ Ps) as (As & Us & Vs), (page_addr _ Pt) as (At & Ut & Vt).
  assert (NE : s * np + j <> t * np + j) by nia.
  destruct (law_page d (s * np + j)) as [Lm Ld].
  unfold copyPage. fold np. rewrite Vs, Vt.
  unfold flashmng_readMeta, flashmng_writeMeta, flash_call. rewrite Us, Ut.
  destruct (law_readMeta d _ Ps) as (e & d1 & -> & He & E1). simpl.
  rewrite (proj2 (Z.ltb_ge _ _) He).
  set (m := (page d (s * np + j)).1) in *. set (x := (page d (s * np + j)).2) in *.
  assert (exists e2 d2, (if all_ff m then (0, d1) else
      let '(err, _, d) := let '(rp, d) := msgSend (ReqWriteMeta ((t * np + j) * ws) m) d1 in
        (if rp_ret rp <? 0 then rp_ret rp else rp_err rp, rp_data rp, d) in (err, d)) = (e2, d2) /\
      0 <= e2 /\ page_set d1 (t * np + j) (m, (page d1 (t * np + j)).2) d2) as (e2 & d2 & -> & He2 & S2).
  { destruct (all_ff m) eqn:F.
    - exists 0, d1. repeat split; [lia |]. rewrite <- E1, C. simpl.
      rewrite (all_ff_clean m _ F Lm). done.
    - destruct (law_writeMeta d1 _ m Pt Lm) as (e2 & o & d2 & -> & He2 & S2); [by rewrite <- E1, C |].
      simpl. eauto. }
  rewrite (proj2 (Z.ltb_ge _ _) He2). clear e He e2 He2.
  destruct S2 as (B2 & P2 & Q2). rewrite <- E1, C in P2. simpl in P2.
  destruct (law_seek d2 _ As) as (d3 & -> & E3). rewrite (proj2 (Z.ltb_ge _ _) As).
  destruct (law_read d3 _ Ps) as (d4 & -> & E4). rewrite Z.eqb_refl. simpl.
  assert (X : (page d3 (s * np + j)).2 = x) by (by rewrite <- E3, (Q2 _ NE), <- E1).
  rewrite X.
  destruct (all_ff x) eqn:F.
  - exists d4. split; [done |]. split; [intros b; by rewrite <- E4, <- E3, B2, <- E1 |].
    split; [| intros q Nq; by rewrite <- E4, <- E3, (Q2 _ Nq), <- E1].
    rewrite <- E4, <- E3, P2. rewrite <- (all_ff_clean x _ F Ld). by destruct (page d (s * np + j)).
  - destruct (law_seek d4 _ At) as (d5 & -> & E5). rewrite (proj2 (Z.ltb_ge _ _) At).
    destruct (law_write d5 _ x Pt Ld) as (d6 & -> & B6 & P6 & Q6).
    { by rewrite <- E5, <- E4, <- E3, P2. }
    rewrite Z.eqb_refl. simpl. exists d6. split; [done |].
    split; [intros b; by rewrite B6, <- E5, <- E4, <- E3, B2, <- E1 |].
    split; [| intros q Nq; by rewrite (Q6 _ Nq), <- E5, <- E4, <- E3, (Q2 _ Nq), <- E1].
    rewrite P6, <- E5, <- E4, <- E3, P2. simpl. by destruct (page d (s * np + j)).
Qed.

Lemma copyPages_ok s t k : 0 <= s < nblocks -> 0 <= t < nblocks -> s <> t -> forall i d,
  0 <= i -> i + Z.of_nat k = np ->
  (forall j, i <= j < np -> page d (t * np + j) = clean info) ->
  exists d', copyPages info k s t i d = (0, d') /\ (forall b, bad d' b = bad d b) /\
    (forall j, i <= j < np -> page d' (t * np + j) = page d (s * np + j)) /\
    (forall q, ~ (t * np + i <= q < t * np + np) -> page d' q = page d q).
Proof.
  intros Hs Ht N. induction k as [| k IH]; intros i d Hi K C.
  { exists d. repeat split; intros; lia || done. }
  destruct (copyPage_ok s t i d) as (d1 & E & B & P & Q); [done.. | lia | apply C; lia |].
  destruct (IH (i + 1) d1) as (d2 & E2 & B2 & P2 & Q2); [lia.. | |].
  { intros j Hj. rewrite Q by lia. apply C. lia. }
  exists d2. simpl. rewrite E. simpl. split; [done |]. split; [intros; by rewrite B2 |]. split.
  - intros j Hj. destruct (decide (j = i)) as [-> |].
    + rewrite Q2 by lia. done.
    + rewrite P2 by lia. apply Q. nia.
  - intros q Hq. rewrite Q2 by lia. apply Q. lia.
Qed.

(** ** Blocks *)

Definition blk (d : D) (b : Z) : list (bytes * bytes) := (fun j => page d (b * np + j)) <$> seqZ 0 np.

(** Devices that agree but for the good blocks in [X]. *)
Definition frame (X : Z -> Prop) (d d' : D) : Prop :=
  forall b, ~ (X b /\ bad d b = false) -> bad d' b = bad d b /\ blk d' b = blk d b.

#[export] Instance blk_proper : Proper ((≡) ==> eq ==> eq) blk.
Proof. intros d d' E b ? <-. unfold blk. apply list_fmap_ext. intros. by rewrite E. Qed.

Lemma equiv_frame X d d' : d ≡ d' -> frame X d d'.
Proof. intros E b _. by rewrite E. Qed.

Lemma frame_at X d d' b : frame X d d' -> ~ X b -> bad d' b = bad d b /\ blk d' b = blk d b.
Proof. intros F N. apply F. tauto. Qed.

Lemma frame_bad X d d' b : frame X d d' -> bad d b = true -> bad d' b = true /\ blk d' b = blk d b.
Proof. intros F B. rewrite <- B. apply F. intros [_ G]. congruence. Qed.

Lemma frame_trans X d1 d2 d3 : frame X d1 d2 -> frame X d2 d3 -> frame X d1 d3.
Proof.
  intros A B b Hb. destruct (A b Hb) as [E <-]. rewrite <- E. apply B. rewrite E. done.
Qed.

Lemma frame_weaken (X Y : Z -> Prop) d d' : (forall b, X b -> Y b) -> frame X d d' -> frame Y d d'.
Proof. intros S A b Hb. apply A. intros [Hx G]. apply Hb. auto. Qed.

Lemma blk_ext d d' b b' :
  (forall j, 0 <= j < np -> page d (b * np + j) = page d' (b' * np + j)) -> blk d b = blk d' b'.
Proof.
  intros E. unfold blk. apply list_fmap_ext. intros i j Hj. apply lookup_seqZ in Hj. apply E. lia.
Qed.

Lemma blk_pages d d' b :
  (forall q, b * np <= q < b * np + np -> page d' q = page d q) -> blk d' b = blk d b.
Proof. intros E. apply blk_ext. intros. apply E. lia. Qed.

Lemma copyBlock_ok s t d :
  0 <= s < nblocks -> 0 <= t < nblocks -> s <> t -> bad d t = false ->
  (forall j, 0 <= j < np -> page d (t * np + j) = clean info) ->
  exists d', nandpart_copyBlock info s t d = (0, d') /\ (forall b, bad d' b = bad d b) /\
    blk d' t = blk d s /\ frame (eq t) d d'.
Proof.
  intros Hs Ht N G C. pose proof law_npages.
  destruct (copyPages_ok s t (Z.to_nat np) Hs Ht N 0 d) as (d' & E & B & P & Q); [lia.. | done |].
  exists d'. split; [done |]. split; [done |]. split; [by apply blk_ext |].
  intros b Hb. split; [done |]. apply blk_pages. intros q Hq. apply Q.
  assert (b <> t) by (intros ->; tauto). nia.
Qed.

Lemma isBad_ok d b : 0 <= b < nblocks ->
  exists d', flashmng_isBad info b d = (if bad d b then 1 else 0, d') /\ d ≡ d'.
Proof.
  intros Hb. unfold flashmng_isBad, flash_call. rewrite block_addr by done.
  destruct (law_isBad d b Hb) as (o & d' & -> & E). by exists d'.
Qed.

Lemma erase_ok d b : 0 <= b < nblocks -> bad d b = false ->
  exists (ok : bool) d', flashmng_erase info b 1 d = (if ok then 1 else 0, d') /\ bad d' b = negb ok /\
    (ok = true -> forall j, 0 <= j < np -> page d' (b * np + j) = clean info) /\ frame (eq b) d d'.
Proof.
  intros Hb G. unfold flashmng_erase, flash_call. rewrite block_addr by done.
  pose proof law_size. pose proof law_npages. pose proof law_writesz.
  rewrite Z.mul_1_l, u32_small.
  2: { rewrite law_erasesz in *. change 4294967296 with (2 ^ 32). nia. }
  destruct (law_erase d b Hb G) as (ok & o & d' & -> & B & P & F & Q). simpl.
  exists ok, d'. split; [by destruct ok |]. split; [done |]. split; [done |].
  intros b' Hb'. assert (b' <> b) by (intros ->; tauto).
  split; [by apply F |]. apply blk_pages. intros. apply Q. nia.
Qed.
(** A device where no good block turns bad. *)
Definition reliable : Prop :=
  forall d b, 0 <= b < nblocks -> bad d b = false -> (flashmng_erase info b 1 d).1 = 1.

Definition same_bad (d d' : D) : Prop := reliable -> forall b, bad d' b = bad d b.

Lemma same_bad_equiv d d' : d ≡ d' -> same_bad d d'.
Proof. intros E _ b. by rewrite E. Qed.

Lemma same_bad_trans d1 d2 d3 : same_bad d1 d2 -> same_bad d2 d3 -> same_bad d1 d3.
Proof. intros A B R b. by rewrite B, A. Qed.

Lemma same_bad_erase d b d' (ok : bool) : 0 <= b < nblocks -> bad d b = false ->
  flashmng_erase info b 1 d = (if ok then 1 else 0, d') -> bad d' b = negb ok -> frame (eq b) d d' -> same_bad d d'.
Proof.
  intros Hb G E B F R x. specialize (R d b Hb G). rewrite E in R. destruct ok; [| done].
  destruct (decide (x = b)) as [-> |]; [by rewrite B, G |]. by apply (frame_at _ _ _ x F).
Qed.

(** The good blocks from [b] to [e] (exclusive) hold [content d b e]. *)
Definition content (d : D) (b e : Z) : list (list (bytes * bytes)) :=
  blk d <$> filter (fun x => bad d x = false) (seqZ b (e - b)).

Lemma content_split d b m e : b <= m <= e -> content d b e = content d b m ++ content d m e.
Proof.
  intros. unfold content. rewrite <- fmap_app, <- filter_app.
  replace (e - b) with ((m - b) + (e - m)) by lia.
  rewrite seqZ_app by lia. by replace (b + (m - b)) with m by lia.
Qed.

Lemma content_nil d b e : (forall x, b <= x < e -> bad d x = true) -> content d b e = [].
Proof.
  intros A. unfold content.
  assert (S : forall x, x ∈ seqZ b (e - b) -> bad d x = true) by (intros x Hx; apply elem_of_seqZ in Hx; apply A; lia).
  induction (seqZ b (e - b)) as [| x l IH]; [done |].
  rewrite filter_cons_False by (rewrite S; [done | left]). apply IH. intros. apply S. by right.
Qed.

Lemma content_one d b : bad d b = false -> content d b (b + 1) = [blk d b].
Proof.
  intros G. unfold content. replace (b + 1 - b) with 1 by lia.
  rewrite seqZ_cons by lia. rewrite filter_cons_True by done. by rewrite seqZ_nil by lia.
Qed.

(** The first good block of a range. *)
Lemma content_first d b x e : b <= x < e -> (forall y, b <= y < x -> bad d y = true) -> bad d x = false ->
  content d b e = blk d x :: content d (x + 1) e.
Proof.
  intros. rewrite (content_split d b x e), (content_split d x (x + 1) e) by lia.
  by rewrite (content_nil d b x), content_one.
Qed.

(** The last good block of a range. *)
Lemma content_last d b x e : b < x <= e -> (forall y, x <= y < e -> bad d y = true) -> bad d (x - 1) = false ->
  content d b e = content d b (x - 1) ++ [blk d (x - 1)].
Proof.
  intros. rewrite (content_split d b x e), (content_split d b (x - 1) x) by lia.
  rewrite (content_nil d x e) by done. rewrite app_nil_r. f_equal.
  rewrite <- content_one by done. f_equal. lia.
Qed.

Lemma content_ext d d' b e :
  (forall x, b <= x < e -> bad d' x = bad d x /\ blk d' x = blk d x) -> content d' b e = content d b e.
Proof.
  intros A. unfold content.
  assert (S : forall x, x ∈ seqZ b (e - b) -> b <= x < e) by (intros x Hx; apply elem_of_seqZ in Hx; lia).
  induction (seqZ b (e - b)) as [| x l IH]; [done |].
  destruct (A x) as [E F]; [apply S; left |]. specialize (IH ltac:(intros; apply S; by right)).
  destruct (bad d x) eqn:G.
  - rewrite !filter_cons_False by (by rewrite ?E, ?G). done.
  - rewrite !filter_cons_True by (by rewrite ?E, ?G). rewrite !fmap_cons, F. by f_equal.
Qed.

Lemma content_frame X d d' b e : frame X d d' -> (forall x, X x -> ~ (b <= x < e)) ->
  content d' b e = content d b e.
Proof. intros F N. apply content_ext. intros x Hx. apply (frame_at _ _ _ _ F). intros C. by apply (N x). Qed.

(** ** Looking for a good block *)

Lemma next_loop_ok k : forall b s d, 0 <= b -> b + Z.of_nat k <= nblocks ->
  exists d', d ≡ d' /\
    ((exists x, next_loop info k b s d = (0, x, d') /\ b <= x < b + Z.of_nat k /\ bad d x = false /\
        (forall y, b <= y < x -> bad d y = true)) \/
     (next_loop info k b s d = (1, s, d') /\ forall y, b <= y < b + Z.of_nat k -> bad d y = true)).
Proof.
  induction k as [| k IH]; intros b s d Hb Hk.
  { exists d. split; [done |]. right. split; [done | lia]. }
  destruct (isBad_ok d b) as (d1 & E & Q); [lia |]. simpl. rewrite E.
  destruct (bad d b) eqn:B; simpl.
  - destruct (IH (b + 1) s d1) as (d2 & Q2 & R); [lia.. |]. exists d2. split; [by rewrite Q |].
    assert (forall y x, (forall y, b + 1 <= y < x -> bad d1 y = true) -> b <= y < x -> bad d y = true) as S.
    { intros y x A Hy. destruct (decide (y = b)) as [-> |]; [done | rewrite Q; apply A; lia]. }
    destruct R as [(x & -> & Hx & G & A) | (-> & A)]; [left; exists x | right].
    + rewrite Q. repeat split; [lia.. | done |]. intros. eapply S; eauto.
    + repeat split. intros. eapply S; [exact A | lia].
  - exists d1. split; [done |]. left. exists b. repeat split; [lia.. | done | lia].
Qed.

Lemma nextBlock_ok b e d : 0 <= b -> e <= nblocks ->
  exists d', d ≡ d' /\
    ((exists x, nandpart_nextBlock info b e d = (0, x, d') /\ b <= x < e /\ bad d x = false /\
        (forall y, b <= y < x -> bad d y = true)) \/
     (nandpart_nextBlock info b e d = (1, b, d') /\ forall y, b <= y < e -> bad d y = true)).
Proof.
  intros Hb He. unfold nandpart_nextBlock. destruct (decide (b < e)).
  - destruct (next_loop_ok (Z.to_nat (e - b)) b b d) as (d' & Q & R); [lia.. |].
    exists d'. split; [done |]. destruct R as [(x & ? & ? & ?) | (? & A)]; [left; exists x | right].
    + split; [done |]. split; [lia | done].
    + split; [done |]. intros. apply A. lia.
  - exists d. split; [done |]. right. replace (Z.to_nat (e - b)) with O by lia. split; [done | lia].
Qed.

Lemma prev_loop_ok k : forall b s d, b <= nblocks -> 0 <= b - Z.of_nat k ->
  exists d', d ≡ d' /\
    ((exists x, prev_loop info k b s d = (0, x, d') /\ b - Z.of_nat k < x <= b /\ bad d (x - 1) = false /\
        (forall y, x <= y < b -> bad d y = true)) \/
     (prev_loop info k b s d = (1, s, d') /\ forall y, b - Z.of_nat k <= y < b -> bad d y = true)).
Proof.
  induction k as [| k IH]; intros b s d Hb Hk.
  { exists d. split; [done |]. right. split; [done | lia]. }
  destruct (isBad_ok d (b - 1)) as (d1 & E & Q); [lia |]. simpl. rewrite E.
  destruct (bad d (b - 1)) eqn:B; simpl.
  - destruct (IH (b - 1) s d1) as (d2 & Q2 & R); [lia.. |]. exists d2. split; [by rewrite Q |].
    assert (forall y x, (forall y, x <= y < b - 1 -> bad d1 y = true) -> x <= y < b -> bad d y = true) as S.
    { intros y x A Hy. destruct (decide (y = b - 1)) as [-> |]; [done | rewrite Q; apply A; lia]. }
    destruct R as [(x & -> & Hx & G & A) | (-> & A)]; [left; exists x | right].
    + rewrite Q. repeat split; [lia.. | done |]. intros. eapply S; eauto.
    + repeat split. intros. eapply S; [exact A | lia].
  - exists d1. split; [done |]. left. exists b. repeat split; [lia.. | done | lia].
Qed.

Lemma prevBlock_ok b e d : 0 <= b -> e <= nblocks ->
  exists d', d ≡ d' /\
    ((exists x, nandpart_prevBlock info b e d = (0, x, d') /\ b < x <= e /\ bad d (x - 1) = false /\
        (forall y, x <= y < e -> bad d y = true)) \/
     (nandpart_prevBlock info b e d = (1, e, d') /\ forall y, b <= y < e -> bad d y = true)).
Proof.
  intros Hb He. unfold nandpart_prevBlock. destruct (decide (b < e)).
  - destruct (prev_loop_ok (Z.to_nat (e - b)) e e d) as (d' & Q & R); [lia.. |].
    exists d'. split; [done |]. destruct R as [(x & ? & ? & ?) | (? & A)]; [left; exists x | right].
    + split; [done |]. split; [lia | done].
    + split; [done |]. intros. apply A. lia.
  - exists d. split; [done |]. right. replace (Z.to_nat (e - b)) with O by lia. split; [done | lia].
Qed.

(** ** The destination of a block *)

(** What the search for a destination of block [s] from [t] upwards gives. *)
Definition fwd_found (failBad : bool) (s t dstEnd : Z) (d : D) (r : target) (d' : D) : Prop :=
  match r with
  | Found x =>
      t <= x < dstEnd /\ x <> s /\ (t <= s -> x < s) /\ bad d' x = false /\
      (forall y, t <= y < x -> bad d' y = true) /\
      (forall j, 0 <= j < np -> page d' (x * np + j) = clean info) /\ frame (fun b => t <= b <= x) d d' /\ same_bad d d'
  | Here => t <= s < dstEnd /\ (forall y, t <= y < s -> bad d' y = true) /\ frame (fun b => t <= b < s) d d' /\ same_bad d d'
  | Fail err _ =>
      (err = - ENOSPC /\ (forall y, t <= y < dstEnd -> bad d' y = true) \/ failBad = true /\ err = - EBADMSG) /\
      frame (fun b => t <= b < dstEnd /\ (t <= s -> b < s)) d d' /\ same_bad d d'
  end.

Lemma fwd_target_ok failBad s dstEnd : 0 <= s < nblocks -> dstEnd <= nblocks -> forall fuel t d,
  0 <= t -> (Z.to_nat (dstEnd - t) < fuel)%nat -> bad d s = false ->
  exists r d', fwd_target info fuel failBad s t dstEnd d = Some (r, d') /\ fwd_found failBad s t dstEnd d r d'.
Proof.
  intros Hs He. induction fuel as [| fuel IH]; intros t d Ht Hf Gs.
  { lia. }
  simpl. destruct (nextBlock_ok t dstEnd d Ht He) as (d1 & E1 & [(x & -> & Hx & Gx & A) | (-> & A)]); simpl.
  2: { do 2 eexists. split; [done |]. split; [left; split; [done | intros; rewrite <- E1; by apply A] |].
       split; [by apply equiv_frame | by apply same_bad_equiv]. }
  destruct (Z.eqb_spec x s) as [-> | N].
  { do 2 eexists. split; [done |]. split; [lia |]. split; [intros; rewrite <- E1; by apply A |].
    split; [by apply equiv_frame | by apply same_bad_equiv]. }
  assert (LT : t <= s -> x < s).
  { intros. destruct (decide (x < s)); [done |]. exfalso.
    assert (bad d s = true) by (apply A; lia). congruence. }
  destruct (erase_ok d1 x) as (ok & d2 & EE & B & P & F); [lia | by rewrite <- E1 |]. rewrite EE.
  assert (SB : same_bad d d2).
  { apply (same_bad_trans _ d1); [by apply same_bad_equiv |].
    apply (same_bad_erase d1 x d2 ok); [lia | by rewrite <- E1 | done..]. }
  assert (K : frame (eq x) d d2) by (eapply frame_trans; [by apply equiv_frame, E1 | done]).
  assert (A2 : forall y, t <= y < x -> bad d2 y = true).
  { intros y Hy. destruct (frame_at _ _ _ y K) as [-> _]; [lia | by apply A]. }
  destruct ok; simpl in B.
  { do 2 eexists. split; [done |]. split; [lia |]. split; [done |]. split; [lia |]. split; [done |]. split; [done |].
    split; [by apply P |]. split; [| done]. eapply frame_weaken; [| exact K]. simpl. lia. }
  simpl. destruct failBad.
  { do 2 eexists. split; [done |]. split; [by right |]. split; [| done].
    eapply frame_weaken; [| exact K]. intros ? <-. lia. }
  destruct (IH (x + 1) d2) as (r & d3 & E3 & R); [lia | lia | destruct (frame_at _ _ _ s K) as [-> _]; [lia | done] |].
  exists r, d3. split; [done |]. revert R. clear E3 IH. destruct r as [z | | err z]; simpl.
  - intros (Hz & Nz & Lz & Gz & Az & Pz & Fz & Sz).
    split; [lia |]. split; [done |]. split; [intros; apply Lz; specialize (LT ltac:(lia)); lia |]. split; [done |].
    split; [| split; [done | split; [| by eapply same_bad_trans]]].
    2: { eapply frame_trans; (eapply frame_weaken; [| eassumption]); simpl; lia. }
    intros y Hy. destruct (decide (x < y)); [apply Az; lia |].
    destruct (frame_at _ _ _ y Fz) as [-> _]; [lia |]. destruct (decide (y = x)) as [-> |]; [done | apply A2; lia].
  - intros (Hz & Az & Fz & Sz). split; [lia |].
    split; [| split; [| by eapply same_bad_trans]].
    2: { eapply frame_trans; (eapply frame_weaken; [| eassumption]); simpl; lia. }
    intros y Hy. destruct (decide (x < y)); [apply Az; lia |].
    destruct (frame_at _ _ _ y Fz) as [-> _]; [lia |]. destruct (decide (y = x)) as [-> |]; [done | apply A2; lia].
  - intros (Hz & Fz & Sz). split.
    + destruct Hz as [[-> Az] | ?]; [left; split; [done |] | by right].
      intros y Hy. destruct (decide (x < y)); [apply Az; lia |].
      destruct (frame_at _ _ _ y Fz) as [-> _]; [lia |]. destruct (decide (y = x)) as [-> |]; [done | apply A2; lia].
    + split; [| by eapply same_bad_trans].
      eapply frame_trans; (eapply frame_weaken; [| eassumption]); simpl; lia.
Qed.

(** ** Copying forwards *)

(** The contents of [[s, srcEnd)] after a copy to [t] upwards: the copied part
    stands in [[t, e)], the rest from [m] on in its place. *)
Record fwd_copied (failBad : bool) (s srcEnd t dstEnd : Z) (src dst : option Z) (d : D) (c : copied) : Prop := {
  fc_err : cp_err c = 0 \/ cp_err c = 1 \/ cp_err c = - ENOSPC \/ failBad = true /\ cp_err c = - EBADMSG;
  fc_split : exists m e, s <= m <= srcEnd /\ t <= e /\ (e = t \/ e <= dstEnd) /\
    content (cp_dev c) t e = content d s m /\
    content (cp_dev c) m srcEnd = content d m srcEnd /\
    (cp_err c = 1 -> content d m srcEnd = []) /\
    (cp_err c = 0 -> e <= m /\ content (cp_dev c) e m = []) /\
    (cp_err c = - ENOSPC -> content d m srcEnd <> [] /\ content (cp_dev c) e dstEnd = []) /\
    (m = s /\ e = t /\ cp_src c = src /\ cp_dst c = dst \/ cp_src c = Some (m - 1) /\ cp_dst c = Some (e - 1));
  fc_frame : frame (fun b => t <= b < dstEnd) d (cp_dev c);
  fc_bad : same_bad d (cp_dev c);
}.

(** A copy that stops where it stands. *)
Lemma fwd_stop failBad s srcEnd t dstEnd err src dst d d' :
  s <= srcEnd -> (err = 0 \/ err = 1 \/ err = - ENOSPC \/ failBad = true /\ err = - EBADMSG) ->
  frame (fun b => t <= b < dstEnd) d d' ->
  (forall b, s <= b < srcEnd -> bad d' b = bad d b /\ blk d' b = blk d b) ->
  (err = 1 -> content d s srcEnd = []) ->
  (err = 0 -> t <= s /\ content d' t s = []) ->
  (err = - ENOSPC -> content d s srcEnd <> [] /\ content d' t dstEnd = []) -> same_bad d d' ->
  fwd_copied failBad s srcEnd t dstEnd src dst d (Copied err src dst d').
Proof.
  intros. split; simpl; [done | | done | done]. exists s, t.
  split; [lia |]. split; [lia |]. split; [by left |].
  split; [by rewrite !content_nil by lia |]. split; [by apply content_ext |].
  split; [done |]. split; [done |]. split; [done |]. by left.
Qed.

Lemma fwd_loop_ok failBad srcEnd dstEnd : srcEnd <= nblocks -> dstEnd <= nblocks -> forall fuel s t src dst d,
  0 <= s <= srcEnd -> 0 <= t -> (t <= s \/ srcEnd <= t) -> srcEnd - s < Z.of_nat fuel ->
  exists c, fwd_loop info fuel failBad s srcEnd t dstEnd src dst d = Some c /\
    fwd_copied failBad s srcEnd t dstEnd src dst d c.
Proof.
  intros Hse Hde. induction fuel as [| fuel IH]; intros s t src dst d Hs Ht Ho Hf; [lia |].
  cbn [fwd_loop]. destruct (nextBlock_ok s srcEnd d) as (d1 & E1 & [(x & -> & Hx & Gx & A) | (-> & A)]); [lia.. | |]; cbn [Z.eqb negb].
  2: { eexists. split; [done |]. apply fwd_stop; [lia | tauto | by apply equiv_frame | | | lia | unfold ENOSPC; lia | by apply same_bad_equiv].
       - intros. by rewrite E1. - intros. by apply content_nil. }
  destruct (fwd_target_ok failBad x dstEnd ltac:(lia) Hde (S (Z.to_nat (dstEnd - t))) t d1)
    as (r & d2 & -> & R); [lia | lia | by rewrite <- E1 |]. cbn [mbind option_bind].
  destruct r as [y | | err y]; simpl in R.
  - destruct R as (Hy & Ny & Ly & Gy & Ay & Py & Fy & Sy).
    destruct (copyBlock_ok x y d2) as (d3 & -> & B3 & C3 & F3); [lia | lia | lia | done | done |]. simpl.
    assert (F : frame (fun b => t <= b <= y) d d3).
    { eapply frame_trans; [by apply equiv_frame, E1 |]. eapply frame_trans; [exact Fy |].
      eapply frame_weaken; [| exact F3]. simpl. intros ? <-. lia. }
    destruct (IH (x + 1) (y + 1) (Some x) (Some y) d3) as (c & -> & [Ce Cs Cf Cb]); [lia.. |].
    exists c. split; [done |]. split; [done | | |].
    3: { eapply same_bad_trans; [by apply same_bad_equiv |]. eapply same_bad_trans; [exact Sy |].
         eapply same_bad_trans; [| exact Cb]. intros _. exact B3. }
    2: { eapply frame_trans; (eapply frame_weaken; [| eassumption]); simpl; lia. }
    destruct Cs as (m & e & Hm & He & Hd & K1 & K2 & K3 & K4 & K6 & K5).
    assert (S : content d3 (x + 1) srcEnd = content d (x + 1) srcEnd /\ content d3 (x + 1) m = content d (x + 1) m /\
      content d3 m srcEnd = content d m srcEnd).
    { repeat split; (eapply content_frame; [exact F | simpl; lia]). }
    destruct S as (S1 & S2 & S3).
    exists m, e. split; [lia |]. split; [lia |]. split; [lia |].
    split.
    { rewrite (content_split _ t (y + 1) e) by lia. rewrite K1, S2.
      rewrite (content_first d s x m) by done || lia.
      assert (C : content (cp_dev c) t (y + 1) = content d3 t (y + 1)).
      { eapply content_frame; [exact Cf | simpl; lia]. }
      rewrite C, (content_first d3 t y (y + 1)); [| lia | intros; rewrite B3; by apply Ay | by rewrite B3].
      rewrite (content_nil d3 (y + 1)) by lia. simpl. f_equal.
      rewrite C3. destruct (frame_at _ _ _ x Fy) as [_ ->]; [lia | by rewrite E1]. }
    split; [by rewrite K2 |]. split; [by rewrite <- S3 |]. split; [done |]. split; [by rewrite <- S3 |].
    right. destruct K5 as [(-> & -> & -> & ->) | K5]; [| done]. split; f_equal; lia.
  - destruct R as (Hy & Ay & Fy & Sy). eexists. split; [done |].
    assert (F : frame (fun b => t <= b < x) d d2).
    { eapply frame_trans; [by apply equiv_frame, E1 | done]. }
    apply fwd_stop; [lia | tauto | eapply frame_weaken; [| exact F]; simpl; lia | | lia | | unfold ENOSPC; lia | eapply same_bad_trans; [by apply same_bad_equiv | done]].
    + intros b Hb. apply F. intros [? G]. rewrite A in G by lia. done.
    + intros _. split; [lia | apply content_nil; intros; apply Ay; lia].
  - destruct R as (He & Fy & Sy). eexists. split; [done |].
    assert (F : frame (fun b => t <= b < dstEnd /\ (t <= x -> b < x)) d d2).
    { eapply frame_trans; [by apply equiv_frame, E1 | done]. }
    apply fwd_stop; [lia | tauto | eapply frame_weaken; [| exact F]; simpl; lia | | unfold ENOSPC, EBADMSG in *; lia.. | | eapply same_bad_trans; [by apply same_bad_equiv | done]].
    + intros b Hb. apply F. intros [? G]. destruct (decide (b < x)); [rewrite A in G by lia; done | lia].
    + intros ->. split; [by rewrite (content_first d s x srcEnd) |].
      apply content_nil. destruct He as [[_ Ay] | [_ ?]]; [exact Ay | unfold ENOSPC, EBADMSG in *; lia].
Qed.

(** ** Copying backwards *)

(** The search for a destination of the block that ends at [s] from [t] downwards. *)
Definition bwd_found (failBad : bool) (s dstStart t : Z) (d : D) (r : target) (d' : D) : Prop :=
  match r with
  | Found x =>
      dstStart < x <= t /\ x <> s /\ (s <= t -> s < x) /\ bad d' (x - 1) = false /\
      (forall y, x <= y < t -> bad d' y = true) /\
      (forall j, 0 <= j < np -> page d' ((x - 1) * np + j) = clean info) /\ frame (fun b => x <= b + 1 <= t) d d' /\ same_bad d d'
  | Here => dstStart < s <= t /\ (forall y, s <= y < t -> bad d' y = true) /\ frame (fun b => s <= b < t) d d' /\ same_bad d d'
  | Fail err _ =>
      (err = - ENOSPC /\ (forall y, dstStart <= y < t -> bad d' y = true) \/
       failBad = true /\ err = - EBADMSG /\ ~ reliable) /\
      frame (fun b => dstStart <= b < t /\ (s <= t -> s <= b)) d d' /\ same_bad d d'
  end.

Lemma back_target_ok failBad s dstStart : 0 < s <= nblocks -> 0 <= dstStart -> forall fuel t d,
  t <= nblocks -> (Z.to_nat (t - dstStart) < fuel)%nat -> bad d (s - 1) = false ->
  exists r d', back_target info fuel failBad s dstStart t d = Some (r, d') /\ bwd_found failBad s dstStart t d r d'.
Proof.
  intros Hs He. induction fuel as [| fuel IH]; intros t d Ht Hf Gs; [lia |].
  simpl. destruct (prevBlock_ok dstStart t d He Ht) as (d1 & E1 & [(x & -> & Hx & Gx & A) | (-> & A)]); simpl.
  2: { do 2 eexists. split; [done |]. split; [left; split; [done | intros; rewrite <- E1; by apply A] |].
       split; [by apply equiv_frame | by apply same_bad_equiv]. }
  destruct (Z.eqb_spec x s) as [-> | N].
  { do 2 eexists. split; [done |]. split; [lia |]. split; [intros; rewrite <- E1; by apply A |].
    split; [by apply equiv_frame | by apply same_bad_equiv]. }
  assert (LT : s <= t -> s < x).
  { intros. destruct (decide (s < x)); [done |]. exfalso.
    assert (bad d (s - 1) = true) by (apply A; lia). congruence. }
  destruct (erase_ok d1 (x - 1)) as (ok & d2 & EE & B & P & F); [lia | by rewrite <- E1 |]. rewrite EE.
  assert (SB : same_bad d d2).
  { apply (same_bad_trans _ d1); [by apply same_bad_equiv |].
    apply (same_bad_erase d1 (x - 1) d2 ok); [lia | by rewrite <- E1 | done..]. }
  assert (K : frame (eq (x - 1)) d d2) by (eapply frame_trans; [by apply equiv_frame, E1 | done]).
  assert (A2 : forall y, x <= y < t -> bad d2 y = true).
  { intros y Hy. destruct (frame_at _ _ _ y K) as [-> _]; [lia | by apply A]. }
  destruct ok; simpl in B.
  { do 2 eexists. split; [done |]. split; [lia |]. split; [done |]. split; [lia |]. split; [done |]. split; [done |].
    split; [by apply P |]. split; [| done]. eapply frame_weaken; [| exact K]. simpl. lia. }
  simpl. destruct failBad.
  { do 2 eexists. split; [done |]. split.
    { right. split; [done |]. split; [done |]. intros R. specialize (R d1 (x - 1) ltac:(lia)).
      rewrite EE, <- E1 in R. by apply R in Gx. }
    split; [| done]. eapply frame_weaken; [| exact K]. intros ? <-. lia. }
  destruct (IH (x - 1) d2) as (r & d3 & E3 & R); [lia | lia | destruct (frame_at _ _ _ (s - 1) K) as [-> _]; [lia | done] |].
  exists r, d3. split; [done |]. revert R. clear E3 IH. destruct r as [z | | err z]; simpl.
  - intros (Hz & Nz & Lz & Gz & Az & Pz & Fz & Sz).
    split; [lia |]. split; [done |]. split; [intros; apply Lz; specialize (LT ltac:(lia)); lia |]. split; [done |].
    split; [| split; [done | split; [| by eapply same_bad_trans]]].
    2: { eapply frame_trans; (eapply frame_weaken; [| eassumption]); simpl; lia. }
    intros y Hy. destruct (decide (y < x - 1)); [apply Az; lia |].
    destruct (frame_at _ _ _ y Fz) as [-> _]; [lia |]. destruct (decide (y = x - 1)) as [-> |]; [done | apply A2; lia].
  - intros (Hz & Az & Fz & Sz). split; [lia |].
    split; [| split; [| by eapply same_bad_trans]].
    2: { eapply frame_trans; (eapply frame_weaken; [| eassumption]); simpl; lia. }
    intros y Hy. destruct (decide (y < x - 1)); [apply Az; lia |].
    destruct (frame_at _ _ _ y Fz) as [-> _]; [lia |]. destruct (decide (y = x - 1)) as [-> |]; [done | apply A2; lia].
  - intros (Hz & Fz & Sz). split.
    + destruct Hz as [[-> Az] | ?]; [left; split; [done |] | by right].
      intros y Hy. destruct (decide (y < x - 1)); [apply Az; lia |].
      destruct (frame_at _ _ _ y Fz) as [-> _]; [lia |]. destruct (decide (y = x - 1)) as [-> |]; [done | apply A2; lia].
    + split; [| by eapply same_bad_trans].
      eapply frame_trans; (eapply frame_weaken; [| eassumption]); simpl; lia.
Qed.

(** The contents of [srcStart .. s) after a copy that ends at [t]: the copied part
    stands in [e .. t), the rest up to [m] in its place. *)
Record bwd_copied (failBad : bool) (srcStart s dstStart t : Z) (src dst : option Z) (d : D) (c : copied) : Prop := {
  bc_err : cp_err c = 0 \/ cp_err c = 1 \/ cp_err c = - ENOSPC \/ failBad = true /\ cp_err c = - EBADMSG /\ ~ reliable;
  bc_split : exists m e, srcStart <= m <= s /\ e <= t /\ (e = t \/ dstStart <= e) /\
    content (cp_dev c) e t = content d m s /\
    content (cp_dev c) srcStart m = content d srcStart m /\
    (cp_err c = 1 -> content d srcStart m = []) /\
    (cp_err c = 0 -> m <= e /\ content (cp_dev c) m e = []) /\
    (cp_err c = - ENOSPC -> content d srcStart m <> [] /\ content (cp_dev c) dstStart e = []) /\
    (m = s /\ e = t /\ cp_src c = src /\ cp_dst c = dst \/ cp_src c = Some m /\ cp_dst c = Some e);
  bc_frame : frame (fun b => dstStart <= b < t) d (cp_dev c);
  bc_bad : same_bad d (cp_dev c);
}.

Lemma bwd_stop failBad srcStart s dstStart t err src dst d d' :
  srcStart <= s -> (err = 0 \/ err = 1 \/ err = - ENOSPC \/ failBad = true /\ err = - EBADMSG /\ ~ reliable) ->
  frame (fun b => dstStart <= b < t) d d' ->
  (forall b, srcStart <= b < s -> bad d' b = bad d b /\ blk d' b = blk d b) ->
  (err = 1 -> content d srcStart s = []) ->
  (err = 0 -> s <= t /\ content d' s t = []) ->
  (err = - ENOSPC -> content d srcStart s <> [] /\ content d' dstStart t = []) -> same_bad d d' ->
  bwd_copied failBad srcStart s dstStart t src dst d (Copied err src dst d').
Proof.
  intros. split; simpl; [done | | done | done]. exists s, t.
  split; [lia |]. split; [lia |]. split; [by left |].
  split; [by rewrite !content_nil by lia |]. split; [by apply content_ext |].
  split; [done |]. split; [done |]. split; [done |]. by left.
Qed.

Lemma back_loop_ok failBad srcStart dstStart : 0 <= srcStart -> 0 <= dstStart -> forall fuel s t src dst d,
  srcStart <= s <= nblocks -> t <= nblocks -> (s <= t \/ t <= srcStart) -> s - srcStart < Z.of_nat fuel ->
  exists c, back_loop info fuel failBad srcStart s dstStart t src dst d = Some c /\
    bwd_copied failBad srcStart s dstStart t src dst d c.
Proof.
  intros Hss Hds. induction fuel as [| fuel IH]; intros s t src dst d Hs Ht Ho Hf; [lia |].
  cbn [back_loop]. destruct (prevBlock_ok srcStart s d) as (d1 & E1 & [(x & -> & Hx & Gx & A) | (-> & A)]); [lia.. | |]; cbn [Z.eqb negb].
  2: { eexists. split; [done |]. apply bwd_stop; [lia | tauto | by apply equiv_frame | | | lia | unfold ENOSPC; lia | by apply same_bad_equiv].
       - intros. by rewrite E1. - intros. by apply content_nil. }
  destruct (back_target_ok failBad x dstStart ltac:(lia) Hds (S (Z.to_nat (t - dstStart))) t d1)
    as (r & d2 & -> & R); [lia | lia | by rewrite <- E1 |]. cbn [mbind option_bind].
  destruct r as [y | | err y]; simpl in R.
  - destruct R as (Hy & Ny & Ly & Gy & Ay & Py & Fy & Sy).
    destruct (copyBlock_ok (x - 1) (y - 1) d2) as (d3 & -> & B3 & C3 & F3); [lia | lia | lia | done | done |]. simpl.
    assert (F : frame (fun b => y - 1 <= b < t) d d3).
    { eapply frame_trans; [by apply equiv_frame, E1 |]. eapply frame_trans.
      - eapply frame_weaken; [| exact Fy]. simpl. lia.
      - eapply frame_weaken; [| exact F3]. simpl. intros ? <-. lia. }
    destruct (IH (x - 1) (y - 1) (Some (x - 1)) (Some (y - 1)) d3) as (c & -> & [Ce Cs Cf Cb]); [lia.. |].
    exists c. split; [done |]. split; [done | | |].
    3: { eapply same_bad_trans; [by apply same_bad_equiv |]. eapply same_bad_trans; [exact Sy |].
         eapply same_bad_trans; [| exact Cb]. intros _. exact B3. }
    2: { eapply frame_trans; (eapply frame_weaken; [| eassumption]); simpl; lia. }
    destruct Cs as (m & e & Hm & He & Hd & K1 & K2 & K3 & K4 & K6 & K5).
    assert (S : content d3 m (x - 1) = content d m (x - 1) /\ content d3 srcStart m = content d srcStart m).
    { repeat split; (eapply content_frame; [exact F | simpl; lia]). }
    destruct S as (S1 & S2).
    exists m, e. split; [lia |]. split; [lia |]. split; [lia |].
    split.
    { rewrite (content_split _ e (y - 1) t) by lia. rewrite K1, S1.
      rewrite (content_last d m x s) by done || lia.
      assert (C : content (cp_dev c) (y - 1) t = content d3 (y - 1) t).
      { eapply content_frame; [exact Cf | simpl; lia]. }
      rewrite C, (content_last d3 (y - 1) y t); [| lia | intros; rewrite B3; by apply Ay | by rewrite B3].
      rewrite (content_nil d3 (y - 1)) by lia. simpl. do 2 f_equal.
      rewrite C3. destruct (frame_at _ _ _ (x - 1) Fy) as [_ ->]; [lia | by rewrite E1]. }
    split; [by rewrite K2 |]. split; [by rewrite <- S2 |]. split; [done |]. split; [by rewrite <- S2 |].
    right. destruct K5 as [(-> & -> & -> & ->) | K5]; done.
  - destruct R as (Hy & Ay & Fy & Sy). eexists. split; [done |].
    assert (F : frame (fun b => x <= b < t) d d2).
    { eapply frame_trans; [by apply equiv_frame, E1 | done]. }
    apply bwd_stop; [lia | tauto | eapply frame_weaken; [| exact F]; simpl; lia | | lia | | unfold ENOSPC; lia | eapply same_bad_trans; [by apply same_bad_equiv | done]].
    + intros b Hb. apply F. intros [? G]. rewrite A in G by lia. done.
    + intros _. split; [lia | apply content_nil; intros; apply Ay; lia].
  - destruct R as (He & Fy & Sy). eexists. split; [done |].
    assert (F : frame (fun b => dstStart <= b < t /\ (x <= t -> x <= b)) d d2).
    { eapply frame_trans; [by apply equiv_frame, E1 | done]. }
    apply bwd_stop; [lia | tauto | eapply frame_weaken; [| exact F]; simpl; lia | | unfold ENOSPC, EBADMSG in *; lia.. | | eapply same_bad_trans; [by apply same_bad_equiv | done]].
    + intros b Hb. apply F. intros [? G]. destruct (decide (x <= b)); [rewrite A in G by lia; done | lia].
    + intros ->. split; [rewrite (content_last d srcStart x s) by done || lia; by destruct (content d srcStart (x - 1)) |].
      apply content_nil. destruct He as [[_ Ay] | (_ & ? & _)]; [exact Ay | unfold ENOSPC, EBADMSG in *; lia].
Qed.

(** ** Erasing what is left *)

Lemma markClean_ok k : forall b n buff d, 0 <= b -> b + Z.of_nat k <= nblocks -> 0 <= n -> zlen buff = fi_oobsz info ->
  (forall x, b <= x < b + Z.of_nat k -> bad d x = false -> forall j, 0 <= j < np -> page d (x * np + j) = clean info) ->
  exists r d', markClean_loop info k b n buff d = (r, d') /\ 0 <= r /\ frame (fun x => b <= x < b + Z.of_nat k) d d'.
Proof.
  pose proof law_npages as NP. induction k as [| k IH]; intros b n buff d Hb Hk Hn Hl Hc.
  { exists n, d. split; [done |]. split; [done |]. by apply equiv_frame. }
  cbn [markClean_loop]. destruct (isBad_ok d b) as (d1 & -> & E1); [lia |].
  destruct (bad d b) eqn:B; simpl.
  - destruct (IH (b + 1) n buff d1) as (r & d2 & -> & Hr & F); [lia.. | done | |].
    { intros x Hx G. rewrite <- E1 in G. setoid_rewrite <- E1. apply Hc; [lia | done]. }
    exists r, d2. split; [done |]. split; [done |].
    eapply frame_trans; [by apply equiv_frame, E1 | eapply frame_weaken; [| exact F]; simpl; lia].
  - fold np. unfold flashmng_writeMeta, flash_call.
    pose proof (block_page b 0 ltac:(lia) ltac:(lia)) as Hp. rewrite Z.add_0_r in Hp.
    destruct (page_addr _ Hp) as (A1 & A2 & A3). cbv zeta. fold np. rewrite A3, A2.
    assert (C : page d1 (b * np) = clean info).
    { rewrite <- E1. replace (b * np) with (b * np + 0) by lia. apply Hc; [lia | done | lia]. }
    destruct (law_writeMeta d1 _ buff Hp Hl) as (e & o & d2 & -> & He & S2 & P2 & Q2); [by rewrite C |]. simpl.
    rewrite (proj2 (Z.ltb_ge _ _) He).
    assert (F : frame (eq b) d d2).
    { intros x Hx. assert (N : x <> b) by (intros ->; tauto). rewrite S2, <- E1. split; [done |].
      apply blk_pages. intros q Hq. rewrite Q2 by nia. by rewrite <- E1. }
    destruct (IH (b + 1) (n + 1) buff d2) as (r & d3 & -> & Hr & F3); [lia.. | done | |].
    { intros x Hx G j Hj. rewrite Q2 by nia. rewrite <- E1. apply Hc; [lia | | done].
      by rewrite S2, <- E1 in G. }
    exists r, d3. split; [done |]. split; [done |].
    eapply frame_trans; (eapply frame_weaken; [| eassumption]); simpl; lia.
Qed.

Lemma eraseBlocks_ok b n mc d : 0 <= b -> 0 < n -> b + n <= nblocks -> 8 <= fi_oobsz info ->
  exists err d', nandpart_eraseBlocks info true b n mc d = (err, d') /\ 0 <= err /\ frame (fun x => b <= x < b + n) d d'.
Proof.
  intros Hb Hn Hs Ho. unfold nandpart_eraseBlocks, flashmng_erase, flash_call.
  pose proof law_size. pose proof law_npages. pose proof law_writesz.
  rewrite block_addr by lia.
  rewrite (u32_small (n * _)) by (rewrite law_erasesz in *; change 4294967296 with (2 ^ 32); nia).
  destruct (law_eraseRange d b n Hb Hn Hs) as (k & o & d1 & -> & Hk & F & C). simpl.
  assert (F1 : frame (fun x => b <= x < b + n) d d1).
  { intros x Hx. destruct (F x Hx) as [-> Q]. split; [done |]. by apply blk_ext. }
  destruct (k <=? 0) eqn:K; simpl; [by eauto |]. destruct mc; simpl; [| by eauto].
  unfold flashmng_markClean. cbn [negb].
  destruct (markClean_ok (Z.to_nat n) b 0 (jffs2_cleanmarker ++ replicate (Z.to_nat (fi_oobsz info) - length jffs2_cleanmarker) 255) d1)
    as (r & d2 & -> & Hr & F2); [lia.. | | |].
  - rewrite zlen_app, zlen_replicate. change (zlen jffs2_cleanmarker) with 8.
    change (length jffs2_cleanmarker) with 8%nat. lia.
  - intros x Hx. apply C. lia.
  - rewrite (proj2 (Z.ltb_ge _ _) Hr). exists 0, d2. split; [done |]. split; [done |].
    eapply frame_trans; (eapply frame_weaken; [| eassumption]); simpl; lia.
Qed.

End contract.
