(* ===== verification/NandClaims.v ===== *)
(** * Moving partitions: the theorems

    The routines of [nandpart] that move blocks end on every device, move the
    contents in order, and where they go wrong. *)

From S2P Require Import Prelude.
From S2P Require Import Nand.
From S2P Require Import NandSpec.

(** ** Termination, on any device *)

Section any_device.
Context {D : Type} `{Flash D} (info : flash_info).

Lemma next_loop_range k : forall b s d r x d', next_loop info k b s d = (r, x, d') ->
  (r = 0 /\ b <= x < b + Z.of_nat k) \/ (r = 1 /\ x = s) \/ (r < 0 /\ x = s /\ 0 < Z.of_nat k).
Proof.
  induction k as [| k IH]; intros b s d r x d' E; simpl in E; [simplify_eq; tauto |].
  destruct (flashmng_isBad info b d) as [err d1].
  destruct (err <=? 0) eqn:L.
  - destruct (Z.eqb_spec err 0); simplify_eq; [left; lia | right; right; lia].
  - apply IH in E. lia.
Qed.

Lemma nextBlock_range b e d r x d' : nandpart_nextBlock info b e d = (r, x, d') ->
  (r = 0 /\ b <= x < e) \/ (r = 1 /\ x = b) \/ (r < 0 /\ x = b /\ b < e).
Proof. intros E. apply next_loop_range in E. lia. Qed.

Lemma prev_loop_range k : forall b s d r x d', prev_loop info k b s d = (r, x, d') ->
  (r = 0 /\ b - Z.of_nat k < x <= b) \/ (r <> 0 /\ x = s).
Proof.
  induction k as [| k IH]; intros b s d r x d' E; simpl in E; [simplify_eq; lia |].
  destruct (flashmng_isBad info (b - 1) d) as [err d1].
  destruct (err <=? 0) eqn:L.
  - destruct (Z.eqb_spec err 0); simplify_eq; [left; lia | right; lia].
  - apply IH in E. lia.
Qed.

Lemma prevBlock_range b e d r x d' : nandpart_prevBlock info b e d = (r, x, d') ->
  (r = 0 /\ b < x <= e) \/ (r <> 0 /\ x = e).
Proof. intros E. apply prev_loop_range in E. lia. Qed.

Lemma back_target_total failBad s dstStart fuel : forall t d, (Z.to_nat (t - dstStart) < fuel)%nat ->
  is_Some (back_target info fuel failBad s dstStart t d).
Proof.
  induction fuel as [| fuel IH]; intros t d Hf; [lia |]. simpl.
  destruct (nandpart_prevBlock info dstStart t d) as [[err x] d1] eqn:E. apply prevBlock_range in E.
  destruct (Z.eqb_spec err 0); simpl; [| by eauto].
  destruct (x =? s); [by eauto |]. destruct (flashmng_erase info (x - 1) 1 d1) as [err2 d2].
  destruct (negb (err2 =? 0)); [by eauto |]. destruct failBad; [by eauto |]. apply IH. lia.
Qed.

Lemma fwd_target_total failBad s dstEnd fuel : forall t d, (Z.to_nat (dstEnd - t) < fuel)%nat ->
  is_Some (fwd_target info fuel failBad s t dstEnd d).
Proof.
  induction fuel as [| fuel IH]; intros t d Hf; [lia |]. simpl.
  destruct (nandpart_nextBlock info t dstEnd d) as [[err x] d1] eqn:E. apply nextBlock_range in E.
  destruct (Z.eqb_spec err 0); simpl; [| by eauto].
  destruct (x =? s); [by eauto |]. destruct (flashmng_erase info x 1 d1) as [err2 d2].
  destruct (negb (err2 =? 0)); [by eauto |]. destruct failBad; [by eauto |]. apply IH. lia.
Qed.

(** A copy returns, and keeps [*src] and [*dst] stored. *)
Definition returns (src dst : option Z) (o : option (copied (D:=D))) : Prop :=
  exists c, o = Some c /\ (is_Some src -> is_Some (cp_src c)) /\ (is_Some dst -> is_Some (cp_dst c)).

Lemma back_loop_total failBad srcStart dstStart fuel : forall s t src dst d, (Z.to_nat (s - srcStart) < fuel)%nat ->
  returns src dst (back_loop info fuel failBad srcStart s dstStart t src dst d).
Proof.
  induction fuel as [| fuel IH]; intros s t src dst d Hf; [lia |]. cbn [back_loop].
  destruct (nandpart_prevBlock info srcStart s d) as [[err x] d1] eqn:E. apply prevBlock_range in E.
  destruct (Z.eqb_spec err 0); simpl negb; cbn [negb]; [| by eexists].
  destruct (back_target_total failBad x dstStart (Datatypes.S (Z.to_nat (t - dstStart))) t d1) as [[r d2] ->]; [lia |].
  cbn [mbind option_bind]. destruct r as [y | | err' y]; [| by eexists..].
  destruct (nandpart_copyBlock info (x - 1) (y - 1) d2) as [err2 d3].
  destruct (err2 <? 0); [by eexists |].
  destruct (IH (x - 1) (y - 1) (Some (x - 1)) (Some (y - 1)) d3) as (c & -> & A & B); [lia |].
  exists c. split; [done |]. split; intros _; eauto.
Qed.

Lemma fwd_loop_total failBad srcEnd dstEnd fuel : forall s t src dst d, (Z.to_nat (srcEnd - s) < fuel)%nat ->
  returns src dst (fwd_loop info fuel failBad s srcEnd t dstEnd src dst d).
Proof.
  induction fuel as [| fuel IH]; intros s t src dst d Hf; [lia |]. cbn [fwd_loop].
  destruct (nandpart_nextBlock info s srcEnd d) as [[err x] d1] eqn:E. apply nextBlock_range in E.
  destruct (Z.eqb_spec err 0); cbn [negb]; [| by eexists].
  destruct (fwd_target_total failBad x dstEnd (Datatypes.S (Z.to_nat (dstEnd - t))) t d1) as [[r d2] ->]; [lia |].
  cbn [mbind option_bind]. destruct r as [y | | err' y]; [| by eexists..].
  destruct (nandpart_copyBlock info x y d2) as [err2 d3].
  destruct (err2 <? 0); [by eexists |].
  destruct (IH (x + 1) (y + 1) (Some x) (Some y) d3) as (c & -> & A & B); [lia |].
  exists c. split; [done |]. split; intros _; eauto.
Qed.

Lemma copyBackward_returns failBad s se t te src dst d :
  returns src dst (nandpart_copyBackward info failBad s se t te src dst d).
Proof. apply back_loop_total. lia. Qed.

Lemma copyForward_returns failBad s se t te src dst d :
  returns src dst (nandpart_copyForward info failBad s se t te src dst d).
Proof. apply fwd_loop_total. lia. Qed.

Lemma shift_loop_total s maxEnd fuel : forall e src dst d, (Z.to_nat (maxEnd - e) < fuel)%nat ->
  exists err s' t' e' b d', shift_loop info fuel s e maxEnd src dst d = Some (err, s', t', e', b, d') /\
    (0 <= err -> e < e' <= maxEnd).
Proof.
  induction fuel as [| fuel IH]; intros e src dst d Hf; [lia |]. cbn [shift_loop].
  destruct (nandpart_nextBlock info e maxEnd d) as [[err x] d1] eqn:E. apply nextBlock_range in E.
  destruct (Z.eqb_spec err 1).
  { do 6 eexists. split; [done |]. unfold ENOSPC. lia. }
  destruct (copyBackward_returns true s e (s + 1) (x + 1) (Some src) (Some dst) d1) as (c & -> & A & B).
  destruct A as [s1 A], B as [t1 B]; [done.. |]. cbn [mbind option_bind]. rewrite A, B. cbn [mbind option_bind].
  destruct (cp_err c =? - EBADMSG).
  - destruct (IH (x + 1) s1 t1 (cp_dev c)) as (r & s2 & t2 & e2 & b2 & d2 & -> & R); [lia |].
    do 6 eexists. split; [done |]. lia.
  - do 6 eexists. split; [done |]. lia.
Qed.

Lemma shiftRight_total s e maxEnd d :
  exists err s' e' d', nandpart_shiftRightSafe info s e maxEnd d = Some (err, s', e', d') /\
    (0 <= err -> e < e' <= maxEnd).
Proof.
  unfold nandpart_shiftRightSafe.
  destruct (shift_loop_total s maxEnd (Datatypes.S (Z.to_nat (maxEnd - e))) e e e d)
    as (err & s' & t' & e' & b & d' & -> & R); [lia |]. cbn [mbind option_bind].
  destruct (Z.ltb_spec err 0).
  - destruct (copyForward_returns true t' e' s' b None None d') as (c & -> & _). cbn [mbind option_bind].
    do 4 eexists. split; [done | lia].
  - do 4 eexists. by split.
Qed.

Lemma backSafe_loop_total s t maxEnd fuel : forall se te oe src dst d, (Z.to_nat (maxEnd - oe) < fuel)%nat ->
  is_Some (backSafe_loop info fuel s se t te oe maxEnd src dst d).
Proof.
  induction fuel as [| fuel IH]; intros se te oe src dst d Hf; [lia |]. cbn [backSafe_loop].
  destruct (copyBackward_returns true s se t te (Some src) (Some dst) d) as (c & -> & A & B).
  destruct A as [s1 A], B as [t1 B]; [done.. |]. cbn [mbind option_bind]. rewrite A, B. cbn [mbind option_bind].
  destruct (negb _); [by eauto |].
  destruct (shiftRight_total t1 oe maxEnd (cp_dev c)) as (err & s2 & e2 & d2 & -> & R). cbn [mbind option_bind].
  destruct (Z.ltb_spec err 0); [by eauto |]. apply IH. lia.
Qed.

Lemma copyBackwardSafe_total mem s se t te maxEnd mc d : t <= te ->
  is_Some (nandpart_copyBackwardSafe info mem s se t te maxEnd mc d).
Proof.
  intros Ht. unfold nandpart_copyBackwardSafe.
  destruct (backSafe_loop_total s t maxEnd (Datatypes.S (Z.to_nat (maxEnd - t))) se te te se te d)
    as [[[[[err s1] t1] oe] d1] ->]; [lia |]. cbn [mbind option_bind].
  destruct (err <? 0).
  - destruct (copyForward_returns true t1 oe s1 se None None d1) as (c & -> & _). by eexists.
  - destruct (oe <? maxEnd); by eexists.
Qed.

Lemma count_loop_total e fuel : forall b n d, (Z.to_nat (e - b) < fuel)%nat -> is_Some (count_loop info fuel b e n d).
Proof.
  induction fuel as [| fuel IH]; intros b n d Hf; [lia |]. simpl.
  destruct (nandpart_nextBlock info b e d) as [[err x] d1] eqn:E. apply nextBlock_range in E.
  destruct (Z.eqb_spec err 0); [apply IH; lia | by eauto].
Qed.

Lemma find_end_ge n : forall e dstEnd d r e' d', find_end info n e dstEnd d = ((r, e'), d') -> e <= e'.
Proof.
  induction n as [| n IH]; intros e dstEnd d r e' d' E; simpl in E; [simplify_eq; lia |].
  destruct (nandpart_nextBlock info e dstEnd d) as [[err x] d1] eqn:N. apply nextBlock_range in N.
  destruct (Z.eqb_spec err 0); simpl in E; [| simplify_eq; lia]. apply IH in E. lia.
Qed.

(** C38: Moving a partition onto an area that starts inside it ends on every device,
    whatever the flash server answers: no search, copy, shift or revert loops. *)
Theorem movePart_terminates jffs2 mem mem' part pmod (d : D) :
  part_start info part < part_start info pmod < part_end info part ->
  exists err d', nandpart_movePart info jffs2 mem mem' part pmod d = Some (err, d').
Proof.
  intros Hp. unfold nandpart_movePart. destruct mem; simpl; [| by eauto].
  rewrite (proj2 (Z.ltb_lt _ _)), (proj2 (Z.ltb_lt _ _)) by lia. simpl.
  unfold nandpart_countBlocks.
  destruct (count_loop_total (part_end info part)
    (Datatypes.S (Z.to_nat (part_end info part - part_start info part))) (part_start info part) 0 d) as [[n d1] ->]; [lia |].
  cbn [mbind option_bind]. destruct (n <=? 0); [by eauto |].
  destruct (find_end info (Z.to_nat n) (part_start info pmod) (part_end info pmod) d1) as [[r e] d2] eqn:E.
  destruct (negb (r =? 0)); [by eauto |]. apply find_end_ge in E.
  destruct (copyBackwardSafe_total mem' (part_start info part) (part_end info part) (part_start info pmod) (e + 1)
    (part_end info pmod) (pt_type pmod =? jffs2) d2) as [[r' d3] ->]; [lia | by eauto].
Qed.
End any_device.

(** ** What a move does to the contents *)

Section contents.
Context {D : Type} `{Flash D} `{NandView D} (info : flash_info) (nblocks : Z).
Context {Laws : FlashLaws D info nblocks}.

Lemma copyForward_ok failBad s se t te src dst (d : D) :
  0 <= s <= se -> se <= nblocks -> 0 <= t -> te <= nblocks -> t <= s \/ se <= t ->
  exists c, nandpart_copyForward info failBad s se t te src dst d = Some c /\
    fwd_copied info nblocks failBad s se t te src dst d c.
Proof. intros. by apply (fwd_loop_ok info nblocks); try lia. Qed.

(** Copying blocks to an area that does not start inside the source moves the
    contents of its good blocks in order, skipping bad blocks and those that turn
    bad, and touches no block outside the destination; when it fails or stops where
    source and destination meet, nothing is lost. *)
Theorem copyForward_moves failBad s se t te src dst (d : D) :
  0 <= s <= se -> se <= nblocks -> 0 <= t -> te <= nblocks -> t <= s \/ se <= t ->
  exists c, nandpart_copyForward info failBad s se t te src dst d = Some c /\
    fwd_copied info nblocks failBad s se t te src dst d c.
Proof. apply copyForward_ok. Qed.

Lemma copyBackward_ok failBad s se t te src dst (d : D) :
  0 <= s <= se -> se <= nblocks -> 0 <= t -> te <= nblocks -> se <= te \/ te <= s ->
  exists c, nandpart_copyBackward info failBad s se t te src dst d = Some c /\
    bwd_copied info nblocks failBad s se t te src dst d c.
Proof. intros. by apply (back_loop_ok info nblocks); try lia. Qed.

(** Copying blocks backwards to an area that ends at or after the end of the
    source moves the contents of its good blocks in order, even when the areas
    overlap. *)
Theorem copyBackward_moves failBad s se t te src dst (d : D) :
  0 <= s <= se -> se <= nblocks -> 0 <= t -> te <= nblocks -> se <= te \/ te <= s ->
  exists c, nandpart_copyBackward info failBad s se t te src dst d = Some c /\
    bwd_copied info nblocks failBad s se t te src dst d c.
Proof. apply copyBackward_ok. Qed.

Lemma content_length d d' b e : (forall x, bad d' x = bad d x) -> length (content info d' b e) = length (content info d b e).
Proof.
  intros E. unfold content. rewrite !length_fmap. f_equal. apply list_filter_iff. intros x. by rewrite E.
Qed.

(** A copy of fewer good blocks than the destination has fits. *)
Lemma fwd_fits failBad s se t te src dst d c :
  reliable info nblocks -> s <= se -> fwd_copied info nblocks failBad s se t te src dst d c ->
  t <= te -> (length (content info d s se) <= length (content info d t te))%nat -> cp_err c <> - ENOSPC.
Proof.
  intros R Hs [_ (m & e & Hm & He & Hd & K1 & _ & _ & _ & K6 & _) _ Hb] Ht Hl E.
  destruct (K6 E) as [A B]. rewrite (content_split info d s m se) in Hl by lia.
  rewrite <- (content_length d (cp_dev c) t te), (content_split info _ t e te), B, K1, !length_app in Hl by (lia || by apply Hb).
  destruct (content info d m se); [done | simpl in Hl; lia].
Qed.

(** On a reliable device a copy stops where source and destination meet only when
    no good block lies between them. *)
Lemma fwd_meets failBad s se t te src dst d c :
  reliable info nblocks -> s <= se -> t <= s \/ se <= t -> fwd_copied info nblocks failBad s se t te src dst d c ->
  cp_err c = 0 -> (t <= s /\ content info d t s = []) \/ content info d s se = [].
Proof.
  intros R Hs Ho [_ (m & e & Hm & He & Hd & K1 & _ & _ & K4 & _) _ Hb] E.
  destruct (K4 E) as [A B]. assert (L := f_equal length K1).
  rewrite (content_length d (cp_dev c)) in L by by apply Hb.
  assert (B' := f_equal length B). rewrite (content_length d (cp_dev c)) in B' by by apply Hb.
  destruct (decide (t <= s)).
  - left. split; [done |]. apply length_zero_iff_nil.
    assert (K : length (content info d t m) = length (content info d t s ++ content info d s m)).
    { by rewrite <- content_split by lia. }
    rewrite (content_split info d t e m), !length_app in K by lia. simpl in B'. lia.
  - right. replace m with se in K1 by lia. rewrite <- K1. apply content_nil. lia.
Qed.

(** C7: On a reliable device, moving a partition to an area that does not start
    inside it and has enough good blocks succeeds: the good blocks of the new area
    hold, in order, the contents of the old one, and no other block changes. *)
Theorem movePart_moves jffs2 part pmod (d : D) s se t te :
  s = part_start info part -> se = part_end info part -> t = part_start info pmod -> te = part_end info pmod ->
  reliable info nblocks -> 8 <= fi_oobsz info ->
  0 <= s <= se -> se <= nblocks -> 0 <= t <= te -> te <= nblocks ->
  t <= s /\ content info d t s <> [] \/ se <= t ->
  content info d s se <> [] -> (length (content info d s se) <= length (content info d t te))%nat ->
  exists err d' e, nandpart_movePart info jffs2 true true part pmod d = Some (err, d') /\ 0 <= err /\
    t <= e <= te /\ content info d' t e = content info d s se /\ frame info (fun b => t <= b < te) d d'.
Proof.
  intros Es Ee Et Ete R Ho Hs Hse Ht Hte Ord Ne Len. unfold nandpart_movePart. cbn [negb].
  rewrite <- Es, <- Ee, <- Et, <- Ete.
  replace ((s <? t) && (t <? se)) with false by (symmetry; destruct (Z.ltb_spec s t), (Z.ltb_spec t se); lia || done).
  unfold nandpart_copyForwardSafe.
  destruct (copyForward_ok false s se t te None None d) as (c & -> & C); [lia.. |]. cbn [mbind option_bind].
  assert (NF : cp_err c <> - ENOSPC) by (eapply fwd_fits; [exact R | | exact C | |]; done || lia).
  assert (NM := fwd_meets false s se t te None None d c R ltac:(lia) ltac:(lia) C).
  destruct C as [Ce (m & e & Hm & He & Hd & K1 & K2 & K3 & _ & _ & K5) Cf Cb].
  assert (E1 : cp_err c = 1).
  { destruct Ce as [E | [E | [E | [? _]]]]; [| done.. ]. destruct (NM E) as [[? ?] | ?]; [| done].
    destruct Ord as [[_ ?] | ?]; [done |]. exfalso. apply Ne, content_nil. lia. }
  specialize (K3 E1).
  destruct K5 as [(-> & _) | [_ ->]]; [done |]. cbn [mbind option_bind]. rewrite E1. cbn [Z.ltb Z.compare].
  rewrite (content_split info d s m se), K3, app_nil_r by lia. replace (e - 1 + 1) with e by lia.
  destruct (Z.ltb_spec e te).
  - destruct (eraseBlocks_ok info nblocks e (te - (e - 1) - 1) (pt_type pmod =? jffs2) (cp_dev c))
      as (err & d' & -> & Herr & F); [lia.. |].
    exists err, d', e. split; [done |]. split; [done |]. split; [lia |]. split.
    + rewrite <- K1. eapply content_frame; [exact F | simpl; lia].
    + eapply frame_trans; [exact Cf | eapply frame_weaken; [| exact F]; simpl; lia].
  - exists 1, (cp_dev c), e. split; [done |]. split; [done |]. split; [| done].
    destruct Hd as [-> | ?]; [| lia]. exfalso. apply Ne. rewrite (content_split info d s m se), K3, app_nil_r by lia.
    rewrite <- K1. apply content_nil. lia.
Qed.

(** Changing only the size or the type of a partition is undefined: nothing has
    to be copied, and [nandpart_copyForwardSafe] then uses [src] and [dst], which
    only a copy sets. *)
Theorem movePart_in_place_undefined jffs2 mem' part pmod (d : D) :
  part_start info part = part_start info pmod ->
  0 <= part_start info part <= part_end info part -> part_end info part <= nblocks -> part_end info pmod <= nblocks ->
  nandpart_movePart info jffs2 true mem' part pmod d = None.
Proof.
  intros Eq Hs Hse Hte. unfold nandpart_movePart. cbn [negb]. rewrite <- Eq, Z.ltb_irrefl. cbn [andb].
  unfold nandpart_copyForwardSafe, nandpart_copyForward. cbn [fwd_loop].
  destruct (nextBlock_ok info nblocks (part_start info part) (part_end info part) d)
    as (d1 & E1 & [(x & -> & Hx & Gx & A) | (-> & A)]); [lia.. | | done]. cbn [Z.eqb negb].
  destruct (fwd_target_ok info nblocks false x (part_end info pmod) ltac:(lia) Hte
    (Datatypes.S (Z.to_nat (part_end info pmod - part_start info part))) (part_start info part) d1)
    as (r & d2 & -> & R); [lia | lia | by rewrite <- E1 |].
  destruct r as [y | | err y]; [exfalso | done | done]. destruct R as (Hy & Ny & Ly & Gy & _ & _ & Fy & _).
  destruct (frame_bad _ _ _ _ y Fy) as [B _]; [| congruence]. rewrite <- E1. apply A. lia.
Qed.

(** ** A destination as large as the source *)

Lemma count_loop_ok e fuel : e <= nblocks -> forall b n (d : D), 0 <= b -> (Z.to_nat (e - b) < fuel)%nat ->
  exists d', count_loop info fuel b e n d = Some (n + zlen (content info d b e), d') /\ d ≡ d'.
Proof.
  intros He. induction fuel as [| fuel IH]; intros b n d Hb Hf; [lia |]. simpl.
  destruct (nextBlock_ok info nblocks b e d Hb He) as (d1 & E1 & [(x & -> & Hx & Gx & A) | (-> & A)]); simpl.
  - destruct (IH (x + 1) (n + 1) d1) as (d2 & -> & E2); [lia.. |]. exists d2. split; [| by rewrite E1].
    rewrite (content_first info d b x e), zlen_cons by done. do 2 f_equal.
    rewrite (content_ext info d d1 (x + 1) e); [lia |]. intros. by rewrite E1.
  - exists d1. split; [| done]. rewrite content_nil by done. do 2 f_equal. rewrite zlen_nil. lia.
Qed.

Lemma content_good (d : D) b e : b <= e -> (forall x, b <= x < e -> bad d x = false) -> zlen (content info d b e) = e - b.
Proof.
  intros Hb G. unfold content. rewrite zlen_fmap. unfold zlen.
  assert (S : forall x, x ∈ seqZ b (e - b) -> bad d x = false) by (intros x Hx; apply elem_of_seqZ in Hx; apply G; lia).
  assert (filter (fun x => bad d x = false) (seqZ b (e - b)) = seqZ b (e - b)) as ->.
  { induction (seqZ b (e - b)) as [| x l IH]; [done |].
    rewrite filter_cons_True by (apply S; left). f_equal. apply IH. intros. apply S. by right. }
  rewrite length_seqZ. lia.
Qed.

Lemma find_end_good n : forall e te (d : D), 0 <= e -> te <= nblocks -> e + Z.of_nat n <= te ->
  (forall x, e <= x < te -> bad d x = false) ->
  exists d', find_end info n e te d = ((0, e + Z.of_nat n), d') /\ d ≡ d'.
Proof.
  induction n as [| n IH]; intros e te d He Ht Hn G; simpl.
  - exists d. split; [| done]. do 2 f_equal. lia.
  - destruct (nextBlock_ok info nblocks e te d He Ht) as (d1 & E1 & [(x & -> & Hx & Gx & A) | (-> & A)]).
    2: { exfalso. specialize (A e ltac:(lia)). rewrite G in A by lia. done. }
    assert (x = e) as ->.
    { destruct (decide (x = e)); [done |]. specialize (A e ltac:(lia)). rewrite G in A by lia. done. }
    simpl. destruct (IH (e + 1) te d1) as (d2 & -> & E2); [lia.. | intros; rewrite <- E1; apply G; lia |].
    exists d2. split; [| by rewrite E1]. do 2 f_equal. lia.
Qed.

(** A backward copy of good blocks to an area one block larger ends at its end. *)
Lemma backward_exact failBad s se t te src dst (d : D) c :
  reliable info nblocks -> bwd_copied info nblocks failBad s se t (te + 1) src dst d c ->
  s < t -> t < se -> te - t = se - s -> (forall x, s <= x <= te -> bad d x = false) ->
  cp_err c = 1 /\ cp_src c = Some s /\ cp_dst c = Some (t + 1) /\ blk info (cp_dev c) te = blk info d (se - 1).
Proof.
  intros R [Ce (m & e & Hm & He & Hd & K1 & K2 & K3 & K4 & K6 & K5) Cf Cb] Hst Hts Hte G.
  assert (G' : forall x, s <= x <= te -> bad (cp_dev c) x = false) by (intros; rewrite Cb by done; by apply G).
  assert (L : te + 1 - e = se - m).
  { rewrite <- (content_good (cp_dev c)), <- (content_good d), K1; [done | lia | | lia |]; intros; (apply G || apply G'); lia. }
  assert (E1 : cp_err c = 1).
  { destruct Ce as [E | [E | [E | (_ & _ & ?)]]]; [exfalso | done | exfalso | done].
    - destruct (K4 E) as [Hme N]. assert (zlen (content info (cp_dev c) m e) = e - m) as Z by (apply content_good; [done | intros; apply G'; lia]).
      rewrite N, zlen_nil in Z. lia.
    - destruct (K6 E) as [_ N]. assert (zlen (content info (cp_dev c) t e) = e - t) as Z by (apply content_good; [lia | intros; apply G'; lia]).
      rewrite N, zlen_nil in Z. lia. }
  assert (m = s) as ->.
  { assert (zlen (content info d s m) = m - s) as Z by (apply content_good; [lia | intros; apply G; lia]).
    rewrite (K3 E1), zlen_nil in Z. lia. }
  split; [done |]. destruct K5 as [(? & _) | [-> ->]]; [lia |]. split; [done |]. split; [f_equal; lia |].
  rewrite (content_last info _ e (te + 1) (te + 1)), (content_last info d s se se) in K1;
    (intros; (apply G || apply G' || idtac); lia) || idtac.
  apply app_inj_tail in K1 as [_ K1]. by replace (te + 1 - 1) with te in K1 by lia.
Qed.

(** Moving a partition up to an overlapping area of the same size, where all
    blocks are good, overwrites the block after the area: the end of the area is
    counted one block too far, so the last block of the partition lands there. *)
Theorem movePart_overwrites_next jffs2 part pmod (d : D) s se t te :
  s = part_start info part -> se = part_end info part -> t = part_start info pmod -> te = part_end info pmod ->
  reliable info nblocks -> 0 <= s < t -> t < se -> te - t = se - s -> te < nblocks ->
  (forall x, s <= x <= te -> bad d x = false) ->
  exists d', nandpart_movePart info jffs2 true true part pmod d = Some (1, d') /\
    blk info d' te = blk info d (se - 1).
Proof.
  intros -> -> -> ->. intros R Hs Ht Hn Hte G. unfold nandpart_movePart. cbn [negb].
  set (s := part_start info part) in *. set (se := part_end info part) in *.
  set (t := part_start info pmod) in *. set (te := part_end info pmod) in *.
  replace ((s <? t) && (t <? se)) with true by (symmetry; apply andb_true_iff; lia).
  destruct (count_loop_ok se (Datatypes.S (Z.to_nat (se - s))) ltac:(lia) s 0 d) as (d1 & C & E1); [lia.. |].
  unfold nandpart_countBlocks. rewrite C, content_good by (intros; (apply G || idtac); lia). cbn [mbind option_bind].
  rewrite (proj2 (Z.leb_gt _ _)) by lia.
  destruct (find_end_good (Z.to_nat (0 + (se - s))) t te d1) as (d2 & -> & E2);
    [lia.. | intros; rewrite <- E1; apply G; lia |]. cbn [Z.eqb negb].
  assert (E : d ≡ d2) by (by rewrite E1). clear d1 C E1 E2.
  unfold nandpart_copyBackwardSafe. cbn [backSafe_loop].
  replace (t + Z.of_nat (Z.to_nat (0 + (se - s))) + 1) with (te + 1) by lia.
  destruct (copyBackward_ok true s se t (te + 1) (Some se) (Some (te + 1)) d2)
    as (c & C & B); [lia.. |].
  destruct (backward_exact true s se t te (Some se) (Some (te + 1)) d2 c R) as (E1 & S & T & L); [done || lia.. | |].
  { intros. rewrite <- E. by apply G. }
  rewrite C. cbn [mbind option_bind]. rewrite E1, S, T. cbn [mbind option_bind].
  change (negb (1 =? - EBADMSG)) with true. cbn [mbind option_bind]. change (1 <? 0) with false. rewrite (proj2 (Z.ltb_ge _ _)) by lia.
  exists (cp_dev c). split; [done |]. by rewrite L, E.
Qed.

End contents.
