(* ===== verification/NandSim.v ===== *)
(** * A simulated flash device, and concrete moves

    A device that obeys the laws of [NandSpec], for the witnesses of the theorems on
    moving partitions, and a move that destroys the block after its destination. *)

From S2P Require Import Prelude.
From S2P Require Import Nand.
From S2P Require Import NandSpec.
From S2P Require Import NandClaims.

(** ** A simulated device *)

(** Eight blocks of two pages of four bytes; the [weak] blocks turn bad when erased. *)
Record sim (weak : Z -> bool) := Sim { sm_bad : Z -> bool; sm_page : Z -> bytes * bytes }.
Arguments Sim {weak}.
Arguments sm_bad {weak}.
Arguments sm_page {weak}.

Definition sim_info : flash_info := Info 64 4 8 8.

Definition sim_fit (x : bytes * bytes) : bytes * bytes := (resize 8 255 x.1, resize 4 255 x.2).

Section sim.
Context {weak : Z -> bool}.
Implicit Type d : sim weak.

#[export] Instance sim_view : NandView (sim weak) := {
  bad d b := sm_bad d b;
  page d p := sim_fit (sm_page d p);
}.

Definition sim_put (p : Z) (x : bytes * bytes) (d : sim weak) : sim weak :=
  Sim (sm_bad d) (fun q => if q =? p then x else sm_page d q).

Definition sim_hit (d : sim weak) (b n x : Z) : bool := (b <=? x) && (x <? b + n) && negb (sm_bad d x).

Definition sim_erase (b n : Z) (d : sim weak) : sim weak :=
  Sim (fun x => sm_bad d x || (sim_hit d b n x && weak x)) 
      (fun q => if sim_hit d b n (q / 2) && negb (weak (q / 2)) then ([], []) else sm_page d q).

#[export] Instance sim_flash : Flash (sim weak) := {
  msgSend r d :=
    match r with
    | ReqIsBad a => (Reply 0 (if sm_bad d (a / 8) then 1 else 0) [], d)
    | ReqErase a size =>
        (Reply 0 (zlen (filter (fun x => sim_hit d (a / 8) (size / 8) x && negb (weak x) = true)
                          (seqZ (a / 8) (size / 8)))) [], sim_erase (a / 8) (size / 8) d)
    | ReqReadMeta a _ => (Reply 0 0 (page d (a / 4)).1, d)
    | ReqWriteMeta a data => (Reply 0 0 [], sim_put (a / 4) (data, (page d (a / 4)).2) d)
    | _ => (Reply 0 0 [], d)
    end;
  dev_read off _ d := ((4, (page d (off / 4)).2), d);
  dev_write off data d := (4, sim_put (off / 4) ((page d (off / 4)).1, data) d);
  dev_seek off d := (off, d);
}.

Lemma resize_full (n : nat) (l : bytes) : zlen l = Z.of_nat n -> resize n 255 l = l.
Proof. intros E. rewrite <- (resize_all l 255) at 2. f_equal. unfold zlen in E. lia. Qed.

Lemma sim_put_set d p x : sim_fit x = x -> page_set d p x (sim_put p x d).
Proof.
  intros F. split; [done |]. split; [| intros q N]; simpl.
  - by rewrite Z.eqb_refl.
  - by rewrite (proj2 (Z.eqb_neq _ _) N).
Qed.

Lemma sim_hit_false d b n x : ~ (b <= x < b + n /\ sm_bad d x = false) -> sim_hit d b n x = false.
Proof.
  unfold sim_hit. intros N. destruct (Z.leb_spec b x), (Z.ltb_spec x (b + n)), (sm_bad d x) eqn:B; simpl; try done.
  exfalso. by apply N.
Qed.

Lemma sim_hit_true d b n x : b <= x < b + n -> sm_bad d x = false -> sim_hit d b n x = true.
Proof. intros [? ?] B. unfold sim_hit. rewrite B. apply andb_true_iff. split; [| done]. apply andb_true_iff. lia. Qed.


Lemma sim_addr b k : 0 < k -> b * k / k = b.
Proof. intros. by apply Z.div_mul; lia. Qed.

Lemma sim_fit_fit x : sim_fit (sim_fit x) = sim_fit x.
Proof.
  unfold sim_fit; simpl. f_equal; apply resize_full; unfold zlen; by rewrite length_resize.
Qed.

Lemma sim_fit_len x : zlen (sim_fit x).1 = 8 /\ zlen (sim_fit x).2 = 4.
Proof. unfold zlen, sim_fit; simpl. by rewrite !length_resize. Qed.

#[export] Instance sim_laws : FlashLaws (sim weak) sim_info 8.
Proof.
  constructor; try (simpl; lia); try done.
  - intros. apply sim_fit_len.
  - intros d b Hb. simpl. rewrite sim_addr by lia. by exists [], d.
  - intros d b Hb G. simpl in *. rewrite sim_addr by lia. change (8 / 8) with 1.
    rewrite seqZ_cons, seqZ_nil by lia. rewrite filter_cons, (sim_hit_true d b 1 b) by (lia || done). simpl.
    exists (negb (weak b)), [], (sim_erase b 1 d). split; [by destruct (weak b) |].
    split; [simpl; rewrite G, (sim_hit_true d b 1 b) by (lia || done); by destruct (weak b) |]. split; simpl.
    + intros W j Hj. apply negb_true_iff in W. change (npages sim_info) with 2 in *.
      replace ((b * 2 + j) / 2) with b by dlia. by rewrite sim_hit_true, W by (lia || done).
    + split; [intros b' N | intros q Hq; change (npages sim_info) with 2 in *].
      * rewrite sim_hit_false by lia. by rewrite orb_false_r.
      * rewrite sim_hit_false; [done |]. intros [? _]. apply Hq. dlia.
  - intros d b n Hb Hn Hs. simpl. rewrite !sim_addr by lia. do 3 eexists. split; [done |].
    split; [apply zlen_nonneg |]. split; simpl.
    + intros x Hx. rewrite sim_hit_false by done. rewrite orb_false_r. split; [done |].
      intros j Hj. change (npages sim_info) with 2 in *. replace ((x * 2 + j) / 2) with x by dlia.
      by rewrite sim_hit_false.
    + intros x Hx B j Hj. change (npages sim_info) with 2 in *. replace ((x * 2 + j) / 2) with x by dlia.
      apply orb_false_iff in B as [B1 B2]. rewrite sim_hit_true in * by done. simpl in B2. by rewrite B2.
  - intros d p Hp. simpl. rewrite sim_addr by lia. by exists 0, d.
  - intros d p data Hp Hl Hc. simpl. rewrite sim_addr by lia. do 3 eexists. split; [done |]. split; [done |].
    apply sim_put_set. unfold sim_fit; simpl. f_equal; apply resize_full; [done |].
    unfold zlen. by rewrite length_resize.
  - intros d off Ho. by exists d.
  - intros d p Hp. simpl. rewrite sim_addr by lia. by exists d.
  - intros d p data Hp Hl Hc. simpl. rewrite sim_addr by lia. eexists. split; [done |].
    apply sim_put_set. unfold sim_fit; simpl. f_equal; apply resize_full; [| done].
    unfold zlen. by rewrite length_resize.
Qed.

Lemma sim_reliable : (forall b, weak b = false) -> reliable (D := sim weak) sim_info 8.
Proof.
  intros W d b Hb G. destruct (erase_ok sim_info 8 d b Hb G) as (ok & d' & E & B & _). rewrite E.
  destruct ok; [done |]. exfalso. revert E B. unfold flashmng_erase, flash_call. cbn [msgSend sim_flash].
  rewrite !(block_addr sim_info 8) by done. change (fi_erasesz sim_info) with 8.
  rewrite sim_addr by lia. intros [= _ <-]. simpl in *. rewrite G, W. by rewrite andb_false_r.
Qed.
End sim.

(** ** Concrete moves *)

Definition strong (b : Z) : bool := false.

(** Block [b] holds the byte [b] in the first byte of its first page. *)
Definition ex_page (q : Z) : bytes * bytes :=
  (replicate 8 255, [if q mod 2 =? 0 then q / 2 else 255; 255; 255; 255]).

(** All blocks but block 3 are good. *)
Definition ex_dev : sim strong := Sim (fun b => b =? 3) ex_page.

Definition ex_jffs2 : Z := 1.
Definition ex_part (off len : Z) : ptable_part_t := Part (bstr "a") (8 * off) (8 * len) 0.

Lemma copyForward_moves_witness :
  (exists c, nandpart_copyForward sim_info false 2 6 0 6 None None ex_dev = Some c /\
    fwd_copied sim_info 8 false 2 6 0 6 None None ex_dev c) /\
  (forall c, nandpart_copyForward sim_info false 2 6 0 6 None None ex_dev = Some c ->
    content sim_info (cp_dev c) 0 4 = content sim_info ex_dev 2 6).
Proof.
  split; [apply (copyForward_moves sim_info 8); lia |].
  intros c E. vm_compute in E. injection E as <-. vm_compute. reflexivity.
Defined.

Lemma copyBackward_moves_witness :
  (exists c, nandpart_copyBackward sim_info true 0 3 1 6 None None ex_dev = Some c /\
    bwd_copied sim_info 8 true 0 3 1 6 None None ex_dev c) /\
  (forall c, nandpart_copyBackward sim_info true 0 3 1 6 None None ex_dev = Some c ->
    content sim_info (cp_dev c) 2 6 = content sim_info ex_dev 0 3).
Proof.
  split; [apply (copyBackward_moves sim_info 8); lia |].
  intros c E. vm_compute in E. injection E as <-. vm_compute. reflexivity.
Defined.

Lemma movePart_terminates_witness :
  part_start sim_info (ex_part 0 3) < part_start sim_info (ex_part 1 5) < part_end sim_info (ex_part 0 3) /\
  exists err d', nandpart_movePart sim_info ex_jffs2 true true (ex_part 0 3) (ex_part 1 5) ex_dev = Some (err, d').
Proof.
  assert (part_start sim_info (ex_part 0 3) < part_start sim_info (ex_part 1 5) < part_end sim_info (ex_part 0 3))
    by by vm_compute.
  split; [done | by apply movePart_terminates].
Defined.

Lemma movePart_moves_witness :
  exists err d' e,
    nandpart_movePart sim_info ex_jffs2 true true (ex_part 2 4) (ex_part 0 6) ex_dev = Some (err, d') /\ 0 <= err /\
    0 <= e <= 6 /\ content sim_info d' 0 e = content sim_info ex_dev 2 6 /\
    frame sim_info (fun b => 0 <= b < 6) ex_dev d'.
Proof.
  apply (movePart_moves sim_info 8 ex_jffs2 (ex_part 2 4) (ex_part 0 6) ex_dev 2 6 0 6); try done.
  - by apply sim_reliable.
  - left. split; [done |]. by vm_compute.
  - vm_compute. lia.
Defined.

Lemma movePart_in_place_undefined_witness :
  nandpart_movePart sim_info ex_jffs2 true true (ex_part 1 2) (ex_part 1 4) ex_dev = None.
Proof. apply (movePart_in_place_undefined sim_info 8); by vm_compute. Defined.

(** The same device without the bad block. *)
Definition ex_good : sim strong := Sim (fun _ => false) ex_page.

Lemma movePart_overwrites_next_witness :
  blk sim_info ex_good 4 <> blk sim_info ex_good 2 /\
  exists d', nandpart_movePart sim_info ex_jffs2 true true (ex_part 0 3) (ex_part 1 3) ex_good = Some (1, d') /\
    blk sim_info d' 4 = blk sim_info ex_good 2.
Proof.
  split; [by vm_compute |].
  apply (movePart_overwrites_next sim_info 8 ex_jffs2 (ex_part 0 3) (ex_part 1 3) ex_good 0 3 1 4); try done.
  by apply sim_reliable.
Defined.
