(* ===== verification/Clib.v ===== *)
(** * The C library: numbers and characters

    [strtoul] and the character classes the utilities use. *)

From S2P Require Import Prelude.
From S2P Require Import Prefix.

(** The values of bytes. *)
Definition is_bytes (l : bytes) : Prop := Forall (fun x => 0 <= x < 256) l.

(** ** Numbers *)

Definition is_space (c : Z) : bool := (c =? 32) || ((9 <=? c) && (c <=? 13)).

(** The value of a digit in [base]. *)
Definition digit (base c : Z) : option Z :=
  let v :=
    if (48 <=? c) && (c <=? 57) then c - 48
    else if (97 <=? c) && (c <=? 122) then c - 87
    else if (65 <=? c) && (c <=? 90) then c - 55
    else 36 in
  if v <? base then Some v else None.

Fixpoint skip_spaces (s : bytes) : bytes :=
  match s with
  | c :: s' => if is_space c then skip_spaces s' else s
  | [] => []
  end.

(** The digits at the front of [s]: their value after [acc], and what follows. *)
Fixpoint digits (base acc : Z) (s : bytes) : Z * bytes :=
  match s with
  | c :: s' => match digit base c with Some v => digits base (acc * base + v) s' | None => (acc, s) end
  | [] => (acc, s)
  end.

(** The base of a number for [strtoul(s, &end, 0)], and where its digits start. *)
Definition number_base (s : bytes) : Z * bytes :=
  match s with
  | 48 :: x :: h :: s' =>
      if ((x =? 120) || (x =? 88)) && (match digit 16 h with Some _ => true | None => false end)
      then (16, h :: s') else (8, s)
  | 48 :: _ => (8, s)
  | _ => (10, s)
  end.

Definition number_sign (s : bytes) : bool * bytes :=
  match s with 45 :: s' => (true, s') | 43 :: s' => (false, s') | _ => (false, s) end.

(** [strtoul(s, &end, 0)] where [unsigned long] has [w] bits: the value, and the
    string from [end] on, or [None] where nothing is converted ([end == s]). *)
Definition strtoul (w : Z) (s : bytes) : option (Z * bytes) :=
  let '(neg, s) := number_sign (skip_spaces s) in
  let '(base, s) := number_base s in
  match s with
  | c :: _ =>
      match digit base c with
      | None => None
      | Some _ =>
          let '(v, rest) := digits base 0 s in
          Some (if 2 ^ w <=? v then 2 ^ w - 1 else if neg then wrapu w (- v) else v, rest)
      end
  | [] => None
  end.

(** [strtoul(s, &end, 10)]. *)
Definition strtoul10 (w : Z) (s : bytes) : option (Z * bytes) :=
  let '(neg, s) := number_sign (skip_spaces s) in
  match s with
  | c :: _ =>
      if isdigit c then
        let '(v, rest) := digits 10 0 s in
        Some (if 2 ^ w <=? v then 2 ^ w - 1 else if neg then wrapu w (- v) else v, rest)
      else None
  | [] => None
  end.

(** [strtoul(s, &end, 10)] as the value and the string from [end] on. *)
Definition strtoul10_end (w : Z) (s : bytes) : Z * bytes := default (0, s) (strtoul10 w s).

(** ** Searching strings *)

(** The string at an index, where it ends inside the buffer. *)
Definition str_at (buf : bytes) (i : Z) : option bytes :=
  let s := drop (Z.to_nat i) buf in
  if (0 <=? i) && bool_decide (0 ∈ s) then Some (cstr s) else None.

Fixpoint starts_with (p s : bytes) : bool :=
  match p, s with
  | [], _ => true
  | x :: p, y :: s => (x =? y) && starts_with p s
  | _, [] => false
  end.
(** [strstr]: the string from the first occurrence on. *)
Fixpoint strstr (s p : bytes) : option bytes :=
  if starts_with p s then Some s else match s with [] => None | _ :: s => strstr s p end.
(** [strchr] for a character that is not NUL: what is before, and from it on. *)
Fixpoint split_chr (s : bytes) (c : Z) : option (bytes * bytes) :=
  match s with
  | [] => None
  | x :: s' => if x =? c then Some ([], s) else '(a, b) ← split_chr s' c; Some (x :: a, b)
  end.
(** [strrchr]: the string from the last occurrence on. *)
Fixpoint strrchr (s : bytes) (c : Z) : option bytes :=
  match s with
  | [] => None
  | x :: s' => match strrchr s' c with Some r => Some r | None => if x =? c then Some s else None end
  end.

Fixpoint skip_blanks (s : bytes) : bytes :=
  match s with c :: s' => if (c =? 32) || (c =? 9) then skip_blanks s' else s | [] => [] end.

(** ** Lines of a file *)

(** [fgets(line, k + 1, f)]: the line, with its newline, and what follows. *)
Fixpoint fgets_line (k : nat) (s : bytes) : bytes * bytes :=
  match k, s with
  | Datatypes.S k, c :: s => if c =? 10 then ([c], s) else let '(l, r) := fgets_line k s in (c :: l, r)
  | _, _ => ([], s)
  end.

(** A line takes a byte at least. *)
Lemma fgets_line_shorter k c s : (0 < k)%nat -> (length (snd (fgets_line k (c :: s))) < length (c :: s))%nat.
Proof.
  intros Hk. assert (H : forall k s, (length (snd (fgets_line k s)) <= length s)%nat).
  { clear. induction k as [|k IH]; intros [|c s]; try (simpl; lia). cbn [fgets_line]. destruct (c =? 10); [simpl; lia|].
    specialize (IH s). destruct (fgets_line k s). simpl in *. lia. }
  destruct k as [|k]; [lia|]. cbn [fgets_line]. destruct (c =? 10); [simpl; lia|]. specialize (H k s). destruct (fgets_line k s). simpl in *. lia.
Qed.

(** ** [scanf] *)

(** A word of a [scanf] format. *)
Fixpoint scan_word (w s : bytes) : option bytes :=
  match w, s with
  | [], _ => Some s
  | c :: w, d :: s => if c =? d then scan_word w s else None
  | _ :: _, [] => None
  end.

(** [%d] and [%u]; a value outside the range of the type is reduced to it. *)
Definition scan_int (s : bytes) : option (Z * bytes) :=
  let '(neg, s) := number_sign (skip_spaces s) in
  let '(v, r) := digits 10 0 s in
  if zlen r <? zlen s then Some (s32 (if neg then - v else v), r) else None.

(** ** Numbers that are printed and read *)

Lemma digit_dec v : 0 <= v < 10 -> digit 10 (48 + v) = Some v.
Proof.
  intros. unfold digit. replace ((48 <=? 48 + v) && (48 + v <=? 57)) with true by (symmetry; apply andb_true_iff; lia).
  replace (48 + v - 48) with v by lia. by rewrite (proj2 (Z.ltb_lt _ _)) by lia.
Qed.

(** The digits of a number, and what reading them gives. *)
Lemma dec_loop_digits fuel : forall x acc, 0 <= x < 10 ^ (Z.of_nat fuel + 1) ->
  exists c ds, dec_loop fuel x acc = (c :: ds) ++ acc /\ digit 10 c <> None /\ (c = 48 -> ds = [] /\ x = 0) /\
    forall a r, digits 10 a ((c :: ds) ++ r) = digits 10 (a * 10 ^ zlen (c :: ds) + x) r.
Proof.
  induction fuel as [| fuel IH]; intros x acc Hx.
  - change (10 ^ (Z.of_nat 0 + 1)) with 10 in Hx. cbn [dec_loop]. rewrite Z.mod_small by lia.
    exists (48 + x), []. split; [done |]. split; [by rewrite digit_dec by lia |]. split; [intros; split; [done | lia] |].
    intros a r. cbn [app digits]. rewrite digit_dec by lia. change (10 ^ zlen [48 + x]) with 10. done.
  - cbn [dec_loop]. destruct (Z.eqb_spec (x / 10) 0) as [E | E].
    + exists (48 + x mod 10), []. assert (x mod 10 = x) as -> by dlia.
      split; [done |]. split; [rewrite digit_dec by dlia; done |]. split; [intros; split; [done | lia] |].
      intros a r. cbn [app digits]. rewrite digit_dec by dlia. change (10 ^ zlen [48 + x]) with 10. done.
    + destruct (IH (x / 10) ((48 + x mod 10) :: acc)) as (c & ds & -> & Hc & Hz & Hd).
      { split; [apply Z.div_pos; lia |]. apply Z.div_lt_upper_bound; [lia |].
        replace (Z.of_nat (S fuel) + 1) with (1 + (Z.of_nat fuel + 1)) in Hx by lia.
        rewrite Z.pow_add_r in Hx by lia. lia. }
      exists c, (ds ++ [48 + x mod 10]). split; [by rewrite app_comm_cons, <- app_assoc |]. split; [done |].
      split; [intros C; by apply Hz in C as [_ ?] |].
      intros a r. rewrite app_comm_cons, <- app_assoc, Hd. cbn [app digits].
      rewrite digit_dec by dlia. f_equal.
      replace (zlen (c :: ds ++ [48 + x mod 10])) with (zlen (c :: ds) + 1) by zlia.
      rewrite Z.pow_add_r by (apply zlen_nonneg || done). change (10 ^ 1) with 10. dlia.
Qed.

(** [%d]. *)
Definition print_int (v : Z) : bytes := if v <? 0 then 45 :: dec (- v) else dec v.

Lemma dec_short x : zlen (dec x) <= 21.
Proof.
  assert (Hl : forall fuel y acc, zlen (dec_loop fuel y acc) <= Z.of_nat fuel + 1 + zlen acc).
  { induction fuel as [|fuel IH]; intros y acc; cbn [dec_loop]; [rewrite zlen_cons; lia|]. destruct (y / 10 =? 0); [rewrite zlen_cons; lia|].
    etransitivity; [apply IH|]. rewrite zlen_cons. lia. }
  etransitivity; [apply Hl|]. done.
Qed.

(** ** Hexadecimal text *)

Definition hexdigit (v : Z) : Z := if v <? 10 then 48 + v else 87 + v.
Fixpoint hex_loop (fuel : nat) (x : Z) (acc : bytes) : bytes :=
  match fuel with
  | O => acc
  | S fuel => let acc := hexdigit (x mod 16) :: acc in if x / 16 =? 0 then acc else hex_loop fuel (x / 16) acc
  end.
(** A number below [2 ^ 64] with at least [width] digits: [%0<width>x]. *)
Definition hex_pad (width x : Z) : bytes :=
  let t := hex_loop 16 x [] in replicate (Z.to_nat (width - zlen t)) 48 ++ t.
