(* ===== verification/Nandpart.v ===== *)
(** * The partition tool ([nandpart/nandpart.c])

    The partition table, its entries on the command line, and the actions of
    [nandpart] on a device or on table files.  The library [ptable] that stores
    tables and [umount] are the interface [PtableLib]. *)

From S2P Require Import Prelude.
From S2P Require Import Clib.
From S2P Require Import Complete.
From S2P Require Import Prefix.
From S2P Require Import Shell.
From S2P Require Import Nand.

(** ** The partition table *)

(** A table in its buffer: [pt_count] entries of the slots [pt_parts]. *)
Record ptable_t := Ptable { pt_count : Z; pt_parts : list ptable_part_t }.

(** The library of tables, with its constants: the size of a name ([part_namesz]) and
    of an entry ([part_sz], in bytes), and the codes of the types. *)
Class PtableLib (D : Type) := {
  part_namesz : Z;
  part_sz : Z;
  ptable_raw : Z;
  ptable_jffs2 : Z;
  ptable_meterfs : Z;
  ptable_size : Z -> Z;
  (** A buffer seen as a table, and back. *)
  ptable_view : bytes -> ptable_t;
  ptable_bytes : ptable_t -> bytes;
  ptable_serialize : ptable_t -> Z -> Z -> Z * bytes;
  ptable_deserialize : bytes -> Z -> Z -> Z * ptable_t;
  umount : bytes -> D -> Z * D;
}.

(** A table file to read: the [errno] of [fseek], if it fails, and the contents. *)
Record infile := Infile { fi_seek : option Z; fi_data : bytes }.
(** A table file to write: what fails, and the contents. *)
Record outfile := Outfile { fo_trunc : option Z; fo_seek : option Z; fo_write : bool; fo_data : bytes }.

Definition le32 (b : bytes) : Z :=
  match b with
  | x :: y :: z :: t :: _ => x + 256 * y + 65536 * z + 16777216 * t
  | _ => 0
  end.

Section nandpart.
Context {D : Type} `{Flash D} `{PtableLib D}.
Context (info : flash_info).
(** [unsigned long] has [ULONG] bits. *)
Context (ULONG : Z).

(** A result [inl err] is an error returned. *)
Definition nandpart_readPtable (file : option infile) (d : D) : (Z + ptable_t) * D :=
  match file with
  | None =>
      let '(err, data, d) := flashmng_readPtable info d in
      (if err <? 0 then inl err else inr (ptable_view data), d)
  | Some f =>
      (match fi_seek f with
       | Some e => inl (- e)
       | None =>
           if zlen (fi_data f) <? 4 then inl (- EIO)
           else
             let size := ptable_size (le32 (fi_data f)) in
             if fi_writesz info <? size then inl (- EINVAL)
             else if zlen (fi_data f) <? size then inl (- EIO)
             else
               let '(err, pt) := ptable_deserialize (take (Z.to_nat size) (fi_data f)) (fi_size info) (fi_erasesz info) in
               if err <? 0 then inl err else inr pt
       end, d)
  end.

Definition nandpart_writePtable (file : option outfile) (pt : ptable_t) (d : D) : Z * option outfile * D :=
  match file with
  | None =>
      let '(err, d) := flashmng_writePtable (ptable_bytes pt) d in (if err <? 0 then err else 0, None, d)
  | Some f =>
      match fo_trunc f with
      | Some e => (- e, Some f, d)
      | None =>
          let f := Outfile (fo_trunc f) (fo_seek f) (fo_write f) [] in
          match fo_seek f with
          | Some e => (- e, Some f, d)
          | None =>
              let size := ptable_size (pt_count pt) in
              if fi_writesz info <? size then (- EINVAL, Some f, d)
              else
                let '(err, data) := ptable_serialize pt (fi_size info) (fi_erasesz info) in
                if err <? 0 then (err, Some f, d)
                else if negb (fo_write f) then (- EIO, Some f, d)
                else (0, Some (Outfile (fo_trunc f) (fo_seek f) (fo_write f) (take (Z.to_nat size) data)), d)
          end
      end
  end.

Definition nandpart_partType2Str (type : Z) : bytes :=
  if type =? ptable_raw then bstr "raw"
  else if type =? ptable_jffs2 then bstr "jffs2"
  else if type =? ptable_meterfs then bstr "meterfs"
  else bstr "err".

(** A [uint8_t]: [-1] is 255. *)
Definition nandpart_partStr2Type (str : bytes) : Z :=
  if strcmp str (bstr "raw") =? 0 then ptable_raw
  else if strcmp str (bstr "jffs2") =? 0 then ptable_jffs2
  else if strcmp str (bstr "meterfs") =? 0 then ptable_meterfs
  else u8 (- 1).

(** The characters before the first [:], at most [k] of them. *)
Fixpoint name_loop (k : nat) (arg : bytes) : Z :=
  match k, arg with
  | Datatypes.S k, c :: arg => if c =? 58 then 0 else 1 + name_loop k arg
  | _, _ => 0
  end.

(** The name and the rest of the argument. *)
Definition nandpart_parsePartName (arg : bytes) : option (bytes * bytes) :=
  let i := name_loop (Z.to_nat part_namesz) arg in
  if (i =? 0) || (part_namesz <=? i) then None
  else Some (take (Z.to_nat i) arg, drop (Z.to_nat i) arg).

(** [None] is [-EINVAL].  The last test compares an [uint8_t] with -1. *)
Definition nandpart_parsePart (arg : bytes) : option ptable_part_t :=
  '(name, arg) ← nandpart_parsePartName arg;
  match arg with
  | 58 :: arg =>
      '(offset, arg) ← strtoul ULONG arg;
      match arg with
      | 58 :: arg =>
          '(size, arg) ← strtoul ULONG arg;
          match arg with
          | 58 :: arg =>
              let type := nandpart_partStr2Type arg in
              if type =? -1 then None else Some (Part name (u32 offset) (u32 size) type)
          | _ => None
          end
      | _ => None
      end
  | _ => None
  end.

(** The entries in use. *)
Definition entries (pt : ptable_t) : list ptable_part_t := take (Z.to_nat (pt_count pt)) (pt_parts pt).

Definition part_overlaps (p part : ptable_part_t) : bool :=
  (pt_offset part <=? u32 (pt_offset p + pt_size p - 1)) && (pt_offset p <=? u32 (pt_offset part + pt_size part - 1)).

Fixpoint verify_loop (ps : list ptable_part_t) (part : ptable_part_t) : Z :=
  match ps with
  | [] => 0
  | p :: ps =>
      if strcmp (pt_name p) (pt_name part) =? 0 then verify_loop ps part
      else if part_overlaps p part then - EINVAL
      else verify_loop ps part
  end.

Definition nandpart_verifyPart (pt : ptable_t) (part : ptable_part_t) : Z :=
  if pt_size part =? 0 then - EINVAL
  else if negb (pt_size part mod fi_erasesz info =? 0) then - EINVAL
  else if negb (pt_offset part mod fi_erasesz info =? 0) then - EINVAL
  else if fi_size info <? u32 (pt_offset part + pt_size part) then - EINVAL
  else if u32 (pt_offset part + pt_size part) <? pt_offset part then - EINVAL
  else verify_loop (entries pt) part.

Fixpoint find_loop (i : Z) (ps : list ptable_part_t) (name : bytes) : option Z :=
  match ps with
  | [] => None
  | p :: ps => if strcmp (pt_name p) name =? 0 then Some i else find_loop (i + 1) ps name
  end.

(** The index of the entry with a name. *)
Definition nandpart_findPart (pt : ptable_t) (name : bytes) : option Z := find_loop 0 (entries pt) name.

Definition print_part (p : ptable_part_t) : bytes :=
  pad_right 8 (pt_name p) ++ bstr " " ++ pad_left 10 (dec (pt_offset p)) ++ bstr " " ++
  pad_left 10 (dec (u32 (pt_offset p + pt_size p))) ++ bstr " " ++ pad_left 10 (dec (pt_size p)) ++ bstr " " ++
  pad_left 8 (nandpart_partType2Str (pt_type p)) ++ [10].

Definition nandpart_printPtable (pt : ptable_t) : bytes :=
  bstr "Memory size: " ++ dec (fi_size info) ++ bstr ", Block size: " ++ dec (fi_erasesz info) ++
  bstr ", Partition table size: " ++ dec (ptable_size (pt_count pt)) ++ [10] ++
  pad_right 8 (bstr "Name") ++ bstr " " ++ pad_left 10 (bstr "Start") ++ bstr " " ++ pad_left 10 (bstr "End") ++
  bstr " " ++ pad_left 10 (bstr "Size") ++ bstr " " ++ pad_left 8 (bstr "Type") ++ [10] ++
  concat (print_part <$> entries pt).

(** ** Actions *)

(** The lists of partitions to add, modify and remove. *)
Record actions := Actions { ac_add : list ptable_part_t; ac_mod : list ptable_part_t; ac_rem : list ptable_part_t }.

Definition nandpart_umountPart (part : ptable_part_t) (d : D) : Z * D := umount (bstr "/dev/" ++ pt_name part) d.

(** The outcome of a loop: [inl] returns, [inr ret] goes on; [None] is undefined. *)
Abbreviation outcome := (option ((Z + Z) * ptable_t * D)).

(** [memcpy(part, part + sizeof( *part), ...)] for entry [i]: the source lies
    [part_sz] entries further; overlapping areas are undefined. *)
Definition remove_entry (pt : ptable_t) (i : Z) : option ptable_t :=
  let n := pt_count pt - (i + 1) in
  parts ← (if n =? 0 then Some (pt_parts pt)
           else if part_sz <? n then None
           else memcpy (pt_parts pt) i (pt_parts pt) (i + part_sz) n);
  Some (Ptable (pt_count pt - 1) parts).

(** On the device, a change of the table is written at once. *)
Definition store_table (pt : ptable_t) (d : D) : Z * D :=
  let '(err, _, d) := nandpart_writePtable None pt d in (err, d).

Fixpoint remove_loop (output : bool) (rem : list ptable_part_t) (ret : Z) (pt : ptable_t) (d : D) : outcome :=
  match rem with
  | [] => Some (inr ret, pt, d)
  | node :: rem =>
      match nandpart_findPart pt (pt_name node) with
      | None => Some (inl (- EINVAL), pt, d)
      | Some i =>
          pt ← remove_entry pt i;
          if output then remove_loop output rem ret pt d
          else
            part ← rd (pt_parts pt) i;
            let '(_, d) := nandpart_umountPart part d in
            let '(err, d) := store_table pt d in
            if err <? 0 then Some (inl err, pt, d) else remove_loop output rem (- EAGAIN) pt d
      end
  end.

(** The first valid node, and the others. *)
Fixpoint pick_valid (pt : ptable_t) (nodes : list ptable_part_t) : option (ptable_part_t * list ptable_part_t) :=
  match nodes with
  | [] => None
  | node :: nodes =>
      if nandpart_verifyPart pt node =? 0 then Some (node, nodes)
      else '(x, rest) ← pick_valid pt nodes; Some (x, node :: rest)
  end.

Definition part_differs (p q : ptable_part_t) : bool :=
  negb (pt_offset p =? pt_offset q) || negb (pt_size p =? pt_size q) || negb (pt_type p =? pt_type q).

(** [n] is the number of nodes left; the allocations of [nandpart_movePart] work. *)
Fixpoint modify_loop (n : nat) (output : bool) (nodes : list ptable_part_t) (ret : Z) (pt : ptable_t) (d : D) : outcome :=
  match n with
  | O => Some (inr ret, pt, d)
  | Datatypes.S n =>
      match pick_valid pt nodes with
      | None => Some (inl (- EINVAL), pt, d)
      | Some (node, nodes) =>
          match nandpart_findPart pt (pt_name node) with
          | None => Some (inl (- EINVAL), pt, d)
          | Some i =>
              part ← rd (pt_parts pt) i;
              if part_differs part node then
                '(err, d) ← (if output then Some (0, d)
                             else
                               let '(_, d) := nandpart_umountPart part d in
                               nandpart_movePart info ptable_jffs2 true true part node d);
                if err <? 0 then Some (inl err, pt, d)
                else
                  parts ← wr (pt_parts pt) i (Part (pt_name part) (pt_offset node) (pt_size node) (pt_type node));
                  let pt := Ptable (pt_count pt) parts in
                  if output then modify_loop n output nodes ret pt d
                  else
                    let '(err, d) := store_table pt d in
                    if err <? 0 then Some (inl err, pt, d) else modify_loop n output nodes (- EAGAIN) pt d
              else modify_loop n output nodes ret pt d
          end
      end
  end.

(** The size of the list of partitions to add is never decremented (that of the
    modified ones is): after its last node the loop takes the [NULL] head. *)
Fixpoint add_loop (output : bool) (nodes : list ptable_part_t) (ret : Z) (pt : ptable_t) (d : D) : outcome :=
  match nodes with
  | [] => None
  | node :: nodes =>
      parts ← wr (pt_parts pt) (pt_count pt) node;
      let pt := Ptable (pt_count pt + 1) parts in
      if output then add_loop output nodes ret pt d
      else
        let '(err, d) := store_table pt d in
        if err <? 0 then Some (inl err, pt, d) else add_loop output nodes (- EAGAIN) pt d
  end.

Definition nandpart_processActions (output : bool) (ac : actions) (pt : ptable_t) (d : D) : option (Z * ptable_t * D) :=
  if pt_count pt <? zlen (ac_rem ac) then Some (- EINVAL, pt, d)
  else if pt_count pt - zlen (ac_rem ac) <? zlen (ac_mod ac) then Some (- EINVAL, pt, d)
  else if fi_writesz info <? ptable_size (u32 (pt_count pt - zlen (ac_rem ac) + zlen (ac_add ac)))
  then Some (- EINVAL, pt, d)
  else
    '(r, pt, d) ← remove_loop output (ac_rem ac) 0 pt d;
    match r with
    | inl err => Some (err, pt, d)
    | inr ret =>
        '(r, pt, d) ← modify_loop (length (ac_mod ac)) output (ac_mod ac) ret pt d;
        match r with
        | inl err => Some (err, pt, d)
        | inr ret =>
            '(r, pt, d) ← (if zlen (ac_add ac) =? 0 then Some (inr ret, pt, d) else add_loop output (ac_add ac) ret pt d);
            Some (match r with inl err => err | inr ret => ret end, pt, d)
        end
    end.

(** [mem k] tells whether the [k]-th allocation succeeds. *)
Fixpoint update_rem (mem : Z -> bool) (k : Z) (parts : list ptable_part_t) (update : ptable_t) (ac : actions)
    : (Z + Z) * actions :=
  match parts with
  | [] => (inr k, ac)
  | part :: parts =>
      match nandpart_findPart update (pt_name part) with
      | Some _ => update_rem mem k parts update ac
      | None =>
          if negb (mem k) then (inl (- ENOMEM), ac)
          else update_rem mem (k + 1) parts update (Actions (ac_add ac) (ac_mod ac) (ac_rem ac ++ [part]))
      end
  end.

Fixpoint update_mod (mem : Z -> bool) (k : Z) (mods : list ptable_part_t) (pt : ptable_t) (ac : actions) : Z * actions :=
  match mods with
  | [] => (0, ac)
  | pmod :: mods =>
      if negb (mem k) then (- ENOMEM, ac)
      else
        match nandpart_findPart pt (pt_name pmod) with
        | None => update_mod mem (k + 1) mods pt (Actions (ac_add ac ++ [pmod]) (ac_mod ac) (ac_rem ac))
        | Some _ => update_mod mem (k + 1) mods pt (Actions (ac_add ac) (ac_mod ac ++ [pmod]) (ac_rem ac))
        end
  end.

Definition nandpart_updatePtable (mem : Z -> bool) (pt update : ptable_t) (ac : actions) : Z * actions :=
  match update_rem mem 0 (entries pt) update ac with
  | (inl err, ac) => (err, ac)
  | (inr k, ac) => update_mod mem k (entries update) pt ac
  end.

Definition no_actions (ac : actions) : bool :=
  (zlen (ac_rem ac) =? 0) && (zlen (ac_mod ac) =? 0) && (zlen (ac_add ac) =? 0).

(** The files given on the command line. *)
Record files := Files { fs_input : option infile; fs_output : option outfile; fs_update : option infile }.

(** What a run leaves: its result, what it printed, the output file, the device. *)
Record ran := Ran { ran_err : Z; ran_out : bytes; ran_file : option outfile; ran_dev : D }.

(** [m] and [m'] tell whether the two table buffers are allocated. *)
Definition nandpart_run (m m' : bool) (mem : Z -> bool) (fs : files) (ac : actions) (d : D) : option ran :=
  let out := fs_output fs in
  if negb m then Some (Ran (- ENOMEM) [] out d)
  else
    let '(r, d) := nandpart_readPtable (fs_input fs) d in
    match r with
    | inl err => Some (Ran err [] out d)
    | inr pt =>
        let '(r, d) :=
          match fs_update fs with
          | None => (inr ac, d)
          | Some f =>
              if negb m' then (inl (- ENOMEM), d)
              else
                let '(r, d) := nandpart_readPtable (Some f) d in
                match r with
                | inl err => (inl err, d)
                | inr update =>
                    let '(err, ac) := nandpart_updatePtable mem pt update ac in
                    (if err <? 0 then inl err else inr ac, d)
                end
          end in
        match r with
        | inl err => Some (Ran err [] out d)
        | inr ac =>
            if no_actions ac then
              match out with
              | None => Some (Ran 0 (nandpart_printPtable pt) None d)
              | Some _ => let '(err, out, d) := nandpart_writePtable out pt d in Some (Ran err [] out d)
              end
            else
              '(err, pt, d) ← nandpart_processActions (match out with Some _ => true | None => false end) ac pt d;
              match out with
              | Some _ =>
                  if 0 <=? err then let '(err, out, d) := nandpart_writePtable out pt d in Some (Ran err [] out d)
                  else Some (Ran err [] out d)
              | None => Some (Ran err [] out d)
              end
        end
    end.

(** ** The command line *)

Record opts := Opts { op_input : option bytes; op_output : option bytes; op_update : option bytes; op_actions : actions }.

(** [inl] is an early return, [None] for [exit(EXIT_SUCCESS)] of [-h]. *)
Fixpoint nandpart_opts (mem : Z -> bool) (k : Z) (args : list (Z * bytes)) (o : opts) : option Z + opts :=
  let ac := op_actions o in
  let set ac := Opts (op_input o) (op_output o) (op_update o) ac in
  match args with
  | [] => inr o
  | (c, optarg) :: args =>
      if c =? 105 then nandpart_opts mem k args (Opts (Some optarg) (op_output o) (op_update o) ac)
      else if c =? 111 then nandpart_opts mem k args (Opts (op_input o) (Some optarg) (op_update o) ac)
      else if c =? 117 then nandpart_opts mem k args (Opts (op_input o) (op_output o) (Some optarg) ac)
      else if (c =? 97) || (c =? 109) then
        if negb (mem k) then inl (Some (- ENOMEM))
        else
          match nandpart_parsePart optarg with
          | None => inl (Some (- EINVAL))
          | Some p =>
              nandpart_opts mem (k + 1) args
                (set (if c =? 97 then Actions (ac_add ac ++ [p]) (ac_mod ac) (ac_rem ac)
                      else Actions (ac_add ac) (ac_mod ac ++ [p]) (ac_rem ac)))
          end
      else if c =? 114 then
        if negb (mem k) then inl (Some (- ENOMEM))
        else
          match nandpart_parsePartName optarg with
          | Some (name, []) =>
              nandpart_opts mem (k + 1) args (set (Actions (ac_add ac) (ac_mod ac) (ac_rem ac ++ [Part name 0 0 0])))
          | _ => inl (Some (- EINVAL))
          end
      else if c =? 104 then inl None
      else inl (Some (- EINVAL))
  end.

(** From erase blocks to bytes. *)
Definition part_units (p : ptable_part_t) : ptable_part_t :=
  Part (pt_name p) (u32 (pt_offset p * fi_erasesz info)) (u32 (pt_size p * fi_erasesz info)) (pt_type p).
Definition nandpart_units (ac : actions) : actions :=
  Actions (part_units <$> ac_add ac) (part_units <$> ac_mod ac) (ac_rem ac).
End nandpart.
