(* ===== verification/NandpartSpec.v ===== *)
(** * What the partition tool promises

    Entries on the command line are read back as written, an accepted partition lies
    inside the device apart from the others, modifications keep the table consistent
    and an update is split into actions; removing and adding do not work. *)

From S2P Require Import Prelude.
From S2P Require Import Prefix.
From S2P Require Import Nand.
From S2P Require Import Clib.
From S2P Require Import Nandpart.

(** ** Numbers *)

Definition not_digit (s : bytes) : Prop := match s with c :: _ => digit 16 c = None /\ c <> 120 /\ c <> 88 | [] => True end.

Lemma digit_range b c v : digit b c = Some v -> b <= 16 -> 48 <= c <= 102.
Proof. unfold digit. repeat bcase; intros [= <-] ?; bprop; lia. Qed.

Lemma digit_weaken c : digit 16 c = None -> digit 10 c = None /\ digit 8 c = None.
Proof. unfold digit. repeat bcase; intros; bprop; try done; try (split; f_equal; lia); lia. Qed.

Lemma digits_stop b a r : not_digit r -> b = 10 \/ b = 8 -> digits b a r = (a, r).
Proof.
  destruct r as [| c r]; [done |]. intros (N & _) [-> | ->]; apply digit_weaken in N as [N10 N8]; cbn [digits];
    by rewrite ?N10, ?N8.
Qed.

(** [strtoul] reads back what [%u] prints. *)
Lemma strtoul_dec w x r : 32 <= w -> 0 <= x < 2 ^ 32 -> not_digit r -> strtoul w (dec x ++ r) = Some (x, r).
Proof.
  intros Hw Hx Hr. unfold dec.
  destruct (dec_loop_digits 20 x []) as (c & ds & -> & Hc & Hz & Hd).
  { split; [lia |]. eapply Z.lt_trans; [apply Hx | by vm_compute]. }
  rewrite app_nil_r. destruct (digit 10 c) as [v |] eqn:Dc; [| done].
  pose proof (digit_range 10 c v Dc ltac:(lia)) as Rc.
  assert (c <= 57) as Rc'.
  { revert Dc. unfold digit. repeat bcase; intros [= <-]; bprop; lia. }
  assert (P : (2 ^ w <=? x) = false).
  { apply Z.leb_gt. pose proof (Z.pow_le_mono_r 2 32 w ltac:(lia) Hw). lia. }
  assert (E : number_base ((c :: ds) ++ r) = (if c =? 48 then 8 else 10, (c :: ds) ++ r)).
  { destruct (Z.eqb_spec c 48) as [-> |].
    - destruct (Hz eq_refl) as [-> _]. destruct r as [| y [| h r]]; [done | by destruct y as [| [] |] |].
      destruct Hr as (_ & Ny & Ny'). unfold number_base. cbn [app].
      by rewrite (proj2 (Z.eqb_neq y 120)), (proj2 (Z.eqb_neq y 88)).
    - unfold number_base. cbn [app]. assert (c = 49 \/ c = 50 \/ c = 51 \/ c = 52 \/ c = 53 \/ c = 54 \/ c = 55 \/ c = 56 \/ c = 57)
        as Cs by lia. by destruct_or! Cs; subst c. }
  assert (S : skip_spaces ((c :: ds) ++ r) = (c :: ds) ++ r).
  { cbn [app skip_spaces]. assert (is_space c = false) as ->; [| done].
    apply not_true_iff_false. unfold is_space. rewrite orb_true_iff, andb_true_iff. lia. }
  assert (N : number_sign ((c :: ds) ++ r) = (false, (c :: ds) ++ r)).
  { assert (c = 48 \/ c = 49 \/ c = 50 \/ c = 51 \/ c = 52 \/ c = 53 \/ c = 54 \/ c = 55 \/ c = 56 \/ c = 57)
      as Cs by lia. by destruct_or! Cs; subst c. }
  unfold strtoul. rewrite S, N, E. cbn [app].
  destruct (Z.eqb_spec c 48) as [-> |].
  - destruct (Hz eq_refl) as [-> ->]. cbn [digits app].
    change (digit 8 48) with (Some 0). cbn [Z.mul Z.add]. rewrite digits_stop by auto. change (0 * 8 + 0) with 0. by rewrite P.
  - rewrite Dc. specialize (Hd 0 r). cbn [app] in Hd. rewrite Hd, digits_stop by auto. rewrite Z.mul_0_l, Z.add_0_l.
    by rewrite P.
Qed.

(** ** Command line entries *)

Section spec.
Context {D : Type} `{Flash D} `{PtableLib D}.
Context (info : flash_info) (ULONG : Z).

Lemma name_loop_name k : forall name r, 58 ∉ name -> zlen name <= Z.of_nat k ->
  name_loop k (name ++ 58 :: r) = zlen name.
Proof.
  induction k as [| k IH]; intros name r Hn Hl; destruct name as [| c name]; try done.
  simpl. rewrite (proj2 (Z.eqb_neq c 58)) by (intros ->; apply Hn; left).
  rewrite IH; [by rewrite zlen_cons | intros ?; apply Hn; by right | rewrite zlen_cons in Hl; lia].
Qed.

Lemma parsePartName_ok name r : 58 ∉ name -> 0 < zlen name < part_namesz ->
  nandpart_parsePartName (name ++ 58 :: r) = Some (name, 58 :: r).
Proof.
  intros Hn Hl. unfold nandpart_parsePartName. rewrite name_loop_name by (done || lia).
  rewrite (proj2 (Z.eqb_neq _ _)), (proj2 (Z.leb_gt _ _)) by lia. cbn [orb].
  by rewrite take_zlen_app, drop_zlen_app.
Qed.

(** An entry [name:offset:size:type] of the command line is read back as
    written, the type as its code; a type that is not known is not refused but
    becomes the type 255. *)
Theorem parsePart_roundtrip name offset size type :
  32 <= ULONG -> 58 ∉ name -> 0 < zlen name < part_namesz ->
  0 <= offset < 2 ^ 32 -> 0 <= size < 2 ^ 32 ->
  Forall (fun c => 0 <= c < 256) [ptable_raw; ptable_jffs2; ptable_meterfs] ->
  nandpart_parsePart ULONG (name ++ bstr ":" ++ dec offset ++ bstr ":" ++ dec size ++ bstr ":" ++ type) =
    Some (Part name offset size (nandpart_partStr2Type type)) /\
  (type ∉ [bstr "raw"; bstr "jffs2"; bstr "meterfs"] -> nandpart_partStr2Type type = 255).
Proof.
  intros HU Hn Hl Ho Hs Hc. rewrite !Forall_cons in Hc. split.
  - unfold nandpart_parsePart. change (bstr ":") with [58]. cbn [app]. rewrite parsePartName_ok by done.
    cbn [mbind option_bind]. rewrite strtoul_dec by done. cbn [mbind option_bind].
    rewrite strtoul_dec by done. cbn [mbind option_bind]. rewrite !wrapu_small by done.
    rewrite (proj2 (Z.eqb_neq _ _)); [done |]. unfold nandpart_partStr2Type. repeat bcase; try lia. done.
  - intros Ht. unfold nandpart_partStr2Type.
    assert (forall s, s ∈ [bstr "raw"; bstr "jffs2"; bstr "meterfs"] -> (strcmp type s =? 0) = false) as N.
    { intros s Es. apply Z.eqb_neq. rewrite strcmp_eq. by intros ->. }
    rewrite !N by (repeat constructor). done.
Qed.

(** ** Accepted partitions *)

Definition disjoint (p q : ptable_part_t) : Prop :=
  pt_offset p + pt_size p <= pt_offset q \/ pt_offset q + pt_size q <= pt_offset p.

(** A partition whose range neither is empty nor wraps. *)
Definition ranged (p : ptable_part_t) : Prop := 0 <= pt_offset p /\ 0 < pt_size p /\ pt_offset p + pt_size p < 2 ^ 32.

Lemma overlaps_ranged p q : ranged p -> ranged q -> part_overlaps p q = false <-> disjoint p q.
Proof.
  intros (? & ? & ?) (? & ? & ?). unfold part_overlaps, disjoint.
  rewrite !wrapu_small by lia. rewrite andb_false_iff, !Z.leb_gt. lia.
Qed.

Lemma verify_loop_ok part ps : ranged part -> Forall ranged ps ->
  verify_loop ps part = 0 <-> Forall (fun p => pt_name p <> pt_name part -> disjoint p part) ps.
Proof.
  intros R. induction 1 as [| p ps Rp Rs IH]; [done |]. simpl. rewrite Forall_cons.
  pose proof (strcmp_eq (pt_name p) (pt_name part)) as E.
  destruct (Z.eqb_spec (strcmp (pt_name p) (pt_name part)) 0) as [C | C].
  - rewrite IH. split; [intros; split; [intros N; exfalso; tauto | done] | tauto].
  - pose proof (overlaps_ranged p part Rp R). destruct (part_overlaps p part).
    + split; [unfold EINVAL; lia |]. intros [Dj _]. exfalso. assert (true = false) by (apply H1; tauto). done.
    + rewrite IH. tauto.
Qed.

Lemma verify_loop_err ps part : verify_loop ps part = 0 \/ verify_loop ps part = - EINVAL.
Proof. induction ps as [| p ps IH]; simpl; [by left |]. destruct (_ =? 0); [done |]. destruct part_overlaps; auto. Qed.

(** What [nandpart_verifyPart] promises of a partition it accepts. *)
Definition acceptable (pt : ptable_t) (part : ptable_part_t) : Prop :=
  0 < pt_size part /\ pt_size part mod fi_erasesz info = 0 /\ pt_offset part mod fi_erasesz info = 0 /\
  pt_offset part + pt_size part <= fi_size info /\ pt_offset part + pt_size part < 2 ^ 32 /\
  Forall (fun p => pt_name p <> pt_name part -> disjoint p part) (entries pt).

Lemma verifyPart_ok pt part :
  0 <= pt_offset part < 2 ^ 32 -> 0 <= pt_size part < 2 ^ 32 -> Forall ranged (entries pt) ->
  nandpart_verifyPart info pt part = 0 <-> acceptable pt part.
Proof.
  intros Ho Hs Hr. unfold nandpart_verifyPart, acceptable.
  destruct (Z.eqb_spec (pt_size part) 0); [split; unfold EINVAL; lia |].
  destruct (Z.eqb_spec (pt_size part mod fi_erasesz info) 0); simpl; [| split; unfold EINVAL; lia].
  destruct (Z.eqb_spec (pt_offset part mod fi_erasesz info) 0); simpl; [| split; unfold EINVAL; lia].
  destruct (Z.ltb_spec (pt_offset part + pt_size part) (2 ^ 32)).
  - rewrite wrapu_small by lia. destruct (Z.ltb_spec (fi_size info) (pt_offset part + pt_size part)).
    { split; unfold EINVAL; lia. }
    rewrite (proj2 (Z.ltb_ge _ _)) by lia. rewrite verify_loop_ok by (done || split; lia).
    repeat split; try lia; tauto.
  - assert (W : u32 (pt_offset part + pt_size part) = pt_offset part + pt_size part - 2 ^ 32).
    { unfold wrapu. symmetry. apply Z.mod_unique_pos with 1; lia. }
    rewrite W. destruct (fi_size info <? _); [split; unfold EINVAL; lia |].
    rewrite (proj2 (Z.ltb_lt _ _)) by lia. split; unfold EINVAL; lia.
Qed.

(** C34: [nandpart_verifyPart] accepts exactly the partitions that are not empty, lie
    on erase blocks inside the device without wrapping, and do not overlap another
    partition of the table. *)
Theorem verifyPart_sound pt part :
  0 <= pt_offset part < 2 ^ 32 -> 0 <= pt_size part < 2 ^ 32 -> Forall ranged (entries pt) ->
  (nandpart_verifyPart info pt part = 0 <-> acceptable pt part) /\
  (nandpart_verifyPart info pt part = 0 \/ nandpart_verifyPart info pt part = - EINVAL).
Proof.
  intros. split; [by apply verifyPart_ok |]. unfold nandpart_verifyPart.
  repeat (bcase; [by right |]). apply verify_loop_err.
Qed.
(** ** Modifying partitions *)

(** A consistent table: entries inside the device, distinct names, no overlap. *)
Record table_ok (pt : ptable_t) : Prop := {
  tk_count : 0 <= pt_count pt <= zlen (pt_parts pt);
  tk_ranged : Forall (fun p => ranged p /\ pt_offset p + pt_size p <= fi_size info) (entries pt);
  tk_names : NoDup (pt_name <$> entries pt);
  tk_disjoint : forall i j p q, i <> j -> entries pt !! i = Some p -> entries pt !! j = Some q -> disjoint p q;
}.

Lemma find_loop_some k ps name i : find_loop k ps name = Some i ->
  exists p, k <= i /\ ps !! Z.to_nat (i - k) = Some p /\ pt_name p = name.
Proof.
  revert k. induction ps as [| p ps IH]; intros k E; simpl in E; [done |].
  destruct (Z.eqb_spec (strcmp (pt_name p) name) 0) as [C | C].
  - injection E as <-. exists p. replace (Z.to_nat (k - k)) with O by lia. split; [lia |]. split; [done |]. by apply strcmp_eq.
  - destruct (IH _ E) as (q & Hk & L & N). exists q. split; [lia |]. split; [| done].
    by replace (Z.to_nat (i - k)) with (S (Z.to_nat (i - (k + 1)))) by lia.
Qed.

Lemma find_loop_none k ps name : find_loop k ps name = None <-> name ∉ pt_name <$> ps.
Proof.
  revert k. induction ps as [| p ps IH]; intros k; cbn [find_loop]; [split; [intros _ N; inversion N | done] |].
  rewrite fmap_cons, not_elem_of_cons, <- (IH (k + 1)).
  pose proof (strcmp_eq (pt_name p) name). destruct (Z.eqb_spec (strcmp (pt_name p) name) 0).
  - split; [done |]. intros [N _]. exfalso. apply N. symmetry. tauto.
  - split; [intros; split; [intros E; apply n; subst name; by apply strcmp_refl | done] | tauto].
Qed.

Lemma entry_update pt i p q : table_ok pt -> entries pt !! Z.to_nat i = Some p -> 0 <= i ->
  exists parts, wr (pt_parts pt) i q = Some parts /\ rd (pt_parts pt) i = Some p /\
    entries (Ptable (pt_count pt) parts) = <[Z.to_nat i := q]> (entries pt) /\ zlen parts = zlen (pt_parts pt).
Proof.
  intros [Hc _ _ _] L Hi. unfold entries in L. apply lookup_take_Some in L as [L Hl].
  assert (i < zlen (pt_parts pt)) by (apply lookup_lt_Some in L; unfold zlen; lia).
  unfold wr, rd. rewrite (proj2 (Z.leb_le 0 i)), (proj2 (Z.ltb_lt _ _)) by lia. simpl.
  eexists. split; [done |]. split; [done |]. split; [| by rewrite zlen_insert].
  unfold entries. simpl. by rewrite take_insert_lt by lia.
Qed.

Lemma acceptable_ranged pt q : acceptable pt q -> 0 <= pt_offset q -> ranged q.
Proof. intros (? & _ & _ & _ & ? & _) ?. split; lia. Qed.

(** Giving an entry the range of an acceptable partition keeps the table consistent. *)
Lemma table_update pt i p q parts :
  table_ok pt -> entries pt !! i = Some p -> pt_name q = pt_name p -> acceptable pt q -> 0 <= pt_offset q ->
  entries (Ptable (pt_count pt) parts) = <[i := q]> (entries pt) -> zlen parts = zlen (pt_parts pt) ->
  table_ok (Ptable (pt_count pt) parts).
Proof.
  intros [Hc Hr Hn Hd] L N A Ho E EL. pose proof (acceptable_ranged _ _ A Ho) as Rq.
  destruct A as (_ & _ & _ & Hs & _ & Ha). split; rewrite ?E.
  - simpl. by rewrite EL.
  - by apply Forall_insert.
  - rewrite list_fmap_insert, list_insert_id; [done |]. rewrite list_lookup_fmap, L. simpl. by rewrite N.
  - assert (K : forall j r, j <> i -> entries pt !! j = Some r -> disjoint r q).
    { intros j r Nj Lj. rewrite Forall_lookup in Ha. apply (Ha j r Lj). rewrite N. intros Eq.
      apply Nj. eapply (NoDup_lookup _ j i _ Hn); rewrite list_lookup_fmap, ?L, ?Lj; simpl; by rewrite ?Eq. }
    intros a b x y Nab La Lb.
    assert (i < length (entries pt))%nat by by eapply lookup_lt_Some.
    destruct (decide (a = i)) as [-> | Na], (decide (b = i)) as [-> | Nb]; [done | ..].
    + rewrite list_lookup_insert_eq in La by done. rewrite list_lookup_insert_ne in Lb by done. injection La as <-.
      destruct (K b y Nb Lb); [by right | by left].
    + rewrite list_lookup_insert_eq in Lb by done. rewrite list_lookup_insert_ne in La by done. injection Lb as <-. by apply (K a).
    + rewrite !list_lookup_insert_ne in La, Lb by done. by apply (Hd a b).
Qed.
Lemma pick_valid_some pt nodes node rest : pick_valid info pt nodes = Some (node, rest) ->
  nandpart_verifyPart info pt node = 0 /\ nodes ≡ₚ node :: rest.
Proof.
  revert node rest. induction nodes as [| x nodes IH]; intros node rest E; simpl in E; [done |].
  destruct (Z.eqb_spec (nandpart_verifyPart info pt x) 0); [by injection E as <- <- |].
  destruct (pick_valid info pt nodes) as [[y r] |] eqn:P; [| done]. injection E as <- <-.
  destruct (IH _ _ eq_refl) as [V Pm]. split; [done |]. rewrite Pm. apply Permutation_swap.
Qed.

(** The table after the modifications [done]. *)
Definition modified (pt pt' : ptable_t) (done : list ptable_part_t) : Prop :=
  pt_name <$> entries pt' = pt_name <$> entries pt /\
  (forall q, q ∈ done -> exists p, p ∈ entries pt' /\ pt_name p = pt_name q /\ part_differs p q = false) /\
  (forall p, p ∈ entries pt -> pt_name p ∉ pt_name <$> done -> p ∈ entries pt').

Definition fields_ok (q : ptable_part_t) : Prop := 0 <= pt_offset q < 2 ^ 32 /\ 0 <= pt_size q < 2 ^ 32.

Lemma part_differs_false p q : part_differs p q = false <->
  pt_offset p = pt_offset q /\ pt_size p = pt_size q /\ pt_type p = pt_type q.
Proof. unfold part_differs. rewrite !orb_false_iff, !negb_false_iff, !Z.eqb_eq. tauto. Qed.

Lemma ranged_entries pt : table_ok pt -> Forall ranged (entries pt).
Proof. intros [_ R _ _]. eapply Forall_impl; [exact R |]. by intros ? []. Qed.

(** One modification in a table file. *)
Lemma modify_step pt node i part :
  table_ok pt -> fields_ok node -> nandpart_verifyPart info pt node = 0 ->
  nandpart_findPart pt (pt_name node) = Some i ->
  rd (pt_parts pt) i = Some part ->
  exists parts, wr (pt_parts pt) i (Part (pt_name part) (pt_offset node) (pt_size node) (pt_type node)) = Some parts /\
    table_ok (Ptable (pt_count pt) parts) /\ modified pt (Ptable (pt_count pt) parts) [node].
Proof.
  intros T [Fo Fs] V F R. apply find_loop_some in F as (p & Hi & L & N). rewrite Z.sub_0_r in L.
  set (q := Part (pt_name part) (pt_offset node) (pt_size node) (pt_type node)).
  destruct (entry_update pt i p q T L Hi) as (parts & W & R' & E & EL).
  rewrite R' in R. injection R as <-. exists parts. split; [done |].
  apply verifyPart_ok in V; [| done.. | by apply ranged_entries].
  assert (A : acceptable pt q).
  { destruct V as (V1 & V2 & V3 & V4 & V5 & V6). repeat split; try done. simpl. by rewrite N. }
  split; [apply (table_update pt (Z.to_nat i) p q parts); try done; unfold q; simpl; lia |].
  assert (Hlt : (Z.to_nat i < length (entries pt))%nat) by by eapply lookup_lt_Some.
  split; [| split]; rewrite E.
  - apply list_eq. intros j. rewrite !list_lookup_fmap. destruct (decide (j = Z.to_nat i)) as [-> | Nj].
    + rewrite list_lookup_insert_eq, L by done. done.
    + by rewrite list_lookup_insert_ne.
  - intros x Hx. apply list_elem_of_singleton in Hx as ->. exists q. split; [| split; [done | by apply part_differs_false]].
    eapply list_elem_of_lookup_2, list_lookup_insert_eq. done.
  - intros x Hx Nx. apply list_elem_of_lookup in Hx as [j Lj]. apply list_elem_of_lookup. exists j.
    rewrite list_lookup_insert_ne; [done |]. intros <-. apply Nx. rewrite L in Lj. injection Lj as <-.
    rewrite N. apply list_elem_of_singleton. done.
Qed.

Lemma modified_nil pt : modified pt pt [].
Proof. split; [done |]. split; [intros q Hq; inversion Hq | done]. Qed.

Lemma modified_trans pt1 pt2 pt3 node l : modified pt1 pt2 [node] -> modified pt2 pt3 l ->
  pt_name node ∉ pt_name <$> l -> modified pt1 pt3 (node :: l).
Proof.
  intros (N1 & M1 & K1) (N2 & M2 & K2) Nn. split; [by rewrite N2 |]. split.
  - intros q Hq. apply elem_of_cons in Hq as [-> | Hq]; [| by apply M2].
    destruct (M1 node) as (p & Hp & En & Ed); [left |]. exists p. split; [| done]. apply K2; [done |]. by rewrite En.
  - intros p Hp Np. rewrite fmap_cons, not_elem_of_cons in Np. destruct Np. apply K2; [| done].
    apply K1; [done |]. apply not_elem_of_cons. split; [done | apply not_elem_of_nil].
Qed.
Lemma modify_loop_ok n : forall nodes ret pt d,
  length nodes = n -> table_ok pt -> Forall fields_ok nodes -> NoDup (pt_name <$> nodes) ->
  exists r pt', modify_loop info n true nodes ret pt d = Some (r, pt', d) /\ table_ok pt' /\
    (r = inr ret /\ modified pt pt' nodes \/ r = inl (- EINVAL) /\ pt_name <$> entries pt' = pt_name <$> entries pt).
Proof.
  induction n as [| n IH]; intros nodes ret pt d Hl T Hf Hn; simpl.
  { apply length_zero_iff_nil in Hl as ->. exists (inr ret), pt. split; [done |]. split; [done |]. left. split; [done | apply modified_nil]. }
  destruct (pick_valid info pt nodes) as [[node rest] |] eqn:P; [| by exists (inl (- EINVAL)), pt; auto].
  apply pick_valid_some in P as [V Pm].
  rewrite Pm in Hf. apply Forall_cons in Hf as [Hf Hfs].
  assert (Hn' : NoDup (pt_name <$> node :: rest)) by by rewrite <- Pm.
  rewrite fmap_cons in Hn'. apply NoDup_cons in Hn' as [Nn Hn'].
  assert (Hl' : length rest = n) by (apply Permutation_length in Pm; simpl in Pm; lia).
  assert (PM : forall pt', modified pt pt' (node :: rest) -> modified pt pt' nodes).
  { intros pt' (A & B & C). split; [done |]. split; [intros q; rewrite Pm; apply B | intros p Hp; rewrite Pm; by apply C]. }
  destruct (nandpart_findPart pt (pt_name node)) as [i |] eqn:F; [| by exists (inl (- EINVAL)), pt; auto].
  pose proof F as F'. apply find_loop_some in F' as (p & Hi & L & N). rewrite Z.sub_0_r in L.
  destruct (entry_update pt i p node T L Hi) as (_ & _ & R & _). rewrite R. cbn [mbind option_bind].
  destruct (part_differs p node) eqn:Df.
  - destruct (modify_step pt node i p T Hf V F R) as (parts & W & T' & M).
    cbn [mbind option_bind]. change (0 <? 0) with false. rewrite W. cbn [mbind option_bind].
    destruct (IH rest ret _ d Hl' T' Hfs Hn') as (r & pt' & -> & T2 & [[-> M2] | [-> E2]]).
    + exists (inr ret), pt'. split; [done |]. split; [done |]. left. split; [done |]. apply PM. by eapply modified_trans.
    + exists (inl (- EINVAL)), pt'. split; [done |]. split; [done |]. right. split; [done |]. rewrite E2. apply M.
  - destruct (IH rest ret pt d Hl' T Hfs Hn') as (r & pt' & -> & T2 & [[-> M2] | [-> E2]]).
    + exists (inr ret), pt'. split; [done |]. split; [done |]. left. split; [done |]. apply PM.
      apply (modified_trans pt pt); [| done | done]. split; [done |]. split; [| done].
      intros q Hq. apply list_elem_of_singleton in Hq as ->. exists p. split; [by eapply list_elem_of_lookup_2 | done].
    + by exists (inl (- EINVAL)), pt'; auto.
Qed.

(** On table files, a list of modifications of distinct partitions is applied as
    a whole or refused; the table keeps its entries and their names and stays
    consistent: no entry leaves the device, none overlap. *)
Theorem modify_keeps_table mods pt (d : D) :
  table_ok pt -> Forall fields_ok mods -> NoDup (pt_name <$> mods) ->
  exists err pt', nandpart_processActions info true (Actions [] mods []) pt d = Some (err, pt', d) /\ table_ok pt' /\
    pt_name <$> entries pt' = pt_name <$> entries pt /\
    (err = 0 /\ modified pt pt' mods \/ err = - EINVAL).
Proof.
  intros T Hf Hn. unfold nandpart_processActions. cbn [ac_rem ac_mod ac_add remove_loop].
  destruct (_ <? zlen []); [by exists (- EINVAL), pt; auto |].
  destruct (_ <? zlen mods); [by exists (- EINVAL), pt; auto |].
  destruct (fi_writesz info <? _); [by exists (- EINVAL), pt; auto |]. cbn [mbind option_bind].
  destruct (modify_loop_ok (length mods) mods 0 pt d eq_refl T Hf Hn) as (r & pt' & -> & T' & [[-> M] | [-> E]]); cbn [mbind option_bind].
  - exists 0, pt'. split; [done |]. split; [done |]. split; [apply M | by left].
  - exists (- EINVAL), pt'. auto.
Qed.

(** ** Removing and adding *)

(** Removing an entry that is not the last one does not close the gap: the slots
    [sizeof(ptable_part_t)] entries further are copied, so the removed entry's place
    gets a slot behind the table. *)
Theorem remove_takes_unused_slot pt i name p (d : D) :
  0 <= i < pt_count pt - 1 -> nandpart_findPart pt name = Some i ->
  pt_count pt <= part_sz -> i + part_sz + (pt_count pt - (i + 1)) <= zlen (pt_parts pt) ->
  ptable_size (u32 (pt_count pt - 1)) <= fi_writesz info -> rd (pt_parts pt) (i + part_sz) = Some p ->
  exists pt', nandpart_processActions info true (Actions [] [] [Part name 0 0 0]) pt d = Some (0, pt', d) /\
    pt_count pt' = pt_count pt - 1 /\ pt_count pt <= i + part_sz /\ entries pt' !! Z.to_nat i = Some p.
Proof.
  intros Hi F Hs Hb Hw R. unfold nandpart_processActions. cbn [ac_rem ac_mod ac_add].
  change (zlen [Part name 0 0 0]) with 1. change (zlen (@nil ptable_part_t)) with 0. rewrite Z.add_0_r.
  rewrite (proj2 (Z.ltb_ge (pt_count pt) 1)), (proj2 (Z.ltb_ge (pt_count pt - 1) 0)), (proj2 (Z.ltb_ge _ _)) by lia.
  cbn [remove_loop pt_name]. rewrite F. unfold remove_entry.
  rewrite (proj2 (Z.eqb_neq (pt_count pt - (i + 1)) 0)), (proj2 (Z.ltb_ge part_sz (pt_count pt - (i + 1)))) by lia.
  set (n := pt_count pt - (i + 1)) in *.
  destruct (rd_range (pt_parts pt) (i + part_sz) n) as [data |] eqn:E.
  2: { assert (is_Some (rd_range (pt_parts pt) (i + part_sz) n)) as [? ?] by (apply rd_range_is_Some; lia). congruence. }
  pose proof (rd_range_zlen _ _ _ _ E) as Ld.
  unfold memcpy. rewrite E. cbn [mbind option_bind]. unfold wr_range. rewrite (proj2 (Z.leb_le 0 i)), (proj2 (Z.leb_le _ _)) by lia.
  cbn [andb mbind option_bind modify_loop length]. change (0 =? 0) with true. cbn [mbind option_bind].
  eexists. split; [done |]. split; [done |]. split; [lia |]. unfold entries. cbn [pt_count pt_parts].
  rewrite lookup_take, lookup_app_r by (rewrite length_take; lia).
  rewrite length_take. replace (Z.to_nat i - _)%nat with O by (unfold zlen in *; lia).
  destruct data as [| x data]; [rewrite zlen_nil in Ld; lia |]. simpl. f_equal.
  revert E R. unfold rd_range, rd. bcase; [| done]. bcase; [| done]. intros [= E] R.
  assert (L : take (Z.to_nat n) (drop (Z.to_nat (i + part_sz)) (pt_parts pt)) !! O = Some x) by by rewrite E.
  rewrite lookup_take_Some, lookup_drop, Nat.add_0_r in L. destruct L as [L _].
  rewrite decide_True by lia. congruence.
Qed.
Lemma remove_loop_err output rem : forall ret pt d r pt' d',
  remove_loop info output rem ret pt d = Some (inl r, pt', d') -> r < 0.
Proof.
  induction rem as [| node rem IH]; intros ret pt d r pt' d' E; simpl in E; [done |].
  destruct (nandpart_findPart pt (pt_name node)) as [i |]; [| simplify_eq; by compute].
  destruct (remove_entry pt i) as [pt1 |]; [| done]. simpl in E. destruct output; [by eapply IH |].
  destruct (rd (pt_parts pt1) i); [| done]. simpl in E. destruct (nandpart_umountPart p d) as [? d1].
  destruct (store_table info pt1 d1) as [err d2]. destruct (Z.ltb_spec err 0); [by simplify_eq | by eapply IH].
Qed.

Lemma modify_loop_err output n : forall nodes ret pt d r pt' d',
  modify_loop info n output nodes ret pt d = Some (inl r, pt', d') -> r < 0.
Proof.
  induction n as [| n IH]; intros nodes ret pt d r pt' d' E; simpl in E; [done |].
  destruct (pick_valid info pt nodes) as [[node rest] |]; [| simplify_eq; by compute].
  destruct (nandpart_findPart pt (pt_name node)) as [i |]; [| simplify_eq; by compute].
  destruct (rd (pt_parts pt) i) as [part |]; [| done]. simpl in E. destruct (part_differs part node); [| by eapply IH].
  obind E. destruct x as [err d1]. destruct (Z.ltb_spec err 0); [by simplify_eq |].
  obind E. destruct output; [by eapply IH |].
  destruct (store_table info _ d1) as [err2 d2]. destruct (Z.ltb_spec err2 0); [by simplify_eq | by eapply IH].
Qed.

Lemma add_loop_err output nodes : forall ret pt d r pt' d',
  add_loop info output nodes ret pt d = Some (r, pt', d') -> exists err, r = inl err /\ err < 0.
Proof.
  induction nodes as [| node nodes IH]; intros ret pt d r pt' d' E; simpl in E; [done |].
  obind E. destruct output; [by eapply IH |].
  destruct (store_table info _ d) as [err d1]. destruct (Z.ltb_spec err 0); [simplify_eq; by eexists | by eapply IH].
Qed.

Lemma process_add_err output p adds mods rem pt (d : D) err pt' d' :
  nandpart_processActions info output (Actions (p :: adds) mods rem) pt d = Some (err, pt', d') -> err < 0.
Proof.
  unfold nandpart_processActions. intros E.
  repeat (destruct (_ <? _); [simplify_eq; by compute |]).
  obind E. destruct x as [[r pt1] d1]. destruct r as [r | ret].
  { simplify_eq. by eapply remove_loop_err. }
  obind E. destruct x as [[r pt2] d2]. destruct r as [r | ret2].
  { simplify_eq. by eapply modify_loop_err. }
  change (zlen (ac_add (Actions (p :: adds) mods rem)) =? 0) with false in E. cbv iota in E.
  obind E. destruct x as [[r pt3] d3]. apply add_loop_err in E2 as (e & -> & He). by simplify_eq.
Qed.

(** Adding a partition never succeeds: the run fails or, as the loop counts down
    the wrong list, dereferences [NULL] after the last one; on table files that is
    what always happens. *)
Theorem add_never_succeeds output p adds mods rem pt (d : D) :
  (forall err pt' d',
    nandpart_processActions info output (Actions (p :: adds) mods rem) pt d = Some (err, pt', d') -> err < 0) /\
  (0 <= pt_count pt -> ptable_size (u32 (pt_count pt + zlen (p :: adds))) <= fi_writesz info ->
    nandpart_processActions info true (Actions (p :: adds) [] []) pt d = None).
Proof.
  split; [intros; by eapply process_add_err |]. intros Hc Hw.
  unfold nandpart_processActions. cbn [ac_rem ac_mod ac_add]. change (zlen (@nil ptable_part_t)) with 0.
  rewrite Z.sub_0_r, (proj2 (Z.ltb_ge (pt_count pt) 0)), (proj2 (Z.ltb_ge _ _)) by lia.
  cbn [remove_loop modify_loop mbind option_bind length].
  rewrite (proj2 (Z.eqb_neq _ _)) by (rewrite zlen_cons; pose proof (zlen_nonneg adds); lia).
  destruct (add_loop info true (p :: adds) 0 pt d) as [[[r pt'] d'] |] eqn:E; [exfalso | done].
  clear Hw Hc. generalize dependent pt. generalize (p :: adds). intros l.
  induction l as [| x l IH]; intros pt E; simpl in E; [done |]. obind E. by eapply IH.
Qed.

(** ** Updating from another table *)

Definition has_part (pt : ptable_t) (p : ptable_part_t) : Prop := pt_name p ∈ pt_name <$> entries pt.
#[export] Instance has_part_dec pt p : Decision (has_part pt p).
Proof. unfold has_part. apply _. Defined.

Lemma find_has pt p : nandpart_findPart pt (pt_name p) = None <-> ~ has_part pt p.
Proof. apply find_loop_none. Qed.

Lemma update_rem_ok parts update : forall k ac,
  exists k', update_rem (fun _ => true) k parts update ac =
    (inr k', Actions (ac_add ac) (ac_mod ac) (ac_rem ac ++ filter (fun p => ~ has_part update p) parts)).
Proof.
  induction parts as [| p parts IH]; intros k ac; simpl.
  { exists k. rewrite app_nil_r. by destruct ac. }
  pose proof (find_has update p) as F. destruct (nandpart_findPart update (pt_name p)) as [i |].
  - destruct (IH k ac) as [k' ->]. exists k'. rewrite filter_cons_False; [done |]. intros N. by apply F in N.
  - destruct (IH (k + 1) (Actions (ac_add ac) (ac_mod ac) (ac_rem ac ++ [p]))) as [k' ->]. exists k'.
    rewrite filter_cons_True by tauto. simpl. by rewrite <- app_assoc.
Qed.

Lemma update_mod_ok mods pt : forall k ac, update_mod (fun _ => true) k mods pt ac =
  (0, Actions (ac_add ac ++ filter (fun p => ~ has_part pt p) mods) (ac_mod ac ++ filter (has_part pt) mods) (ac_rem ac)).
Proof.
  induction mods as [| p mods IH]; intros k ac; simpl.
  { rewrite !app_nil_r. by destruct ac. }
  pose proof (find_has pt p) as F. destruct (nandpart_findPart pt (pt_name p)) as [i |].
  - assert (has_part pt p). { destruct (decide (has_part pt p)) as [? | N]; [done | by apply F in N]. }
    rewrite IH. rewrite filter_cons_False, filter_cons_True by tauto. simpl. by rewrite <- app_assoc.
  - rewrite IH. rewrite filter_cons_True, filter_cons_False by tauto. simpl. by rewrite <- app_assoc.
Qed.

(** Updating a table from another removes the partitions that are only in the
    old one, adds those only in the new one and modifies the others, each in table
    order, after the actions of the command line. *)
Theorem update_splits pt update ac :
  nandpart_updatePtable (fun _ => true) pt update ac =
    (0, Actions (ac_add ac ++ filter (fun p => ~ has_part pt p) (entries update))
                (ac_mod ac ++ filter (has_part pt) (entries update))
                (ac_rem ac ++ filter (fun p => ~ has_part update p) (entries pt))).
Proof.
  unfold nandpart_updatePtable. destruct (update_rem_ok (entries pt) update 0 ac) as [k ->]. apply update_mod_ok.
Qed.
End spec.

(** ** Concrete tables *)

#[local] Instance ex_flash : Flash unit := {
  msgSend _ d := (Reply 0 0 [], d);
  dev_read _ _ d := ((0, []), d);
  dev_write _ _ d := (0, d);
  dev_seek off d := (off, d);
}.

#[local] Instance ex_lib : PtableLib unit := {
  part_namesz := 8;
  part_sz := 24;
  ptable_raw := 0;
  ptable_jffs2 := 1;
  ptable_meterfs := 2;
  ptable_size n := 16 + 24 * n;
  ptable_view _ := Ptable 0 [];
  ptable_bytes _ := [];
  ptable_serialize _ _ _ := (0, []);
  ptable_deserialize _ _ _ := (0, Ptable 0 []);
  umount _ d := (0, d);
}.

Definition ex_info : flash_info := Info 64 4096 8 8.
Definition ex_a : ptable_part_t := Part (bstr "a") 0 16 0.
Definition ex_b : ptable_part_t := Part (bstr "b") 16 16 0.
Definition ex_slot : ptable_part_t := Part (bstr "?") 0 0 0.
Definition ex_table : ptable_t := Ptable 2 (ex_a :: ex_b :: replicate 40 ex_slot).

Lemma ex_table_ok : table_ok ex_info ex_table.
Proof.
  split; [by vm_compute | by repeat constructor | |].
  - apply (bool_decide_unpack _). by vm_compute.
  - intros i j p q N Li Lj. destruct i as [| [| i]], j as [| [| j]]; try done; simpl in *; simplify_eq; unfold disjoint; simpl; lia.
Qed.

Lemma parsePart_roundtrip_witness :
  nandpart_parsePart (D := unit) 32 (bstr "data:16:48:jffs3") = Some (Part (bstr "data") 16 48 255).
Proof.
  assert (58 ∉ bstr "data") as N by (apply (bool_decide_unpack _); by vm_compute).
  destruct (parsePart_roundtrip (D := unit) 32 (bstr "data") 16 48 (bstr "jffs3")) as [E _];
    [lia | done | by vm_compute | lia | lia | by repeat constructor |].
  exact E.
Defined.

Lemma verifyPart_sound_witness :
  acceptable ex_info ex_table (Part (bstr "b") 24 16 0) /\ ~ acceptable ex_info ex_table (Part (bstr "b") 8 16 0).
Proof.
  assert (forall off, 0 <= off < 100 -> nandpart_verifyPart ex_info ex_table (Part (bstr "b") off 16 0) = 0 <->
    acceptable ex_info ex_table (Part (bstr "b") off 16 0)) as V.
  { intros. apply verifyPart_sound; [simpl; lia | simpl; lia |]. by repeat constructor. }
  split; [apply V; [lia | by vm_compute] |]. intros A. apply V in A; [| lia]. by vm_compute in A.
Defined.

Lemma modify_keeps_table_witness :
  exists err pt', nandpart_processActions ex_info true
      (Actions [] [Part (bstr "a") 0 24 0; Part (bstr "b") 32 16 0] []) ex_table () = Some (err, pt', ()) /\
    table_ok ex_info pt' /\ pt_name <$> entries pt' = [bstr "a"; bstr "b"] /\
    (err = 0 /\ modified ex_table pt' [Part (bstr "a") 0 24 0; Part (bstr "b") 32 16 0] \/ err = - EINVAL).
Proof.
  apply modify_keeps_table; [apply ex_table_ok | by repeat constructor |].
  apply (bool_decide_unpack _). by vm_compute.
Defined.

Lemma remove_takes_unused_slot_witness :
  exists pt', nandpart_processActions ex_info true (Actions [] [] [Part (bstr "a") 0 0 0]) ex_table () = Some (0, pt', ()) /\
    pt_count pt' = 1 /\ entries pt' !! 0%nat = Some ex_slot.
Proof.
  destruct (remove_takes_unused_slot ex_info ex_table 0 (bstr "a") ex_slot ()) as (pt' & E & C & _ & L);
    [by vm_compute.. |]. by exists pt'.
Defined.

Lemma add_never_succeeds_witness :
  nandpart_processActions ex_info true (Actions [Part (bstr "c") 32 16 0] [] []) ex_table () = None.
Proof. apply (add_never_succeeds ex_info true (Part (bstr "c") 32 16 0) [] [] [] ex_table ()); by vm_compute. Defined.
