(* ===== verification/Stream.v ===== *)
(** * Streams

    A [FILE] opened for update and the monad of the code that works on one: an
    operation returns a result, fails (the C function returns [-1] or [0]) or is
    undefined. *)

From S2P Require Import Prelude.

(** The contents, the position and, if the device is going to fail, the number of
    operations that still work. *)
Record stream := Stream { st_data : bytes; st_pos : Z; st_left : option nat }.

Inductive res (A : Type) := Ok (a : A) | Failed | Undef.
Arguments Ok {A}.
Arguments Failed {A}.
Arguments Undef {A}.

Definition M (A : Type) : Type := stream -> res A * stream.

#[export] Instance M_ret : MRet M := fun A a s => (Ok a, s).
#[export] Instance M_bind : MBind M := fun A B f m s =>
  match m s with
  | (Ok a, s) => f a s
  | (Failed, s) => (Failed, s)
  | (Undef, s) => (Undef, s)
  end.

Definition failed {A} : M A := fun s => (Failed, s).
(** An access outside an object is undefined. *)
Definition lift {A} (o : option A) : M A := fun s => (match o with Some a => Ok a | None => Undef end, s).
(** The result of [m] is ignored. *)
Definition try (m : M unit) : M unit := fun s =>
  match m s with (Undef, s) => (Undef, s) | (_, s) => (Ok tt, s) end.

Definition tick : M unit := fun s =>
  match st_left s with
  | None => (Ok tt, s)
  | Some O => (Failed, s)
  | Some (Datatypes.S k) => (Ok tt, Stream (st_data s) (st_pos s) (Some k))
  end.

(** An operation of the device. *)
Definition op {A} (f : M A) : M A := tick;; f.

Definition fseek (off : Z) : M unit :=
  op (fun s => if off <? 0 then (Failed, s) else (Ok tt, Stream (st_data s) off (st_left s))).

Definition ftell : M Z := fun s => (Ok (st_pos s), s).

Definition slice (l : bytes) (p n : Z) : bytes := take (Z.to_nat n) (drop (Z.to_nat p) l).

(** [fread] of one element of [n] bytes. *)
Definition fread (n : Z) : M bytes :=
  op (fun s =>
    if st_pos s + n <=? zlen (st_data s)
    then (Ok (slice (st_data s) (st_pos s) n), Stream (st_data s) (st_pos s + n) (st_left s))
    else (Failed, Stream (st_data s) (Z.max (st_pos s) (zlen (st_data s))) (st_left s))).

(** Writing at [p] overwrites, and extends the file with zeros up to there. *)
Definition splice (l : bytes) (p : Z) (d : bytes) : bytes :=
  take (Z.to_nat p) (l ++ replicate (Z.to_nat (p - zlen l)) 0) ++ d ++ drop (Z.to_nat p + length d) l.

Definition fwrite (d : bytes) : M unit :=
  op (fun s => (Ok tt, Stream (splice (st_data s) (st_pos s) d) (st_pos s + zlen d) (st_left s))).

(** [for (i = lo; i < lo + k; i++) body(i)] and the loop from the top down. *)
Fixpoint for_up (lo : Z) (k : nat) (body : Z -> M unit) : M unit :=
  match k with
  | O => mret tt
  | Datatypes.S k => body lo;; for_up (lo + 1) k body
  end.

Fixpoint for_down (k : nat) (body : Z -> M unit) : M unit :=
  match k with
  | O => mret tt
  | Datatypes.S k => body (Z.of_nat k);; for_down k body
  end.

(** ** Working streams *)

Lemma bind_ok {A B} (f : A -> M B) (m : M A) s a s' : m s = (Ok a, s') -> (m ≫= f) s = f a s'.
Proof. intros E. unfold mbind, M_bind. by rewrite E. Qed.

Lemma bind_lift {A B} (f : A -> M B) a s : (lift (Some a) ≫= f) s = f a s.
Proof. done. Qed.
Lemma bind_ret {A B} (f : A -> M B) a s : (mret a ≫= f) s = f a s.
Proof. done. Qed.
Lemma bind_ftell {B} (f : Z -> M B) s : (ftell ≫= f) s = f (st_pos s) s.
Proof. done. Qed.

Lemma fseek_ok off l p : 0 <= off -> fseek off (Stream l p None) = (Ok tt, Stream l off None).
Proof. intros. unfold fseek, op, mbind, M_bind. simpl. by rewrite (proj2 (Z.ltb_ge _ _)). Qed.

Lemma fread_ok n l p : p + n <= zlen l -> fread n (Stream l p None) = (Ok (slice l p n), Stream l (p + n) None).
Proof. intros. unfold fread, op, mbind, M_bind. simpl. by rewrite (proj2 (Z.leb_le _ _)). Qed.

Lemma fwrite_ok d l p : fwrite d (Stream l p None) = (Ok tt, Stream (splice l p d) (p + zlen d) None).
Proof. done. Qed.

Lemma splice_app a b c d p : p = zlen a -> zlen b = zlen d -> splice (a ++ b ++ c) p d = a ++ d ++ c.
Proof.
  intros -> E. unfold splice. pose proof (zlen_nonneg b). pose proof (zlen_nonneg c). rewrite !zlen_app.
  replace (Z.to_nat (zlen a - _)) with O by lia. rewrite app_nil_r, take_zlen_app. do 2 f_equal.
  rewrite app_assoc. apply drop_app_length'. rewrite length_app. unfold zlen in *. lia.
Qed.

Lemma slice_app a b c p n : p = zlen a -> n = zlen b -> slice (a ++ b ++ c) p n = b.
Proof. intros -> ->. unfold slice. by rewrite drop_zlen_app, take_zlen_app. Qed.

(** A list cut at [p] and [p + n]. *)
Lemma cut_list (l : bytes) p n : 0 <= p -> 0 <= n -> p + n <= zlen l ->
  exists a b c, l = a ++ b ++ c /\ zlen a = p /\ zlen b = n.
Proof.
  intros. exists (take (Z.to_nat p) l), (take (Z.to_nat n) (drop (Z.to_nat p) l)), (drop (Z.to_nat n) (drop (Z.to_nat p) l)).
  rewrite !take_drop. split; [done |]. rewrite !zlen_take, zlen_drop. lia.
Qed.

Lemma zlen_splice l p d : 0 <= p -> p + zlen d <= zlen l -> zlen (splice l p d) = zlen l.
Proof.
  intros. destruct (cut_list l p (zlen d)) as (a & b & c & -> & Ha & Hb); [lia | apply zlen_nonneg | lia |].
  rewrite splice_app by done. rewrite !zlen_app. lia.
Qed.

Lemma splice_nil l p : 0 <= p <= zlen l -> splice l p [] = l.
Proof.
  intros. destruct (cut_list l p 0) as (a & b & c & -> & Ha & Hb); [lia.. |].
  apply zlen_0_nil in Hb as ->. by rewrite splice_app.
Qed.

Lemma splice_splice l p d e q : 0 <= p -> q = p + zlen d -> p + zlen (d ++ e) <= zlen l ->
  splice (splice l p d) q e = splice l p (d ++ e).
Proof.
  intros Hp -> Hl. rewrite zlen_app in Hl. pose proof (zlen_nonneg d). pose proof (zlen_nonneg e).
  destruct (cut_list l p (zlen d)) as (a & b & r & -> & Ha & Hb); [lia.. |].
  destruct (cut_list r 0 (zlen e)) as (z & c & f & -> & Hz & Hc); [lia.. | rewrite !zlen_app in Hl; lia |].
  apply zlen_0_nil in Hz as ->. simpl.
  rewrite splice_app by done. rewrite (app_assoc a d), splice_app by (rewrite ?zlen_app; lia).
  rewrite (app_assoc b c), splice_app by (rewrite ?zlen_app; lia). by rewrite <- !app_assoc.
Qed.

Lemma slice_full l : slice l 0 (zlen l) = l.
Proof. unfold slice, zlen. rewrite Nat2Z.id. by rewrite drop_0, firstn_all. Qed.

Lemma zlen_slice l p n : 0 <= p -> 0 <= n -> p + n <= zlen l -> zlen (slice l p n) = n.
Proof. intros. unfold slice. rewrite zlen_take, zlen_drop. lia. Qed.

Lemma slice_slice l p n q m : 0 <= p -> 0 <= q -> 0 <= m -> q + m <= n -> slice (slice l p n) q m = slice l (p + q) m.
Proof.
  intros. unfold slice. rewrite skipn_firstn_comm, take_take, drop_drop.
  f_equal; [lia |]. f_equal. lia.
Qed.

Lemma slice_cat l p n m : 0 <= p -> 0 <= n -> 0 <= m -> slice l p n ++ slice l (p + n) m = slice l p (n + m).
Proof.
  intros. unfold slice. rewrite !Z2Nat.inj_add by lia. rewrite <- (drop_drop l).
  by rewrite <- take_take_drop.
Qed.

Lemma rd_range_slice (l : bytes) p n : 0 <= p -> 0 <= n -> p + n <= zlen l -> rd_range l p n = Some (slice l p n).
Proof.
  intros. unfold rd_range. by rewrite (proj2 (Z.leb_le 0 p)), (proj2 (Z.leb_le 0 n)), (proj2 (Z.leb_le _ _)) by lia.
Qed.

(** What a write leaves alone. *)
Lemma slice_splice_before l p d q n : 0 <= q -> 0 <= n -> q + n <= p -> p + zlen d <= zlen l ->
  slice (splice l p d) q n = slice l q n.
Proof.
  intros. destruct (cut_list l p (zlen d)) as (a & b & c & -> & Ha & Hb); [lia | apply zlen_nonneg | lia |].
  rewrite splice_app by done. destruct (cut_list a q n) as (x & y & z & -> & Hx & Hy); [lia.. |].
  rewrite <- !app_assoc. by rewrite !slice_app.
Qed.

Lemma slice_splice_after l p d q n : 0 <= p -> p + zlen d <= q -> 0 <= n -> q + n <= zlen l ->
  slice (splice l p d) q n = slice l q n.
Proof.
  intros. pose proof (zlen_nonneg d).
  destruct (cut_list l p (zlen d)) as (a & b & c & -> & Ha & Hb); [lia.. |].
  rewrite splice_app by done. rewrite !zlen_app in *.
  destruct (cut_list c (q - p - zlen d) n) as (x & y & z & -> & Hx & Hy); [lia.. |].
  rewrite (app_assoc a d), (app_assoc a b), (app_assoc _ x (y ++ z)), (app_assoc _ x (y ++ z)).
  by rewrite !slice_app by (rewrite ?zlen_app; lia).
Qed.

Lemma slice_splice_same l p d : 0 <= p -> p + zlen d <= zlen l -> slice (splice l p d) p (zlen d) = d.
Proof.
  intros. destruct (cut_list l p (zlen d)) as (a & b & c & -> & Ha & Hb); [lia | apply zlen_nonneg | lia |].
  rewrite splice_app by done. by rewrite slice_app.
Qed.

(** A part of what was written. *)
Lemma slice_splice_in l p d q n : 0 <= p -> 0 <= q -> 0 <= n -> q + n <= zlen d -> p + zlen d <= zlen l ->
  slice (splice l p d) (p + q) n = slice d q n.
Proof.
  intros. destruct (cut_list l p (zlen d)) as (a & b & c & -> & Ha & Hb); [lia | apply zlen_nonneg | lia |].
  rewrite splice_app by done. destruct (cut_list d q n) as (x & y & z & -> & Hx & Hy); [lia.. |].
  rewrite (slice_app x y z) by lia. rewrite <- !app_assoc, (app_assoc a x). apply slice_app; [rewrite zlen_app; lia | lia].
Qed.

(** One working [fseek] or [fread]; [tac] proves that it is in range. *)
Ltac stream_step tac :=
  match goal with
  | |- context [mbind ?f (fseek ?off) (Stream ?l ?p None)] =>
      rewrite (bind_ok f (fseek off) (Stream l p None) tt (Stream l off None)) by (apply fseek_ok; tac)
  | |- context [mbind ?f (fread ?n) (Stream ?l ?p None)] =>
      rewrite (bind_ok f (fread n) (Stream l p None) (slice l p n) (Stream l (p + n) None)) by (apply fread_ok; tac)
  end.
