(* ===== verification/Migrate.v ===== *)
(** * The meterfs migration tool ([meterfs-migrate/migrate.c])

    The conversion of a partition from the old format of meterfs, whose records have
    no checksum, to the new one, in place, on a [FILE]. *)

From S2P Require Import Prelude.
From S2P Require Import Stream.

Definition SIZE_SECTOR : Z := 4096.
Definition HGRAIN : Z := 32.
Definition HEADER_SECTOR_CNT : Z := 2.

(** ** Data on the device, little endian and packed *)

Fixpoint le_bytes (n : nat) (x : Z) : bytes :=
  match n with O => [] | Datatypes.S n => (x mod 256) :: le_bytes n (x / 256) end.
Fixpoint le_value (b : bytes) : Z :=
  match b with [] => 0 | c :: b => c + 256 * le_value b end.

Definition put32 : Z -> bytes := le_bytes 4.
Definition get32 (b : bytes) (off : Z) : Z := le_value (slice b off 4).

(** Bit 0 is [nvalid], the others are [no]. *)
Record index_t := Index { ix_nvalid : Z; ix_no : Z }.
Definition put_index (i : index_t) : bytes := put32 (ix_nvalid i + 2 * ix_no i).
Definition get_index (b : bytes) (off : Z) : index_t := Index (get32 b off mod 2) (get32 b off / 2).

Record fileheader_t := FileHeader {
  fh_sector : Z; fh_sectorcnt : Z; fh_filesz : Z; fh_recordsz : Z; fh_name : bytes }.
Definition FILEHEADER : Z := 24.
Definition put_fileheader (f : fileheader_t) : bytes :=
  put32 (fh_sector f) ++ put32 (fh_sectorcnt f) ++ put32 (fh_filesz f) ++ put32 (fh_recordsz f) ++ fh_name f.
Definition get_fileheader (b : bytes) : fileheader_t :=
  FileHeader (get32 b 0) (get32 b 4) (get32 b 8) (get32 b 12) (slice b 16 8).

Record header_old_t := HeaderOld { ho_id : index_t; ho_filecnt : Z; ho_magic : bytes }.
Definition HEADER_OLD : Z := 12.
Definition get_header_old (b : bytes) : header_old_t := HeaderOld (get_index b 0) (get32 b 4) (slice b 8 4).

Record header_t := Header { hd_id : index_t; hd_filecnt : Z; hd_checksum : Z; hd_magic : bytes }.
Definition HEADER : Z := 16.
Definition put_header (h : header_t) : bytes :=
  put_index (hd_id h) ++ put32 (hd_filecnt h) ++ put32 (hd_checksum h) ++ hd_magic h.

(** [sizeof(entry_t)] and [sizeof(entry_old_t)]: what precedes the data. *)
Definition ENTRY : Z := 8.
Definition ENTRY_OLD : Z := 4.

Definition magicConst : bytes := [102; 65; 75; 187].
Definition oldMagicConst : bytes := [170; 65; 75; 85].

(** ** Writing in whole sectors *)

(** [part]: the sector at [tmp] is read, the bytes [ptr[o, o + n)] put at [off] in it,
    and written back. *)
Definition patch_sector (tmp off : Z) (ptr : bytes) (o n : Z) : M unit :=
  chunkbuff ← fread SIZE_SECTOR;
  chunkbuff ← lift (memcpy chunkbuff off ptr o n);
  fseek tmp;;
  fwrite chunkbuff.

(** [while (tsize >= SIZE_SECTOR)]: the new offset and size. *)
Fixpoint write_sectors (fuel : nat) (ptr : bytes) (offset tsize : Z) : M (Z * Z) :=
  match fuel with
  | O => mret (offset, tsize)
  | Datatypes.S fuel =>
      if tsize <? SIZE_SECTOR then mret (offset, tsize)
      else
        chunk ← lift (rd_range ptr offset SIZE_SECTOR);
        fwrite chunk;;
        write_sectors fuel ptr (offset + SIZE_SECTOR) (tsize - SIZE_SECTOR)
  end.

Definition fwrite_workaround (ptr : bytes) : M unit :=
  let tsize := zlen ptr in
  pos ← ftell;
  let missalign := Z.rem pos SIZE_SECTOR in
  '(offset, tsize) ←
    (if negb (missalign =? 0) then
       let tmp := pos - missalign in
       let chunk := Z.min (SIZE_SECTOR - missalign) tsize in
       fseek tmp;;
       patch_sector tmp missalign ptr 0 chunk;;
       mret (chunk, tsize - chunk)
     else mret (0, tsize));
  '(offset, tsize) ← write_sectors (Z.to_nat (tsize / SIZE_SECTOR)) ptr offset tsize;
  (if negb (tsize =? 0) then tmp ← ftell; patch_sector tmp 0 ptr offset tsize else mret tt);;
  try (fseek (pos + zlen ptr)).

(** ** The partition *)

(** An [uint8_t]. *)
Definition calcChecksum (b : bytes) : Z := fold_left Z.lxor b 0.

Section migrate.
Context (partOffset : Z).

(** The header and which of the two copies it is. *)
Definition getOldHeader : M (Z * header_old_t) :=
  fseek partOffset;;
  b ← fread HEADER_OLD;
  fseek (partOffset + HEADER_SECTOR_CNT * SIZE_SECTOR);;
  t ← fread HEADER_OLD;
  let h := get_header_old b in
  let temp := get_header_old t in
  let second :=
    negb (ix_nvalid (ho_id h) =? 0) ||
    ((ix_nvalid (ho_id temp) =? 0) && (ix_no (ho_id h) <? ix_no (ho_id temp))) in
  let '(ret, h) := if second : bool then (1, temp) else (0, h) in
  if negb (ix_nvalid (ho_id h) =? 0) then failed else mret (ret, h).

Fixpoint getOldFiles_loop (whichHeader i : Z) (k : nat) : M (list fileheader_t) :=
  match k with
  | O => mret []
  | Datatypes.S k =>
      fseek (partOffset + u32 (whichHeader * HEADER_SECTOR_CNT * SIZE_SECTOR + (i + 1) * HGRAIN));;
      b ← fread FILEHEADER;
      fs ← getOldFiles_loop whichHeader (i + 1) k;
      mret (get_fileheader b :: fs)
  end.
Definition getOldFiles (whichHeader count : Z) : M (list fileheader_t) :=
  getOldFiles_loop whichHeader 0 (Z.to_nat count).

(** [None] divides by zero. *)
Definition minSectorCnt (f : fileheader_t) : option Z :=
  if fh_recordsz f =? 0 then None
  else
    let nrecords := fh_filesz f / fh_recordsz f in
    let bytes := u32 (nrecords * u32 (fh_recordsz f + ENTRY)) in
    Some (u32 (u32 (bytes + (SIZE_SECTOR - 1)) / SIZE_SECTOR + 1)).

Definition sector_pos (sector : Z) : Z := partOffset + u32 (sector * SIZE_SECTOR).

Definition copySector (dest src : Z) : M unit :=
  fseek (sector_pos src);;
  buff ← fread SIZE_SECTOR;
  fseek (sector_pos dest);;
  fwrite_workaround buff.

Definition eraseSector (sector : Z) : M unit :=
  fseek (sector_pos sector);;
  fwrite_workaround (replicate (Z.to_nat SIZE_SECTOR) 255).

(** The loop runs from [nsectors] down to 0, both included. *)
Fixpoint moveSectors_loop (k : nat) (from diff : Z) : M unit :=
  match k with
  | O => mret tt
  | Datatypes.S k => copySector (u32 (from + Z.of_nat k + diff)) (u32 (from + Z.of_nat k));; moveSectors_loop k from diff
  end.
Definition moveSectors (from nsectors diff : Z) : M unit :=
  moveSectors_loop (Z.to_nat (s32 nsectors + 1)) from diff.

Definition set_sector (x : Z) (f : fileheader_t) : fileheader_t :=
  FileHeader x (fh_sectorcnt f) (fh_filesz f) (fh_recordsz f) (fh_name f).
Definition set_sectorcnt (x : Z) (f : fileheader_t) : fileheader_t :=
  FileHeader (fh_sector f) x (fh_filesz f) (fh_recordsz f) (fh_name f).

(** Moves the [k] files above [id], the last one first. *)
Fixpoint move_above (k : nat) (id diff : Z) (f : list fileheader_t) : M (list fileheader_t) :=
  match k with
  | O => mret f
  | Datatypes.S k =>
      let i := id + 1 + Z.of_nat k in
      x ← lift (rd f i);
      moveSectors (fh_sector x) (fh_sectorcnt x) diff;;
      f ← lift (wr f i (set_sector (u32 (fh_sector x + diff)) x));
      move_above k id diff f
  end.

(** Every round of the last loop erases the same sector. *)
Definition realocateFile (id total : Z) (f : list fileheader_t) : M (list fileheader_t) :=
  x ← lift (rd f id);
  sectorsNeeded ← lift (minSectorCnt x);
  if sectorsNeeded <=? fh_sectorcnt x then mret f
  else
    let diff := sectorsNeeded - fh_sectorcnt x in
    f ← move_above (Z.to_nat (total - 1 - id)) id diff f;
    for_up 0 (Z.to_nat diff) (fun i => eraseSector (u32 (fh_sector x + fh_sectorcnt x - 1 + diff)));;
    lift (wr f id (set_sectorcnt (u32 (fh_sectorcnt x + diff)) x)).

(** ** The new headers *)

Definition xor_all (xs : list Z) : Z := fold_left Z.lxor xs 0.

Definition newheader (oldheader : header_old_t) (checksum : Z) : header_t :=
  Header (Index 0 (ix_no (ho_id oldheader))) (ho_filecnt oldheader) checksum magicConst.

Definition header_checksum (oldheader : header_old_t) (fs : list fileheader_t) : Z :=
  Z.lxor (xor_all ((fun f => calcChecksum (put_fileheader f)) <$> fs))
         (calcChecksum (put_header (newheader oldheader 0))).

(** The file headers of one copy, from file [j] on. *)
Fixpoint write_files (headerOffs j : Z) (fs : list fileheader_t) : M unit :=
  match fs with
  | [] => mret tt
  | f :: fs =>
      fseek (headerOffs + u32 ((j + 1) * HGRAIN));;
      fwrite_workaround (put_fileheader f);;
      write_files headerOffs (j + 1) fs
  end.

Definition updateHeader (oldheader : header_old_t) (f : list fileheader_t) : M unit :=
  let fs := take (Z.to_nat (ho_filecnt oldheader)) f in
  let h := newheader oldheader (header_checksum oldheader fs) in
  for_up 0 2 (fun i =>
    let headerOffs := partOffset + i * HEADER_SECTOR_CNT * SIZE_SECTOR in
    fseek headerOffs;;
    fwrite_workaround (put_header h);;
    write_files headerOffs 0 fs).

(** ** Records *)

(** Both macros use the size of the old entry. *)
Definition RECORD_OLD_OFFS (sector recordsz idx : Z) : Z :=
  u32 (sector * SIZE_SECTOR + idx * (recordsz + ENTRY_OLD)).
Definition RECORD_OFFS (sector recordsz idx : Z) : Z :=
  u32 (sector * SIZE_SECTOR + idx * (recordsz + ENTRY_OLD)).

Definition getRecord (file : fileheader_t) (pos : Z) : M (index_t * bytes) :=
  fseek (partOffset + RECORD_OLD_OFFS (fh_sector file) (fh_recordsz file) pos);;
  b ← fread (fh_recordsz file + ENTRY_OLD);
  mret (get_index b 0, slice b ENTRY_OLD (fh_recordsz file)).

Definition getRecordHeader (file : fileheader_t) (pos : Z) : M index_t :=
  fseek (partOffset + RECORD_OLD_OFFS (fh_sector file) (fh_recordsz file) pos);;
  b ← fread ENTRY_OLD;
  mret (get_index b 0).

Definition put_entry (id : index_t) (data : bytes) : bytes :=
  put_index id ++ put32 (calcChecksum data) ++ data.

Definition writeRecord (sector recordsz pos : Z) (entry : bytes) : M unit :=
  fseek (partOffset + RECORD_OFFS sector recordsz pos);;
  fwrite_workaround entry.

(** The newest valid record: its number and position. *)
Fixpoint latest_loop (k : nat) (file : fileheader_t) (i olidx olpos : Z) : M (Z * Z) :=
  match k with
  | O => mret (olidx, olpos)
  | Datatypes.S k =>
      id ← getRecordHeader file i;
      if negb (ix_nvalid id =? 0) then latest_loop k file (i + 1) olidx olpos
      else if olidx <? ix_no id then latest_loop k file (i + 1) (ix_no id) i
      else latest_loop k file (i + 1) olidx olpos
  end.

(** The [do] loop that looks for the first record, backwards from [ofpos]. *)
Fixpoint first_loop (fuel : nat) (file : fileheader_t) (recordcnt oldrecordmax olidx olpos ofpos : Z) : M Z :=
  match fuel with
  | O => lift None
  | Datatypes.S fuel =>
      let ofpos := if ofpos - 1 <? 0 then oldrecordmax - 1 else ofpos - 1 in
      id ← getRecordHeader file ofpos;
      if negb (ix_nvalid id =? 0) || (olidx - ix_no id =? recordcnt - 1)
      then mret (if ofpos + 1 =? oldrecordmax then 0 else ofpos + 1)
      else if negb (ofpos =? olpos) then first_loop fuel file recordcnt oldrecordmax olidx olpos ofpos
      else mret ofpos
  end.

(** The conversion of at most [k] records from [ofpos] to [olpos] into the free
    sectors. *)
Fixpoint convert_loop (k : nat) (freeSector : Z) (file : fileheader_t) (oldrecordmax olpos i ofpos : Z) : M unit :=
  match k with
  | O => mret tt
  | Datatypes.S k =>
      '(id, data) ← getRecord file ofpos;
      writeRecord freeSector (fh_recordsz file) i (put_entry id data);;
      if ofpos =? olpos then mret tt
      else
        let ofpos := if oldrecordmax <=? ofpos + 1 then 0 else ofpos + 1 in
        convert_loop k freeSector file oldrecordmax olpos (i + 1) ofpos
  end.

Definition updateRecords (mem : bool) (freeSector : Z) (file : fileheader_t) : M unit :=
  if fh_recordsz file =? 0 then lift None
  else
    let recordcnt := fh_filesz file / fh_recordsz file in
    let oldrecordmax := u32 (fh_sectorcnt file * SIZE_SECTOR) / (fh_recordsz file + ENTRY_OLD) in
    if negb mem then failed
    else
      '(olidx, olpos) ← latest_loop (Z.to_nat oldrecordmax) file 0 (-1) 0;
      if olidx <? 0 then mret tt
      else
        ofpos ← (if negb (recordcnt =? 1)
                 then first_loop (Z.to_nat oldrecordmax) file recordcnt oldrecordmax olidx olpos olpos
                 else mret olpos);
        let sectorsNeeded := u32 (u32 (recordcnt * (ENTRY + fh_recordsz file)) + SIZE_SECTOR - 1) / SIZE_SECTOR in
        for_up 0 (Z.to_nat sectorsNeeded) (fun i => eraseSector (freeSector + i));;
        convert_loop (Z.to_nat recordcnt) freeSector file oldrecordmax olpos 0 ofpos;;
        for_up 0 (Z.to_nat (fh_sectorcnt file)) (fun i => eraseSector (fh_sector file + i));;
        for_up 0 (Z.to_nat sectorsNeeded) (fun i => copySector (fh_sector file + i) (freeSector + i)).

(** ** The program, from the old header on *)

Fixpoint realocate_all (k : nat) (total : Z) (f : list fileheader_t) : M (list fileheader_t) :=
  match k with
  | O => mret f
  | Datatypes.S k => f ← realocateFile (Z.of_nat k) total f; realocate_all k total f
  end.

Fixpoint update_all (mem : bool) (freeSector : Z) (fs : list fileheader_t) : M unit :=
  match fs with
  | [] => mret tt
  | f :: fs => updateRecords mem freeSector f;; update_all mem freeSector fs
  end.

(** [Ok] is success, [Failed] is [EXIT_FAILURE]. *)
Definition main (mem mem' : bool) : M unit :=
  '(whichHeader, oldheader) ← getOldHeader;
  if negb (bool_decide (ho_magic oldheader = oldMagicConst)) then failed
  else if ho_filecnt oldheader =? 0 then mret tt
  else if negb mem then failed
  else
    let filecnt := ho_filecnt oldheader in
    files ← getOldFiles whichHeader filecnt;
    first ← lift (rd files 0);
    last ← lift (rd files (filecnt - 1));
    moveSectors (fh_sector first) (u32 (fh_sector last + fh_sectorcnt last)) 2;;
    let files := (fun f => set_sector (u32 (fh_sector f + 2)) f) <$> files in
    eraseSector (2 * HEADER_SECTOR_CNT);;
    eraseSector (2 * HEADER_SECTOR_CNT + 1);;
    files ← realocate_all (Z.to_nat filecnt) filecnt files;
    updateHeader oldheader files;;
    last ← lift (rd files (filecnt - 1));
    update_all mem' (u32 (fh_sector last + fh_sectorcnt last)) files.
End migrate.
