(* ===== verification/MigrateSpec.v ===== *)
(** * What the migration tool does

    Writing in whole sectors is writing; sectors move in order even when the areas
    overlap; the new headers can be read back.  The conversion of the records loses
    the oldest one and damages all but the last. *)

From S2P Require Import Prelude.
From S2P Require Import Stream.
From S2P Require Import Migrate.

(** ** Writing in whole sectors *)

Lemma memcpy_slice (dbuf sbuf : bytes) off o n :
  0 <= off -> 0 <= o -> 0 <= n -> off + n <= zlen dbuf -> o + n <= zlen sbuf ->
  memcpy dbuf off sbuf o n = Some (splice dbuf off (slice sbuf o n)).
Proof.
  intros. unfold memcpy. rewrite rd_range_slice by lia. simpl.
  destruct (cut_list dbuf off n) as (a & b & c & -> & Ha & Hb); [lia.. |].
  pose proof (zlen_slice sbuf o n ltac:(lia) ltac:(lia) ltac:(lia)).
  rewrite splice_app by lia. by apply wr_range_app; lia.
Qed.

(** The sector at [tmp] read, patched and written back is the file patched. *)
Lemma splice_patch l tmp off x : 0 <= tmp -> 0 <= off -> off + zlen x <= SIZE_SECTOR -> tmp + SIZE_SECTOR <= zlen l ->
  splice l tmp (splice (slice l tmp SIZE_SECTOR) off x) = splice l (tmp + off) x.
Proof.
  intros Ht Ho Hx Hl. pose proof (zlen_nonneg x). unfold SIZE_SECTOR in *.
  destruct (cut_list l tmp 4096) as (a & m & e & -> & Ha & Hm); [lia.. |].
  rewrite slice_app by lia. destruct (cut_list m off (zlen x)) as (u & v & w & -> & Hu & Hv); [lia.. |].
  rewrite (splice_app u v w) by lia. rewrite splice_app by zlia.
  rewrite <- !app_assoc, (app_assoc a u (v ++ w ++ e)), splice_app by (rewrite ?zlen_app; lia). by rewrite <- !app_assoc.
Qed.

Lemma patch_sector_ok tmp off ptr o n l :
  0 <= tmp -> 0 <= off -> 0 <= o -> 0 <= n -> off + n <= SIZE_SECTOR -> o + n <= zlen ptr -> tmp + SIZE_SECTOR <= zlen l ->
  patch_sector tmp off ptr o n (Stream l tmp None) =
    (Ok tt, Stream (splice l (tmp + off) (slice ptr o n)) (tmp + SIZE_SECTOR) None).
Proof.
  intros. unfold patch_sector. assert (0 <= SIZE_SECTOR) by by compute.
  rewrite (bind_ok _ _ _ _ _ (fread_ok SIZE_SECTOR l tmp ltac:(lia))).
  pose proof (zlen_slice l tmp SIZE_SECTOR ltac:(lia) ltac:(lia) ltac:(lia)) as Ls.
  rewrite memcpy_slice by lia. rewrite bind_lift.
  rewrite (bind_ok _ _ _ _ _ (fseek_ok tmp l (tmp + SIZE_SECTOR) ltac:(lia))). rewrite fwrite_ok.
  pose proof (zlen_slice ptr o n ltac:(lia) ltac:(lia) ltac:(lia)) as Lp.
  rewrite splice_patch by lia. by rewrite zlen_splice, Ls by lia.
Qed.

Lemma write_sectors_ok ptr l pos fuel : 0 <= pos -> pos + zlen ptr <= zlen l -> forall offset tsize,
  0 <= offset -> offset + tsize = zlen ptr -> 0 <= tsize < SIZE_SECTOR * (Z.of_nat fuel + 1) ->
  exists k, 0 <= k /\ k <= tsize < k + SIZE_SECTOR /\ k mod SIZE_SECTOR = 0 /\
    write_sectors fuel ptr offset tsize (Stream (splice l pos (slice ptr 0 offset)) (pos + offset) None) =
      (Ok (offset + k, tsize - k), Stream (splice l pos (slice ptr 0 (offset + k))) (pos + offset + k) None).
Proof.
  intros Hp Hl. unfold SIZE_SECTOR. induction fuel as [| fuel IH]; intros offset tsize Ho Hs Ht.
  { exists 0. split; [lia |]. split; [lia |]. split; [done |]. rewrite !Z.add_0_r, Z.sub_0_r. done. }
  cbn [write_sectors]. unfold SIZE_SECTOR. destruct (Z.ltb_spec tsize 4096).
  { exists 0. split; [lia |]. split; [lia |]. split; [done |]. rewrite !Z.add_0_r, Z.sub_0_r. done. }
  rewrite rd_range_slice by lia. rewrite bind_lift. rewrite (bind_ok _ _ _ _ _ (fwrite_ok _ _ _)).
  pose proof (zlen_slice ptr 0 offset ltac:(lia) ltac:(lia) ltac:(lia)) as L0.
  pose proof (zlen_slice ptr offset 4096 ltac:(lia) ltac:(lia) ltac:(lia)) as L1.
  assert (E : slice ptr 0 offset ++ slice ptr offset 4096 = slice ptr 0 (offset + 4096)) by (apply (slice_cat ptr 0); lia).
  rewrite splice_splice, E, L1 by (rewrite ?zlen_app; lia).
  destruct (IH (offset + 4096) (tsize - 4096)) as (k & Hk & Hk2 & Hk3 & R); [lia.. |].
  exists (k + 4096). split; [lia |]. split; [lia |]. split; [dlia |].
  replace (pos + offset + 4096) with (pos + (offset + 4096)) by lia. rewrite R.
  replace (offset + 4096 + k) with (offset + (k + 4096)) by lia.
  replace (tsize - 4096 - k) with (tsize - (k + 4096)) by lia.
  by replace (pos + (offset + 4096) + k) with (pos + offset + (k + 4096)) by lia.
Qed.

Lemma fwrite_workaround_ok ptr l pos :
  0 <= pos -> (pos + zlen ptr + (SIZE_SECTOR - 1)) / SIZE_SECTOR * SIZE_SECTOR <= zlen l ->
  fwrite_workaround ptr (Stream l pos None) = (Ok tt, Stream (splice l pos ptr) (pos + zlen ptr) None).
Proof.
  intros Hp Hl. unfold SIZE_SECTOR in Hl. pose proof (zlen_nonneg ptr) as Hz.
  assert (Hl' : pos + zlen ptr <= zlen l) by dlia.
  unfold fwrite_workaround. rewrite bind_ftell; cbn [st_pos]. unfold SIZE_SECTOR.
  rewrite Z.rem_mod_nonneg by lia. set (mis := pos mod 4096).
  (* the first sector *)
  assert (exists o q, 0 <= o <= zlen ptr /\ (o = zlen ptr \/ q = pos + o /\ q mod 4096 = 0) /\
    (if negb (mis =? 0) then
       fseek (pos - mis);; patch_sector (pos - mis) mis ptr 0 (Z.min (4096 - mis) (zlen ptr));;
       mret (Z.min (4096 - mis) (zlen ptr), zlen ptr - Z.min (4096 - mis) (zlen ptr))
     else mret (0, zlen ptr)) (Stream l pos None) =
    (Ok (o, zlen ptr - o), Stream (splice l pos (slice ptr 0 o)) q None))
    as (o & q & Ho & Hal & E).
  { assert (0 <= mis < 4096) by (apply Z.mod_pos_bound; lia).
    destruct (Z.eqb_spec mis 0) as [Em | Em].
    - exists 0, pos. split; [lia |]. split; [right; split; [lia | done] |].
      change (slice ptr 0 0) with (@nil Z). rewrite splice_nil, Z.sub_0_r by lia. done.
    - exists (Z.min (4096 - mis) (zlen ptr)), (pos - mis + 4096).
      split; [lia |]. split; [unfold mis in *; dlia |].
      assert (0 <= pos - mis) by (unfold mis in *; dlia).
      assert (pos - mis + 4096 <= zlen l) by (unfold mis in *; dlia).
      cbn [negb]. rewrite (bind_ok _ _ _ _ _ (fseek_ok (pos - mis) l pos ltac:(lia))).
      rewrite (bind_ok _ _ _ _ _ (patch_sector_ok (pos - mis) mis ptr 0 (Z.min (4096 - mis) (zlen ptr)) l
        ltac:(lia) ltac:(lia) ltac:(lia) ltac:(lia) ltac:(unfold SIZE_SECTOR; lia) ltac:(lia) ltac:(unfold SIZE_SECTOR; lia))).
      unfold SIZE_SECTOR. replace (pos - mis + mis) with pos by lia. done. }
  rewrite (bind_ok _ _ _ _ _ E). clear E. cbv beta iota.
  pose proof (zlen_slice ptr 0 o ltac:(lia) ltac:(lia) ltac:(lia)) as Lo.
  (* the whole sectors *)
  destruct (decide (o = zlen ptr)) as [-> | No].
  - rewrite Z.sub_diag. change (Z.to_nat (0 / 4096)) with O. cbn [write_sectors].
    rewrite bind_ret. cbn [Z.eqb negb].
    rewrite bind_ret. unfold try. rewrite fseek_ok by lia. by rewrite slice_full.
  - destruct Hal as [? | [-> Hq]]; [done |].
    destruct (write_sectors_ok ptr l pos (Z.to_nat ((zlen ptr - o) / 4096)) Hp Hl' o (zlen ptr - o))
      as (k & Hk & Hk2 & Hk3 & R); [lia | lia | unfold SIZE_SECTOR; dlia |].
    rewrite (bind_ok _ _ _ _ _ R). cbv beta iota. unfold SIZE_SECTOR in *.
    pose proof (zlen_slice ptr 0 (o + k) ltac:(lia) ltac:(lia) ltac:(lia)) as Lk.
    destruct (Z.eqb_spec (zlen ptr - o - k) 0) as [Ez | Ez]; cbn [negb].
    + rewrite bind_ret. unfold try. rewrite fseek_ok by lia.
      replace (o + k) with (zlen ptr) by lia. by rewrite slice_full.
    + assert (PS : patch_sector (pos + o + k) 0 ptr (o + k) (zlen ptr - o - k)
        (Stream (splice l pos (slice ptr 0 (o + k))) (pos + o + k) None) =
        (Ok tt, Stream (splice l pos ptr) (pos + o + k + 4096) None)).
      { rewrite patch_sector_ok; rewrite ?zlen_splice; unfold SIZE_SECTOR; try lia; [| dlia].
        rewrite Z.add_0_r, splice_splice; [| lia | lia | rewrite zlen_app, Lk, zlen_slice by lia; lia].
        assert (C : slice ptr 0 (o + k) ++ slice ptr (o + k) (zlen ptr - o - k) = slice ptr 0 (o + k + (zlen ptr - o - k)))
          by (apply (slice_cat ptr 0); lia).
        rewrite C. replace (o + k + (zlen ptr - o - k)) with (zlen ptr) by lia. by rewrite slice_full. }
      assert (FT : (tmp ← ftell; patch_sector tmp 0 ptr (o + k) (zlen ptr - o - k))
        (Stream (splice l pos (slice ptr 0 (o + k))) (pos + o + k) None) =
        (Ok tt, Stream (splice l pos ptr) (pos + o + k + 4096) None)).
      { rewrite bind_ftell. exact PS. }
      rewrite (bind_ok _ _ _ _ _ FT). unfold try. by rewrite fseek_ok by lia.
Qed.
