(* ===== verification/MigrateClaims.v ===== *)
(** * The migration tool: the theorems *)

From S2P Require Import Prelude.
From S2P Require Import Stream.
From S2P Require Import Migrate.
From S2P Require Import MigrateSpec.

(** C33: [fwrite_workaround], which only writes whole sectors, does what [fwrite] does
    wherever the sectors it touches are on the device: the same contents, position
    and result. *)
Theorem fwrite_workaround_is_fwrite ptr l pos :
  0 <= pos -> (pos + zlen ptr + (SIZE_SECTOR - 1)) / SIZE_SECTOR * SIZE_SECTOR <= zlen l ->
  fwrite_workaround ptr (Stream l pos None) = fwrite ptr (Stream l pos None).
Proof. intros. by rewrite fwrite_workaround_ok, fwrite_ok. Qed.

Section migrate.
Context (partOffset : Z).
Hypothesis offset_pos : 0 <= partOffset.
Hypothesis offset_aligned : partOffset mod SIZE_SECTOR = 0.

(** The device holds the first [hi] sectors of the partition. *)
Definition room (l : bytes) (hi : Z) : Prop := partOffset + hi * SIZE_SECTOR <= zlen l /\ hi * SIZE_SECTOR <= 2 ^ 32.

(** Sector [i] of the partition. *)
Definition sec (l : bytes) (i : Z) : bytes := slice l (partOffset + i * SIZE_SECTOR) SIZE_SECTOR.

Lemma sector_pos_ok l hi i : room l hi -> 0 <= i < hi -> sector_pos partOffset i = partOffset + i * SIZE_SECTOR.
Proof. intros [_ R] Hi. unfold sector_pos. rewrite wrapu_small; [done |]. unfold SIZE_SECTOR in *. lia. Qed.

Lemma sec_len l hi i : room l hi -> 0 <= i < hi -> zlen (sec l i) = SIZE_SECTOR.
Proof. intros [R _] Hi. unfold sec, SIZE_SECTOR in *. apply zlen_slice; lia. Qed.

(** [l'] is [l] with sector [i] replaced by [x]. *)
Record sector_set (l : bytes) (i : Z) (x l' : bytes) : Prop := {
  ss_len : zlen l' = zlen l;
  ss_same : sec l' i = x;
  ss_other : forall q n, 0 <= q -> 0 <= n -> q + n <= zlen l ->
    q + n <= partOffset + i * SIZE_SECTOR \/ partOffset + (i + 1) * SIZE_SECTOR <= q -> slice l' q n = slice l q n;
}.

Lemma sector_set_sec l i x l' hi j : sector_set l i x l' -> room l hi -> 0 <= j < hi -> j <> i -> sec l' j = sec l j.
Proof. intros [_ _ S] [R _] Hj N. unfold sec, SIZE_SECTOR in *. apply S; lia. Qed.

Lemma splice_sector l hi i x : room l hi -> 0 <= i < hi -> zlen x = SIZE_SECTOR ->
  sector_set l i x (splice l (partOffset + i * SIZE_SECTOR) x).
Proof.
  intros [R _] Hi Hx. unfold SIZE_SECTOR in *. split.
  - apply zlen_splice; lia.
  - pose proof (slice_splice_same l (partOffset + i * 4096) x) as P. rewrite Hx in P. apply P; lia.
  - intros q n Hq Hn Hl [? | ?]; unfold SIZE_SECTOR in *; [apply slice_splice_before; lia | apply slice_splice_after; lia].
Qed.

Lemma write_sector_ok l hi i x p : room l hi -> 0 <= i < hi -> zlen x = SIZE_SECTOR ->
  exists l' p', (fseek (sector_pos partOffset i);; fwrite_workaround x) (Stream l p None) = (Ok tt, Stream l' p' None) /\
    sector_set l i x l'.
Proof.
  intros R Hi Hx. rewrite (sector_pos_ok l hi i R Hi).
  do 2 eexists. split; [| by eapply splice_sector].
  rewrite (bind_ok _ _ _ _ _ (fseek_ok (partOffset + i * SIZE_SECTOR) l p ltac:(unfold SIZE_SECTOR; lia))).
  apply fwrite_workaround_ok; [unfold SIZE_SECTOR; lia |]. rewrite Hx. destruct R as [R _].
  pose proof offset_aligned as A. unfold SIZE_SECTOR in *. dlia.
Qed.

Lemma copySector_ok l hi dest src p : room l hi -> 0 <= dest < hi -> 0 <= src < hi ->
  exists l' p', copySector partOffset dest src (Stream l p None) = (Ok tt, Stream l' p' None) /\
    sector_set l dest (sec l src) l'.
Proof.
  intros R Hd Hs. unfold copySector. rewrite (sector_pos_ok l hi src R Hs).
  rewrite (bind_ok _ _ _ _ _ (fseek_ok (partOffset + src * SIZE_SECTOR) l p ltac:(unfold SIZE_SECTOR; lia))).
  assert (Hr : partOffset + src * SIZE_SECTOR + SIZE_SECTOR <= zlen l) by (destruct R; unfold SIZE_SECTOR in *; lia).
  rewrite (bind_ok _ _ _ _ _ (fread_ok SIZE_SECTOR l _ Hr)).
  apply (write_sector_ok l hi); [done | done |]. by apply (sec_len l hi).
Qed.

Lemma eraseSector_ok l hi i p : room l hi -> 0 <= i < hi ->
  exists l' p', eraseSector partOffset i (Stream l p None) = (Ok tt, Stream l' p' None) /\
    sector_set l i (replicate (Z.to_nat SIZE_SECTOR) 255) l'.
Proof. intros R Hi. apply (write_sector_ok l hi); [done | done |]. by rewrite zlen_replicate. Qed.

Lemma room_set l i x l' hi : sector_set l i x l' -> room l hi -> room l' hi.
Proof. intros [E _ _]. unfold room. by rewrite E. Qed.

Lemma moveSectors_loop_ok hi from diff k : 0 <= from -> 0 <= diff -> from + diff + Z.of_nat k <= hi -> forall l p, room l hi ->
  exists l' p', moveSectors_loop partOffset k from diff (Stream l p None) = (Ok tt, Stream l' p' None) /\ zlen l' = zlen l /\
    (forall j, 0 <= j < Z.of_nat k -> sec l' (from + diff + j) = sec l (from + j)) /\
    (forall q n, 0 <= q -> 0 <= n -> q + n <= zlen l ->
      q + n <= partOffset + (from + diff) * SIZE_SECTOR \/ partOffset + (from + diff + Z.of_nat k) * SIZE_SECTOR <= q ->
      slice l' q n = slice l q n).
Proof.
  intros Hf Hd. induction k as [| k IH]; intros Hk l p R.
  { exists l, p. split; [done |]. split; [done |]. split; [lia | done]. }
  cbn [moveSectors_loop].
  assert (U : forall x, 0 <= x < hi -> u32 x = x).
  { intros x Hx. destruct R as [_ R]. apply wrapu_small. unfold SIZE_SECTOR in R. lia. }
  rewrite !U by lia.
  destruct (copySector_ok l hi (from + Z.of_nat k + diff) (from + Z.of_nat k) p R) as (l1 & p1 & E & S); [lia.. |].
  rewrite (bind_ok _ _ _ _ _ E).
  destruct (IH ltac:(lia) l1 p1) as (l2 & p2 & E2 & L2 & M2 & O2); [by eapply room_set |].
  pose proof (ss_len _ _ _ _ S) as L1. exists l2, p2. split; [done |]. split; [by rewrite L2 |].
  assert (hr : partOffset + hi * SIZE_SECTOR <= zlen l) by apply R. split.
  - intros j Hj. destruct (decide (j = Z.of_nat k)) as [-> |].
    + transitivity (sec l1 (from + diff + Z.of_nat k)).
      * unfold sec. apply O2; unfold SIZE_SECTOR in *; lia.
      * replace (from + diff + Z.of_nat k) with (from + Z.of_nat k + diff) by lia. apply S.
    + rewrite M2 by lia. apply (sector_set_sec _ _ _ _ hi _ S R); lia.
  - intros q n Hq Hn Hl Ho. rewrite O2 by (unfold SIZE_SECTOR in *; lia). apply (ss_other _ _ _ _ S); unfold SIZE_SECTOR in *; lia.
Qed.

(** Moving [n] sectors up works on overlapping areas, and moves one sector more:
    sectors [from] to [from + n], both included, are found [diff] sectors further, in
    order, and no other byte of the device changes. *)
Theorem moveSectors_moves hi from n diff l p :
  0 <= from -> 0 <= n < 2 ^ 31 - 1 -> 0 <= diff -> from + diff + n < hi -> room l hi ->
  exists l' p', moveSectors partOffset from n diff (Stream l p None) = (Ok tt, Stream l' p' None) /\ zlen l' = zlen l /\
    (forall j, 0 <= j <= n -> sec l' (from + diff + j) = sec l (from + j)) /\
    (forall q m, 0 <= q -> 0 <= m -> q + m <= zlen l ->
      q + m <= partOffset + (from + diff) * SIZE_SECTOR \/ partOffset + (from + diff + n + 1) * SIZE_SECTOR <= q ->
      slice l' q m = slice l q m).
Proof.
  intros Hf Hn Hd Hh R. unfold moveSectors. rewrite wraps_small by lia.
  destruct (moveSectors_loop_ok hi from diff (Z.to_nat (n + 1)) Hf Hd ltac:(lia) l p R) as (l' & p' & E & L & S & O).
  exists l', p'. split; [done |]. split; [done |]. split; [intros; apply S; lia |].
  intros. apply O; try done. replace (from + diff + Z.of_nat (Z.to_nat (n + 1))) with (from + diff + n + 1) by lia. done.
Qed.

(** ** The old header *)

Lemma getOldHeader_ok l p : partOffset + HEADER_SECTOR_CNT * SIZE_SECTOR + HEADER_OLD <= zlen l ->
  let a := get_header_old (slice l partOffset HEADER_OLD) in
  let b := get_header_old (slice l (partOffset + HEADER_SECTOR_CNT * SIZE_SECTOR) HEADER_OLD) in
  exists r p', getOldHeader partOffset (Stream l p None) = (r, Stream l p' None) /\
    r = (if ix_nvalid (ho_id a) =? 0 then
           if (ix_nvalid (ho_id b) =? 0) && (ix_no (ho_id a) <? ix_no (ho_id b)) then Ok (1, b) else Ok (0, a)
         else if ix_nvalid (ho_id b) =? 0 then Ok (1, b) else Failed).
Proof.
  intros Hl a b. unfold HEADER_SECTOR_CNT, SIZE_SECTOR, HEADER_OLD in *. unfold getOldHeader.
  do 4 stream_step ltac:(unfold HEADER_OLD, HEADER_SECTOR_CNT, SIZE_SECTOR; lia).
  change (get_header_old (slice l partOffset HEADER_OLD)) with a.
  change (get_header_old (slice l (partOffset + HEADER_SECTOR_CNT * SIZE_SECTOR) HEADER_OLD)) with b.
  destruct (Z.eqb_spec (ix_nvalid (ho_id a)) 0) as [Ea | Ea]; cbn [negb orb].
  - destruct (ix_nvalid (ho_id b) =? 0) eqn:Eb; cbn [andb]; [destruct (_ <? _) |]; cbn [negb].
    + rewrite Eb. by do 2 eexists.
    + rewrite (proj2 (Z.eqb_eq _ _) Ea). by do 2 eexists.
    + rewrite (proj2 (Z.eqb_eq _ _) Ea). by do 2 eexists.
  - destruct (ix_nvalid (ho_id b) =? 0); by do 2 eexists.
Qed.

(** A partition whose newest valid header has another magic number, one that was
    converted already among them, or that has no valid header, is refused and not
    touched. *)
Theorem main_refuses mem mem' l p :
  partOffset + HEADER_SECTOR_CNT * SIZE_SECTOR + HEADER_OLD <= zlen l ->
  (forall h, h ∈ [get_header_old (slice l partOffset HEADER_OLD);
                  get_header_old (slice l (partOffset + HEADER_SECTOR_CNT * SIZE_SECTOR) HEADER_OLD)] ->
    ix_nvalid (ho_id h) = 0 -> ho_magic h <> oldMagicConst) ->
  exists p', main partOffset mem mem' (Stream l p None) = (Failed, Stream l p' None).
Proof.
  intros Hl Hm. destruct (getOldHeader_ok l p Hl) as (r & p' & E & ->). revert E.
  set (a := get_header_old (slice l partOffset HEADER_OLD)) in *.
  set (b := get_header_old (slice l (partOffset + HEADER_SECTOR_CNT * SIZE_SECTOR) HEADER_OLD)) in *.
  intros E. exists p'. unfold main.
  assert (F : forall w h, ix_nvalid (ho_id h) = 0 -> (h = a \/ h = b) ->
    getOldHeader partOffset (Stream l p None) = (Ok (w, h), Stream l p' None) ->
    main partOffset mem mem' (Stream l p None) = (Failed, Stream l p' None)).
  { intros w h V Hh G. unfold main. rewrite (bind_ok _ _ _ _ _ G). cbv beta iota.
    rewrite bool_decide_eq_false_2; [done |]. apply Hm; [| done]. destruct Hh as [-> | ->]; repeat constructor. }
  destruct (Z.eqb_spec (ix_nvalid (ho_id a)) 0) as [Ea | Ea]; [destruct (Z.eqb_spec (ix_nvalid (ho_id b)) 0) as [Eb | Eb]; cbn [andb] in E |].
  - destruct (ix_no (ho_id a) <? ix_no (ho_id b)); (eapply F; [| | exact E]; eauto).
  - (eapply F; [| | exact E]; eauto).
  - destruct (Z.eqb_spec (ix_nvalid (ho_id b)) 0) as [Eb | Eb]; [(eapply F; [| | exact E]; eauto) |].
    unfold mbind, M_bind. by rewrite E.
Qed.
(** ** Records *)

Lemma zlen_le_bytes n x : zlen (le_bytes n x) = Z.of_nat n.
Proof. revert x. induction n as [| n IH]; intros x; [done |]. cbn [le_bytes]. rewrite zlen_cons, IH. lia. Qed.

Lemma zlen_put_entry id data : zlen (put_entry id data) = ENTRY + zlen data.
Proof. unfold put_entry, put_index, put32. rewrite !zlen_app, !zlen_le_bytes. unfold ENTRY. lia. Qed.

(** Where [writeRecord] writes, whatever the alignment. *)
Lemma writeRecord_ok l p sector recordsz i entry :
  0 <= sector -> 0 <= i -> 0 <= recordsz -> sector * SIZE_SECTOR + i * (recordsz + ENTRY_OLD) < 2 ^ 32 ->
  partOffset + sector * SIZE_SECTOR + i * (recordsz + ENTRY_OLD) + zlen entry + SIZE_SECTOR <= zlen l ->
  exists p', writeRecord partOffset sector recordsz i entry (Stream l p None) =
    (Ok tt, Stream (splice l (partOffset + sector * SIZE_SECTOR + i * (recordsz + ENTRY_OLD)) entry) p' None).
Proof.
  intros Hs Hi Hr Hw Hl. pose proof (zlen_nonneg entry). unfold SIZE_SECTOR, ENTRY_OLD in *.
  unfold writeRecord, RECORD_OFFS, SIZE_SECTOR, ENTRY_OLD. rewrite wrapu_small by nia.
  stream_step ltac:(nia). eexists. rewrite fwrite_workaround_ok; [by rewrite Z.add_assoc | nia | unfold SIZE_SECTOR; dlia].
Qed.

(** Converted records damage each other: they are eight bytes longer than their
    data but written at the distance of the old ones, so the last four data bytes of
    a record are overwritten by the index of the next. *)
Theorem converted_records_overlap l p sector recordsz i id data id' data' :
  0 <= sector -> 0 <= i -> ENTRY_OLD <= recordsz -> zlen data = recordsz -> zlen data' = recordsz ->
  sector * SIZE_SECTOR + (i + 1) * (recordsz + ENTRY_OLD) < 2 ^ 32 ->
  partOffset + sector * SIZE_SECTOR + (i + 1) * (recordsz + ENTRY_OLD) + (recordsz + ENTRY) + SIZE_SECTOR <= zlen l ->
  exists l' p',
    (writeRecord partOffset sector recordsz i (put_entry id data);;
     writeRecord partOffset sector recordsz (i + 1) (put_entry id' data')) (Stream l p None) = (Ok tt, Stream l' p' None) /\
    slice l' (partOffset + RECORD_OFFS sector recordsz i + ENTRY) recordsz =
      slice data 0 (recordsz - ENTRY_OLD) ++ put_index id'.
Proof.
  intros Hs Hi Hr Hd Hd' Hw Hl. unfold ENTRY, ENTRY_OLD in *. assert (0 <= SIZE_SECTOR) by by compute.
  pose proof (zlen_put_entry id data) as L. pose proof (zlen_put_entry id' data') as L'. unfold ENTRY in *.
  set (a := partOffset + sector * SIZE_SECTOR + i * (recordsz + ENTRY_OLD)).
  assert (0 <= a) by (unfold a, ENTRY_OLD; nia).
  destruct (writeRecord_ok l p sector recordsz i (put_entry id data)) as (p1 & E1); [lia | lia | lia | unfold ENTRY_OLD; nia.. |].
  assert (Z1 : zlen (splice l a (put_entry id data)) = zlen l) by (apply zlen_splice; unfold a, ENTRY_OLD; nia).
  destruct (writeRecord_ok (splice l a (put_entry id data)) p1 sector recordsz (i + 1) (put_entry id' data')) as (p2 & E2);
    [lia | lia | lia | done | rewrite Z1; unfold ENTRY_OLD; nia |].
  do 2 eexists. split; [rewrite (bind_ok _ _ _ _ _ E1); exact E2 |].
  replace (partOffset + sector * SIZE_SECTOR + (i + 1) * (recordsz + ENTRY_OLD)) with (a + (recordsz + 4)) by (unfold a, ENTRY_OLD; lia).
  assert (B : a + (recordsz + 4) + (recordsz + 8) <= zlen l) by (unfold a, ENTRY_OLD; nia).
  unfold RECORD_OFFS, ENTRY_OLD. rewrite wrapu_small by nia.
  replace (partOffset + (sector * SIZE_SECTOR + i * (recordsz + 4)) + 8) with (a + 8) by (unfold a, ENTRY_OLD; lia).
  set (l1 := splice l a (put_entry id data)) in *. set (e2 := put_entry id' data') in *.
  assert (C : slice (splice l1 (a + (recordsz + 4)) e2) (a + 8) recordsz =
    slice (splice l1 (a + (recordsz + 4)) e2) (a + 8) (recordsz - 4) ++ slice (splice l1 (a + (recordsz + 4)) e2) (a + 8 + (recordsz - 4)) 4).
  { rewrite slice_cat by lia. f_equal. lia. }
  rewrite C. f_equal.
  - rewrite slice_splice_before by lia. unfold l1. rewrite slice_splice_in by lia.
    unfold put_entry, put_index, put32. rewrite (app_assoc (le_bytes 4 _)).
    destruct (cut_list data 0 (recordsz - 4)) as (x & y & z & -> & Hx & Hy); [lia.. |].
    apply zlen_0_nil in Hx as ->. change ([] ++ y ++ z) with (y ++ z). transitivity y.
    + apply slice_app; [rewrite zlen_app, !zlen_le_bytes; lia | lia].
    + symmetry. by apply (slice_app [] y z).
  - replace (a + 8 + (recordsz - 4)) with (a + (recordsz + 4) + 0) by lia. rewrite slice_splice_in by lia.
    unfold e2, put_entry, put_index, put32. apply (slice_app []); [done | by rewrite zlen_le_bytes].
Qed.

(** The header of the old record at [pos]. *)
Definition old_index (l : bytes) (file : fileheader_t) (pos : Z) : index_t :=
  get_index (slice l (partOffset + RECORD_OLD_OFFS (fh_sector file) (fh_recordsz file) pos) ENTRY_OLD) 0.

Lemma getRecordHeader_ok l p file pos :
  partOffset + RECORD_OLD_OFFS (fh_sector file) (fh_recordsz file) pos + ENTRY_OLD <= zlen l ->
  exists p', getRecordHeader partOffset file pos (Stream l p None) = (Ok (old_index l file pos), Stream l p' None).
Proof.
  intros Hl. pose proof (wrapu_range 32 (fh_sector file * SIZE_SECTOR + pos * (fh_recordsz file + ENTRY_OLD)) ltac:(lia)) as W.
  unfold getRecordHeader. do 2 stream_step ltac:(unfold RECORD_OLD_OFFS in *; lia). by eexists.
Qed.

(** A full file loses its oldest record: the search for the first of its
    [recordcnt] records stops at it and then takes the one after. *)
Theorem oldest_record_lost l p file recordcnt max olidx olpos :
  2 <= recordcnt -> recordcnt - 1 <= olpos < max ->
  (forall k, 0 <= k < max -> partOffset + RECORD_OLD_OFFS (fh_sector file) (fh_recordsz file) k + ENTRY_OLD <= zlen l) ->
  (forall j, 0 <= j < recordcnt -> old_index l file (olpos - j) = Index 0 (olidx - j)) ->
  exists p', first_loop partOffset (Z.to_nat max) file recordcnt max olidx olpos olpos (Stream l p None) =
    (Ok (olpos - (recordcnt - 1) + 1), Stream l p' None).
Proof.
  intros Hr Ho Hl Hx.
  assert (forall fuel j p, 0 <= j < recordcnt - 1 -> recordcnt - 1 - j <= Z.of_nat fuel ->
    exists p', first_loop partOffset fuel file recordcnt max olidx olpos (olpos - j) (Stream l p None) =
      (Ok (olpos - (recordcnt - 1) + 1), Stream l p' None)) as L.
  { induction fuel as [| fuel IH]; intros j q Hj Hf; [lia |]. cbn [first_loop].
    rewrite (proj2 (Z.ltb_ge _ _)) by lia.
    destruct (getRecordHeader_ok l q file (olpos - j - 1)) as (q1 & E); [apply Hl; lia |].
    rewrite (bind_ok _ _ _ _ _ E). replace (olpos - j - 1) with (olpos - (j + 1)) by lia.
    rewrite Hx by lia. cbn [ix_nvalid ix_no Z.eqb negb orb].
    destruct (Z.eqb_spec (olidx - (olidx - (j + 1))) (recordcnt - 1)).
    - rewrite (proj2 (Z.eqb_neq _ _)) by lia. exists q1.
      by replace (olpos - (j + 1) + 1) with (olpos - (recordcnt - 1) + 1) by lia.
    - rewrite (proj2 (Z.eqb_neq _ _)) by lia. cbn [negb]. apply IH; lia. }
  destruct (L (Z.to_nat max) 0 p) as (p' & E); [lia.. |]. rewrite Z.sub_0_r in E. by exists p'.
Qed.

(** Of the sectors added to a file only the last one is erased: the loop erases
    the same sector in every round, and the others keep what they held. *)
Theorem added_sectors_not_erased hi x needed f l p id :
  rd f id = Some x -> minSectorCnt x = Some needed -> 0 <= id -> 0 <= fh_sector x -> 0 < fh_sectorcnt x < needed ->
  fh_sector x + needed <= hi -> hi < 2 ^ 32 -> room l hi ->
  exists l' p' f', realocateFile partOffset id (id + 1) f (Stream l p None) = (Ok f', Stream l' p' None) /\
    (forall i, fh_sector x + fh_sectorcnt x <= i < fh_sector x + needed - 1 -> sec l' i = sec l i) /\
    sec l' (fh_sector x + needed - 1) = replicate (Z.to_nat SIZE_SECTOR) 255.
Proof.
  intros Rd Mn Hid Hs Hc Hh Hw R. unfold realocateFile. rewrite Rd, bind_lift, Mn, bind_lift.
  rewrite (proj2 (Z.leb_gt _ _)) by lia. replace (Z.to_nat (id + 1 - 1 - id)) with O by lia.
  cbn [move_above]. rewrite bind_ret.
  replace (fh_sector x + fh_sectorcnt x - 1 + (needed - fh_sectorcnt x)) with (fh_sector x + needed - 1) by lia.
  set (s := fh_sector x + needed - 1). rewrite (u32_small s) by (unfold s; lia).
  assert (L : forall k lo l p, room l hi -> (0 < k)%nat ->
    exists l' p', for_up lo k (fun _ => eraseSector partOffset s) (Stream l p None) = (Ok tt, Stream l' p' None) /\
      sec l' s = replicate (Z.to_nat SIZE_SECTOR) 255 /\
      forall i, 0 <= i < hi -> i <> s -> sec l' i = sec l i).
  { induction k as [| k IH]; intros lo l0 p0 R0 Hk; [lia |]. cbn [for_up].
    destruct (eraseSector_ok l0 hi s p0 R0) as (l1 & p1 & E & S); [unfold s; lia |]. rewrite (bind_ok _ _ _ _ _ E).
    assert (O : forall i, 0 <= i < hi -> i <> s -> sec l1 i = sec l0 i) by (intros; by apply (sector_set_sec _ _ _ _ hi _ S R0)).
    destruct k as [| k].
    - exists l1, p1. split; [done |]. split; [apply S | done].
    - destruct (IH (lo + 1) l1 p1) as (l2 & p2 & E2 & S2 & O2); [by eapply room_set | lia |].
      exists l2, p2. split; [done |]. split; [done |]. intros. rewrite O2 by done. by apply O. }
  destruct (L (Z.to_nat (needed - fh_sectorcnt x)) 0 l p R ltac:(lia)) as (l' & p' & E & S & O).
  rewrite (bind_ok _ _ _ _ _ E).
  assert (exists f', wr f id (set_sectorcnt (u32 (fh_sectorcnt x + (needed - fh_sectorcnt x))) x) = Some f') as [f' Wf].
  { apply wr_is_Some. apply rd_is_Some. by eexists. }
  rewrite Wf. exists l', p', f'. split; [done |]. split; [intros i Hi; apply O; unfold s; lia | done].
Qed.
(** ** The new headers *)

Lemma le_value_bytes n x : 0 <= x < 256 ^ Z.of_nat n -> le_value (le_bytes n x) = x.
Proof.
  revert x. induction n as [| n IH]; intros x Hx; [simpl in *; lia |]. cbn [le_bytes le_value].
  rewrite Nat2Z.inj_succ, Z.pow_succ_r in Hx by lia. rewrite IH by (split; [apply Z.div_pos | apply Z.div_lt_upper_bound]; lia).
  dlia.
Qed.

Lemma xor_acc b x : fold_left Z.lxor b x = Z.lxor x (fold_left Z.lxor b 0).
Proof.
  revert x. induction b as [| c b IH]; intros x; simpl; [by rewrite Z.lxor_0_r |].
  rewrite IH, (IH (Z.lxor 0 c)), Z.lxor_0_l. by rewrite Z.lxor_assoc.
Qed.

Lemma calcChecksum_app a b : calcChecksum (a ++ b) = Z.lxor (calcChecksum a) (calcChecksum b).
Proof. unfold calcChecksum. by rewrite fold_left_app, xor_acc. Qed.

Lemma xor_range xs : Forall (fun c => 0 <= c < 256) xs -> 0 <= fold_left Z.lxor xs 0 < 256.
Proof.
  assert (forall y, 0 <= y < 256 -> Forall (fun c => 0 <= c < 256) xs -> 0 <= fold_left Z.lxor xs y < 256) as L.
  { induction xs as [| c xs IH]; intros y Hy F; [done |]. apply Forall_cons in F as [Hc F]. simpl. apply IH; [| done].
    pose proof (proj2 (Z.lxor_nonneg y c) ltac:(lia)) as P. split; [done |].
    destruct (decide (Z.lxor y c = 0)); [lia |]. apply (Z.log2_lt_pow2 _ 8); [lia |].
    pose proof (Z.log2_lxor y c ltac:(lia) ltac:(lia)).
    assert (B : forall z, 0 <= z < 256 -> Z.log2 z <= 7).
    { intros z Hz. destruct (decide (z = 0)) as [-> |]; [done |]. apply Z.lt_succ_r. by apply Z.log2_lt_pow2; lia. }
    pose proof (B y Hy). pose proof (B c Hc). lia. }
  by apply L.
Qed.

Lemma bytes_le n x : Forall (fun c => 0 <= c < 256) (le_bytes n x).
Proof. revert x. induction n as [| n IH]; intros x; constructor; [apply Z.mod_pos_bound; lia | apply IH]. Qed.

(** A file header as the tool keeps it. *)
Definition fileheader_ok (f : fileheader_t) : Prop :=
  0 <= fh_sector f < 2 ^ 32 /\ 0 <= fh_sectorcnt f < 2 ^ 32 /\ 0 <= fh_filesz f < 2 ^ 32 /\ 0 <= fh_recordsz f < 2 ^ 32 /\
  zlen (fh_name f) = 8 /\ Forall (fun c => 0 <= c < 256) (fh_name f).

Lemma zlen_put_fileheader f : fileheader_ok f -> zlen (put_fileheader f) = FILEHEADER.
Proof. intros (_ & _ & _ & _ & E & _). unfold put_fileheader, put32. rewrite !zlen_app, !zlen_le_bytes, E. done. Qed.

Lemma get32_put a x b off : off = zlen a -> 0 <= x < 2 ^ 32 -> get32 (a ++ put32 x ++ b) off = x.
Proof.
  intros -> Hx. unfold get32, put32. rewrite slice_app; [by apply le_value_bytes | done | by rewrite zlen_le_bytes].
Qed.

Lemma get_put_fileheader f : fileheader_ok f -> get_fileheader (put_fileheader f) = f.
Proof.
  intros (H1 & H2 & H3 & H4 & Hn & _). unfold get_fileheader, put_fileheader. destruct f as [s c z r n].
  cbn [fh_sector fh_sectorcnt fh_filesz fh_recordsz fh_name] in *. f_equal.
  - by apply (get32_put []).
  - by apply get32_put.
  - rewrite app_assoc. apply get32_put; [unfold put32; by rewrite zlen_app, !zlen_le_bytes | done].
  - rewrite !app_assoc, <- app_assoc. apply get32_put; [unfold put32; by rewrite !zlen_app, !zlen_le_bytes | done].
  - replace (put32 s ++ put32 c ++ put32 z ++ put32 r ++ n) with ((put32 s ++ put32 c ++ put32 z ++ put32 r) ++ n ++ [])
      by by rewrite app_nil_r, <- !app_assoc.
    apply slice_app; [unfold put32; by rewrite !zlen_app, !zlen_le_bytes | done].
Qed.

(** The sum over all bytes of the new header and the file headers. *)
Lemma header_sum oldheader fs : Forall fileheader_ok fs ->
  Z.lxor (xor_all ((fun f => calcChecksum (put_fileheader f)) <$> fs))
    (calcChecksum (put_header (newheader oldheader (header_checksum oldheader fs)))) = 0.
Proof.
  intros Hf. set (X := xor_all _). set (c := header_checksum oldheader fs).
  assert (calcChecksum (put32 c) = c) as C.
  { assert (0 <= c < 256) as Hc.
    { assert (B : forall b, Forall (fun c => 0 <= c < 256) b -> 0 <= calcChecksum b < 256) by (intros; by apply xor_range).
      unfold c, header_checksum. apply (xor_range [_; _]). constructor; [| constructor; [| done]].
      - apply xor_range. apply Forall_fmap. eapply Forall_impl; [exact Hf |]. intros f (_ & _ & _ & _ & _ & Hn). simpl.
        apply B. unfold put_fileheader, put32. repeat (apply Forall_app; split; [apply bytes_le |]). done.
      - apply B. unfold put_header, put_index, put32. repeat (apply Forall_app; split; [apply bytes_le |]). by repeat constructor. }
    unfold put32. cbn [le_bytes]. rewrite (Z.mod_small c), (Z.div_small c) by done. unfold calcChecksum. cbn [fold_left].
    change (0 mod 256) with 0. by rewrite Z.lxor_0_l, !Z.lxor_0_r. }
  assert (E : forall k, calcChecksum (put_header (newheader oldheader k)) =
    Z.lxor (calcChecksum (put_header (newheader oldheader 0))) (calcChecksum (put32 k))).
  { intros k. unfold put_header, newheader. cbn [hd_id hd_filecnt hd_checksum hd_magic].
    rewrite !calcChecksum_app. change (calcChecksum (put32 0)) with 0. rewrite Z.lxor_0_l.
    rewrite (Z.lxor_comm (calcChecksum (put32 k))), !Z.lxor_assoc. done. }
  rewrite E, C. unfold c, header_checksum. fold X. rewrite <- Z.lxor_assoc. apply Z.lxor_nilpotent.
Qed.

(** Writing near sector boundaries of the header area. *)
Lemma write_at_ok l p off x : room l (2 * HEADER_SECTOR_CNT) -> 0 <= off -> off + zlen x <= 4 * SIZE_SECTOR ->
  (fseek (partOffset + off);; fwrite_workaround x) (Stream l p None) =
    (Ok tt, Stream (splice l (partOffset + off) x) (partOffset + off + zlen x) None).
Proof.
  intros [R _] Ho Hx. pose proof (zlen_nonneg x). unfold HEADER_SECTOR_CNT, SIZE_SECTOR in *.
  stream_step ltac:(lia). apply fwrite_workaround_ok; [lia |]. pose proof offset_aligned as A. unfold SIZE_SECTOR in *. dlia.
Qed.

Lemma write_files_ok base fs : 0 <= base -> forall j l p, 0 <= j -> room l (2 * HEADER_SECTOR_CNT) ->
  Forall fileheader_ok fs -> base + (j + zlen fs + 1) * HGRAIN <= 4 * SIZE_SECTOR ->
  exists l' p', write_files (partOffset + base) j fs (Stream l p None) = (Ok tt, Stream l' p' None) /\ zlen l' = zlen l /\
    (forall k f, rd fs k = Some f -> slice l' (partOffset + base + (j + k + 1) * HGRAIN) FILEHEADER = put_fileheader f) /\
    (forall q n, 0 <= q -> 0 <= n -> q + n <= zlen l ->
      q + n <= partOffset + base + (j + 1) * HGRAIN \/ partOffset + base + (j + zlen fs + 1) * HGRAIN <= q ->
      slice l' q n = slice l q n).
Proof.
  intros Hb. unfold HGRAIN, FILEHEADER, SIZE_SECTOR in *.
  induction fs as [| f fs IH]; intros j l p Hj R Hf Hl.
  { exists l, p. split; [done |]. split; [done |]. split; [intros k f E; unfold rd in E; by destruct (0 <=? k) | done]. }
  apply Forall_cons in Hf as [Hf Hfs]. cbn [write_files]. rewrite zlen_cons in Hl. pose proof (zlen_nonneg fs).
  pose proof (zlen_put_fileheader f Hf) as Lf. unfold FILEHEADER in Lf.
  unfold HGRAIN. rewrite wrapu_small by lia.
  assert (W := write_at_ok l p (base + (j + 1) * 32) (put_fileheader f) R ltac:(lia) ltac:(unfold SIZE_SECTOR; lia)).
  rewrite Z.add_assoc in W.
  assert (hr : partOffset + 4 * 4096 <= zlen l) by (destruct R as [R _]; unfold HEADER_SECTOR_CNT, SIZE_SECTOR in R; lia).
  set (l1 := splice l (partOffset + base + (j + 1) * 32) (put_fileheader f)) in *.
  assert (L1 : zlen l1 = zlen l) by (apply zlen_splice; lia).
  assert (R1 : room l1 (2 * HEADER_SECTOR_CNT)) by (unfold room; rewrite L1; exact R).
  destruct (IH (j + 1) l1 (partOffset + base + (j + 1) * 32 + zlen (put_fileheader f))) as (l2 & p2 & E2 & L2 & K2 & O2); [lia | done | done | lia |].
  exists l2, p2. split.
  { unfold mbind, M_bind in W |- *.
    destruct (fseek (partOffset + base + (j + 1) * 32) (Stream l p None)) as [[[] | |] s1]; [| done..].
    rewrite W. exact E2. }
  split; [by rewrite L2 |]. split.
  - intros k x Hk. destruct (decide (k = 0)) as [-> |].
    + injection Hk as <-. rewrite O2 by lia. replace (partOffset + base + (j + 0 + 1) * 32) with (partOffset + base + (j + 1) * 32) by lia.
      unfold l1. rewrite <- Lf. apply slice_splice_same; lia.
    + pose proof (proj1 (rd_is_Some (f :: fs) k) (mk_is_Some _ _ Hk)).
      rewrite <- (K2 (k - 1) x); [f_equal; lia |]. revert Hk. unfold rd.
      rewrite (proj2 (Z.leb_le 0 k)), (proj2 (Z.leb_le 0 (k - 1))) by lia.
      by replace (Z.to_nat k) with (S (Z.to_nat (k - 1))) by lia.
  - intros q n Hq Hn Hqn Ho. rewrite zlen_cons in Ho. rewrite O2 by lia. unfold l1.
    destruct Ho; [apply slice_splice_before; lia | apply slice_splice_after; lia].
Qed.

(** One copy of the header and the file headers at [base]. *)
Definition copy_written (l : bytes) (base : Z) (oldheader : header_old_t) (fs : list fileheader_t) : Prop :=
  slice l (partOffset + base) HEADER = put_header (newheader oldheader (header_checksum oldheader fs)) /\
  forall k f, rd fs k = Some f -> slice l (partOffset + base + (k + 1) * HGRAIN) FILEHEADER = put_fileheader f.

Lemma zlen_put_header h : zlen (hd_magic h) = 4 -> zlen (put_header h) = HEADER.
Proof. intros E. unfold put_header, put_index, put32. by rewrite !zlen_app, !zlen_le_bytes, E. Qed.

Lemma write_copy_ok base oldheader fs l p : 0 <= base -> base + (zlen fs + 1) * HGRAIN <= 4 * SIZE_SECTOR ->
  Forall fileheader_ok fs -> room l (2 * HEADER_SECTOR_CNT) ->
  exists l' p',
    (fseek (partOffset + base);;
     fwrite_workaround (put_header (newheader oldheader (header_checksum oldheader fs)));;
     write_files (partOffset + base) 0 fs) (Stream l p None) = (Ok tt, Stream l' p' None) /\ zlen l' = zlen l /\
    copy_written l' base oldheader fs /\
    forall q n, 0 <= q -> 0 <= n -> q + n <= zlen l ->
      q + n <= partOffset + base \/ partOffset + base + (zlen fs + 1) * HGRAIN <= q -> slice l' q n = slice l q n.
Proof.
  intros Hb Hl Hf R. pose proof (zlen_nonneg fs). set (h := put_header _).
  assert (Lh : zlen h = 16) by by apply zlen_put_header.
  assert (hr : partOffset + 4 * 4096 <= zlen l) by (destruct R as [R _]; unfold HEADER_SECTOR_CNT, SIZE_SECTOR in R; lia).
  assert (W := write_at_ok l p base h R Hb ltac:(unfold HGRAIN in Hl; lia)).
  set (l1 := splice l (partOffset + base) h) in *.
  assert (L1 : zlen l1 = zlen l) by (unfold SIZE_SECTOR, HGRAIN in *; apply zlen_splice; lia).
  assert (R1 : room l1 (2 * HEADER_SECTOR_CNT)) by (unfold room; rewrite L1; exact R).
  destruct (write_files_ok base fs Hb 0 l1 (partOffset + base + zlen h)) as (l2 & p2 & E2 & L2 & K2 & O2);
    [lia | done | done | lia |].
  unfold SIZE_SECTOR, HGRAIN, FILEHEADER in *.
  exists l2, p2. split.
  { unfold mbind, M_bind in W |- *.
    destruct (fseek (partOffset + base) (Stream l p None)) as [[[] | |] s1]; [| done..]. rewrite W. exact E2. }
  split; [by rewrite L2 |]. split; [split |].
  - change HEADER with 16. rewrite O2 by lia. unfold l1. rewrite <- Lh. apply (slice_splice_same l (partOffset + base) h); lia.
  - intros k f Hk. change HGRAIN with 32. change FILEHEADER with 24. rewrite <- (K2 k f Hk). done.
  - intros q n Hq Hn Hqn Ho. rewrite O2 by lia. unfold l1.
    destruct Ho; [apply slice_splice_before; lia | apply slice_splice_after; lia].
Qed.

(** The new headers round trip: after [updateHeader] both copies hold the header
    and the file headers, which read back as they were; the bytes of a copy sum up to
    zero, and nothing outside the header sectors changes. *)
Theorem updateHeader_roundtrip oldheader fs l p :
  zlen fs = ho_filecnt oldheader -> (zlen fs + 1) * HGRAIN <= HEADER_SECTOR_CNT * SIZE_SECTOR ->
  Forall fileheader_ok fs -> room l (2 * HEADER_SECTOR_CNT) ->
  exists l' p', updateHeader partOffset oldheader fs (Stream l p None) = (Ok tt, Stream l' p' None) /\ zlen l' = zlen l /\
    (forall i, 0 <= i < 2 -> copy_written l' (i * HEADER_SECTOR_CNT * SIZE_SECTOR) oldheader fs) /\
    (forall f, f ∈ fs -> get_fileheader (put_fileheader f) = f) /\
    Z.lxor (xor_all ((fun f => calcChecksum (put_fileheader f)) <$> fs))
      (calcChecksum (put_header (newheader oldheader (header_checksum oldheader fs)))) = 0 /\
    (forall q n, 0 <= q -> 0 <= n -> q + n <= zlen l ->
      q + n <= partOffset \/ partOffset + 2 * HEADER_SECTOR_CNT * SIZE_SECTOR <= q -> slice l' q n = slice l q n).
Proof.
  intros Hc Hn Hf R. unfold HEADER_SECTOR_CNT, SIZE_SECTOR, HGRAIN in Hn.
  assert (hr : partOffset + 4 * 4096 <= zlen l) by (destruct R as [R _]; unfold HEADER_SECTOR_CNT, SIZE_SECTOR in R; lia).
  unfold updateHeader. replace (take (Z.to_nat (ho_filecnt oldheader)) fs) with fs
    by (rewrite take_ge; [done | rewrite <- Hc; unfold zlen; lia]).
  cbn [for_up].
  destruct (write_copy_ok (0 * HEADER_SECTOR_CNT * SIZE_SECTOR) oldheader fs l p) as (l1 & p1 & E1 & L1 & C1 & O1);
    [done | unfold HGRAIN, SIZE_SECTOR; lia | done | done |].
  assert (R1 : room l1 (2 * HEADER_SECTOR_CNT)) by (unfold room; rewrite L1; exact R).
  destruct (write_copy_ok (1 * HEADER_SECTOR_CNT * SIZE_SECTOR) oldheader fs l1 p1) as (l2 & p2 & E2 & L2 & C2 & O2);
    [done | unfold HGRAIN, SIZE_SECTOR, HEADER_SECTOR_CNT; lia | done | done |].
  unfold HEADER_SECTOR_CNT, SIZE_SECTOR, HGRAIN in *. pose proof (zlen_nonneg fs).
  exists l2, p2. split; [rewrite (bind_ok _ _ _ _ _ E1), (bind_ok _ _ _ _ _ E2); done |].
  split; [by rewrite L2 |]. split.
  { intros i Hi. assert (i = 0 \/ i = 1) as [-> | ->] by lia; [| done]. destruct C1 as [Ch Cf]. split.
    - unfold HEADER in *. rewrite O2 by lia. exact Ch.
    - intros k f Hk. pose proof (proj1 (rd_is_Some fs k) (mk_is_Some _ _ Hk)).
      unfold HGRAIN, FILEHEADER in *. rewrite O2 by lia. by apply Cf. }
  split. { intros f Hin. rewrite Forall_forall in Hf. by apply get_put_fileheader, Hf. }
  split; [by apply header_sum |].
  intros q n Hq Hnn Hqn Ho. rewrite O2 by lia. apply O1; lia.
Qed.

End migrate.

(** ** Witnesses *)

(** A device of forty sectors of zeros. *)
Definition ex_image : bytes := replicate (Z.to_nat (40 * 4096)) 0.

Lemma ex_image_len : zlen ex_image = 40 * 4096.
Proof. unfold ex_image. rewrite zlen_replicate. lia. Qed.

#[local] Opaque ex_image.

Lemma ex_room hi : hi <= 40 -> room 0 ex_image hi.
Proof. intros. unfold room, SIZE_SECTOR. rewrite ex_image_len. lia. Qed.

Lemma fwrite_workaround_is_fwrite_witness :
  fwrite_workaround (replicate 100 7) (Stream ex_image 4090 None) = fwrite (replicate 100 7) (Stream ex_image 4090 None).
Proof. apply fwrite_workaround_is_fwrite; [done |]. rewrite ex_image_len. by vm_compute. Defined.

Lemma moveSectors_moves_witness :
  exists l' p', moveSectors 0 4 10 2 (Stream ex_image 0 None) = (Ok tt, Stream l' p' None) /\ sec 0 l' 16 = sec 0 ex_image 14.
Proof.
  destruct (moveSectors_moves 0 ltac:(done) eq_refl 40 4 10 2 ex_image 0) as (l' & p' & E & _ & M & _); try lia.
  { by apply ex_room. }
  exists l', p'. split; [exact E |]. exact (M 10 ltac:(lia)).
Defined.

Lemma main_refuses_witness : exists p', main 0 true true (Stream ex_image 0 None) = (Failed, Stream ex_image p' None).
Proof.
  apply (main_refuses 0 ltac:(done)); [rewrite ex_image_len; by vm_compute |].
  intros h Hh _. assert (ho_magic h = [0; 0; 0; 0]) as ->; [| by vm_compute].
  repeat (apply elem_of_cons in Hh as [-> | Hh]; [by vm_compute |]). by apply not_elem_of_nil in Hh.
Defined.

Definition ex_fh : fileheader_t := FileHeader 6 2 8 4 (replicate 8 65).

Lemma ex_fh_ok : fileheader_ok ex_fh.
Proof. repeat split; try done. by repeat constructor. Qed.

Lemma converted_records_overlap_witness :
  exists l' p',
    (writeRecord 0 20 4 0 (put_entry (Index 0 1) [1; 2; 3; 4]);; writeRecord 0 20 4 (0 + 1) (put_entry (Index 0 2) [5; 6; 7; 8]))
      (Stream ex_image 0 None) = (Ok tt, Stream l' p' None) /\
    slice l' (0 + RECORD_OFFS 20 4 0 + ENTRY) 4 = slice [1; 2; 3; 4] 0 (4 - ENTRY_OLD) ++ put_index (Index 0 2).
Proof. apply converted_records_overlap; rewrite ?ex_image_len; by vm_compute. Defined.

(** Two records, numbers 0 and 1, of four bytes. *)
Definition ex_records : bytes := [0; 0; 0; 0; 1; 2; 3; 4; 2; 0; 0; 0; 5; 6; 7; 8; 255; 255; 255; 255].

Lemma oldest_record_lost_witness :
  exists p', first_loop 0 2 (FileHeader 0 1 8 4 (replicate 8 65)) 2 2 1 1 1 (Stream ex_records 0 None) =
    (Ok (1 - (2 - 1) + 1), Stream ex_records p' None).
Proof.
  apply (oldest_record_lost 0 ltac:(done) ex_records 0 (FileHeader 0 1 8 4 (replicate 8 65)) 2 2 1 1); [lia | lia | |].
  - intros k Hk. assert (k = 0 \/ k = 1) as [-> | ->] by lia; by vm_compute.
  - intros j Hj. assert (j = 0 \/ j = 1) as [-> | ->] by lia; by vm_compute.
Defined.

Lemma added_sectors_not_erased_witness :
  exists l' p' f', realocateFile 0 0 1 [FileHeader 6 2 16384 4 (replicate 8 65)] (Stream ex_image 0 None) =
      (Ok f', Stream l' p' None) /\ sec 0 l' 8 = sec 0 ex_image 8.
Proof.
  destruct (added_sectors_not_erased 0 ltac:(done) eq_refl 40 (FileHeader 6 2 16384 4 (replicate 8 65)) 13
    [FileHeader 6 2 16384 4 (replicate 8 65)] ex_image 0 0) as (l' & p' & f' & E & S & _);
    [by vm_compute | by vm_compute | by vm_compute | by vm_compute | by vm_compute | by vm_compute | by vm_compute | by apply ex_room |].
  exists l', p', f'. split; [exact E |]. apply S. cbn [fh_sector fh_sectorcnt]. lia.
Defined.

Lemma updateHeader_roundtrip_witness :
  exists l' p', updateHeader 0 (HeaderOld (Index 0 5) 1 oldMagicConst) [ex_fh] (Stream ex_image 0 None) =
      (Ok tt, Stream l' p' None) /\
    copy_written 0 l' (1 * HEADER_SECTOR_CNT * SIZE_SECTOR) (HeaderOld (Index 0 5) 1 oldMagicConst) [ex_fh].
Proof.
  assert (F : Forall fileheader_ok [ex_fh]) by (constructor; [apply ex_fh_ok | constructor]).
  assert (L : (zlen [ex_fh] + 1) * HGRAIN <= HEADER_SECTOR_CNT * SIZE_SECTOR) by by vm_compute.
  assert (R : room 0 ex_image (2 * HEADER_SECTOR_CNT)) by by apply ex_room.
  destruct (updateHeader_roundtrip 0 ltac:(lia) eq_refl (HeaderOld (Index 0 5) 1 oldMagicConst) [ex_fh] ex_image 0 eq_refl L F R)
    as (l' & p' & E & _ & C & _).
  exists l', p'. split; [exact E |]. exact (C 1 ltac:(lia)).
Defined.
