(* ===== verification/Pages.v ===== *)
(** * Flash as pages in good and bad blocks

    What the serial downloader and the NAND tool share: the pages of good blocks in their
    order, pages that are written in that order, and the pages a file is cut into. *)

From S2P Require Import Prelude.

Lemma filter_none {A} (P : A -> Prop) `{forall x, Decision (P x)} (l : list A) :
  (forall x, x ∈ l -> ~ P x) -> filter P l = [].
Proof.
  induction l as [|x l IH]; intros Hl; [done|]. rewrite filter_cons_False; [|apply Hl; left].
  apply IH. intros y Hy. apply Hl. by right.
Qed.

Lemma filter_every {A} (P : A -> Prop) `{forall x, Decision (P x)} (l : list A) :
  (forall x, x ∈ l -> P x) -> filter P l = l.
Proof.
  induction l as [|x l IH]; intros Hl; [done|]. rewrite filter_cons_True; [|apply Hl; left].
  f_equal. apply IH. intros y Hy. apply Hl. by right.
Qed.

(** ** Good pages

    [nb] blocks of [es] bytes, pages of [ws] bytes, [ppb] pages in a block. *)

Section pages.
Context (ws es nb ppb : Z).

(** The pages from [p] on that are in good blocks. *)
Definition good_pages (bad : Z -> bool) (p : Z) : list Z :=
  filter (fun q => bad (q * ws / es) = false) (seqZ p (nb * ppb - p)).

Context (Hws : 0 < ws) (Hppb : 0 < ppb) (Hes : es = ppb * ws) (Hnb : 0 <= nb).

Lemma page_block q : q * ws / es = q / ppb.
Proof. rewrite Hes, Z.div_mul_cancel_r; lia. Qed.

Lemma page_in q : 0 <= q -> q < nb * ppb -> (q + 1) * ws <= nb * es /\ 0 <= q / ppb < nb.
Proof.
  intros. rewrite Hes. split; [nia|]. split; [by apply Z.div_pos; lia|].
  apply Z.div_lt_upper_bound; lia.
Qed.

Lemma good_pages_ext bad bad' p : (forall b, bad' b = bad b) -> good_pages bad' p = good_pages bad p.
Proof. intros E. unfold good_pages. apply list_filter_iff. intros q. by rewrite E. Qed.

Lemma good_pages_cons bad p : p < nb * ppb -> bad (p * ws / es) = false ->
  good_pages bad p = p :: good_pages bad (p + 1).
Proof.
  intros Hp Hb. unfold good_pages. rewrite seqZ_cons by lia. rewrite filter_cons_True by done.
  do 3 f_equal; lia.
Qed.

Lemma good_pages_skip bad p : p < nb * ppb -> bad (p * ws / es) = true -> good_pages bad p = good_pages bad (p + 1).
Proof.
  intros Hp Hb. unfold good_pages. rewrite seqZ_cons by lia. rewrite filter_cons_False by (rewrite Hb; done).
  do 2 f_equal; lia.
Qed.

Lemma good_pages_end bad p : nb * ppb <= p -> good_pages bad p = [].
Proof. intros. unfold good_pages. by rewrite seqZ_nil by lia. Qed.

Lemma good_pages_split bad b : 0 <= b < nb ->
  good_pages bad (b * ppb) = (if bad b then [] else seqZ (b * ppb) ppb) ++ good_pages bad ((b + 1) * ppb).
Proof.
  intros Hb. unfold good_pages.
  replace (nb * ppb - b * ppb) with (ppb + (nb * ppb - (b + 1) * ppb)) by lia.
  rewrite seqZ_app by nia. rewrite filter_app. replace (b * ppb + ppb) with ((b + 1) * ppb) by lia. f_equal.
  assert (Hq : forall q, q ∈ seqZ (b * ppb) ppb -> q * ws / es = b).
  { intros q [Hq1 Hq2]%elem_of_seqZ. rewrite page_block. symmetry. apply Z.div_unique with (q - b * ppb); lia. }
  destruct (bad b) eqn:Eb; [apply filter_none|apply filter_every];
    intros q Hin; rewrite Hq by done; by rewrite Eb.
Qed.

(** A bad block has no good pages. *)
Lemma good_pages_bad bad b : 0 <= b < nb -> bad b = true ->
  good_pages bad (b * ppb) = good_pages bad ((b + 1) * ppb).
Proof. intros Hb Hbad. by rewrite good_pages_split, Hbad. Qed.

Lemma good_pages_ge bad p q : q ∈ good_pages bad p -> p <= q < nb * ppb.
Proof. unfold good_pages. rewrite list_elem_of_filter, elem_of_seqZ. lia. Qed.
End pages.
#[global] Arguments good_pages_ext {ws es nb ppb}.
#[global] Arguments good_pages_cons {ws es nb ppb}.
#[global] Arguments good_pages_skip {ws es nb ppb}.
#[global] Arguments good_pages_bad {ws es nb ppb}.
#[global] Arguments good_pages_split {ws es nb ppb}.
#[global] Arguments good_pages_ge {ws es nb ppb}.
#[global] Arguments page_block {ws es ppb}.
#[global] Arguments page_in {ws es nb ppb}.

(** ** Writing pages in order *)

(** From [page] to [page']: the pages [gs] on the first of [L], everything else kept. *)
Definition placed (page page' : Z -> bytes) (L : list Z) (gs : list bytes) : Prop :=
  page' <$> L = gs ++ (page <$> drop (length gs) L) /\ (forall q, q ∉ L -> page' q = page q).

Lemma placed_nil page page' L : (forall q, page' q = page q) -> placed page page' L [].
Proof. intros E. split; [|done]. simpl. rewrite drop_0. by apply list_fmap_ext. Qed.

Lemma placed_cons page page1 page' q L g gs :
  q ∉ L -> page1 q = g -> (forall q', q' <> q -> page1 q' = page q') ->
  placed page1 page' L gs -> placed page page' (q :: L) (g :: gs).
Proof.
  intros Hq Hp Ho [Hs1 Hs2]. split.
  - rewrite fmap_cons, Hs2, Hp, Hs1 by done. simpl. do 2 f_equal. apply list_fmap_ext.
    intros i x Hx. apply Ho. intros ->. apply Hq. apply list_elem_of_lookup_2 in Hx. by eapply subseteq_drop.
  - intros q' [Hne Hn]%not_elem_of_cons. by rewrite Hs2, Ho.
Qed.

(** The same before, and the same afterwards. *)
Lemma placed_ext page0 page page' page2 L gs : (forall q, page q = page0 q) -> (forall q, page2 q = page' q) ->
  placed page page' L gs -> placed page0 page2 L gs.
Proof.
  intros E0 E2 [H1 H2]. split.
  - rewrite (list_fmap_ext page2 page') by (intros; apply E2). rewrite H1. f_equal. apply list_fmap_ext. intros; apply E0.
  - intros q Hq. by rewrite E2, H2.
Qed.

(** ** A file as pages *)

Section file.
Context (ws : Z) (Hws : 0 < ws).

(** A page of the file: its end is filled with zeros. *)
Definition page0 (data : bytes) : bytes := data ++ replicate (Z.to_nat (ws - zlen data)) 0.

Fixpoint cut_pages (n : nat) (data : bytes) : list bytes :=
  match n with
  | O => []
  | Datatypes.S n => page0 (take (Z.to_nat ws) data) :: cut_pages n (drop (Z.to_nat ws) data)
  end.
Definition npages (data : bytes) : nat := Z.to_nat ((zlen data + ws - 1) / ws).
Definition file_pages (data : bytes) : list bytes := cut_pages (npages data) data.

Lemma npages_nil : npages [] = 0%nat.
Proof. unfold npages. change (zlen []) with 0. rewrite Z.div_small; lia. Qed.

Lemma npages_cons data : data <> [] -> npages data = Datatypes.S (npages (drop (Z.to_nat ws) data)).
Proof.
  intros Hd. unfold npages. assert (0 < zlen data) by (destruct data; [done|]; zlia).
  rewrite zlen_drop, Z2Nat.id by lia. destruct (decide (zlen data <= ws)).
  - replace (Z.max 0 (zlen data - ws)) with 0 by lia.
    rewrite (Z.div_small (0 + ws - 1)) by lia.
    replace ((zlen data + ws - 1) / ws) with 1 by (apply Z.div_unique with (zlen data - 1); lia). done.
  - replace (Z.max 0 (zlen data - ws)) with (zlen data - ws) by lia.
    replace (zlen data + ws - 1) with ((zlen data - ws + ws - 1) + 1 * ws) by lia. rewrite Z.div_add by lia.
    assert (0 <= (zlen data - ws + ws - 1) / ws) by (apply Z.div_pos; lia). lia.
Qed.

Lemma file_pages_nil : file_pages [] = [].
Proof. unfold file_pages. by rewrite npages_nil. Qed.

Lemma file_pages_cons data : data <> [] ->
  file_pages data = page0 (take (Z.to_nat ws) data) :: file_pages (drop (Z.to_nat ws) data).
Proof. intros. unfold file_pages. by rewrite npages_cons. Qed.

Lemma length_file_pages data : length (file_pages data) = npages data.
Proof. unfold file_pages. generalize (npages data) as n. intros n. revert data. induction n; intros; simpl; auto. Qed.

Lemma file_ind (P : bytes -> Prop) : P [] -> (forall data, data <> [] -> P (drop (Z.to_nat ws) data) -> P data) -> forall data, P data.
Proof.
  intros H0 HS data. remember (length data) as n eqn:Hn. revert data Hn.
  induction n as [n IH] using lt_wf_ind. intros data ->. destruct (decide (data = [])) as [->|Hne]; [done|].
  apply HS; [done|]. eapply IH; [|done]. rewrite length_drop. destruct data; [done|]. simpl. lia.
Qed.

(** The pages hold the file. *)
Lemma file_pages_take data : take (length data) (concat (file_pages data)) = data.
Proof.
  induction data as [|data Hne IH] using file_ind; [by rewrite file_pages_nil|].
  rewrite file_pages_cons by done. simpl. destruct (decide (length data <= Z.to_nat ws)%nat).
  - rewrite (take_ge data) by lia. unfold page0. rewrite <- (assoc_L (++)). apply take_app_length.
  - unfold page0. rewrite zlen_take. rewrite Z.min_l by (unfold zlen; lia). replace (Z.to_nat (ws - _)) with 0%nat by lia.
    rewrite app_nil_r, take_app, take_take. rewrite length_take.
    rewrite (Nat.min_l (Z.to_nat ws)), (Nat.min_r (length data)) by lia.
    replace (length data - Z.to_nat ws)%nat with (length (drop (Z.to_nat ws) data)) by (rewrite length_drop; lia).
    rewrite IH. apply take_drop.
Qed.

(** Reading back the pages in order gives the file. *)
Lemma placed_reads page page' L data : placed page page' L (file_pages data) ->
  take (length data) (concat (page' <$> L)) = data.
Proof.
  intros [E _]. rewrite E, concat_app, take_app_le; [apply file_pages_take|].
  pose proof (f_equal length (file_pages_take data)) as Hl. rewrite length_take in Hl. lia.
Qed.

Lemma page0_zlen data : zlen data <= ws -> zlen (page0 data) = ws.
Proof. intros. unfold page0. zlia. Qed.
End file.
