(* ===== verification/Psd.v ===== *)
(** * The serial downloader ([psd/common/sdp.c], [psd/imx6ull/])

    [psd] receives commands and files of the Serial Download Protocol in HID reports
    and writes them to the partitions of a NAND flash: [sdp.c], [flashmng.c], [bcb.c]
    and [psd.c] without the fuses. *)

From S2P Require Import Prelude.

(** ** The outside *)

(** A message to the flash server: [mtDevCtl] and [mtGetAttr]. *)
Inductive psd_req :=
  | RqIsBad (address : Z)
  | RqWrite (type address : Z) (data : bytes)
  | RqErase (address size : Z)
  | RqReadRaw (address size : Z)
  | RqGetAttr (type : Z).

(** The result of [msgSend], [msg.o.err], the attribute and the output data. *)
Record psd_reply := PReply { pr_ret : Z; pr_err : Z; pr_val : Z; pr_data : bytes }.

Inductive whence := SEEK_SET | SEEK_CUR.

Record psd_info := PInfo { pi_writesz : Z; pi_erasesz : Z; pi_metasz : Z }.

Class PsdFlash (F : Type) := {
  psd_msg : Z -> psd_req -> F -> psd_reply * F;
  psd_lseek : Z -> Z -> whence -> F -> Z * F;
  psd_write : Z -> bytes -> F -> Z * F;
  psd_close : Z -> F -> F;
  (** [lookup]: the identifier of the file; [open]; [flashsrv_devctl_info]. *)
  psd_lookup : bytes -> F -> option Z * F;
  psd_open : bytes -> F -> Z * F;
  psd_infomsg : Z -> F -> option psd_info * F;
}.

(** The HID transport: the results of [hid_recv] still to come, with the reports, the
    results of [hid_send], and the reports sent. *)
Record world (F : Type) := World { w_in : list (Z * bytes); w_send : list Z; w_sent : list bytes; w_fl : F }.
Arguments World {F}.
Arguments w_in {F}.
Arguments w_send {F}.
Arguments w_sent {F}.
Arguments w_fl {F}.

(** ** The protocol ([sdp.c]) *)

Definition SDP_WRITE_REGISTER : Z := 514.
Definition SDP_WRITE_FILE : Z := 1028.

Record sdp_cmd_t := SdpCmd { sc_type : Z; sc_address : Z; sc_format : Z; sc_datasz : Z; sc_data : Z }.
Definition SDP_CMD : Z := 16.

Definition byte_at (b : bytes) (i : Z) : Z := default 0 (rd b i).
Definition le16 (b : bytes) (i : Z) : Z := byte_at b i + 256 * byte_at b (i + 1).
(** [ntohl] of a little endian word. *)
Definition be32 (b : bytes) (i : Z) : Z :=
  16777216 * byte_at b i + 65536 * byte_at b (i + 1) + 256 * byte_at b (i + 2) + byte_at b (i + 3).

(** The packed command in [data + 1], its words in host order. *)
Definition get_cmd (data : bytes) : sdp_cmd_t :=
  SdpCmd (le16 data 1) (be32 data 3) (byte_at data 7) (be32 data 8) (be32 data 12).

Section psd.
Context {F : Type} `{PsdFlash F}.
(** The error codes of the HID library, and the codes of the flash server. *)
Context (eReport1 eReport2 eReport3 eReport4 : Z).
Context (writemeta writeraw atSize atDev : Z).

Definition on_flash {A} (f : F -> A * F) (w : world F) : A * world F :=
  let '(a, fl) := f (w_fl w) in (a, World (w_in w) (w_send w) (w_sent w) fl).

Definition hid_recv (w : world F) : (Z * bytes) * world F :=
  match w_in w with
  | [] => ((-1, []), w)
  | r :: rs => (r, World rs (w_send w) (w_sent w) (w_fl w))
  end.

Definition hid_send (data : bytes) (w : world F) : Z * world F :=
  match w_send w with
  | [] => (zlen data, World (w_in w) [] (w_sent w ++ [data]) (w_fl w))
  | r :: rs => (r, World (w_in w) rs (w_sent w ++ [data]) (w_fl w))
  end.

Definition sdp_send (report : Z) (data : bytes) (w : world F) : Z * world F :=
  if (report =? 3) && (negb (byte_at data 0 =? 3) || negb (zlen data =? 5)) then (-1, w)
  else if (report =? 4) && (negb (byte_at data 0 =? 4) || (65 <? zlen data)) then (-2, w)
  else hid_send data w.

(** The result; the report, where one was received, and whether [*outdata] was set. *)
Definition sdp_recv (report : Z) (w : world F) : (Z * option bytes * bool) * world F :=
  let '((res, data), w) := hid_recv w in
  if res <? 0 then ((-1, None, false), w)
  else if report =? 0 then
    if negb (byte_at data 0 =? 1) then ((-1, Some data, false), w) else ((res - 1, Some data, true), w)
  else if negb (byte_at data 0 =? 2) then ((-2, Some data, false), w)
  else ((res - 1, Some data, true), w).

(** ** The flash server ([flashmng.c]) *)

(** A failed message counts as a bad block ([-1] is not zero). *)
Definition flashmng_isBadBlock (oid addr : Z) (f : F) : Z * F :=
  let '(r, f) := psd_msg oid (RqIsBad (u32 addr)) f in
  (if pr_ret r <? 0 then -1 else if negb (pr_err r =? 0) then 1 else 0, f).

Definition flashmng_writedev (oid addr : Z) (data : bytes) (type : Z) (f : F) : Z * F :=
  let '(r, f) := psd_msg oid (RqWrite type (u32 addr) data) f in
  (if pr_ret r <? 0 then -1 else if negb (pr_err r =? zlen data) then -1 else 0, f).

Definition flashmng_eraseBlocks (oid start size : Z) (f : F) : Z * F :=
  let '(r, f) := psd_msg oid (RqErase start size) f in
  (if pr_ret r <? 0 then -1 else if pr_err r <? 0 then -1 else 0, f).

Definition flashmng_getAttr (type oid : Z) (f : F) : option Z * F :=
  let '(r, f) := psd_msg oid (RqGetAttr type) f in
  (if (pr_ret r <? 0) || (pr_err r <? 0) then None else Some (pr_val r), f).

Definition flashmng_readraw (oid addr size : Z) (f : F) : Z * bytes * F :=
  let '(r, f) := psd_msg oid (RqReadRaw (u32 addr) size) f in
  (if pr_ret r <? 0 then -1 else if negb (pr_err r =? size) then -1 else 0, pr_data r, f).

(** The discovered bad block table: the array, its first [entries_num] in use. *)
Record dbbt_t := Dbbt { db_entries : Z; db_bad : list Z }.
Definition BCB_BB_MAX : Z := 1022.
Definition dbbt_new : dbbt_t := Dbbt 0 (replicate (Z.to_nat BCB_BB_MAX) 0).

(** The loop over the addresses, of type [uint32_t]; a store outside the table is
    undefined. *)
Fixpoint check_loop (fuel : nat) (info : psd_info) (oid addr end_ : Z) (dbbt : dbbt_t) (f : F) : option (dbbt_t * F) :=
  match fuel with
  | O => None
  | Datatypes.S fuel =>
      if addr <? end_ then
        let '(b, f) := flashmng_isBadBlock oid addr f in
        dbbt ← (if negb (b =? 0) then
                  bad ← wr (db_bad dbbt) (db_entries dbbt) (addr / pi_erasesz info);
                  Some (Dbbt (db_entries dbbt + 1) bad)
                else Some dbbt);
        if BCB_BB_MAX <=? db_entries dbbt then Some (dbbt, f)
        else check_loop fuel info oid (u32 (addr + pi_erasesz info)) end_ dbbt f
      else Some (dbbt, f)
  end.

Definition flashmng_checkRange (info : psd_info) (oid start size : Z) (dbbt : dbbt_t) (f : F) : option (Z * dbbt_t * F) :=
  '(dbbt, f) ← check_loop (Datatypes.S (Z.to_nat (size / pi_erasesz info + 1))) info oid start (u32 (start + size)) dbbt f;
  Some (if BCB_BB_MAX <=? db_entries dbbt then -1 else 0, dbbt, f).

Definition oob_cleanmarker : bytes := [133; 25; 3; 32; 8; 0; 0; 0].

Fixpoint clean_loop (fuel : nat) (info : psd_info) (oid addr end_ ret : Z) (f : F) : option (Z * F) :=
  match fuel with
  | O => None
  | Datatypes.S fuel =>
      if addr <? end_ then
        let '(b, f) := flashmng_isBadBlock oid addr f in
        if negb (b =? 0) then clean_loop fuel info oid (u32 (addr + pi_erasesz info)) end_ ret f
        else
          let '(r, f) := flashmng_writedev oid addr oob_cleanmarker writemeta f in
          clean_loop fuel info oid (u32 (addr + pi_erasesz info)) end_ (ret + r) f
      else Some (ret, f)
  end.
Definition flashmng_cleanMarkers (info : psd_info) (oid start size : Z) (f : F) : option (Z * F) :=
  clean_loop (Datatypes.S (Z.to_nat (size / pi_erasesz info + 1))) info oid start (u32 (start + size)) 0 f.

(** ** Boot control blocks ([bcb.c]) *)

Definition bcb_checksum (bcb : bytes) : Z := Z.lxor (u32 (fold_left Z.add bcb 0)) 4294967295.

Definition dbbt_block_is_bad (dbbt : option dbbt_t) (block_num : Z) : bool :=
  match dbbt with
  | None => false
  | Some t => bool_decide (block_num ∈ take (Z.to_nat (db_entries t)) (db_bad t))
  end.

Definition BCB_CNT : Z := 4.
Definition BCB_FCB_START : Z := 0.
Definition BCB_DBBT_START : Z := 256.
Definition BCB_DBBT_SIZE : Z := 1.

Fixpoint psd_le (n : nat) (x : Z) : bytes :=
  match n with O => [] | Datatypes.S n => (x mod 256) :: psd_le n (x / 256) end.

(** [dbbt_t] as written: the header padded to four pages, and the table. *)
Definition dbbt_bytes (t : dbbt_t) : bytes :=
  psd_le 4 0 ++ psd_le 4 1413628484 ++ psd_le 4 16777216 ++ psd_le 4 0 ++ psd_le 4 BCB_DBBT_SIZE ++
  replicate (Z.to_nat (4 * 4096 - 20)) 0 ++ psd_le 4 0 ++ psd_le 4 (db_entries t) ++ concat (psd_le 4 <$> db_bad t).

(** [BCB_CNT] copies after the FCB blocks; the number of those that failed. *)
Fixpoint dbbt_loop (k : nat) (info : psd_info) (fd partoff failed : Z) (data : bytes) (f : F) : Z * F :=
  match k with
  | O => (failed, f)
  | Datatypes.S k =>
      let '(pos, f) := psd_lseek fd partoff SEEK_SET f in
      if pos <? 0 then dbbt_loop k info fd (partoff + pi_erasesz info) (failed + 1) data f
      else
        let '(n, f) := psd_write fd data f in
        dbbt_loop k info fd (partoff + pi_erasesz info) (if negb (n =? zlen data) then failed + 1 else failed) data f
  end.
Definition dbbt_flash (info : psd_info) (fd : Z) (dbbt : dbbt_t) (f : F) : Z * F :=
  let '(failed, f) := dbbt_loop (Z.to_nat BCB_CNT) info fd (BCB_CNT * pi_erasesz info) 0 (dbbt_bytes dbbt) f in
  (if failed =? BCB_CNT then -1 else 0, f).

(** The fields of [fcb_t] after the checksum; those that [fcb_init] does not set are
    zero, as in the buffer. *)
Definition fcb_fields (info : psd_info) : bytes :=
  psd_le 4 541213510 ++ psd_le 4 16777216 ++ [120; 60; 25; 6; 0; 0; 0; 0] ++
  psd_le 4 (pi_writesz info) ++ psd_le 4 (pi_writesz info + pi_metasz info) ++ psd_le 4 (pi_erasesz info / pi_writesz info) ++
  psd_le 4 0 ++ psd_le 4 0 ++ psd_le 4 0 ++
  psd_le 4 7 ++ psd_le 4 0 ++ psd_le 4 512 ++ psd_le 4 8 ++ psd_le 4 16 ++ psd_le 4 8 ++
  concat (replicate 6 (psd_le 4 0)) ++ psd_le 4 0 ++ replicate 8 0 ++
  psd_le 4 (8 * 64) ++ psd_le 4 (24 * 64) ++ psd_le 4 1 ++ psd_le 4 1 ++ psd_le 4 BCB_DBBT_START ++
  psd_le 4 4096 ++ psd_le 4 0 ++ psd_le 4 4096 ++ concat (replicate 8 (psd_le 4 0)) ++
  psd_le 4 65535 ++ psd_le 4 1 ++ psd_le 4 0 ++ psd_le 4 0 ++ psd_le 4 0 ++ replicate 28 0 ++ psd_le 4 1 ++ replicate 64 0.

Definition fcb_init (info : psd_info) : bytes :=
  let fields := fcb_fields info in psd_le 4 (bcb_checksum fields) ++ fields.

(** [encode_bch_ecc size fcb] is the raw page with the error correction of the BCH library. *)
Context (encode_bch_ecc : Z -> bytes -> bytes).

Fixpoint fcb_loop (k : nat) (i : Z) (info : psd_info) (oid failed : Z) (tbuf : bytes) (f : F) : Z * F :=
  match k with
  | O => (failed, f)
  | Datatypes.S k =>
      let raw := pi_writesz info + pi_metasz info in
      let addr := (BCB_FCB_START + i * (pi_erasesz info / pi_writesz info)) * raw in
      let '(err, f) := flashmng_writedev oid addr tbuf writeraw f in
      if err <? 0 then fcb_loop k (i + 1) info oid (failed + 1) tbuf f
      else
        let '(err, sbuf, f) := flashmng_readraw oid addr raw f in
        if err <? 0 then fcb_loop k (i + 1) info oid (failed + 1) tbuf f
        else fcb_loop k (i + 1) info oid (if bool_decide (sbuf = tbuf) then failed else failed + 1) tbuf f
  end.

Definition fcb_flash (mem : bool) (info : psd_info) (oid : Z) (f : F) : Z * F :=
  if negb mem then (-1, f)
  else
    let tbuf := encode_bch_ecc (pi_writesz info + pi_metasz info) (fcb_init info) in
    let '(failed, f) := fcb_loop (Z.to_nat BCB_CNT) 0 info oid 0 (255 :: tail tbuf) f in
    (if failed =? BCB_CNT then -1 else 0, f).

(** ** The server ([psd.c]) *)

Record filedes := Filedes { fdd : Z; fdoid : Z }.

(** [psd_common]: [ps_f] is the index of the current file, [ps_files] the array of
    [FILES_SIZE] slots. *)
Record psd_t := Psd {
  ps_run : bool; ps_dbbt : option dbbt_t; ps_partsz : Z; ps_partOffs : Z;
  ps_nfiles : Z; ps_f : Z; ps_files : list filedes }.

Definition FILES_SIZE : Z := 16.
Context (info : psd_info).

Definition report3 (hab : bool) : bytes := 3 :: (if hab then [86; 120; 120; 86] else [18; 52; 52; 18]).
Definition report4 (head : bytes) : bytes := 4 :: head ++ replicate 60 0.

Definition psd_hidResponse (err type : Z) (w : world F) : Z * world F :=
  if err =? 0 then
    let '(res, w) := sdp_send 3 (report3 true) w in
    let err := if res <? 0 then - eReport3 else err in
    if type =? SDP_WRITE_FILE then
      let '(res, w) := sdp_send 4 (report4 [136; 136; 136; 136]) w in (if res <? 0 then - eReport4 else err, w)
    else if type =? SDP_WRITE_REGISTER then
      let '(res, w) := sdp_send 4 (report4 [18; 138; 138; 18]) w in (if res <? 0 then - eReport4 else err, w)
    else (- eReport4, w)
  else
    let '(res, w) := sdp_send 3 (report3 false) w in
    let err := if res <? 0 then - eReport3 else err in
    let '(res, w) := sdp_send 4 (report4 [u8 err; 170; 170; 170]) w in
    (if res <? 0 then - eReport4 else err, w).

Definition set_f (n : Z) (p : psd_t) : psd_t :=
  Psd (ps_run p) (ps_dbbt p) (ps_partsz p) (ps_partOffs p) (ps_nfiles p) n (ps_files p).
Definition set_part (sz offs : Z) (p : psd_t) : psd_t :=
  Psd (ps_run p) (ps_dbbt p) sz offs (ps_nfiles p) (ps_f p) (ps_files p).
Definition set_dbbt (t : dbbt_t) (p : psd_t) : psd_t :=
  Psd (ps_run p) (Some t) (ps_partsz p) (ps_partOffs p) (ps_nfiles p) (ps_f p) (ps_files p).
Definition set_run (b : bool) (p : psd_t) : psd_t :=
  Psd b (ps_dbbt p) (ps_partsz p) (ps_partOffs p) (ps_nfiles p) (ps_f p) (ps_files p).

(** [None] is an index outside the array of files. *)
Definition psd_changePartition (number : Z) (p : psd_t) (f : F) : option (Z * psd_t * F) :=
  let number := u8 number in
  if ps_nfiles p <? number then Some (- eReport1, p, f)
  else
    x ← rd (ps_files p) number;
    let p := set_f number p in
    let '(sz, f) := flashmng_getAttr atSize (fdoid x) f in
    match sz with
    | None => Some (- eReport1, p, f)
    | Some sz =>
        let p := set_part sz (ps_partOffs p) p in
        let '(offs, f) := flashmng_getAttr atDev (fdoid x) f in
        match offs with
        | None => Some (- eReport1, p, f)
        | Some offs => Some (0, set_part sz offs p, f)
        end
    end.

Definition FLASH_FCB : Z := 1.
Definition FLASH_DBBT : Z := 2.
Definition SCAN_PART_BB : Z := 3.

Definition psd_controlBlock (mem : bool) (block : Z) (p : psd_t) (f : F) : option (Z * psd_t * F) :=
  x ← rd (ps_files p) (ps_f p);
  if block =? FLASH_FCB then let '(err, f) := fcb_flash mem info (fdoid x) f in Some (err, p, f)
  else if (block =? FLASH_DBBT) || (block =? SCAN_PART_BB) then
    match (match ps_dbbt p with Some t => Some t | None => if mem then Some dbbt_new else None end) with
    | None => Some (- ENOMEM, p, f)
    | Some t =>
        let p := set_dbbt t p in
        if block =? FLASH_DBBT then let '(err, f) := dbbt_flash info (fdd x) t f in Some (err, p, f)
        else
          '(err, t, f) ← flashmng_checkRange info (fdoid x) (u32 (ps_partOffs p)) (u32 (ps_partsz p)) t f;
          Some (err, set_dbbt t p, f)
    end
  else Some (- eReport1, p, f).

Definition psd_erasePartition (size format : Z) (p : psd_t) (f : F) : option (Z * F) :=
  x ← rd (ps_files p) (ps_f p);
  let '(err, f) := if negb (format =? 16) then flashmng_eraseBlocks (fdoid x) 0 size f else (0, f) in
  if err <? 0 then Some (err, f)
  else if (format =? 8) || (format =? 16) then flashmng_cleanMarkers info (fdoid x) 0 (u32 (ps_partsz p)) f
  else Some (err, f).

Definition CHANGE_PARTITION : Z := -1.
Definition ERASE_PARTITION_ADDRESS : Z := -2.
Definition CONTROL_BLOCK_ADDRESS : Z := -5.
Definition BLOW_FUSES : Z := -6.
Definition CLOSE_PSD : Z := -100.

(** The fuses are hardware: their result is given. *)
Context (psd_blowFuses : Z -> Z).

Definition with_flash (p : psd_t) (w : world F) (r : option (Z * psd_t * F)) : option (Z * psd_t * world F) :=
  '(err, p, f) ← r; Some (err, p, World (w_in w) (w_send w) (w_sent w) f).

Definition psd_writeRegister (mem : bool) (cmd : sdp_cmd_t) (p : psd_t) (w : world F) : option (Z * psd_t * world F) :=
  let address := s32 (sc_address cmd) in
  '(err, p, w) ←
    (if address =? CHANGE_PARTITION then with_flash p w (psd_changePartition (sc_data cmd) p (w_fl w))
     else if address =? CONTROL_BLOCK_ADDRESS then with_flash p w (psd_controlBlock mem (sc_data cmd) p (w_fl w))
     else if address =? ERASE_PARTITION_ADDRESS then
       with_flash p w ('(err, f) ← psd_erasePartition (sc_data cmd) (sc_format cmd) p (w_fl w); Some (err, p, f))
     else if address =? BLOW_FUSES then Some (psd_blowFuses (sc_data cmd), p, w)
     else if address =? CLOSE_PSD then Some (0, set_run false p, w)
     else Some (- eReport1, p, w));
  let '(err, w) := psd_hidResponse err SDP_WRITE_REGISTER w in
  Some (err, p, w).

(** The reports of one page: the bytes received (from [buffOffset] on) and an error.
    [left] bytes of the file are missing. *)
Fixpoint recv_page (fuel : nat) (left : Z) (buff : bytes) (w : world F) : option (Z * bytes * world F) :=
  match fuel with
  | O => None
  | Datatypes.S fuel =>
      if (zlen buff <? pi_writesz info) && (zlen buff <? left) then
        let '((res, data, _), w) := sdp_recv 1 w in
        if res <? 0 then Some (- eReport2, buff, w)
        else recv_page fuel left (buff ++ take (Z.to_nat res) (drop 1 (default [] data))) w
      else Some (0, buff, w)
  end.

Inductive skip := SkipOk (offs : Z) | SkipBad | SkipErr (offs : Z).

(** [while (flashmng_isBadBlock(...))]. *)
Fixpoint skip_bad (fuel : nat) (format fd oid offs : Z) (f : F) : option (skip * F) :=
  match fuel with
  | O => None
  | Datatypes.S fuel =>
      let '(b, f) := flashmng_isBadBlock oid offs f in
      if b =? 0 then Some (SkipOk offs, f)
      else if format =? 1 then Some (SkipBad, f)
      else
        let '(pos, f) := psd_lseek fd (pi_erasesz info) SEEK_CUR f in
        if pos <? 0 then Some (SkipErr offs, f)
        else skip_bad fuel format fd oid (offs + pi_erasesz info) f
  end.

(** A page as written: the bytes received, [0xff] behind them, cut to the page. *)
Definition page_of (buff : bytes) : bytes :=
  take (Z.to_nat (pi_writesz info)) (buff ++ replicate (Z.to_nat (pi_writesz info - zlen buff)) 255).

(** The loop of [psd_writeFile]: the error and the state. *)
Fixpoint file_loop (fuel : nat) (n m : nat) (format fd oid offs left : Z) (w : world F) : option (Z * world F) :=
  match fuel with
  | O => None
  | Datatypes.S fuel =>
      if left <=? 0 then Some (0, w)
      else
        '(err, buff, w) ← recv_page n left [] w;
        if (zlen buff =? 0) || negb (err =? 0) then Some (- eReport2, w)
        else
          '(s, fl) ← (if offs mod pi_erasesz info =? 0 then skip_bad m format fd oid offs (w_fl w)
                      else Some (SkipOk offs, w_fl w));
          let w := World (w_in w) (w_send w) (w_sent w) fl in
          match s with
          | SkipBad => Some (0, w)
          | SkipErr _ => Some (- eReport2, w)
          | SkipOk offs =>
              let '(res, w) := on_flash (psd_write fd (page_of buff)) w in
              if negb (res =? pi_writesz info) then Some (- eReport2, w)
              else file_loop fuel n m format fd oid (offs + zlen buff) (left - zlen buff) w
          end
  end.

(** [n] bounds the reports of a page, [m] the bad blocks in a row; [None] when a host
    or a device makes the loops run longer. *)
Definition psd_writeFile (n m : nat) (cmd : sdp_cmd_t) (p : psd_t) (w : world F) : option (Z * world F) :=
  let offs := sc_address cmd in
  if negb (offs mod pi_writesz info =? 0) then Some (- eReport1, w)
  else if ps_partsz p <? offs + sc_datasz cmd then Some (- eReport1, w)
  else
    x ← rd (ps_files p) (ps_f p);
    let '(pos, w) := on_flash (psd_lseek (fdd x) offs SEEK_SET) w in
    if pos <? 0 then Some (- eReport1, w)
    else
      '(err, w) ← file_loop (Datatypes.S (Z.to_nat (sc_datasz cmd))) n m (sc_format cmd) (fdd x) (fdoid x) offs (sc_datasz cmd) w;
      Some (psd_hidResponse err SDP_WRITE_FILE w).

(** The loop of [main]: the result of [sdp_recv] is ignored, the command is what
    [pcmd] points to. [cmd] is the buffer, once [pcmd] was set. *)
Fixpoint psd_loop (fuel : nat) (n m : nat) (mem : bool) (cmd : option sdp_cmd_t) (p : psd_t) (w : world F)
    : option (Z * psd_t * world F) :=
  match fuel with
  | O => None
  | Datatypes.S fuel =>
      if negb (ps_run p) then Some (0, p, w)
      else
        let '((_, data, set_), w) := sdp_recv 0 w in
        (* a report that is refused still overwrites the buffer, in its byte order *)
        let cmd :=
          match data, cmd with
          | Some d, Some _ => Some (get_cmd d)
          | Some d, None => if set_ then Some (get_cmd d) else None
          | None, _ => cmd
          end in
        c ← cmd;
        if sc_type c =? SDP_WRITE_REGISTER then
          '(err, p, w) ← psd_writeRegister mem c p w;
          if negb (err =? 0) then Some (err, p, w) else psd_loop fuel n m mem cmd p w
        else if sc_type c =? SDP_WRITE_FILE then
          '(err, w) ← psd_writeFile n m c p w;
          if negb (err =? 0) then Some (err, p, w) else psd_loop fuel n m mem cmd p w
        else psd_loop fuel n m mem cmd p w
  end.

(** [while (lookup(...) < 0)] for every argument: the identifiers. *)
Fixpoint lookup_retry (fuel : nat) (name : bytes) (f : F) : option (Z * F) :=
  match fuel with
  | O => None
  | Datatypes.S fuel =>
      match psd_lookup name f with
      | (Some oid, f) => Some (oid, f)
      | (None, f) => lookup_retry fuel name f
      end
  end.

Fixpoint lookup_files (n : nat) (i : Z) (names : list bytes) (files : list filedes) (f : F) : option (list filedes * F) :=
  match names with
  | [] => Some (files, f)
  | name :: names =>
      '(oid, f) ← lookup_retry n name f;
      x ← rd files (i - 1);
      files ← wr files (i - 1) (Filedes (fdd x) oid);
      lookup_files n (i + 1) names files f
  end.

(** The loop over [psd_common.nfiles], which ends as [argc]. *)
Fixpoint open_files (nfiles : Z) (names : list bytes) (files : list filedes) (f : F) : option (bool * Z * list filedes * F) :=
  match names with
  | [] => Some (true, nfiles, files, f)
  | name :: names =>
      let '(fd, f) := psd_open name f in
      x ← rd files (nfiles - 1);
      files ← wr files (nfiles - 1) (Filedes fd (fdoid x));
      if fd <? 0 then Some (false, nfiles, files, f) else open_files (nfiles + 1) names files f
  end.

Fixpoint close_files (k : nat) (i : Z) (files : list filedes) (f : F) : option F :=
  match k with
  | O => Some f
  | Datatypes.S k => x ← rd files i; close_files k (i + 1) files (psd_close (fdd x) f)
  end.

Definition psd_common : psd_t := Psd false None 0 0 0 0 (replicate (Z.to_nat FILES_SIZE) (Filedes 0 0)).
End psd.

(** [main]: [args] are the arguments behind the name, [thread] and [hid] the results of
    starting the watchdog thread and of [sdp_init].  A failed [flashmng_getInfo] leaves
    the description of the flash zero.  [None] also when no host closes the session. *)
Definition psd_main {F} `{PsdFlash F} (eReport1 eReport2 eReport3 eReport4 writemeta writeraw atSize atDev : Z)
    (encode_bch_ecc : Z -> bytes -> bytes) (psd_blowFuses : Z -> Z) (fuel n m : nat) (mem : bool)
    (thread hid : Z) (args : list bytes) (w : world F) : option (Z * world F) :=
  let argc := zlen args + 1 in
  let with_fl (w : world F) (f : F) := World (w_in w) (w_send w) (w_sent w) f in
  if (argc <? 2) || (FILES_SIZE <? argc) then Some (-1, w)
  else
    '(files, f) ← lookup_files n 1 args (ps_files psd_common) (w_fl w);
    if thread <? 0 then Some (-1, with_fl w f)
    else
      '(ok, nfiles, files, f) ← open_files 1 args files f;
      if negb ok then Some (-1, with_fl w f)
      else
        let p := Psd true None 0 0 nfiles 0 files in
        '(_, p, f) ← psd_changePartition eReport1 atSize atDev 0 p f;
        x ← rd (ps_files p) (ps_f p);
        let '(i, f) := psd_infomsg (fdoid x) f in
        let info := default (PInfo 0 0 0) i in
        if negb (hid =? 0) then Some (-1, with_fl w f)
        else
          '(err, p, w) ← psd_loop eReport1 eReport2 eReport3 eReport4 writemeta writeraw atSize atDev
                           encode_bch_ecc info psd_blowFuses fuel n m mem None p (with_fl w f);
          if negb (err =? 0) then Some (err, w)
          else f ← close_files (Z.to_nat (ps_nfiles p)) 0 (ps_files p) (w_fl w); Some (0, with_fl w f).
