(* ===== verification/PsdSpec.v ===== *)
(** * What the serial downloader writes

    A partition as pages and bad blocks with the documented behaviour of its file and
    its flash server; a received file ends on the good pages in their order; the scan
    for bad blocks records them within the table; the reports a command is answered
    with; the partitions a host may select. *)

From S2P Require Import Prelude.
From S2P Require Import Pages.
From S2P Require Import Psd.

(** The position of the file, the pages of the partition and its bad blocks. *)
Class PsdView (F : Type) := {
  pv_pos : F -> Z;
  pv_page : F -> Z -> bytes;
  pv_bad : F -> Z -> bool;
}.

(** The same pages and bad blocks. *)
Definition psd_same {F} `{PsdView F} (f f' : F) : Prop :=
  (forall q, pv_page f' q = pv_page f q) /\ (forall b, pv_bad f' b = pv_bad f b).

(** A partition of [nb] blocks: its blocks keep their state, positions can be set, and
    a whole page is written where its block is good. *)
Class PsdLaws (F : Type) `{PsdFlash F, PsdView F} (info : psd_info) (fd oid nb : Z) : Prop := {
  law_isBad f b : 0 <= b < nb -> exists r f',
    psd_msg oid (RqIsBad (b * pi_erasesz info)) f = (r, f') /\ psd_same f f' /\ pv_pos f' = pv_pos f /\
    0 <= pr_ret r /\ (pr_err r =? 0) = negb (pv_bad f b);
  law_seek_set f o : 0 <= o -> exists f',
    psd_lseek fd o SEEK_SET f = (o, f') /\ psd_same f f' /\ pv_pos f' = o;
  law_seek_cur f o : 0 <= o -> 0 <= pv_pos f -> exists f',
    psd_lseek fd o SEEK_CUR f = (pv_pos f + o, f') /\ psd_same f f' /\ pv_pos f' = pv_pos f + o;
  law_write f q data : 0 <= q -> pv_pos f = q * pi_writesz info ->
    zlen data = pi_writesz info -> (q + 1) * pi_writesz info <= nb * pi_erasesz info ->
    pv_bad f (q * pi_writesz info / pi_erasesz info) = false -> exists f',
    psd_write fd data f = (pi_writesz info, f') /\ pv_pos f' = (q + 1) * pi_writesz info /\
    pv_page f' q = data /\ (forall q', q' <> q -> pv_page f' q' = pv_page f q') /\
    (forall b, pv_bad f' b = pv_bad f b);
}.

Lemma isBad_eq `{PsdLaws F info fd oid nb} f b :
  0 < pi_erasesz info -> nb * pi_erasesz info + pi_erasesz info <= 4294967296 -> 0 <= b < nb -> exists r f',
  flashmng_isBadBlock oid (b * pi_erasesz info) f = (r, f') /\ psd_same f f' /\ pv_pos f' = pv_pos f /\
  (r =? 0) = negb (pv_bad f b).
Proof.
  intros Hes Hmax Hb. unfold flashmng_isBadBlock. rewrite u32_small by nia.
  destruct (law_isBad f b Hb) as (r & f' & -> & Hs & Hp & Hr & He).
  eexists _, f'. split; [reflexivity|]. split_and!; [done..|].
  destruct (Z.ltb_spec (pr_ret r) 0); [lia|]. rewrite He. by destruct (pv_bad f b).
Qed.

Section spec.
Context {F : Type} `{PsdLaws F info fd oid nb} (ppb : Z).
Context (Hws : 0 < pi_writesz info) (Hppb : 0 < ppb) (Hes : pi_erasesz info = ppb * pi_writesz info)
        (Hnb : 0 <= nb) (Hmax : nb * pi_erasesz info + pi_erasesz info <= 4294967296).
Context (eReport1 eReport2 eReport3 eReport4 : Z).
#[local] Abbreviation ws := (pi_writesz info).
#[local] Abbreviation es := (pi_erasesz info).

#[local] Abbreviation good := (good_pages ws es nb ppb).

Lemma same_trans f1 f2 f3 : psd_same f1 f2 -> psd_same f2 f3 -> psd_same f1 f3.
Proof. intros [Ha Hb] [Hc Hd]. split; intros; [by rewrite Hc|by rewrite Hd]. Qed.

(** Skipping bad blocks stops at the first good one. *)
Lemma skip_bad_ok format : format <> 1 -> forall m f b,
  0 <= b <= nb -> (Z.to_nat (nb - b) < m)%nat -> pv_pos f = b * es -> good (pv_bad f) (b * ppb) <> [] ->
  exists b' f', skip_bad info m format fd oid (b * es) f = Some (SkipOk (b' * es), f') /\
    psd_same f f' /\ b <= b' < nb /\ pv_pos f' = b' * es /\ pv_bad f b' = false /\
    good (pv_bad f) (b * ppb) = good (pv_bad f) (b' * ppb).
Proof.
  intros Hfmt m. induction m as [|m IH]; intros f b Hb Hm Hpos Hgood; [lia|].
  assert (b < nb). { destruct (decide (b < nb)); [done|]. destruct Hgood. by apply good_pages_end; nia. }
  simpl. destruct (isBad_eq f b) as (r & f1 & -> & Hs1 & Hp1 & Hr); [nia|lia..|]. simpl. rewrite Hr.
  destruct (pv_bad f b) eqn:Eb; simpl.
  - destruct (Z.eqb_spec format 1); [done|].
    destruct (law_seek_cur f1 es) as (f2 & -> & Hs2 & Hp2); [nia..|].
    destruct (Z.ltb_spec (pv_pos f1 + es) 0); [nia|].
    destruct (IH f2 (b + 1)) as (b' & f' & E & Hs' & Hb' & Hp' & Hg' & Heq); [lia..| | |].
    { nia. }
    { rewrite (good_pages_ext (pv_bad f)).
      - by rewrite <- good_pages_bad by (done || lia).
      - intros c. destruct Hs1, Hs2. congruence. }
    exists b', f'. replace (b * es + es) with ((b + 1) * es) by lia. split; [done|].
    assert (Hbad : forall c, pv_bad f2 c = pv_bad f c) by (intros c; destruct Hs1, Hs2; congruence).
    split_and!; [by eauto using same_trans|lia|lia|done|by rewrite <- Hbad|].
    rewrite good_pages_bad by (done || lia). by rewrite !(good_pages_ext (pv_bad f) (pv_bad f2)) in Heq.
  - exists b, f1. split_and!; try done; try lia.
Qed.

Lemma page_of_len buff : zlen buff <= ws -> zlen (page_of info buff) = ws.
Proof. intros. unfold page_of. zlia. Qed.

Lemma block_start p : 0 <= p -> ((p * ws) mod es =? 0) = (p mod ppb =? 0).
Proof.
  intros. rewrite Hes, Z.mul_mod_distr_r by lia.
  destruct (Z.eqb_spec (p mod ppb) 0) as [->|]; [done|]. apply Z.eqb_neq. nia.
Qed.

Lemma next_in_block q : (q + 1) mod ppb <> 0 -> (q + 1) / ppb = q / ppb.
Proof.
  intros Hmid. pose proof (Z.div_mod q ppb). pose proof (Z.mod_pos_bound q ppb).
  symmetry. apply Z.div_unique with (q mod ppb + 1); [|lia]. left. split; [lia|].
  destruct (decide (q mod ppb + 1 = ppb)); [|lia]. destruct Hmid.
  replace (q + 1) with ((q / ppb + 1) * ppb) by lia. apply Z.mod_mul. lia.
Qed.

(** One page: bad blocks are skipped, and it ends on the first good page. *)
Lemma write_page_ok format m f p q L buff : format <> 1 -> (Z.to_nat nb < m)%nat -> 0 <= p <= nb * ppb ->
  pv_pos f = p * ws -> (p mod ppb = 0 \/ pv_bad f (p / ppb) = false) -> zlen buff <= ws ->
  good (pv_bad f) p = q :: L -> exists f1 f2,
    (if (p * ws) mod es =? 0 then skip_bad info m format fd oid (p * ws) f else Some (SkipOk (p * ws), f))
      = Some (SkipOk (q * ws), f1) /\
    psd_write fd (page_of info buff) f1 = (ws, f2) /\ L = good (pv_bad f) (q + 1) /\ p <= q < nb * ppb /\
    pv_bad f (q / ppb) = false /\ pv_pos f2 = (q + 1) * ws /\ pv_page f2 q = page_of info buff /\
    (forall q', q' <> q -> pv_page f2 q' = pv_page f q') /\ (forall b, pv_bad f2 b = pv_bad f b).
Proof.
  intros Hfmt Hm Hp Hpos Hgood Hbuff Hq.
  assert (exists p' f1,
    (if (p * ws) mod es =? 0 then skip_bad info m format fd oid (p * ws) f else Some (SkipOk (p * ws), f))
      = Some (SkipOk (p' * ws), f1) /\ psd_same f f1 /\ p <= p' < nb * ppb /\ pv_pos f1 = p' * ws /\
    pv_bad f (p' / ppb) = false /\ good (pv_bad f) p = good (pv_bad f) p')
    as (p' & f1 & E & [Hs1 Hs2] & Hp' & Hpos1 & Hb & Heq).
  { rewrite block_start by lia. destruct (Z.eqb_spec (p mod ppb) 0) as [Ep|Ep].
    - assert (Epb : p = p / ppb * ppb) by (pose proof (Z.div_mod p ppb); lia).
      set (b := p / ppb) in *. clearbody b. subst p.
      assert (0 <= b <= nb) by (split; apply (Zmult_le_reg_r _ _ ppb); lia).
      destruct (skip_bad_ok format Hfmt m f b) as (b' & f1 & E & Hs & Hb' & Hpos1 & Hg & Heq);
        [lia|lia|rewrite Hpos, Hes; lia|by rewrite Hq|].
      exists (b' * ppb), f1. replace (b * ppb * ws) with (b * es) by (rewrite Hes; lia).
      replace (b' * ppb * ws) with (b' * es) by (rewrite Hes; lia). rewrite E.
      split_and!; [done|done|nia|nia|rewrite Hpos1, Hes; lia| |done].
      by rewrite Z.div_mul by lia.
    - exists p, f. destruct Hgood as [|Hgood]; [lia|].
      destruct (decide (p < nb * ppb)); [by split_and!|].
      rewrite good_pages_end in Hq by lia. done. }
  rewrite Heq, good_pages_cons in Hq by (rewrite ?(page_block Hws Hppb Hes); done || lia).
  injection Hq as <- <-.
  destruct (page_in Hws Hppb Hes Hnb p') as [Hin Hblk]; [lia..|].
  destruct (law_write f1 p' (page_of info buff)) as (f2 & Hw & Hpos2 & Hpg & Hother & Hbad);
    [lia|done|by apply page_of_len|done|by rewrite (page_block Hws Hppb Hes), Hs2|].
  exists f1, f2. split_and!; try done; try lia.
  - intros q' Hne. by rewrite Hother, Hs1.
  - intros b. by rewrite Hbad, Hs2.
Qed.

(** A report of data, as the transport delivers it. *)
Definition data_report (d : bytes) : Z * bytes := (zlen d + 1, 2 :: d).

Lemma recv_page_ok left g : Forall (fun d => d <> []) g -> forall fuel buff rest snd_ sent (f : F), (length g < fuel)%nat ->
  zlen (buff ++ concat g) = Z.min ws left ->
  recv_page eReport2 info fuel left buff (World ((data_report <$> g) ++ rest) snd_ sent f) =
  Some (0, buff ++ concat g, World rest snd_ sent f).
Proof.
  induction 1 as [|d g Hd Hg IH]; intros [|fuel] buff rest snd_ sent f Hfuel Hlen; simpl in Hfuel; try lia; simpl in *.
  - rewrite app_nil_r in *. destruct (Z.ltb_spec (zlen buff) ws), (Z.ltb_spec (zlen buff) left); simpl; try done; lia.
  - assert (0 < zlen d). { pose proof (zlen_nonneg d). destruct d; [done|]. zlia. }
    rewrite !zlen_app in Hlen. pose proof (zlen_nonneg (concat g)).
    destruct (Z.ltb_spec (zlen buff) ws); [|lia]. destruct (Z.ltb_spec (zlen buff) left); [|lia]. simpl.
    unfold sdp_recv. simpl. destruct (Z.ltb_spec (zlen d + 1) 0); [lia|]. simpl.
    replace (zlen d + 1 - 1) with (zlen d) by lia. destruct (Z.ltb_spec (zlen d) 0); [lia|].
    rewrite drop_0. replace (take (Z.to_nat (zlen d)) d) with d by (unfold zlen; rewrite Nat2Z.id; by rewrite firstn_all).
    rewrite IH; [by rewrite <- (assoc_L (++))|lia|]. rewrite !zlen_app. lia.
Qed.

(** The reports of a file: page by page, each page in non-empty reports. *)
Fixpoint pages_ok (left : Z) (groups : list (list bytes)) : Prop :=
  match groups with
  | [] => left = 0
  | g :: groups =>
      0 < left /\ Forall (fun d => d <> []) g /\ zlen (concat g) = Z.min ws left /\
      pages_ok (left - zlen (concat g)) groups
  end.

Lemma pages_ok_count groups : forall left, pages_ok left groups -> 0 <= left /\ (length groups <= Z.to_nat left)%nat.
Proof.
  induction groups as [|g groups IH]; intros left Hok; simpl in *; [lia|].
  destruct Hok as (Hl & _ & Hg & Hok). apply IH in Hok. lia.
Qed.

(** The pages of the groups, in the order of the pages [L]. *)
Definition stored (f f' : F) (L : list Z) (groups : list (list bytes)) : Prop :=
  placed (pv_page f) (pv_page f') L ((fun g => page_of info (concat g)) <$> groups).

Lemma file_loop_ok format n m : format <> 1 -> (Z.to_nat nb < m)%nat -> forall groups fuel (f : F) p left rest snd_ sent,
  (length groups < fuel)%nat -> Forall (fun g => (length g < n)%nat) groups -> pages_ok left groups ->
  0 <= p <= nb * ppb -> pv_pos f = p * ws -> (p mod ppb = 0 \/ pv_bad f (p / ppb) = false) ->
  (length groups <= length (good (pv_bad f) p))%nat -> exists f',
  file_loop eReport2 info fuel n m format fd oid (p * ws) left
    (World ((data_report <$> concat groups) ++ rest) snd_ sent f) = Some (0, World rest snd_ sent f') /\
  stored f f' (good (pv_bad f) p) groups.
Proof.
  intros Hfmt Hm groups. induction groups as [|g groups IH];
    intros [|fuel] f p left rest snd_ sent Hfuel Hn Hok Hp Hpos Hal Hlen; simpl in Hfuel; try lia.
  - simpl in Hok. subst. exists f. split; [done|]. by apply placed_nil.
  - destruct Hok as (Hl & Hne & Hg & Hok). apply Forall_cons in Hn as [Hn1 Hn].
    destruct (good (pv_bad f) p) as [|q L] eqn:Hgp; [simpl in Hlen; lia|]. simpl in Hlen.
    destruct (write_page_ok format m f p q L (concat g)) as
      (f1 & f2 & Hskip & Hw & HL & Hq & Hqb & Hpos2 & Hpg & Hother & Hbad); [done..|lia|done|].
    simpl. rewrite fmap_app, <- (assoc_L (++)). destruct (Z.leb_spec left 0); [lia|].
    rewrite recv_page_ok by done. simpl.
    destruct (Z.eqb_spec (zlen (concat g)) 0); [lia|]. simpl. rewrite Hskip. simpl.
    unfold on_flash. simpl. rewrite Hw. simpl. rewrite Z.eqb_refl. simpl.
    assert (HL2 : L = good (pv_bad f2) (q + 1)) by (rewrite HL; symmetry; by apply good_pages_ext).
    assert (Hq1 : q ∉ L). { rewrite HL. intros ?%good_pages_ge. lia. }
    destruct groups as [|g' groups].
    + simpl in Hok. exists f2. destruct fuel as [|fuel]; [simpl in Hfuel; lia|]. simpl.
      destruct (Z.leb_spec (left - zlen (concat g)) 0); [|lia]. split; [done|].
      apply placed_cons with (pv_page f2); [done..|]. by apply placed_nil.
    + pose proof (pages_ok_count _ _ Hok) as [? Hc]. simpl in Hc.
      replace (q * ws + zlen (concat g)) with ((q + 1) * ws) by lia.
      destruct (IH fuel f2 (q + 1) (left - zlen (concat g)) rest snd_ sent) as (f' & E & Hst);
        [simpl in *; lia|done|done|lia|done| |rewrite <- HL2; simpl in *; lia|].
      { destruct (decide ((q + 1) mod ppb = 0)) as [|Hmid]; [by left|right].
        by rewrite Hbad, next_in_block. }
      exists f'. split; [done|]. rewrite <- HL2 in Hst. by apply placed_cons with (pv_page f2).
Qed.

(** ** A file *)

(** The answer to a command that succeeded. *)
Definition complete_reports (type : Z) : list bytes :=
  [report3 true; report4 (if type =? SDP_WRITE_FILE then [136; 136; 136; 136] else [18; 138; 138; 18])].

Lemma hidResponse_ok type inp sent (f : F) : type = SDP_WRITE_FILE \/ type = SDP_WRITE_REGISTER ->
  psd_hidResponse eReport3 eReport4 0 type (World inp [] sent f) =
  (0, World inp [] (sent ++ complete_reports type) f).
Proof. intros [-> | ->]; unfold psd_hidResponse, complete_reports; simpl; by rewrite <- (assoc_L (++)). Qed.


(** A file sent page by page is answered with success and ends, page by page, on the
    good pages of the partition from its offset on; no other page changes.  The last
    page is filled with [0xff]. *)
Lemma psd_writeFile_ok n m cmd a groups (p : psd_t) rest sent (f : F) :
  sc_format cmd <> 1 -> 0 <= a -> sc_address cmd = a * ws -> pages_ok (sc_datasz cmd) groups ->
  ps_partsz p = nb * es -> sc_address cmd + sc_datasz cmd <= ps_partsz p ->
  rd (ps_files p) (ps_f p) = Some (Filedes fd oid) ->
  (a mod ppb = 0 \/ pv_bad f (a / ppb) = false) ->
  (length groups <= length (good (pv_bad f) a))%nat ->
  Forall (fun g => (length g < n)%nat) groups -> (Z.to_nat nb < m)%nat -> exists f',
  psd_writeFile eReport1 eReport2 eReport3 eReport4 info n m cmd p
    (World ((data_report <$> concat groups) ++ rest) [] sent f) =
  Some (0, World rest [] (sent ++ complete_reports SDP_WRITE_FILE) f') /\
  stored f f' (good (pv_bad f) a) groups.
Proof.
  intros Hfmt Ha Haddr Hok Hsz Hfit Hfd Hal Hlen Hn Hm. pose proof (pages_ok_count _ _ Hok) as [Hd Hc].
  unfold psd_writeFile. remember (S (Z.to_nat (sc_datasz cmd))) as fuel eqn:Hfuel. rewrite Haddr, Z.mod_mul by lia. simpl. rewrite Haddr in Hfit.
  destruct (Z.ltb_spec (ps_partsz p) (a * ws + sc_datasz cmd)); [lia|]. rewrite Hfd. simpl.
  unfold on_flash. simpl. destruct (law_seek_set f (a * ws)) as (f1 & -> & [Hs1 Hs2] & Hpos); [nia|].
  destruct (Z.ltb_spec (a * ws) 0); [nia|].
  destruct (file_loop_ok (sc_format cmd) n m Hfmt Hm groups fuel f1 a (sc_datasz cmd)
              rest [] sent) as (f' & E & Hst);
    [lia|done|done|nia|done|by rewrite Hs2|by rewrite (good_pages_ext (pv_bad f))|].
  rewrite E. simpl. rewrite hidResponse_ok by auto. exists f'. split; [done|].
  rewrite (good_pages_ext (pv_bad f)) in Hst by done. by apply placed_ext with (pv_page f1) (pv_page f').
Qed.
(** *** The session *)

(** A command as the host sends it. *)
Definition be (x : Z) : bytes := [x / 16777216 mod 256; x / 65536 mod 256; x / 256 mod 256; x mod 256].
Definition cmd_report (c : sdp_cmd_t) : Z * bytes :=
  (SDP_CMD + 1, 1 :: [sc_type c mod 256; sc_type c / 256] ++ be (sc_address c) ++ [sc_format c] ++
                be (sc_datasz c) ++ be (sc_data c) ++ [0]).

Definition cmd_ok (c : sdp_cmd_t) : Prop :=
  0 <= sc_type c < 65536 /\ 0 <= sc_address c < 4294967296 /\ 0 <= sc_datasz c < 4294967296 /\
  0 <= sc_data c < 4294967296.

Lemma be32_be x : 0 <= x < 4294967296 ->
  16777216 * (x / 16777216 mod 256) + 65536 * (x / 65536 mod 256) + 256 * (x / 256 mod 256) + x mod 256 = x.
Proof. intros. Z.div_mod_to_equations. lia. Qed.

Lemma get_cmd_report c : cmd_ok c -> get_cmd (cmd_report c).2 = c.
Proof.
  intros (Ht & Ha & Hd & Hx). destruct c as [t a fm d x]. simpl in *.
  unfold get_cmd, cmd_report, le16, be32, byte_at, be. simpl. f_equal; try (by apply be32_be).
  pose proof (Z.div_mod t 256). lia.
Qed.

Lemma recv_cmd c inp snd_ sent (f : F) :
  sdp_recv 0 (World (cmd_report c :: inp) snd_ sent f) = ((SDP_CMD, Some (cmd_report c).2, true), World inp snd_ sent f).
Proof. done. Qed.

Definition close_cmd : sdp_cmd_t := SdpCmd SDP_WRITE_REGISTER (CLOSE_PSD + 4294967296) 0 0 0.

End spec.

Section session.
Context {F : Type} `{PsdLaws F info fd oid nb} (ppb : Z).
Context (Hws : 0 < pi_writesz info) (Hppb : 0 < ppb) (Hes : pi_erasesz info = ppb * pi_writesz info)
        (Hnb : 0 <= nb) (Hmax : nb * pi_erasesz info + pi_erasesz info <= 4294967296).
Context (eReport1 eReport2 eReport3 eReport4 writemeta writeraw atSize atDev : Z).
Context (encode_bch_ecc : Z -> bytes -> bytes) (psd_blowFuses : Z -> Z) (n m : nat) (mem : bool).
#[local] Abbreviation session :=
  (psd_loop eReport1 eReport2 eReport3 eReport4 writemeta writeraw atSize atDev encode_bch_ecc info psd_blowFuses).

Lemma session_step fuel c prev (p : psd_t) inp sent (f : F) : cmd_ok c -> ps_run p = true ->
  session (S fuel) n m mem prev p (World (cmd_report c :: inp) [] sent f) =
  (let w := World inp [] sent f in
   if sc_type c =? SDP_WRITE_REGISTER then
     '(err, p, w) ← psd_writeRegister eReport1 eReport3 eReport4 writemeta writeraw atSize atDev encode_bch_ecc info
                      psd_blowFuses mem c p w;
     if negb (err =? 0) then Some (err, p, w) else session fuel n m mem (Some c) p w
   else if sc_type c =? SDP_WRITE_FILE then
     '(err, w) ← psd_writeFile eReport1 eReport2 eReport3 eReport4 info n m c p w;
     if negb (err =? 0) then Some (err, p, w) else session fuel n m mem (Some c) p w
   else session fuel n m mem (Some c) p w).
Proof.
  intros Hc Hr. cbn [psd_loop]. rewrite Hr. cbn [negb]. rewrite recv_cmd.
  by destruct prev; rewrite get_cmd_report.
Qed.

Lemma close_ok (p : psd_t) inp sent (f : F) :
  psd_writeRegister eReport1 eReport3 eReport4 writemeta writeraw atSize atDev encode_bch_ecc info psd_blowFuses
    mem close_cmd p (World inp [] sent f) =
  Some (0, set_run false p, World inp [] (sent ++ complete_reports SDP_WRITE_REGISTER) f).
Proof.
  unfold psd_writeRegister. change (s32 (sc_address close_cmd)) with CLOSE_PSD.
  cbn [Z.eqb Pos.eqb CLOSE_PSD CHANGE_PARTITION CONTROL_BLOCK_ADDRESS ERASE_PARTITION_ADDRESS BLOW_FUSES mbind option_bind].
  by rewrite hidResponse_ok by auto.
Qed.

(** C8: A session that writes a file.  The format is one that skips bad blocks (any but 1),
    the address is a multiple of the page size and does not lie inside a
    bad block (it may start one), the flash has less than 4 GiB and accepts the writes to
    its good blocks, the file ends inside the partition and has no more pages than
    there are good pages from the address on, and the reports of the host fill page after
    page ([pages_ok]).  Then a host that sends the file and closes the session gets both
    commands answered with success, and the server ends with the file on the good pages of
    the partition in order and every other page as it was. *)
Theorem write_session fuel cmd a groups prev (p : psd_t) rest sent (f : F) :
  cmd_ok cmd -> sc_type cmd = SDP_WRITE_FILE -> sc_format cmd <> 1 -> sc_address cmd = a * pi_writesz info ->
  pages_ok (info := info) (sc_datasz cmd) groups -> Forall (fun g => (length g < n)%nat) groups -> (Z.to_nat nb < m)%nat ->
  ps_run p = true -> ps_partsz p = nb * pi_erasesz info -> sc_address cmd + sc_datasz cmd <= ps_partsz p ->
  rd (ps_files p) (ps_f p) = Some (Filedes fd oid) ->
  (a mod ppb = 0 \/ pv_bad f (a / ppb) = false) ->
  (length groups <= length (good_pages (pi_writesz info) (pi_erasesz info) nb ppb (pv_bad f) a))%nat -> exists f',
  session (S (S (S fuel))) n m mem prev p
    (World (cmd_report cmd :: (data_report <$> concat groups) ++ cmd_report close_cmd :: rest) [] sent f) =
  Some (0, set_run false p, World rest [] (sent ++ complete_reports SDP_WRITE_FILE ++ complete_reports SDP_WRITE_REGISTER) f') /\
  stored (info := info) f f' (good_pages (pi_writesz info) (pi_erasesz info) nb ppb (pv_bad f) a) groups.
Proof.
  intros Hc Ht Hfmt Ha Hok Hn Hm Hrun Hsz Hfit Hfd Hal Hlen. rewrite session_step by done. rewrite Ht.
  change (SDP_WRITE_FILE =? SDP_WRITE_REGISTER) with false. rewrite Z.eqb_refl. cbn zeta iota.
  destruct (psd_writeFile_ok ppb Hws Hppb Hes Hnb Hmax eReport1 eReport2 eReport3 eReport4 n m cmd a groups p
              (cmd_report close_cmd :: rest) sent f) as (f' & E & Hst); try done.
  { destruct Hc as (_ & ? & _). nia. }
  rewrite E. cbn [mbind option_bind Z.eqb negb]. rewrite session_step by (done || (unfold cmd_ok; simpl; lia)).
  exists f'. split; [|done]. change (sc_type close_cmd =? SDP_WRITE_REGISTER) with true. cbn zeta iota.
  rewrite close_ok. simpl. by rewrite <- (assoc_L (++)).
Qed.
End session.
