(* ===== verification/PsdClaims.v ===== *)
(** * The serial downloader: the scan for bad blocks, the choice of a partition, and a
    simulated device for the witnesses. *)

From S2P Require Import Prelude.
From S2P Require Import Pages.
From S2P Require Import Psd.
From S2P Require Import PsdSpec.

(** ** The scan for bad blocks *)

Section scan.
Context {F : Type} `{PsdLaws F info fd oid nb}.
Context (Hes : 0 < pi_erasesz info) (Hmax : nb * pi_erasesz info + pi_erasesz info <= 4294967296).
#[local] Abbreviation es := (pi_erasesz info).

Definition used (t : dbbt_t) : list Z := take (Z.to_nat (db_entries t)) (db_bad t).
Definition room (t : dbbt_t) : nat := Z.to_nat (BCB_BB_MAX - db_entries t).
Definition table_ok (t : dbbt_t) : Prop := 0 <= db_entries t < BCB_BB_MAX /\ zlen (db_bad t) = BCB_BB_MAX.

Definition bad_blocks (bad : Z -> bool) (b n : Z) : list Z := filter (fun b => bad b = true) (seqZ b n).

Lemma bad_blocks_cons bad b n : 0 < n ->
  bad_blocks bad b n = (if bad b then [b] else []) ++ bad_blocks bad (b + 1) (n - 1).
Proof.
  intros Hn. unfold bad_blocks. rewrite seqZ_cons by done.
  replace (Z.succ b) with (b + 1) by lia. replace (Z.pred n) with (n - 1) by lia.
  destruct (bad b) eqn:E; [by rewrite filter_cons_True|]. rewrite filter_cons_False; [done|]. by rewrite E.
Qed.

Lemma bad_blocks_ext bad bad' b n : (forall c, bad' c = bad c) -> bad_blocks bad' b n = bad_blocks bad b n.
Proof. intros E. unfold bad_blocks. apply list_filter_iff. intros q. by rewrite E. Qed.

(** Recording one block. *)
Lemma record_bad t b : table_ok t -> exists bad, wr (db_bad t) (db_entries t) b = Some bad /\
  used (Dbbt (db_entries t + 1) bad) = used t ++ [b] /\ zlen bad = BCB_BB_MAX.
Proof.
  intros [Ht Hl]. destruct (list_split_at (db_bad t) (db_entries t)) as (l & k & E & Hk); [lia|].
  destruct k as [|x k]; [rewrite E, app_nil_r in Hl; lia|].
  exists (l ++ b :: k). rewrite E. split; [by apply wr_app|]. split.
  - unfold used. simpl. rewrite E, <- Hk.
    replace (take (Z.to_nat (zlen l)) (l ++ x :: k)) with l by (symmetry; apply take_zlen_app).
    replace (Z.to_nat (zlen l + 1)) with (length l + 1)%nat by (unfold zlen; lia).
    by rewrite take_app_add.
  - rewrite E in Hl. zlia.
Qed.

Lemma check_loop_ok : forall n fuel b t f, (n < fuel)%nat -> 0 <= b -> b + Z.of_nat n <= nb -> table_ok t -> exists t' f',
  check_loop fuel info oid (b * es) ((b + Z.of_nat n) * es) t f = Some (t', f') /\ psd_same f f' /\
  used t' = used t ++ take (room t) (bad_blocks (pv_bad f) b (Z.of_nat n)) /\
  db_entries t' = zlen (used t') /\ db_entries t' <= BCB_BB_MAX /\ zlen (db_bad t') = BCB_BB_MAX.
Proof.
  induction n as [|n IH]; intros [|fuel] b t f Hfuel Hb Hn Ht; try lia; simpl.
  - replace (b + Z.of_nat 0) with b by lia. rewrite Z.ltb_irrefl. exists t, f.
    change (bad_blocks (pv_bad f) b (Z.of_nat 0)) with (@nil Z). rewrite take_nil, app_nil_r.
    destruct Ht as [Ht Hl]. unfold used. split_and!; [done..| |lia|done]. zlia.
  - destruct (Z.ltb_spec (b * es) ((b + Z.of_nat (S n)) * es)); [|nia].
    destruct (isBad_eq f b) as (r & f1 & -> & [Hs1 Hs2] & _ & Hr); [lia..|]. rewrite Hr.
    rewrite bad_blocks_cons by lia.
    replace (Z.of_nat (S n) - 1) with (Z.of_nat n) by lia.
    rewrite u32_small by nia. replace (b * es + es) with ((b + 1) * es) by lia.
    replace (b + Z.of_nat (S n)) with (b + 1 + Z.of_nat n) by lia.
    rewrite Z.div_mul by lia. destruct (pv_bad f b) eqn:Eb; simpl.
    + destruct (record_bad t b Ht) as (bad & -> & Hu & Hl). simpl. destruct Ht as [Ht Hlt].
      assert (Hroom : room t = S (Z.to_nat (BCB_BB_MAX - (db_entries t + 1)))) by (unfold room; lia).
      assert (Huz : zlen (used t) = db_entries t) by (unfold used; zlia).
      rewrite Hroom. simpl. destruct (Z.leb_spec BCB_BB_MAX (db_entries t + 1)).
      * exists (Dbbt (db_entries t + 1) bad), f1. replace (BCB_BB_MAX - (db_entries t + 1)) with 0 by lia.
        rewrite Hu. simpl. split_and!; try done; [zlia|lia].
      * destruct (IH fuel (b + 1) (Dbbt (db_entries t + 1) bad) f1) as (t' & f' & E & [Hs3 Hs4] & Hu' & He & Hm & Hl');
          [lia..|split; [simpl; lia|done]|].
        exists t', f'. split; [done|]. split; [split; intros; [by rewrite Hs3|by rewrite Hs4]|].
        split; [|done]. rewrite Hu', Hu. rewrite (bad_blocks_ext (pv_bad f)) by done.
        by rewrite <- (assoc_L (++)).
    + destruct (Z.leb_spec BCB_BB_MAX (db_entries t)); [destruct Ht; lia|].
      destruct (IH fuel (b + 1) t f1) as (t' & f' & E & [Hs3 Hs4] & Hu' & Hrest); [lia..|done|].
      exists t', f'. split; [done|]. split; [split; intros; [by rewrite Hs3|by rewrite Hs4]|].
      split; [|done]. by rewrite Hu', (bad_blocks_ext (pv_bad f)).
Qed.

(** The scan of a range of blocks ends, never leaves the table, and appends the bad
    blocks of the range in order as far as the table has room; it fails exactly when
    the table is full. *)
Theorem checkRange_records b n t (f : F) :
  0 <= b -> 0 <= n -> b + n <= nb -> table_ok t -> exists r t' f',
  flashmng_checkRange info oid (b * es) (n * es) t f = Some (r, t', f') /\ psd_same f f' /\
  used t' = used t ++ take (room t) (bad_blocks (pv_bad f) b n) /\
  db_entries t' = zlen (used t') /\ zlen (db_bad t') = BCB_BB_MAX /\
  (r = -1 /\ db_entries t' = BCB_BB_MAX \/ r = 0 /\ table_ok t').
Proof.
  intros Hb Hn Hbn Ht. unfold flashmng_checkRange. rewrite Z.div_mul by lia.
  replace (b * es + n * es) with ((b + Z.of_nat (Z.to_nat n)) * es) by lia. rewrite u32_small by nia.
  destruct (check_loop_ok (Z.to_nat n) (S (Z.to_nat (n + 1))) b t f) as (t' & f' & -> & Hs & Hu & He & Hm & Hl);
    [lia..|done|].
  rewrite Z2Nat.id in Hu by lia. eexists _, t', f'. split; [reflexivity|]. split_and!; [done..|].
  pose proof (zlen_nonneg (used t')). destruct (Z.leb_spec BCB_BB_MAX (db_entries t')); [left; lia|right].
  split; [done|]. split; [lia|done].
Qed.
End scan.

(** ** Choosing a partition *)

Section choose.
Context {F : Type} `{PsdFlash F}.
Context (eReport1 atSize atDev : Z).

Lemma rd_wr_other (files files' : list filedes) i j x : wr files i x = Some files' -> i <> j ->
  rd files' j = rd files j /\ zlen files' = zlen files.
Proof.
  unfold wr. intros Hw Hij. destruct ((0 <=? i) && (i <? zlen files)) eqn:E; [|done]. bprop. simplify_eq.
  split; [|apply zlen_insert]. unfold rd. destruct (Z.leb_spec 0 j); [|done]. apply list_lookup_insert_ne. lia.
Qed.

Lemma lookup_files_frame n names : forall i files (f : F) files' f',
  lookup_files n i names files f = Some (files', f') ->
  zlen files' = zlen files /\ forall j, i - 1 + zlen names <= j -> rd files' j = rd files j.
Proof.
  induction names as [|name names IH]; intros i files f files' f' E; simpl in E; [by simplify_eq|].
  obind E. destruct x as [oid f1]. obind E. obind E. rename x0 into files1, E2 into Hw.
  apply IH in E as [Hl Hr]. rewrite zlen_cons. split.
  - rewrite Hl. by apply (rd_wr_other _ _ _ (i + 1 + zlen names) _ Hw); zlia.
  - intros j Hj. rewrite Hr by zlia. apply (rd_wr_other _ _ _ _ _ Hw). zlia.
Qed.

Lemma open_files_frame names : forall i files (f : F) nfiles files' f',
  open_files i names files f = Some (true, nfiles, files', f') ->
  nfiles = i + zlen names /\ zlen files' = zlen files /\ forall j, nfiles - 1 <= j -> rd files' j = rd files j.
Proof.
  induction names as [|name names IH]; intros i files f nfiles files' f' E; simpl in E.
  { simplify_eq. split; [|done]. zlia. }
  destruct (psd_open name f) as [fd f1]. obind E. obind E. rename x0 into files1, E1 into Hw.
  destruct (fd <? 0); [done|]. apply IH in E as (-> & Hl & Hr). rewrite zlen_cons. split; [lia|]. split.
  - rewrite Hl. by apply (rd_wr_other _ _ _ (i + 1 + zlen names) _ Hw); zlia.
  - intros j Hj. rewrite Hr by zlia. apply (rd_wr_other _ _ _ _ _ Hw). zlia.
Qed.

(** After a start with [args] the numbers [zlen args] and [zlen args + 1], which name no
    argument, are accepted: they select a slot that was never opened (descriptor 0), or
    the memory behind the array. *)
Theorem changePartition_past_end n args (f0 f1 f2 g : F) files0 nfiles files p number :
  lookup_files n 1 args (ps_files psd_common) f0 = Some (files0, f1) ->
  open_files 1 args files0 f1 = Some (true, nfiles, files, f2) ->
  ps_files p = files -> ps_nfiles p = nfiles -> zlen args < FILES_SIZE ->
  number = zlen args \/ number = zlen args + 1 ->
  if number =? FILES_SIZE then psd_changePartition eReport1 atSize atDev number p g = None
  else exists err p' g', psd_changePartition eReport1 atSize atDev number p g = Some (err, p', g') /\
         ps_f p' = number /\ rd (ps_files p') number = Some (Filedes 0 0).
Proof.
  intros El Eo Hf Hn Hargs Hnum. apply lookup_files_frame in El as [Hl Hr].
  apply open_files_frame in Eo as (Hc & Hl' & Hr'). pose proof (zlen_nonneg args). unfold FILES_SIZE in *.
  unfold psd_changePartition. rewrite (u8_small number) by lia. rewrite Hn.
  destruct (Z.ltb_spec nfiles number); [lia|]. rewrite Hf.
  assert (E : rd files number = rd (ps_files psd_common) number) by (rewrite Hr', Hr by lia; done).
  destruct (Z.eqb_spec number 16) as [->|].
  - by rewrite E.
  - assert (E2 : rd files number = Some (Filedes 0 0)).
    { rewrite E. unfold rd, psd_common. cbn [ps_files]. destruct (Z.leb_spec 0 number); [|lia].
      apply lookup_replicate. split; [done|]. unfold FILES_SIZE. lia. }
    rewrite E2. simpl. destruct (flashmng_getAttr atSize 0 g) as [[sz|] g1]; simpl.
    + destruct (flashmng_getAttr atDev 0 g1) as [[offs|] g2]; simpl; eexists _, _, _; (split; [reflexivity|]);
        simpl; rewrite Hf; done.
    + eexists _, _, _. split; [reflexivity|]. simpl. by rewrite Hf.
Qed.
End choose.

(** ** A simulated partition

    Four blocks of two pages of four bytes; block 1 is bad. *)

Definition psim_info : psd_info := PInfo 4 8 1.
Record psim := PSim { ps_pos : Z; ps_pages : Z -> bytes }.
Definition psim_bad (b : Z) : bool := b =? 1.

#[export] Instance psim_flash : PsdFlash psim := {
  psd_msg _ rq f :=
    match rq with
    | RqIsBad a => (PReply 0 (if psim_bad (a / 8) then 1 else 0) 0 [], f)
    | RqGetAttr _ => (PReply 0 0 32 [], f)
    | _ => (PReply (-1) 0 0 [], f)
    end;
  psd_lseek _ o wh f :=
    let pos := match wh with SEEK_SET => o | SEEK_CUR => ps_pos f + o end in (pos, PSim pos (ps_pages f));
  psd_write _ data f :=
    if (zlen data =? 4) && negb (psim_bad (ps_pos f / 8)) && (ps_pos f <? 32)
    then (4, PSim (ps_pos f + 4) (fun q => if q =? ps_pos f / 4 then data else ps_pages f q)) else (-1, f);
  psd_close _ f := f;
  psd_lookup _ f := (Some 7, f);
  psd_open _ f := (3, f);
  psd_infomsg _ f := (Some psim_info, f);
}.
#[export] Instance psim_view : PsdView psim := { pv_pos := ps_pos; pv_page := ps_pages; pv_bad _ := psim_bad }.

#[export] Instance psim_laws : PsdLaws psim psim_info 3 7 4.
Proof.
  split; simpl.
  - intros f b Hb. eexists _, f. split; [reflexivity|]. split; [done|]. split; [done|]. split; [done|]. simpl.
    rewrite Z.div_mul by done. by destruct (psim_bad b).
  - intros f o Ho. eexists. split; [reflexivity|]. done.
  - intros f o Ho Hp. eexists. split; [reflexivity|]. done.
  - intros f q data Hq Hpos Hd Hin Hb. rewrite Hpos, Hd, Hb. simpl.
    destruct (Z.ltb_spec (q * 4) 32); [|lia]. eexists. split; [reflexivity|]. simpl.
    rewrite Z.div_mul by done. rewrite Z.eqb_refl. split_and!; try done; [lia|].
    intros q' Hne. by destruct (Z.eqb_spec q' q).
Qed.

(** Six bytes at page 1: the rest of block 0, and, as block 1 is bad, block 2. *)
Definition ex_psim : psim := PSim 0 (fun _ => []).
Definition ex_psd : psd_t := Psd true None 32 0 2 0 (Filedes 3 7 :: replicate 15 (Filedes 0 0)).
Definition ex_cmd : sdp_cmd_t := SdpCmd SDP_WRITE_FILE 4 0 6 0.
Definition ex_groups : list (list bytes) := [[[1; 2]; [3; 4]]; [[5; 6]]].

Lemma write_session_witness : exists f',
  psd_loop 1 2 3 4 0 0 0 0 (fun _ b => b) psim_info (fun _ => 0) 3 3 5 true None ex_psd
    (World (cmd_report ex_cmd :: (data_report <$> concat ex_groups) ++ cmd_report close_cmd :: []) [] [] ex_psim) =
  Some (0, set_run false ex_psd,
        World [] [] ([] ++ complete_reports SDP_WRITE_FILE ++ complete_reports SDP_WRITE_REGISTER) f') /\
  stored (info := psim_info) ex_psim f' (good_pages 4 8 4 2 psim_bad 1) ex_groups.
Proof.
  apply (write_session (fd := 3) (oid := 7) 2 ltac:(done) ltac:(done) ltac:(done) ltac:(done) ltac:(done)
           1 2 3 4 0 0 0 0 (fun _ b => b) (fun _ => 0) 3 5 true 0 ex_cmd 1 ex_groups None ex_psd [] [] ex_psim).
  - repeat split; vm_compute; done.
  - done.
  - done.
  - done.
  - repeat split; try (vm_compute; reflexivity); repeat constructor; discriminate.
  - repeat constructor.
  - vm_compute. lia.
  - done.
  - done.
  - vm_compute. discriminate.
  - done.
  - by right.
  - vm_compute. lia.
Defined.

Lemma checkRange_records_witness : exists r t' f',
  flashmng_checkRange psim_info 7 (0 * 8) (4 * 8) dbbt_new ex_psim = Some (r, t', f') /\ psd_same ex_psim f' /\
  used t' = used dbbt_new ++ take (room dbbt_new) (bad_blocks psim_bad 0 4) /\
  db_entries t' = zlen (used t') /\ zlen (db_bad t') = BCB_BB_MAX /\
  (r = -1 /\ db_entries t' = BCB_BB_MAX \/ r = 0 /\ table_ok t').
Proof.
  apply (checkRange_records (info := psim_info) (fd := 3) (oid := 7) (nb := 4) ltac:(done) ltac:(done) 0 4 dbbt_new ex_psim);
    try lia. split; [done|]. by vm_compute.
Defined.

Lemma changePartition_past_end_witness :
  let files := [Filedes 3 7; Filedes 3 7] ++ replicate 14 (Filedes 0 0) in
  if 3 =? FILES_SIZE then psd_changePartition 1 0 0 3 (Psd true None 0 0 3 0 files) ex_psim = None
  else exists err p' g', psd_changePartition 1 0 0 3 (Psd true None 0 0 3 0 files) ex_psim = Some (err, p', g') /\
         ps_f p' = 3 /\ rd (ps_files p') 3 = Some (Filedes 0 0).
Proof.
  apply (changePartition_past_end 1 0 0 1 [bstr "a"; bstr "b"] ex_psim ex_psim ex_psim ex_psim
           ([Filedes 0 7; Filedes 0 7] ++ replicate 14 (Filedes 0 0)) 3
           ([Filedes 3 7; Filedes 3 7] ++ replicate 14 (Filedes 0 0))
           (Psd true None 0 0 3 0 ([Filedes 3 7; Filedes 3 7] ++ replicate 14 (Filedes 0 0))) 3);
    try reflexivity. by right.
Defined.
