(* ===== verification/Chmod.v ===== *)
(** * Changing modes ([psh/chmod/chmod.c])

    [parsemode] reads a symbolic mode, [do_chmod] applies a mode to a file or, with
    [-R], to a tree, and [psh_chmod] is the applet.  The file system is a class. *)

From S2P Require Import Prelude.

Definition S_ISUID : Z := 2048.
Definition S_ISGID : Z := 1024.
Definition S_ISVTX : Z := 512.
Definition S_IRWXU : Z := 448.
Definition S_IRWXG : Z := 56.
Definition S_IRWXO : Z := 7.
Definition S_IFMT : Z := 61440.
Definition S_ISDIR (m : Z) : bool := Z.land m S_IFMT =? 16384.
Definition S_ISLNK (m : Z) : bool := Z.land m S_IFMT =? 40960.

Definition USR_MODES : Z := Z.lor S_ISUID S_IRWXU.
Definition GRP_MODES : Z := Z.lor S_ISGID S_IRWXG.
Definition EXE_MODES : Z := 73.

Section parse.
(** Whether the platform defines [S_ISVTX]. *)
Context (vtx : bool).

Definition ALL_MODES : Z :=
  Z.lor (Z.lor USR_MODES GRP_MODES) (if vtx then Z.lor S_IRWXO S_ISVTX else S_IRWXO).

(** The characters before the action: [a], [u], [g], [o]. *)
Definition who_char (c : Z) : option Z :=
  if c =? 97 then Some ALL_MODES
  else if c =? 117 then Some USR_MODES
  else if c =? 103 then Some GRP_MODES
  else if c =? 111 then Some S_IRWXO
  else None.

Fixpoint who_loop (s : bytes) (who : Z) : Z * bytes :=
  match s with
  | [] => (who, s)
  | c :: s' => match who_char c with Some m => who_loop s' (Z.lor who m) | None => (who, s) end
  end.

(** The characters behind the action; [u], [g] and [o] leave the loop in front of the
    character. *)
Fixpoint perm_loop (newmode oldmode : Z) (s : bytes) (mask who : Z) : Z * Z * bytes :=
  match s with
  | [] => (mask, who, s)
  | c :: s' =>
      if c =? 117 then
        let t := Z.land newmode S_IRWXU in (Z.lor mask (Z.lor (Z.lor t (Z.shiftl t 3)) (Z.shiftl t 6)), who, s)
      else if c =? 103 then
        let t := Z.land newmode S_IRWXG in (Z.lor mask (Z.lor (Z.lor t (Z.shiftr t 3)) (Z.shiftl t 3)), who, s)
      else if c =? 111 then
        let t := Z.land newmode S_IRWXO in (Z.lor mask (Z.lor (Z.lor t (Z.shiftr t 3)) (Z.shiftr t 6)), who, s)
      else if c =? 114 then perm_loop newmode oldmode s' (Z.lor mask 292) who
      else if c =? 119 then perm_loop newmode oldmode s' (Z.lor mask 146) who
      else if c =? 120 then perm_loop newmode oldmode s' (Z.lor mask EXE_MODES) who
      else if c =? 115 then perm_loop newmode oldmode s' (Z.lor mask (Z.lor S_ISUID S_ISGID)) who
      else if c =? 88 then
        perm_loop newmode oldmode s'
          (if S_ISDIR oldmode || negb (Z.land oldmode EXE_MODES =? 0) then Z.lor mask EXE_MODES else mask) who
      else if vtx && (c =? 116) then perm_loop newmode oldmode s' (Z.lor mask S_ISVTX) (Z.lor who S_ISVTX)
      else (mask, who, s)
  end.

(** [common.u_mask]. *)
Context (u_mask : Z).

Definition is_action (c : Z) : bool := (c =? 43) || (c =? 45) || (c =? 61).

Definition do_action (action who mask newmode : Z) : Z :=
  if action =? 61 then
    if negb (who =? 0) then Z.lor (Z.ldiff newmode who) (Z.land who mask) else Z.ldiff mask u_mask
  else if action =? 43 then
    if negb (who =? 0) then Z.lor newmode (Z.land who mask) else Z.lor newmode (Z.ldiff mask u_mask)
  else if negb (who =? 0) then Z.ldiff newmode (Z.land who mask)
  else Z.land newmode (Z.lor (Z.lnot mask) u_mask).

(** The actions of one clause; the inner [None] is the return of [psh_chmod_help]. *)
Fixpoint action_loop (fuel : nat) (oldmode : Z) (s : bytes) (who newmode : Z) : option (option (bytes * Z)) :=
  match fuel with
  | O => None
  | Datatypes.S fuel =>
      match s with
      | [] => Some (Some (s, newmode))
      | c :: s' =>
          if c =? 44 then Some (Some (s, newmode))
          else if negb (is_action c) then Some None
          else
            let '(mask, who, rest) := perm_loop newmode oldmode s' 0 who in
            action_loop fuel oldmode rest who (do_action c who mask newmode)
      end
  end.

Fixpoint mode_loop (fuel : nat) (oldmode : Z) (s : bytes) (newmode : Z) : option (option Z) :=
  match fuel with
  | O => None
  | Datatypes.S fuel =>
      match s with
      | [] => Some (Some newmode)
      | _ =>
          let '(who, s1) := who_loop s 0 in
          match s1 with
          | [] => Some None
          | c :: _ =>
              if c =? 44 then Some None
              else
                r ← action_loop (Datatypes.S (length s1)) oldmode s1 who newmode;
                match r with
                | None => Some None
                | Some (s2, newmode) => mode_loop fuel oldmode (tail s2) newmode
                end
          end
      end
  end.

(** The result, and [*pNewmode]. *)
Definition parsemode (symbolic : bytes) (oldmode : Z) : option (Z * Z) :=
  let m := Z.land oldmode ALL_MODES in
  r ← mode_loop (Datatypes.S (length symbolic)) oldmode symbolic m;
  Some (match r with Some newmode => (EXIT_SUCCESS, newmode) | None => (EXIT_FAILURE, m) end).
End parse.

(** ** The applet *)

Class ModeFs (F : Type) := {
  (** [lstat]: the mode; [chmod]; the entries of a directory. *)
  fs_lstat : bytes -> F -> option Z;
  fs_chmod : bytes -> Z -> F -> Z * F;
  fs_opendir : bytes -> F -> option (list bytes);
}.

(** [common]: [cm_path] is the buffer of [PATH_MAX] bytes. *)
Record chmod_t := Chmod {
  cm_symbolic : option bytes; cm_path : bytes; cm_rflag : bool; cm_errors : Z; cm_octal : Z; cm_umask : Z }.

(** A name is an argument, or [common.path] itself. *)
Inductive chmod_name := NameArg (name : bytes) | NamePath.

Section applet.
Context {F : Type} `{ModeFs F}.
Context (vtx : bool) (PATH_MAX : Z).

Definition set_path (p : bytes) (c : chmod_t) : chmod_t :=
  Chmod (cm_symbolic c) p (cm_rflag c) (cm_errors c) (cm_octal c) (cm_umask c).
Definition set_errors (e : Z) (c : chmod_t) : chmod_t :=
  Chmod (cm_symbolic c) (cm_path c) (cm_rflag c) e (cm_octal c) (cm_umask c).

(** [strncpy(buf + off, s, n)]. *)
Definition strncpy (buf : bytes) (off : Z) (s : bytes) (n : Z) : option bytes :=
  wr_range buf off (take (Z.to_nat n) (s ++ replicate (Z.to_nat n) 0)).

Definition is_dots (e : bytes) : bool := bool_decide (e = [46]) || bool_decide (e = [46; 46]).

(** The entries of a directory; [rec] is the recursive call on [common.path], [off] the
    offset of [namp].  [common.errors |= ...] takes the value of [common.errors] after
    the call. *)
Fixpoint entry_loop (rec : chmod_t -> F -> option (Z * chmod_t * F)) (off : Z) (entries : list bytes) (c : chmod_t) (f : F)
    : option (chmod_t * F) :=
  match entries with
  | [] => Some (c, f)
  | e :: entries =>
      if is_dots e then entry_loop rec off entries c f
      else
        p ← strncpy (cm_path c) off e (PATH_MAX - off - 1);
        p ← wr p (off + (PATH_MAX - off)) 0;
        '(r, c, f) ← rec (set_path p c) f;
        entry_loop rec off entries (set_errors (Z.lor (cm_errors c) r) c) f
  end.

(** [do_chmod]; [fuel] bounds the depth of the tree. *)
Fixpoint do_chmod (fuel : nat) (nm : chmod_name) (c : chmod_t) (f : F) : option (Z * chmod_t * F) :=
  match fuel with
  | O => None
  | Datatypes.S fuel =>
      let name := match nm with NameArg n => n | NamePath => cstr (cm_path c) end in
      match fs_lstat name f with
      | None => Some (EXIT_FAILURE, c, f)
      | Some st =>
          if S_ISLNK st && cm_rflag c then Some (EXIT_SUCCESS, c, f)
          else
            r ← (match cm_symbolic c with
                 | Some s => parsemode vtx (cm_umask c) s st
                 | None => Some (EXIT_SUCCESS, cm_octal c)
                 end);
            if r.1 =? EXIT_FAILURE then Some (-1, c, f)
            else
              let '(ret, f) := fs_chmod name r.2 f in
              let c := set_errors (if negb (ret =? 0) then 1 else 0) c in
              if negb (S_ISDIR st && cm_rflag c) then
                Some (if negb (cm_errors c =? 0) then EXIT_FAILURE else EXIT_SUCCESS, c, f)
              else
                match fs_opendir name f with
                | None => Some (EXIT_FAILURE, c, f)
                | Some entries =>
                    c ← (match nm with
                         | NamePath => Some c
                         | NameArg n =>
                             p ← strncpy (cm_path c) 0 n PATH_MAX; p ← wr p (PATH_MAX - 1) 0; Some (set_path p c)
                         end);
                    let len := zlen (cstr (cm_path c)) in
                    if len <? PATH_MAX - 1 then
                      p ← wr (cm_path c) len 47;
                      '(c, f) ← entry_loop (do_chmod fuel NamePath) (len + 1) entries (set_path p c) f;
                      Some (if negb (cm_errors c =? 0) then EXIT_FAILURE else EXIT_SUCCESS, c, f)
                    else Some (EXIT_FAILURE, c, f)
                end
      end
  end.

(** The digits of a mode: their value, and what follows. *)
Fixpoint octal_loop (s : bytes) (octal : Z) : Z * bytes :=
  match s with
  | [] => (octal, s)
  | d :: s' =>
      if isdigit d then octal_loop s' (Z.lor (u32 (Z.shiftl octal 3)) (Z.land d 7)) else (octal, s)
  end.

Fixpoint files_loop (fuel : nat) (files : list bytes) (exitCode : Z) (c : chmod_t) (f : F) : option (Z * F) :=
  match files with
  | [] => Some (exitCode, f)
  | name :: files =>
      '(ret, c, f) ← do_chmod fuel (NameArg name) c f;
      if ret <? 0 then Some (EXIT_FAILURE, f)
      else files_loop fuel files (if ret =? EXIT_FAILURE then EXIT_FAILURE else exitCode) c f
  end.

(** [args] are the arguments behind the name, [mem] the success of [calloc]. *)
Definition psh_chmod (fuel : nat) (mem : bool) (u_mask : Z) (args : list bytes) (f : F) : option (Z * F) :=
  let '(rflag, args) :=
    match args with
    | a :: args' => if bool_decide (a = [45; 82]) then (true, args') else (false, args)
    | [] => (false, args)
    end in
  match args with
  | [] | [_] => Some (EXIT_FAILURE, f)
  | symbolic :: files =>
      let run c := if negb mem then Some (EXIT_FAILURE, f) else files_loop fuel files EXIT_SUCCESS c f in
      let path := replicate (Z.to_nat PATH_MAX) 0 in
      if (match symbolic with d :: _ => isdigit d | [] => false end) then
        let '(octal, rest) := octal_loop symbolic 0 in
        if negb (bool_decide (rest = [])) then Some (EXIT_FAILURE, f)
        else run (Chmod None path rflag 0 (Z.land octal (ALL_MODES vtx)) 0)
      else run (Chmod (Some symbolic) path rflag 0 0 u_mask)
  end.
End applet.
