(* ===== verification/ChmodSpec.v ===== *)
(** * What [chmod] accepts and does

    A symbolic mode is a list of clauses; [parsemode] accepts exactly those without
    copied permissions and sets every bit as the clauses say.  A recursive change of a
    directory that is not empty writes behind its path buffer. *)

From S2P Require Import Prelude.
From S2P Require Import Chmod.

(** ** The reference: clauses *)

(** The characters of a clause: who, and the actions with their permissions. *)
Record clause := Clause { cl_who : bytes; cl_acts : list (Z * bytes) }.

Section spec.
Context (vtx : bool) (u_mask : Z).

Definition is_who (c : Z) : Prop := c ∈ [97; 117; 103; 111].
Definition is_perm (c : Z) : Prop := c ∈ [114; 119; 120; 115; 88] \/ (vtx = true /\ c = 116).

Definition clause_ok (c : clause) : Prop :=
  Forall is_who (cl_who c) /\ cl_acts c <> [] /\
  Forall (fun a => is_action a.1 = true /\ Forall is_perm a.2) (cl_acts c).

Definition print_acts (acts : list (Z * bytes)) : bytes := acts ≫= (fun a => a.1 :: a.2).
Definition print_clause (c : clause) : bytes := cl_who c ++ print_acts (cl_acts c).
(** Every clause with the comma behind it. *)
Definition print_mode (cs : list clause) : bytes := cs ≫= (fun c => print_clause c ++ [44]).

(** A mode: the comma behind the last clause may be left out. *)
Definition mode_syntax (s : bytes) (cs : list clause) : Prop :=
  Forall clause_ok cs /\ (s = print_mode cs \/ s ++ [44] = print_mode cs).

(** The bits a permission character stands for. *)
Definition perm_bits (oldmode c : Z) : Z :=
  if c =? 114 then 292 else if c =? 119 then 146 else if c =? 120 then 73 else if c =? 115 then 3072
  else if c =? 88 then (if S_ISDIR oldmode || negb (Z.land oldmode 73 =? 0) then 73 else 0)
  else 512.

Definition perms_mask (oldmode : Z) (ps : bytes) : Z := foldr (fun c m => Z.lor (perm_bits oldmode c) m) 0 ps.
Definition who_mask (who : bytes) : Z := foldr (fun c m => Z.lor (default 0 (who_char vtx c)) m) 0 who.
Definition sticky (ps : bytes) : Z := if bool_decide (116 ∈ ps) then S_ISVTX else 0.

(** One action on a mode as a set of bits: the bits [w] of the clause, or where it
    names nobody those outside the mask. *)
Definition act_bits (w op mask : Z) (m : Z -> bool) (i : Z) : bool :=
  let named := negb (w =? 0) in
  let p := Z.testbit mask i && (if named then Z.testbit w i else negb (Z.testbit u_mask i)) in
  if op =? 43 then m i || p
  else if op =? 45 then m i && negb p
  else if named && negb (Z.testbit w i) then m i else p.

Fixpoint acts_bits (oldmode w : Z) (acts : list (Z * bytes)) (m : Z -> bool) : Z -> bool :=
  match acts with
  | [] => m
  | (op, ps) :: acts =>
      let w := Z.lor w (sticky ps) in acts_bits oldmode w acts (act_bits w op (perms_mask oldmode ps) m)
  end.

Definition mode_bits (oldmode : Z) (cs : list clause) (m : Z -> bool) : Z -> bool :=
  foldl (fun m c => acts_bits oldmode (who_mask (cl_who c)) (cl_acts c) m) m cs.

(** ** Characters *)

(** Cases on a character against the constants of the goal. *)
Ltac eqb_cases c := repeat match goal with |- context [c =? ?k] => destruct (Z.eqb_spec c k) as [->|] end.

Lemma who_char_is c : is_Some (who_char vtx c) <-> is_who c.
Proof.
  unfold who_char, is_who. rewrite !elem_of_cons, elem_of_nil.
  eqb_cases c; split; intros E; (tauto || (by eexists) || (by destruct E) || intuition lia).
Qed.

Lemma who_loop_app who s w : Forall is_who who -> (forall c s', s = c :: s' -> ~ is_who c) ->
  who_loop vtx (who ++ s) w = (Z.lor w (who_mask who), s).
Proof.
  intros Hw Hs. revert w. induction Hw as [|c who Hc Hw IH]; intros w; simpl.
  - rewrite Z.lor_0_r. destruct s as [|c s]; [done|]. simpl.
    destruct (who_char vtx c) eqn:E; [|done]. destruct (Hs c s eq_refl). apply who_char_is. by eexists.
  - apply who_char_is in Hc as [m E]. rewrite E. simpl. by rewrite IH, Z.lor_assoc.
Qed.

Lemma who_loop_split s : forall w, exists who rest, s = who ++ rest /\ Forall is_who who /\
  (forall c s', rest = c :: s' -> ~ is_who c) /\ who_loop vtx s w = (Z.lor w (who_mask who), rest).
Proof.
  induction s as [|c s IH]; intros w; simpl.
  - exists [], []. rewrite Z.lor_0_r. by split_and!.
  - destruct (who_char vtx c) as [m|] eqn:E.
    + destruct (IH (Z.lor w m)) as (who & rest & -> & Hw & Hr & ->).
      exists (c :: who), rest. simpl. rewrite E. simpl. rewrite Z.lor_assoc. split_and!; try done.
      constructor; [|done]. apply who_char_is. by eexists.
    + exists [], (c :: s). rewrite Z.lor_0_r. split_and!; try done.
      intros c' s' [= <- <-] Hc%who_char_is. destruct Hc. congruence.
Qed.

(** ** Permissions *)

(** Where [perm_loop] stops without copying. *)
Definition stops (rest : bytes) : Prop :=
  forall c s', rest = c :: s' -> ~ is_perm c /\ c <> 117 /\ c <> 103 /\ c <> 111.

Lemma perm_step newmode oldmode c s mask w : is_perm c ->
  perm_loop vtx newmode oldmode (c :: s) mask w =
  perm_loop vtx newmode oldmode s (Z.lor mask (perm_bits oldmode c)) (Z.lor w (sticky [c])).
Proof.
  unfold is_perm. rewrite !elem_of_cons, elem_of_nil.
  intros Hc. unfold perm_bits, sticky. rewrite bool_decide_decide.
  simpl. destruct Hc as [Hc|[-> ->]].
  - assert (116 ∉ [c]) by (rewrite list_elem_of_singleton; lia).
    rewrite decide_False by done. rewrite Z.lor_0_r.
    repeat destruct Hc as [->|Hc]; simpl; try done.
    destruct (S_ISDIR oldmode || _); simpl; [done|]. by rewrite Z.lor_0_r.
  - by rewrite decide_True by left.
Qed.

Lemma sticky_cons c ps : sticky (c :: ps) = Z.lor (sticky [c]) (sticky ps).
Proof.
  unfold sticky. destruct (decide (c = 116)) as [->|].
  - rewrite !bool_decide_true by left. by destruct (bool_decide _).
  - rewrite (bool_decide_false (116 ∈ [c])) by (rewrite list_elem_of_singleton; congruence). simpl.
    rewrite (bool_decide_ext (116 ∈ c :: ps) (116 ∈ ps)); [by destruct (bool_decide _)|].
    rewrite elem_of_cons. split; [intros [?|?]; [congruence|done]|by right].
Qed.

Lemma perm_loop_app newmode oldmode ps rest : Forall is_perm ps -> forall mask w,
  perm_loop vtx newmode oldmode (ps ++ rest) mask w =
  perm_loop vtx newmode oldmode rest (Z.lor mask (perms_mask oldmode ps)) (Z.lor w (sticky ps)).
Proof.
  induction 1 as [|c ps Hc Hps IH]; intros mask w; [by rewrite !Z.lor_0_r|].
  change ((c :: ps) ++ rest) with (c :: (ps ++ rest)). rewrite perm_step by done. rewrite IH, (sticky_cons c ps). simpl.
  by rewrite !Z.lor_assoc.
Qed.

Lemma perm_loop_stop newmode oldmode rest mask w : stops rest ->
  perm_loop vtx newmode oldmode rest mask w = (mask, w, rest).
Proof.
  intros Hs. destruct rest as [|c rest]; [done|]. destruct (Hs c rest eq_refl) as (Hp & H1 & H2 & H3).
  unfold is_perm in Hp. rewrite !elem_of_cons, elem_of_nil in Hp. simpl.
  eqb_cases c; try lia; try (exfalso; apply Hp; auto 10; fail).
  - destruct vtx; [exfalso; apply Hp; auto|done].
  - by rewrite andb_false_r.
Qed.

Lemma perms_split s : exists ps rest, s = ps ++ rest /\ Forall is_perm ps /\ (forall c s', rest = c :: s' -> ~ is_perm c).
Proof.
  induction s as [|c s (ps & rest & -> & Hp & Hr)]; [by exists [], []|].
  assert (Decision (is_perm c)) as [Hc|Hc] by (unfold is_perm; apply _).
  - exists (c :: ps), rest. split_and!; try done. by constructor.
  - exists [], (c :: ps ++ rest). split_and!; try done. by intros c' s' [= <- <-].
Qed.

(** A copied permission stops the loop in front of its character. *)
Lemma perm_loop_copy newmode oldmode c rest mask w : c ∈ [117; 103; 111] ->
  exists mask', perm_loop vtx newmode oldmode (c :: rest) mask w = (mask', w, c :: rest).
Proof. rewrite !elem_of_cons, elem_of_nil. intros Hc. simpl. repeat destruct Hc as [->|Hc]; simpl; eauto; done. Qed.

(** ** Actions *)

Fixpoint acts_run (oldmode w : Z) (acts : list (Z * bytes)) (m : Z) : Z :=
  match acts with
  | [] => m
  | (op, ps) :: acts =>
      let w := Z.lor w (sticky ps) in acts_run oldmode w acts (do_action u_mask op w (perms_mask oldmode ps) m)
  end.

Lemma do_action_bits op w mask m i : is_action op = true -> 0 <= i ->
  Z.testbit (do_action u_mask op w mask m) i = act_bits w op mask (Z.testbit m) i.
Proof.
  intros Hop Hi. unfold is_action in Hop. unfold do_action, act_bits.
  destruct (Z.eqb_spec op 61) as [->|]; [|destruct (Z.eqb_spec op 43) as [->|]; [|destruct (Z.eqb_spec op 45); [|done]]];
    simpl; destruct (w =? 0); simpl; rewrite ?Z.lor_spec, ?Z.land_spec, ?Z.ldiff_spec, ?Z.lor_spec, ?Z.land_spec, ?Z.lnot_spec by done;
    destruct (Z.testbit m i), (Z.testbit mask i), (Z.testbit u_mask i), (Z.testbit w i); done.
Qed.

Lemma act_bits_ext w op mask m m' i : m i = m' i -> act_bits w op mask m i = act_bits w op mask m' i.
Proof. unfold act_bits. by intros ->. Qed.

Lemma acts_bits_ext oldmode acts i : forall w m m', m i = m' i -> acts_bits oldmode w acts m i = acts_bits oldmode w acts m' i.
Proof. induction acts as [|[op ps] acts IH]; intros w m m' E; [done|]. simpl. apply IH. by apply act_bits_ext. Qed.

Lemma acts_run_bits oldmode acts : Forall (fun a => is_action a.1 = true /\ Forall is_perm a.2) acts -> forall w m i, 0 <= i ->
  Z.testbit (acts_run oldmode w acts m) i = acts_bits oldmode w acts (Z.testbit m) i.
Proof.
  induction 1 as [|[op ps] acts [Hop _] _ IH]; intros w m i Hi; [done|]. simpl. rewrite IH by done.
  apply acts_bits_ext. by apply do_action_bits.
Qed.

Lemma print_acts_cons c ps acts rest :
  print_acts ((c, ps) :: acts) ++ rest = c :: (ps ++ (print_acts acts ++ rest)).
Proof. unfold print_acts. simpl. by rewrite <- (assoc_L (++)). Qed.

(** The end of a clause. *)
Definition clause_end (rest : bytes) : Prop := rest = [] \/ exists s, rest = 44 :: s.

Lemma clause_end_stops acts rest : Forall (fun a => is_action a.1 = true /\ Forall is_perm a.2) acts ->
  clause_end rest -> stops (print_acts acts ++ rest).
Proof.
  intros Ha Hr c s' E. assert (c = 44 \/ is_action c = true) as Hc.
  { destruct Ha as [|[op ps] acts [Hop _] _]; simpl in E.
    - destruct Hr as [->|[s ->]]; [done|]. left. congruence.
    - right. injection E as <- _. done. }
  assert (c = 44 \/ c = 43 \/ c = 45 \/ c = 61) as Hc'.
  { destruct Hc as [|Hc]; [by left|]. unfold is_action in Hc. lia. }
  unfold is_perm. rewrite !elem_of_cons, elem_of_nil. lia.
Qed.

Lemma action_loop_print oldmode acts rest : Forall (fun a => is_action a.1 = true /\ Forall is_perm a.2) acts ->
  clause_end rest -> forall fuel w m, (length acts < fuel)%nat ->
  action_loop vtx u_mask fuel oldmode (print_acts acts ++ rest) w m = Some (Some (rest, acts_run oldmode w acts m)).
Proof.
  intros Ha Hr. induction Ha as [|[op ps] acts [Hop Hps] Ha IH]; intros [|fuel] w m Hf; simpl in Hf; try lia.
  - destruct Hr as [->|[s ->]]; done.
  - assert (E : print_acts ((op, ps) :: acts) ++ rest = op :: (ps ++ (print_acts acts ++ rest))).
    { unfold print_acts. simpl. by rewrite <- (assoc_L (++)). }
    rewrite E. cbn [action_loop]. simpl in Hop.
    destruct (Z.eqb_spec op 44) as [->|]; [done|]. rewrite Hop. cbn [negb].
    rewrite perm_loop_app, perm_loop_stop by (done || by apply clause_end_stops).
    rewrite Z.lor_0_l. by rewrite IH by lia.
Qed.

Lemma action_loop_inv oldmode : forall fuel s w m rest m',
  action_loop vtx u_mask fuel oldmode s w m = Some (Some (rest, m')) -> exists acts,
  Forall (fun a => is_action a.1 = true /\ Forall is_perm a.2) acts /\ s = print_acts acts ++ rest /\ clause_end rest.
Proof.
  induction fuel as [|fuel IH]; intros s w m rest m' E; [done|].
  destruct s as [|c s]; cbn [action_loop] in E.
  { simplify_eq. exists []. split_and!; [constructor|done|by left]. }
  destruct (Z.eqb_spec c 44) as [->|]; [simplify_eq; exists []; split_and!; [constructor|done|right; eauto]|].
  destruct (is_action c) eqn:Hc; [|done]. cbn [negb] in E.
  destruct (perms_split s) as (ps & r & -> & Hps & Hr). rewrite perm_loop_app in E by done.
  destruct r as [|d r].
  - simpl in E. apply IH in E as (acts & Ha & E2 & Hend).
    exists ((c, ps) :: acts). split; [by constructor|]. split; [|done].
    by rewrite print_acts_cons, <- E2.
  - destruct (decide (d ∈ [117; 103; 111])) as [Hd|Hd].
    + destruct (perm_loop_copy m oldmode d r (Z.lor 0 (perms_mask oldmode ps)) (Z.lor w (sticky ps)) Hd) as [mask' Ec].
      rewrite Ec in E. destruct fuel as [|fuel]; [done|]. cbn [action_loop] in E.
      rewrite !elem_of_cons, elem_of_nil in Hd. unfold is_action in E.
      repeat destruct Hd as [->|Hd]; simpl in E; done.
    + rewrite perm_loop_stop in E.
      2:{ intros c' s' [= <- <-]. rewrite !elem_of_cons, elem_of_nil in Hd. split; [by eapply Hr|lia]. }
      apply IH in E as (acts & Ha & E2 & Hend).
      exists ((c, ps) :: acts). split; [by constructor|]. split; [|done].
      by rewrite print_acts_cons, <- E2.
Qed.

Lemma perm_loop_length newmode oldmode s mask w :
  (length (perm_loop vtx newmode oldmode s mask w).2 <= length s)%nat.
Proof.
  destruct (perms_split s) as (ps & r & -> & Hps & Hr). rewrite perm_loop_app by done. rewrite length_app.
  destruct r as [|d r]; [simpl; lia|]. destruct (decide (d ∈ [117; 103; 111])) as [Hd|Hd].
  - destruct (perm_loop_copy newmode oldmode d r (Z.lor mask (perms_mask oldmode ps)) (Z.lor w (sticky ps)) Hd) as [mask' ->].
    simpl. lia.
  - rewrite perm_loop_stop; [simpl; lia|]. intros c' s' [= <- <-].
    rewrite !elem_of_cons, elem_of_nil in Hd. split; [by eapply Hr|lia].
Qed.

Lemma action_loop_total oldmode : forall fuel s w m, (length s < fuel)%nat ->
  exists r, action_loop vtx u_mask fuel oldmode s w m = Some r /\
    match r with Some (rest, _) => (length rest <= length s)%nat | None => True end.
Proof.
  induction fuel as [|fuel IH]; intros s w m Hf; [lia|]. destruct s as [|c s]; cbn [action_loop]; [eexists; split; [reflexivity|simpl; lia || done]|].
  destruct (c =? 44); [eexists; split; [reflexivity|simpl; lia || done]|]. destruct (negb (is_action c)); [eexists; split; [reflexivity|simpl; lia || done]|].
  pose proof (perm_loop_length m oldmode s 0 w) as Hl. destruct (perm_loop vtx m oldmode s 0 w) as [[mask w'] rest].
  simpl in *. destruct (IH rest w' (do_action u_mask c w' mask m)) as (r & E & Hr); [lia|].
  exists r. split; [done|]. destruct r as [[? ?]|]; [lia|done].
Qed.

(** ** Modes *)

Lemma acts_first acts rest : acts <> [] -> Forall (fun a => is_action a.1 = true /\ Forall is_perm a.2) acts ->
  exists c s, print_acts acts ++ rest = c :: s /\ is_action c = true.
Proof.
  intros Hne Ha. destruct Ha as [|[c ps] acts [Hc _] _]; [done|]. rewrite print_acts_cons. eauto.
Qed.

Lemma action_char c : is_action c = true -> c <> 44 /\ ~ is_who c.
Proof. unfold is_action, is_who. rewrite !elem_of_cons, elem_of_nil. intros. lia. Qed.

(** One clause. *)
Lemma mode_step oldmode c rest m fuel : clause_ok c -> clause_end rest ->
  mode_loop vtx u_mask (S fuel) oldmode (print_clause c ++ rest) m =
  mode_loop vtx u_mask fuel oldmode (tail rest) (acts_run oldmode (who_mask (cl_who c)) (cl_acts c) m).
Proof.
  intros (Hw & Hne & Ha) Hr. unfold print_clause. rewrite <- (assoc_L (++)).
  destruct (acts_first (cl_acts c) rest Hne Ha) as (a & s & E & Hact). apply action_char in Hact as [H44 Hnw].
  cbn [mode_loop]. rewrite who_loop_app; [|done|rewrite E; by intros ? ? [= <- <-]].
  destruct (cl_who c ++ print_acts (cl_acts c) ++ rest) eqn:E2.
  { apply app_eq_nil in E2 as [_ E2]. by rewrite E in E2. }
  rewrite E. apply Z.eqb_neq in H44. rewrite H44, <- E.
  rewrite action_loop_print; [by rewrite Z.lor_0_l|done|done|].
  clear. rewrite length_app. induction (cl_acts c) as [|[op ps] acts IH]; [simpl; lia|].
  pose proof (print_acts_cons op ps acts []) as E. rewrite !app_nil_r in E. rewrite E. simpl. rewrite length_app. lia.
Qed.

Definition mode_run (oldmode : Z) (cs : list clause) (m : Z) : Z :=
  foldl (fun m c => acts_run oldmode (who_mask (cl_who c)) (cl_acts c) m) m cs.

Lemma mode_run_bits oldmode cs : Forall clause_ok cs -> forall m i, 0 <= i ->
  Z.testbit (mode_run oldmode cs m) i = mode_bits oldmode cs (Z.testbit m) i.
Proof.
  assert (Hext : forall cs m m' i, m i = m' i -> mode_bits oldmode cs m i = mode_bits oldmode cs m' i).
  { clear. intros cs. induction cs as [|c cs IH]; intros m m' i E; [done|]. simpl. apply IH. by apply acts_bits_ext. }
  induction 1 as [|c cs (_ & _ & Ha) _ IH]; intros m i Hi; [done|]. simpl. rewrite IH by done.
  apply Hext. by apply acts_run_bits.
Qed.

Lemma print_clause_pos c : clause_ok c -> (0 < length (print_clause c))%nat.
Proof.
  intros (_ & Hne & Ha). destruct (acts_first (cl_acts c) [] Hne Ha) as (a & s & E & _).
  unfold print_clause. rewrite app_nil_r in E. rewrite length_app, E. simpl. lia.
Qed.

Lemma mode_loop_print oldmode cs : Forall clause_ok cs -> forall fuel s m, (length s < fuel)%nat ->
  s = print_mode cs \/ s ++ [44] = print_mode cs ->
  mode_loop vtx u_mask fuel oldmode s m = Some (Some (mode_run oldmode cs m)).
Proof.
  induction 1 as [|c cs Hc Hcs IH]; intros [|fuel] s m Hf Hs; try lia.
  - destruct Hs as [->|Hs]; [done|]. by destruct s.
  - assert (E : print_mode (c :: cs) = print_clause c ++ 44 :: print_mode cs).
    { unfold print_mode. simpl. by rewrite <- (assoc_L (++)). }
    rewrite E in Hs. pose proof (print_clause_pos c Hc).
    destruct Hs as [->|Hs].
    + rewrite mode_step by (done || (right; eauto)). simpl. apply IH; [|by left].
      rewrite length_app in Hf. simpl in Hf. lia.
    + destruct (decide (cs = [])) as [->|Hne].
      * simpl in Hs. apply app_inj_tail in Hs as [-> _].
        rewrite <- (app_nil_r (print_clause c)), mode_step by (done || by left).
        destruct fuel as [|fuel]; [lia|]. done.
      * assert (Hlast : exists t, print_mode cs = t ++ [44]).
        { destruct cs as [|c' cs' _] using rev_ind; [done|]. unfold print_mode.
          rewrite bind_app. simpl. rewrite app_nil_r. eexists. by rewrite (assoc_L (++)). }
        destruct Hlast as [t Ht]. rewrite Ht in Hs.
        assert (s = print_clause c ++ 44 :: t) as ->.
        { apply (app_inj_tail _ _ 44 44). rewrite Hs. by rewrite <- (assoc_L (++)). }
        rewrite mode_step by (done || (right; eauto)). simpl. apply IH; [|by right].
        rewrite length_app in Hf. simpl in Hf. lia.
Qed.

Lemma mode_loop_inv oldmode : forall fuel s m m', mode_loop vtx u_mask fuel oldmode s m = Some (Some m') ->
  exists cs, mode_syntax s cs.
Proof.
  induction fuel as [|fuel IH]; intros s m m' E; [done|]. cbn [mode_loop] in E.
  destruct s as [|a s]; [exists []; split; [constructor|by left]|].
  destruct (who_loop_split (a :: s) 0) as (who & r & E1 & Hw & Hr & Ewho). rewrite Ewho in E.
  destruct r as [|d r]; [done|]. destruct (d =? 44) eqn:E44; [done|].
  obind E. destruct x as [[s2 m2]|]; [|done].
  apply action_loop_inv in E0 as (acts & Ha & E2 & Hend).
  apply IH in E as (cs & Hcs & Hs). set (c := Clause who acts).
  assert (Hc : clause_ok c).
  { split; [done|]. split; [|done]. intros Hn. simpl in Hn. subst acts. simpl in E2.
    destruct Hend as [->|[s' ->]]; [done|]. injection E2 as -> _. done. }
  assert (Hp : a :: s = print_clause c ++ s2) by (unfold print_clause; rewrite E1, E2; simpl; by rewrite (assoc_L (++))).
  assert (E3 : print_mode (c :: cs) = print_clause c ++ 44 :: print_mode cs).
  { unfold print_mode. simpl. by rewrite <- (assoc_L (++)). }
  destruct Hend as [->|[s' ->]].
  - exists [c]. split; [by constructor; [done|constructor]|]. right. rewrite Hp, app_nil_r.
    unfold print_mode. simpl. by rewrite app_nil_r.
  - exists (c :: cs). split; [by constructor|]. rewrite E3, Hp. simpl in Hs.
    destruct Hs as [->|Hs]; [by left|right]. rewrite <- Hs. by rewrite <- (assoc_L (++)).
Qed.

Lemma mode_loop_total oldmode : forall fuel s m, (length s < fuel)%nat -> exists r, mode_loop vtx u_mask fuel oldmode s m = Some r.
Proof.
  induction fuel as [|fuel IH]; intros s m Hf; [lia|]. cbn [mode_loop].
  destruct s as [|a s]; [by eexists|].
  destruct (who_loop_split (a :: s) 0) as (who & r & E1 & _ & _ & ->).
  destruct r as [|d r]; [by eexists|]. destruct (d =? 44); [by eexists|].
  destruct (action_loop_total oldmode (S (length (d :: r))) (d :: r) (Z.lor 0 (who_mask who)) m) as (r' & -> & Hr); [lia|].
  simpl. destruct r' as [[s2 m2]|]; [|by eexists]. apply IH.
  rewrite E1, length_app in Hf. simpl in *. destruct s2; simpl in *; lia.
Qed.

(** C11: [parsemode] always ends.  It succeeds exactly on the modes of the syntax, and then
    every bit of the new mode is what the clauses make of the old one; otherwise the
    mode is unchanged. *)
Theorem parsemode_meaning s oldmode :
  (exists cs m, mode_syntax s cs /\ parsemode vtx u_mask s oldmode = Some (EXIT_SUCCESS, m) /\
     forall i, 0 <= i -> Z.testbit m i = mode_bits oldmode cs (Z.testbit (Z.land oldmode (ALL_MODES vtx))) i) \/
  ((forall cs, ~ mode_syntax s cs) /\
   parsemode vtx u_mask s oldmode = Some (EXIT_FAILURE, Z.land oldmode (ALL_MODES vtx))).
Proof.
  unfold parsemode. destruct (mode_loop_total oldmode (S (length s)) s (Z.land oldmode (ALL_MODES vtx))) as [[m|] E]; [lia|..].
  - left. destruct (mode_loop_inv _ _ _ _ _ E) as [cs [Hcs Hs]].
    rewrite (mode_loop_print oldmode cs Hcs) in E by (lia || done). injection E as <-.
    exists cs, (mode_run oldmode cs (Z.land oldmode (ALL_MODES vtx))). split; [by split|].
    rewrite (mode_loop_print oldmode cs Hcs) by (lia || done). split; [done|].
    intros i Hi. by apply mode_run_bits.
  - right. rewrite E. split; [|done]. intros cs [Hcs Hs].
    rewrite (mode_loop_print oldmode cs Hcs) in E by (lia || done). done.
Qed.

(** The forms [u=g], [g=u], [o=u], ...: a copied permission is never accepted. *)
Lemma copy_refused who op ps c rest oldmode : Forall is_who who -> is_action op = true -> Forall is_perm ps ->
  c ∈ [117; 103; 111] ->
  parsemode vtx u_mask (who ++ op :: ps ++ c :: rest) oldmode = Some (EXIT_FAILURE, Z.land oldmode (ALL_MODES vtx)).
Proof.
  intros Hw Hop Hps Hc. apply action_char in Hop as Hop'. destruct Hop' as [H44 Hnw]. apply Z.eqb_neq in H44.
  set (s := ps ++ c :: rest).
  assert (E : exists x l, who ++ op :: s = x :: l) by (destruct who; simpl; eauto). destruct E as (x & l & E).
  unfold parsemode. rewrite E. cbn [mode_loop]. rewrite <- E.
  rewrite who_loop_app by (done || by intros ? ? [= <- <-]).
  rewrite H44. cbn [action_loop length]. rewrite H44, Hop. cbn [negb].
  unfold s. rewrite perm_loop_app by done.
  match goal with |- context [perm_loop vtx ?m ?o (c :: rest) ?k ?w] => destruct (perm_loop_copy m o c rest k w Hc) as [mask' ->] end.
  rewrite length_app. replace (length ps + length (c :: rest))%nat with (S (length ps + length rest)) by (simpl; lia).
  cbn [action_loop]. rewrite !elem_of_cons, elem_of_nil in Hc.
  repeat destruct Hc as [->|Hc]; done.
Qed.
End spec.

(** ** Trees *)

Section tree.
Context {F : Type} `{ModeFs F}.
Context (vtx : bool) (PATH_MAX : Z).

Lemma wr_range_len (b d b' : bytes) off : wr_range b off d = Some b' -> zlen b' = zlen b.
Proof.
  unfold wr_range. intros E. destruct ((0 <=? off) && (off + zlen d <=? zlen b)) eqn:Eb; [|done]. bprop.
  injection E as <-. zlia. unfold zlen in *. lia.
Qed.

Lemma wr_len {A} (b b' : list A) i x : wr b i x = Some b' -> zlen b' = zlen b.
Proof. unfold wr. destruct (_ && _); [|done]. intros [= <-]. apply zlen_insert. Qed.

Lemma strncpy_len b off s n b' : strncpy b off s n = Some b' -> zlen b' = zlen b.
Proof. apply wr_range_len. Qed.

Lemma wr_past_end (p : bytes) off : zlen p = PATH_MAX -> wr p (off + (PATH_MAX - off)) 0 = None.
Proof.
  intros Hp. destruct (wr p _ 0) eqn:E; [|done]. exfalso.
  assert (is_Some (wr p (off + (PATH_MAX - off)) 0)) as Hw%wr_is_Some by (rewrite E; by eexists). lia.
Qed.

Lemma entry_loop_overruns rec off entries e : e ∈ entries -> is_dots e = false -> forall (c : chmod_t) (f : F),
  zlen (cm_path c) = PATH_MAX -> entry_loop PATH_MAX rec off entries c f = None.
Proof.
  intros Hin He c f Hl. induction Hin as [e entries|e x entries Hin IH]; simpl; [rewrite He|destruct (is_dots x); [by apply IH|]];
    destruct (strncpy _ _ _ _) as [p|] eqn:E1; try done; apply strncpy_len in E1; simpl; by rewrite wr_past_end by lia.
Qed.

Lemma cstr_pad (s : bytes) k : 0 ∉ s -> cstr (s ++ replicate (S k) 0) = s.
Proof.
  induction s as [|x s IH]; intros Hn; [done|]. apply not_elem_of_cons in Hn as [Hx Hn]. simpl.
  destruct (Z.eqb_spec x 0); [lia|]. f_equal. by apply IH.
Qed.

(** The path buffer holds the argument. *)
Lemma path_copied (b name : bytes) : zlen b = PATH_MAX -> zlen name < PATH_MAX - 1 -> 0 ∉ name -> exists p p1,
  strncpy b 0 name PATH_MAX = Some p /\ wr p (PATH_MAX - 1) 0 = Some p1 /\ cstr p1 = name /\ zlen p1 = PATH_MAX.
Proof.
  intros Hb Hn H0. pose proof (zlen_nonneg name).
  assert (Hk : exists k, PATH_MAX = zlen name + Z.of_nat (S (S k))) by (exists (Z.to_nat (PATH_MAX - zlen name - 2)); lia).
  destruct Hk as [k Hk]. set (p := name ++ replicate (S (S k)) 0).
  assert (Ep : take (Z.to_nat PATH_MAX) (name ++ replicate (Z.to_nat PATH_MAX) 0) = p).
  { unfold p. rewrite take_app. unfold zlen in Hk. rewrite take_ge by lia.
    rewrite take_replicate. do 2 f_equal. lia. }
  assert (Hp : zlen p = PATH_MAX) by (unfold p; zlia).
  exists p, p. split_and!; [| |by apply cstr_pad|done].
  - unfold strncpy. rewrite Ep.
    pose proof (wr_range_app [] b [] 0 p) as Hw. rewrite !app_nil_l, !app_nil_r in Hw. apply Hw; [done|lia].
  - unfold p. rewrite replicate_S_end, (assoc_L (++)). apply wr_app. zlia.
Qed.

(** C39: A recursive change of a directory with an entry besides [.] and [..] is never
    defined: terminating the entry's name writes [path[PATH_MAX]]. *)
Theorem recursive_chmod_overruns fuel name (c : chmod_t) (f : F) st mode entries e :
  cm_rflag c = true -> zlen (cm_path c) = PATH_MAX ->
  fs_lstat name f = Some st -> S_ISDIR st = true ->
  (match cm_symbolic c with
   | Some s => parsemode vtx (cm_umask c) s st
   | None => Some (EXIT_SUCCESS, cm_octal c)
   end) = Some (EXIT_SUCCESS, mode) ->
  fs_opendir name (fs_chmod name mode f).2 = Some entries -> e ∈ entries -> is_dots e = false ->
  zlen name < PATH_MAX - 1 -> 0 ∉ name ->
  do_chmod vtx PATH_MAX fuel (NameArg name) c f = None.
Proof.
  intros Hr Hpath Hst Hdir Hmode Hop Hin Hdots Hlen Hnul. destruct fuel as [|fuel]; [done|]. cbn [do_chmod].
  rewrite Hst, Hr, Hdir. assert (S_ISLNK st = false) as ->.
  { unfold S_ISLNK, S_ISDIR in *. apply Z.eqb_eq in Hdir. by rewrite Hdir. }
  cbn [andb]. rewrite Hmode. cbn [mbind option_bind fst snd]. change (EXIT_SUCCESS =? EXIT_FAILURE) with false. cbn iota.
  destruct (fs_chmod name mode f) as [ret f1]. simpl in Hop. cbn [cm_rflag set_errors]. rewrite Hr. cbn [andb negb].
  rewrite Hop. cbn [cm_path set_errors].
  destruct (path_copied (cm_path c) name) as (p & p1 & -> & E & Hc & Hl); [done..|].
  cbn [mbind option_bind]. rewrite E. cbn [mbind option_bind set_path cm_path]. rewrite Hc.
  destruct (Z.ltb_spec (zlen name) (PATH_MAX - 1)); [|lia].
  destruct (wr p1 (zlen name) 47) as [p2|] eqn:E2; [|done]. apply wr_len in E2. cbn [mbind option_bind].
  by rewrite (entry_loop_overruns _ _ entries e) by (done || (simpl; lia)).
Qed.
End tree.

(** A digit of an octal mode that is not octal is accepted. *)
Example octal_reads_9 : octal_loop (bstr "89") 0 = (1, []).
Proof. reflexivity. Qed.

(** One directory [d] with a file. *)
#[export] Instance ex_modefs : ModeFs unit := {
  fs_lstat _ _ := Some 16877;
  fs_chmod _ _ f := (0, f);
  fs_opendir _ _ := Some [bstr "."; bstr ".."; bstr "x"];
}.

Lemma recursive_chmod_overruns_witness :
  do_chmod true 16 5 (NameArg (bstr "d")) (Chmod (Some (bstr "u+x")) (replicate 16 0) true 0 0 18) tt = None.
Proof.
  apply (recursive_chmod_overruns true 16 5 (bstr "d") (Chmod (Some (bstr "u+x")) (replicate 16 0) true 0 0 18) tt
           16877 493 [bstr "."; bstr ".."; bstr "x"] (bstr "x")); try reflexivity.
  - do 2 right. left.
  - change (0 ∉ [100]). by rewrite list_elem_of_singleton.
Defined.
