(* ===== verification/Dd.v ===== *)
(** * Copying with operands ([psh/dd/dd.c])

    Numbers with suffixes, the list of conversions, the operands, and the copy of
    blocks.  The files are a class. *)

From S2P Require Import Prelude.
From S2P Require Import Clib.
From S2P Require Import Fds.

Class DdIo (W : Type) := {
  dio_open : bytes -> list oflag -> W -> Z * W;
  dio_close : Z -> W -> Z * W;
  dio_lseek : Z -> Z -> W -> Z * W;
  (** The result, the bytes read, and [errno]. *)
  dio_read : Z -> Z -> W -> Z * bytes * Z * W;
  dio_write : Z -> bytes -> W -> Z * Z * W;
  (** [psh_common.sigint != 0]. *)
  dio_sigint : W -> bool;
}.

Inductive dd_param := param_none | param_if | param_of | param_bs | param_conv | param_count | param_seek | param_skip.
Definition params : list (bytes * dd_param) :=
  [(bstr "if", param_if); (bstr "of", param_of); (bstr "bs", param_bs); (bstr "conv", param_conv);
   (bstr "count", param_count); (bstr "seek", param_seek); (bstr "skip", param_skip)].
Inductive dd_conv := conv_none | conv_nocreat | conv_notrunc.
Definition convs : list (bytes * dd_conv) := [(bstr "nocreat", conv_nocreat); (bstr "notrunc", conv_notrunc)].

(** The loop over a table for the [len] characters of [str]. *)
Fixpoint find_name {A} (table : list (bytes * A)) (none : A) (str : bytes) (len : nat) : A :=
  match table with
  | [] => none
  | (name, v) :: table =>
      if strncmp_eq str name len && (length name =? len)%nat then v else find_name table none str len
  end.

(** [conv]: whether [O_CREAT] and [O_TRUNC] are set. *)
Record dd_opts := DdOpts {
  do_infile : option bytes; do_outfile : option bytes; do_creat : bool; do_trunc : bool;
  do_blocksz : Z; do_count : Z; do_seek : Z; do_skip : Z }.

(** [strchr(s, c)]: what is before the character, and behind it. *)
Fixpoint split_char (c : Z) (s : bytes) : option (bytes * bytes) :=
  match s with
  | [] => None
  | x :: s =>
      if x =? c then Some ([], s)
      else match split_char c s with Some (a, b) => Some (x :: a, b) | None => None end
  end.

Section dd.
(** The width of [unsigned long] and [ssize_t]. *)
Context (w : Z) (EOVERFLOW : Z).

Definition SSIZE_MAX : Z := 2 ^ (w - 1) - 1.

Definition getnumber (numstr : bytes) : Z :=
  match strtoul10 w numstr with
  | None => - EINVAL
  | Some (v, str) =>
      let value := wraps w v in
      let with_mult mult str :=
        if negb (bool_decide (str = [])) then - EINVAL
        else if SSIZE_MAX / mult <? value then - EOVERFLOW
        else wraps w (value * mult) in
      match str with
      | [] => value
      | c :: str =>
          if c =? 77 then with_mult (1024 * 1024) str
          else if c =? 107 then with_mult 1024 str
          else if c =? 98 then with_mult 512 str
          else if c =? 119 then with_mult 2 str
          else if c =? 99 then with_mult 1 str
          else -1
      end
  end.

(** The list behind [conv=], item by item. *)
Fixpoint conv_loop (fuel : nat) (str : bytes) (creat trunc : bool) : option (option (bool * bool)) :=
  match fuel with
  | O => None
  | Datatypes.S fuel =>
      let '(item, rest) := match split_char 44 str with Some (a, b) => (a, Some b) | None => (str, None) end in
      let next creat trunc := match rest with Some str => conv_loop fuel str creat trunc | None => Some (Some (creat, trunc)) end in
      match find_name convs conv_none item (length item) with
      | conv_nocreat => next false trunc
      | conv_notrunc => next creat false
      | conv_none => Some None
      end
  end.

(** [None] is [-EINVAL]. *)
Definition getconvmode (creat trunc : bool) (str : bytes) : option (bool * bool) :=
  match str with
  | [] => Some (creat, trunc)
  | _ => default None (conv_loop (Datatypes.S (length str)) str creat trunc)
  end.

Definition dd_defaults : dd_opts := DdOpts None None true true 512 SSIZE_MAX 0 0.

(** The loop over the operands; [None] is a message and [EXIT_FAILURE]. *)
Fixpoint operands (args : list bytes) (o : dd_opts) : option dd_opts :=
  match args with
  | [] => Some o
  | str :: args =>
      match split_char 61 str with
      | None => None
      | Some (name, cp) =>
          match find_name params param_none str (length name) with
          | param_if =>
              match do_infile o with
              | Some _ => None
              | None => operands args (DdOpts (Some cp) (do_outfile o) (do_creat o) (do_trunc o) (do_blocksz o) (do_count o) (do_seek o) (do_skip o))
              end
          | param_of =>
              match do_outfile o with
              | Some _ => None
              | None => operands args (DdOpts (do_infile o) (Some cp) (do_creat o) (do_trunc o) (do_blocksz o) (do_count o) (do_seek o) (do_skip o))
              end
          | param_bs =>
              let blocksz := s32 (getnumber cp) in
              if blocksz <=? 0 then None
              else operands args (DdOpts (do_infile o) (do_outfile o) (do_creat o) (do_trunc o) blocksz (do_count o) (do_seek o) (do_skip o))
          | param_conv =>
              match getconvmode (do_creat o) (do_trunc o) cp with
              | None => None
              | Some (creat, trunc) =>
                  operands args (DdOpts (do_infile o) (do_outfile o) creat trunc (do_blocksz o) (do_count o) (do_seek o) (do_skip o))
              end
          | param_count =>
              let count := getnumber cp in
              if count <? 0 then None
              else operands args (DdOpts (do_infile o) (do_outfile o) (do_creat o) (do_trunc o) (do_blocksz o) count (do_seek o) (do_skip o))
          | param_seek =>
              let seek := getnumber cp in
              if seek <? 0 then None
              else operands args (DdOpts (do_infile o) (do_outfile o) (do_creat o) (do_trunc o) (do_blocksz o) (do_count o) seek (do_skip o))
          | param_skip =>
              let skip := getnumber cp in
              if skip <? 0 then None
              else operands args (DdOpts (do_infile o) (do_outfile o) (do_creat o) (do_trunc o) (do_blocksz o) (do_count o) (do_seek o) skip)
          | param_none => None
          end
      end
  end.

Section copy.
Context {W : Type} `{DdIo W}.

(** [while (incc > 0)]: whether it failed, and the bytes written. *)
Fixpoint write_all (fuel : nat) (outfd : Z) (p : bytes) (outtotal : Z) (s : W) : option (bool * Z * W) :=
  match fuel with
  | O => None
  | Datatypes.S fuel =>
      if zlen p =? 0 then Some (false, outtotal, s)
      else
        let '(outcc, errno, s) := dio_write outfd p s in
        if outcc <? 0 then
          if errno =? EINTR then write_all fuel outfd p outtotal s else Some (true, outtotal, s)
        else write_all fuel outfd (drop (Z.to_nat outcc) p) (outtotal + outcc) s
  end.

(** [for (;;)]: [err], [incc], the totals and the state. *)
Fixpoint copy_loop (fuel n : nat) (infd outfd blocksz inmax intotal outtotal : Z) (s : W)
    : option (bool * Z * Z * Z * W) :=
  match fuel with
  | O => None
  | Datatypes.S fuel =>
      let '(incc, buf, errno, s) := dio_read infd blocksz s in
      if incc <=? 0 then
        if (incc <? 0) && (errno =? EINTR) then copy_loop fuel n infd outfd blocksz inmax intotal outtotal s
        else Some (false, incc, intotal, outtotal, s)
      else
        let intotal := intotal + incc in
        if dio_sigint s then Some (true, incc, intotal, outtotal, s)
        else
          '(err, outtotal, s) ← write_all n outfd buf outtotal s;
          if err : bool then Some (true, incc, intotal, outtotal, s)
          else if negb (inmax =? 0) && (inmax <=? intotal) then Some (false, incc, intotal, outtotal, s)
          else copy_loop fuel n infd outfd blocksz inmax intotal outtotal s
  end.

(** [while (skipval-- > 0)]: whether it failed. *)
Fixpoint skip_loop (k : nat) (infd blocksz : Z) (s : W) : bool * W :=
  match k with
  | O => (false, s)
  | Datatypes.S k =>
      let '(incc, _, _, s) := dio_read infd blocksz s in
      if incc <=? 0 then (true, s) else skip_loop k infd blocksz s
  end.

(** The block [do ... while (0)]: the totals and the state. *)
Definition dd_copy (fuel n : nat) (infd outfd blocksz skipval seekval inmax : Z) (s : W) : option (Z * Z * W) :=
  let '(err, s) :=
    if 0 <? skipval then
      let '(pos, s) := dio_lseek infd skipval s in
      if pos <? 0 then skip_loop (Z.to_nat skipval) infd blocksz s else (false, s)
    else (false, s) in
  if err : bool then Some (0, 0, s)
  else
    let '(pos, s) := if 0 <? seekval then dio_lseek outfd seekval s else (0, s) in
    if pos <? 0 then Some (0, 0, s)
    else
      '(_, _, intotal, outtotal, s) ← copy_loop fuel n infd outfd blocksz inmax 0 0 s;
      Some (intotal, outtotal, s).

(** The exit code, and the totals of a copy.  [mem] is the success of [malloc]; the
    product of [count] is not used where it overflows. *)
Definition dd_run (fuel n : nat) (mem : bool) (o : dd_opts) (s : W) : option (Z * option (Z * Z) * W) :=
  let blocksz := do_blocksz o in
  if (0 <? do_skip o) && (SSIZE_MAX / blocksz <? do_skip o) then Some (EXIT_FAILURE, None, s)
  else if (0 <? do_seek o) && (SSIZE_MAX / blocksz <? do_seek o) then Some (EXIT_FAILURE, None, s)
  else if negb (do_count o =? SSIZE_MAX) && (SSIZE_MAX / blocksz <? do_count o) then Some (EXIT_FAILURE, None, s)
  else if negb mem then Some (EXIT_FAILURE, None, s)
  else
    let inmax := if do_count o =? SSIZE_MAX then 0 else do_count o * blocksz in
    let '(infd, s) := match do_infile o with None => (0, s) | Some f => dio_open f [O_RDONLY] s end in
    if infd <? 0 then Some (EXIT_FAILURE, None, s)
    else
      let '(outfd, s) :=
        match do_outfile o with
        | None => (1, s)
        | Some f => dio_open f ((if do_creat o then [O_CREAT] else []) ++ (if do_trunc o then [O_TRUNC] else []) ++ [O_WRONLY]) s
        end in
      let close fd std s := if fd =? std then s else (dio_close fd s).2 in
      if outfd <? 0 then Some (EXIT_FAILURE, None, close infd 0 s)
      else
        '(intotal, outtotal, s) ← dd_copy fuel n infd outfd blocksz (do_skip o * blocksz) (do_seek o * blocksz) inmax s;
        Some (EXIT_SUCCESS, Some (intotal, outtotal), close outfd 1 (close infd 0 s)).

(** [args] are the arguments behind the name. *)
Definition psh_dd (fuel n : nat) (mem : bool) (args : list bytes) (s : W) : option (Z * option (Z * Z) * W) :=
  match args with
  | (45 :: 104 :: _) :: _ => Some (EXIT_SUCCESS, None, s)
  | _ =>
      match operands args dd_defaults with
      | None => Some (EXIT_FAILURE, None, s)
      | Some o => dd_run fuel n mem o s
      end
  end.
End copy.
End dd.
