(* ===== verification/DdSpec.v ===== *)
(** * What [dd] copies

    Files as the bytes still to be read and the bytes written, with reads and writes of
    any length: [dd] copies a prefix of its input, of the length its [count] allows. *)

From S2P Require Import Prelude.
From S2P Require Import Clib.
From S2P Require Import Fds.
From S2P Require Import Dd.

(** The input still to be read, and the output. *)
Class DdView (W : Type) := { dv_in : W -> bytes; dv_out : W -> bytes }.

(** A pipeline: reads and writes succeed and may be short; a read is empty at the end
    of the input only, and nobody interrupts. *)
Class DdLaws (W : Type) `{DdIo W, DdView W} (infd outfd : Z) : Prop := {
  law_read s k : 0 < k -> exists r e s', dio_read infd k s = (zlen r, r, e, s') /\ dv_in s = r ++ dv_in s' /\
    dv_out s' = dv_out s /\ zlen r <= k /\ (r = [] -> dv_in s = []);
  law_write s p : p <> [] -> exists k e s', dio_write outfd p s = (k, e, s') /\ 0 < k <= zlen p /\
    dv_out s' = dv_out s ++ take (Z.to_nat k) p /\ dv_in s' = dv_in s;
  law_sigint s : dio_sigint s = false;
}.

Section spec.
Context {W : Type} `{DdLaws W infd outfd}.

(** Every read returns as much as it can. *)
Definition full_reads : Prop :=
  forall s k v r e s', dio_read infd k s = (v, r, e, s') -> zlen r = Z.min k (zlen (dv_in s)).

Lemma write_all_ok fuel : forall p outtotal s, (length p < fuel)%nat -> exists s',
  write_all fuel outfd p outtotal s = Some (false, outtotal + zlen p, s') /\
  dv_out s' = dv_out s ++ p /\ dv_in s' = dv_in s.
Proof.
  induction fuel as [|fuel IH]; intros p outtotal s Hf; [lia|]. simpl.
  destruct (Z.eqb_spec (zlen p) 0) as [->%zlen_0_nil|Hp].
  - exists s. rewrite app_nil_r. split_and!; [do 3 f_equal; zlia|done|done].
  - destruct (law_write s p) as (k & e & s1 & -> & Hk & Ho & Hi); [by intros ->|].
    destruct (Z.ltb_spec k 0); [lia|].
    destruct (IH (drop (Z.to_nat k) p) (outtotal + k) s1) as (s2 & -> & Ho2 & Hi2).
    { rewrite length_drop. unfold zlen in *. lia. }
    exists s2. split_and!; [do 3 f_equal; zlia| |congruence].
    rewrite Ho2, Ho, <- (assoc_L (++)). by rewrite take_drop.
Qed.

(** The amount a copy from [intotal] on transfers. *)
Definition amount_ok (blocksz inmax intotal n : Z) (input : bytes) : Prop :=
  0 <= n <= zlen input /\
  (inmax = 0 -> n = zlen input) /\
  (intotal < inmax -> (n = zlen input \/ inmax <= intotal + n) /\ intotal + n < inmax + blocksz) /\
  (full_reads -> intotal < inmax -> (blocksz | inmax - intotal) -> n = Z.min (inmax - intotal) (zlen input)).

Lemma copy_loop_ok n blocksz inmax : 0 < blocksz -> 0 <= inmax -> forall fuel intotal outtotal s,
  (length (dv_in s) < fuel)%nat -> (Z.to_nat blocksz < n)%nat -> 0 <= intotal -> (inmax = 0 \/ intotal < inmax) -> exists incc k s',
  copy_loop fuel n infd outfd blocksz inmax intotal outtotal s = Some (false, incc, intotal + k, outtotal + k, s') /\
  amount_ok blocksz inmax intotal k (dv_in s) /\
  dv_out s' = dv_out s ++ take (Z.to_nat k) (dv_in s) /\ dv_in s' = drop (Z.to_nat k) (dv_in s).
Proof.
  intros Hb Hm. induction fuel as [|fuel IH]; intros intotal outtotal s Hf Hn Hpos Hlt; [lia|]. simpl.
  destruct (law_read s blocksz) as (r & e & s1 & Er & Hi & Ho & Hl & Hend); [done|]. rewrite Er.
  pose proof (zlen_nonneg r) as Hr0. destruct (Z.leb_spec (zlen r) 0).
  { assert (r = []) as -> by (apply zlen_0_nil; lia). specialize (Hend eq_refl). simpl.
    exists 0, 0, s1. rewrite Hend in *. simpl in Hi. split_and!; [by rewrite !Z.add_0_r| |by rewrite app_nil_r|done].
    unfold amount_ok. change (zlen (@nil Z)) with 0. split_and!; intros; lia. }
  rewrite law_sigint. destruct (write_all_ok n r outtotal s1) as (s2 & -> & Ho2 & Hi2); [unfold zlen in *; lia|]. simpl.
  assert (Hfull : full_reads -> zlen r = Z.min blocksz (zlen (dv_in s))) by (intros Hfr; by eapply Hfr).
  assert (Hz : zlen (dv_in s) = zlen r + zlen (dv_in s1)) by (rewrite Hi; apply zlen_app).
  destruct (negb (inmax =? 0) && (inmax <=? intotal + zlen r)) eqn:Estop.
  - bprop. exists (zlen r), (zlen r), s2. split; [done|]. split.
    + pose proof (zlen_nonneg (dv_in s1)). split_and!; try lia.
      intros Hfr Hin [q Hq]. specialize (Hfull Hfr).
      destruct (decide (q = 1)); [lia|]. assert (2 <= q) by nia. nia.
    + rewrite Ho2, Hi2, Ho, Hi. by rewrite take_zlen_app, drop_zlen_app.
  - assert (Hlt2 : inmax = 0 \/ intotal + zlen r < inmax) by (bprop; destruct Estop as [?|?]; bprop; lia).
    destruct (IH (intotal + zlen r) (outtotal + zlen r) s2) as (incc & k & s3 & -> & (Hk & Hz0 & Hc & Hfr) & Ho3 & Hi3);
      [rewrite Hi2; unfold zlen in *; lia|done|lia|done|]. rewrite Hi2 in *.
    exists incc, (zlen r + k), s3. split; [by rewrite !Z.add_assoc|]. split.
    + unfold amount_ok. split_and!; try lia. intros Hful Hin Hdiv. specialize (Hfull Hful).
      destruct (decide (zlen (dv_in s1) = 0)); [lia|].
      rewrite Hfr; [lia|done|lia|].
      assert (zlen r = blocksz) as -> by lia. replace (inmax - (intotal + blocksz)) with (inmax - intotal - blocksz) by lia.
      apply Z.divide_sub_r; [done|apply Z.divide_refl].
    + rewrite Ho3, Hi3, Ho2, Ho, Hi. pose proof (zlen_nonneg (dv_in s1)).
      replace (Z.to_nat (zlen r + k)) with (length r + Z.to_nat k)%nat by (unfold zlen; lia).
      rewrite take_app_add, drop_app_add, (assoc_L (++)). done.
Qed.

(** On an input that cannot be positioned the skip reads a block per byte to skip:
    [skip=N] drops [N * bs * bs] bytes. *)
Theorem pipe_skip_drops blocksz k s : full_reads -> 0 < blocksz -> Z.of_nat k * blocksz <= zlen (dv_in s) -> exists s',
  skip_loop k infd blocksz s = (false, s') /\ dv_in s' = drop (Z.to_nat (Z.of_nat k * blocksz)) (dv_in s).
Proof.
  intros Hfr Hb. revert s. induction k as [|k IH]; intros s Hk; [by exists s|]. cbn [skip_loop].
  destruct (law_read s blocksz Hb) as (r & e & s1 & Er & Hi & _ & _). rewrite Er. apply Hfr in Er.
  assert (Hz : zlen (dv_in s) = zlen r + zlen (dv_in s1)) by (rewrite Hi; apply zlen_app).
  assert (zlen r = blocksz) as Hr by nia. destruct (Z.leb_spec (zlen r) 0); [lia|].
  destruct (IH s1) as (s' & -> & Hd); [nia|]. exists s'. split; [done|].
  rewrite Hd, Hi. replace (Z.to_nat (Z.of_nat (S k) * blocksz)) with (length r + Z.to_nat (Z.of_nat k * blocksz))%nat
    by (unfold zlen in Hr; nia). by rewrite drop_app_add.
Qed.
End spec.

Section filter.
Context {W : Type} `{DdLaws W 0 1}.
Context (w EOVERFLOW : Z).

(** What [psh_dd] checks of the operands. *)
Definition opts_ok (o : dd_opts) : Prop := 0 < do_blocksz o /\ 0 <= do_count o /\ 0 <= do_seek o /\ 0 <= do_skip o.

Lemma operands_ok args : forall o o', opts_ok o -> operands w EOVERFLOW args o = Some o' -> opts_ok o'.
Proof.
  induction args as [|str args IH]; intros o o' Ho E; cbn [operands] in E; [by simplify_eq|].
  destruct (split_char 61 str) as [[name cp]|]; [|done]. destruct Ho as (Hb & Hc & Hs & Hk).
  destruct (find_name params param_none str (length name)); try done.
  - destruct (do_infile o); [done|]. eapply IH; [|done]. by split_and!.
  - destruct (do_outfile o); [done|]. eapply IH; [|done]. by split_and!.
  - destruct (Z.leb_spec (s32 (getnumber w EOVERFLOW cp)) 0); [done|]. eapply IH; [|done]. by split_and!.
  - destruct (getconvmode _ _ _) as [[? ?]|]; [|done]. eapply IH; [|done]. by split_and!.
  - destruct (Z.ltb_spec (getnumber w EOVERFLOW cp) 0); [done|]. eapply IH; [|done]. by split_and!.
  - destruct (Z.ltb_spec (getnumber w EOVERFLOW cp) 0); [done|]. eapply IH; [|done]. by split_and!.
  - destruct (Z.ltb_spec (getnumber w EOVERFLOW cp) 0); [done|]. eapply IH; [|done]. by split_and!.
Qed.

(** A filter with any count that is not too large. *)
Lemma filter_copies fuel n args o (s : W) :
  1 < w -> (forall l args', args <> (45 :: 104 :: l) :: args') ->
  operands w EOVERFLOW args (dd_defaults w) = Some o ->
  do_infile o = None -> do_outfile o = None -> do_skip o = 0 -> do_seek o = 0 ->
  (do_count o = SSIZE_MAX w \/ do_count o <= SSIZE_MAX w / do_blocksz o) ->
  (length (dv_in s) < fuel)%nat -> (Z.to_nat (do_blocksz o) < n)%nat -> exists k s',
  psh_dd w EOVERFLOW fuel n true args s = Some (EXIT_SUCCESS, Some (k, k), s') /\
  dv_out s' = dv_out s ++ take (Z.to_nat k) (dv_in s) /\ dv_in s' = drop (Z.to_nat k) (dv_in s) /\
  (do_count o = SSIZE_MAX w \/ do_count o = 0 -> k = zlen (dv_in s)) /\
  (0 < do_count o < SSIZE_MAX w ->
     (k = zlen (dv_in s) \/ do_count o * do_blocksz o <= k < (do_count o + 1) * do_blocksz o) /\
     (full_reads (infd := 0) -> k = Z.min (do_count o * do_blocksz o) (zlen (dv_in s)))).
Proof.
  intros Hw Hh Ho Hif Hof Hsk Hse Hcnt Hf Hn.
  assert (opts_ok o) as (Hb & Hc & _ & _).
  { eapply operands_ok; [|done]. assert (2 ^ 1 <= 2 ^ (w - 1)) by (apply Z.pow_le_mono_r; lia).
    unfold opts_ok, dd_defaults, SSIZE_MAX. simpl. lia. }
  set (inmax := if do_count o =? SSIZE_MAX w then 0 else do_count o * do_blocksz o).
  assert (Hm : 0 <= inmax) by (unfold inmax; destruct (_ =? _); nia).
  destruct (copy_loop_ok (infd := 0) (outfd := 1) n (do_blocksz o) inmax Hb Hm fuel 0 0 s)
    as (incc & k & s' & E & (Hk & Hz0 & Hlim & Hfull) & Hout & Hin); [done|done|done|lia|].
  exists k, s'. split.
  - assert (E2 : psh_dd w EOVERFLOW fuel n true args s = dd_run w fuel n true o s).
    { unfold psh_dd. rewrite Ho. repeat (case_match; try done). subst. by edestruct Hh. }
    rewrite E2. unfold dd_run. rewrite Hif, Hof, Hsk, Hse. cbn [Z.ltb Z.compare andb negb].
    assert (negb (do_count o =? SSIZE_MAX w) && (SSIZE_MAX w / do_blocksz o <? do_count o) = false) as ->.
    { destruct (Z.eqb_spec (do_count o) (SSIZE_MAX w)); [done|]. destruct Hcnt as [|Hcnt]; [done|].
      simpl. by apply Z.ltb_ge. }
    fold inmax. rewrite Z.mul_0_l. unfold dd_copy. change (0 <? 0) with false. cbn iota beta. by rewrite E.
  - split_and!; [done|done| |].
    + intros [Hc0|Hc0]; apply Hz0; unfold inmax; [by rewrite Hc0, Z.eqb_refl|]. rewrite Hc0. case_match; lia.
    + intros Hpos. assert (Ei : inmax = do_count o * do_blocksz o).
      { unfold inmax. by rewrite (proj2 (Z.eqb_neq _ _)) by lia. }
      rewrite Ei in *. split.
      * destruct Hlim as [[?|?] ?]; [nia|by left|right; nia].
      * intros Hfr. rewrite Hfull; [f_equal; lia|done|nia|]. exists (do_count o). lia.
Qed.


(** With [count=0], which asks for no block, the whole input is copied. *)
Theorem count_zero_copies_all fuel n args o (s : W) :
  1 < w -> (forall l args', args <> (45 :: 104 :: l) :: args') ->
  operands w EOVERFLOW args (dd_defaults w) = Some o ->
  do_infile o = None -> do_outfile o = None -> do_skip o = 0 -> do_seek o = 0 -> do_count o = 0 ->
  (length (dv_in s) < fuel)%nat -> (Z.to_nat (do_blocksz o) < n)%nat -> exists s',
  psh_dd w EOVERFLOW fuel n true args s = Some (EXIT_SUCCESS, Some (zlen (dv_in s), zlen (dv_in s)), s') /\
  dv_out s' = dv_out s ++ dv_in s.
Proof.
  intros Hw Hh Ho Hif Hof Hsk Hse Hc Hf Hn.
  assert (0 < do_blocksz o) as Hb.
  { eapply operands_ok in Ho as (? & _); [done|]. assert (2 ^ 1 <= 2 ^ (w - 1)) by (apply Z.pow_le_mono_r; lia).
    unfold opts_ok, dd_defaults, SSIZE_MAX. simpl. lia. }
  assert (0 < SSIZE_MAX w) by (unfold SSIZE_MAX; assert (2 ^ 1 <= 2 ^ (w - 1)) by (apply Z.pow_le_mono_r; lia); lia).
  destruct (filter_copies fuel n args o s Hw Hh Ho Hif Hof Hsk Hse) as (k & s' & E & Hout & Hin & Hall & _);
    [right; rewrite Hc; apply Z.div_pos; lia|done|done|]. rewrite Hall in * by auto. exists s'. split; [done|].
  rewrite Hout. f_equal. apply take_ge. unfold zlen. lia.
Qed.
End filter.

(** ** A pipeline *)

Record pipe := Pipe { pi_in : bytes; pi_out : bytes }.

(** Reads return everything they can, writes one byte at a time. *)
#[export] Instance pipe_io : DdIo pipe := {
  dio_open _ _ s := (-1, s);
  dio_close _ s := (0, s);
  dio_lseek _ _ s := (-1, s);
  dio_read _ k s :=
    let r := take (Z.to_nat k) (pi_in s) in (zlen r, r, 0, Pipe (drop (Z.to_nat k) (pi_in s)) (pi_out s));
  dio_write _ p s := (1, 0, Pipe (pi_in s) (pi_out s ++ take 1 p));
  dio_sigint _ := false;
}.
#[export] Instance pipe_view : DdView pipe := { dv_in := pi_in; dv_out := pi_out }.
#[export] Instance pipe_laws : DdLaws pipe 0 1.
Proof.
  split; simpl.
  - intros s k Hk. eexists _, _, _. split; [reflexivity|]. simpl. rewrite take_drop. split_and!; [done|done|zlia|].
    intros E. destruct (pi_in s) as [|x l]; [done|]. destruct (Z.to_nat k) eqn:?; [lia|done].
  - intros s p Hp. eexists _, _, _. split; [reflexivity|]. simpl. destruct p; [done|]. split_and!; try done; zlia.
  - done.
Qed.


Definition ex_pipe : pipe := Pipe [1; 2; 3; 4; 5] [].


Example count_zero : psh_dd 32 75 8 4 true [bstr "bs=2"; bstr "count=0"] ex_pipe = Some (EXIT_SUCCESS, Some (5, 5), Pipe [] [1; 2; 3; 4; 5]).
Proof. by vm_compute. Qed.
