(* ===== verification/Lowmemd.v ===== *)
(** * The low memory monitor ([lowmemd/lowmemd.c])

    [lowmemd] polls the free memory, reports the largest processes and, below a
    reserve, kills the largest one it may kill.  The kernel is a class; times are
    numbers of nanoseconds; a line of the log is a constructor with its values, and the
    list of processes of a report is built as the code builds it. *)

From S2P Require Import Prelude.
From S2P Require Import Clib.
From S2P Require Import Complete.
From S2P Require Import Prefix.

Definition LOWMEMD_THREADS : Z := 2048.
Definition LOWMEMD_ENTRIES : Z := 4096.
Definition LOWMEMD_PROTECTED : Z := 16.
Definition LOWMEMD_TOP_MAX : Z := 16.
Definition MIB : Z := 1048576.

Class LmSys (S : Type) := {
  lm_now : S -> Z * S;
  (** [meminfo]: [page.sz], [page.free], [page.alloc]. *)
  lm_meminfo : S -> (Z * Z * Z) * S;
  (** [meminfo] of a process: [entry.mapsz] and the [anonsz] of the entries stored. *)
  lm_entries : Z -> S -> (Z * list Z) * S;
  (** [threadsinfo]: the result, and the identifiers and names stored. *)
  lm_threads : S -> (Z * list (Z * bytes)) * S;
  lm_kill : Z -> S -> Z * S;
  lm_open : bytes -> S -> Z * S;
  lm_getpid : Z;
}.

Record lowmemd_proc_t := Proc { lp_pid : Z; lp_anon : Z; lp_name : bytes }.

(** The options and the state of [lowmemd_common]. *)
Record lowmemd_t := Lowmemd {
  lm_intervalMs : Z; lm_reportSecs : Z; lm_warning : Z; lm_critical : Z; lm_reserve : Z;
  lm_minVictim : Z; lm_cooldownSecs : Z; lm_ntop : Z; lm_spared : list bytes; lm_logfd : Z;
  lm_total : Z; lm_free : Z; lm_truncatedThreads : Z; lm_truncatedEntries : Z;
  lm_procs : list lowmemd_proc_t }.

Inductive level := Critical | Warning | Normal.
#[export] Instance level_eq_dec : EqDecision level.
Proof. solve_decision. Defined.

(** The lines of [lowmemd_log]. *)
Inductive log_line :=
  | LogStart (c : lowmemd_t)
  | LogReport (t : Z) (why : option level) (free total : Z) (top : bytes)
  | LogKillNone (t : Z) (listed : bool)
  | LogKillFailed (t pid : Z)
  | LogKill (t : Z) (p : lowmemd_proc_t)
  | LogAfterKill (t pid : Z) (gone : bool) (free was since : Z).

Section lowmemd.
Context {S : Type} `{LmSys S}.
(** The size of [threadinfo_t.name], and the width of [size_t]. *)
Context (NAMESZ SIZEW : Z).

Definition set_memory (free total : Z) (c : lowmemd_t) : lowmemd_t :=
  Lowmemd (lm_intervalMs c) (lm_reportSecs c) (lm_warning c) (lm_critical c) (lm_reserve c) (lm_minVictim c)
    (lm_cooldownSecs c) (lm_ntop c) (lm_spared c) (lm_logfd c) total free (lm_truncatedThreads c) (lm_truncatedEntries c) (lm_procs c).
Definition set_levels (warning critical : Z) (c : lowmemd_t) : lowmemd_t :=
  Lowmemd (lm_intervalMs c) (lm_reportSecs c) warning critical (lm_reserve c) (lm_minVictim c)
    (lm_cooldownSecs c) (lm_ntop c) (lm_spared c) (lm_logfd c) (lm_total c) (lm_free c) (lm_truncatedThreads c) (lm_truncatedEntries c) (lm_procs c).
Definition set_truncated (threads entries : Z) (c : lowmemd_t) : lowmemd_t :=
  Lowmemd (lm_intervalMs c) (lm_reportSecs c) (lm_warning c) (lm_critical c) (lm_reserve c) (lm_minVictim c)
    (lm_cooldownSecs c) (lm_ntop c) (lm_spared c) (lm_logfd c) (lm_total c) (lm_free c) threads entries (lm_procs c).
Definition set_procs (procs : list lowmemd_proc_t) (c : lowmemd_t) : lowmemd_t :=
  Lowmemd (lm_intervalMs c) (lm_reportSecs c) (lm_warning c) (lm_critical c) (lm_reserve c) (lm_minVictim c)
    (lm_cooldownSecs c) (lm_ntop c) (lm_spared c) (lm_logfd c) (lm_total c) (lm_free c) (lm_truncatedThreads c) (lm_truncatedEntries c) procs.

Definition lowmemd_readSystem (c : lowmemd_t) (s : S) : Z * lowmemd_t * S :=
  let '((sz, free, alloc), s) := lm_meminfo s in
  if sz =? 0 then (-1, c, s) else (0, set_memory free (u64 (free + alloc)) c, s).

(** The sum over the entries stored; two encodings stand for no anonymous memory. *)
Definition anon_sum (entries : list Z) : Z :=
  fold_left (fun sum a => if negb (a =? 2 ^ SIZEW - 1) && negb (a =? 2 ^ 32 - 1) then u64 (sum + a) else sum) entries 0.

Definition lowmemd_processAnon (pid : Z) (c : lowmemd_t) (s : S) : Z * lowmemd_t * S :=
  let '((n, entries), s) := lm_entries pid s in
  if n <? 0 then (0, c, s)
  else
    let c := if LOWMEMD_ENTRIES <? n then set_truncated (lm_truncatedThreads c) (lm_truncatedEntries c + 1) c else c in
    (anon_sum (take (Z.to_nat (Z.min n LOWMEMD_ENTRIES)) entries), c, s).

(** [strrchr(name, '/') + 1], or the whole name. *)
Fixpoint after_slash (name : bytes) : bytes :=
  match name with
  | [] => []
  | c :: rest => if bool_decide (47 ∈ rest) then after_slash rest else if c =? 47 then rest else name
  end.

Fixpoint before_space (name : bytes) : bytes :=
  match name with
  | [] => []
  | c :: rest => if c =? 32 then [] else c :: before_space rest
  end.

Definition lowmemd_programName (name : bytes) : bytes := after_slash (before_space name).

(** The first loop of [lowmemd_scan] over the threads. *)
Fixpoint scan_loop (threads : list (Z * bytes)) (procs : list lowmemd_proc_t) (c : lowmemd_t) (s : S)
    : list lowmemd_proc_t * lowmemd_t * S :=
  match threads with
  | [] => (procs, c, s)
  | (pid, name) :: threads =>
      if pid <=? 0 then scan_loop threads procs c s
      else if bool_decide (pid ∈ lp_pid <$> procs) then scan_loop threads procs c s
      else
        let name := lowmemd_programName (cstr (take (Z.to_nat (NAMESZ - 1)) name)) in
        let '(anon, c, s) := lowmemd_processAnon pid c s in
        scan_loop threads (procs ++ [Proc pid anon name]) c s
  end.

(** The insertion sort, on the array: the inner loop from [j], and the outer one. *)
Fixpoint insert_loop (j : nat) (tmp : lowmemd_proc_t) (a : list lowmemd_proc_t) : option (nat * list lowmemd_proc_t) :=
  match j with
  | O => Some (O, a)
  | Datatypes.S j' =>
      x ← a !! j';
      if lp_anon x <? lp_anon tmp then insert_loop j' tmp (<[j := x]> a) else Some (j, a)
  end.
Fixpoint sort_loop (k i : nat) (a : list lowmemd_proc_t) : option (list lowmemd_proc_t) :=
  match k with
  | O => Some a
  | Datatypes.S k =>
      tmp ← a !! i;
      '(j, a) ← insert_loop i tmp a;
      sort_loop k (Datatypes.S i) (<[j := tmp]> a)
  end.

Definition lowmemd_scan (c : lowmemd_t) (s : S) : option (Z * lowmemd_t * S) :=
  let '((ret, threads), s) := lm_threads s in
  if ret <? 0 then Some (-1, c, s)
  else
    let c := if LOWMEMD_THREADS <? ret then set_truncated (lm_truncatedThreads c + 1) (lm_truncatedEntries c) c else c in
    let '(procs, c, s) := scan_loop (take (Z.to_nat (Z.min ret LOWMEMD_THREADS)) threads) [] c s in
    procs ← sort_loop (length procs - 1) 1 procs;
    Some (0, set_procs procs c, s).

Definition lowmemd_isAlive (pid : Z) (s : S) : bool * S :=
  let '((n, threads), s) := lm_threads s in
  (bool_decide (pid ∈ fst <$> take (Z.to_nat (Z.min n LOWMEMD_THREADS)) threads), s).

(** The list of a report: [snprintf] stores what fits of an item, and an item that did
    not fit ends the loop. *)
Fixpoint top_loop (k : nat) (first : bool) (procs : list lowmemd_proc_t) (top : bytes) : bytes :=
  match k, procs with
  | Datatypes.S k, p :: procs =>
      let item := (if first then [] else [44]) ++ dec (lp_pid p) ++ [58] ++ lp_name p ++ [58] ++ dec (lp_anon p / MIB) in
      let room := 512 - zlen top in
      if room <=? zlen item then top ++ take (Z.to_nat (room - 1)) item
      else top_loop k false procs (top ++ item)
  | _, _ => top
  end.

Definition lowmemd_report (t : Z) (why : option level) (c : lowmemd_t) (s : S) : option (log_line * lowmemd_t * S) :=
  '(ret, c, s) ← lowmemd_scan c s;
  let top := if ret =? 0 then top_loop (Z.to_nat (lm_ntop c)) true (lm_procs c) [] else [] in
  Some (LogReport t why (lm_free c / MIB) (lm_total c / MIB) (if bool_decide (top = []) then [45] else top), c, s).

Definition lowmemd_isSpared (c : lowmemd_t) (p : lowmemd_proc_t) : bool :=
  (lp_pid p =? lm_getpid) || (lp_pid p =? 1) || existsb (fun n => strcmp (lp_name p) n =? 0) (lm_spared c).

(** The loop over the sorted processes. *)
Fixpoint victim_loop (c : lowmemd_t) (procs : list lowmemd_proc_t) : option lowmemd_proc_t :=
  match procs with
  | [] => None
  | p :: procs =>
      if lp_anon p <? lm_minVictim c then None
      else if negb (lowmemd_isSpared c p) then Some p
      else victim_loop c procs
  end.

Definition lowmemd_killLargest (t : Z) (c : lowmemd_t) (s : S) : option (Z * log_line * lowmemd_t * S) :=
  '(ret, c, s) ← lowmemd_scan c s;
  if ret <? 0 then Some (-1, LogKillNone t false, c, s)
  else
    match victim_loop c (lm_procs c) with
    | None => Some (-1, LogKillNone t true, c, s)
    | Some v =>
        let '(r, s) := lm_kill (lp_pid v) s in
        if r <? 0 then Some (-1, LogKillFailed t (lp_pid v), c, s) else Some (lp_pid v, LogKill t v, c, s)
    end.

Definition lowmemd_level (c : lowmemd_t) : level :=
  if lm_free c <? lm_critical c then Critical else if lm_free c <? lm_warning c then Warning else Normal.

(** ** The loop *)

(** The variables of [main]. *)
Record loop_t := Loop {
  l_last : option level; l_nextReport : Z; l_killAt : Z; l_cooldownUntil : Z; l_freeAtKill : Z; l_victim : Z }.

Definition seconds (n : Z) : Z := n * 1000000000.

(** One iteration without the sleep: the lines logged. *)
Definition lowmemd_tick (t0 : Z) (l : loop_t) (c : lowmemd_t) (s : S) : option (list log_line * loop_t * lowmemd_t * S) :=
  let '(now, s) := lm_now s in
  let now := now - t0 in
  let '(ret, c, s) := lowmemd_readSystem c s in
  if negb (ret =? 0) then Some ([], l, c, s)
  else
    let lv := lowmemd_level c in
    let due := negb (lm_reportSecs c =? 0) && (l_nextReport l <=? now) in
    '(log1, c, s) ←
      (if negb (bool_decide (Some lv = l_last l)) then
         '(line, c, s) ← lowmemd_report now (Some lv) c s; Some ([line], c, s)
       else if due then '(line, c, s) ← lowmemd_report now None c s; Some ([line], c, s)
       else Some ([], c, s));
    let l := Loop (Some lv) (if due then now + seconds (lm_reportSecs c) else l_nextReport l)
               (l_killAt l) (l_cooldownUntil l) (l_freeAtKill l) (l_victim l) in
    let '(log2, l, s) :=
      if (0 <? l_victim l) && (l_cooldownUntil l <=? now) then
        let '(alive, s) := lowmemd_isAlive (l_victim l) s in
        ([LogAfterKill now (l_victim l) (negb alive) (lm_free c / MIB) (l_freeAtKill l / MIB) (now - l_killAt l)],
         Loop (l_last l) (l_nextReport l) (l_killAt l) (l_cooldownUntil l) (l_freeAtKill l) (-1), s)
      else ([], l, s) in
    if negb (lm_reserve c =? 0) && (lm_free c <? lm_reserve c) && (l_cooldownUntil l <=? now) then
      let free := lm_free c in
      '(victim, line, c, s) ← lowmemd_killLargest now c s;
      Some (log1 ++ log2 ++ [line],
            Loop (l_last l) (l_nextReport l) now (now + seconds (lm_cooldownSecs c)) free victim, c, s)
    else Some (log1 ++ log2, l, c, s).

(** The loop does not end; [k] iterations of it. *)
Fixpoint lowmemd_run (k : nat) (t0 : Z) (l : loop_t) (c : lowmemd_t) (s : S) (log : list log_line)
    : option (list log_line * loop_t * lowmemd_t * S) :=
  match k with
  | O => Some (log, l, c, s)
  | Datatypes.S k =>
      '(lines, l, c, s) ← lowmemd_tick t0 l c s;
      lowmemd_run k t0 l c s (log ++ lines)
  end.

(** ** The start *)

(** [strtoul(s, NULL, 10)]. *)
Definition number (w : Z) (s : bytes) : Z := match strtoul10 w s with Some (v, _) => v | None => 0 end.

Definition lowmemd_defaults : lowmemd_t := Lowmemd 1000 30 0 0 0 (128 * MIB) 10 5 [] 2 0 0 0 0 [].

(** The options that [getopt] returns, with their arguments; [inl] is an early exit. *)
Fixpoint lowmemd_opts (opts : list (Z * bytes)) (warningMB criticalMB : Z) (c : lowmemd_t) (s : S)
    : (Z * S) + (Z * Z * lowmemd_t * S) :=
  match opts with
  | [] => inr (warningMB, criticalMB, c, s)
  | (o, arg) :: opts =>
      let set interval report reserve minVictim cooldown ntop spared logfd :=
        Lowmemd interval report (lm_warning c) (lm_critical c) reserve minVictim cooldown ntop spared logfd
          (lm_total c) (lm_free c) (lm_truncatedThreads c) (lm_truncatedEntries c) (lm_procs c) in
      if o =? 105 then
        lowmemd_opts opts warningMB criticalMB
          (set (u32 (number SIZEW arg)) (lm_reportSecs c) (lm_reserve c) (lm_minVictim c) (lm_cooldownSecs c) (lm_ntop c) (lm_spared c) (lm_logfd c)) s
      else if o =? 114 then
        lowmemd_opts opts warningMB criticalMB
          (set (lm_intervalMs c) (u32 (number SIZEW arg)) (lm_reserve c) (lm_minVictim c) (lm_cooldownSecs c) (lm_ntop c) (lm_spared c) (lm_logfd c)) s
      else if o =? 119 then lowmemd_opts opts (number 64 arg) criticalMB c s
      else if o =? 99 then lowmemd_opts opts warningMB (number 64 arg) c s
      else if o =? 107 then
        lowmemd_opts opts warningMB criticalMB
          (set (lm_intervalMs c) (lm_reportSecs c) (u64 (number 64 arg * MIB)) (lm_minVictim c) (lm_cooldownSecs c) (lm_ntop c) (lm_spared c) (lm_logfd c)) s
      else if o =? 109 then
        lowmemd_opts opts warningMB criticalMB
          (set (lm_intervalMs c) (lm_reportSecs c) (lm_reserve c) (u64 (number 64 arg * MIB)) (lm_cooldownSecs c) (lm_ntop c) (lm_spared c) (lm_logfd c)) s
      else if o =? 100 then
        lowmemd_opts opts warningMB criticalMB
          (set (lm_intervalMs c) (lm_reportSecs c) (lm_reserve c) (lm_minVictim c) (u32 (number SIZEW arg)) (lm_ntop c) (lm_spared c) (lm_logfd c)) s
      else if o =? 120 then
        lowmemd_opts opts warningMB criticalMB
          (set (lm_intervalMs c) (lm_reportSecs c) (lm_reserve c) (lm_minVictim c) (lm_cooldownSecs c) (lm_ntop c)
             (if zlen (lm_spared c) <? LOWMEMD_PROTECTED then lm_spared c ++ [arg] else lm_spared c) (lm_logfd c)) s
      else if o =? 116 then
        lowmemd_opts opts warningMB criticalMB
          (set (lm_intervalMs c) (lm_reportSecs c) (lm_reserve c) (lm_minVictim c) (lm_cooldownSecs c)
             (Z.min (u32 (number SIZEW arg)) LOWMEMD_TOP_MAX) (lm_spared c) (lm_logfd c)) s
      else if o =? 108 then
        let '(fd, s) := lm_open arg s in
        if fd <? 0 then inl (EXIT_FAILURE, s)
        else
          lowmemd_opts opts warningMB criticalMB
            (set (lm_intervalMs c) (lm_reportSecs c) (lm_reserve c) (lm_minVictim c) (lm_cooldownSecs c) (lm_ntop c) (lm_spared c) fd) s
      else inl (if o =? 104 then EXIT_SUCCESS else EXIT_FAILURE, s)
  end.

Definition loop_start : loop_t := Loop None 0 0 0 0 (-1).

(** [main] with [k] iterations of its loop: an exit code, or the log. *)
Definition lowmemd_main (k : nat) (opts : list (Z * bytes)) (s : S)
    : option (Z + (list log_line * loop_t * lowmemd_t * S)) :=
  match lowmemd_opts opts 0 0 lowmemd_defaults s with
  | inl (ret, _) => Some (inl ret)
  | inr (warningMB, criticalMB, c, s) =>
      let c := if lm_intervalMs c <? 100
               then Lowmemd 100 (lm_reportSecs c) (lm_warning c) (lm_critical c) (lm_reserve c) (lm_minVictim c)
                      (lm_cooldownSecs c) (lm_ntop c) (lm_spared c) (lm_logfd c) (lm_total c) (lm_free c)
                      (lm_truncatedThreads c) (lm_truncatedEntries c) (lm_procs c)
               else c in
      let '(ret, c, s) := lowmemd_readSystem c s in
      if ret <? 0 then Some (inl EXIT_FAILURE)
      else
        let warning := if negb (warningMB =? 0) then u64 (warningMB * MIB) else lm_total c / 5 in
        let critical := if negb (criticalMB =? 0) then u64 (criticalMB * MIB) else Z.max (lm_total c / 10) (300 * MIB) in
        '(_, c, s) ← lowmemd_scan (set_levels warning critical c) s;
        let '(t0, s) := lm_now s in
        r ← lowmemd_run k t0 loop_start c s [LogStart c];
        Some (inr r)
  end.
End lowmemd.
