(* ===== verification/LowmemdSpec.v ===== *)
(** * What the low memory monitor kills

    The list of processes is sorted and free of repetitions and the victim is the largest
    process that may be killed.  A run is shown on the record of the calls it makes
    ([recording]): when an iteration attempts to kill, and that it then kills the largest
    process that may be killed by the answers it got, and nothing otherwise. *)

From stdpp Require Import sorting.
From S2P Require Import Prelude.
From S2P Require Import Clib.
From S2P Require Import Lowmemd.

Section sort.

Definition larger (p q : lowmemd_proc_t) : Prop := lp_anon q <= lp_anon p.

(** The inner loop on the array [l ++ y :: r]: [tmp] goes behind the last element of [l]
    that is not smaller; [y] is overwritten. *)
Lemma insert_loop_ok tmp : forall l y r, exists l1 l2 a,
  l = l1 ++ l2 /\ Forall (fun x => lp_anon x < lp_anon tmp) l2 /\
  (forall l0 x, l1 = l0 ++ [x] -> lp_anon tmp <= lp_anon x) /\
  insert_loop (length l) tmp (l ++ y :: r) = Some (length l1, a) /\
  <[length l1 := tmp]> a = l1 ++ tmp :: l2 ++ r.
Proof.
  intros l. induction l as [|x l IH] using rev_ind; intros y r.
  - exists [], [], (y :: r). split_and!; try done. by intros [].
  - rewrite length_app, Nat.add_1_r. cbn [insert_loop].
    rewrite <- (assoc_L (++)). change ([x] ++ y :: r) with (x :: y :: r).
    rewrite list_lookup_middle by done. cbn [mbind option_bind].
    destruct (Z.ltb_spec (lp_anon x) (lp_anon tmp)).
    + assert (E : <[S (length l) := x]> (l ++ x :: y :: r) = l ++ x :: (x :: r)).
      { rewrite insert_app_r_alt by lia. by replace (S (length l) - length l)%nat with 1%nat by lia. }
      rewrite E. destruct (IH x (x :: r)) as (l1 & l2 & a & -> & Hl2 & Hl1 & E2 & Ea).
      exists l1, (l2 ++ [x]), a. split_and!; try done.
      * by rewrite (assoc_L (++)).
      * apply Forall_app. split; [done|]. by constructor.
      * rewrite Ea. by rewrite <- (assoc_L (++)).
    + exists (l ++ [x]), [], (l ++ x :: y :: r). rewrite length_app, Nat.add_1_r. split_and!; try done.
      * by rewrite app_nil_r.
      * intros l0 z [_ ->]%app_inj_tail. lia.
      * rewrite insert_app_r_alt by lia. replace (S (length l) - length l)%nat with 1%nat by lia.
        simpl. by rewrite <- (assoc_L (++)).
Qed.

Lemma insert_sorted tmp l1 l2 : StronglySorted larger (l1 ++ l2) ->
  Forall (fun x => lp_anon x < lp_anon tmp) l2 -> (forall l0 x, l1 = l0 ++ [x] -> lp_anon tmp <= lp_anon x) ->
  StronglySorted larger (l1 ++ tmp :: l2).
Proof.
  intros Hs Hl2 Hl1. apply StronglySorted_app in Hs as (H12 & Hs1 & Hs2).
  assert (Hall : forall x, x ∈ l1 -> lp_anon tmp <= lp_anon x).
  { destruct l1 as [|z l0 _] using rev_ind; [by intros x ?%elem_of_nil|].
    specialize (Hl1 l0 z eq_refl). apply StronglySorted_app in Hs1 as (Hz & _ & _).
    intros x [Hx| ->%list_elem_of_singleton]%elem_of_app; [|done].
    specialize (Hz x z Hx ltac:(by left)). unfold larger in Hz. lia. }
  apply StronglySorted_app. split_and!; [|done|].
  - intros x y Hx Hy. apply elem_of_cons in Hy as [->|Hy]; [by apply Hall|by apply H12].
  - constructor; [done|]. eapply Forall_impl; [exact Hl2|]. intros x Hx. unfold larger. simpl in Hx. lia.
Qed.

Lemma sort_loop_ok : forall k l r, length r = k -> StronglySorted larger l -> exists a,
  sort_loop k (length l) (l ++ r) = Some a /\ a ≡ₚ l ++ r /\ StronglySorted larger a.
Proof.
  induction k as [|k IH]; intros l r Hk Hs.
  - destruct r; [|done]. rewrite app_nil_r. by exists l.
  - destruct r as [|tmp r]; [done|]. injection Hk as Hk. cbn [sort_loop].
    rewrite list_lookup_middle by done. cbn [mbind option_bind].
    destruct (insert_loop_ok tmp l tmp r) as (l1 & l2 & a & -> & Hl2 & Hl1 & E & Ea). rewrite E. cbn [mbind option_bind].
    rewrite Ea. replace (S (length (l1 ++ l2))) with (length (l1 ++ tmp :: l2)) by (rewrite !length_app; simpl; lia).
    replace (l1 ++ tmp :: l2 ++ r) with ((l1 ++ tmp :: l2) ++ r) by appeq.
    destruct (IH (l1 ++ tmp :: l2) r Hk) as (a' & Ea' & Hp & Hs'); [by apply insert_sorted|].
    exists a'. split_and!; [done| |done]. rewrite Hp. rewrite <- !(assoc_L (++)). f_equiv.
    simpl. by rewrite Permutation_middle.
Qed.

Lemma sort_ok a : exists a', sort_loop (length a - 1) 1 a = Some a' /\ a' ≡ₚ a /\ StronglySorted larger a'.
Proof.
  destruct a as [|x a]; [exists []; split_and!; [done..|constructor]|].
  destruct (sort_loop_ok (length a) [x] a eq_refl) as (a' & E & Hp & Hs); [by repeat constructor|].
  exists a'. split; [|done]. simpl in *. by rewrite Nat.sub_0_r.
Qed.
End sort.

Section spec.
Context {S : Type} `{LmSys S} (NAMESZ SIZEW : Z).

(** The options a scan does not touch. *)
Definition same_opts (c c' : lowmemd_t) : Prop :=
  lm_minVictim c' = lm_minVictim c /\ lm_spared c' = lm_spared c /\ lm_reserve c' = lm_reserve c /\
  lm_cooldownSecs c' = lm_cooldownSecs c.

#[local] Instance same_opts_preorder : PreOrder same_opts.
Proof. split; [done|]. intros c1 c2 c3 (?&?&?&?) (?&?&?&?). unfold same_opts. split_and!; congruence. Qed.

Definition eligible (c : lowmemd_t) (p : lowmemd_proc_t) : Prop :=
  lm_minVictim c <= lp_anon p /\ lp_pid p <> lm_getpid /\ lp_pid p <> 1 /\ lp_name p ∉ lm_spared c.

Lemma isSpared_false c p : lowmemd_isSpared c p = false <-> lp_pid p <> lm_getpid /\ lp_pid p <> 1 /\ lp_name p ∉ lm_spared c.
Proof.
  unfold lowmemd_isSpared. rewrite !orb_false_iff, !Z.eqb_neq.
  assert (E : existsb (fun n => strcmp (lp_name p) n =? 0) (lm_spared c) = false <-> lp_name p ∉ lm_spared c); [|rewrite E; tauto].
  induction (lm_spared c) as [|n l IH]; simpl; [by rewrite elem_of_nil; split; [intros _ []|]|].
  rewrite orb_false_iff, IH, Z.eqb_neq, not_elem_of_cons. by rewrite strcmp_eq.
Qed.

Lemma eligible_same c c' p : same_opts c c' -> eligible c' p <-> eligible c p.
Proof. intros (E1 & E2 & _). unfold eligible. by rewrite E1, E2. Qed.

Lemma processAnon_same pid c s anon c' s' : lowmemd_processAnon SIZEW pid c s = (anon, c', s') -> same_opts c c'.
Proof.
  unfold lowmemd_processAnon. destruct (lm_entries pid s) as [[n es] s1].
  destruct (n <? 0); [by intros [= <- <- <-]|]. intros [= <- <- <-]. by destruct (LOWMEMD_ENTRIES <? n).
Qed.

(** Every process with a positive identifier once. *)
Lemma scan_loop_ok threads : forall procs c s procs' c' s',
  NoDup (lp_pid <$> procs) -> scan_loop NAMESZ SIZEW threads procs c s = (procs', c', s') ->
  same_opts c c' /\ NoDup (lp_pid <$> procs') /\
  forall pid, pid ∈ lp_pid <$> procs' <-> pid ∈ lp_pid <$> procs \/ (0 < pid /\ pid ∈ threads.*1).
Proof.
  induction threads as [|[pid name] threads IH]; intros procs c s procs' c' s' Hnd E; simpl in E.
  { simplify_eq. split; [done|]. split; [done|]. intros pid. rewrite elem_of_nil. tauto. }
  rewrite fmap_cons. simpl.
  destruct (Z.leb_spec pid 0); [|destruct (bool_decide_reflect (pid ∈ lp_pid <$> procs))].
  - destruct (IH _ _ _ _ _ _ Hnd E) as (Hs & Hn & Hp). split; [done|]. split; [done|]. intros q.
    rewrite Hp, elem_of_cons. split; [tauto|]. intros [?|[? [->|?]]]; [tauto|lia|tauto].
  - destruct (IH _ _ _ _ _ _ Hnd E) as (Hs & Hn & Hp). split; [done|]. split; [done|]. intros q.
    rewrite Hp, elem_of_cons. split; [tauto|]. intros [?|[? [->|?]]]; tauto.
  - destruct (lowmemd_processAnon SIZEW pid c s) as [[anon c1] s1] eqn:Ea. apply processAnon_same in Ea.
    apply IH in E as (Hs & Hn & Hp).
    + split; [by etrans|]. split; [done|]. intros q. rewrite Hp, fmap_app, elem_of_app, fmap_cons, fmap_nil, list_elem_of_singleton, elem_of_cons.
      simpl. split; [intros [[?| ->]|[? ?]]; tauto|]. intros [?|[? [->|?]]]; tauto.
    + rewrite fmap_app, fmap_cons, fmap_nil. apply NoDup_app. split; [done|]. split; [|apply NoDup_singleton].
      intros q Hq ->%list_elem_of_singleton. done.
Qed.

(** What a successful scan leaves in the table. *)
Definition listing (s : S) (procs : list lowmemd_proc_t) : Prop :=
  StronglySorted larger procs /\ NoDup (lp_pid <$> procs) /\
  forall pid, pid ∈ lp_pid <$> procs <->
    0 < pid /\ pid ∈ (take (Z.to_nat (Z.min (lm_threads s).1.1 LOWMEMD_THREADS)) (lm_threads s).1.2).*1.

Lemma scan_ok c s : exists r c' s', lowmemd_scan NAMESZ SIZEW c s = Some (r, c', s') /\ same_opts c c' /\
  (r = -1 /\ (lm_threads s).1.1 < 0 \/ r = 0 /\ 0 <= (lm_threads s).1.1 /\ listing s (lm_procs c')).
Proof.
  unfold lowmemd_scan, listing. destruct (lm_threads s) as [[ret threads] s1]. simpl.
  destruct (Z.ltb_spec ret 0); [eexists _, _, _; split; [done|]; split; [done|by left]|].
  set (c1 := if LOWMEMD_THREADS <? ret then _ else c).
  assert (Hc1 : same_opts c c1) by (unfold c1; by destruct (LOWMEMD_THREADS <? ret)).
  destruct (scan_loop _ _ _ [] c1 s1) as [[procs c2] s2] eqn:E.
  apply scan_loop_ok in E as (Hs & Hn & Hp); [|constructor].
  destruct (sort_ok procs) as (procs' & -> & Hperm & Hsort). cbn [mbind option_bind].
  eexists _, _, _. split; [reflexivity|]. split; [by etrans|]. right. split; [done|]. split; [done|].
  assert (Hpids : lp_pid <$> procs' ≡ₚ lp_pid <$> procs) by by rewrite Hperm. simpl.
  split_and!; [done|by rewrite Hpids|]. intros pid. rewrite Hpids, Hp, elem_of_nil. tauto.
Qed.

Lemma victim_loop_ok c procs : StronglySorted larger procs ->
  match victim_loop c procs with
  | Some p => p ∈ procs /\ eligible c p /\ forall q, q ∈ procs -> eligible c q -> lp_anon q <= lp_anon p
  | None => forall q, q ∈ procs -> ~ eligible c q
  end.
Proof.
  induction 1 as [|p procs Hs IH Hp]; simpl; [by intros q ?%elem_of_nil|]. rewrite Forall_forall in Hp.
  destruct (Z.ltb_spec (lp_anon p) (lm_minVictim c)).
  { intros q Hq [Hm _]. apply elem_of_cons in Hq as [->|Hq]; [lia|]. specialize (Hp q Hq). unfold larger in Hp. lia. }
  destruct (lowmemd_isSpared c p) eqn:Es; simpl.
  - assert (Hne : ~ eligible c p) by (intros [_ He]; apply isSpared_false in He; congruence).
    destruct (victim_loop c procs) as [v|].
    + destruct IH as (Hv & He & Hmax). split; [by right|]. split; [done|].
      intros q [->|Hq]%elem_of_cons Heq; [done|by apply Hmax].
    + intros q [->|Hq]%elem_of_cons Heq; [done|by eapply IH].
  - apply isSpared_false in Es. split; [by left|]. split; [by split|].
    intros q [->|Hq]%elem_of_cons _; [done|by apply Hp].
Qed.

Lemma killLargest_ok t c s : exists r line c' s',
  lowmemd_killLargest NAMESZ SIZEW t c s = Some (r, line, c', s') /\ same_opts c c' /\
  (match line with LogKill t' _ | LogKillFailed t' _ | LogKillNone t' _ => Some t' | _ => None end) = Some t /\
  (forall t' p, line = LogKill t' p -> eligible c p).
Proof.
  unfold lowmemd_killLargest. destruct (scan_ok c s) as (ret & c1 & s1 & -> & Hs & Hr). cbn [mbind option_bind].
  destruct Hr as [[-> Hr]|(-> & Hr & Hl)]; cbn [Z.ltb Z.compare]; [by eexists _, _, _, _|].
  pose proof (victim_loop_ok c1 (lm_procs c1) (proj1 Hl)) as Hv.
  destruct (victim_loop c1 (lm_procs c1)) as [v|]; [|by eexists _, _, _, _].
  destruct (lm_kill (lp_pid v) s1) as [k s2].
  destruct (k <? 0); eexists _, _, _, _; (split; [reflexivity|]); (split; [done|]); (split; [done|]); [done|].
  intros t' p [= _ <-]. by apply (eligible_same c c1), Hv.
Qed.

(** An attempt to kill: it names the largest process that may be killed among those
    listed, every process listed once, or nobody when there is none. *)
Theorem killLargest_largest t c s : exists r line c' s',
  lowmemd_killLargest NAMESZ SIZEW t c s = Some (r, line, c', s') /\ same_opts c c' /\
  let largest p := p ∈ lm_procs c' /\ eligible c p /\ forall q, q ∈ lm_procs c' -> eligible c q -> lp_anon q <= lp_anon p in
  match line with
  | LogKill t' p => t' = t /\ r = lp_pid p /\ largest p /\ listing s (lm_procs c')
  | LogKillFailed t' pid => t' = t /\ r = -1 /\ listing s (lm_procs c') /\ exists p, pid = lp_pid p /\ largest p
  | LogKillNone t' listed =>
      t' = t /\ r = -1 /\
      if listed then listing s (lm_procs c') /\ forall q, q ∈ lm_procs c' -> ~ eligible c q else (lm_threads s).1.1 < 0
  | _ => False
  end.
Proof.
  unfold lowmemd_killLargest. destruct (scan_ok c s) as (ret & c1 & s1 & -> & Hs & Hr). cbn [mbind option_bind].
  destruct Hr as [[-> Hr]|(-> & Hr & Hl)]; cbn [Z.ltb Z.compare].
  { eexists _, _, _, _. split; [reflexivity|]. by split. }
  pose proof (victim_loop_ok c1 (lm_procs c1) (proj1 Hl)) as Hv.
  destruct (victim_loop c1 (lm_procs c1)) as [v|].
  - destruct Hv as (Hin & He & Hmax). rewrite eligible_same in He by done.
    assert (Hmax' : forall q, q ∈ lm_procs c1 -> eligible c q -> lp_anon q <= lp_anon v).
    { intros q Hq Heq. apply Hmax; [done|]. by rewrite eligible_same. }
    destruct (lm_kill (lp_pid v) s1) as [k s2]. destruct (k <? 0); eexists _, _, _, _; (split; [reflexivity|]); split; eauto 10.
  - eexists _, _, _, _. split; [reflexivity|]. split; [done|]. split_and!; [done..|].
    intros q Hq Heq. apply (Hv q Hq). by rewrite eligible_same.
Qed.

(** ** A run *)

(** The time of an attempt to kill. *)
Definition attempt (l : log_line) : option Z :=
  match l with LogKill t _ | LogKillFailed t _ | LogKillNone t _ => Some t | _ => None end.
Definition attempts (log : list log_line) : list Z := omap attempt log.
Definition spaced (cd : Z) : list Z -> Prop := StronglySorted (fun a b => a + cd <= b).

End spec.

(** ** The calls of a run

    The system with a record of the calls made to it and of their answers.  Every system
    has one, so what is shown of the record is shown of the daemon on any system. *)
Inductive lm_call :=
  | CallNow (t : Z)
  | CallMem (sz free alloc : Z)
  | CallEntries (pid n : Z) (entries : list Z)
  | CallThreads (n : Z) (threads : list (Z * bytes))
  | CallKill (pid r : Z)
  | CallOpen.

#[export] Instance recording {S} `{LmSys S} : LmSys (S * list lm_call) := {
  lm_now s := let '(t, s') := lm_now s.1 in (t, (s', s.2 ++ [CallNow t]));
  lm_meminfo s := let '((sz, free, alloc), s') := lm_meminfo s.1 in ((sz, free, alloc), (s', s.2 ++ [CallMem sz free alloc]));
  lm_entries pid s := let '((n, es), s') := lm_entries pid s.1 in ((n, es), (s', s.2 ++ [CallEntries pid n es]));
  lm_threads s := let '((n, ts), s') := lm_threads s.1 in ((n, ts), (s', s.2 ++ [CallThreads n ts]));
  lm_kill pid s := let '(r, s') := lm_kill pid s.1 in (r, (s', s.2 ++ [CallKill pid r]));
  lm_open path s := let '(r, s') := lm_open path s.1 in (r, (s', s.2 ++ [CallOpen]));
  lm_getpid := lm_getpid;
}.

Section calls.
Context {S : Type} `{LmSys S} (NAMESZ SIZEW : Z).

Definition is_kill (e : lm_call) : Prop := match e with CallKill _ _ => True | _ => False end.
Definition no_kill (calls : list lm_call) : Prop := Forall (fun e => ~ is_kill e) calls.

Lemma no_kill_one e : ~ is_kill e -> no_kill [e].
Proof. intros He. constructor; [done|constructor]. Qed.

(** What the last calls of a record say: the threads listed, the program of a process
    and its anonymous memory. *)
Definition listed (calls : list lm_call) : option (list (Z * bytes)) :=
  last (omap (fun e => match e with
    | CallThreads n ts => Some (if n <? 0 then [] else take (Z.to_nat (Z.min n LOWMEMD_THREADS)) ts)
    | _ => None end) calls).
Fixpoint program_of (pid : Z) (threads : list (Z * bytes)) : option bytes :=
  match threads with
  | [] => None
  | (p, name) :: threads =>
      if p =? pid then Some (lowmemd_programName (cstr (take (Z.to_nat (NAMESZ - 1)) name))) else program_of pid threads
  end.
Definition anon_val (n : Z) (es : list Z) : Z :=
  if n <? 0 then 0 else anon_sum SIZEW (take (Z.to_nat (Z.min n LOWMEMD_ENTRIES)) es).
Definition anon_of (pid : Z) (calls : list lm_call) : option Z :=
  last (omap (fun e => match e with
    | CallEntries p n es => if p =? pid then Some (anon_val n es) else None
    | _ => None end) calls).

(** By the record a process with the anonymous memory [a] may be killed. *)
Definition killable (c : lowmemd_t) (calls : list lm_call) (pid a : Z) : Prop :=
  0 < pid /\ pid <> 1 /\ pid <> lm_getpid /\ lm_minVictim c <= a /\ anon_of pid calls = Some a /\
  exists threads name, listed calls = Some threads /\ program_of pid threads = Some name /\ name ∉ lm_spared c.

Lemma last_omap_app {A B} (f : A -> option B) l1 l2 :
  last (omap f (l1 ++ l2)) = match last (omap f l2) with Some x => Some x | None => last (omap f l1) end.
Proof.
  rewrite omap_app. destruct (omap f l2) as [|x l _] using rev_ind; [by rewrite app_nil_r|].
  by rewrite (assoc_L (++)), !last_snoc.
Qed.

Lemma program_of_app pid l1 l2 :
  program_of pid (l1 ++ l2) = match program_of pid l1 with Some x => Some x | None => program_of pid l2 end.
Proof. induction l1 as [|[p n] l1 IH]; [done|]. simpl. by destruct (p =? pid). Qed.

Lemma program_of_None pid l : program_of pid l = None <-> pid ∉ l.*1.
Proof.
  induction l as [|[p n] l IH]; simpl; [by rewrite elem_of_nil; split; [intros _ []|]|].
  rewrite not_elem_of_cons, <- IH. destruct (Z.eqb_spec p pid) as [->|]; [by split; [|intros []]|].
  split; [intros ->; split; congruence|tauto].
Qed.

(** The table of [lowmemd_scan] against the threads seen so far and the record. *)
Record table_ok (seen : list (Z * bytes)) (tr : list lm_call) (procs : list lowmemd_proc_t) : Prop := {
  tb_pos p : p ∈ procs -> 0 < lp_pid p /\ program_of (lp_pid p) seen = Some (lp_name p) /\ anon_of (lp_pid p) tr = Some (lp_anon p);
  tb_all pid : 0 < pid -> pid ∈ seen.*1 -> pid ∈ lp_pid <$> procs;
}.

Definition same (c c' : lowmemd_t) : Prop := same_opts c c' /\ lm_free c' = lm_free c.

#[local] Instance same_preorder : PreOrder same.
Proof.
  split; [done|]. intros c1 c2 c3 [(?&?&?&?) ?] [(?&?&?&?) ?]. unfold same, same_opts. split_and!; congruence.
Qed.

Lemma processAnon_rec pid c s tr : exists n es c' s',
  lowmemd_processAnon SIZEW pid c (s, tr) = (anon_val n es, c', (s', tr ++ [CallEntries pid n es])) /\ same c c'.
Proof.
  unfold lowmemd_processAnon, anon_val. cbn. destruct (lm_entries pid s) as [[n es] s']. cbn.
  exists n, es. destruct (n <? 0); eexists _, s'; (split; [reflexivity|]); [done|]. by destruct (LOWMEMD_ENTRIES <? n).
Qed.

Lemma anon_of_app pid tr calls : anon_of pid (tr ++ calls) = match anon_of pid calls with Some x => Some x | None => anon_of pid tr end.
Proof. apply last_omap_app. Qed.

Definition listings (calls : list lm_call) : list Z :=
  omap (fun e => match e with CallThreads n _ => Some n | _ => None end) calls.

(** The loop over the threads, behind any record [e]; it calls nothing but [meminfo]. *)
Lemma scan_loop_rec : forall threads seen procs c s tr calls,
  (forall e, table_ok seen (e ++ calls) procs) -> no_kill calls -> listings calls = [] ->
  exists procs' c' s' calls', scan_loop NAMESZ SIZEW threads procs c (s, tr ++ calls) = (procs', c', (s', tr ++ calls')) /\
    same c c' /\ no_kill calls' /\ listings calls' = [] /\
    forall e, table_ok (seen ++ threads) (e ++ calls') procs'.
Proof.
  induction threads as [|[pid name] threads IH]; intros seen procs c s tr calls Ht Hk Hn; cbn [scan_loop].
  { exists procs, c, s, calls. by rewrite app_nil_r. }
  assert (Hseen : forall calls, (forall e, table_ok seen (e ++ calls) procs) -> (0 < pid -> pid ∈ lp_pid <$> procs) ->
    forall e, table_ok (seen ++ [(pid, name)]) (e ++ calls) procs).
  { intros calls0 Ht0 Hpid e. destruct (Ht0 e) as [Hp Ha]. split.
    - intros p Hin. destruct (Hp p Hin) as (? & Hpr & ?). by rewrite program_of_app, Hpr.
    - intros q Hq. rewrite fmap_app, elem_of_app. intros [?|Hq']; [by apply Ha|].
      apply list_elem_of_singleton in Hq' as ->. by apply Hpid. }
  replace (seen ++ (pid, name) :: threads) with ((seen ++ [(pid, name)]) ++ threads) by by rewrite <- (assoc_L (++)).
  destruct (Z.leb_spec pid 0); [|destruct (bool_decide_reflect (pid ∈ lp_pid <$> procs)) as [Hin|Hout]].
  - apply (IH (seen ++ [(pid, name)])); [|done..]. apply Hseen; [done|lia].
  - apply (IH (seen ++ [(pid, name)])); [|done..]. by apply Hseen.
  - destruct (processAnon_rec pid c s (tr ++ calls)) as (n & es & c1 & s1 & -> & Hs). rewrite <- (assoc_L (++)).
    edestruct (IH (seen ++ [(pid, name)])) as (procs' & c' & s' & calls' & E & Hs' & ?);
      [| | |exists procs', c', s', calls'; rewrite E; split; [done|]; split; [by transitivity c1|done]].
    + intros e. destruct (Ht e) as [Hp Ha]. rewrite (assoc_L (++) e). split.
      * intros p [Hin| ->%list_elem_of_singleton]%elem_of_app.
        -- destruct (Hp p Hin) as (? & Hpr & Han). split; [done|]. rewrite program_of_app, Hpr. split; [done|].
           rewrite anon_of_app. unfold anon_of at 1. simpl. destruct (Z.eqb_spec pid (lp_pid p)) as [E|]; [|done].
           destruct Hout. apply list_elem_of_fmap. by exists p.
        -- split; [done|]. simpl. split.
           ++ rewrite program_of_app. destruct (program_of pid seen) eqn:E; [|simpl; by rewrite Z.eqb_refl].
              destruct Hout. apply Ha; [done|]. destruct (decide (pid ∈ seen.*1)) as [|Hns]; [done|].
              apply program_of_None in Hns. congruence.
           ++ rewrite anon_of_app. unfold anon_of at 1. simpl. by rewrite Z.eqb_refl.
      * intros q Hq. rewrite !fmap_app, !elem_of_app. intros [?|Hq']; [left; by apply Ha|right].
        apply list_elem_of_singleton in Hq' as ->. simpl. by left.
    + apply Forall_app. split; [done|]. apply no_kill_one; by intros [].
    + unfold listings in *. by rewrite omap_app, Hn.
Qed.

Lemma listed_head n ts calls e : listings calls = [] ->
  listed (e ++ CallThreads n ts :: calls) = Some (if n <? 0 then [] else take (Z.to_nat (Z.min n LOWMEMD_THREADS)) ts).
Proof.
  intros Hn. change (CallThreads n ts :: calls) with ([CallThreads n ts] ++ calls).
  unfold listed, listings in *. rewrite !last_omap_app.
  replace (omap _ calls) with (@nil (list (Z * bytes))); [done|]. symmetry.
  induction calls as [|[] calls IH]; simpl in *; try done; by apply IH.
Qed.

(** A scan: the table, sorted, is what the calls of the scan say. *)
Lemma scan_rec c s tr : exists r c' s' calls,
  lowmemd_scan NAMESZ SIZEW c (s, tr) = Some (r, c', (s', tr ++ calls)) /\ same c c' /\ no_kill calls /\
  (r = -1 /\ (forall e pid a, ~ killable c (e ++ calls) pid a) \/
   r = 0 /\ StronglySorted larger (lm_procs c') /\
   forall e pid a, killable c (e ++ calls) pid a <->
     exists p, p ∈ lm_procs c' /\ lp_pid p = pid /\ lp_anon p = a /\ eligible (S := S) c p).
Proof.
  unfold lowmemd_scan. cbn. destruct (lm_threads s) as [[n ts] s1]. cbn. destruct (n <? 0) eqn:En.
  { exists (-1), c, s1, [CallThreads n ts]. split; [done|]. split; [done|]. split; [apply no_kill_one; by intros []|].
    left. split; [done|]. intros e pid a (_ & _ & _ & _ & _ & ths & name & Hl & Hp & _).
    rewrite (listed_head n ts []) in Hl by done. rewrite En in Hl. by injection Hl as <-. }
  set (c1 := if LOWMEMD_THREADS <? n then _ else c).
  assert (Hc1 : same c c1) by (unfold c1; by destruct (LOWMEMD_THREADS <? n)).
  set (tk := take _ ts).
  destruct (scan_loop_rec tk [] [] c1 s1 (tr ++ [CallThreads n ts]) []) as (procs & c2 & s2 & calls & E & Hs & Hk & Hn & Ht);
    [by intros e; split; [intros ? ?%elem_of_nil|intros ? _ ?%elem_of_nil]|constructor|done|].
  rewrite app_nil_r in E. rewrite E.
  destruct (sort_ok procs) as (procs' & -> & Hperm & Hsort). cbn [mbind option_bind].
  eexists 0, _, s2, (CallThreads n ts :: calls). rewrite <- (assoc_L (++)). split; [reflexivity|].
  split; [etrans; [exact Hc1|]; exact Hs|]. split; [by constructor; [intros []|]|]. right. split; [done|]. split; [done|].
  intros e pid a. unfold killable. rewrite (listed_head n ts calls e Hn), En. simpl in Ht.
  replace (e ++ CallThreads n ts :: calls) with ((e ++ [CallThreads n ts]) ++ calls) by by rewrite <- (assoc_L (++)).
  destruct (Ht (e ++ [CallThreads n ts])) as [Hp Ha]. simpl. split.
  - intros (H0 & H1 & H2 & Hmin & Han & ths & name & [= <-] & Hpr & Hsp).
    assert (Hin : pid ∈ lp_pid <$> procs).
    { apply Ha; [done|]. destruct (decide (pid ∈ tk.*1)) as [|Hx]; [done|]. apply program_of_None in Hx.
      fold tk in Hpr. congruence. }
    apply list_elem_of_fmap in Hin as (p & -> & Hin). destruct (Hp p Hin) as (_ & Hpr' & Han').
    exists p. rewrite Hperm. split; [done|]. split; [done|]. split; [congruence|].
    split_and!; [|done|done|]; [congruence|]. fold tk in Hpr. congruence.
  - intros (p & Hin & <- & <- & Hmin & H2 & H1 & Hsp). rewrite Hperm in Hin. destruct (Hp p Hin) as (H0 & Hpr & Han).
    split_and!; [done..|]. by exists tk, (lp_name p).
Qed.

(** An attempt to kill: the largest process that may be killed, or nobody. *)
Definition kills_largest (c : lowmemd_t) (e calls : list lm_call) : Prop :=
  no_kill calls /\ (forall pid a, ~ killable c (e ++ calls) pid a) \/
  exists pre pid r a, calls = pre ++ [CallKill pid r] /\ no_kill pre /\ killable c (e ++ pre) pid a /\
    forall pid' a', killable c (e ++ pre) pid' a' -> a' <= a.

Lemma no_kill_app l1 l2 : no_kill l1 -> no_kill l2 -> no_kill (l1 ++ l2).
Proof. intros. by apply Forall_app. Qed.

Lemma killLargest_rec t c s tr : exists r line c' s' calls,
  lowmemd_killLargest NAMESZ SIZEW t c (s, tr) = Some (r, line, c', (s', tr ++ calls)) /\ same c c' /\
  attempt line = Some t /\ forall e, kills_largest c e calls.
Proof.
  unfold lowmemd_killLargest. destruct (scan_rec c s tr) as (ret & c1 & s1 & calls & -> & Hs & Hk & Hr). cbn [mbind option_bind].
  destruct Hr as [[-> Hr]|(-> & Hsort & Hr)]; cbn [Z.ltb Z.compare].
  { eexists _, _, _, s1, calls. split; [reflexivity|]. do 2 (split; [done|]). intros e. left. split; [done|apply Hr]. }
  pose proof (victim_loop_ok c1 (lm_procs c1) Hsort) as Hv. destruct Hs as [Ho Hf].
  destruct (victim_loop c1 (lm_procs c1)) as [v|] eqn:Ev.
  - destruct Hv as (Hin & He & Hmax). cbn. destruct (lm_kill (lp_pid v) s1) as [k s2]. cbn.
    exists (if k <? 0 then -1 else lp_pid v), (if k <? 0 then LogKillFailed t (lp_pid v) else LogKill t v), c1, s2,
      (calls ++ [CallKill (lp_pid v) k]). rewrite <- (assoc_L (++)).
    split; [by destruct (k <? 0)|]. split; [done|]. split; [by destruct (k <? 0)|]. intros e. right.
    exists calls, (lp_pid v), k, (lp_anon v). do 2 (split; [done|]). split.
    + apply Hr. exists v. do 3 (split; [done|]). by apply (eligible_same c c1).
    + intros pid' a' (q & Hq & _ & <- & Heq)%Hr. apply Hmax; [done|]. by apply (eligible_same c c1).
  - eexists _, _, _, s1, calls. split; [reflexivity|]. do 2 (split; [done|]). intros e. left. split; [done|].
    intros pid a (q & Hq & _ & _ & Heq)%Hr. apply (Hv q Hq). by apply (eligible_same c c1).
Qed.

(** What an iteration does, from the lines logged before it, the lines it logs and the
    calls it makes: it attempts to kill exactly when memory was read, there is a reserve,
    less than the reserve is free, and no attempt was made within the cooldown. *)
Definition tick_spec (c : lowmemd_t) (t0 : Z) (past lines : list log_line) (calls : list lm_call) : Prop :=
  exists t sz free alloc rest, calls = CallNow t :: CallMem sz free alloc :: rest /\
  let now := t - t0 in
  let cd := seconds (lm_cooldownSecs c) in
  (attempts lines = [] /\ no_kill calls /\
     (sz = 0 \/ lm_reserve c = 0 \/ lm_reserve c <= free \/ now < 0 \/ exists a, a ∈ attempts past /\ now < a + cd)) \/
  (attempts lines = [now] /\ sz <> 0 /\ lm_reserve c <> 0 /\ free < lm_reserve c /\
     (forall a, a ∈ attempts past -> a + cd <= now) /\
     exists pre last, calls = pre ++ last /\ no_kill pre /\ kills_largest c pre last).

Fixpoint ticks_ok (c : lowmemd_t) (t0 : Z) (past : list log_line) (ticks : list (list log_line * list lm_call)) : Prop :=
  match ticks with
  | [] => True
  | (lines, calls) :: ticks => tick_spec c t0 past lines calls /\ ticks_ok c t0 (past ++ lines) ticks
  end.

(** The times of the attempts against the variable of the loop. *)
Record loop_inv (c0 : lowmemd_t) (past : list log_line) (l : loop_t) (c : lowmemd_t) : Prop := {
  li_opts : same_opts c0 c;
  li_last a : a ∈ attempts past -> a + seconds (lm_cooldownSecs c0) <= l_cooldownUntil l;
  li_until : l_cooldownUntil l = 0 \/ exists a, a ∈ attempts past /\ l_cooldownUntil l = a + seconds (lm_cooldownSecs c0);
}.

Lemma loop_inv_quiet c0 past lines l l' c c' : loop_inv c0 past l c -> same_opts c c' ->
  l_cooldownUntil l' = l_cooldownUntil l -> attempts lines = [] -> loop_inv c0 (past ++ lines) l' c'.
Proof.
  intros [Ho Hl Hu] Hc E Ha. assert (Ea : attempts (past ++ lines) = attempts past).
  { unfold attempts in *. by rewrite omap_app, Ha, app_nil_r. }
  split; rewrite ?Ea, ?E; [|done..]. destruct Ho as (?&?&?&?), Hc as (?&?&?&?). unfold same_opts. split_and!; congruence.
Qed.

Lemma report_rec t why c s tr : exists line c' s' calls,
  lowmemd_report NAMESZ SIZEW t why c (s, tr) = Some (line, c', (s', tr ++ calls)) /\ same c c' /\
  attempt line = None /\ no_kill calls.
Proof.
  unfold lowmemd_report. destruct (scan_rec c s tr) as (ret & c1 & s1 & calls & -> & Hs & Hk & _). cbn [mbind option_bind].
  by eexists _, _, s1, calls.
Qed.

(** One iteration. *)
Lemma tick_rec t0 c0 past l c s tr : 0 <= lm_cooldownSecs c0 -> loop_inv c0 past l c -> exists lines l' c' s' calls,
  lowmemd_tick NAMESZ SIZEW t0 l c (s, tr) = Some (lines, l', c', (s', tr ++ calls)) /\
  loop_inv c0 (past ++ lines) l' c' /\ tick_spec c0 t0 past lines calls.
Proof.
  intros Hcd Hinv. unfold lowmemd_tick. cbn [lm_now recording fst snd].
  destruct (lm_now s) as [t s1]. cbv beta iota zeta. set (now := t - t0).
  unfold lowmemd_readSystem. cbn [lm_meminfo recording fst snd]. destruct (lm_meminfo s1) as [[[sz free] alloc] s2].
  cbn [fst snd].
  rewrite <- (assoc_L (++)). cbn [app].
  destruct (Z.eqb_spec sz 0) as [Hsz|Hsz].
  { eexists [], l, c, s2, _. split; [reflexivity|]. split; [by apply (loop_inv_quiet _ _ _ l _ c)|].
    exists t, sz, free, alloc, []. split; [done|]. left. split; [done|]. split; [|by left].
    constructor; [by intros []|]. apply no_kill_one. by intros []. }
  cbn [Z.eqb negb]. set (c1 := set_memory free (u64 (free + alloc)) c). set (head := [CallNow t; CallMem sz free alloc]).
  assert (Hhead : no_kill head) by (repeat constructor; by intros []).
  set (rep := if negb (bool_decide (Some (lowmemd_level c1) = l_last l)) then _ else _).
  assert (Hrep : exists log1 c2 s3 calls, rep = Some (log1, c2, (s3, (tr ++ head) ++ calls)) /\ same c1 c2 /\
    attempts log1 = [] /\ no_kill calls).
  { unfold rep. destruct (negb _); [|destruct (negb _ && _)];
      [..|exists [], c1, s2, []; rewrite app_nil_r; split; [done|]; split; [done|]; split; [done|constructor]];
      (edestruct (report_rec now) as (line & c2 & s3 & calls & -> & Hs & Ha & Hk); cbn [mbind option_bind];
       eexists _, _, s3, calls; split; [reflexivity|]; split; [done|]; split; [unfold attempts; simpl; by rewrite Ha|done]). }
  destruct Hrep as (log1 & c2 & s3 & calls1 & -> & [Hs2 Hf2] & Ha1 & Hk1). cbn [mbind option_bind].
  set (l1 := Loop _ _ _ _ _ _). assert (Hu1 : l_cooldownUntil l1 = l_cooldownUntil l) by done. clearbody l1.
  set (after := if (0 <? l_victim l1) && _ then _ else _).
  assert (Haf : exists log2 l2 s4 calls, after = (log2, l2, (s4, ((tr ++ head) ++ calls1) ++ calls)) /\
    l_cooldownUntil l2 = l_cooldownUntil l1 /\ attempts log2 = [] /\ no_kill calls).
  { unfold after. destruct (_ && _); [|exists [], l1, s3, []; rewrite app_nil_r; do 3 (split; [done|]); constructor].
    unfold lowmemd_isAlive. cbn. destruct (lm_threads s3) as [[n ts] s4]. cbn.
    eexists _, _, s4, [_]. split; [reflexivity|]. do 2 (split; [done|]). apply no_kill_one. by intros []. }
  destruct Haf as (log2 & l2 & s4 & calls2 & -> & Hu2 & Ha2 & Hk2).
  assert (Hal : attempts (log1 ++ log2) = []) by (unfold attempts in *; by rewrite omap_app, Ha1, Ha2).
  assert (Ho : same_opts c0 c2).
  { destruct (li_opts _ _ _ _ Hinv) as (?&?&?&?), Hs2 as (?&?&?&?). unfold same_opts. split_and!; simpl in *; congruence. }
  assert (Hpre : no_kill (head ++ calls1 ++ calls2)) by auto using no_kill_app.
  destruct (negb (lm_reserve c2 =? 0) && (lm_free c2 <? lm_reserve c2) && (l_cooldownUntil l2 <=? now)) eqn:Eg.
  - bprop. destruct (killLargest_rec now c2 s4 (((tr ++ head) ++ calls1) ++ calls2))
      as (r & line & c3 & s5 & calls3 & -> & [Hs3 _] & Hat & Hkl). cbn [mbind option_bind].
    destruct Ho as (Em & Es & Er & Ec). simpl in Hf2.
    assert (Hla : forall a, a ∈ attempts past -> a + seconds (lm_cooldownSecs c0) <= now).
    { intros a Hin%(li_last _ _ _ _ Hinv). lia. }
    assert (Ea : attempts (log1 ++ log2 ++ [line]) = [now]).
    { rewrite (assoc_L (++)). unfold attempts in *. rewrite omap_app, Hal. simpl. by rewrite Hat. }
    eexists _, _, c3, s5, (head ++ calls1 ++ calls2 ++ calls3). split; [by rewrite <- !(assoc_L (++))|].
    assert (Ea' : attempts (past ++ log1 ++ log2 ++ [line]) = attempts past ++ [now]).
    { unfold attempts in *. by rewrite omap_app, Ea. }
    split.
    + split; rewrite ?Ea'; simpl.
      * destruct Hs3 as (?&?&?&?). unfold same_opts. split_and!; congruence.
      * destruct Hs3 as (_&_&_&Ec3). rewrite Ec3, Ec. unfold seconds in *.
        intros a [Hin| ->%list_elem_of_singleton]%elem_of_app; [specialize (Hla a Hin)|]; lia.
      * destruct Hs3 as (_&_&_&Ec3). rewrite Ec3, Ec. right. exists now. split; [|done]. apply elem_of_app. right. by left.
    + exists t, sz, free, alloc, (calls1 ++ calls2 ++ calls3). split; [done|]. right.
      split; [done|]. split; [done|]. split; [congruence|]. split; [by rewrite <- Hf2, <- Er|]. split; [done|].
      exists (head ++ calls1 ++ calls2), calls3. split; [by rewrite <- !(assoc_L (++))|]. split; [done|].
      assert (Hkb : forall e pid a, killable c2 e pid a <-> killable c0 e pid a) by (intros; unfold killable; by rewrite Em, Es).
      destruct (Hkl (head ++ calls1 ++ calls2)) as [[Hn Hno]|(pre & pid & r' & a & -> & Hn & Hy & Hmax)]; [left|right].
      * split; [done|]. intros pid a. rewrite <- Hkb. apply Hno.
      * exists pre, pid, r', a. do 2 (split; [done|]). split; [by apply Hkb|]. intros pid' a'. rewrite <- Hkb. apply Hmax.
  - eexists _, _, _, s4, (head ++ calls1 ++ calls2). split; [by rewrite <- !(assoc_L (++))|]. split.
    + apply (loop_inv_quiet _ _ _ l _ c); [done|exact Hs2|congruence|done].
    + exists t, sz, free, alloc, (calls1 ++ calls2). split; [done|]. left. do 2 (split; [done|]). right.
      destruct Ho as (_ & _ & Er & _). simpl in Hf2. rewrite Er, Hf2 in Eg.
      destruct (Z.eqb_spec (lm_reserve c0) 0) as [|Hr0]; [by left|right].
      destruct (Z.ltb_spec free (lm_reserve c0)); [right|by left]. simpl in Eg.
      destruct (Z.leb_spec (l_cooldownUntil l2) now) as [|Hlt]; [done|].
      destruct (li_until _ _ _ _ Hinv) as [E|(a & Hin & E)]; [left; fold now; lia|right]. exists a. split; [done|]. fold now. lia.
Qed.

Lemma ticks_ok_snoc c t0 lines calls : forall ticks past,
  ticks_ok c t0 past ticks -> tick_spec c t0 (past ++ concat ticks.*1) lines calls ->
  ticks_ok c t0 past (ticks ++ [(lines, calls)]).
Proof.
  intros ticks. induction ticks as [|[ln cl] ticks IH]; intros past Ht Hs; simpl in *.
  - rewrite app_nil_r in Hs. by split.
  - destruct Ht as [Ht Hts]. split; [done|]. apply IH; [done|]. by rewrite <- (assoc_L (++)).
Qed.

(** C12: What a run of the loop kills, shown on the calls the daemon makes to any system
    ([recording]).  The calls and the log of [k] iterations are those of [k] ticks, and in
    every tick: a process is killed only when the memory just read is below a reserve
    that is not 0 and the cooldown after the last attempt is over; then and only then an
    attempt is made; it kills the process that has most anonymous memory by the answers
    just given among those that may be killed (at least the minimum, neither [lowmemd]
    nor process 1, no spared program), and nobody when there is none. *)
Theorem run_kills k t0 c s : 0 <= lm_cooldownSecs c -> exists ticks l c' s',
  lowmemd_run NAMESZ SIZEW k t0 loop_start c (s, []) [] = Some (concat ticks.*1, l, c', (s', concat ticks.*2)) /\
  length ticks = k /\ ticks_ok c t0 [] ticks.
Proof.
  intros Hcd.
  assert (Hrun : forall k ticks l c1 s, loop_inv c (concat ticks.*1) l c1 -> ticks_ok c t0 [] ticks -> exists ticks' l' c' s',
    lowmemd_run NAMESZ SIZEW k t0 l c1 (s, concat ticks.*2) (concat ticks.*1) =
      Some (concat ticks'.*1, l', c', (s', concat ticks'.*2)) /\
    length ticks' = (length ticks + k)%nat /\ ticks_ok c t0 [] ticks').
  { clear s k. intros k. induction k as [|k IH]; intros ticks l c1 s Hinv Ht.
    { exists ticks, l, c1, s. by rewrite Nat.add_0_r. }
    cbn [lowmemd_run]. destruct (tick_rec t0 c _ l c1 s (concat ticks.*2) Hcd Hinv) as (lines & l' & c' & s' & calls & -> & Hinv' & Hs).
    cbn [mbind option_bind].
    assert (E1 : concat ticks.*1 ++ lines = concat (ticks ++ [(lines, calls)]).*1)
      by (rewrite fmap_app, concat_app; simpl; by rewrite app_nil_r).
    assert (E2 : concat ticks.*2 ++ calls = concat (ticks ++ [(lines, calls)]).*2)
      by (rewrite fmap_app, concat_app; simpl; by rewrite app_nil_r).
    rewrite E1, E2. rewrite E1 in Hinv'. destruct (IH _ _ _ s' Hinv') as (ticks' & l2 & c2 & s2 & -> & Hlen & Hok).
    { by apply ticks_ok_snoc. }
    exists ticks', l2, c2, s2. split; [done|]. split; [|done]. rewrite Hlen, length_app. simpl. lia. }
  destruct (Hrun k [] loop_start c s) as (ticks & l & c' & s' & E & Hlen & Hok); [|done|by exists ticks, l, c', s'].
  split; [done|by intros a ?%elem_of_nil|by left].
Qed.
End calls.

(** ** A system

    Two processes besides [init]; the time is the state. *)

#[export] Instance ex_sys : LmSys Z := {
  lm_now s := (s, s + 1000000000);
  lm_meminfo s := ((64, 100, 900), s);
  lm_entries pid s := ((1, [pid * MIB * 100]), s);
  lm_threads s := ((4, [(0, bstr "idle"); (1, bstr "init"); (2, bstr "/bin/psh -i"); (3, bstr "web http://a/b")]), s);
  lm_kill _ s := (0, s);
  lm_open _ s := (-1, s);
  lm_getpid := 7;
}.

Definition ex_lowmemd : lowmemd_t := Lowmemd 1000 0 300 200 150 MIB 10 5 [bstr "psh"] 2 0 0 0 0 [].

(** Eleven ticks: the larger process that is not spared, and again after the cooldown. *)
Example ex_lm_run : exists l c s, lowmemd_run 32 64 11 0 loop_start ex_lowmemd 0 [] =
  Some ([LogReport 0 (Some Critical) 0 0 (bstr "3:web:300,2:psh:200,1:init:100");
         LogKill 0 (Proc 3 314572800 (bstr "web"));
         LogAfterKill 10000000000 3 false 0 0 10000000000;
         LogKill 10000000000 (Proc 3 314572800 (bstr "web"))], l, c, s).
Proof. eexists _, _, _. vm_compute. reflexivity. Qed.

(** Of the calls of these ticks, those that kill. *)
Example ex_lm_calls : exists log l c s tr, lowmemd_run 32 64 11 0 loop_start ex_lowmemd (0, []) [] = Some (log, l, c, (s, tr)) /\
  omap (fun e => match e with CallKill pid _ => Some pid | _ => None end) tr = [3; 3].
Proof. eexists _, _, _, _, _. split; vm_compute; reflexivity. Qed.

Lemma run_kills_witness : exists ticks l c' s',
  lowmemd_run 32 64 11 0 loop_start ex_lowmemd (0, []) [] = Some (concat ticks.*1, l, c', (s', concat ticks.*2)) /\
  length ticks = 11%nat /\ ticks_ok 32 64 ex_lowmemd 0 [] ticks.
Proof. apply (run_kills 32 64 11 0 ex_lowmemd 0). done. Defined.
