(* ===== verification/Event.v ===== *)
(** * The events of a trace ([prof/event.c])

    The sizes of events, finding an event boundary in a stream that begins inside an
    event, and counting the events of a stream.  A stream is an array with checked
    accesses. *)

From S2P Require Import Prelude.

Inductive prof_ev :=
  | EvIrqEnter | EvIrqExit | EvScheduling | EvPreempted | EvEnqueued | EvWaking | EvThreadCreate | EvThreadEnd
  | EvSyscallEnter | EvSyscallExit | EvSchedEnter | EvSchedExit | EvLockName | EvLockSetEnter | EvLockSetAcquired
  | EvLockSetExit | EvLockClear | EvThreadPriority | EvProcessKill | EvProcessExec
  | EvSample | EvWait | EvWakeup | EvMsgSend | EvMsgRecv | EvMsgRespond | EvTraceStats.

(** The events in the order of their identifiers: from 0x20, and from 0x40. *)
Definition evs_low : list prof_ev :=
  [EvIrqEnter; EvIrqExit; EvScheduling; EvPreempted; EvEnqueued; EvWaking; EvThreadCreate; EvThreadEnd;
   EvSyscallEnter; EvSyscallExit; EvSchedEnter; EvSchedExit; EvLockName; EvLockSetEnter; EvLockSetAcquired;
   EvLockSetExit; EvLockClear; EvThreadPriority; EvProcessKill; EvProcessExec].
Definition evs_high : list prof_ev :=
  [EvSample; EvWait; EvWakeup; EvMsgSend; EvMsgRecv; EvMsgRespond; EvTraceStats].

Definition prof_ev_of (id : Z) : option prof_ev :=
  match rd evs_low (id - 32) with Some e => Some e | None => rd evs_high (id - 64) end.

Definition PROF_SAMPLE_NK : Z := 31.
Definition PROF_SAMPLE_KFRAMES : Z := 32.
Definition PROF_WAIT_NK : Z := 49.
Definition PROF_WAIT_KFRAMES : Z := 50.
Definition PROF_MAX_CPUS : Z := 16.
Definition RESYNC_RUN : nat := 6.

Definition prof_rd16 (data : bytes) (o : Z) : option Z :=
  a ← rd data o; b ← rd data (o + 1); Some (a + 256 * b).
Definition prof_rd32 (data : bytes) (o : Z) : option Z :=
  a ← prof_rd16 data o; b ← prof_rd16 data (o + 2); Some (a + 65536 * b).

(** [p] is [data + base]. *)
Definition urecEnd (data : bytes) (base avail o : Z) : option Z :=
  if avail <? o + 33 then Some 0
  else
    nf ← rd data (base + o + 32);
    let o := o + 33 + nf * 8 in
    if avail <? o + 2 then Some 0
    else
      ns ← prof_rd16 data (base + o);
      let o := o + 2 + ns * 8 in
      Some (if avail <? o then 0 else o).

(** The sizes of the events that have a fixed one. *)
Definition ev_fixed (e : prof_ev) : option Z :=
  match e with
  | EvIrqEnter | EvIrqExit | EvSchedEnter | EvSchedExit => Some 1
  | EvScheduling | EvPreempted | EvEnqueued | EvWaking | EvProcessKill => Some 2
  | EvSyscallEnter | EvSyscallExit | EvThreadPriority => Some 3
  | EvThreadEnd => Some 4
  | EvWakeup => Some 5
  | EvLockSetEnter | EvLockSetAcquired | EvLockSetExit | EvLockClear => Some 6
  | EvTraceStats => Some 8
  | EvMsgRespond => Some 10
  | EvMsgRecv => Some 12
  | EvMsgSend => Some 14
  | EvLockName => Some 20
  | EvThreadCreate | EvProcessExec => Some 133
  | EvSample | EvWait => None
  end.

Definition prof_evSize (id : Z) (data : bytes) (base avail : Z) : option Z :=
  match prof_ev_of id with
  | None => Some 0
  | Some e =>
      match ev_fixed e with
      | Some sz => Some (if avail <? sz then 0 else sz)
      | None =>
          let '(frames, nk) := match e with
                               | EvSample => (PROF_SAMPLE_KFRAMES, PROF_SAMPLE_NK)
                               | _ => (PROF_WAIT_KFRAMES, PROF_WAIT_NK)
                               end in
          if avail <? frames then Some 0
          else k ← rd data (base + nk); urecEnd data base avail (frames + k * 8)
      end
  end.

(** The loop of [prof_syncAt]: [n] events were parsed, [k] are left of the run. *)
Fixpoint sync_loop (k : nat) (n : Z) (prev : Z) (data : bytes) (sz o : Z) : option bool :=
  match k with
  | O => Some true
  | Datatypes.S k =>
      if o =? sz then Some (0 <? n)
      else if sz <? o + 5 then Some false
      else
        ts ← prof_rd32 data o;
        id ← rd data (o + 4);
        psz ← prof_evSize id data (o + 5) (sz - o - 5);
        if (psz =? 0) || ((0 <? n) && (ts <? prev)) then Some false
        else sync_loop k (n + 1) ts data sz (o + 5 + psz)
  end.

Definition prof_syncAt (data : bytes) (sz o : Z) : option bool := sync_loop RESYNC_RUN 0 0 data sz o.

(** [prof_mix_t]: the arrays [count] and [bytes] are functions of the event and the
    processor. *)
Record prof_mix_t := Mix {
  mx_count : Z -> Z -> Z; mx_bytes : Z -> Z -> Z; mx_skipped : Z; mx_stats : bool; mx_discarded : Z; mx_waitsDropped : Z }.

Definition upd2 (f : Z -> Z -> Z) (i j d : Z) : Z -> Z -> Z :=
  fun i' j' => if (i' =? i) && (j' =? j) then u64 (f i j + d) else f i' j'.

Definition mix_skip (m : prof_mix_t) : prof_mix_t :=
  Mix (mx_count m) (mx_bytes m) (u64 (mx_skipped m + 1)) (mx_stats m) (mx_discarded m) (mx_waitsDropped m).

(** The inner loop of [prof_mixAdd], which looks for a boundary. *)
Fixpoint resync_loop (fuel : nat) (mix : prof_mix_t) (data : bytes) (sz o : Z) : option (prof_mix_t * Z) :=
  match fuel with
  | O => None
  | Datatypes.S fuel =>
      if o + 5 <=? sz then
        b ← prof_syncAt data sz o;
        if b : bool then Some (mix, o) else resync_loop fuel (mix_skip mix) data sz (o + 1)
      else Some (mix, o)
  end.

(** Counting the event at [o]: the mix, and the size of the payload. *)
Definition mix_event (mix : prof_mix_t) (data : bytes) (sz o cpu : Z) : option (prof_mix_t * Z) :=
  id ← rd data (o + 4);
  psz ← prof_evSize id data (o + 5) (sz - o - 5);
  let m := Mix (upd2 (mx_count mix) id cpu 1) (upd2 (mx_bytes mix) id cpu (5 + psz)) (mx_skipped mix)
             (mx_stats mix) (mx_discarded mix) (mx_waitsDropped mix) in
  if id =? 70 then
    d ← prof_rd32 data (o + 5);
    w ← prof_rd32 data (o + 9);
    Some (Mix (mx_count m) (mx_bytes m) (mx_skipped m) true (u64 (mx_discarded m + d)) (u64 (mx_waitsDropped m + w)), psz)
  else Some (m, psz).

Fixpoint mix_loop (fuel : nat) (synced : bool) (mix : prof_mix_t) (data : bytes) (sz o cpu : Z) : option prof_mix_t :=
  match fuel with
  | O => None
  | Datatypes.S fuel =>
      if o + 5 <=? sz then
        lost ← (if negb synced then Some true
                else id ← rd data (o + 4); psz ← prof_evSize id data (o + 5) (sz - o - 5); Some (psz =? 0));
        '(mix, o) ← (if lost : bool then resync_loop (Datatypes.S (Z.to_nat sz)) mix data sz o else Some (mix, o));
        if sz <? o + 5 then Some mix
        else
          '(mix, psz) ← mix_event mix data sz o cpu;
          mix_loop fuel true mix data sz (o + 5 + psz) cpu
      else Some mix
  end.

Definition prof_mixAdd (mix : prof_mix_t) (data : bytes) (sz cpu : Z) : option prof_mix_t :=
  if (cpu <? 0) || (PROF_MAX_CPUS <=? cpu) then Some mix
  else mix_loop (Datatypes.S (Z.to_nat sz)) false mix data sz 0 cpu.
