(* ===== verification/EventSpec.v ===== *)
(** * Counting the events of a trace

    Sizes never exceed what is there, every stream is read inside its bounds, and a
    stream of whole events, behind bytes that do not look like a boundary, is counted
    event by event. *)

From stdpp Require Import sorting.
From S2P Require Import Prelude.
From S2P Require Import Event.

Definition bytes_ok (data : bytes) : Prop := Forall (fun b => 0 <= b < 256) data.

Lemma rd_in {A} (l : list A) i : 0 <= i < zlen l -> exists x, rd l i = Some x /\ x ∈ l.
Proof.
  intros Hi. destruct (proj2 (rd_is_Some l i) Hi) as [x E]. exists x. split; [done|].
  unfold rd in E. destruct (0 <=? i); [|done]. by eapply list_elem_of_lookup_2.
Qed.

Lemma rd_byte data i : bytes_ok data -> 0 <= i < zlen data -> exists b, rd data i = Some b /\ 0 <= b < 256.
Proof. intros Hd Hi. destruct (rd_in data i Hi) as (b & E & Hb). apply (proj1 (Forall_forall _ _) Hd) in Hb. eauto. Qed.

Lemma rd16_ok data o : bytes_ok data -> 0 <= o -> o + 2 <= zlen data -> exists x, prof_rd16 data o = Some x /\ 0 <= x < 65536.
Proof.
  intros Hd Ho Hl. unfold prof_rd16.
  destruct (rd_byte data o Hd) as (a & -> & Ha); [lia|]. destruct (rd_byte data (o + 1) Hd) as (b & -> & Hb); [lia|].
  eexists. split; [reflexivity|]. lia.
Qed.

Lemma rd32_ok data o : bytes_ok data -> 0 <= o -> o + 4 <= zlen data -> exists x, prof_rd32 data o = Some x /\ 0 <= x < 4294967296.
Proof.
  intros Hd Ho Hl. unfold prof_rd32.
  destruct (rd16_ok data o Hd) as (a & -> & Ha); [lia..|]. destruct (rd16_ok data (o + 2) Hd) as (b & -> & Hb); [lia..|].
  eexists. split; [reflexivity|]. lia.
Qed.

Lemma urecEnd_ok data base avail o : bytes_ok data -> 0 <= base -> 0 <= o -> base + avail <= zlen data -> 0 <= avail ->
  exists r, urecEnd data base avail o = Some r /\ 0 <= r <= avail.
Proof.
  intros Hd Hb Ho Hl Ha. unfold urecEnd. destruct (Z.ltb_spec avail (o + 33)); [eexists; split; [done|lia]|].
  destruct (rd_byte data (base + o + 32) Hd) as (nf & -> & Hnf); [lia|]. cbn [mbind option_bind].
  destruct (Z.ltb_spec avail (o + 33 + nf * 8 + 2)); [eexists; split; [done|lia]|].
  destruct (rd16_ok data (base + (o + 33 + nf * 8)) Hd) as (ns & -> & Hns); [lia..|]. cbn [mbind option_bind].
  eexists. split; [reflexivity|]. case_match; bprop; lia.
Qed.

Lemma ev_fixed_pos e sz : ev_fixed e = Some sz -> 0 < sz.
Proof. by destruct e; intros [= <-]. Qed.

(** The size of an event fits in what is there. *)
Lemma evSize_ok id data base avail : bytes_ok data -> 0 <= base -> 0 <= avail -> base + avail <= zlen data ->
  exists r, prof_evSize id data base avail = Some r /\ 0 <= r <= avail.
Proof.
  intros Hd Hb Ha Hl. unfold prof_evSize. destruct (prof_ev_of id) as [e|]; [|eexists; split; [done|lia]].
  destruct (ev_fixed e) as [sz|] eqn:Ef.
  { apply ev_fixed_pos in Ef. eexists. split; [reflexivity|]. case_match; bprop; lia. }
  set (fk := match e with EvSample => _ | _ => _ end).
  assert (Hfk : 0 <= fk.2 < fk.1) by (unfold fk; destruct e; done). destruct fk as [frames nk]. simpl in Hfk.
  destruct (Z.ltb_spec avail frames); [eexists; split; [done|lia]|].
  destruct (rd_byte data (base + nk) Hd) as (k & -> & Hk); [lia|]. cbn [mbind option_bind].
  apply urecEnd_ok; done || lia.
Qed.

Section bounds.
Context (data : bytes) (sz : Z) (Hd : bytes_ok data) (Hsz : 0 <= sz <= zlen data).

Lemma evSize_at o id : 0 <= o -> o + 5 <= sz -> exists r,
  prof_evSize id data (o + 5) (sz - o - 5) = Some r /\ 0 <= r /\ o + 5 + r <= sz.
Proof. intros Ho Hl. destruct (evSize_ok id data (o + 5) (sz - o - 5) Hd) as (r & -> & Hr); [lia..|]. exists r. split; [done|lia]. Qed.

Lemma sync_total k : forall n prev o, 0 <= o -> exists b, sync_loop k n prev data sz o = Some b.
Proof.
  induction k as [|k IH]; intros n prev o Ho; [by eexists|]. cbn [sync_loop].
  destruct (o =? sz); [by eexists|]. destruct (Z.ltb_spec sz (o + 5)); [by eexists|].
  destruct (rd32_ok data o Hd) as (ts & -> & _); [lia..|]. destruct (rd_byte data (o + 4) Hd) as (id & -> & _); [lia|].
  destruct (evSize_at o id) as (r & E & Hr & _); [lia..|]. cbn [mbind option_bind]. rewrite E. cbn [mbind option_bind].
  destruct (_ || _); [by eexists|]. apply IH. lia.
Qed.

(** A boundary has an event that fits. *)
Lemma sync_event o : 0 <= o -> o + 5 <= sz -> prof_syncAt data sz o = Some true -> exists id r,
  rd data (o + 4) = Some id /\ prof_evSize id data (o + 5) (sz - o - 5) = Some r /\ 0 < r /\ o + 5 + r <= sz.
Proof.
  intros Ho Hl. unfold prof_syncAt, RESYNC_RUN. cbn [sync_loop].
  destruct (Z.eqb_spec o sz); [lia|]. destruct (Z.ltb_spec sz (o + 5)); [lia|].
  destruct (rd32_ok data o Hd) as (ts & -> & _); [lia..|]. destruct (rd_byte data (o + 4) Hd) as (id & -> & _); [lia|].
  destruct (evSize_at o id) as (r & E & Hr & Hfit); [lia..|]. cbn [mbind option_bind]. rewrite E. cbn [mbind option_bind].
  destruct (Z.eqb_spec r 0); [done|]. intros _. exists id, r. split_and!; try done. lia.
Qed.

Lemma resync_ok fuel : forall mix o, 0 <= o -> (Z.to_nat (sz - o) < fuel)%nat -> exists mix' o',
  resync_loop fuel mix data sz o = Some (mix', o') /\ o <= o' /\
  (sz < o' + 5 \/ o' + 5 <= sz /\ prof_syncAt data sz o' = Some true).
Proof.
  induction fuel as [|fuel IH]; intros mix o Ho Hf; [lia|]. cbn [resync_loop].
  destruct (Z.leb_spec (o + 5) sz); [|eexists _, _; split; [done|]; lia].
  destruct (sync_total RESYNC_RUN 0 0 o Ho) as [b Eb]. unfold prof_syncAt at 1. rewrite Eb. cbn [mbind option_bind].
  destruct b; [eexists _, _; split; [done|]; split; [lia|by right]|].
  destruct (IH (mix_skip mix) (o + 1)) as (mix' & o' & -> & Hle & Hend); [lia..|].
  eexists _, _. split; [done|]. split; [lia|done].
Qed.

Lemma mix_event_ok mix o cpu id r : 0 <= o -> rd data (o + 4) = Some id ->
  prof_evSize id data (o + 5) (sz - o - 5) = Some r -> 0 < r -> o + 5 + r <= sz ->
  exists mix', mix_event mix data sz o cpu = Some (mix', r).
Proof.
  intros Ho Eid Er Hr Hfit. unfold mix_event. rewrite Eid. cbn [mbind option_bind]. rewrite Er. cbn [mbind option_bind].
  destruct (Z.eqb_spec id 70) as [->|]; [|by eexists].
  assert (r = 8) as ->.
  { unfold prof_evSize in Er. change (prof_ev_of 70) with (Some EvTraceStats) in Er. simpl in Er. case_match; simplify_eq; lia. }
  destruct (rd32_ok data (o + 5) Hd) as (d & -> & _); [lia..|]. destruct (rd32_ok data (o + 9) Hd) as (w & -> & _); [lia..|].
  by eexists.
Qed.

(** Every stream of bytes is counted to its end without reading behind it. *)
Theorem mixAdd_total mix cpu : exists mix', prof_mixAdd mix data sz cpu = Some mix'.
Proof.
  unfold prof_mixAdd. destruct (_ || _); [by eexists|].
  assert (Hloop : forall fuel synced mix o, 0 <= o -> (Z.to_nat (sz - o) < fuel)%nat ->
    exists mix', mix_loop fuel synced mix data sz o cpu = Some mix'); [|apply Hloop; lia].
  induction fuel as [|fuel IH]; intros synced m o Ho Hf; [lia|]. cbn [mix_loop].
  destruct (Z.leb_spec (o + 5) sz); [|by eexists].
  destruct (rd_byte data (o + 4) Hd) as (id & Eid & _); [lia|].
  destruct (evSize_at o id) as (r & Er & Hr & Hfit); [lia..|].
  set (lost := if negb synced then _ else _).
  assert (Hlost : exists b, lost = Some b /\ (b = false -> 0 < r)).
  { unfold lost. destruct (negb synced); [by exists true|]. rewrite Eid. cbn [mbind option_bind]. rewrite Er. cbn [mbind option_bind].
    eexists. split; [done|]. intros E. bprop. lia. }
  destruct Hlost as (b & -> & Hb). cbn [mbind option_bind].
  assert (Hnext : forall m o' id' r', o <= o' -> rd data (o' + 4) = Some id' -> o' + 5 <= sz ->
    prof_evSize id' data (o' + 5) (sz - o' - 5) = Some r' -> 0 < r' -> o' + 5 + r' <= sz ->
    exists mix', ('(mix, psz) ← mix_event m data sz o' cpu; mix_loop fuel true mix data sz (o' + 5 + psz) cpu) = Some mix').
  { intros m' o' id' r' Hle E1 E2 E3 E4 E5. destruct (mix_event_ok m' o' cpu id' r') as [m2 ->]; [lia|done..|].
    cbn [mbind option_bind]. apply IH; lia. }
  destruct b.
  - destruct (resync_ok (S (Z.to_nat sz)) m o) as (m' & o' & -> & Hle & Hend); [lia..|]. cbn [mbind option_bind].
    destruct (Z.ltb_spec sz (o' + 5)); [by eexists|]. destruct Hend as [|[_ Hs]]; [lia|].
    apply sync_event in Hs as (id' & r' & E1 & E2 & E3 & E4); [|lia..]. by eapply Hnext.
  - cbn [mbind option_bind]. destruct (Z.ltb_spec sz (o + 5)); [lia|]. eapply Hnext; eauto; lia.
Qed.
End bounds.

(** ** Streams of whole events *)

Record event := Event { e_ts : Z; e_id : Z; e_payload : bytes }.

Definition le32 (x : Z) : bytes := [x mod 256; x / 256 mod 256; x / 65536 mod 256; x / 16777216 mod 256].
Definition enc (e : event) : bytes := le32 (e_ts e) ++ e_id e :: e_payload e.
Definition stream_of (es : list event) : bytes := es ≫= enc.

(** An event with a known identifier whose payload has the size of its type. *)
Definition whole (e : event) : Prop :=
  0 <= e_ts e < 4294967296 /\ 0 < zlen (e_payload e) /\ bytes_ok (e_payload e) /\
  prof_evSize (e_id e) (e_payload e) 0 (zlen (e_payload e)) = Some (zlen (e_payload e)).

Lemma rd_mid {A} (a l c : list A) i : 0 <= i < zlen l -> rd (a ++ l ++ c) (zlen a + i) = rd l i.
Proof.
  intros Hi. unfold rd. pose proof (zlen_nonneg a). destruct (Z.leb_spec 0 (zlen a + i)); [|lia]. destruct (Z.leb_spec 0 i); [|lia].
  rewrite lookup_app_r by (unfold zlen in *; lia). rewrite lookup_app_l by (unfold zlen in *; lia).
  f_equal. unfold zlen. lia.
Qed.

(** A size only looks at the bytes of the event. *)
Lemma urecEnd_local data base avail data' base' avail' o r : bytes_ok data -> 0 <= base -> 0 <= o ->
  urecEnd data base avail o = Some r -> 0 < r -> r <= avail' ->
  (forall i, 0 <= i < r -> rd data' (base' + i) = rd data (base + i)) -> o < r /\ urecEnd data' base' avail' o = Some r.
Proof.
  intros Hd Hb Ho E Hr Hav Hloc. unfold urecEnd in *. destruct (avail <? o + 33); [simplify_eq; lia|].
  obind E. rename x into nf, E0 into Enf. assert (0 <= nf < 256) as Hnf.
  { destruct (rd_byte data (base + o + 32) Hd) as (b & Eb & ?); [apply rd_is_Some; eauto|congruence]. }
  destruct (avail <? o + 33 + nf * 8 + 2); [simplify_eq; lia|]. obind E. rename x into ns, E0 into Ens.
  unfold prof_rd16 in Ens. obind Ens. rename x into a, E0 into Ea. obind Ens. rename x into b, E0 into Eb. simplify_eq.
  assert (Hbyte : forall i v, rd data i = Some v -> 0 <= v < 256).
  { intros i v Ev. destruct (rd_byte data i Hd) as (b' & Eb' & ?); [apply rd_is_Some; eauto|congruence]. }
  apply Hbyte in Ea as Ha', Eb as Hb'. destruct (Z.ltb_spec avail (o + 33 + nf * 8 + 2 + (a + 256 * b) * 8)); simplify_eq; [lia|].
  split; [lia|]. destruct (Z.ltb_spec avail' (o + 33)); [lia|].
  replace (base' + o + 32) with (base' + (o + 32)) by lia. rewrite Hloc by lia.
  replace (base + (o + 32)) with (base + o + 32) by lia. rewrite Enf. cbn [mbind option_bind].
  destruct (Z.ltb_spec avail' (o + 33 + nf * 8 + 2)); [lia|]. unfold prof_rd16.
  rewrite Hloc, Ea by lia. cbn [mbind option_bind].
  replace (base' + (o + 33 + nf * 8) + 1) with (base' + (o + 33 + nf * 8 + 1)) by lia. rewrite Hloc by lia.
  replace (base + (o + 33 + nf * 8 + 1)) with (base + (o + 33 + nf * 8) + 1) by lia. rewrite Eb. cbn [mbind option_bind].
  destruct (Z.ltb_spec avail' (o + 33 + nf * 8 + 2 + (a + 256 * b) * 8)); [lia|done].
Qed.

Lemma evSize_local id data base avail data' base' avail' r : bytes_ok data -> 0 <= base ->
  prof_evSize id data base avail = Some r -> 0 < r -> r <= avail' ->
  (forall i, 0 <= i < r -> rd data' (base' + i) = rd data (base + i)) -> prof_evSize id data' base' avail' = Some r.
Proof.
  intros Hd Hb E Hr Hav Hloc. unfold prof_evSize in *. destruct (prof_ev_of id) as [e|]; [|simplify_eq; lia].
  destruct (ev_fixed e) as [sz|].
  { destruct (avail <? sz); simplify_eq; [lia|]. destruct (Z.ltb_spec avail' r); [lia|done]. }
  set (fk := match e with EvSample => _ | _ => _ end) in *.
  assert (Hfk : 0 <= fk.2 < fk.1) by (unfold fk; destruct e; done). destruct fk as [frames nk]. simpl in Hfk.
  destruct (avail <? frames); [simplify_eq; lia|]. obind E. rename x into k, E0 into Ek.
  assert (0 <= k < 256) as Hk.
  { destruct (rd_byte data (base + nk) Hd) as (b & Eb & ?); [apply rd_is_Some; eauto|congruence]. }
  destruct (urecEnd_local data base avail data' base' avail' (frames + k * 8) r Hd Hb) as [Hlt E']; [lia|done..|].
  destruct (Z.ltb_spec avail' frames); [lia|]. rewrite Hloc, Ek by lia. done.
Qed.

Lemma zlen_enc e : zlen (enc e) = 5 + zlen (e_payload e).
Proof. unfold enc, le32. zlia. Qed.

(** What is read at the event [e] of the stream [pre ++ enc e ++ post]. *)
Section at_event.
Context (pre post : bytes) (e : event) (He : whole e).
#[local] Abbreviation data := (pre ++ enc e ++ post).

Lemma at_ts : prof_rd32 data (zlen pre) = Some (e_ts e).
Proof.
  destruct He as (Hts & _). pose proof (zlen_enc e). pose proof (zlen_nonneg (e_payload e)). unfold prof_rd32, prof_rd16.
  replace (zlen pre) with (zlen pre + 0) by lia. rewrite <- !Z.add_assoc, !rd_mid by lia.
  change (rd (enc e) 0) with (Some (e_ts e mod 256)). change (rd (enc e) (0 + 1)) with (Some (e_ts e / 256 mod 256)).
  change (rd (enc e) (0 + 2)) with (Some (e_ts e / 65536 mod 256)).
  change (rd (enc e) (0 + (2 + 1))) with (Some (e_ts e / 16777216 mod 256)).
  cbn [mbind option_bind]. f_equal. clear -Hts. Z.div_mod_to_equations. lia.
Qed.

Lemma at_id : rd data (zlen pre + 4) = Some (e_id e).
Proof. pose proof (zlen_enc e). pose proof (zlen_nonneg (e_payload e)). by rewrite rd_mid by lia. Qed.

Lemma at_payload i : 0 <= i < zlen (e_payload e) -> rd data (zlen pre + 5 + i) = rd (e_payload e) i.
Proof.
  intros Hi. unfold enc. replace (pre ++ (le32 (e_ts e) ++ e_id e :: e_payload e) ++ post)
    with ((pre ++ le32 (e_ts e) ++ [e_id e]) ++ e_payload e ++ post) by (rewrite <- !(assoc_L (++)); done).
  rewrite <- (rd_mid (pre ++ le32 (e_ts e) ++ [e_id e]) (e_payload e) post) by done.
  f_equal. unfold le32. zlia.
Qed.

Lemma at_size : prof_evSize (e_id e) data (zlen pre + 5) (zlen data - zlen pre - 5) = Some (zlen (e_payload e)).
Proof.
  destruct He as (_ & Hl & Hb & E). eapply evSize_local; [exact Hb|reflexivity|exact E|done| |].
  - rewrite !zlen_app, zlen_enc. pose proof (zlen_nonneg post). lia.
  - intros i Hi. by rewrite at_payload.
Qed.
End at_event.

Lemma stream_cons pre e es : pre ++ stream_of (e :: es) = pre ++ enc e ++ stream_of es.
Proof. done. Qed.

Lemma stream_next pre e es : pre ++ stream_of (e :: es) = (pre ++ enc e) ++ stream_of es.
Proof. rewrite stream_cons. by rewrite (assoc_L (++)). Qed.

Lemma zlen_stream es : 0 <= zlen (stream_of es).
Proof. apply zlen_nonneg. Qed.

Lemma zlen_stream_length es : Forall whole es -> Z.of_nat (length es) <= zlen (stream_of es).
Proof.
  induction 1 as [|e es He _ IH]; [done|]. change (stream_of (e :: es)) with (enc e ++ stream_of es).
  rewrite zlen_app, zlen_enc. pose proof (zlen_nonneg (e_payload e)). simpl. lia.
Qed.

(** A run of whole events in time order is taken for a boundary. *)
Lemma sync_events k : forall es pre n prev, Forall whole es -> 0 <= n -> (es <> [] \/ 0 < n) ->
  Sorted Z.le (if 0 <? n then prev :: (e_ts <$> es) else e_ts <$> es) ->
  sync_loop k n prev (pre ++ stream_of es) (zlen (pre ++ stream_of es)) (zlen pre) = Some true.
Proof.
  induction k as [|k IH]; intros es pre n prev Hw Hn Hne Hs; [done|]. cbn [sync_loop].
  destruct Hw as [|e es He Hw].
  - simpl. rewrite app_nil_r, Z.eqb_refl. destruct Hne as [|Hn']; [done|]. by apply Z.ltb_lt in Hn' as ->.
  - pose proof (zlen_stream es). rewrite stream_cons. pose proof (zlen_enc e). destruct He as (Hts & Hl & Hb & Esz) eqn:Ew.
    assert (Hlen : zlen (pre ++ enc e ++ stream_of es) = zlen pre + 5 + zlen (e_payload e) + zlen (stream_of es)) by zlia.
    destruct (Z.eqb_spec (zlen pre) (zlen (pre ++ enc e ++ stream_of es))); [lia|].
    destruct (Z.ltb_spec (zlen (pre ++ enc e ++ stream_of es)) (zlen pre + 5)); [lia|].
    rewrite at_ts, at_id by (by rewrite ?Ew). cbn [mbind option_bind]. rewrite at_size by done. cbn [mbind option_bind].
    destruct (Z.eqb_spec (zlen (e_payload e)) 0); [lia|]. cbn [orb].
    assert (Hs' : (0 <? n) && (e_ts e <? prev) = false /\ Sorted Z.le (e_ts e :: (e_ts <$> es))).
    { destruct (0 <? n); [|by split]. apply Sorted_inv in Hs as [Hs Hh]. split; [|done]. inversion Hh. by apply Z.ltb_ge. }
    destruct Hs' as [-> Hs'].
    replace (zlen pre + 5 + zlen (e_payload e)) with (zlen (pre ++ enc e)) by zlia.
    rewrite (assoc_L (++)). apply IH; [done|lia|right; lia|]. destruct (Z.ltb_spec 0 (n + 1)); [done|lia].
Qed.

(** ** The counts *)

(** What one event adds. *)
Definition tally (cpu : Z) (m : prof_mix_t) (e : event) : prof_mix_t :=
  let m' := Mix (upd2 (mx_count m) (e_id e) cpu 1) (upd2 (mx_bytes m) (e_id e) cpu (5 + zlen (e_payload e))) (mx_skipped m)
              (mx_stats m) (mx_discarded m) (mx_waitsDropped m) in
  if e_id e =? 70 then
    Mix (mx_count m') (mx_bytes m') (mx_skipped m') true
      (u64 (mx_discarded m + default 0 (prof_rd32 (e_payload e) 0))) (u64 (mx_waitsDropped m + default 0 (prof_rd32 (e_payload e) 4)))
  else m'.

Lemma rd32_local data data' base o : bytes_ok data -> 0 <= o -> o + 4 <= zlen data ->
  (forall i, 0 <= i < zlen data -> rd data' (base + i) = rd data i) ->
  prof_rd32 data' (base + o) = Some (default 0 (prof_rd32 data o)).
Proof.
  intros Hd Ho Hl Hloc. destruct (rd32_ok data o Hd Ho Hl) as (x & E & _).
  transitivity (prof_rd32 data o); [|by rewrite E].
  unfold prof_rd32, prof_rd16. rewrite <- !Z.add_assoc, !Hloc by lia. done.
Qed.

Lemma stats_size e : whole e -> e_id e = 70 -> zlen (e_payload e) = 8.
Proof.
  intros (_ & Hl & _ & E) Eid. rewrite Eid in E. unfold prof_evSize in E.
  change (prof_ev_of 70) with (Some EvTraceStats) in E. simpl in E. case_match; simplify_eq; lia.
Qed.

Lemma mix_event_at pre e post m cpu : whole e ->
  mix_event m (pre ++ enc e ++ post) (zlen (pre ++ enc e ++ post)) (zlen pre) cpu = Some (tally cpu m e, zlen (e_payload e)).
Proof.
  intros He. unfold mix_event, tally. rewrite at_id. cbn [mbind option_bind]. rewrite at_size by done.
  cbn [mbind option_bind]. destruct (Z.eqb_spec (e_id e) 70) as [E|]; [|done].
  pose proof (stats_size e He E) as H8. destruct He as (_ & _ & Hb & _).
  rewrite <- (Z.add_0_r (zlen pre + 5)). replace (zlen pre + 9) with (zlen pre + 5 + 4) by lia.
  rewrite !(rd32_local (e_payload e)) by (done || lia || (intros; by apply at_payload)). done.
Qed.

Lemma mix_loop_events cpu : forall es fuel pre m, Forall whole es -> (length es < fuel)%nat ->
  mix_loop fuel true m (pre ++ stream_of es) (zlen (pre ++ stream_of es)) (zlen pre) cpu = Some (foldl (tally cpu) m es).
Proof.
  induction es as [|e es IH]; intros [|fuel] pre m Hw Hf; simpl in Hf; try lia.
  - simpl. rewrite app_nil_r. destruct (Z.leb_spec (zlen pre + 5) (zlen pre)); [lia|done].
  - apply Forall_cons in Hw as [He Hw]. rewrite stream_cons. pose proof (zlen_stream es). pose proof (zlen_enc e).
    pose proof (proj1 (proj2 He)) as Hl.
    assert (Hlen : zlen (pre ++ enc e ++ stream_of es) = zlen pre + 5 + zlen (e_payload e) + zlen (stream_of es)) by zlia.
    cbn [mix_loop negb]. destruct (Z.leb_spec (zlen pre + 5) (zlen (pre ++ enc e ++ stream_of es))); [|lia].
    rewrite at_id. cbn [mbind option_bind]. rewrite at_size by done. cbn [mbind option_bind].
    destruct (Z.eqb_spec (zlen (e_payload e)) 0); [lia|]. cbn [mbind option_bind].
    destruct (Z.ltb_spec (zlen (pre ++ enc e ++ stream_of es)) (zlen pre + 5)); [lia|].
    rewrite mix_event_at by done. cbn [mbind option_bind].
    replace (zlen pre + 5 + zlen (e_payload e)) with (zlen (pre ++ enc e)) by zlia.
    rewrite (assoc_L (++)), IH by (done || lia). done.
Qed.

(** Skipping up to the boundary behind [junk]. *)
Lemma resync_events junk es : Forall whole es -> es <> [] -> Sorted Z.le (e_ts <$> es) ->
  let data := junk ++ stream_of es in
  (forall o, 0 <= o < zlen junk -> prof_syncAt data (zlen data) o = Some false) ->
  forall k fuel m, (k < fuel)%nat -> Z.of_nat k <= zlen junk ->
  resync_loop fuel m data (zlen data) (zlen junk - Z.of_nat k) = Some (Nat.iter k mix_skip m, zlen junk).
Proof.
  intros Hw Hne Hs data Hj. pose proof (zlen_nonneg junk).
  assert (H5 : zlen junk + 5 <= zlen data).
  { destruct Hw as [|e es He Hw]; [done|]. unfold data. rewrite stream_cons. pose proof (zlen_stream es).
    destruct He as (_ & ? & _). rewrite !zlen_app, zlen_enc. lia. }
  induction k as [|k IH]; intros [|fuel] m Hf Hk; try lia; cbn [resync_loop].
  - rewrite Z.sub_0_r. destruct (Z.leb_spec (zlen junk + 5) (zlen data)); [|lia].
    unfold prof_syncAt, data. rewrite sync_events by (done || auto || lia). done.
  - destruct (Z.leb_spec (zlen junk - Z.of_nat (S k) + 5) (zlen data)); [|lia].
    rewrite Hj by lia. cbn [mbind option_bind].
    replace (zlen junk - Z.of_nat (S k) + 1) with (zlen junk - Z.of_nat k) by lia.
    rewrite IH by lia. by rewrite Nat.iter_succ_r.
Qed.

Lemma mixAdd_events junk es m cpu : Forall whole es -> es <> [] -> Sorted Z.le (e_ts <$> es) ->
  0 <= cpu < PROF_MAX_CPUS ->
  let data := junk ++ stream_of es in
  (forall o, 0 <= o < zlen junk -> prof_syncAt data (zlen data) o = Some false) ->
  prof_mixAdd m data (zlen data) cpu = Some (foldl (tally cpu) (Nat.iter (length junk) mix_skip m) es).
Proof.
  intros Hw Hne Hs Hcpu data Hj. unfold prof_mixAdd. destruct (Z.ltb_spec cpu 0); [lia|]. destruct (Z.leb_spec PROF_MAX_CPUS cpu); [lia|].
  cbn [orb]. pose proof (zlen_nonneg junk). cbn [mix_loop].
  assert (Hcons : exists e es', es = e :: es') by (destruct es; [done|eauto]). destruct Hcons as (e & es' & Ees).
  assert (He : whole e /\ Forall whole es') by (rewrite Ees in Hw; by apply Forall_cons). destruct He as [He Hw'].
  assert (Hlen : zlen data = zlen junk + 5 + zlen (e_payload e) + zlen (stream_of es')).
  { unfold data. rewrite Ees, stream_cons, !zlen_app, zlen_enc. lia. }
  pose proof (zlen_stream es'). pose proof (proj1 (proj2 He)) as Hl. pose proof (zlen_stream_length es' Hw').
  destruct (Z.leb_spec (0 + 5) (zlen data)); [|lia]. cbn [negb mbind option_bind].
  pose proof (resync_events junk es Hw Hne Hs Hj (length junk) (S (Z.to_nat (zlen data))) m) as Hr.
  replace (zlen junk - Z.of_nat (length junk)) with 0 in Hr by (unfold zlen; lia). fold data in Hr.
  rewrite Hr by (unfold zlen in *; lia). cbn [mbind option_bind].
  destruct (Z.ltb_spec (zlen data) (zlen junk + 5)); [lia|].
  assert (Ed : data = junk ++ enc e ++ stream_of es') by (unfold data; by rewrite Ees, stream_cons).
  rewrite Ed, mix_event_at by done. cbn [mbind option_bind]. rewrite Ees.
  replace (zlen junk + 5 + zlen (e_payload e)) with (zlen (junk ++ enc e)) by (rewrite zlen_app, zlen_enc; lia).
  rewrite (assoc_L (++)). cbn [foldl]. apply mix_loop_events; [done|].
  rewrite <- (assoc_L (++)), <- Ed. unfold zlen in *. lia.
Qed.

Definition of_id (id : Z) (es : list event) : list event := filter (fun e => e_id e = id) es.
Definition sizes (es : list event) : Z := foldr (fun e n => 5 + zlen (e_payload e) + n) 0 es.

Lemma sizes_nonneg es : 0 <= sizes es.
Proof. induction es as [|e es IH]; simpl; [lia|]. pose proof (zlen_nonneg (e_payload e)). lia. Qed.

Lemma of_id_cons id e es : of_id id (e :: es) = (if e_id e =? id then [e] else []) ++ of_id id es.
Proof.
  unfold of_id. destruct (Z.eqb_spec (e_id e) id); [by rewrite filter_cons_True|by rewrite filter_cons_False].
Qed.

Lemma tally_skipped cpu es : forall m, mx_skipped (foldl (tally cpu) m es) = mx_skipped m.
Proof. induction es as [|e es IH]; intros m; [done|]. simpl. rewrite IH. unfold tally. by case_match. Qed.

Lemma tally_get cpu m e id c :
  mx_count (tally cpu m e) id c = upd2 (mx_count m) (e_id e) cpu 1 id c /\
  mx_bytes (tally cpu m e) id c = upd2 (mx_bytes m) (e_id e) cpu (5 + zlen (e_payload e)) id c.
Proof. unfold tally. by case_match. Qed.

Lemma tally_other cpu es id c : c <> cpu -> forall m,
  mx_count (foldl (tally cpu) m es) id c = mx_count m id c /\ mx_bytes (foldl (tally cpu) m es) id c = mx_bytes m id c.
Proof.
  intros Hc. induction es as [|e es IH]; intros m; [done|]. simpl. destruct (IH (tally cpu m e)) as [-> ->].
  destruct (tally_get cpu m e id c) as [-> ->]. unfold upd2. destruct (Z.eqb_spec c cpu); [done|]. by rewrite andb_false_r.
Qed.

Lemma tally_counts cpu es id : forall m,
  0 <= mx_count m id cpu -> 0 <= mx_bytes m id cpu ->
  mx_count m id cpu + zlen (of_id id es) < 2 ^ 64 -> mx_bytes m id cpu + sizes (of_id id es) < 2 ^ 64 ->
  mx_count (foldl (tally cpu) m es) id cpu = mx_count m id cpu + zlen (of_id id es) /\
  mx_bytes (foldl (tally cpu) m es) id cpu = mx_bytes m id cpu + sizes (of_id id es).
Proof.
  induction es as [|e es IH]; intros m Hc Hb Hc2 Hb2; [change (of_id id []) with (@nil event); simpl; rewrite zlen_nil; lia|].
  rewrite of_id_cons in *. simpl foldl. destruct (tally_get cpu m e id cpu) as [Ec Eb]. unfold upd2 in Ec, Eb.
  rewrite Z.eqb_refl, andb_true_r, (Z.eqb_sym id) in Ec, Eb.
  pose proof (zlen_nonneg (of_id id es)). pose proof (sizes_nonneg (of_id id es)). pose proof (zlen_nonneg (e_payload e)).
  destruct (Z.eqb_spec (e_id e) id) as [E|]; simpl app in *.
  - rewrite zlen_cons in *. simpl sizes in *. rewrite E in Ec, Eb. rewrite wrapu_small in Ec, Eb by lia.
    destruct (IH (tally cpu m e)) as [-> ->]; rewrite ?Ec, ?Eb; lia.
  - destruct (IH (tally cpu m e)) as [-> ->]; rewrite ?Ec, ?Eb; lia.
Qed.

Lemma of_id_bound id es : Forall whole es -> zlen (of_id id es) <= sizes (of_id id es) /\ sizes (of_id id es) <= zlen (stream_of es).
Proof.
  induction 1 as [|e es He _ [IH1 IH2]]; [done|]. rewrite of_id_cons. change (stream_of (e :: es)) with (enc e ++ stream_of es).
  rewrite !zlen_app, zlen_enc. pose proof (zlen_nonneg (e_payload e)). destruct (e_id e =? id); simpl; rewrite ?zlen_cons, ?zlen_nil; lia.
Qed.

Lemma skip_iter k m : mx_count (Nat.iter k mix_skip m) = mx_count m /\ mx_bytes (Nat.iter k mix_skip m) = mx_bytes m /\
  (0 <= mx_skipped m -> mx_skipped m + Z.of_nat k < 2 ^ 64 -> mx_skipped (Nat.iter k mix_skip m) = mx_skipped m + Z.of_nat k).
Proof.
  induction k as [|k (E1 & E2 & E3)]; simpl; [split_and!; try done; lia|]. split_and!; [done|done|].
  intros H0 Hk. rewrite E3 by lia. rewrite wrapu_small; lia.
Qed.

Definition mix_zero : prof_mix_t := Mix (fun _ _ => 0) (fun _ _ => 0) 0 false 0 0.

(** A stream of whole events in time order, behind bytes where no boundary is seen: the
    bytes before are skipped, and for every type the events and their bytes are counted
    for the processor, and nothing for another one. *)
Theorem mixAdd_counts junk es cpu : Forall whole es -> es <> [] -> Sorted Z.le (e_ts <$> es) ->
  0 <= cpu < PROF_MAX_CPUS ->
  let data := junk ++ stream_of es in
  zlen data < 2 ^ 64 -> (forall o, 0 <= o < zlen junk -> prof_syncAt data (zlen data) o = Some false) -> exists m,
  prof_mixAdd mix_zero data (zlen data) cpu = Some m /\ mx_skipped m = zlen junk /\
  (forall id, mx_count m id cpu = zlen (of_id id es) /\ mx_bytes m id cpu = sizes (of_id id es)) /\
  (forall id c, c <> cpu -> mx_count m id c = 0 /\ mx_bytes m id c = 0).
Proof.
  intros Hw Hne Hs Hcpu data Hsz Hj. eexists. split; [by apply mixAdd_events|].
  destruct (skip_iter (length junk) mix_zero) as (E1 & E2 & E3).
  assert (Hd : zlen data = zlen junk + zlen (stream_of es)) by apply zlen_app.
  pose proof (zlen_stream es). pose proof (zlen_nonneg junk). split_and!.
  - rewrite tally_skipped, E3; simpl; [done|lia|]. fold (zlen junk). lia.
  - intros id. pose proof (of_id_bound id es Hw). destruct (tally_counts cpu es id (Nat.iter (length junk) mix_skip mix_zero)) as [-> ->];
      rewrite ?E1, ?E2; simpl; lia.
  - intros id c Hc. destruct (tally_other cpu es id c Hc (Nat.iter (length junk) mix_skip mix_zero)) as [-> ->]. by rewrite E1, E2.
Qed.

(** Two events behind half of one. *)
Definition ex_events : list event := [Event 7 34 [1; 0]; Event 9 66 [0; 0; 0; 0; 0]].

Lemma mixAdd_counts_witness :
  let data := [9; 9; 9] ++ stream_of ex_events in exists m,
  prof_mixAdd mix_zero data (zlen data) 2 = Some m /\ mx_skipped m = 3 /\
  (forall id, mx_count m id 2 = zlen (of_id id ex_events) /\ mx_bytes m id 2 = sizes (of_id id ex_events)) /\
  (forall id c, c <> 2 -> mx_count m id c = 0 /\ mx_bytes m id c = 0).
Proof.
  apply (mixAdd_counts [9; 9; 9] ex_events 2).
  - repeat constructor; simpl; done.
  - done.
  - repeat constructor. done.
  - done.
  - done.
  - intros o Ho. change (zlen [9; 9; 9]) with 3 in Ho.
    assert (o = 0 \/ o = 1 \/ o = 2) as [-> | [-> | ->]] by lia; vm_compute; reflexivity.
Defined.

Lemma mixAdd_total_witness : exists mix', prof_mixAdd mix_zero [32; 1; 2; 3; 4; 64; 255; 1] 8 0 = Some mix'.
Proof. apply (mixAdd_total [32; 1; 2; 3; 4; 64; 255; 1] 8); [repeat constructor; done|by vm_compute]. Defined.
