(* ===== verification/PcHist.v ===== *)
(** * The counters of a report ([prof/report.c])

    A count per thread and value: an open-addressing table that doubles when it is
    half full, the order in which it is listed, and the arrays that grow by doubling.
    [qsort] is any sorting function ([QsortLaws]). *)

From stdpp Require Import sorting.
From S2P Require Import Prelude.

(** ** Memory *)

(** The results of the allocations to come; an exhausted list means success. *)
Abbreviation mem := (list bool).

Definition alloc (m : mem) : bool * mem :=
  match m with [] => (true, []) | b :: m => (b, m) end.

(** An array that grows: its elements, [cap], and the size of the allocated object. *)
Record tbl (A : Type) := Tbl { tb_items : list A; tb_cap : Z; tb_alloc : Z }.
Arguments Tbl {A}. Arguments tb_items {A}. Arguments tb_cap {A}. Arguments tb_alloc {A}.

Definition tbl_nil {A} : tbl A := Tbl [] 0 0.
Definition set_items {A} (l : list A) (t : tbl A) : tbl A := Tbl l (tb_cap t) (tb_alloc t).

(** [if (n == cap) ...; e[n++] = x]: the index of the new element, no index when
    [realloc] fails. *)
Definition tbl_push {A} (first : Z) (x : A) (t : tbl A) (m : mem) : option (option Z * tbl A * mem) :=
  let n := zlen (tb_items t) in
  let '(ok, t, m) :=
    if n =? tb_cap t then
      let cap := if tb_cap t =? 0 then first else tb_cap t * 2 in
      let '(ok, m) := alloc m in
      if ok : bool then (true, Tbl (tb_items t) cap cap, m) else (false, Tbl (tb_items t) cap (tb_alloc t), m)
    else (true, t, m) in
  if ok : bool then
    if n <? tb_alloc t then Some (Some n, set_items (tb_items t ++ [x]) t, m) else None
  else Some (None, t, m).

(** ** [qsort] *)

Class Qsort := qsort : forall {A : Type}, (A -> A -> Z) -> list A -> list A.

Record total_preorder {A} (cmp : A -> A -> Z) : Prop := {
  cmp_total : forall x y, cmp x y <= 0 \/ cmp y x <= 0;
  cmp_trans : forall x y z, cmp x y <= 0 -> cmp y z <= 0 -> cmp x z <= 0 }.

(** It need be one only on the elements that are sorted. *)
Record total_preorder_on {A} (cmp : A -> A -> Z) (l : list A) : Prop := {
  on_total : forall x y, x ∈ l -> y ∈ l -> cmp x y <= 0 \/ cmp y x <= 0;
  on_trans : forall x y z, x ∈ l -> y ∈ l -> z ∈ l -> cmp x y <= 0 -> cmp y z <= 0 -> cmp x z <= 0 }.

Class QsortLaws `{Qsort} : Prop := {
  qsort_perm : forall {A} (cmp : A -> A -> Z) l, qsort cmp l ≡ₚ l;
  qsort_sorted_on : forall {A} (cmp : A -> A -> Z) l, total_preorder_on cmp l -> Sorted (fun x y => cmp x y <= 0) (qsort cmp l) }.

Lemma qsort_sorted `{QsortLaws} {A} (cmp : A -> A -> Z) l : total_preorder cmp -> Sorted (fun x y => cmp x y <= 0) (qsort cmp l).
Proof. intros [Htot Htrans]. apply qsort_sorted_on. split; eauto. Qed.

(** ** The table *)

Record pchist_t := PcHist { pc_key : Z; pc_count : Z }.
Record hist_t := Hist { hi_e : list pchist_t; hi_n : Z; hi_cap : Z }.

Definition hist_nil : hist_t := Hist [] 0 0.
Definition HIST_CAP : Z := 4096.

Definition hash64 (x : Z) : Z :=
  let x := Z.lxor x (Z.shiftr x 33) in
  let x := u64 (x * 18397679294719823053) in
  Z.lxor x (Z.shiftr x 33).

(** [first] is the first word of an element, [mtch] the comparison with the key. *)
Fixpoint tableFind {A} (fuel : nat) (first : A -> Z) (mtch : A -> bool) (table : list A) (cap i : Z) : option (Z * bool) :=
  match fuel with
  | O => None
  | S fuel =>
      e ← rd table i;
      if first e =? 0 then Some (i, false)
      else if mtch e then Some (i, true)
      else tableFind fuel first mtch table cap (Z.land (i + 1) (cap - 1))
  end.

Definition pcMatch (key : Z) (e : pchist_t) : bool := pc_key e =? key.

Definition pcKey (tid pc : Z) : Z :=
  Z.lor (Z.shiftl (Z.land (u32 (tid + 1)) 65535) 48) (Z.land pc 281474976710655).
Definition pcTid (key : Z) : Z := Z.shiftr key 48 - 1.

Definition find_key (e : list pchist_t) (cap key : Z) : option (Z * bool) :=
  tableFind (Z.to_nat cap) pc_key (pcMatch key) e cap (Z.land (hash64 key) (cap - 1)).

(** An entry of the old table goes to its place in the new one. *)
Definition rehash (old : list pchist_t) (cap : Z) (i : Z) (n : list pchist_t) : option (list pchist_t) :=
  o ← rd old i;
  if pc_key o =? 0 then Some n
  else '(j, _) ← find_key n cap (pc_key o); wr n j o.

(** [calloc] failed: no table. *)
Definition hist_grow (h : hist_t) (m : mem) : option (option hist_t * mem) :=
  if hi_cap h <? 2 * (hi_n h + 1) then
    let cap := if hi_cap h =? 0 then HIST_CAP else hi_cap h * 2 in
    let '(ok, m) := alloc m in
    if ok : bool then
      n ← for_loop 0 (Z.to_nat (hi_cap h)) (rehash (hi_e h) cap) (replicate (Z.to_nat cap) (PcHist 0 0));
      Some (Some (Hist n (hi_n h) cap), m)
    else Some (None, m)
  else Some (Some h, m).

Definition histAdd (h : hist_t) (m : mem) (tid value : Z) : option (hist_t * mem) :=
  let key := pcKey tid value in
  '(h', m) ← hist_grow h m;
  match h' with
  | None => Some (h, m)
  | Some h =>
      '(i, found) ← find_key (hi_e h) (hi_cap h) key;
      e ← rd (hi_e h) i;
      let '(e, n) := if found : bool then (e, hi_n h) else (PcHist key 0, hi_n h + 1) in
      t ← wr (hi_e h) i (PcHist (pc_key e) (u32 (pc_count e + 1)));
      Some (Hist t n (hi_cap h), m)
  end.

Definition cmpDesc64 (a b : Z) : Z := if b <? a then -1 else if a <? b then 1 else 0.

Definition pcCmp (x y : pchist_t) : Z :=
  if negb (pcTid (pc_key x) =? pcTid (pc_key y)) then if pcTid (pc_key x) <? pcTid (pc_key y) then -1 else 1
  else cmpDesc64 (pc_count x) (pc_count y).

(** The copy into the [n + 1] elements of [v]. *)
Definition sorted_step (e : list pchist_t) (n : Z) (i : Z) (v : list pchist_t) : option (list pchist_t) :=
  x ← rd e i;
  if pc_key x =? 0 then Some v
  else if zlen v <? n + 1 then Some (v ++ [x]) else None.

Definition histSorted `{Qsort} (h : hist_t) (m : mem) : option (option (list pchist_t) * mem) :=
  let '(ok, m) := alloc m in
  if ok : bool then
    v ← for_loop 0 (Z.to_nat (hi_cap h)) (sorted_step (hi_e h) (hi_n h)) [];
    Some (Some (qsort pcCmp v), m)
  else Some (None, m).

Definition pcValue (key : Z) : Z :=
  let pc := Z.land key 281474976710655 in
  if Z.shiftr pc 47 =? 0 then pc else Z.lor pc 18446462598732840960.
