(* ===== verification/PcHistSpec.v ===== *)
(** * The counters of a report are maps

    The open-addressing table of [histAdd] stands for a finite map from keys to counts:
    an addition increments one count, growing keeps all of them, and every search
    ends. *)

From stdpp Require Import gmap sorting.
From S2P Require Import Prelude.
From S2P Require Import PcHist.
From S2P Require Import Event.
From S2P Require Import EventSpec.

Implicit Types (e : list pchist_t) (M : gmap Z Z) (κ c i j : Z).

(** ** Searching *)

Definition is_free e i : Prop := exists x, rd e i = Some x /\ pc_key x = 0.
Definition is_other e κ i : Prop := exists x, rd e i = Some x /\ pc_key x <> 0 /\ pc_key x <> κ.

(** What a search that ends at slot [j] found there. *)
Definition ends_at e κ j (b : bool) : Prop :=
  exists x, rd e j = Some x /\ if b then pc_key x <> 0 /\ pc_key x = κ else pc_key x = 0.

Lemma ends_not_other e κ j b : ends_at e κ j b -> ~ is_other e κ j.
Proof. intros (x & E & H) (y & E' & H1 & H2). rewrite E in E'. injection E' as <-. destruct b; tauto. Qed.

Lemma land_cap k x : 0 <= k -> Z.land x (2 ^ k - 1) = x mod 2 ^ k.
Proof. intros Hk. rewrite <- Z.land_ones by done. by rewrite Z.ones_equiv. Qed.

Section search.
Context (e : list pchist_t) (k : Z) (Hk : 0 <= k) (Hlen : zlen e = 2 ^ k).

Lemma tableFind_path κ fuel : forall i j b, 0 <= i < 2 ^ k ->
  tableFind fuel pc_key (pcMatch κ) e (2 ^ k) i = Some (j, b) <->
  exists t : nat, (t < fuel)%nat /\ j = (i + Z.of_nat t) mod 2 ^ k /\
    (forall s : nat, (s < t)%nat -> is_other e κ ((i + Z.of_nat s) mod 2 ^ k)) /\ ends_at e κ j b.
Proof.
  induction fuel as [|fuel IH]; intros i j b Hi; cbn [tableFind].
  { split; [done|]. intros (t & Ht & _). lia. }
  destruct (proj2 (rd_is_Some e i)) as [x E]; [lia|]. rewrite E. cbn [mbind option_bind].
  assert (Hi0 : (i + Z.of_nat 0) mod 2 ^ k = i) by (rewrite Z.add_0_r; by apply Z.mod_small).
  assert (Hstop : forall b', ends_at e κ i b' -> Some (i, b') = Some (j, b) <->
    exists t : nat, (t < S fuel)%nat /\ j = (i + Z.of_nat t) mod 2 ^ k /\
      (forall s : nat, (s < t)%nat -> is_other e κ ((i + Z.of_nat s) mod 2 ^ k)) /\ ends_at e κ j b).
  { intros b' Hb'. split.
    - intros [= <- <-]. exists 0%nat. split_and!; [lia|by rewrite Hi0|intros; lia|done].
    - intros ([|t] & _ & -> & Hs & Hend).
      + rewrite Hi0 in *. destruct Hb' as (y & Ey & Hy), Hend as (z & Ez & Hz). rewrite Ey in Ez. injection Ez as <-. destruct b, b'; done || tauto.
      + destruct (ends_not_other _ _ _ _ Hb'). rewrite <- Hi0. apply Hs. lia. }
  destruct (Z.eqb_spec (pc_key x) 0) as [Hx|Hx]; [apply Hstop; by exists x|].
  unfold pcMatch at 1. destruct (Z.eqb_spec (pc_key x) κ) as [Hκ|Hκ]; [apply Hstop; by exists x|].
  rewrite land_cap by done. rewrite IH by (apply Z.mod_pos_bound; lia).
  assert (Hnext : forall s : nat, ((i + 1) mod 2 ^ k + Z.of_nat s) mod 2 ^ k = (i + Z.of_nat (S s)) mod 2 ^ k).
  { intros s. rewrite Zplus_mod_idemp_l. f_equal. lia. }
  split.
  - intros (t & Ht & -> & Hs & Hend). exists (S t). rewrite <- Hnext. split_and!; [lia|done| |done].
    intros [|s] Hst; [rewrite Hi0; by exists x|]. rewrite <- Hnext. apply Hs. lia.
  - intros ([|t] & Ht & -> & Hs & Hend).
    + rewrite Hi0 in Hend. destruct (ends_not_other _ _ _ _ Hend). by exists x.
    + exists t. rewrite Hnext. split_and!; [lia|done| |done]. intros s Hst. rewrite Hnext. apply Hs. lia.
Qed.

(** A search ends when there is a free slot. *)
Lemma tableFind_total κ i f : 0 <= i < 2 ^ k -> is_free e f -> exists j b,
  tableFind (Z.to_nat (2 ^ k)) pc_key (pcMatch κ) e (2 ^ k) i = Some (j, b).
Proof.
  intros Hi (x & Ef & Hf). assert (Hfr : 0 <= f < 2 ^ k) by (rewrite <- Hlen; apply rd_is_Some; eauto).
  assert (Hat : (i + Z.of_nat (Z.to_nat ((f - i) mod 2 ^ k))) mod 2 ^ k = f).
  { pose proof (Z.mod_pos_bound (f - i) (2 ^ k)). rewrite Z2Nat.id by lia. rewrite Zplus_mod_idemp_r.
    replace (i + (f - i)) with f by lia. by apply Z.mod_small. }
  pose proof (Z.mod_pos_bound (f - i) (2 ^ k)) as Hm.
  revert Hat. set (d := Z.to_nat ((f - i) mod 2 ^ k)). intros Hat.
  assert (Hd : (d < Z.to_nat (2 ^ k))%nat) by lia. clearbody d. clear Hm.
  revert i Hi Hat Hd. generalize (Z.to_nat (2 ^ k)) as fuel. induction d as [|d IH]; intros [|fuel] i Hi Hat Hd; try lia; cbn [tableFind].
  - rewrite Z.add_0_r, Z.mod_small in Hat by done. subst i. rewrite Ef. cbn [mbind option_bind]. rewrite Hf. simpl. eauto.
  - destruct (proj2 (rd_is_Some e i)) as [y E]; [lia|]. rewrite E. cbn [mbind option_bind].
    destruct (pc_key y =? 0); [eauto|]. destruct (pcMatch κ y); [eauto|]. rewrite land_cap by done. apply IH.
    + apply Z.mod_pos_bound. lia.
    + rewrite Zplus_mod_idemp_l, <- Hat. f_equal. lia.
    + lia.
Qed.
End search.

(** ** The table as a map *)

Record table_inv e M : Prop := {
  ti_pow : exists k, 0 <= k /\ zlen e = 2 ^ k;
  ti_slot : forall i x, rd e i = Some x -> pc_key x <> 0 ->
    find_key e (zlen e) (pc_key x) = Some (i, true) /\ M !! pc_key x = Some (pc_count x);
  ti_map : forall κ c, M !! κ = Some c -> κ <> 0 /\ exists i, rd e i = Some (PcHist κ c) }.

Lemma find_key_path e κ j b k : 0 <= k -> zlen e = 2 ^ k ->
  find_key e (zlen e) κ = Some (j, b) <->
  exists t : nat, (t < Z.to_nat (2 ^ k))%nat /\ j = (hash64 κ mod 2 ^ k + Z.of_nat t) mod 2 ^ k /\
    (forall s : nat, (s < t)%nat -> is_other e κ ((hash64 κ mod 2 ^ k + Z.of_nat s) mod 2 ^ k)) /\ ends_at e κ j b.
Proof. intros Hk Hl. rewrite Hl. unfold find_key. rewrite land_cap by done. apply tableFind_path; [done..|]. apply Z.mod_pos_bound. lia. Qed.

Lemma rd_wr_eq {A} (l l' : list A) i x : wr l i x = Some l' -> rd l' i = Some x.
Proof.
  intros Hw. assert (0 <= i < zlen l) by (apply (wr_is_Some l i x); eauto).
  rewrite (rd_wr _ _ _ _ _ Hw) by lia. by rewrite Z.eqb_refl.
Qed.
Lemma rd_wr_ne {A} (l l' : list A) i j x : wr l i x = Some l' -> i <> j -> rd l' j = rd l j.
Proof.
  intros Hw Hne. destruct (Z.leb_spec 0 j) as [Hj|Hj].
  - rewrite (rd_wr _ _ _ _ _ Hw) by lia. by destruct (Z.eqb_spec i j).
  - unfold rd. by destruct (Z.leb_spec 0 j); [lia|].
Qed.

(** A slot that a search for another key passes is still passed after a store. *)
Lemma other_wr e e' κ κ' j s x b : wr e j x = Some e' -> ends_at e κ j b -> pc_key x = κ -> κ <> 0 -> κ' <> κ ->
  is_other e κ' s -> is_other e' κ' s.
Proof.
  intros Hw Hend Hx Hκ Hne (y & Ey & Hy). destruct (decide (j = s)) as [->|Hjs].
  - exists x. split; [by eapply rd_wr_eq|]. split; congruence.
  - exists y. rewrite (rd_wr_ne _ _ _ _ _ Hw) by done. auto.
Qed.

Lemma ends_wr_ne e e' κ j s x b : wr e j x = Some e' -> j <> s -> ends_at e κ s b -> ends_at e' κ s b.
Proof. intros Hw Hjs (y & Ey & Hy). exists y. rewrite (rd_wr_ne _ _ _ _ _ Hw) by done. auto. Qed.

(** Storing an entry where its search ends sets the count of its key. *)
Lemma table_put e M κ c j b e' : table_inv e M -> κ <> 0 -> find_key e (zlen e) κ = Some (j, b) ->
  wr e j (PcHist κ c) = Some e' -> table_inv e' (<[κ := c]> M).
Proof.
  intros [(k & Hk & Hlen) Hslot Hmap] Hκ Hf Hw. pose proof (wr_zlen _ _ _ _ Hw) as Hl'.
  assert (Hlen' : zlen e' = 2 ^ k) by lia.
  pose proof Hf as (t & Ht & Hj & Hs & Hend)%(find_key_path e κ j b k Hk Hlen).
  split; [by exists k| |].
  - intros i x Ei Hx. destruct (decide (j = i)) as [<-|Hji].
    + rewrite (rd_wr_eq _ _ _ _ Hw) in Ei. injection Ei as <-. simpl in *. split; [|by rewrite lookup_insert_eq].
      apply (find_key_path e' κ j true k Hk Hlen'). exists t. split_and!; [done..| |].
      * intros s Hst. destruct (Hs s Hst) as (y & Ey & Hy). exists y. split; [|done].
        rewrite (rd_wr_ne _ _ _ _ _ Hw); [done|]. intros E. destruct (ends_not_other _ _ _ _ Hend). rewrite E. by apply Hs.
      * exists (PcHist κ c). split; [by eapply rd_wr_eq|done].
    + rewrite (rd_wr_ne _ _ _ _ _ Hw) in Ei by done. destruct (Hslot i x Ei Hx) as [Hfx HM].
      assert (Hne : pc_key x <> κ) by (intros <-; congruence).
      split; [|by rewrite lookup_insert_ne by congruence].
      apply (find_key_path e _ i true k Hk Hlen) in Hfx as (t' & Ht' & Hi & Hs' & Hend').
      apply (find_key_path e' _ i true k Hk Hlen'). exists t'. split_and!; [done..| |].
      * intros s Hst. eapply other_wr; eauto.
      * by eapply ends_wr_ne.
  - intros κ' c'. rewrite lookup_insert. case_decide as Hd.
    + intros [= <-]. subst κ'. split; [done|]. exists j. by eapply rd_wr_eq.
    + intros E. destruct (Hmap κ' c' E) as (H0 & i & Ei). split; [done|]. exists i.
      rewrite (rd_wr_ne _ _ _ _ _ Hw); [done|]. intros ->. destruct Hend as (y & Ey & Hy). rewrite Ei in Ey. injection Ey as <-.
      simpl in Hy. destruct b; tauto || (destruct Hy; congruence).
Qed.

(** A store of key 0 into a free slot changes nothing. *)
Lemma table_put0 e M c j e' : table_inv e M -> is_free e j -> wr e j (PcHist 0 c) = Some e' -> table_inv e' M.
Proof.
  intros [(k & Hk & Hlen) Hslot Hmap] (y & Ey & Hy) Hw. pose proof (wr_zlen _ _ _ _ Hw) as Hl'.
  assert (Hlen' : zlen e' = 2 ^ k) by lia.
  assert (Hne : forall i x, rd e i = Some x -> pc_key x <> 0 -> j <> i) by (intros i x E Hx ->; congruence).
  split; [by exists k| |].
  - intros i x Ei Hx. destruct (decide (j = i)) as [<-|Hji]; [rewrite (rd_wr_eq _ _ _ _ Hw) in Ei; by injection Ei as <-|].
    rewrite (rd_wr_ne _ _ _ _ _ Hw) in Ei by done. destruct (Hslot i x Ei Hx) as [Hfx HM]. split; [|done].
    apply (find_key_path e _ i true k Hk Hlen) in Hfx as (t' & Ht' & Hi & Hs' & Hend').
    apply (find_key_path e' _ i true k Hk Hlen'). exists t'. split_and!; [done..| |].
    + intros s Hst. destruct (Hs' s Hst) as (z & Ez & Hz). exists z. split; [|done]. rewrite (rd_wr_ne _ _ _ _ _ Hw); [done|].
      eapply Hne; [exact Ez|tauto].
    + by eapply ends_wr_ne.
  - intros κ' c' E. destruct (Hmap κ' c' E) as (H0 & i & Ei). split; [done|]. exists i.
    rewrite (rd_wr_ne _ _ _ _ _ Hw); [done|]. by eapply Hne.
Qed.

(** ** Slots in use *)

Definition used e : Z := zlen (filter (fun x => pc_key x <> 0) e).

Lemma used_cons x e : used (x :: e) = used e + if pc_key x =? 0 then 0 else 1.
Proof.
  unfold used. destruct (Z.eqb_spec (pc_key x) 0); [rewrite filter_cons_False by auto; lia|].
  rewrite filter_cons_True by done. zlia.
Qed.

Lemma used_app e e' : used (e ++ e') = used e + used e'.
Proof. unfold used. rewrite filter_app. zlia. Qed.

Lemma used_free e : used e < zlen e -> exists i, is_free e i.
Proof.
  induction e as [|x e IH]; [done|]. rewrite used_cons, zlen_cons. destruct (Z.eqb_spec (pc_key x) 0) as [Hx|Hx].
  - intros _. exists 0. by exists x.
  - intros H. destruct IH as (i & y & Ey & Hy); [lia|]. assert (0 <= i < zlen e) by (apply rd_is_Some; eauto).
    exists (zlen [x] + i), y. split; [|done]. pose proof (rd_mid [x] e [] i) as Hm. rewrite app_nil_r in Hm. simpl in Hm. by rewrite Hm.
Qed.

Lemma used_wr e j x y e' : wr e j x = Some e' -> rd e j = Some y ->
  used e' = used e + (if pc_key x =? 0 then 0 else 1) - (if pc_key y =? 0 then 0 else 1).
Proof.
  unfold wr, rd. destruct (_ && _) eqn:Hb; [|done]. intros [= <-]. destruct (0 <=? j); [|done]. intros Hy. bprop.
  rewrite <- (take_drop_middle e (Z.to_nat j) y Hy) at 2. rewrite insert_take_drop by (by eapply lookup_lt_Some).
  rewrite !used_app, !used_cons. lia.
Qed.

Lemma used_step e i x : 0 <= i -> rd e i = Some x ->
  used (take (Z.to_nat (i + 1)) e) = used (take (Z.to_nat i) e) + if pc_key x =? 0 then 0 else 1.
Proof.
  intros Hi E. unfold rd in E. destruct (0 <=? i); [|done]. rewrite Z2Nat.inj_add, Nat.add_1_r by lia.
  rewrite (take_S_r _ _ _ E), used_app, used_cons. unfold used at 2. rewrite filter_nil, zlen_nil. lia.
Qed.

Lemma used_le e : 0 <= used e <= zlen e.
Proof. split; [apply zlen_nonneg|]. unfold used, zlen. pose proof (length_filter (fun x => pc_key x <> 0) e). lia. Qed.

Lemma used_empty cap : used (replicate cap (PcHist 0 0)) = 0.
Proof. unfold used. induction cap as [|cap IH]; [done|]. simpl. by rewrite filter_cons_False by auto. Qed.

(** ** Growing *)

Lemma table_empty k : 0 <= k -> table_inv (replicate (Z.to_nat (2 ^ k)) (PcHist 0 0)) ∅.
Proof.
  intros Hk. split.
  - exists k. split; [done|]. rewrite zlen_replicate. lia.
  - intros i x E Hx. unfold rd in E. destruct (0 <=? i); [|done]. apply lookup_replicate in E as [-> _]. done.
  - intros κ c E. by rewrite lookup_empty in E.
Qed.

Lemma find_key_total e M κ : table_inv e M -> used e < zlen e -> exists j b, find_key e (zlen e) κ = Some (j, b) /\ ends_at e κ j b.
Proof.
  intros [(k & Hk & Hlen) _ _] (f & Hf)%used_free.
  destruct (tableFind_total e k Hk Hlen κ (hash64 κ mod 2 ^ k) f) as (j & b & E); [apply Z.mod_pos_bound; lia|done|].
  assert (E' : find_key e (zlen e) κ = Some (j, b)) by (unfold find_key; rewrite Hlen, land_cap by done; exact E).
  exists j, b. split; [done|]. apply (find_key_path e κ j b k Hk Hlen) in E' as (? & _ & _ & _ & Hend). done.
Qed.

(** What is in the new table when the entries before [i] were moved. *)
Definition moved (old : list pchist_t) M i e : Prop := exists M',
  table_inv e M' /\ used e <= used (take (Z.to_nat i) old) /\
  (forall κ c, M' !! κ = Some c -> M !! κ = Some c) /\
  (forall l x, l < i -> rd old l = Some x -> pc_key x <> 0 -> M' !! pc_key x = Some (pc_count x)).

Lemma rehash_ok old M cap i e : table_inv old M -> 0 <= i < zlen old -> zlen old < cap -> zlen e = cap -> moved old M i e ->
  exists e', rehash old cap i e = Some e' /\ zlen e' = cap /\ moved old M (i + 1) e'.
Proof.
  intros Hold Hi Hcap He (M' & Hinv & Hu & Hsub & Hall). unfold rehash.
  destruct (proj2 (rd_is_Some old i) Hi) as [o Eo]. rewrite Eo.
  pose proof (used_step old i o ltac:(lia) Eo) as Hst. pose proof (used_le (take (Z.to_nat i) old)) as Hule. rewrite zlen_take in Hule.
  cbn [mbind option_bind].
  destruct (Z.eqb_spec (pc_key o) 0) as [Ho|Ho].
  { exists e. split_and!; [done..|]. exists M'. split_and!; [done|lia|done|]. intros l x Hl Ex Hx.
    destruct (decide (l = i)) as [->|]; [congruence|]. apply (Hall l); [lia|done..]. }
  destruct (find_key_total e M' (pc_key o) Hinv) as (j & b & Ef & y & Ey & Hy); [lia|]. rewrite <- He, Ef. cbn [mbind option_bind].
  destruct (proj2 (wr_is_Some e j o)) as [e' Ew]; [apply rd_is_Some; eauto|]. rewrite Ew.
  exists e'. split; [done|]. split; [by apply wr_zlen in Ew|].
  destruct (ti_slot _ _ Hold i o Eo Ho) as [_ HM].
  exists (<[pc_key o := pc_count o]> M'). split_and!.
  - eapply table_put; [done..|]. by destruct o.
  - rewrite (used_wr _ _ _ _ _ Ew Ey), Hst. destruct (pc_key o =? 0), (pc_key y =? 0); lia.
  - intros κ c. rewrite lookup_insert. case_decide as Hd; [|apply Hsub]. intros [= <-]. by rewrite <- Hd.
  - intros l x Hl Ex Hx. rewrite lookup_insert. case_decide as Hd.
    + rewrite Hd in HM. destruct (ti_slot _ _ Hold l x Ex Hx) as [_ HMx]. congruence.
    + destruct (decide (l = i)) as [->|]; [congruence|]. apply (Hall l); [lia|done..].
Qed.

Lemma rehash_all old M cap k : table_inv old M -> 0 <= k -> cap = 2 ^ k -> zlen old < cap -> exists e,
  for_loop 0 (Z.to_nat (zlen old)) (rehash old cap) (replicate (Z.to_nat cap) (PcHist 0 0)) = Some e /\
  zlen e = cap /\ table_inv e M /\ used e <= used old.
Proof.
  intros Hold Hk -> Hcap. pose proof (zlen_nonneg old).
  destruct (for_loop_inv (fun i e => zlen e = 2 ^ k /\ moved old M i e) (rehash old (2 ^ k)) 0 (Z.to_nat (zlen old))
    (replicate (Z.to_nat (2 ^ k)) (PcHist 0 0))) as (e & E & Hl & M' & Hinv & Hu & Hsub & Hall).
  - split; [rewrite zlen_replicate; lia|]. exists ∅. split_and!; [by apply table_empty|by rewrite used_empty, take_0| |].
    + intros κ c E. by rewrite lookup_empty in E.
    + intros l x Hl E. assert (0 <= l < zlen old) by (apply rd_is_Some; eauto). lia.
  - intros i e Hi [He Hm]. destruct (rehash_ok old M (2 ^ k) i e) as (e' & ? & ? & ?); eauto; lia.
  - assert (M' = M) as ->.
    { apply map_eq. intros κ. destruct (M !! κ) as [c|] eqn:EM.
      - destruct (ti_map _ _ Hold κ c EM) as (Hκ & i & Ei). assert (0 <= i < zlen old) by (apply rd_is_Some; eauto).
        by apply (Hall i (PcHist κ c)); [lia|..].
      - destruct (M' !! κ) as [c|] eqn:EM'; [|done]. apply Hsub in EM'. congruence. }
    exists e. split_and!; try done. rewrite take_ge in Hu by (unfold zlen; lia). done.
Qed.

(** ** Adding *)

Record hist_ok (h : hist_t) M : Prop := {
  ho_cap : hi_cap h = zlen (hi_e h);
  ho_n : used (hi_e h) <= hi_n h;
  ho_load : 2 * hi_n h <= hi_cap h;
  ho_inv : hi_e h = [] /\ M = ∅ \/ table_inv (hi_e h) M }.

Definition bump (key : Z) M : gmap Z Z :=
  if key =? 0 then M else <[key := u32 (default 0 (M !! key) + 1)]> M.

Lemma hist_ok_nil : hist_ok hist_nil ∅.
Proof. split; [done..|]. by left. Qed.

(** [histAdd] fails only to allocate. *)
Definition no_room (h : hist_t) (m : mem) : Prop := hi_cap h < 2 * (hi_n h + 1) /\ exists m', m = false :: m'.

Lemma hist_grow_ok h M m : hist_ok h M -> no_room h m /\ hist_grow h m = Some (None, tail m) \/
  exists h' m', hist_grow h m = Some (Some h', m') /\ hist_ok h' M /\ table_inv (hi_e h') M /\ 2 * (hi_n h' + 1) <= hi_cap h' /\
    (m = [] -> m' = []).
Proof.
  intros [Hcap Hn Hload Hinv]. unfold hist_grow. destruct (Z.ltb_spec (hi_cap h) (2 * (hi_n h + 1))) as [Hlt|Hge].
  2:{ right. exists h, m. split_and!; try done. destruct Hinv as [[E _]|]; [|done]. rewrite E, zlen_nil in Hcap.
      rewrite E in Hn. unfold used in Hn. rewrite filter_nil, zlen_nil in Hn. lia. }
  assert (Hpow : exists k, 1 <= k /\ (if hi_cap h =? 0 then HIST_CAP else hi_cap h * 2) = 2 ^ k /\
    zlen (hi_e h) < 2 ^ k /\ 2 * (hi_n h + 1) <= 2 ^ k).
  { destruct (Z.eqb_spec (hi_cap h) 0) as [E0|E0]; [exists 12; unfold HIST_CAP; lia|].
    destruct Hinv as [[E _]|[(k & Hk & Hl) _ _]]; [rewrite E, zlen_nil in Hcap; lia|].
    exists (k + 1). rewrite Z.pow_add_r by lia. split_and!; lia. }
  destruct Hpow as (k & Hk & -> & Hl & Hroom). pose proof (used_le (hi_e h)).
  assert (Hre : exists e, for_loop 0 (Z.to_nat (hi_cap h)) (rehash (hi_e h) (2 ^ k)) (replicate (Z.to_nat (2 ^ k)) (PcHist 0 0)) = Some e
    /\ zlen e = 2 ^ k /\ table_inv e M /\ used e <= used (hi_e h)).
  { rewrite Hcap. destruct Hinv as [[E ->]|Hinv]; [|by apply (rehash_all _ _ _ k Hinv); lia].
    rewrite E. exists (replicate (Z.to_nat (2 ^ k)) (PcHist 0 0)).
    split_and!; [done|rewrite zlen_replicate; lia|apply table_empty; lia|by rewrite used_empty]. }
  destruct Hre as (e & He & Hle & Hinv' & Hu).
  destruct m as [|[|] m]; simpl; [rewrite He; right; eexists _, _..|left].
  - split; [done|]. split_and!; [split; simpl; lia || by right|done|simpl; lia|done].
  - split; [done|]. split_and!; [split; simpl; lia || by right|done|simpl; lia|done].
  - split; [|done]. split; [lia|by exists m].
Qed.

Lemma find_key_bound e M κ j b : table_inv e M -> find_key e (zlen e) κ = Some (j, b) -> ends_at e κ j b.
Proof. intros [(k & Hk & Hlen) _ _] E. by apply (find_key_path e κ j b k Hk Hlen) in E as (? & _ & _ & _ & Hend). Qed.

(** The entry [histAdd] writes at the end of its search. *)
Lemma hist_store h M κ j b y : table_inv (hi_e h) M -> hist_ok h M -> 2 * (hi_n h + 1) <= hi_cap h ->
  find_key (hi_e h) (hi_cap h) κ = Some (j, b) -> rd (hi_e h) j = Some y ->
  exists e, wr (hi_e h) j (PcHist κ (u32 ((if b then pc_count y else 0) + 1))) = Some e /\
    hist_ok (Hist e (if b then hi_n h else hi_n h + 1) (hi_cap h)) (bump κ M).
Proof.
  intros Hinv [Hcap Hn Hload _] Hroom Ef Ey. rewrite Hcap in Ef.
  pose proof (find_key_bound _ _ _ _ _ Hinv Ef) as (y' & Ey' & Hend). rewrite Ey in Ey'. injection Ey' as <-.
  destruct (proj2 (wr_is_Some (hi_e h) j (PcHist κ (u32 ((if b then pc_count y else 0) + 1))))) as [e Ew]; [apply rd_is_Some; eauto|].
  exists e. split; [done|]. pose proof (used_wr _ _ _ _ _ Ew Ey) as Hu. simpl in Hu.
  assert (Hu' : used e <= if b then hi_n h else hi_n h + 1).
  { destruct (Z.eqb_spec κ 0), (Z.eqb_spec (pc_key y) 0), b; lia. }
  split; simpl; [by rewrite (wr_zlen _ _ _ _ Ew)|done|destruct b; lia|right].
  unfold bump. destruct (Z.eqb_spec κ 0) as [->|Hκ].
  - destruct b; [tauto|]. eapply table_put0; [done| |done]. by exists y.
  - pose proof (table_put _ _ _ _ _ _ _ Hinv Hκ Ef Ew) as Hput.
    replace (default 0 (M !! κ)) with (if b then pc_count y else 0); [done|]. destruct b.
    + destruct Hend as [Hy0 <-]. destruct (ti_slot _ _ Hinv j y Ey Hy0) as [_ ->]. done.
    + destruct (M !! κ) as [c|] eqn:EM; [|done]. destruct (ti_map _ _ Hinv κ c EM) as (_ & i & Ei).
      destruct (ti_slot _ _ Hinv i _ Ei Hκ) as [Ef' _]. simpl in Ef'. rewrite Ef in Ef'. by injection Ef'.
Qed.

Lemma histAdd_ok h M m tid v : hist_ok h M ->
  no_room h m /\ histAdd h m tid v = Some (h, tail m) \/
  exists h' m', histAdd h m tid v = Some (h', m') /\ hist_ok h' (bump (pcKey tid v) M) /\ (m = [] -> m' = []).
Proof.
  intros Hok. unfold histAdd. destruct (hist_grow_ok h M m Hok) as [[Hno ->]|(h' & m' & -> & Hok' & Hinv & Hroom & Hm)]; [by left|].
  right. cbn [mbind option_bind]. pose proof (ho_cap _ _ Hok') as Hcap. pose proof (ho_n _ _ Hok'). pose proof (used_le (hi_e h')).
  destruct (find_key_total (hi_e h') M (pcKey tid v) Hinv) as (j & b & Ef & y & Ey & Hy); [lia|].
  rewrite <- Hcap in Ef. rewrite Ef. cbn [mbind option_bind]. rewrite Ey. cbn [mbind option_bind].
  destruct (hist_store h' M (pcKey tid v) j b y Hinv Hok' Hroom Ef Ey) as (e & Ew & Hst).
  exists (Hist e (if b then hi_n h' else hi_n h' + 1) (hi_cap h')), m'. split; [|done].
  destruct b; cbn [pc_key pc_count] in *; [destruct Hy as [_ ->]|]; by rewrite Ew.
Qed.

(** The additions of a run, with memory for all of them. *)
Fixpoint histAdds (h : hist_t) (l : list (Z * Z)) : option hist_t :=
  match l with
  | [] => Some h
  | (tid, v) :: l => '(h, _) ← histAdd h [] tid v; histAdds h l
  end.

Definition occurrences (key : Z) (l : list (Z * Z)) : Z := zlen (filter (fun tv => pcKey tv.1 tv.2 = key) l).

Lemma occurrences_cons key tv l : occurrences key (tv :: l) = (if pcKey tv.1 tv.2 =? key then 1 else 0) + occurrences key l.
Proof.
  unfold occurrences. destruct (Z.eqb_spec (pcKey tv.1 tv.2) key); [rewrite filter_cons_True by done; zlia|].
  by rewrite filter_cons_False by done.
Qed.

Lemma histAdds_ok l : forall h M, hist_ok h M -> exists h', histAdds h l = Some h' /\
  hist_ok h' (foldl (fun M tv => bump (pcKey tv.1 tv.2) M) M l).
Proof.
  induction l as [|[tid v] l IH]; intros h M Hok; [by exists h|]. simpl.
  destruct (histAdd_ok h M [] tid v Hok) as [[[_ [? ?]] _]|(h1 & m1 & -> & Hok1 & _)]; [done|]. cbn [mbind option_bind].
  by apply IH.
Qed.

(** A map of positive counts under [l]-many additions. *)
Definition counts_pos M (l : list (Z * Z)) : Prop :=
  (forall κ c, M !! κ = Some c -> κ <> 0 /\ 0 < c) /\ (forall κ, default 0 (M !! κ) + occurrences κ l < 2 ^ 32).

Lemma occurrences_nonneg κ l : 0 <= occurrences κ l.
Proof. apply zlen_nonneg. Qed.

Lemma bumps_count κ l : forall M, counts_pos M l -> κ <> 0 ->
  let M' := foldl (fun M tv => bump (pcKey tv.1 tv.2) M) M l in
  counts_pos M' [] /\ default 0 (M' !! κ) = default 0 (M !! κ) + occurrences κ l.
Proof.
  induction l as [|tv l IH]; intros M Hp Hκ; cbn [foldl].
  { split; [done|]. change (occurrences κ []) with 0. lia. }
  assert (H0 : forall κ, 0 <= default 0 (M !! κ)).
  { intros κ'. destruct (M !! κ') as [c|] eqn:E; [|done]. apply (proj1 Hp) in E. simpl. lia. }
  assert (E : forall κ, κ <> 0 -> default 0 (bump (pcKey tv.1 tv.2) M !! κ) = default 0 (M !! κ) + (if pcKey tv.1 tv.2 =? κ then 1 else 0)).
  { intros κ' Hκ'. unfold bump. destruct (Z.eqb_spec (pcKey tv.1 tv.2) 0) as [E0|].
    - destruct (Z.eqb_spec (pcKey tv.1 tv.2) κ'); [congruence|lia].
    - rewrite lookup_insert. case_decide as Hd; [|destruct (Z.eqb_spec (pcKey tv.1 tv.2) κ'); [done|lia]].
      rewrite Hd, Z.eqb_refl. pose proof (proj2 Hp κ') as Hb. rewrite occurrences_cons, Hd, Z.eqb_refl in Hb.
      pose proof (occurrences_nonneg κ' l). specialize (H0 κ'). simpl. rewrite u32_small by lia. lia. }
  assert (Hpos : forall κ c, bump (pcKey tv.1 tv.2) M !! κ = Some c -> κ <> 0 /\ 0 < c).
  { intros κ' c Ec. assert (Hκ' : κ' <> 0).
    { unfold bump in Ec. destruct (Z.eqb_spec (pcKey tv.1 tv.2) 0); [by apply (proj1 Hp) in Ec as [? ?]|].
      rewrite lookup_insert in Ec. case_decide; [congruence|]. by apply (proj1 Hp) in Ec as [? ?]. }
    split; [done|]. pose proof (E κ' Hκ') as E'. rewrite Ec in E'. simpl in E'. specialize (H0 κ').
    destruct (Z.eqb_spec (pcKey tv.1 tv.2) κ') as [Hd|Hd]; [lia|]. unfold bump in Ec.
    destruct (pcKey tv.1 tv.2 =? 0); [by apply (proj1 Hp) in Ec as [? ?]|]. rewrite lookup_insert_ne in Ec by done. by apply (proj1 Hp) in Ec as [? ?]. }
  destruct (IH (bump (pcKey tv.1 tv.2) M)) as [Hp' E']; [|done|].
  - split; [done|]. intros κ'. destruct (decide (κ' = 0)) as [->|Hκ'].
    + destruct (bump _ _ !! 0) as [c|] eqn:Ec; [by apply Hpos in Ec as [? _]|]. pose proof (proj2 Hp 0) as Hb. rewrite occurrences_cons in Hb.
      specialize (H0 0). simpl. destruct (pcKey tv.1 tv.2 =? 0); lia.
    + rewrite E by done. pose proof (proj2 Hp κ') as Hb. rewrite occurrences_cons in Hb. lia.
  - split; [done|]. rewrite E', E, occurrences_cons by done. lia.
Qed.

(** ** Listing *)

Definition entries e : list pchist_t := filter (fun x => pc_key x <> 0) e.

Lemma NoDup_fmap_filter {A B} (f : A -> B) (P : A -> Prop) `{!forall x, Decision (P x)} (l : list A) :
  (forall (i j : nat) x y, l !! i = Some x -> l !! j = Some y -> P x -> P y -> f x = f y -> i = j) -> NoDup (f <$> filter P l).
Proof.
  induction l as [|x l IH]; intros Huniq; [constructor|].
  assert (IH' : NoDup (f <$> filter P l)).
  { apply IH. intros i j y z Ei Ej Hy Hz E. by assert (S i = S j) as [= ->] by (eapply (Huniq (S i) (S j) y z); done). }
  rewrite filter_cons. case_decide as Hx; [|done]. apply NoDup_cons. split; [|done].
  intros (y & E & Hy)%list_elem_of_fmap. apply list_elem_of_filter in Hy as [Hy (j & Ej)%list_elem_of_lookup].
  by assert (0%nat = S j) by (eapply (Huniq 0%nat (S j) x y); done).
Qed.

Lemma table_entries e M : table_inv e M -> NoDup (pc_key <$> entries e) /\
  forall x, x ∈ entries e <-> M !! pc_key x = Some (pc_count x).
Proof.
  intros Hinv. assert (Hrd : forall (i : nat) x, e !! i = Some x -> rd e (Z.of_nat i) = Some x).
  { intros i x E. unfold rd. destruct (Z.leb_spec 0 (Z.of_nat i)); [|lia]. by rewrite Nat2Z.id. }
  split.
  - apply NoDup_fmap_filter. intros i j x y Ei Ej Hx Hy E.
    destruct (ti_slot _ _ Hinv _ _ (Hrd _ _ Ei) Hx) as [Fi _], (ti_slot _ _ Hinv _ _ (Hrd _ _ Ej) Hy) as [Fj _].
    rewrite E, Fj in Fi. injection Fi as Fi. lia.
  - intros x. unfold entries. rewrite list_elem_of_filter. split.
    + intros [Hx (i & Ei)%list_elem_of_lookup]. by apply (ti_slot _ _ Hinv _ _ (Hrd _ _ Ei) Hx).
    + intros EM. destruct (ti_map _ _ Hinv _ _ EM) as (Hx & i & Ei). split; [done|]. unfold rd in Ei.
      destruct (0 <=? i); [|done]. apply list_elem_of_lookup_2 in Ei. by destruct x.
Qed.

Lemma hist_entries h M : hist_ok h M -> NoDup (pc_key <$> entries (hi_e h)) /\
  forall x, x ∈ entries (hi_e h) <-> M !! pc_key x = Some (pc_count x).
Proof.
  intros [_ _ _ [[-> ->]|Hinv]]; [|by apply table_entries]. split; [constructor|].
  intros x. rewrite lookup_empty. unfold entries. rewrite filter_nil. split; [|done]. by intros ?%not_elem_of_nil.
Qed.

Lemma cmpDesc64_spec a b : cmpDesc64 a b <= 0 <-> b <= a.
Proof. unfold cmpDesc64. destruct (Z.ltb_spec b a), (Z.ltb_spec a b); lia. Qed.

Lemma pcCmp_spec x y : pcCmp x y <= 0 <->
  pcTid (pc_key x) < pcTid (pc_key y) \/ pcTid (pc_key x) = pcTid (pc_key y) /\ pc_count y <= pc_count x.
Proof.
  unfold pcCmp. generalize (pcTid (pc_key x)), (pcTid (pc_key y)). intros tx ty. destruct (Z.eqb_spec tx ty) as [E|E]; simpl.
  - rewrite cmpDesc64_spec. lia.
  - destruct (Z.ltb_spec tx ty); lia.
Qed.

Lemma pcCmp_preorder : total_preorder pcCmp.
Proof.
  split; intros x y; [|intros z]; rewrite !pcCmp_spec; generalize (pcTid (pc_key x)), (pcTid (pc_key y)); [|generalize (pcTid (pc_key z))]; lia.
Qed.

Section listing.
Context `{QsortLaws}.

Lemma sorted_loop e n : used e <= n -> forall k (lo : nat) v, v = entries (take lo e) -> (lo + k <= length e)%nat ->
  for_loop (Z.of_nat lo) k (sorted_step e n) v = Some (entries (take (lo + k) e)).
Proof.
  intros Hn. induction k as [|k IH]; intros lo v -> Hk; simpl; [by rewrite Nat.add_0_r|].
  destruct (lookup_lt_is_Some_2 e lo) as [x E]; [lia|]. assert (Er : rd e (Z.of_nat lo) = Some x).
  { unfold rd. destruct (Z.leb_spec 0 (Z.of_nat lo)); [|lia]. by rewrite Nat2Z.id. }
  assert (Estep : sorted_step e n (Z.of_nat lo) (entries (take lo e)) = Some (entries (take (S lo) e))); [unfold sorted_step; rewrite Er; cbn [mbind option_bind]|].
  2:{ rewrite Estep. cbn [mbind option_bind]. replace (lo + S k)%nat with (S lo + k)%nat by lia.
      replace (Z.of_nat lo + 1) with (Z.of_nat (S lo)) by lia. apply IH; [done|lia]. }
  assert (Etk : entries (take (S lo) e) = entries (take lo e) ++ if decide (pc_key x <> 0) then [x] else []).
  { rewrite (take_S_r _ _ _ E). unfold entries. rewrite filter_app. done. }
  destruct (Z.eqb_spec (pc_key x) 0) as [Hx|Hx].
  - rewrite Etk, decide_False by auto. by rewrite app_nil_r.
  - assert (Hl : zlen (entries (take lo e)) < n + 1).
    { pose proof (used_app (take (S lo) e) (drop (S lo) e)) as Hu. rewrite take_drop in Hu.
      pose proof (used_le (drop (S lo) e)). unfold used at 2 in Hu. fold (entries (take (S lo) e)) in Hu. rewrite Etk, zlen_app in Hu.
      pose proof (zlen_nonneg (if decide (pc_key x <> 0) then [x] else [])). lia. }
    apply Z.ltb_lt in Hl. rewrite Hl. by rewrite Etk, decide_True by done.
Qed.

(** The entries are listed by thread, with the largest counts first. *)
Lemma histSorted_ok h M m : hist_ok h M -> (alloc m).1 = true -> exists v,
  histSorted h m = Some (Some v, (alloc m).2) /\ v ≡ₚ entries (hi_e h) /\ Sorted (fun x y => pcCmp x y <= 0) v.
Proof.
  intros [Hcap Hn _ _] Hm. unfold histSorted. destruct (alloc m) as [ok m']. simpl in Hm. subst ok.
  pose proof (sorted_loop (hi_e h) (hi_n h) Hn (length (hi_e h)) 0 [] eq_refl (le_n _)) as E.
  rewrite Hcap. replace (Z.to_nat (zlen (hi_e h))) with (length (hi_e h)) by (unfold zlen; lia). change (Z.of_nat 0) with 0 in E. simpl in E.
  rewrite E. cbn [mbind option_bind]. rewrite take_ge by done. eexists. split; [done|]. split; [apply qsort_perm|].
  apply qsort_sorted, pcCmp_preorder.
Qed.
End listing.

(** The listing of a table that counts [l]. *)
Lemma histSorted_counts `{QsortLaws} h (l : list (Z * Z)) : zlen l < 2 ^ 32 ->
  hist_ok h (foldl (fun M tv => bump (pcKey tv.1 tv.2) M) ∅ l) -> exists v, histSorted h [] = Some (Some v, []) /\
    NoDup (pc_key <$> v) /\ Sorted (fun x y => pcCmp x y <= 0) v /\
    forall x, x ∈ v <-> pc_key x <> 0 /\ pc_count x = occurrences (pc_key x) l /\ 0 < pc_count x.
Proof.
  intros Hl Hok.
  destruct (histSorted_ok h _ [] Hok eq_refl) as (v & Ev & Hperm & Hs). destruct (hist_entries h _ Hok) as [Hnd Hin].
  exists v. split_and!; try done. { by rewrite Hperm. }
  intros x. rewrite Hperm, Hin.
  assert (Hocc : forall κ, occurrences κ l <= zlen l).
  { intros κ. unfold occurrences, zlen. pose proof (length_filter (fun tv => pcKey tv.1 tv.2 = κ) l). lia. }
  assert (Hp0 : counts_pos ∅ l).
  { split; [by intros κ c; rewrite lookup_empty|]. intros κ. rewrite lookup_empty. simpl. specialize (Hocc κ). lia. }
  set (M := foldl _ _ _) in *. split.
  - intros EM. destruct (bumps_count 1 l ∅ Hp0) as [[Hpos _] _]; [done|]. apply Hpos in EM as Hx.
    destruct (bumps_count (pc_key x) l ∅ Hp0) as [_ Ec]; [tauto|]. fold M in Ec. rewrite EM, lookup_empty in Ec. simpl in Ec. tauto.
  - intros (Hx & Hc & Hc0). destruct (bumps_count (pc_key x) l ∅ Hp0 Hx) as [_ Ec]. fold M in Ec. rewrite lookup_empty in Ec.
    simpl in Ec. destruct (M !! pc_key x) as [c|]; simpl in Ec; [by rewrite Ec, Hc|lia].
Qed.

(** [qsort] by insertion. *)
Fixpoint sort_insert {A} (cmp : A -> A -> Z) (x : A) (l : list A) : list A :=
  match l with
  | [] => [x]
  | y :: l => if cmp x y <=? 0 then x :: y :: l else y :: sort_insert cmp x l
  end.

Lemma sort_insert_perm {A} (cmp : A -> A -> Z) x l : sort_insert cmp x l ≡ₚ x :: l.
Proof. induction l as [|y l IH]; [done|]. simpl. destruct (_ <=? _); [done|]. rewrite IH. by apply Permutation_swap. Qed.

Lemma sort_insert_sorted {A} (cmp : A -> A -> Z) x l : (forall y, y ∈ l -> cmp x y <= 0 \/ cmp y x <= 0) ->
  Sorted (fun x y => cmp x y <= 0) l -> Sorted (fun x y => cmp x y <= 0) (sort_insert cmp x l).
Proof.
  intros Ht Hs. induction Hs as [|y l Hs IH Hd]; simpl; [by repeat constructor|].
  destruct (Z.leb_spec (cmp x y) 0) as [Hle|Hgt]; [by repeat constructor|].
  constructor; [apply IH; intros z Hz; apply Ht; by right|]. assert (cmp y x <= 0) by (destruct (Ht y ltac:(left)); lia).
  destruct l as [|z l]; simpl; [by constructor|]. destruct (_ <=? _); constructor; [done|by inversion Hd].
Qed.

#[export] Instance qsort_insertion : Qsort := fun A cmp l => foldr (sort_insert cmp) [] l.

#[export] Instance qsort_insertion_laws : QsortLaws.
Proof.
  assert (Hp : forall A (cmp : A -> A -> Z) l, qsort cmp l ≡ₚ l).
  { intros A cmp l. unfold qsort, qsort_insertion. induction l as [|x l IH]; [done|]. simpl. by rewrite sort_insert_perm, IH. }
  split; [exact Hp|]. intros A cmp l [Ht _]. unfold qsort, qsort_insertion. induction l as [|x l IH]; [constructor|]. simpl.
  apply sort_insert_sorted; [|apply IH; intros y z Hy Hz; apply Ht; by right].
  intros y Hy. change (y ∈ qsort cmp l) in Hy. rewrite (Hp A cmp l) in Hy. apply Ht; [left|by right].
Qed.

(** The counters count: after any additions with memory for them (fewer than 2^32),
    every search having ended, the listing holds each key that was added exactly once,
    with the number of its additions, ordered by thread and then by decreasing count. *)
Theorem histAdds_counts `{QsortLaws} (l : list (Z * Z)) : zlen l < 2 ^ 32 ->
  exists h v, histAdds hist_nil l = Some h /\ histSorted h [] = Some (Some v, []) /\
    NoDup (pc_key <$> v) /\ Sorted (fun x y => pcCmp x y <= 0) v /\
    forall x, x ∈ v <-> pc_key x <> 0 /\ pc_count x = occurrences (pc_key x) l /\ 0 < pc_count x.
Proof.
  intros Hl. destruct (histAdds_ok l hist_nil ∅ hist_ok_nil) as (h & E & Hok).
  destruct (histSorted_counts h l Hl Hok) as (v & Hv). by exists h, v.
Qed.

Lemma histAdds_counts_witness : exists h v, histAdds hist_nil [(7, 4160); (7, 4160); (3, 0)] = Some h /\ histSorted h [] = Some (Some v, []) /\
  PcHist (pcKey 7 4160) 2 ∈ v.
Proof.
  destruct (histAdds_counts [(7, 4160); (7, 4160); (3, 0)]) as (h & v & E & Ev & _ & _ & Hin); [reflexivity|].
  exists h, v. split_and!; [exact E|exact Ev|]. apply Hin. split_and!; [done|reflexivity|reflexivity].
Defined.

(** ** Keys *)

Lemma lor_shiftl a b n : 0 <= n -> 0 <= b < 2 ^ n -> Z.lor (Z.shiftl a n) b = a * 2 ^ n + b.
Proof.
  intros Hn Hb. assert (E : Z.land (Z.shiftl a n) b = 0).
  { rewrite <- (Z.mod_small b (2 ^ n)) by done. rewrite <- Z.land_ones, (Z.land_comm b), Z.land_assoc, Z.land_ones by done.
    by rewrite Z.shiftl_mul_pow2, Z.mod_mul by lia. }
  rewrite <- Z.lxor_lor, <- Z.add_nocarry_lxor, Z.shiftl_mul_pow2 by done. done.
Qed.

Lemma pcKey_spec tid pc : pcKey tid pc = ((tid + 1) mod 2 ^ 32) mod 2 ^ 16 * 2 ^ 48 + pc mod 2 ^ 48.
Proof.
  unfold pcKey, wrapu. change 65535 with (2 ^ 16 - 1). change 281474976710655 with (2 ^ 48 - 1). rewrite !land_cap by lia.
  apply lor_shiftl; [lia|]. apply Z.mod_pos_bound. lia.
Qed.

Lemma pcTid_spec key : pcTid key = key / 2 ^ 48 - 1.
Proof. unfold pcTid. by rewrite Z.shiftr_div_pow2. Qed.

Lemma pcValue_small tid v : 0 <= v < 2 ^ 47 -> pcValue (pcKey tid v) = v.
Proof.
  intros Hv. unfold pcValue. rewrite pcKey_spec. change 281474976710655 with (2 ^ 48 - 1). rewrite land_cap by lia.
  rewrite Z.add_comm, Z.mod_add, Z.mod_mod by lia. rewrite Z.mod_small by lia. by rewrite Z.shiftr_div_pow2, Z.div_small by lia.
Qed.

(** A key gives back its thread and its program counter: a user address below 2^47 or
    a kernel address from 2^64 - 2^47 on, of any thread but the last, number 65535. *)
Theorem pcKey_roundtrip (tid pc : Z) : 0 <= tid < 65535 -> 0 <= pc < 2 ^ 47 \/ 2 ^ 64 - 2 ^ 47 <= pc < 2 ^ 64 ->
  pcTid (pcKey tid pc) = tid /\ pcValue (pcKey tid pc) = pc /\ 0 < pcKey tid pc.
Proof.
  intros Ht Hpc. rewrite pcTid_spec, pcKey_spec, !(Z.mod_small (tid + 1)) by (try rewrite Z.mod_small; lia).
  pose proof (Z.mod_pos_bound pc (2 ^ 48) ltac:(lia)) as Hm. rewrite Z.div_add_l, (Z.div_small (pc mod 2 ^ 48)) by lia.
  split; [lia|]. split; [|lia]. unfold pcValue. change 281474976710655 with (2 ^ 48 - 1). rewrite land_cap by lia.
  rewrite Z.add_comm, Z.mod_add, Z.mod_mod by lia. rewrite Z.shiftr_div_pow2 by lia. destruct Hpc as [Hpc|Hpc].
  - rewrite (Z.mod_small pc) by lia. rewrite (Z.div_small pc) by lia. done.
  - assert (E : pc mod 2 ^ 48 = pc - 65535 * 2 ^ 48).
    { rewrite <- (Z.mod_add pc (- 65535)) by lia. rewrite Z.mod_small by lia. lia. }
    rewrite E. destruct (Z.eqb_spec ((pc - 65535 * 2 ^ 48) / 2 ^ 47) 0) as [H0|_].
    + exfalso. assert (2 ^ 47 <= pc - 65535 * 2 ^ 48) by lia. assert (1 <= (pc - 65535 * 2 ^ 48) / 2 ^ 47); [|lia].
      apply Z.div_le_lower_bound; lia.
    + rewrite Z.lor_comm. change 18446462598732840960 with (Z.shiftl 65535 48). rewrite lor_shiftl by lia. lia.
Qed.

Lemma pcKey_roundtrip_witness : pcTid (pcKey 5 18446744072635809792) = 5 /\ pcValue (pcKey 5 18446744072635809792) = 18446744072635809792.
Proof. destruct (pcKey_roundtrip 5 18446744072635809792) as (H1 & H2 & _); [lia|right; lia|]. by split. Defined.

(** The last thread: the mark of a free slot is its key for the program counter 0, so its
    samples there are not counted; every other key of it names the thread -1. *)
Lemma last_thread_uncounted : pcKey 65535 0 = 0 /\ pcTid (pcKey 65535 4096) = - 1 /\
  exists h, histAdd hist_nil [] 65535 0 = Some (h, []) /\ entries (hi_e h) = [] /\ hi_n h = 1.
Proof. split; [done|]. split; [done|]. eexists. split_and!; vm_compute; reflexivity. Qed.
