(* ===== verification/Report.v ===== *)
(** * The report of a recording ([prof/report.c])

    Threads, waits, messages and samples: the state a report keeps, and what every
    event of the merged streams does to it.  The names of the system calls come from
    the kernel's headers and are a parameter. *)

From stdpp Require Import gmap.
From S2P Require Import Prelude.
From S2P Require Import Event.
From S2P Require Import PcHist.

Definition NTIDS : Z := 65536.
Definition NLONGEST : Z := 64.
Definition NAME_LEN : Z := 48.
Definition CAUSES : Z := 5.
Definition NO_SYSCALL : Z := -1.

(** Offsets in [thread_sample] and [thread_wait]. *)
Definition PROF_SAMPLE_MODE : Z := 2.
Definition PROF_SAMPLE_KFLAGS : Z := 3.
Definition PROF_SAMPLE_KPC : Z := 4.
Definition PROF_SAMPLE_KLR : Z := 12.
Definition PROF_SAMPLE_SYSCALL : Z := 20.
Definition PROF_SAMPLE_ECLASS : Z := 22.
Definition PROF_WAIT_FLAGS : Z := 2.
Definition PROF_WAIT_QUEUE : Z := 3.
Definition PROF_WAIT_TIMEOUT : Z := 7.
Definition PROF_WAIT_BLOCKED : Z := 11.
Definition PROF_WAIT_SYSCALL : Z := 15.
Definition PROF_WAIT_ARGS : Z := 17.

Definition ENTRY_EXCEPTION : Z := 65536.
Definition ENTRY_UNKNOWN : Z := 131072.

(** ** Data *)

(** [ev_p] is an offset in the file [ev_data]. *)
Record ev_t := Ev { ev_ts : Z; ev_seq : Z; ev_id : Z; ev_cpu : Z; ev_len : Z; ev_data : bytes; ev_p : Z }.

Record urec_t := Urec { u_pc : Z; u_lr : Z; u_sp : Z; u_fp : Z; u_nframes : Z; u_frames : Z; u_nstack : Z; u_stack : Z }.

Record msg_t := Msg { ms_mid : Z; ms_port : Z; ms_type : Z }.
Record wait_t := Wait {
  wt_ts : Z; wt_flags : Z; wt_syscall : Z; wt_obj : Z; wt_timeout : Z; wt_mid : Z; wt_pc : Z }.

(** [th_samples] has a count per mode; [th_msg] the fields [msg*], [th_wait] the fields
    [wait*]. *)
Record thr_t := Thr {
  th_pid : Z; th_name : bytes; th_samples : list Z; th_syscall : Z; th_msg : msg_t;
  th_waiting : bool; th_wait : wait_t; th_wakeCause : Z; th_waker : Z }.

Record waitagg_t := Waitagg {
  wa_tid : Z; wa_syscall : Z; wa_obj : Z; wa_count : Z; wa_totalUs : Z; wa_maxUs : Z; wa_causes : list Z; wa_lastWaker : Z }.

Record edge_t := Edge { ed_client : Z; ed_server : Z; ed_port : Z; ed_count : Z; ed_totalUs : Z; ed_maxUs : Z }.

Record inflight_t := Inflight { if_mid : Z; if_client : Z; if_server : Z; if_port : Z }.

Record longwait_t := Longwait {
  lw_tid : Z; lw_syscall : Z; lw_obj : Z; lw_startTs : Z; lw_us : Z; lw_timeout : Z; lw_cause : Z; lw_waker : Z;
  lw_existing : bool; lw_open : bool; lw_pc : Z }.

(** The tables of [rep] that the events fill. *)
Record rep_t := Rep {
  rp_thr : gmap Z thr_t;
  rp_pcs : hist_t; rp_kentry : hist_t; rp_kcaller : hist_t;
  rp_waits : tbl waitagg_t; rp_edges : tbl edge_t; rp_msgs : tbl inflight_t;
  rp_longest : list longwait_t; rp_nlongest : Z;
  rp_nsamples : list Z; rp_nwaitEvents : Z; rp_lastTs : Z; rp_mem : mem }.

Definition set_thr (f : gmap Z thr_t) (s : rep_t) : rep_t :=
  Rep f (rp_pcs s) (rp_kentry s) (rp_kcaller s) (rp_waits s) (rp_edges s) (rp_msgs s) (rp_longest s) (rp_nlongest s)
    (rp_nsamples s) (rp_nwaitEvents s) (rp_lastTs s) (rp_mem s).
Definition set_hists (p e c : hist_t) (m : mem) (s : rep_t) : rep_t :=
  Rep (rp_thr s) p e c (rp_waits s) (rp_edges s) (rp_msgs s) (rp_longest s) (rp_nlongest s)
    (rp_nsamples s) (rp_nwaitEvents s) (rp_lastTs s) m.
Definition set_waits (w : tbl waitagg_t) (m : mem) (s : rep_t) : rep_t :=
  Rep (rp_thr s) (rp_pcs s) (rp_kentry s) (rp_kcaller s) w (rp_edges s) (rp_msgs s) (rp_longest s) (rp_nlongest s)
    (rp_nsamples s) (rp_nwaitEvents s) (rp_lastTs s) m.
Definition set_edges (e : tbl edge_t) (m : mem) (s : rep_t) : rep_t :=
  Rep (rp_thr s) (rp_pcs s) (rp_kentry s) (rp_kcaller s) (rp_waits s) e (rp_msgs s) (rp_longest s) (rp_nlongest s)
    (rp_nsamples s) (rp_nwaitEvents s) (rp_lastTs s) m.
Definition set_msgs (t : tbl inflight_t) (m : mem) (s : rep_t) : rep_t :=
  Rep (rp_thr s) (rp_pcs s) (rp_kentry s) (rp_kcaller s) (rp_waits s) (rp_edges s) t (rp_longest s) (rp_nlongest s)
    (rp_nsamples s) (rp_nwaitEvents s) (rp_lastTs s) m.
Definition set_longest (l : list longwait_t) (n : Z) (s : rep_t) : rep_t :=
  Rep (rp_thr s) (rp_pcs s) (rp_kentry s) (rp_kcaller s) (rp_waits s) (rp_edges s) (rp_msgs s) l n
    (rp_nsamples s) (rp_nwaitEvents s) (rp_lastTs s) (rp_mem s).
Definition set_counts (samples : list Z) (waits ts : Z) (s : rep_t) : rep_t :=
  Rep (rp_thr s) (rp_pcs s) (rp_kentry s) (rp_kcaller s) (rp_waits s) (rp_edges s) (rp_msgs s) (rp_longest s) (rp_nlongest s)
    samples waits ts (rp_mem s).
Definition set_mem (m : mem) (s : rep_t) : rep_t :=
  Rep (rp_thr s) (rp_pcs s) (rp_kentry s) (rp_kcaller s) (rp_waits s) (rp_edges s) (rp_msgs s) (rp_longest s) (rp_nlongest s)
    (rp_nsamples s) (rp_nwaitEvents s) (rp_lastTs s) m.

Definition longwait_zero : longwait_t := Longwait 0 0 0 0 0 0 0 0 false false 0.

(** [memset(&rep, 0, sizeof(rep))]. *)
Definition rep_zero (m : mem) : rep_t :=
  Rep ∅ hist_nil hist_nil hist_nil tbl_nil tbl_nil tbl_nil (replicate (Z.to_nat NLONGEST) longwait_zero) 0 [0; 0; 0] 0 0 m.

(** ** Reading *)

Definition prof_rd64 (data : bytes) (o : Z) : option Z :=
  a ← prof_rd32 data o; b ← prof_rd32 data (o + 4); Some (a + 4294967296 * b).

(** [p] and [o] as one offset; the pointers of the record are offsets too. *)
Definition urecParse (data : bytes) (o : Z) : option urec_t :=
  pc ← prof_rd64 data o;
  lr ← prof_rd64 data (o + 8);
  sp ← prof_rd64 data (o + 16);
  fp ← prof_rd64 data (o + 24);
  nframes ← rd data (o + 32);
  let o' := o + 33 + nframes * 8 in
  nstack ← prof_rd16 data o';
  Some (Urec pc lr sp fp nframes (o + 33) nstack (o' + 2)).

(** ** Threads *)

Definition thr_new : thr_t :=
  Thr (-1) (bstr "?") [0; 0; 0] NO_SYSCALL (Msg 0 0 0) false (Wait 0 0 0 0 0 0 0) 0 (-1).

Definition thrGet (tid : Z) (s : rep_t) : option thr_t * rep_t :=
  if (tid <? 0) || (NTIDS <=? tid) then (None, s)
  else
    match rp_thr s !! tid with
    | Some t => (Some t, s)
    | None =>
        let '(ok, m) := alloc (rp_mem s) in
        let s := set_mem m s in
        if ok : bool then (Some thr_new, set_thr (<[tid := thr_new]> (rp_thr s)) s) else (None, s)
    end.

Definition put_thr (tid : Z) (t : thr_t) (s : rep_t) : rep_t := set_thr (<[tid := t]> (rp_thr s)) s.

Definition th_set_name (name : bytes) (pid : Z) (t : thr_t) : thr_t :=
  Thr pid name (th_samples t) (th_syscall t) (th_msg t) (th_waiting t) (th_wait t) (th_wakeCause t) (th_waker t).
Definition th_set_samples (l : list Z) (t : thr_t) : thr_t :=
  Thr (th_pid t) (th_name t) l (th_syscall t) (th_msg t) (th_waiting t) (th_wait t) (th_wakeCause t) (th_waker t).
Definition th_set_syscall (sc : Z) (m : msg_t) (t : thr_t) : thr_t :=
  Thr (th_pid t) (th_name t) (th_samples t) sc m (th_waiting t) (th_wait t) (th_wakeCause t) (th_waker t).
Definition th_set_wait (b : bool) (w : wait_t) (t : thr_t) : thr_t :=
  Thr (th_pid t) (th_name t) (th_samples t) (th_syscall t) (th_msg t) b w (th_wakeCause t) (th_waker t).
Definition th_set_wake (cause waker : Z) (t : thr_t) : thr_t :=
  Thr (th_pid t) (th_name t) (th_samples t) (th_syscall t) (th_msg t) (th_waiting t) (th_wait t) cause waker.

(** The basename of the first word of [len] bytes at [o]: where it starts and ends. *)
Fixpoint text_loop (len : nat) (data : bytes) (o start end_ : Z) : option (Z * Z) :=
  match len with
  | O => Some (start, end_)
  | S len =>
      c ← rd data o;
      if (c =? 0) || (c =? 32) then Some (start, end_)
      else text_loop len data (o + 1) (if c =? 47 then o + 1 else start) (o + 1)
  end.

Definition thrSetName (t : thr_t) (pid : Z) (data : bytes) (o len : Z) : option thr_t :=
  '(start, end_) ← text_loop (Z.to_nat len) data o o o;
  let n := end_ - start in
  let n := if NAME_LEN <=? n then NAME_LEN - 1 else n in
  if negb (n =? 0) then name ← rd_range data start n; Some (th_set_name name pid t)
  else Some (th_set_name (th_name t) pid t).

Definition thrName (s : rep_t) (tid : Z) : bytes :=
  match (if (0 <=? tid) && (tid <? NTIDS) then rp_thr s !! tid else None) with Some t => th_name t | None => bstr "?" end.

Definition thrPid (s : rep_t) (tid : Z) : Z :=
  match (if (0 <=? tid) && (tid <? NTIDS) then rp_thr s !! tid else None) with Some t => th_pid t | None => -1 end.

Definition thrSelected (selfPid pidFilter : Z) (s : rep_t) (tid : Z) : bool :=
  let pid := thrPid s tid in
  if (0 <? selfPid) && (pid =? selfPid) then false else (pidFilter <=? 0) || (pid =? pidFilter).

(** ** Linear tables *)

Fixpoint find_first {A} (p : A -> bool) (i : Z) (l : list A) : option Z :=
  match l with [] => None | x :: l => if p x then Some i else find_first p (i + 1) l end.

Fixpoint find_last {A} (p : A -> bool) (i : Z) (l : list A) : option Z :=
  match l with
  | [] => None
  | x :: l => match find_last p (i + 1) l with Some j => Some j | None => if p x then Some i else None end
  end.

Definition waitAgg (tid syscall obj : Z) (s : rep_t) : option (option Z * rep_t) :=
  match find_first (fun w => (wa_tid w =? tid) && (wa_syscall w =? syscall) && (wa_obj w =? obj)) 0 (tb_items (rp_waits s)) with
  | Some i => Some (Some i, s)
  | None =>
      '(i, t, m) ← tbl_push 256 (Waitagg tid syscall obj 0 0 0 [0; 0; 0; 0; 0] (-1)) (rp_waits s) (rp_mem s);
      Some (i, set_waits t m s)
  end.

Definition edgeGet (client server port : Z) (s : rep_t) : option (option Z * rep_t) :=
  match find_first (fun e => (ed_client e =? client) && (ed_server e =? server) && (ed_port e =? port)) 0 (tb_items (rp_edges s)) with
  | Some i => Some (Some i, s)
  | None =>
      '(i, t, m) ← tbl_push 128 (Edge client server port 0 0 0) (rp_edges s) (rp_mem s);
      Some (i, set_edges t m s)
  end.

Definition msgFind (mid : Z) (create : bool) (s : rep_t) : option (option Z * rep_t) :=
  match find_last (fun m => if_mid m =? mid) 0 (tb_items (rp_msgs s)) with
  | Some i => Some (Some i, s)
  | None =>
      if negb create then Some (None, s)
      else
        '(i, t, m) ← tbl_push 64 (Inflight mid (-1) (-1) 0) (rp_msgs s) (rp_mem s);
        Some (i, set_msgs t m s)
  end.

(** [*m = msgs[--nmsgs]]. *)
Definition msgDrop (i : Z) (s : rep_t) : option rep_t :=
  let l := tb_items (rp_msgs s) in
  let n := zlen l - 1 in
  x ← rd l n;
  l ← wr l i x;
  Some (set_msgs (set_items (take (Z.to_nat n) l) (rp_msgs s)) (rp_mem s) s).

Definition upd_msg (i : Z) (f : inflight_t -> inflight_t) (s : rep_t) : option rep_t :=
  x ← rd (tb_items (rp_msgs s)) i;
  l ← wr (tb_items (rp_msgs s)) i (f x);
  Some (set_msgs (set_items l (rp_msgs s)) (rp_mem s) s).

Definition serve (server : Z) (m : inflight_t) : inflight_t := Inflight (if_mid m) (if_client m) server (if_port m).

(** ** Waits *)

Section syscalls.
Context (syscallNames : list bytes).
#[local] Abbreviation NSYSCALLS := (zlen syscallNames).

Definition sc_name (syscall : Z) : option bytes :=
  if (0 <=? syscall) && (syscall <? NSYSCALLS) then rd syscallNames syscall else None.

Definition is_name (name : bytes) (s : string) : bool := strcmp name (bstr s) =? 0.

(** The number of [msgSend], or that of the system calls. *)
Fixpoint scMsgSend_from (names : list bytes) (i : Z) : Z :=
  match names with [] => i | n :: names => if is_name n "msgSend" then i else scMsgSend_from names (i + 1) end.
Definition scMsgSend : Z := scMsgSend_from syscallNames 0.

Definition waitObject (syscall queue : Z) (args : list Z) (t : thr_t) : option Z :=
  let name := default [] (sc_name syscall) in
  a0 ← rd args 0;
  Some (if is_name name "msgSend" then if negb (wt_mid (th_wait t) =? 0) then ms_port (th_msg t) else u32 a0
        else if is_name name "futexWait" then a0
        else if is_name name "msgRecv" || is_name name "phMutexLock" || is_name name "phCondWait" ||
                is_name name "threadJoin" || is_name name "sys_waitpid" then u32 a0
        else if is_name name "nsleep" then 0
        else queue).

(** The loop that makes room for [l] at [i]. *)
Fixpoint longest_shift (i : nat) (l : longwait_t) (a : list longwait_t) : option (list longwait_t) :=
  match i with
  | O => wr a 0 l
  | S i' =>
      x ← rd a (Z.of_nat i');
      if lw_us x <? lw_us l then a ← wr a (Z.of_nat i) x; longest_shift i' l a
      else wr a (Z.of_nat i) l
  end.

(** The array and the number of its entries. *)
Definition longest_add (l : longwait_t) (a : list longwait_t) (n : Z) : option (list longwait_t * Z) :=
  drop ← (if n =? NLONGEST then x ← rd a (NLONGEST - 1); Some (lw_us l <=? lw_us x) else Some false);
  if drop : bool then Some (a, n)
  else
    let '(i, n) := if n <? NLONGEST then (n, n + 1) else (NLONGEST - 1, n) in
    a ← longest_shift (Z.to_nat i) l a;
    Some (a, n).

Definition longestAdd (l : longwait_t) (s : rep_t) : option rep_t :=
  '(a, n) ← longest_add l (rp_longest s) (rp_nlongest s); Some (set_longest a n s).

Definition agg_wait (us cause waker : Z) (open : bool) (w : waitagg_t) : option waitagg_t :=
  causes ← (if open then Some (wa_causes w) else c ← rd (wa_causes w) cause; wr (wa_causes w) cause (u32 (c + 1)));
  Some (Waitagg (wa_tid w) (wa_syscall w) (wa_obj w) (u32 (wa_count w + 1)) (u64 (wa_totalUs w + us))
          (if wa_maxUs w <? us then us else wa_maxUs w) causes
          (if negb open && (0 <? waker) then waker else wa_lastWaker w)).

Definition agg_edge (us : Z) (e : edge_t) : edge_t :=
  Edge (ed_client e) (ed_server e) (ed_port e) (u32 (ed_count e + 1)) (u64 (ed_totalUs e + us))
    (if ed_maxUs e <? us then us else ed_maxUs e).

(** The part of [waitEnd] for the aggregates of the waits. *)
Definition end_agg (tid : Z) (w : wait_t) (us cause waker : Z) (open : bool) (s : rep_t) : option rep_t :=
  '(i, s) ← waitAgg tid (wt_syscall w) (wt_obj w) s;
  match i with
  | None => Some s
  | Some i =>
      a ← rd (tb_items (rp_waits s)) i;
      a ← agg_wait us cause waker open a;
      l ← wr (tb_items (rp_waits s)) i a;
      Some (set_waits (set_items l (rp_waits s)) (rp_mem s) s)
  end.

(** The part for the message the thread waits for. *)
Definition end_edge (tid : Z) (w : wait_t) (us waker : Z) (open : bool) (s : rep_t) : option rep_t :=
  if negb (wt_mid w =? 0) then
    '(m, s) ← msgFind (wt_mid w) false s;
    server ← (match m with
              | None => Some waker
              | Some i => x ← rd (tb_items (rp_msgs s)) i; Some (if 0 <? if_server x then if_server x else waker)
              end);
    '(e, s) ← edgeGet tid server (u32 (wt_obj w)) s;
    s ← (match e with
         | None => Some s
         | Some i =>
             x ← rd (tb_items (rp_edges s)) i;
             l ← wr (tb_items (rp_edges s)) i (agg_edge us x);
             Some (set_edges (set_items l (rp_edges s)) (rp_mem s) s)
         end);
    match m with Some i => if negb open then msgDrop i s else Some s | None => Some s end
  else Some s.

(** The thread [tid] is in the table. *)
Definition waitEnd (tid ts : Z) (open : bool) (s : rep_t) : option rep_t :=
  t ← rp_thr s !! tid;
  let w := th_wait t in
  let us := u32 (ts - wt_ts w) in
  let cause := if open then CAUSES - 1 else if 0 <=? th_wakeCause t then th_wakeCause t else CAUSES - 1 in
  s ← end_agg tid w us cause (th_waker t) open s;
  s ← end_edge tid w us (th_waker t) open s;
  s ← longestAdd (Longwait tid (wt_syscall w) (wt_obj w) (wt_ts w) us (wt_timeout w) cause
                    (if negb open then th_waker t else -1) (Z.testbit (wt_flags w) 0) open (wt_pc w)) s;
  Some (put_thr tid (th_set_wake (-1) (-1) (th_set_wait false w t)) s).

(** ** Events *)

Definition inc_at (w : Z) (l : list Z) (i : Z) : option (list Z) := x ← rd l i; wr l i (wrapu w (x + 1)).

Definition on_thread (tid : Z) (s : rep_t) (f : thr_t -> rep_t -> option rep_t) : option rep_t :=
  let '(t, s) := thrGet tid s in match t with Some t => f t s | None => Some s end.

Definition ev_create (data : bytes) (p : Z) (s : rep_t) : option rep_t :=
  tid ← prof_rd16 data (p + 2);
  on_thread tid s (fun t s =>
    pid ← prof_rd16 data p;
    t ← thrSetName t pid data (p + 5) 128;
    Some (put_thr tid t s)).

Definition ev_syscall (enter : bool) (data : bytes) (p : Z) (s : rep_t) : option rep_t :=
  tid ← prof_rd16 data (p + 1);
  on_thread tid s (fun t s =>
    sc ← (if enter then rd data p else Some NO_SYSCALL);
    Some (put_thr tid (th_set_syscall sc (Msg 0 (ms_port (th_msg t)) (ms_type (th_msg t))) t) s)).

(** Why the thread is in the kernel. *)
Definition kentry_of (data : bytes) (p : Z) : option Z :=
  sc ← prof_rd16 data (p + PROF_SAMPLE_SYSCALL);
  if negb (sc =? 65535) then Some sc
  else
    ec ← rd data (p + PROF_SAMPLE_ECLASS);
    Some (if negb (ec =? 255) then Z.lor ENTRY_EXCEPTION ec else ENTRY_UNKNOWN).

Definition kcaller_of (data : bytes) (p : Z) : option Z :=
  fl ← rd data (p + PROF_SAMPLE_KFLAGS);
  prof_rd64 data (p + if Z.testbit fl 0 then PROF_SAMPLE_KLR else PROF_SAMPLE_KPC).

Definition ev_sample (data : bytes) (p : Z) (s : rep_t) : option rep_t :=
  tid ← prof_rd16 data p;
  on_thread tid s (fun t s =>
    mode ← rd data (p + PROF_SAMPLE_MODE);
    if 2 <? mode then Some s
    else
      samples ← inc_at 32 (th_samples t) mode;
      nsamples ← inc_at 64 (rp_nsamples s) mode;
      let s := set_counts nsamples (rp_nwaitEvents s) (rp_lastTs s) (put_thr tid (th_set_samples samples t) s) in
      nk ← rd data (p + PROF_SAMPLE_NK);
      u ← urecParse data (p + (PROF_SAMPLE_KFRAMES + nk * 8));
      pc ← (if mode =? 0 then Some (u_pc u) else prof_rd64 data (p + PROF_SAMPLE_KPC));
      '(pcs, m) ← histAdd (rp_pcs s) (rp_mem s) tid pc;
      let s := set_hists pcs (rp_kentry s) (rp_kcaller s) m s in
      if mode =? 1 then
        ke ← kentry_of data p;
        '(kentry, m) ← histAdd (rp_kentry s) (rp_mem s) tid ke;
        kc ← kcaller_of data p;
        '(kcaller, m) ← histAdd (rp_kcaller s) m tid kc;
        Some (set_hists (rp_pcs s) kentry kcaller m s)
      else Some s).

(** What a [thread_wait] event says, for a thread in the state [t]. *)
Definition wait_of (t : thr_t) (ts : Z) (data : bytes) (p : Z) : option wait_t :=
  args ← mapM (fun i => prof_rd64 data (p + PROF_WAIT_ARGS + 8 * i)) [0; 1; 2; 3];
  nk ← rd data (p + PROF_WAIT_NK);
  u ← urecParse data (p + (PROF_WAIT_KFRAMES + nk * 8));
  flags ← rd data (p + PROF_WAIT_FLAGS);
  wts ← (if Z.testbit flags 1 then b ← prof_rd32 data (p + PROF_WAIT_BLOCKED); Some (u32 (ts - b)) else Some ts);
  sc ← prof_rd16 data (p + PROF_WAIT_SYSCALL);
  let sc := if negb (sc =? 65535) then sc else if Z.testbit flags 0 then NO_SYSCALL else th_syscall t in
  let mid := if sc =? scMsgSend then ms_mid (th_msg t) else 0 in
  queue ← prof_rd32 data (p + PROF_WAIT_QUEUE);
  obj ← waitObject sc queue args (th_set_wait true (Wait wts flags sc 0 0 mid 0) t);
  timeout ← prof_rd32 data (p + PROF_WAIT_TIMEOUT);
  pc ← (if 0 <? u_nframes u then prof_rd64 data (u_frames u) else Some (u_lr u));
  Some (Wait wts flags sc obj timeout mid pc).

Definition ev_wait (ts : Z) (data : bytes) (p : Z) (s : rep_t) : option rep_t :=
  tid ← prof_rd16 data p;
  on_thread tid s (fun t s =>
    let s := set_counts (rp_nsamples s) (u64 (rp_nwaitEvents s + 1)) (rp_lastTs s) s in
    s ← (if th_waiting t then waitEnd tid ts true s else Some s);
    t ← rp_thr s !! tid;
    w ← wait_of t ts data p;
    let t := th_set_wait true w t in
    if Z.testbit (wt_flags w) 1 then waitEnd tid ts (Z.testbit (wt_flags w) 2) (put_thr tid t s)
    else Some (put_thr tid (th_set_wake (-1) (-1) t) s)).

Definition ev_wakeup (data : bytes) (p : Z) (s : rep_t) : option rep_t :=
  tid ← prof_rd16 data p;
  on_thread tid s (fun t s =>
    waker ← prof_rd16 data (p + 2);
    c ← rd data (p + 4);
    Some (put_thr tid (th_set_wake (if c <? CAUSES - 1 then c else CAUSES - 1) waker t) s)).

Definition ev_waking (ts : Z) (data : bytes) (p : Z) (s : rep_t) : option rep_t :=
  tid ← prof_rd16 data p;
  on_thread tid s (fun t s =>
    if th_waiting t then waitEnd tid ts false s
    else Some (put_thr tid (th_set_wake (-1) (-1) t) s)).

Definition ev_send (data : bytes) (p : Z) (s : rep_t) : option rep_t :=
  tid ← prof_rd16 data p;
  let '(t, s) := thrGet tid s in
  mid ← prof_rd32 data (p + 10);
  '(m, s) ← msgFind mid true s;
  match t, m with
  | Some t, Some i =>
      port ← prof_rd32 data (p + 2);
      type ← prof_rd32 data (p + 6);
      upd_msg i (fun m => Inflight (if_mid m) tid (-1) port)
        (put_thr tid (th_set_syscall (th_syscall t) (Msg mid port type) t) s)
  | _, _ => Some s
  end.

Definition ev_recv (data : bytes) (p : Z) (s : rep_t) : option rep_t :=
  mid ← prof_rd32 data (p + 6);
  '(m, s) ← msgFind mid false s;
  match m with
  | None => Some s
  | Some i => server ← prof_rd16 data p; upd_msg i (serve server) s
  end.

Definition ev_respond (data : bytes) (p : Z) (s : rep_t) : option rep_t :=
  mid ← prof_rd32 data (p + 6);
  '(m, s) ← msgFind mid false s;
  match m with
  | None => Some s
  | Some i =>
      server ← prof_rd16 data p;
      s ← upd_msg i (serve server) s;
      x ← rd (tb_items (rp_msgs s)) i;
      let '(t, s) := thrGet (if_client x) s in
      let awaited := match t with Some t => th_waiting t && (wt_mid (th_wait t) =? if_mid x) | None => false end in
      if negb awaited then msgDrop i s else Some s
  end.

Definition process (ev : ev_t) (s : rep_t) : option rep_t :=
  let s := set_counts (rp_nsamples s) (rp_nwaitEvents s) (ev_ts ev) s in
  let data := ev_data ev in let p := ev_p ev in
  match prof_ev_of (ev_id ev) with
  | Some (EvThreadCreate | EvProcessExec) => ev_create data p s
  | Some EvSyscallEnter => ev_syscall true data p s
  | Some EvSyscallExit => ev_syscall false data p s
  | Some EvSample => ev_sample data p s
  | Some EvWait => ev_wait (ev_ts ev) data p s
  | Some EvWakeup => ev_wakeup data p s
  | Some EvWaking => ev_waking (ev_ts ev) data p s
  | Some EvMsgSend => ev_send data p s
  | Some EvMsgRecv => ev_recv data p s
  | Some EvMsgRespond => ev_respond data p s
  | _ => Some s
  end.

Definition process_all (evs : list ev_t) (s : rep_t) : option rep_t :=
  foldl (fun s ev => s ← s; process ev s) (Some s) evs.

(** Waits still open at the end of the trace, thread by thread. *)
Definition end_open (tid : Z) (s : rep_t) : option rep_t :=
  match rp_thr s !! tid with
  | Some t => if th_waiting t then waitEnd tid (rp_lastTs s) true s else Some s
  | None => Some s
  end.

Definition close_waits (s : rep_t) : option rep_t := for_loop 0 (Z.to_nat NTIDS) end_open s.
End syscalls.
