(* ===== verification/ReportSpec.v ===== *)
(** * What a report accumulates

    A log of the waits that ended and a list of the samples stand for the tables of a
    report: every event of a stream is processed without touching memory outside its
    objects, and the tables stay the aggregates of the log and of the samples. *)

From stdpp Require Import gmap sorting.
From S2P Require Import Prelude.
From S2P Require Import Event.
From S2P Require Import EventSpec.
From S2P Require Import PcHist.
From S2P Require Import PcHistSpec.
From S2P Require Import Report.

(** ** Sums over the threads *)

Definition msum (f : thr_t -> Z) (m : gmap Z thr_t) : Z := map_fold (fun _ t n => f t + n) 0 m.

Lemma msum_insert_None f m i t : m !! i = None -> msum f (<[i := t]> m) = f t + msum f m.
Proof. intros H. unfold msum. rewrite map_fold_insert_L; [done|intros; lia|done]. Qed.

Lemma msum_insert f m i t u : m !! i = Some u -> msum f (<[i := t]> m) = msum f m - f u + f t.
Proof.
  intros H. rewrite <- insert_delete_eq, msum_insert_None by apply lookup_delete_eq.
  rewrite <- (insert_id m i u H) at 2. rewrite <- insert_delete_eq, msum_insert_None by apply lookup_delete_eq. lia.
Qed.

Lemma msum_nonneg f m : (forall i t, m !! i = Some t -> 0 <= f t) -> 0 <= msum f m.
Proof.
  unfold msum. revert m. apply (map_fold_weak_ind (fun r m => (forall i t, m !! i = Some t -> 0 <= f t) -> 0 <= r)); [done|].
  intros i t m r Hi IH H. assert (0 <= f t) by (apply (H i); apply lookup_insert_eq).
  assert (0 <= r); [|lia]. apply IH. intros j u Hj. apply (H j). rewrite lookup_insert_ne; [done|]. congruence.
Qed.

(** One thread is a part of the sum. *)
Lemma msum_member f m i t : (forall i t, m !! i = Some t -> 0 <= f t) -> m !! i = Some t -> f t <= msum f m.
Proof.
  intros Hf Hi. rewrite <- (insert_id m i t Hi), <- insert_delete_eq, msum_insert_None by apply lookup_delete_eq.
  assert (0 <= msum f (delete i m)); [|lia]. apply msum_nonneg. intros j u Hj. apply (Hf j).
  apply lookup_delete_Some in Hj. tauto.
Qed.

(** ** Aggregates *)

(** Adding [l] to the aggregate it belongs to, a new one when there is none. *)
Section aggregates.
Context {L W : Type} (same : L -> W -> bool) (new : L -> W) (one : L -> W -> W).

Fixpoint add_to (l : L) (ws : list W) : list W :=
  match ws with
  | [] => [one l (new l)]
  | w :: ws => if same l w then one l w :: ws else w :: add_to l ws
  end.

Definition aggregate (ls : list L) : list W := foldl (fun ws l => add_to l ws) [] ls.

Lemma find_first_found l ws i : find_first (same l) 0 ws = Some i -> exists w,
  ws !! Z.to_nat i = Some w /\ 0 <= i < zlen ws /\ add_to l ws = <[Z.to_nat i := one l w]> ws.
Proof.
  assert (H : forall i0, 0 <= i0 -> find_first (same l) i0 ws = Some i -> i0 <= i < i0 + zlen ws /\ exists w,
    ws !! Z.to_nat (i - i0) = Some w /\ add_to l ws = <[Z.to_nat (i - i0) := one l w]> ws).
  { induction ws as [|w ws IH]; intros i0 H0; cbn [find_first add_to]; [done|]. rewrite zlen_cons. pose proof (zlen_nonneg ws).
    destruct (same l w); [intros [= <-]; split; [lia|]; exists w; by rewrite Z.sub_diag|].
    intros (Hb & w' & E1 & E2)%IH; [|lia]. split; [lia|]. exists w'.
    replace (Z.to_nat (i - i0)) with (S (Z.to_nat (i - (i0 + 1)))) by lia. simpl. by rewrite E1, E2. }
  intros E. destruct (H 0 (Z.le_refl 0) E) as (Hb & w & E1 & E2). rewrite Z.sub_0_r in *. exists w. split_and!; done || lia.
Qed.

Lemma find_first_new l ws i0 : find_first (same l) i0 ws = None -> add_to l ws = ws ++ [one l (new l)].
Proof.
  revert i0. induction ws as [|x ws IH]; intros i0; cbn [find_first add_to]; [done|]. destruct (same l x); [done|].
  intros E. simpl. f_equal. by eapply IH.
Qed.

Lemma aggregate_snoc ls l : aggregate (ls ++ [l]) = add_to l (aggregate ls).
Proof. unfold aggregate. by rewrite foldl_app. Qed.

Lemma add_to_Forall (P : W -> Prop) l ws : P (one l (new l)) -> (forall w, P w -> P (one l w)) -> Forall P ws -> Forall P (add_to l ws).
Proof.
  intros Hn Ho Hws. induction Hws as [|w ws Hw Hws IH]; cbn [add_to]; [by apply Forall_singleton|].
  destruct (same l w); constructor; auto.
Qed.
End aggregates.

(** ** The trace a report stands for

    The threads as a function of their number, the waits that ended in order, the
    messages in flight by their identifier, who waited for whom, and the time. *)

Record hop_t := Hop { hp_client : Z; hp_server : Z; hp_port : Z; hp_us : Z }.

Record trace := Trace {
  tr_thr : Z -> thr_t; tr_log : list longwait_t; tr_msgs : gmap Z inflight_t; tr_hops : list hop_t;
  tr_last : Z }.

Implicit Types (tr : trace) (log : list longwait_t) (smp : list (Z * Z)) (s : rep_t).

Definition trace_nil : trace := Trace (fun _ => thr_new) [] ∅ [] 0.
Definition set_at (tid : Z) (t : thr_t) (x : trace) : trace :=
  Trace (fun i => if i =? tid then t else tr_thr x i) (tr_log x) (tr_msgs x) (tr_hops x) (tr_last x).
Definition set_flight (M : gmap Z inflight_t) (x : trace) : trace := Trace (tr_thr x) (tr_log x) M (tr_hops x) (tr_last x).
Definition set_last (ts : Z) (x : trace) : trace := Trace (tr_thr x) (tr_log x) (tr_msgs x) (tr_hops x) ts.

Definition wait_cause (t : thr_t) (open : bool) : Z :=
  if open then CAUSES - 1 else if 0 <=? th_wakeCause t then th_wakeCause t else CAUSES - 1.

(** The record of a wait. *)
Definition wait_rec (tid ts : Z) (open : bool) (t : thr_t) : longwait_t :=
  let w := th_wait t in
  Longwait tid (wt_syscall w) (wt_obj w) (wt_ts w) (u32 (ts - wt_ts w)) (wt_timeout w) (wait_cause t open)
    (if negb open then th_waker t else -1) (Z.testbit (wt_flags w) 0) open (wt_pc w).

Definition ended (t : thr_t) : thr_t := th_set_wake (-1) (-1) (th_set_wait false (th_wait t) t).

Definition served_by (t : thr_t) (x : trace) : Z :=
  match tr_msgs x !! wt_mid (th_wait t) with Some m => if 0 <? if_server m then if_server m else th_waker t | None => th_waker t end.

(** The wait of [tid] ends at [ts]. *)
Definition tr_end (tid ts : Z) (open : bool) (x : trace) : trace :=
  let t := tr_thr x tid in
  let x' := set_at tid (ended t) x in
  let msg := negb (wt_mid (th_wait t) =? 0) in
  Trace (tr_thr x') (tr_log x ++ [wait_rec tid ts open t])
    (if msg && negb open then delete (wt_mid (th_wait t)) (tr_msgs x) else tr_msgs x)
    (if msg then tr_hops x ++ [Hop tid (served_by t x) (u32 (wt_obj (th_wait t))) (u32 (ts - wt_ts (th_wait t)))] else tr_hops x) (tr_last x).

Section events.
Context (syscallNames : list bytes).

Definition tr_wait (tid ts : Z) (data : bytes) (p : Z) (x : trace) : trace :=
  let x := if th_waiting (tr_thr x tid) then tr_end tid ts true x else x in
  let t := tr_thr x tid in
  let w := default (th_wait t) (wait_of syscallNames t ts data p) in
  let t := th_set_wait true w t in
  if Z.testbit (wt_flags w) 1 then tr_end tid ts (Z.testbit (wt_flags w) 2) (set_at tid t x)
  else set_at tid (th_set_wake (-1) (-1) t) x.

(** What an event means. *)
Definition tr_event (ev : ev_t) (x : trace) : trace :=
  let data := ev_data ev in let p := ev_p ev in
  let r8 o := default 0 (rd data (p + o)) in
  let r16 o := default 0 (prof_rd16 data (p + o)) in
  let r32 o := default 0 (prof_rd32 data (p + o)) in
  let th tid f := set_at tid (f (tr_thr x tid)) x in
  match prof_ev_of (ev_id ev) with
  | Some (EvThreadCreate | EvProcessExec) => th (r16 2) (fun t => default t (thrSetName t (r16 0) data (p + 5) 128))
  | Some EvSyscallEnter => th (r16 1) (fun t => th_set_syscall (r8 0) (Msg 0 (ms_port (th_msg t)) (ms_type (th_msg t))) t)
  | Some EvSyscallExit => th (r16 1) (fun t => th_set_syscall NO_SYSCALL (Msg 0 (ms_port (th_msg t)) (ms_type (th_msg t))) t)
  | Some EvSample => if 2 <? r8 PROF_SAMPLE_MODE then x
      else th (r16 0) (fun t => th_set_samples (default [] (inc_at 32 (th_samples t) (r8 PROF_SAMPLE_MODE))) t)
  | Some EvWait => tr_wait (r16 0) (ev_ts ev) data p x
  | Some EvWakeup => th (r16 0) (th_set_wake (if r8 4 <? CAUSES - 1 then r8 4 else CAUSES - 1) (r16 2))
  | Some EvWaking =>
      if th_waiting (tr_thr x (r16 0)) then tr_end (r16 0) (ev_ts ev) false x else th (r16 0) (th_set_wake (-1) (-1))
  | Some EvMsgSend =>
      set_flight (<[r32 10 := Inflight (r32 10) (r16 0) (-1) (r32 2)]> (tr_msgs x))
        (th (r16 0) (fun t => th_set_syscall (th_syscall t) (Msg (r32 10) (r32 2) (r32 6)) t))
  | Some EvMsgRecv => set_flight (alter (serve (r16 0)) (r32 6) (tr_msgs x)) x
  | Some EvMsgRespond =>
      match tr_msgs x !! r32 6 with
      | None => x
      | Some m =>
          let t := tr_thr x (if_client m) in
          if th_waiting t && (wt_mid (th_wait t) =? r32 6) then set_flight (<[r32 6 := serve (r16 0) m]> (tr_msgs x)) x
          else set_flight (delete (r32 6) (tr_msgs x)) x
      end
  | _ => x
  end.

Definition is_wait (ev : ev_t) : bool := match prof_ev_of (ev_id ev) with Some EvWait => true | _ => false end.

(** The thread and the program counter of a sample. *)
Definition sample_of (ev : ev_t) : option (Z * Z) :=
  match prof_ev_of (ev_id ev) with
  | Some EvSample =>
      tid ← prof_rd16 (ev_data ev) (ev_p ev);
      mode ← rd (ev_data ev) (ev_p ev + PROF_SAMPLE_MODE);
      if 2 <? mode then None
      else
        nk ← rd (ev_data ev) (ev_p ev + PROF_SAMPLE_NK);
        u ← urecParse (ev_data ev) (ev_p ev + (PROF_SAMPLE_KFRAMES + nk * 8));
        pc ← (if mode =? 0 then Some (u_pc u) else prof_rd64 (ev_data ev) (ev_p ev + PROF_SAMPLE_KPC));
        Some (tid, pc)
  | _ => None
  end.

Definition tr_events (evs : list ev_t) : trace := foldl (fun x ev => tr_event ev (set_last (ev_ts ev) x)) trace_nil evs.
Definition samples_of (evs : list ev_t) : list (Z * Z) := omap sample_of evs.
End events.

(** The aggregates of the waits. *)
Definition same_wait (l : longwait_t) (w : waitagg_t) : bool :=
  (wa_tid w =? lw_tid l) && (wa_syscall w =? lw_syscall l) && (wa_obj w =? lw_obj l).
Definition agg_new (l : longwait_t) : waitagg_t := Waitagg (lw_tid l) (lw_syscall l) (lw_obj l) 0 0 0 [0; 0; 0; 0; 0] (-1).
Definition agg_one (l : longwait_t) (w : waitagg_t) : waitagg_t :=
  default w (agg_wait (lw_us l) (lw_cause l) (lw_waker l) (lw_open l) w).
Definition agg_table : list longwait_t -> list waitagg_t := aggregate same_wait agg_new agg_one.

(** The aggregates of the edges. *)
Definition same_edge (h : hop_t) (e : edge_t) : bool :=
  (ed_client e =? hp_client h) && (ed_server e =? hp_server h) && (ed_port e =? hp_port h).
Definition edge_new (h : hop_t) : edge_t := Edge (hp_client h) (hp_server h) (hp_port h) 0 0 0.
Definition edge_table : list hop_t -> list edge_t := aggregate same_edge edge_new (fun h => agg_edge (hp_us h)).

(** The longest first; of equally long ones, the earlier first. *)
Fixpoint long_insert (l : longwait_t) (ls : list longwait_t) : list longwait_t :=
  match ls with
  | [] => [l]
  | x :: ls => if lw_us x <? lw_us l then l :: x :: ls else x :: long_insert l ls
  end.

Definition long_sorted log : list longwait_t := foldl (fun ls l => long_insert l ls) [] log.

(** ** The invariant *)

Definition tbl_ok {A} (t : tbl A) : Prop := tb_cap t = tb_alloc t /\ zlen (tb_items t) <= tb_alloc t.

Definition thr_ok (tid : Z) (t : thr_t) : Prop :=
  0 <= tid < NTIDS /\ zlen (th_samples t) = 3 /\ Forall (Z.le 0) (th_samples t) /\ -1 <= th_wakeCause t < CAUSES.

Definition lw_ok (l : longwait_t) : Prop := 0 <= lw_us l < 2 ^ 32 /\ 0 <= lw_cause l < CAUSES.

Definition hop_ok (h : hop_t) : Prop := 0 <= hp_us h < 2 ^ 32.

Definition waiting (t : thr_t) : Z := Z.b2z (th_waiting t).
Definition in_mode (i : nat) (t : thr_t) : Z := default 0 (th_samples t !! i).

Definition bumps smp : gmap Z Z := foldl (fun M tv => bump (pcKey tv.1 tv.2) M) ∅ smp.

(** The messages in flight, in any order. *)
Definition msgs_rep (l : list inflight_t) (M : gmap Z inflight_t) : Prop :=
  NoDup (if_mid <$> l) /\ (forall k m, M !! k = Some m <-> m ∈ l /\ if_mid m = k) /\
  (forall k m, M !! k = Some m -> 0 <= if_client m < NTIDS).

(** The reasons to be in the kernel are small numbers. *)
Definition entries_named (M : gmap Z Z) : Prop := forall k c, M !! k = Some c -> 0 <= pcValue k <= ENTRY_UNKNOWN.

(** The state [s] after the trace [tr] with [n] waits begun and the samples [smp]; [d] is
    how many waits neither last nor are in the log. *)
Record rep_wf (d n : Z) tr smp s : Prop := {
  wf_mem : rp_mem s = [];
  wf_thr : forall tid t, rp_thr s !! tid = Some t -> thr_ok tid t;
  wf_at : forall tid, 0 <= tid < NTIDS -> tr_thr tr tid = default thr_new (rp_thr s !! tid);
  wf_pcs : hist_ok (rp_pcs s) (bumps smp);
  wf_kentry : exists M, hist_ok (rp_kentry s) M /\ entries_named M;
  wf_kcaller : exists M, hist_ok (rp_kcaller s) M;
  wf_waits : tbl_ok (rp_waits s) /\ tb_items (rp_waits s) = agg_table (tr_log tr);
  wf_edges : tbl_ok (rp_edges s) /\ tb_items (rp_edges s) = edge_table (tr_hops tr);
  wf_msgs : tbl_ok (rp_msgs s) /\ msgs_rep (tb_items (rp_msgs s)) (tr_msgs tr);
  wf_longest : zlen (rp_longest s) = NLONGEST /\ rp_nlongest s = Z.min (zlen (tr_log tr)) NLONGEST;
  wf_long : take (Z.to_nat (rp_nlongest s)) (rp_longest s) = take 64 (long_sorted (tr_log tr));
  wf_last : rp_lastTs s = tr_last tr;
  wf_log : Forall lw_ok (tr_log tr);
  wf_hops : Forall hop_ok (tr_hops tr) /\ zlen (tr_hops tr) <= zlen (tr_log tr);
  wf_n : rp_nwaitEvents s = n;
  wf_waiting : zlen (tr_log tr) + msum waiting (rp_thr s) = n + d;
  wf_nsamples : zlen (rp_nsamples s) = 3;
  wf_modes : forall i, (i < 3)%nat -> rp_nsamples s !! i = Some (msum (in_mode i) (rp_thr s));
  wf_smp : msum (in_mode 0) (rp_thr s) + msum (in_mode 1) (rp_thr s) + msum (in_mode 2) (rp_thr s) = zlen smp }.

Lemma tbl_push_ok {A} first (x : A) t : 0 < first -> tbl_ok t -> exists t',
  tbl_push first x t [] = Some (Some (zlen (tb_items t)), t', []) /\ tb_items t' = tb_items t ++ [x] /\ tbl_ok t'.
Proof.
  intros Hf [Hc Hl]. unfold tbl_push. pose proof (zlen_nonneg (tb_items t)).
  destruct (Z.eqb_spec (zlen (tb_items t)) (tb_cap t)) as [E|E]; cbn [alloc].
  - set (cap := if tb_cap t =? 0 then first else tb_cap t * 2).
    assert (Hcap : zlen (tb_items t) < cap) by (unfold cap; destruct (Z.eqb_spec (tb_cap t) 0); lia).
    cbn [tb_alloc tb_items set_items]. destruct (Z.ltb_spec (zlen (tb_items t)) cap); [|lia].
    eexists. split; [done|]. split; [done|]. split; [done|]. simpl. zlia.
  - destruct (Z.ltb_spec (zlen (tb_items t)) (tb_alloc t)); [|lia].
    eexists. split; [done|]. split; [done|]. split; [done|]. simpl. zlia.
Qed.

(** ** Reading events *)

Lemma rd64_ok data o : bytes_ok data -> 0 <= o -> o + 8 <= zlen data -> exists x, prof_rd64 data o = Some x.
Proof.
  intros Hd Ho Hl. unfold prof_rd64. destruct (rd32_ok data o Hd) as (a & -> & _); [lia..|].
  destruct (rd32_ok data (o + 4) Hd) as (b & -> & _); [lia..|]. by eexists.
Qed.

(** An event as the parser of the streams accepts it. *)
Definition ev_ok (ev : ev_t) : Prop :=
  bytes_ok (ev_data ev) /\ 0 <= ev_p ev /\ 0 < ev_len ev /\ ev_p ev + ev_len ev <= zlen (ev_data ev) /\
  0 <= ev_ts ev < 2 ^ 32 /\
  exists avail, prof_evSize (ev_id ev) (ev_data ev) (ev_p ev) avail = Some (ev_len ev).

Lemma ev_fixed_len ev e sz : ev_ok ev -> prof_ev_of (ev_id ev) = Some e -> ev_fixed e = Some sz -> ev_len ev = sz.
Proof.
  intros (_ & _ & Hl & _ & _ & avail & E) He Hs. unfold prof_evSize in E. rewrite He, Hs in E.
  destruct (avail <? sz); simplify_eq; [lia|done].
Qed.

(** The user part of a sample or a wait, behind the kernel frames. *)
Lemma urec_ok data p r avail frames nk : bytes_ok data -> 0 <= p -> 0 < r -> p + r <= zlen data -> 0 <= nk < frames ->
  (if avail <? frames then Some 0 else k ← rd data (p + nk); urecEnd data p avail (frames + k * 8)) = Some r ->
  frames <= r /\ exists k u, rd data (p + nk) = Some k /\ urecParse data (p + (frames + k * 8)) = Some u /\
    0 <= u_frames u /\ (0 < u_nframes u -> u_frames u + 8 <= zlen data).
Proof.
  intros Hd Hp Hr Hl Hnk E. destruct (avail <? frames); [simplify_eq; lia|]. obind E. rename x into k, E0 into Ek.
  assert (Hbyte : forall i v, rd data i = Some v -> 0 <= v < 256).
  { intros i v Ev. destruct (rd_byte data i Hd) as (b & Eb & ?); [apply rd_is_Some; eauto|congruence]. }
  pose proof (Hbyte _ _ Ek) as Hk. unfold urecEnd in E.
  destruct (avail <? frames + k * 8 + 33); [simplify_eq; lia|]. obind E. rename x into nf, E0 into Enf.
  pose proof (Hbyte _ _ Enf) as Hnf.
  destruct (avail <? frames + k * 8 + 33 + nf * 8 + 2); [simplify_eq; lia|]. obind E. rename x into ns, E0 into Ens.
  assert (Hns : 0 <= ns).
  { unfold prof_rd16 in Ens. obind Ens. rename x into a, E0 into Ea. obind Ens. rename x into b, E0 into Eb. simplify_eq.
    pose proof (Hbyte _ _ Ea). pose proof (Hbyte _ _ Eb). lia. }
  destruct (avail <? frames + k * 8 + 33 + nf * 8 + 2 + ns * 8); [simplify_eq; lia|]. injection E as <-.
  split; [lia|]. exists k. unfold urecParse.
  destruct (rd64_ok data (p + (frames + k * 8)) Hd) as [pc ->]; [lia..|].
  destruct (rd64_ok data (p + (frames + k * 8) + 8) Hd) as [lr ->]; [lia..|].
  destruct (rd64_ok data (p + (frames + k * 8) + 16) Hd) as [sp ->]; [lia..|].
  destruct (rd64_ok data (p + (frames + k * 8) + 24) Hd) as [fp ->]; [lia..|]. cbn [mbind option_bind].
  rewrite Z.add_assoc in Enf. replace (p + (frames + k * 8) + 32) with (p + frames + k * 8 + 32) by lia. rewrite Enf. cbn [mbind option_bind].
  replace (p + (frames + k * 8) + 33 + nf * 8) with (p + (frames + k * 8 + 33 + nf * 8)) by lia. rewrite Ens. cbn [mbind option_bind].
  eexists. split; [done|]. split; [done|]. simpl. lia.
Qed.

(** ** Threads *)

(** A thread changes, without its samples. *)
Lemma put_thr_wf d d' n tr smp s tid t t' : rep_wf d n tr smp s -> rp_thr s !! tid = Some t -> thr_ok tid t' ->
  th_samples t' = th_samples t -> d' = d + waiting t' - waiting t -> rep_wf d' n (set_at tid t' tr) smp (put_thr tid t' s).
Proof.
  intros [] Ht Hok Hsm ->.
  assert (Hmode : forall i, msum (in_mode i) (<[tid := t']> (rp_thr s)) = msum (in_mode i) (rp_thr s)).
  { intros i. rewrite (msum_insert _ _ _ _ _ Ht). unfold in_mode at 2 3. rewrite Hsm. lia. }
  split; try done; unfold put_thr, set_thr, set_at; cbn [rp_thr rp_nsamples tr_thr tr_log].
  - intros tid' u. rewrite lookup_insert. case_decide as E; [intros [= <-]; by subst|]. by apply wf_thr0.
  - intros tid' Hr. rewrite lookup_insert. destruct (Z.eqb_spec tid' tid) as [->|Hne]; [by rewrite decide_True by done|].
    rewrite decide_False by congruence. by apply wf_at0.
  - rewrite (msum_insert _ _ _ _ _ Ht). lia.
  - intros i Hi. rewrite Hmode. by apply wf_modes0.
  - by rewrite !Hmode.
Qed.

Lemma thr_new_ok tid : 0 <= tid < NTIDS -> thr_ok tid thr_new.
Proof. intros. unfold thr_ok, thr_new, CAUSES; simpl. split_and!; try lia; try done. repeat constructor; lia. Qed.

Lemma thrGet_ok d n tr smp s tid : rep_wf d n tr smp s -> 0 <= tid < NTIDS -> exists s',
  thrGet tid s = (Some (tr_thr tr tid), s') /\ rep_wf d n tr smp s' /\ rp_thr s' !! tid = Some (tr_thr tr tid) /\ rp_msgs s' = rp_msgs s.
Proof.
  intros Hwf Ht. unfold thrGet. destruct (Z.ltb_spec tid 0); [lia|]. destruct (Z.leb_spec NTIDS tid); [lia|]. cbn [orb].
  rewrite (wf_at _ _ _ _ _ Hwf tid Ht). destruct (rp_thr s !! tid) as [t|] eqn:E; [by exists s|]. rewrite (wf_mem _ _ _ _ _ Hwf). cbn [alloc].
  eexists. split; [done|]. split; [|split; [apply lookup_insert_eq|done]]. destruct Hwf. split; try done; cbn [set_thr set_mem rp_thr rp_nsamples].
  - intros tid' u. rewrite lookup_insert. case_decide as Ed; [intros [= <-]; subst; by apply thr_new_ok|]. by apply wf_thr0.
  - intros tid' Hr. rewrite wf_at0, lookup_insert by done. case_decide as Ed; [subst; by rewrite E|done].
  - rewrite msum_insert_None by done. done.
  - intros i Hi. rewrite msum_insert_None by done. rewrite wf_modes0 by done. f_equal. by destruct i as [|[|[|i]]]; [..|lia].
  - rewrite !msum_insert_None by done. done.
Qed.

Lemma on_thread_ok d n tr smp s tid f (Q : option rep_t -> Prop) : rep_wf d n tr smp s -> 0 <= tid < 65536 ->
  (forall s', rep_wf d n tr smp s' -> rp_thr s' !! tid = Some (tr_thr tr tid) -> thr_ok tid (tr_thr tr tid) -> Q (f (tr_thr tr tid) s')) ->
  Q (on_thread tid s f).
Proof.
  intros Hwf Ht Hf. unfold on_thread. destruct (thrGet_ok d n tr smp s tid Hwf Ht) as (s' & -> & Hwf' & E & _).
  apply Hf; [done..|]. by apply (wf_thr _ _ _ _ _ Hwf').
Qed.

(** ** The end of a wait *)

Lemma rd_of_lookup {A} (l : list A) (i : nat) x : l !! i = Some x -> rd l (Z.of_nat i) = Some x.
Proof. intros E. unfold rd. destruct (Z.leb_spec 0 (Z.of_nat i)); [|lia]. by rewrite Nat2Z.id. Qed.
Lemma wr_of_lookup {A} (l : list A) (i : nat) x y : l !! i = Some x -> wr l (Z.of_nat i) y = Some (<[i := y]> l).
Proof.
  intros E%lookup_lt_Some. unfold wr, zlen. destruct (Z.leb_spec 0 (Z.of_nat i)); [|lia].
  destruct (Z.ltb_spec (Z.of_nat i) (Z.of_nat (length l))); [|lia]. by rewrite Nat2Z.id.
Qed.

Definition causes_ok (w : waitagg_t) : Prop := zlen (wa_causes w) = CAUSES.

Lemma agg_wait_ok l w : 0 <= lw_cause l < CAUSES -> causes_ok w ->
  agg_wait (lw_us l) (lw_cause l) (lw_waker l) (lw_open l) w = Some (agg_one l w) /\ causes_ok (agg_one l w).
Proof.
  intros Hc Hw. unfold agg_one, agg_wait. destruct (lw_open l); [by split|].
  destruct (proj2 (rd_is_Some (wa_causes w) (lw_cause l))) as [c ->]; [unfold causes_ok in Hw; lia|]. cbn [mbind option_bind].
  destruct (proj2 (wr_is_Some (wa_causes w) (lw_cause l) (u32 (c + 1)))) as [cs E]; [unfold causes_ok in Hw; lia|]. rewrite E.
  split; [done|]. unfold causes_ok in *. simpl. apply wr_zlen in E. lia.
Qed.

Lemma agg_table_causes log : Forall lw_ok log -> Forall causes_ok (agg_table log).
Proof.
  unfold agg_table. induction log as [|l log IH] using rev_ind; [constructor|]. intros [Hl [[_ Hc] _]%Forall_cons]%Forall_app.
  rewrite aggregate_snoc. apply add_to_Forall; [by apply agg_wait_ok|intros; by apply agg_wait_ok|by apply IH].
Qed.

(** The aggregates of the waits, with one more wait. *)
Lemma end_agg_ok s l w : rp_mem s = [] -> tbl_ok (rp_waits s) -> Forall causes_ok (tb_items (rp_waits s)) ->
  0 <= lw_cause l < CAUSES -> lw_syscall l = wt_syscall w -> lw_obj l = wt_obj w -> exists t,
  end_agg (lw_tid l) w (lw_us l) (lw_cause l) (lw_waker l) (lw_open l) s = Some (set_waits t [] s) /\
  tbl_ok t /\ tb_items t = add_to same_wait agg_new agg_one l (tb_items (rp_waits s)).
Proof.
  intros Hm Hok Hcs Hc Hsc Hobj. unfold end_agg, waitAgg. rewrite <- Hsc, <- Hobj.
  change (fun w0 => _ && _ && _) with (same_wait l). destruct (find_first _ 0 _) as [i|] eqn:Ef.
  - cbn [mbind option_bind]. apply (find_first_found same_wait agg_new agg_one) in Ef as (a & Ei & Hi & ->).
    assert (Er : rd (tb_items (rp_waits s)) i = Some a) by (unfold rd; by destruct (Z.leb_spec 0 i); [|lia]). rewrite Er. cbn [mbind option_bind].
    destruct (agg_wait_ok l a) as [-> _]; [done|by eapply Forall_lookup_1|]. cbn [mbind option_bind].
    pose proof (wr_of_lookup _ _ _ (agg_one l a) Ei) as Ew. rewrite Z2Nat.id in Ew by lia. rewrite Ew. cbn [mbind option_bind]. rewrite Hm.
    eexists. split; [done|]. split; [|done]. destruct Hok. split; [done|]. simpl. zlia.
  - rewrite Hm. destruct (tbl_push_ok 256 (agg_new l) (rp_waits s)) as (t & Et & Hit & Ht); [lia|done|]. unfold agg_new in Et.
    rewrite Et. cbn [mbind option_bind]. cbn [set_waits rp_waits]. rewrite Hit.
    rewrite (rd_app (tb_items (rp_waits s)) (agg_new l) []) by done. cbn [mbind option_bind].
    destruct (agg_wait_ok l (agg_new l)) as [-> _]; [done|done|]. cbn [mbind option_bind].
    rewrite (wr_app (tb_items (rp_waits s)) (agg_new l) _ []) by done. cbn [mbind option_bind].
    eexists. split; [done|]. rewrite (find_first_new _ _ _ _ _ _ Ef). split; [|done]. destruct Ht as [Ht1 Ht2]. split; [done|]. simpl. rewrite Hit in Ht2. zlia.
Qed.

(** ** Messages and edges *)

Lemma find_last_some {A} (p : A -> bool) l : forall i0 j, find_last p i0 l = Some j ->
  i0 <= j < i0 + zlen l /\ exists m, l !! Z.to_nat (j - i0) = Some m /\ p m = true.
Proof.
  induction l as [|m l IH]; intros i0 j; cbn [find_last]; [done|]. rewrite zlen_cons. pose proof (zlen_nonneg l).
  destruct (find_last p (i0 + 1) l) as [j'|] eqn:E.
  - intros [= <-]. apply IH in E as (Hb & m' & E1 & E2). split; [lia|]. exists m'. split; [|done].
    by replace (Z.to_nat (j' - i0)) with (S (Z.to_nat (j' - (i0 + 1)))) by lia.
  - destruct (p m) eqn:Ep; [|done]. intros [= <-]. split; [lia|]. exists m. by rewrite Z.sub_diag.
Qed.

Lemma find_last_none {A} (p : A -> bool) l : forall i0, find_last p i0 l = None -> Forall (fun m => p m = false) l.
Proof.
  induction l as [|m l IH]; intros i0; cbn [find_last]; [done|]. destruct (find_last p (i0 + 1) l) eqn:E; [done|].
  destruct (p m) eqn:Ep; [done|]. constructor; [done|]. by eapply IH.
Qed.

Section in_flight.
Context (l : list inflight_t) (M : gmap Z inflight_t) (HM : msgs_rep l M).

Lemma rep_find mid : match find_last (fun m => if_mid m =? mid) 0 l with
  | Some i => exists m, 0 <= i < zlen l /\ l !! Z.to_nat i = Some m /\ M !! mid = Some m /\ if_mid m = mid
  | None => M !! mid = None end.
Proof.
  destruct HM as (_ & Hin & _). destruct (find_last _ 0 l) as [i|] eqn:E.
  - apply find_last_some in E as (Hb & m & E & Hm). rewrite Z.sub_0_r in E. exists m. bprop.
    split_and!; [lia|lia|done|apply Hin; split; [by eapply list_elem_of_lookup_2|done]|done].
  - apply find_last_none in E. destruct (M !! mid) as [m|] eqn:Em; [|done]. apply Hin in Em as [Hm <-].
    rewrite Forall_forall in E. apply E in Hm. bprop. done.
Qed.

Lemma rep_push m : M !! if_mid m = None -> 0 <= if_client m < NTIDS -> msgs_rep (l ++ [m]) (<[if_mid m := m]> M).
Proof.
  destruct HM as (Hnd & Hin & Hcl). intros Hnone Hc. split_and!.
  - rewrite fmap_app. apply NoDup_app. split_and!; [done| |by apply NoDup_singleton].
    intros k (m' & -> & Hm')%list_elem_of_fmap E%list_elem_of_singleton.
    assert (M !! if_mid m' = Some m') by (by apply Hin). congruence.
  - intros k m'. rewrite lookup_insert, elem_of_app, list_elem_of_singleton. case_decide as Hd.
    + split; [intros [= <-]; auto|]. intros [[Hm| ->] E]; [|done]. assert (M !! k = Some m') by (by apply Hin). congruence.
    + rewrite Hin. split; [intros [? ?]; auto|]. intros [[Hm| ->] E]; done.
  - intros k m'. rewrite lookup_insert. case_decide; [intros [= <-]; done|]. apply Hcl.
Qed.

Lemma rep_set i m m' : l !! i = Some m -> if_mid m' = if_mid m -> 0 <= if_client m' < NTIDS ->
  msgs_rep (<[i := m']> l) (<[if_mid m := m']> M).
Proof.
  destruct HM as (Hnd & Hin & Hcl). intros Hi Hmid Hc. pose proof (lookup_lt_Some _ _ _ Hi) as Hlt.
  assert (Hnd' : if_mid <$> <[i := m']> l = if_mid <$> l).
  { rewrite list_fmap_insert, Hmid. apply list_insert_id. by rewrite list_lookup_fmap, Hi. }
  split_and!; [by rewrite Hnd'| |].
  - intros k x. rewrite lookup_insert. case_decide as Hd.
    + split.
      * intros [= <-]. split; [|congruence]. apply list_elem_of_insert. done.
      * intros [(j & Ej)%list_elem_of_lookup E]. f_equal. destruct (decide (i = j)) as [<-|Hne].
        { rewrite list_lookup_insert_eq in Ej by done. congruence. }
        rewrite list_lookup_insert_ne in Ej by done. exfalso. apply Hne. eapply (NoDup_lookup _ _ _ k Hnd); rewrite list_lookup_fmap.
        { rewrite Hi. simpl. congruence. } { rewrite Ej. simpl. congruence. }
    + rewrite Hin. split; intros [(j & Ej)%list_elem_of_lookup E]; (split; [|done]).
      * apply list_elem_of_lookup. exists j. rewrite list_lookup_insert_ne; [done|]. intros ->. congruence.
      * destruct (decide (i = j)) as [<-|Hne]; [rewrite list_lookup_insert_eq in Ej by done; congruence|].
        rewrite list_lookup_insert_ne in Ej by done. by eapply list_elem_of_lookup_2.
  - intros k x. rewrite lookup_insert. case_decide; [intros [= <-]; done|]. apply Hcl.
Qed.

(** Moving the last message into the place of message [i]. *)
Lemma rep_drop i m last : l !! i = Some m -> l !! (length l - 1)%nat = Some last ->
  msgs_rep (take (length l - 1) (<[i := last]> l)) (delete (if_mid m) M).
Proof.
  destruct HM as (Hnd & Hin & Hcl). intros Hi Hlast. pose proof (lookup_lt_Some _ _ _ Hi) as Hlt.
  assert (Hperm : m :: take (length l - 1) (<[i := last]> l) ≡ₚ l).
  { destruct l as [|m0 l0 _] using rev_ind; [done|]. rewrite length_app in *. simpl in *.
    replace (length l0 + 1 - 1)%nat with (length l0) in * by lia. rewrite list_lookup_middle in Hlast by done. injection Hlast as ->.
    destruct (decide (i = length l0)) as [->|Hne].
    - rewrite list_lookup_middle in Hi by done. injection Hi as ->. rewrite insert_app_r_alt, Nat.sub_diag by lia. simpl.
      rewrite take_app_length. by rewrite Permutation_cons_append.
    - rewrite insert_app_l, take_app_length' by (rewrite ?length_insert; lia). rewrite lookup_app_l in Hi by lia.
      assert (E : forall A B, m :: A ++ last :: B ≡ₚ (A ++ m :: B) ++ [last]).
      { intros A B. rewrite <- Permutation_cons_append, <- !Permutation_middle. apply Permutation_swap. }
      rewrite insert_take_drop, E, take_drop_middle by (done || lia). done. }
  assert (Hnd' : NoDup (if_mid <$> m :: take (length l - 1) (<[i := last]> l))) by (by rewrite Hperm).
  simpl in Hnd'. apply NoDup_cons in Hnd' as [Hm Hnd']. split_and!; [done| |].
  - intros k x. assert (Hx : x ∈ l <-> x = m \/ x ∈ take (length l - 1) (<[i:=last]> l)) by (by rewrite <- elem_of_cons, Hperm).
    rewrite lookup_delete_Some, Hin, Hx. split; [intros (Hne & [->|Hx'] & E); [congruence|done]|].
    intros [Hx' E]. split_and!; [|by right|done]. intros <-. apply Hm. rewrite <- E. by apply list_elem_of_fmap_2.
  - intros k x [_ Hx]%lookup_delete_Some. by eapply Hcl.
Qed.
End in_flight.

(** The tables of messages and edges in a state. *)
Definition tables_ok (M : gmap Z inflight_t) (hops : list hop_t) s : Prop :=
  rp_mem s = [] /\ (tbl_ok (rp_edges s) /\ tb_items (rp_edges s) = edge_table hops) /\
  (tbl_ok (rp_msgs s) /\ msgs_rep (tb_items (rp_msgs s)) M).

Definition with_tables (e : tbl edge_t) (m : tbl inflight_t) s : rep_t := set_msgs m [] (set_edges e [] s).

Lemma with_tables_id s : rp_mem s = [] -> with_tables (rp_edges s) (rp_msgs s) s = s.
Proof. destruct s. simpl. by intros ->. Qed.

Lemma tbl_ok_items {A} (t : tbl A) l : tbl_ok t -> zlen l <= zlen (tb_items t) -> tbl_ok (set_items l t).
Proof. intros [H1 H2] Hl. split; [done|]. simpl. lia. Qed.

Lemma rd_to_nat {A} (l : list A) i x : 0 <= i -> l !! Z.to_nat i = Some x -> rd l i = Some x.
Proof. intros Hi E. pose proof (rd_of_lookup _ _ _ E) as H. by rewrite Z2Nat.id in H. Qed.
Lemma wr_to_nat {A} (l : list A) i x y : 0 <= i -> l !! Z.to_nat i = Some x -> wr l i y = Some (<[Z.to_nat i := y]> l).
Proof. intros Hi E. pose proof (wr_of_lookup _ _ _ y E) as H. by rewrite Z2Nat.id in H. Qed.

Section messages.
Context (M : gmap Z inflight_t) (hops : list hop_t).

Lemma msgFind_ok s mid create : tables_ok M hops s ->
  match M !! mid with
  | Some m => exists i, msgFind mid create s = Some (Some i, s) /\ 0 <= i /\ tb_items (rp_msgs s) !! Z.to_nat i = Some m /\ if_mid m = mid
  | None =>
      if create then exists t, msgFind mid true s = Some (Some (zlen (tb_items (rp_msgs s))), set_msgs t [] s) /\ tbl_ok t /\
        tb_items t = tb_items (rp_msgs s) ++ [Inflight mid (-1) (-1) 0]
      else msgFind mid false s = Some (None, s)
  end.
Proof.
  intros (Hm & _ & Ht & HM). unfold msgFind. pose proof (rep_find _ _ HM mid) as Hf.
  destruct (find_last _ 0 _) as [i|].
  - destruct Hf as (m & Hi & E & -> & Hmid). exists i. split_and!; done || lia.
  - rewrite Hf. destruct create; [|done]. cbn [negb]. rewrite Hm.
    destruct (tbl_push_ok 64 (Inflight mid (-1) (-1) 0) (rp_msgs s)) as (t & -> & Hit & Ht'); [lia|done|]. by exists t.
Qed.

Lemma upd_msg_ok s i m f : tables_ok M hops s -> 0 <= i -> tb_items (rp_msgs s) !! Z.to_nat i = Some m -> if_mid (f m) = if_mid m ->
  0 <= if_client (f m) < NTIDS ->
  exists t, upd_msg i f s = Some (set_msgs t [] s) /\ tables_ok (<[if_mid m := f m]> M) hops (set_msgs t [] s) /\
    tb_items t !! Z.to_nat i = Some (f m).
Proof.
  intros (Hm & He & Ht & HM) Hi E Hmid Hc. unfold upd_msg. rewrite (rd_to_nat _ _ _ Hi E). cbn [mbind option_bind].
  rewrite (wr_to_nat _ _ _ _ Hi E), Hm. cbn [mbind option_bind]. eexists. split; [done|]. split.
  - split_and!; [done|by destruct He..| |].
    + apply tbl_ok_items; [done|]. by rewrite zlen_insert.
    + by apply rep_set.
  - simpl. apply list_lookup_insert_eq. by eapply lookup_lt_Some.
Qed.

Lemma msgDrop_ok s i m : tables_ok M hops s -> 0 <= i -> tb_items (rp_msgs s) !! Z.to_nat i = Some m ->
  exists t, msgDrop i s = Some (set_msgs t [] s) /\ tables_ok (delete (if_mid m) M) hops (set_msgs t [] s).
Proof.
  intros (Hm & He & Ht & HM) Hi E. unfold msgDrop. pose proof (lookup_lt_Some _ _ _ E) as Hlt.
  destruct (lookup_lt_is_Some_2 (tb_items (rp_msgs s)) (length (tb_items (rp_msgs s)) - 1)) as [x Ex]; [lia|].
  assert (Hn : Z.to_nat (zlen (tb_items (rp_msgs s)) - 1) = (length (tb_items (rp_msgs s)) - 1)%nat) by (unfold zlen; lia).
  rewrite (rd_to_nat _ _ x) by (rewrite ?Hn; done || unfold zlen; lia). cbn [mbind option_bind].
  rewrite (wr_to_nat _ _ _ _ Hi E), Hm. cbn [mbind option_bind]. rewrite Hn. eexists. split; [done|].
  split_and!; [done|by destruct He..| |].
  - apply tbl_ok_items; [done|]. rewrite zlen_take, zlen_insert. lia.
  - by apply rep_drop.
Qed.

Lemma edgeGet_ok s h : tables_ok M hops s -> exists e i t,
  edgeGet (hp_client h) (hp_server h) (hp_port h) s = Some (Some i, set_edges t [] s) /\ 0 <= i /\ tb_items t !! Z.to_nat i = Some e /\
  tbl_ok t /\ <[Z.to_nat i := agg_edge (hp_us h) e]> (tb_items t) = edge_table (hops ++ [h]).
Proof.
  intros (Hm & [He Eh] & _ & HM). unfold edgeGet, edge_table. rewrite aggregate_snoc. fold edge_table. rewrite <- Eh.
  change (fun e => _ && _ && _) with (same_edge h). destruct (find_first _ 0 _) as [i|] eqn:Ef.
  - apply (find_first_found same_edge edge_new (fun h => agg_edge (hp_us h))) in Ef as (e & E & Hi & Ea).
    exists e, i, (rp_edges s). split; [by destruct s; simpl in *; subst|]. split_and!; [lia|done..|]. by rewrite Ea.
  - rewrite Hm. destruct (tbl_push_ok 128 (edge_new h) (rp_edges s)) as (t & Et & Hit & Ht); [lia|done|]. unfold edge_new in Et.
    rewrite Et. cbn [mbind option_bind]. exists (edge_new h), (zlen (tb_items (rp_edges s))), t. pose proof (zlen_nonneg (tb_items (rp_edges s))).
    split; [done|]. rewrite Hit. unfold zlen. rewrite Nat2Z.id. split_and!; [lia|by apply list_lookup_middle|done|].
    rewrite (find_first_new same_edge edge_new (fun h => agg_edge (hp_us h)) _ _ _ Ef). by rewrite insert_middle.
Qed.
End messages.

Lemma end_edge_ok s M hops tid w us waker open : tables_ok M hops s ->
  let msg := negb (wt_mid w =? 0) in
  let server := match M !! wt_mid w with Some m => if 0 <? if_server m then if_server m else waker | None => waker end in
  exists e m, end_edge tid w us waker open s = Some (with_tables e m s) /\
    tables_ok (if msg && negb open then delete (wt_mid w) M else M)
      (if msg then hops ++ [Hop tid server (u32 (wt_obj w)) us] else hops) (with_tables e m s).
Proof.
  intros Hok msg server. unfold end_edge. fold msg. destruct msg.
  2:{ exists (rp_edges s), (rp_msgs s). rewrite with_tables_id by apply Hok. done. }
  pose proof (msgFind_ok M hops s (wt_mid w) false Hok) as Hf. unfold server. clear server.
  destruct (M !! wt_mid w) as [m|] eqn:EM.
  - destruct Hf as (i & -> & Hi & Ei & Hmid). cbn [mbind option_bind]. rewrite (rd_to_nat _ _ _ Hi Ei). cbn [mbind option_bind].
    set (h := Hop tid (if 0 <? if_server m then if_server m else waker) (u32 (wt_obj w)) us).
    destruct (edgeGet_ok M hops s h Hok) as (e & j & t & Eg & Hj & Ee & Ht & Ea). unfold h in Eg at 1 2 3. cbn [hp_client hp_server hp_port] in Eg.
    rewrite Eg. cbn [mbind option_bind set_edges rp_edges]. rewrite (rd_to_nat _ _ _ Hj Ee). cbn [mbind option_bind].
    change us with (hp_us h) at 1. rewrite (wr_to_nat _ _ _ _ Hj Ee), Ea. cbn [mbind option_bind].
    set (s2 := set_edges _ _ _). assert (Hok2 : tables_ok M (hops ++ [h]) s2).
    { destruct Hok as (? & _ & Hms). split; [done|]. split; [|done]. split; [|done]. apply tbl_ok_items; [done|].
      rewrite <- Ea. by rewrite zlen_insert. }
    destruct open; cbn [negb andb].
    + exists (set_items (edge_table (hops ++ [h])) t), (rp_msgs s). split; [|done].
      destruct Hok as (E0 & _). by destruct s; simpl in *; subst.
    + destruct (msgDrop_ok M (hops ++ [h]) s2 i m Hok2 Hi Ei) as (tm & -> & Hok3). rewrite Hmid in Hok3.
      exists (set_items (edge_table (hops ++ [h])) t), tm. split; [done|]. exact Hok3.
  - rewrite Hf. cbn [mbind option_bind]. set (h := Hop tid waker (u32 (wt_obj w)) us).
    destruct (edgeGet_ok M hops s h Hok) as (e & j & t & Eg & Hj & Ee & Ht & Ea). unfold h in Eg at 1 2 3. cbn [hp_client hp_server hp_port] in Eg.
    rewrite Eg. cbn [mbind option_bind set_edges rp_edges]. rewrite (rd_to_nat _ _ _ Hj Ee). cbn [mbind option_bind].
    change us with (hp_us h) at 1. rewrite (wr_to_nat _ _ _ _ Hj Ee), Ea. cbn [mbind option_bind].
    rewrite (delete_id M) by done. replace (if true && negb open then M else M) with M by (by destruct open).
    exists (set_items (edge_table (hops ++ [h])) t), (rp_msgs s).
    assert (Es : set_edges (set_items (edge_table (hops ++ [h])) t) (rp_mem (set_edges t [] s)) (set_edges t [] s)
      = with_tables (set_items (edge_table (hops ++ [h])) t) (rp_msgs s) s) by (destruct Hok as (E0 & _); by destruct s; simpl in *; subst).
    rewrite <- Es. split; [done|]. destruct Hok as (? & _ & Hms). split; [done|]. split; [|done]. split; [|done]. apply tbl_ok_items; [done|].
    rewrite <- Ea. by rewrite zlen_insert.
Qed.

(** ** The longest waits *)

Lemma long_insert_length l ls : length (long_insert l ls) = S (length ls).
Proof. induction ls as [|x ls IH]; cbn [long_insert]; [done|]. destruct (lw_us x <? lw_us l); simpl; congruence. Qed.

Lemma long_sorted_snoc log l : long_sorted (log ++ [l]) = long_insert l (long_sorted log).
Proof. unfold long_sorted. by rewrite foldl_app. Qed.

Lemma long_sorted_length log : length (long_sorted log) = length log.
Proof.
  induction log as [|l log IH] using rev_ind; [done|]. rewrite long_sorted_snoc, long_insert_length, IH, length_app. simpl. lia.
Qed.

Definition desc (ls : list longwait_t) : Prop := StronglySorted (fun x y => lw_us y <= lw_us x) ls.

Lemma long_insert_Forall (P : longwait_t -> Prop) l ls : P l -> Forall P ls -> Forall P (long_insert l ls).
Proof. intros Hl Hls. induction Hls as [|x ls Hx Hls IH]; cbn [long_insert]; [by repeat constructor|]. destruct (_ <? _); by repeat constructor. Qed.

Lemma long_insert_desc l ls : desc ls -> desc (long_insert l ls).
Proof.
  induction 1 as [|x ls Hs IH Hx]; cbn [long_insert]; [by repeat constructor|]. destruct (Z.ltb_spec (lw_us x) (lw_us l)) as [Hlt|Hge].
  - constructor; [by constructor|]. constructor; [lia|]. eapply Forall_impl; [exact Hx|]. simpl. lia.
  - constructor; [done|]. apply long_insert_Forall; [lia|done].
Qed.

Lemma long_sorted_desc log : desc (long_sorted log).
Proof. induction log as [|l log IH] using rev_ind; [constructor|]. rewrite long_sorted_snoc. by apply long_insert_desc. Qed.

Lemma long_insert_perm l ls : long_insert l ls ≡ₚ l :: ls.
Proof.
  induction ls as [|x ls IH]; cbn [long_insert]; [done|]. destruct (_ <? _); [done|]. rewrite IH. apply Permutation_swap.
Qed.

Lemma long_sorted_perm log : long_sorted log ≡ₚ log.
Proof. induction log as [|l log IH] using rev_ind; [done|]. rewrite long_sorted_snoc, long_insert_perm, IH. by rewrite Permutation_app_comm. Qed.

(** The first [k] entries after an insertion depend on the first [k] before it. *)
Lemma take_long_insert l k : forall ls, take k (long_insert l (take k ls)) = take k (long_insert l ls).
Proof.
  induction k as [|k IH]; intros [|x ls]; try done. cbn [long_insert take]. destruct (lw_us x <? lw_us l); simpl; f_equal; [|apply IH].
  destruct k as [|k]; [done|]. simpl. f_equal. rewrite take_take. f_equal. lia.
Qed.

(** The last entry is smaller, or all entries are at least as large. *)
Lemma long_insert_before l y ls : lw_us y < lw_us l -> long_insert l (ls ++ [y]) = long_insert l ls ++ [y].
Proof.
  intros Hlt. induction ls as [|z ls IHl]; cbn [long_insert app]; [by destruct (Z.ltb_spec (lw_us y) (lw_us l)); [|lia]|].
  destruct (lw_us z <? lw_us l); [done|]. simpl. by f_equal.
Qed.

Lemma long_insert_end l y ls : lw_us l <= lw_us y -> Forall (fun z => lw_us y <= lw_us z) ls -> long_insert l (ls ++ [y]) = ls ++ [y; l].
Proof.
  intros Hge Hy. induction Hy as [|z ls Hz Hy IHl]; cbn [long_insert app]; [by destruct (Z.ltb_spec (lw_us y) (lw_us l)); [lia|]|].
  destruct (Z.ltb_spec (lw_us z) (lw_us l)); [lia|]. simpl. by f_equal.
Qed.

Lemma desc_snoc ls y : desc (ls ++ [y]) -> desc ls /\ Forall (fun z => lw_us y <= lw_us z) ls.
Proof.
  unfold desc. induction ls as [|z ls IHl]; [by repeat constructor|]. simpl. intros [Hd Hz]%StronglySorted_inv.
  destruct (IHl Hd) as [H1 H2]. apply Forall_app in Hz as [Hz1 Hz2]. apply Forall_cons in Hz2 as [Hz2 _]. split; constructor; auto.
Qed.

(** Where [longest_shift] stores [l] among the [i] entries of [a]. *)
Lemma longest_shift_ok l : forall ls x r, desc ls ->
  longest_shift (length ls) l (ls ++ x :: r) = Some (long_insert l ls ++ r).
Proof.
  induction ls as [|y ls IH] using rev_ind; intros x r Hd.
  { cbn [longest_shift length app]. by rewrite (wr_app [] x l r). }
  apply desc_snoc in Hd as Hd'.
  destruct Hd' as [Hd' Hy]. rewrite length_app. simpl. rewrite Nat.add_1_r. cbn [longest_shift].
  rewrite <- (assoc_L (++)). simpl. rewrite (rd_app ls y (x :: r)) by done. cbn [mbind option_bind].
  assert (Hw : forall v, wr (ls ++ y :: x :: r) (Z.of_nat (S (length ls))) v = Some (ls ++ y :: v :: r)).
  { intros v. replace (ls ++ y :: x :: r) with ((ls ++ [y]) ++ x :: r) by by rewrite <- (assoc_L (++)).
    rewrite wr_app by (rewrite zlen_app; unfold zlen; simpl; lia). by rewrite <- (assoc_L (++)). }
  rewrite !Hw. destruct (Z.ltb_spec (lw_us y) (lw_us l)) as [Hlt|Hge].
  - cbn [mbind option_bind]. rewrite IH by done. f_equal.
    rewrite long_insert_before by done. by rewrite <- (assoc_L (++)).
  - f_equal. rewrite long_insert_end by done. by rewrite <- (assoc_L (++)).
Qed.

Lemma longest_add_ok log l a n : zlen a = NLONGEST -> n = Z.min (zlen log) NLONGEST ->
  take (Z.to_nat n) a = take 64 (long_sorted log) -> exists a' n',
  longest_add l a n = Some (a', n') /\ zlen a' = NLONGEST /\ n' = Z.min (zlen (log ++ [l])) NLONGEST /\
  take (Z.to_nat n') a' = take 64 (long_sorted (log ++ [l])).
Proof.
  intros Ha Hn Htk. pose proof (long_sorted_length log) as HL. pose proof (long_sorted_desc log) as Hdesc.
  rewrite long_sorted_snoc, zlen_app, zlen_cons, zlen_nil. unfold longest_add, NLONGEST in *. set (L := long_sorted log) in *.
  destruct (Z.eqb_spec n 64) as [E|E].
  - assert (Hlen : length (take 64 L) = 64%nat) by (rewrite length_take; unfold zlen in Hn; lia).
    rewrite E in Htk. change (Z.to_nat 64) with 64%nat in Htk. rewrite take_ge in Htk by (unfold zlen in Ha; lia).
    assert (Hd64 : desc (take 64 L)).
    { rewrite <- (take_drop 64 L) in Hdesc. unfold desc in Hdesc. by apply StronglySorted_app in Hdesc as (_ & ? & _). }
    destruct (exists_last (l := take 64 L)) as (ls & y & Es); [by intros E0; rewrite E0 in Hlen|].
    rewrite Es in Htk, Hlen, Hd64. rewrite length_app in Hlen. simpl in Hlen. apply desc_snoc in Hd64 as [Hdls Hy]. subst a.
    rewrite (rd_app ls y []) by (unfold zlen; lia). cbn [mbind option_bind].
    assert (Etl : take 64 (long_insert l L) = take 64 (long_insert l (ls ++ [y]))) by (by rewrite <- Es, take_long_insert).
    destruct (Z.leb_spec (lw_us l) (lw_us y)) as [Hle|Hlt].
    + eexists _, _. split; [done|]. split_and!; [done|unfold zlen in *; lia|]. rewrite Etl, long_insert_end by done.
      rewrite E. change (Z.to_nat 64) with 64%nat. replace (ls ++ [y; l]) with ((ls ++ [y]) ++ [l]) by by rewrite <- (assoc_L (++)).
      rewrite (take_app_le (ls ++ [y])) by (rewrite length_app; simpl; lia). done.
    + rewrite E. change (64 <? 64) with false. cbn iota. replace (Z.to_nat (64 - 1)) with (length ls) by lia.
      rewrite longest_shift_ok by done. cbn [mbind option_bind]. eexists _, _. split; [done|].
      rewrite app_nil_r. pose proof (long_insert_length l ls) as Hl. split_and!; [unfold zlen; lia|unfold zlen in *; lia|].
      rewrite Etl, long_insert_before by done. change (Z.to_nat 64) with 64%nat. rewrite take_app_le by lia. done.
  - assert (Hlt : zlen log < 64) by lia. replace n with (zlen log) in * by lia. rewrite (take_ge L) in Htk by (unfold zlen in *; lia).
    cbn [mbind option_bind]. destruct (Z.ltb_spec (zlen log) 64); [|lia].
    destruct (list_split_at a (zlen log)) as (ls & r & -> & Hls); [pose proof (zlen_nonneg log); lia|].
    rewrite take_app_length' in Htk by (unfold zlen in *; lia). subst ls.
    destruct r as [|x r]; [rewrite app_nil_r in Ha; lia|].
    replace (Z.to_nat (zlen log)) with (length L) by (unfold zlen in *; lia). rewrite longest_shift_ok by done. cbn [mbind option_bind].
    eexists _, _. split; [done|]. pose proof (long_insert_length l L) as Hl. rewrite !zlen_app, zlen_cons in *.
    split_and!; [unfold zlen in *; lia|unfold zlen in *; lia|].
    rewrite take_app_length' by (unfold zlen in *; lia). rewrite take_ge by (unfold zlen in *; lia). done.
Qed.

(** ** Waits *)

Lemma wait_rec_ok tid ts open t : thr_ok tid t -> lw_ok (wait_rec tid ts open t).
Proof.
  intros (_ & _ & _ & Hc). split; simpl; [apply wrapu_range; lia|]. unfold wait_cause, CAUSES in *.
  destruct open; [lia|]. destruct (Z.leb_spec 0 (th_wakeCause t)); lia.
Qed.

(** A wait of the thread [tid] ends. *)
Lemma waitEnd_ok d n tr smp s tid ts open : rep_wf d n tr smp s -> rp_thr s !! tid = Some (tr_thr tr tid) ->
  th_waiting (tr_thr tr tid) = true ->
  exists s', waitEnd tid ts open s = Some s' /\ rep_wf d n (tr_end tid ts open tr) smp s' /\
    rp_thr s' !! tid = Some (tr_thr (tr_end tid ts open tr) tid).
Proof.
  intros Hwf Ht Hwt. unfold waitEnd. rewrite Ht. cbn [mbind option_bind]. set (t := tr_thr tr tid) in *.
  pose proof (wf_thr _ _ _ _ _ Hwf _ _ Ht) as Hthr. pose proof (wait_rec_ok tid ts open t Hthr) as Hl.
  set (l := wait_rec tid ts open t) in *.
  destruct Hwf. assert (Hcs : Forall causes_ok (tb_items (rp_waits s))) by (rewrite (proj2 wf_waits0); by apply agg_table_causes).
  destruct (end_agg_ok s l (th_wait t)) as (tw & Ew & Hok & Hit); [done|by destruct wf_waits0|done|by destruct Hl|done|done|].
  assert (Ew' : end_agg tid (th_wait t) (u32 (ts - wt_ts (th_wait t))) (wait_cause t open) (th_waker t) open s = Some (set_waits tw [] s)).
  { rewrite <- Ew. unfold l. simpl. by destruct open. }
  fold (wait_cause t open). rewrite Ew'. cbn [mbind option_bind].
  destruct (end_edge_ok (set_waits tw [] s) (tr_msgs tr) (tr_hops tr) tid (th_wait t) (u32 (ts - wt_ts (th_wait t))) (th_waker t) open)
    as (e & m & -> & (_ & He & Hm)); [done|].
  cbn [mbind option_bind]. unfold longestAdd. cbn [with_tables set_msgs set_edges set_waits rp_longest rp_nlongest].
  change (Longwait _ _ _ _ _ _ _ _ _ _ _) with l.
  destruct wf_longest0 as [Hla Hln].
  destruct (longest_add_ok (tr_log tr) l (rp_longest s) (rp_nlongest s) Hla Hln wf_long0) as (a & n' & -> & Ha & Hn' & Htk). cbn [mbind option_bind].
  eexists. split; [done|]. split; [|unfold put_thr, tr_end; simpl; rewrite Z.eqb_refl; apply lookup_insert_eq].
  assert (Htid : 0 <= tid < NTIDS) by apply Hthr.
  change (tr_end tid ts open tr) with (set_at tid (ended t) (Trace (tr_thr tr) (tr_log (tr_end tid ts open tr))
    (tr_msgs (tr_end tid ts open tr)) (tr_hops (tr_end tid ts open tr)) (tr_last tr))).
  apply (put_thr_wf (d + 1) d n _ _ _ tid t);
    [|done|by destruct Hthr as (? & ? & ? & ?)|done|unfold waiting; simpl; rewrite Hwt; simpl; lia].
  split; try done; simpl.
  - split; [done|]. unfold agg_table. by rewrite aggregate_snoc, Hit, (proj2 wf_waits0).
  - apply Forall_app. split; [done|]. by apply Forall_singleton.
  - destruct wf_hops0 as [Hh Hhl]. destruct (negb _); autorewrite with zlen; [|split; [done|lia]]. split; [|lia]. apply Forall_app. split; [done|]. apply Forall_singleton.
    apply wrapu_range. lia.
  - rewrite zlen_app, zlen_cons, zlen_nil. lia.
Qed.

(** ** Names *)

Lemma name_loop_ok data o0 len : forall o start end_, o0 <= start <= end_ -> end_ <= o -> 0 <= o0 -> o + Z.of_nat len <= zlen data ->
  exists st en, text_loop len data o start end_ = Some (st, en) /\ o0 <= st <= en /\ en <= o + Z.of_nat len.
Proof.
  induction len as [|len IH]; intros o start end_ Hs He H0 Hl; cbn [text_loop]; [exists start, end_; split_and!; done || lia|].
  destruct (proj2 (rd_is_Some data o)) as [c ->]; [lia|]. cbn [mbind option_bind].
  destruct (_ || _); [exists start, end_; split_and!; done || lia|].
  destruct (IH (o + 1) (if c =? 47 then o + 1 else start) (o + 1)) as (st & en & -> & ? & ?); [destruct (c =? 47); lia|lia..|].
  exists st, en. split_and!; done || lia.
Qed.

Lemma thrSetName_ok t pid data o len : 0 <= o -> 0 <= len -> o + len <= zlen data -> exists name,
  thrSetName t pid data o len = Some (th_set_name name pid t).
Proof.
  intros Ho Hl Hb. unfold thrSetName. destruct (name_loop_ok data o (Z.to_nat len) o o o) as (st & en & -> & Hst & Hen); [lia..|].
  cbn [mbind option_bind]. set (n := if NAME_LEN <=? en - st then NAME_LEN - 1 else en - st).
  assert (Hn : 0 <= n /\ st + n <= zlen data).
  { unfold n, NAME_LEN. destruct (Z.leb_spec 48 (en - st)); lia. }
  destruct (negb (n =? 0)); [|by eexists]. destruct (proj2 (rd_range_is_Some data st n)) as [nm ->]; [lia|]. by eexists.
Qed.

(** ** Changes of a thread *)

Lemma thr_ok_wake tid c w t : thr_ok tid t -> -1 <= c < CAUSES -> thr_ok tid (th_set_wake c w t).
Proof. by intros (? & ? & ? & _). Qed.
Lemma thr_ok_wait tid b w t : thr_ok tid t -> thr_ok tid (th_set_wait b w t).
Proof. done. Qed.

Lemma set_counts_wf d n tr smp s ts : rep_wf d n tr smp s -> rep_wf d n (set_last ts tr) smp (set_counts (rp_nsamples s) (rp_nwaitEvents s) ts s).
Proof. by intros []. Qed.

Section processing.
Context (names : list bytes) (ev : ev_t) (Hev : ev_ok ev).
#[local] Abbreviation data := (ev_data ev).
#[local] Abbreviation p := (ev_p ev).
Context (n : Z) (tr : trace) (smp : list (Z * Z)).

Section reading.
Context (sz : Z) (Hsz : sz <= ev_len ev).
Lemma r8_ok o : 0 <= o -> o < sz -> exists v, rd data (p + o) = Some v /\ 0 <= v < 256.
Proof. intros. destruct Hev as (Hd & ? & ? & ? & _). apply rd_byte; [done|lia]. Qed.
Lemma r16_ok o : 0 <= o -> o + 2 <= sz -> exists v, prof_rd16 data (p + o) = Some v /\ 0 <= v < 65536.
Proof. intros. destruct Hev as (Hd & ? & ? & ? & _). apply rd16_ok; [done|lia..]. Qed.
Lemma r32_ok o : 0 <= o -> o + 4 <= sz -> exists v, prof_rd32 data (p + o) = Some v /\ 0 <= v < 4294967296.
Proof. intros. destruct Hev as (Hd & ? & ? & ? & _). apply rd32_ok; [done|lia..]. Qed.
Lemma r64_ok o : 0 <= o -> o + 8 <= sz -> exists v, prof_rd64 data (p + o) = Some v.
Proof. intros. destruct Hev as (Hd & ? & ? & ? & _). apply rd64_ok; [done|lia..]. Qed.
End reading.

(** Processing [ev] in any state of the trace gives a state of [tr']. *)
Definition steps_to (handler : rep_t -> option rep_t) (n' : Z) (tr' : trace) (smp' : list (Z * Z)) : Prop :=
  forall s, rep_wf 0 n tr smp s -> exists s', handler s = Some s' /\ rep_wf 0 n' tr' smp' s'.

Lemma put_step s tid t' : rep_wf 0 n tr smp s -> rp_thr s !! tid = Some (tr_thr tr tid) -> thr_ok tid t' ->
  th_samples t' = th_samples (tr_thr tr tid) -> th_waiting t' = th_waiting (tr_thr tr tid) ->
  exists s', Some (put_thr tid t' s) = Some s' /\ rep_wf 0 n (set_at tid t' tr) smp s'.
Proof. intros Hwf E Hok Hs Hw. eexists. split; [done|]. eapply put_thr_wf; [done..|]. unfold waiting. rewrite Hw. lia. Qed.

(** The event is of a type with a fixed size. *)
Section fixed.
Context (e : prof_ev) (He : prof_ev_of (ev_id ev) = Some e).

Lemma create_ok : e = EvThreadCreate \/ e = EvProcessExec -> steps_to (ev_create data p) n (tr_event names ev tr) smp.
Proof.
  intros Hcase. assert (Hf : ev_fixed e = Some 133) by (by destruct Hcase; subst). pose proof (ev_fixed_len ev e 133 Hev He Hf) as Hl.
  assert (Et : tr_event names ev tr = set_at (default 0 (prof_rd16 data (p + 2))) ((fun t => default t (thrSetName t
    (default 0 (prof_rd16 data (p + 0))) data (p + 5) 128)) (tr_thr tr (default 0 (prof_rd16 data (p + 2))))) tr).
  { unfold tr_event. rewrite He. by destruct Hcase; subst. }
  intros s Hwf. rewrite Et. unfold ev_create. destruct (r16_ok (ev_len ev) ltac:(lia) 2) as (tid & -> & Htid); [lia..|]. cbn [mbind option_bind].
  eapply on_thread_ok; [done..|]. intros s' Hwf' Hlk Hok. destruct (r16_ok (ev_len ev) ltac:(lia) 0) as (pid & Epid & _); [lia..|].
  rewrite Z.add_0_r in *. rewrite Epid. cbn [mbind option_bind].
  destruct Hev as (_ & Hp & _ & Hb & _). destruct (thrSetName_ok (tr_thr tr tid) pid data (p + 5) 128) as (name & Enm); [lia..|].
  cbn [from_option id]. rewrite Enm. cbn [mbind option_bind from_option id]. by apply put_step.
Qed.

Lemma syscall_ok (enter : bool) : e = (if enter then EvSyscallEnter else EvSyscallExit) -> steps_to (ev_syscall enter data p) n (tr_event names ev tr) smp.
Proof.
  intros Hcase. assert (Hf : ev_fixed e = Some 3) by (by subst; destruct enter). pose proof (ev_fixed_len ev e 3 Hev He Hf) as Hl.
  intros s Hwf. unfold ev_syscall, tr_event. rewrite He, Hcase.
  destruct (r16_ok (ev_len ev) ltac:(lia) 1) as (tid & -> & Htid); [lia..|]. cbn [mbind option_bind].
  eapply on_thread_ok; [done..|]. intros s' Hwf' Hlk Hok. destruct (r8_ok (ev_len ev) ltac:(lia) 0) as (sc & Esc & _); [lia..|].
  rewrite Z.add_0_r in *. destruct enter; [rewrite Esc|]; cbn [mbind option_bind from_option id]; by apply put_step.
Qed.

Lemma wakeup_ok : e = EvWakeup -> steps_to (ev_wakeup data p) n (tr_event names ev tr) smp.
Proof.
  intros Hcase. assert (Hf : ev_fixed e = Some 5) by (by subst). pose proof (ev_fixed_len ev e 5 Hev He Hf) as Hl.
  intros s Hwf. unfold ev_wakeup, tr_event. rewrite He, Hcase.
  destruct (r16_ok (ev_len ev) ltac:(lia) 0) as (tid & E0 & Htid); [lia..|]. rewrite Z.add_0_r in *. rewrite E0. cbn [mbind option_bind].
  eapply on_thread_ok; [done..|]. intros s' Hwf' Hlk Hok. destruct (r16_ok (ev_len ev) ltac:(lia) 2) as (wk & -> & _); [lia..|].
  destruct (r8_ok (ev_len ev) ltac:(lia) 4) as (c & -> & Hc); [lia..|]. cbn [mbind option_bind from_option id]. apply put_step; try done.
  apply thr_ok_wake; [done|]. unfold CAUSES. destruct (Z.ltb_spec c (5 - 1)); lia.
Qed.

Lemma waking_ok : e = EvWaking -> steps_to (ev_waking (ev_ts ev) data p) n (tr_event names ev tr) smp.
Proof.
  intros Hcase. assert (Hf : ev_fixed e = Some 2) by (by subst). pose proof (ev_fixed_len ev e 2 Hev He Hf) as Hl.
  intros s Hwf. unfold ev_waking, tr_event. rewrite He, Hcase.
  destruct (r16_ok (ev_len ev) ltac:(lia) 0) as (tid & E0 & Htid); [lia..|]. rewrite Z.add_0_r in *. rewrite E0. cbn [mbind option_bind from_option id].
  eapply on_thread_ok; [done..|]. intros s' Hwf' Hlk Hok. destruct (th_waiting (tr_thr tr tid)) eqn:Ew.
  - destruct (waitEnd_ok 0 n tr smp s' tid (ev_ts ev) false) as (s2 & E & Hwf2 & _); [done..|]. by exists s2.
  - apply put_step; try done. by apply thr_ok_wake.
Qed.

Lemma tables_of d s : rep_wf d n tr smp s -> tables_ok (tr_msgs tr) (tr_hops tr) s.
Proof. by intros []. Qed.

Lemma set_msgs_wf d n' tr' s t M : rep_wf d n' tr' smp s -> tables_ok M (tr_hops tr') (set_msgs t [] s) -> rep_wf d n' (set_flight M tr') smp (set_msgs t [] s).
Proof. intros [] (_ & _ & Ht). by split. Qed.

Lemma recv_ok : e = EvMsgRecv -> steps_to (ev_recv data p) n (tr_event names ev tr) smp.
Proof.
  intros Hcase. assert (Hf : ev_fixed e = Some 12) by (by subst). pose proof (ev_fixed_len ev e 12 Hev He Hf) as Hl.
  intros s Hwf. unfold ev_recv, tr_event. rewrite He, Hcase.
  destruct (r32_ok (ev_len ev) ltac:(lia) 6) as (mid & -> & Hmid); [lia..|]. cbn [mbind option_bind from_option id].
  destruct (r16_ok (ev_len ev) ltac:(lia) 0) as (srv & E0 & Hsrv); [lia..|]. rewrite Z.add_0_r in *.
  pose proof (tables_of _ _ Hwf) as Hok. pose proof (msgFind_ok _ _ s mid false Hok) as Hfd.
  destruct (tr_msgs tr !! mid) as [m|] eqn:Em.
  - destruct Hfd as (i & -> & Hi & Ei & Hm). cbn [mbind option_bind]. rewrite E0. cbn [mbind option_bind from_option id].
    destruct (wf_msgs _ _ _ _ _ Hwf) as (_ & _ & _ & Hcl).
    destruct (upd_msg_ok _ _ s i m (serve srv) Hok Hi Ei) as (t & -> & Hok' & _); [done|exact (Hcl mid m Em)|].
    eexists. split; [done|]. rewrite Hm in Hok'.
    replace (alter (serve srv) mid (tr_msgs tr)) with (<[mid := serve srv m]> (tr_msgs tr)); [by apply set_msgs_wf|].
    apply map_eq. intros k. rewrite lookup_insert, lookup_alter. case_decide; [subst; by rewrite Em|done].
  - rewrite Hfd. cbn [mbind option_bind]. eexists. split; [done|]. destruct Hwf. split; try done. cbn [set_flight tr_msgs].
    replace (alter _ mid (tr_msgs tr)) with (tr_msgs tr); [done|].
    apply map_eq. intros k. rewrite lookup_alter. case_decide; [subst; by rewrite Em|done].
Qed.

Lemma send_ok : e = EvMsgSend -> steps_to (ev_send data p) n (tr_event names ev tr) smp.
Proof.
  intros Hcase. assert (Hf : ev_fixed e = Some 14) by (by subst). pose proof (ev_fixed_len ev e 14 Hev He Hf) as Hl.
  intros s Hwf. unfold ev_send, tr_event. rewrite He, Hcase.
  destruct (r16_ok (ev_len ev) ltac:(lia) 0) as (tid & E0 & Htid); [lia..|]. rewrite Z.add_0_r in *. rewrite E0. cbn [mbind option_bind].
  destruct (thrGet_ok 0 n tr smp s tid Hwf Htid) as (s1 & -> & Hwf1 & Hlk & _).
  destruct (r32_ok (ev_len ev) ltac:(lia) 10) as (mid & -> & _); [lia..|]. cbn [mbind option_bind].
  destruct (r32_ok (ev_len ev) ltac:(lia) 2) as (port & -> & _); [lia..|].
  destruct (r32_ok (ev_len ev) ltac:(lia) 6) as (type & -> & _); [lia..|]. cbn [from_option id].
  set (t' := th_set_syscall _ (Msg mid port type) _). set (f := fun m => Inflight (if_mid m) tid (-1) port).
  pose proof (tables_of _ _ Hwf1) as Hok. pose proof (msgFind_ok _ _ s1 mid true Hok) as Hfd.
  assert (Hput : rep_wf 0 n (set_at tid t' tr) smp (put_thr tid t' s1)).
  { eapply put_thr_wf; [done|done|exact (wf_thr _ _ _ _ _ Hwf1 tid _ Hlk)|done|unfold waiting; simpl; lia]. }
  destruct (tr_msgs tr !! mid) as [m|] eqn:Em.
  - destruct Hfd as (i & -> & Hi & Ei & Hm). cbn [mbind option_bind]. change (upd_msg i _ _) with (upd_msg i f (put_thr tid t' s1)).
    destruct (upd_msg_ok _ _ (put_thr tid t' s1) i m f Hok Hi Ei) as (t & -> & Hok' & _); [done|exact Htid|].
    eexists. split; [done|]. change (f m) with (Inflight (if_mid m) tid (-1) port) in Hok'. rewrite Hm in Hok'. by apply set_msgs_wf.
  - destruct Hfd as (t & -> & Ht & Hit). cbn [mbind option_bind]. change (upd_msg ?i _ _) with (upd_msg i f (put_thr tid t' (set_msgs t [] s1))).
    unfold upd_msg. cbn [put_thr set_thr set_msgs rp_msgs]. rewrite Hit.
    rewrite (rd_app _ (Inflight mid (-1) (-1) 0) []) by done. cbn [mbind option_bind].
    rewrite (wr_app _ (Inflight mid (-1) (-1) 0) _ []) by done. cbn [mbind option_bind].
    eexists. split; [done|]. change (f (Inflight mid (-1) (-1) 0)) with (Inflight mid tid (-1) port).
    apply (set_msgs_wf 0 n (set_at tid t' tr) (put_thr tid t' s1)); [done|]. destruct Hok as (E1 & E2 & Htm & HM). split_and!; [done|by destruct E2..| |].
    + apply tbl_ok_items; [done|]. rewrite Hit. zlia.
    + by apply (rep_push _ _ HM (Inflight mid tid (-1) port)).
Qed.

Lemma respond_ok : e = EvMsgRespond -> steps_to (ev_respond data p) n (tr_event names ev tr) smp.
Proof.
  intros Hcase. assert (Hf : ev_fixed e = Some 10) by (by subst). pose proof (ev_fixed_len ev e 10 Hev He Hf) as Hl.
  intros s Hwf. unfold ev_respond, tr_event. rewrite He, Hcase.
  destruct (r32_ok (ev_len ev) ltac:(lia) 6) as (mid & -> & Hmid); [lia..|]. cbn [mbind option_bind from_option id].
  destruct (r16_ok (ev_len ev) ltac:(lia) 0) as (srv & E0 & Hsrv); [lia..|]. rewrite Z.add_0_r in *.
  pose proof (tables_of _ _ Hwf) as Hok. pose proof (msgFind_ok _ _ s mid false Hok) as Hfd.
  destruct (tr_msgs tr !! mid) as [m|] eqn:Em; [|rewrite Hfd; cbn [mbind option_bind]; by exists s].
  destruct Hfd as (i & -> & Hi & Ei & Hm). cbn [mbind option_bind]. rewrite E0. cbn [mbind option_bind from_option id].
  destruct (wf_msgs _ _ _ _ _ Hwf) as (_ & _ & _ & Hcl). specialize (Hcl mid m Em).
  destruct (upd_msg_ok _ _ s i m (serve srv) Hok Hi Ei) as (t & -> & Hok1 & Ei1); [done|exact Hcl|]. cbn [mbind option_bind set_msgs rp_msgs].
  rewrite (rd_to_nat _ _ _ Hi Ei1). cbn [mbind option_bind serve if_client if_mid]. rewrite Hm in *.
  pose proof (set_msgs_wf 0 n tr s t _ Hwf Hok1) as Hwf1.
  destruct (thrGet_ok 0 n _ smp _ (if_client m) Hwf1 Hcl) as (s2 & -> & Hwf2 & _ & Hms). cbn [set_flight tr_thr].
  destruct (th_waiting _ && _); cbn [negb]; [by exists s2|].
  destruct (msgDrop_ok _ _ s2 i (serve srv m) (ltac:(by destruct Hwf2) : tables_ok _ _ s2) Hi) as (t2 & -> & Hok2); [by rewrite Hms|].
  eexists. split; [done|]. cbn [serve if_mid set_flight tr_msgs] in Hok2. rewrite Hm, delete_insert_eq in Hok2.
  by apply (set_msgs_wf 0 n _ s2 t2 _ Hwf2).
Qed.
End fixed.

(** The events of variable size. *)
Lemma var_ok e frames nk : prof_ev_of (ev_id ev) = Some e ->
  e = EvSample /\ frames = PROF_SAMPLE_KFRAMES /\ nk = PROF_SAMPLE_NK \/ e = EvWait /\ frames = PROF_WAIT_KFRAMES /\ nk = PROF_WAIT_NK ->
  frames <= ev_len ev /\ exists k u, rd data (p + nk) = Some k /\ urecParse data (p + (frames + k * 8)) = Some u /\
    0 <= u_frames u /\ (0 < u_nframes u -> u_frames u + 8 <= zlen data).
Proof.
  intros He Hcase. destruct Hev as (Hd & Hp & Hl & Hb & _ & avail & E). unfold prof_evSize in E. rewrite He in E.
  destruct Hcase as [(-> & -> & ->)|(-> & -> & ->)]; simpl in E; eapply urec_ok; try done.
Qed.

Lemma inc_at_ok w l i : 0 <= i < zlen l -> exists x, l !! Z.to_nat i = Some x /\ inc_at w l i = Some (<[Z.to_nat i := wrapu w (x + 1)]> l).
Proof.
  intros Hi. unfold zlen in Hi. destruct (lookup_lt_is_Some_2 l (Z.to_nat i)) as [x E]; [lia|]. exists x. split; [done|].
  unfold inc_at. rewrite (rd_to_nat _ _ x) by (done || lia). cbn [mbind option_bind]. by rewrite (wr_to_nat _ _ x) by (done || lia).
Qed.

(** One more sample of a thread. *)
Lemma sample_wf s tid mode nsamples t' : rep_wf 0 n tr smp s -> rp_thr s !! tid = Some (tr_thr tr tid) -> 0 <= mode < 3 -> zlen smp + 1 < 2 ^ 32 ->
  inc_at 32 (th_samples (tr_thr tr tid)) mode = Some t' -> inc_at 64 (rp_nsamples s) mode = Some nsamples ->
  forall pcs ke kc tv, hist_ok pcs (bumps (smp ++ [tv])) -> (exists M, hist_ok ke M /\ entries_named M) -> (exists M, hist_ok kc M) ->
  rep_wf 0 n (set_at tid (th_set_samples t' (tr_thr tr tid)) tr) (smp ++ [tv])
    (set_hists pcs ke kc [] (set_counts nsamples (rp_nwaitEvents s) (rp_lastTs s) (put_thr tid (th_set_samples t' (tr_thr tr tid)) s))).
Proof.
  intros Hwf Hlk Hmode Hb Et En pcs ke kc tv Hpcs Hke Hkc. set (t := tr_thr tr tid) in *.
  pose proof (wf_thr _ _ _ _ _ Hwf tid t Hlk) as (Htid & Hlen & Hnn & Hc).
  destruct (inc_at_ok 32 (th_samples t) mode) as (x & Ex & Et'); [lia|]. rewrite Et in Et'. injection Et' as ->.
  destruct Hwf. destruct (inc_at_ok 64 (rp_nsamples s) mode) as (y & Ey & En'); [lia|]. rewrite En in En'. injection En' as ->.
  assert (Hall : forall i, (i < 3)%nat -> 0 <= msum (in_mode i) (rp_thr s) /\ in_mode i t <= msum (in_mode i) (rp_thr s)).
  { intros i Hi. assert (Hp : forall j u, rp_thr s !! j = Some u -> 0 <= in_mode i u).
    { intros j u Hu. apply wf_thr0 in Hu as (_ & _ & Hu & _). unfold in_mode. destruct (th_samples u !! i) eqn:E; [|done].
      by eapply Forall_lookup_1 in Hu. }
    split; [by apply msum_nonneg|]. by eapply msum_member. }
  assert (Hi3 : (Z.to_nat mode < 3)%nat) by lia. rewrite wf_modes0 in Ey by done. injection Ey as <-.
  assert (Hx : in_mode (Z.to_nat mode) t = x) by (unfold in_mode; by rewrite Ex).
  assert (Hxn : 0 <= x) by (by eapply Forall_lookup_1 in Hnn).
  assert (Hsum : msum (in_mode (Z.to_nat mode)) (rp_thr s) <= zlen smp).
  { pose proof (Hall 0%nat). pose proof (Hall 1%nat). pose proof (Hall 2%nat). destruct (Z.to_nat mode) as [|[|[|]]]; lia. }
  pose proof (Hall _ Hi3) as [Hs0 Hs1]. rewrite (u32_small (x + 1)) by lia.
  rewrite (wrapu_small 64) by lia.
  assert (Hmode' : forall i, (i < 3)%nat -> msum (in_mode i) (<[tid := th_set_samples (<[Z.to_nat mode := x + 1]> (th_samples t)) t]> (rp_thr s)) =
    msum (in_mode i) (rp_thr s) + (if decide (i = Z.to_nat mode) then 1 else 0)).
  { intros i Hi. rewrite (msum_insert _ _ _ _ _ Hlk). unfold in_mode at 3. cbn [th_set_samples th_samples]. case_decide as E.
    - subst i. rewrite list_lookup_insert_eq by (unfold zlen in Hlen; lia). rewrite Hx. simpl. lia.
    - rewrite list_lookup_insert_ne by congruence. fold (in_mode i t). lia. }
  split; try done; cbn [set_hists set_counts put_thr set_thr rp_thr rp_nsamples rp_pcs rp_kentry rp_kcaller set_at tr_thr].
  - intros tid' u. rewrite lookup_insert. case_decide as E; [|by apply wf_thr0]. intros [= <-]. rewrite <- E. split; [done|].
    split; [cbn [th_set_samples th_samples]; zlia|]. split; [|done]. apply Forall_insert; [done|lia].
  - intros tid' Hr. rewrite lookup_insert. destruct (Z.eqb_spec tid' tid) as [->|Hne]; [by rewrite decide_True by done|].
    rewrite decide_False by congruence. by apply wf_at0.
  - rewrite (msum_insert _ _ _ _ _ Hlk). unfold waiting at 2 3. simpl. lia.
  - zlia.
  - intros i Hi. rewrite Hmode' by done. case_decide as E.
    + rewrite E. apply list_lookup_insert_eq. unfold zlen in wf_nsamples0. lia.
    + rewrite list_lookup_insert_ne, Z.add_0_r by congruence. by apply wf_modes0.
  - rewrite (Hmode' 0%nat), (Hmode' 1%nat), (Hmode' 2%nat) by lia. autorewrite with zlen. clear -wf_smp0 Hi3. destruct (Z.to_nat mode) as [|[|[|]]]; simpl; lia.
Qed.

Lemma bumps_snoc tv : bumps (smp ++ [tv]) = bump (pcKey tv.1 tv.2) (bumps smp).
Proof. unfold bumps. by rewrite foldl_app. Qed.

(** [histAdd] with memory. *)
Lemma histAdd_mem h M tid v : hist_ok h M -> exists h', histAdd h [] tid v = Some (h', []) /\ hist_ok h' (bump (pcKey tid v) M).
Proof.
  intros Hok. destruct (histAdd_ok h M [] tid v Hok) as [[[_ [? ?]] _]|(h' & m' & E & Hok' & Hm)]; [done|].
  rewrite (Hm eq_refl) in E. by exists h'.
Qed.

Lemma entry_bound ec : 0 <= ec < 256 -> 0 <= (if negb (ec =? 255) then Z.lor ENTRY_EXCEPTION ec else ENTRY_UNKNOWN) <= ENTRY_UNKNOWN.
Proof.
  intros H. destruct (negb _); [|unfold ENTRY_UNKNOWN; lia]. change ENTRY_EXCEPTION with (Z.shiftl 1 16). rewrite lor_shiftl by lia.
  unfold ENTRY_UNKNOWN. lia.
Qed.

Lemma bump_named M tid v : entries_named M -> 0 <= v <= ENTRY_UNKNOWN -> entries_named (bump (pcKey tid v) M).
Proof.
  intros HM Hv k c. unfold bump. destruct (pcKey tid v =? 0); [apply HM|]. rewrite lookup_insert. case_decide as E; [|apply HM].
  intros _. rewrite <- E, pcValue_small; unfold ENTRY_UNKNOWN in *; lia.
Qed.

Lemma sample_ok : prof_ev_of (ev_id ev) = Some EvSample -> zlen smp + 1 < 2 ^ 32 ->
  steps_to (ev_sample data p) n (tr_event names ev tr) (smp ++ option_list (sample_of ev)).
Proof.
  intros He Hb s Hwf. destruct (var_ok EvSample _ _ He (or_introl (conj eq_refl (conj eq_refl eq_refl)))) as (Hl & nk & u & Enk & Eu & _).
  unfold PROF_SAMPLE_KFRAMES in Hl. unfold ev_sample, tr_event, sample_of. rewrite He.
  destruct (r16_ok (ev_len ev) ltac:(lia) 0) as (tid & E0 & Htid); [lia..|]. rewrite Z.add_0_r in *. rewrite E0. cbn [mbind option_bind from_option id].
  eapply on_thread_ok; [done..|]. intros s' Hwf' Hlk Hok. unfold PROF_SAMPLE_MODE, PROF_SAMPLE_KPC.
  destruct (r8_ok (ev_len ev) ltac:(lia) 2) as (mode & -> & Hmode); [lia..|]. cbn [mbind option_bind from_option id].
  destruct (Z.ltb_spec 2 mode); [exists s'; simpl; by rewrite app_nil_r|].
  destruct Hok as (_ & Hlen & _ & _).
  destruct (inc_at_ok 32 (th_samples (tr_thr tr tid)) mode) as (x & _ & Et); [lia|]. rewrite Et. cbn [mbind option_bind from_option id].
  destruct (inc_at_ok 64 (rp_nsamples s') mode) as (y & _ & En); [rewrite (wf_nsamples _ _ _ _ _ Hwf'); lia|]. rewrite En. cbn [mbind option_bind].
  rewrite Enk. cbn [mbind option_bind]. rewrite Eu. cbn [mbind option_bind].
  destruct (r64_ok (ev_len ev) ltac:(lia) 4) as [kpc Ekpc]; [lia..|]. rewrite Ekpc.
  set (pc := if mode =? 0 then Some (u_pc u) else Some kpc). assert (Epc : exists v, pc = Some v) by (unfold pc; destruct (mode =? 0); by eexists).
  destruct Epc as [v ->]. cbn [mbind option_bind option_list set_counts put_thr set_thr rp_mem rp_pcs rp_kentry rp_kcaller set_hists].
  rewrite (wf_mem _ _ _ _ _ Hwf'). destruct (histAdd_mem _ _ tid v (wf_pcs _ _ _ _ _ Hwf')) as (pcs & -> & Hpcs). cbn [mbind option_bind].
  pose proof (bumps_snoc (tid, v)) as Esn. cbn [fst snd] in Esn. rewrite <- Esn in Hpcs.
  destruct (wf_kentry _ _ _ _ _ Hwf') as (Mk & Hke & Hnm), (wf_kcaller _ _ _ _ _ Hwf') as [Mc Hkc].
  pose proof (sample_wf s' tid mode _ _ Hwf' Hlk ltac:(lia) Hb Et En pcs) as Hfin.
  destruct (mode =? 1).
  - unfold kentry_of, PROF_SAMPLE_SYSCALL, PROF_SAMPLE_ECLASS. destruct (r16_ok (ev_len ev) ltac:(lia) 20) as (sc & -> & Hsc); [lia..|]. cbn [mbind option_bind].
    destruct (r8_ok (ev_len ev) ltac:(lia) 22) as (ec & -> & Hec); [lia..|]. cbn [mbind option_bind].
    set (ke := if negb (sc =? 65535) then Some sc else Some _).
    assert (Eke : exists v, ke = Some v /\ 0 <= v <= ENTRY_UNKNOWN) by (unfold ke; destruct (negb (sc =? 65535)); eexists; (split; [done|]); [unfold ENTRY_UNKNOWN; lia|by apply entry_bound]).
    destruct Eke as (kv & -> & Hkv). cbn [mbind option_bind]. destruct (histAdd_mem _ _ tid kv Hke) as (kentry & -> & Hke'). cbn [mbind option_bind].
    unfold kcaller_of, PROF_SAMPLE_KFLAGS, PROF_SAMPLE_KPC, PROF_SAMPLE_KLR. destruct (r8_ok (ev_len ev) ltac:(lia) 3) as (fl & -> & _); [lia..|]. cbn [mbind option_bind].
    assert (Ekc : exists cv, prof_rd64 data (p + (if Z.testbit fl 0 then 12 else 4)) = Some cv).
    { destruct (Z.testbit fl 0); [apply (r64_ok (ev_len ev)); lia|by eexists]. }
    destruct Ekc as [cv ->]. cbn [mbind option_bind]. destruct (histAdd_mem _ _ tid cv Hkc) as (kcaller & -> & Hkc'). cbn [mbind option_bind].
    eexists. split; [done|]. apply (Hfin kentry kcaller (tid, v)); [done| |by eauto]. eexists. split; [exact Hke'|]. by apply bump_named.
  - eexists. split; [done|]. apply (Hfin (rp_kentry s') (rp_kcaller s') (tid, v)); eauto.
Qed.

Lemma wait_of_ok t : prof_ev_of (ev_id ev) = Some EvWait -> exists w, wait_of names t (ev_ts ev) data p = Some w.
Proof.
  intros He. destruct (var_ok EvWait _ _ He (or_intror (conj eq_refl (conj eq_refl eq_refl)))) as (Hl & nk & u & Enk & Eu & Hu1 & Hu2).
  unfold PROF_WAIT_KFRAMES in Hl. unfold wait_of, PROF_WAIT_ARGS.
  assert (Hargs : exists a0 rest, mapM (fun i => prof_rd64 data (p + 17 + 8 * i)) [0; 1; 2; 3] = Some (a0 :: rest)).
  { cbn [mapM]. rewrite <- !Z.add_assoc.
    destruct (r64_ok (ev_len ev) ltac:(lia) (17 + 8 * 0)) as [a0 ->]; [lia..|]. destruct (r64_ok (ev_len ev) ltac:(lia) (17 + 8 * 1)) as [a1 ->]; [lia..|].
    destruct (r64_ok (ev_len ev) ltac:(lia) (17 + 8 * 2)) as [a2 ->]; [lia..|]. destruct (r64_ok (ev_len ev) ltac:(lia) (17 + 8 * 3)) as [a3 ->]; [lia..|].
    by eexists _, _. }
  destruct Hargs as (a0 & rest & ->). cbn [mbind option_bind]. rewrite Enk. cbn [mbind option_bind]. rewrite Eu. cbn [mbind option_bind].
  unfold PROF_WAIT_FLAGS, PROF_WAIT_BLOCKED, PROF_WAIT_SYSCALL, PROF_WAIT_QUEUE, PROF_WAIT_TIMEOUT.
  destruct (r8_ok (ev_len ev) ltac:(lia) 2) as (fl & -> & _); [lia..|]. cbn [mbind option_bind].
  destruct (r32_ok (ev_len ev) ltac:(lia) 11) as (b & -> & _); [lia..|]. cbn [mbind option_bind].
  set (wts := if Z.testbit fl 1 then Some _ else Some _). assert (Ets : exists v, wts = Some v) by (unfold wts; destruct (Z.testbit fl 1); by eexists).
  destruct Ets as [ts ->]. cbn [mbind option_bind].
  destruct (r16_ok (ev_len ev) ltac:(lia) 15) as (sc & -> & _); [lia..|]. cbn [mbind option_bind].
  destruct (r32_ok (ev_len ev) ltac:(lia) 3) as (q & -> & _); [lia..|]. cbn [mbind option_bind].
  unfold waitObject. change (rd (a0 :: rest) 0) with (Some a0). cbn [mbind option_bind].
  destruct (r32_ok (ev_len ev) ltac:(lia) 7) as (tmo & -> & _); [lia..|]. cbn [mbind option_bind].
  destruct (Z.ltb_spec 0 (u_nframes u)) as [Hnf|Hnf]; [|by eexists].
  destruct Hev as (Hd & _). destruct (rd64_ok data (u_frames u) Hd Hu1 (Hu2 Hnf)) as [pc ->]. by eexists.
Qed.

Lemma tr_end_waiting tid ts open (x : trace) : th_waiting (tr_thr (tr_end tid ts open x) tid) = false.
Proof. unfold tr_end, set_at. simpl. by rewrite Z.eqb_refl. Qed.

Lemma wait_ok : prof_ev_of (ev_id ev) = Some EvWait -> n + 1 < 2 ^ 64 -> 0 <= n ->
  steps_to (ev_wait names (ev_ts ev) data p) (n + 1) (tr_event names ev tr) smp.
Proof.
  intros He Hn Hn0 s Hwf. destruct (var_ok EvWait _ _ He (or_intror (conj eq_refl (conj eq_refl eq_refl)))) as (Hl & _).
  unfold PROF_WAIT_KFRAMES in Hl. unfold ev_wait, tr_event. rewrite He.
  destruct (r16_ok (ev_len ev) ltac:(lia) 0) as (tid & E0 & Htid); [lia..|]. rewrite Z.add_0_r in *. rewrite E0. cbn [mbind option_bind from_option id].
  eapply on_thread_ok; [done..|]. intros s1 Hwf1 Hlk _. unfold tr_wait.
  set (s2 := set_counts (rp_nsamples s1) _ _ s1).
  assert (Hwf2 : rep_wf (-1) (n + 1) tr smp s2).
  { destruct Hwf1. split; try done; simpl; [rewrite wf_n0; rewrite wrapu_small by lia; done|lia]. }
  set (x1 := if th_waiting (tr_thr tr tid) then tr_end tid (ev_ts ev) true tr else tr).
  assert (Hprev : exists s3, (if th_waiting (tr_thr tr tid) then waitEnd tid (ev_ts ev) true s2 else Some s2) = Some s3 /\
    rep_wf (-1) (n + 1) x1 smp s3 /\ rp_thr s3 !! tid = Some (tr_thr x1 tid) /\ th_waiting (tr_thr x1 tid) = false).
  { unfold x1. destruct (th_waiting (tr_thr tr tid)) eqn:Ew; [|by exists s2].
    destruct (waitEnd_ok (-1) (n + 1) tr smp s2 tid (ev_ts ev) true Hwf2 Hlk Ew) as (s3 & E & Hwf3 & Hlk3).
    exists s3. split_and!; try done. apply tr_end_waiting. }
  clearbody x1. destruct Hprev as (s3 & -> & Hwf3 & Hlk3 & Hnw). cbn [mbind option_bind]. rewrite Hlk3. cbn [mbind option_bind].
  destruct (wait_of_ok (tr_thr x1 tid) He) as [w Ew]. rewrite Ew. cbn [mbind option_bind from_option id].
  pose proof (wf_thr _ _ _ _ _ Hwf3 _ _ Hlk3) as Hok3. destruct (Z.testbit (wt_flags w) 1).
  - assert (Hput : rep_wf 0 (n + 1) (set_at tid (th_set_wait true w (tr_thr x1 tid)) x1) smp (put_thr tid (th_set_wait true w (tr_thr x1 tid)) s3)).
    { eapply put_thr_wf; [done|done|done|done|]. unfold waiting. rewrite Hnw. simpl. lia. }
    assert (Hat : tr_thr (set_at tid (th_set_wait true w (tr_thr x1 tid)) x1) tid = th_set_wait true w (tr_thr x1 tid)) by (simpl; by rewrite Z.eqb_refl).
    edestruct (waitEnd_ok 0 (n + 1) _ smp _ tid (ev_ts ev) (Z.testbit (wt_flags w) 2) Hput) as (s4 & E & Hwf4 & _).
    + rewrite Hat. apply lookup_insert_eq.
    + by rewrite Hat.
    + by exists s4.
  - eexists. split; [done|]. eapply put_thr_wf; [done|done|by apply thr_ok_wake|done|]. unfold waiting. rewrite Hnw. simpl. lia.
Qed.

End processing.

Lemma process_ok names ev n tr smp s : ev_ok ev -> rep_wf 0 n tr smp s -> 0 <= n -> n + 1 < 2 ^ 64 -> zlen smp + 1 < 2 ^ 32 ->
  exists s', process names ev s = Some s' /\
  rep_wf 0 (n + Z.b2z (is_wait ev)) (tr_event names ev (set_last (ev_ts ev) tr)) (smp ++ option_list (sample_of ev)) s'.
Proof.
  intros Hev Hwf Hn0 Hn Hb. apply (set_counts_wf _ _ _ _ _ (ev_ts ev)) in Hwf. unfold process.
  set (s1 := set_counts _ _ _ s) in *. set (x := set_last (ev_ts ev) tr) in *.
  pose proof (sample_ok names ev Hev n x smp) as Hsample. unfold is_wait, sample_of in *.
  destruct (prof_ev_of (ev_id ev)) as [e|] eqn:He; [destruct e|];
    try (cbn [option_list]; rewrite app_nil_r, Z.add_0_r; first
      [ eapply create_ok; eauto | eapply (syscall_ok names ev Hev n x smp _ He true); done
      | eapply (syscall_ok names ev Hev n x smp _ He false); done
      | eapply wakeup_ok; done | eapply waking_ok; done | eapply send_ok; done | eapply recv_ok; done | eapply respond_ok; done
      | eexists; split; [done|]; unfold tr_event; rewrite He; exact Hwf ]).
  - rewrite Z.add_0_r. by apply Hsample.
  - cbn [option_list]. rewrite app_nil_r. by apply wait_ok.
Qed.
