(* ===== verification/ReportClaims.v ===== *)
(** * What a report says

    The tables of a report are the aggregates of the trace it was made from: the waits by
    thread, system call and object, the edges by client, server and port, the longest
    waits, and the sampled program counters. *)

From stdpp Require Import gmap sorting.
From S2P Require Import Prelude.
From S2P Require Import Event.
From S2P Require Import EventSpec.
From S2P Require Import PcHist.
From S2P Require Import PcHistSpec.
From S2P Require Import Report.
From S2P Require Import ReportSpec.

(** ** Aggregates by key *)

Section by_key.
Context {L W K : Type} `{EqDecision K}.
Context (same : L -> W -> bool) (new : L -> W) (one : L -> W -> W).
Context (kL : L -> K) (kW : W -> K) (fresh : K -> W).
Context (Hsame : forall l w, same l w = true <-> kW w = kL l).
Context (Hnew : forall l, new l = fresh (kL l)) (Hkey : forall k, kW (fresh k) = k) (Hone : forall l w, kW (one l w) = kW w).

#[local] Abbreviation table := (aggregate same new one).
Definition of_key (k : K) (ls : list L) : list L := filter (fun l => kL l = k) ls.
Definition combine (k : K) (ls : list L) : W := foldl (fun w l => one l w) (fresh k) ls.

Lemma add_keys l ws : kW <$> add_to same new one l ws = if decide (kL l ∈ kW <$> ws) then kW <$> ws else (kW <$> ws) ++ [kL l].
Proof.
  induction ws as [|w ws IH]; cbn [add_to].
  - rewrite decide_False by apply not_elem_of_nil. simpl. by rewrite Hone, Hnew, Hkey.
  - destruct (same l w) eqn:E.
    + apply Hsame in E. rewrite decide_True by (rewrite fmap_cons, E; by left). rewrite !fmap_cons. by rewrite Hone.
    + assert (Hne : kL l <> kW w) by (intros Hd; symmetry in Hd; apply Hsame in Hd; congruence).
      rewrite !fmap_cons, IH. case_decide as Hin; [rewrite decide_True by (by right); done|].
      rewrite decide_False; [done|]. by intros [|]%elem_of_cons.
Qed.

Lemma add_elem l ws w : NoDup (kW <$> ws) -> w ∈ add_to same new one l ws <->
  kW w <> kL l /\ w ∈ ws \/ kW w = kL l /\ (if decide (kL l ∈ kW <$> ws) then exists w0, w0 ∈ ws /\ kW w0 = kL l /\ w = one l w0 else w = one l (new l)).
Proof.
  induction ws as [|x ws IH]; intros Hnd; cbn [add_to].
  - rewrite decide_False by apply not_elem_of_nil. rewrite list_elem_of_singleton.
    assert (kW (one l (new l)) = kL l) by (by rewrite Hone, Hnew, Hkey).
    split; [intros ->; by right|]. intros [[_ []%not_elem_of_nil]|[_ ->]]; done.
  - rewrite fmap_cons in Hnd |- *. apply NoDup_cons in Hnd as [Hx Hnd]. destruct (same l x) eqn:E.
    + apply Hsame in E. rewrite decide_True by (rewrite E; by left). rewrite elem_of_cons. split.
      * intros [->|Hw]; [right; rewrite Hone; split; [done|]; exists x; split; [by left|done]|].
        left. split; [|by right]. intros Hk. apply Hx. rewrite E, <- Hk. by apply list_elem_of_fmap_2.
      * intros [[Hk Hw]|[Hk (w0 & Hw0 & Ek & ->)]].
        { apply elem_of_cons in Hw as [->|Hw]; [congruence|by right]. }
        { apply elem_of_cons in Hw0 as [->|Hw0]; [by left|]. exfalso. apply Hx. rewrite E, <- Ek. by apply list_elem_of_fmap_2. }
    + assert (Hne : kW x <> kL l) by (intros Hd; apply Hsame in Hd; congruence). rewrite elem_of_cons, (IH Hnd), elem_of_cons.
      destruct (decide (kL l ∈ kW <$> ws)) as [Hin|Hin].
      * rewrite decide_True by (by right). split.
        { intros [->|[[? ?]|[Hk (w0 & ? & ? & ?)]]]; [left; auto|left; auto|right]. split; [done|]. exists w0. split; [by right|done]. }
        { intros [[Hk [->|Hw]]|[Hk (w0 & Hw0 & Ek & ->)]]; [by left|right; left; done|right; right].
          apply elem_of_cons in Hw0 as [->|Hw0]; [congruence|]. split; [done|]. by exists w0. }
      * rewrite decide_False by (by intros [|]%elem_of_cons).
        split; [intros [->|[[? ?]|[? ?]]]; auto|intros [[? [->|?]]|[? ?]]; auto].
Qed.

(** The aggregates have the keys of the elements, each once, and combine the elements
    with their key. *)
Lemma aggregate_spec ls : NoDup (kW <$> table ls) /\ (forall k, k ∈ kW <$> table ls <-> k ∈ kL <$> ls) /\
  (forall w, w ∈ table ls -> w = combine (kW w) (of_key (kW w) ls)).
Proof.
  induction ls as [|l ls (Hnd & Hk & Hw)] using rev_ind; [split_and!; [constructor|done|by intros w ?%not_elem_of_nil]|].
  rewrite aggregate_snoc, add_keys. split_and!.
  - case_decide as Hin; [done|]. apply NoDup_app. split_and!; [done| |apply NoDup_singleton].
    intros k Hk' ->%list_elem_of_singleton. done.
  - intros k. rewrite fmap_app, elem_of_app, <- Hk. change (kL <$> [l]) with [kL l]. case_decide as Hin; rewrite ?elem_of_app, !list_elem_of_singleton; [|done].
    split; [by left|]. by intros [?| ->].
  - intros w. rewrite add_elem by done. unfold of_key, combine. rewrite filter_app, filter_cons, filter_nil.
    intros [[Hne Hin]|[Ek Hin]].
    + rewrite decide_False by congruence. rewrite app_nil_r. by apply Hw.
    + rewrite decide_True by done. rewrite foldl_app. simpl. destruct (decide (kL l ∈ kW <$> table ls)) as [Hd|Hd].
      * destruct Hin as (w0 & Hin & Ek0 & ->). rewrite Hone in Ek |- *. f_equal. by apply Hw.
      * rewrite Hk in Hd. assert (Enil : filter (fun x => kL x = kW w) ls = []).
        { destruct (filter _ ls) as [|y ys] eqn:Ef; [done|]. exfalso. apply Hd.
          assert (Hy : y ∈ filter (fun x => kL x = kW w) ls) by (rewrite Ef; by left).
          apply list_elem_of_filter in Hy as [Hy1 Hy2]. rewrite <- Ek, <- Hy1. by apply list_elem_of_fmap_2. }
        rewrite Enil. simpl. rewrite Hin at 1. by rewrite Hnew, Ek.
Qed.
End by_key.

(** ** The table of the waits *)

Implicit Types (log ls : list longwait_t).

Definition wait_key (l : longwait_t) : Z * Z * Z := (lw_tid l, lw_syscall l, lw_obj l).
Definition agg_key (w : waitagg_t) : Z * Z * Z := (wa_tid w, wa_syscall w, wa_obj w).
Definition agg_fresh (k : Z * Z * Z) : waitagg_t := Waitagg k.1.1 k.1.2 k.2 0 0 0 [0; 0; 0; 0; 0] (-1).

Definition sum_us ls : Z := foldr (fun l n => lw_us l + n) 0 ls.
Definition max_us ls : Z := foldr (fun l n => Z.max (lw_us l) n) 0 ls.
Definition caused (c : Z) ls : list longwait_t := filter (fun l => lw_open l = false /\ lw_cause l = c) ls.

(** The last thread that ended one of the waits, [-1] when none did. *)
Definition last_waker ls : Z :=
  default (-1) (last (omap (fun l => if negb (lw_open l) && (0 <? lw_waker l) then Some (lw_waker l) else None) ls)).

(** A row of the table, from the waits it stands for. *)
Definition row_of ls (w : waitagg_t) : Prop :=
  wa_count w = zlen ls /\ wa_totalUs w = sum_us ls /\ wa_maxUs w = max_us ls /\ wa_lastWaker w = last_waker ls /\
  forall c, 0 <= c < CAUSES -> rd (wa_causes w) c = Some (zlen (caused c ls)).

Lemma same_wait_key l w : same_wait l w = true <-> agg_key w = wait_key l.
Proof.
  unfold same_wait, agg_key, wait_key. split; [intros; bprop; by f_equal; [f_equal|]|].
  intros [= -> -> ->]. by rewrite !Z.eqb_refl.
Qed.

Lemma agg_one_key l w : agg_key (agg_one l w) = agg_key w.
Proof. unfold agg_one, agg_wait. destruct (lw_open l); [done|]. destruct (rd _ _); [|done]. cbn [mbind option_bind]. by destruct (wr _ _ _). Qed.

Lemma sum_us_app a b : sum_us (a ++ b) = sum_us a + sum_us b.
Proof. unfold sum_us. induction a as [|l a IH]; simpl; [done|]. rewrite IH. lia. Qed.

Lemma max_us_app a b : max_us (a ++ b) = Z.max (max_us a) (max_us b).
Proof.
  unfold max_us. induction a as [|l a IH]; simpl; [|rewrite IH; lia].
  assert (0 <= foldr (fun l n => Z.max (lw_us l) n) 0 b); [|lia]. induction b as [|l b IHb]; simpl; lia.
Qed.

Lemma sum_us_bound ls : Forall lw_ok ls -> 0 <= sum_us ls <= zlen ls * (2 ^ 32 - 1).
Proof. unfold sum_us. induction 1 as [|l ls [Hl _] _ IH]; simpl; [done|]. rewrite zlen_cons. lia. Qed.

Lemma max_us_bound ls : Forall lw_ok ls -> 0 <= max_us ls < 2 ^ 32.
Proof. unfold max_us. induction 1 as [|l ls [Hl _] _ IH]; simpl; lia. Qed.

Lemma caused_snoc c ls l : caused c (ls ++ [l]) = caused c ls ++ (if negb (lw_open l) && (lw_cause l =? c) then [l] else []).
Proof.
  unfold caused. rewrite filter_app, filter_cons, filter_nil. f_equal.
  case_decide as Hd; destruct (lw_open l); destruct (Z.eqb_spec (lw_cause l) c); simpl; try done; destruct Hd; done.
Qed.

Lemma caused_length c ls : zlen (caused c ls) <= zlen ls.
Proof. unfold caused, zlen. pose proof (length_filter (fun l => lw_open l = false /\ lw_cause l = c) ls). lia. Qed.

Lemma last_waker_snoc ls l :
  last_waker (ls ++ [l]) = if negb (lw_open l) && (0 <? lw_waker l) then lw_waker l else last_waker ls.
Proof.
  unfold last_waker. rewrite omap_app. simpl. destruct (_ && _); simpl; [by rewrite last_snoc|by rewrite app_nil_r].
Qed.

(** The combination of waits with one key. *)
Lemma combine_row k ls : Forall lw_ok ls -> zlen ls < 2 ^ 32 -> row_of ls (combine agg_one agg_fresh k ls).
Proof.
  intros Hok Hb. induction ls as [|l ls IH] using rev_ind.
  { split_and!; [done..|]. intros c Hc. unfold CAUSES in Hc. assert (c = 0 \/ c = 1 \/ c = 2 \/ c = 3 \/ c = 4) as Hcs by lia.
    by destruct Hcs as [->|[->|[->|[->| ->]]]]. }
  apply Forall_app in Hok as [Hok [[Hl Hlc] _]%Forall_cons]. rewrite zlen_app, zlen_cons, zlen_nil in Hb.
  destruct IH as (Hc & Ht & Hm & Hw & Hcs); [done|lia|]. unfold combine in *. rewrite foldl_app. cbn [foldl].
  set (w := foldl _ _ ls) in *. pose proof (sum_us_bound ls Hok) as Hsum. pose proof (zlen_nonneg ls).
  assert (Hlen : zlen (wa_causes w) = CAUSES).
  { unfold w. clear. induction ls as [|l ls IH] using rev_ind; [done|]. rewrite foldl_app. cbn [foldl]. set (w := foldl _ _ ls) in *.
    unfold agg_one, agg_wait. destruct (lw_open l); [done|]. destruct (rd _ _) as [c|]; [|done]. cbn [mbind option_bind].
    destruct (wr _ _ _) as [cs|] eqn:E; [|done]. simpl. by rewrite (wr_zlen _ _ _ _ E). }
  destruct (agg_wait_ok l w Hlc Hlen) as [Ew _]. unfold agg_wait in Ew. unfold row_of.
  rewrite sum_us_app, max_us_app, zlen_app. unfold sum_us at 2, max_us at 2. cbn [foldr]. rewrite zlen_cons, zlen_nil.
  destruct (if lw_open l then _ else _) as [cs|] eqn:Ecs; [|done]. cbn [mbind option_bind] in Ew. injection Ew as Ew. rewrite <- Ew.
  cbn [wa_count wa_totalUs wa_maxUs wa_causes wa_lastWaker]. rewrite Hc, Ht, Hm, Hw, last_waker_snoc. split_and!.
  - rewrite u32_small; lia.
  - rewrite wrapu_small; lia.
  - destruct (Z.ltb_spec (max_us ls) (lw_us l)); lia.
  - done.
  - intros c Hcr. rewrite caused_snoc, zlen_app. destruct (lw_open l).
    + injection Ecs as <-. rewrite Hcs by done. cbn [negb andb]. rewrite zlen_nil. f_equal. lia.
    + destruct (rd (wa_causes w) (lw_cause l)) as [x|] eqn:Ex; [|done]. cbn [mbind option_bind] in Ecs.
      rewrite (rd_wr _ _ _ _ _ Ecs) by lia. cbn [negb andb]. rewrite Hcs in Ex by done. injection Ex as <-.
      pose proof (caused_length (lw_cause l) ls). pose proof (zlen_nonneg (caused (lw_cause l) ls)).
      destruct (Z.eqb_spec (lw_cause l) c) as [<-|]; [rewrite u32_small by lia; by rewrite zlen_cons, zlen_nil|].
      rewrite Hcs by done. rewrite zlen_nil. f_equal. lia.
Qed.

(** The table of a log. *)
Lemma agg_table_spec log : Forall lw_ok log -> zlen log < 2 ^ 32 ->
  NoDup (agg_key <$> agg_table log) /\ (forall k, k ∈ agg_key <$> agg_table log <-> k ∈ wait_key <$> log) /\
  forall w, w ∈ agg_table log -> row_of (of_key wait_key (agg_key w) log) w.
Proof.
  intros Hok Hb. destruct (aggregate_spec same_wait agg_new agg_one wait_key agg_key agg_fresh) with (ls := log) as (Hnd & Hk & Hw);
    [apply same_wait_key|done|by intros [[a b] c]|apply agg_one_key|].
  split_and!; [done|done|]. intros w Hin. rewrite (Hw w Hin) at 2. apply combine_row.
  - unfold of_key. rewrite Forall_forall. intros l [_ Hl]%list_elem_of_filter. rewrite Forall_forall in Hok. by apply Hok.
  - unfold of_key, zlen in *. pose proof (length_filter (fun l => wait_key l = agg_key w) log). lia.
Qed.

(** ** The table of the edges *)

Definition hop_key (h : hop_t) : Z * Z * Z := (hp_client h, hp_server h, hp_port h).
Definition edge_key (e : edge_t) : Z * Z * Z := (ed_client e, ed_server e, ed_port e).
Definition edge_fresh (k : Z * Z * Z) : edge_t := Edge k.1.1 k.1.2 k.2 0 0 0.
Definition hop_one (h : hop_t) (e : edge_t) : edge_t := agg_edge (hp_us h) e.

Lemma same_edge_key h e : same_edge h e = true <-> edge_key e = hop_key h.
Proof.
  unfold same_edge, edge_key, hop_key. split; [intros; bprop; by f_equal; [f_equal|]|].
  intros [= -> -> ->]. by rewrite !Z.eqb_refl.
Qed.

Definition hop_sum (hs : list hop_t) : Z := foldr (fun h n => hp_us h + n) 0 hs.
Definition hop_max (hs : list hop_t) : Z := foldr (fun h n => Z.max (hp_us h) n) 0 hs.

Lemma combine_edge k hs : Forall hop_ok hs -> zlen hs < 2 ^ 32 ->
  let e := combine hop_one edge_fresh k hs in ed_count e = zlen hs /\ ed_totalUs e = hop_sum hs /\ ed_maxUs e = hop_max hs.
Proof.
  intros Hok Hb. cbn zeta. induction hs as [|h hs IH] using rev_ind; [done|].
  apply Forall_app in Hok as [Hok [Hl _]%Forall_cons]. rewrite zlen_app, zlen_cons, zlen_nil in *. pose proof (zlen_nonneg hs).
  destruct IH as (Hc & Ht & Hm); [done|lia|]. unfold combine in *. rewrite foldl_app. cbn [foldl hop_one agg_edge ed_count ed_totalUs ed_maxUs].
  rewrite Hc, Ht, Hm.
  assert (Hsum : 0 <= hop_sum hs <= zlen hs * (2 ^ 32 - 1) /\ 0 <= hop_max hs /\ hop_sum (hs ++ [h]) = hop_sum hs + hp_us h /\
    hop_max (hs ++ [h]) = Z.max (hop_max hs) (hp_us h)).
  { clear -Hok Hl. unfold hop_sum, hop_max, hop_ok in *. induction Hok as [|x xs Hx _ IH]; cbn [foldr app]; [change (zlen (@nil hop_t)) with 0|rewrite zlen_cons]; lia. }
  destruct Hsum as (? & ? & -> & ->). split_and!; [rewrite u32_small; unfold hop_ok in *; lia|rewrite wrapu_small; unfold hop_ok in *; lia|].
  destruct (Z.ltb_spec (hop_max hs) (hp_us h)); lia.
Qed.

Lemma edge_table_spec hs : Forall hop_ok hs -> zlen hs < 2 ^ 32 ->
  NoDup (edge_key <$> edge_table hs) /\ (forall k, k ∈ edge_key <$> edge_table hs <-> k ∈ hop_key <$> hs) /\
  forall e, e ∈ edge_table hs -> let own := of_key hop_key (edge_key e) hs in
    ed_count e = zlen own /\ ed_totalUs e = hop_sum own /\ ed_maxUs e = hop_max own.
Proof.
  intros Hok Hb. destruct (aggregate_spec same_edge edge_new hop_one hop_key edge_key edge_fresh) with (ls := hs) as (Hnd & Hk & Hw);
    [apply same_edge_key|done|by intros [[a b] c]|done|].
  split_and!; [done|done|]. intros e Hin. cbn zeta. rewrite (Hw e Hin) at 1 3 5. apply combine_edge.
  - unfold of_key. rewrite Forall_forall. intros h [_ Hh]%list_elem_of_filter. rewrite Forall_forall in Hok. by apply Hok.
  - unfold of_key, zlen in *. pose proof (length_filter (fun h => hop_key h = edge_key e) hs). lia.
Qed.

(** ** Whole runs *)

Implicit Types (x : trace) (s : rep_t) (evs : list ev_t).

Definition nwaits evs : Z := zlen (filter (fun ev => is_wait ev = true) evs).

(** The waits that last when the trace ends. *)
Definition tr_stop (tid : Z) x : trace := if th_waiting (tr_thr x tid) then tr_end tid (tr_last x) true x else x.
Fixpoint tr_close (k : nat) (tid : Z) x : trace :=
  match k with O => x | S k => tr_close k (tid + 1) (tr_stop tid x) end.
Definition tr_run (names : list bytes) evs : trace := tr_close (Z.to_nat NTIDS) 0 (tr_events names evs).

(** The events of a recording in their order, then the waits that last. *)
Definition report_tables (names : list bytes) evs : option rep_t := s ← process_all names evs (rep_zero []); close_waits s.

Lemma rep_zero_wf : rep_wf 0 0 trace_nil [] (rep_zero []).
Proof.
  split; try done; try (by eexists; apply hist_ok_nil); try (by exists ∅; split; [apply hist_ok_nil|]).
  - split; [done|]. split_and!; [apply NoDup_nil_2| |]; intros k m; [|done].
    split; [done|]. intros [Hm _]. by apply not_elem_of_nil in Hm.
  - intros i Hi. by destruct i as [|[|[|i]]]; [..|lia].
Qed.

Lemma nwaits_snoc evs ev : nwaits (evs ++ [ev]) = nwaits evs + Z.b2z (is_wait ev).
Proof.
  unfold nwaits. rewrite filter_app, filter_cons, filter_nil, zlen_app. f_equal. by destruct (is_wait ev).
Qed.
Lemma nwaits_bound evs : 0 <= nwaits evs <= zlen evs.
Proof. unfold nwaits, zlen. pose proof (length_filter (fun ev => is_wait ev = true) evs). lia. Qed.
Lemma samples_snoc evs ev : samples_of (evs ++ [ev]) = samples_of evs ++ option_list (sample_of ev).
Proof. unfold samples_of. rewrite omap_app. done. Qed.
Lemma samples_bound evs : zlen (samples_of evs) <= zlen evs.
Proof. induction evs as [|ev evs IH] using rev_ind; [done|]. rewrite samples_snoc, !zlen_app. destruct (sample_of ev); simpl; zlia. Qed.

(** Events on top of a state. *)
Definition tr_from (names : list bytes) x evs : trace := foldl (fun x ev => tr_event names ev (set_last (ev_ts ev) x)) x evs.

Lemma process_from names x0 s0 evs : rep_wf 0 0 x0 [] s0 -> Forall ev_ok evs -> zlen evs < 2 ^ 32 -> exists s,
  process_all names evs s0 = Some s /\ rep_wf 0 (nwaits evs) (tr_from names x0 evs) (samples_of evs) s.
Proof.
  intros H0. induction evs as [|ev evs IH] using rev_ind; intros Hok Hb; [by exists s0|].
  apply Forall_app in Hok as [Hok [Hev _]%Forall_cons]. rewrite zlen_app, zlen_cons in Hb. pose proof (zlen_nonneg (@nil ev_t)).
  destruct IH as (s & E & Hwf); [done|lia|]. pose proof (nwaits_bound evs). pose proof (samples_bound evs).
  destruct (process_ok names ev _ _ _ s Hev Hwf) as (s' & E' & Hwf'); [lia..|].
  exists s'. unfold process_all, tr_from in *. rewrite !foldl_app. simpl. rewrite E. simpl. split; [done|].
  by rewrite nwaits_snoc, samples_snoc.
Qed.

Lemma end_open_ok n x smp s tid : rep_wf 0 n x smp s -> 0 <= tid < NTIDS -> exists s',
  end_open tid s = Some s' /\ rep_wf 0 n (tr_stop tid x) smp s'.
Proof.
  intros Hwf Ht. unfold end_open, tr_stop. pose proof (wf_at _ _ _ _ _ Hwf tid Ht) as Hat.
  destruct (rp_thr s !! tid) as [t|] eqn:Et; simpl in Hat; [|rewrite Hat; by exists s].
  rewrite <- Hat in Et |- *. destruct (th_waiting (tr_thr x tid)) eqn:Ew; [|by exists s].
  rewrite (wf_last _ _ _ _ _ Hwf). destruct (waitEnd_ok 0 n x smp s tid (tr_last x) true Hwf Et Ew) as (s' & E & Hwf' & _). by exists s'.
Qed.

Lemma close_loop_ok n smp k : forall x s tid, rep_wf 0 n x smp s -> 0 <= tid -> tid + Z.of_nat k <= NTIDS -> exists s',
  for_loop tid k end_open s = Some s' /\ rep_wf 0 n (tr_close k tid x) smp s'.
Proof.
  induction k as [|k IH]; intros x s tid Hwf Ht Hk; [by exists s|]. cbn [for_loop tr_close].
  destruct (end_open_ok n x smp s tid Hwf) as (s1 & -> & Hwf1); [lia|]. cbn [mbind option_bind]. apply IH; [done|lia..].
Qed.

Lemma tr_stop_other tid x j : j <> tid -> tr_thr (tr_stop tid x) j = tr_thr x j.
Proof. intros Hne. unfold tr_stop. destruct (th_waiting _); [|done]. simpl. by destruct (Z.eqb_spec j tid). Qed.

Lemma tr_stop_done tid x : th_waiting (tr_thr (tr_stop tid x) tid) = false.
Proof. unfold tr_stop. destruct (th_waiting (tr_thr x tid)) eqn:E; [apply tr_end_waiting|done]. Qed.

Lemma tr_close_done k : forall tid x j, tid <= j < tid + Z.of_nat k \/ th_waiting (tr_thr x j) = false -> th_waiting (tr_thr (tr_close k tid x) j) = false.
Proof.
  induction k as [|k IH]; intros tid x j Hj; cbn [tr_close]; [destruct Hj; [lia|done]|]. apply IH.
  destruct (decide (j = tid)) as [->|Hne]; [right; apply tr_stop_done|]. rewrite tr_stop_other by done. destruct Hj; [left; lia|by right].
Qed.

Lemma msum_zero f m : (forall i t, m !! i = Some t -> f t = 0) -> msum f m = 0.
Proof.
  intros H. assert (Hp : 0 <= msum f m) by (apply msum_nonneg; intros i t E; by rewrite (H i t E)).
  assert (Hn : 0 <= msum (fun t => - f t) m) by (apply msum_nonneg; intros i t E; by rewrite (H i t E)).
  assert (E : msum (fun t => - f t) m = - msum f m); [|lia]. clear. induction m as [|i t m Hi IH] using map_ind; [done|].
  rewrite !msum_insert_None by done. lia.
Qed.

Lemma run_from names x0 s0 evs k : rep_wf 0 0 x0 [] s0 -> Z.of_nat k = NTIDS -> Forall ev_ok evs -> zlen evs < 2 ^ 32 ->
  exists s, (s ← process_all names evs s0; for_loop 0 k end_open s) = Some s /\
  rep_wf 0 (nwaits evs) (tr_close k 0 (tr_from names x0 evs)) (samples_of evs) s /\
  zlen (tr_log (tr_close k 0 (tr_from names x0 evs))) = nwaits evs.
Proof.
  intros H0 Hk Hok Hb. destruct (process_from names x0 s0 evs H0 Hok Hb) as (s & E & Hwf). rewrite E. cbn [mbind option_bind].
  destruct (close_loop_ok (nwaits evs) (samples_of evs) k (tr_from names x0 evs) s 0 Hwf) as (s' & E' & Hwf'); [lia..|].
  exists s'. split; [exact E'|]. split; [exact Hwf'|]. pose proof (wf_waiting _ _ _ _ _ Hwf') as Hw.
  rewrite msum_zero in Hw; [lia|]. intros tid t Et. pose proof (wf_thr _ _ _ _ _ Hwf' _ _ Et) as (Htid & _).
  pose proof (wf_at _ _ _ _ _ Hwf' tid Htid) as Hat. rewrite Et in Hat. cbn [from_option id] in Hat.
  rewrite <- Hat. unfold waiting. rewrite tr_close_done; [done|]. left. lia.
Qed.

Lemma report_from names x0 s0 evs : rep_wf 0 0 x0 [] s0 -> Forall ev_ok evs -> zlen evs < 2 ^ 32 -> exists x s1 s,
  process_all names evs s0 = Some s1 /\ close_waits s1 = Some s /\ rep_wf 0 (nwaits evs) x (samples_of evs) s.
Proof.
  unfold close_waits. assert (Hk : Z.of_nat (Z.to_nat NTIDS) = NTIDS) by (apply Z2Nat.id; done).
  revert Hk. generalize (Z.to_nat NTIDS). intros k Hk H0 Hok Hb. destruct (run_from names x0 s0 evs k H0 Hk Hok Hb) as (s & E & Hwf & _).
  destruct (process_all names evs s0) as [s1|]; [|done]. by exists (tr_close k 0 (tr_from names x0 evs)), s1, s.
Qed.

Lemma report_trace_ok names evs : Forall ev_ok evs -> zlen evs < 2 ^ 32 -> exists s, report_tables names evs = Some s /\
  rep_wf 0 (nwaits evs) (tr_run names evs) (samples_of evs) s /\ zlen (tr_log (tr_run names evs)) = nwaits evs.
Proof.
  unfold report_tables, close_waits, tr_run. assert (Hk : Z.of_nat (Z.to_nat NTIDS) = NTIDS) by (apply Z2Nat.id; done).
  revert Hk. generalize (Z.to_nat NTIDS). intros k Hk. apply (run_from names trace_nil); [apply rep_zero_wf|done].
Qed.

(** ** The tables of a run *)

Definition wit_sample : ev_t := Ev 5 0 64 0 67 ([7; 0; 0] ++ replicate 29 0 ++ [64; 16] ++ replicate 33 0) 0.
Definition wit_send : ev_t := Ev 10 1 67 0 14 ([5; 0; 3; 0; 0; 0; 1; 0; 0; 0; 9; 0; 0; 0]) 0.
Definition wit_wait : ev_t := Ev 12 2 65 0 85 ([5; 0; 0] ++ replicate 12 0 ++ [0; 0] ++ replicate 68 0) 0.
Definition wit_recv : ev_t := Ev 20 3 68 0 12 ([7; 0; 3; 0; 0; 0; 9; 0; 0; 0; 0; 0]) 0.
Definition wit_wakeup : ev_t := Ev 40 4 66 0 5 [5; 0; 7; 0; 0] 0.
Definition wit_waking : ev_t := Ev 42 5 37 0 2 [5; 0] 0.
Definition wit_evs : list ev_t := [wit_sample; wit_send; wit_wait; wit_recv; wit_wakeup; wit_waking].
Definition wit_names : list bytes := [bstr "msgSend"; bstr "nsleep"].

Lemma bytes_ok_dec l : forallb (fun b => (0 <=? b) && (b <? 256)) l = true -> bytes_ok l.
Proof. intros H. apply Forall_forall. intros b Hb. rewrite forallb_forall in H. apply list_elem_of_In in Hb. apply H in Hb. bprop. lia. Qed.

Lemma ev_ok_dec ev : forallb (fun b => (0 <=? b) && (b <? 256)) (ev_data ev) && (0 <=? ev_p ev) && (0 <? ev_len ev) &&
  (ev_p ev + ev_len ev <=? zlen (ev_data ev)) && (0 <=? ev_ts ev) && (ev_ts ev <? 2 ^ 32) = true ->
  prof_evSize (ev_id ev) (ev_data ev) (ev_p ev) (ev_len ev) = Some (ev_len ev) -> ev_ok ev.
Proof. intros H E. bprop. split; [by apply bytes_ok_dec|]. split_and!; [done..|lia|lia|]. by eexists. Qed.

Lemma wit_evs_ok : Forall ev_ok wit_evs.
Proof. unfold wit_evs. rewrite !Forall_cons. split_and!; [(apply ev_ok_dec; reflexivity)..|done]. Qed.

(** C14: the waits of a report, when memory is available: any events of a recording (fewer
    than 2^32) are processed without a fault, and the rows of the table are the waits by
    thread, system call and object, each once, with their number, their total and longest
    time, their causes and the last thread that ended one of them; every wait that began
    is in the log. *)
Theorem report_waits (names : list bytes) evs : Forall ev_ok evs -> zlen evs < 2 ^ 32 ->
  exists s, report_tables names evs = Some s /\
    let log := tr_log (tr_run names evs) in let table := tb_items (rp_waits s) in
    zlen log = nwaits evs /\ rp_nwaitEvents s = nwaits evs /\
    NoDup (agg_key <$> table) /\ (forall k, k ∈ agg_key <$> table <-> k ∈ wait_key <$> log) /\
    forall w, w ∈ table -> row_of (of_key wait_key (agg_key w) log) w.
Proof.
  intros Hok Hb. destruct (report_trace_ok names evs Hok Hb) as (s & E & Hwf & Hl). exists s. split; [done|]. cbn zeta. rewrite (proj2 (wf_waits _ _ _ _ _ Hwf)).
  pose proof (nwaits_bound evs). destruct (agg_table_spec _ (wf_log _ _ _ _ _ Hwf)) as (H1 & H2 & H3); [lia|].
  split_and!; [done|apply (wf_n _ _ _ _ _ Hwf)|done..].
Qed.

Lemma report_waits_witness : exists s, report_tables wit_names wit_evs = Some s /\ rp_nwaitEvents s = 1 /\
  forall w, w ∈ tb_items (rp_waits s) -> wa_lastWaker w = last_waker (of_key wait_key (agg_key w) (tr_log (tr_run wit_names wit_evs))).
Proof.
  destruct (report_waits wit_names wit_evs wit_evs_ok) as (s & E & _ & Hn & _ & _ & Hr); [reflexivity|].
  exists s. split; [exact E|]. split; [rewrite Hn; reflexivity|]. intros w Hin. by destruct (Hr w Hin) as (_ & _ & _ & Hw & _).
Defined.

(** Who blocked whom: the edges of a report are the messages waited for by client,
    server and port, each once, with their number, their total and their longest time;
    the server of a message is the thread that received it last, or else the one that
    ended the wait. *)
Theorem report_edges (names : list bytes) evs : Forall ev_ok evs -> zlen evs < 2 ^ 32 ->
  exists s, report_tables names evs = Some s /\
    let hops := tr_hops (tr_run names evs) in let table := tb_items (rp_edges s) in
    NoDup (edge_key <$> table) /\ (forall k, k ∈ edge_key <$> table <-> k ∈ hop_key <$> hops) /\
    forall e, e ∈ table -> let own := of_key hop_key (edge_key e) hops in
      ed_count e = zlen own /\ ed_totalUs e = hop_sum own /\ ed_maxUs e = hop_max own.
Proof.
  intros Hok Hb. destruct (report_trace_ok names evs Hok Hb) as (s & E & Hwf & Hl). exists s. split; [done|]. cbn zeta. rewrite (proj2 (wf_edges _ _ _ _ _ Hwf)).
  pose proof (nwaits_bound evs). destruct (wf_hops _ _ _ _ _ Hwf) as [Hh Hhl].
  apply edge_table_spec; [done|lia].
Qed.

Lemma report_edges_witness : exists s, report_tables wit_names wit_evs = Some s /\
  NoDup (edge_key <$> tb_items (rp_edges s)).
Proof.
  destruct (report_edges wit_names wit_evs wit_evs_ok) as (s & E & Hnd & _); [reflexivity|]. exists s. by split.
Defined.

(** The longest waits of a report are at most 64 of the log, in decreasing order, and no
    other wait is longer than one of them. *)
Theorem report_longest (names : list bytes) evs : Forall ev_ok evs -> zlen evs < 2 ^ 32 ->
  exists s rest, report_tables names evs = Some s /\
    let table := take (Z.to_nat (rp_nlongest s)) (rp_longest s) in
    zlen table = Z.min (nwaits evs) 64 /\ desc table /\ table ++ rest ≡ₚ tr_log (tr_run names evs) /\
    forall a b, a ∈ table -> b ∈ rest -> lw_us b <= lw_us a.
Proof.
  intros Hok Hb. destruct (report_trace_ok names evs Hok Hb) as (s & E & Hwf & Hl).
  revert Hwf Hl. set (x := tr_run names evs). clearbody x. intros Hwf Hl. set (log := tr_log x) in *.
  exists s, (drop 64 (long_sorted log)). split; [done|]. cbn zeta. rewrite (wf_long _ _ _ _ _ Hwf). fold log.
  pose proof (long_sorted_desc log) as Hd. rewrite <- (take_drop 64 (long_sorted log)) in Hd. unfold desc in Hd.
  apply StronglySorted_app in Hd as (Hab & Hd1 & _). split_and!.
  - rewrite zlen_take. assert (El : zlen (long_sorted log) = zlen log) by (unfold zlen; by rewrite long_sorted_length). rewrite El, Hl. lia.
  - done.
  - rewrite take_drop. apply long_sorted_perm.
  - intros a b Ha Hb'. by apply Hab.
Qed.

Lemma report_longest_witness : exists s rest, report_tables wit_names wit_evs = Some s /\
  take (Z.to_nat (rp_nlongest s)) (rp_longest s) ++ rest ≡ₚ tr_log (tr_run wit_names wit_evs).
Proof.
  destruct (report_longest wit_names wit_evs wit_evs_ok) as (s & rest & E & _ & _ & Hp & _); [reflexivity|]. exists s, rest. by split.
Defined.

(** The samples by mode add up. *)
Lemma wf_modes_sum d n x smp s : rep_wf d n x smp s -> foldr Z.add 0 (rp_nsamples s) = zlen smp.
Proof.
  intros Hwf. rewrite <- (wf_smp _ _ _ _ _ Hwf).
  pose proof (wf_nsamples _ _ _ _ _ Hwf) as Hlen. pose proof (wf_modes _ _ _ _ _ Hwf) as Hm. clear Hwf.
  pose proof (Hm 0%nat ltac:(lia)) as M0. pose proof (Hm 1%nat ltac:(lia)) as M1. pose proof (Hm 2%nat ltac:(lia)) as M2. clear Hm.
  destruct (rp_nsamples s) as [|a [|b [|c [|? ?]]]]; try done; [|unfold zlen in Hlen; simpl in Hlen; lia].
  simpl in M0, M1, M2. injection M0 as M0. injection M1 as M1. injection M2 as M2. simpl. lia.
Qed.

(** The hot program counters of a report: the listing holds the key of every sample
    exactly once, with the number of its samples, except for key 0; the samples by mode
    add up to all samples. *)
Theorem report_samples `{QsortLaws} (names : list bytes) evs : Forall ev_ok evs -> zlen evs < 2 ^ 32 ->
  exists s v, report_tables names evs = Some s /\ histSorted (rp_pcs s) [] = Some (Some v, []) /\
    NoDup (pc_key <$> v) /\ Sorted (fun a b => pcCmp a b <= 0) v /\
    (forall a, a ∈ v <-> pc_key a <> 0 /\ pc_count a = occurrences (pc_key a) (samples_of evs) /\ 0 < pc_count a) /\
    foldr Z.add 0 (rp_nsamples s) = zlen (samples_of evs).
Proof.
  intros Hok Hb. destruct (report_trace_ok names evs Hok Hb) as (s & E & Hwf & Hl).
  pose proof (samples_bound evs) as Hsb.
  destruct (histSorted_counts (rp_pcs s) (samples_of evs)) as (v & Ev & Hnd & Hs & Hin); [lia|apply (wf_pcs _ _ _ _ _ Hwf)|].
  exists s, v. split; [exact E|]. clear E. split; [exact Ev|]. split; [exact Hnd|]. split; [exact Hs|]. split; [exact Hin|].
  by apply (wf_modes_sum _ _ _ _ _ Hwf).
Qed.

Lemma report_samples_witness : exists s v, report_tables wit_names wit_evs = Some s /\ histSorted (rp_pcs s) [] = Some (Some v, []) /\
  PcHist (pcKey 7 4160) 1 ∈ v.
Proof.
  destruct (report_samples wit_names wit_evs wit_evs_ok) as (s & v & E & Ev & _ & _ & Hin & _); [reflexivity|].
  exists s, v. split; [exact E|]. split; [exact Ev|]. apply Hin. split_and!; [done|reflexivity|reflexivity].
Defined.

(** The client 5 waited 30 us for thread 7 on port 3. *)
Example wit_waits : (fun s => tb_items (rp_waits s)) <$> report_tables wit_names wit_evs =
  Some [Waitagg 5 0 3 1 30 30 [1; 0; 0; 0; 0] 7].
Proof. vm_compute. reflexivity. Qed.
Example wit_run : (fun s => (tb_items (rp_edges s), rp_nwaitEvents s, take 1 (rp_longest s))) <$> report_tables wit_names wit_evs =
  Some ([Edge 5 7 3 1 30 30], 1, [Longwait 5 0 3 12 30 0 0 7 false false 0]).
Proof. vm_compute. reflexivity. Qed.
