(* ===== verification/ReportRun.v ===== *)
(** * Making a report ([prof/report.c], [prof/event.c])

    Loading the streams of a recording, merging them by time, and the rows of the tables
    that are printed.  A row holds what its line shows; the layout of a line and the
    percentages are left out.  The files are given by their contents. *)

From stdpp Require Import gmap.
From S2P Require Import Prelude.
From S2P Require Import Clib.
From S2P Require Import Prefix.
From S2P Require Import Event.
From S2P Require Import PcHist.
From S2P Require Import Report.

(** ** Loading *)

(** The loop of [readFile]: [len] bytes are read into a buffer of [cap]. *)
Fixpoint fread_loop (fuel : nat) (contents : bytes) (cap len : Z) (m : mem) : option (option bytes * mem) :=
  match fuel with
  | O => None
  | S fuel =>
      let '(ok, cap, m) :=
        if len =? cap then
          let '(ok, m) := alloc m in (ok, if cap =? 0 then 1048576 else cap * 2, m)
        else (true, cap, m) in
      if negb ok then Some (None, m)
      else
        let got := Z.min (cap - len) (zlen contents - len) in
        if got =? 0 then Some (Some (take (Z.to_nat len) contents), m)
        else fread_loop fuel contents cap (len + got) m
  end.

(** [None]: there is no file. *)
Definition readFile (contents : option bytes) (m : mem) : option (option bytes * mem) :=
  match contents with
  | None => Some (None, m)
  | Some c => fread_loop (S (S (length c))) c 0 0 m
  end.

(** The fields of [rep] that loading fills. *)
Record load_t := Load { ld_evs : tbl ev_t; ld_files : list bytes; ld_mix : prof_mix_t; ld_mem : mem }.

Definition evPush (ev : ev_t) (evs : tbl ev_t) (m : mem) : option (Z * tbl ev_t * mem) :=
  '(i, evs, m) ← tbl_push 65536 ev evs m;
  Some (match i with Some _ => 0 | None => - ENOMEM end, evs, m).

(** The loop that looks for a boundary. *)
Fixpoint load_sync (fuel : nat) (data : bytes) (sz o : Z) : option Z :=
  match fuel with
  | O => None
  | S fuel =>
      if o + 5 <=? sz then b ← prof_syncAt data sz o; if b : bool then Some o else load_sync fuel data sz (o + 1)
      else Some o
  end.

(** [sync] is set when the next event is not known to be at [o]. *)
Fixpoint load_loop (fuel : nat) (data : bytes) (sz cpu : Z) (sync : bool) (o skipped : Z) (evs : tbl ev_t) (m : mem) :
    option (Z * Z * tbl ev_t * mem) :=
  match fuel with
  | O => None
  | S fuel =>
      if o + 5 <=? sz then
        o' ← (if sync then load_sync (S (Z.to_nat sz)) data sz o else Some o);
        let skipped := skipped + (o' - o) in
        let o := o' in
        if sync && (sz <? o + 5) then Some (0, skipped, evs, m)
        else
          ts ← prof_rd32 data o;
          id ← rd data (o + 4);
          psz ← prof_evSize id data (o + 5) (sz - o - 5);
          if psz =? 0 then load_loop fuel data sz cpu true o skipped evs m
          else
            '(rc, evs, m) ← evPush (Ev ts (u32 (zlen (tb_items evs))) id (u8 cpu) psz data (o + 5)) evs m;
            if rc <? 0 then Some (- ENOMEM, skipped, evs, m)
            else load_loop fuel data sz cpu false (o + 5 + psz) skipped evs m
      else Some (0, skipped, evs, m)
  end.

Definition loadStream (contents : option bytes) (cpu : Z) (l : load_t) : option (Z * load_t) :=
  '(data, m) ← readFile contents (ld_mem l);
  match data with
  | None => Some (- ENOENT, Load (ld_evs l) (ld_files l) (ld_mix l) m)
  | Some data =>
      let '(ok, m) := alloc m in
      if negb ok then Some (- ENOMEM, Load (ld_evs l) (ld_files l) (ld_mix l) m)
      else
        let sz := zlen data in
        mix ← prof_mixAdd (ld_mix l) data sz cpu;
        '(rc, _, evs, m) ← load_loop (S (2 * length data)) data sz cpu true 0 0 (ld_evs l) m;
        Some (rc, Load evs (ld_files l ++ [data]) mix m)
  end.

Definition evCmp (x y : ev_t) : Z :=
  if negb (ev_ts x =? ev_ts y) then if ev_ts x <? ev_ts y then -1 else 1
  else if ev_seq x <? ev_seq y then -1 else if ev_seq y <? ev_seq x then 1 else 0.

(** The streams of the processors, until one has neither: [files kind cpu]. *)
Fixpoint load_cpus (fuel : nat) (files : bool -> Z -> option bytes) (cpu : Z) (l : load_t) : option (Z * load_t) :=
  match fuel with
  | O => None
  | S fuel =>
      '(r0, l) ← loadStream (files false cpu) cpu l;
      '(r1, l) ← loadStream (files true cpu) cpu l;
      if negb (r0 =? 0) && negb (r1 =? 0) then Some (cpu, l) else load_cpus fuel files (cpu + 1) l
  end.

(** ** Names from the start of the recording *)

(** [" %159[^\n]"]. *)
Definition scan_rest (s : bytes) : option bytes :=
  let r := take 159 (cstr (fst (fgets_line (length s) (skip_spaces s)))) in
  let r := filter (fun c => c <> 10) r in
  if zlen r =? 0 then None else Some r.

(** ["<word> %u %d %d %159[^\n]"], all four of them. *)
Definition scan_thread (w : string) (line : bytes) : option (Z * Z * bytes) :=
  s ← scan_word (bstr w) line;
  '(tid, s) ← scan_int s;
  '(pid, s) ← scan_int s;
  '(_, s) ← scan_int s;
  name ← scan_rest s;
  Some (tid, pid, name).

Definition scan_pid (w : string) (line : bytes) : option Z :=
  s ← scan_word (bstr w) line; '(v, _) ← scan_int s; Some v.

(** The filters of a report: [pidFilter] and [selfPid]. *)
Record filter_t := Filter { fl_pid : Z; fl_self : Z }.

(** The lines of the filters. *)
Definition info_filter (line : bytes) (fl : filter_t) : filter_t :=
  match (if fl_pid fl =? 0 then scan_pid "pid" line else None) with
  | Some pid => Filter pid (fl_self fl)
  | None => match scan_pid "self" line with Some pid => Filter (fl_pid fl) pid | None => fl end
  end.

Definition info_line (line : bytes) (fl : filter_t) (s : rep_t) : option (filter_t * rep_t) :=
  let line := cstr line in
  match (match scan_thread "thread" line with Some r => Some r | None => scan_thread "thread-end" line end) with
  | Some (tid, pid, name) =>
      let '(t, s) := thrGet tid s in
      match t with
      | Some t =>
          if th_pid t <? 0 then t ← thrSetName t pid name 0 (zlen name); Some (fl, put_thr tid t s)
          else Some (info_filter line fl, s)
      | None => Some (info_filter line fl, s)
      end
  | None => Some (info_filter line fl, s)
  end.

Fixpoint info_loop (fuel : nat) (contents : bytes) (fl : filter_t) (s : rep_t) : option (filter_t * rep_t) :=
  match fuel with
  | O => None
  | S fuel =>
      match contents with
      | [] => Some (fl, s)
      | _ =>
          let '(line, rest) := fgets_line 255 contents in
          '(fl, s) ← info_line line fl s;
          info_loop fuel rest fl s
      end
  end.

Definition loadInfo (contents : option bytes) (fl : filter_t) (s : rep_t) : option (filter_t * rep_t) :=
  match contents with None => Some (fl, s) | Some c => info_loop (S (length c)) c fl s end.

(** ** Rows *)

Definition NPROCS : Z := 1024.

Record procagg_t := Procagg { pa_pid : Z; pa_user : Z; pa_kernel : Z; pa_name : bytes }.
Definition procCmp (x y : procagg_t) : Z := cmpDesc64 (u64 (pa_user x + pa_kernel x)) (u64 (pa_user y + pa_kernel y)).
Definition waitCmp (x y : waitagg_t) : Z := cmpDesc64 (wa_totalUs x) (wa_totalUs y).
Definition edgeCmp (x y : edge_t) : Z := cmpDesc64 (ed_totalUs x) (ed_totalUs y).

(** [snprintf(buf, sz, ...)]. *)
Definition snprintf (sz : Z) (text : bytes) : bytes := take (Z.to_nat (sz - 1)) text.

Definition proc_name (self : Z) (t : thr_t) : bytes :=
  snprintf NAME_LEN (take 36 (if th_pid t =? 0 then bstr "[kernel threads + idle]" else th_name t) ++
    (if (0 <? self) && (th_pid t =? self) then bstr " (recorder)" else [])).

Definition sample_at (t : thr_t) (i : Z) : option Z := rd (th_samples t) i.

(** The samples of a thread added to its process. *)
Definition cpu_step (self : Z) (thr : gmap Z thr_t) (tid : Z) (procs : list procagg_t) : option (list procagg_t) :=
  match thr !! tid with
  | None => Some procs
  | Some t =>
      s0 ← sample_at t 0; s1 ← sample_at t 1; s2 ← sample_at t 2;
      if u32 (u32 (s0 + s1) + s2) =? 0 then Some procs
      else
        let '(procs, j) :=
          match find_first (fun x => pa_pid x =? th_pid t) 0 procs with
          | Some j => (procs, Some j)
          | None => if zlen procs =? NPROCS then (procs, None)
                    else (procs ++ [Procagg (th_pid t) 0 0 (proc_name self t)], Some (zlen procs))
          end in
        match j with
        | None => Some procs
        | Some j =>
            x ← rd procs j;
            wr procs j (Procagg (pa_pid x) (u64 (pa_user x + s0)) (u64 (pa_kernel x + u32 (s1 + s2))) (pa_name x))
        end
  end.

(** A line of the table of the busiest threads. *)
Record pcs_row := PcsRow {
  pr_tid : Z; pr_thr : thr_t; pr_samples : Z; pr_pcs : list (Z * Z);
  pr_entries : list (bytes * Z); pr_callers : list (Z * Z) }.

Record thrrank_t := Thrrank { rk_tid : Z; rk_samples : Z }.
Definition thrRankCmp (x y : thrrank_t) : Z := cmpDesc64 (rk_samples x) (rk_samples y).

(** The first [k] entries of a thread. *)
Definition of_thread (k : nat) (tid : Z) (v : list pchist_t) : list pchist_t := take k (filter (fun x => pcTid (pc_key x) = tid) v).

Definition prof_exceptionName (eclass : Z) : bytes :=
  bstr (if eclass =? 36 then "data abort (page fault)"
        else if eclass =? 32 then "instruction abort (page fault)"
        else if eclass =? 0 then "undefined instruction"
        else if eclass =? 7 then "FP/SIMD access"
        else if eclass =? 34 then "PC alignment"
        else if eclass =? 38 then "SP alignment"
        else if eclass =? 44 then "FP exception"
        else if eclass =? 60 then "BRK"
        else "exception").

Section rows.
Context (syscallNames : list bytes) `{Qsort}.
Context (fl : filter_t) (top : Z).

Definition describeWait (sz syscall obj : Z) : bytes :=
  snprintf sz
    match sc_name syscallNames syscall with
    | None => bstr "kernel queue 0x" ++ hex_pad 8 obj
    | Some name =>
        if is_name name "msgSend" || is_name name "msgRecv" then name ++ bstr " port " ++ dec obj
        else if is_name name "nsleep" then bstr "nsleep"
        else if is_name name "phMutexLock" || is_name name "phCondWait" then name ++ bstr " handle " ++ dec obj
        else name ++ bstr " 0x" ++ hex_pad 1 obj
    end.

(** [None] inside: there is no table. *)
Definition printCpu (s : rep_t) : option (option (list procagg_t) * rep_t) :=
  let '(ok, m) := alloc (rp_mem s) in
  let s := set_mem m s in
  n0 ← rd (rp_nsamples s) 0; n1 ← rd (rp_nsamples s) 1; n2 ← rd (rp_nsamples s) 2;
  if negb ok || (u64 (n0 + n1 + n2) =? 0) then Some (None, s)
  else
    procs ← for_loop 0 (Z.to_nat NTIDS) (cpu_step (fl_self fl) (rp_thr s)) [];
    Some (Some (qsort procCmp procs), s).

Definition rank_step (s : rep_t) (tid : Z) (rank : list thrrank_t) : option (list thrrank_t) :=
  match rp_thr s !! tid with
  | None => Some rank
  | Some t =>
      s0 ← sample_at t 0; s1 ← sample_at t 1;
      Some (if (0 <? th_pid t) && negb (u32 (s0 + s1) =? 0) && thrSelected (fl_self fl) (fl_pid fl) s tid
            then rank ++ [Thrrank tid (u32 (s0 + s1))] else rank)
  end.

Definition entry_name (value : Z) : option bytes :=
  if value =? ENTRY_UNKNOWN then Some (bstr "?")
  else if negb (Z.land value ENTRY_EXCEPTION =? 0) then Some (prof_exceptionName (Z.land value 255))
  else if s32 value <? zlen syscallNames then rd syscallNames value
  else Some (bstr "syscall?").

Definition pcs_line (s : rep_t) (pcs ent kc : list pchist_t) (r : thrrank_t) : option pcs_row :=
  t ← rp_thr s !! rk_tid r;
  s1 ← sample_at t 1;
  let values k v := (fun x => (pcValue (pc_key x), pc_count x)) <$> of_thread k (rk_tid r) v in
  if s1 =? 0 then Some (PcsRow (rk_tid r) t (rk_samples r) (values 5%nat pcs) [] [])
  else
    entries ← mapM (fun x => n ← entry_name (pcValue (pc_key x)); Some (take 47 n, pc_count x)) (of_thread 6 (rk_tid r) ent);
    Some (PcsRow (rk_tid r) t (rk_samples r) (values 5%nat pcs) entries (values 5%nat kc)).

Definition printPcs (s : rep_t) : option (option (list pcs_row) * rep_t) :=
  let '(ok, m) := alloc (rp_mem s) in
  let s := set_mem m s in
  if negb ok then Some (None, s)
  else
    rank ← for_loop 0 (Z.to_nat NTIDS) (rank_step s) [];
    '(pcs, m) ← histSorted (rp_pcs s) (rp_mem s);
    '(ent, m) ← histSorted (rp_kentry s) m;
    '(kc, m) ← histSorted (rp_kcaller s) m;
    let s := set_mem m s in
    match pcs, ent, kc with
    | Some pcs, Some ent, Some kc =>
        rows ← mapM (pcs_line s pcs ent kc) (take (Z.to_nat top) (qsort thrRankCmp rank));
        Some (Some rows, s)
    | _, _, _ => Some (None, s)
    end.

(** The lines of a table: the first [k] that are selected. *)
Definition shown {A} (k : Z) (sel : A -> bool) (l : list A) : list A := take (Z.to_nat k) (filter (fun x => sel x = true) l).

Definition selected (s : rep_t) (tid : Z) : bool := thrSelected (fl_self fl) (fl_pid fl) s tid.

Definition printWaits (s : rep_t) : list (waitagg_t * bytes) * rep_t :=
  let l := qsort waitCmp (tb_items (rp_waits s)) in
  let s := set_waits (set_items l (rp_waits s)) (rp_mem s) s in
  ((fun w => (w, describeWait 64 (wa_syscall w) (wa_obj w))) <$> shown (u32 (4 * top)) (fun w => selected s (wa_tid w)) l, s).

Definition printLongest (s : rep_t) : list (longwait_t * bytes) :=
  (fun l => (l, describeWait 64 (lw_syscall l) (lw_obj l))) <$>
    shown top (fun l => selected s (lw_tid l)) (take (Z.to_nat (rp_nlongest s)) (rp_longest s)).

Definition printEdges (s : rep_t) : list edge_t * rep_t :=
  let l := qsort edgeCmp (tb_items (rp_edges s)) in
  let s := set_edges (set_items l (rp_edges s)) (rp_mem s) s in
  (shown (u32 (2 * top)) (fun e => selected s (ed_client e) || selected s (ed_server e)) l, s).
End rows.

(** ** The event mix *)

(** A line: the event, its count and its bytes over all processors. *)
Record mix_row := MixRow { mr_id : Z; mr_count : Z; mr_bytes : Z }.

Definition mix_sum (f : Z -> Z -> Z) (id : Z) (ncpus : nat) : Z := foldl (fun n c => u64 (n + f id c)) 0 (seqZ 0 (Z.of_nat ncpus)).

(** The largest of the events not yet shown: [pick] and [best]. *)
Definition mix_pick (bytes_of : Z -> Z) (shown : list Z) : Z * Z :=
  foldl (fun '(pick, best) i => if bool_decide (i ∉ shown) && (best <? bytes_of i) then (i, bytes_of i) else (pick, best))
    (256, 0) (seqZ 0 256).

Fixpoint mix_rows (fuel : nat) (mix : prof_mix_t) (ncpus : nat) (shown : list Z) : option (list mix_row) :=
  match fuel with
  | O => None
  | S fuel =>
      let '(pick, best) := mix_pick (fun i => mix_sum (mx_bytes mix) i ncpus) shown in
      if pick =? 256 then Some []
      else
        rows ← mix_rows fuel mix ncpus (pick :: shown);
        Some (MixRow pick (mix_sum (mx_count mix) pick ncpus) best :: rows)
  end.

Definition prof_mixPrint (mix : prof_mix_t) (ncpus : Z) : option (list mix_row) :=
  mix_rows 257 mix (Z.to_nat (if PROF_MAX_CPUS <? ncpus then PROF_MAX_CPUS else ncpus)) [].

(** ** The report *)

Record report_t := Report {
  rt_ncpus : Z; rt_nevs : Z; rt_samples : Z; rt_waits : Z; rt_lastTs : Z;
  rt_mix : list mix_row; rt_cpu : option (list procagg_t); rt_pcs : option (list pcs_row);
  rt_longest : list (longwait_t * bytes); rt_waitRows : list (waitagg_t * bytes); rt_edges : list edge_t }.

(** [strtol(s, NULL, 0)] where [long] has 64 bits. *)
Definition strtol (s : bytes) : Z :=
  let '(neg, s) := number_sign (skip_spaces s) in
  let '(base, s) := number_base s in
  let '(v, _) := digits base 0 s in
  let v := if neg then - v else v in
  Z.max (- 2 ^ 63) (Z.min (2 ^ 63 - 1) v).

(** The results of [getopt]: [None] is an unknown option. *)
Fixpoint report_opts (opts : list (option Z * bytes)) (pid top : Z) : option (Z * Z) :=
  match opts with
  | [] => Some (pid, top)
  | (Some 112, arg) :: opts => report_opts opts (s32 (strtol arg)) top
  | (Some 110, arg) :: opts => report_opts opts pid (u32 (default 0 (fst <$> strtoul 64 arg)))
  | _ => None
  end.

Section report.
Context (syscallNames : list bytes) `{Qsort}.

Definition mix_init : prof_mix_t := Mix (fun _ _ => 0) (fun _ _ => 0) 0 false 0 0.

(** What is printed from the events in their order. *)
Definition report_rows (fl : filter_t) (top ncpus : Z) (mix : prof_mix_t) (evs : list ev_t) (s : rep_t) : option report_t :=
  s ← process_all syscallNames evs s;
  s ← close_waits s;
  n0 ← rd (rp_nsamples s) 0; n1 ← rd (rp_nsamples s) 1; n2 ← rd (rp_nsamples s) 2;
  let nwaits := rp_nwaitEvents s in let lastTs := rp_lastTs s in
  mrows ← prof_mixPrint mix ncpus;
  '(cpu, s) ← printCpu fl s;
  '(pcs, s) ← printPcs syscallNames fl top s;
  let longest := printLongest syscallNames fl top s in
  let '(waits, s) := printWaits syscallNames fl top s in
  let '(edges, s) := printEdges fl top s in
  Some (Report ncpus (zlen evs) (u64 (n0 + n1 + n2)) nwaits lastTs mrows cpu pcs longest waits edges).

(** The exit code, and the report if there is one.  [info] and [files] are the contents
    of the directory; [fuel] is more than its number of processors. *)
Definition prof_report (fuel : nat) (opts : list (option Z * bytes)) (info : option bytes) (files : bool -> Z -> option bytes)
    (m : mem) : option (Z * option report_t) :=
  match report_opts opts 0 10 with
  | None => Some (1, None)
  | Some (pid, top) =>
      '(fl, s) ← loadInfo info (Filter pid 0) (rep_zero m);
      '(ncpus, l) ← load_cpus fuel files 0 (Load tbl_nil [] mix_init (rp_mem s));
      if zlen (tb_items (ld_evs l)) =? 0 then Some (1, None)
      else
        r ← report_rows fl top ncpus (ld_mix l) (qsort evCmp (tb_items (ld_evs l))) (set_mem (ld_mem l) s);
        Some (0, Some r)
  end.
End report.
