(* ===== verification/ReportRunSpec.v ===== *)
(** * A report from the files of a recording

    Whatever the files hold, loading ends inside their bounds and gives whole events; a
    recorded stream is loaded event by event; the merged events are in the order of
    time; the rows can always be printed. *)

From stdpp Require Import gmap sorting.
From S2P Require Import Prelude.
From S2P Require Import Event.
From S2P Require Import EventSpec.
From S2P Require Import PcHist.
From S2P Require Import PcHistSpec.
From S2P Require Import Report.
From S2P Require Import ReportSpec.
From S2P Require Import ReportClaims.
From S2P Require Import ReportRun.

(** ** Reading files *)

Lemma fread_loop_ok c fuel : forall cap len, 0 <= len <= cap -> len <= zlen c -> (len = 0 \/ 0 < cap) -> (cap = 0 -> len = 0) ->
  (Z.to_nat (zlen c - len) < fuel)%nat -> fread_loop fuel c cap len [] = Some (Some c, []).
Proof.
  induction fuel as [|fuel IH]; intros cap len Hl Hlc H0 Hc Hf; [lia|]. cbn [fread_loop].
  assert (Hroom : exists cap', (if len =? cap then let '(ok, m) := alloc [] in (ok, if cap =? 0 then 1048576 else cap * 2, m) else (true, cap, []))
    = (true, cap', []) /\ len < cap').
  { destruct (Z.eqb_spec len cap) as [E|E]; simpl; [|exists cap; split; [done|lia]].
    destruct (Z.eqb_spec cap 0); eexists; (split; [reflexivity|]); lia. }
  destruct Hroom as (cap' & -> & Hcap'). cbn [negb]. destruct (Z.eqb_spec (Z.min (cap' - len) (zlen c - len)) 0) as [E|E].
  - rewrite take_ge; [done|]. unfold zlen in *. lia.
  - apply IH; lia.
Qed.

Lemma readFile_ok c : readFile (Some c) [] = Some (Some c, []).
Proof. unfold readFile. apply fread_loop_ok; try lia; [apply zlen_nonneg|unfold zlen; lia]. Qed.

(** ** Loading a stream *)

Section stream.
Context (data : bytes) (cpu : Z) (Hd : bytes_ok data).
#[local] Abbreviation sz := (zlen data).

Lemma load_sync_ok fuel : forall o, 0 <= o -> (Z.to_nat (sz - o) < fuel)%nat -> exists o', load_sync fuel data sz o = Some o' /\ o <= o' /\
  (sz < o' + 5 \/ o' + 5 <= sz /\ prof_syncAt data sz o' = Some true).
Proof.
  induction fuel as [|fuel IH]; intros o Ho Hf; [lia|]. cbn [load_sync].
  destruct (Z.leb_spec (o + 5) sz); [|exists o; split; [done|lia]].
  destruct (sync_total data sz Hd ltac:(split; [apply zlen_nonneg|lia]) RESYNC_RUN 0 0 o Ho) as [b Eb]. unfold prof_syncAt at 1. rewrite Eb. cbn [mbind option_bind].
  destruct b; [exists o; split; [done|]; split; [lia|by right]|].
  destruct (IH (o + 1)) as (o' & -> & Hle & Hend); [lia..|]. exists o'. split; [done|]. split; [lia|done].
Qed.

Lemma evPush_ok ev evs : tbl_ok evs -> exists evs', evPush ev evs [] = Some (0, evs', []) /\
  tb_items evs' = tb_items evs ++ [ev] /\ tbl_ok evs'.
Proof.
  intros Hok. unfold evPush. destruct (tbl_push_ok 65536 ev evs) as (t & -> & Hit & Ht); [lia|done|]. by exists t.
Qed.

(** The events have their place as their number. *)
Definition numbered (l : list ev_t) : Prop := forall (i : nat) ev, l !! i = Some ev -> ev_seq ev = u32 (Z.of_nat i).

Lemma numbered_snoc l ev : numbered l -> ev_seq ev = u32 (zlen l) -> numbered (l ++ [ev]).
Proof.
  intros Hl He i ev'. rewrite lookup_app_Some. intros [E|[Hi E]]; [by apply Hl|].
  apply list_lookup_singleton_Some in E as [Hi0 <-]. rewrite He. unfold zlen. f_equal. lia.
Qed.

Lemma load_loop_ok fuel : forall (sync : bool) o skipped evs, 0 <= o <= sz -> 2 * (sz - o) + (if sync then 0 else 1) < Z.of_nat fuel ->
  tbl_ok evs -> numbered (tb_items evs) -> exists skipped' evs' new,
  load_loop fuel data sz cpu sync o skipped evs [] = Some (0, skipped', evs', []) /\ tbl_ok evs' /\
  tb_items evs' = tb_items evs ++ new /\ Forall ev_ok new /\ numbered (tb_items evs') /\ zlen new <= sz - o.
Proof.
  assert (Hnn : 0 <= sz) by apply zlen_nonneg.
  induction fuel as [|fuel IH]; intros sync o skipped evs Ho Hf Hok Hnum; [destruct sync; lia|]. cbn [load_loop].
  assert (Hdone : forall sk, exists skipped' evs' new, @Some (Z * Z * tbl ev_t * mem) (0, sk, evs, []) = Some (0, skipped', evs', []) /\ tbl_ok evs' /\
    tb_items evs' = tb_items evs ++ new /\ Forall ev_ok new /\ numbered (tb_items evs') /\ zlen new <= sz - o).
  { intros sk. exists sk, evs, []. rewrite app_nil_r. split_and!; try done. change (zlen (@nil ev_t)) with 0. lia. }
  destruct (Z.leb_spec (o + 5) sz) as [Hle|]; [|apply Hdone].
  assert (Hpos : exists o', (if sync then load_sync (S (Z.to_nat sz)) data sz o else Some o) = Some o' /\ o <= o' /\
    (sync = false /\ o' = o \/ sync = true /\ (sz < o' + 5 \/ o' + 5 <= sz /\ prof_syncAt data sz o' = Some true))).
  { destruct sync; [|exists o; split; [done|]; split; [lia|by left]].
    destruct (load_sync_ok (S (Z.to_nat sz)) o (proj1 Ho)) as (o' & -> & Hle' & Hend); [lia|]. exists o'. auto. }
  destruct Hpos as (o' & -> & Hoo & Hcase). cbn [mbind option_bind]. set (sk := skipped + (o' - o)).
  destruct (sync && (sz <? o' + 5)) eqn:Estop; [apply Hdone|].
  assert (Ho5 : o' + 5 <= sz) by (destruct Hcase as [[-> ->]|[-> [?|[? _]]]]; simpl in Estop; bprop; lia).
  destruct (rd32_ok data o' Hd) as (ts & -> & Hts); [lia..|]. destruct (rd_byte data (o' + 4) Hd) as (id & Eid & _); [lia|].
  rewrite Eid. cbn [mbind option_bind].
  destruct (evSize_at data sz Hd ltac:(lia) o' id) as (r & Er & Hr & Hfit); [lia..|]. rewrite Er. cbn [mbind option_bind].
  destruct (Z.eqb_spec r 0) as [->|Hr0].
  - destruct Hcase as [[-> ->]|[-> [?|[_ Hs]]]]; [apply IH; try done; lia|lia|].
    apply sync_event in Hs as (id' & r' & E1 & E2 & E3 & _); [|done|lia..]. rewrite Eid in E1. injection E1 as <-. rewrite Er in E2. injection E2 as <-. lia.
  - set (ev := Ev ts _ id _ r data (o' + 5)). destruct (evPush_ok ev evs Hok) as (evs1 & -> & Hit & Hok1). cbn [mbind option_bind].
    change (0 <? 0) with false. cbn iota.
    assert (Hev : ev_ok ev) by (split; [done|]; split_and!; simpl; try lia; by eexists).
    destruct (IH false (o' + 5 + r) sk evs1) as (sk' & evs2 & new & E & Hok2 & Hit2 & Hnew & Hnum2 & Hln); [lia|destruct sync; lia|done| |].
    { rewrite Hit. by apply numbered_snoc. }
    exists sk', evs2, (ev :: new). split; [exact E|]. split; [done|]. rewrite Hit2, Hit, <- (assoc_L (++)). split; [done|]. split; [by constructor|]. split; [|rewrite zlen_cons; lia].
    by rewrite <- (assoc_L (++)), <- Hit, <- Hit2 || (rewrite Hit2, Hit, <- (assoc_L (++)) in Hnum2; done).
Qed.
End stream.

(** ** Loading a recording *)

Record load_wf (l : load_t) : Prop := {
  ldw_mem : ld_mem l = [];
  ldw_tbl : tbl_ok (ld_evs l);
  ldw_evs : Forall ev_ok (tb_items (ld_evs l));
  ldw_num : numbered (tb_items (ld_evs l)) }.

Lemma loadStream_some c cpu l : load_wf l -> bytes_ok c -> exists l' new, loadStream (Some c) cpu l = Some (0, l') /\ load_wf l' /\
  tb_items (ld_evs l') = tb_items (ld_evs l) ++ new /\ zlen new <= zlen c.
Proof.
  intros [Hm Ht He Hn] Hc. unfold loadStream. rewrite Hm, readFile_ok. cbn [mbind option_bind alloc negb].
  destruct (mixAdd_total c (zlen c) Hc ltac:(split; [apply zlen_nonneg|lia]) (ld_mix l) cpu) as [mix ->]. cbn [mbind option_bind].
  pose proof (zlen_nonneg c).
  destruct (load_loop_ok c cpu Hc (S (2 * length c)) true 0 0 (ld_evs l)) as (sk & evs & new & -> & Ht' & Hit & Hnew & Hnum & Hln); [lia|unfold zlen; lia|done..|].
  cbn [mbind option_bind]. eexists _, new. split; [done|]. split; [|split; [done|lia]]. split; try done. simpl. rewrite Hit. by apply Forall_app.
Qed.

Lemma loadStream_ok c cpu l : load_wf l -> (forall d, c = Some d -> bytes_ok d) -> exists rc l', loadStream c cpu l = Some (rc, l') /\ load_wf l' /\
  (rc = 0 <-> is_Some c) /\ zlen (tb_items (ld_evs l')) <= zlen (tb_items (ld_evs l)) + from_option zlen 0 c.
Proof.
  intros Hl Hc. destruct c as [d|].
  - destruct (loadStream_some d cpu l Hl) as (l' & new & -> & Hl' & Hit & Hln); [by apply Hc|]. exists 0, l'.
    split_and!; [done|done|by split; eauto|]. rewrite Hit, zlen_app. simpl. lia.
  - exists (- ENOENT), l. pose proof Hl as []. unfold loadStream. simpl. rewrite ldw_mem0. cbn [mbind option_bind].
    split; [by destruct l; simpl in *; subst|]. split; [done|]. split; [split; [done|by intros []]|]. simpl. lia.
Qed.

(** The directory has streams of the processors below [n]. *)
Definition recorded (files : bool -> Z -> option bytes) (n : Z) : Prop :=
  0 <= n /\ (forall kind cpu d, files kind cpu = Some d -> bytes_ok d) /\
  (forall cpu, 0 <= cpu < n -> is_Some (files false cpu) \/ is_Some (files true cpu)) /\
  files false n = None /\ files true n = None.

(** The bytes of the streams of the processors from [cpu] on. *)
Definition bytes_from (files : bool -> Z -> option bytes) (cpu n : Z) : Z :=
  foldr (fun c b => from_option zlen 0 (files false c) + from_option zlen 0 (files true c) + b) 0 (seqZ cpu (n - cpu)).
Definition stream_bytes (files : bool -> Z -> option bytes) (n : Z) : Z := bytes_from files 0 n.

Lemma load_cpus_ok files n fuel : recorded files n -> forall cpu l, load_wf l -> 0 <= cpu <= n -> n - cpu < Z.of_nat fuel ->
  exists l', load_cpus fuel files cpu l = Some (n, l') /\ load_wf l' /\
    zlen (tb_items (ld_evs l')) <= zlen (tb_items (ld_evs l)) + bytes_from files cpu n.
Proof.
  intros (Hn & Hb & Hsome & N0 & N1). induction fuel as [|fuel IH]; intros cpu l Hl Hc Hf; [lia|]. cbn [load_cpus].
  destruct (loadStream_ok (files false cpu) cpu l Hl) as (r0 & l1 & -> & Hl1 & H0 & Hz0); [intros; by eapply Hb|]. cbn [mbind option_bind].
  destruct (loadStream_ok (files true cpu) cpu l1 Hl1) as (r1 & l2 & -> & Hl2 & H1 & Hz1); [intros; by eapply Hb|]. cbn [mbind option_bind].
  destruct (decide (cpu = n)) as [->|Hne].
  - rewrite N0 in H0. rewrite N1 in H1. destruct (Z.eqb_spec r0 0) as [E|]; [by apply H0 in E as []|].
    destruct (Z.eqb_spec r1 0) as [E|]; [by apply H1 in E as []|]. exists l2. split; [done|]. split; [done|].
    unfold bytes_from. rewrite Z.sub_diag. rewrite N0 in Hz0. rewrite N1 in Hz1. simpl in *. lia.
  - assert (E : negb (r0 =? 0) && negb (r1 =? 0) = false).
    { destruct (Hsome cpu) as [Hs|Hs]; [lia|apply H0 in Hs as ->; done|apply H1 in Hs as ->; apply andb_false_r]. }
    rewrite E. destruct (IH (cpu + 1) l2 Hl2) as (l' & El & Hl' & Hz); [lia..|]. exists l'. split; [done|]. split; [done|].
    unfold bytes_from in *. rewrite seqZ_cons by lia. cbn [foldr]. replace (Z.succ cpu) with (cpu + 1) by lia.
    replace (Z.pred (n - cpu)) with (n - (cpu + 1)) by lia. lia.
Qed.

(** ** The order of the events *)

Lemma evCmp_le x y : evCmp x y <= 0 <-> ev_ts x < ev_ts y \/ ev_ts x = ev_ts y /\ ev_seq x <= ev_seq y.
Proof.
  unfold evCmp. destruct (Z.eqb_spec (ev_ts x) (ev_ts y)) as [E|E]; simpl.
  - destruct (Z.ltb_spec (ev_seq x) (ev_seq y)), (Z.ltb_spec (ev_seq y) (ev_seq x)); lia.
  - destruct (Z.ltb_spec (ev_ts x) (ev_ts y)); lia.
Qed.

Lemma evCmp_preorder : total_preorder evCmp.
Proof. split; intros x y; [|intros z]; rewrite !evCmp_le; lia. Qed.

Definition in_order (l : list ev_t) : Prop := StronglySorted (fun x y => evCmp x y <= 0) l.

Lemma qsort_in_order `{QsortLaws} l : in_order (qsort evCmp l).
Proof. apply Sorted_StronglySorted; [intros x y z; apply (cmp_trans _ evCmp_preorder)|]. apply qsort_sorted, evCmp_preorder. Qed.

(** Events with different numbers have one order. *)
Lemma in_order_unique l : forall k, l ≡ₚ k -> NoDup (ev_seq <$> l) -> in_order l -> in_order k -> l = k.
Proof.
  induction l as [|x l IH]; intros k Hp Hnd Hl Hk; [by apply Permutation_nil_l in Hp|].
  destruct k as [|y k]; [by symmetry in Hp; apply Permutation_nil_l in Hp|].
  apply StronglySorted_inv in Hl as [Hl Hx], Hk as [Hk Hy]. rewrite fmap_cons in Hnd. apply NoDup_cons in Hnd as [Hxn Hnd].
  assert (x = y) as <-.
  { assert (Hxin : x ∈ y :: k) by (rewrite <- Hp; by left). assert (Hyin : y ∈ x :: l) by (rewrite Hp; by left).
    apply elem_of_cons in Hxin as [|Hxin]; [done|]. apply elem_of_cons in Hyin as [|Hyin]; [done|].
    rewrite Forall_forall in Hx, Hy. pose proof (Hx y Hyin) as H1. pose proof (Hy x Hxin) as H2. rewrite evCmp_le in H1, H2.
    exfalso. apply Hxn. assert (E : ev_seq x = ev_seq y) by lia. rewrite E. by apply list_elem_of_fmap_2. }
  f_equal. apply IH; try done. by apply Permutation_cons_inv in Hp.
Qed.

Lemma numbered_NoDup l : numbered l -> zlen l <= 2 ^ 32 -> NoDup (ev_seq <$> l).
Proof.
  intros Hn Hl. apply NoDup_alt. intros i j v Hi Hj. rewrite list_lookup_fmap in Hi, Hj.
  destruct (l !! i) as [x|] eqn:Ei; [|done]. destruct (l !! j) as [y|] eqn:Ej; [|done]. simpl in *. injection Hi as Hi. injection Hj as Hj.
  pose proof (lookup_lt_Some _ _ _ Ei). pose proof (lookup_lt_Some _ _ _ Ej). unfold zlen in Hl.
  apply Hn in Ei, Ej. rewrite u32_small in Ei, Ej by lia. lia.
Qed.

(** Merging: the loaded events of all streams are processed in the order of time, and
    events of the same time in the order they were loaded; no implementation of [qsort]
    gives another order. *)
Theorem merge_by_time `{QsortLaws} (l : list ev_t) : numbered l -> zlen l <= 2 ^ 32 ->
  qsort evCmp l ≡ₚ l /\ in_order (qsort evCmp l) /\ (forall k, k ≡ₚ l -> in_order k -> k = qsort evCmp l).
Proof.
  intros Hn Hl. split; [apply qsort_perm|]. split; [apply qsort_in_order|]. intros k Hp Hk. symmetry.
  assert (Hpk : qsort evCmp l ≡ₚ k) by (by rewrite qsort_perm, Hp).
  apply in_order_unique; [done| |apply qsort_in_order|done]. rewrite qsort_perm. by apply numbered_NoDup.
Qed.

Lemma merge_by_time_witness : qsort evCmp [Ev 7 0 0 0 0 [] 0; Ev 3 1 0 0 0 [] 0; Ev 3 2 0 0 0 [] 0] = [Ev 3 1 0 0 0 [] 0; Ev 3 2 0 0 0 [] 0; Ev 7 0 0 0 0 [] 0].
Proof.
  symmetry. apply (merge_by_time [Ev 7 0 0 0 0 [] 0; Ev 3 1 0 0 0 [] 0; Ev 3 2 0 0 0 [] 0]).
  - intros i ev E. destruct i as [|[|[|i]]]; [by injection E as <-..|by destruct i].
  - done.
  - apply Permutation_sym. by apply (Permutation_app_comm [_] [_; _]).
  - repeat constructor; vm_compute; by intros.
Defined.

(** ** Recorded streams *)

(** What an event was recorded with. *)
Definition content (ev : ev_t) : option (Z * Z * bytes) := d ← rd_range (ev_data ev) (ev_p ev) (ev_len ev); Some (ev_ts ev, ev_id ev, d).
Definition recorded_as (e : event) : option (Z * Z * bytes) := Some (e_ts e, e_id e, e_payload e).

Lemma content_at pre post e seq cpu : content (Ev (e_ts e) seq (e_id e) cpu (zlen (e_payload e)) (pre ++ enc e ++ post) (zlen pre + 5)) = recorded_as e.
Proof.
  unfold content, recorded_as. cbn [ev_data ev_p ev_len ev_ts ev_id].
  replace (pre ++ enc e ++ post) with ((pre ++ le32 (e_ts e) ++ [e_id e]) ++ e_payload e ++ post)
    by (unfold enc; rewrite <- !(assoc_L (++)); done).
  rewrite rd_range_app; [done| |done]. unfold le32. zlia.
Qed.

Section recording.
Context (cpu : Z).

(** One iteration that comes to an event. *)
Lemma load_step pre e post fuel (sync : bool) o skipped evs : whole e -> tbl_ok evs -> 
  let data := pre ++ enc e ++ post in
  (if sync then load_sync (S (Z.to_nat (zlen data))) data (zlen data) o = Some (zlen pre) else o = zlen pre) -> o <= zlen pre ->
  exists skipped' evs1 ev, load_loop (S fuel) data (zlen data) cpu sync o skipped evs [] =
    load_loop fuel data (zlen data) cpu false (zlen (pre ++ enc e)) skipped' evs1 [] /\
    tbl_ok evs1 /\ tb_items evs1 = tb_items evs ++ [ev] /\ content ev = recorded_as e /\ ev_cpu ev = u8 cpu.
Proof.
  intros He Hok data Hsync Ho. pose proof (zlen_nonneg post). pose proof (proj1 (proj2 He)) as Hl.
  pose proof (at_ts pre post e He) as Ets. pose proof (at_id pre post e) as Eid. pose proof (at_size pre post e He) as Esz. fold data in Ets, Eid, Esz.
  assert (Hlen : zlen data = zlen pre + 5 + zlen (e_payload e) + zlen post) by (unfold data; rewrite !zlen_app, zlen_enc; lia).
  cbn [load_loop]. destruct (Z.leb_spec (o + 5) (zlen data)); [|lia].
  assert (E : (if sync then load_sync (S (Z.to_nat (zlen data))) data (zlen data) o else Some o) = Some (zlen pre)) by (destruct sync; congruence).
  rewrite E. cbn [mbind option_bind]. destruct (Z.ltb_spec (zlen data) (zlen pre + 5)); [lia|]. rewrite andb_false_r.
  rewrite Ets, Eid. cbn [mbind option_bind]. rewrite Esz. cbn [mbind option_bind]. destruct (Z.eqb_spec (zlen (e_payload e)) 0); [lia|].
  destruct (evPush_ok (Ev (e_ts e) (u32 (zlen (tb_items evs))) (e_id e) (u8 cpu) (zlen (e_payload e)) data (zlen pre + 5)) evs Hok)
    as (evs1 & Epush & Hit & Hok1).
  rewrite Epush. cbn [mbind option_bind]. change (0 <? 0) with false. cbn iota. eexists _, evs1, _. split; [|split; [exact Hok1|split; [exact Hit|]]].
  - f_equal. rewrite zlen_app, zlen_enc. lia.
  - split; [apply content_at|done].
Qed.

Lemma load_events es : forall fuel pre skipped evs, Forall whole es -> (length es < fuel)%nat -> tbl_ok evs ->
  let data := pre ++ stream_of es in exists sk evs' new,
  load_loop fuel data (zlen data) cpu false (zlen pre) skipped evs [] = Some (0, sk, evs', []) /\ tbl_ok evs' /\
  tb_items evs' = tb_items evs ++ new /\ content <$> new = recorded_as <$> es /\ Forall (fun ev => ev_cpu ev = u8 cpu) new.
Proof.
  induction es as [|e es IH]; intros [|fuel] pre skipped evs Hw Hf Hok data; simpl in Hf; try lia.
  - unfold data. simpl. rewrite app_nil_r. cbn [load_loop]. destruct (Z.leb_spec (zlen pre + 5) (zlen pre)); [lia|].
    exists skipped, evs, []. by rewrite app_nil_r.
  - apply Forall_cons in Hw as [He Hw]. unfold data. rewrite stream_cons.
    destruct (load_step pre e (stream_of es) fuel false (zlen pre) skipped evs He Hok) as (sk & evs1 & ev & -> & Hok1 & Hit & Hc & Hcpu); [done|lia|].
    rewrite (assoc_L (++)). destruct (IH fuel (pre ++ enc e) sk evs1 Hw ltac:(lia) Hok1) as (sk' & evs2 & new & -> & Hok2 & Hit2 & Hc2 & Hcpu2).
    exists sk', evs2, (ev :: new). split; [done|]. split; [done|]. rewrite Hit2, Hit, <- (assoc_L (++)). split; [done|].
    split; [by rewrite !fmap_cons, Hc, Hc2|by constructor].
Qed.

(** Skipping up to the boundary behind [junk]. *)
Lemma load_sync_events junk es : Forall whole es -> es <> [] -> Sorted Z.le (e_ts <$> es) ->
  let data := junk ++ stream_of es in
  (forall o, 0 <= o < zlen junk -> prof_syncAt data (zlen data) o = Some false) ->
  forall k fuel, (k < fuel)%nat -> Z.of_nat k <= zlen junk ->
  load_sync fuel data (zlen data) (zlen junk - Z.of_nat k) = Some (zlen junk).
Proof.
  intros Hw Hne Hs data Hj. pose proof (zlen_nonneg junk).
  assert (H5 : zlen junk + 5 <= zlen data).
  { destruct Hw as [|e es He Hw]; [done|]. unfold data. rewrite stream_cons. pose proof (zlen_stream es).
    destruct He as (_ & ? & _). rewrite !zlen_app, zlen_enc. lia. }
  induction k as [|k IH]; intros [|fuel] Hf Hk; try lia; cbn [load_sync].
  - rewrite Z.sub_0_r. destruct (Z.leb_spec (zlen junk + 5) (zlen data)); [|lia].
    unfold prof_syncAt, data. rewrite sync_events by (done || auto || lia). done.
  - destruct (Z.leb_spec (zlen junk - Z.of_nat (S k) + 5) (zlen data)); [|lia].
    rewrite Hj by lia. cbn [mbind option_bind].
    replace (zlen junk - Z.of_nat (S k) + 1) with (zlen junk - Z.of_nat k) by lia. apply IH; lia.
Qed.
End recording.

(** A recorded stream is loaded event by event: of the bytes of whole events in the
    order of time, behind bytes that do not look like a boundary, exactly these events
    are loaded, with their times, identifiers, payloads and processor. *)
Theorem load_recording junk es cpu l : load_wf l -> bytes_ok (junk ++ stream_of es) -> Forall whole es -> es <> [] ->
  Sorted Z.le (e_ts <$> es) ->
  (forall o, 0 <= o < zlen junk -> prof_syncAt (junk ++ stream_of es) (zlen (junk ++ stream_of es)) o = Some false) ->
  exists l' new, loadStream (Some (junk ++ stream_of es)) cpu l = Some (0, l') /\
    tb_items (ld_evs l') = tb_items (ld_evs l) ++ new /\ content <$> new = recorded_as <$> es /\
    Forall (fun ev => ev_cpu ev = u8 cpu) new.
Proof.
  intros [Hm Ht _ _] Hb Hw Hne Hs Hj. unfold loadStream. rewrite Hm, readFile_ok. cbn [mbind option_bind alloc negb].
  destruct (mixAdd_total _ (zlen (junk ++ stream_of es)) Hb (conj (zlen_nonneg _) (Z.le_refl _)) (ld_mix l) cpu) as [mix ->]. cbn [mbind option_bind].
  pose proof (load_sync_events junk es Hw Hne Hs Hj (length junk)) as Hsync. pose proof (zlen_stream_length es Hw) as Hlen.
  replace (zlen junk - Z.of_nat (length junk)) with 0 in Hsync by (unfold zlen; lia).
  destruct es as [|e es]; [done|]. apply Forall_cons in Hw as [He Hw]. set (data := junk ++ stream_of (e :: es)) in *.
  assert (Hdl : zlen data = zlen junk + zlen (stream_of (e :: es))) by (unfold data; by rewrite zlen_app).
  destruct (load_step cpu junk e (stream_of es) (2 * length data) true 0 0 (ld_evs l) He Ht) as (sk & evs1 & ev & Estep & Hok1 & Hit & Hc & Hcpu).
  { rewrite <- stream_cons. fold data. apply Hsync; unfold zlen in *; lia. }
  { apply zlen_nonneg. }
  rewrite <- stream_cons in Estep. fold data in Estep. rewrite Estep.
  assert (Ed : data = (junk ++ enc e) ++ stream_of es) by (unfold data; by rewrite stream_next). rewrite Ed.
  destruct (load_events cpu es (2 * length data) (junk ++ enc e) sk evs1 Hw) as (sk' & evs2 & new & E2 & Hok2 & Hit2 & Hc2 & Hcpu2);
    [cbn [length] in Hlen; unfold zlen in *; lia|done|].
  rewrite <- Ed in E2 |- *. rewrite E2. cbn [mbind option_bind]. eexists _, (ev :: new). split; [done|]. cbn [ld_evs]. rewrite Hit2, Hit, <- (assoc_L (++)).
  split; [done|]. split; [by rewrite !fmap_cons, Hc, Hc2|by constructor].
Qed.

(** Two events of the third processor behind half of one. *)
Definition wit_es : list event := [Event 7 34 [1; 0]; Event 9 66 [0; 0; 0; 0; 0]].

Lemma load_recording_witness : exists l' new, loadStream (Some ([9; 9; 9] ++ stream_of wit_es)) 2 (Load tbl_nil [] mix_zero []) = Some (0, l') /\
  tb_items (ld_evs l') = [] ++ new /\ content <$> new = [Some (7, 34, [1; 0]); Some (9, 66, [0; 0; 0; 0; 0])] /\ Forall (fun ev => ev_cpu ev = u8 2) new.
Proof.
  apply (load_recording [9; 9; 9] wit_es 2 (Load tbl_nil [] mix_zero [])).
  - split; [done|by split|constructor|done].
  - repeat constructor; done.
  - repeat constructor; simpl; done.
  - done.
  - repeat constructor. done.
  - intros o Ho. change (zlen [9; 9; 9]) with 3 in Ho.
    assert (o = 0 \/ o = 1 \/ o = 2) as [-> | [-> | ->]] by lia; vm_compute; reflexivity.
Defined.
