(* ===== verification/ReportRows.v ===== *)
(** * The rows of a report

    Every report that is begun is finished: the rows can be printed for any state the
    events of a recording lead to.  The table of the processes accounts for all
    samples, and the event mix lists what was recorded. *)

From stdpp Require Import gmap sorting.
From S2P Require Import Prelude.
From S2P Require Import Clib.
From S2P Require Import Event.
From S2P Require Import EventSpec.
From S2P Require Import PcHist.
From S2P Require Import PcHistSpec.
From S2P Require Import Report.
From S2P Require Import ReportSpec.
From S2P Require Import ReportClaims.
From S2P Require Import ReportRun.
From S2P Require Import ReportRunSpec.

(** ** Names from the start of the recording *)

Lemma info_line_ok x line fl s : rep_wf 0 0 x [] s -> exists fl' s' x', info_line line fl s = Some (fl', s') /\ rep_wf 0 0 x' [] s'.
Proof.
  intros Hwf. unfold info_line. set (l := cstr line).
  assert (Hoth : forall s0 x0, rep_wf 0 0 x0 [] s0 -> exists fl' s' x', Some (info_filter l fl, s0) = Some (fl', s') /\ rep_wf 0 0 x' [] s').
  { intros s0 x0 H0. by exists (info_filter l fl), s0, x0. }
  destruct (match scan_thread "thread" l with Some r => Some r | None => scan_thread "thread-end" l end) as [[[tid pid] name]|]; [|by eapply Hoth].
  destruct (decide (0 <= tid < NTIDS)) as [Ht|Ht].
  - destruct (thrGet_ok 0 0 x [] s tid Hwf Ht) as (s1 & -> & Hwf1 & Hlk & _). destruct (th_pid _ <? 0); [|by eapply Hoth].
    destruct (thrSetName_ok (tr_thr x tid) pid name 0 (zlen name)) as (nm & ->); [lia|apply zlen_nonneg|lia|]. cbn [mbind option_bind].
    eexists fl, _, _. split; [done|]. eapply put_thr_wf; [done|done|exact (wf_thr _ _ _ _ _ Hwf1 _ _ Hlk)|done|unfold waiting; simpl; lia].
  - unfold thrGet. assert (E : (tid <? 0) || (NTIDS <=? tid) = true).
    { destruct (Z.ltb_spec tid 0); [done|]. destruct (Z.leb_spec NTIDS tid); [done|lia]. }
    rewrite E. by eapply Hoth.
Qed.

Lemma loadInfo_ok x contents fl s : rep_wf 0 0 x [] s -> exists fl' s' x', loadInfo contents fl s = Some (fl', s') /\ rep_wf 0 0 x' [] s'.
Proof.
  assert (Hloop : forall fuel c fl s x, rep_wf 0 0 x [] s -> (length c < fuel)%nat ->
    exists fl' s' x', info_loop fuel c fl s = Some (fl', s') /\ rep_wf 0 0 x' [] s').
  { clear. induction fuel as [|fuel IH]; intros c fl s x Hwf Hf; [lia|].
    cbn [info_loop]. destruct c as [|b c]; [by exists fl, s, x|]. pose proof (fgets_line_shorter 255 b c ltac:(lia)) as Hsh.
    destruct (fgets_line 255 (b :: c)) as [line rest]. simpl in Hsh.
    destruct (info_line_ok x line fl s Hwf) as (fl1 & s1 & x1 & -> & Hwf1). cbn [mbind option_bind]. apply (IH rest fl1 s1 x1 Hwf1). simpl in Hf. lia. }
  intros Hwf. destruct contents as [c|]; [|by exists fl, s, x]. unfold loadInfo. apply (Hloop _ _ _ _ x); [done|lia].
Qed.

(** ** The mix *)

Lemma mix_pick_spec f shown : let '(pick, best) := mix_pick f shown in
  0 <= best /\ (pick = 256 /\ best = 0 \/ 0 <= pick < 256 /\ (pick ∉ shown) /\ best = f pick /\ 0 < best) /\
  forall i, 0 <= i < 256 -> i ∉ shown -> f i <= best.
Proof.
  unfold mix_pick. assert (H : forall l, Forall (fun i => 0 <= i < 256) l ->
    let '(pick, best) := foldl (fun '(pick, best) i => if bool_decide (i ∉ shown) && (best <? f i) then (i, f i) else (pick, best)) (256, 0) l in
    0 <= best /\ (pick = 256 /\ best = 0 \/ 0 <= pick < 256 /\ (pick ∉ shown) /\ best = f pick /\ 0 < best) /\ forall i, i ∈ l -> i ∉ shown -> f i <= best).
  { induction l as [|i l IH] using rev_ind; intros Hl; [split; [done|]; split; [by left|by intros i ?%not_elem_of_nil]|].
    apply Forall_app in Hl as [Hl [Hi _]%Forall_cons]. rewrite foldl_app. specialize (IH Hl). destruct (foldl _ _ l) as [pick best].
    destruct IH as (H0 & Hp & Hall). cbn [foldl]. case_bool_decide as Hs; cbn [andb].
    - destruct (Z.ltb_spec best (f i)) as [Hlt|Hge].
      + split; [lia|]. split; [right; split_and!; done || lia|]. intros j [Hj| ->%list_elem_of_singleton]%elem_of_app Hjs; [|lia].
        specialize (Hall j Hj Hjs). lia.
      + split; [done|]. split; [done|]. intros j [Hj| ->%list_elem_of_singleton]%elem_of_app Hjs; [by apply Hall|done].
    - split; [done|]. split; [done|]. intros j [Hj| ->%list_elem_of_singleton]%elem_of_app Hjs; [by apply Hall|done]. }
  specialize (H (seqZ 0 256)). destruct (foldl _ _ (seqZ 0 256)) as [pick best]. destruct H as (H0 & Hp & Hall).
  { apply Forall_forall. intros i Hi%elem_of_seqZ. lia. }
  split; [done|]. split; [done|]. intros i Hi. apply Hall, elem_of_seqZ. lia.
Qed.

(** The lines end, in the order of decreasing bytes, and list every event that has any. *)
Lemma mix_rows_ok mix n fuel : forall shown, NoDup shown -> Forall (fun i => 0 <= i < 256) shown -> (256 < fuel + length shown)%nat ->
  exists rows, mix_rows fuel mix n shown = Some rows /\ NoDup (mr_id <$> rows) /\
  (forall i, 0 <= i < 256 -> i ∈ mr_id <$> rows <-> (i ∉ shown) /\ 0 < mix_sum (mx_bytes mix) i n) /\
  StronglySorted (fun a b => mr_bytes b <= mr_bytes a) rows /\
  Forall (fun r => 0 <= mr_id r < 256 /\ mr_bytes r = mix_sum (mx_bytes mix) (mr_id r) n /\ mr_count r = mix_sum (mx_count mix) (mr_id r) n) rows.
Proof.
  induction fuel as [|fuel IH]; intros shown Hnd Hr Hf.
  { exfalso. assert (Hsub : shown ⊆+ seqZ 0 256).
    { apply NoDup_submseteq; [done|]. intros i Hi. apply elem_of_seqZ. rewrite Forall_forall in Hr. specialize (Hr i Hi). lia. }
    apply submseteq_length in Hsub. rewrite length_seqZ in Hsub. lia. }
  cbn [mix_rows]. set (f := fun i => mix_sum (mx_bytes mix) i n). pose proof (mix_pick_spec f shown) as Hp.
  destruct (mix_pick f shown) as [pick best]. destruct Hp as (H0 & Hp & Hall). destruct (Z.eqb_spec pick 256) as [E|E].
  - exists []. destruct Hp as [[_ ->]|[Hp _]]; [|lia]. split_and!; [done|constructor| |constructor|constructor].
    intros i Hi. split; [by intros ?%not_elem_of_nil|]. intros [Hs Hpos]. specialize (Hall i Hi Hs). unfold f in Hall. lia.
  - destruct Hp as [[-> _]|(Hp & Hps & Hb & Hb0)]; [done|].
    destruct (IH (pick :: shown)) as (rows & -> & Hnd' & Hin & Hs & Hrow); [by constructor|by constructor|simpl; lia|]. cbn [mbind option_bind].
    eexists. split; [done|]. rewrite fmap_cons. cbn [mr_id]. split_and!.
    + apply NoDup_cons. split; [|done]. intros Hd. apply Hin in Hd as [Hd _]; [|done]. apply Hd. by left.
    + intros i Hi. rewrite elem_of_cons, Hin by done. rewrite not_elem_of_cons. split; [intros [->|[[? ?] ?]]; [split; [done|unfold f in Hb; lia]|done]|].
      intros [Hi1 Hi2]. destruct (decide (i = pick)); auto.
    + constructor; [done|]. apply Forall_forall. intros r Hr'. rewrite Forall_forall in Hrow. destruct (Hrow r Hr') as (Hid & Hbr & _). cbn [mr_bytes].
      rewrite Hbr. apply Hall; [done|]. assert (Hm : mr_id r ∈ mr_id <$> rows) by (by apply list_elem_of_fmap_2). apply Hin in Hm as [Hm _]; [|done].
      intros Hd. apply Hm. by right.
    + constructor; [|done]. split; [done|]. by split.
Qed.

Lemma prof_mixPrint_ok mix ncpus : exists rows, prof_mixPrint mix ncpus = Some rows.
Proof.
  unfold prof_mixPrint. destruct (mix_rows_ok mix (Z.to_nat (if PROF_MAX_CPUS <? ncpus then PROF_MAX_CPUS else ncpus)) 257 []) as (rows & E & _);
    [constructor|constructor|simpl; lia|]. by exists rows.
Qed.

(** ** Processes *)

(** The samples of a thread. *)
Definition th_total (t : thr_t) : Z := in_mode 0 t + in_mode 1 t + in_mode 2 t.

Lemma msum_add f g m : msum (fun t => f t + g t) m = msum f m + msum g m.
Proof. induction m as [|i t m Hi IH] using map_ind; [done|]. rewrite !msum_insert_None by done. lia. Qed.

Lemma samples_three d n x smp s tid t : rep_wf d n x smp s -> rp_thr s !! tid = Some t ->
  th_samples t = [in_mode 0 t; in_mode 1 t; in_mode 2 t] /\ 0 <= in_mode 0 t /\ 0 <= in_mode 1 t /\ 0 <= in_mode 2 t.
Proof.
  intros Hwf Et. pose proof (wf_thr _ _ _ _ _ Hwf _ _ Et) as (_ & Hl & Hnn & _). unfold in_mode.
  destruct (th_samples t) as [|a [|b [|c [|? ?]]]]; try (unfold zlen in Hl; simpl in Hl; lia). simpl.
  rewrite !Forall_cons in Hnn. tauto.
Qed.

Lemma find_first_spec {A} (p : A -> bool) l j : find_first p 0 l = Some j -> 0 <= j /\ exists y, l !! Z.to_nat j = Some y /\ p y = true.
Proof.
  assert (H : forall i0, 0 <= i0 -> find_first p i0 l = Some j -> i0 <= j /\ exists y, l !! Z.to_nat (j - i0) = Some y /\ p y = true).
  { induction l as [|x l IH]; intros i0 H0; cbn [find_first]; [done|]. destruct (p x) eqn:E.
    - intros [= <-]. split; [lia|]. exists x. by rewrite Z.sub_diag.
    - intros (Hb & y & E1 & E2)%IH; [|lia]. split; [lia|]. exists y. by replace (Z.to_nat (j - i0)) with (S (Z.to_nat (j - (i0 + 1)))) by lia. }
  intros E. specialize (H 0 (Z.le_refl 0) E). by rewrite Z.sub_0_r in H.
Qed.

Lemma find_first_none {A} (p : A -> bool) l i0 : find_first p i0 l = None -> forall y, y ∈ l -> p y = false.
Proof.
  revert i0. induction l as [|x l IH]; intros i0; cbn [find_first]; [by intros _ y ?%not_elem_of_nil|]. destruct (p x) eqn:E; [done|].
  intros Hn y [->|Hy]%elem_of_cons; [done|]. by eapply IH.
Qed.

(** A sum over the numbers of the threads. *)
Definition rsum (f : thr_t -> Z) (m : gmap Z thr_t) (l : list Z) : Z :=
  foldr (fun i n => from_option f 0 (m !! i) + n) 0 l.

Lemma rsum_app f m l k : rsum f m (l ++ k) = rsum f m l + rsum f m k.
Proof. unfold rsum. induction l as [|i l IH]; simpl; [done|]. rewrite IH. lia. Qed.

Lemma rsum_insert f m i t l : m !! i = None -> NoDup l -> rsum f (<[i := t]> m) l = rsum f m l + if decide (i ∈ l) then f t else 0.
Proof.
  intros Hi. induction 1 as [|j l Hj Hnd IH]; [by rewrite decide_False by apply not_elem_of_nil|].
  unfold rsum in *. cbn [foldr]. rewrite IH, lookup_insert. destruct (decide (i = j)) as [<-|Hd].
  - rewrite Hi, (decide_False (P := i ∈ l)) by done. rewrite decide_True by (by left). simpl. lia.
  - destruct (decide (i ∈ l)) as [Hin|Hin]; [rewrite decide_True by (by right)|rewrite decide_False by (by intros [|]%elem_of_cons)]; simpl; lia.
Qed.

Lemma msum_rsum f m l : NoDup l -> (forall i t, m !! i = Some t -> i ∈ l) -> msum f m = rsum f m l.
Proof.
  intros Hnd. induction m as [|i t m Hi IH] using map_ind; intros Hl.
  - unfold rsum. change (msum f ∅) with 0. clear. induction l as [|j l IH]; [done|]. cbn [foldr]. by rewrite <- IH, lookup_empty.
  - rewrite msum_insert_None, rsum_insert by done. rewrite decide_True by (eapply Hl; apply lookup_insert_eq). rewrite IH; [lia|].
    intros j u Hj. apply (Hl j u). rewrite lookup_insert_ne; [done|]. congruence.
Qed.

Lemma rsum_le_msum f m l : (forall i t, m !! i = Some t -> 0 <= f t) -> NoDup l -> rsum f m l <= msum f m.
Proof.
  intros Hf Hnd. induction m as [|i t m Hi IH] using map_ind.
  - unfold rsum. change (msum f ∅) with 0. clear. induction l as [|j l IH]; [done|]. cbn [foldr]. rewrite lookup_empty. simpl. lia.
  - rewrite msum_insert_None, rsum_insert by done. assert (0 <= f t) by (apply (Hf i); apply lookup_insert_eq).
    assert (rsum f m l <= msum f m); [|case_decide; lia]. apply IH. intros j u Hj. apply (Hf j). rewrite lookup_insert_ne; [done|]. congruence.
Qed.

Definition accounted (procs : list procagg_t) : Z := foldr (fun x n => pa_user x + pa_kernel x + n) 0 procs.

Lemma accounted_app a b : accounted (a ++ b) = accounted a + accounted b.
Proof. unfold accounted. induction a as [|x a IH]; simpl; [done|]. rewrite IH. lia. Qed.

Lemma accounted_perm a b : a ≡ₚ b -> accounted a = accounted b.
Proof. unfold accounted. induction 1; simpl; lia. Qed.

Definition procs_ok (procs : list procagg_t) : Prop := Forall (fun x => 0 <= pa_user x /\ 0 <= pa_kernel x) procs.

Lemma accounted_nonneg procs : procs_ok procs -> 0 <= accounted procs.
Proof. unfold accounted. induction 1 as [|x l Hx _ IH]; simpl; lia. Qed.

Lemma accounted_insert procs (j : nat) x y : procs !! j = Some x ->
  accounted (<[j := y]> procs) = accounted procs - (pa_user x + pa_kernel x) + (pa_user y + pa_kernel y).
Proof.
  intros E. rewrite <- (take_drop_middle procs j x E) at 2. rewrite insert_take_drop by (by eapply lookup_lt_Some).
  rewrite !accounted_app. unfold accounted. simpl. lia.
Qed.

Lemma seqZ_next lo : 0 <= lo -> seqZ 0 (lo + 1) = seqZ 0 lo ++ [lo].
Proof. intros Hlo. by rewrite seqZ_app by lia. Qed.

Section cpu.
Context (self : Z) (d n : Z) (x : trace) (smp : list (Z * Z)) (s : rep_t) (Hwf : rep_wf d n x smp s) (Hsmp : zlen smp < 2 ^ 32).
#[local] Abbreviation thr := (rp_thr s).

Lemma total_smp : msum th_total thr = zlen smp.
Proof. rewrite <- (wf_smp _ _ _ _ _ Hwf). unfold th_total. by rewrite !msum_add. Qed.

(** After the threads [l]; [all]: no process was left out. *)
Definition cpu_inv (l : list Z) (procs : list procagg_t) : Prop :=
  procs_ok procs /\ NoDup (pa_pid <$> procs) /\ zlen procs <= NPROCS /\ accounted procs <= rsum th_total thr l /\
  (forall y, y ∈ procs -> exists i t, thr !! i = Some t /\ th_pid t = pa_pid y) /\
  (zlen procs < NPROCS -> accounted procs = rsum th_total thr l).

Lemma cpu_step_ok tid l procs : cpu_inv l procs -> rsum th_total thr l + from_option th_total 0 (thr !! tid) < 2 ^ 32 ->
  exists procs', cpu_step self thr tid procs = Some procs' /\ cpu_inv (l ++ [tid]) procs' /\ zlen procs <= zlen procs'.
Proof.
  intros (Hok & Hnd & Hmax & Hle & Hpids & Hall) Hb. unfold cpu_step. pose proof (rsum_app th_total thr l [tid]) as Er.
  unfold rsum at 3 in Er. cbn [foldr] in Er.
  assert (Hskip : from_option th_total 0 (thr !! tid) = 0 -> cpu_inv (l ++ [tid]) procs).
  { intros E. unfold cpu_inv. rewrite Er, E, !Z.add_0_r. done. }
  destruct (thr !! tid) as [t|] eqn:Et; [|exists procs; split; [done|]; split; [by apply Hskip|lia]].
  destruct (samples_three _ _ _ _ _ _ _ Hwf Et) as (Es & H0 & H1 & H2). unfold sample_at. rewrite Es.
  change (rd [in_mode 0 t; in_mode 1 t; in_mode 2 t] 0) with (Some (in_mode 0 t)).
  change (rd [in_mode 0 t; in_mode 1 t; in_mode 2 t] 1) with (Some (in_mode 1 t)).
  change (rd [in_mode 0 t; in_mode 1 t; in_mode 2 t] 2) with (Some (in_mode 2 t)). cbn [mbind option_bind from_option] in *.
  pose proof (accounted_nonneg procs Hok) as Hacc. assert (Eth : th_total t = in_mode 0 t + in_mode 1 t + in_mode 2 t) by done. rewrite Eth in Hb, Er.
  rewrite (u32_small (in_mode 0 t + in_mode 1 t)) by lia. rewrite u32_small by lia.
  destruct (Z.eqb_spec (in_mode 0 t + in_mode 1 t + in_mode 2 t) 0) as [E0|E0].
  { exists procs. split; [done|]. split; [by apply Hskip|lia]. }
  rewrite (u32_small (in_mode 1 t + in_mode 2 t)) by lia. set (u := in_mode 0 t) in *. set (k := in_mode 1 t + in_mode 2 t) in *.
  assert (Hadd : forall procs1 j y, cpu_inv l procs1 -> zlen procs <= zlen procs1 -> procs1 !! Z.to_nat j = Some y -> 0 <= j ->
    exists procs', (x ← rd procs1 j; wr procs1 j (Procagg (pa_pid x) (u64 (pa_user x + u)) (u64 (pa_kernel x + k)) (pa_name x))) = Some procs' /\
    cpu_inv (l ++ [tid]) procs' /\ zlen procs <= zlen procs').
  { intros procs1 j y (Hok1 & Hnd1 & Hmax1 & Hle1 & Hpids1 & Hall1) Hlen1 Ey Hj. rewrite (rd_to_nat _ _ _ Hj Ey). cbn [mbind option_bind].
    rewrite (wr_to_nat _ _ _ _ Hj Ey). eexists. split; [done|]. split; [|by rewrite zlen_insert].
    assert (Hy : 0 <= pa_user y /\ 0 <= pa_kernel y) by (by eapply Forall_lookup_1 in Hok1).
    assert (Hyle : pa_user y + pa_kernel y <= accounted procs1).
    { pose proof (accounted_insert _ _ _ (Procagg 0 0 0 []) Ey) as Ei. cbn [pa_user pa_kernel] in Ei.
      assert (Hz : procs_ok (<[Z.to_nat j := Procagg 0 0 0 []]> procs1)) by (by apply Forall_insert).
      apply accounted_nonneg in Hz. lia. }
    rewrite !wrapu_small by lia. unfold cpu_inv. rewrite (accounted_insert _ _ _ _ Ey), zlen_insert, Er. cbn [pa_user pa_kernel].
    split_and!; [apply Forall_insert; [done|simpl; lia]| |done|lia| |intros Hlt; specialize (Hall1 Hlt); lia].
    - rewrite list_fmap_insert. cbn [pa_pid]. rewrite list_insert_id; [done|]. by rewrite list_lookup_fmap, Ey.
    - intros z (i & Ei)%list_elem_of_lookup. destruct (decide (i = Z.to_nat j)) as [->|Hne].
      + rewrite list_lookup_insert_eq in Ei by (by eapply lookup_lt_Some). injection Ei as <-. cbn [pa_pid]. apply Hpids1. by eapply list_elem_of_lookup_2.
      + rewrite list_lookup_insert_ne in Ei by done. apply Hpids1. by eapply list_elem_of_lookup_2. }
  destruct (find_first (fun x => pa_pid x =? th_pid t) 0 procs) as [j|] eqn:Ef.
  - assert (Hj := find_first_spec _ _ _ Ef). destruct Hj as (Hj & y & Ey & _).
    apply (Hadd procs j y); [done|lia|done|lia].
  - destruct (Z.eqb_spec (zlen procs) NPROCS) as [E|E].
    + exists procs. split; [done|]. split; [|lia]. unfold cpu_inv. rewrite Er. split_and!; try done; lia.
    + apply (Hadd _ (zlen procs) (Procagg (th_pid t) 0 0 (proc_name self t))).
      * unfold cpu_inv. rewrite accounted_app, zlen_app, fmap_app. unfold accounted at 2 4. cbn [foldr pa_user pa_kernel]. change (zlen [Procagg (th_pid t) 0 0 (proc_name self t)]) with 1.
        split_and!; [apply Forall_app; split; [done|]; by apply Forall_singleton| |lia|lia| |intros; rewrite Hall; lia].
        { apply NoDup_app. split_and!; [done| |apply NoDup_singleton]. intros pid (z & -> & Hz)%list_elem_of_fmap Hd%list_elem_of_singleton.
          apply (find_first_none _ _ _ Ef) in Hz. cbn [pa_pid] in Hd. bprop. congruence. }
        { intros z [Hz| ->%list_elem_of_singleton]%elem_of_app; [by apply Hpids|]. by exists tid, t. }
      * rewrite zlen_app. pose proof (zlen_nonneg [Procagg (th_pid t) 0 0 (proc_name self t)]). lia.
      * unfold zlen. rewrite Nat2Z.id. by apply list_lookup_middle.
      * apply zlen_nonneg.
Qed.

Lemma cpu_loop k : forall lo procs, 0 <= lo -> cpu_inv (seqZ 0 lo) procs ->
  exists procs', for_loop lo k (cpu_step self thr) procs = Some procs' /\ cpu_inv (seqZ 0 (lo + Z.of_nat k)) procs'.
Proof.
  induction k as [|k IH]; intros lo procs Hlo Hinv; [exists procs; by rewrite Z.add_0_r|]. cbn [for_loop].
  destruct (cpu_step_ok lo (seqZ 0 lo) procs Hinv) as (procs1 & -> & Hinv1 & _).
  - assert (E : rsum th_total thr (seqZ 0 lo) + from_option th_total 0 (thr !! lo) = rsum th_total thr (seqZ 0 (lo + 1))).
    { rewrite seqZ_next, rsum_app by done. unfold rsum at 3. cbn [foldr]. lia. }
    rewrite E. apply Z.le_lt_trans with (msum th_total thr); [|by rewrite total_smp].
    apply rsum_le_msum; [|apply NoDup_seqZ]. intros i t Et. destruct (samples_three _ _ _ _ _ _ _ Hwf Et). unfold th_total. lia.
  - cbn [mbind option_bind]. destruct (IH (lo + 1) procs1) as (procs2 & -> & H2); [lia| |].
    + by rewrite seqZ_next by done.
    + exists procs2. split; [done|]. by replace (lo + Z.of_nat (S k)) with (lo + 1 + Z.of_nat k) by lia.
Qed.
End cpu.

Lemma set_mem_id s : rp_mem s = [] -> set_mem [] s = s.
Proof. destruct s. simpl. by intros ->. Qed.

Section printing.
Context `{QsortLaws} (names : list bytes) (fl : filter_t) (top : Z).
Context (d n : Z) (x : trace) (smp : list (Z * Z)) (s : rep_t) (Hwf : rep_wf d n x smp s) (Hsmp : zlen smp < 2 ^ 32).

Lemma nsamples_rd : exists n0 n1 n2, rd (rp_nsamples s) 0 = Some n0 /\ rd (rp_nsamples s) 1 = Some n1 /\ rd (rp_nsamples s) 2 = Some n2 /\
  n0 + n1 + n2 = zlen smp.
Proof.
  rewrite <- (wf_smp _ _ _ _ _ Hwf). pose proof (wf_modes _ _ _ _ _ Hwf) as Hm.
  exists (msum (in_mode 0) (rp_thr s)), (msum (in_mode 1) (rp_thr s)), (msum (in_mode 2) (rp_thr s)).
  split_and!; [exact (Hm 0%nat ltac:(lia))|exact (Hm 1%nat ltac:(lia))|exact (Hm 2%nat ltac:(lia))|done].
Qed.

Lemma printCpu_ok : exists t, printCpu fl s = Some (t, s) /\
  if zlen smp =? 0 then t = None else exists procs, t = Some (qsort procCmp procs) /\ cpu_inv s (seqZ 0 NTIDS) procs.
Proof.
  unfold printCpu. rewrite (wf_mem _ _ _ _ _ Hwf). cbn [alloc]. rewrite set_mem_id by apply (wf_mem _ _ _ _ _ Hwf).
  destruct nsamples_rd as (n0 & n1 & n2 & -> & -> & -> & E). cbn [mbind option_bind negb orb]. rewrite E.
  rewrite wrapu_small by (pose proof (zlen_nonneg smp); lia). destruct (zlen smp =? 0); [by exists None|].
  destruct (cpu_loop (fl_self fl) d n x smp s Hwf Hsmp (Z.to_nat NTIDS) 0 []) as (procs & -> & Hinv); [lia| |].
  { split; [constructor|]. split; [constructor|]. split_and!; try done. intros y Hy. by apply not_elem_of_nil in Hy. }
  cbn [mbind option_bind]. eexists. split; [done|]. exists procs. split; [done|]. by rewrite Z2Nat.id in Hinv by done.
Qed.

Definition ranked (rank : list thrrank_t) : Prop := Forall (fun r => is_Some (rp_thr s !! rk_tid r)) rank.

Lemma rank_loop k : forall lo rank, ranked rank -> exists rank', for_loop lo k (rank_step fl s) rank = Some rank' /\ ranked rank'.
Proof.
  induction k as [|k IH]; intros lo rank Hr; [by exists rank|]. cbn [for_loop].
  assert (Hstep : exists r1, rank_step fl s lo rank = Some r1 /\ ranked r1).
  { unfold rank_step. destruct (rp_thr s !! lo) as [t|] eqn:Et; [|by exists rank].
    destruct (samples_three _ _ _ _ _ _ _ Hwf Et) as (Es & _). unfold sample_at. rewrite Es.
    change (rd [in_mode 0 t; in_mode 1 t; in_mode 2 t] 0) with (Some (in_mode 0 t)).
    change (rd [in_mode 0 t; in_mode 1 t; in_mode 2 t] 1) with (Some (in_mode 1 t)). cbn [mbind option_bind].
    eexists. split; [done|]. destruct (_ && _); [|done]. apply Forall_app. split; [done|]. apply Forall_singleton. by exists t. }
  destruct Hstep as (r1 & -> & Hr1). cbn [mbind option_bind]. by apply IH.
Qed.

Lemma entry_name_ok v : 0 <= v <= ENTRY_UNKNOWN -> is_Some (entry_name names v).
Proof.
  intros Hv. unfold entry_name. destruct (v =? ENTRY_UNKNOWN); [by eexists|]. destruct (negb _); [by eexists|].
  unfold ENTRY_UNKNOWN in Hv. rewrite wraps_small by lia. destruct (Z.ltb_spec v (zlen names)); [|by eexists]. apply rd_is_Some. lia.
Qed.

Lemma pcs_line_ok pcs ent kc r : (forall y, y ∈ ent -> 0 <= pcValue (pc_key y) <= ENTRY_UNKNOWN) -> is_Some (rp_thr s !! rk_tid r) ->
  is_Some (pcs_line names s pcs ent kc r).
Proof.
  intros Hent [t Et]. unfold pcs_line. rewrite Et. cbn [mbind option_bind].
  destruct (samples_three _ _ _ _ _ _ _ Hwf Et) as (Es & _). unfold sample_at. rewrite Es.
  change (rd [in_mode 0 t; in_mode 1 t; in_mode 2 t] 1) with (Some (in_mode 1 t)). cbn [mbind option_bind].
  destruct (in_mode 1 t =? 0); [by eexists|].
  assert (Hm : is_Some (mapM (fun x0 => n0 ← entry_name names (pcValue (pc_key x0)); Some (take 47 n0, pc_count x0)) (of_thread 6 (rk_tid r) ent))).
  { apply mapM_is_Some_2. unfold of_thread. apply Forall_take, Forall_forall. intros y [_ Hi]%list_elem_of_filter. destruct (entry_name_ok _ (Hent y Hi)) as [nm En]. exists (take 47 nm, pc_count y). by rewrite En. }
  destruct Hm as [rows ->]. by eexists.
Qed.

Lemma printPcs_ok : exists rows, printPcs names fl top s = Some (Some rows, s).
Proof.
  unfold printPcs. pose proof (wf_mem _ _ _ _ _ Hwf) as Hm. rewrite Hm. cbn [alloc negb]. rewrite set_mem_id by done.
  destruct (rank_loop (Z.to_nat NTIDS) 0 []) as (rank & -> & Hr); [constructor|]. cbn [mbind option_bind]. rewrite Hm.
  destruct (histSorted_ok _ _ [] (wf_pcs _ _ _ _ _ Hwf) eq_refl) as (pcs & -> & _). cbn [mbind option_bind alloc snd].
  destruct (wf_kentry _ _ _ _ _ Hwf) as (Mk & Hk & Hnm). destruct (histSorted_ok _ _ [] Hk eq_refl) as (ent & -> & Hpe & _). cbn [mbind option_bind alloc snd].
  destruct (wf_kcaller _ _ _ _ _ Hwf) as (Mc & Hc). destruct (histSorted_ok _ _ [] Hc eq_refl) as (kc & -> & _). cbn [mbind option_bind alloc snd].
  rewrite set_mem_id by done.
  assert (Hrows : is_Some (mapM (pcs_line names s pcs ent kc) (take (Z.to_nat top) (qsort thrRankCmp rank)))).
  { apply mapM_is_Some_2, Forall_take. apply Forall_forall. intros r Hin. rewrite qsort_perm in Hin. apply pcs_line_ok.
    - intros y Hy. rewrite Hpe in Hy. apply (hist_entries _ _ Hk) in Hy. by apply Hnm in Hy.
    - unfold ranked in Hr. rewrite Forall_forall in Hr. by apply Hr. }
  destruct Hrows as [rows ->]. by exists rows.
Qed.
End printing.

(** ** Whole reports *)

(** These definitions have loops over all threads: they are not to be evaluated. *)
#[local] Strategy opaque [close_waits printCpu printPcs prof_mixPrint process_all].

Lemma obind_eq {A B} (mx : option A) a (f : A -> option B) : mx = Some a -> mx ≫= f = f a.
Proof. by intros ->. Qed.

Section reports.
Context `{QsortLaws} (names : list bytes).

Lemma report_rows_ok fl top ncpus mix evs x s : rep_wf 0 0 x [] s -> Forall ev_ok evs -> zlen evs < 2 ^ 32 ->
  exists r, report_rows names fl top ncpus mix evs s = Some r /\ rt_ncpus r = ncpus /\ rt_nevs r = zlen evs /\ rt_waits r = nwaits evs /\ rt_samples r = zlen (samples_of evs).
Proof.
  intros H0' Hok Hb. unfold report_rows. destruct (report_from names x s evs H0' Hok Hb) as (x' & s1 & s' & E1 & E2 & Hwf). pose proof (samples_bound evs) as Hsb.
  rewrite (obind_eq _ _ _ E1), (obind_eq _ _ _ E2). clear E1 E2 s1.
  destruct (nsamples_rd _ _ _ _ _ Hwf) as (n0 & n1 & n2 & -> & -> & -> & En). cbn [mbind option_bind].
  destruct (prof_mixPrint_ok mix ncpus) as [rows ->]. cbn [mbind option_bind].
  destruct (printCpu_ok fl _ _ _ _ _ Hwf) as (t & -> & _); [lia|]. cbn [mbind option_bind].
  destruct (printPcs_ok names fl top _ _ _ _ _ Hwf) as (pcs & ->). cbn [mbind option_bind].
  destruct (printWaits names fl top s') as [wrows s2]. destruct (printEdges fl top s2) as [erows s3].
  eexists. split; [done|]. cbn [rt_ncpus rt_nevs rt_waits rt_samples]. rewrite En, wrapu_small by (pose proof (zlen_nonneg (samples_of evs)); lia).
  split_and!; [done|done|apply (wf_n _ _ _ _ _ Hwf)|done].
Qed.

(** The file of a stream holds the events [es], in the order of time and behind bytes of
    an earlier event that do not look like a boundary. *)
Definition holds (file : option bytes) (es : list event) : Prop :=
  match file with
  | None => es = []
  | Some d => es = [] /\ d = [] \/
      es <> [] /\ Forall whole es /\ Sorted Z.le (e_ts <$> es) /\ exists junk, d = junk ++ stream_of es /\
      forall o, 0 <= o < zlen junk -> prof_syncAt d (zlen d) o = Some false
  end.

(** The events of the processors from [cpu] on, those of the second stream last. *)
Definition all_events (es : bool -> Z -> list event) (cpu n : Z) : list event :=
  seqZ cpu (n - cpu) ≫= fun c => es false c ++ es true c.

Lemma load_holds file es cpu l : load_wf l -> (forall d, file = Some d -> bytes_ok d) -> holds file es ->
  exists rc l' new, loadStream file cpu l = Some (rc, l') /\ tb_items (ld_evs l') = tb_items (ld_evs l) ++ new /\
    content <$> new = recorded_as <$> es.
Proof.
  intros Hl Hb Hh. destruct file as [d|].
  - destruct Hh as [[-> ->]|(Hne & Hw & Hs & junk & -> & Hj)].
    + destruct (loadStream_some [] cpu l Hl) as (l' & new & E & _ & Hit & Hn); [constructor|].
      exists 0, l', new. split; [done|]. split; [done|]. destruct new; [done|]. rewrite zlen_cons in Hn. zlia.
    + destruct (load_recording junk es cpu l Hl) as (l' & new & E & Hit & Hc & _); [by apply Hb|done..|]. by exists 0, l', new.
  - simpl in Hh. subst es. exists (- ENOENT), l, []. pose proof Hl as [Hm _ _ _]. unfold loadStream. simpl. rewrite Hm. cbn [mbind option_bind].
    rewrite app_nil_r. split; [by destruct l; simpl in *; subst|done].
Qed.

Lemma load_cpus_events files es n fuel : recorded files n -> (forall kind cpu, 0 <= cpu < n -> holds (files kind cpu) (es kind cpu)) ->
  forall cpu l ncpus l', load_wf l -> 0 <= cpu <= n -> load_cpus fuel files cpu l = Some (ncpus, l') -> exists new,
    tb_items (ld_evs l') = tb_items (ld_evs l) ++ new /\ content <$> new = recorded_as <$> all_events es cpu n.
Proof.
  intros Hrec Hes. pose proof Hrec as (Hn & Hb & Hsome & N0 & N1).
  induction fuel as [|fuel IH]; intros cpu l ncpus l' Hl Hc E; [done|]. cbn [load_cpus] in E.
  destruct (loadStream_ok (files false cpu) cpu l Hl) as (r0 & l1 & E0 & Hl1 & Z0e & _); [intros; by eapply Hb|].
  destruct (loadStream_ok (files true cpu) cpu l1 Hl1) as (r1 & l2 & E1 & Hl2 & Z1e & _); [intros; by eapply Hb|].
  rewrite E0 in E. cbn [mbind option_bind] in E. rewrite E1 in E. cbn [mbind option_bind] in E.
  destruct (decide (cpu = n)) as [->|Hne].
  - rewrite N0 in E0, Z0e. rewrite N1 in E1, Z1e. destruct (Z.eqb_spec r0 0) as [->|]; [by destruct (proj1 Z0e eq_refl)|].
    destruct (Z.eqb_spec r1 0) as [->|]; [by destruct (proj1 Z1e eq_refl)|]. injection E as <- <-.
    destruct (load_holds None [] n l Hl ltac:(done) eq_refl) as (r & k & new0 & F0 & I0 & C0). rewrite E0 in F0. injection F0 as <- <-.
    destruct (load_holds None [] n l1 Hl1 ltac:(done) eq_refl) as (r' & k' & new1 & F1 & I1 & C1). rewrite E1 in F1. injection F1 as <- <-.
    exists (new0 ++ new1). rewrite I1, I0, <- (assoc_L (++)). split; [done|]. unfold all_events. rewrite Z.sub_diag. by rewrite fmap_app, C0, C1.
  - destruct (load_holds (files false cpu) (es false cpu) cpu l Hl (Hb false cpu) (Hes false cpu ltac:(lia))) as (r & k & new0 & F0 & I0 & C0).
    rewrite E0 in F0. injection F0 as <- <-.
    destruct (load_holds (files true cpu) (es true cpu) cpu l1 Hl1 (Hb true cpu) (Hes true cpu ltac:(lia))) as (r' & k' & new1 & F1 & I1 & C1).
    rewrite E1 in F1. injection F1 as <- <-.
    assert (Eb : negb (r0 =? 0) && negb (r1 =? 0) = false).
    { destruct (Hsome cpu) as [Hs|Hs]; [lia|apply Z0e in Hs as ->; done|apply Z1e in Hs as ->; apply andb_false_r]. }
    rewrite Eb in E. destruct (IH (cpu + 1) l2 ncpus l' Hl2 ltac:(lia) E) as (new & I & C). exists (new0 ++ new1 ++ new).
    rewrite I, I1, I0, <- !(assoc_L (++)). split; [done|]. unfold all_events in *. rewrite seqZ_cons by lia. simpl.
    replace (Z.succ cpu) with (cpu + 1) by lia. replace (Z.pred (n - cpu)) with (n - (cpu + 1)) by lia.
    by rewrite !fmap_app, C0, C1, C, <- (assoc_L (++)).
Qed.

(** C16: every report ends, when memory is available: for any files of a directory whose
    streams are below 2^32 bytes and of processors numbered without a gap, and any options,
    the streams are loaded; there is a report exactly when the options are valid and an
    event was loaded, and otherwise the exit code 1; the report counts the processors and
    all the events loaded.  Of streams that hold events, behind a part of an event that
    the ring has overwritten, these events are loaded, each once and no others. *)
Theorem prof_report_ends fuel opts info files ncpus : recorded files ncpus -> ncpus < Z.of_nat fuel -> stream_bytes files ncpus < 2 ^ 32 ->
  exists l r, load_cpus fuel files 0 (Load tbl_nil [] mix_init []) = Some (ncpus, l) /\
    let loaded := tb_items (ld_evs l) in
    prof_report names fuel opts info files [] = Some (match r with Some _ => 0 | None => 1 end, r) /\
    (is_Some r <-> is_Some (report_opts opts 0 10) /\ loaded <> []) /\
    (forall t, r = Some t -> rt_ncpus t = ncpus /\ rt_nevs t = zlen loaded) /\
    (forall es, (forall kind cpu, 0 <= cpu < ncpus -> holds (files kind cpu) (es kind cpu)) ->
      content <$> loaded = recorded_as <$> all_events es 0 ncpus).
Proof.
  intros Hrec Hfuel Hbytes. set (l0 := Load tbl_nil [] mix_init []). assert (Hl0 : load_wf l0) by by split.
  assert (Hn : 0 <= ncpus) by by destruct Hrec.
  destruct (load_cpus_ok files ncpus fuel Hrec 0 l0 Hl0) as (l & El & Hl & Hsz); [lia..|]. exists l.
  assert (Hev : forall es, (forall kind cpu, 0 <= cpu < ncpus -> holds (files kind cpu) (es kind cpu)) ->
      content <$> tb_items (ld_evs l) = recorded_as <$> all_events es 0 ncpus).
  { intros es Hes. destruct (load_cpus_events files es ncpus fuel Hrec Hes 0 l0 ncpus l Hl0) as (new & -> & Hc); [lia|done|exact Hc]. }
  unfold prof_report. destruct (report_opts opts 0 10) as [[pid top]|].
  2:{ exists None. split; [done|]. cbn zeta. split; [done|]. split; [|done]. split; [by intros []|by intros [[]]]. }
  destruct (loadInfo_ok trace_nil info (Filter pid 0) (rep_zero [])) as (fl & s & x & -> & Hwf); [apply rep_zero_wf|]. cbn [mbind option_bind].
  rewrite (wf_mem _ _ _ _ _ Hwf). fold l0. rewrite El. cbn [mbind option_bind].
  destruct (Z.eqb_spec (zlen (tb_items (ld_evs l))) 0) as [E|E].
  { exists None. split; [done|]. cbn zeta. split; [done|]. split; [|done].
    split; [by intros []|]. intros [_ []]. by destruct (tb_items (ld_evs l)). }
  rewrite (ldw_mem _ Hl), set_mem_id by apply (wf_mem _ _ _ _ _ Hwf).
  pose proof (qsort_perm evCmp (tb_items (ld_evs l))) as Hp.
  assert (Hlen : zlen (qsort evCmp (tb_items (ld_evs l))) = zlen (tb_items (ld_evs l))) by (unfold zlen; by rewrite Hp).
  destruct (report_rows_ok fl top ncpus (ld_mix l) (qsort evCmp (tb_items (ld_evs l))) x s Hwf) as (r & Er & Hc & Hnv & _).
  { rewrite Hp. apply (ldw_evs _ Hl). }
  { rewrite Hlen. unfold stream_bytes in Hbytes. simpl in Hsz. change (zlen (@nil ev_t)) with 0 in Hsz. lia. }
  rewrite (obind_eq _ _ _ Er). exists (Some r). split; [done|]. cbn zeta. split; [done|]. split; [|split; [|done]].
  - split; [|by eexists]. intros _. split; [by eexists|]. intros Hnil. by rewrite Hnil in E.
  - intros t [= <-]. by rewrite Hnv, Hlen.
Qed.

End reports.

(** One processor with the stream of two events. *)
Definition wit_files (kind : bool) (cpu : Z) : option bytes :=
  if kind && (cpu =? 0) then Some (stream_of [Event 5 37 [5; 0]; Event 9 66 [5; 0; 7; 0; 0]]) else None.

Lemma wit_recorded : recorded wit_files 1.
Proof.
  split; [done|]. split_and!; try done.
  - intros kind cpu b. unfold wit_files. destruct (kind && _); [|done]. intros [= <-]. by apply bytes_ok_dec.
  - intros cpu Hc. right. assert (cpu = 0) as -> by lia. by eexists.
Qed.

Definition wit_events (kind : bool) (cpu : Z) : list event := if kind then [Event 5 37 [5; 0]; Event 9 66 [5; 0; 7; 0; 0]] else [].

(** The report of these two events. *)
Lemma prof_report_ends_witness : exists t, prof_report wit_names 2 [] None wit_files [] = Some (0, Some t) /\ rt_ncpus t = 1 /\ rt_nevs t = 2.
Proof.
  destruct (prof_report_ends wit_names 2 [] None wit_files 1) as (l & r & _ & E & Hr & Ht & Hev);
    [exact wit_recorded|reflexivity|reflexivity|].
  assert (Hes : content <$> tb_items (ld_evs l) = recorded_as <$> all_events wit_events 0 1).
  { apply Hev. intros kind cpu Hc. assert (cpu = 0) as -> by lia. destruct kind; [|done]. right. split; [done|].
    split; [repeat constructor; done|]. split; [repeat constructor; done|]. exists []. split; [done|].
    intros o Ho. change (zlen (@nil Z)) with 0 in Ho. lia. }
  assert (Hlen : zlen (tb_items (ld_evs l)) = 2) by by rewrite <- (zlen_fmap content), Hes.
  destruct (proj2 Hr) as [t ->]; [split; [by eexists|]; intros Hnil; by rewrite Hnil in Hlen|].
  destruct (Ht t eq_refl) as [Hn Hv]. exists t. split; [exact E|]. split; [exact Hn|]. by rewrite Hv.
Defined.

(** The table of the processes accounts for every sample: when the threads belong to
    fewer than 1024 processes, each of them with samples has one row, the rows are in
    the order of decreasing samples, and user and kernel samples add up to all. *)
Theorem report_cpu `{QsortLaws} (names : list bytes) (fl : filter_t) evs (pids : list Z) : Forall ev_ok evs -> zlen evs < 2 ^ 32 ->
  exists s, report_tables names evs = Some s /\
    (0 < zlen (samples_of evs) -> zlen pids < NPROCS -> (forall tid t, rp_thr s !! tid = Some t -> th_pid t ∈ pids) ->
     exists rows, printCpu fl s = Some (Some rows, s) /\ NoDup (pa_pid <$> rows) /\
       Sorted (fun a b => procCmp a b <= 0) rows /\ accounted rows = zlen (samples_of evs)).
Proof.
  intros Hok Hb. destruct (report_trace_ok names evs Hok Hb) as (s & E & Hwf & _). exists s. split; [exact E|]. clear E.
  revert Hwf. generalize (tr_run names evs). intros x Hwf Hpos Hpids Hin. pose proof (samples_bound evs) as Hsb.
  destruct (printCpu_ok fl _ _ _ _ _ Hwf) as (t & E & Ht); [lia|]. destruct (Z.eqb_spec (zlen (samples_of evs)) 0); [lia|].
  destruct Ht as (procs & -> & (_ & Hnd & _ & _ & Hp & Hall)). exists (qsort procCmp procs). split; [exact E|].
  assert (Hlen : zlen procs < NPROCS).
  { apply Z.le_lt_trans with (zlen pids); [|done]. unfold zlen. rewrite <- (length_fmap pa_pid). apply Nat2Z.inj_le.
    apply submseteq_length, NoDup_submseteq; [done|]. intros pid (y & -> & Hy)%list_elem_of_fmap.
    destruct (Hp y Hy) as (tid & u & Eu & <-). by eapply Hin. }
  split_and!.
  - by rewrite qsort_perm.
  - apply qsort_sorted. split; intros a b; [|intros c]; unfold procCmp; rewrite !cmpDesc64_spec; lia.
  - rewrite (accounted_perm _ procs) by apply qsort_perm. rewrite (Hall Hlen), <- (msum_rsum _ _ _ (NoDup_seqZ _ _)); [by apply (total_smp _ _ _ _ _ Hwf)|].
    intros tid u Eu. apply (wf_thr _ _ _ _ _ Hwf) in Eu as [Ht _]. apply elem_of_seqZ. lia.
Qed.

Lemma report_cpu_witness : exists s, report_tables wit_names wit_evs = Some s.
Proof.
  destruct (report_cpu wit_names (Filter 0 0) wit_evs []) as (s & E & _); [exact wit_evs_ok|reflexivity|]. exists s. exact E.
Defined.

(** An array that could not grow is stored to outside its memory: the capacity is
    doubled before [realloc] is called, so after a failure the next element is written
    behind the elements that are there. *)
Theorem failed_growth_overruns {A} (first : Z) (a b : A) (t : tbl A) (m : mem) : 0 < first -> tbl_ok t -> zlen (tb_items t) = tb_cap t ->
  exists t', tbl_push first a t (false :: m) = Some (None, t', m) /\ tbl_push first b t' m = None.
Proof.
  intros Hf [Hc Hl] Hfull. unfold tbl_push. rewrite Hfull, Z.eqb_refl. cbn [alloc]. eexists. split; [done|]. cbn [tb_items tb_cap tb_alloc].
  pose proof (zlen_nonneg (tb_items t)). rewrite Hfull.
  assert (E : (tb_cap t =? (if tb_cap t =? 0 then first else tb_cap t * 2)) = false).
  { destruct (Z.eqb_spec (tb_cap t) 0); apply Z.eqb_neq; lia. }
  rewrite E. cbv beta iota zeta. cbn [tb_items tb_alloc]. destruct (Z.ltb_spec (tb_cap t) (tb_alloc t)) as [Hlt|]; [lia|done].
Qed.

(** The first event push of a report, and the next one. *)
Lemma failed_growth_overruns_witness : exists t', evPush wit_sample tbl_nil [false] = Some (- ENOMEM, t', []) /\ evPush wit_wait t' [] = None.
Proof.
  destruct (failed_growth_overruns 65536 wit_sample wit_wait tbl_nil []) as (t' & E1 & E2); [lia|by split|done|].
  exists t'. unfold evPush. rewrite E1, E2. by split.
Defined.

(** The cause of a wait without a wakeup is [other], but [wakeup] for the first wait of a
    thread: a new thread has the cause 0. *)
Lemma first_wait_cause t : wait_cause thr_new false = 0 /\ wait_cause (ended t) false = CAUSES - 1.
Proof. by split. Qed.

(** The run of [wit_evs] from a recording, with the name of the client. *)
Definition wit_stream (kind : bool) (cpu : Z) : option bytes :=
  if kind && (cpu =? 0) then Some (stream_of ((fun e => Event (ev_ts e) (ev_id e) (ev_data e)) <$> wit_evs)) else None.

Example wit_report :
  match prof_report wit_names 2 [] (Some (bstr "thread 5 12 1 /bin/client -x")) wit_stream [] with
  | Some (rc, Some r) => (rc, rt_nevs r, list_fmap _ _ fst (rt_waitRows r), rt_edges r)
  | _ => (1, 0, [], [])
  end = (0, 6, [Waitagg 5 0 3 1 30 30 [1; 0; 0; 0; 0] 7], [Edge 5 7 3 1 30 30]).
Proof. vm_compute. reflexivity. Qed.
