(* ===== verification/Ls.v ===== *)
(** * Listing files ([psh/ls/ls.c])

    The applet [ls]: options, the entries of paths and directories, the order, the
    layouts, and the listing that is made when memory runs out.  The files and
    directories, the accounts of users and groups and the clock are classes; the entries
    are an array of objects, the names in them buffers of their own. *)

From S2P Require Import Prelude.
From S2P Require Import Prefix.
From S2P Require Import Complete.
From S2P Require Import PcHist.
From S2P Require Import Chmod.

Definition DIR_COLOR : bytes := 27 :: bstr "[34m".
Definition EXE_COLOR : bytes := 27 :: bstr "[32m".
Definition SYM_COLOR : bytes := 27 :: bstr "[36m".
Definition DEV_COLOR : bytes := 27 :: bstr "[33;40m".

Inductive ls_mode := MODE_NORMAL | MODE_ONEPERLINE | MODE_LONG.
#[export] Instance ls_mode_eq : EqDecision ls_mode.
Proof. solve_decision. Defined.

(** [S_IFMT] and [S_ISDIR] are those of [Chmod]. *)
Definition S_ISREG (m : Z) : bool := Z.land m S_IFMT =? 32768.
Definition S_ISCHR (m : Z) : bool := Z.land m S_IFMT =? 8192.
Definition S_ISBLK (m : Z) : bool := Z.land m S_IFMT =? 24576.
Definition S_ISFIFO (m : Z) : bool := Z.land m S_IFMT =? 4096.
Definition S_ISSOCK (m : Z) : bool := Z.land m S_IFMT =? 49152.

(** ** Surroundings *)

Record stat_t := Stat { st_mtime : Z; st_size : Z; st_nlink : Z; st_mode : Z; st_uid : Z; st_gid : Z }.

(** [stat] and [lstat] of a path, and the names [readdir] delivers from a directory that
    can be opened. *)
Class Files := {
  fs_stat : bytes -> option stat_t;
  fs_lstat : bytes -> option stat_t;
  fs_listdir : bytes -> option (list bytes) }.

(** [getpwuid] and [getgrgid] return pointers to records of the library, which the next
    call may change. *)
Class Accounts (U : Type) := {
  getpwuid : Z -> U -> option Z * U;
  getgrgid : Z -> U -> option Z * U;
  pw_name : U -> Z -> bytes;
  gr_name : U -> Z -> bytes }.

Record tm_t := Tm { tm_year : Z; tm_mon : Z; tm_mday : Z; tm_hour : Z; tm_min : Z }.

(** [time(NULL)] and [localtime_r]. *)
Class Clock := { time_now : Z; localtime : Z -> option tm_t }.

(** ** Data *)

(** What [psh_ls_statentry] fills. *)
Record finfo_t := Finfo { fi_mtime : Z; fi_size : Z; fi_nlink : Z; fi_mode : Z }.

(** The name is the object that [name] points to, [memlen] its size.  [None] is a field
    that was never written. *)
Record fileinfo_t := Fileinfo {
  fi_name : bytes; fi_namelen : Z; fi_memlen : Z; fi_info : option finfo_t; fi_pw : option (option Z); fi_gr : option (option Z) }.

Definition fi_fresh : fileinfo_t := Fileinfo [] 0 0 None None None.
(** [{ 0 }]. *)
Definition fi_zero : fileinfo_t := Fileinfo [] 0 0 (Some (Finfo 0 0 0 0)) (Some None) (Some None).

Inductive ls_cmp := CmpName | CmpMtime | CmpSize.

(** The options, which stay as they are once parsed. *)
Record ls_opts := LsOpts { o_mode : ls_mode; o_all : bool; o_reverse : Z; o_dir : bool; o_cmp : option ls_cmp }.
Definition ls_opts_default : ls_opts := LsOpts MODE_NORMAL false 1 false (Some CmpName).

(** The rest of [psh_ls_common], what is printed, and the allocations to come;
    [fileinfosz] is the length of [ls_files]. *)
Record ls_t (U : Type) := LsSt { ls_files : list fileinfo_t; ls_mem : mem; ls_acc : U; ls_out : bytes; ls_err : bytes }.
Arguments LsSt {U}. Arguments ls_files {U}. Arguments ls_mem {U}. Arguments ls_acc {U}. Arguments ls_out {U}. Arguments ls_err {U}.

Definition psh_ls_help : bytes :=
  concat ((fun l => bstr l ++ [10]) <$>
    ["usage: ls [options] [files]"; "  -1:  one entry per line"; "  -a:  do not ignore entries starting with .";
     "  -d:  list directories themselves, not their contents"; "  -f:  do not sort"; "  -h:  prints help";
     "  -l:  long listing format"; "  -r:  sort in reverse order"; "  -S:  sort by file size, largest first";
     "  -t:  sort by time, newest first"]%string).

(** ** Order *)

(** [strcasecmp] of names up to their NUL: its sign. *)
Definition tolower (c : Z) : Z := if (65 <=? c) && (c <=? 90) then c + 32 else c.
Definition strcasecmp (a b : bytes) : Z := strcmp (tolower <$> cstr a) (tolower <$> cstr b).

Section order.
Context (reverse : Z).

Definition psh_ls_cmpname (x y : fileinfo_t) : Z := strcasecmp (fi_name x) (fi_name y) * reverse.

Definition info_of (f : fileinfo_t) : finfo_t := default (Finfo 0 0 0 0) (fi_info f).

(** The result is an [int]; sizes are subtracted as [size_t]. *)
Definition psh_ls_cmpmtime (x y : fileinfo_t) : Z := s32 ((fi_mtime (info_of y) - fi_mtime (info_of x)) * reverse).
Definition psh_ls_cmpsize (x y : fileinfo_t) : Z := s32 (u64 (u64 (fi_size (info_of y) - fi_size (info_of x)) * reverse)).

Definition ls_compare (c : ls_cmp) : fileinfo_t -> fileinfo_t -> Z :=
  match c with CmpName => psh_ls_cmpname | CmpMtime => psh_ls_cmpmtime | CmpSize => psh_ls_cmpsize end.
End order.

(** [if (cmp != NULL) qsort(files, nfiles, ..., cmp)]; the entries have been filled. *)
Definition ls_sort `{Qsort} (o : ls_opts) (nfiles : Z) (files : list fileinfo_t) : option (list fileinfo_t) :=
  match o_cmp o with
  | None => Some files
  | Some c =>
      fs ← rd_range files 0 nfiles;
      _ ← mapM fi_info fs;
      wr_range files 0 (qsort (ls_compare (o_reverse o) c) fs)
  end.

(** ** Columns *)

(** [min(n, ws_col - 1)], compared as [size_t]. *)
Definition min_col (ws_col n : Z) : Z := Z.min n (u64 (ws_col - 1)).

Section columns.
Context (ws_col : Z) (lens : list Z).
#[local] Abbreviation nfiles := (zlen lens).

(** One attempt: the number of columns, their widths and the sum of them. *)
Definition try_rows (nrows : Z) (colsz : cells) : option (Z * cells * Z) :=
  let ncols := nfiles / nrows + (if nfiles mod nrows =? 0 then 0 else 1) in
  colsz ← for_loop 0 (Z.to_nat ncols) (fun i c => wr c i (Some 0)) colsz;
  colsz ← for_loop 0 (Z.to_nat nfiles)
    (fun i c =>
       len ← rd lens i;
       let col := i / nrows in
       w ← rd_cell c col;
       wr c col (Some (Z.max w (min_col ws_col (u64 (len + 2)))))) colsz;
  w ← rd_cell colsz (ncols - 1);
  colsz ← wr colsz (ncols - 1) (Some (u64 (w - 2)));
  sum ← for_loop 0 (Z.to_nat ncols) (fun col sum => w ← rd_cell colsz col; Some (u64 (sum + w))) 0;
  Some (ncols, colsz, sum).

Fixpoint rows_loop (fuel : nat) (nrows ncols : Z) (colsz : cells) : option (Z * Z * cells) :=
  match fuel with
  | O => None
  | Datatypes.S fuel =>
      if nrows <=? nfiles then
        '(ncols, colsz, sum) ← try_rows nrows colsz;
        if sum <? ws_col then Some (nrows, ncols, colsz) else rows_loop fuel (nrows + 1) ncols colsz
      else Some (nrows, ncols, colsz)
  end.

(** Rows, columns and widths; [None] inside: no memory. *)
Definition psh_ls_computerows (m : mem) : option (option (Z * Z * cells) * mem) :=
  let sum := foldl (fun sum len => u64 (sum + min_col ws_col len)) 0 lens in
  if ws_col =? 0 then None
  else
    let nrows := sum / ws_col + 1 in
    let ncols := nfiles / nrows + 1 in
    let '(ok, m) := alloc m in
    if ok : bool then
      r ← rows_loop (Datatypes.S (length lens)) nrows ncols (replicate (Z.to_nat ncols) None);
      Some (Some r, m)
    else Some (None, m).
End columns.

(** ** Printing *)

Definition psh_ls_printfile (file : fileinfo_t) (width : Z) : option bytes :=
  i ← fi_info file;
  let mode := fi_mode i in
  let color := if S_ISREG mode && negb (Z.land mode EXE_MODES =? 0) then Some EXE_COLOR
               else if S_ISDIR mode then Some DIR_COLOR
               else if S_ISCHR mode || S_ISBLK mode then Some DEV_COLOR
               else if S_ISLNK mode then Some SYM_COLOR
               else None in
  let text := pad_right width (cstr (fi_name file)) in
  Some (match color with Some c => c ++ text ++ 27 :: bstr "[0m" | None => text end).

(** The row [row] of a table. *)
Definition print_columns (ws_col nrows ncols : Z) (colsz : cells) (files : list fileinfo_t) (row : Z) (out : bytes) : option bytes :=
  line ← for_loop 0 (Z.to_nat ncols)
    (fun col out =>
       let idx := u32 (col * nrows + row) in
       if zlen files <=? idx then Some out
       else
         f ← rd files idx;
         w ← rd_cell colsz col;
         text ← psh_ls_printfile f (s32 (Z.max (fi_namelen f) (Z.min w ws_col)));
         Some (out ++ text)) out;
  Some (line ++ [10]).

(** [files] are the first [nfiles] entries. *)
Definition psh_ls_printmultiline (ws_col : Z) (files : list fileinfo_t) (m : mem) : option (Z * bytes * mem) :=
  '(r, m) ← psh_ls_computerows ws_col (fi_namelen <$> files) m;
  match r with
  | None => Some (- ENOMEM, [], m)
  | Some (nrows, ncols, colsz) =>
      out ← for_loop 0 (Z.to_nat nrows) (print_columns ws_col nrows ncols colsz files) [];
      Some (0, out, m)
  end.

(** [while (n /= 10) r++]. *)
Fixpoint places_loop (fuel : nat) (n r : Z) : option Z :=
  match fuel with
  | O => None
  | Datatypes.S fuel => if n / 10 =? 0 then Some r else places_loop fuel (n / 10) (r + 1)
  end.
Definition psh_ls_numplaces (n : Z) : option Z := places_loop 10 (u32 n) 1.

Definition dec_int (x : Z) : bytes := if x <? 0 then 45 :: dec (- x) else dec x.
(** [%*d]. *)
Definition pad_int (width x : Z) : bytes := let t := dec_int x in replicate (Z.to_nat (width - zlen t)) 32 ++ t.

(** [strftime] with ["%b"] in the C locale. *)
Definition month_name (m : Z) : bytes :=
  default (bstr "?") (rd (bstr <$> ["Jan"; "Feb"; "Mar"; "Apr"; "May"; "Jun"; "Jul"; "Aug"; "Sep"; "Oct"; "Nov"; "Dec"]%string) m).

(** The letters of a mode. *)
Definition ls_type (mode : Z) : Z :=
  if S_ISDIR mode then 100 else if S_ISCHR mode then 99 else if S_ISBLK mode then 98
  else if S_ISLNK mode then 108 else if S_ISFIFO mode then 112 else if S_ISSOCK mode then 115 else 45.
Definition ls_perms (mode : Z) : bytes :=
  ls_type mode ::
  ((fun '(bit, c) => if negb (Z.land mode bit =? 0) then c else 45) <$>
    [(256, 114); (128, 119); (64, 120); (32, 114); (16, 119); (8, 120); (4, 114); (2, 119); (1, 120)]).

Section listing.
Context {U : Type} `{Files, Accounts U, Clock, Qsort}.
Context (ws_col : Z).

Definition put_out (text : bytes) (s : ls_t U) : ls_t U := LsSt (ls_files s) (ls_mem s) (ls_acc s) (ls_out s ++ text) (ls_err s).
Definition put_err (text : bytes) (s : ls_t U) : ls_t U := LsSt (ls_files s) (ls_mem s) (ls_acc s) (ls_out s) (ls_err s ++ text).
Definition set_ls_mem (m : mem) (s : ls_t U) : ls_t U := LsSt (ls_files s) m (ls_acc s) (ls_out s) (ls_err s).
Definition set_ls_acc (u : U) (s : ls_t U) : ls_t U := LsSt (ls_files s) (ls_mem s) u (ls_out s) (ls_err s).
Definition set_ls_files (l : list fileinfo_t) (s : ls_t U) : ls_t U := LsSt l (ls_mem s) (ls_acc s) (ls_out s) (ls_err s).

Definition MSG_MEMORY : bytes := bstr "ls: out of memory" ++ [10].

(** ** The long format *)

Record long_sizes := LongSizes { z_link : Z; z_user : Z; z_grp : Z; z_size : Z; z_day : Z }.

Definition owner_of (name : U -> Z -> bytes) (u : U) (p : option (option Z)) : option (option bytes) :=
  match p with Some p => Some (name u <$> p) | None => None end.

Definition long_size (u : U) (f : fileinfo_t) (z : long_sizes) : option long_sizes :=
  i ← fi_info f;
  l ← psh_ls_numplaces (fi_nlink i);
  sz ← psh_ls_numplaces (fi_size i);
  pw ← owner_of pw_name u (fi_pw f);
  gr ← owner_of gr_name u (fi_gr f);
  t ← localtime (fi_mtime i);
  Some (LongSizes (Z.max l (z_link z))
          (match pw with Some n => Z.max (zlen n) (z_user z) | None => z_user z end)
          (match gr with Some n => Z.max (zlen n) (z_grp z) | None => z_grp z end)
          (Z.max sz (z_size z)) (if 10 <=? tm_mday t then 2 else z_day z)).

(** [buff]: the month, the day, and the time or the year. *)
Definition long_date (daysz currentYear : Z) (t : tm_t) : bytes :=
  take (Z.to_nat (5 + daysz)) (month_name (tm_mon t) ++ [32] ++ pad_int daysz (tm_mday t) ++ [32]) ++
  (if tm_year t =? currentYear then dec_pad 2 (tm_hour t) ++ bstr ":" ++ dec_pad 2 (tm_min t)
   else pad_int 5 (tm_year t + 1900)).

Definition long_line (u : U) (z : long_sizes) (currentYear : Z) (f : fileinfo_t) : option bytes :=
  i ← fi_info f;
  t ← localtime (fi_mtime i);
  pw ← owner_of pw_name u (fi_pw f);
  gr ← owner_of gr_name u (fi_gr f);
  name ← psh_ls_printfile f (s32 (fi_namelen f));
  Some (ls_perms (fi_mode i) ++ [32] ++ pad_int (z_link z) (fi_nlink i) ++ [32] ++
    pad_right (z_user z) (default (bstr "---") pw) ++ [32] ++ pad_right (z_grp z) (default (bstr "---") gr) ++ [32] ++
    pad_int (z_size z) (s64 (fi_size i)) ++ [32] ++ long_date (z_day z) currentYear t ++ [32] ++ name ++ [10]).

Definition psh_ls_printlong (u : U) (files : list fileinfo_t) : option bytes :=
  let currentYear := match localtime time_now with Some t => tm_year t | None => 0 end in
  z ← foldl (fun z f => z ← z; long_size u f z) (Some (LongSizes 1 3 3 1 1)) files;
  lines ← mapM (long_line u z currentYear) files;
  Some (concat lines).

(** ** Entries *)

Definition psh_ls_printfiles (o : ls_opts) (nfiles : Z) (s : ls_t U) : option (Z * ls_t U) :=
  files ← rd_range (ls_files s) 0 nfiles;
  match o_mode o with
  | MODE_LONG => text ← psh_ls_printlong (ls_acc s) files; Some (0, put_out text s)
  | MODE_ONEPERLINE =>
      lines ← mapM (fun f => t ← psh_ls_printfile f (s32 (fi_namelen f)); Some (t ++ [10])) files;
      Some (0, put_out (concat lines) s)
  | MODE_NORMAL =>
      '(ret, text, m) ← psh_ls_printmultiline ws_col files (ls_mem s);
      let s := put_out text (set_ls_mem m s) in
      Some (ret, if ret <? 0 then put_err MSG_MEMORY s else s)
  end.

(** [realloc] and [strcpy]; a smaller object would be overrun. *)
Definition psh_ls_copyname (file : fileinfo_t) (name : bytes) (m : mem) : option (Z * fileinfo_t * mem) :=
  let namelen := zlen (cstr name) in
  let '(ok, file, m) :=
    if fi_memlen file <=? namelen then
      let '(ok, m) := alloc m in
      if ok : bool then
        (true, Fileinfo (resize (Z.to_nat (namelen + 1)) 0 (fi_name file)) (fi_namelen file) (namelen + 1) (fi_info file) (fi_pw file) (fi_gr file), m)
      else (false, file, m)
    else (true, file, m) in
  if ok : bool then
    text ← wr_range (fi_name file) 0 (cstr name ++ [0]);
    Some (0, Fileinfo text namelen (fi_memlen file) (fi_info file) (fi_pw file) (fi_gr file), m)
  else Some (- ENOMEM, file, m).

Definition psh_ls_statentry (mode : ls_mode) (file : fileinfo_t) (path : bytes) (resolveSymlink : bool) (u : U) : Z * fileinfo_t * U :=
  match (if resolveSymlink then fs_stat path else fs_lstat path) with
  | None => (-1, file, u)
  | Some st =>
      let info := Some (Finfo (st_mtime st) (st_size st) (st_nlink st) (st_mode st)) in
      if bool_decide (mode = MODE_LONG) then
        let '(pw, u) := getpwuid (st_uid st) u in
        let '(gr, u) := getgrgid (st_gid st) u in
        (0, Fileinfo (fi_name file) (fi_namelen file) (fi_memlen file) info (Some pw) (Some gr), u)
      else (0, Fileinfo (fi_name file) (fi_namelen file) (fi_memlen file) info (fi_pw file) (fi_gr file), u)
  end.

(** [path/name], written into an object of [namelen + pathlen + 2] characters. *)
Definition full_name (namelen : Z) (path name : bytes) : option bytes :=
  let pathlen := zlen path in
  let buf := replicate (Z.to_nat (namelen + pathlen + 2)) 0 in
  buf ← wr_range buf 0 (path ++ [0]);
  last ← rd buf (pathlen - 1);
  if negb (last =? 47) then
    buf ← wr buf pathlen 47;
    wr_range buf (pathlen + 1) (name ++ [0])
  else wr_range buf pathlen (name ++ [0]).

(** [path] and [name] hold no NUL. *)
Definition psh_ls_readentry (mode : ls_mode) (file : fileinfo_t) (name path : bytes) (s : ls_t U) : option (Z * fileinfo_t * ls_t U) :=
  '(ret, file, m) ← psh_ls_copyname file name (ls_mem s);
  let s := set_ls_mem m s in
  if ret <? 0 then Some (ret, file, put_err MSG_MEMORY s)
  else
    let '(ok, m) := alloc m in
    let s := set_ls_mem m s in
    if ok : bool then
      fullname ← full_name (fi_namelen file) path name;
      let '(ret, file, u) := psh_ls_statentry mode file (cstr fullname) false (ls_acc s) in
      let s := set_ls_acc u s in
      Some (ret, file, if ret <? 0 then put_err (bstr "ls: can't stat file " ++ name ++ [10]) s else s)
    else Some (- ENOMEM, file, put_err MSG_MEMORY s).

Definition psh_ls_expandbuff (size : Z) (s : ls_t U) : Z * ls_t U :=
  let '(ok, m) := alloc (ls_mem s) in
  let s := set_ls_mem m s in
  if ok : bool then (0, set_ls_files (resize (Z.to_nat size) fi_fresh (ls_files s)) s) else (- ENOMEM, s).

Definition hidden (o : ls_opts) (name : bytes) : bool := (default 0 (head name) =? 46) && negb (o_all o).

(** ** The listing without an array *)

Fixpoint lowmem_entries (o : ls_opts) (path : bytes) (names : list bytes) (file : fileinfo_t) (colsz : Z) (s : ls_t U) :
    option (Z * Z * ls_t U) :=
  match names with
  | [] => Some (0, colsz, put_out [10] s)
  | name :: names =>
      if hidden o name then lowmem_entries o path names file colsz s
      else
        '(ret, file, s) ← psh_ls_readentry (o_mode o) file name path s;
        if ret <? 0 then Some (ret, colsz, s)
        else
          let '(colsz, s) := if ws_col <? colsz + fi_namelen file + 1 then (0, put_out [10] s) else (colsz, s) in
          text ← psh_ls_printfile file (s32 (fi_namelen file));
          lowmem_entries o path names file (u32 (colsz + fi_namelen file + 1)) (put_out (text ++ [32]) s)
  end.

Definition MSG_DIR (path : bytes) : bytes := bstr "ls: failed to open directory " ++ path ++ [10].

Fixpoint lowmem_paths (o : ls_opts) (many : bool) (paths : list bytes) (colsz : Z) (s : ls_t U) : option (Z * ls_t U) :=
  match paths with
  | [] => Some (0, s)
  | path :: paths =>
      let '(ret, file, u) := psh_ls_statentry (o_mode o) fi_zero path false (ls_acc s) in
      let s := set_ls_acc u s in
      if ret <? 0 then Some (ret, put_err (bstr "ls: stat failed" ++ [10]) s)
      else
        i ← fi_info file;
        if negb (S_ISDIR (fi_mode i)) then lowmem_paths o many paths colsz s
        else
          match fs_listdir path with
          | None => Some (ret, put_err (MSG_DIR path) s)
          | Some names =>
              let s := if many then put_out (path ++ bstr ":" ++ [10]) s else s in
              '(ret, colsz, s) ← lowmem_entries o path names file colsz s;
              if ret <? 0 then Some (ret, s) else lowmem_paths o many paths colsz s
          end
  end.

Definition psh_ls_lowmem (o : ls_opts) (paths : list bytes) (s : ls_t U) : option (Z * ls_t U) :=
  let s := put_err (bstr "ls: out of memory - not sorting entries" ++ [10]) s in
  let paths := match paths with [] => [bstr "."] | _ => paths end in
  lowmem_paths o (1 <? zlen paths) paths 0 s.

(** ** The applet *)

(** What a part of [psh_ls] ends with: going on, returning, or the listing without an
    array. *)
Inductive ls_flow (A : Type) := Next (a : A) (s : ls_t U) | Return (ret : Z) (s : ls_t U) | Lowmem (s : ls_t U).
Arguments Next {A}. Arguments Return {A}. Arguments Lowmem {A}.

(** [nfiles++], and twice the array when it is full. *)
Definition ls_room {A} (nfiles : Z) (a : A) (s : ls_t U) : ls_flow A :=
  if nfiles =? zlen (ls_files s) then
    let '(ret, s) := psh_ls_expandbuff (zlen (ls_files s) * 2) s in
    if ret <? 0 then Lowmem s else Next a s
  else Next a s.

Definition path_message (path : bytes) (why : string) : bytes := bstr "ls: can't access " ++ path ++ bstr ": " ++ bstr why ++ [10].

(** One of the given paths: [nfiles], whether it is a directory to open, and [ret]. *)
Definition stat_path (o : ls_opts) (path : bytes) (nfiles : Z) (s : ls_t U) : option (ls_flow (Z * bool * Z)) :=
  file ← rd (ls_files s) nfiles;
  let '(ret, file, u) := psh_ls_statentry (o_mode o) file path false (ls_acc s) in
  files ← wr (ls_files s) nfiles file;
  let s := set_ls_files files (set_ls_acc u s) in
  if ret <? 0 then Some (Next (nfiles, false, ret) (put_err (path_message path "no such file or directory") s))
  else
    last ← rd path (zlen path - 1);
    i ← fi_info file;
    if (last =? 47) && negb (S_ISDIR (fi_mode i)) then Some (Next (nfiles, false, ret) (put_err (path_message path "not a directory") s))
    else if negb (S_ISDIR (fi_mode i)) || o_dir o then
      '(ret, file, m) ← psh_ls_copyname file path (ls_mem s);
      files ← wr (ls_files s) nfiles file;
      let s := set_ls_files files (set_ls_mem m s) in
      if ret <? 0 then Some (Return ret (put_err MSG_MEMORY s))
      else Some (ls_room (nfiles + 1) (nfiles + 1, false, ret) s)
    else Some (ls_room nfiles (nfiles, true, ret) s).

(** All of them: [nfiles], [odir] and [ret]. *)
Fixpoint stat_paths (o : ls_opts) (paths : list bytes) (nfiles ret : Z) (odir : list bool) (s : ls_t U) :
    option (ls_flow (Z * list bool * Z)) :=
  match paths with
  | [] => Some (Next (nfiles, odir, ret) s)
  | path :: paths =>
      r ← stat_path o path nfiles s;
      match r with
      | Next (nfiles, isdir, ret) s => stat_paths o paths nfiles ret (odir ++ [isdir]) s
      | Return ret s => Some (Return ret s)
      | Lowmem s => Some (Lowmem s)
      end
  end.

(** The entries of an open directory: [nfiles] and [ret]. *)
Fixpoint read_entries (o : ls_opts) (path : bytes) (names : list bytes) (nfiles ret : Z) (s : ls_t U) : option (ls_flow (Z * Z)) :=
  match names with
  | [] => Some (Next (nfiles, ret) s)
  | name :: names =>
      if hidden o name then read_entries o path names nfiles ret s
      else
        file ← rd (ls_files s) nfiles;
        '(ret, file, s) ← psh_ls_readentry (o_mode o) file name path s;
        files ← wr (ls_files s) nfiles file;
        let s := set_ls_files files s in
        if ret <? 0 then Some (Return ret s)
        else
          match ls_room (nfiles + 1) ret s with
          | Next ret s => read_entries o path names (nfiles + 1) ret s
          | Return ret s => Some (Return ret s)
          | Lowmem s => Some (Lowmem s)
          end
  end.

(** [qsort] and [psh_ls_printfiles] of the first [nfiles] entries. *)
Definition show_files (o : ls_opts) (nfiles : Z) (s : ls_t U) : option (Z * ls_t U) :=
  files ← ls_sort o nfiles (ls_files s);
  psh_ls_printfiles o nfiles (set_ls_files files s).

(** One directory: [nfiles] and [ret]. *)
Definition list_dir (o : ls_opts) (many : bool) (path : bytes) (names : list bytes) (nfiles ret : Z) (s : ls_t U) : option (ls_flow (Z * Z)) :=
  let s := if many then put_out ((if 0 <? nfiles then [10] else []) ++ path ++ bstr ":" ++ [10]) s else s in
  r ← read_entries o path names 0 ret s;
  match r with
  | Next (nfiles, ret) s =>
      if 0 <? nfiles then '(_, s) ← show_files o nfiles s; Some (Next (nfiles, ret) s) else Some (Next (nfiles, ret) s)
  | _ => Some r
  end.

(** The [do] loop over the paths; [continue] goes to its condition. *)
Fixpoint dir_loop (fuel : nat) (o : ls_opts) (paths : list bytes) (odir : list bool) (i nfiles ret : Z) (s : ls_t U) : option (ls_flow Z) :=
  match fuel with
  | O => None
  | Datatypes.S fuel =>
      let again i nfiles ret s := if i + 1 <? zlen paths then dir_loop fuel o paths odir (i + 1) nfiles ret s else Some (Next ret s) in
      path ← (match paths with
              | [] => Some (Some (bstr "."))
              | _ => d ← rd odir i; if d : bool then p ← rd paths i; Some (Some p) else Some None
              end);
      match path with
      | None => again (i + 1) nfiles ret s
      | Some path =>
          match fs_listdir path with
          | None => Some (Next ret (put_err (MSG_DIR path) s))
          | Some names =>
              r ← list_dir o (1 <? zlen paths) path names nfiles ret s;
              match r with
              | Next (nfiles, ret) s => again i nfiles ret s
              | Return ret s => Some (Return ret s)
              | Lowmem s => Some (Lowmem s)
              end
          end
      end
  end.

(** Behind the options: the paths and the directories. *)
Definition ls_main (o : ls_opts) (paths : list bytes) (s : ls_t U) : option (ls_flow Z) :=
  let '(ok, s) := match paths with [] => (true, s) | _ => let '(ok, m) := alloc (ls_mem s) in (ok, set_ls_mem m s) end in
  if negb ok then Some (Lowmem s)
  else
    let '(ret, s) := psh_ls_expandbuff 32 s in
    if ret <? 0 then Some (Lowmem s)
    else
      r ← stat_paths o paths 0 ret [] s;
      match r with
      | Next (nfiles, odir, ret) s =>
          '(ret, s) ← (if 0 <? nfiles then show_files o nfiles s else Some (ret, s));
          if (0 <? nfiles) && (ret <? 0) then Some (Return ret s)
          else dir_loop (Datatypes.S (length paths)) o paths odir 0 nfiles ret s
      | Return ret s => Some (Return ret s)
      | Lowmem s => Some (Lowmem s)
      end.

(** The results of [getopt]; [None]: the help is printed. *)
Fixpoint parse_opts (opts : list Z) (o : ls_opts) : option ls_opts :=
  match opts with
  | [] => Some o
  | c :: opts =>
      let '(LsOpts mode all reverse dir cmp) := o in
      if c =? 108 then parse_opts opts (LsOpts MODE_LONG all reverse dir cmp)
      else if c =? 97 then parse_opts opts (LsOpts mode true reverse dir cmp)
      else if c =? 49 then parse_opts opts (LsOpts (if bool_decide (mode = MODE_NORMAL) then MODE_ONEPERLINE else mode) all reverse dir cmp)
      else if c =? 116 then parse_opts opts (LsOpts mode all reverse dir (Some CmpMtime))
      else if c =? 102 then parse_opts opts (LsOpts mode all reverse dir None)
      else if c =? 83 then parse_opts opts (LsOpts mode all reverse dir (Some CmpSize))
      else if c =? 114 then parse_opts opts (LsOpts mode all (-1) dir cmp)
      else if c =? 100 then parse_opts opts (LsOpts mode all reverse true cmp)
      else None
  end.
End listing.

Arguments Next {U A}. Arguments Return {U A}. Arguments Lowmem {U A}.

(** The exit code and what is printed.  [ws] is the width the terminal reports, [opts]
    and [paths] the options and the other arguments. *)
Definition psh_ls {U} `{Files, Accounts U, Clock, Qsort} (ws : option Z) (opts : list Z) (paths : list bytes) (m : mem) (u : U) :
    option (Z * ls_t U) :=
  let ws_col := default 80 ws in
  let s := LsSt [] m u [] [] in
  match parse_opts opts ls_opts_default with
  | None => Some (0, put_out psh_ls_help s)
  | Some o =>
      let paths := match paths with [] => if o_dir o then [bstr "."] else [] | _ => paths end in
      r ← ls_main ws_col o paths s;
      match r with
      | Next ret s | Return ret s => Some (ret, s)
      | Lowmem s => psh_ls_lowmem ws_col o paths s
      end
  end.
