(* ===== verification/LsSpec.v ===== *)
(** * The columns of a listing ([psh/ls/ls.c])

    The widths [psh_ls_computerows] computes, the number of rows it finds, and the table
    [psh_ls_printmultiline] prints from them. *)

From S2P Require Import Prelude.
From S2P Require Import Complete.
From S2P Require Import PcHist.
From S2P Require Import Ls.

(** ** Columns *)

(** The elements of column [c] of a table of [r] rows that is filled column by column. *)
Definition column {A} (r : Z) (l : list A) (c : Z) : list A := take (Z.to_nat r) (drop (Z.to_nat (c * r)) l).
Definition columns_of (r n : Z) : Z := n / r + (if n mod r =? 0 then 0 else 1).

Definition maxl (l : list Z) : Z := foldr Z.max 0 l.

Lemma maxl_snoc l x : 0 <= x -> maxl (l ++ [x]) = Z.max (maxl l) x.
Proof. induction l as [|y l IH]; simpl; intros; [lia|]. rewrite IH; lia. Qed.

Lemma maxl_in l x : x ∈ l -> x <= maxl l.
Proof. unfold maxl. induction 1; simpl; lia. Qed.

Lemma maxl_le l b : 0 <= b -> (forall x, x ∈ l -> x <= b) -> maxl l <= b.
Proof.
  unfold maxl. intros Hb. induction l as [|y l IH]; intros H; simpl; [lia|].
  apply Z.max_lub; [apply H; left|apply IH; intros x Hx; apply H; by right].
Qed.

Lemma maxl_nonneg l : 0 <= maxl l.
Proof. unfold maxl. induction l; simpl; lia. Qed.

Lemma columns_of_spec r n : 0 < r -> 0 <= n -> (columns_of r n - 1) * r < n <= columns_of r n * r \/ n = 0 /\ columns_of r n = 0.
Proof. unfold columns_of. intros. destruct (Z.eqb_spec (n mod r) 0); [|left; dlia]. destruct (Z.eq_dec n 0) as [->|]; [right; split; [done|dlia]|left; dlia]. Qed.

Lemma column_snoc {A} r (l : list A) x k : 0 < r -> 0 <= k -> column r (l ++ [x]) k = column r l k ++ (if k =? zlen l / r then [x] else []).
Proof.
  intros Hr Hk. unfold column. pose proof (Z.mul_div_le (zlen l) r Hr). pose proof (Z.mul_succ_div_gt (zlen l) r Hr).
  destruct (Z.eqb_spec k (zlen l / r)) as [->|Hne].
  - rewrite drop_app_le by (unfold zlen in *; nia). rewrite !take_ge; [done|unfold zlen in *; rewrite ?length_app, length_drop; simpl; nia..].
  - rewrite app_nil_r. destruct (Z.lt_ge_cases k (zlen l / r)) as [Hlt|Hge].
    + assert ((k + 1) * r <= zlen l) by nia. rewrite drop_app_le by (unfold zlen in *; nia).
      rewrite take_app_le; [done|]. rewrite length_drop. unfold zlen in *. nia.
    + assert (zlen l < k * r) by nia. rewrite !drop_ge; [done|unfold zlen in *; rewrite ?length_app; simpl; lia..].
Qed.

Lemma column_elem {A} r (l : list A) k x : x ∈ column r l k -> x ∈ l.
Proof. unfold column. intros (i & Hi)%list_elem_of_lookup. rewrite lookup_take_Some, lookup_drop in Hi. destruct Hi as [Hi _]. by eapply list_elem_of_lookup_2. Qed.

Lemma column_take_full {A} r (l : list A) k : column r (take (length l) l) k = column r l k.
Proof. by rewrite take_ge. Qed.

Lemma take_snoc {A} (l : list A) (i : nat) x : l !! i = Some x -> take (S i) l = take i l ++ [x].
Proof. apply take_S_r. Qed.

Lemma rd_cell_wr c i j x c' : wr c i (Some x) = Some c' -> 0 <= j -> rd_cell c' j = if i =? j then Some x else rd_cell c j.
Proof. intros Hw Hj. unfold rd_cell. rewrite (rd_wr c i j (Some x) c' Hw Hj). by destruct (i =? j). Qed.

Lemma zlen_seqZ a k : 0 <= k -> zlen (seqZ a k) = k.
Proof. intros. unfold zlen. rewrite length_seqZ. lia. Qed.

Lemma seqZ_nonneg_list k : Forall (fun i => 0 <= i) (seqZ 0 k).
Proof. apply Forall_forall. intros i Hi%elem_of_seqZ. lia. Qed.

Definition zsum (l : list Z) : Z := foldr Z.add 0 l.

Lemma zsum_app l k : zsum (l ++ k) = zsum l + zsum k.
Proof. unfold zsum. induction l; simpl; lia. Qed.

Lemma zsum_nonneg l : (forall x, x ∈ l -> 0 <= x) -> 0 <= zsum l.
Proof. unfold zsum. induction l as [|y l IH]; intros H; simpl; [lia|]. pose proof (H y ltac:(left)). specialize (IH ltac:(intros; apply H; by right)). lia. Qed.

(** ** Widths *)

Section widths.
Context (ws_col : Z) (lens : list Z).
#[local] Abbreviation n := (zlen lens).
#[local] Abbreviation room := (fun len => min_col ws_col (u64 (len + 2))).

(** The width of a column: two spaces follow every one but the last. *)
Definition width (r k : Z) : Z :=
  let w := maxl (room <$> column r lens k) in if k =? columns_of r n - 1 then u64 (w - 2) else w.

Definition widths_sum (r : Z) : Z := foldl (fun s k => u64 (s + width r k)) 0 (seqZ 0 (columns_of r n)).

Lemma sum_loop (f : Z -> option Z) (h : Z -> Z) (acc : Z -> Z -> Z) (k : nat) : forall lo s,
  (forall i, lo <= i < lo + Z.of_nat k -> f i = Some (h i)) ->
  for_loop lo k (fun i s => w ← f i; Some (acc s w)) s = Some (foldl (fun s i => acc s (h i)) s (seqZ lo (Z.of_nat k))).
Proof.
  induction k as [|k IH]; intros lo s Hf; [done|]. cbn [for_loop]. rewrite Hf by lia. cbn [mbind option_bind].
  rewrite seqZ_cons by lia. cbn [foldl]. rewrite IH by (intros; apply Hf; lia). do 3 f_equal. lia.
Qed.

Lemma fill_loop r colsz N : 0 < r -> columns_of r n <= N -> zlen colsz = N -> 0 < n ->
  (forall k, 0 <= k < columns_of r n -> rd_cell colsz k = Some 0) ->
  exists colsz', for_loop 0 (Z.to_nat n)
    (fun i c => len ← rd lens i; w ← rd_cell c (i / r); wr c (i / r) (Some (Z.max w (min_col ws_col (u64 (len + 2)))))) colsz = Some colsz' /\
    zlen colsz' = N /\ (forall k, 0 <= k < columns_of r n -> rd_cell colsz' k = Some (maxl (room <$> column r lens k))).
Proof.
  intros Hr HN Hlen Hn Hz. pose proof (columns_of_spec r n Hr ltac:(lia)) as Hc.
  destruct (for_loop_inv (fun i c => zlen c = N /\ forall k, 0 <= k < columns_of r n -> rd_cell c k = Some (maxl (room <$> column r (take (Z.to_nat i) lens) k)))
    (fun i c => len ← rd lens i; w ← rd_cell c (i / r); wr c (i / r) (Some (Z.max w (min_col ws_col (u64 (len + 2))))))
    0 (Z.to_nat n) colsz) as (c & -> & Hl & Hv).
  - split; [done|]. intros k Hk. rewrite Hz by done. unfold column. by rewrite take_0, drop_nil, take_nil.
  - intros i c Hi [Hl Hv]. destruct (proj2 (rd_is_Some lens i)) as [len Elen]; [lia|]. rewrite Elen. cbn [mbind option_bind].
    assert (Hcol : 0 <= i / r < columns_of r n) by (split; [apply Z.div_pos; lia|apply Z.div_lt_upper_bound; [done|]; lia]).
    rewrite Hv by done. cbn [mbind option_bind].
    destruct (proj2 (wr_is_Some c (i / r) (Some (Z.max (maxl (room <$> column r (take (Z.to_nat i) lens) (i / r))) (room len))))) as [c' Ec]; [lia|].
    rewrite Ec. exists c'. split; [done|]. split; [by rewrite (wr_zlen _ _ _ _ Ec)|]. intros k Hk.
    rewrite (rd_cell_wr _ _ _ _ _ Ec) by lia. rewrite Z2Nat.inj_add by lia. change (Z.to_nat 1) with 1%nat. rewrite Nat.add_1_r.
    unfold rd in Elen. destruct (Z.leb_spec 0 i); [|lia]. rewrite (take_snoc _ _ _ Elen), column_snoc by lia.
    assert (E : zlen (take (Z.to_nat i) lens) = i) by (rewrite zlen_take; lia). rewrite E, (Z.eqb_sym (i / r) k).
    destruct (Z.eqb_spec k (i / r)) as [->|]; [|by rewrite app_nil_r, Hv].
    rewrite fmap_app. cbn [list_fmap fmap]. rewrite maxl_snoc; [done|]. unfold min_col. pose proof (wrapu_range 64 (len + 2)). pose proof (wrapu_range 64 (ws_col - 1)). lia.
  - exists c. split; [done|]. split; [done|]. intros k Hk. rewrite Hv by done. do 4 f_equal. apply take_ge. unfold zlen. lia.
Qed.

Lemma zero_loop N cols (colsz : cells) : cols <= N -> zlen colsz = N ->
  exists colsz', for_loop 0 (Z.to_nat cols) (fun i c => wr c i (Some 0)) colsz = Some colsz' /\ zlen colsz' = N /\
    (forall k, 0 <= k < cols -> rd_cell colsz' k = Some 0).
Proof.
  intros HN Hl. destruct (for_loop_inv (fun i c => zlen c = N /\ forall k, 0 <= k < i -> rd_cell c k = Some 0)
    (fun i (c : cells) => wr c i (Some 0)) 0 (Z.to_nat cols) colsz) as (c & -> & Hc & Hv); [split; [done|lia]| |].
  - intros i c Hi [Hc Hv]. destruct (proj2 (wr_is_Some c i (Some 0))) as [c' Ec]; [lia|]. exists c'. split; [done|].
    split; [by rewrite (wr_zlen _ _ _ _ Ec)|]. intros k Hk. rewrite (rd_cell_wr _ _ _ _ _ Ec) by lia. destruct (Z.eqb_spec i k); [done|]. apply Hv. lia.
  - exists c. split; [done|]. split; [done|]. intros k Hk. apply Hv. lia.
Qed.

(** One attempt writes and reads the widths of its columns only. *)
Lemma try_rows_ok r colsz : 0 < r -> 0 < n -> columns_of r n <= zlen colsz -> exists colsz',
  try_rows ws_col lens r colsz = Some (columns_of r n, colsz', widths_sum r) /\ zlen colsz' = zlen colsz /\
  (forall k, 0 <= k < columns_of r n -> rd_cell colsz' k = Some (width r k)).
Proof.
  intros Hr Hn HN. unfold try_rows. fold (columns_of r n). pose proof (columns_of_spec r n Hr ltac:(lia)) as Hc. assert (0 < columns_of r n) by nia.
  destruct (zero_loop (zlen colsz) (columns_of r n) colsz HN eq_refl) as (c1 & -> & Hl1 & Hz). cbn [mbind option_bind].
  destruct (fill_loop r c1 (zlen colsz) Hr HN Hl1 Hn Hz) as (c2 & -> & Hl2 & Hv). cbn [mbind option_bind].
  rewrite Hv by lia. cbn [mbind option_bind].
  destruct (proj2 (wr_is_Some c2 (columns_of r n - 1) (Some (u64 (maxl (room <$> column r lens (columns_of r n - 1)) - 2))))) as [c3 E3]; [lia|].
  rewrite E3. cbn [mbind option_bind].
  assert (Hw : forall k, 0 <= k < columns_of r n -> rd_cell c3 k = Some (width r k)).
  { intros k Hk. rewrite (rd_cell_wr _ _ _ _ _ E3) by lia. unfold width. rewrite (Z.eqb_sym k). destruct (Z.eqb_spec (columns_of r n - 1) k) as [->|]; [done|]. by apply Hv. }
  rewrite (sum_loop (rd_cell c3) (width r) (fun s w => u64 (s + w))) by (intros; apply Hw; lia). cbn [mbind option_bind].
  exists c3. rewrite Z2Nat.id by lia. split; [done|]. split; [by rewrite (wr_zlen _ _ _ _ E3)|done].
Qed.

(** The loop: from [r] rows on the first that fit, or one more than there are files. *)
Lemma rows_loop_ok fuel : forall r cols colsz, 0 < r <= n + 1 -> 0 < n -> n + 1 - r < Z.of_nat fuel -> (forall r', r <= r' -> columns_of r' n <= zlen colsz) ->
  (r = n + 1 -> 0 <= cols <= zlen colsz /\ forall k, 0 <= k < cols -> is_Some (rd_cell colsz k)) ->
  exists r' cols' colsz', rows_loop ws_col lens fuel r cols colsz = Some (r', cols', colsz') /\ r <= r' <= n + 1 /\ 0 <= cols' <= zlen colsz' /\
    (forall k, 0 <= k < cols' -> is_Some (rd_cell colsz' k)) /\
    (forall q, r <= q < r' -> ws_col <= widths_sum q) /\
    (r' <= n -> widths_sum r' < ws_col /\ cols' = columns_of r' n /\ forall k, 0 <= k < cols' -> rd_cell colsz' k = Some (width r' k)).
Proof.
  induction fuel as [|fuel IH]; intros r cols colsz Hr Hn Hf Hsz Hlast; [lia|]. cbn [rows_loop]. destruct (Z.leb_spec r n).
  - destruct (try_rows_ok r colsz) as (c & -> & Hl & Hv); [lia|done|apply Hsz; lia|]. cbn [mbind option_bind].
    assert (Hsome : forall k, 0 <= k < columns_of r n -> is_Some (rd_cell c k)) by (intros k Hk; rewrite Hv by done; eauto).
    assert (0 <= columns_of r n <= zlen c) by (rewrite Hl; split; [unfold columns_of; destruct (_ =? 0); dlia|apply Hsz; lia]).
    destruct (Z.ltb_spec (widths_sum r) ws_col) as [Hfit|Hno].
    + exists r, (columns_of r n), c. split_and!; try done; try lia.
    + destruct (IH (r + 1) (columns_of r n) c) as (r' & cols' & c' & E & Hr' & Hc' & Hs' & Hq & Hfin); [lia|done|lia| | |].
      { intros r' Hr'. rewrite Hl. apply Hsz. lia. }
      { intros _. by split. }
      exists r', cols', c'. split_and!; try done; try lia. intros q Hq'. destruct (Z.eq_dec q r) as [->|]; [lia|apply Hq; lia].
  - exists r, cols, colsz. destruct Hlast as [Hc Hs]; [lia|]. split_and!; try done; try lia.
Qed.
End widths.

(** ** The search for the number of rows *)

Lemma foldl_u64 {A} (f : A -> Z) (l : list A) : forall s, 0 <= s -> (forall x, x ∈ l -> 0 <= f x) -> s + zsum (f <$> l) < 2 ^ 64 ->
  foldl (fun s x => u64 (s + f x)) s l = s + zsum (f <$> l).
Proof.
  induction l as [|x l IH]; intros s Hs Hf Hb; [simpl; lia|]. cbn [foldl].
  change (f <$> x :: l) with (f x :: (f <$> l)) in *. change (zsum (f x :: (f <$> l))) with (f x + zsum (f <$> l)) in *.
  assert (0 <= zsum (f <$> l)) by (apply zsum_nonneg; intros y (z & -> & Hz)%list_elem_of_fmap; apply Hf; by right).
  pose proof (Hf x ltac:(left)). rewrite wrapu_small by lia. rewrite IH; [lia|lia|intros; apply Hf; by right|lia].
Qed.

Lemma columns_concat {A} r (l : list A) (m : nat) : 0 < r -> forall c, 0 <= c ->
  concat (column r l <$> seqZ c (Z.of_nat m)) = take (m * Z.to_nat r) (drop (Z.to_nat (c * r)) l).
Proof.
  intros Hr. induction m as [|m IH]; intros c Hc; [done|]. rewrite seqZ_cons by lia. cbn [fmap list_fmap concat].
  replace (Z.pred (Z.of_nat (S m))) with (Z.of_nat m) by lia. unfold column at 1. rewrite IH by lia.
  replace (Z.to_nat (Z.succ c * r)) with (Z.to_nat (c * r) + Z.to_nat r)%nat by nia. rewrite <- drop_drop, take_take_drop. f_equal.
Qed.

Lemma columns_all {A} r (l : list A) : 0 < r -> concat (column r l <$> seqZ 0 (columns_of r (zlen l))) = l.
Proof.
  intros Hr. pose proof (columns_of_spec r (zlen l) Hr (zlen_nonneg l)) as Hc. pose proof (zlen_nonneg l). assert (0 <= columns_of r (zlen l)) by nia.
  rewrite <- (Z2Nat.id (columns_of r (zlen l))) by done. rewrite columns_concat by lia. rewrite Z.mul_0_l. apply take_ge. cbn [Z.to_nat drop]. unfold zlen in *. nia.
Qed.

Lemma columns_antitone r q n : 0 < r <= q -> 0 <= n -> columns_of q n <= n / r + 1.
Proof. intros Hr Hn. assert (n / q <= n / r) by (apply Z.div_le_compat_l; lia). unfold columns_of. destruct (_ =? 0); lia. Qed.

Lemma foldl_u64_le {A} (f : A -> Z) (l : list A) : forall s, 0 <= s -> (forall x, x ∈ l -> 0 <= f x) -> 0 <= foldl (fun s x => u64 (s + f x)) s l <= s + zsum (f <$> l).
Proof.
  induction l as [|x l IH]; intros s Hs Hf; [simpl; lia|]. cbn [foldl]. change (zsum (f <$> x :: l)) with (f x + zsum (f <$> l)). pose proof (Hf x ltac:(left)).
  pose proof (wrapu_range 64 (s + f x) ltac:(lia)). assert (u64 (s + f x) <= s + f x) by (apply Z.mod_le; lia).
  specialize (IH (u64 (s + f x)) ltac:(lia) ltac:(intros; apply Hf; by right)). lia.
Qed.

Section search.
Context (ws_col : Z) (lens : list Z) (m : mem).
Hypothesis Hws : 0 < ws_col < 65536.
Hypothesis Hn : 0 < zlen lens.
Hypothesis Hlens : forall len, len ∈ lens -> 0 <= len.
#[local] Abbreviation n := (zlen lens).

(** The estimate that the search starts from. *)
Definition first_rows : Z := foldl (fun sum len => u64 (sum + min_col ws_col len)) 0 lens / ws_col + 1.

Lemma min_col_eq len : min_col ws_col len = Z.min len (ws_col - 1).
Proof. unfold min_col. rewrite wrapu_small; lia. Qed.

Lemma min_sum_le l : (forall len, len ∈ l -> 0 <= len) -> 0 <= zsum (min_col ws_col <$> l) <= zlen l * (ws_col - 1).
Proof.
  intros H. induction l as [|x l IH]; [done|]. rewrite zlen_cons. cbn [fmap list_fmap zsum foldr].
  pose proof (H x ltac:(left)). specialize (IH ltac:(intros; apply H; by right)). rewrite min_col_eq. change (foldr Z.add 0) with zsum. lia.
Qed.

Lemma first_rows_le : 0 < first_rows <= n.
Proof.
  pose proof (min_sum_le lens Hlens) as Hs. pose proof (foldl_u64_le (min_col ws_col) lens 0 ltac:(lia)) as Hb.
  destruct Hb as [H1 H2]; [intros x Hx; rewrite min_col_eq; pose proof (Hlens x Hx); lia|]. unfold first_rows. revert H1 H2. generalize (foldl (fun sum len => u64 (sum + min_col ws_col len)) 0 lens). intros v H1 H2.
  assert (0 <= v / ws_col) by (apply Z.div_pos; lia). assert (v / ws_col < n); [apply Z.div_lt_upper_bound; nia|lia].
Qed.

(** Whatever the names are, the search ends and has the widths of the columns it returns. *)
Lemma computerows_ok : (alloc m).1 = true -> exists r cols colsz,
  psh_ls_computerows ws_col lens m = Some (Some (r, cols, colsz), (alloc m).2) /\ first_rows <= r <= n + 1 /\ 0 <= cols /\
  (forall k, 0 <= k < cols -> is_Some (rd_cell colsz k)) /\
  (forall q, first_rows <= q < r -> ws_col <= widths_sum ws_col lens q) /\
  (r <= n -> widths_sum ws_col lens r < ws_col /\ cols = columns_of r n /\ forall k, 0 <= k < cols -> rd_cell colsz k = Some (width ws_col lens r k)).
Proof.
  intros Ha. unfold psh_ls_computerows. pose proof first_rows_le as Hf.
  fold first_rows. destruct (Z.eqb_spec ws_col 0) as [|_]; [lia|]. destruct (alloc m) as [ok m']. simpl in Ha. subst ok.
  assert (0 <= n / first_rows) by (apply Z.div_pos; lia).
  destruct (rows_loop_ok ws_col lens (S (length lens)) first_rows (n / first_rows + 1) (replicate (Z.to_nat (n / first_rows + 1)) None))
    as (r & cols & colsz & E & Hr & Hc & Hs' & Hq & Hfin); [lia|lia|unfold zlen; lia| |lia|].
  { intros r Hr. rewrite zlen_replicate, Z2Nat.id by lia. apply columns_antitone; lia. }
  rewrite E. cbn [mbind option_bind]. exists r, cols, colsz. split; [done|]. split; [lia|]. split; [lia|]. done.
Qed.
End search.

(** ** Names that fit *)

(** The width of a table of [r] rows: the columns and the spaces between them. *)
Definition table_width (lens : list Z) (r : Z) : Z :=
  zsum ((fun k => maxl (column r lens k)) <$> seqZ 0 (columns_of r (zlen lens))) + 2 * (columns_of r (zlen lens) - 1).

(** The field of a name in column [k]. *)
Definition field (lens : list Z) (r k : Z) : Z := maxl (column r lens k) + if k =? columns_of r (zlen lens) - 1 then 0 else 2.

Lemma maxl_shift l : l <> [] -> (forall x, x ∈ l -> 0 <= x) -> maxl ((fun x => x + 2) <$> l) = maxl l + 2.
Proof.
  intros Hl H. induction l as [|x l IH]; [done|]. pose proof (H x ltac:(left)). change (maxl ((fun x => x + 2) <$> x :: l)) with (Z.max (x + 2) (maxl ((fun x => x + 2) <$> l))).
  change (maxl (x :: l)) with (Z.max x (maxl l)). destruct l as [|y l]; [simpl; lia|]. rewrite IH; [lia|done|intros; apply H; by right].
Qed.

Lemma zsum_concat ls : zsum (concat ls) = zsum (zsum <$> ls).
Proof. induction ls as [|l ls IH]; [done|]. cbn [concat fmap list_fmap]. rewrite zsum_app, IH. done. Qed.

Lemma zsum_le_maxl l : (forall x, x ∈ l -> 0 <= x) -> zsum l <= zlen l * maxl l.
Proof.
  intros H. induction l as [|x l IH]; [done|]. change (zsum (x :: l)) with (x + zsum l). change (maxl (x :: l)) with (Z.max x (maxl l)). rewrite zlen_cons.
  specialize (IH ltac:(intros; apply H; by right)). pose proof (zlen_nonneg l). pose proof (maxl_nonneg l). nia.
Qed.

Lemma zsum_le {A} (f g : A -> Z) l : (forall x, x ∈ l -> f x <= g x) -> zsum (f <$> l) <= zsum (g <$> l).
Proof. intros H. induction l as [|x l IH]; [done|]. change (f x + zsum (f <$> l) <= g x + zsum (g <$> l)). pose proof (H x ltac:(left)). specialize (IH ltac:(intros; apply H; by right)). lia. Qed.

Lemma zsum_scale {A} c (f : A -> Z) l : zsum ((fun x => c * f x) <$> l) = c * zsum (f <$> l).
Proof. induction l as [|x l IH]; [simpl; lia|]. change (c * f x + zsum ((fun x => c * f x) <$> l) = c * (f x + zsum (f <$> l))). lia. Qed.

Lemma column_nonempty {A} r (l : list A) k : 0 < r -> 0 <= k < columns_of r (zlen l) -> column r l k <> [].
Proof.
  intros Hr Hk. pose proof (columns_of_spec r (zlen l) Hr (zlen_nonneg l)). unfold column. intros E%(f_equal length). rewrite length_take, length_drop in E. simpl in E.
  unfold zlen in *. nia.
Qed.

Section fits.
Context (ws_col : Z) (lens : list Z) (m : mem).
Hypothesis Hws : 0 < ws_col < 65536.
Hypothesis Hn : 0 < zlen lens < 2 ^ 31.
Hypothesis Hfit : forall len, len ∈ lens -> 0 <= len /\ len + 3 <= ws_col.
#[local] Abbreviation n := (zlen lens).

Lemma room_fit r k : 0 < r -> 0 <= k < columns_of r n ->
  maxl ((fun len => min_col ws_col (u64 (len + 2))) <$> column r lens k) = maxl (column r lens k) + 2 /\ 0 <= maxl (column r lens k) <= ws_col - 3.
Proof.
  intros Hr Hk. pose proof (column_nonempty r lens k Hr Hk) as Hne.
  assert (Hin : forall x, x ∈ column r lens k -> 0 <= x /\ x + 3 <= ws_col) by (intros x Hx%column_elem; auto).
  split; [|split; [apply maxl_nonneg|]].
  - rewrite <- maxl_shift; [|done|intros x Hx; by apply Hin]. f_equal. apply list_fmap_ext. intros i x Hx%list_elem_of_lookup_2. apply Hin in Hx.
    rewrite min_col_eq by done. rewrite wrapu_small by lia. lia.
  - apply maxl_le; [|intros x Hx%Hin; lia]. destruct (column r lens k) as [|x l]; [done|]. pose proof (Hin x ltac:(left)). lia.
Qed.

Lemma width_fit r k : 0 < r -> 0 <= k < columns_of r n -> width ws_col lens r k = field lens r k.
Proof. intros Hr Hk. unfold width, field. destruct (room_fit r k Hr Hk) as [-> ?]. destruct (k =? _); [|lia]. rewrite wrapu_small; lia. Qed.

Lemma columns_pos r : 0 < r -> 0 < columns_of r n <= n.
Proof. intros Hr. pose proof (columns_of_spec r n Hr ltac:(lia)). nia. Qed.

Lemma table_width_fields r : 0 < r -> zsum (field lens r <$> seqZ 0 (columns_of r n)) = table_width lens r.
Proof.
  intros Hr. pose proof (columns_pos r Hr) as Hc. unfold table_width. set (N := columns_of r n) in *.
  replace (seqZ 0 N) with (seqZ 0 (N - 1) ++ [N - 1]) by (transitivity (seqZ 0 (N - 1 + 1)); [by rewrite seqZ_app by lia|f_equal; lia]).
  rewrite !fmap_app, !zsum_app. cbn [fmap list_fmap zsum foldr]. unfold field at 2. fold N. rewrite Z.eqb_refl.
  assert (E : zsum (field lens r <$> seqZ 0 (N - 1)) = zsum ((fun k => maxl (column r lens k)) <$> seqZ 0 (N - 1)) + 2 * (N - 1)); [|lia].
  assert (G : forall l, (forall k, k ∈ l -> k <> N - 1) -> zsum (field lens r <$> l) = zsum ((fun k => maxl (column r lens k)) <$> l) + 2 * zlen l).
  { induction l as [|k l IH]; intros H; [done|]. rewrite zlen_cons. cbn [fmap list_fmap zsum foldr]. change (foldr Z.add 0) with zsum. change (list_fmap Z Z) with (@fmap list _ Z Z).
    rewrite IH by (intros; apply H; by right). unfold field at 1. fold N. destruct (Z.eqb_spec k (N - 1)); [by destruct (H k ltac:(left))|lia]. }
  rewrite G by (intros k Hk%elem_of_seqZ; lia). rewrite zlen_seqZ; lia.
Qed.

Lemma widths_sum_fit r : 0 < r -> widths_sum ws_col lens r = table_width lens r.
Proof.
  intros Hr. pose proof (columns_pos r Hr) as Hc. rewrite <- table_width_fields by done. unfold widths_sum.
  assert (Hw : width ws_col lens r <$> seqZ 0 (columns_of r n) = field lens r <$> seqZ 0 (columns_of r n)).
  { apply list_fmap_ext. intros i k Hk%list_elem_of_lookup_2%elem_of_seqZ. apply width_fit; lia. }
  assert (Hb : forall k, 0 <= k < columns_of r n -> 0 <= field lens r k <= ws_col).
  { intros k Hk. destruct (room_fit r k Hr Hk) as [_ ?]. unfold field. destruct (k =? _); lia. }
  rewrite foldl_u64; [by rewrite Hw, Z.add_0_l|lia| |].
  - intros k Hk%elem_of_seqZ. rewrite width_fit by lia. apply Hb. lia.
  - rewrite Hw. pose proof (zsum_le (field lens r) (fun _ => ws_col * 1) (seqZ 0 (columns_of r n))) as Hle.
    rewrite (zsum_scale ws_col (fun _ => 1)) in Hle. assert (E : zsum ((fun _ => 1) <$> seqZ 0 (columns_of r n)) = columns_of r n).
    { assert (G : forall l : list Z, zsum ((fun _ => 1) <$> l) = zlen l) by (induction l as [|? l IH]; [done|]; rewrite zlen_cons, <- IH; done).
      rewrite G, zlen_seqZ; lia. }
    rewrite E in Hle. assert (ws_col * columns_of r n <= 65536 * 2 ^ 31) by nia.
    assert (zsum (field lens r <$> seqZ 0 (columns_of r n)) <= ws_col * columns_of r n); [|lia]. apply Hle. intros k Hk%elem_of_seqZ. pose proof (Hb k). lia.
Qed.

(** Fewer rows than the estimate cannot do. *)
Lemma estimate_sound q : 0 < q < first_rows ws_col lens -> ws_col <= table_width lens q.
Proof.
  intros [Hq Hlt]. pose proof (columns_pos q Hq) as Hc. unfold first_rows in Hlt.
  assert (Eid : min_col ws_col <$> lens = lens).
  { rewrite <- (list_fmap_id lens) at 2. apply list_fmap_ext. intros i x Hx%list_elem_of_lookup_2%Hfit. unfold id. rewrite min_col_eq by done. lia. }
  pose proof (min_sum_le ws_col Hws lens ltac:(intros; by apply Hfit)) as Hms. assert (n * (ws_col - 1) <= 2 ^ 31 * 65536) by nia.
  rewrite foldl_u64 in Hlt; [|lia|intros x Hx; rewrite min_col_eq by done; destruct (Hfit x Hx); lia|lia]. rewrite Z.add_0_l, Eid in Hlt.
  assert (Hs : zsum lens <= q * zsum ((fun k => maxl (column q lens k)) <$> seqZ 0 (columns_of q n))).
  { rewrite <- zsum_scale. rewrite <- (columns_all q lens Hq) at 1. rewrite zsum_concat, <- list_fmap_compose. apply zsum_le. intros k Hk. unfold compose.
    etrans; [apply zsum_le_maxl; intros x Hx%column_elem; by apply Hfit|]. pose proof (maxl_nonneg (column q lens k)).
    assert (zlen (column q lens k) <= q) by (unfold column; rewrite zlen_take; lia). nia. }
  assert (q * ws_col <= zsum lens) by (pose proof (Z.mul_div_le (zsum lens) ws_col); nia).
  unfold table_width. nia.
Qed.

(** The rows found are the fewest whose columns fit the width of the terminal. *)
Lemma rows_found : (alloc m).1 = true -> exists r colsz,
  psh_ls_computerows ws_col lens m = Some (Some (r, columns_of r n, colsz), (alloc m).2) /\ 0 < r <= n /\
  table_width lens r < ws_col /\ (forall q, 0 < q < r -> ws_col <= table_width lens q) /\
  (forall k, 0 <= k < columns_of r n -> rd_cell colsz k = Some (field lens r k)).
Proof.
  intros Ha. assert (Hlens : forall len, len ∈ lens -> 0 <= len) by (intros len Hl%Hfit; lia).
  pose proof (first_rows_le ws_col lens Hws ltac:(lia) Hlens) as Hf.
  destruct (computerows_ok ws_col lens m Hws ltac:(lia) Hlens Ha) as (r & cols & colsz & E & Hr & _ & _ & Hq & Hfin).
  assert (Hrn : r <= n).
  { destruct (Z.le_gt_cases r n) as [|Hgt]; [done|]. specialize (Hq n ltac:(lia)). rewrite widths_sum_fit in Hq by lia.
    pose proof (room_fit n 0 ltac:(lia)) as Hroom. unfold table_width in Hq. assert (E1 : columns_of n n = 1) by (unfold columns_of; rewrite Z.div_same, Z.mod_same by lia; done).
    rewrite E1 in *. simpl in Hq. change (Z.of_nat 0 + 0) with 0 in Hq. destruct Hroom; lia. }
  destruct (Hfin Hrn) as (Hsum & -> & Hcell). exists r, colsz. split; [done|]. split; [lia|]. rewrite widths_sum_fit in Hsum by lia. split; [done|]. split.
  - intros q Hq'. destruct (Z.lt_ge_cases q (first_rows ws_col lens)); [apply estimate_sound; lia|]. rewrite <- widths_sum_fit by lia. apply Hq. lia.
  - intros k Hk. rewrite Hcell by done. by rewrite width_fit by lia.
Qed.
End fits.

(** ** The table *)

(** What [psh_ls_printfile] prints of a file in a field. *)
Definition cell_text (c : fileinfo_t * Z) : bytes := default [] (psh_ls_printfile c.1 c.2).
Definition row_text (row : list (fileinfo_t * Z)) : bytes := concat (cell_text <$> row) ++ [10].

(** Row [j] of a table of [r] rows: its elements with the columns they are in. *)
Definition row_of {A} (r : Z) (l : list A) (j : Z) : list (A * Z) :=
  omap (fun k => (fun x => (x, k)) <$> l !! Z.to_nat (k * r + j)) (seqZ 0 (columns_of r (zlen l))).

Lemma transpose_perm {A} (cs : list (list A)) (r : nat) : Forall (fun c => (length c <= r)%nat) cs ->
  concat ((fun j => omap (fun c : list A => c !! j) cs) <$> seq 0 r) ≡ₚ concat cs.
Proof.
  assert (Hsplit : forall (a b : nat -> list A) (l : list nat), concat ((fun j => a j ++ b j) <$> l) ≡ₚ concat (a <$> l) ++ concat (b <$> l)).
  { intros a b l. induction l as [|j l IH]; [done|]. cbn [fmap list_fmap concat]. change (list_fmap nat (list A)) with (@fmap list _ nat (list A)). rewrite IH. solve_Permutation. }
  assert (Hcol : forall (c : list A) n k, (length c <= k + n)%nat -> concat ((fun j => option_list (c !! j)) <$> seq k n) = drop k c).
  { intros c n. induction n as [|n IH]; intros k Hk; cbn [seq fmap list_fmap concat]; [by rewrite drop_ge by lia|].
    change (list_fmap nat (list A)) with (@fmap list _ nat (list A)). rewrite IH by lia. destruct (c !! k) as [x|] eqn:E; [by rewrite (drop_S _ _ _ E)|].
    apply lookup_ge_None in E. by rewrite !drop_ge by lia. }
  induction 1 as [|c cs Hc Hcs IH]; [|].
  - rewrite (list_fmap_ext _ (fun _ => [])) by done. induction (seq 0 r) as [|j l IHl]; [done|exact IHl].
  - rewrite (list_fmap_ext _ (fun j => option_list (c !! j) ++ omap (fun c : list A => c !! j) cs)).
    + rewrite Hsplit, Hcol, IH by lia. by rewrite drop_0.
    + intros i j _. cbn [omap list_omap]. by destruct (c !! j).
Qed.

(** Every element is in exactly one row. *)
Lemma rows_perm {A} r (l : list A) : 0 < r -> concat ((fun j => (row_of r l j).*1) <$> seqZ 0 r) ≡ₚ l.
Proof.
  intros Hr. transitivity (concat (column r l <$> seqZ 0 (columns_of r (zlen l)))); [|by rewrite columns_all].
  rewrite <- (transpose_perm (column r l <$> seqZ 0 (columns_of r (zlen l))) (Z.to_nat r)).
  2:{ apply Forall_fmap, Forall_forall. intros k _. unfold compose, column. rewrite length_take. lia. }
  match goal with |- ?a ≡ₚ ?b => cut (a = b); [by intros ->|] end. f_equal. unfold seqZ at 1. rewrite <- list_fmap_compose. apply list_fmap_ext. intros i j [Hj Hi]%lookup_seq. simpl in Hj. subst i.
  unfold compose, row_of. generalize (seqZ_nonneg_list (columns_of r (zlen l))). generalize (seqZ 0 (columns_of r (zlen l))).
  induction l0 as [|k ks IH]; intros Hks; [done|]. apply Forall_cons in Hks as [Hk Hks]. cbn [omap list_omap fmap list_fmap].
  assert (E : column r l k !! j = l !! Z.to_nat (k * r + (Z.of_nat j + 0))).
  { unfold column. rewrite lookup_take_lt, lookup_drop by lia. f_equal. nia. }
  rewrite E. destruct (l !! Z.to_nat (k * r + (Z.of_nat j + 0))); cbn; [f_equal|]; by apply IH.
Qed.
