(* ===== verification/LsSafe.v ===== *)
(** * Listings do not go wrong ([psh/ls/ls.c])

    Every entry's buffer is as large as its size says, the entries in use have been
    filled, and the array has room for one more: with these, no access of a listing is
    outside its object, nothing is read that was not written, and the applet ends. *)

From S2P Require Import Prelude.
From S2P Require Import Complete.
From S2P Require Import PcHist.
From S2P Require Import PcHistSpec.
From S2P Require Import Chmod.
From S2P Require Import Ls.
From S2P Require Import LsSpec.

Section safe.
Context {U : Type} `{Files, Accounts U, Clock, QsortLaws}.
Context (ws_col : Z).
Hypothesis Hws : 0 < ws_col < 65536.
Hypothesis Htime : forall t, is_Some (localtime t).
(** The empty path names nothing, and names hold no NUL. *)
Hypothesis Hempty : fs_lstat [] = None.
Hypothesis Hnames : forall path names, fs_listdir path = Some names -> Forall (fun name => cstr name = name) names.

Definition entry_ok (f : fileinfo_t) : Prop := zlen (fi_name f) = fi_memlen f /\ 0 <= fi_namelen f.

Definition filled (mode : ls_mode) (f : fileinfo_t) : Prop :=
  is_Some (fi_info f) /\ 0 <= fi_namelen f /\ (mode = MODE_LONG -> is_Some (fi_pw f) /\ is_Some (fi_gr f)).

(** The state with [nfiles] entries in use. *)
Record ls_inv (o : ls_opts) (nfiles : Z) (s : ls_t U) : Prop := {
  li_entries : Forall entry_ok (ls_files s);
  li_room : 0 <= nfiles < zlen (ls_files s);
  li_filled : Forall (filled (o_mode o)) (take (Z.to_nat nfiles) (ls_files s)) }.

(** ** Printing *)

Lemma printfile_total mode f w : filled mode f -> is_Some (psh_ls_printfile f w).
Proof. intros ([i Hi] & _). unfold psh_ls_printfile. rewrite Hi. by eexists. Qed.

Lemma places_total fuel : forall n r, 0 <= n < 10 ^ Z.of_nat fuel -> (0 < fuel)%nat -> is_Some (places_loop fuel n r).
Proof.
  induction fuel as [|fuel IH]; intros n r Hn Hf; [lia|]. cbn [places_loop]. destruct (Z.eqb_spec (n / 10) 0) as [|Hne]; [by eexists|].
  rewrite Nat2Z.inj_succ, Z.pow_succ_r in Hn by lia. apply IH; [split; [apply Z.div_pos; lia|apply Z.div_lt_upper_bound; lia]|].
  destruct fuel; [|lia]. simpl in Hn. destruct Hne. apply Z.div_small. lia.
Qed.

Lemma numplaces_total n : is_Some (psh_ls_numplaces n).
Proof. apply places_total; [|lia]. pose proof (wrapu_range 32 n ltac:(lia)). change (10 ^ Z.of_nat 10) with 10000000000. lia. Qed.

Lemma owner_total name (u : U) p : is_Some p -> is_Some (owner_of name u p).
Proof. intros [q ->]. by eexists. Qed.

Lemma mapM_total {A B} (f : A -> option B) l : (forall x, x ∈ l -> is_Some (f x)) -> is_Some (mapM f l).
Proof. intros Hf. apply mapM_is_Some_2, Forall_forall. done. Qed.

Lemma printlong_total u files : Forall (filled MODE_LONG) files -> is_Some (psh_ls_printlong u files).
Proof.
  rewrite Forall_forall. intros Hf. unfold psh_ls_printlong.
  assert (Hsz : forall f z, f ∈ files -> is_Some (long_size u f z)).
  { intros f z Hin. destruct (Hf f Hin) as ([i Hi] & _ & Hl). destruct (Hl eq_refl) as [Hp Hg]. unfold long_size. rewrite Hi. cbn [mbind option_bind].
    destruct (numplaces_total (fi_nlink i)) as [? ->], (numplaces_total (fi_size i)) as [? ->], (owner_total pw_name u _ Hp) as [? ->], (owner_total gr_name u _ Hg) as [? ->],
      (Htime (fi_mtime i)) as [? ->]. by eexists. }
  assert (Hfold : forall l z, (forall f, f ∈ l -> f ∈ files) -> is_Some (foldl (fun z f => z ← z; long_size u f z) (Some z) l)).
  { induction l as [|f l IH]; intros z Hl; [by eexists|]. cbn [foldl mbind option_bind]. destruct (Hsz f z) as [z' ->]; [apply Hl; left|]. apply IH. intros g Hg. apply Hl. by right. }
  destruct (Hfold files (LongSizes 1 3 3 1 1)) as [z ->]; [done|]. cbn [mbind option_bind].
  destruct (mapM_total (long_line u z match localtime time_now with Some t => tm_year t | None => 0 end) files) as [lines ->]; [|by eexists].
  intros f Hin. destruct (Hf f Hin) as ([i Hi] & _ & Hl). destruct (Hl eq_refl) as [Hp Hg]. unfold long_line. rewrite Hi. cbn [mbind option_bind].
  destruct (Htime (fi_mtime i)) as [? ->], (owner_total pw_name u _ Hp) as [? ->], (owner_total gr_name u _ Hg) as [? ->], (printfile_total MODE_LONG f (s32 (fi_namelen f)) (Hf f Hin)) as [? ->].
  by eexists.
Qed.

Lemma printmultiline_total mode files m : 0 < zlen files -> Forall (filled mode) files -> is_Some (psh_ls_printmultiline ws_col files m).
Proof.
  intros Hn Hf. unfold psh_ls_printmultiline. pose proof (zlen_fmap fi_namelen files) as Hl.
  assert (Hn' : 0 < zlen (fi_namelen <$> files)) by lia. destruct (alloc m) as [ok m'] eqn:Em. destruct ok.
  - destruct (computerows_ok ws_col (fi_namelen <$> files) m Hws Hn') as (r & cols & colsz & E & Hr & Hc & Hcell & _); [|by rewrite Em|].
    { intros len (f & -> & Hin)%list_elem_of_fmap. by apply (proj1 (Forall_forall _ _) Hf f Hin). }
    rewrite E. cbn [mbind option_bind]. rewrite Em. cbn [snd].
    match goal with |- context [for_loop 0 ?cnt ?body []] => destruct (for_loop_inv (fun _ _ => True) body 0 cnt []) as (out & -> & _); [done| |by eexists] end.
    intros row out _ _. unfold print_columns.
    match goal with |- context [for_loop 0 ?cnt ?body out] => destruct (for_loop_inv (fun _ _ => True) body 0 cnt out) as (line & -> & _); [done| |by eexists] end.
    intros col o Hcol _. destruct (Z.leb_spec (zlen files) (u32 (col * r + row))); [by eexists|].
    destruct (proj2 (rd_is_Some files (u32 (col * r + row)))) as [f Ef]; [pose proof (wrapu_range 32 (col * r + row)); lia|]. rewrite Ef. cbn [mbind option_bind].
    destruct (Hcell col) as [w ->]; [lia|]. cbn [mbind option_bind].
    assert (Hff : filled mode f) by (apply (proj1 (Forall_forall _ _) Hf f); unfold rd in Ef; destruct (0 <=? _); [by eapply list_elem_of_lookup_2|done]).
    destruct (printfile_total mode f (s32 (Z.max (fi_namelen f) (Z.min w ws_col))) Hff) as [t ->]. by eexists.
  - unfold psh_ls_computerows. destruct (Z.eqb_spec ws_col 0); [lia|]. rewrite Em. by eexists.
Qed.

Lemma files_range o nfiles s : ls_inv o nfiles s -> rd_range (ls_files s) 0 nfiles = Some (take (Z.to_nat nfiles) (ls_files s)).
Proof. intros [_ Hr _]. rewrite rd_range_0 by lia. done. Qed.

Lemma printfiles_ok o nfiles s : 0 < nfiles -> ls_inv o nfiles s -> exists ret s', psh_ls_printfiles ws_col o nfiles s = Some (ret, s') /\ ls_files s' = ls_files s.
Proof.
  intros Hn Hi. unfold psh_ls_printfiles. rewrite (files_range o nfiles s Hi). cbn [mbind option_bind]. destruct Hi as [_ Hr Hf]. set (files := take _ _) in *.
  assert (Hl : 0 < zlen files) by (unfold files; rewrite zlen_take; lia). destruct (o_mode o) eqn:Em.
  - destruct (printmultiline_total MODE_NORMAL files (ls_mem s) Hl Hf) as [[[ret text] m] ->]. cbn [mbind option_bind]. destruct (ret <? 0); by eexists _, _.
  - match goal with |- context [mapM ?f files] => destruct (mapM_total f files) as [lines ->]; [|by eexists _, _] end.
    intros f Hin. destruct (printfile_total MODE_ONEPERLINE f (s32 (fi_namelen f)) (proj1 (Forall_forall _ _) Hf f Hin)) as [t ->]. by eexists.
  - destruct (printlong_total (ls_acc s) files Hf) as [t ->]. by eexists _, _.
Qed.

Lemma entries_sort_ok o nfiles s : ls_inv o nfiles s -> exists files, ls_sort o nfiles (ls_files s) = Some files /\ ls_inv o nfiles (set_ls_files files s).
Proof.
  intros Hi. unfold ls_sort. destruct (o_cmp o) as [c|]; [|exists (ls_files s); split; [done|by destruct s]].
  rewrite (files_range o nfiles s Hi). cbn [mbind option_bind]. destruct Hi as [He Hr Hf]. set (files := take _ _) in *.
  destruct (mapM_total fi_info files) as [infos ->]; [intros f Hin; apply (proj1 (Forall_forall _ _) Hf f Hin)|]. cbn [mbind option_bind].
  pose proof (qsort_perm (ls_compare (o_reverse o) c) files) as Hp.
  assert (Hl : zlen (qsort (ls_compare (o_reverse o) c) files) = nfiles) by (unfold zlen; rewrite Hp; unfold files; rewrite length_take; unfold zlen in *; lia).
  rewrite <- (take_drop (Z.to_nat nfiles) (ls_files s)). fold files.
  rewrite (wr_range_app [] files (drop (Z.to_nat nfiles) (ls_files s))) by (rewrite ?Hl; unfold files; zlia). eexists. split; [done|]. cbn [app]. split; cbn [ls_files set_ls_files].
  - apply Forall_app. rewrite Hp. apply Forall_app. unfold files. by rewrite take_drop.
  - zlia.
  - rewrite <- Hl at 1. rewrite take_zlen_app. by rewrite Hp.
Qed.

Lemma show_files_ok o nfiles s : 0 < nfiles -> ls_inv o nfiles s -> exists ret s', show_files ws_col o nfiles s = Some (ret, s') /\ ls_inv o nfiles s'.
Proof.
  intros Hn Hi. unfold show_files. destruct (entries_sort_ok o nfiles s Hi) as (files & -> & Hi'). cbn [mbind option_bind].
  destruct (printfiles_ok o nfiles _ Hn Hi') as (ret & s' & -> & E). exists ret, s'. split; [done|]. destruct Hi' as [? ? ?]. by split; rewrite E.
Qed.

(** ** Entries *)

Lemma copyname_ok file name m : entry_ok file -> exists ret file' m', psh_ls_copyname file name m = Some (ret, file', m') /\ entry_ok file' /\
  fi_info file' = fi_info file /\ fi_pw file' = fi_pw file /\ fi_gr file' = fi_gr file /\ (ret = 0 /\ fi_namelen file' = zlen (cstr name) \/ ret < 0).
Proof.
  unfold entry_ok. intros [He He']. unfold psh_ls_copyname. pose proof (zlen_nonneg (cstr name)) as Hl.
  assert (Hcopy : forall f : fileinfo_t, zlen (fi_name f) = fi_memlen f -> zlen (cstr name) < fi_memlen f -> exists text, wr_range (fi_name f) 0 (cstr name ++ [0]) = Some text /\ zlen text = fi_memlen f).
  { intros f Hf Hm. destruct (proj2 (wr_range_is_Some (fi_name f) 0 (cstr name ++ [0]))) as [text E]; [zlia|]. exists text. by rewrite (wr_range_zlen _ _ _ _ E). }
  destruct (Z.leb_spec (fi_memlen file) (zlen (cstr name))) as [Hle|Hgt].
  - destruct (alloc m) as [[|] m'].
    + destruct (Hcopy (Fileinfo (resize (Z.to_nat (zlen (cstr name) + 1)) 0 (fi_name file)) (fi_namelen file) (zlen (cstr name) + 1) (fi_info file) (fi_pw file) (fi_gr file)))
        as (text & E & Ht); [cbn [fi_name fi_memlen]; unfold zlen; rewrite length_resize; lia|cbn [fi_memlen]; lia|].
      cbn [fi_name] in *. rewrite E. cbn [mbind option_bind]. eexists _, _, _. split; [done|]. cbn [fi_name fi_memlen fi_namelen fi_info fi_pw fi_gr]. split_and!; try done. by left.
    + eexists _, _, _. split; [done|]. split_and!; try done. right. done.
  - destruct (Hcopy file He Hgt) as (text & E & Ht). rewrite E. cbn [mbind option_bind]. eexists _, _, _. split; [done|]. cbn [fi_name fi_memlen fi_namelen fi_info fi_pw fi_gr]. split_and!; try done. by left.
Qed.

Lemma wr_range_0 {A} (b c d : list A) : zlen b = zlen d -> wr_range (b ++ c) 0 d = Some (d ++ c).
Proof. intros E. by rewrite (wr_range_app [] b c). Qed.

(** The name of an entry of a directory: the path, a slash unless it ends in one, and
    the name, in an object that has room for them. *)
Lemma full_name_ok path name : path <> [] -> exists rest,
  full_name (zlen name) path name = Some (path ++ (if bool_decide (last path = Some 47) then [] else [47]) ++ name ++ 0 :: rest).
Proof.
  intros Hp. unfold full_name. pose proof (zlen_nonneg path) as Hpl. pose proof (zlen_nonneg name) as Hnl.
  set (room := Z.to_nat (zlen name + zlen path + 2)).
  replace (replicate room 0) with (replicate (length path) 0 ++ [0] ++ replicate (length name + 1) 0)
    by (replace room with (length path + S (length name + 1))%nat by (unfold room, zlen; lia); rewrite (replicate_add (length path)); reflexivity).
  rewrite (assoc_L (++) (replicate (length path) 0) [0]). rewrite (wr_range_0 (replicate (length path) 0 ++ [0])) by (unfold zlen; rewrite ?length_app, ?length_replicate; simpl; lia).
  cbn [mbind option_bind app]. destruct (exists_last Hp) as (p & c & ->).
  rewrite <- !(assoc_L (++)). cbn [app]. rewrite zlen_app. change (zlen [c]) with 1. replace (zlen p + 1 - 1) with (zlen p) by lia. rewrite rd_app by done. cbn [mbind option_bind].
  rewrite last_snoc. destruct (Z.eqb_spec c 47) as [->|Hne]; cbn [negb].
  - rewrite bool_decide_true by done. exists [0]. cbn [app].
    replace (p ++ 47 :: 0 :: replicate (length name + 1) 0) with ((p ++ [47]) ++ (0 :: replicate (length name) 0) ++ [0])
      by (rewrite <- !(assoc_L (++)); cbn [app]; by rewrite replicate_add).
    rewrite (wr_range_app (p ++ [47]) (0 :: replicate (length name) 0) [0] (zlen p + 1) (name ++ [0])) by (unfold zlen; rewrite ?length_app; simpl; rewrite ?length_app, ?length_replicate; simpl; lia).
    by rewrite <- !(assoc_L (++)).
  - rewrite bool_decide_false by congruence. exists []. cbn [app].
    replace (p ++ c :: 0 :: replicate (length name + 1) 0) with ((p ++ [c]) ++ 0 :: replicate (length name + 1) 0) by by rewrite <- (assoc_L (++)).
    rewrite wr_app by (unfold zlen; rewrite length_app; simpl; lia). cbn [mbind option_bind].
    replace ((p ++ [c]) ++ 47 :: replicate (length name + 1) 0) with ((p ++ [c; 47]) ++ replicate (length name + 1) 0 ++ []) by (rewrite app_nil_r, <- !(assoc_L (++)); done).
    rewrite (wr_range_app (p ++ [c; 47]) (replicate (length name + 1) 0) [] _ (name ++ [0])) by (unfold zlen; rewrite ?length_app, ?length_replicate; simpl; lia).
    by rewrite <- !(assoc_L (++)).
Qed.

Lemma statentry_ok mode file path u : entry_ok file -> let '(ret, file', _) := psh_ls_statentry mode file path false u in
  entry_ok file' /\ fi_namelen file' = fi_namelen file /\ (ret = -1 \/ ret = 0 /\ filled mode file' /\ path <> []).
Proof.
  intros He. pose proof (proj2 He) as Hn. unfold psh_ls_statentry. destruct (fs_lstat path) as [st|] eqn:E; [|by auto].
  assert (path <> []) by (intros ->; congruence). case_bool_decide as Hm.
  - destruct (getpwuid _ u) as [pw u1]. destruct (getgrgid _ u1) as [gr u2]. split; [done|]. split; [done|]. right. split; [done|]. split; [|done].
    split; [by eexists|]. split; [done|]. intros _. by split; eexists.
  - split; [done|]. split; [done|]. right. split; [done|]. split; [|done]. split; [by eexists|]. split; [done|]. by intros ->.
Qed.

Lemma readentry_ok mode file name path s : entry_ok file -> path <> [] -> cstr name = name -> exists ret file' s', psh_ls_readentry mode file name path s = Some (ret, file', s') /\
  ls_files s' = ls_files s /\ entry_ok file' /\ (ret < 0 \/ ret = 0 /\ filled mode file').
Proof.
  intros He Hp Hc. unfold psh_ls_readentry. destruct (copyname_ok file name (ls_mem s) He) as (ret & f & m & -> & Hf & _ & _ & _ & Hret). cbn [mbind option_bind].
  destruct (Z.ltb_spec ret 0); [by eexists _, _, _; auto|]. destruct Hret as [[-> Hl]|]; [|lia].
  destruct (alloc m) as [[|] m']; [|eexists _, _, _; split; [done|]; split; [done|]; split; [done|by left]]. rewrite Hl, Hc. destruct (full_name_ok path name Hp) as [rest ->]. cbn [mbind option_bind].
  set (full := cstr _). cbn [ls_acc set_ls_mem]. pose proof (statentry_ok mode f full (ls_acc s) Hf) as Hs.
  destruct (psh_ls_statentry mode f full false (ls_acc s)) as [[ret f'] u]. destruct Hs as (Hf' & _ & Hs).
  eexists _, _, _. split; [done|]. split; [by destruct (ret <? 0)|]. split; [done|]. destruct Hs as [-> | (-> & ? & _)]; [by left|by right].
Qed.

(** ** Loops *)

Lemma expandbuff_ok size (s : ls_t U) : zlen (ls_files s) <= size -> Forall entry_ok (ls_files s) -> exists ret s', psh_ls_expandbuff size s = (ret, s') /\
  Forall entry_ok (ls_files s') /\ (ret < 0 \/ ret = 0 /\ zlen (ls_files s') = size /\ exists l, ls_files s' = ls_files s ++ l).
Proof.
  intros Hs He. unfold psh_ls_expandbuff. destruct (alloc (ls_mem s)) as [[|] m]; eexists _, _; (split; [done|]); [|by split; [|left]].
  cbn [ls_files set_ls_files set_ls_mem]. pose proof (zlen_nonneg (ls_files s)). rewrite resize_ge by (unfold zlen in *; lia). split.
  - apply Forall_app. split; [done|]. by apply Forall_replicate.
  - right. split; [done|]. split; [|by eexists]. zlia. unfold zlen in *. lia.
Qed.

Lemma room_ok {A} o nfiles (a : A) (s : ls_t U) : Forall entry_ok (ls_files s) -> 0 <= nfiles <= zlen (ls_files s) -> 0 < zlen (ls_files s) ->
  Forall (filled (o_mode o)) (take (Z.to_nat nfiles) (ls_files s)) ->
  (exists s', ls_room nfiles a s = Next a s' /\ ls_inv o nfiles s') \/ exists s', ls_room nfiles a s = Lowmem s'.
Proof.
  intros He Hn Hp Hf. unfold ls_room. destruct (Z.eqb_spec nfiles (zlen (ls_files s))) as [->|Hne].
  - destruct (expandbuff_ok (zlen (ls_files s) * 2) s ltac:(lia) He) as (ret & s' & -> & He' & Hret). destruct (Z.ltb_spec ret 0); [right; by eexists|].
    left. exists s'. split; [done|]. destruct Hret as [|(_ & Hl & l & El)]; [lia|]. split; [done|lia|]. rewrite El. unfold zlen in *. rewrite Nat2Z.id in *.
    rewrite take_app_length. by rewrite take_ge in Hf by lia.
  - left. exists s. split; [done|]. split; [done|lia|done].
Qed.

Lemma wr_entry o nfiles s f : ls_inv o nfiles s -> entry_ok f -> exists files, wr (ls_files s) nfiles f = Some files /\ Forall entry_ok files /\
  zlen files = zlen (ls_files s) /\ Forall (filled (o_mode o)) (take (Z.to_nat nfiles) files) /\
  (filled (o_mode o) f -> Forall (filled (o_mode o)) (take (Z.to_nat (nfiles + 1)) files)).
Proof.
  intros [He Hr Hf] Hok. destruct (list_split_at (ls_files s) nfiles ltac:(lia)) as (a & c & E & Ha). destruct c as [|x c]; [exfalso; rewrite E in Hr; zlia|].
  rewrite E in *. rewrite wr_app by done. eexists. split; [done|]. apply Forall_app in He as [Hea Hec]. apply Forall_cons in Hec as [_ Hec].
  split; [by apply Forall_app; split; [|constructor]|]. split; [zlia|]. rewrite <- Ha in *. rewrite take_zlen_app in Hf |- *. split; [done|].
  intros Hff. replace (Z.to_nat (zlen a + 1)) with (length a + 1)%nat by (unfold zlen; lia). rewrite take_app_add. apply Forall_app. split; [done|]. simpl. by apply Forall_singleton.
Qed.

Lemma rd_entry o nfiles s : ls_inv o nfiles s -> exists f, rd (ls_files s) nfiles = Some f /\ entry_ok f.
Proof.
  intros [He Hr _]. destruct (proj2 (rd_is_Some (ls_files s) nfiles) Hr) as [f E]. exists f. split; [done|]. apply (proj1 (Forall_forall _ _) He f).
  unfold rd in E. destruct (0 <=? nfiles); [by eapply list_elem_of_lookup_2|done].
Qed.

Lemma read_entries_ok o path names : path <> [] -> Forall (fun name => cstr name = name) names -> forall nfiles ret s, ls_inv o nfiles s ->
  exists r, read_entries o path names nfiles ret s = Some r /\ match r with Next (nfiles', _) s' => ls_inv o nfiles' s' | _ => True end.
Proof.
  intros Hp. induction 1 as [|name names Hc Hn IH]; intros nfiles ret s Hi; [by eexists|]. cbn [read_entries].
  destruct (hidden o name); [by apply IH|]. destruct (rd_entry o nfiles s Hi) as (f & -> & Hf). cbn [mbind option_bind].
  destruct (readentry_ok (o_mode o) f name path s Hf Hp Hc) as (ret' & f' & s1 & -> & Es & Hf' & Hret). cbn [mbind option_bind].
  assert (Hi1 : ls_inv o nfiles s1) by (destruct Hi; by split; rewrite Es).
  destruct (wr_entry o nfiles s1 f' Hi1 Hf') as (files & -> & He & Hl & _ & Hfill). cbn [mbind option_bind].
  destruct (Z.ltb_spec ret' 0); [by eexists|]. destruct Hret as [|[-> Hff]]; [lia|]. destruct Hi1 as [_ Hr _].
  destruct (room_ok o (nfiles + 1) 0 (set_ls_files files s1)) as [(s2 & -> & Hi2)|(s2 & ->)]; [done|cbn; lia|cbn; lia|by apply Hfill|by apply IH|by eexists].
Qed.

Lemma list_dir_ok o many path names nfiles ret s : path <> [] -> fs_listdir path = Some names -> ls_inv o 0 s ->
  exists r, list_dir ws_col o many path names nfiles ret s = Some r /\ match r with Next (nfiles', _) s' => ls_inv o nfiles' s' | _ => True end.
Proof.
  intros Hp Hn Hi. unfold list_dir. set (s1 := if many then _ else _). assert (Hi1 : ls_inv o 0 s1) by (destruct Hi; subst s1; destruct many; by split).
  destruct (read_entries_ok o path names Hp (Hnames path names Hn) 0 ret s1 Hi1) as (r & -> & Hr). cbn [mbind option_bind].
  destruct r as [[nf rt] s2|rt s2|s2]; [|by eexists..]. destruct (Z.ltb_spec 0 nf) as [Hnf|]; [|by eexists].
  destruct (show_files_ok o nf s2 Hnf Hr) as (rt' & s3 & -> & Hi3). cbn [mbind option_bind]. by eexists.
Qed.

(** ** The given paths *)

Lemma stat_path_ok o path nfiles s : ls_inv o nfiles s -> exists r, stat_path o path nfiles s = Some r /\
  match r with Next (nfiles', isdir, _) s' => ls_inv o nfiles' s' /\ (isdir = true -> path <> []) | _ => True end.
Proof.
  intros Hi. unfold stat_path. destruct (rd_entry o nfiles s Hi) as (f & -> & Hf). cbn [mbind option_bind].
  pose proof (statentry_ok (o_mode o) f path (ls_acc s) Hf) as Hs. destruct (psh_ls_statentry (o_mode o) f path false (ls_acc s)) as [[ret f1] u]. destruct Hs as (Hf1 & _ & Hs).
  destruct (wr_entry o nfiles s f1 Hi Hf1) as (files & -> & He & Hl & Hfill & _). cbn [mbind option_bind]. set (s1 := set_ls_files files (set_ls_acc u s)).
  assert (Hi1 : ls_inv o nfiles s1) by (split; [done|cbn; rewrite Hl; apply Hi|done]). destruct Hs as [-> | (-> & Hff & Hp)].
  { eexists. split; [done|]. split; [|done]. destruct Hi1. by split. }
  change (0 <? 0) with false. cbn iota. destruct (exists_last Hp) as (p & c & ->). rewrite zlen_app. change (zlen [c]) with 1. replace (zlen p + 1 - 1) with (zlen p) by lia.
  rewrite rd_app by done. cbn [mbind option_bind]. destruct (proj1 Hff) as [i Hinfo]. rewrite Hinfo. cbn [mbind option_bind]. destruct ((c =? 47) && negb (S_ISDIR (fi_mode i))).
  { eexists. split; [done|]. split; [|done]. destruct Hi1. by split. }
  assert (Hr := li_room _ _ _ Hi1). destruct (negb (S_ISDIR (fi_mode i)) || o_dir o).
  - destruct (copyname_ok f1 (p ++ [c]) (ls_mem s1) Hf1) as (ret & f2 & m & -> & Hf2 & E1 & E2 & E3 & Hret). cbn [mbind option_bind].
    destruct (wr_entry o nfiles s1 f2 Hi1 Hf2) as (files2 & -> & He2 & Hl2 & _ & Hfill2). cbn [mbind option_bind]. destruct (Z.ltb_spec ret 0); [by eexists|]. destruct Hret as [[-> Hlen]|]; [|lia].
    destruct (room_ok o (nfiles + 1) (nfiles + 1, false, 0) (set_ls_files files2 (set_ls_mem m s1))) as [(s2 & -> & Hi2)|(s2 & ->)]; [done|cbn; lia|cbn; lia| |eexists; split; [reflexivity|by split]|by eexists].
    apply Hfill2. destruct Hff as (? & ? & ?). split; [by rewrite E1|]. split; [rewrite Hlen; apply zlen_nonneg|by rewrite E2, E3].
  - destruct Hi1 as [He1 _ Hfl]. destruct (room_ok o nfiles (nfiles, true, 0) s1) as [(s2 & -> & Hi2)|(s2 & ->)]; [done|lia|lia|done|eexists; split; [reflexivity|by split]|by eexists].
Qed.

Lemma stat_paths_ok o paths : forall nfiles ret odir s done_, ls_inv o nfiles s -> Forall2 (fun path (d : bool) => d = true -> path <> []) done_ odir -> exists r, stat_paths o paths nfiles ret odir s = Some r /\
  match r with Next (nfiles', odir', _) s' => ls_inv o nfiles' s' /\ Forall2 (fun path (d : bool) => d = true -> path <> []) (done_ ++ paths) odir' | _ => True end.
Proof.
  induction paths as [|path paths IH]; intros nfiles ret odir s dn Hi Hd; [eexists; split; [done|]; by rewrite app_nil_r|]. cbn [stat_paths].
  destruct (stat_path_ok o path nfiles s Hi) as (r & -> & Hr). cbn [mbind option_bind]. destruct r as [[[nf d] rt] s1|rt s1|s1]; [|by eexists..].
  destruct Hr as [Hi1 Hp]. destruct (IH nf rt (odir ++ [d]) s1 (dn ++ [path]) Hi1) as (r & -> & Hr); [by apply Forall2_app; [|constructor]|].
  exists r. split; [done|]. by rewrite <- (assoc_L (++)) in Hr.
Qed.

(** ** The directories *)

(** The directories that the loop comes to: what follows a path that is none is left out. *)
Fixpoint listed (paths : list bytes) (odir : list bool) : list bytes :=
  match paths, odir with
  | path :: paths, true :: odir => path :: listed paths odir
  | _ :: _ :: paths, false :: _ :: odir => listed paths odir
  | _, _ => []
  end.

(** One directory after the other. *)
Fixpoint list_dirs (o : ls_opts) (many : bool) (dirs : list bytes) (nfiles ret : Z) (s : ls_t U) : option (ls_flow Z) :=
  match dirs with
  | [] => Some (Next ret s)
  | path :: dirs =>
      match fs_listdir path with
      | None => Some (Next ret (put_err (MSG_DIR path) s))
      | Some names =>
          r ← list_dir ws_col o many path names nfiles ret s;
          match r with
          | Next (nfiles, ret) s => list_dirs o many dirs nfiles ret s
          | Return ret s => Some (Return ret s)
          | Lowmem s => Some (Lowmem s)
          end
      end
  end.

Lemma listed_true p paths odir : listed (p :: paths) (true :: odir) = p :: listed paths odir.
Proof. by destruct paths. Qed.

Lemma listed_cons p q paths d e odir : listed (p :: q :: paths) (d :: e :: odir) = if d then p :: listed (q :: paths) (e :: odir) else listed paths odir.
Proof. by destruct d. Qed.

Lemma dir_loop_listed fuel : forall o paths odir i nfiles ret s, length odir = length paths -> 0 <= i < zlen paths -> zlen paths - i < Z.of_nat fuel ->
  dir_loop ws_col fuel o paths odir i nfiles ret s =
  list_dirs o (1 <? zlen paths) (listed (drop (Z.to_nat i) paths) (drop (Z.to_nat i) odir)) nfiles ret s.
Proof.
  induction fuel as [|fuel IH]; intros o paths odir i nfiles ret s Hl Hi Hf; [lia|]. cbn [dir_loop].
  match goal with |- context [match paths with [] => ?a | _ :: _ => ?b end] =>
    replace (match paths with [] => a | _ :: _ => b end) with b by (destruct paths; [change (zlen []) with 0 in Hi; lia|done]) end.
  destruct (lookup_lt_is_Some_2 paths (Z.to_nat i)) as [p Ep]; [unfold zlen in *; lia|].
  destruct (lookup_lt_is_Some_2 odir (Z.to_nat i)) as [d Ed]; [unfold zlen in *; lia|].
  assert (Erd : rd odir i = Some d) by (unfold rd; destruct (Z.leb_spec 0 i); [done|lia]). assert (Erp : rd paths i = Some p) by (unfold rd; destruct (Z.leb_spec 0 i); [done|lia]).
  rewrite Erd. cbn [mbind option_bind]. rewrite (drop_S _ _ _ Ep), (drop_S _ _ _ Ed).
  assert (Hagain : forall k nf rt st, i <= k -> (if k + 1 <? zlen paths then dir_loop ws_col fuel o paths odir (k + 1) nf rt st else Some (Next rt st)) =
    list_dirs o (1 <? zlen paths) (listed (drop (Z.to_nat (k + 1)) paths) (drop (Z.to_nat (k + 1)) odir)) nf rt st).
  { intros k nf rt st Hk. destruct (Z.ltb_spec (k + 1) (zlen paths)); [apply IH; [done|lia|lia]|]. rewrite (drop_ge paths) by (unfold zlen in *; lia). by rewrite (drop_ge odir) by (unfold zlen in *; lia). }
  destruct d.
  - rewrite Erp, listed_true. cbn [mbind option_bind list_dirs]. destruct (fs_listdir p) as [names|]; [|done].
    destruct (list_dir ws_col o (1 <? zlen paths) p names nfiles ret s) as [[[nf rt] s1|rt s1|s1]|]; cbn [mbind option_bind]; [|done..].
    rewrite Hagain by lia. by replace (Z.to_nat (i + 1)) with (S (Z.to_nat i)) by lia.
  - rewrite Hagain by lia. replace (Z.to_nat (i + 1 + 1)) with (S (S (Z.to_nat i))) by lia. f_equal.
    destruct (decide (S (Z.to_nat i) < length paths)%nat) as [Hlt|Hge].
    + destruct (lookup_lt_is_Some_2 paths _ Hlt) as [q Eq]. destruct (lookup_lt_is_Some_2 odir (S (Z.to_nat i))) as [e Ee]; [lia|].
      by rewrite (drop_S paths _ _ Eq), (drop_S odir _ _ Ee), listed_cons.
    + by rewrite !(drop_ge paths), !(drop_ge odir) by lia.
Qed.

Lemma list_dirs_ok o many dirs : Forall (fun p => p <> []) dirs -> forall nfiles ret s, ls_inv o nfiles s -> is_Some (list_dirs o many dirs nfiles ret s).
Proof.
  induction 1 as [|p dirs Hp Hd IH]; intros nfiles ret s Hi; [by eexists|]. cbn [list_dirs]. destruct (fs_listdir p) as [names|] eqn:En; [|by eexists].
  assert (Hi0 : ls_inv o 0 s) by (destruct Hi; split; [done|lia|by rewrite take_0]).
  destruct (list_dir_ok o many p names nfiles ret s Hp En Hi0) as (r & -> & Hr). cbn [mbind option_bind]. destruct r as [[nf rt] s1|rt s1|s1]; [by apply IH|by eexists..].
Qed.

Lemma listed_nonempty paths odir : Forall2 (fun path (d : bool) => d = true -> path <> []) paths odir -> Forall (fun p => p <> []) (listed paths odir).
Proof.
  remember (length paths) as k eqn:Hk. revert paths odir Hk. induction (lt_wf k) as [k _ IH]. intros paths odir -> Hf.
  destruct Hf as [|p d paths odir Hpd Hf]; [constructor|]. destruct d.
  - rewrite listed_true. constructor; [by apply Hpd|]. by eapply (IH (length paths)); [cbn; lia|..].
  - destruct Hf as [|q e paths odir Hqe Hf]; [constructor|]. rewrite listed_cons. by eapply (IH (length paths)); [cbn; lia|..].
Qed.

(** ** Without the array, and the whole *)

Lemma lowmem_entries_ok o path names : path <> [] -> Forall (fun name => cstr name = name) names -> forall file colsz s, entry_ok file ->
  is_Some (lowmem_entries ws_col o path names file colsz s).
Proof.
  intros Hp. induction 1 as [|name names Hc Hn IH]; intros file colsz s Hf; [by eexists|]. cbn [lowmem_entries]. destruct (hidden o name); [by apply IH|].
  destruct (readentry_ok (o_mode o) file name path s Hf Hp Hc) as (ret & f & s1 & -> & _ & Hf1 & Hret). cbn [mbind option_bind].
  destruct (Z.ltb_spec ret 0); [by eexists|]. destruct Hret as [|[_ Hff]]; [lia|]. destruct (ws_col <? _); destruct (printfile_total _ f (s32 (fi_namelen f)) Hff) as [t ->]; by apply IH.
Qed.

Lemma lowmem_paths_ok o many paths : forall colsz s, is_Some (lowmem_paths ws_col o many paths colsz s).
Proof.
  induction paths as [|path paths IH]; intros colsz s; [by eexists|]. cbn [lowmem_paths].
  assert (Hz : entry_ok fi_zero) by by split. pose proof (statentry_ok (o_mode o) fi_zero path (ls_acc s) Hz) as Hs.
  destruct (psh_ls_statentry (o_mode o) fi_zero path false (ls_acc s)) as [[ret f] u]. destruct Hs as (Hf & _ & [-> | (-> & ([i Hi] & _) & Hp)]); [by eexists|].
  change (0 <? 0) with false. cbn iota. rewrite Hi. cbn [mbind option_bind]. destruct (negb _); [apply IH|]. destruct (fs_listdir path) as [names|] eqn:En; [|by eexists].
  match goal with |- context [lowmem_entries _ _ _ _ _ _ ?st] => destruct (lowmem_entries_ok o path names Hp (Hnames _ _ En) f colsz st Hf) as [[[ret' colsz'] s2] ->] end.
  cbn [mbind option_bind]. destruct (ret' <? 0); [by eexists|apply IH].
Qed.

Lemma ls_main_ok o paths s : ls_files s = [] -> is_Some (ls_main ws_col o paths s).
Proof.
  intros Hs. unfold ls_main. match goal with |- context [let '(ok, s) := ?x in _] => destruct x as [ok s0] eqn:E end.
  assert (Hs0 : ls_files s0 = []) by (destruct paths; [|destruct (alloc (ls_mem s)) as [? ?]]; injection E as <- <-; done). destruct (negb ok); [by eexists|].
  destruct (expandbuff_ok 32 s0) as (ret & s1 & -> & He & Hret); [by rewrite Hs0|by rewrite Hs0|]. destruct (Z.ltb_spec ret 0); [by eexists|]. destruct Hret as [|(_ & Hl & _)]; [lia|].
  destruct (stat_paths_ok o paths 0 ret [] s1 []) as (r & -> & Hr); [split; [done|lia|by rewrite take_0]|constructor|]. cbn [mbind option_bind].
  destruct r as [[[nf odir] rt] s2|rt s2|s2]; [|by eexists..]. destruct Hr as [Hi Hodir]. cbn [app] in Hodir.
  assert (Hshow : exists rt' s3, (if 0 <? nf then show_files ws_col o nf s2 else Some (rt, s2)) = Some (rt', s3) /\ ls_inv o nf s3).
  { destruct (Z.ltb_spec 0 nf) as [Hnf|]; [by apply show_files_ok|by eexists _, _]. }
  destruct Hshow as (rt' & s3 & -> & Hi3). cbn [mbind option_bind]. destruct (_ && _); [by eexists|]. destruct paths as [|p ps].
  - cbn [dir_loop length mbind option_bind]. destruct (fs_listdir (bstr ".")) as [names|] eqn:En; [|by eexists].
    assert (Hi0 : ls_inv o 0 s3) by (destruct Hi3; split; [done|lia|by rewrite take_0]).
    destruct (list_dir_ok o false (bstr ".") names nf rt' s3 ltac:(done) En Hi0) as (r & Er & _). change (1 <? zlen []) with false. rewrite Er. cbn [mbind option_bind]. by destruct r as [[? ?] ?| |]; eexists.
  - rewrite dir_loop_listed; [|symmetry; by eapply Forall2_length|zlia|unfold zlen; lia]. apply (list_dirs_ok o _ _ (listed_nonempty _ _ Hodir) nf rt' s3 Hi3).
Qed.
End safe.

(** C17: no listing goes wrong: for every width the terminal reports except zero, all
    options and paths, whatever the files, the accounts and the results of the
    allocations are, [ls] ends, no access is outside its object, and no field is read
    that was not written. *)
Theorem ls_safe {U} `{Files, Accounts U, Clock, QsortLaws} ws opts paths (m : mem) (u : U) :
  0 < default 80 ws < 65536 -> (forall t, is_Some (localtime t)) -> fs_lstat [] = None ->
  (forall path names, fs_listdir path = Some names -> Forall (fun name => cstr name = name) names) ->
  exists ret s, psh_ls ws opts paths m u = Some (ret, s).
Proof.
  intros Hws Ht He Hn. unfold psh_ls. destruct (parse_opts opts ls_opts_default) as [o|]; [|by eexists _, _].
  match goal with |- context [ls_main _ o ?ps _] => destruct (ls_main_ok (default 80 ws) Hws Ht He Hn o ps (LsSt [] m u [] []) eq_refl) as [r ->] end.
  cbn [mbind option_bind]. destruct r as [rt s|rt s|s]; [by eexists _, _..|]. unfold psh_ls_lowmem.
  match goal with |- context [lowmem_paths ?w o ?b ?ps ?c ?st] => destruct (lowmem_paths_ok w He Hn o b ps c st) as [[rt s'] ->] end. by eexists _, _.
Qed.
