(* ===== verification/LsClaims.v ===== *)
(** * What a listing shows ([psh/ls/ls.c])

    The table of names, the letters of a mode, the order, the directories that are
    listed, and that no listing goes wrong whatever the files are and whichever
    allocations fail. *)

From stdpp Require Import sorting.
From S2P Require Import Prelude.
From S2P Require Import Complete.
From S2P Require Import PcHist.
From S2P Require Import PcHistSpec.
From S2P Require Import Chmod.
From S2P Require Import Ls.
From S2P Require Import LsSpec.
From S2P Require Import LsSafe.

Lemma fmap_concat_list {A B} (f : A -> B) (ls : list (list A)) : f <$> concat ls = concat ((fun l : list A => f <$> l) <$> ls).
Proof. induction ls as [|l ls IH]; [done|]. cbn [concat fmap list_fmap]. change (list_fmap A B f) with (@fmap list _ A B f). by rewrite fmap_app, IH. Qed.

(** ** The table of names *)

Section table.
Context (ws_col : Z) (files : list fileinfo_t).
#[local] Abbreviation lens := (fi_namelen <$> files).
#[local] Abbreviation n := (zlen files).

(** Row [j] of [r] with the fields of its names. *)
Definition fields_of (r j : Z) : list (fileinfo_t * Z) := (fun c => (c.1, field lens r c.2)) <$> row_of r files j.

Lemma row_elem r j f k : 0 <= j < r -> (f, k) ∈ row_of r files j -> 0 <= k < columns_of r n /\ fi_namelen f ∈ column r lens k /\ f ∈ files.
Proof.
  intros Hj (k' & Hk & E)%list_elem_of_omap. apply elem_of_seqZ in Hk. destruct (files !! Z.to_nat (k' * r + j)) eqn:Ef; [|done].
  injection E as -> ->. split; [lia|]. split; [|by eapply list_elem_of_lookup_2].
  unfold column. apply list_elem_of_lookup. exists (Z.to_nat j). rewrite lookup_take_lt, lookup_drop by lia.
  rewrite list_lookup_fmap. replace (Z.to_nat (k * r) + Z.to_nat j)%nat with (Z.to_nat (k * r + j)) by nia. by rewrite Ef.
Qed.

Lemma fields_cover r j : 0 <= j < r -> Forall (fun c => fi_namelen c.1 <= c.2) (fields_of r j).
Proof.
  intros Hj. apply Forall_fmap, Forall_forall. intros [f k] Hfk. destruct (row_elem r j f k Hj Hfk) as (_ & Hin & _).
  unfold compose, field. simpl. pose proof (maxl_in _ _ Hin). destruct (k =? _); lia.
Qed.

Lemma fields_width r j : 0 < r -> 0 < n -> 0 <= j < r -> (forall k, 0 <= k < columns_of r n -> 0 <= field lens r k) -> zsum (fields_of r j).*2 <= zsum (field lens r <$> seqZ 0 (columns_of r n)).
Proof.
  intros Hr Hn Hj Hf. unfold fields_of, row_of. rewrite <- list_fmap_compose. assert (H0 : forall k, k ∈ seqZ 0 (columns_of r n) -> 0 <= field lens r k) by (intros k Hk%elem_of_seqZ; apply Hf; lia).
  revert H0. generalize (seqZ 0 (columns_of r n)). induction l as [|k ks IH]; intros H0; [done|]. specialize (IH ltac:(intros; apply H0; by right)). pose proof (H0 k ltac:(left)).
  cbn [omap list_omap]. change (zsum (field lens r <$> k :: ks)) with (field lens r k + zsum (field lens r <$> ks)).
  destruct (files !! Z.to_nat (k * r + j)) as [f|]; cbn [fmap option_fmap option_map].
  - match goal with |- zsum (list_fmap _ _ ?g (?x :: ?l)) <= _ => change (zsum (list_fmap _ _ g (x :: l))) with (field lens r k + zsum (g <$> l)) end. lia.
  - lia.
Qed.

Section row.
Context (r : Z) (colsz : cells).
Hypothesis Hws : 0 < ws_col < 65536.
Hypothesis Hn : 0 < n < 2 ^ 31.
Hypothesis Hr : 0 < r <= n.
Hypothesis Hcells : forall k, 0 <= k < columns_of r n -> rd_cell colsz k = Some (field lens r k).
Hypothesis Hfield : forall k, 0 <= k < columns_of r n -> 0 <= field lens r k < ws_col.
Hypothesis Hinfo : forall f, f ∈ files -> 0 <= fi_namelen f /\ is_Some (fi_info f).

Lemma printfile_text f w : is_Some (fi_info f) -> psh_ls_printfile f w = Some (cell_text (f, w)).
Proof. intros [i Hi]. unfold cell_text, psh_ls_printfile. simpl. by rewrite Hi. Qed.

Lemma print_columns_ok j out : 0 <= j < r -> print_columns ws_col r (columns_of r n) colsz files j out = Some (out ++ row_text (fields_of r j)).
Proof.
  intros Hj. pose proof (columns_of_spec r n) as Hc. unfold print_columns.
  match goal with |- context [for_loop 0 ?cnt ?body out] =>
    destruct (for_loop_inv (fun i o => o = out ++ concat (cell_text <$>
      ((fun c => (c.1, field lens r c.2)) <$> omap (fun k => (fun x => (x, k)) <$> files !! Z.to_nat (k * r + j)) (seqZ 0 i)))) body 0 cnt out) as (o & E & Ho) end.
  - by rewrite app_nil_r.
  - intros k o Hk ->. assert (Hidx : u32 (k * r + j) = k * r + j) by (apply u32_small; nia). rewrite Hidx.
    replace (seqZ 0 (k + 1)) with (seqZ 0 k ++ [k]) by (by rewrite seqZ_app by lia). rewrite omap_app, !fmap_app, concat_app.
    destruct (Z.leb_spec n (k * r + j)) as [Hge|Hlt].
    + eexists. split; [done|]. assert (E : files !! Z.to_nat (k * r + j) = None) by (apply lookup_ge_None; unfold zlen in *; lia).
      cbn [omap list_omap]. rewrite E. simpl. by rewrite app_nil_r.
    + destruct (proj2 (rd_is_Some files (k * r + j))) as [f Ef]; [nia|]. rewrite Ef. cbn [mbind option_bind]. rewrite Hcells by lia. cbn [mbind option_bind].
      unfold rd in Ef. destruct (Z.leb_spec 0 (k * r + j)); [|nia].
      assert (Hin : (f, k) ∈ row_of r files j) by (apply list_elem_of_omap; exists k; split; [apply elem_of_seqZ; lia|by rewrite Ef]).
      destruct (row_elem r j f k Hj Hin) as (_ & Hcol & Hff). destruct (Hinfo f Hff) as [Hl Hi].
      assert (Hmax : fi_namelen f <= field lens r k) by (unfold field; pose proof (maxl_in _ _ Hcol); destruct (k =? _); lia). pose proof (Hfield k ltac:(lia)).
      assert (Ew : s32 (Z.max (fi_namelen f) (Z.min (field lens r k) ws_col)) = field lens r k).
      { rewrite Z.min_l by lia. rewrite Z.max_r by lia. apply wraps_small; [lia|]. split; [lia|]. change (2 ^ (32 - 1)) with 2147483648. lia. }
      rewrite Ew, (printfile_text f _ Hi). cbn [mbind option_bind]. eexists. split; [done|].
      cbn [omap list_omap]. rewrite Ef. cbn [fmap option_fmap option_map list_fmap concat]. by rewrite app_nil_r, (assoc_L (++)).
  - rewrite E. cbn [mbind option_bind]. rewrite Ho. unfold row_text, fields_of, row_of. rewrite Z.add_0_l, Z2Nat.id by nia. by rewrite (assoc_L (++)).
Qed.
End row.
End table.

(** C18: the names are shown in columns.  On a terminal narrower than 65536, when each name
    leaves room for three more characters (a longer one makes a row of its own that may be
    wider than the terminal) and there is memory for the widths: every file appears
    exactly once, in a field at least as wide as its name; the fields of a row are
    narrower than the terminal; and the table has the fewest rows for which its columns
    fit. *)
Theorem multiline_layout (ws_col : Z) (files : list fileinfo_t) (m : mem) :
  0 < ws_col < 65536 -> 0 < zlen files < 2 ^ 31 -> (alloc m).1 = true ->
  (forall f, f ∈ files -> 0 <= fi_namelen f /\ fi_namelen f + 3 <= ws_col /\ is_Some (fi_info f)) ->
  exists r, let rows := fields_of files r <$> seqZ 0 r in
    psh_ls_printmultiline ws_col files m = Some (0, concat (row_text <$> rows), (alloc m).2) /\
    (concat rows).*1 ≡ₚ files /\
    Forall (fun row => zsum row.*2 < ws_col) rows /\ Forall (Forall (fun c => fi_namelen c.1 <= c.2)) rows /\
    0 < r /\ forall q, 0 < q < r -> ws_col <= table_width (fi_namelen <$> files) q.
Proof.
  intros Hws Hn Ha Hf. assert (Hlens : forall len, len ∈ fi_namelen <$> files -> 0 <= len /\ len + 3 <= ws_col).
  { intros len (f & -> & Hin)%list_elem_of_fmap. destruct (Hf f Hin) as (? & ? & _). by split. }
  pose proof (zlen_fmap fi_namelen files) as Hl.
  destruct (rows_found ws_col (fi_namelen <$> files) m Hws ltac:(by rewrite Hl) Hlens Ha) as (r & colsz & E & Hr & Hw & Hmin & Hcells).
  rewrite Hl in *.
  assert (Hfield : forall k, 0 <= k < columns_of r (zlen files) -> 0 <= field (fi_namelen <$> files) r k < ws_col).
  { intros k Hk. destruct (room_fit ws_col (fi_namelen <$> files) Hws Hlens r k) as [_ ?]; [lia|by rewrite Hl|]. unfold field. destruct (k =? _); lia. }
  exists r. split_and!; [|..|lia|done].
  - unfold psh_ls_printmultiline. rewrite E. cbn [mbind option_bind]. match goal with |- context [for_loop 0 ?cnt ?body []] =>
      destruct (for_loop_inv (fun i o => o = concat (row_text <$> (fields_of files r <$> seqZ 0 i))) body 0 cnt []) as (o & Eo & Ho) end; [done| |].
    + intros j o Hj ->. eexists. split; [apply print_columns_ok; try done; [|lia]; intros f Hin; destruct (Hf f Hin) as (? & _ & ?); by split|].
      replace (seqZ 0 (j + 1)) with (seqZ 0 j ++ [j]) by (by rewrite seqZ_app by lia). rewrite !fmap_app, concat_app. cbn [fmap list_fmap concat]. by rewrite app_nil_r.
    + rewrite Eo. cbn [mbind option_bind]. rewrite Ho, Z.add_0_l, Z2Nat.id by lia. done.
  - transitivity (concat ((fun j => (row_of r files j).*1) <$> seqZ 0 r)); [|apply rows_perm; lia].
    match goal with |- ?a ≡ₚ ?b => cut (a = b); [by intros ->|] end.
    rewrite fmap_concat_list, <- list_fmap_compose. f_equal. apply list_fmap_ext. intros i j _. unfold compose, fields_of. by rewrite <- list_fmap_compose.
  - apply Forall_fmap, Forall_forall. intros j Hj%elem_of_seqZ. unfold compose. eapply Z.le_lt_trans; [apply fields_width; [lia|lia|lia|intros k Hk; by apply Hfield]|].
    rewrite <- Hl, (table_width_fields (fi_namelen <$> files)) by (rewrite ?Hl; lia). done.
  - apply Forall_fmap, Forall_forall. intros j Hj%elem_of_seqZ. unfold compose. apply fields_cover. lia.
Qed.

(** ** The letters of a mode *)

(** The bits that the nine letters say. *)
Definition letters_mode (t : bytes) : Z := foldl (fun v c => 2 * v + if c =? 45 then 0 else 1) 0 (drop 1 t).

Lemma perms_low mode : drop 1 (ls_perms mode) = drop 1 (ls_perms (Z.land mode 511)).
Proof.
  unfold ls_perms. cbn [drop]. apply list_fmap_ext. intros i [bit c] Hi.
  assert (E : Z.land (Z.land mode 511) bit = Z.land mode bit); [|by rewrite E].
  rewrite <- Z.land_assoc. f_equal. repeat (destruct i as [|i]; [by injection Hi as <- <-|]). done.
Qed.

(** The letters of a long listing say the mode: reading them back gives the nine
    permission bits, and the first letter tells directories, devices, links, pipes and
    sockets apart. *)
Theorem perms_roundtrip mode : letters_mode (ls_perms mode) = Z.land mode 511 /\
  head (ls_perms mode) = Some (if S_ISDIR mode then 100 else if S_ISCHR mode then 99 else if S_ISBLK mode then 98
    else if S_ISLNK mode then 108 else if S_ISFIFO mode then 112 else if S_ISSOCK mode then 115 else 45) /\
  length (ls_perms mode) = 10%nat.
Proof.
  split; [|by split]. unfold letters_mode. rewrite perms_low. assert (Hb : 0 <= Z.land mode 511 < 512) by (change 511 with (Z.ones 9); rewrite Z.land_ones by lia; apply Z.mod_pos_bound; lia).
  revert Hb. generalize (Z.land mode 511). intros x Hb.
  assert (Hall : forallb (fun x => foldl (fun v c => 2 * v + if c =? 45 then 0 else 1) 0 (drop 1 (ls_perms x)) =? x) (seqZ 0 512) = true) by (vm_compute; reflexivity).
  rewrite forallb_forall in Hall. apply Z.eqb_eq, Hall, list_elem_of_In, elem_of_seqZ. lia.
Qed.

(** ** The order *)

(** [x] may come before [y]. *)
Definition before (c : ls_cmp) (x y : fileinfo_t) : Prop :=
  match c with
  | CmpName => strcasecmp (fi_name x) (fi_name y) <= 0
  | CmpMtime => fi_mtime (info_of y) <= fi_mtime (info_of x)
  | CmpSize => fi_size (info_of y) <= fi_size (info_of x)
  end.

(** Differences that an [int] holds. *)
Definition in_int_range (x : fileinfo_t) : Prop := 0 <= fi_size (info_of x) < 2 ^ 31 /\ 0 <= fi_mtime (info_of x) < 2 ^ 31.

Lemma s32_u64 x : s32 (u64 x) = s32 x.
Proof.
  unfold wraps, wrapu. f_equal. rewrite (Z.add_mod (x mod 2 ^ 64)), (Z.add_mod x) by lia. do 2 f_equal.
  apply Z.mod_mod_divide. by exists (2 ^ 32).
Qed.

Lemma cmpsize_eq rev x y : rev = 1 \/ rev = -1 -> in_int_range x -> in_int_range y ->
  psh_ls_cmpsize rev x y = (fi_size (info_of y) - fi_size (info_of x)) * rev.
Proof.
  intros Hrev [Hx _] [Hy _]. unfold psh_ls_cmpsize. set (d := fi_size (info_of y) - fi_size (info_of x)). assert (- 2 ^ 31 < d < 2 ^ 31) by (subst d; lia).
  assert (E : u64 (u64 d * rev) = u64 (d * rev)) by (unfold wrapu; by rewrite Z.mul_mod_idemp_l by lia).
  rewrite E, s32_u64. apply wraps_small; destruct Hrev as [-> | ->]; lia.
Qed.

Lemma cmpmtime_eq rev x y : rev = 1 \/ rev = -1 -> in_int_range x -> in_int_range y ->
  psh_ls_cmpmtime rev x y = (fi_mtime (info_of y) - fi_mtime (info_of x)) * rev.
Proof. intros Hrev [_ Hx] [_ Hy]. unfold psh_ls_cmpmtime. apply wraps_small; destruct Hrev as [-> | ->]; lia. Qed.

Lemma strcasecmp_total a b : strcasecmp a b <= 0 \/ strcasecmp b a <= 0.
Proof. unfold strcasecmp. pose proof (strcmp_antisym (tolower <$> cstr a) (tolower <$> cstr b)). lia. Qed.

Lemma strcasecmp_trans a b c : strcasecmp a b <= 0 -> strcasecmp b c <= 0 -> strcasecmp a c <= 0.
Proof. apply strcmp_le_trans. Qed.

Lemma strcasecmp_sym a b : 0 <= strcasecmp a b <-> strcasecmp b a <= 0.
Proof.
  unfold strcasecmp. pose proof (strcmp_antisym (tolower <$> cstr b) (tolower <$> cstr a)) as H1. pose proof (strcmp_antisym (tolower <$> cstr a) (tolower <$> cstr b)) as H2.
  pose proof (strcmp_eq (tolower <$> cstr a) (tolower <$> cstr b)) as H3. pose proof (strcmp_eq (tolower <$> cstr b) (tolower <$> cstr a)) as H4.
  split; intros H; [|lia]. destruct (Z.lt_ge_cases 0 (strcmp (tolower <$> cstr b) (tolower <$> cstr a))) as [Hlt|]; [|done]. apply H2 in Hlt. lia.
Qed.

(** The comparisons are those of the orders; [-r] is the opposite order. *)
Lemma compare_before c rev x y : rev = 1 \/ rev = -1 -> (c <> CmpName -> in_int_range x /\ in_int_range y) ->
  ls_compare rev c x y <= 0 <-> if rev =? 1 then before c x y else before c y x.
Proof.
  intros Hrev Hin. destruct c; cbn [ls_compare before].
  - unfold psh_ls_cmpname. pose proof (strcasecmp_sym (fi_name x) (fi_name y)). destruct Hrev as [-> | ->]; cbn -[strcasecmp]; lia.
  - destruct (Hin ltac:(done)). rewrite cmpmtime_eq by done. destruct Hrev as [-> | ->]; cbn -[Z.le Z.mul Z.sub]; lia.
  - destruct (Hin ltac:(done)). rewrite cmpsize_eq by done. destruct Hrev as [-> | ->]; cbn -[Z.le Z.mul Z.sub]; lia.
Qed.

Lemma before_total c x y : before c x y \/ before c y x.
Proof. destruct c; simpl; [apply strcasecmp_total|lia|lia]. Qed.

Lemma before_trans c x y z : before c x y -> before c y z -> before c x z.
Proof. destruct c; simpl; [apply strcasecmp_trans|lia|lia]. Qed.

(** The first entries are sorted, and the others stay: by name without regard to
    case, or by time or size, newest or largest first, as long as the differences fit an
    [int]; backwards with [-r]; not at all with [-f]. *)
Theorem ls_sort_orders `{QsortLaws} (o : ls_opts) (files rest : list fileinfo_t) :
  (o_reverse o = 1 \/ o_reverse o = -1) -> Forall (fun f => is_Some (fi_info f)) files ->
  (o_cmp o <> Some CmpName -> Forall in_int_range files) ->
  exists sorted, ls_sort o (zlen files) (files ++ rest) = Some (sorted ++ rest) /\ sorted ≡ₚ files /\
    match o_cmp o with
    | None => sorted = files
    | Some c => Sorted (fun x y => if o_reverse o =? 1 then before c x y else before c y x) sorted
    end.
Proof.
  intros Hrev Hinfo Hin. unfold ls_sort. destruct (o_cmp o) as [c|]; [|by exists files].
  rewrite (rd_range_app [] files rest) by done. cbn [mbind option_bind].
  destruct (mapM_is_Some_2 fi_info files Hinfo) as [infos ->]. cbn [mbind option_bind].
  assert (Hp := qsort_perm (ls_compare (o_reverse o) c) files).
  rewrite (wr_range_app [] files rest) by (unfold zlen; rewrite ?Hp; done). eexists. split; [done|]. split; [done|].
  assert (Hr : c <> CmpName -> forall x, x ∈ files -> in_int_range x) by (intros Hc; apply Forall_forall, Hin; congruence).
  assert (Hspec : forall x y, x ∈ files -> y ∈ files -> ls_compare (o_reverse o) c x y <= 0 <-> if o_reverse o =? 1 then before c x y else before c y x).
  { intros x y Hx Hy. apply compare_before; [done|]. intros Hc. auto. }
  assert (Hs : Sorted (fun x y => ls_compare (o_reverse o) c x y <= 0) (qsort (ls_compare (o_reverse o) c) files)).
  { apply qsort_sorted_on. split.
    - intros x y Hx Hy. rewrite !Hspec by done. destruct (_ =? 1); [apply before_total|destruct (before_total c x y); auto].
    - intros x y z Hx Hy Hz. rewrite !Hspec by done. destruct (_ =? 1); eauto using before_trans. }
  assert (Hsub : forall x, x ∈ qsort (ls_compare (o_reverse o) c) files -> x ∈ files) by (intros x; by rewrite Hp).
  revert Hs Hsub. generalize (qsort (ls_compare (o_reverse o) c) files). induction 1 as [|x l Hs IH Hd]; intros Hsub; constructor.
  - apply IH. intros y Hy. apply Hsub. by right.
  - destruct Hd as [|y l Hxy]; constructor. apply Hspec; [apply Hsub; left|apply Hsub; right; left|done].
Qed.

(** The difference of sizes is cut to an [int]: an empty file and one of 3 GiB. *)
Definition file_of_size (n : Z) : fileinfo_t := Fileinfo [] 0 0 (Some (Finfo 0 n 1 33188)) None None.
Lemma large_file_last : psh_ls_cmpsize 1 (file_of_size 0) (file_of_size 3221225472) < 0 /\ psh_ls_cmpsize 1 (file_of_size 0) (file_of_size 4294967296) = 0.
Proof. by split. Qed.

(** ** The directories *)

(** The loop over the paths opens the directories one after the other, but behind
    each path that is no directory it leaves out the next one: [continue] in a [do] loop
    advances the index that was advanced already. *)
Theorem dir_loop_lists {U} `{Files, Accounts U, Clock, Qsort} (ws_col : Z) (o : ls_opts) (paths : list bytes) (odir : list bool) (nfiles ret : Z) (s : ls_t U) :
  length odir = length paths -> paths <> [] ->
  dir_loop ws_col (S (length paths)) o paths odir 0 nfiles ret s = list_dirs ws_col o (1 <? zlen paths) (listed paths odir) nfiles ret s.
Proof.
  intros Hl Hp. assert (0 < zlen paths) by (destruct paths; [done|zlia]). rewrite dir_loop_listed; [done|done|lia|unfold zlen; lia].
Qed.

Section unopened.
Context {U : Type} `{Files, Accounts U, Clock, Qsort}.

Lemma alloc_nil : alloc [] = (true, []). Proof. done. Qed.

Lemma room_mem {A} nfiles (a : A) (s : ls_t U) : ls_mem s = [] -> exists s', ls_room nfiles a s = Next a s' /\ ls_mem s' = [].
Proof.
  intros Hm. unfold ls_room, psh_ls_expandbuff. destruct (nfiles =? _); [|by exists s]. rewrite Hm, alloc_nil. by eexists.
Qed.

Lemma copyname_mem file name ret file' m : psh_ls_copyname file name [] = Some (ret, file', m) -> m = [] /\ ret = 0.
Proof. unfold psh_ls_copyname. destruct (_ <=? _); rewrite ?alloc_nil; intros E; obind E; by injection E as <- <- <-. Qed.

(** A path that is no directory is not among those to open, and memory does not run out. *)
Lemma stat_path_mem o path nfiles (s : ls_t U) r : ls_mem s = [] -> stat_path o path nfiles s = Some r -> exists nfiles' d ret s', r = Next (nfiles', d, ret) s' /\ ls_mem s' = [] /\
  (forall st, fs_lstat path = Some st -> S_ISDIR (st_mode st) = false -> d = false).
Proof.
  intros Hm E. unfold stat_path in E. obind E. revert E. unfold psh_ls_statentry. destruct (fs_lstat path) as [st|] eqn:Est.
  - destruct (if bool_decide _ then _ else _) as [[ret f] u] eqn:Ef. intros E. obind E.
    assert (Hf : ret = 0 /\ fi_info f = Some (Finfo (st_mtime st) (st_size st) (st_nlink st) (st_mode st))).
    { destruct (bool_decide _); [destruct (getpwuid _ _) as [? ?]; destruct (getgrgid _ _) as [? ?]|]; by injection Ef as <- <- <-. }
    destruct Hf as [-> Hi]. change (0 <? 0) with false in E. cbn iota in E. obind E. rewrite Hi in E. cbn [mbind option_bind fi_mode] in E.
    destruct ((x1 =? 47) && negb (S_ISDIR (st_mode st))); [injection E as <-; by eexists _, _, _, _|].
    destruct (negb (S_ISDIR (st_mode st)) || o_dir o) eqn:Eb.
    + obind E. destruct x2 as [[rt f2] m2]. obind E. cbn [ls_mem set_ls_files set_ls_acc] in E3. rewrite Hm in E3. apply copyname_mem in E3 as [-> ->]. change (0 <? 0) with false in E. cbn iota in E.
      match type of E with Some (ls_room ?nf ?a ?st') = _ => destruct (room_mem nf a st' eq_refl) as (s' & Er & Hm'); rewrite Er in E end. injection E as <-. by eexists _, _, _, _.
    + match type of E with Some (ls_room ?nf ?a ?st') = _ => destruct (room_mem nf a st' Hm) as (s' & Er & Hm'); rewrite Er in E end. injection E as <-.
      eexists _, _, _, _. split; [done|]. split; [done|]. intros st1 [= <-] Hd. rewrite Hd in Eb. done.
  - intros E. obind E. cbn in E. injection E as <-. by eexists _, _, _, _.
Qed.

Lemma stat_two o p1 p2 ret (s : ls_t U) r st : ls_mem s = [] -> fs_lstat p1 = Some st -> S_ISDIR (st_mode st) = false ->
  stat_paths o [p1; p2] 0 ret [] s = Some r -> exists nfiles d ret' s', r = Next (nfiles, [false; d], ret') s'.
Proof.
  intros Hm Hst Hd. cbn [stat_paths]. intros E. obind E. destruct (stat_path_mem o p1 0 s x Hm E0) as (n1 & d1 & r1 & s1 & -> & Hm1 & Hd1). rewrite (Hd1 st Hst Hd) in E.
  obind E. destruct (stat_path_mem o p2 n1 s1 x Hm1 E1) as (n2 & d2 & r2 & s2 & -> & _ & _). injection E as <-. by eexists _, _, _, _.
Qed.
End unopened.

(** [ls file dir] does not list the directory: when the first of two paths is no
    directory, what is printed does not depend on what any directory holds. *)
Theorem ls_directory_missed {U} `{Accounts U, Clock, Qsort} (stat_ lstat_ : bytes -> option stat_t) (dirs1 dirs2 : bytes -> option (list bytes)) ws opts p1 p2 st (u : U) :
  lstat_ p1 = Some st -> S_ISDIR (st_mode st) = false ->
  @psh_ls U (Build_Files stat_ lstat_ dirs1) _ _ _ ws opts [p1; p2] [] u = @psh_ls U (Build_Files stat_ lstat_ dirs2) _ _ _ ws opts [p1; p2] [] u.
Proof.
  intros Hst Hd. unfold psh_ls. destruct (parse_opts opts ls_opts_default) as [o|]; [|done]. unfold ls_main, psh_ls_expandbuff. cbn [ls_mem set_ls_mem alloc negb set_ls_files].
  change (0 <? 0) with false. cbn iota.
  match goal with |- context [@stat_paths _ _ _ o [p1; p2] 0 0 [] ?st0] => set (s0 := st0);
    change (@stat_paths U (Build_Files stat_ lstat_ dirs2) _ o [p1; p2] 0 0 [] s0) with (@stat_paths U (Build_Files stat_ lstat_ dirs1) _ o [p1; p2] 0 0 [] s0);
    destruct (@stat_paths U (Build_Files stat_ lstat_ dirs1) _ o [p1; p2] 0 0 [] s0) as [r|] eqn:E; [|done] end.
  destruct (@stat_two U (Build_Files stat_ lstat_ dirs1) _ o p1 p2 0 s0 r st eq_refl Hst Hd E) as (nf & d & rt & s1 & ->). cbn [mbind option_bind].
  destruct (if 0 <? nf then show_files (default 80 ws) o nf s1 else Some (rt, s1)) as [[rt' s2]|]; [|done]. cbn [mbind option_bind]. by destruct (_ && _).
Qed.

(** A terminal that reports no columns: the estimate of the rows divides by zero. *)
Lemma zero_columns files m : psh_ls_printmultiline 0 files m = None.
Proof. done. Qed.

(** ** Concrete listings *)

(** A directory [d] with a hidden entry, and a file next to it. *)
Definition ex_lstat (p : bytes) : option stat_t :=
  if bool_decide (p ∈ bstr <$> ["a.txt"; "d/x"; "d/.h"; "d/yy"]%string) then Some (Stat 0 5 1 33188 0 0)
  else if bool_decide (p ∈ bstr <$> ["d"; "."]%string) then Some (Stat 0 5 1 16877 0 0) else None.
Definition ex_dirs (p : bytes) : option (list bytes) :=
  if bool_decide (p = bstr "d") then Some (bstr <$> ["yy"; ".h"; "x"]%string)
  else if bool_decide (p = bstr ".") then Some (bstr <$> ["d"; "a.txt"]%string) else None.
#[local] Instance ex_files : Files := {| fs_stat := ex_lstat; fs_lstat := ex_lstat; fs_listdir := ex_dirs |}.
#[local] Instance ex_accounts : Accounts unit := {| getpwuid _ u := (None, u); getgrgid _ u := (None, u); pw_name _ _ := []; gr_name _ _ := [] |}.
#[local] Instance ex_clock : Clock := {| time_now := 0; localtime _ := Some (Tm 100 0 5 12 3) |}.

Definition ex_entry (name : string) (size : Z) : fileinfo_t :=
  Fileinfo (bstr name ++ [0]) (zlen (bstr name)) (zlen (bstr name) + 1) (Some (Finfo 7 size 1 33188)) None None.
Definition ex_entries : list fileinfo_t := [ex_entry "alpha" 3; ex_entry "be" 9; ex_entry "gamma" 1; ex_entry "d" 4].

Lemma ex_entries_ok f : f ∈ ex_entries -> 0 <= fi_namelen f /\ fi_namelen f + 3 <= 14 /\ is_Some (fi_info f) /\ in_int_range f.
Proof. intros Hf. repeat (apply elem_of_cons in Hf as [-> | Hf]; [split_and!; vm_compute; by eauto|]). by apply elem_of_nil in Hf. Qed.

Lemma multiline_layout_witness : exists r, let rows := fields_of ex_entries r <$> seqZ 0 r in
  psh_ls_printmultiline 14 ex_entries [] = Some (0, concat (row_text <$> rows), []) /\ (concat rows).*1 ≡ₚ ex_entries /\
  Forall (fun row => zsum row.*2 < 14) rows /\ Forall (Forall (fun c => fi_namelen c.1 <= c.2)) rows /\
  0 < r /\ forall q, 0 < q < r -> 14 <= table_width (fi_namelen <$> ex_entries) q.
Proof.
  apply (multiline_layout 14 ex_entries []); [done|done|done|].
  intros f Hf. destruct (ex_entries_ok f Hf) as (? & ? & ? & _). by split_and!.
Defined.

Example ex_listing : option_map (fun r => snd (fst r)) (psh_ls_printmultiline 14 ex_entries []) = Some (bstr "alpha  gamma" ++ [10] ++ bstr "be     d    " ++ [10]).
Proof. vm_compute. reflexivity. Qed.

Lemma ls_sort_orders_witness : exists sorted, ls_sort (LsOpts MODE_NORMAL false 1 false (Some CmpSize)) 4 (ex_entries ++ []) = Some (sorted ++ []) /\ sorted ≡ₚ ex_entries /\
  Sorted (fun x y => before CmpSize x y) sorted.
Proof.
  apply (ls_sort_orders (LsOpts MODE_NORMAL false 1 false (Some CmpSize)) ex_entries []); [by left|..]; [|intros _]; apply Forall_forall; intros f Hf; by destruct (ex_entries_ok f Hf) as (? & ? & ? & ?).
Defined.

Lemma ls_safe_witness : exists ret s, psh_ls None [108; 97] [bstr "d"; bstr "nothing"] [true; true; false] () = Some (ret, s).
Proof.
  apply (ls_safe None [108; 97] [bstr "d"; bstr "nothing"] [true; true; false] ()); [done|by intros; eexists|by vm_compute|].
  intros path names. unfold fs_listdir, ex_files, ex_dirs. repeat case_bool_decide; [|..|done]; intros [= <-]; by repeat constructor.
Defined.

Lemma dir_loop_lists_witness : dir_loop 80 4 ls_opts_default (bstr <$> ["a"; "d"; "."]%string) [false; true; true] 0 0 0 (LsSt [] [] () [] []) =
  list_dirs 80 ls_opts_default true [bstr "."] 0 0 (LsSt [] [] () [] []).
Proof. exact (dir_loop_lists 80 ls_opts_default (bstr <$> ["a"; "d"; "."]%string) [false; true; true] 0 0 (LsSt [] [] () [] []) eq_refl ltac:(done)). Defined.

Lemma ls_directory_missed_witness : psh_ls None [] [bstr "a.txt"; bstr "d"] [] () = @psh_ls unit (Build_Files ex_lstat ex_lstat (fun _ => None)) _ _ _ None [] [bstr "a.txt"; bstr "d"] [] ().
Proof. apply (ls_directory_missed ex_lstat ex_lstat ex_dirs (fun _ => None) None [] (bstr "a.txt") (bstr "d") (Stat 0 5 1 33188 0 0) ()); by vm_compute. Defined.

Example ex_runs :
  (fun r => (fst r, ls_out (snd r))) <$> psh_ls None [] [bstr "a.txt"; bstr "d"] [] () = Some (0, bstr "a.txt" ++ [10]) /\
  (fun r => (fst r, ls_out (snd r))) <$> psh_ls None [] [bstr "d"; bstr "a.txt"] [] () = Some (0, bstr "a.txt" ++ [10; 10] ++ bstr "d:" ++ [10] ++ bstr "x  yy" ++ [10]).
Proof. split; vm_compute; reflexivity. Qed.
