(* ===== verification/Nandtool.v ===== *)
(** * The NAND tool ([nandtool/nandtool.c], [flashmng.c], [bcb.c])

    Flashing, reading back, erasing, dumping and scanning a flash device, and its boot
    control blocks.  The flash server, files and paths are the class [NtOps]; SHA-256 is
    that of a library.  [flashmng_info] keeps what it learnt last in one place that every
    later use reads; [nt_t] holds it.  Messages are left out. *)

From S2P Require Import Prelude.
From S2P Require Import Clib.
From S2P Require Import Psd.

Definition SCAN_DEVICES_MAX_CNT : Z := 4.
Definition SHA256_DIGEST_SIZE : Z := 32.

(** ** The outside *)

Record nt_info := NtInfoR { ni_size : Z; ni_writesz : Z; ni_erasesz : Z; ni_metasz : Z }.

(** Messages to the flash server. *)
Inductive nt_req :=
  | NtInfo
  | NtGetAttr (type : Z)
  | NtIsBad (address : Z)
  | NtErase (address size : Z)
  | NtWrite (type address : Z) (data : bytes)
  | NtReadRaw (address size : Z).

(** The result of [msgSend], [msg.o.err], the attribute, the output data and the info. *)
Record nt_reply := NtReply { nr_ret : Z; nr_err : Z; nr_val : Z; nr_data : bytes; nr_info : nt_info }.

Class NtOps (F : Type) := {
  (** The message for an identifier; 0 is the identifier of nothing. *)
  nt_msg : Z -> nt_req -> F -> nt_reply * F;
  nt_lseek : Z -> Z -> F -> Z * F;
  (** The count, and the bytes that were read. *)
  nt_read : Z -> Z -> F -> (Z * bytes) * F;
  nt_write : Z -> bytes -> F -> Z * F;
  nt_errno : F -> Z;
  nt_open : bytes -> F -> Z * F;
  nt_close : Z -> F -> F;
  nt_fstat : Z -> F -> option Z * F;
  nt_lookup : bytes -> F -> (Z * Z) * F;
  nt_realpath : bytes -> F -> option bytes * F;
}.

(** [flashmng_common], and the outside. *)
Record nt_t (F : Type) := Nt { nt_cached : Z; nt_info_ : nt_info; nt_f : F }.
Arguments Nt {F}. Arguments nt_cached {F}. Arguments nt_info_ {F}. Arguments nt_f {F}.

Definition nt_start {F} (f : F) : nt_t F := Nt 0 (NtInfoR 0 0 0 0) f.

Section nandtool.
Context {F : Type} `{NtOps F}.
(** The codes of the flash server. *)
Context (writemeta writeraw atSize atDev : Z).

Definition set_dev (f : F) (s : nt_t F) : nt_t F := Nt (nt_cached s) (nt_info_ s) f.
Definition on_dev {A} (op : F -> A * F) (s : nt_t F) : A * nt_t F := let '(a, f) := op (nt_f s) in (a, set_dev f s).

(** ** Requests ([flashmng.c]) *)

(** Whether there is an info; it is in [nt_info_]. *)
Definition flashmng_info (oid : Z) (s : nt_t F) : bool * nt_t F :=
  if nt_cached s =? oid then (true, s)
  else
    let '(r, s) := on_dev (nt_msg oid NtInfo) s in
    if (nr_ret r <? 0) || (nr_err r <? 0) then (false, s)
    else
      let s := Nt (nt_cached s) (nr_info r) (nt_f s) in
      let '(r, s) := on_dev (nt_msg oid (NtGetAttr atSize)) s in
      if (nr_ret r <? 0) || (nr_err r <? 0) then (false, Nt 0 (nt_info_ s) (nt_f s))
      else
        let i := nt_info_ s in
        (true, Nt oid (NtInfoR (nr_val r) (ni_writesz i) (ni_erasesz i) (ni_metasz i)) (nt_f s)).

(** [msgSend], or [msg.o.err]. *)
Definition reply_err (r : nt_reply) : Z := if nr_ret r <? 0 then nr_ret r else nr_err r.

Definition nt_flashmng_readraw (oid addr size : Z) (s : nt_t F) : (Z * bytes) * nt_t F :=
  let '(r, s) := on_dev (nt_msg oid (NtReadRaw (u32 addr) size)) s in
  ((if nr_ret r <? 0 then -1 else nr_err r, nr_data r), s).

Definition write_ex (oid addr : Z) (data : bytes) (type : Z) (s : nt_t F) : Z * nt_t F :=
  let '(r, s) := on_dev (nt_msg oid (NtWrite type addr data)) s in
  (if reply_err r <? 0 then reply_err r else if negb (reply_err r =? zlen data) then - EIO else 0, s).

Definition flashmng_writeraw (oid page : Z) (data : bytes) (s : nt_t F) : Z * nt_t F :=
  let '(ok, s) := flashmng_info oid s in
  if negb ok then (- EFAULT, s)
  else write_ex oid (u32 (page * u32 (ni_metasz (nt_info_ s) + ni_writesz (nt_info_ s)))) data writeraw s.

Definition nt_flashmng_erase (oid start size : Z) (s : nt_t F) : Z * nt_t F :=
  let '(ok, s) := flashmng_info oid s in
  if negb ok then (- EFAULT, s)
  else
    let es := ni_erasesz (nt_info_ s) in
    let '(r, s) := on_dev (nt_msg oid (NtErase (u32 (start * es)) (u32 (size * es)))) s in
    (if reply_err r <? 0 then reply_err r else 0, s).

Definition flashmng_isbad (oid block : Z) (s : nt_t F) : Z * nt_t F :=
  let '(ok, s) := flashmng_info oid s in
  if negb ok then (- EFAULT, s)
  else
    let '(r, s) := on_dev (nt_msg oid (NtIsBad (u32 (block * ni_erasesz (nt_info_ s))))) s in
    (reply_err r, s).

(** The loop from [blockno] while it is below [end_]. *)
Fixpoint markers_loop (fuel : nat) (oid blockno end_ ret : Z) (s : nt_t F) : option (Z * nt_t F) :=
  match fuel with
  | O => None
  | Datatypes.S fuel =>
      if blockno <? end_ then
        let '(b, s) := flashmng_isbad oid blockno s in
        if negb (b =? 0) then markers_loop fuel oid (u32 (blockno + 1)) end_ ret s
        else
          let '(r, s) := write_ex oid (u32 (blockno * ni_erasesz (nt_info_ s))) oob_cleanmarker writemeta s in
          markers_loop fuel oid (u32 (blockno + 1)) end_ (s32 (ret + r)) s
      else Some (ret, s)
  end.
Definition nt_flashmng_cleanMarkers (oid start size : Z) (s : nt_t F) : option (Z * nt_t F) :=
  let '(ok, s) := flashmng_info oid s in
  if negb ok then Some (- EFAULT, s)
  else markers_loop (Datatypes.S (Z.to_nat (u32 (start + size) - start))) oid start (u32 (start + size)) 0 s.

Fixpoint checkbad_loop (fuel : nat) (oid block nbad : Z) (s : nt_t F) : option (Z * nt_t F) :=
  match fuel with
  | O => None
  | Datatypes.S fuel =>
      if block <? ni_size (nt_info_ s) / ni_erasesz (nt_info_ s) then
        let '(err, s) := flashmng_isbad oid block s in
        if err <? 0 then Some (err, s)
        else checkbad_loop fuel oid (u32 (block + 1)) (if negb (err =? 0) then nbad + 1 else nbad) s
      else Some (0, s)
  end.
Definition flashmng_checkbad (oid : Z) (s : nt_t F) : option (Z * nt_t F) :=
  let '(ok, s) := flashmng_info oid s in
  if negb ok then Some (- EFAULT, s)
  else if ni_erasesz (nt_info_ s) =? 0 then None
  else checkbad_loop (Datatypes.S (Z.to_nat (ni_size (nt_info_ s) / ni_erasesz (nt_info_ s)))) oid 0 0 s.

(** The error, or 0 and the value. *)
Definition nt_flashmng_getAttr (type oid : Z) (s : nt_t F) : (Z * Z) * nt_t F :=
  let '(r, s) := on_dev (nt_msg oid (NtGetAttr type)) s in
  (if reply_err r <? 0 then (reply_err r, 0) else (0, nr_val r), s).

(** ** Flashing *)

(** Part of a page from the file, at [boffs] of the buffer: the last result of [read],
    the bytes so far, and the buffer. *)
Fixpoint fill_page (fuel : nat) (fd pagesz boffs err : Z) (buff : bytes) (s : nt_t F) : option (Z * Z * bytes * nt_t F) :=
  match fuel with
  | O => None
  | Datatypes.S fuel =>
      if boffs <? pagesz then
        let '((n, data), s) := on_dev (nt_read fd (pagesz - boffs)) s in
        if n <=? 0 then Some (if n <? 0 then - nt_errno (nt_f s) else n, boffs, buff, s)
        else
          buff ← wr_range buff boffs data;
          fill_page fuel fd pagesz (boffs + n) n buff s
      else Some (err, boffs, buff, s)
  end.

(** What [nandtool_common] has of the device. *)
Context (oid fd : Z).

(** The write of a page: an error is negative, but [0] where [errno] is. *)
Definition flash_page (raw : bool) (page pagesz : Z) (buff : bytes) (s : nt_t F) : Z * bool * nt_t F :=
  if raw then
    let '(err, s) := flashmng_writeraw oid page buff s in (err, err <? 0, s)
  else
    let '(pos, s) := on_dev (nt_lseek fd (page * pagesz)) s in
    if pos <? 0 then (- nt_errno (nt_f s), true, s)
    else
      let '(n, s) := on_dev (nt_write fd buff) s in
      if negb (n =? pagesz) then (- nt_errno (nt_f s), true, s) else (n, false, s).

(** The loop over the file of [size] bytes: [err] when it is left. *)
Fixpoint flash_loop (fuel : nat) (raw : bool) (ifd npages pagesz size start offs err : Z) (s : nt_t F) : option (Z * nt_t F) :=
  match fuel with
  | O => None
  | Datatypes.S fuel =>
      if offs <? size then
        if (npages =? 0) || (pagesz =? 0) then None else
        let page := u32 (start + offs / pagesz) in
        let '(err, s) := flashmng_isbad oid (page / npages) s in
        if err <? 0 then Some (err, s)
        else if 0 <? err then flash_loop fuel raw ifd npages pagesz size (u32 (start + 1)) offs err s
        else
          '(err, boffs, buff, s) ← fill_page (Datatypes.S (Z.to_nat pagesz)) ifd pagesz 0 err (replicate (Z.to_nat pagesz) 0) s;
          if err <? 0 then Some (err, s)
          else
            let '(err, stop, s) := flash_page raw page pagesz buff s in
            if stop : bool then Some (err, s)
            else flash_loop fuel raw ifd npages pagesz size start (u32 (offs + boffs)) err s
      else Some (err, s)
  end.

(** [fuel] bounds the iterations, [mem] is the result of [malloc]. *)
Definition nandtool_flash (fuel : nat) (mem : bool) (path : bytes) (start : Z) (raw : bool) (s : nt_t F) : option (Z * nt_t F) :=
  let info := nt_info_ s in
  if ni_writesz info =? 0 then None else
  let npages := ni_erasesz info / ni_writesz info in
  let pagesz := if raw then u32 (ni_writesz info + ni_metasz info) else ni_writesz info in
  let '(ifd, s) := on_dev (nt_open path) s in
  if ifd <? 0 then Some (ifd, s)
  else if negb mem then Some (- ENOMEM, set_dev (nt_close ifd (nt_f s)) s)
  else
    let '(size, s) := on_dev (nt_fstat ifd) s in
    '(err, s) ← (match size with
                 | None => Some (-1, s)
                 | Some size =>
                     '(err, s) ← flash_loop fuel raw ifd npages pagesz size (u32 (start * npages)) 0 0 s;
                     Some (if err <? 0 then err else 0, s)
                 end);
    Some (err, set_dev (nt_close ifd (nt_f s)) s).

(** ** Reading back *)

Definition nibble (d : Z) : Z := if d <? 10 then 48 + d else 87 + d.
Definition nandtool_hexdigest (digest : bytes) : bytes := concat ((fun b => [nibble (b / 16); nibble (b mod 16)]) <$> digest).

Section digest.
Context {Sha : Type} (sha_init : Sha) (sha_process : Sha -> bytes -> Sha) (sha_done : Sha -> bytes).

(** [len] bytes of a block into the buffer: the error, and the buffer. *)
Fixpoint read_block (fuel : nat) (len offs : Z) (buff : bytes) (s : nt_t F) : option (Z * bytes * nt_t F) :=
  match fuel with
  | O => None
  | Datatypes.S fuel =>
      if offs <? len then
        let '((got, data), s) := on_dev (nt_read fd (len - offs)) s in
        if got <=? 0 then Some (if got <? 0 then - nt_errno (nt_f s) else - EIO, buff, s)
        else
          buff ← wr_range buff offs data;
          read_block fuel len (offs + got) buff s
      else Some (0, buff, s)
  end.

(** The loop over the blocks: the error, the bytes left, and the state of the hash. *)
Fixpoint sha_loop (fuel : nat) (info : nt_info) (nblocks block size : Z) (ctx : Sha) (buff : bytes) (s : nt_t F) : option (Z * Z * Sha * nt_t F) :=
  match fuel with
  | O => None
  | Datatypes.S fuel =>
      if (0 <? size) && (block <? nblocks) then
        let '(err, s) := flashmng_isbad oid block s in
        if err <? 0 then Some (err, size, ctx, s)
        else if 0 <? err then sha_loop fuel info nblocks (block + 1) size ctx buff s
        else
          let len := if size <? ni_erasesz info then (size + ni_writesz info - 1) / ni_writesz info * ni_writesz info else ni_erasesz info in
          let '(pos, s) := on_dev (nt_lseek fd (block * ni_erasesz info)) s in
          if pos <? 0 then Some (- nt_errno (nt_f s), size, ctx, s)
          else
            '(err, buff, s) ← read_block (Datatypes.S (Z.to_nat len)) len 0 buff s;
            if err <? 0 then Some (err, size, ctx, s)
            else
              let len := if size <? len then size else len in
              data ← rd_range buff 0 len;
              sha_loop fuel info nblocks (block + 1) (size - len) (sha_process ctx data) buff s
      else Some (0, size, ctx, s)
  end.

(** The error, and the line that is printed. *)
Definition nandtool_sha256 (mem : bool) (size start : Z) (s : nt_t F) : option (Z * option bytes * nt_t F) :=
  let info := nt_info_ s in
  if (ni_erasesz info =? 0) || (ni_writesz info =? 0) then None else
  let nblocks := u32 (ni_size info / ni_erasesz info) in
  if negb mem then Some (- ENOMEM, None, s)
  else
    '(err, size, ctx, s) ← sha_loop (Datatypes.S (Z.to_nat (nblocks - start))) info nblocks start size sha_init (replicate (Z.to_nat (ni_erasesz info)) 0) s;
    if err <? 0 then Some (err, None, s)
    else if 0 <? size then Some (- EINVAL, None, s)
    else Some (0, Some (nandtool_hexdigest (sha_done ctx) ++ [10]), s).
End digest.

(** ** Erasing, checking and dumping *)

Definition nandtool_erase (start size : Z) (write_cleanmarkers : bool) (s : nt_t F) : option (Z * nt_t F) :=
  let '(err, s) := nt_flashmng_erase oid start size s in
  if err <? 0 then Some (err, s)
  else if write_cleanmarkers then
    if (size =? 0) && (ni_erasesz (nt_info_ s) =? 0) then None
    else
      '(err, s) ← nt_flashmng_cleanMarkers oid start (if size =? 0 then u32 (ni_size (nt_info_ s) / ni_erasesz (nt_info_ s)) else size) s;
      Some (if err <? 0 then err else 0, s)
  else Some (0, s).

Definition nandtool_check (s : nt_t F) : option (Z * nt_t F) :=
  '(err, s) ← flashmng_checkbad oid s; Some (if err <? 0 then err else 0, s).

(** The copy of the bytes from [addr + bytes] to [endaddr]. *)
Fixpoint dump_loop (fuel : nat) (oob : bool) (outfd pagesz addr endaddr bytes : Z) (s : nt_t F) : option (Z * nt_t F) :=
  match fuel with
  | O => None
  | Datatypes.S fuel =>
      if addr + bytes <? endaddr then
        let '((len, data), s) := if oob then nt_flashmng_readraw oid (addr + bytes) pagesz s else on_dev (nt_read fd pagesz) s in
        if negb (len =? pagesz) then Some (- EIO, s)
        else
          let '(len, s) := on_dev (nt_write outfd data) s in
          if negb (len =? pagesz) then Some (- EIO, s) else dump_loop fuel oob outfd pagesz addr endaddr (bytes + len) s
      else Some (0, s)
  end.

Definition nandtool_dump (fuel : nat) (mem : bool) (outpath : bytes) (start nblocks : Z) (oob : bool) (s : nt_t F) : option (Z * nt_t F) :=
  let '(outfd, s) := on_dev (nt_open outpath) s in
  let leave err s := Some (err, set_dev (nt_close outfd (nt_f s)) s) in
  if outfd <? 0 then Some (- EINVAL, s)
  else
    let '(ok, s) := flashmng_info oid s in
    if negb ok then leave (- EFAULT) s
    else
      let i := nt_info_ s in
      if oob && ((ni_writesz i =? 0) || (ni_erasesz i =? 0)) then None
      else
        let pagesz := if oob then u32 (ni_metasz i + ni_writesz i) else ni_writesz i in
        let blocksz := if oob then ni_erasesz i / ni_writesz i * pagesz else ni_erasesz i in
        let partsz := if oob then ni_size i / ni_erasesz i * blocksz else ni_size i in
        let addr := start * blocksz in
        let '(pos, s) := if oob then (0, s) else on_dev (nt_lseek fd addr) s in
        if pos <? 0 then leave (- EINVAL) s
        else if negb mem then leave (- ENOMEM) s
        else
          let endaddr := if nblocks =? 0 then partsz else addr + nblocks * blocksz in
          '(ret, s) ← dump_loop fuel oob outfd pagesz addr endaddr 0 s;
          leave ret s.

(** ** Boot control blocks ([bcb.c]) *)

(** [dbbt_t] in memory, and the fields of the FCB for a device. *)
Definition nt_dbbt_bytes (t : dbbt_t) : bytes := dbbt_bytes t.
Definition nt_fcb_init (i : nt_info) : bytes := fcb_init (PInfo (ni_writesz i) (ni_erasesz i) (ni_metasz i)).

(** The copies, from [partoff] on: the number of those that failed.  [info] is behind a
    pointer: it is the one the server gave last. *)
Fixpoint nt_dbbt_loop (k : nat) (i partoff failed : Z) (data : bytes) (s : nt_t F) : Z * nt_t F :=
  match k with
  | O => (failed, s)
  | Datatypes.S k =>
      let '(bad, s) :=
        let '(pos, s) := on_dev (nt_lseek fd partoff) s in
        if pos <? 0 then (true, s)
        else
          let '((n, buf), s) := on_dev (nt_read fd (zlen data)) s in
          if negb (n =? zlen data) then (true, s)
          else if bool_decide (buf = data) then (false, s)
          else
            let '(err, s) := nt_flashmng_erase oid (u32 (BCB_DBBT_START * ni_writesz (nt_info_ s)) / ni_erasesz (nt_info_ s) + i) 1 s in
            if err <? 0 then (true, s)
            else
              let '(pos, s) := on_dev (nt_lseek fd partoff) s in
              if pos <? 0 then (true, s)
              else
                let '(n, s) := on_dev (nt_write fd data) s in (negb (n =? zlen data), s) in
      nt_dbbt_loop k (i + 1) (partoff + ni_erasesz (nt_info_ s)) (if bad : bool then failed + 1 else failed) data s
  end.
Definition dbbt_erase_and_flash (mem : bool) (t : dbbt_t) (s : nt_t F) : Z * nt_t F :=
  if negb mem then (-1, s)
  else
    let '(failed, s) := nt_dbbt_loop (Z.to_nat BCB_CNT) 0 (u32 (BCB_CNT * ni_erasesz (nt_info_ s))) 0 (nt_dbbt_bytes t) s in
    (if failed =? BCB_CNT then -1 else 0, s).

(** [encode_bch_ecc size fcb] is the raw page with the error correction of the BCH library. *)
Context (encode_bch_ecc : Z -> bytes -> bytes).

Fixpoint nt_fcb_loop (k : nat) (i ppb raw failed : Z) (tbuf : bytes) (s : nt_t F) : Z * nt_t F :=
  match k with
  | O => (failed, s)
  | Datatypes.S k =>
      let '(bad, s) :=
        let '((err, sbuf), s) := nt_flashmng_readraw oid ((BCB_FCB_START + i * ppb) * raw) raw s in
        if err <? 0 then (true, s)
        else if bool_decide (sbuf = tbuf) then (false, s)
        else
          let '(err, s) := nt_flashmng_erase oid (BCB_FCB_START * ni_writesz (nt_info_ s) / ni_erasesz (nt_info_ s) + i) 1 s in
          if err <? 0 then (true, s)
          else
            let '(err, s) := flashmng_writeraw oid (BCB_FCB_START + i * ppb) tbuf s in
            if err <? 0 then (true, s)
            else
              let '((err, sbuf), s) := nt_flashmng_readraw oid ((BCB_FCB_START + i * ppb) * raw) raw s in
              if err <? 0 then (true, s) else (negb (bool_decide (sbuf = tbuf)), s) in
      nt_fcb_loop k (i + 1) ppb raw (if bad : bool then failed + 1 else failed) tbuf s
  end.
Definition fcb_erase_and_flash (mem : bool) (s : nt_t F) : option (Z * nt_t F) :=
  let i := nt_info_ s in
  if ni_writesz i =? 0 then None
  else if negb mem then Some (-1, s)
  else
    let raw := u32 (ni_writesz i + ni_metasz i) in
    let tbuf := encode_bch_ecc raw (nt_fcb_init i) in
    let '(failed, s) := nt_fcb_loop (Z.to_nat BCB_CNT) 0 (ni_erasesz i / ni_writesz i) raw 0 (255 :: tail tbuf) s in
    Some (if failed =? BCB_CNT then -1 else 0, s).

Definition nandtool_write_fcb (mem : bool) (s : nt_t F) : option (Z * nt_t F) :=
  '(err, s) ← fcb_erase_and_flash mem s; Some (if err <? 0 then err else 0, s).

(** The loop over the blocks of another device: the table, if there is one.  The index
    wraps, and the loop does not end, where there are [2 ^ 32] blocks or more. *)
Fixpoint bbscan_loop (fuel : nat) (dev offs idx : Z) (dbbt : option dbbt_t) (s : nt_t F) : option (option dbbt_t * nt_t F) :=
  match fuel with
  | O => None
  | Datatypes.S fuel =>
      if idx <? ni_size (nt_info_ s) / ni_erasesz (nt_info_ s) then
        let blockno := u32 (Z.quot offs (ni_erasesz (nt_info_ s)) + idx) in
        let '(bad, s) := flashmng_isbad dev idx s in
        dbbt ← (match dbbt with
                | Some t =>
                    if negb (bad =? 0) then
                      l ← wr (db_bad t) (db_entries t) blockno; Some (Some (Dbbt (db_entries t + 1) l))
                    else Some (Some t)
                | None => Some None
                end);
        if match dbbt with Some t => BCB_BB_MAX <=? db_entries t | None => false end then Some (dbbt, s)
        else bbscan_loop fuel dev offs (u32 (idx + 1)) dbbt s
      else Some (dbbt, s)
  end.
Definition nandtool_scan (dev : bytes) (dbbt : option dbbt_t) (s : nt_t F) : option (Z * option dbbt_t * nt_t F) :=
  let '((err, id), s) := on_dev (nt_lookup dev) s in
  if err <? 0 then Some (err, dbbt, s)
  else
    let '(ok, s) := flashmng_info id s in
    if negb ok then Some (- EFAULT, dbbt, s)
    else
      let '((err, offs), s) := nt_flashmng_getAttr atDev id s in
      if err <? 0 then Some (err, dbbt, s)
      else if ni_erasesz (nt_info_ s) =? 0 then None
      else
        '(dbbt, s) ← bbscan_loop (Datatypes.S (Z.to_nat (ni_size (nt_info_ s) / ni_erasesz (nt_info_ s)))) id offs 0 dbbt s;
        Some (match dbbt with Some t => if BCB_BB_MAX <=? db_entries t then -1 else 0 | None => 0 end, dbbt, s).

Fixpoint scan_devs (devs : list bytes) (dbbt : option dbbt_t) (s : nt_t F) : option (Z * option dbbt_t * nt_t F) :=
  match devs with
  | [] => Some (0, dbbt, s)
  | dev :: devs =>
      '(err, dbbt, s) ← nandtool_scan dev dbbt s;
      if err <? 0 then Some (err, dbbt, s) else scan_devs devs dbbt s
  end.

Definition nandtool_write_dbbt (mem : bool) (devs : list bytes) (s : nt_t F) : option (Z * nt_t F) :=
  if negb mem then Some (- ENOMEM, s)
  else
    '(err, dbbt, s) ← scan_devs devs (Some dbbt_new) s;
    if err <? 0 then Some (err, s)
    else
      match dbbt with
      | None => Some (0, s)
      | Some t => let '(err, s) := dbbt_erase_and_flash mem t s in Some (if err <? 0 then err else 0, s)
      end.

Definition nandtool_scan_only (devs : list bytes) (s : nt_t F) : option (Z * nt_t F) :=
  '(err, _, s) ← scan_devs devs None s; Some (err, s).
End nandtool.

(** ** The command line *)

Section main.
(** The bits of [unsigned long]. *)
Context (w : Z).

(** The start and the size; [None] is [-1]. *)
Definition nandtool_parseRange (str : bytes) : option (Z * Z) :=
  let '(start, rest) := default (0, str) (strtoul w str) in
  match rest with
  | [] => Some (s32 start, 1)
  | c :: rest =>
      if c =? 58 then
        match strtoul w rest with
        | Some (size, []) => Some (s32 start, s32 size)
        | _ => None
        end
      else None
  end.

(** [strtoll(s, &end, 0)]. *)
Definition strtoll (s : bytes) : option (Z * bytes) :=
  let '(neg, s) := number_sign (skip_spaces s) in
  let '(base, s) := number_base s in
  match s with
  | c :: _ =>
      match digit base c with
      | None => None
      | Some _ =>
          let '(v, rest) := digits base 0 s in
          let v := if neg then - v else v in
          Some (Z.max (- 2 ^ 63) (Z.min (2 ^ 63 - 1) v), rest)
      end
  | [] => None
  end.

(** The options: [None] for the paths not given, [-1] for the numbers. *)
Record nt_args := NtArgs {
  a_check : bool; a_raw : bool; a_flash_start : Z; a_erase : Z * Z; a_cleanmarkers : bool; a_dump : Z * Z; a_oob : bool;
  a_digest : Z; a_write_fcb : bool; a_write_dbbt : bool; a_scan : list bytes; a_ipath : option bytes; a_opath : option bytes }.
Definition nt_args_default : nt_args := NtArgs false false (-1) (-1, -1) false (-1, -1) false (-1) false false [] None None.

(** The results of [getopt]; [inr] is the exit code of an error or of the help. *)
Fixpoint nt_parse (opts : list (Z * bytes)) (a : nt_args) : nt_args + Z :=
  match opts with
  | [] => inl a
  | (c, arg) :: opts =>
      let '(NtArgs check raw fs er cm du oob dig fcb dbbt scan ip op) := a in
      if c =? 110 then
        match strtoll arg with
        | Some (v, []) => if v <? 0 then inr 1 else nt_parse opts (NtArgs check raw fs er cm du oob v fcb dbbt scan ip op)
        | _ => inr 1
        end
      else if c =? 101 then
        match nandtool_parseRange arg with Some r => nt_parse opts (NtArgs check raw fs r cm du oob dig fcb dbbt scan ip op) | None => inr 1 end
      else if c =? 100 then
        match nandtool_parseRange arg with Some r => nt_parse opts (NtArgs check raw fs er cm r oob dig fcb dbbt scan ip op) | None => inr 1 end
      else if c =? 102 then nt_parse opts (NtArgs check raw fs er cm du oob dig true dbbt scan ip op)
      else if c =? 116 then nt_parse opts (NtArgs check raw fs er cm du oob dig fcb true scan ip op)
      else if c =? 108 then
        if SCAN_DEVICES_MAX_CNT <=? zlen scan then inr 1
        else nt_parse opts (NtArgs check raw fs er cm du oob dig fcb dbbt (scan ++ [arg]) ip op)
      else if c =? 106 then nt_parse opts (NtArgs check raw fs er true du oob dig fcb dbbt scan ip op)
      else if c =? 111 then nt_parse opts (NtArgs check raw fs er cm du oob dig fcb dbbt scan ip (Some arg))
      else if c =? 105 then nt_parse opts (NtArgs check raw fs er cm du oob dig fcb dbbt scan (Some arg) op)
      else if c =? 98 then nt_parse opts (NtArgs check raw fs er cm du true dig fcb dbbt scan ip op)
      else if c =? 114 then nt_parse opts (NtArgs check true fs er cm du oob dig fcb dbbt scan ip op)
      else if c =? 115 then nt_parse opts (NtArgs check raw (s32 (default 0 (fst <$> strtoul w arg))) er cm du oob dig fcb dbbt scan ip op)
      else if c =? 99 then nt_parse opts (NtArgs true raw fs er cm du oob dig fcb dbbt scan ip op)
      else if c =? 113 then nt_parse opts a
      else inr 0
  end.

Context {F : Type} `{NtOps F} (writemeta writeraw atSize atDev : Z) (encode_bch_ecc : Z -> bytes -> bytes).
Context {Sha : Type} (sha_init : Sha) (sha_process : Sha -> bytes -> Sha) (sha_done : Sha -> bytes).

(** The real paths of the devices to scan. *)
Fixpoint real_paths (devs : list bytes) (f : F) : option (list bytes) * F :=
  match devs with
  | [] => (Some [], f)
  | d :: devs =>
      let '(r, f) := nt_realpath d f in
      match r with
      | None => (None, f)
      | Some r => let '(rs, f) := real_paths devs f in (cons r <$> rs, f)
      end
  end.

(** A step of the [do] block that is taken where [b] says so; an error leaves it. *)
Definition nt_step (b : bool) (op : nt_t F -> option (Z * nt_t F)) (k : Z -> nt_t F -> option (Z * nt_t F)) (err : Z) (s : nt_t F) : option (Z * nt_t F) :=
  if b then '(err, s) ← op s; if err <? 0 then Some (err, s) else k err s else k err s.

(** The steps, and the digest that is printed. *)
Definition nt_actions (fuel : nat) (a : nt_args) (oid fd err : Z) (s : nt_t F) : option (Z * option bytes * nt_t F) :=
  '(err, s) ← nt_step (a_check a) (nandtool_check atSize oid)
    (nt_step ((0 <=? fst (a_erase a)) && (0 <=? snd (a_erase a))) (nandtool_erase writemeta atSize oid (fst (a_erase a)) (snd (a_erase a)) (a_cleanmarkers a))
      (nt_step ((0 <=? a_flash_start a) && bool_decide (is_Some (a_ipath a)))
         (nandtool_flash writeraw atSize oid fd fuel true (default [] (a_ipath a)) (a_flash_start a) (a_raw a)) (fun err s => Some (err, s)))) err s;
  if err <? 0 then Some (err, None, s)
  else
    '(err, line, s) ← (if 0 <=? a_digest a then nandtool_sha256 atSize oid fd sha_init sha_process sha_done true (a_digest a) (if 0 <=? a_flash_start a then a_flash_start a else 0) s
                       else Some (err, None, s));
    if err <? 0 then Some (err, line, s)
    else
      '(err, s) ← nt_step (a_write_fcb a) (nandtool_write_fcb writeraw atSize oid encode_bch_ecc true)
        (nt_step (a_write_dbbt a) (nandtool_write_dbbt atSize atDev oid fd true (a_scan a))
          (nt_step (negb (a_write_dbbt a) && (0 <? zlen (a_scan a))) (nandtool_scan_only atSize atDev (a_scan a)) (fun err s => Some (err, s)))) err s;
      Some (err, line, s).

(** The exit code and what is printed; [args] are the other arguments. *)
Definition nandtool_main (fuel : nat) (opts : list (Z * bytes)) (args : list bytes) (f : F) : option (Z * option bytes * F) :=
  match nt_parse opts nt_args_default with
  | inr code => Some (code, None, f)
  | inl a =>
      match args with
      | [] => Some (1, None, f)
      | arg :: _ =>
          let '(dev, f) := nt_realpath arg f in
          match dev with
          | None => Some (1, None, f)
          | Some dev =>
              let '(devs, f) := real_paths (a_scan a) f in
              match devs with
              | None => Some (1, None, f)
              | Some devs =>
                  let a := NtArgs (a_check a) (a_raw a) (a_flash_start a) (a_erase a) (a_cleanmarkers a) (a_dump a) (a_oob a) (a_digest a)
                             (a_write_fcb a) (a_write_dbbt a) devs (a_ipath a) (a_opath a) in
                  let '((err, oid), f) := nt_lookup dev f in
                  if err <? 0 then Some (1, None, f)
                  else
                    let '(fd, f) := nt_open dev f in
                    if fd <? 0 then Some (1, None, f)
                    else
                      let '(ok, s) := flashmng_info atSize oid (nt_start f) in
                      if negb ok then Some (1, None, nt_close fd (nt_f s))
                      else
                        '(err, line, s) ← nt_actions fuel a oid fd fd s;
                        '(_, s) ← (if (0 <=? fst (a_dump a)) && bool_decide (is_Some (a_opath a))
                                   then nandtool_dump atSize oid fd fuel true (default [] (a_opath a)) (fst (a_dump a)) (snd (a_dump a)) (a_oob a) s
                                   else Some (0, s));
                        Some (if err <? 0 then 1 else 0, line, nt_close fd (nt_f s))
              end
          end
      end
  end.
End main.
