(* ===== verification/NandtoolSpec.v ===== *)
(** * What the NAND tool writes and reads back

    A partition as pages in good and bad blocks, with the documented behaviour of its
    file, its flash server and the other files.  A file that is flashed ends on the good
    pages in order; the digest that is read back is that of the file. *)

From S2P Require Import Prelude.
From S2P Require Import Clib.
From S2P Require Import Pages.
From S2P Require Import Psd.
From S2P Require Import Nandtool.

(** ** A partition and its laws *)

(** The position of the partition's file, the pages, those that can be read, the bad
    blocks, the other files, and the one of them that is open: its descriptor, its
    contents and what is left to read. *)
Class NtView (F : Type) := {
  nv_pos : F -> Z;
  nv_page : F -> Z -> bytes;
  nv_ok : F -> Z -> bool;
  nv_bad : F -> Z -> bool;
  nv_path : F -> bytes -> option bytes;
  nv_src : F -> option (Z * bytes * bytes);
}.

Record nt_same {F} `{NtView F} (f f' : F) : Prop := {
  same_page : forall q, nv_page f' q = nv_page f q;
  same_ok : forall q, nv_ok f' q = nv_ok f q;
  same_bad : forall b, nv_bad f' b = nv_bad f b;
  same_path : forall p, nv_path f' p = nv_path f p;
}.

Lemma nt_same_refl `{NtView F} (f : F) : nt_same f f.
Proof. by split. Qed.

Lemma nt_same_trans `{NtView F} (f g h : F) : nt_same f g -> nt_same g h -> nt_same f h.
Proof. intros [] []. split; intros; congruence. Qed.

(** The bytes of a block of [ppb] pages. *)
Definition nv_block `{NtView F} (ppb : Z) (f : F) (b : Z) : bytes := concat (nv_page f <$> seqZ (b * ppb) ppb).

(** A partition of [nb] blocks of [ppb] pages: reads of the partition and of files may be
    short; a page that was never written may not be readable. *)
Class NtLaws (F : Type) `{NtOps F, NtView F} (info : nt_info) (oid fd nb ppb : Z) : Prop := {
  nl_isbad f b : 0 <= b < nb -> exists r f',
    nt_msg oid (NtIsBad (b * ni_erasesz info)) f = (r, f') /\ nt_same f f' /\ nv_pos f' = nv_pos f /\ nv_src f' = nv_src f /\
    0 <= nr_ret r /\ nr_err r = (if nv_bad f b then 1 else 0);
  nl_seek f o : 0 <= o -> exists f',
    nt_lseek fd o f = (o, f') /\ nt_same f f' /\ nv_pos f' = o /\ nv_src f' = nv_src f;
  nl_write f q data : 0 <= q < nb * ppb -> nv_pos f = q * ni_writesz info -> zlen data = ni_writesz info ->
    nv_bad f (q * ni_writesz info / ni_erasesz info) = false -> exists f',
    nt_write fd data f = (ni_writesz info, f') /\ nv_page f' q = data /\
    (forall q', q' <> q -> nv_page f' q' = nv_page f q') /\ (forall q', nv_ok f' q' = (q' =? q) || nv_ok f q') /\
    (forall b, nv_bad f' b = nv_bad f b) /\ (forall p, nv_path f' p = nv_path f p) /\ nv_src f' = nv_src f;
  nl_read f b o n : 0 <= b < nb -> nv_bad f b = false -> nv_pos f = b * ni_erasesz info + o -> 0 <= o -> 0 < n ->
    o + n <= ni_erasesz info -> (forall q, b * ppb <= q -> q * ni_writesz info < b * ni_erasesz info + o + n -> nv_ok f q = true) ->
    exists k f', nt_read fd n f = ((k, take (Z.to_nat k) (drop (Z.to_nat o) (nv_block ppb f b))), f') /\ 0 < k <= n /\
    nt_same f f' /\ nv_pos f' = nv_pos f + k;
  nl_page f q : 0 <= q < nb * ppb -> zlen (nv_page f q) = ni_writesz info;
  nl_open f p c : nv_path f p = Some c -> exists ifd f',
    nt_open p f = (ifd, f') /\ 0 <= ifd /\ nt_same f f' /\ nv_src f' = Some (ifd, c, c);
  nl_fstat f ifd c rest : nv_src f = Some (ifd, c, rest) -> exists f',
    nt_fstat ifd f = (Some (zlen c), f') /\ nt_same f f' /\ nv_src f' = nv_src f;
  nl_src f ifd c rest n : nv_src f = Some (ifd, c, rest) -> 0 < n -> exists k f',
    nt_read ifd n f = ((k, take (Z.to_nat k) rest), f') /\ 0 <= k <= n /\ k <= zlen rest /\ (rest <> [] -> 0 < k) /\
    nt_same f f' /\ nv_src f' = Some (ifd, c, drop (Z.to_nat k) rest);
  nl_close f d : nt_same f (nt_close d f);
}.

(** The partition as the program finds it: its path, and what the server says of it. *)
Class NtDevice (F : Type) `{NtOps F, NtView F} (info : nt_info) (oid fd atSize : Z) (arg dev : bytes) : Prop := {
  nd_realpath f : exists f', nt_realpath arg f = (Some dev, f') /\ nt_same f f';
  nd_lookup f : exists e f', nt_lookup dev f = ((e, oid), f') /\ 0 <= e /\ nt_same f f';
  nd_open f : exists f', nt_open dev f = (fd, f') /\ nt_same f f';
  nd_info f : exists r f', nt_msg oid NtInfo f = (r, f') /\ nt_same f f' /\ 0 <= nr_ret r /\ 0 <= nr_err r /\
    ni_writesz (nr_info r) = ni_writesz info /\ ni_erasesz (nr_info r) = ni_erasesz info /\ ni_metasz (nr_info r) = ni_metasz info;
  nd_size f : exists r f', nt_msg oid (NtGetAttr atSize) f = (r, f') /\ nt_same f f' /\ 0 <= nr_ret r /\ 0 <= nr_err r /\
    nr_val r = ni_size info;
}.

Section spec.
Context {F : Type} `{NtLaws F info oid fd nb ppb} (writeraw atSize : Z).
Context (Hws : 0 < ni_writesz info) (Hppb : 0 < ppb) (Hes : ni_erasesz info = ppb * ni_writesz info)
        (Hsize : ni_size info = nb * ni_erasesz info) (Hnb : 0 <= nb) (Hmax : nb * ni_erasesz info < 4294967296).
#[local] Abbreviation ws := (ni_writesz info).
#[local] Abbreviation es := (ni_erasesz info).
#[local] Abbreviation good := (good_pages ws es nb ppb).
#[local] Abbreviation st := (Nt oid info).

Lemma block_fits b : 0 <= b < nb -> u32 (b * es) = b * es.
Proof. intros. apply u32_small. nia. Qed.

Lemma isbad_eq (f : F) b : 0 <= b < nb -> exists f',
  flashmng_isbad atSize oid b (st f) = (if nv_bad f b then 1 else 0, st f') /\
  nt_same f f' /\ nv_pos f' = nv_pos f /\ nv_src f' = nv_src f.
Proof.
  intros Hb. destruct (nl_isbad f b Hb) as (r & f' & E & Hs & Hp & Hsrc & Hr & He).
  exists f'. split; [|done]. unfold flashmng_isbad, flashmng_info. simpl. rewrite Z.eqb_refl. simpl.
  rewrite block_fits by done. unfold on_dev. simpl. rewrite E. unfold reply_err.
  destruct (Z.ltb_spec (nr_ret r) 0); [lia|]. by rewrite He.
Qed.

(** ** Flashing *)

Lemma fill_page_ok ifd c : forall fuel rest pre err (f : F),
  zlen pre <= ws -> (Z.to_nat (ws - zlen pre) < fuel)%nat -> 0 <= err -> nv_src f = Some (ifd, c, rest) -> exists e f',
  let m := Z.to_nat (ws - zlen pre) in
  fill_page fuel ifd ws (zlen pre) err (page0 ws pre) (st f)
  = Some (e, zlen pre + zlen (take m rest), page0 ws (pre ++ take m rest), st f') /\
  0 <= e /\ nt_same f f' /\ nv_src f' = Some (ifd, c, drop m rest).
Proof.
  induction fuel as [|fuel IH]; intros rest pre err f Hpre Hfuel Herr Hsrc; [lia|]. simpl.
  destruct (Z.ltb_spec (zlen pre) ws) as [Hlt|Hge].
  - destruct (nl_src f ifd c rest (ws - zlen pre) Hsrc) as (k & f1 & E & Hk & Hkr & Hpos & Hs1 & Hsrc1); [lia|].
    unfold on_dev, set_dev. simpl. rewrite E. simpl. destruct (Z.leb_spec k 0).
    + destruct (decide (rest = [])) as [->|Hne]; [|specialize (Hpos Hne); lia].
      destruct (Z.ltb_spec k 0); [lia|]. exists k, f1. rewrite take_nil, drop_nil, app_nil_r.
      change (zlen []) with 0. rewrite Z.add_0_r. split; [done|]. split; [lia|]. split; [done|]. by rewrite drop_nil in Hsrc1.
    + set (data := take (Z.to_nat k) rest) in *.
      assert (Hd : zlen data = k) by (unfold data; rewrite zlen_take; lia).
      assert (Hw : wr_range (page0 ws pre) (zlen pre) data = Some (page0 ws (pre ++ data))).
      { unfold page0. rewrite <- (assoc_L (++)). rewrite (zlen_app pre data), Hd.
        replace (Z.to_nat (ws - zlen pre)) with (Z.to_nat k + Z.to_nat (ws - (zlen pre + k)))%nat by lia.
        rewrite replicate_add. apply wr_range_app; [done|]. zlia. }
      rewrite Hw. simpl. rewrite <- Hd, <- zlen_app.
      destruct (IH (drop (Z.to_nat k) rest) (pre ++ data) (zlen data) f1) as (e & f' & E' & He & Hs & Hsrc');
        [zlia|zlia|lia|done|].
      exists e, f'. simpl in E'. rewrite E'.
      assert (Em : take (Z.to_nat (ws - zlen pre)) rest = data ++ take (Z.to_nat (ws - zlen (pre ++ data))) (drop (Z.to_nat k) rest)).
      { rewrite zlen_app, Hd. unfold data. rewrite take_take_drop. f_equal. lia. }
      rewrite Em. rewrite <- (assoc_L (++)). split; [rewrite !zlen_app; do 4 f_equal; lia|]. split; [done|].
      split; [by eapply nt_same_trans|]. rewrite Hsrc', drop_drop. do 3 f_equal. rewrite zlen_app. lia.
  - exists err, f. replace (Z.to_nat (ws - zlen pre)) with 0%nat by lia. simpl. rewrite take_0, app_nil_r.
    change (zlen []) with 0. rewrite Z.add_0_r. by split_and!.
Qed.

Lemma write_page_eq (f : F) q data : 0 <= q < nb * ppb -> nv_bad f (q / ppb) = false -> zlen data = ws -> exists f',
  flash_page writeraw atSize oid fd false q ws data (st f) = (ws, false, st f') /\ nv_page f' q = data /\
  (forall q', q' <> q -> nv_page f' q' = nv_page f q') /\ (forall q', nv_ok f' q' = (q' =? q) || nv_ok f q') /\
  (forall b, nv_bad f' b = nv_bad f b) /\ (forall p, nv_path f' p = nv_path f p) /\ nv_src f' = nv_src f.
Proof.
  intros Hq Hb Hd. unfold flash_page, on_dev, set_dev. simpl.
  destruct (nl_seek f (q * ws)) as (f1 & -> & [Hs1 Hs2 Hs3 Hs4] & Hp1 & Hsrc1); [nia|].
  destruct (Z.ltb_spec (q * ws) 0); [nia|]. simpl.
  destruct (nl_write f1 q data Hq Hp1 Hd) as (f2 & -> & Hpg & Hot & Hok & Hbad & Hpath & Hsrc2).
  { by rewrite (page_block Hws Hppb Hes), Hs3. }
  rewrite Z.eqb_refl. simpl. exists f2. split_and!; [done|done|..]; intros; try congruence. by rewrite Hot, Hs1.
Qed.

(** What has become of the pages: [L] are those that were free, [data] is what was to be
    written. *)
Definition flashed (f f' : F) (L : list Z) (data : bytes) : Prop :=
  placed (nv_page f) (nv_page f') L (file_pages ws data) /\
  (forall q, nv_ok f q = true \/ q ∈ take (npages ws data) L -> nv_ok f' q = true) /\
  (forall b, nv_bad f' b = nv_bad f b) /\ (forall p, nv_path f' p = nv_path f p).

Lemma flashed_same f0 f f' f2 L data : nt_same f0 f -> nt_same f' f2 -> flashed f f' L data -> flashed f0 f2 L data.
Proof.
  intros [A1 A2 A3 A4] [B1 B2 B3 B4] (C1 & C2 & C3 & C4).
  split; [by apply placed_ext with (nv_page f) (nv_page f')|]. split_and!; intros.
  - rewrite B2. apply C2. by rewrite A2.
  - by rewrite B3, C3, A3.
  - by rewrite B4, C4, A4.
Qed.

Lemma flashed_cons f f1 f2 q L data : data <> [] -> q ∉ L -> nv_page f1 q = page0 ws (take (Z.to_nat ws) data) ->
  (forall q', q' <> q -> nv_page f1 q' = nv_page f q') -> (forall q', nv_ok f1 q' = (q' =? q) || nv_ok f q') ->
  (forall b, nv_bad f1 b = nv_bad f b) -> (forall p, nv_path f1 p = nv_path f p) ->
  flashed f1 f2 L (drop (Z.to_nat ws) data) -> flashed f f2 (q :: L) data.
Proof.
  intros Hd Hq Hpg Hot Hok Hbad Hpath (A1 & A2 & A3 & A4). unfold flashed.
  rewrite npages_cons, file_pages_cons by done. split; [by apply placed_cons with (nv_page f1)|]. split_and!.
  - intros q' Hq'. apply A2. rewrite Hok. destruct (Z.eqb_spec q' q) as [|Hne]; [by left|].
    destruct Hq' as [->|Hin]; [by left|]. right. simpl in Hin. by apply elem_of_cons in Hin as [|].
  - intros b. by rewrite A3.
  - intros p. by rewrite A4.
Qed.

Lemma flash_loop_ok ifd c : zlen c < 4294967296 -> forall fuel (f : F) p j rest offs err,
  (Z.to_nat (nb * ppb - p) < fuel)%nat -> 0 <= j <= p -> p <= nb * ppb -> 0 <= err -> nv_src f = Some (ifd, c, rest) ->
  offs + zlen rest = zlen c -> (rest <> [] -> offs = j * ws) -> 0 <= offs ->
  (npages ws rest <= length (good (nv_bad f) p))%nat -> exists e f',
  flash_loop writeraw atSize oid fd fuel false ifd ppb ws (zlen c) (p - j) offs err (st f) = Some (e, st f') /\
  0 <= e /\ flashed f f' (good (nv_bad f) p) rest.
Proof.
  intros Hc. induction fuel as [|fuel IH]; intros f p j rest offs err Hfuel Hj Hp Herr Hsrc Hoffs Hj2 Hoffs0 Hlen; [lia|].
  destruct (decide (rest = [])) as [->|Hne].
  { change (zlen []) with 0 in Hoffs. simpl. destruct (Z.ltb_spec offs (zlen c)); [lia|].
    exists err, f. split; [done|]. split; [done|]. unfold flashed. rewrite npages_nil, file_pages_nil by done.
    split; [by apply placed_nil|]. split_and!; try done. intros q [?|Hq]; [done|]. by apply not_elem_of_nil in Hq. }
  rewrite npages_cons in Hlen by done. specialize (Hj2 Hne).
  assert (Hp2 : p < nb * ppb).
  { destruct (decide (p < nb * ppb)); [done|]. rewrite good_pages_end in Hlen by lia. simpl in Hlen. lia. }
  assert (Hpages : nb * ppb < 4294967296) by nia.
  cbn [flash_loop]. destruct (Z.ltb_spec offs (zlen c)); [|destruct rest; [done|zlia]].
  destruct (Z.eqb_spec ppb 0); [lia|]. destruct (Z.eqb_spec ws 0); [lia|]. cbn [orb].
  rewrite Hj2, Z.div_mul by lia. replace (p - j + j) with p by lia. rewrite (u32_small p) by lia.
  destruct (page_in Hws Hppb Hes Hnb p) as [_ Hblk]; [lia..|].
  destruct (isbad_eq f (p / ppb) Hblk) as (f1 & E & Hs1 & _ & Hsrc1). rewrite E.
  destruct (nv_bad f (p / ppb)) eqn:Eb.
  - change (1 <? 0) with false. change (0 <? 1) with true. cbn iota. rewrite u32_small by lia.
    replace (p - j + 1) with (p + 1 - j) by lia. rewrite <- Hj2.
    assert (Hg : good (nv_bad f) p = good (nv_bad f1) (p + 1)).
    { rewrite (good_pages_ext (nv_bad f) (nv_bad f1)) by apply Hs1. apply good_pages_skip; [lia|]. by rewrite (page_block Hws Hppb Hes). }
    rewrite Hg in *.
    destruct (IH f1 (p + 1) j rest offs 1) as (e & f' & E' & He & Hfl);
      [lia|lia|lia|lia|by rewrite Hsrc1|done|done|done|by rewrite npages_cons|].
    exists e, f'. split; [done|]. split; [done|]. by eapply flashed_same; [done|apply nt_same_refl|].
  - change (0 <? 0) with false. cbn iota.
    destruct (fill_page_ok ifd c (S (Z.to_nat ws)) rest [] 0 f1) as (e1 & f2 & E2 & He1 & Hs2 & Hsrc2);
      [zlia|zlia|lia|by rewrite Hsrc1|].
    change (zlen []) with 0 in *. unfold page0 in E2. cbn [app] in E2. change (zlen []) with 0 in E2. rewrite Z.sub_0_r in *.
    rewrite E2. cbn [mbind option_bind]. destruct (Z.ltb_spec e1 0); [lia|].
    set (data := take (Z.to_nat ws) rest) in *.
    destruct (write_page_eq f2 p (page0 ws data)) as (f3 & E3 & Hpg & Hot & Hok & Hbad & Hpath & Hsrc3);
      [lia|by rewrite (same_bad _ _ Hs2), (same_bad _ _ Hs1)|apply page0_zlen; unfold data; zlia|].
    change (data ++ replicate (Z.to_nat (ws - zlen data)) 0) with (page0 ws data). rewrite E3. assert (Hd : zlen data + zlen (drop (Z.to_nat ws) rest) = zlen rest) by (unfold data; zlia).
    rewrite u32_small by zlia. rewrite <- Hj2, Z.add_0_l.
    assert (Hg : good (nv_bad f) p = p :: good (nv_bad f3) (p + 1)).
    { rewrite good_pages_cons; [|done|by rewrite (page_block Hws Hppb Hes)]. f_equal. apply good_pages_ext.
      intros b. by rewrite Hbad, (same_bad _ _ Hs2), (same_bad _ _ Hs1). }
    rewrite Hg in *. simpl in Hlen. replace (p - j) with (p + 1 - (j + 1)) by lia.
    destruct (IH f3 (p + 1) (j + 1) (drop (Z.to_nat ws) rest) (offs + zlen data) ws) as (e & f' & E' & He & Hfl);
      [lia|lia|lia|lia|by rewrite Hsrc3|lia| |zlia|lia|].
    { intros Hne2. unfold data. rewrite zlen_take. assert (0 < zlen (drop (Z.to_nat ws) rest)) by (destruct (drop _ _); [done|zlia]). zlia. }
    exists e, f'. split; [done|]. split; [done|].
    apply flashed_cons with f3; try done.
    + intros ?%good_pages_ge. lia.
    + intros q' Hne'. by rewrite Hot, (same_page _ _ Hs2), (same_page _ _ Hs1).
    + intros q'. by rewrite Hok, (same_ok _ _ Hs2), (same_ok _ _ Hs1).
    + intros b. by rewrite Hbad, (same_bad _ _ Hs2), (same_bad _ _ Hs1).
    + intros q'. by rewrite Hpath, (same_path _ _ Hs2), (same_path _ _ Hs1).
Qed.

(** A file that fits on the good pages from a block on ends there, page by page. *)
Lemma flash_ok fuel path c start (f : F) :
  nv_path f path = Some c -> zlen c < 4294967296 -> 0 <= start <= nb ->
  (npages ws c <= length (good (nv_bad f) (start * ppb)))%nat -> (Z.to_nat (nb * ppb) < fuel)%nat -> exists f',
  nandtool_flash writeraw atSize oid fd fuel true path start false (st f) = Some (0, st f') /\
  flashed f f' (good (nv_bad f) (start * ppb)) c.
Proof.
  intros Hpath Hc Hstart Hlen Hfuel. unfold nandtool_flash. cbn [nt_info_]. destruct (Z.eqb_spec ws 0); [lia|].
  assert (Hn : es / ws = ppb) by (rewrite Hes, Z.div_mul; lia). rewrite Hn.
  destruct (nl_open f path c Hpath) as (ifd & f1 & E1 & Hifd & Hs1 & Hsrc1).
  unfold on_dev, set_dev. cbn [nt_f nt_cached nt_info_]. rewrite E1. destruct (Z.ltb_spec ifd 0); [lia|]. cbn [negb].
  destruct (nl_fstat f1 ifd c c Hsrc1) as (f2 & E2 & Hs2 & Hsrc2). cbn [nt_f nt_cached nt_info_]. rewrite E2.
  rewrite u32_small by nia.
  assert (Hg : good (nv_bad f) (start * ppb) = good (nv_bad f2) (start * ppb)).
  { apply good_pages_ext. intros b. by rewrite (same_bad _ _ Hs2), (same_bad _ _ Hs1). }
  rewrite Hg in *.
  destruct (flash_loop_ok ifd c Hc fuel f2 (start * ppb) 0 c 0 0) as (e & f3 & E3 & He & Hfl);
    [lia|nia|nia|lia|by rewrite Hsrc2|lia|lia|lia|done|].
  rewrite Z.sub_0_r in E3. rewrite E3. cbn [mbind option_bind]. destruct (Z.ltb_spec e 0); [lia|].
  eexists. split; [reflexivity|]. eapply flashed_same; [|by apply nl_close|done]. by eapply nt_same_trans.
Qed.

(** ** Reading back *)

Lemma zlen_pages (f : F) (l : list Z) : (forall q, q ∈ l -> 0 <= q < nb * ppb) -> zlen (concat (nv_page f <$> l)) = zlen l * ws.
Proof.
  induction l as [|q l IH]; intros Hl; [done|]. rewrite fmap_cons. cbn [concat]. rewrite zlen_app, zlen_cons, (nl_page (info := info)) by (apply Hl; left).
  rewrite IH by (intros; apply Hl; by right). lia.
Qed.

Lemma block_zlen (f : F) b : 0 <= b < nb -> zlen (nv_block ppb f b) = es.
Proof.
  intros Hb. unfold nv_block. rewrite zlen_pages.
  - unfold zlen. rewrite length_seqZ, Hes. lia.
  - intros q Hq%elem_of_seqZ. nia.
Qed.

Lemma block_same (f f' : F) b : nt_same f f' -> nv_block ppb f' b = nv_block ppb f b.
Proof. intros Hs. unfold nv_block. f_equal. apply list_fmap_ext. intros; apply Hs. Qed.

Lemma read_block_ok b len : 0 <= b < nb -> len <= es -> forall fuel o pre old (f : F),
  (Z.to_nat (len - o) < fuel)%nat -> 0 <= o <= len -> nv_bad f b = false -> nv_pos f = b * es + o ->
  (forall q, b * ppb <= q -> q * ws < b * es + len -> nv_ok f q = true) ->
  pre = take (Z.to_nat o) (nv_block ppb f b) -> zlen (pre ++ old) = es -> exists old' f',
  read_block fd fuel len o (pre ++ old) (st f) = Some (0, take (Z.to_nat len) (nv_block ppb f b) ++ old', st f') /\
  zlen (take (Z.to_nat len) (nv_block ppb f b) ++ old') = es /\ nt_same f f'.
Proof.
  intros Hb Hlen. induction fuel as [|fuel IH]; intros o pre old f Hfuel Ho Hbad Hpos Hok Hpre Hl; [lia|]. simpl.
  destruct (Z.ltb_spec o len) as [Hlt|Hge].
  - destruct (nl_read f b o (len - o)) as (k & f1 & E & Hk & Hs & Hp1); [done|done|done|lia|lia|lia| |].
    { intros q Hq Hq2. apply Hok; [done|]. lia. }
    unfold on_dev, set_dev. simpl. rewrite E. destruct (Z.leb_spec k 0); [lia|].
    set (data := take (Z.to_nat k) (drop (Z.to_nat o) (nv_block ppb f b))).
    pose proof (block_zlen f b Hb) as Hbz.
    assert (Hd : zlen data = k) by (unfold data; zlia).
    assert (Hpl : zlen pre = o) by (rewrite Hpre; zlia).
    destruct (list_split_at old k) as (mid & old2 & -> & Hmid); [zlia|].
    rewrite wr_range_app by lia. simpl. rewrite (assoc_L (++)).
    destruct (IH (o + k) (pre ++ data) old2 f1) as (old' & f' & E' & Hz & Hs'); [lia|lia|by rewrite (same_bad _ _ Hs)|lia| | | |].
    { intros q. rewrite (same_ok _ _ Hs). apply Hok. }
    { rewrite (block_same f) by done. rewrite Hpre. unfold data. rewrite take_take_drop. f_equal. lia. }
    { zlia. }
    rewrite (block_same f) in E', Hz by done. exists old', f'. split; [done|]. split; [done|]. by eapply nt_same_trans.
  - assert (o = len) as -> by lia. exists old, f. rewrite <- Hpre. split; [done|]. split; [done|]. apply nt_same_refl.
Qed.

(** What a file of [size] bytes reads like from page [p] on, and that it can be read. *)
Definition image (f : F) (p size : Z) : bytes := take (Z.to_nat size) (concat (nv_page f <$> good (nv_bad f) p)).
Definition pages_for (size : Z) : nat := Z.to_nat ((size + ws - 1) / ws).
Definition readable (f : F) (p size : Z) : Prop :=
  size <= zlen (concat (nv_page f <$> good (nv_bad f) p)) /\
  forall q, q ∈ take (pages_for size) (good (nv_bad f) p) -> nv_ok f q = true.

Lemma image_same (f f' : F) p size : nt_same f f' -> image f' p size = image f p size /\ (readable f p size -> readable f' p size).
Proof.
  intros Hs. unfold image, readable. rewrite (good_pages_ext (nv_bad f) (nv_bad f')) by apply Hs.
  rewrite (list_fmap_ext (nv_page f') (nv_page f)) by (intros; apply Hs).
  split; [done|]. intros [Hr1 Hr2]. split; [done|]. intros q Hq. rewrite (same_ok _ _ Hs). by apply Hr2.
Qed.

Lemma image_bad (f : F) b size : 0 <= b < nb -> nv_bad f b = true ->
  image f (b * ppb) size = image f ((b + 1) * ppb) size /\ (readable f (b * ppb) size -> readable f ((b + 1) * ppb) size).
Proof. intros Hb Hbad. unfold image, readable. by rewrite (good_pages_bad Hws Hppb Hes Hnb (nv_bad f) b). Qed.

(** The bytes of whole pages that are read of a block for [size] bytes. *)
Lemma read_len size : 0 < size ->
  (if size <? es then (size + ws - 1) / ws * ws else es) = Z.min es ((size + ws - 1) / ws * ws) /\
  size <= (size + ws - 1) / ws * ws.
Proof.
  intros Hs. assert (Hr : size <= (size + ws - 1) / ws * ws) by (pose proof (Z.div_mod (size + ws - 1) ws); pose proof (Z.mod_pos_bound (size + ws - 1) ws); lia).
  split; [|done]. destruct (Z.ltb_spec size es); [|lia]. rewrite Z.min_r; [done|].
  rewrite Hes. apply Z.mul_le_mono_nonneg_r; [lia|]. apply Z.lt_succ_r, Z.div_lt_upper_bound; lia.
Qed.

Lemma pages_for_more size : es <= size -> pages_for size = (Z.to_nat ppb + pages_for (size - es))%nat.
Proof.
  intros. unfold pages_for. replace (size + ws - 1) with ((size - es + ws - 1) + ppb * ws) by lia.
  rewrite Z.div_add by lia. assert (0 <= (size - es + ws - 1) / ws) by (apply Z.div_pos; lia). lia.
Qed.

(** A good block: the pages that are needed of it, and what is left for the others. *)
Lemma image_good (f : F) b size : 0 <= b < nb -> nv_bad f b = false -> 0 < size -> readable f (b * ppb) size ->
  let c := Z.min es size in
  image f (b * ppb) size = take (Z.to_nat c) (nv_block ppb f b) ++ image f ((b + 1) * ppb) (size - c) /\
  readable f ((b + 1) * ppb) (size - c) /\
  (forall q, b * ppb <= q -> q * ws < b * es + Z.min es ((size + ws - 1) / ws * ws) -> nv_ok f q = true).
Proof.
  intros Hb Hbad Hpos [Hr1 Hr2] c. unfold image, readable. rewrite good_pages_split, Hbad in * by done.
  set (G := good (nv_bad f) ((b + 1) * ppb)) in *. rewrite fmap_app, concat_app in *.
  change (concat (nv_page f <$> seqZ (b * ppb) ppb)) with (nv_block ppb f b) in *.
  pose proof (block_zlen f b Hb) as Hz. rewrite zlen_app, Hz in Hr1. split_and!.
  - rewrite take_app. f_equal; [|f_equal; unfold zlen in Hz; lia].
    destruct (decide (size <= es)); [by replace c with size by lia|]. rewrite !take_ge; [done|unfold zlen in Hz; lia..].
  - pose proof (zlen_nonneg (concat (nv_page f <$> G))). lia.
  - intros q Hq. destruct (decide (es <= size)) as [Hle|].
    + apply Hr2. rewrite pages_for_more by done. rewrite take_app, length_seqZ.
      apply elem_of_app. right. replace c with es in Hq by lia.
      by replace (_ - Z.to_nat ppb)%nat with (pages_for (size - es)) by lia.
    + replace (size - c) with 0 in Hq by lia. unfold pages_for in Hq.
      rewrite Z.div_small in Hq by lia. by apply not_elem_of_nil in Hq.
  - intros q Hq1 Hq2. apply Hr2. apply list_elem_of_lookup. exists (Z.to_nat (q - b * ppb)).
    assert (q - b * ppb < ppb) by (rewrite Hes in Hq2; nia).
    assert (q - b * ppb < (size + ws - 1) / ws) by (rewrite Hes in Hq2; nia).
    rewrite lookup_take_lt by (unfold pages_for; lia).
    rewrite lookup_app_l by (rewrite length_seqZ; lia). apply lookup_seqZ. lia.
Qed.

Section digest.
Context {Sha : Type} (sha_init : Sha) (sha_process : Sha -> bytes -> Sha) (sha_done : Sha -> bytes).

Lemma sha_loop_ok : forall fuel (f : F) b size ctx buff,
  (Z.to_nat (nb - b) < fuel)%nat -> 0 <= b <= nb -> 0 <= size -> zlen buff = es -> readable f (b * ppb) size ->
  exists chunks f',
  sha_loop atSize oid fd sha_process fuel info nb b size ctx buff (st f) = Some (0, 0, foldl sha_process ctx chunks, st f') /\
  concat chunks = image f (b * ppb) size /\ nt_same f f'.
Proof.
  induction fuel as [|fuel IH]; intros f b size ctx buff Hfuel Hb Hs0 Hbuf Hr; [lia|]. cbn [sha_loop].
  destruct (Z.ltb_spec 0 size) as [Hs|Hs]; cbn [andb].
  2:{ exists [], f. assert (size = 0) as -> by lia. split; [done|]. split; [done|apply nt_same_refl]. }
  assert (b < nb).
  { destruct (decide (b < nb)); [done|]. destruct Hr as [Hr _]. rewrite good_pages_end in Hr by nia.
    change (zlen (concat _)) with 0 in Hr. lia. }
  destruct (Z.ltb_spec b nb); [|lia]. destruct (isbad_eq f b) as (f1 & E1 & Hs1 & _ & _); [lia|]. rewrite E1.
  destruct (image_same f f1 (b * ppb) size Hs1) as [Hi1 Hr1]. specialize (Hr1 Hr).
  destruct (nv_bad f b) eqn:Eb.
  - change (1 <? 0) with false. change (0 <? 1) with true. cbn iota.
    destruct (image_bad f1 b size) as [Hi2 Hr2]; [lia|by rewrite (same_bad _ _ Hs1)|].
    destruct (IH f1 (b + 1) size ctx buff) as (chunks & f' & E & Hc & Hs'); [lia|lia|lia|done|by apply Hr2|].
    exists chunks, f'. split; [done|]. split; [by rewrite Hc, <- Hi2|]. by eapply nt_same_trans.
  - change (0 <? 0) with false. cbn iota. destruct (read_len size Hs) as [-> Hle].
    set (len := Z.min es ((size + ws - 1) / ws * ws)) in *. rewrite <- (same_bad _ _ Hs1) in Eb.
    unfold on_dev, set_dev. cbn [nt_f nt_cached nt_info_].
    destruct (nl_seek f1 (b * es)) as (f2 & -> & Hs2 & Hp2 & _); [nia|]. destruct (Z.ltb_spec (b * es) 0); [nia|].
    destruct (image_same f1 f2 (b * ppb) size Hs2) as [Hi2 Hr2]. specialize (Hr2 Hr1).
    rewrite <- (same_bad _ _ Hs2) in Eb. destruct (image_good f2 b size) as (Hi & Hrest & Hok); [lia|done|lia|done|].
    destruct (read_block_ok b len ltac:(lia) ltac:(lia) (S (Z.to_nat len)) 0 [] buff f2) as (old & f3 & E3 & Hz & Hs3);
      [lia|lia|done|lia|by apply Hok|done|done|].
    cbn [app] in E3. rewrite E3. cbn [mbind option_bind]. change (0 <? 0) with false. cbn iota.
    assert (Hmin : (if size <? len then size else len) = Z.min es size) by (destruct (Z.ltb_spec size len); lia). rewrite Hmin.
    pose proof (block_zlen f2 b ltac:(lia)) as Hbz.
    rewrite rd_range_0 by lia. cbn [mbind option_bind].
    rewrite take_app_le, take_take, Nat.min_l by (rewrite ?length_take; unfold zlen in Hbz; lia).
    destruct (image_same f2 f3 ((b + 1) * ppb) (size - Z.min es size) Hs3) as [Hi3 Hr3].
    destruct (IH f3 (b + 1) (size - Z.min es size) (sha_process ctx (take (Z.to_nat (Z.min es size)) (nv_block ppb f2 b)))
                (take (Z.to_nat len) (nv_block ppb f2 b) ++ old)) as (chunks & f' & E & Hc & Hs');
      [lia|lia|lia|done|by apply Hr3|].
    exists (take (Z.to_nat (Z.min es size)) (nv_block ppb f2 b) :: chunks), f'. split; [done|]. split.
    + cbn [concat]. by rewrite Hc, Hi3, <- Hi1, <- Hi2, Hi.
    + eauto using nt_same_trans.
Qed.

(** The digest of a stream does not depend on how it is cut. *)
Context (sha : bytes -> bytes) (Hsha : forall chunks, sha_done (foldl sha_process sha_init chunks) = sha (concat chunks)).

Lemma sha256_ok (f : F) start size : 0 <= start <= nb -> 0 <= size -> readable f (start * ppb) size -> exists f',
  nandtool_sha256 atSize oid fd sha_init sha_process sha_done true size start (st f)
  = Some (0, Some (nandtool_hexdigest (sha (image f (start * ppb) size)) ++ [10]), st f') /\ nt_same f f'.
Proof.
  intros Hb Hs Hr. unfold nandtool_sha256. cbn [nt_info_]. assert (0 < es) by nia.
  destruct (Z.eqb_spec es 0); [lia|]. destruct (Z.eqb_spec ws 0); [lia|]. cbn [orb negb].
  rewrite Hsize, Z.div_mul by lia. rewrite (u32_small nb) by nia.
  destruct (sha_loop_ok (S (Z.to_nat (nb - start))) f start size sha_init (replicate (Z.to_nat es) 0)) as (chunks & f' & E & Hc & Hs');
    [lia|done|done|zlia|done|].
  rewrite E. cbn [mbind option_bind Z.ltb Z.compare]. exists f'. by rewrite Hsha, Hc.
Qed.

(** A flashed file can be read back. *)
Lemma flashed_image (f f' : F) p c : 0 <= p -> flashed f f' (good (nv_bad f) p) c -> 
  (npages ws c <= length (good (nv_bad f) p))%nat -> image f' p (zlen c) = c /\ readable f' p (zlen c).
Proof.
  intros Hp (Hpl & Hok & Hbad & _) Hlen. unfold image, readable. rewrite (good_pages_ext (nv_bad f)) by done.
  assert (Ei : take (Z.to_nat (zlen c)) (concat (nv_page f' <$> good (nv_bad f) p)) = c).
  { replace (Z.to_nat (zlen c)) with (length c) by (unfold zlen; lia). exact (placed_reads ws Hws _ _ _ _ Hpl). }
  split; [done|]. split.
  - apply (f_equal zlen) in Ei. zlia.
  - intros q Hq. apply Hok. by right.
Qed.
End digest.
End spec.

Section main.
Context {F : Type} `{NtLaws F info oid fd nb ppb} (writemeta writeraw atSize atDev : Z) (arg dev : bytes) `{!NtDevice F info oid fd atSize arg dev}.
Context (Hws : 0 < ni_writesz info) (Hppb : 0 < ppb) (Hes : ni_erasesz info = ppb * ni_writesz info)
        (Hsize : ni_size info = nb * ni_erasesz info) (Hnb : 0 <= nb) (Hmax : nb * ni_erasesz info < 4294967296)
        (Hoid : oid <> 0) (Hfd : 0 <= fd).
Context {Sha : Type} (sha_init : Sha) (sha_process : Sha -> bytes -> Sha) (sha_done : Sha -> bytes).
Context (encode_bch_ecc : Z -> bytes -> bytes) (w : Z).

(** The info is asked for once. *)
Lemma first_info (f : F) : exists f', flashmng_info atSize oid (nt_start f) = (true, Nt oid info f') /\ nt_same f f'.
Proof.
  unfold flashmng_info, nt_start. cbn [nt_cached]. destruct (Z.eqb_spec 0 oid); [congruence|].
  destruct (nd_info f) as (r & f1 & E1 & Hs1 & Hr & He & Iw & Ie & Im).
  unfold on_dev, set_dev. cbn [nt_f nt_cached nt_info_]. rewrite E1.
  destruct (Z.ltb_spec (nr_ret r) 0); [lia|]. destruct (Z.ltb_spec (nr_err r) 0); [lia|]. cbn [orb nt_f nt_cached nt_info_].
  destruct (nd_size f1) as (r2 & f2 & E2 & Hs2 & Hr2 & He2 & Hv). rewrite E2.
  destruct (Z.ltb_spec (nr_ret r2) 0); [lia|]. destruct (Z.ltb_spec (nr_err r2) 0); [lia|]. cbn [orb nt_f nt_cached nt_info_].
  exists f2. rewrite Hv, Iw, Ie, Im. split; [by destruct info|]. by eapply nt_same_trans.
Qed.

(** The real path, the look-up and the opening of the device. *)
Lemma find_device (f : F) : exists f1 e f2 f3 f4,
  nt_realpath arg f = (Some dev, f1) /\ nt_lookup dev f1 = ((e, oid), f2) /\ 0 <= e /\ nt_open dev f2 = (fd, f3) /\
  flashmng_info atSize oid (nt_start f3) = (true, Nt oid info f4) /\ nt_same f f4.
Proof.
  destruct (nd_realpath f) as (f1 & E1 & S1). destruct (nd_lookup f1) as (e & f2 & E2 & He & S2).
  destruct (nd_open f2) as (f3 & E3 & S3). destruct (first_info f3) as (f4 & E4 & S4).
  exists f1, e, f2, f3, f4. split_and!; try done; eauto using nt_same_trans.
Qed.

(** C10: [nandtool -i path -s start -n size device], where the file fits on the good pages
    from block [start] on: it ends with success, the file is on these pages in order,
    and what is printed is the digest of the file. *)
Theorem flash_and_digest (sha : bytes -> bytes) fuel path c s n start r (f : F) :
  (forall chunks, sha_done (foldl sha_process sha_init chunks) = sha (concat chunks)) ->
  nv_path f path = Some c -> zlen c < 4294967296 -> 0 <= start <= nb -> start < 2147483648 ->
  strtoul w s = Some (start, r) -> strtoll n = Some (zlen c, []) ->
  (npages (ni_writesz info) c <= length (good_pages (ni_writesz info) (ni_erasesz info) nb ppb (nv_bad f) (start * ppb)))%nat ->
  (Z.to_nat (nb * ppb) < fuel)%nat -> exists f',
  nandtool_main w writemeta writeraw atSize atDev encode_bch_ecc sha_init sha_process sha_done fuel
    [(105, path); (115, s); (110, n)] [arg] f
  = Some (0, Some (nandtool_hexdigest (sha c) ++ [10]), f') /\
  flashed (info := info) f f' (good_pages (ni_writesz info) (ni_erasesz info) nb ppb (nv_bad f) (start * ppb)) c.
Proof.
  intros Hsha Hpath Hc Hstart Hstart2 Hs Hn Hlen Hfuel. unfold nandtool_main, nt_parse, nt_args_default.
  cbn [Z.eqb Pos.eqb]. rewrite Hs, Hn. pose proof (zlen_nonneg c). destruct (Z.ltb_spec (zlen c) 0); [lia|].
  destruct (find_device f) as (f1 & e & f2 & f3 & f4 & E1 & E2 & He & E3 & E4 & S4).
  rewrite E1. cbn [a_scan real_paths]. rewrite E2. destruct (Z.ltb_spec e 0); [lia|]. rewrite E3.
  destruct (Z.ltb_spec fd 0); [lia|]. rewrite E4. cbn [negb].
  unfold nt_actions, nt_step. cbn [a_check a_erase a_flash_start a_ipath a_digest a_write_fcb a_write_dbbt a_scan a_dump a_raw fst snd default from_option].
  change (0 <=? -1) with false. cbn [andb negb]. unfold default, from_option, fmap, option_fmap, option_map, id. cbn [fst].
  rewrite wraps_small by (simpl; lia). destruct (Z.leb_spec 0 start); [|lia]. rewrite bool_decide_eq_true_2 by done. cbn [andb].
  rewrite (good_pages_ext (nv_bad f4)) in Hlen |- * by (intros; symmetry; apply S4).
  destruct (flash_ok (nb := nb) writeraw atSize Hws Hppb Hes Hnb Hmax fuel path c start f4) as (f5 & E5 & Hfl);
    [by rewrite (same_path _ _ S4)|done|done|done|done|].
  cbn [default from_option]. rewrite E5. cbn [mbind option_bind]. change (0 <? 0) with false. cbn iota. cbn [mbind option_bind].
  change (0 <? 0) with false. cbn iota. destruct (Z.leb_spec 0 (zlen c)); [|lia].
  destruct (flashed_image (nb := nb) (ppb := ppb) Hws f4 f5 (start * ppb) c) as [Hi Hr]; [nia|done|done|].
  destruct (sha256_ok (nb := nb) atSize Hws Hppb Hes Hsize Hnb Hmax sha_init sha_process sha_done sha Hsha f5 start (zlen c))
    as (f6 & E6 & S6); [done|done|done|].
  rewrite E6, Hi. cbn [mbind option_bind]. change (0 <? 0) with false. change (0 <? zlen []) with false. cbn [andb mbind option_bind].
  eexists. split; [reflexivity|]. eapply flashed_same; [exact S4| |exact Hfl].
  eapply nt_same_trans; [exact S6|]. by apply nl_close.
Qed.
End main.
