(* ===== verification/NandtoolClaims.v ===== *)
(** * The NAND tool: the scan for bad blocks, ranges, failures, and a simulated device

    Whatever the server answers, the scan stays inside the table; ranges are read back
    from what they print as; how a write that failed counts as a success, and a file
    that shrinks is flashed forever.

    The device: four blocks of two pages of four bytes, block 1 is bad; reads give at most
    three bytes; one other file.  It follows the laws, and the theorems about the NAND
    tool apply to it. *)

From S2P Require Import Prelude.
From S2P Require Import Prefix.
From S2P Require Import Clib.
From S2P Require Import NandpartSpec.
From S2P Require Import Pages.
From S2P Require Import Psd.
From S2P Require Import PsdClaims.
From S2P Require Import Nandtool.
From S2P Require Import NandtoolSpec.

(** ** The scan for bad blocks *)

Section scan.
Context {F : Type} `{NtOps F} (atSize atDev : Z).

(** Every server that answers gives erase blocks with bytes, and fewer than the index counts. *)
Definition sized (i : nt_info) : Prop := ni_erasesz i <> 0 /\ ni_size i / ni_erasesz i < 2 ^ 32.
Context (Hinfo : forall id f, let r := fst (nt_msg id NtInfo f) in 0 <= nr_ret r -> 0 <= nr_err r -> sized (nr_info r)).
Context (Hsize : forall id f f2, let r := fst (nt_msg id (NtGetAttr atSize) f2) in 0 <= nr_ret r -> 0 <= nr_err r ->
  nr_val r / ni_erasesz (nr_info (fst (nt_msg id NtInfo f))) < 2 ^ 32).

Lemma info_ok id (s : nt_t F) : sized (nt_info_ s) ->
  let '(ok, s') := flashmng_info atSize id s in sized (nt_info_ s') /\ (ok = true -> nt_cached s' = id).
Proof.
  intros Hs. unfold flashmng_info. destruct (Z.eqb_spec (nt_cached s) id) as [|Hne]; [done|].
  unfold on_dev, set_dev. pose proof (Hinfo id (nt_f s)) as Hi. pose proof (Hsize id (nt_f s)) as Hz.
  destruct (nt_msg id NtInfo (nt_f s)) as [r f]. cbn [fst] in Hi, Hz.
  destruct (Z.ltb_spec (nr_ret r) 0); [done|]. destruct (Z.ltb_spec (nr_err r) 0); [done|]. specialize (Hi ltac:(done) ltac:(done)). specialize (Hz f).
  cbn. destruct (nt_msg id (NtGetAttr atSize) f) as [r2 f2]. cbn [fst] in Hz.
  destruct (Z.ltb_spec (nr_ret r2) 0); [done|]. destruct (Z.ltb_spec (nr_err r2) 0); [done|]. cbn. split; [|done]. split; [apply Hi|by apply Hz].
Qed.

(** A block is looked up with the info that is there. *)
Lemma isbad_cached id b (s : nt_t F) : nt_cached s = id -> exists r f,
  flashmng_isbad atSize id b s = (r, Nt (nt_cached s) (nt_info_ s) f).
Proof.
  intros Hc. unfold flashmng_isbad, flashmng_info. destruct (Z.eqb_spec (nt_cached s) id); [|done]. cbn [negb].
  unfold on_dev, set_dev. destruct (nt_msg _ _ _) as [r f]. by exists (reply_err r), f.
Qed.

(** A table with room, if there is a table. *)
Definition opt_ok (t : option dbbt_t) : Prop := match t with Some t => table_ok t | None => True end.

Lemma scan_loop_safe id offs : forall fuel idx t (s : nt_t F), nt_cached s = id -> opt_ok t -> sized (nt_info_ s) -> 0 <= idx ->
  (Z.to_nat (ni_size (nt_info_ s) / ni_erasesz (nt_info_ s) - idx) < fuel)%nat -> exists t' s',
  bbscan_loop atSize fuel id offs idx t s = Some (t', s') /\ sized (nt_info_ s') /\
  match t' with Some t' => opt_ok (Some t') \/ BCB_BB_MAX <= db_entries t' | None => True end.
Proof.
  induction fuel as [|fuel IH]; intros idx t s Hc Ht Hs Hi Hfuel; [lia|]. cbn [bbscan_loop].
  pose proof (proj2 Hs) as Hmax. change (2 ^ 32) with 4294967296 in Hmax.
  destruct (Z.ltb_spec idx (ni_size (nt_info_ s) / ni_erasesz (nt_info_ s))).
  2:{ exists t, s. split_and!; [done..|]. destruct t; [by left|done]. }
  destruct (isbad_cached id idx s Hc) as (r & f & ->). rewrite (u32_small (idx + 1)) by lia.
  destruct t as [t|].
  2:{ cbn [mbind option_bind]. apply IH; [done..|lia|cbn; lia]. }
  destruct (negb (r =? 0)).
  - destruct (record_bad t (u32 (Z.quot offs (ni_erasesz (nt_info_ s)) + idx)) Ht) as (l & -> & _ & Hl).
    cbn [mbind option_bind db_entries]. destruct (Z.leb_spec BCB_BB_MAX (db_entries t + 1)).
    + eexists _, _. split; [reflexivity|]. split; [done|]. by right.
    + apply IH; [done| |done|lia|cbn; lia]. destruct Ht. split; cbn; [lia|done].
  - cbn [mbind option_bind]. destruct Ht as [Ht Hl]. destruct (Z.leb_spec BCB_BB_MAX (db_entries t)); [lia|].
    apply IH; [done|done|done|lia|cbn; lia].
Qed.

Lemma scan_safe dev t (s : nt_t F) : opt_ok t -> sized (nt_info_ s) -> exists err t' s',
  nandtool_scan atSize atDev dev t s = Some (err, t', s') /\ sized (nt_info_ s') /\ (0 <= err -> opt_ok t').
Proof.
  intros Ht Hs. unfold nandtool_scan, on_dev, set_dev. destruct (nt_lookup dev (nt_f s)) as [[e id] f].
  destruct (Z.ltb_spec e 0); [eexists _, _, _; split; [reflexivity|done]|].
  pose proof (info_ok id (Nt (nt_cached s) (nt_info_ s) f) Hs) as Hi.
  destruct (flashmng_info atSize id _) as [ok s1]. destruct Hi as [Hs1 Hc].
  destruct ok; cbn [negb]; [|eexists _, _, _; split; [reflexivity|done]]. specialize (Hc eq_refl).
  unfold nt_flashmng_getAttr, on_dev, set_dev. destruct (nt_msg id (NtGetAttr atDev) (nt_f s1)) as [r f2].
  destruct (if reply_err r <? 0 then (reply_err r, 0) else (0, nr_val r)) as [err offs].
  destruct (Z.ltb_spec err 0); [eexists _, _, _; split; [reflexivity|done]|]. cbn [nt_info_ nt_cached].
  destruct (Z.eqb_spec (ni_erasesz (nt_info_ s1)) 0); [by destruct Hs1|].
  destruct (scan_loop_safe id offs (S (Z.to_nat (ni_size (nt_info_ s1) / ni_erasesz (nt_info_ s1)))) 0 t (Nt (nt_cached s1) (nt_info_ s1) f2))
    as (t' & s' & -> & Hs' & Ht'); [done|done|done|done|cbn; lia|].
  cbn [mbind option_bind]. eexists _, _, _. split; [reflexivity|]. split; [done|].
  destruct t' as [t'|]; [|done]. destruct (Z.leb_spec BCB_BB_MAX (db_entries t')); [lia|].
  intros _. destruct Ht' as [|]; [done|lia].
Qed.

Lemma scan_devs_safe devs : forall t (s : nt_t F), opt_ok t -> sized (nt_info_ s) -> exists err t' s',
  scan_devs atSize atDev devs t s = Some (err, t', s') /\ sized (nt_info_ s') /\ (0 <= err -> opt_ok t').
Proof.
  induction devs as [|dev devs IH]; intros t s Ht Hs; cbn [scan_devs]; [eexists _, _, _; split; [reflexivity|done]|].
  destruct (scan_safe dev t s Ht Hs) as (err & t' & s' & -> & Hs' & Ht'). cbn [mbind option_bind].
  destruct (Z.ltb_spec err 0); [eexists _, _, _; split; [reflexivity|split; [done|lia]]|]. by apply IH; [apply Ht'|].
Qed.

(** C40: When the servers report erase blocks of a size other than 0 and fewer than 2^32 of
    them (a size of 0 is a division by zero, and the 32-bit index does not come to the end
    of more blocks): writing the table of bad blocks of any devices ends, and never stores
    outside the table of 1022 entries, however many bad blocks their servers report, and
    scanning without a table ends. *)
Theorem write_dbbt_safe oid fd mem devs (s : nt_t F) : sized (nt_info_ s) ->
  is_Some (nandtool_write_dbbt atSize atDev oid fd mem devs s) /\ is_Some (nandtool_scan_only atSize atDev devs s).
Proof.
  intros Hs. split; unfold nandtool_write_dbbt, nandtool_scan_only.
  - destruct mem; cbn [negb]; [|done].
    destruct (scan_devs_safe devs (Some dbbt_new) s) as (err & t' & s' & -> & _ & _); [|done|].
    { split; [done|by vm_compute]. }
    cbn [mbind option_bind]. destruct (err <? 0); [done|]. destruct t'; [|done]. by destruct (dbbt_erase_and_flash _ _ _ _ _ _).
  - destruct (scan_devs_safe devs None s I Hs) as (err & t' & s' & -> & _ & _). done.
Qed.
End scan.

(** ** Ranges *)

(** A start, and a start with a size, are read back from what they print as. *)
Lemma parseRange_roundtrip w a b : 32 <= w -> 0 <= a < 2 ^ 31 -> 0 <= b < 2 ^ 31 ->
  nandtool_parseRange w (dec a ++ 58 :: dec b) = Some (a, b) /\ nandtool_parseRange w (dec a) = Some (a, 1).
Proof.
  intros Hw Ha Hb. unfold nandtool_parseRange.
  pose proof (strtoul_dec w b [] Hw ltac:(lia)) as E. pose proof (strtoul_dec w a [] Hw ltac:(lia)) as E2.
  rewrite app_nil_r in E, E2. rewrite (strtoul_dec w a (58 :: dec b)), E2 by (done || lia).
  cbv beta iota delta [default from_option id]. change (58 =? 58) with true. cbv iota. rewrite E by done.
  by rewrite !wraps_small by (simpl; lia).
Qed.

(** ** What goes wrong *)

(** A write that stored less than a page is an error of [errno]: where no call has set
    it, flashing ends and counts as done. *)
Lemma short_write_succeeds `{NtOps F} writeraw atSize oid fd fuel ifd npages pagesz size start offs err (s s1 s2 s3 : nt_t F) boffs buff e1 pos n f4 :
  offs < size -> npages <> 0 -> pagesz <> 0 ->
  let page := u32 (start + offs / pagesz) in
  flashmng_isbad atSize oid (page / npages) s = (0, s1) ->
  fill_page (S (Z.to_nat pagesz)) ifd pagesz 0 0 (replicate (Z.to_nat pagesz) 0) s1 = Some (e1, boffs, buff, s2) -> 0 <= e1 ->
  on_dev (nt_lseek fd (page * pagesz)) s2 = (pos, s3) -> 0 <= pos ->
  nt_write fd buff (nt_f s3) = (n, f4) -> n <> pagesz -> nt_errno f4 = 0 ->
  flash_loop writeraw atSize oid fd (S fuel) false ifd npages pagesz size start offs err s = Some (0, set_dev f4 s3).
Proof.
  intros Hoffs Hn Hp page E1 E2 He E3 Hpos E4 Hn2 Hno. cbn [flash_loop]. destruct (Z.ltb_spec offs size); [|lia].
  destruct (Z.eqb_spec npages 0); [done|]. destruct (Z.eqb_spec pagesz 0); [done|]. cbn [orb]. fold page. rewrite E1.
  cbn [Z.ltb Z.compare]. rewrite E2. cbn [mbind option_bind]. destruct (Z.ltb_spec e1 0); [lia|].
  unfold flash_page. rewrite E3. destruct (Z.ltb_spec pos 0); [lia|]. unfold on_dev at 1. rewrite E4.
  destruct (Z.eqb_spec n pagesz); [done|]. cbn [negb]. cbn. by rewrite Hno.
Qed.

(** A file that has become shorter than it was when it was opened: the page at its end is
    written again and again. *)
Theorem truncated_file_spins `{NtLaws F info oid fd nb ppb} writeraw atSize ifd c size j p offs :
  0 < ni_writesz info -> 0 < ppb -> ni_erasesz info = ppb * ni_writesz info -> nb * ni_erasesz info < 4294967296 ->
  0 <= j <= p -> p < nb * ppb -> offs = j * ni_writesz info -> offs < size -> size < 4294967296 ->
  forall fuel err (f : F), nv_src f = Some (ifd, c, []) -> nv_bad f (p / ppb) = false ->
  flash_loop writeraw atSize oid fd fuel false ifd ppb (ni_writesz info) size (p - j) offs err (Nt oid info f) = None.
Proof.
  intros Hws Hppb Hes Hmax Hj Hp Hoffs Hsize Hsz. assert (Hnb : 0 <= nb) by nia. assert (nb * ppb < 4294967296) by nia.
  induction fuel as [|fuel IH]; intros err f Hsrc Hbad; [done|]. cbn [flash_loop].
  destruct (Z.ltb_spec offs size); [|lia]. destruct (Z.eqb_spec ppb 0); [lia|]. destruct (Z.eqb_spec (ni_writesz info) 0); [lia|].
  cbn [orb]. rewrite Hoffs, Z.div_mul by lia. replace (p - j + j) with p by lia. rewrite (u32_small p) by lia.
  destruct (page_in Hws Hppb Hes Hnb p) as [_ Hblk]; [lia..|].
  destruct (isbad_eq (nb := nb) atSize Hws Hppb Hes Hnb Hmax f (p / ppb) Hblk) as (f1 & E & Hs1 & _ & Hsrc1). rewrite E, Hbad.
  cbn [Z.ltb Z.compare].
  destruct (fill_page_ok (nb := nb) (oid := oid) Hppb ifd c (S (Z.to_nat (ni_writesz info))) [] [] 0 f1) as (e1 & f2 & E2 & He1 & Hs2 & Hsrc2);
    [zlia|zlia|lia|by rewrite Hsrc1|].
  change (zlen []) with 0 in *. unfold page0 in E2. cbn [app] in E2. change (zlen []) with 0 in E2. rewrite Z.sub_0_r, take_nil in *.
  rewrite E2. cbn [mbind option_bind]. destruct (Z.ltb_spec e1 0); [lia|].
  destruct (write_page_eq (nb := nb) writeraw atSize Hws Hppb Hes f2 p (replicate (Z.to_nat (ni_writesz info)) 0)) as (f3 & E3 & Hpg & Hot & Hok & Hb3 & Hpath & Hsrc3);
    [lia|by rewrite (same_bad _ _ Hs2), (same_bad _ _ Hs1)|zlia|].
  change (zlen []) with 0. rewrite Z.sub_0_r. cbn [app]. rewrite E3. rewrite !Z.add_0_r, <- Hoffs, u32_small by nia. apply IH.
  - rewrite Hsrc3, Hsrc2. by rewrite drop_nil.
  - by rewrite Hb3, (same_bad _ _ Hs2), (same_bad _ _ Hs1).
Qed.

(** ** A simulated partition *)

Definition nsim_info : nt_info := NtInfoR 32 4 8 1.
Definition nsim_bad (b : Z) : bool := b =? 1.
Definition nsim_arg : bytes := bstr "nand0".
Definition nsim_dev : bytes := bstr "/dev/nand0".
Definition nsim_img : bytes := bstr "image".
Definition nsim_file : bytes := [1; 2; 3; 4; 5; 6; 7; 8; 9; 10].

(** The position, the pages and which of them are written, and the file that is open. *)
Record nsim := NSim { ns_pos : Z; ns_pages : Z -> bytes; ns_ok : Z -> bool; ns_src : option (bytes * bytes) }.
Definition nsim_page (f : nsim) (q : Z) : bytes := take 4 (ns_pages f q ++ replicate 4 255).
Definition nsim_block (f : nsim) (b : Z) : bytes := nsim_page f (2 * b) ++ nsim_page f (2 * b + 1).

(** How many bytes a read of the partition gives. *)
Definition nsim_got (f : nsim) (n : Z) : Z := Z.min n (Z.min 3 (4 - ns_pos f mod 4)).
Definition nsim_read (n : Z) (f : nsim) : (Z * bytes) * nsim :=
  let k := nsim_got f n in
  if ns_ok f (ns_pos f / 4) && negb (nsim_bad (ns_pos f / 8))
  then ((k, take (Z.to_nat k) (drop (Z.to_nat (ns_pos f mod 8)) (nsim_block f (ns_pos f / 8)))),
        NSim (ns_pos f + k) (ns_pages f) (ns_ok f) (ns_src f))
  else ((-1, []), f).

Definition nsim_reply (err val : Z) : nt_reply := NtReply 0 err val [] nsim_info.

#[export] Instance nsim_ops : NtOps nsim := {
  nt_msg _ rq f :=
    match rq with
    | NtInfo => (nsim_reply 0 0, f)
    | NtGetAttr _ => (nsim_reply 0 32, f)
    | NtIsBad a => (nsim_reply (if nsim_bad (a / 8) then 1 else 0) 0, f)
    | _ => (NtReply (-1) 0 0 [] nsim_info, f)
    end;
  nt_lseek _ o f := (o, NSim o (ns_pages f) (ns_ok f) (ns_src f));
  nt_read d n f :=
    if d =? 3 then nsim_read n f
    else match ns_src f with
         | Some (c, rest) =>
             let k := Z.min (Z.min n 3) (zlen rest) in
             ((k, take (Z.to_nat k) rest), NSim (ns_pos f) (ns_pages f) (ns_ok f) (Some (c, drop (Z.to_nat k) rest)))
         | None => ((-1, []), f)
         end;
  nt_write _ data f :=
    if (zlen data =? 4) && (ns_pos f <? 32)
    then (4, NSim (ns_pos f + 4) (fun q => if q =? ns_pos f / 4 then data else ns_pages f q)
               (fun q => (q =? ns_pos f / 4) || ns_ok f q) (ns_src f))
    else (-1, f);
  nt_errno _ := EIO;
  nt_open p f :=
    if bool_decide (p = nsim_img) then (9, NSim (ns_pos f) (ns_pages f) (ns_ok f) (Some (nsim_file, nsim_file)))
    else if bool_decide (p = nsim_dev) then (3, f) else (-1, f);
  nt_close _ f := f;
  nt_fstat _ f := ((fun s => zlen (fst s)) <$> ns_src f, f);
  nt_lookup _ f := ((0, 7), f);
  nt_realpath _ f := (Some nsim_dev, f);
}.

#[export] Instance nsim_view : NtView nsim := {
  nv_pos := ns_pos; nv_page := nsim_page; nv_ok := ns_ok; nv_bad _ := nsim_bad;
  nv_path _ p := if bool_decide (p = nsim_img) then Some nsim_file else None;
  nv_src f := (fun s => (9, fst s, snd s)) <$> ns_src f;
}.

Lemma nsim_page_len f q : length (nsim_page f q) = 4%nat.
Proof. unfold nsim_page. rewrite length_take, length_app, length_replicate. lia. Qed.

#[export] Instance nsim_laws : NtLaws nsim nsim_info 7 3 4 2.
Proof.
  split; change (ni_writesz nsim_info) with 4; change (ni_erasesz nsim_info) with 8; cbn.
  - intros f b Hb. eexists _, f. split; [reflexivity|]. rewrite Z.div_mul by done. by split_and!.
  - intros f o Ho. eexists. by split; [reflexivity|].
  - intros f q data Hq Hpos Hd Hb. rewrite Hd. destruct (Z.ltb_spec (ns_pos f) 32); [|lia].
    eexists. split; [reflexivity|]. rewrite Hpos, Z.div_mul by done. split_and!; try done.
    + unfold nsim_page. cbn. rewrite Z.eqb_refl, take_app_le by (unfold zlen in Hd; lia).
      apply take_ge. unfold zlen in Hd. lia.
    + intros q' Hne. unfold nsim_page. cbn. by destruct (Z.eqb_spec q' q).
  - intros f b o n Hb Hbad Hpos Ho Hn Hin Hok. unfold nsim_read.
    assert (Hm : ns_pos f mod 8 = o) by (symmetry; apply Z.mod_unique with b; lia).
    assert (Hdv : ns_pos f / 8 = b) by (symmetry; apply Z.div_unique with o; lia).
    assert (Hq : ns_ok f (ns_pos f / 4) = true).
    { apply Hok; [apply Z.div_le_lower_bound; lia|]. pose proof (Z.mul_div_le (ns_pos f) 4). lia. }
    rewrite Hq, Hdv, Hm, Hbad. cbn [andb negb]. pose proof (Z.mod_pos_bound (ns_pos f) 4).
    exists (nsim_got f n). eexists. split.
    + unfold nv_block, nsim_block. change (seqZ (b * 2) 2) with (seqZ (b * 2) 2).
      replace (seqZ (b * 2) 2) with [2 * b; 2 * b + 1]; [cbn; by rewrite app_nil_r|].
      rewrite (seqZ_cons (b * 2) 2), seqZ_cons, seqZ_nil by done. f_equal; [lia|]. f_equal. lia.
    + unfold nsim_got. split; [lia|]. by split.
  - intros f q Hq. unfold zlen. by rewrite nsim_page_len.
  - intros f p c Hp. destruct (bool_decide _); [|done]. simplify_eq.
    eexists _, _. by split; [reflexivity|].
  - intros f ifd c rest Hs. destruct (ns_src f) as [[c' r]|] eqn:E; [|done]. cbn in Hs. simplify_eq.
    exists f. split; [done|]. split; [done|]. cbn. by rewrite E.
  - intros f ifd c rest n Hs Hn. destruct (ns_src f) as [[c' r]|] eqn:E; [|done]. cbn in Hs. simplify_eq. cbn.
    eexists _, _. split; [reflexivity|]. pose proof (zlen_nonneg rest).
    split; [lia|]. split; [lia|]. split; [intros Hne; destruct rest; [done|]; zlia|]. by split.
  - intros f d. apply nt_same_refl.
Qed.

#[export] Instance nsim_device : NtDevice nsim nsim_info 7 3 1 nsim_arg nsim_dev.
Proof.
  split; cbn; intros f.
  - by exists f.
  - by exists 0, f.
  - by exists f.
  - by exists (nsim_reply 0 0), f.
  - by exists (nsim_reply 0 32), f.
Qed.

(** Nothing is written yet, and nothing can be read. *)
Definition ex_nsim : nsim := NSim 0 (fun _ => []) (fun _ => false) None.

(** A digest of one byte. *)
Definition sum_sha (chunk : bytes) : bytes := [foldr Z.add 0 chunk mod 256].

Lemma foldl_concat (chunks : list bytes) : forall acc, foldl (fun a b => a ++ b) acc chunks = acc ++ concat chunks.
Proof.
  induction chunks as [|c chunks IH]; intros acc; simpl; [by rewrite app_nil_r|]. rewrite IH. by rewrite <- (assoc_L (++)).
Qed.

(** Ten bytes flashed from block 0 on: the pages of block 0 and, as block 1 is bad, the
    first page of block 2; the digest is that of the file. *)
Lemma flash_and_digest_witness : exists f',
  nandtool_main 64 0 0 1 2 (fun _ b => b) [] (fun a b => a ++ b) sum_sha 9
    [(105, nsim_img); (115, bstr "0"); (110, bstr "10")] [nsim_arg] ex_nsim
  = Some (0, Some (nandtool_hexdigest (sum_sha nsim_file) ++ [10]), f') /\
  flashed (info := nsim_info) ex_nsim f' (good_pages 4 8 4 2 nsim_bad (0 * 2)) nsim_file.
Proof.
  apply (flash_and_digest (nb := 4) (oid := 7) (fd := 3) 0 0 1 2 nsim_arg nsim_dev ltac:(done) ltac:(done) ltac:(done) ltac:(done)
           ltac:(done) ltac:(done) ltac:(done) ltac:(done) [] (fun a b => a ++ b) sum_sha (fun _ b => b) 64
           sum_sha 9 nsim_img nsim_file (bstr "0") (bstr "10") 0 [] ex_nsim);
    try reflexivity; try lia.
  - intros chunks. by rewrite foldl_concat.
  - vm_compute. lia.
Defined.

(** The same run, evaluated. *)
Example flash_and_digest_runs :
  (fun r => (r.1, nsim_page r.2 <$> [0; 1; 2; 3; 4; 5])) <$>
    nandtool_main 64 0 0 1 2 (fun _ b => b) [] (fun a b => a ++ b) sum_sha 9
      [(105, nsim_img); (115, bstr "0"); (110, bstr "10")] [nsim_arg] ex_nsim
  = Some ((0, Some [51; 55; 10]),
      [[1; 2; 3; 4]; [5; 6; 7; 8]; [255; 255; 255; 255]; [255; 255; 255; 255]; [9; 10; 0; 0]; [255; 255; 255; 255]]).
Proof. by vm_compute. Qed.

Lemma write_dbbt_safe_witness :
  is_Some (nandtool_write_dbbt 1 2 7 3 true [nsim_dev; nsim_dev] (Nt 7 nsim_info ex_nsim)) /\
  is_Some (nandtool_scan_only 1 2 [nsim_dev; nsim_dev] (Nt 7 nsim_info ex_nsim)).
Proof.
  apply write_dbbt_safe; [intros id f r _ _; split; [simpl; lia|by vm_compute]|intros id f f2 r _ _; by vm_compute|split; [done|by vm_compute]].
Defined.

(** The file is empty when it is read, though it had six bytes. *)
Lemma truncated_file_spins_witness :
  flash_loop 0 1 7 3 100 false 9 2 (ni_writesz nsim_info) 6 (0 - 0) 0 0 (Nt 7 nsim_info (NSim 0 (fun _ => []) (fun _ => false) (Some ([], [])))) = None.
Proof.
  apply (truncated_file_spins (nb := 4) (oid := 7) (fd := 3) 0 1 9 [] 6 0 0 0); first [lia | reflexivity].
Defined.
