(* ===== verification/Ping.v ===== *)
(** * ICMP echo requests ([psh/ping/ping.c])

    The checksum, requests and replies of both protocols, and the command.  The network is
    the class [PingOps]; packets are bytes, with the layout of ICMP and IP headers.  What is
    printed of a reply is kept as [ping_line] without its time; [None] is an access outside
    the buffers. *)

From S2P Require Import Prelude.
From S2P Require Import Clib.

Definition MAX_ECHO_PAYLOAD : Z := 2032.
Definition ICMP_HDR : Z := 8.
Definition IP_HDR : Z := 20.
Definition ICMP_ECHO : Z := 8.
Definition ICMP_ECHOREPLY : Z := 0.
Definition ICMP6_ECHO_REQUEST : Z := 128.
Definition ICMP6_ECHO_REPLY : Z := 129.
Definition AF_INET : Z := 2.
Definition AF_INET6 : Z := 10.
Definition IPPROTO_ICMP : Z := 1.
Definition IPPROTO_ICMPV6 : Z := 58.

(** ** The outside *)

Class PingOps (F : Type) := {
  pg_getpid : F -> Z;
  (** The error, or the families and addresses of a name. *)
  pg_getaddrinfo : Z -> bytes -> F -> (Z + list (Z * bytes)) * F;
  pg_ntop : Z -> bytes -> F -> option bytes * F;
  (** The memory that [malloc] gives, with what is in it. *)
  pg_malloc : Z -> F -> option bytes * F;
  pg_socket : Z -> Z -> F -> Z * F;
  pg_setttl : Z -> Z -> F -> Z * F;
  pg_settimeo : Z -> Z -> Z -> F -> Z * F;
  pg_close : Z -> F -> F;
  pg_sendto : Z -> bytes -> bytes -> F -> Z * F;
  (** The length, the bytes and the address of the sender. *)
  pg_recvfrom : Z -> Z -> F -> (Z * bytes * bytes) * F;
  pg_usleep : Z -> F -> F;
  pg_sigint : F -> bool;
}.

(** [pingCommon], without the addresses of the other protocol. *)
Record ping_t := Ping {
  p_raddr : bytes; p_chksum6 : Z; p_rdy6 : bool; p_seq : Z; p_cnt : Z; p_ttl : Z; p_af : Z; p_interval : Z; p_timeout : Z;
  p_reqsz : Z; p_respsz : Z; p_myid : Z; p_proto : Z }.

Definition set_seq (p : ping_t) (v : Z) : ping_t :=
  Ping (p_raddr p) (p_chksum6 p) (p_rdy6 p) v (p_cnt p) (p_ttl p) (p_af p) (p_interval p) (p_timeout p) (p_reqsz p) (p_respsz p) (p_myid p) (p_proto p).
Definition set_cnt (p : ping_t) (v : Z) : ping_t :=
  Ping (p_raddr p) (p_chksum6 p) (p_rdy6 p) (p_seq p) v (p_ttl p) (p_af p) (p_interval p) (p_timeout p) (p_reqsz p) (p_respsz p) (p_myid p) (p_proto p).
Definition set_myid (p : ping_t) (v : Z) : ping_t :=
  Ping (p_raddr p) (p_chksum6 p) (p_rdy6 p) (p_seq p) (p_cnt p) (p_ttl p) (p_af p) (p_interval p) (p_timeout p) (p_reqsz p) (p_respsz p) v (p_proto p).
Definition set_sum6 (p : ping_t) (v : Z) : ping_t :=
  Ping (p_raddr p) v true (p_seq p) (p_cnt p) (p_ttl p) (p_af p) (p_interval p) (p_timeout p) (p_reqsz p) (p_respsz p) (p_myid p) (p_proto p).
Definition set_host (p : ping_t) (af respsz : Z) (addr : bytes) : ping_t :=
  Ping addr (p_chksum6 p) (p_rdy6 p) (p_seq p) (p_cnt p) (p_ttl p) af (p_interval p) (p_timeout p) (p_reqsz p) respsz (p_myid p) (p_proto p).

(** A line about a reply: its length, the sender, the TTL of an IPv4 header, the number. *)
Record ping_line := PingLine { pl_bytes : Z; pl_addr : bytes; pl_ttl : option Z; pl_seq : Z }.

(** ** Checksums and fields *)

(** The loop from [i] on, over the [len] bytes at [off]. *)
Fixpoint chksum_loop (fuel : nat) (data : bytes) (off len i sum : Z) : option Z :=
  match fuel with
  | O => None
  | Datatypes.S fuel =>
      if i <? len then
        x ← rd data (off + i);
        y ← rd data (off + (i + 1));
        chksum_loop fuel data off len (i + 2) (u32 (sum + (x * 256 + y)))
      else Some sum
  end.

Definition fold_sum (sum : Z) : Z := u32 (sum / 65536 + sum mod 65536).

(** [ping_chksum(data + off, len)]. *)
Definition ping_chksum (data : bytes) (off len : Z) : option Z :=
  sum ← chksum_loop (Datatypes.S (Z.to_nat len)) data off len 0 0;
  sum ← (if negb (Z.rem len 2 =? 0) then x ← rd data (off + (len - 1)); Some (u32 (sum + x * 256)) else Some sum);
  Some (65535 - u16 (fold_sum (fold_sum sum))).

(** A 16-bit field in the order of the network. *)
Definition put16 (data : bytes) (off v : Z) : option bytes :=
  data ← wr data off (u16 v / 256); wr data (off + 1) (u16 v mod 256).
Definition get16 (data : bytes) (off : Z) : option Z :=
  x ← rd data off; y ← rd data (off + 1); Some (x * 256 + y).

Section ping.
Context {F : Type} `{PingOps F}.
(** The bits of [size_t]. *)
Context (w : Z).

Definition ping_sockconf (p : ping_t) (f : F) : Z * F :=
  let '(fd, f) := pg_socket (p_af p) (p_proto p) f in
  if fd <? 0 then (- EIO, f)
  else
    let '(ret, f) := pg_setttl fd (p_ttl p) f in
    if negb (ret =? 0) then (- EIO, pg_close fd f)
    else
      let '(ret, f) := pg_settimeo fd (Z.quot (p_timeout p) 1000) (Z.rem (p_timeout p) 1000 * 1000) f in
      if negb (ret =? 0) then (- EIO, pg_close fd f) else (fd, f).

(** The payload from [i] on; [count] is [len - sizeof(struct icmphdr)]. *)
Fixpoint payload_loop (fuel : nat) (i count : Z) (data : bytes) : option bytes :=
  match fuel with
  | O => None
  | Datatypes.S fuel =>
      if i <? count then data ← wr data (ICMP_HDR + i) (u8 i); payload_loop fuel (u32 (i + 1)) count data else Some data
  end.
Definition payload_init (data : bytes) (len : Z) : option bytes :=
  payload_loop (Datatypes.S (length data)) 0 (wrapu w (len - ICMP_HDR)) data.

Definition ping_reqinit (data : bytes) (len : Z) (p : ping_t) (f : F) : option (bytes * ping_t) :=
  data ← wr data 0 ICMP_ECHO;
  let p := set_myid p (u16 (pg_getpid f)) in
  data ← put16 data 4 (p_myid p);
  data ← payload_init data len;
  Some (data, p).

Definition ping_reqinit6 (data : bytes) (len : Z) (p : ping_t) (f : F) : option (bytes * ping_t) :=
  data ← wr data 0 ICMP6_ECHO_REQUEST;
  data ← wr data 1 0;
  data ← put16 data 2 0;
  let p := set_myid p (u16 (pg_getpid f)) in
  data ← put16 data 4 (p_myid p);
  data ← put16 data 6 0;
  data ← payload_init data len;
  Some (data, p).

(** ** Requests *)

Definition ping_echo (fd : Z) (data : bytes) (len : Z) (p : ping_t) (f : F) : option (Z * bytes * ping_t * F) :=
  data ← put16 data 6 (p_seq p);
  let p := set_seq p (p_seq p + 1) in
  data ← put16 data 2 0;
  sum ← ping_chksum data 0 len;
  data ← put16 data 2 sum;
  msg ← rd_range data 0 len;
  let '(ret, f) := pg_sendto fd msg (p_raddr p) f in
  Some (if negb (ret =? len) then - EIO else 0, data, p, f).

Definition ping_echo6 (fd : Z) (data : bytes) (len : Z) (p : ping_t) (f : F) : option (Z * bytes * ping_t * F) :=
  data ← put16 data 6 (p_seq p);
  let p := set_seq p (p_seq p + 1) in
  p ← (if negb (p_rdy6 p) then sum ← ping_chksum data ICMP_HDR (len - ICMP_HDR); Some (set_sum6 p sum) else Some p);
  msg ← rd_range data 0 len;
  let '(ret, f) := pg_sendto fd msg (p_raddr p) f in
  Some (if negb (ret =? len) then - EIO else 0, data, p, f).

(** ** Replies *)

(** What is received into the buffer. *)
Definition received (data : bytes) (fd : Z) (f : F) : option (Z * bytes * bytes * F) :=
  let '((n, msg, addr), f) := pg_recvfrom fd (zlen data) f in
  if n <=? 0 then Some (n, addr, data, f) else data ← wr_range data 0 msg; Some (n, addr, data, f).

(** Packets are passed over until one is a reply to this program: its length without
    the IP header and its sender, or the error. *)
Fixpoint reply_loop (fuel : nat) (fd : Z) (data : bytes) (p : ping_t) (f : F) : option ((Z + Z * bytes) * bytes * F) :=
  match fuel with
  | O => None
  | Datatypes.S fuel =>
      '(n, addr, data, f) ← received data fd f;
      if n <=? 0 then Some (inl (- EIO), data, f)
      else if n <? IP_HDR + ICMP_HDR then Some (inl (- EIO), data, f)
      else
        id ← get16 data (IP_HDR + 4);
        type ← rd data IP_HDR;
        if (id =? p_myid p) && (type =? ICMP_ECHOREPLY) then Some (inr (n - IP_HDR, addr), data, f) else reply_loop fuel fd data p f
  end.

Definition ping_reply (fuel : nat) (fd : Z) (data : bytes) (p : ping_t) (f : F) : option (Z * bytes * bytes * F) :=
  '(r, data, f) ← reply_loop fuel fd data p f;
  match r with
  | inl err => Some (err, [], data, f)
  | inr (n, addr) =>
      let '(str, f) := pg_ntop (p_af p) addr f in
      match str with
      | None => Some (- EFAULT, [], data, f)
      | Some str =>
          if negb (bool_decide (addr = p_raddr p)) then Some (- EFAULT, str, data, f)
          else
            rcvd ← get16 data (IP_HDR + 2);
            data ← put16 data (IP_HDR + 2) 0;
            cal ← ping_chksum data IP_HDR n;
            if negb (rcvd =? cal) then Some (- EIO, str, data, f)
            else
              seq ← get16 data (IP_HDR + 6);
              Some (if negb (seq =? p_seq p - 1) then - EIO else n, str, data, f)
      end
  end.

Fixpoint ping_reply6 (fuel : nat) (fd : Z) (data : bytes) (p : ping_t) (f : F) : option (Z * bytes * bytes * F) :=
  match fuel with
  | O => None
  | Datatypes.S fuel =>
      '(n, addr, data, f) ← received data fd f;
      if (n <? 0) || (n <? ICMP_HDR) then Some (- EIO, [], data, f)
      else if negb (bool_decide (addr = p_raddr p)) then ping_reply6 fuel fd data p f
      else
        type ← rd data 0;
        code ← rd data 1;
        id ← get16 data 4;
        if negb (type =? ICMP6_ECHO_REPLY) || negb (code =? 0) || negb (id =? p_myid p) then ping_reply6 fuel fd data p f
        else
          seq ← get16 data 6;
          if negb (seq =? u16 (p_seq p - 1)) then Some (- EIO, [], data, f)
          else
            sum ← ping_chksum data ICMP_HDR (n - ICMP_HDR);
            if negb (sum =? p_chksum6 p) then Some (- EIO, [], data, f)
            else
              let '(str, f) := pg_ntop (p_af p) addr f in
              match str with
              | None => Some (- EFAULT, [], data, f)
              | Some str => Some (n, str, data, f)
              end
  end.

(** ** A request and its reply *)

(** The result, the buffers, the line, and the rest. *)
Definition ping_echoreply (fuel : nat) (fd : Z) (req resp : bytes) (p : ping_t) (f : F)
  : option (Z * bytes * bytes * list ping_line * ping_t * F) :=
  '(ret, req, p, f) ← ping_echo fd req (p_reqsz p) p f;
  if ret <? 0 then Some (- EIO, req, resp, [], p, f)
  else
    resp ← wr_range resp 0 (replicate (Z.to_nat (p_respsz p)) 0);
    '(n, str, resp, f) ← ping_reply fuel fd resp p f;
    if n <? 0 then Some (- EIO, req, resp, [], p, f)
    else
      ttl ← rd resp 8;
      seq ← get16 resp (IP_HDR + 6);
      Some (0, req, resp, [PingLine n str (Some ttl) seq], p, f).

Definition ping_echoreply6 (fuel : nat) (fd : Z) (req resp : bytes) (p : ping_t) (f : F)
  : option (Z * bytes * bytes * list ping_line * ping_t * F) :=
  '(ret, req, p, f) ← ping_echo6 fd req (p_reqsz p) p f;
  if ret <? 0 then Some (- EIO, req, resp, [], p, f)
  else
    resp ← wr_range resp 0 (replicate (Z.to_nat (p_respsz p)) 0);
    '(n, str, resp, f) ← ping_reply6 fuel fd resp p f;
    if n <? 0 then Some (- EIO, req, resp, [], p, f)
    else
      seq ← get16 resp 6;
      Some (0, req, resp, [PingLine n str None seq], p, f).

(** [while (cnt > 0 && !sigint)]: one iteration for each of the [cnt]. *)
Fixpoint ping_loop (k : nat) (step : bytes -> bytes -> ping_t -> F -> option (Z * bytes * bytes * list ping_line * ping_t * F))
    (ret : Z) (req resp : bytes) (p : ping_t) (f : F) : option (Z * list ping_line * F) :=
  match k with
  | O => Some (ret, [], f)
  | Datatypes.S k =>
      if (0 <? p_cnt p) && negb (pg_sigint f) then
        '(ret, req, resp, line, p, f) ← step req resp p f;
        if negb (ret =? 0) then Some (ret, line, f)
        else
          let p := set_cnt p (p_cnt p - 1) in
          let f := if 0 <? p_cnt p then pg_usleep (1000 * p_interval p) f else f in
          '(ret, lines, f) ← ping_loop k step ret req resp p f;
          Some (ret, line ++ lines, f)
      else Some (ret, [], f)
  end.

(** The first address of the family; [inl] is the error. *)
Definition ping_resolveAddress (af : Z) (src : bytes) (f : F) : (Z + bytes) * F :=
  let '(r, f) := pg_getaddrinfo af src f in
  match r with
  | inl ret => (inl ret, f)
  | inr l => match filter (fun a => fst a = af) l with (_, addr) :: _ => (inr addr, f) | [] => (inl (- EFAULT), f) end
  end.

(** What both protocols do once the address is known. *)
Definition ping_session (init : bytes -> Z -> ping_t -> F -> option (bytes * ping_t))
    (step : Z -> bytes -> bytes -> ping_t -> F -> option (Z * bytes * bytes * list ping_line * ping_t * F))
    (p : ping_t) (f : F) : option (Z * list ping_line * F) :=
  let '(req, f) := pg_malloc (p_reqsz p) f in
  match req with
  | None => Some (- ENOMEM, [], f)
  | Some req =>
      let '(resp, f) := pg_malloc (p_respsz p) f in
      match resp with
      | None => Some (- ENOMEM, [], f)
      | Some resp =>
          let '(fd, f) := ping_sockconf p f in
          if fd <=? 0 then Some (- EIO, [], f)
          else
            '(req, p) ← init req (p_reqsz p) p f;
            '(ret, lines, f) ← ping_loop (Datatypes.S (Z.to_nat (p_cnt p))) (step fd) 0 req resp p f;
            Some (ret, lines, pg_close fd f)
      end
  end.

(** [errno] after a failed [inet_ntop] is [EINVAL] here; [fuel] bounds the packets that
    are received for one request. *)
Definition ping_sendping4 (fuel : nat) (src : bytes) (p : ping_t) (f : F) : option (Z * list ping_line * F) :=
  let '(r, f) := ping_resolveAddress AF_INET src f in
  match r with
  | inl ret => Some (ret, [], f)
  | inr addr =>
      let p := set_host p AF_INET (IP_HDR + p_reqsz p) addr in
      let '(str, f) := pg_ntop AF_INET addr f in
      match str with
      | None => Some (- EINVAL, [], f)
      | Some _ => ping_session ping_reqinit (ping_echoreply fuel) p f
      end
  end.

Definition ping_sendping6 (fuel : nat) (src : bytes) (p : ping_t) (f : F) : option (Z * list ping_line * F) :=
  let '(r, f) := ping_resolveAddress AF_INET6 src f in
  match r with
  | inl _ => Some (- EFAULT, [], f)
  | inr addr =>
      let p := set_host p AF_INET6 (p_reqsz p) addr in
      let '(str, f) := pg_ntop AF_INET6 addr f in
      match str with
      | None => Some (- EFAULT, [], f)
      | Some _ => ping_session ping_reqinit6 (ping_echoreply6 fuel) p f
      end
  end.

(** ** The command *)

Definition ping_default : ping_t := Ping [] 0 false 1 5 64 AF_INET 1000 2000 (56 + ICMP_HDR) 0 0 IPPROTO_ICMP.

(** [strtoul(s, &end, 10)]: the value, and whether something is left at [end]. *)
Definition ping_number (s : bytes) : Z * bool :=
  match strtoul10 w s with Some (v, r) => (v, negb (bool_decide (r = []))) | None => (0, negb (bool_decide (s = []))) end.

(** The results of [getopt]; [inr] is the exit code of an error or of the help. *)
Fixpoint ping_opts (opts : list (Z * bytes)) (p : ping_t) : ping_t + Z :=
  match opts with
  | [] => inl p
  | (c, arg) :: opts =>
      let '(v, junk) := ping_number arg in
      let '(Ping a s6 r6 seq cnt ttl af iv tm rq rs id pr) := p in
      if c =? 99 then
        if junk || (s32 v <=? 0) then inr 1 else ping_opts opts (Ping a s6 r6 seq (s32 v) ttl af iv tm rq rs id pr)
      else if c =? 116 then
        if junk || (s32 v <=? 0) then inr 1 else ping_opts opts (Ping a s6 r6 seq cnt (s32 v) af iv tm rq rs id pr)
      else if c =? 105 then
        if junk || (s32 v <? 0) then inr 1 else ping_opts opts (Ping a s6 r6 seq cnt ttl af (s32 v) tm rq rs id pr)
      else if c =? 87 then
        if junk || (s32 v <=? 100) then inr 1 else ping_opts opts (Ping a s6 r6 seq cnt ttl af iv (s32 v) rq rs id pr)
      else if c =? 115 then
        let sz := s32 (wrapu w (v + ICMP_HDR)) in
        if junk || (MAX_ECHO_PAYLOAD + ICMP_HDR <? wrapu w sz) then inr 1
        else ping_opts opts (Ping a s6 r6 seq cnt ttl af iv tm sz rs id pr)
      else if c =? 54 then ping_opts opts (Ping a s6 false seq cnt ttl af iv tm rq rs id IPPROTO_ICMPV6)
      else inr 0
  end.

(** The exit code, and the lines. *)
Definition psh_ping (fuel : nat) (opts : list (Z * bytes)) (args : list bytes) (f : F) : option (Z * list ping_line * F) :=
  match ping_opts opts ping_default with
  | inr code => Some (code, [], f)
  | inl p =>
      match args with
      | [arg] =>
          '(ret, lines, f) ← (if p_proto p =? IPPROTO_ICMP then ping_sendping4 fuel arg p f else ping_sendping6 fuel arg p f);
          Some (if 0 <=? ret then EXIT_SUCCESS else EXIT_FAILURE, lines, f)
      | _ => Some (EXIT_FAILURE, [], f)
      end
  end.
End ping.
