(* ===== verification/PingSpec.v ===== *)
(** * Echo requests and their replies

    The checksum is that of RFC 1071 where the length is even; a host that answers every
    request is reported as such, whatever other packets arrive; odd and small payloads,
    and the request after the 65535th. *)

From S2P Require Import Prelude.
From S2P Require Import Clib.
From S2P Require Import Ping.

(** ** The checksum of RFC 1071 *)

(** The 16-bit words16; a last byte is the high byte of a word. *)
Fixpoint words16 (l : bytes) : list Z :=
  match l with
  | x :: y :: l => (x * 256 + y) :: words16 l
  | [x] => [x * 256]
  | [] => []
  end.

(** Addition with the carry brought back around. *)
Definition oc_add (a b : Z) : Z := let s := a + b in if 65535 <? s then s - 65535 else s.
Definition rfc_checksum (l : bytes) : Z := 65535 - foldl oc_add 0 (words16 l).

(** The end-around sum of a plain sum. *)
Definition around (s : Z) : Z := if s =? 0 then 0 else (s - 1) mod 65535 + 1.

Lemma around_range s : 0 <= s -> 0 <= around s <= 65535.
Proof. intros. unfold around. destruct (Z.eqb_spec s 0); [lia|]. pose proof (Z.mod_pos_bound (s - 1) 65535). lia. Qed.

Lemma around_unique s r : 0 < s -> 0 < r <= 65535 -> (exists k, s = k * 65535 + r) -> around s = r.
Proof.
  intros Hs Hr [k ->]. unfold around. destruct (Z.eqb_spec (k * 65535 + r) 0); [lia|].
  replace (k * 65535 + r - 1) with ((r - 1) + k * 65535) by lia. rewrite Z.mod_add, Z.mod_small by lia. lia.
Qed.

Lemma around_spec s : 0 < s -> exists k, s = k * 65535 + around s /\ 0 < around s.
Proof.
  intros Hs. unfold around. destruct (Z.eqb_spec s 0); [lia|]. exists ((s - 1) / 65535).
  pose proof (Z.div_mod (s - 1) 65535). pose proof (Z.mod_pos_bound (s - 1) 65535). lia.
Qed.

Lemma oc_add_around s x : 0 <= s -> 0 <= x <= 65535 -> oc_add (around s) x = around (s + x).
Proof.
  intros Hs Hx. pose proof (around_range s Hs). unfold oc_add.
  destruct (Z.eq_dec s 0) as [->|Hne].
  - change (around 0) with 0. rewrite !Z.add_0_l. destruct (Z.ltb_spec 65535 x); [lia|].
    destruct (Z.eq_dec x 0) as [->|]; [done|]. symmetry. apply around_unique; [lia|lia|]. exists 0. lia.
  - destruct (around_spec s) as (k & Hk & Hp); [lia|]. symmetry.
    destruct (Z.ltb_spec 65535 (around s + x)); apply around_unique; try lia; [exists (k + 1); lia|exists k; lia].
Qed.

Lemma foldl_around ws : forall s, 0 <= s -> Forall (fun x => 0 <= x <= 65535) ws ->
  foldl oc_add (around s) ws = around (s + foldr Z.add 0 ws).
Proof.
  induction ws as [|x ws IH]; intros s Hs Hw; simpl; [f_equal; lia|]. apply Forall_cons in Hw as [Hx Hw].
  rewrite oc_add_around, IH by (done || lia). f_equal. lia.
Qed.

(** Folding a 32-bit sum twice brings all its carries around. *)
Lemma fold_around s : 0 <= s < 4294967296 -> fold_sum (fold_sum s) = around s.
Proof.
  intros Hs. unfold fold_sum. pose proof (Z.div_mod s 65536). pose proof (Z.mod_pos_bound s 65536).
  assert (0 <= s / 65536 < 65536) by (split; [apply Z.div_pos|apply Z.div_lt_upper_bound]; lia).
  rewrite (u32_small (s / 65536 + s mod 65536)) by lia. set (t := s / 65536 + s mod 65536) in *.
  pose proof (Z.div_mod t 65536). pose proof (Z.mod_pos_bound t 65536).
  assert (0 <= t / 65536 < 2) by (split; [apply Z.div_pos|apply Z.div_lt_upper_bound]; lia).
  rewrite u32_small by lia.
  destruct (Z.eq_dec s 0) as [->|]; [done|]. symmetry. apply around_unique; [lia| |].
  - assert (0 < t) by lia. lia.
  - exists (s / 65536 + t / 65536). lia.
Qed.

Lemma words_range l : is_bytes l -> Forall (fun x => 0 <= x <= 65535) (words16 l).
Proof.
  revert l. fix IH 1. intros [|x [|y l]] Hl; simpl; [done| |].
  - apply Forall_cons in Hl as [? _]. constructor; [lia|done].
  - apply Forall_cons in Hl as [? Hl]. apply Forall_cons in Hl as [? Hl]. constructor; [lia|by apply IH].
Qed.

Lemma words_sum l : is_bytes l -> 0 <= foldr Z.add 0 (words16 l) <= 65535 * (zlen l + 1) / 2.
Proof.
  intros Hl. assert (E : 0 <= 2 * foldr Z.add 0 (words16 l) <= 65535 * (zlen l + 1)); [|split; [lia|apply Z.div_le_lower_bound; lia]].
  revert l Hl. fix IH 1. intros [|x [|y l]] Hl; simpl.
  - change (zlen []) with 0. lia.
  - apply Forall_cons in Hl as [? _]. change (zlen [x]) with 1. lia.
  - apply Forall_cons in Hl as [? Hl]. apply Forall_cons in Hl as [? Hl]. apply IH in Hl. rewrite !zlen_cons. lia.
Qed.

Definition even_len (l : bytes) : Prop := exists k : nat, length l = (2 * k)%nat.

Lemma chksum_loop_ok post : forall l pre data off len i fuel sum,
  data = pre ++ l ++ post -> off + i = zlen pre -> len = i + zlen l -> even_len l -> is_bytes l ->
  0 <= sum -> sum + foldr Z.add 0 (words16 l) < 4294967296 -> (length l < fuel)%nat ->
  chksum_loop fuel data off len i sum = Some (sum + foldr Z.add 0 (words16 l)).
Proof.
  fix IH 1. intros [|x [|y l]] pre data off len i [|fuel] sum Hd Ho Hlen Hev Hl Hs Hm Hf; simpl in Hf; try lia.
  - simpl. change (zlen []) with 0 in Hlen. destruct (Z.ltb_spec i len); [lia|]. f_equal. lia.
  - destruct Hev as [k Hk]. simpl in Hk. lia.
  - cbn [chksum_loop]. rewrite !zlen_cons in Hlen. pose proof (zlen_nonneg l). destruct (Z.ltb_spec i len); [|lia].
    apply Forall_cons in Hl as [Hx Hl]. apply Forall_cons in Hl as [Hy Hl].
    rewrite Hd at 1. cbn [app]. rewrite rd_app by lia. cbn [mbind option_bind].
    assert (E : data = (pre ++ [x]) ++ y :: (l ++ post)) by (rewrite Hd; appeq).
    rewrite E at 1. rewrite rd_app by zlia. cbn [mbind option_bind words16 foldr] in *.
    pose proof (words_sum l Hl). rewrite u32_small by lia.
    rewrite (IH l (pre ++ [x; y])); [f_equal; lia| |zlia|lia| |done|lia|lia|lia].
    + rewrite Hd. appeq.
    + destruct Hev as [k Hk]. exists (k - 1)%nat. simpl in Hk. lia.
Qed.

Lemma even_rem l : even_len l -> Z.rem (zlen l) 2 = 0.
Proof. intros [k Hk]. unfold zlen. rewrite Hk. replace (Z.of_nat (2 * k)) with (Z.of_nat k * 2) by lia. by apply Z.rem_mul. Qed.

(** The checksum of an even number of bytes, at most 64 KiB, is that of RFC 1071. *)
Lemma chksum_rfc pre l post : even_len l -> is_bytes l -> zlen l <= 65536 ->
  ping_chksum (pre ++ l ++ post) (zlen pre) (zlen l) = Some (rfc_checksum l).
Proof.
  intros Hev Hl Hlen. unfold ping_chksum. pose proof (words_sum l Hl).
  assert (65535 * (zlen l + 1) / 2 < 4294967296) by (apply Z.div_lt_upper_bound; lia).
  rewrite (chksum_loop_ok post l pre); [|done|lia|lia|done|done|lia|lia|unfold zlen; lia].
  cbn [mbind option_bind]. rewrite even_rem by done. cbn [Z.eqb negb mbind option_bind].
  rewrite Z.add_0_l, fold_around by lia. unfold rfc_checksum.
  pose proof (foldl_around (words16 l) 0 ltac:(lia) (words_range l Hl)) as E. change (around 0) with 0 in E. rewrite E, Z.add_0_l.
  do 2 f_equal. apply wrapu_small. pose proof (around_range (foldr Z.add 0 (words16 l))). simpl. lia.
Qed.

(** ** Fields of a packet *)

Lemma put16_app pre x y post v off : off = zlen pre ->
  put16 (pre ++ x :: y :: post) off v = Some (pre ++ u16 v / 256 :: u16 v mod 256 :: post).
Proof.
  intros ->. unfold put16. rewrite wr_app by done. cbn [mbind option_bind].
  change (pre ++ u16 v / 256 :: y :: post) with (pre ++ [u16 v / 256] ++ y :: post).
  rewrite (assoc_L (++)), wr_app by zlia. by rewrite <- (assoc_L (++)).
Qed.

Lemma get16_app pre x y post off : off = zlen pre -> get16 (pre ++ x :: y :: post) off = Some (x * 256 + y).
Proof.
  intros ->. unfold get16. rewrite (rd_app pre x (y :: post) (zlen pre)) by done. cbn [mbind option_bind].
  change (pre ++ x :: y :: post) with (pre ++ [x] ++ y :: post).
  rewrite (assoc_L (++)), (rd_app (pre ++ [x]) y post) by zlia. reflexivity.
Qed.

Lemma u16_split v : 0 <= u16 v / 256 < 256 /\ 0 <= u16 v mod 256 < 256 /\ u16 v / 256 * 256 + u16 v mod 256 = u16 v.
Proof.
  pose proof (wrapu_range 16 v ltac:(done)) as Hr. change (2 ^ 16) with 65536 in Hr.
  pose proof (Z.div_mod (u16 v) 256). pose proof (Z.mod_pos_bound (u16 v) 256). lia.
Qed.

(** A header of eight bytes. *)
Definition echo_hdr (type code sum id seq : Z) : bytes :=
  [type; code; u16 sum / 256; u16 sum mod 256; u16 id / 256; u16 id mod 256; u16 seq / 256; u16 seq mod 256].

Lemma zlen_echo_hdr type code sum id seq : zlen (echo_hdr type code sum id seq) = 8.
Proof. done. Qed.
#[local] Hint Rewrite zlen_echo_hdr : zlen.

Lemma echo_hdr_bytes type code sum id seq pl : 0 <= type < 256 -> 0 <= code < 256 -> is_bytes pl ->
  is_bytes (echo_hdr type code sum id seq ++ pl).
Proof.
  intros Ht Hc Hp. pose proof (u16_split sum). pose proof (u16_split id). pose proof (u16_split seq).
  unfold echo_hdr, is_bytes in *. repeat (constructor; [lia|]). done.
Qed.

Lemma even_hdr type code sum id seq pl : even_len pl -> even_len (echo_hdr type code sum id seq ++ pl).
Proof. intros [k Hk]. exists (4 + k)%nat. rewrite length_app, Hk. simpl. lia. Qed.

(** ** The payload *)

(** The bytes 0, 1, 2, ... that a request carries. *)
Definition payload (n : Z) : bytes := u8 <$> seqZ 0 n.

Lemma payload_zlen n : 0 <= n -> zlen (payload n) = n.
Proof. intros. unfold payload. rewrite zlen_fmap. unfold zlen. rewrite length_seqZ. lia. Qed.

Lemma payload_bytes n : is_bytes (payload n).
Proof. apply Forall_fmap, Forall_forall. intros x _. exact (wrapu_range 8 x ltac:(lia)). Qed.

Lemma payload_loop_ok hdr count : zlen hdr = 8 -> count < 4294967296 -> forall fuel i old,
  0 <= i <= count -> zlen old = count - i -> (Z.to_nat (count - i) < fuel)%nat ->
  payload_loop fuel i count (hdr ++ payload i ++ old) = Some (hdr ++ payload count).
Proof.
  intros Hh Hc. induction fuel as [|fuel IH]; intros i old Hi Hold Hf; [lia|]. cbn [payload_loop].
  destruct (Z.ltb_spec i count).
  - destruct old as [|o old]; [zlia|]. rewrite (assoc_L (++)), wr_app; [|rewrite zlen_app, payload_zlen; unfold ICMP_HDR; lia].
    cbn [mbind option_bind]. rewrite u32_small by lia.
    assert (E : (hdr ++ payload i) ++ u8 i :: old = hdr ++ payload (i + 1) ++ old).
    { unfold payload. rewrite (seqZ_app 0 i 1) by lia. rewrite fmap_app. change (seqZ (0 + i) 1) with [0 + i]. cbn [fmap list_fmap].
      rewrite Z.add_0_l. appeq. }
    rewrite E. apply IH; [lia| |lia]. zlia.
  - assert (i = count) as -> by lia. assert (old = []) as -> by (apply zlen_0_nil; lia). by rewrite app_nil_r.
Qed.

(** Options leave the number of the first request alone. *)
Lemma ping_opts_seq w opts : forall p p', ping_opts w opts p = inl p' -> p_seq p' = p_seq p.
Proof.
  induction opts as [|[c arg] opts IH]; intros p p' E; cbn [ping_opts] in E; [by simplify_eq|].
  destruct (ping_number w arg) as [v junk], p.
  repeat (case_match; simplify_eq; try (by apply IH in E)).
Qed.

(** ** A host that answers *)

(** The packets that wait to be received, with their senders. *)
Class PingView (F : Type) := pv_inbox : F -> list (bytes * bytes).

(** The bytes 20 to 27 of a packet. *)
Definition is_reply_to (id : Z) (m : bytes) : Prop := get16 m 24 = Some id /\ rd m 20 = Some ICMP_ECHOREPLY.
Definition foreign (id : Z) (m : bytes) : Prop := 28 <= zlen m /\ ~ is_reply_to id m.

(** The reply to a request, behind its IP header. *)
Definition reply_to (msg : bytes) : bytes :=
  match msg with
  | _ :: _ :: _ :: _ :: rest =>
      let c := rfc_checksum (0 :: 0 :: 0 :: 0 :: rest) in 0 :: 0 :: u16 c / 256 :: u16 c mod 256 :: rest
  | _ => []
  end.

(** A host at [raddr] that answers every request; at most [most] packets that are not for
    this program arrive before the answer; nobody interrupts. *)
Class PingHost (F : Type) `{PingOps F, PingView F} (raddr str : bytes) (pid fd : Z) (most : nat) : Prop := {
  ph_pid f : pg_getpid f = pid;
  ph_sigint f : pg_sigint f = false;
  ph_info name f : exists l f', pg_getaddrinfo AF_INET name f = (inr ((AF_INET, raddr) :: l), f') /\ pv_inbox f' = pv_inbox f;
  ph_ntop f : exists f', pg_ntop AF_INET raddr f = (Some str, f') /\ pv_inbox f' = pv_inbox f;
  ph_malloc n f : 0 <= n -> exists m f', pg_malloc n f = (Some m, f') /\ zlen m = n /\ is_bytes m /\ pv_inbox f' = pv_inbox f;
  ph_socket f : exists f', pg_socket AF_INET IPPROTO_ICMP f = (fd, f') /\ pv_inbox f' = pv_inbox f;
  ph_ttl t f : exists f', pg_setttl fd t f = (0, f') /\ pv_inbox f' = pv_inbox f;
  ph_timeo s u f : exists f', pg_settimeo fd s u f = (0, f') /\ pv_inbox f' = pv_inbox f;
  ph_send msg f : exists noise h f', pg_sendto fd msg raddr f = (zlen msg, f') /\ zlen h = 20 /\ (length noise <= most)%nat /\
    Forall (fun m => foreign (u16 pid) m.1) noise /\ pv_inbox f' = pv_inbox f ++ noise ++ [(h ++ reply_to msg, raddr)];
  ph_recv n m a rest f : pv_inbox f = (m, a) :: rest -> 0 <= n -> exists f',
    pg_recvfrom fd n f = ((zlen (take (Z.to_nat n) m), take (Z.to_nat n) m, a), f') /\ pv_inbox f' = rest;
  ph_usleep u f : pv_inbox (pg_usleep u f) = pv_inbox f;
}.

Section session.
Context {F : Type} `{PingHost F raddr str pid fd most} (w : Z) (Hw : 32 <= w) (Hfd : 0 < fd).
#[local] Abbreviation id := (u16 pid).

Lemma id_u16 : u16 id = id.
Proof. pose proof (wrapu_range 16 pid ltac:(done)). by apply wrapu_small. Qed.

(** Foreign packets are passed over. *)
Lemma reply_loop_skip noise reply : zlen reply <= 65536 -> is_reply_to id reply -> 28 <= zlen reply ->
  forall fuel data p (f : F), (length noise < fuel)%nat -> p_myid p = id -> zlen data = zlen reply ->
  Forall (fun m => foreign id m.1) noise -> pv_inbox f = noise ++ [(reply, raddr)] -> exists f',
  reply_loop fuel fd data p f = Some (inr (zlen reply - 20, raddr), reply, f') /\ pv_inbox f' = [].
Proof.
  intros Hmax [Hid Hty] Hlen. induction noise as [|[m a] noise IH]; intros [|fuel] data p f Hf Hp Hd Hn Hin; simpl in Hf; try lia;
    cbn [reply_loop].
  - destruct (ph_recv (zlen data) reply raddr [] f Hin) as (f' & E & Hin'); [zlia|]. unfold received. rewrite E.
    rewrite take_ge by (unfold zlen in *; lia). destruct (Z.leb_spec (zlen reply) 0); [lia|].
    assert (Hw0 : wr_range data 0 reply = Some reply).
    { rewrite <- (app_nil_r data), <- (app_nil_l (data ++ [])). rewrite wr_range_app by done. by rewrite app_nil_r. }
    rewrite Hw0. cbn [mbind option_bind]. destruct (Z.leb_spec (zlen reply) 0); [lia|].
    unfold IP_HDR, ICMP_HDR. destruct (Z.ltb_spec (zlen reply) (20 + 8)); [lia|].
    change (20 + 4) with 24. rewrite Hid. cbn [mbind option_bind]. rewrite Hty. cbn [mbind option_bind].
    rewrite Hp, Z.eqb_refl. change (ICMP_ECHOREPLY =? ICMP_ECHOREPLY) with true. cbn [andb]. by exists f'.
  - apply Forall_cons in Hn as [[Hm Hnot] Hn]. cbn [fst] in *. cbn [app] in Hin.
    destruct (ph_recv (zlen data) m a _ f Hin) as (f' & E & Hin'); [zlia|]. unfold received. rewrite E.
    set (t := take (Z.to_nat (zlen data)) m) in *. assert (Ht : 28 <= zlen t <= zlen data) by (unfold t; zlia).
    destruct (Z.leb_spec (zlen t) 0); [lia|].
    destruct (list_split_at data (zlen t)) as (d1 & d2 & Ed & Hd1); [zlia|].
    assert (Hw0 : wr_range data 0 t = Some (t ++ d2)) by (rewrite Ed; by apply (wr_range_app [] d1 d2)).
    rewrite Hw0. cbn [mbind option_bind]. destruct (Z.leb_spec (zlen t) 0); [lia|].
    unfold IP_HDR, ICMP_HDR. destruct (Z.ltb_spec (zlen t) (20 + 8)); [lia|].
    (* the fields are those of the packet *)
    destruct (list_split_at2 t 20 8) as (h & x & r & Et & Hh & Hx); [lia|lia|lia|].
    destruct x as [|x0 [|x1 [|x2 [|x3 [|x4 [|x5 [|x6 [|x7 [|]]]]]]]]]; try (zlia; lia).
    assert (Em : m = h ++ [x0; x1; x2; x3; x4; x5; x6; x7] ++ r ++ drop (Z.to_nat (zlen data)) m).
    { rewrite <- (take_drop (Z.to_nat (zlen data)) m) at 1. fold t. rewrite Et. appeq. }
    assert (G : forall q, get16 (h ++ [x0; x1; x2; x3; x4; x5; x6; x7] ++ q) 24 = Some (x4 * 256 + x5) /\
                          rd (h ++ [x0; x1; x2; x3; x4; x5; x6; x7] ++ q) 20 = Some x0).
    { intros q. split; [|by apply rd_app].
      replace (h ++ _) with ((h ++ [x0; x1; x2; x3]) ++ x4 :: x5 :: ([x6; x7] ++ q)) by appeq. apply get16_app. zlia. }
    destruct (G (r ++ drop (Z.to_nat (zlen data)) m)) as [G1 G2]. rewrite <- Em in G1, G2.
    destruct (G (r ++ d2)) as [G3 G4]. replace (h ++ _ ++ r ++ d2) with (t ++ d2) in G3, G4 by (rewrite Et; appeq).
    change (20 + 4) with 24. rewrite G3. cbn [mbind option_bind]. rewrite G4. cbn [mbind option_bind].
    assert (Hno : (x4 * 256 + x5 =? p_myid p) && (x0 =? ICMP_ECHOREPLY) = false).
    { apply not_true_is_false. intros Hb. bprop. apply Hnot. split; [rewrite G1|rewrite G2]; f_equal; lia. }
    rewrite Hno. apply IH; [lia|done| |done|done]. rewrite <- Hd, Ed. zlia.
Qed.

(** ** One request and its reply *)

Lemma rfc_range l : is_bytes l -> 0 <= rfc_checksum l < 65536.
Proof.
  intros Hl. unfold rfc_checksum. pose proof (foldl_around (words16 l) 0 ltac:(lia) (words_range l Hl)) as E.
  change (around 0) with 0 in E. rewrite E. pose proof (words_sum l Hl). pose proof (around_range (0 + foldr Z.add 0 (words16 l)) ltac:(lia)). lia.
Qed.

(** A request of this program before its number and its checksum are filled in. *)
Definition is_request (code : Z) (pl req : bytes) : Prop :=
  exists a b c d, req = [ICMP_ECHO; code; a; b; id / 256; id mod 256; c; d] ++ pl.

Lemma ping_echo_ok code pl req p (f : F) : is_request code pl req -> 0 <= code < 256 -> is_bytes pl -> even_len pl ->
  p_raddr p = raddr -> zlen req <= 65536 -> exists noise h sum f',
  let msg := echo_hdr ICMP_ECHO code sum pid (p_seq p) ++ pl in
  ping_echo fd req (zlen req) p f = Some (0, msg, set_seq p (p_seq p + 1), f') /\ zlen h = 20 /\ (length noise <= most)%nat /\
  Forall (fun m => foreign id m.1) noise /\ pv_inbox f' = pv_inbox f ++ noise ++ [(h ++ reply_to msg, raddr)].
Proof.
  intros (a & b & c & d & ->) Hc Hpl Hev Hr Hlen. unfold ping_echo. remember (zlen (_ ++ pl)) as n eqn:Hn.
  assert (Hn8 : n = 8 + zlen pl) by (subst n; zlia). clear Hn.
  rewrite (put16_app [ICMP_ECHO; code; a; b; id / 256; id mod 256] c d pl) by done. cbn [mbind option_bind app].
  set (tl := id / 256 :: id mod 256 :: u16 (p_seq p) / 256 :: u16 (p_seq p) mod 256 :: pl).
  rewrite (put16_app [ICMP_ECHO; code] a b tl) by done. cbn [mbind option_bind app].
  set (req0 := echo_hdr ICMP_ECHO code 0 pid (p_seq p) ++ pl).
  pose proof (chksum_rfc [] req0 [] ltac:(by apply even_hdr) ltac:(apply echo_hdr_bytes; done) ltac:(unfold req0; zlia)) as E.
  replace (zlen req0) with n in E by (unfold req0; zlia).
  rewrite app_nil_r in E. cbn [app] in E. change (zlen []) with 0 in E. unfold req0, echo_hdr in E. cbn [app] in E.
  unfold tl. rewrite E. cbn [mbind option_bind].
  set (sum := rfc_checksum _). rewrite (put16_app [ICMP_ECHO; code] (u16 0 / 256) (u16 0 mod 256) (id / 256 :: id mod 256 :: u16 (p_seq p) / 256 :: u16 (p_seq p) mod 256 :: pl)) by done. cbn [mbind option_bind app].
  rewrite rd_range_0 by zlia. cbn [mbind option_bind]. rewrite take_ge by (unfold zlen in *; simpl; lia).
  destruct (ph_send (echo_hdr ICMP_ECHO code sum pid (p_seq p) ++ pl) f) as (noise & h & f' & Es & Hh & Hn & Hf & Hin).
  unfold echo_hdr in Es. cbn [app] in Es. change (p_raddr (set_seq p (p_seq p + 1))) with (p_raddr p). rewrite Hr, Es.
  exists noise, h, sum, f'. split; [|done]. unfold echo_hdr. cbn [app]. rewrite !zlen_cons.
  destruct (Z.eqb_spec (1 + (1 + (1 + (1 + (1 + (1 + (1 + (1 + zlen pl)))))))) n); [done|lia].
Qed.

Lemma ping_reply_ok fuel noise h code sum pl data p (f : F) s :
  zlen h = 20 -> is_bytes pl -> even_len pl -> zlen pl <= 60000 -> (length noise < fuel)%nat -> Forall (fun m => foreign id m.1) noise ->
  pv_inbox f = noise ++ [(h ++ reply_to (echo_hdr ICMP_ECHO code sum pid s ++ pl), raddr)] -> p_myid p = id -> p_af p = AF_INET ->
  p_raddr p = raddr -> p_seq p = s + 1 -> 0 <= s < 65536 -> zlen data = 28 + zlen pl -> exists f',
  ping_reply fuel fd data p f = Some (8 + zlen pl, str, h ++ echo_hdr 0 0 0 pid s ++ pl, f') /\ pv_inbox f' = [].
Proof.
  intros Hh Hpl Hev Hmax Hf Hn Hin Hid Haf Hra Hseq Hs Hd. unfold echo_hdr in Hin. cbn [app reply_to] in Hin.
  set (c := rfc_checksum _) in Hin.
  assert (Hc : 0 <= c < 65536) by (apply rfc_range, (echo_hdr_bytes 0 0 0 pid s); done).
  set (reply := h ++ _) in Hin. assert (Er : reply = h ++ echo_hdr 0 0 c pid s ++ pl) by done.
  clearbody reply. assert (Hz : zlen reply = 28 + zlen pl) by (rewrite Er; zlia). pose proof (zlen_nonneg pl).
  pose proof (u16_split pid) as (_ & _ & Hpid). pose proof (u16_split s) as (_ & _ & Hs16). rewrite (wrapu_small 16 s) in Hs16 by done.
  pose proof (u16_split c) as (_ & _ & Hc16). rewrite (wrapu_small 16 c) in Hc16 by done.
  assert (G : forall k pre x y post, h ++ echo_hdr 0 0 k pid s ++ pl = pre ++ x :: y :: post -> forall o, o = zlen pre ->
    get16 (h ++ echo_hdr 0 0 k pid s ++ pl) o = Some (x * 256 + y)) by (intros k pre x y post -> o Ho; by apply get16_app).
  assert (Hreply : is_reply_to id reply).
  { split; [|rewrite Er; by apply rd_app]. rewrite Er, <- Hpid.
    apply (G c (h ++ [0; 0; u16 c / 256; u16 c mod 256]) _ _ ([u16 s / 256; u16 s mod 256] ++ pl)); [unfold echo_hdr; appeq|zlia]. }
  destruct (reply_loop_skip noise reply ltac:(lia) Hreply ltac:(lia) fuel data p f Hf Hid ltac:(lia) Hn Hin) as (f1 & E1 & Hin1).
  unfold ping_reply. rewrite E1. cbn [mbind option_bind]. rewrite Haf.
  destruct (ph_ntop f1) as (f2 & -> & Hin2). rewrite Hra, bool_decide_eq_true_2 by done. cbn [negb]. unfold IP_HDR.
  assert (Hg : get16 reply (20 + 2) = Some c).
  { rewrite Er, (G c (h ++ [0; 0]) (u16 c / 256) (u16 c mod 256) ([id / 256; id mod 256; u16 s / 256; u16 s mod 256] ++ pl));
      [by rewrite (wrapu_small 16 c), Hc16 by done|unfold echo_hdr; appeq|zlia]. }
  rewrite Hg. cbn [mbind option_bind].
  assert (Hp0 : put16 reply (20 + 2) 0 = Some (h ++ echo_hdr 0 0 0 pid s ++ pl)).
  { replace reply with ((h ++ [0; 0]) ++ u16 c / 256 :: u16 c mod 256 :: ([id / 256; id mod 256; u16 s / 256; u16 s mod 256] ++ pl))
      by (rewrite Er; unfold echo_hdr; appeq).
    rewrite put16_app by zlia. unfold echo_hdr. do 1 f_equal. change (u16 0 / 256) with 0. change (u16 0 mod 256) with 0. appeq. }
  rewrite Hp0. cbn [mbind option_bind].
  pose proof (chksum_rfc h (echo_hdr 0 0 0 pid s ++ pl) [] ltac:(by apply even_hdr) ltac:(by apply echo_hdr_bytes)
                ltac:(unfold echo_hdr; zlia)) as E2.
  rewrite app_nil_r, Hh in E2. replace (zlen reply - 20) with (zlen (echo_hdr 0 0 0 pid s ++ pl)) by (unfold echo_hdr; zlia).
  rewrite E2. cbn [mbind option_bind]. change (rfc_checksum (echo_hdr 0 0 0 pid s ++ pl)) with c.
  rewrite Z.eqb_refl. cbn [negb].
  rewrite (G 0 (h ++ [0; 0; 0; 0; id / 256; id mod 256]) (u16 s / 256) (u16 s mod 256) pl); [|unfold echo_hdr; appeq|zlia]. cbn [mbind option_bind].
  rewrite (wrapu_small 16 s) by done. rewrite Hs16, Hseq. destruct (Z.eqb_spec s (s + 1 - 1)); [|lia]. cbn [negb].
  exists f2. split; [|congruence]. do 4 f_equal. unfold echo_hdr. zlia.
Qed.

Lemma echoreply_ok fuel code pl req resp p (f : F) : is_request code pl req -> 0 <= code < 256 -> is_bytes pl -> even_len pl ->
  zlen pl <= 60000 -> (most < fuel)%nat -> p_raddr p = raddr -> p_myid p = id -> p_af p = AF_INET -> p_reqsz p = 8 + zlen pl ->
  p_respsz p = 28 + zlen pl -> zlen resp = 28 + zlen pl -> 0 <= p_seq p < 65536 -> pv_inbox f = [] -> exists ttl req' resp' f',
  ping_echoreply fuel fd req resp p f =
  Some (0, req', resp', [PingLine (p_reqsz p) str (Some ttl) (p_seq p)], set_seq p (p_seq p + 1), f') /\
  is_request code pl req' /\ zlen resp' = zlen resp /\ pv_inbox f' = [].
Proof.
  intros Hreq Hc Hpl Hev Hmax Hfuel Hr Hid Haf Hsz Hrs Hresp Hseq Hin. unfold ping_echoreply.
  assert (Hz : zlen req = p_reqsz p) by (destruct Hreq as (?&?&?&?&->); rewrite Hsz; zlia).
  destruct (ping_echo_ok code pl req p f Hreq Hc Hpl Hev Hr ltac:(lia)) as (noise & h & sum & f1 & E & Hh & Hn & Hf & Hin1).
  rewrite Hz in E. rewrite E. cbn [mbind option_bind]. rewrite Hin in Hin1. cbn [app] in Hin1. change (0 <? 0) with false. cbn iota.
  change (p_respsz (set_seq p (p_seq p + 1))) with (p_respsz p). pose proof (zlen_nonneg pl).
  assert (Hw0 : wr_range resp 0 (replicate (Z.to_nat (p_respsz p)) 0) = Some (replicate (Z.to_nat (p_respsz p)) 0)).
  { rewrite <- (app_nil_r resp), <- (app_nil_l (resp ++ [])). rewrite wr_range_app by zlia. by rewrite app_nil_r. }
  rewrite Hw0. cbn [mbind option_bind].
  destruct (ping_reply_ok fuel noise h code sum pl (replicate (Z.to_nat (p_respsz p)) 0) (set_seq p (p_seq p + 1)) f1 (p_seq p))
    as (f2 & E2 & Hin2); try done; [lia|zlia|].
  rewrite E2. cbn [mbind option_bind]. destruct (Z.ltb_spec (8 + zlen pl) 0); [lia|].
  destruct (list_split_at2 h 8 1) as (h1 & t & h2 & -> & Hh1 & Ht); [lia|lia|lia|].
  destruct t as [|ttl [|]]; try (zlia; lia). cbn [app]. rewrite <- (assoc_L (++)). cbn [app].
  rewrite rd_app by done. cbn [mbind option_bind].
  pose proof (u16_split (p_seq p)) as (_ & _ & Hs16). rewrite (wrapu_small 16 (p_seq p)) in Hs16 by done.
  assert (Hg : get16 (h1 ++ ttl :: h2 ++ echo_hdr 0 0 0 pid (p_seq p) ++ pl) (IP_HDR + 6) = Some (p_seq p)).
  { replace (h1 ++ _) with ((h1 ++ ttl :: h2 ++ [0; 0; 0; 0; id / 256; id mod 256]) ++ u16 (p_seq p) / 256 :: u16 (p_seq p) mod 256 :: pl)
      by (unfold echo_hdr; appeq).
    rewrite get16_app by (unfold IP_HDR; zlia). rewrite (wrapu_small 16 (p_seq p)) by done. by rewrite Hs16. }
  rewrite Hg. cbn [mbind option_bind]. rewrite <- Hsz. eexists ttl, _, _, f2. split; [reflexivity|]. split; [|split; [|done]].
  - by exists (u16 sum / 256), (u16 sum mod 256), (u16 (p_seq p) / 256), (u16 (p_seq p) mod 256).
  - zlia.
Qed.

(** A line without its TTL. *)
Definition line_of (l : ping_line) : Z * bytes * Z := (pl_bytes l, pl_addr l, pl_seq l).

Lemma ping_loop_ok fuel code pl : 0 <= code < 256 -> is_bytes pl -> even_len pl -> zlen pl <= 60000 -> (most < fuel)%nat ->
  forall k req resp p (f : F), is_request code pl req -> p_raddr p = raddr -> p_myid p = id -> p_af p = AF_INET ->
  p_reqsz p = 8 + zlen pl -> p_respsz p = 28 + zlen pl -> zlen resp = 28 + zlen pl -> 0 <= p_cnt p -> 0 <= p_seq p ->
  p_seq p + p_cnt p <= 65536 -> (Z.to_nat (p_cnt p) < k)%nat -> pv_inbox f = [] -> exists lines f',
  ping_loop k (ping_echoreply fuel fd) 0 req resp p f = Some (0, lines, f') /\
  line_of <$> lines = (fun s => (8 + zlen pl, str, s)) <$> seqZ (p_seq p) (p_cnt p).
Proof.
  intros Hc Hpl Hev Hmax Hfuel. induction k as [|k IH]; intros req resp p f Hreq Hr Hid Haf Hsz Hrs Hresp Hcnt Hs Hsum Hk Hin; [lia|].
  cbn [ping_loop]. rewrite ph_sigint. destruct (Z.ltb_spec 0 (p_cnt p)); cbn [negb andb].
  - destruct (echoreply_ok fuel code pl req resp p f) as (ttl & req' & resp' & f1 & E & Hreq' & Hresp' & Hin1); try done; [lia|].
    rewrite E. cbn [mbind option_bind Z.eqb negb].
    set (p1 := set_cnt (set_seq p (p_seq p + 1)) (p_cnt (set_seq p (p_seq p + 1)) - 1)).
    set (f2 := if 0 <? p_cnt p1 then pg_usleep (1000 * p_interval p1) f1 else f1).
    assert (Hin2 : pv_inbox f2 = []) by (unfold f2; destruct (0 <? p_cnt p1); [by rewrite ph_usleep|done]).
    destruct (IH req' resp' p1 f2) as (lines & f' & E' & Hl); try done; try (cbn; lia).
    rewrite E'. cbn [mbind option_bind]. eexists _, f'. split; [reflexivity|].
    rewrite fmap_app, Hl. cbn. rewrite (seqZ_cons (p_seq p)) by done. cbn. rewrite Hsz. unfold line_of at 1. cbn.
    do 3 f_equal; lia.
  - assert (p_cnt p = 0) as -> by lia. by exists [], f.
Qed.

(** C24: [ping] over ICMP with an even number of bytes to send, at least the header and at
    most the largest payload (of an odd number the checksum reads the byte behind,
    [odd_request_overreads]), and at most 65535 requests (the answer to the next is
    refused, [number_65536]), to a host that answers: every request is reported, in order,
    with the size and the address, and the command succeeds. *)
Theorem ping_answered fuel opts arg p (f : F) : ping_opts w opts ping_default = inl p -> p_proto p = IPPROTO_ICMP ->
  8 <= p_reqsz p <= MAX_ECHO_PAYLOAD + ICMP_HDR -> Z.even (p_reqsz p) = true -> 0 < p_cnt p < 65536 ->
  (most < fuel)%nat -> pv_inbox f = [] -> exists lines f',
  psh_ping w fuel opts [arg] f = Some (EXIT_SUCCESS, lines, f') /\
  line_of <$> lines = (fun s => (p_reqsz p, str, s)) <$> seqZ 1 (p_cnt p).
Proof.
  intros Ho Hpr Hsz Hev Hcnt Hfuel Hin. pose proof (ping_opts_seq w opts _ _ Ho) as Hseq. change (p_seq ping_default) with 1 in Hseq. unfold MAX_ECHO_PAYLOAD, ICMP_HDR in Hsz. unfold psh_ping. rewrite Ho, Hpr. cbn [Z.eqb Pos.eqb IPPROTO_ICMP].
  unfold ping_sendping4, ping_resolveAddress.
  destruct (ph_info arg f) as (l & f1 & -> & Hin1). rewrite filter_cons_True by done. cbn [fst].
  destruct (ph_ntop f1) as (f2 & -> & Hin2). unfold ping_session.
  set (p1 := set_host p AF_INET (IP_HDR + p_reqsz p) raddr).
  change (p_reqsz p1) with (p_reqsz p). change (p_respsz p1) with (20 + p_reqsz p).
  destruct (ph_malloc (p_reqsz p) f2) as (req & f3 & -> & Hq & Hqb & Hin3); [lia|].
  destruct (ph_malloc (20 + p_reqsz p) f3) as (resp & f4 & -> & Hresp & _ & Hin4); [lia|].
  unfold ping_sockconf. change (p_af p1) with AF_INET. change (p_proto p1) with (p_proto p). rewrite Hpr.
  destruct (ph_socket f4) as (f5 & -> & Hin5). destruct (Z.ltb_spec fd 0); [lia|].
  destruct (ph_ttl (p_ttl p1) f5) as (f6 & -> & Hin6). cbn [Z.eqb negb].
  edestruct (ph_timeo (Z.quot (p_timeout p1) 1000) (Z.rem (p_timeout p1) 1000 * 1000) f6) as (f7 & -> & Hin7). cbn [Z.eqb negb].
  destruct (Z.leb_spec fd 0); [lia|]. unfold ping_reqinit. rewrite ph_pid.
  (* the request *)
  destruct (list_split_at req 8) as (hd & old & -> & Hhd); [lia|].
  destruct hd as [|x0 [|x1 [|x2 [|x3 [|x4 [|x5 [|x6 [|x7 [|]]]]]]]]]; try (zlia; lia).
  assert (Hx1 : 0 <= x1 < 256) by (apply Forall_app in Hqb as [Hqb _]; apply Forall_cons in Hqb as [_ Hqb]; by apply Forall_cons in Hqb as [? _]).
  assert (Hold : zlen old = p_reqsz p - 8) by zlia.
  cbn [app]. rewrite (wr_app [] x0 ICMP_ECHO (x1 :: x2 :: x3 :: x4 :: x5 :: x6 :: x7 :: old)) by done. cbn [mbind option_bind app].
  change (p_myid (set_myid p1 id)) with id. rewrite (put16_app [ICMP_ECHO; x1; x2; x3] x4 x5 (x6 :: x7 :: old)) by done. cbn [mbind option_bind].
  rewrite id_u16. cbn [app]. unfold payload_init.
  assert (E64 : wrapu w (p_reqsz p - ICMP_HDR) = p_reqsz p - 8).
  { unfold ICMP_HDR. apply wrapu_small. pose proof (Z.pow_le_mono_r 2 32 w ltac:(lia) Hw) as Hp32. change (2 ^ 32) with 4294967296 in Hp32. lia. }
  rewrite E64. pose proof (payload_loop_ok [ICMP_ECHO; x1; x2; x3; id / 256; id mod 256; x6; x7] (p_reqsz p - 8) ltac:(done) ltac:(lia)
    (S (length (ICMP_ECHO :: x1 :: x2 :: x3 :: id / 256 :: id mod 256 :: x6 :: x7 :: old))) 0 old ltac:(lia) ltac:(lia)
    ltac:(simpl; unfold zlen in Hold; lia)) as E. change (payload 0) with (@nil Z) in E. cbn [app] in E. rewrite E. cbn [mbind option_bind].
  set (pl := payload (p_reqsz p - 8)). assert (Hpl : zlen pl = p_reqsz p - 8) by (apply payload_zlen; lia).
  destruct (ping_loop_ok fuel x1 pl Hx1 (payload_bytes _)) with (k := S (Z.to_nat (p_cnt p)))
    (req := [ICMP_ECHO; x1; x2; x3; id / 256; id mod 256; x6; x7] ++ pl) (resp := resp) (p := set_myid p1 id) (f := f7)
    as (lines & f8 & E8 & Hl); try done; try (cbn; lia).
  { apply Z.even_spec in Hev as [k Hk]. exists (Z.to_nat (k - 4)). unfold zlen in Hpl. lia. }
  { by exists x2, x3, x6, x7. }
  { change (20 + p_reqsz p = 28 + zlen pl). lia. }
  { congruence. }
  change (p_cnt (set_myid p1 id)) with (p_cnt p). cbn [app] in E8. rewrite E8. cbn [mbind option_bind Z.leb Z.compare].
  eexists lines, _. split; [reflexivity|]. rewrite Hl. change (p_seq (set_myid p1 id)) with (p_seq p). rewrite Hseq.
  change (p_cnt (set_myid p1 id)) with (p_cnt p). apply list_fmap_ext. intros i s _. do 2 f_equal. lia.
Qed.
End session.

(** ** What goes wrong *)

(** An odd number of bytes: the word that the last one begins is read to its end. *)
Lemma chksum_loop_odd : forall l pre data off len i fuel sum,
  data = pre ++ l -> off + i = zlen pre -> len = i + zlen l -> ~ even_len l -> chksum_loop fuel data off len i sum = None.
Proof.
  fix IH 1. intros [|x [|y l]] pre data off len i [|fuel] sum Hd Ho Hlen Hodd; try done.
  - destruct Hodd. by exists 0%nat.
  - cbn [chksum_loop]. change (zlen [x]) with 1 in Hlen. destruct (Z.ltb_spec i len); [|lia].
    rewrite Hd, (rd_app pre x [] (off + i)) by lia. cbn [mbind option_bind].
    destruct (rd (pre ++ [x]) (off + (i + 1))) eqn:E; [|done].
    assert (is_Some (rd (pre ++ [x]) (off + (i + 1)))) as Hs%rd_is_Some by eauto. rewrite zlen_app in Hs.
    change (zlen [x]) with 1 in Hs. lia.
  - cbn [chksum_loop]. rewrite !zlen_cons in Hlen. pose proof (zlen_nonneg l). destruct (Z.ltb_spec i len); [|lia].
    destruct (rd data (off + i)); [|done]. destruct (rd data (off + (i + 1))); [|done]. cbn [mbind option_bind].
    apply (IH l (pre ++ [x; y])); [rewrite Hd; appeq|zlia|lia|]. intros [k Hk]. apply Hodd. exists (S k). simpl. lia.
Qed.

(** A request with an odd payload: its checksum reads the byte behind the buffer. *)
Theorem odd_request_overreads `{PingOps F} fd req p (f : F) : ~ even_len req -> ping_echo fd req (zlen req) p f = None.
Proof.
  intros Hodd. unfold ping_echo. destruct (put16 req 6 (p_seq p)) as [r1|] eqn:E1; [|done]. cbn [mbind option_bind].
  destruct (put16 r1 2 0) as [r2|] eqn:E2; [|done]. cbn [mbind option_bind].
  assert (Hz : forall a b o v, put16 a o v = Some b -> length b = length a).
  { intros a b o v E. unfold put16 in E. obind E. apply wr_zlen in E0, E. unfold zlen in *. lia. }
  apply Hz in E1, E2. unfold ping_chksum. rewrite (chksum_loop_odd r2 [] r2); [done|done|done|unfold zlen; lia|].
  intros [k Hk]. apply Hodd. exists k. lia.
Qed.

(** A size of minus one passes the test, for [strtoul] wraps and the header is added: the
    request has seven bytes, and filling its payload does not stop at their end. *)
Theorem negative_size_overflows `{PingOps F} data p (f : F) : zlen data = 7 ->
  p_reqsz <$> match ping_opts 64 [(115, bstr "-1")] ping_default with inl p => Some p | inr _ => None end = Some 7 /\
  ping_reqinit 64 data 7 p f = None.
Proof.
  intros Hd. split; [by vm_compute|].
  destruct data as [|x0 [|x1 [|x2 [|x3 [|x4 [|x5 [|x6 [|]]]]]]]]; try (zlia; lia). done.
Qed.

(** ** A simulated host

    It answers behind a packet for somebody else. *)

Definition ex_addr : bytes := [10; 0; 0; 1].
#[export] Instance ping_sim : PingOps (list (bytes * bytes)) := {
  pg_getpid _ := 4660;
  pg_getaddrinfo _ _ f := (inr [(AF_INET, ex_addr)], f);
  pg_ntop _ _ f := (Some (bstr "10.0.0.1"), f);
  pg_malloc n f := (Some (replicate (Z.to_nat n) 165), f);
  pg_socket _ _ f := (4, f);
  pg_setttl _ _ f := (0, f);
  pg_settimeo _ _ _ f := (0, f);
  pg_close _ f := f;
  pg_sendto _ msg _ f := (zlen msg, f ++ [(replicate 40 17, [10; 0; 0; 9]); (replicate 20 64 ++ reply_to msg, ex_addr)]);
  pg_recvfrom _ n f :=
    match f with
    | (m, a) :: rest => ((zlen (take (Z.to_nat n) m), take (Z.to_nat n) m, a), rest)
    | [] => ((-1, [], []), [])
    end;
  pg_usleep _ f := f;
  pg_sigint _ := false;
}.
#[export] Instance ping_sim_view : PingView (list (bytes * bytes)) := fun f => f.

#[export] Instance ping_sim_host : PingHost (list (bytes * bytes)) ex_addr (bstr "10.0.0.1") 4660 4 1.
Proof.
  split; try done; cbn; intros.
  - eexists [], _. by split.
  - by eexists.
  - eexists _, _. split; [reflexivity|]. split; [zlia|]. split; [|done]. apply Forall_replicate. lia.
  - by eexists.
  - by eexists.
  - by eexists.
  - exists [(replicate 40 17, [10; 0; 0; 9])], (replicate 20 64). eexists. split; [reflexivity|].
    split; [done|]. split; [simpl; lia|]. split; [|done]. constructor; [|done]. split; [done|]. by intros [? ?].
  - unfold pv_inbox, ping_sim_view in *. subst. eexists. split; reflexivity.
Qed.

Lemma ping_answered_witness : exists lines f',
  psh_ping 64 2 [(99, bstr "3"); (115, bstr "6")] [bstr "host"] [] = Some (EXIT_SUCCESS, lines, f') /\
  line_of <$> lines = (fun s => (14, bstr "10.0.0.1", s)) <$> seqZ 1 3.
Proof.
  apply (ping_answered (raddr := ex_addr) (pid := 4660) (fd := 4) (most := 1) 64 ltac:(done) ltac:(done) 2
           [(99, bstr "3"); (115, bstr "6")] (bstr "host")
           (Ping [] 0 false 1 3 64 AF_INET 1000 2000 14 0 0 IPPROTO_ICMP) []);
    try (by vm_compute); cbn; try lia; done.
Defined.

(** The 65536th request: its number does not fit its field, and the reply is refused. *)
Example number_65536 :
  (fun r => r.1.1.1.1.1) <$> ping_echoreply 2 4 (echo_hdr 8 0 0 4660 0) (replicate 28 0)
    (Ping ex_addr 0 false 65536 1 64 AF_INET 1000 2000 8 28 4660 IPPROTO_ICMP) [] = Some (- EIO).
Proof. by vm_compute. Qed.

(** C25: The checksum of an even number of bytes, at most 64 KiB, anywhere in a buffer, is
    that of RFC 1071: the complement of the sum of its 16-bit words with carries added
    back, although the loop adds them up in a 32-bit sum first. *)
Theorem ping_chksum_rfc pre l post : even_len l -> is_bytes l -> zlen l <= 65536 ->
  ping_chksum (pre ++ l ++ post) (zlen pre) (zlen l) = Some (rfc_checksum l).
Proof. apply chksum_rfc. Qed.

Lemma ping_chksum_rfc_witness : ping_chksum ([7] ++ [1; 2; 255; 254] ++ [9]) (zlen [7]) (zlen [1; 2; 255; 254]) = Some (rfc_checksum [1; 2; 255; 254]).
Proof. apply (ping_chksum_rfc [7] [1; 2; 255; 254] [9]); [by exists 2%nat|repeat constructor; lia|by vm_compute]. Defined.
