(* ===== verification/Wget.v ===== *)
(** * Downloading a file ([psh/wget/wget.c])

    URLs, the request, the status line, the headers and the file.  The buffer is checked
    memory: [None] is an access outside it, or the use of a string without an end.  The
    connection and the file are the class [WgetOps]; progress is left out. *)

From S2P Require Import Prelude.
From S2P Require Import Clib.

Definition WGET_BUF : Z := 4096.

(** ** The outside *)

Class WgetOps (F : Type) := {
  wg_getaddrinfo : bytes -> F -> option bytes * F;
  wg_ntop : bytes -> F -> option bytes * F;
  wg_socket : F -> Z * F;
  wg_connect : Z -> bytes -> F -> Z * F;
  wg_close : Z -> F -> F;
  (** The count, and the bytes that were read. *)
  wg_read : Z -> Z -> F -> (Z * bytes) * F;
  wg_write : Z -> bytes -> F -> Z * F;
  wg_fopen : bytes -> F -> bool * F;
  wg_fwrite : bytes -> F -> Z * F;
  wg_fclose : F -> F;
  (** [strndup]. *)
  wg_mem : F -> bool;
}.

(** [common]: the buffer, [readptr] and [len], and the outside. *)
Record wget_t (F : Type) := Wget { wg_buf : bytes; wg_ptr : Z; wg_len : Z; wg_f : F }.
Arguments Wget {F}. Arguments wg_buf {F}. Arguments wg_ptr {F}. Arguments wg_len {F}. Arguments wg_f {F}.

(** ** Strings *)

(** [memchr(buf + off, c, n)] as an index of [buf]. *)
Fixpoint memchr_loop (l : bytes) (c : Z) (n : nat) (i : Z) : option Z :=
  match n, l with
  | Datatypes.S n, x :: l => if x =? c then Some i else memchr_loop l c n (i + 1)
  | _, _ => None
  end.
Definition wget_memchr (buf : bytes) (off c n : Z) : option Z := memchr_loop (drop (Z.to_nat off) buf) c (Z.to_nat n) off.

Definition lower (c : Z) : Z := if (65 <=? c) && (c <=? 90) then c + 32 else c.
(** [strncasecmp(s, p, strlen(p)) == 0], as far as memory is read. *)
Fixpoint case_prefix (s p : bytes) : option bool :=
  match p, s with
  | [], _ => Some true
  | x :: p, y :: s => if lower y =? lower x then case_prefix s p else Some false
  | _, [] => None
  end.

(** [strtol(s, &end, 10)]. *)
Definition strtol10 (w : Z) (s : bytes) : Z * bytes :=
  let '(neg, t) := number_sign (skip_spaces s) in
  match t with
  | c :: _ =>
      if isdigit c then
        let '(v, rest) := digits 10 0 t in
        (Z.max (- 2 ^ (w - 1)) (Z.min (2 ^ (w - 1) - 1) (if neg then - v else v)), rest)
      else (0, s)
  | [] => (0, s)
  end.

(** ** URLs *)

(** The host, the path behind its first slash, and the name of the file; [None] is [-1]. *)
Definition wget_parseUrl (mem : bool) (url : bytes) : option (bytes * bytes * bytes) :=
  bare ← (match strstr url (bstr "://") with
          | None => Some url
          | Some _ => if starts_with (bstr "http://") url then Some (drop 7 url) else None
          end);
  match strrchr bare 47 with
  | Some (_ :: ((_ :: _) as filename)) =>
      match split_chr bare 47 with
      | Some (host, _ :: path) => if mem then Some (host, path, filename) else None
      | _ => None
      end
  | _ => None
  end.

Section wget.
Context {F : Type} `{WgetOps F} (w : Z).

Definition on_wg {A} (op : F -> A * F) (s : wget_t F) : A * wget_t F :=
  let '(a, f) := op (wg_f s) in (a, Wget (wg_buf s) (wg_ptr s) (wg_len s) f).

(** ** The connection *)

Definition wget_connect (host : bytes) (f : F) : Z * F :=
  let '(res, f) := wg_getaddrinfo host f in
  match res with
  | None => (-1, f)
  | Some addr =>
      let '(str, f) := wg_ntop addr f in
      match str with
      | None => (-1, f)
      | Some _ =>
          let '(fd, f) := wg_socket f in
          if fd <? 0 then (-1, f)
          else
            let '(r, f) := wg_connect fd addr f in
            if r <? 0 then (-1, wg_close fd f) else (fd, f)
      end
  end.

(** What [snprintf] makes of the request. *)
Definition wget_requestText (host path : bytes) : bytes :=
  bstr "GET /" ++ path ++ bstr " HTTP/1.1" ++ [13; 10] ++ bstr "Host: " ++ host ++ [13; 10] ++ bstr "User-Agent: Wget" ++ [13; 10; 13; 10].

(** Each write stores a byte at least. *)
Fixpoint wget_write_loop (fuel : nat) (sock : Z) (data : bytes) (f : F) : option (Z * F) :=
  match fuel with
  | O => None
  | Datatypes.S fuel =>
      if 0 <? zlen data then
        let '(ret, f) := wg_write sock data f in
        if ret <=? 0 then Some (-1, f) else wget_write_loop fuel sock (drop (Z.to_nat ret) data) f
      else Some (0, f)
  end.
Definition wget_request (sock : Z) (host path : bytes) (f : F) : option (Z * F) :=
  let text := wget_requestText host path in
  if 256 <=? zlen text then Some (-1, f) else wget_write_loop 257 sock text f.

(** ** The file *)

Fixpoint wget_file_loop (fuel : nat) (sock left : Z) (s : wget_t F) : option (Z * wget_t F) :=
  match fuel with
  | O => None
  | Datatypes.S fuel =>
      if 0 <? left then
        let '((ret, data), s) := on_wg (wg_read sock (Z.min WGET_BUF left)) s in
        if ret <=? 0 then Some (-1, s)
        else
          buf ← wr_range (wg_buf s) 0 data;
          let s := Wget buf (wg_ptr s) (wg_len s) (wg_f s) in
          data ← rd_range buf 0 ret;
          let '(n, s) := on_wg (wg_fwrite data) s in
          if negb (n =? ret) then Some (-1, s) else wget_file_loop fuel sock (wrapu w (left - ret)) s
      else Some (0, s)
  end.
Definition wget_file (fuel : nat) (sock len : Z) (s : wget_t F) : option (Z * wget_t F) :=
  if wg_ptr s <? wg_len s then
    let bytes := wg_len s - wg_ptr s in
    data ← rd_range (wg_buf s) (wg_ptr s) bytes;
    let '(n, s) := on_wg (wg_fwrite data) s in
    if negb (n =? bytes) then Some (-1, s) else wget_file_loop fuel sock (wrapu w (len - bytes)) s
  else wget_file_loop fuel sock len s.

(** ** The headers *)

Definition wget_buffer (sock : Z) (s : wget_t F) : option (Z * wget_t F) :=
  let len := wg_len s - wg_ptr s in
  buf ← memmove (wg_buf s) 0 (wg_ptr s) len;
  let s := Wget buf 0 len (wg_f s) in
  let '((ret, data), s) := on_wg (wg_read sock (WGET_BUF - len)) s in
  if ret <=? 0 then Some (-1, s)
  else
    buf ← wr_range (wg_buf s) len data;
    Some (0, Wget buf 0 (len + ret) (wg_f s)).

(** The index of a line; [None] inside is [NULL]. *)
Fixpoint wget_hdrnext (fuel : nat) (sock : Z) (s : wget_t F) : option (option Z * wget_t F) :=
  match fuel with
  | O => None
  | Datatypes.S fuel =>
      match wget_memchr (wg_buf s) (wg_ptr s) 10 (wg_len s - wg_ptr s) with
      | None => '(r, s) ← wget_buffer sock s; if negb (r =? 0) then Some (None, s) else wget_hdrnext fuel sock s
      | Some tmp => buf ← wr (wg_buf s) (tmp - 1) 0; Some (Some (wg_ptr s), Wget buf (tmp + 1) (wg_len s) (wg_f s))
      end
  end.

(** The result: the length, [2 ^ w - 1] where the connection ends.  [n] bounds the lines. *)
Fixpoint wget_parsehdrs (n fuel : nat) (sock contentLen : Z) (s : wget_t F) : option (Z * wget_t F) :=
  match n with
  | O => None
  | Datatypes.S n =>
      '(hdr, s) ← wget_hdrnext fuel sock s;
      match hdr with
      | None => Some (2 ^ w - 1, s)
      | Some hdr =>
          is_len ← case_prefix (drop (Z.to_nat hdr) (wg_buf s)) (bstr "content-length:");
          if is_len : bool then
            num ← str_at (wg_buf s) (hdr + 15);
            match skip_blanks num with
            | [] => Some (contentLen, s)
            | num =>
                let '(v, rest) := default (0, num) (strtoul w num) in
                match rest with
                | _ :: _ => Some (v, s)
                | [] => wget_parsehdrs n fuel sock v s
                end
            end
          else
            c ← rd (wg_buf s) hdr;
            if c =? 0 then Some (contentLen, s) else wget_parsehdrs n fuel sock contentLen s
      end
  end.

(** ** The status line *)

(** The status as a string; [None] inside is [NULL]. *)
Fixpoint wget_response_loop (fuel : nat) (sock : Z) (s : wget_t F) : option (option bytes * wget_t F) :=
  match fuel with
  | O => None
  | Datatypes.S fuel =>
      let '((n, data), s) := on_wg (wg_read sock (WGET_BUF - wg_len s)) s in
      if n <=? 0 then Some (None, s)
      else
        buf ← wr_range (wg_buf s) (wg_len s) data;
        let len := wg_len s + n in
        match wget_memchr buf 0 10 len with
        | None => wget_response_loop fuel sock (Wget buf n len (wg_f s))
        | Some tmp =>
            buf ← wr buf (tmp - 1) 0;
            let s := Wget buf (tmp + 1) len (wg_f s) in
            line ← str_at buf 0;
            match strstr line (bstr "HTTP") with
            | None => Some (None, s)
            | Some t => match split_chr t 32 with Some (_, _ :: status) => Some (Some status, s) | _ => Some (None, s) end
            end
        end
  end.
Definition wget_response (fuel : nat) (sock : Z) (s : wget_t F) : option (option bytes * wget_t F) :=
  wget_response_loop fuel sock (Wget (wg_buf s) 0 0 (wg_f s)).

(** ** The command *)

(** The results of [getopt]; [None] inside is the help. *)
Fixpoint wget_opts (opts : list (Z * bytes)) (output : option bytes) : option (option bytes) :=
  match opts with
  | [] => Some output
  | (c, arg) :: opts => if c =? 79 then wget_opts opts (Some arg) else if c =? 100 then wget_opts opts output else None
  end.

Definition wget_cleanup (sock : Z) (f : F) : F := wg_close sock (wg_fclose f).

(** The exit code.  [buf] is what the buffer holds before; [fuel] bounds every loop. *)
Definition psh_wget (fuel : nat) (opts : list (Z * bytes)) (args : list bytes) (buf : bytes) (f : F) : option (Z * F) :=
  match wget_opts opts None with
  | None => Some (0, f)
  | Some output =>
      match args with
      | [url] =>
          match wget_parseUrl (wg_mem f) url with
          | None => Some (2, f)
          | Some (host, path, filename) =>
              let '(ok, f) := wg_fopen (default filename output) f in
              if negb ok then Some (2, f)
              else
                let '(sock, f) := wget_connect host f in
                if sock <? 0 then Some (1, wg_fclose f)
                else
                  '(r, f) ← wget_request sock host path f;
                  if r <? 0 then Some (1, wget_cleanup sock f)
                  else
                    '(status, s) ← wget_response fuel sock (Wget buf 0 0 f);
                    match status with
                    | None => Some (1, wget_cleanup sock (wg_f s))
                    | Some status =>
                        let '(statnum, rest) := strtol10 w status in
                        match rest with
                        | 32 :: _ =>
                            if (s32 statnum <? 200) || (300 <=? s32 statnum) then Some (1, wget_cleanup sock (wg_f s))
                            else
                              '(len, s) ← wget_parsehdrs fuel fuel sock 0 s;
                              if len =? 0 then Some (0, wget_cleanup sock (wg_f s))
                              else
                                '(r, s) ← wget_file fuel sock len s;
                                Some (if r =? 0 then 0 else 1, wget_cleanup sock (wg_f s))
                        | _ => Some (1, wget_cleanup sock (wg_f s))
                        end
                    end
          end
      | _ => Some (2, f)
      end
  end.
End wget.
