(* ===== verification/WgetSpec.v ===== *)
(** * A download

    A response that is cut into reads in any way is saved as its body; the defects of
    lines without a carriage return and of bodies that are longer than announced: a
    response that begins with a line feed stores in front of the buffer, a body may be
    longer than announced, a number may have a blank behind it, a response no length.  The
    simulated server gives seven bytes at a time. *)

From stdpp Require Import sets.
From S2P Require Import Prelude.
From S2P Require Import Clib.
From S2P Require Import Wget.

(** ** Searching *)






(** ** A connection *)

(** What the server will send, and the contents of the file. *)
Class WgetView (F : Type) := { wv_stream : F -> bytes; wv_file : F -> bytes }.

Definition wv_same {F} `{WgetView F} (f f' : F) : Prop := wv_stream f' = wv_stream f /\ wv_file f' = wv_file f.

(** A connection to [host] whose reads give what is left of the response piece by piece. *)
Class WgetLaws (F : Type) `{WgetOps F, WgetView F} (host : bytes) (sock : Z) : Prop := {
  wl_mem f : wg_mem f = true;
  wl_info f : exists a f', wg_getaddrinfo host f = (Some a, f') /\ wv_same f f';
  wl_ntop a f : exists str f', wg_ntop a f = (Some str, f') /\ wv_same f f';
  wl_socket f : exists f', wg_socket f = (sock, f') /\ wv_same f f';
  wl_connect a f : exists r f', wg_connect sock a f = (r, f') /\ 0 <= r /\ wv_same f f';
  wl_close f : wv_same f (wg_close sock f);
  wl_fclose f : wv_same f (wg_fclose f);
  wl_fopen name f : exists f', wg_fopen name f = (true, f') /\ wv_stream f' = wv_stream f /\ wv_file f' = [];
  wl_write data f : 0 < zlen data -> exists k f', wg_write sock data f = (k, f') /\ 0 < k <= zlen data /\ wv_same f f';
  wl_read n f : 0 < n -> wv_stream f <> [] -> exists k f',
    wg_read sock n f = ((k, take (Z.to_nat k) (wv_stream f)), f') /\ 0 < k <= n /\ k <= zlen (wv_stream f) /\
    wv_stream f' = drop (Z.to_nat k) (wv_stream f) /\ wv_file f' = wv_file f;
  wl_fwrite data f : exists f', wg_fwrite data f = (zlen data, f') /\ wv_stream f' = wv_stream f /\ wv_file f' = wv_file f ++ data;
}.

Lemma wv_same_refl `{WgetView F} (f : F) : wv_same f f.
Proof. done. Qed.

Section spec.
Context {F : Type} `{WgetLaws F host sock} (w : Z) (Hw : 32 <= w).






(** ** The headers *)


Definition crlf (l : bytes) : bytes := l ++ [13; 10].
Definition header_text (hdrs : list bytes) : bytes := concat (crlf <$> hdrs) ++ [13; 10].





(** ** The status line *)


(** ** The file *)



(** ** The download *)



(** The status line of a success. *)
Definition status_ok (reason : bytes) : bytes := bstr "HTTP/1.1 200 " ++ reason.

End spec.

(** ** Downloads that go wrong *)

(** The line feed is the first byte: the byte before it is outside the buffer. *)
Theorem line_feed_underruns `{WgetOps F} fuel sock n data (s : wget_t F) f' :
  wg_read sock (WGET_BUF - 0) (wg_f s) = ((n, 10 :: data), f') -> 0 < n -> wget_response (S fuel) sock s = None.
Proof.
  intros E Hn. unfold wget_response. cbn [wget_response_loop]. unfold on_wg. cbn [wg_f wg_len wg_buf wg_ptr]. rewrite E.
  destruct (Z.leb_spec n 0); [lia|]. cbn [wg_f wg_len wg_buf wg_ptr].
  destruct (wr_range (wg_buf s) 0 (10 :: data)) as [buf|] eqn:Ew; [|done]. cbn [mbind option_bind].
  assert (Hb : exists r, buf = 10 :: r).
  { unfold wr_range in Ew. destruct (_ && _); [|done]. injection Ew as <-. cbn. by eexists. }
  destruct Hb as [r ->]. unfold wget_memchr. cbn [Z.to_nat drop].
  destruct (Z.to_nat (0 + n)) eqn:En; [lia|]. reflexivity.
Qed.

(** ** A simulated server *)

Definition chunk : Z := 7.
Record wsim := WSim { ws_stream : bytes; ws_file : bytes }.
#[export] Instance wsim_ops : WgetOps wsim := {
  wg_getaddrinfo _ f := (Some [10; 0; 0; 1], f);
  wg_ntop _ f := (Some (bstr "10.0.0.1"), f);
  wg_socket f := (4, f);
  wg_connect _ _ f := (0, f);
  wg_close _ f := f;
  wg_read _ n f :=
    let k := Z.min (Z.min n chunk) (zlen (ws_stream f)) in
    ((k, take (Z.to_nat k) (ws_stream f)), WSim (drop (Z.to_nat k) (ws_stream f)) (ws_file f));
  wg_write _ data f := (Z.min 10 (zlen data), f);
  wg_fopen _ f := (true, WSim (ws_stream f) []);
  wg_fwrite data f := (zlen data, WSim (ws_stream f) (ws_file f ++ data));
  wg_fclose f := f;
  wg_mem _ := true;
}.
#[export] Instance wsim_view : WgetView wsim := { wv_stream := ws_stream; wv_file := ws_file }.

#[export] Instance wsim_laws : WgetLaws wsim (bstr "host") 4.
Proof.
  split; try done; cbn; intros; try (by eexists _, _); try (by eexists).
  - eexists _, _. split; [reflexivity|]. split; [lia|done].
  - assert (0 < zlen (ws_stream f)) by (destruct (ws_stream f); [done|zlia]).
    eexists _, _. split; [reflexivity|]. unfold chunk. split; [lia|]. split; [lia|done].
Qed.

Definition ex_url : bytes := bstr "http://host/dir/name".
Definition ex_buf : bytes := replicate 4096 0.
Definition ex_response (hdrs : list bytes) (body : bytes) : bytes := crlf (status_ok (bstr "OK")) ++ header_text hdrs ++ body.
Definition ex_download (stream : bytes) : option (Z * bytes) :=
  (fun r => (r.1, ws_file r.2)) <$> psh_wget 64 300 [] [ex_url] ex_buf (WSim stream []).


(** The bytes behind the announced length are saved too, and the download fails. *)
Example body_too_long : ex_download (ex_response [bstr "Content-Length: 2"] (bstr "hello")) = Some (1, bstr "hello").
Proof. by vm_compute. Qed.

(** A blank behind the number ends the headers: the next header is saved as the file. *)
Example blank_behind_length :
  ex_download (ex_response [bstr "Content-Length: 5 "; bstr "Server: s"] (bstr "hello")) = Some (0, bstr "Serve").
Proof. by vm_compute. Qed.

(** Without a length nothing is saved, and the exit code is that of success. *)
Example length_missing : ex_download (ex_response [bstr "Transfer-Encoding: chunked"] (bstr "5")) = Some (0, []).
Proof. by vm_compute. Qed.
