(* ===== verification/Metacheck.v ===== *)
(** * Checking the metadata of raw pages ([metacheck/main.c])

    The first pages of blocks, or all pages, of partitions are read raw; their metadata is
    compared with its error correction code.  The flash server is the class [McOps], the
    encoder of the BCH library a parameter.  What is printed of single pages is left out;
    [None] is an access outside the buffer, a division by zero or a shift that C leaves
    undefined. *)

From S2P Require Import Prelude.

Definition PAGE_SZ : Z := 4096 + 256.
Definition META_SZ : Z := 16.
Definition METAECC_SZ : Z := 26.

(** A port and the object behind it. *)
Definition oid_t : Type := Z * Z.

(** The answer of the server: the result of [msgSend], [msg.o.err] and the bytes. *)
Class McOps (F : Type) := {
  mc_readraw : oid_t -> Z -> Z -> F -> (Z * Z * bytes) * F;
  mc_realpath : bytes -> F -> option bytes * F;
  mc_lookup : bytes -> F -> (Z * oid_t) * F;
  (** The port, and the object the message names; [writesz], [metasz] and [erasesz]. *)
  mc_info : Z -> oid_t -> F -> (Z * (Z * Z * Z)) * F;
}.

Record partition_t := Partition { mp_oid : oid_t; mp_rawpagesz : Z; mp_rawblocksz : Z }.

(** ** A page *)

Definition cleanmarker : bytes := [133; 25; 3; 32; 8; 0; 0; 0; 255; 255; 255; 255; 255; 255; 255; 255].
Definition containsCleanmarker (buf : bytes) : bool := bool_decide (take 16 buf = cleanmarker).
Definition isBadBlock (buf : bytes) : bool := bool_decide (take 2 buf = [0; 0]).
(** The length is an argument of the C function that it does not use. *)
Definition isErased (buf : bytes) (buflen : Z) : bool := bool_decide (take (Z.to_nat META_SZ) buf = replicate (Z.to_nat META_SZ) 255).

Definition reverse_bit (b : Z) : Z :=
  let b := Z.lor (Z.shiftr (Z.land b 170) 1) (u8 (Z.shiftl (Z.land b 85) 1)) in
  let b := Z.lor (Z.shiftr (Z.land b 204) 2) (u8 (Z.shiftl (Z.land b 51) 2)) in
  Z.lor (Z.shiftr (Z.land b 240) 4) (u8 (Z.shiftl (Z.land b 15) 4)).

Section metacheck.
Context {F : Type} `{McOps F}.
(** The code of [META_SZ] bytes. *)
Context (encode_bch : bytes -> bytes).

Definition encodeMeta (inbuf : bytes) : bytes := reverse_bit <$> encode_bch (take (Z.to_nat META_SZ) inbuf).

(** The counters of [checkPartition]. *)
Record mc_counts := Counts { c_total : Z; c_good : Z; c_badecc : Z; c_bad : Z; c_erased : Z; c_weird : Z }.

(** One page: the counters it changes. *)
Definition check_page (buf : bytes) (c : mc_counts) : mc_counts :=
  let '(Counts total good badecc bad erased weird) := c in
  let eccInvalid := negb (bool_decide (encodeMeta buf = take (Z.to_nat METAECC_SZ) (drop (Z.to_nat META_SZ) buf))) in
  if containsCleanmarker buf then
    if eccInvalid then Counts (total + 1) good (badecc + 1) bad erased weird else Counts (total + 1) (good + 1) badecc bad erased weird
  else if isErased buf META_SZ then
    Counts (total + 1) good (if negb (isErased (drop (Z.to_nat META_SZ) buf) METAECC_SZ) then badecc + 1 else badecc) bad (erased + 1) weird
  else if isBadBlock buf then Counts (total + 1) good (if eccInvalid then badecc + 1 else badecc) (bad + 1) erased weird
  else Counts (total + 1) good badecc bad erased (weird + 1).

(** ** A partition *)

(** The result, and the buffer. *)
Definition mc_read (oid : oid_t) (addr : Z) (buf : bytes) (size : Z) (f : F) : option (Z * bytes * F) :=
  let '((ret, err, data), f) := mc_readraw oid (u32 addr) size f in
  if ret <? 0 then Some (-1, buf, f)
  else buf ← wr_range buf 0 data; Some (if negb (err =? size) then err else 0, buf, f).

Fixpoint mc_loop (fuel : nat) (pageMode : bool) (part : partition_t) (offset ret : Z) (buf : bytes) (c : mc_counts) (f : F)
  : option (mc_counts * bytes * F) :=
  match fuel with
  | O => None
  | Datatypes.S fuel =>
      if ret =? 0 then
        let c := check_page buf c in
        let offset := offset + (if pageMode then mp_rawpagesz part else mp_rawblocksz part) in
        '(ret, buf, f) ← mc_read (mp_oid part) offset buf (mp_rawpagesz part) f;
        mc_loop fuel pageMode part offset ret buf c f
      else Some (c, buf, f)
  end.

Definition checkPartition (fuel : nat) (pageMode : bool) (part : partition_t) (buf : bytes) (f : F) : option (Z * mc_counts * bytes * F) :=
  '(ret, buf, f) ← mc_read (mp_oid part) 0 buf (mp_rawpagesz part) f;
  '(c, buf, f) ← mc_loop fuel pageMode part 0 ret buf (Counts 0 0 0 0 0 0) f;
  Some (if c_badecc c =? 0 then 0 else 1, c, buf, f).

(** The message that asks for the geometry does not name the object. *)
Definition partition_init (path : bytes) (f : F) : option (option partition_t * F) :=
  let '(rpath, f) := mc_realpath path f in
  match rpath with
  | None => Some (None, f)
  | Some rpath =>
      let '((e, oid), f) := mc_lookup rpath f in
      if e <? 0 then Some (None, f)
      else
        let '((r, (writesz, metasz, erasesz)), f) := mc_info (fst oid) (0, 0) f in
        if r <? 0 then Some (None, f)
        else if writesz =? 0 then None
        else let raw := u32 (metasz + writesz) in Some (Some (Partition oid raw (u32 (erasesz / writesz * raw))), f)
  end.

(** ** The program *)

(** [v << i] in an [int]. *)
Definition shl_int (v i : Z) : option Z := if (i <? 32) && (v * 2 ^ i <? 2 ^ 31) then Some (v * 2 ^ i) else None.

Fixpoint init_loop (i ret : Z) (paths : list bytes) (f : F) : option (list (option partition_t) * Z * F) :=
  match paths with
  | [] => Some ([], ret, f)
  | path :: paths =>
      '(p, f) ← partition_init path f;
      ret ← (match p with None => b ← shl_int 1 i; Some (Z.lor ret b) | Some _ => Some ret end);
      '(ps, ret, f) ← init_loop (i + 1) ret paths f;
      Some (p :: ps, ret, f)
  end.

(** A partition whose bit is set has not been initialised. *)
Fixpoint parts_loop (fuel : nat) (pageMode : bool) (i ret : Z) (parts : list (option partition_t)) (buf : bytes) (f : F) : option (Z * F) :=
  match parts with
  | [] => Some (ret, f)
  | p :: parts =>
      b ← shl_int 1 i;
      if negb (Z.land ret b =? 0) then parts_loop fuel pageMode (i + 1) ret parts buf f
      else
        p ← p;
        '(tmpret, _, buf, f) ← checkPartition fuel pageMode p buf f;
        b ← shl_int tmpret i;
        parts_loop fuel pageMode (i + 1) (Z.lor ret b) parts buf f
  end.

(** [bch] and [mem] say whether [init_bch] and [malloc] succeed; options are [v], [p], [h]. *)
Definition metacheck_main (fuel : nat) (bch mem : bool) (opts : list Z) (paths : list bytes) (f : F) : option (Z * F) :=
  if existsb (fun c => negb ((c =? 118) || (c =? 112))) opts then Some (0, f)
  else
    match paths with
    | [] => Some (1, f)
    | _ =>
        if negb bch || negb mem then Some (1, f)
        else
          '(parts, ret, f) ← init_loop 0 0 paths f;
          parts_loop fuel (existsb (Z.eqb 112) opts) 0 ret parts (replicate (Z.to_nat PAGE_SZ) 0) f
    end.
End metacheck.
