(* ===== verification/MetacheckSpec.v ===== *)
(** * What the check of the metadata finds

    Bits are reversed; the counters are those of the pages up to the first that cannot be
    read; the result of the program has the bits of the partitions that are not in order.
    An erased page whose code is damaged behind its 16th byte is not found. *)

From S2P Require Import Prelude.
From S2P Require Import Metacheck.

(** ** Reversing the bits of a byte *)

Lemma byte_in b : 0 <= b < 256 -> b ∈ seqZ 0 256.
Proof. intros. apply elem_of_seqZ. lia. Qed.

Lemma reverse_bits b i : 0 <= b < 256 -> 0 <= i < 8 -> Z.testbit (reverse_bit b) i = Z.testbit b (7 - i).
Proof.
  intros Hb Hi.
  assert (G : forallb (fun b => forallb (fun i => Bool.eqb (Z.testbit (reverse_bit b) i) (Z.testbit b (7 - i))) (seqZ 0 8)) (seqZ 0 256) = true)
    by by vm_compute.
  rewrite forallb_forall in G. specialize (G b (proj1 (list_elem_of_In _ _) (byte_in b Hb))).
  rewrite forallb_forall in G. apply eqb_prop, G, list_elem_of_In, elem_of_seqZ. lia.
Qed.

Lemma reverse_involutive b : 0 <= b < 256 -> reverse_bit (reverse_bit b) = b /\ 0 <= reverse_bit b < 256.
Proof.
  intros Hb. assert (G : forallb (fun b => (reverse_bit (reverse_bit b) =? b) && (0 <=? reverse_bit b) && (reverse_bit b <? 256)) (seqZ 0 256) = true)
    by by vm_compute.
  rewrite forallb_forall in G. specialize (G b (proj1 (list_elem_of_In _ _) (byte_in b Hb))). bprop. lia.
Qed.

(** ** Pages *)

Inductive page_kind := PClean | PErased | PBad | PWeird.
#[export] Instance page_kind_eq : EqDecision page_kind.
Proof. solve_decision. Defined.

Definition kind_of (page : bytes) : page_kind :=
  if containsCleanmarker page then PClean else if isErased page META_SZ then PErased else if isBadBlock page then PBad else PWeird.

Section spec.
Context (encode_bch : bytes -> bytes).

Definition ecc_valid (page : bytes) : bool := bool_decide (encodeMeta encode_bch page = take 26 (drop 16 page)).
(** The program counts the page among those with an invalid code: of an erased page it
    compares 16 bytes only, and of a page that it does not understand nothing. *)
Definition page_counted (page : bytes) : bool :=
  match kind_of page with
  | PClean | PBad => negb (ecc_valid page)
  | PErased => negb (isErased (drop 16 page) METAECC_SZ)
  | PWeird => false
  end.

(** The code of a page as it should be: behind the 16 bytes of metadata are the 26 bytes of
    their code, with the bits of each byte reversed; an erased page has all bits set. *)
Definition right_code (page : bytes) : Prop :=
  take 26 (drop 16 page) =
    if decide (take 16 page = replicate 16 255) then replicate 26 255 else reverse_bit <$> encode_bch (take 16 page).

(** What the program looks at: pages with a clean marker, pages of bad blocks, and erased
    pages unless their code is damaged behind its 16th byte only. *)
Definition looked_at (page : bytes) : Prop :=
  take 16 page = cleanmarker \/ take 2 page = [0; 0] \/
  take 16 page = replicate 16 255 /\ (take 16 (drop 16 page) = replicate 16 255 -> take 26 (drop 16 page) = replicate 26 255).

Lemma marked_not_erased page : take 16 page = cleanmarker \/ take 2 page = [0; 0] -> take 16 page <> replicate 16 255.
Proof.
  intros [->|E] Ef; [done|]. assert (E2 : take 2 (take 16 page) = [0; 0]) by (by rewrite take_take).
  by rewrite Ef in E2.
Qed.

(** Only pages with a wrong code are counted. *)
Lemma counted_wrong page : page_counted page = true -> ~ right_code page.
Proof.
  unfold page_counted, kind_of, right_code, ecc_valid, encodeMeta, isErased, containsCleanmarker, isBadBlock. change (Z.to_nat META_SZ) with 16%nat.
  case_bool_decide as Hc.
  { rewrite decide_False by (apply marked_not_erased; by left). intros Hn E. by rewrite bool_decide_eq_true_2 in Hn. }
  case_bool_decide as He.
  { rewrite decide_True by done. intros Hn E. apply negb_true_iff, bool_decide_eq_false in Hn. apply Hn.
    assert (E2 : take 16 (take 26 (drop 16 page)) = take 16 (drop 16 page)) by (by rewrite take_take). rewrite <- E2, E. done. }
  case_bool_decide as Hb; [|done]. rewrite decide_False by done. intros Hn E. by rewrite bool_decide_eq_true_2 in Hn.
Qed.

(** Every page that is looked at and has a wrong code is counted. *)
Lemma wrong_counted page : looked_at page -> ~ right_code page -> page_counted page = true.
Proof.
  unfold page_counted, kind_of, right_code, ecc_valid, encodeMeta, isErased, containsCleanmarker, isBadBlock. change (Z.to_nat META_SZ) with 16%nat.
  intros Hl Hr. destruct Hl as [Hc|[Hb|[He Ht]]].
  - rewrite (bool_decide_eq_true_2 _ Hc). rewrite decide_False in Hr by (apply marked_not_erased; by left).
    apply negb_true_iff, bool_decide_eq_false_2. congruence.
  - assert (Hne : take 16 page <> replicate 16 255) by (apply marked_not_erased; by right).
    rewrite decide_False in Hr by done. rewrite (bool_decide_eq_false_2 _ Hne), (bool_decide_eq_true_2 _ Hb).
    case_bool_decide; apply negb_true_iff, bool_decide_eq_false_2; congruence.
  - rewrite decide_True in Hr by done. rewrite bool_decide_eq_false_2 by (by rewrite He). rewrite (bool_decide_eq_true_2 _ He).
    apply negb_true_iff, bool_decide_eq_false_2. auto.
Qed.

Definition count (P : bytes -> bool) (pages : list bytes) : Z := zlen (filter (fun p => P p = true) pages).

Definition counts_of (pages : list bytes) : mc_counts :=
  Counts (zlen pages) (count (fun p => bool_decide (kind_of p = PClean) && ecc_valid p) pages) (count page_counted pages)
    (count (fun p => bool_decide (kind_of p = PBad)) pages) (count (fun p => bool_decide (kind_of p = PErased)) pages)
    (count (fun p => bool_decide (kind_of p = PWeird)) pages).

Definition one (b : bool) : Z := if b then 1 else 0.

Lemma count_snoc P pages p : count P (pages ++ [p]) = count P pages + one (P p).
Proof.
  unfold count, one. rewrite filter_app, zlen_app. f_equal. destruct (P p) eqn:E.
  - by rewrite filter_cons_True.
  - by rewrite filter_cons_False by (by rewrite E).
Qed.

(** What a page adds to each counter. *)
Lemma check_page_adds page t g b d e w : check_page encode_bch page (Counts t g b d e w) =
  Counts (t + 1) (g + one (bool_decide (kind_of page = PClean) && ecc_valid page)) (b + one (page_counted page))
    (d + one (bool_decide (kind_of page = PBad))) (e + one (bool_decide (kind_of page = PErased))) (w + one (bool_decide (kind_of page = PWeird))).
Proof.
  unfold check_page, page_counted, kind_of, ecc_valid, one. change (Z.to_nat METAECC_SZ) with 26%nat. change (Z.to_nat META_SZ) with 16%nat.
  destruct (containsCleanmarker page), (isErased page META_SZ), (isErased (drop 16 page) METAECC_SZ), (isBadBlock page);
    destruct (bool_decide (encodeMeta _ _ = _)); cbn [negb andb]; f_equal; repeat case_bool_decide; simplify_eq; cbn [andb]; lia.
Qed.

Lemma check_page_counts page pages : check_page encode_bch page (counts_of pages) = counts_of (pages ++ [page]).
Proof. unfold counts_of. by rewrite check_page_adds, !count_snoc, zlen_app. Qed.

(** Only the first bytes of the buffer count. *)
Lemma check_page_prefix page rest c : 42 <= zlen page -> check_page encode_bch (page ++ rest) c = check_page encode_bch page c.
Proof.
  intros Hl. assert (Hn : (42 <= length page)%nat) by (unfold zlen in Hl; lia).
  unfold check_page, containsCleanmarker, isErased, isBadBlock, encodeMeta.
  change (Z.to_nat METAECC_SZ) with 26%nat. change (Z.to_nat META_SZ) with 16%nat.
  rewrite !drop_app_le by lia. rewrite !take_app_le by (rewrite ?length_drop; lia). done.
Qed.

(** ** Partitions *)

Context {F : Type} `{McOps F}.

(** A partition that has [pages], those that are looked at: behind them reading fails, with
    an error or with a part of a page. *)
Record mc_part (pageMode : bool) (part : partition_t) (pages : list bytes) : Prop := {
  mc_step := if pageMode then mp_rawpagesz part else mp_rawblocksz part;
  mc_size : 42 <= mp_rawpagesz part <= PAGE_SZ;
  mc_small : 0 <= mc_step /\ (zlen pages + 1) * mc_step < 4294967296;
  mc_good k page f : pages !! k = Some page -> zlen page = mp_rawpagesz part /\ exists ret f',
    mc_readraw (mp_oid part) (Z.of_nat k * mc_step) (mp_rawpagesz part) f = ((ret, mp_rawpagesz part, page), f') /\ 0 <= ret;
  mc_end f : exists ret err data f', mc_readraw (mp_oid part) (zlen pages * mc_step) (mp_rawpagesz part) f = ((ret, err, data), f') /\
    zlen data <= PAGE_SZ /\ (ret < 0 \/ err <> 0 /\ err <> mp_rawpagesz part);
}.

Lemma mc_read_good pageMode part pages k page buf (f : F) : mc_part pageMode part pages -> pages !! k = Some page -> zlen buf = PAGE_SZ ->
  exists rest f', mc_read (mp_oid part) (Z.of_nat k * (if pageMode then mp_rawpagesz part else mp_rawblocksz part)) buf (mp_rawpagesz part) f
  = Some (0, page ++ rest, f') /\ zlen (page ++ rest) = PAGE_SZ.
Proof.
  intros Hp Hk Hb. pose proof (mc_size _ _ _ Hp). pose proof (mc_small _ _ _ Hp) as [Hs0 Hs].
  destruct (mc_good _ _ _ Hp k page f Hk) as (Hz & ret & f' & E & Hr). unfold mc_read. unfold mc_step in *.
  assert (Z.of_nat k < zlen pages) by (apply lookup_lt_Some in Hk; unfold zlen; lia).
  rewrite u32_small by nia. rewrite E. destruct (Z.ltb_spec ret 0); [lia|].
  destruct (list_split_at buf (zlen page)) as (b1 & b2 & -> & Hb1); [lia|]. rewrite (wr_range_app [] b1 b2) by (done || lia).
  cbn [mbind option_bind app]. rewrite Z.eqb_refl. exists b2, f'. split; [done|]. zlia.
Qed.

Lemma mc_read_end pageMode part pages buf (f : F) : mc_part pageMode part pages -> zlen buf = PAGE_SZ -> exists ret buf' f',
  mc_read (mp_oid part) (zlen pages * (if pageMode then mp_rawpagesz part else mp_rawblocksz part)) buf (mp_rawpagesz part) f
  = Some (ret, buf', f') /\ ret <> 0 /\ zlen buf' = PAGE_SZ.
Proof.
  intros Hp Hb. pose proof (mc_small _ _ _ Hp) as [Hs0 Hs]. destruct (mc_end _ _ _ Hp f) as (ret & err & data & f' & E & Hd & He).
  unfold mc_read. unfold mc_step in *. pose proof (zlen_nonneg pages). rewrite u32_small by nia. rewrite E.
  destruct (Z.ltb_spec ret 0); [by exists (-1), buf, f'|]. destruct He as [|[He1 He2]]; [lia|].
  destruct (proj2 (wr_range_is_Some buf 0 data)) as [b Hw]; [lia|]. rewrite Hw. cbn [mbind option_bind].
  destruct (Z.eqb_spec err (mp_rawpagesz part)); [done|]. cbn [negb]. apply wr_range_zlen in Hw. exists err, b, f'. by rewrite Hw.
Qed.

Lemma mc_loop_ok pageMode part pages : mc_part pageMode part pages -> forall fuel k page rest (f : F),
  pages !! k = Some page -> zlen (page ++ rest) = PAGE_SZ -> (length pages - k < fuel)%nat -> exists buf f',
  mc_loop encode_bch (S fuel) pageMode part (Z.of_nat k * (if pageMode then mp_rawpagesz part else mp_rawblocksz part)) 0
    (page ++ rest) (counts_of (take k pages)) f = Some (counts_of pages, buf, f') /\ zlen buf = PAGE_SZ.
Proof.
  intros Hp. induction fuel as [|fuel IH]; intros k page rest f Hk Hz Hf; [apply lookup_lt_Some in Hk; lia|].
  change (mc_loop encode_bch (S (S fuel))) with
    (fun pageMode part offset ret buf c (f : F) =>
      if ret =? 0 then
        let c := check_page encode_bch buf c in
        let offset := offset + (if pageMode : bool then mp_rawpagesz part else mp_rawblocksz part) in
        '(ret, buf, f) ← mc_read (mp_oid part) offset buf (mp_rawpagesz part) f;
        mc_loop encode_bch (S fuel) pageMode part offset ret buf c f
      else Some (c, buf, f)).
  cbv beta. rewrite Z.eqb_refl. cbv zeta.
  assert (H42 : 42 <= zlen page) by (destruct (mc_good _ _ _ Hp k page f Hk) as (-> & _); pose proof (mc_size _ _ _ Hp); lia).
  rewrite check_page_prefix, check_page_counts by done. rewrite <- (take_S_r pages k page) by done.
  replace (Z.of_nat k * _ + _) with (Z.of_nat (S k) * (if pageMode then mp_rawpagesz part else mp_rawblocksz part)) by lia.
  destruct (pages !! S k) as [page'|] eqn:Hk'.
  - destruct (mc_read_good pageMode part pages (S k) page' (page ++ rest) f Hp Hk' Hz) as (rest' & f' & E & Hz'). rewrite E.
    cbn [mbind option_bind]. apply IH; [done|done|]. apply lookup_lt_Some in Hk. lia.
  - apply lookup_ge_None in Hk'. pose proof (lookup_lt_Some _ _ _ Hk). assert (El : length pages = S k) by lia.
    destruct (mc_read_end pageMode part pages (page ++ rest) f Hp Hz) as (ret & buf' & f' & E & Hr & Hz').
    unfold zlen at 1 in E. rewrite El in E. rewrite E. cbn [mbind option_bind mc_loop]. destruct (Z.eqb_spec ret 0); [done|].
    rewrite take_ge by lia. by exists buf', f'.
Qed.

(** A partition is checked up to the first page that cannot be read; the counters are
    those of its pages, and the result is whether one of them is bad. *)
Lemma checkPartition_ok pageMode part pages fuel buf (f : F) : mc_part pageMode part pages -> zlen buf = PAGE_SZ ->
  (length pages + 1 < fuel)%nat -> exists buf' f',
  checkPartition encode_bch fuel pageMode part buf f = Some (if existsb page_counted pages then 1 else 0, counts_of pages, buf', f') /\
  zlen buf' = PAGE_SZ.
Proof.
  intros Hp Hb Hf. unfold checkPartition.
  assert (Er : (if count page_counted pages =? 0 then 0 else 1) = if existsb page_counted pages then 1 else 0).
  { unfold count. clear. induction pages as [|p pages IH]; [done|]. cbn [existsb]. destruct (page_counted p) eqn:E; cbn [orb].
    - rewrite filter_cons_True by done. rewrite zlen_cons. pose proof (zlen_nonneg (filter (fun p => page_counted p = true) pages)).
      destruct (Z.eqb_spec (1 + zlen (filter (fun p => page_counted p = true) pages)) 0); [lia|done].
    - by rewrite filter_cons_False by (by rewrite E). }
  destruct pages as [|page pages'] eqn:Epg.
  - destruct (mc_read_end pageMode part [] buf f Hp Hb) as (ret & buf' & f' & E & Hr & Hz). change (zlen [] * _) with 0 in E. rewrite E.
    destruct fuel as [|fuel]; [simpl in Hf; lia|]. cbn [mbind option_bind mc_loop]. destruct (Z.eqb_spec ret 0); [done|]. by exists buf', f'.
  - destruct (mc_read_good pageMode part (page :: pages') 0 page buf f Hp eq_refl Hb) as (rest & f' & E & Hz).
    change (Z.of_nat 0 * _) with 0 in E. rewrite E. cbn [mbind option_bind].
    destruct fuel as [|fuel]; [lia|].
    destruct (mc_loop_ok pageMode part (page :: pages') Hp fuel 0 page rest f' eq_refl Hz) as (buf' & f2 & E2 & Hz2); [lia|].
    change (Z.of_nat 0 * _) with 0 in E2. change (counts_of (take 0 (page :: pages'))) with (Counts 0 0 0 0 0 0) in E2. rewrite E2.
    cbn [mbind option_bind]. exists buf', f2. change (c_badecc (counts_of (page :: pages'))) with (count page_counted (page :: pages')).
    by rewrite Er.
Qed.
End spec.

(** * The program *)

Lemma land_bit r i : 0 <= i -> (Z.land r (2 ^ i) =? 0) = negb (Z.testbit r i).
Proof.
  intros Hi. destruct (Z.testbit r i) eqn:E; cbn [negb].
  - apply Z.eqb_neq. intros H0. apply (f_equal (fun x => Z.testbit x i)) in H0.
    rewrite Z.land_spec, Z.pow2_bits_true, E, Z.bits_0 in H0 by lia. done.
  - apply Z.eqb_eq, Z.bits_inj'. intros j Hj. rewrite Z.land_spec, Z.bits_0, Z.pow2_bits_eqb by lia.
    destruct (Z.eqb_spec i j); [subst; by rewrite E|apply andb_false_r].
Qed.

(** The bits of the elements with [g], from the [i]-th on. *)
Fixpoint mask {A} (g : A -> bool) (i ret : Z) (l : list A) : Z :=
  match l with
  | [] => ret
  | a :: l => mask g (i + 1) (if g a then Z.lor ret (2 ^ i) else ret) l
  end.

Lemma mask_spec {A} (g : A -> bool) l : forall i ret j, 0 <= i -> 0 <= j ->
  Z.testbit (mask g i ret l) j = Z.testbit ret j || (if i <=? j then match l !! Z.to_nat (j - i) with Some a => g a | None => false end else false).
Proof.
  induction l as [|a l IH]; intros i ret j Hi Hj; cbn [mask].
  - rewrite lookup_nil. by destruct (i <=? j); rewrite orb_false_r.
  - rewrite IH by lia. replace (Z.testbit (if g a then _ else _) j) with (Z.testbit ret j || (g a && (i =? j))).
    2:{ destruct (g a); [by rewrite Z.lor_spec, Z.pow2_bits_eqb by lia|by rewrite orb_false_r]. }
    rewrite <- orb_assoc. f_equal. destruct (Z.eqb_spec i j) as [->|Hn].
    + rewrite (proj2 (Z.leb_gt (j + 1) j)), (proj2 (Z.leb_le j j)), Z.sub_diag by lia. cbn [Z.to_nat lookup list_lookup].
      by rewrite andb_true_r, orb_false_r.
    + rewrite andb_false_r. cbn [orb]. destruct (Z.leb_spec i j).
      * rewrite (proj2 (Z.leb_le (i + 1) j)) by lia. replace (Z.to_nat (j - i)) with (S (Z.to_nat (j - (i + 1)))) by lia. done.
      * by rewrite (proj2 (Z.leb_gt (i + 1) j)) by lia.
Qed.

Section program.
Context (encode_bch : bytes -> bytes) {F : Type} `{McOps F}.

(** What a path leads to: nothing, or a partition and the pages of it that are looked at. *)
Definition mc_target : Type := option (partition_t * list bytes).
Definition found (t : mc_target) : option partition_t := match t with None => None | Some (part, _) => Some part end.
Definition mc_opens (pageMode : bool) (path : bytes) (t : mc_target) : Prop :=
  (forall f : F, exists f', partition_init path f = Some (found t, f')) /\
  (forall part pages, t = Some (part, pages) -> mc_part pageMode part pages).
Definition mc_faulty (t : mc_target) : bool := match t with None => true | Some (_, pages) => existsb (page_counted encode_bch) pages end.
(** The path cannot be opened, or a page has a wrong code; and such a page is looked at. *)
Definition damaged (t : mc_target) : Prop :=
  match t with None => True | Some (_, pages) => exists page, page ∈ pages /\ ~ right_code encode_bch page end.
Definition damage_seen (t : mc_target) : Prop :=
  match t with None => True | Some (_, pages) => exists page, page ∈ pages /\ looked_at page /\ ~ right_code encode_bch page end.

Lemma faulty_damaged t : (mc_faulty t = true -> damaged t) /\ (damage_seen t -> mc_faulty t = true).
Proof.
  destruct t as [[part pages]|]; [|done]. cbn. rewrite existsb_exists. split.
  - intros (page & Hin & Hc). exists page. split; [by apply list_elem_of_In|]. by apply counted_wrong.
  - intros (page & Hin & Hl & Hr). exists page. split; [by apply list_elem_of_In|]. by apply wrong_counted.
Qed.
Definition not_opened (t : mc_target) : bool := match t with None => true | Some _ => false end.

Lemma shl_bit i : 0 <= i < 31 -> shl_int 1 i = Some (2 ^ i).
Proof.
  intros Hi. unfold shl_int. assert (2 ^ i < 2 ^ 31) by (apply Z.pow_lt_mono_r; lia).
  rewrite Z.mul_1_l, (proj2 (Z.ltb_lt i 32)), (proj2 (Z.ltb_lt (2 ^ i) (2 ^ 31))) by lia. done.
Qed.

Lemma init_loop_ok pageMode ts : forall paths i ret (f : F), Forall2 (mc_opens pageMode) paths ts -> 0 <= i -> i + zlen ts <= 31 ->
  exists f', init_loop i ret paths f = Some (map found ts, mask not_opened i ret ts, f').
Proof.
  induction ts as [|t ts IH]; intros paths i ret f Hall Hi Hl; inversion Hall as [|path ? paths' ? Hop Hrest]; subst; cbn [init_loop]; [by exists f|].
  destruct (proj1 Hop f) as (f1 & E). rewrite E. cbn [mbind option_bind]. rewrite zlen_cons in Hl. pose proof (zlen_nonneg ts).
  destruct t as [[part pages]|]; cbn [found map not_opened mask].
  - destruct (IH paths' (i + 1) ret f1 Hrest) as (f2 & E2); [lia|lia|]. cbn [mbind option_bind]. rewrite E2. by exists f2.
  - rewrite shl_bit by lia. cbn [mbind option_bind]. destruct (IH paths' (i + 1) (Z.lor ret (2 ^ i)) f1 Hrest) as (f2 & E2); [lia|lia|].
    rewrite E2. by exists f2.
Qed.

Definition with_bad (t : mc_target) : bool := match t with None => false | Some (_, pages) => existsb (page_counted encode_bch) pages end.

(** [ret] has the bits of the partitions that were not opened. *)
Lemma parts_loop_ok pageMode fuel ts : forall i ret buf (f : F),
  (forall part pages, Some (part, pages) ∈ ts -> mc_part pageMode part pages /\ (length pages + 1 < fuel)%nat) ->
  0 <= i -> i + zlen ts <= 31 -> zlen buf = PAGE_SZ -> (forall k t, ts !! k = Some t -> Z.testbit ret (i + Z.of_nat k) = not_opened t) ->
  exists f', parts_loop encode_bch fuel pageMode i ret (map found ts) buf f = Some (mask with_bad i ret ts, f').
Proof.
  induction ts as [|t ts IH]; intros i ret buf f Hp Hi Hl Hb Hr; cbn [map parts_loop mask]; [by exists f|].
  rewrite zlen_cons in Hl. pose proof (zlen_nonneg ts). rewrite shl_bit by lia. cbn [mbind option_bind]. rewrite land_bit by lia.
  pose proof (Hr 0%nat t eq_refl) as Hb0. rewrite Z.add_0_r in Hb0. rewrite Hb0.
  assert (Hr' : forall ret', (forall j, i < j -> Z.testbit ret' j = Z.testbit ret j) ->
    forall k t, ts !! k = Some t -> Z.testbit ret' (i + 1 + Z.of_nat k) = not_opened t).
  { intros ret' Hret k t' Hk. rewrite Hret by lia. rewrite <- (Hr (S k) t' Hk). f_equal. lia. }
  assert (Hp' : forall part pages, Some (part, pages) ∈ ts -> mc_part pageMode part pages /\ (length pages + 1 < fuel)%nat)
    by (intros part pages Hin; apply Hp; by right).
  destruct t as [[part pages]|]; cbn [not_opened negb with_bad found mbind option_bind]; [|eauto with lia].
  destruct (Hp part pages) as [Hmp Hfu]; [by left|]. destruct (checkPartition_ok encode_bch pageMode part pages fuel buf f Hmp Hb Hfu) as (buf' & f1 & E & Hb').
  rewrite E. cbn [mbind option_bind]. destruct (existsb _ pages).
  - rewrite shl_bit by lia. cbn [mbind option_bind]. apply IH; [done|lia|lia|done|]. apply Hr'. intros j Hj.
    by rewrite Z.lor_spec, Z.pow2_bits_false, orb_false_r by lia.
  - assert (Es : shl_int 0 i = Some 0) by (unfold shl_int; by rewrite Z.mul_0_l, (proj2 (Z.ltb_lt i 32)) by lia).
    rewrite Es. cbn [mbind option_bind]. rewrite Z.lor_0_r. apply IH; [done|lia|lia|done|]. by apply Hr'.
Qed.
End program.

(** C26: The result of the program is a bitmask: every partition that can be opened is read
    up to its last page, when the server answers the read behind it with an error or a
    part of a page ([mc_end]; an answer of 0 bytes is repeated for ever).  Bit [i] is only
    set when the [i]-th path cannot be opened or a page read has a wrong code; it is set
    when the path cannot be opened or such a page is one of those looked at
    ([looked_at]: all but pages with unknown metadata and erased pages whose code is
    damaged behind its 16th byte only, [erased_tail_missed]).  No other bit is set. *)
Theorem metacheck_mask (encode_bch : bytes -> bytes) {F} `{McOps F} fuel opts paths (ts : list mc_target) (f : F) :
  Forall (fun c => c = 118 \/ c = 112) opts -> Forall2 (mc_opens (existsb (Z.eqb 112) opts)) paths ts -> 0 < zlen ts <= 31 ->
  (forall part pages, Some (part, pages) ∈ ts -> (length pages + 1 < fuel)%nat) ->
  exists m f', metacheck_main encode_bch fuel true true opts paths f = Some (m, f') /\
    forall j, 0 <= j -> match ts !! Z.to_nat j with
    | Some t => (Z.testbit m j = true -> damaged encode_bch t) /\ (damage_seen encode_bch t -> Z.testbit m j = true)
    | None => Z.testbit m j = false
    end.
Proof.
  intros Ho Hall Hn Hfu. unfold metacheck_main.
  assert (Ho' : existsb (fun c => negb ((c =? 118) || (c =? 112))) opts = false).
  { apply not_true_is_false. rewrite existsb_exists. intros (c & Hc & E). apply list_elem_of_In in Hc.
    rewrite Forall_forall in Ho. by destruct (Ho c Hc) as [-> | ->]. }
  rewrite Ho'. destruct paths as [|path paths']; [inversion Hall; subst; change (zlen []) with 0 in Hn; lia|]. cbn [negb orb].
  destruct (init_loop_ok _ ts _ 0 0 f Hall) as (f1 & E1); [lia|lia|]. rewrite E1. cbn [mbind option_bind].
  assert (Hin : forall t, t ∈ ts -> exists path, mc_opens (existsb (Z.eqb 112) opts) path t).
  { intros t Ht. apply list_elem_of_lookup in Ht as [k Hk]. destruct (Forall2_lookup_r _ _ _ _ _ Hall Hk) as (x & _ & Hx). by exists x. }
  destruct (parts_loop_ok encode_bch (existsb (Z.eqb 112) opts) fuel ts 0 (mask not_opened 0 0 ts) (replicate (Z.to_nat PAGE_SZ) 0) f1) as (f2 & E2).
  - intros part pages Ht. split; [|by eapply Hfu]. destruct (Hin _ Ht) as (x & _ & Hx). by apply Hx.
  - lia.
  - lia.
  - done.
  - intros k t Hk. rewrite mask_spec, Z.bits_0 by lia. cbn [orb]. rewrite (proj2 (Z.leb_le 0 _)) by lia.
    replace (Z.to_nat _) with k by lia. by rewrite Hk.
  - exists (mask (with_bad encode_bch) 0 (mask not_opened 0 0 ts) ts), f2. split; [done|]. intros j Hj.
    assert (E : Z.testbit (mask (with_bad encode_bch) 0 (mask not_opened 0 0 ts) ts) j =
      match ts !! Z.to_nat j with Some t => mc_faulty encode_bch t | None => false end).
    { rewrite !mask_spec, Z.bits_0, (proj2 (Z.leb_le 0 j)), Z.sub_0_r by lia. by destruct (ts !! Z.to_nat j) as [[[? ?]|]|]. }
    rewrite E. destruct (ts !! Z.to_nat j) as [t|]; [apply faulty_damaged|done].
Qed.

(** Of the code of an erased page only the first 16 of 26 bytes are looked at: damage of the
    others is not found, against what the comment expects. *)
Theorem erased_tail_missed encode_bch tail : page_counted encode_bch (replicate 32 255 ++ tail) = false /\
  (take 10 tail <> replicate 10 255 -> ~ right_code encode_bch (replicate 32 255 ++ tail)).
Proof.
  unfold page_counted, kind_of, right_code. split; [done|]. rewrite decide_True by done. cbn. intros Hne E. apply Hne.
  by injection E.
Qed.

(** ** A simulated server

    Two partitions with pages of fifty bytes: one in order, the other with a damaged bad
    block marker. *)

Definition ex_code (_ : bytes) : bytes := replicate 26 165.
Definition ex_clean : bytes := cleanmarker ++ replicate 26 165 ++ replicate 8 0.
Definition ex_spoiled : bytes := replicate 50 0.
Definition ex_pages (id : Z) : list bytes := if id =? 1 then [ex_clean; replicate 50 255; ex_clean] else [ex_clean; ex_spoiled].

#[export] Instance mc_sim : McOps unit := {
  mc_readraw oid addr size f := (match ex_pages (snd oid) !! Z.to_nat (addr / 50) with Some p => (0, size, p) | None => (0, -22, []) end, f);
  mc_realpath path f := (Some path, f);
  mc_lookup path f := ((match path with [49] => (0, (7, 1)) | [51] => (0, (7, 2)) | _ => (-2, (0, 0)) end), f);
  mc_info _ _ f := ((0, (8, 42, 16)), f);
}.

Lemma sim_part id : mc_part (F := unit) true (Partition (7, id) 50 100) (ex_pages id).
Proof.
  assert (Hs : exists a b l, ex_pages id = a :: b :: l /\ (length l <= 1)%nat) by (unfold ex_pages; destruct (id =? 1); by do 3 eexists; split; [done|simpl; lia]).
  assert (Hl : (length (ex_pages id) <= 3)%nat) by (destruct Hs as (? & ? & ? & -> & ?); simpl; lia).
  split; cbn [mp_rawpagesz mp_oid].
  - by unfold PAGE_SZ.
  - unfold zlen. lia.
  - intros k page f Hk. split.
    + assert (Ha : Forall (fun p => zlen p = 50) (ex_pages id)) by (unfold ex_pages; destruct (id =? 1); by repeat constructor).
      by apply (proj1 (Forall_lookup _ _) Ha k).
    + exists 0, tt. cbn. destruct f. rewrite Z.div_mul, Nat2Z.id, Hk by lia. done.
  - intros f. exists 0, (-22), [], f. cbn. unfold zlen at 1. rewrite Z.div_mul, Nat2Z.id by lia. rewrite (lookup_ge_None_2 (ex_pages id)) by lia.
    split; [done|]. split; [by unfold PAGE_SZ|lia].
Qed.

Lemma metacheck_mask_witness : exists m f', metacheck_main ex_code 5 true true [112] [[49]; [50]; [51]] tt = Some (m, f') /\
  forall j, 0 <= j -> Z.testbit m j = match [false; true; true] !! Z.to_nat j with Some b => b | None => false end.
Proof.
  destruct (metacheck_mask ex_code 5 [112] [[49]; [50]; [51]]
    [Some (Partition (7, 1) 50 100, ex_pages 1); None; Some (Partition (7, 2) 50 100, ex_pages 2)] tt) as (m & f' & E & Hm).
  - constructor; [by right|constructor].
  - constructor; [|constructor; [|constructor; [|constructor]]];
      (split; [intros []; by eexists|intros part pages E; simplify_eq; apply sim_part]).
  - done.
  - intros part pages Hin. rewrite !elem_of_cons, elem_of_nil in Hin. destruct Hin as [[= _ ->]|[?|[[= _ ->]|[]]]]; [simpl; lia|done|simpl; lia].
  - exists m, f'. split; [done|]. intros j Hj. specialize (Hm j Hj). destruct (Z.to_nat j) as [|[|[|]]]; cbn in Hm.
    + apply not_true_is_false. intros E1. destruct (proj1 Hm E1) as (page & Hin & Hr). apply Hr.
      rewrite !elem_of_cons, elem_of_nil in Hin. destruct Hin as [->|[->|[->|[]]]]; by vm_compute.
    + by apply Hm.
    + apply Hm. exists ex_spoiled. split; [by right; left|]. split; [by right; left|]. by vm_compute.
    + exact Hm.
Defined.

(** The three results at once: the mask is six. *)
Example mask_is_six : fst <$> metacheck_main ex_code 5 true true [112] [[49]; [50]; [51]] tt = Some 6.
Proof. by vm_compute. Qed.
