(* ===== verification/Ntp.v ===== *)
(** * Setting the clock from a server ([psh/ntpclient/ntpclient.c])

    The configuration, one exchange with a server, the setting of the clock and the
    attempts of a waiting window.  Sockets, the clock and the file are the class [NtpOps]:
    a call that fails gives the negative [errno].  A read or a write of a socket may block
    for ever, which is [None]: the timeouts set before decide whether it can. *)

From S2P Require Import Prelude.
From S2P Require Import Clib.

Definition EPROTO : Z := 71.
Definition ETIMEDOUT : Z := 110.

Definition NTP_JAN1970_DELTA : Z := 2208988800.
Definition NTP_MODE_PASSIVE : Z := 2.
Definition NTP_MODE_CLIENT : Z := 3.
Definition NTP_MODE_SERVER : Z := 4.
Definition NTP_LEAP_NOSYNC : Z := 0.
Definition NTP_RETRY_INTERVAL_S : Z := 3.
Definition NTP_RECV_TIMEOUT_S : Z := 5.

(** In 32 bits. *)
Definition FRAC_TO_USEC (x : Z) : Z := u32 (Z.shiftr x 12 - u32 (759 * Z.shiftr (u32 (Z.shiftr x 10 + 32768)) 16)).
Definition NTP_LI_VN_MODE (li vn mode : Z) : Z := Z.lor (Z.lor (Z.shiftl (Z.land li 3) 6) (Z.shiftl (Z.land vn 7) 3)) (Z.land mode 7).
Definition NTP_MODE (li_vn_mode : Z) : Z := Z.land li_vn_mode 7.

(** The fields of [struct sntp_pkt_s] that are used, by their offsets. *)
Definition SNTP_PKT : Z := 48.
Definition PKT_STRATUM : Z := 1.
Definition PKT_TXSEC : Z := 40.
Definition PKT_TXFRAC : Z := 44.
(** [ntohl] of a field. *)
Definition pkt_word (pkt : bytes) (off : Z) : option Z :=
  a ← rd pkt off; b ← rd pkt (off + 1); c ← rd pkt (off + 2); d ← rd pkt (off + 3);
  Some (((a * 256 + b) * 256 + c) * 256 + d).

Class NtpOps (F : Type) := {
  (** The addresses, or the result and [errno]. *)
  np_getaddrinfo : bytes -> F -> (Z * Z + list bytes) * F;
  np_EAI_SYSTEM : Z;
  np_ntop : bytes -> F -> Z * F;
  np_socket : F -> Z * F;
  np_rcvtimeo : Z -> Z -> F -> Z * F;
  np_sndtimeo : Z -> Z -> F -> Z * F;
  np_connect : Z -> bytes -> F -> Z * F;
  np_close : Z -> F -> F;
  (** [None]: the call never returns. *)
  np_write : Z -> bytes -> F -> option (Z * F);
  np_read : Z -> Z -> F -> option ((Z * bytes) * F);
  np_gettimeofday : F -> Z * F;
  np_settimeofday : Z -> Z -> F -> Z * F;
  np_time : F -> Z * F;
  np_sleep : Z -> F -> F;
  (** [/etc/ntp.conf], where it can be opened. *)
  np_conf : F -> option bytes * F;
}.

(** ** The configuration *)

Definition is_trail (c : Z) : bool := (c =? 10) || (c =? 13) || (c =? 32) || (c =? 9).
Fixpoint trim_end (l : bytes) : bytes :=
  match l with
  | [] => []
  | c :: l => match trim_end l with [] => if is_trail c then [] else [c] | l' => c :: l' end
  end.

(** Every line takes a byte at least.  [None] inside is [-1]. *)
Fixpoint conf_loop (fuel : nat) (outsz : Z) (content : bytes) : option (option bytes) :=
  match fuel with
  | O => None
  | Datatypes.S fuel =>
      match content with
      | [] => Some None
      | _ =>
          let '(line, rest) := fgets_line 159 content in
          let p := skip_blanks (cstr line) in
          match p with
          | [] => conf_loop fuel outsz rest
          | c :: _ =>
              if (c =? 35) || (c =? 10) then conf_loop fuel outsz rest
              else
                let v := match split_chr p 61 with Some (_, _ :: v) => v | _ => p end in
                let v := trim_end (skip_blanks v) in
                Some (match v with [] => None | _ => if zlen v <? outsz then Some v else None end)
          end
      end
  end.

Section ntp.
Context {F : Type} `{NtpOps F}.

Definition ntpclient_confServer (outsz : Z) (f : F) : option (option bytes * F) :=
  let '(content, f) := np_conf f in
  match content with
  | None => Some (None, f)
  | Some content => r ← conf_loop (Datatypes.S (length content)) outsz content; Some (r, f)
  end.

(** ** An exchange *)

(** The socket, or an error.  An empty list of addresses is a division by zero. *)
Definition ntpclient_connect (host : bytes) (timeout attempt : Z) (f : F) : option (Z * F) :=
  let '(res, f) := np_getaddrinfo host f in
  match res with
  | inl (ret, errno) => Some (if ret =? np_EAI_SYSTEM then - errno else ret, f)
  | inr addrs =>
      if zlen addrs =? 0 then None
      else
        ai ← rd addrs (attempt mod zlen addrs);
        let '(r, f) := np_ntop ai f in
        if r <? 0 then Some (r, f)
        else
          let '(sockfd, f) := np_socket f in
          if sockfd <? 0 then Some (sockfd, f)
          else
            let '(r, f) := np_rcvtimeo sockfd timeout f in
            if r <? 0 then Some (r, np_close sockfd f)
            else
              let '(r, f) := np_sndtimeo sockfd timeout f in
              if r <? 0 then Some (r, np_close sockfd f)
              else
                let '(r, f) := np_connect sockfd ai f in
                if r <? 0 then Some (r, np_close sockfd f) else Some (sockfd, f)
  end.

(** The packet that is sent: zeros but for the first four bytes. *)
Definition ntp_request : bytes :=
  NTP_LI_VN_MODE NTP_LEAP_NOSYNC 4 NTP_MODE_CLIENT :: 16 :: 3 :: u8 (-6) :: replicate 44 0.

Fixpoint ntp_write (fuel : nat) (sockfd : Z) (data : bytes) (f : F) : option (Z * F) :=
  match fuel with
  | O => None
  | Datatypes.S fuel =>
      if 0 <? zlen data then
        '(bytes, f) ← np_write sockfd data f;
        if bytes <? 0 then
          if bytes =? - EAGAIN then Some (- ETIMEDOUT, f)
          else if negb (bytes =? - EINTR) then Some (bytes, f)
          else ntp_write fuel sockfd data f
        else if zlen data <? bytes then None
        else ntp_write fuel sockfd (drop (Z.to_nat bytes) data) f
      else Some (0, f)
  end.

Fixpoint ntp_read (fuel : nat) (sockfd : Z) (pkt : bytes) (f : F) : option (Z * bytes * F) :=
  match fuel with
  | O => None
  | Datatypes.S fuel =>
      '((bytes, data), f) ← np_read sockfd SNTP_PKT f;
      if bytes =? SNTP_PKT then pkt ← wr_range pkt 0 data; Some (0, pkt, f)
      else if 0 <=? bytes then Some (- EPROTO, pkt, f)
      else if bytes =? - EAGAIN then Some (- ETIMEDOUT, pkt, f)
      else if negb (bytes =? - EINTR) then Some (bytes, pkt, f)
      else ntp_read fuel sockfd pkt f
  end.

Definition ntpclient_gettimepacket (fuel : nat) (sockfd : Z) (f : F) : option (Z * bytes * F) :=
  let pkt := ntp_request in
  '(r, f) ← ntp_write fuel sockfd pkt f;
  if r <? 0 then Some (r, pkt, f)
  else
    '(r, pkt, f) ← ntp_read fuel sockfd pkt f;
    if r <? 0 then Some (r, pkt, f)
    else
      li_vn_mode ← rd pkt 0;
      stratum ← rd pkt PKT_STRATUM;
      let mode := NTP_MODE li_vn_mode in
      Some (if (negb (mode =? NTP_MODE_SERVER) && negb (mode =? NTP_MODE_PASSIVE)) || (16 <=? stratum) then - EPROTO else 0, pkt, f).

(** ** The clock *)

(** The seconds are the difference in 64 bits. *)
Definition ntp_seconds (txTm_sec : Z) : Z := s64 (u64 (txTm_sec - NTP_JAN1970_DELTA)).

Definition ntpclient_settime (pkt : bytes) (f : F) : option (Z * F) :=
  let '(r, f) := np_gettimeofday f in
  if r <? 0 then Some (r, f)
  else
    sec ← pkt_word pkt PKT_TXSEC;
    frac ← pkt_word pkt PKT_TXFRAC;
    let '(r, f) := np_settimeofday (ntp_seconds sec) (FRAC_TO_USEC frac) f in
    Some (if r <? 0 then r else 0, f).

Definition ntpclient_syncOnce (fuel : nat) (host : bytes) (timeout attempt : Z) (f : F) : option (Z * F) :=
  '(sockfd, f) ← ntpclient_connect host timeout attempt f;
  if sockfd <? 0 then Some (sockfd, f)
  else
    '(err, pkt, f) ← ntpclient_gettimepacket fuel sockfd f;
    let f := np_close sockfd f in
    if err <? 0 then Some (err, f) else ntpclient_settime pkt f.

(** ** The command *)

(** [n] bounds the attempts, [fuel] the loops of one. *)
Fixpoint attempt_loop (n fuel : nat) (host : bytes) (timeout attempt deadline : Z) (f : F) : option (Z * F) :=
  match n with
  | O => None
  | Datatypes.S n =>
      '(r, f) ← ntpclient_syncOnce fuel host timeout attempt f;
      if r =? 0 then Some (EXIT_SUCCESS, f)
      else
        let '(now, f) := np_time f in
        if deadline <=? now then Some (EXIT_FAILURE, f)
        else attempt_loop n fuel host timeout (u32 (attempt + 1)) deadline (np_sleep NTP_RETRY_INTERVAL_S f)
  end.

(** The options of [getopt]: the host, the timeout and the window, or the exit code. *)
Fixpoint ntp_opts (w : Z) (opts : list (Z * bytes)) (host : option bytes) (timeout window : Z) : option bytes * Z * Z + Z :=
  match opts with
  | [] => inl (host, timeout, window)
  | (c, arg) :: opts =>
      let '(v, rest) := strtoul10_end w arg in
      let bad := negb (bool_decide (rest = [])) || (3600 <? v) in
      if c =? 115 then ntp_opts w opts (Some arg) timeout window
      else if c =? 116 then if bad then inr EXIT_FAILURE else ntp_opts w opts host v window
      else if c =? 119 then if bad then inr EXIT_FAILURE else ntp_opts w opts host timeout v
      else inr EXIT_SUCCESS
  end.

Definition psh_ntpclientMain (w : Z) (n fuel : nat) (opts : list (Z * bytes)) (f : F) : option (Z * F) :=
  match ntp_opts w opts None NTP_RECV_TIMEOUT_S 0 with
  | inr code => Some (code, f)
  | inl (host, timeout, window) =>
      '(host, f) ← (match host with
                    | Some host => Some (host, f)
                    | None => '(conf, f) ← ntpclient_confServer 128 f; Some (default (bstr "pool.ntp.org") conf, f)
                    end);
      let '(now, f) := np_time f in
      attempt_loop n fuel host timeout 0 (now + window) f
  end.
End ntp.
