(* ===== verification/NtpSpec.v ===== *)
(** * What [ntpclient] does to the clock

    The conversion of the fraction is accurate to less than 381 microseconds; the seconds
    are right until the field of the packet wraps; the configuration is found behind
    comments; and a run sets the clock from a packet of a server or not at all. *)

From S2P Require Import Prelude.
From S2P Require Import Clib.
From S2P Require Import Ntp.

(** ** The time of a packet *)

Lemma frac_value x : 0 <= x < 4294967296 -> FRAC_TO_USEC x = x / 4096 - 759 * ((x / 1024 + 32768) / 65536) /\
  0 <= FRAC_TO_USEC x < 1000000.
Proof.
  intros Hx. unfold FRAC_TO_USEC. rewrite !Z.shiftr_div_pow2 by lia. change (2 ^ 12) with 4096. change (2 ^ 10) with 1024. change (2 ^ 16) with 65536.
  rewrite (u32_small (x / 1024 + 32768)) by (Z.to_euclidean_division_equations; lia).
  rewrite (u32_small (759 * _)) by (Z.to_euclidean_division_equations; lia).
  rewrite u32_small by (Z.to_euclidean_division_equations; lia).
  split; [done|]. Z.to_euclidean_division_equations; lia.
Qed.

(** The fraction of a second in units of [2 ^ -32] becomes a number of microseconds
    below a million that is less than 381 microseconds off, without an overflow of its
    32-bit arithmetic. *)
Theorem frac_accuracy x : 0 <= x < 4294967296 ->
  0 <= FRAC_TO_USEC x < 1000000 /\ Z.abs (FRAC_TO_USEC x * 4294967296 - x * 1000000) < 381 * 4294967296.
Proof.
  intros Hx. destruct (frac_value x Hx) as [E Hr]. split; [done|]. rewrite E.
  Z.to_euclidean_division_equations; lia.
Qed.
Lemma frac_accuracy_witness : 0 <= FRAC_TO_USEC 2147483648 < 1000000 /\
  Z.abs (FRAC_TO_USEC 2147483648 * 4294967296 - 2147483648 * 1000000) < 381 * 4294967296.
Proof. by apply (frac_accuracy 2147483648). Defined.

(** The conversion goes back 758 microseconds where the rounded term steps. *)
Example frac_steps_back : FRAC_TO_USEC (2 ^ 25 - 1) = 8191 /\ FRAC_TO_USEC (2 ^ 25) = 7433.
Proof. by vm_compute. Qed.

(** The clock is set to the second the server means until the field of the packet wraps,
    in February 2036; from then on it is set 2 ^ 32 seconds, 136 years, too early. *)
Theorem seconds_until_2036 t : 0 <= t < 2 ^ 62 ->
  ntp_seconds ((t + NTP_JAN1970_DELTA) mod 2 ^ 32) = t - 2 ^ 32 * ((t + NTP_JAN1970_DELTA) / 2 ^ 32).
Proof.
  intros Ht. unfold ntp_seconds, NTP_JAN1970_DELTA, wraps, wrapu.
  change (2 ^ 32) with 4294967296. change (2 ^ 64) with 18446744073709551616. change (2 ^ (64 - 1)) with 9223372036854775808.
  change (2 ^ 62) with 4611686018427387904 in Ht. Z.to_euclidean_division_equations; lia.
Qed.
Example rollover : 2085978495 + NTP_JAN1970_DELTA = 2 ^ 32 - 1 /\ ntp_seconds 0 = -2208988800.
Proof. by vm_compute. Qed.

(** ** The configuration *)

Definition blank (c : Z) : bool := (c =? 32) || (c =? 9).
(** A line that is passed over. *)
Definition ignorable (l : bytes) : Prop :=
  (10 ∉ l) /\ (0 ∉ l) /\ zlen l < 159 /\ match skip_blanks l with [] => True | c :: _ => c = 35 end.
Definition name_char (c : Z) : Prop := is_trail c = false /\ c <> 0.

Lemma fgets_line_app l : forall n rest, 10 ∉ l -> (length l < n)%nat -> fgets_line n (l ++ 10 :: rest) = (l ++ [10], rest).
Proof.
  induction l as [|c l IH]; intros [|n] rest Hl Hn; simpl in *; try lia; [done|].
  apply not_elem_of_cons in Hl as [Hc Hl]. destruct (Z.eqb_spec c 10); [done|]. by rewrite IH by (done || lia).
Qed.

Lemma cstr_id l : 0 ∉ l -> cstr l = l.
Proof.
  induction l as [|c l IH]; intros Hl; [done|]. apply not_elem_of_cons in Hl as [Hc Hl]. simpl.
  destruct (Z.eqb_spec c 0); [done|]. by rewrite IH.
Qed.

Lemma skip_blanks_app a b : Forall (fun c => blank c = true) a -> skip_blanks (a ++ b) = skip_blanks b.
Proof. induction 1 as [|c a Hc Ha IH]; [done|]. simpl. unfold blank in Hc. by rewrite Hc. Qed.

Lemma skip_blanks_end l : skip_blanks (l ++ [10]) = skip_blanks l ++ [10].
Proof. induction l as [|c l IH]; [done|]. simpl. by destruct ((c =? 32) || (c =? 9)). Qed.

Lemma skip_blanks_stop c l : blank c = false -> skip_blanks (c :: l) = c :: l.
Proof. intros Hc. simpl. unfold blank in Hc. by rewrite Hc. Qed.

Lemma split_chr_app a c b : c ∉ a -> split_chr (a ++ c :: b) c = Some (a, c :: b).
Proof.
  induction a as [|x a IH]; intros Ha; simpl; [by rewrite Z.eqb_refl|]. apply not_elem_of_cons in Ha as [Hx Ha].
  destruct (Z.eqb_spec x c); [done|]. by rewrite IH.
Qed.

Lemma trim_end_trail t : Forall (fun c => is_trail c = true) t -> trim_end t = [].
Proof. induction 1 as [|c t Hc Ht IH]; [done|]. simpl. by rewrite IH, Hc. Qed.
Lemma trim_end_app a t : Forall (fun c => is_trail c = false) a -> Forall (fun c => is_trail c = true) t -> trim_end (a ++ t) = a.
Proof.
  induction 1 as [|c a Hc Ha IH]; intros Ht; [by apply trim_end_trail|]. simpl. rewrite IH by done. rewrite Hc. by destruct a.
Qed.

Lemma name_not_in c l : Forall name_char l -> is_trail c = true \/ c = 0 -> c ∉ l.
Proof. intros Hl Hc Hin. rewrite Forall_forall in Hl. destruct (Hl c Hin). destruct Hc; congruence. Qed.

Lemma blank_trail l : Forall (fun c => blank c = true) l -> Forall (fun c => is_trail c = true /\ c <> 10 /\ c <> 0) l.
Proof.
  intros Hl. apply (Forall_impl _ _ _ Hl). intros c E. unfold blank in E. unfold is_trail. bprop.
  destruct E as [E|E]; bprop; subst; split_and!; done || lia.
Qed.

Lemma name_blank c : name_char c -> blank c = false /\ c <> 10.
Proof. intros [Hc _]. unfold is_trail in Hc. unfold blank. bprop. split; [|lia]. by apply orb_false_intro; apply Z.eqb_neq. Qed.

(** One line of a file. *)
Lemma conf_line fuel outsz line rest : (10 ∉ line) -> (0 ∉ line) -> zlen line < 159 ->
  conf_loop (S fuel) outsz (line ++ 10 :: rest) =
    let p := skip_blanks line ++ [10] in
    match p with
    | [] => conf_loop fuel outsz rest
    | c :: _ =>
        if (c =? 35) || (c =? 10) then conf_loop fuel outsz rest
        else
          let v := match split_chr p 61 with Some (_, _ :: v) => v | _ => p end in
          let v := trim_end (skip_blanks v) in
          Some (match v with [] => None | _ => if zlen v <? outsz then Some v else None end)
    end.
Proof.
  intros H10 H0 Hl.
  assert (E1 : fgets_line 159 (line ++ 10 :: rest) = (line ++ [10], rest)) by (apply fgets_line_app; [done|unfold zlen in Hl; lia]).
  assert (Ene : exists c l', line ++ 10 :: rest = c :: l') by (destruct line; by do 2 eexists).
  destruct Ene as (c0 & l0 & E0). cbn [conf_loop]. rewrite E0 in *. rewrite E1, cstr_id, skip_blanks_end; [done|].
  rewrite not_elem_of_app, not_elem_of_cons. split_and!; [done|done|by apply not_elem_of_nil].
Qed.

Lemma conf_skip fuel outsz l rest : ignorable l -> conf_loop (S fuel) outsz (l ++ 10 :: rest) = conf_loop fuel outsz rest.
Proof.
  intros (H10 & H0 & Hl & Hi). rewrite conf_line by done. destruct (skip_blanks l) as [|c l']; [done|]. by subst c.
Qed.

Section server_line.
Context (b1 key b2 host b3 : bytes) (Hb1 : Forall (fun c => blank c = true) b1) (Hb2 : Forall (fun c => blank c = true) b2)
  (Hb3 : Forall (fun c => is_trail c = true /\ c <> 10) b3) (Hk : Forall name_char key) (H61 : 61 ∉ key) (Hkn : key <> [])
  (H35 : head key <> Some 35) (Hh : Forall name_char host) (Hhn : host <> []).

Definition server_line : bytes := b1 ++ key ++ 61 :: b2 ++ host ++ b3.

Lemma server_line_chars c : c = 10 \/ c = 0 -> c ∉ server_line.
Proof.
  intros Hc Hin. unfold server_line in Hin. rewrite !elem_of_app, elem_of_cons, !elem_of_app in Hin.
  pose proof (blank_trail b1 Hb1) as G1. pose proof (blank_trail b2 Hb2) as G2. rewrite Forall_forall in G1, G2, Hb3, Hk, Hh.
  destruct Hin as [Hin|[Hin|[->|[Hin|[Hin|Hin]]]]]; [by destruct (G1 c Hin); lia|destruct (Hk c Hin)|lia|by destruct (G2 c Hin); lia|destruct (Hh c Hin)|destruct (Hb3 c Hin)];
    by destruct Hc as [-> | ->].
Qed.

Lemma conf_host fuel outsz rest : zlen server_line < 159 -> zlen host < outsz ->
  conf_loop (S fuel) outsz (server_line ++ 10 :: rest) = Some (Some host).
Proof using All.
  intros Hlen Hsz. rewrite conf_line by (done || apply server_line_chars; tauto). unfold server_line.
  rewrite skip_blanks_app by done.
  destruct key as [|k key']; [done|]. pose proof (proj1 (Forall_cons _ _ _) Hk) as [Hk1 Hk'].
  destruct (name_blank k Hk1) as [Hkb Hk10]. cbn [app]. rewrite skip_blanks_stop by done.
  assert (k <> 35) by (intros ->; done). cbn [app]. rewrite (proj2 (Z.eqb_neq k 35)), (proj2 (Z.eqb_neq k 10)) by done. cbn [orb].
  replace (k :: (key' ++ 61 :: b2 ++ host ++ b3) ++ [10]) with ((k :: key') ++ 61 :: b2 ++ host ++ b3 ++ [10]) by appeq.
  rewrite split_chr_app by done. cbv zeta. rewrite skip_blanks_app by done.
  destruct host as [|h host']; [done|]. pose proof (proj1 (Forall_cons _ _ _) Hh) as [Hh1 Hh'].
  cbn [app]. rewrite skip_blanks_stop by (by apply name_blank).
  change (h :: host' ++ b3 ++ [10]) with ((h :: host') ++ b3 ++ [10]). rewrite trim_end_app.
  - by rewrite (proj2 (Z.ltb_lt _ _) Hsz).
  - apply (Forall_impl _ _ _ Hh). by intros ? [? ?].
  - apply Forall_app. split; [apply (Forall_impl _ _ _ Hb3); by intros ? [? ?]|by repeat constructor].
Qed.
End server_line.

Definition lines_of (ls : list bytes) : bytes := concat ((fun l => l ++ [10]) <$> ls).

Lemma lines_of_cons l ls rest : lines_of (l :: ls) ++ rest = l ++ 10 :: lines_of ls ++ rest.
Proof. unfold lines_of. cbn [fmap list_fmap concat]. appeq. Qed.

Lemma lines_of_length ls : (length ls <= length (lines_of ls))%nat.
Proof. induction ls as [|l ls IH]; [done|]. unfold lines_of in *. cbn [fmap list_fmap concat length]. rewrite !length_app. simpl. lia. Qed.

(** The server of the configuration is found behind comments and empty lines, with
    blanks around it and behind a key, whatever follows its line; the scan ends. *)
Theorem conf_finds_server comments b1 key b2 host b3 rest outsz :
  Forall ignorable comments -> Forall (fun c => blank c = true) b1 -> Forall (fun c => blank c = true) b2 ->
  Forall (fun c => is_trail c = true /\ c <> 10) b3 -> Forall name_char key -> (61 ∉ key) -> key <> [] -> head key <> Some 35 ->
  Forall name_char host -> host <> [] -> zlen host < outsz -> zlen (server_line b1 key b2 host b3) < 159 ->
  let content := lines_of comments ++ server_line b1 key b2 host b3 ++ 10 :: rest in
  conf_loop (S (length content)) outsz content = Some (Some host).
Proof.
  intros Hc Hb1 Hb2 Hb3 Hk H61 Hkn H35 Hh Hhn Hsz Hlen content. unfold content. clear content.
  set (tl := server_line b1 key b2 host b3 ++ 10 :: rest).
  assert (Hgen : forall fuel, (length comments < fuel)%nat -> conf_loop fuel outsz (lines_of comments ++ tl) = Some (Some host)).
  { induction Hc as [|l ls Hl Hc IH]; intros [|fuel] Hf; simpl in Hf; try lia.
    - by apply conf_host.
    - rewrite lines_of_cons, conf_skip by done. apply IH. lia. }
  apply Hgen. rewrite length_app. pose proof (lines_of_length comments). lia.
Qed.
Lemma conf_finds_server_witness :
  conf_loop 88 128 (bstr "# servers" ++ [10; 32; 10] ++ [9] ++ bstr "server= pool.local " ++ [13; 10] ++ bstr "driftfile=/var/lib/ntp/drift of the local clock") = Some (Some (bstr "pool.local")).
Proof.
  apply (conf_finds_server [bstr "# servers"; [32]] [9] (bstr "server") [32] (bstr "pool.local") [32; 13]
    (bstr "driftfile=/var/lib/ntp/drift of the local clock") 128);
    try (by vm_compute); try (by repeat constructor).
  - repeat constructor; by (apply (bool_decide_unpack _); vm_compute).
  - by (apply (bool_decide_unpack _); vm_compute).
Defined.

(** A comment of more than 158 characters is read in pieces, and a piece that does not
    begin with its mark is taken for the server; an empty line that ends with a carriage
    return ends the search. *)
Example long_comment : conf_loop 300 128 (replicate 159 35 ++ bstr "of the campus" ++ [10] ++ bstr "server=a.b") = Some (Some (bstr "of the campus")).
Proof. by vm_compute. Qed.
Example empty_line_crlf : conf_loop 300 128 ([13; 10] ++ bstr "server=a.b") = Some None.
Proof. by vm_compute. Qed.

(** * Runs *)

(** What happened so far: packets that arrived and settings of the clock. *)
Inductive ntp_event := NGot (pkt : bytes) | NSet (sec usec : Z).

(** The trace, a time that does not go back, how often calls will still be interrupted, and
    the timeouts of the sockets for receiving and sending. *)
Class NtpView (F : Type) := {
  nv_trace : F -> list ntp_event; nv_now : F -> Z; nv_work : F -> nat; nv_rcv : F -> Z -> Z; nv_snd : F -> Z -> Z }.

Definition moves {F} `{NtpView F} (f f' : F) (tr : list ntp_event) : Prop :=
  nv_trace f' = nv_trace f ++ tr /\ nv_now f <= nv_now f' /\ (nv_work f' <= nv_work f)%nat.
Abbreviation quiet f f' := (moves f f' []).
(** The timeouts stay. *)
Definition timed {F} `{NtpView F} (f f' : F) : Prop := forall fd, nv_rcv f' fd = nv_rcv f fd /\ nv_snd f' fd = nv_snd f fd.

(** A call on a socket returns for certain only with a timeout other than 0. *)

Class NtpLaws (F : Type) `{NtpOps F, NtpView F} : Prop := {
  (** A code that is not negative is taken for a descriptor: it is none that blocks. *)
  nl_info host f : let '(r, f') := np_getaddrinfo host f in quiet f f' /\ r <> inr [] /\
    forall ret errno, r = inl (ret, errno) -> let code := if ret =? np_EAI_SYSTEM then - errno else ret in
      0 <= code -> nv_rcv f' code <> 0 /\ nv_snd f' code <> 0;
  nl_ntop a f : quiet f (np_ntop a f).2;
  nl_socket f : quiet f (np_socket f).2;
  nl_rcv fd t f : let '(r, f') := np_rcvtimeo fd t f in quiet f f' /\ (0 <= r -> nv_rcv f' fd = t);
  nl_snd fd t f : let '(r, f') := np_sndtimeo fd t f in
    quiet f f' /\ (forall d, nv_rcv f' d = nv_rcv f d) /\ (0 <= r -> nv_snd f' fd = t);
  nl_connect fd a f : quiet f (np_connect fd a f).2 /\ timed f (np_connect fd a f).2;
  nl_close fd f : quiet f (np_close fd f);
  nl_write fd data f :
    match np_write fd data f with
    | None => nv_snd f fd = 0
    | Some (r, f') => quiet f f' /\ timed f f' /\ r <= zlen data /\ (0 < zlen data -> r <> 0) /\ (r = - EINTR -> (nv_work f' < nv_work f)%nat)
    end;
  nl_read fd f :
    match np_read fd SNTP_PKT f with
    | None => nv_rcv f fd = 0
    | Some ((r, data), f') => timed f f' /\
        if r =? SNTP_PKT then zlen data = SNTP_PKT /\ moves f f' [NGot data]
        else quiet f f' /\ (r = - EINTR -> (nv_work f' < nv_work f)%nat)
    end;
  nl_gettime f : quiet f (np_gettimeofday f).2;
  nl_settime s u f : let '(r, f') := np_settimeofday s u f in moves f f' (if r <? 0 then [] else [NSet s u]);
  nl_time f : let '(t, f') := np_time f in quiet f f' /\ t = nv_now f';
  nl_sleep n f : quiet f (np_sleep n f) /\ nv_now f + n <= nv_now (np_sleep n f);
  nl_conf f : quiet f (np_conf f).2;
}.

Lemma moves_trans {F} `{NtpView F} (f g h : F) a b : moves f g a -> moves g h b -> moves f h (a ++ b).
Proof. intros (E1 & ? & ?) (E2 & ? & ?). split_and!; [by rewrite E2, E1, (assoc_L (++))|lia|lia]. Qed.

(** A reply of a server, or of a passive peer, whose clock is synchronised. *)
Definition accepted (pkt : bytes) (sec usec : Z) : Prop :=
  zlen pkt = 48 /\ (exists b0 st, pkt !! 0%nat = Some b0 /\ pkt !! 1%nat = Some st /\ (NTP_MODE b0 = 4 \/ NTP_MODE b0 = 2) /\ st < 16) /\
  exists s x, pkt_word pkt 40 = Some s /\ pkt_word pkt 44 = Some x /\ sec = ntp_seconds s /\ usec = FRAC_TO_USEC x.

Definition is_set (e : ntp_event) : bool := match e with NSet _ _ => true | _ => false end.
Definition no_set (tr : list ntp_event) : Prop := Forall (fun e => is_set e = false) tr.

Section runs.
Context {F : Type} `{NtpLaws F}.

(** An attempt that fails leaves the clock; one that succeeds ends with its setting. *)
Definition failed (f f' : F) : Prop := exists tr, moves f f' tr /\ no_set tr.
Definition succeeded (f f' : F) : Prop := exists before pkt sec usec,
  moves f f' (before ++ [NGot pkt; NSet sec usec]) /\ no_set before /\ accepted pkt sec usec.

Lemma quiet_failed (f f' : F) : quiet f f' -> failed f f'.
Proof. intros. exists []. split; [done|constructor]. Qed.
Lemma failed_trans (f g h : F) : failed f g -> failed g h -> failed f h.
Proof. intros (a & Ha & Na) (b & Hb & Nb). exists (a ++ b). split; [by eapply moves_trans|by apply Forall_app]. Qed.
Lemma failed_succeeded (f g h : F) : failed f g -> succeeded g h -> succeeded f h.
Proof.
  intros (a & Ha & Na) (b & pkt & s & u & Hb & Nb & Hacc). exists (a ++ b), pkt, s, u. split_and!; [|by apply Forall_app|done].
  rewrite <- (assoc_L (++)). by eapply moves_trans.
Qed.

Lemma connect_quiet host timeout attempt (f : F) : 0 <= attempt -> timeout <> 0 -> exists r f',
  ntpclient_connect host timeout attempt f = Some (r, f') /\ quiet f f' /\ (0 <= r -> nv_rcv f' r <> 0 /\ nv_snd f' r <> 0).
Proof.
  intros Ha Hto.
  assert (Hneg : forall r (g : F), (r <? 0) = true -> quiet f g -> exists r' f', Some (r, g) = Some (r', f') /\ quiet f f' /\
    (0 <= r' -> nv_rcv f' r' <> 0 /\ nv_snd f' r' <> 0)).
  { intros r g Hr%Z.ltb_lt Q. exists r, g. split; [done|]. split; [done|]. lia. }
  unfold ntpclient_connect. pose proof (nl_info host f) as Hi. destruct (np_getaddrinfo host f) as [[[ret errno]|addrs] f1].
  { destruct Hi as (Q & _ & Hc). do 2 eexists. split; [done|]. split; [done|]. by apply (Hc ret errno). }
  destruct Hi as (Q1 & Hn & _). assert (0 < zlen addrs) by (destruct addrs; [done|zlia]). destruct (Z.eqb_spec (zlen addrs) 0); [lia|].
  pose proof (Z.mod_pos_bound attempt (zlen addrs) ltac:(lia)).
  assert (exists ai, rd addrs (attempt mod zlen addrs) = Some ai) as [ai ->].
  { unfold rd. destruct (Z.leb_spec 0 (attempt mod zlen addrs)); [|lia]. apply lookup_lt_is_Some. unfold zlen in *. lia. }
  cbn [mbind option_bind]. pose proof (nl_ntop ai f1) as Q2. destruct (np_ntop ai f1) as [r2 f2]. cbn [snd] in Q2.
  pose proof (moves_trans _ _ _ _ _ Q1 Q2) as Q. destruct (r2 <? 0) eqn:E2; [by apply Hneg|].
  pose proof (nl_socket f2) as Q3. destruct (np_socket f2) as [fd f3]. cbn [snd] in Q3.
  apply (moves_trans _ _ _ _ _ Q) in Q3. destruct (fd <? 0) eqn:E3; [by apply Hneg|].
  pose proof (nl_rcv fd timeout f3) as Q4. destruct (np_rcvtimeo fd timeout f3) as [r4 f4]. destruct Q4 as [Q4 Hrcv].
  apply (moves_trans _ _ _ _ _ Q3) in Q4. destruct (r4 <? 0) eqn:E4; [apply Hneg; [done|]; apply (moves_trans _ _ _ _ _ Q4), nl_close|].
  pose proof (nl_snd fd timeout f4) as Q5. destruct (np_sndtimeo fd timeout f4) as [r5 f5]. destruct Q5 as (Q5 & Hkeep & Hsnd).
  apply (moves_trans _ _ _ _ _ Q4) in Q5. destruct (r5 <? 0) eqn:E5; [apply Hneg; [done|]; apply (moves_trans _ _ _ _ _ Q5), nl_close|].
  pose proof (nl_connect fd ai f5) as [Q6 T6]. destruct (np_connect fd ai f5) as [r6 f6]. cbn [snd] in Q6, T6.
  apply (moves_trans _ _ _ _ _ Q5) in Q6. destruct (r6 <? 0) eqn:E6; [apply Hneg; [done|]; apply (moves_trans _ _ _ _ _ Q6), nl_close|].
  exists fd, f6. split; [done|]. split; [done|]. intros _. destruct (T6 fd) as [-> ->]. apply Z.ltb_ge in E4, E5. by rewrite Hkeep, Hrcv, Hsnd.
Qed.

Lemma timed_trans (f g h : F) : timed f g -> timed g h -> timed f h.
Proof. intros A B fd. destruct (A fd) as [<- <-]. apply B. Qed.

Lemma write_quiet fd fuel : forall data (f : F), nv_snd f fd <> 0 -> (length data + nv_work f < fuel)%nat -> exists r f',
  ntp_write fuel fd data f = Some (r, f') /\ quiet f f' /\ timed f f'.
Proof.
  induction fuel as [|fuel IH]; intros data f Hto Hf; [lia|]. cbn [ntp_write]. destruct (Z.ltb_spec 0 (zlen data)) as [Hd|Hd].
  2:{ do 2 eexists. split; [done|]. split; [split_and!; [by rewrite app_nil_r|lia|lia]|done]. }
  pose proof (nl_write fd data f) as Hw. destruct (np_write fd data f) as [[r f1]|]; [|done]. destruct Hw as (Q & T & Hr & Hnz & Hint).
  cbn [mbind option_bind]. assert (Hto1 : nv_snd f1 fd <> 0) by by rewrite (proj2 (T fd)).
  destruct (Z.ltb_spec r 0).
  - destruct (Z.eqb_spec r (- EAGAIN)); [by do 2 eexists|]. destruct (Z.eqb_spec r (- EINTR)) as [->|]; cbn [negb]; [|by do 2 eexists].
    specialize (Hint eq_refl). destruct (IH data f1) as (r' & f' & -> & Q' & T'); [done|lia|]. do 2 eexists. split; [done|].
    split; [by apply (moves_trans _ _ _ _ _ Q)|by eapply timed_trans].
  - destruct (Z.ltb_spec (zlen data) r); [lia|]. specialize (Hnz Hd). pose proof Q as (? & ? & ?).
    destruct (IH (drop (Z.to_nat r) data) f1) as (r' & f' & -> & Q' & T'); [done|rewrite length_drop; unfold zlen in *; lia|].
    do 2 eexists. split; [done|]. split; [by eapply (moves_trans f f1 f' [] [])|by eapply timed_trans].
Qed.

Lemma read_moves fd pkt fuel : forall (f : F), nv_rcv f fd <> 0 -> zlen pkt = SNTP_PKT -> (nv_work f < fuel)%nat -> exists r pkt' f',
  ntp_read fuel fd pkt f = Some (r, pkt', f') /\ zlen pkt' = SNTP_PKT /\ (if r <? 0 then quiet f f' else moves f f' [NGot pkt']).
Proof.
  induction fuel as [|fuel IH]; intros f Hto Hp Hf; [lia|]. cbn [ntp_read].
  pose proof (nl_read fd f) as Hr. destruct (np_read fd SNTP_PKT f) as [[[r data] f1]|]; [|done]. destruct Hr as [T Hr].
  cbn [mbind option_bind]. destruct (Z.eqb_spec r SNTP_PKT).
  - destruct Hr as [Hz Hm]. assert (Hw : wr_range pkt 0 data = Some data).
    { rewrite <- (app_nil_r pkt), <- (app_nil_l (pkt ++ [])). rewrite wr_range_app by (done || congruence). by rewrite app_nil_r. }
    rewrite Hw. cbn [mbind option_bind]. by exists 0, data, f1.
  - destruct Hr as [Q Hint]. destruct (Z.leb_spec 0 r); [by exists (- EPROTO), pkt, f1|].
    destruct (Z.eqb_spec r (- EAGAIN)); [by exists (- ETIMEDOUT), pkt, f1|].
    destruct (Z.eqb_spec r (- EINTR)) as [->|]; cbn [negb].
    + specialize (Hint eq_refl). destruct (IH f1) as (r' & p' & f' & -> & Hz & Hm); [by rewrite (proj1 (T fd))|done|lia|].
      exists r', p', f'. split_and!; [done|done|]. destruct (r' <? 0); by apply (moves_trans _ _ _ _ _ Q) in Hm.
    + exists r, pkt, f1. by destruct (Z.ltb_spec r 0); [|lia].
Qed.

Lemma zlen_rd (pkt : bytes) i : 0 <= i < zlen pkt -> exists x, rd pkt i = Some x.
Proof. intros Hi. unfold rd. destruct (Z.leb_spec 0 i); [|lia]. apply lookup_lt_is_Some. unfold zlen in Hi. lia. Qed.

Lemma pkt_word_some pkt off : zlen pkt = 48 -> 0 <= off <= 44 -> exists x, pkt_word pkt off = Some x.
Proof.
  intros Hp Ho. unfold pkt_word. destruct (zlen_rd pkt off) as [a ->]; [lia|]. destruct (zlen_rd pkt (off + 1)) as [b ->]; [lia|].
  destruct (zlen_rd pkt (off + 2)) as [c ->]; [lia|]. destruct (zlen_rd pkt (off + 3)) as [d ->]; [lia|]. by eexists.
Qed.

Lemma packet_ok fd fuel (f : F) : nv_rcv f fd <> 0 -> nv_snd f fd <> 0 -> (48 + nv_work f < fuel)%nat -> exists r pkt f',
  ntpclient_gettimepacket fuel fd f = Some (r, pkt, f') /\
  (if r <? 0 then failed f f' else moves f f' [NGot pkt] /\ zlen pkt = 48 /\
    exists b0 st, pkt !! 0%nat = Some b0 /\ pkt !! 1%nat = Some st /\ (NTP_MODE b0 = 4 \/ NTP_MODE b0 = 2) /\ st < 16).
Proof.
  intros Hrcv Hsnd Hf. unfold ntpclient_gettimepacket. destruct (write_quiet fd fuel ntp_request f) as (r1 & f1 & -> & Q1 & T1); [done|simpl; lia|].
  cbn [mbind option_bind]. destruct (r1 <? 0) eqn:E1; [do 3 eexists; split; [done|]; rewrite E1; by apply quiet_failed|].
  destruct (read_moves fd ntp_request fuel f1) as (r2 & pkt & f2 & -> & Hz & Hm); [by rewrite (proj1 (T1 fd))|done|destruct Q1 as (? & ? & ?); lia|].
  cbn [mbind option_bind]. destruct (r2 <? 0) eqn:E2.
  - do 3 eexists. split; [done|]. rewrite E2. apply (moves_trans _ _ _ _ _ Q1) in Hm. by apply quiet_failed.
  - apply (moves_trans _ _ _ _ _ Q1) in Hm. cbn [app] in Hm. unfold SNTP_PKT in Hz.
    destruct (zlen_rd pkt 0) as [b0 Eb]; [lia|]. destruct (zlen_rd pkt 1) as [st Es]; [lia|].
    unfold PKT_STRATUM. rewrite Eb. cbn [mbind option_bind]. rewrite Es. cbn [mbind option_bind].
    destruct ((negb (NTP_MODE b0 =? NTP_MODE_SERVER) && negb (NTP_MODE b0 =? NTP_MODE_PASSIVE)) || (16 <=? st)) eqn:Ec;
      do 3 eexists; (split; [done|]); cbn [Z.ltb Z.compare Z.opp EPROTO].
    + exists [NGot pkt]. split; [done|by repeat constructor].
    + split_and!; [done|done|]. exists b0, st. unfold NTP_MODE_SERVER, NTP_MODE_PASSIVE in Ec. apply orb_false_iff in Ec as [Ec ?].
      apply andb_false_iff in Ec. rewrite !negb_false_iff, !Z.eqb_eq in Ec. split_and!; [done|done|lia|lia].
Qed.

Lemma sync_ok host timeout attempt fuel (f : F) : 0 <= attempt -> timeout <> 0 -> (48 + nv_work f < fuel)%nat -> exists r f',
  ntpclient_syncOnce fuel host timeout attempt f = Some (r, f') /\ (if r =? 0 then succeeded f f' else failed f f').
Proof.
  intros Ha Hto Hf. unfold ntpclient_syncOnce. destruct (connect_quiet host timeout attempt f Ha Hto) as (fd & f1 & -> & Q1 & Hfd). cbn [mbind option_bind].
  assert (Hneg : forall r (g : F), r < 0 -> failed f g -> if r =? 0 then succeeded f g else failed f g)
    by (intros r g Hr Hg; by destruct (Z.eqb_spec r 0); [lia|]).
  destruct (Z.ltb_spec fd 0); [by do 2 eexists; split; [done|]; apply Hneg, quiet_failed|].
  destruct (packet_ok fd fuel f1) as (err & pkt & f2 & -> & Hp); [by apply Hfd|by apply Hfd|destruct Q1 as (? & ? & ?); lia|]. cbn [mbind option_bind]. cbv zeta.
  pose proof (nl_close fd f2) as Qc. destruct (Z.ltb_spec err 0).
  - do 2 eexists. split; [done|]. apply Hneg; [done|]. eapply failed_trans; [by apply quiet_failed|]. eapply failed_trans; [done|by apply quiet_failed].
  - destruct Hp as (Hm & Hz & Hb). unfold ntpclient_settime. pose proof (nl_gettime (np_close fd f2)) as Q3.
    destruct (np_gettimeofday (np_close fd f2)) as [r3 f3]. cbn [snd] in Q3.
    pose proof (moves_trans _ _ _ _ _ (moves_trans _ _ _ _ _ (moves_trans _ _ _ _ _ Q1 Hm) Qc) Q3) as Q. cbn [app] in Q.
    destruct (Z.ltb_spec r3 0); [do 2 eexists; split; [done|]; apply Hneg; [done|]; exists [NGot pkt]; split; [done|by repeat constructor]|].
    destruct (pkt_word_some pkt 40) as [s Es]; [done|lia|]. destruct (pkt_word_some pkt 44) as [x Ex]; [done|lia|].
    unfold PKT_TXSEC, PKT_TXFRAC. rewrite Es. cbn [mbind option_bind]. rewrite Ex. cbn [mbind option_bind].
    pose proof (nl_settime (ntp_seconds s) (FRAC_TO_USEC x) f3) as Q4. destruct (np_settimeofday (ntp_seconds s) (FRAC_TO_USEC x) f3) as [r4 f4].
    apply (moves_trans _ _ _ _ _ Q) in Q4. destruct (Z.ltb_spec r4 0); do 2 eexists; (split; [done|]).
    + apply Hneg; [done|]. exists [NGot pkt]. split; [done|by repeat constructor].
    + exists [], pkt, (ntp_seconds s), (FRAC_TO_USEC x). split_and!; [done|constructor|]. split_and!; [done|done|]. by exists s, x.
Qed.

(** Every attempt but the last takes the three seconds of a pause. *)
Lemma attempt_loop_ok host timeout deadline fuel n : timeout <> 0 -> forall attempt (f : F), 0 <= attempt -> (48 + nv_work f < fuel)%nat -> (1 <= n)%nat ->
  deadline - nv_now f <= 3 * (Z.of_nat n - 1) -> exists ret f', attempt_loop n fuel host timeout attempt deadline f = Some (ret, f') /\
  (ret = EXIT_SUCCESS /\ succeeded f f' \/ ret = EXIT_FAILURE /\ failed f f' /\ deadline <= nv_now f').
Proof.
  intros Hto. induction n as [|n IH]; intros attempt f Ha Hf Hn Hd; [lia|]. cbn [attempt_loop].
  destruct (sync_ok host timeout attempt fuel f Ha Hto Hf) as (r & f1 & -> & Hr). cbn [mbind option_bind].
  destruct (r =? 0); [do 2 eexists; split; [done|by left]|].
  pose proof (nl_time f1) as Ht. destruct (np_time f1) as [t f2]. destruct Ht as [Q2 ->].
  assert (F2 : failed f f2) by (eapply failed_trans; [done|by apply quiet_failed]).
  destruct (Z.leb_spec deadline (nv_now f2)); [do 2 eexists; split; [done|by right]|].
  destruct (nl_sleep NTP_RETRY_INTERVAL_S f2) as [Q3 Hs]. unfold NTP_RETRY_INTERVAL_S in *.
  assert (F3 : failed f (np_sleep 3 f2)) by (eapply failed_trans; [done|by apply quiet_failed]).
  destruct F2 as (tr2 & (_ & Hnow2 & _) & _). pose proof F3 as (tr3 & (_ & Hnow3 & Hw3) & _).
  destruct (IH (u32 (attempt + 1)) (np_sleep 3 f2)) as (ret & f' & -> & Hres); [apply wrapu_range; lia|lia|lia|lia|].
  do 2 eexists. split; [done|]. destruct Hres as [[-> Hs']|(-> & Hf' & Hd')]; [left|right]; split; [done| |done|split; [|done]].
  - by eapply failed_succeeded.
  - by eapply failed_trans.
Qed.

Lemma conf_loop_ends outsz fuel : forall content, (length content < fuel)%nat -> is_Some (conf_loop fuel outsz content).
Proof.
  induction fuel as [|fuel IH]; intros content Hf; [lia|]. cbn [conf_loop]. destruct content as [|c content]; [by eexists|].
  destruct (fgets_line 159 (c :: content)) as [line rest] eqn:E.
  pose proof (fgets_line_shorter 159 c content ltac:(lia)) as Hr. rewrite E in Hr.
  simpl in Hf, Hr. destruct (skip_blanks (cstr line)) as [|p ps]; [apply IH; lia|]. destruct ((p =? 35) || (p =? 10)); [apply IH; lia|by eexists].
Qed.

Lemma conf_quiet outsz (f : F) : exists r f', ntpclient_confServer outsz f = Some (r, f') /\ quiet f f'.
Proof.
  unfold ntpclient_confServer. pose proof (nl_conf f) as Q. destruct (np_conf f) as [[content|] f1]; cbn [snd] in Q; [|by do 2 eexists].
  destruct (conf_loop_ends outsz (S (length content)) content) as [r Er]; [lia|]. rewrite Er. by do 2 eexists.
Qed.

(** C27: With options that ask for a run (not [-h], which prints the usage) and a timeout
    other than 0, with which a silent server is waited for for ever ([zero_timeout_waits]):
    every run ends.  It succeeds after it has set the clock once, at its end, to the
    time of a packet of 48 bytes that arrived from a server or passive peer with a stratum
    below 16; otherwise the clock is left alone, and the waiting window is over.  A read
    or write of a socket may block for ever unless the timeout set for it is not 0; the
    other calls, among them the resolver, return. *)
Theorem ntpclient_sets_once w n fuel opts host timeout window (f : F) : ntp_opts w opts None NTP_RECV_TIMEOUT_S 0 = inl (host, timeout, window) ->
  timeout <> 0 ->
  window <= 3 * (Z.of_nat n - 1) -> (1 <= n)%nat -> (48 + nv_work f < fuel)%nat -> exists ret f',
  psh_ntpclientMain w n fuel opts f = Some (ret, f') /\
  (ret = EXIT_SUCCESS /\ succeeded f f' \/ ret = EXIT_FAILURE /\ failed f f' /\ nv_now f + window <= nv_now f').
Proof.
  intros Ho Hto Hw Hn Hf. unfold psh_ntpclientMain. rewrite Ho.
  assert (Hh : exists h f1, (match host with Some h => Some (h, f) | None => '(conf, f) ← ntpclient_confServer 128 f;
    Some (default (bstr "pool.ntp.org") conf, f) end) = Some (h, f1) /\ quiet f f1).
  { destruct host as [h|]; [exists h, f; split; [done|split_and!; [by rewrite app_nil_r|lia|lia]]|].
    destruct (conf_quiet 128 f) as (r & f1 & -> & Q). by do 2 eexists. }
  destruct Hh as (h & f1 & E & Q1). rewrite E. cbn [mbind option_bind].
  pose proof (nl_time f1) as Ht. destruct (np_time f1) as [t f2]. destruct Ht as [Q2 ->].
  pose proof (moves_trans _ _ _ _ _ Q1 Q2) as Q. pose proof Q as (_ & Hnow & Hwk).
  destruct (attempt_loop_ok h timeout (nv_now f2 + window) fuel n Hto 0 f2) as (ret & f' & -> & Hres); [lia|lia|lia|lia|].
  do 2 eexists. split; [done|]. apply quiet_failed in Q. destruct Hres as [[-> Hs]|(-> & Hs & Hd)]; [left|right]; split; [done| |done|split; [|lia]].
  - by eapply failed_succeeded.
  - by eapply failed_trans.
Qed.
End runs.

(** ** A simulated network

    The first requests are lost, then a server answers.  A read with nothing to come ends
    with the timeout, if there is one. *)

Record ntp_sim := NtpSim { ns_now : Z; ns_lost : nat; ns_trace : list ntp_event; ns_rcv : Z; ns_snd : Z }.
Definition ex_packet : bytes := [36; 2] ++ replicate 38 0 ++ [233; 60; 127; 0] ++ [128; 0; 0; 0].
Definition ns_event (e : list ntp_event) (f : ntp_sim) : ntp_sim := NtpSim (ns_now f) (ns_lost f) (ns_trace f ++ e) (ns_rcv f) (ns_snd f).
Definition ns_wait (t : Z) (f : ntp_sim) : ntp_sim := NtpSim (ns_now f + Z.max 0 t) (pred (ns_lost f)) (ns_trace f) (ns_rcv f) (ns_snd f).

#[export] Instance ntp_sim_ops : NtpOps ntp_sim := {
  np_getaddrinfo _ f := (inr [[10; 0; 0; 1]; [10; 0; 0; 2]], f);
  np_EAI_SYSTEM := 11;
  np_ntop _ f := (0, f);
  np_socket f := (3, f);
  np_rcvtimeo _ t f := (0, NtpSim (ns_now f) (ns_lost f) (ns_trace f) t (ns_snd f));
  np_sndtimeo _ t f := (0, NtpSim (ns_now f) (ns_lost f) (ns_trace f) (ns_rcv f) t);
  np_connect _ _ f := (0, f);
  np_close _ f := f;
  np_write _ data f := Some (zlen data, f);
  np_read _ _ f :=
    match ns_lost f with
    | O => Some ((48, ex_packet), ns_event [NGot ex_packet] f)
    | S _ => if ns_rcv f =? 0 then None else Some ((- EAGAIN, []), ns_wait (ns_rcv f) f)
    end;
  np_gettimeofday f := (0, f);
  np_settimeofday s u f := (0, ns_event [NSet s u] f);
  np_time f := (ns_now f, f);
  np_sleep n f := NtpSim (ns_now f + Z.max 0 n) (ns_lost f) (ns_trace f) (ns_rcv f) (ns_snd f);
  np_conf f := (None, f);
}.
#[export] Instance ntp_sim_view : NtpView ntp_sim :=
  { nv_trace := ns_trace; nv_now := ns_now; nv_work := fun _ => 0%nat; nv_rcv f _ := ns_rcv f; nv_snd f _ := ns_snd f }.
#[export] Instance ntp_sim_laws : NtpLaws ntp_sim.
Proof.
  assert (Q : forall f : ntp_sim, quiet f f) by (intros f; split_and!; [by rewrite app_nil_r|lia|lia]).
  split; intros; cbn; try apply Q.
  - by split_and!.
  - split; [|done]. split_and!; cbn; [by rewrite app_nil_r|lia|lia].
  - split_and!; [split_and!; cbn; [by rewrite app_nil_r|lia|lia]|done|done].
  - by split.
  - split_and!; [apply Q|done|lia|lia|]. unfold EINTR. pose proof (zlen_nonneg data). lia.
  - destruct (ns_lost f); [split; [done|]; split; [done|split_and!; done || (cbn; lia)]|].
    destruct (Z.eqb_spec (ns_rcv f) 0); [done|]. cbn. split; [done|]. split; [|done]. split_and!; cbn; [by rewrite app_nil_r|lia|lia].
  - split_and!; done || (cbn; lia).
  - by split.
  - split; [split_and!; cbn; [by rewrite app_nil_r|lia|lia]|lia].
Qed.

Lemma ntpclient_sets_once_witness : exists ret f', psh_ntpclientMain 64 5 49 [(119, bstr "10")] (NtpSim 7 1 [] 0 0) = Some (ret, f') /\
  (ret = EXIT_SUCCESS /\ succeeded (NtpSim 7 1 [] 0 0) f' \/
   ret = EXIT_FAILURE /\ failed (NtpSim 7 1 [] 0 0) f' /\ nv_now (NtpSim 7 1 [] 0 0) + 10 <= nv_now f').
Proof. apply (ntpclient_sets_once 64 5 49 [(119, bstr "10")] None 5 10 (NtpSim 7 1 [] 0 0)); [by vm_compute|done|lia|lia|cbn; lia]. Defined.

Example second_attempt : psh_ntpclientMain 64 5 49 [(119, bstr "10")] (NtpSim 7 1 [] 0 0) =
  Some (EXIT_SUCCESS, NtpSim 15 0 [NGot ex_packet; NSet 1704067200 500000] 5 5).
Proof. by vm_compute. Qed.

(** With a timeout of 0 the reply that is lost is waited for for ever. *)
Lemma zero_timeout_waits n fuel : psh_ntpclientMain 64 n fuel [(116, bstr "0")] (NtpSim 7 1 [] 0 0) = None.
Proof. destruct n as [|n]; [done|]. by destruct fuel as [|[|fuel]]. Qed.
(** The help of the command sets no clock, and its exit code is 0. *)
Lemma help_sets_nothing (F : Type) `{NtpOps F} w n fuel (f : F) : psh_ntpclientMain w n fuel [(104, [])] f = Some (EXIT_SUCCESS, f).
Proof. done. Qed.
