(* ===== verification/Sms.v ===== *)
(** * The SMS tool ([gsm/sms/sms.c])

    Commands to a modem and its answers.  [readbuf] is checked memory: [None] is an access
    outside it or outside the table of result codes, or the use of an index that was not
    read.  The modem is the class [SmsOps]: a call that fails gives the negative [errno]. *)

From S2P Require Import Prelude.
From S2P Require Import Prefix.
From S2P Require Import Clib.

Definition READBUF : Z := 65536.
Definition WRITEBUF : Z := 4096.
Definition WRITE_MAX_RETRIES : Z := 3.
Definition READ_RETRY_TIME_MS : Z := 10.

Definition AT_RESULT_OK : Z := 0.
Definition AT_RESULT_PROMPT : Z := 6.
Definition at_result_codes : list bytes :=
  bstr <$> ["OK"; "CONNECT"; "RING"; "NO CARRIER"; "ERROR"; "NO ANSWER"; "> "]%string.

Class SmsOps (F : Type) := {
  sm_open : F -> Z * F;
  sm_write : bytes -> F -> Z * F;
  sm_read : Z -> F -> (Z * bytes) * F;
  sm_usleep : Z -> F -> F;
}.

(** [sscanf(s, "\n+CMGW: %d", &index)]; white space of the format stands for any. *)
Definition scan_index (s : bytes) : option Z :=
  s ← scan_word (bstr "+CMGW:") (skip_spaces s);
  '(v, _) ← scan_int s;
  Some v.

(** What [snprintf] leaves in [writebuf]. *)
Definition in_writebuf (s : bytes) : bytes := take (Z.to_nat (WRITEBUF - 1)) s.

(** ** Result codes *)

(** The first code of the table that occurs in a string, and where. *)
Fixpoint find_code (i : Z) (codes : list bytes) (s : bytes) : option (Z * Z) :=
  match codes with
  | [] => None
  | code :: codes => match strstr s code with Some t => Some (i, zlen s - zlen t) | None => find_code (i + 1) codes s end
  end.

Definition at_check_result (off : Z) (buf : bytes) : option (Z * bytes) :=
  s ← str_at buf off;
  match find_code 0 at_result_codes s with
  | Some (res, pos) => buf ← wr buf (off + pos) 0; Some (res, buf)
  | None => Some (-1, buf)
  end.

Section sms.
Context {F : Type} `{SmsOps F}.

(** ** Commands *)

Fixpoint write_sms (fuel : nat) (data : bytes) (off retries : Z) (f : F) : option (Z * F) :=
  match fuel with
  | O => None
  | Datatypes.S fuel =>
      if off <? zlen data then
        let '(res, f) := sm_write (drop (Z.to_nat off) data) f in
        if res <? 0 then
          if res =? - EINTR then write_sms fuel data off retries (sm_usleep 5000 f)
          else if res =? - EAGAIN then
            if WRITE_MAX_RETRIES <=? retries then Some (off, f) else write_sms fuel data off (retries + 1) (sm_usleep 5000 f)
          else Some (-1, f)
        else write_sms fuel data (off + res) 0 f
      else Some (off, f)
  end.
Definition serial_write (fuel : nat) (data : bytes) (f : F) : option (Z * F) := write_sms fuel data 0 0 f.

Fixpoint read_sms (fuel : nat) (off timeout_ms : Z) (buf : bytes) (f : F) : option (Z * bytes * F) :=
  match fuel with
  | O => None
  | Datatypes.S fuel =>
      if off <? READBUF - 1 then
        let '((len, data), f) := sm_read (READBUF - 1 - off) f in
        if len <? 0 then
          if len =? - EINTR then read_sms fuel off timeout_ms buf f
          else if len =? - EAGAIN then
            let f := sm_usleep (READ_RETRY_TIME_MS * 1000) f in
            if 0 <=? timeout_ms then
              if timeout_ms - READ_RETRY_TIME_MS <=? 0 then Some (-1, buf, f)
              else read_sms fuel off (timeout_ms - READ_RETRY_TIME_MS) buf f
            else read_sms fuel off timeout_ms buf f
          else Some (-1, buf, f)
        else if len =? 0 then Some (-1, buf, f)
        else
          buf ← wr_range buf off data;
          buf ← wr buf (off + len + 1) 0;
          '(res, buf) ← at_check_result off buf;
          if 0 <=? res then Some (res, buf, f) else read_sms fuel (off + len) timeout_ms buf f
      else Some (-1, buf, f)
  end.

(** The result of the write is not looked at. *)
Definition at_send_cmd (fuel : nat) (cmd : bytes) (timeout_ms : Z) (buf : bytes) (f : F) : option (Z * bytes * F) :=
  '(_, f) ← serial_write fuel cmd f;
  read_sms fuel 0 timeout_ms buf f.

(** ** The program *)

(** The message of an error names its result code. *)
Definition sms_fail (err : Z) (f : F) : option (Z * option bytes * F) :=
  _ ← rd at_result_codes err; Some (EXIT_FAILURE, None, f).

(** The exit code, and what is printed on the standard output. *)
Definition sms_main (fuel : nat) (argv : list bytes) (buf : bytes) (f : F) : option (Z * option bytes * F) :=
  match argv with
  | [] => Some (EXIT_FAILURE, None, f)
  | op :: args =>
      let '(fd, f) := sm_open f in
      if fd <? 0 then Some (EXIT_FAILURE, None, f)
      else
        '(err, buf, f) ← at_send_cmd fuel (bstr "ATE=0" ++ [13; 10]) 300 buf f;
        if negb (err =? AT_RESULT_OK) then sms_fail err f
        else
          '(err, buf, f) ← at_send_cmd fuel (bstr "AT+CMGF=1" ++ [13; 10]) 300 buf f;
          if negb (err =? AT_RESULT_OK) then sms_fail err f
          else if strcmp op (bstr "show") =? 0 then
            '(res, buf, f) ← at_send_cmd fuel (bstr "AT+CMGL=ALL" ++ [13; 10]) 20000 buf f;
            let err := if negb (res =? AT_RESULT_OK) then 1 else 0 in
            if negb (err =? 0) then sms_fail err f
            else text ← str_at buf 0; Some (EXIT_SUCCESS, Some text, f)
          else if strcmp op (bstr "send") =? 0 then
            match args with
            | [number; text] =>
                '(err, buf, f) ← at_send_cmd fuel (in_writebuf (bstr "AT+CMGW=" ++ number ++ [13; 10])) 300 buf f;
                if negb (err =? AT_RESULT_PROMPT) then sms_fail err f
                else
                  '(err, buf, f) ← at_send_cmd fuel (in_writebuf (text ++ [26])) 500 buf f;
                  if negb (err =? AT_RESULT_OK) then sms_fail err f
                  else
                    answer ← str_at buf 0;
                    index ← scan_index answer;
                    '(err, buf, f) ← at_send_cmd fuel (in_writebuf (bstr "AT+CMSS=" ++ print_int index ++ [13; 10])) 10000 buf f;
                    if negb (err =? AT_RESULT_OK) then sms_fail err f else Some (EXIT_SUCCESS, None, f)
            | _ => Some (EXIT_FAILURE, None, f)
            end
          else if strcmp op (bstr "delete") =? 0 then
            match args with
            | [index] =>
                '(err, buf, f) ← at_send_cmd fuel (in_writebuf (bstr "AT+CMGD=" ++ index ++ [13; 10])) 500 buf f;
                if negb (err =? AT_RESULT_OK) then sms_fail err f else Some (EXIT_SUCCESS, None, f)
            | _ => Some (EXIT_FAILURE, None, f)
            end
          else Some (EXIT_FAILURE, None, f)
  end.
End sms.
