(* ===== verification/SmsSpec.v ===== *)
(** * Conversations with a modem

    An answer that comes in pieces is gathered up to its result code; a message that is
    sent is the one that was stored; and how the tool leaves its buffer. *)

From S2P Require Import Prelude.
From S2P Require Import Prefix.
From S2P Require Import Clib.
From S2P Require Import Sms.

(** ** Answers *)

(** What a piece looks like to [strstr]: the byte behind it is still there. *)
Definition heard (p : bytes) (stale : Z) : bytes := if stale =? 0 then p else p ++ [stale].
Definition is_piece (p : bytes) : Prop := p <> [] /\ Forall (fun c => 0 < c < 256) p.
(** No result code, or one at [pos], whatever is behind the piece. *)
Definition plain (p : bytes) : Prop := is_piece p /\ forall c, 0 <= c < 256 -> find_code 0 at_result_codes (heard p c) = None.
Definition code_at (p : bytes) (res pos : Z) : Prop :=
  is_piece p /\ 0 <= pos < zlen p /\ forall c, 0 <= c < 256 -> find_code 0 at_result_codes (heard p c) = Some (res, pos).

(** What is read: pieces and pauses, with the result and the text before it. *)
Inductive answers : list (option bytes) -> Z -> bytes -> Prop :=
| ans_code p res pos : code_at p res pos -> answers [Some p] res (take (Z.to_nat pos) p)
| ans_pause items res t : answers items res t -> answers (None :: items) res t
| ans_piece p items res t : plain p -> answers items res t -> answers (Some p :: items) res (p ++ t).

Definition pauses (items : list (option bytes)) : Z := zlen (filter (fun i => i = None) items).
Definition total (items : list (option bytes)) : Z := zlen (concat (default [] <$> items)).

Lemma find_code_index i codes s res pos : find_code i codes s = Some (res, pos) -> i <= res.
Proof.
  revert i. induction codes as [|code codes IH]; intros i E; simpl in E; [done|].
  destruct (strstr s code); [simplify_eq; lia|]. apply IH in E. lia.
Qed.

Lemma total_cons_some p items : total (Some p :: items) = zlen p + total items.
Proof. unfold total. cbn [fmap list_fmap concat]. by rewrite zlen_app. Qed.
Lemma total_cons_none items : total (None :: items) = total items.
Proof. done. Qed.
Lemma total_nonneg items : 0 <= total items.
Proof. apply zlen_nonneg. Qed.
Lemma pauses_none items : pauses (None :: items) = 1 + pauses items.
Proof. unfold pauses. rewrite filter_cons_True by done. zlia. Qed.
Lemma pauses_some p items : pauses (Some p :: items) = pauses items.
Proof. unfold pauses. by rewrite filter_cons_False by done. Qed.

(** ** The buffer *)

Lemma cstr_stop (l post : bytes) : Forall (fun c => 0 < c < 256) l -> cstr (l ++ 0 :: post) = l.
Proof. induction 1 as [|c l Hc Hl IH]; [done|]. simpl. destruct (Z.eqb_spec c 0); [lia|]. by rewrite IH. Qed.

Lemma str_at_end pre l post : Forall (fun c => 0 < c < 256) l -> str_at (pre ++ l ++ 0 :: post) (zlen pre) = Some l.
Proof.
  intros Hl. unfold str_at. rewrite drop_zlen_app. pose proof (zlen_nonneg pre). rewrite (proj2 (Z.leb_le 0 _)) by lia.
  rewrite bool_decide_eq_true_2; [cbn [andb]; by rewrite cstr_stop|]. rewrite elem_of_app, elem_of_cons. tauto.
Qed.

Lemma str_at_heard acc p c post : is_piece p -> 0 <= c < 256 -> str_at (acc ++ p ++ c :: 0 :: post) (zlen acc) = Some (heard p c).
Proof.
  intros [_ Hp] Hc. unfold heard. destruct (Z.eqb_spec c 0) as [->|]; [by apply str_at_end|].
  replace (acc ++ p ++ c :: 0 :: post) with (acc ++ (p ++ [c]) ++ 0 :: post) by appeq.
  apply str_at_end, Forall_app. split; [done|]. constructor; [lia|done].
Qed.

(** A piece that is read behind [acc], with the NUL one byte too far. *)
Lemma put_piece acc p tail : is_bytes tail -> zlen p + 2 <= zlen tail -> exists c post, 0 <= c < 256 /\ is_bytes post /\
  (buf ← wr_range (acc ++ tail) (zlen acc) p; wr buf (zlen acc + zlen p + 1) 0) = Some (acc ++ p ++ c :: 0 :: post) /\
  zlen (p ++ c :: 0 :: post) = zlen tail.
Proof.
  intros Ht Hz. destruct (list_split_at tail (zlen p)) as (old & r & -> & Hold); [pose proof (zlen_nonneg p); lia|].
  rewrite zlen_app in Hz. destruct r as [|c [|d post]]; [zlia|zlia|]. apply Forall_app in Ht as [_ Ht].
  apply Forall_cons in Ht as [Hc Ht]. apply Forall_cons in Ht as [_ Ht]. exists c, post. split_and!; [lia|lia|done| |zlia].
  rewrite (wr_range_app acc old (c :: d :: post)) by (done || lia). cbn [mbind option_bind].
  replace (acc ++ p ++ c :: d :: post) with ((acc ++ p ++ [c]) ++ d :: post) by appeq.
  rewrite wr_app by (autorewrite with zlen; lia). f_equal. appeq.
Qed.

(** ** A modem *)

(** What has been sent, and what waits to be read: pieces, and reads with nothing there. *)
Class SmsView (F : Type) := { sv_sent : F -> list bytes; sv_inbox : F -> list (option bytes) }.

(** A modem that takes a command at once and answers it with [answer]. *)
Class SmsModem (F : Type) `{SmsOps F, SmsView F} (answer : bytes -> list (option bytes)) : Prop := {
  sl_open f : exists fd f', sm_open f = (fd, f') /\ 0 <= fd /\ sv_sent f' = sv_sent f /\ sv_inbox f' = sv_inbox f;
  sl_write data f : exists f', sm_write data f = (zlen data, f') /\ sv_sent f' = sv_sent f ++ [data] /\ sv_inbox f' = sv_inbox f ++ answer data;
  sl_piece n p rest f : sv_inbox f = Some p :: rest -> zlen p <= n ->
    exists f', sm_read n f = ((zlen p, p), f') /\ sv_sent f' = sv_sent f /\ sv_inbox f' = rest;
  sl_pause n rest f : sv_inbox f = None :: rest ->
    exists f', sm_read n f = ((- EAGAIN, []), f') /\ sv_sent f' = sv_sent f /\ sv_inbox f' = rest;
  sl_usleep u f : sv_sent (sm_usleep u f) = sv_sent f /\ sv_inbox (sm_usleep u f) = sv_inbox f;
}.

Section modem.
Context {F : Type} `{SmsModem F answer}.


(** Pieces are gathered behind [acc]. *)
Lemma read_gathers items res t : answers items res t -> forall fuel acc tail timeout (f : F),
  sv_inbox f = items -> Forall (fun c => 0 < c < 256) acc -> is_bytes tail -> zlen acc + zlen tail = READBUF ->
  zlen acc + total items + 1 < READBUF -> 10 * pauses items < timeout -> (length items < fuel)%nat -> exists buf f',
  read_sms fuel (zlen acc) timeout (acc ++ tail) f = Some (res, buf, f') /\ str_at buf 0 = Some (acc ++ t) /\
  zlen buf = READBUF /\ is_bytes buf /\ sv_inbox f' = [] /\ sv_sent f' = sv_sent f.
Proof.
  induction 1 as [p res pos (Hp & Hpos & Hc)|items res t Ha IH|p items res t Hp Ha IH];
    intros [|fuel] acc tail timeout f Hin Hacc Htail Hz Htot Hto Hf; simpl in Hf; try lia; cbn [read_sms].
  - rewrite total_cons_some in Htot. change (total []) with 0 in Htot. assert (0 < zlen p) by lia.
    rewrite (proj2 (Z.ltb_lt _ _)) by lia.
    destruct (sl_piece (READBUF - 1 - zlen acc) p [] f Hin) as (f1 & E & Hs & Hi); [lia|]. rewrite E.
    rewrite (proj2 (Z.ltb_ge _ _)), (proj2 (Z.eqb_neq _ _)) by lia.
    destruct (put_piece acc p tail Htail) as (c & post & Hcr & Hpost & E2 & Hz2); [lia|].
    destruct (wr_range (acc ++ tail) (zlen acc) p) as [b1|]; [|done]. cbn [mbind option_bind] in *. rewrite E2. cbn [mbind option_bind].
    unfold at_check_result. rewrite str_at_heard by done. cbn [mbind option_bind]. rewrite Hc by done.
    assert (Hr : 0 <= res) by (by eapply find_code_index, (Hc 0); lia).
    destruct (list_split_at p pos) as (p1 & p2 & Ep & Hp1); [lia|]. destruct p2 as [|x p2]; [subst p; rewrite app_nil_r in *; lia|].
    replace (acc ++ p ++ c :: 0 :: post) with ((acc ++ p1) ++ x :: p2 ++ c :: 0 :: post) by (rewrite Ep; appeq).
    rewrite wr_app by (rewrite zlen_app; lia). cbn [mbind option_bind]. rewrite (proj2 (Z.leb_le 0 res)) by done.
    eexists _, f1. split; [done|]. destruct Hp as [_ Hp]. rewrite Ep in Hp. apply Forall_app in Hp as [Hp1' Hp2].
    rewrite Ep in Hz2 |- *. replace (Z.to_nat pos) with (length p1) by (unfold zlen in Hp1; lia). rewrite take_app_length.
    split_and!; [|autorewrite with zlen in *; lia| |done|done].
    + apply (str_at_end [] (acc ++ p1)). by apply Forall_app.
    + apply Forall_cons in Hp2 as [_ Hp2]. unfold is_bytes in *.
      rewrite !Forall_app, Forall_cons, Forall_app, !Forall_cons. split_and!; try done; try lia;
        match goal with Hq : Forall _ ?l |- Forall _ ?l => apply (Forall_impl _ _ _ Hq); intros; lia end.
  - rewrite total_cons_none in Htot. rewrite pauses_none in Hto. pose proof (total_nonneg items).
    assert (0 <= pauses items) by apply zlen_nonneg.
    rewrite (proj2 (Z.ltb_lt _ _)) by lia. destruct (sl_pause (READBUF - 1 - zlen acc) items f Hin) as (f1 & E & Hs & Hi). rewrite E.
    cbn [Z.ltb Z.compare Z.opp EAGAIN EINTR Z.eqb Pos.eqb CompOpp]. destruct (sl_usleep (READ_RETRY_TIME_MS * 1000) f1) as [Hs1 Hi1].
    unfold READ_RETRY_TIME_MS in *. rewrite (proj2 (Z.leb_le 0 timeout)), (proj2 (Z.leb_gt (timeout - 10) 0)) by lia.
    destruct (IH fuel acc tail (timeout - 10) (sm_usleep (10 * 1000) f1)) as (buf & f' & E' & G1 & G2 & G3 & G4 & G5);
      [congruence|done|done|done|done|lia|lia|]. rewrite E'. exists buf, f'. split_and!; try done. congruence.
  - rewrite total_cons_some in Htot. rewrite pauses_some in Hto. pose proof (total_nonneg items). destruct Hp as [Hp Hc].
    assert (0 < zlen p) by (destruct Hp as [Hne _]; destruct p; [done|zlia]).
    rewrite (proj2 (Z.ltb_lt _ _)) by lia.
    destruct (sl_piece (READBUF - 1 - zlen acc) p items f Hin) as (f1 & E & Hs & Hi); [lia|]. rewrite E.
    rewrite (proj2 (Z.ltb_ge _ _)), (proj2 (Z.eqb_neq _ _)) by lia.
    destruct (put_piece acc p tail Htail) as (c & post & Hcr & Hpost & E2 & Hz2); [lia|].
    destruct (wr_range (acc ++ tail) (zlen acc) p) as [b1|]; [|done]. cbn [mbind option_bind] in *. rewrite E2. cbn [mbind option_bind].
    unfold at_check_result. rewrite str_at_heard by done. cbn [mbind option_bind]. rewrite Hc by done. cbn [mbind option_bind Z.leb Z.compare].
    rewrite <- zlen_app. replace (acc ++ p ++ c :: 0 :: post) with ((acc ++ p) ++ c :: 0 :: post) by appeq.
    destruct (IH fuel (acc ++ p) (c :: 0 :: post) timeout f1) as (buf & f' & E' & G1 & G2 & G3 & G4 & G5);
      [done|apply Forall_app; split; [done|by destruct Hp]|by repeat constructor; try lia|autorewrite with zlen in *; lia|rewrite zlen_app; lia|lia|lia|].
    rewrite E'. exists buf, f'. rewrite <- (assoc_L (++)) in G1. split_and!; try done. congruence.
Qed.

(** An answer to a command is good for a waiting time and the buffer. *)
Definition good_answer (cmd : bytes) (timeout res : Z) (t : bytes) : Prop :=
  answers (answer cmd) res t /\ total (answer cmd) + 1 < READBUF /\ 10 * pauses (answer cmd) < timeout.

Lemma sms_send_ok fuel cmd timeout res t buf (f : F) : good_answer cmd timeout res t -> 0 < zlen cmd -> sv_inbox f = [] ->
  zlen buf = READBUF -> is_bytes buf -> (length (answer cmd) < fuel)%nat -> (1 < fuel)%nat -> exists buf' f',
  at_send_cmd fuel cmd timeout buf f = Some (res, buf', f') /\ str_at buf' 0 = Some t /\ zlen buf' = READBUF /\ is_bytes buf' /\
  sv_inbox f' = [] /\ sv_sent f' = sv_sent f ++ [cmd].
Proof.
  intros (Ha & Htot & Hto) Hcmd Hin Hz Hb Hf Hf1. unfold at_send_cmd, serial_write.
  destruct fuel as [|[|fuel]]; try lia. destruct (sl_write cmd f) as (f1 & E & Hs & Hi).
  assert (Ew : write_sms (S (S fuel)) cmd 0 0 f = Some (zlen cmd, f1)).
  { cbn [write_sms]. rewrite (proj2 (Z.ltb_lt _ _)) by done. change (Z.to_nat 0) with 0%nat. rewrite drop_0. rewrite E, (proj2 (Z.ltb_ge (zlen cmd) 0)) by lia.
    rewrite Z.add_0_l, Z.ltb_irrefl. done. }
  rewrite Ew. cbn [mbind option_bind]. rewrite Hin in Hi.
  destruct (read_gathers _ _ _ Ha (S (S fuel)) [] buf timeout f1) as (buf' & f' & E' & G1 & G2 & G3 & G4 & G5); try done.
  change (zlen []) with 0 in E'. cbn [app] in *. rewrite E'. exists buf', f'. split_and!; try done. congruence.
Qed.

(** The index is read back as the modem printed it. *)
Lemma scan_index_dec ws i post : Forall (fun c => is_space c = true) ws -> 0 <= i < 2 ^ 31 -> match post with c :: _ => digit 10 c = None | [] => True end ->
  scan_index (ws ++ bstr "+CMGW: " ++ dec i ++ post) = Some i.
Proof.
  intros Hws Hi Hpost. unfold scan_index.
  assert (Es : skip_spaces (ws ++ bstr "+CMGW: " ++ dec i ++ post) = bstr "+CMGW: " ++ dec i ++ post).
  { induction Hws as [|c ws Hc _ IH]; [done|]. simpl. by rewrite Hc. }
  rewrite Es. change (scan_word (bstr "+CMGW:") (bstr "+CMGW: " ++ dec i ++ post)) with (Some (32 :: dec i ++ post)). cbn [mbind option_bind].
  destruct (dec_loop_digits 20 i []) as (c & ds & Ed & Hc & _ & Hd); [split; [lia|]; eapply Z.lt_trans; [apply Hi|by vm_compute]|].
  unfold dec. rewrite Ed, app_nil_r. unfold scan_int. change (skip_spaces (32 :: (c :: ds) ++ post)) with (skip_spaces ((c :: ds) ++ post)).
  assert (Hr : 48 <= c <= 57) by (revert Hc; unfold digit; repeat bcase; intros; bprop; try done; lia).
  assert (Hs : skip_spaces ((c :: ds) ++ post) = (c :: ds) ++ post).
  { simpl. unfold is_space. destruct (Z.eqb_spec c 32); [lia|]. destruct (Z.leb_spec 9 c), (Z.leb_spec c 13); try lia; done. }
  assert (Hn : number_sign ((c :: ds) ++ post) = (false, (c :: ds) ++ post)).
  { cbn [app number_sign]. destruct c as [|c|c]; try lia. do 7 (destruct c as [c|c|]; try lia; try done). }
  rewrite Hs, Hn, Hd. assert (Hst : digits 10 (0 * 10 ^ zlen (c :: ds) + i) post = (i, post)).
  { rewrite Z.mul_0_l, Z.add_0_l. destruct post as [|x post]; [done|]. simpl. by rewrite Hpost. }
  rewrite Hst. rewrite (proj2 (Z.ltb_lt _ _)) by zlia. rewrite wraps_small by (change (2 ^ (32 - 1)) with (2 ^ 31); lia). done.
Qed.
End modem.

(** * Sending a message *)

Definition CMD_ECHO : bytes := bstr "ATE=0" ++ [13; 10].
Definition CMD_TEXT : bytes := bstr "AT+CMGF=1" ++ [13; 10].
Definition cmd_store (number : bytes) : bytes := bstr "AT+CMGW=" ++ number ++ [13; 10].
Definition cmd_body (text : bytes) : bytes := text ++ [26].
Definition cmd_send (i : Z) : bytes := bstr "AT+CMSS=" ++ dec i ++ [13; 10].

Lemma cmd_store_len number : zlen (cmd_store number) = zlen number + 10.
Proof. unfold cmd_store. rewrite !zlen_app. change (zlen (bstr "AT+CMGW=")) with 8. change (zlen [13; 10]) with 2. lia. Qed.
Lemma cmd_body_len text : zlen (cmd_body text) = zlen text + 1.
Proof. unfold cmd_body. by rewrite zlen_app. Qed.
Lemma cmd_send_len i : zlen (cmd_send i) = zlen (dec i) + 10.
Proof. unfold cmd_send. rewrite !zlen_app. change (zlen (bstr "AT+CMSS=")) with 8. change (zlen [13; 10]) with 2. lia. Qed.

Lemma in_writebuf_short s : zlen s < WRITEBUF -> in_writebuf s = s.
Proof. intros Hs. unfold in_writebuf. apply take_ge. unfold zlen, WRITEBUF in *. lia. Qed.

(** C28: With a modem that answers every command well ([good_answer]: in pieces of which
    only the last has a result code and none ends inside one, shorter in all than the
    buffer, with pauses that stay below the timeout), a number and a text that fit the
    write buffer, and an index behind the answer to the text: sending succeeds, stays
    inside its buffer, and the commands are exactly those that store the message and send
    the one at the index the modem gave.  A code that is cut by the reads is not found
    ([code_cut]). *)
Theorem sms_sends_stored {F} `{SmsModem F answer} fuel number text i ws post t1 t2 t3 t5 buf (f : F) :
  good_answer (answer := answer) CMD_ECHO 300 AT_RESULT_OK t1 -> good_answer (answer := answer) CMD_TEXT 300 AT_RESULT_OK t2 ->
  good_answer (answer := answer) (cmd_store number) 300 AT_RESULT_PROMPT t3 ->
  good_answer (answer := answer) (cmd_body text) 500 AT_RESULT_OK (ws ++ bstr "+CMGW: " ++ dec i ++ post) ->
  good_answer (answer := answer) (cmd_send i) 10000 AT_RESULT_OK t5 ->
  Forall (fun c => is_space c = true) ws -> 0 <= i < 2 ^ 31 -> match post with c :: _ => digit 10 c = None | [] => True end ->
  zlen number <= 4000 -> zlen text <= 4094 -> sv_inbox f = [] -> zlen buf = READBUF -> is_bytes buf ->
  (1 < fuel)%nat -> Forall (fun cmd => (length (answer cmd) < fuel)%nat) [CMD_ECHO; CMD_TEXT; cmd_store number; cmd_body text; cmd_send i] ->
  exists f', sms_main fuel [bstr "send"; number; text] buf f = Some (EXIT_SUCCESS, None, f') /\
    sv_sent f' = sv_sent f ++ [CMD_ECHO; CMD_TEXT; cmd_store number; cmd_body text; cmd_send i].
Proof.
  intros A1 A2 A3 A4 A5 Hws Hi Hpost Hnum Htext Hin Hz Hb Hf1 Hf.
  rewrite !Forall_cons in Hf. destruct Hf as (F1 & F2 & F3 & F4 & F5 & _). unfold sms_main.
  destruct (sl_open f) as (fd & f0 & -> & Hfd & S0 & I0). rewrite (proj2 (Z.ltb_ge _ _) Hfd).
  change (bstr "ATE=0" ++ [13; 10]) with CMD_ECHO. change (bstr "AT+CMGF=1" ++ [13; 10]) with CMD_TEXT.
  destruct (sms_send_ok fuel CMD_ECHO 300 _ _ buf f0 A1) as (b1 & f1 & -> & _ & Z1 & B1 & I1 & S1); try done; [congruence|].
  cbn [mbind option_bind]. rewrite Z.eqb_refl. cbn [negb].
  destruct (sms_send_ok fuel CMD_TEXT 300 _ _ b1 f1 A2) as (b2 & f2 & -> & _ & Z2 & B2 & I2 & S2); try done.
  cbn [mbind option_bind]. rewrite Z.eqb_refl. cbn [negb].
  change (strcmp (bstr "send") (bstr "show") =? 0) with false. change (strcmp (bstr "send") (bstr "send") =? 0) with true. cbn iota.
  change (bstr "AT+CMGW=" ++ number ++ [13; 10]) with (cmd_store number). rewrite (in_writebuf_short (cmd_store number)) by (rewrite cmd_store_len; unfold WRITEBUF; lia).
  destruct (sms_send_ok fuel (cmd_store number) 300 _ _ b2 f2 A3) as (b3 & f3 & -> & _ & Z3 & B3 & I3 & S3); try done.
  cbn [mbind option_bind]. rewrite Z.eqb_refl. cbn [negb].
  change (text ++ [26]) with (cmd_body text). rewrite (in_writebuf_short (cmd_body text)) by (rewrite cmd_body_len; unfold WRITEBUF; lia).
  destruct (sms_send_ok fuel (cmd_body text) 500 _ _ b3 f3 A4) as (b4 & f4 & -> & T4 & Z4 & B4 & I4 & S4); try done; [rewrite cmd_body_len; pose proof (zlen_nonneg text); lia|].
  cbn [mbind option_bind]. rewrite Z.eqb_refl. cbn [negb]. rewrite T4. cbn [mbind option_bind]. rewrite scan_index_dec by done. cbn [mbind option_bind].
  unfold print_int. rewrite (proj2 (Z.ltb_ge i 0)) by lia. change (bstr "AT+CMSS=" ++ dec i ++ [13; 10]) with (cmd_send i).
  pose proof (dec_short i). rewrite (in_writebuf_short (cmd_send i)) by (rewrite cmd_send_len; unfold WRITEBUF; lia).
  destruct (sms_send_ok fuel (cmd_send i) 10000 _ _ b4 f4 A5) as (b5 & f5 & -> & _ & Z5 & B5 & I5 & S5); try done.
  cbn [mbind option_bind]. rewrite Z.eqb_refl. cbn [negb]. exists f5. split; [done|].
  rewrite S5, S4, S3, S2, S1, S0. appeq.
Qed.

(** ** What goes wrong *)

(** A read that fills the buffer puts the NUL behind it. *)
Theorem full_buffer_overruns `{SmsOps F} fuel timeout buf data (f f' : F) : zlen buf = READBUF -> zlen data = READBUF - 1 ->
  sm_read (READBUF - 1) f = ((READBUF - 1, data), f') -> read_sms (S fuel) 0 timeout buf f = None.
Proof.
  intros Hb Hd E. cbn [read_sms]. change (0 <? READBUF - 1) with true. cbn iota. rewrite Z.sub_0_r, E.
  change (READBUF - 1 <? 0) with false. change (READBUF - 1 =? 0) with false. cbn iota.
  destruct (wr_range buf 0 data) as [b|] eqn:Ew; [|done]. cbn [mbind option_bind]. apply wr_range_zlen in Ew.
  unfold wr. change (0 + (READBUF - 1) + 1) with READBUF. rewrite Ew, Hb, Z.ltb_irrefl, andb_false_r. done.
Qed.

(** A command without an answer makes the error message index its table with -1. *)
Theorem no_answer_underruns `{SmsOps F} (f : F) : sms_fail (-1) f = None.
Proof. done. Qed.

(** ** A simulated modem *)

Definition plainb (p : bytes) : bool :=
  forallb (fun c => (0 <? c) && (c <? 256)) p && negb (bool_decide (p = [])) &&
  forallb (fun c => bool_decide (find_code 0 at_result_codes (heard p c) = None)) (seqZ 0 256).
Definition code_atb (p : bytes) (res pos : Z) : bool :=
  forallb (fun c => (0 <? c) && (c <? 256)) p && negb (bool_decide (p = [])) && (0 <=? pos) && (pos <? zlen p) &&
  forallb (fun c => bool_decide (find_code 0 at_result_codes (heard p c) = Some (res, pos))) (seqZ 0 256).

Lemma is_pieceb p : forallb (fun c => (0 <? c) && (c <? 256)) p && negb (bool_decide (p = [])) = true -> is_piece p.
Proof.
  intros E. apply andb_true_iff in E as [Ep En]. split; [by apply negb_true_iff, bool_decide_eq_false in En|].
  rewrite forallb_forall in Ep. apply Forall_forall. intros c Hc. apply list_elem_of_In in Hc. specialize (Ep c Hc). bprop. lia.
Qed.
Lemma plainb_ok p : plainb p = true -> plain p.
Proof.
  intros E. apply andb_true_iff in E as [Ep E]. split; [by apply is_pieceb|]. intros c Hc. rewrite forallb_forall in E.
  apply (bool_decide_eq_true_1 _), E, list_elem_of_In, elem_of_seqZ. lia.
Qed.
Lemma code_atb_ok p res pos : code_atb p res pos = true -> code_at p res pos.
Proof.
  intros E. apply andb_true_iff in E as [Ep E]. apply andb_true_iff in Ep as [Ep E2]. apply andb_true_iff in Ep as [Ep E1].
  split; [by apply is_pieceb|]. split; [bprop; lia|]. intros c Hc. rewrite forallb_forall in E.
  apply (bool_decide_eq_true_1 _), E, list_elem_of_In, elem_of_seqZ. lia.
Qed.

Definition ex_buf : bytes := replicate (Z.to_nat READBUF) 0.
Record sms_sim := SmsSim { ss_sent : list bytes; ss_inbox : list (option bytes) }.
Definition ex_ok : bytes := [13; 10] ++ bstr "OK" ++ [13; 10].
(** The message is stored at 17; the answer comes in two pieces. *)
Definition ex_answer (cmd : bytes) : list (option bytes) :=
  if bool_decide (cmd = cmd_store (bstr "555")) then [None; Some ([13; 10] ++ bstr "> ")]
  else if bool_decide (cmd = cmd_body (bstr "Hello")) then [Some ([13; 10] ++ bstr "+CMGW: 17" ++ [13; 10]); None; Some ex_ok]
  else [Some ex_ok].

#[export] Instance sms_sim_ops : SmsOps sms_sim := {
  sm_open f := (3, f);
  sm_write data f := (zlen data, SmsSim (ss_sent f ++ [data]) (ss_inbox f ++ ex_answer data));
  sm_read _ f :=
    match ss_inbox f with
    | Some p :: rest => ((zlen p, p), SmsSim (ss_sent f) rest)
    | None :: rest => ((- EAGAIN, []), SmsSim (ss_sent f) rest)
    | [] => ((- EAGAIN, []), f)
    end;
  sm_usleep _ f := f;
}.
#[export] Instance sms_sim_view : SmsView sms_sim := { sv_sent := ss_sent; sv_inbox := ss_inbox }.
#[export] Instance sms_sim_modem : SmsModem sms_sim ex_answer.
Proof.
  split; intros; cbn in *; [by exists 3, f|by eexists|..|done].
  - rewrite H. by eexists.
  - rewrite H. by eexists.
Qed.

Lemma ex_ok_code : code_at ex_ok AT_RESULT_OK 2.
Proof. apply code_atb_ok. by vm_compute. Qed.

Lemma ex_simple cmd timeout : ex_answer cmd = [Some ex_ok] -> 0 < timeout -> good_answer (answer := ex_answer) cmd timeout AT_RESULT_OK [13; 10].
Proof. intros E Ht. unfold good_answer. rewrite E. split; [apply (ans_code ex_ok _ 2), ex_ok_code|by split]. Qed.
Lemma ex_prompt : good_answer (answer := ex_answer) (cmd_store (bstr "555")) 300 AT_RESULT_PROMPT [13; 10].
Proof.
  unfold good_answer. replace (ex_answer _) with [None; Some ([13; 10] ++ bstr "> ")] by by vm_compute. split; [|by split].
  apply ans_pause, (ans_code ([13; 10] ++ bstr "> ") _ 2), code_atb_ok. by vm_compute.
Qed.
Lemma ex_stored : good_answer (answer := ex_answer) (cmd_body (bstr "Hello")) 500 AT_RESULT_OK ([13; 10] ++ bstr "+CMGW: " ++ dec 17 ++ [13; 10; 13; 10]).
Proof.
  unfold good_answer. replace (ex_answer _) with [Some ([13; 10] ++ bstr "+CMGW: 17" ++ [13; 10]); None; Some ex_ok] by by vm_compute. split; [|by split].
  replace ([13; 10] ++ bstr "+CMGW: " ++ dec 17 ++ [13; 10; 13; 10]) with (([13; 10] ++ bstr "+CMGW: 17" ++ [13; 10]) ++ [13; 10]) by by vm_compute.
  apply ans_piece; [apply plainb_ok; by vm_compute|]. apply ans_pause, (ans_code ex_ok _ 2), ex_ok_code.
Qed.

Lemma sms_sends_stored_witness : exists f',
  sms_main 9 [bstr "send"; bstr "555"; bstr "Hello"] ex_buf (SmsSim [] []) = Some (EXIT_SUCCESS, None, f') /\
  sv_sent f' = sv_sent (SmsSim [] []) ++ [CMD_ECHO; CMD_TEXT; cmd_store (bstr "555"); cmd_body (bstr "Hello"); cmd_send 17].
Proof.
  apply (sms_sends_stored 9 (bstr "555") (bstr "Hello") 17 [13; 10] [13; 10; 13; 10] [13; 10] [13; 10] [13; 10] [13; 10]
    ex_buf (SmsSim [] [])).
  - by apply ex_simple; [vm_compute|].
  - by apply ex_simple; [vm_compute|].
  - apply ex_prompt.
  - apply ex_stored.
  - by apply ex_simple; [vm_compute|].
  - by repeat constructor.
  - lia.
  - done.
  - by vm_compute.
  - by vm_compute.
  - done.
  - by vm_compute.
  - apply Forall_replicate. lia.
  - lia.
  - repeat constructor; by apply Nat.ltb_lt; vm_compute.
Defined.

(** A result code that is cut in two by the reads is not found. *)
Example code_cut : (fun r => r.1.1) <$> read_sms 60 0 300 ex_buf (SmsSim [] [Some (bstr "O"); Some [75; 13; 10]]) = Some (-1).
Proof. by vm_compute. Qed.
(** A message that contains a result code ends the listing of messages. *)
Example code_in_text :
  (fun r => match r with (code, text, _) => (code, text) end) <$>
    (res ← read_sms 9 0 300 ex_buf (SmsSim [] [Some (bstr "It is OK to call" ++ ex_ok)]);
     let '(err, buf, f) := res in text ← str_at buf 0; Some (err, text, f)) = Some (0, bstr "It is ").
Proof. by vm_compute. Qed.
