(* ===== verification/PsdRt.v ===== *)
(** * The serial downloader for the i.MX RT ([psd/imxrt/psd.c])

    A server for the same protocol that writes files to one of two flash memories.  The
    transport is that of [Psd]; the flash servers are the class [RtFlash].  The buffer of
    the reports is checked memory: [None] is an access outside it, a command before the
    first one arrived, or a division by the size of a page that is zero. *)

From S2P Require Import Prelude.
From S2P Require Import Psd.

Definition HID_REPORT_2_SIZE : Z := 1025.
Definition HID_REPORT_3_SIZE : Z := 5.
Definition HID_REPORT_4_SIZE : Z := 65.
Definition FLASH_CNT : Z := 2.
Definition CHANGE_FLASH : Z := -7.
Definition INTERNAL_FLASH_NAME : bytes := bstr "/dev/flash1".
Definition EXTERNAL_FLASH_NAME : bytes := bstr "/dev/flash0".

(** The results of [msgSend] and [msg.o.err]. *)
Class RtFlash (F : Type) := {
  rt_syncmsg : Z -> F -> (Z * Z) * F;
  rt_writemsg : Z -> Z -> bytes -> F -> (Z * Z) * F;
  (** With the sizes of the flash, its pages and its sectors. *)
  rt_propmsg : Z -> F -> (Z * Z * (Z * Z * Z)) * F;
  rt_lookup : bytes -> F -> option Z * F;
  (** [platformctl], and [hid_init]. *)
  rt_cache : bool -> F -> F;
  rt_hidinit : F -> Z * F;
}.

Record flash_properties_t := FlashProps { fp_oid : Z; fp_flashSize : Z; fp_pageSize : Z; fp_sectorSize : Z }.
Record psd_common_t := RtCommon { rc_flashMems : list flash_properties_t; rc_run : bool; rc_flashID : Z; rc_buff : bytes }.

Definition rc_set_run (b : bool) (p : psd_common_t) : psd_common_t := RtCommon (rc_flashMems p) b (rc_flashID p) (rc_buff p).
Definition rc_set_id (i : Z) (p : psd_common_t) : psd_common_t := RtCommon (rc_flashMems p) (rc_run p) i (rc_buff p).
Definition rc_set_buff (b : bytes) (p : psd_common_t) : psd_common_t := RtCommon (rc_flashMems p) (rc_run p) (rc_flashID p) b.

Section rt.
Context {F : Type} `{RtFlash F}.
Context (eReport1 eReport2 eReport3 eReport4 : Z).

(** ** The flash server *)

Definition psd_syncFlash (oid : Z) (f : F) : Z * F :=
  let '((ret, err), f) := rt_syncmsg oid f in
  (if ret <? 0 then -1 else if err <? 0 then -1 else 0, f).

Definition psd_write2Flash (oid paddr : Z) (data : bytes) (f : F) : Z * F :=
  let '((ret, err), f) := rt_writemsg oid (u32 paddr) data f in
  (if ret <? 0 then -1 else if err <? zlen data then -1 else zlen data, f).

Definition psd_getFlashProperties (oid : Z) (f : F) : option flash_properties_t * F :=
  let '((ret, err, (size, psize, ssize)), f) := rt_propmsg oid f in
  (if (ret <? 0) || (err <? 0) then None else Some (FlashProps oid size psize ssize), f).

(** ** Answers *)

(** The four bytes of a report behind its number, the rest of report 4 cleared. *)
Definition send_report (report : Z) (status : bytes) (size : Z) (buff : bytes) (w : world F) : option (Z * bytes * world F) :=
  buff ← wr_range buff 0 (report :: status);
  buff ← (if report =? 4 then wr_range buff 5 (replicate (Z.to_nat (size - 5)) 0) else Some buff);
  data ← rd_range buff 0 size;
  let '(res, w) := sdp_send report data w in
  Some (res, buff, w).

Definition rt_hidResponse (err type : Z) (buff : bytes) (w : world F) : option (Z * bytes * world F) :=
  let ok := err =? 0 in
  '(res, buff, w) ← send_report 3 (if ok then [86; 120; 120; 86] else [18; 52; 52; 18]) HID_REPORT_3_SIZE buff w;
  let err3 := if res <? 0 then - eReport3 else err in
  if ok && negb ((type =? SDP_WRITE_FILE) || (type =? SDP_WRITE_REGISTER)) then Some (- eReport4, buff, w)
  else
    let status := if ok then if type =? SDP_WRITE_FILE then [136; 136; 136; 136] else [18; 138; 138; 18] else [u8 err3; 170; 170; 170] in
    '(res, buff, w) ← send_report 4 status HID_REPORT_4_SIZE buff w;
    Some (if res <? 0 then - eReport4 else err3, buff, w).

(** ** Commands *)

(** The number arrives as a byte; the flash that is left is synchronised. *)
Definition psd_changeFlash (flashID : Z) (p : psd_common_t) (f : F) : option (Z * psd_common_t * F) :=
  let flashID := u8 flashID in
  flash ← rd (rc_flashMems p) (rc_flashID p);
  if FLASH_CNT <=? flashID then Some (- eReport1, p, f)
  else
    let '(r, f) := psd_syncFlash (fp_oid flash) f in
    if negb (r =? 0) then Some (- eReport2, p, f) else Some (0, rc_set_id flashID p, f).

Definition rt_writeRegister (cmd : sdp_cmd_t) (p : psd_common_t) (w : world F) : option (Z * psd_common_t * world F) :=
  let address := s32 (sc_address cmd) in
  '(err, p, w) ←
    (if address =? CLOSE_PSD then Some (0, rc_set_run false p, w)
     else if address =? CHANGE_FLASH then
       '(err, p, f) ← psd_changeFlash (sc_data cmd) p (w_fl w);
       Some (err, p, World (w_in w) (w_send w) (w_sent w) f)
     else Some (- eReport1, p, w));
  '(err, buff, w) ← rt_hidResponse err SDP_WRITE_REGISTER (rc_buff p) w;
  Some (err, rc_set_buff buff p, w).

(** Every round takes a report, or ends. *)
Fixpoint rt_file_loop (fuel : nat) (oid pageSize datasz writesz offset : Z) (buff : bytes) (w : world F) : option (Z * bytes * world F) :=
  match fuel with
  | O => None
  | Datatypes.S fuel =>
      if writesz <? datasz then
        buff ← wr_range buff 0 (replicate (Z.to_nat (HID_REPORT_2_SIZE - 1)) 255);
        let '((res, data, _), w) := sdp_recv 1 w in
        buff ← wr_range buff 0 (default [] data);
        if res <? 0 then Some (- eReport2, buff, w)
        else if pageSize =? 0 then None
        else
          let res := if negb (res mod pageSize =? 0) then (res / pageSize + 1) * pageSize else res in
          out ← rd_range buff 1 res;
          let '(n, w) := on_flash (psd_write2Flash oid offset out) w in
          if n <? res then Some (- eReport2, buff, w)
          else rt_file_loop fuel oid pageSize datasz (writesz + res) (offset + res) buff w
      else Some (0, buff, w)
  end.

Definition rt_writeFile (cmd : sdp_cmd_t) (p : psd_common_t) (w : world F) : option (Z * psd_common_t * world F) :=
  flash ← rd (rc_flashMems p) (rc_flashID p);
  '(err, buff, w) ← rt_file_loop (Datatypes.S (Datatypes.S (length (w_in w)))) (fp_oid flash) (fp_pageSize flash) (sc_datasz cmd) 0
                      (s32 (sc_address cmd)) (rc_buff p) w;
  let '(r, w) := on_flash (psd_syncFlash (fp_oid flash)) w in
  let err := if negb (r =? 0) then - eReport2 else err in
  '(err, buff, w) ← rt_hidResponse err SDP_WRITE_FILE buff w;
  Some (err, rc_set_buff buff p, w).

(** ** The server *)

(** The result of [sdp_recv] is not looked at: the command is what [pcmd] points to,
    [cmdBuff] as it is after the last report. *)
Fixpoint rt_loop (fuel : nat) (cmd : option sdp_cmd_t) (p : psd_common_t) (w : world F) : option (Z * psd_common_t * world F) :=
  match fuel with
  | O => None
  | Datatypes.S fuel =>
      if negb (rc_run p) then Some (0, p, w)
      else
        let '((_, data, set_), w) := sdp_recv 0 w in
        let cmd :=
          match data, cmd with
          | Some d, Some _ => Some (get_cmd d)
          | Some d, None => if set_ then Some (get_cmd d) else None
          | None, _ => cmd
          end in
        c ← cmd;
        if sc_type c =? SDP_WRITE_REGISTER then
          '(err, p, w) ← rt_writeRegister c p w;
          if negb (err =? 0) then Some (err, p, w) else rt_loop fuel cmd p w
        else if sc_type c =? SDP_WRITE_FILE then
          '(err, p, w) ← rt_writeFile c p w;
          if negb (err =? 0) then Some (err, p, w) else rt_loop fuel cmd p w
        else rt_loop fuel cmd p w
  end.

(** [while (lookup(...) < 0)]. *)
Fixpoint rt_lookup_retry (n : nat) (name : bytes) (f : F) : option (Z * F) :=
  match n with
  | O => None
  | Datatypes.S n =>
      match rt_lookup name f with
      | (Some oid, f) => Some (oid, f)
      | (None, f) => rt_lookup_retry n name f
      end
  end.

(** The memories, or a failure. *)
Fixpoint rt_memories (n : nat) (names : list bytes) (f : F) : option (option (list flash_properties_t) * F) :=
  match names with
  | [] => Some (Some [], f)
  | name :: names =>
      '(oid, f) ← rt_lookup_retry n name f;
      match psd_getFlashProperties oid f with
      | (None, f) => Some (None, f)
      | (Some fp, f) =>
          '(fps, f) ← rt_memories n names f;
          Some (match fps with Some fps => Some (fp :: fps) | None => None end, f)
      end
  end.

(** The exit value; the device is rebooted where it is zero. *)
Definition rt_main (n fuel : nat) (w : world F) : option (Z * world F) :=
  let w := World (w_in w) (w_send w) (w_sent w) (rt_cache false (w_fl w)) in
  let '(r, w) := on_flash rt_hidinit w in
  if negb (r =? 0) then Some (-1, w)
  else
    '(fps, f) ← rt_memories n [EXTERNAL_FLASH_NAME; INTERNAL_FLASH_NAME] (w_fl w);
    let w := World (w_in w) (w_send w) (w_sent w) f in
    match fps with
    | None => Some (-1, w)
    | Some fps =>
        '(err, p, w) ← rt_loop fuel None (RtCommon fps true 1 (replicate (Z.to_nat HID_REPORT_2_SIZE) 0)) w;
        if negb (err =? 0) then Some (err, w)
        else Some (0, World (w_in w) (w_send w) (w_sent w) (rt_cache true (w_fl w)))
    end.
End rt.
