(* ===== verification/PsdRtSpec.v ===== *)
(** * What the downloader for the i.MX RT writes

    A file that arrives in reports of whole pages is in the flash memory at its address,
    nothing outside its pages changes, and both commands of the session are answered; the
    defects of short reports and of the padding. *)

From S2P Require Import Prelude.
From S2P Require Import Psd.
From S2P Require Import PsdSpec.
From S2P Require Import PsdRt.

(** The bytes of the memories. *)
Class RtView (F : Type) := rv_mem : F -> Z -> Z -> Z.

Definition holds `{RtView F} (f : F) (oid a : Z) (data : bytes) : Prop :=
  forall i x, data !! i = Some x -> rv_mem f oid (a + Z.of_nat i) = x.
(** Only the bytes from [a] to [b] of a memory changed. *)
Definition only_changed `{RtView F} (f f' : F) (oid a b : Z) : Prop :=
  forall o j, o <> oid \/ j < a \/ b <= j -> rv_mem f' o j = rv_mem f o j.

(** A memory that is written as it is told. *)
Class RtLaws (F : Type) `{RtFlash F, RtView F} (oid : Z) : Prop := {
  rlaw_write f a data : 0 <= a -> exists f', rt_writemsg oid a data f = ((0, zlen data), f') /\
    holds f' oid a data /\ only_changed f f' oid a (a + zlen data);
  rlaw_sync f : exists f', rt_syncmsg oid f = ((0, 0), f') /\ forall o j, rv_mem f' o j = rv_mem f o j;
}.

(** ** Pages *)

Definition rounded (n page : Z) : Z := (n + page - 1) / page * page.

Lemma rounded_code n page : 0 <= n -> 0 < page -> (if negb (n mod page =? 0) then (n / page + 1) * page else n) = rounded n page.
Proof.
  intros Hn Hp. unfold rounded. pose proof (Z.div_mod n page ltac:(lia)). pose proof (Z.mod_pos_bound n page Hp).
  destruct (Z.eqb_spec (n mod page) 0); cbn [negb].
  - assert (E : (n + page - 1) / page = n / page) by (symmetry; apply (Z.div_unique _ _ _ (page - 1)); lia). rewrite E. lia.
  - f_equal. apply (Z.div_unique _ _ _ (n mod page - 1)); lia.
Qed.

Lemma rounded_mult k n page : 0 < page -> k mod page = 0 -> rounded (k + n) page = k + rounded n page.
Proof.
  intros Hp Hk. unfold rounded. apply Z.mod_divide in Hk as [q ->]; [|lia].
  replace (q * page + n + page - 1) with (q * page + (n + page - 1)) by lia. rewrite Z.div_add_l by lia. lia.
Qed.

Lemma rounded_le n page m : 0 < page -> n <= m -> m mod page = 0 -> rounded n page <= m.
Proof.
  intros Hp Hn Hm. unfold rounded. apply Z.mod_divide in Hm as [q ->]; [|lia].
  assert ((n + page - 1) / page < q + 1) by (apply Z.div_lt_upper_bound; lia). nia.
Qed.

Lemma rounded_ge n page : 0 < page -> n <= rounded n page.
Proof. intros Hp. unfold rounded. pose proof (Z.div_mod (n + page - 1) page ltac:(lia)). pose proof (Z.mod_pos_bound (n + page - 1) page Hp). lia. Qed.

(** ** Reports *)

(** The rest of the buffer behind a report. *)
Lemma report_in_buffer buff d : zlen buff = HID_REPORT_2_SIZE -> zlen d <= 1024 -> exists b rest,
  wr_range buff 0 (replicate (Z.to_nat (HID_REPORT_2_SIZE - 1)) 255) = Some b /\
  wr_range b 0 (2 :: d) = Some (2 :: d ++ rest) /\ zlen rest = 1024 - zlen d.
Proof.
  intros Hb Hd. unfold HID_REPORT_2_SIZE in *. pose proof (zlen_nonneg d).
  destruct (list_split_at buff 1024) as (b1 & b2 & -> & Hb1); [lia|]. rewrite zlen_app in Hb.
  exists (replicate (Z.to_nat 1024) 255 ++ b2). rewrite (wr_range_app [] b1 b2) by (try done; zlia).
  destruct (list_split_at (replicate (Z.to_nat 1024) 255 ++ b2) (zlen d + 1)) as (c1 & c2 & E & Hc1); [zlia|].
  exists c2. split_and!; [done| |].
  - rewrite E. by rewrite (wr_range_app [] c1 c2) by (try done; zlia).
  - apply (f_equal zlen) in E. zlia.
Qed.

(** The reports of a file: whole pages but for the last one. *)
Fixpoint reports_ok (page left : Z) (ds : list bytes) : Prop :=
  match ds with
  | [] => left = 0
  | d :: ds => 0 < zlen d <= 1024 /\ zlen d <= left /\ (ds = [] \/ zlen d mod page = 0) /\ reports_ok page (left - zlen d) ds
  end.

Lemma reports_left page ds : forall left, reports_ok page left ds -> 0 <= left /\ (left = 0 -> ds = []) /\ zlen (concat ds) = left.
Proof.
  induction ds as [|d ds IH]; intros left Hok; simpl in Hok; [subst; done|]. destruct Hok as (Hd & Hl & _ & Hok).
  destruct (IH _ Hok) as (_ & _ & Hc). cbn [concat]. rewrite zlen_app. split_and!; lia.
Qed.

Section rt.
Context {F : Type} `{RtLaws F oid} (page : Z) (Hpage : 0 < page) (Hdiv : 1024 mod page = 0).
Context (eReport1 eReport2 eReport3 eReport4 : Z).

Lemma holds_app (f : F) a x y : holds f oid a x -> holds f oid (a + zlen x) y -> holds f oid a (x ++ y).
Proof.
  intros Hx Hy i v Hv. apply lookup_app_Some in Hv as [Hv|[Hi Hv]]; [by apply Hx|].
  apply Hy in Hv. rewrite <- Hv. f_equal. unfold zlen. lia.
Qed.

Lemma holds_prefix (f : F) a x y : holds f oid a (x ++ y) -> holds f oid a x.
Proof. intros Hh i v Hv. apply Hh. by apply lookup_app_l_Some. Qed.

Lemma holds_kept (f f' : F) a x b e : holds f oid a x -> only_changed f f' oid b e -> a + zlen x <= b -> holds f' oid a x.
Proof. intros Hh Ho Hb i v Hv. rewrite Ho; [by apply Hh|]. apply lookup_lt_Some in Hv. unfold zlen in Hb. lia. Qed.

(** One report: it is written with what fills its last page. *)
Lemma write_report (f : F) a d rest : 0 <= a -> a + rounded (zlen d) page < 2 ^ 31 -> 0 < zlen d <= 1024 -> zlen rest = 1024 - zlen d -> exists out f',
  rd_range (2 :: d ++ rest) 1 (rounded (zlen d) page) = Some out /\ zlen out = rounded (zlen d) page /\
  psd_write2Flash oid a out f = (rounded (zlen d) page, f') /\ holds f' oid a d /\ only_changed f f' oid a (a + rounded (zlen d) page).
Proof.
  intros Ha Hmax Hd Hr. pose proof (rounded_ge (zlen d) page Hpage). pose proof (rounded_le (zlen d) page 1024 Hpage ltac:(lia) Hdiv).
  destruct (list_split_at rest (rounded (zlen d) page - zlen d)) as (pad & r & -> & Hpad); [lia|].
  exists (d ++ pad). destruct (rlaw_write f a (d ++ pad) Ha) as (f' & E & Hh & Ho).
  assert (Hz : zlen (d ++ pad) = rounded (zlen d) page) by (rewrite zlen_app; lia).
  exists f'. split_and!; [|done| |by eapply holds_prefix|by rewrite <- Hz].
  - replace (2 :: d ++ pad ++ r) with ([2] ++ (d ++ pad) ++ r) by appeq. by apply rd_range_app.
  - unfold psd_write2Flash. rewrite u32_small by lia. rewrite E. change (0 <? 0) with false. cbn iota. by rewrite Z.ltb_irrefl, Hz.
Qed.

Lemma rt_file_ok ds : forall fuel datasz writesz a buff rest snd_ sent (f : F), reports_ok page (datasz - writesz) ds ->
  0 <= a -> a + rounded (datasz - writesz) page < 2 ^ 31 -> zlen buff = HID_REPORT_2_SIZE -> (length ds < fuel)%nat -> exists buff' f',
  rt_file_loop eReport2 fuel oid page datasz writesz a buff (World ((data_report <$> ds) ++ rest) snd_ sent f) =
    Some (0, buff', World rest snd_ sent f') /\ zlen buff' = HID_REPORT_2_SIZE /\
  holds f' oid a (concat ds) /\ only_changed f f' oid a (a + rounded (datasz - writesz) page).
Proof.
  induction ds as [|d ds IH]; intros [|fuel] datasz writesz a buff rest snd_ sent f Hok Ha Hmax Hb Hf; simpl in Hf; try lia;
    cbn [rt_file_loop].
  - simpl in Hok. rewrite (proj2 (Z.ltb_ge _ _)) by lia. exists buff, f. split_and!; [done|done|by intros i x Hi|done].
  - destruct Hok as (Hd & Hl & Hm & Hok). rewrite (proj2 (Z.ltb_lt _ _)) by lia.
    destruct (report_in_buffer buff d Hb) as (b & tail & E1 & E2 & Ht); [lia|]. rewrite E1. cbn [mbind option_bind fmap list_fmap app].
    unfold sdp_recv, hid_recv. cbn [w_in data_report fst snd]. rewrite (proj2 (Z.ltb_ge _ _)) by lia.
    change (1 =? 0) with false. change (byte_at (2 :: d) 0) with 2. change (negb (2 =? 2)) with false. cbn iota. cbn [default w_send w_sent w_fl].
    change (id (2 :: d)) with (2 :: d). rewrite E2. cbn [mbind option_bind]. replace (zlen d + 1 - 1) with (zlen d) by lia.
    rewrite (proj2 (Z.ltb_ge _ _)), (proj2 (Z.eqb_neq page 0)), rounded_code by lia. cbv zeta.
    assert (Hsp : rounded (datasz - writesz) page >= rounded (zlen d) page /\
      (ds <> [] -> rounded (datasz - writesz) page = zlen d + rounded (datasz - (writesz + zlen d)) page /\ rounded (zlen d) page = zlen d)).
    { split.
      - unfold rounded. assert ((zlen d + page - 1) / page <= (datasz - writesz + page - 1) / page) by (apply Z.div_le_mono; lia). nia.
      - intros Hne. destruct Hm as [->|Hm]; [done|]. split.
        + rewrite <- rounded_mult by done. f_equal. lia.
        + replace (zlen d) with (zlen d + 0) at 1 by lia. rewrite rounded_mult by done. unfold rounded. rewrite Z.div_small by lia. lia. }
    destruct Hsp as [Hge Hsp].
    destruct (write_report f a d tail) as (out & f1 & E3 & Hz & E4 & Hh & Ho); [done|lia|done|done|].
    rewrite E3. cbn [mbind option_bind]. unfold on_flash. cbn [w_fl w_in w_send w_sent]. rewrite E4, Z.ltb_irrefl.
    assert (Hb2 : zlen (2 :: d ++ tail) = HID_REPORT_2_SIZE) by (unfold HID_REPORT_2_SIZE; zlia).
    destruct ds as [|d' ds'].
    + simpl in Hok. destruct fuel as [|fuel]; [simpl in Hf; lia|]. cbn [rt_file_loop fmap list_fmap app].
      pose proof (rounded_ge (zlen d) page Hpage). rewrite (proj2 (Z.ltb_ge _ _)) by lia. exists (2 :: d ++ tail), f1.
      replace (datasz - writesz) with (zlen d) by lia. split_and!; [done|done|cbn [concat]; by rewrite app_nil_r|done].
    + destruct (Hsp ltac:(done)) as [Hsum Hwhole]. rewrite Hwhole in *.
      destruct (IH fuel datasz (writesz + zlen d) (a + zlen d) (2 :: d ++ tail) rest snd_ sent f1) as (buff' & f' & E & Hz' & Hh' & Ho');
        [by replace (datasz - (writesz + zlen d)) with (datasz - writesz - zlen d) by lia|lia|lia|done|simpl in *; lia|].
      rewrite E. exists buff', f'. split_and!; [done|done| |].
      * cbn [concat]. apply holds_app; [|done]. eapply holds_kept; [done|done|lia].
      * intros o j Hj. rewrite Ho' by lia. apply Ho. pose proof (rounded_ge (datasz - (writesz + zlen d)) page Hpage).
        destruct (reports_left _ _ _ Hok). lia.
Qed.

(** ** Answers *)

Lemma send_report_ok report status size (buff : bytes) inp sent (f : F) : report = 3 /\ size = 5 \/ report = 4 /\ size = 65 -> zlen status = 4 ->
  zlen buff = HID_REPORT_2_SIZE -> exists buff',
  let data := report :: status ++ (if report =? 4 then replicate 60 0 else []) in
  send_report report status size buff (World inp [] sent f) = Some (zlen data, buff', World inp [] (sent ++ [data]) f) /\
  zlen buff' = HID_REPORT_2_SIZE.
Proof.
  intros Hr Hs Hb. unfold HID_REPORT_2_SIZE in *. unfold send_report.
  destruct (list_split_at buff 5) as (b1 & b2 & -> & Hb1); [lia|]. rewrite zlen_app in Hb.
  rewrite (wr_range_app [] b1 b2) by (try done; zlia). cbn [mbind option_bind app].
  destruct Hr as [[-> ->]|[-> ->]]; cbn [Z.eqb Pos.eqb].
  - cbn [mbind option_bind]. change (3 :: status ++ b2) with ([] ++ (3 :: status) ++ b2). rewrite rd_range_app by (try done; zlia).
    cbn [mbind option_bind]. unfold sdp_send. change (byte_at (3 :: status) 0) with 3.
    replace (zlen (3 :: status)) with 5 by zlia. cbn [Z.eqb Pos.eqb negb andb orb]. unfold hid_send. cbn [w_send w_in w_sent w_fl].
    rewrite app_nil_r. eexists. split; [replace (zlen (3 :: status)) with 5 by zlia; reflexivity|zlia].
  - destruct (list_split_at b2 60) as (b3 & b4 & -> & Hb3); [lia|]. rewrite zlen_app in Hb.
    replace (4 :: status ++ b3 ++ b4) with ((4 :: status) ++ b3 ++ b4) by appeq. change (Z.to_nat (65 - 5)) with 60%nat.
    rewrite (wr_range_app (4 :: status) b3 b4) by (zlia; try done). cbn [mbind option_bind].
    replace ((4 :: status) ++ replicate 60 0 ++ b4) with ([] ++ (4 :: status ++ replicate 60 0) ++ b4) by appeq.
    rewrite rd_range_app by (try done; zlia). cbn [mbind option_bind]. unfold sdp_send. change (byte_at (4 :: status ++ replicate 60 0) 0) with 4.
    assert (Hz : zlen (4 :: status ++ replicate 60 0) = 65) by zlia. rewrite Hz. cbn [Z.eqb Pos.eqb negb andb orb Z.ltb Z.compare Pos.compare Pos.compare_cont].
    unfold hid_send. cbn [w_send w_in w_sent w_fl]. rewrite Hz. eexists. split; [reflexivity|]. cbn [app]. zlia.
Qed.

Lemma rt_hidResponse_ok type buff inp sent (f : F) : type = SDP_WRITE_FILE \/ type = SDP_WRITE_REGISTER -> zlen buff = HID_REPORT_2_SIZE -> exists buff',
  rt_hidResponse eReport3 eReport4 0 type buff (World inp [] sent f) = Some (0, buff', World inp [] (sent ++ complete_reports type) f) /\
  zlen buff' = HID_REPORT_2_SIZE.
Proof.
  intros Ht Hb. unfold rt_hidResponse. cbn [Z.eqb andb].
  destruct (send_report_ok 3 [86; 120; 120; 86] 5 buff inp sent f) as (b1 & E1 & Hb1); [by left|done|done|].
  cbv zeta in E1. unfold HID_REPORT_3_SIZE. rewrite E1. cbn [mbind option_bind]. change (zlen _ <? 0) with false. cbn iota zeta.
  unfold HID_REPORT_4_SIZE. destruct Ht as [-> | ->]; cbn [Z.eqb Pos.eqb SDP_WRITE_FILE SDP_WRITE_REGISTER orb negb];
    match goal with |- context [send_report 4 ?s 65 b1 (World inp [] ?t f)] =>
      destruct (send_report_ok 4 s 65 b1 inp t f) as (b2 & E2 & Hb2); [by right|done|done|] end;
    cbv zeta in E2; rewrite E2; cbn [mbind option_bind]; exists b2; (split; [|done]);
    unfold complete_reports; by rewrite <- (assoc_L (++)).
Qed.

(** ** A session *)

Lemma rt_writeFile_ok cmd ds p fl rest sent (f : F) : reports_ok page (sc_datasz cmd) ds -> 0 <= sc_address cmd ->
  sc_address cmd + rounded (sc_datasz cmd) page < 2 ^ 31 -> rd (rc_flashMems p) (rc_flashID p) = Some fl -> fp_oid fl = oid -> fp_pageSize fl = page ->
  zlen (rc_buff p) = HID_REPORT_2_SIZE -> exists buff f',
  rt_writeFile eReport2 eReport3 eReport4 cmd p (World ((data_report <$> ds) ++ rest) [] sent f) =
    Some (0, rc_set_buff buff p, World rest [] (sent ++ complete_reports SDP_WRITE_FILE) f') /\ zlen buff = HID_REPORT_2_SIZE /\
  holds f' oid (sc_address cmd) (concat ds) /\ only_changed f f' oid (sc_address cmd) (sc_address cmd + rounded (sc_datasz cmd) page).
Proof.
  intros Hok Ha Hmax Hfl Ho Hp Hb. unfold rt_writeFile. rewrite Hfl. cbn [mbind option_bind]. rewrite Ho, Hp.
  destruct (reports_left page ds _ Hok) as (Hd & _ & _). pose proof (rounded_ge (sc_datasz cmd) page Hpage).
  rewrite wraps_small by (change (2 ^ (32 - 1)) with (2 ^ 31); lia). cbn [w_in].
  destruct (rt_file_ok ds (S (S (length ((data_report <$> ds) ++ rest)))) (sc_datasz cmd) 0 (sc_address cmd) (rc_buff p) rest [] sent f)
    as (b1 & f1 & E & Hb1 & Hh & Hc); rewrite ?Z.sub_0_r; try done.
  { rewrite length_app, length_fmap. lia. }
  rewrite E. cbn [mbind option_bind]. unfold on_flash, psd_syncFlash. cbn [w_fl w_in w_send w_sent].
  destruct (rlaw_sync f1) as (f2 & E2 & Hs). rewrite E2. change (0 <? 0) with false. cbn iota zeta. change (negb (0 =? 0)) with false. cbn iota.
  destruct (rt_hidResponse_ok SDP_WRITE_FILE b1 rest sent f2) as (b2 & E3 & Hb2); [by left|done|]. rewrite E3. cbn [mbind option_bind].
  exists b2, f2. rewrite Z.sub_0_r in Hc. split_and!; [done|done| |].
  - intros i x Hi. rewrite Hs. by apply Hh.
  - intros o j Hj. rewrite Hs. by apply Hc.
Qed.

Lemma rt_step fuel c prev (p : psd_common_t) inp sent (f : F) : cmd_ok c -> rc_run p = true ->
  rt_loop eReport1 eReport2 eReport3 eReport4 (S fuel) prev p (World (cmd_report c :: inp) [] sent f) =
  (let w := World inp [] sent f in
   let next '(err, p, w) := if negb (err =? 0) then Some (err, p, w) else rt_loop eReport1 eReport2 eReport3 eReport4 fuel (Some c) p w in
   if sc_type c =? SDP_WRITE_REGISTER then rt_writeRegister eReport1 eReport2 eReport3 eReport4 c p w ≫= next
   else if sc_type c =? SDP_WRITE_FILE then rt_writeFile eReport2 eReport3 eReport4 c p w ≫= next
   else rt_loop eReport1 eReport2 eReport3 eReport4 fuel (Some c) p w).
Proof.
  intros Hc Hr. cbn [rt_loop]. rewrite Hr. cbn [negb]. rewrite recv_cmd. by destruct prev; rewrite get_cmd_report.
Qed.

Lemma rt_close_ok (p : psd_common_t) inp sent (f : F) : zlen (rc_buff p) = HID_REPORT_2_SIZE -> exists buff,
  rt_writeRegister eReport1 eReport2 eReport3 eReport4 close_cmd p (World inp [] sent f) =
  Some (0, rc_set_buff buff (rc_set_run false p), World inp [] (sent ++ complete_reports SDP_WRITE_REGISTER) f).
Proof.
  intros Hb. unfold rt_writeRegister. change (s32 (sc_address close_cmd)) with CLOSE_PSD. rewrite Z.eqb_refl. cbn [mbind option_bind].
  destruct (rt_hidResponse_ok SDP_WRITE_REGISTER (rc_buff p) inp sent f) as (b & E & _); [by right|done|].
  change (rc_buff (rc_set_run false p)) with (rc_buff p). rewrite E. cbn [mbind option_bind]. by exists b.
Qed.

(** C9: A host that sends a file in reports of whole pages, the last one excepted, and
    closes the session gets both commands answered with success; the file is in the
    selected memory at its address, and outside the pages it touches no byte of any
    memory changes. *)
Theorem rt_write_session fuel cmd ds prev p fl rest sent (f : F) :
  cmd_ok cmd -> sc_type cmd = SDP_WRITE_FILE -> reports_ok page (sc_datasz cmd) ds -> sc_address cmd + rounded (sc_datasz cmd) page < 2 ^ 31 ->
  rc_run p = true -> rd (rc_flashMems p) (rc_flashID p) = Some fl -> fp_oid fl = oid -> fp_pageSize fl = page ->
  zlen (rc_buff p) = HID_REPORT_2_SIZE -> exists p' f',
  rt_loop eReport1 eReport2 eReport3 eReport4 (S (S (S fuel))) prev p
    (World (cmd_report cmd :: (data_report <$> ds) ++ cmd_report close_cmd :: rest) [] sent f) =
    Some (0, p', World rest [] (sent ++ complete_reports SDP_WRITE_FILE ++ complete_reports SDP_WRITE_REGISTER) f') /\
  rc_run p' = false /\ holds f' oid (sc_address cmd) (concat ds) /\
  only_changed f f' oid (sc_address cmd) (sc_address cmd + rounded (sc_datasz cmd) page).
Proof.
  intros Hc Ht Hok Hmax Hrun Hfl Ho Hp Hb. rewrite rt_step by done. rewrite Ht.
  change (SDP_WRITE_FILE =? SDP_WRITE_REGISTER) with false. rewrite Z.eqb_refl. cbn zeta iota.
  destruct (rt_writeFile_ok cmd ds p fl (cmd_report close_cmd :: rest) sent f) as (b & f' & E & Hb' & Hh & Hch); try done; [apply Hc|].
  rewrite E. cbn [mbind option_bind Z.eqb negb]. rewrite rt_step by (done || (unfold cmd_ok; simpl; lia)).
  change (sc_type close_cmd =? SDP_WRITE_REGISTER) with true. cbn zeta iota.
  destruct (rt_close_ok (rc_set_buff b p) rest (sent ++ complete_reports SDP_WRITE_FILE) f') as (b2 & E2); [done|].
  rewrite E2. cbn [mbind option_bind Z.eqb negb rt_loop]. eexists _, f'. rewrite <- (assoc_L (++)). by split_and!.
Qed.
End rt.

(** ** A simulated memory

    The writes so far, the latest first. *)

#[export] Instance rt_sim : RtFlash (list (Z * Z * bytes)) := {
  rt_syncmsg _ f := ((0, 0), f);
  rt_writemsg oid a data f := ((0, zlen data), (oid, a, data) :: f);
  rt_propmsg _ f := ((0, 0, (4194304, 256, 4096)), f);
  rt_lookup _ f := (Some 1, f);
  rt_cache _ f := f;
  rt_hidinit f := (0, f);
}.
Fixpoint sim_mem (f : list (Z * Z * bytes)) (oid j : Z) : Z :=
  match f with
  | [] => 255
  | (o, a, data) :: f => if (o =? oid) && (a <=? j) && (j <? a + zlen data) then default 0 (data !! Z.to_nat (j - a)) else sim_mem f oid j
  end.
#[export] Instance rt_sim_view : RtView (list (Z * Z * bytes)) := sim_mem.
#[export] Instance rt_sim_laws : RtLaws (list (Z * Z * bytes)) 1.
Proof.
  split.
  - intros f a data Ha. eexists. split; [reflexivity|]. split.
    + intros i x Hi. unfold rv_mem, rt_sim_view. cbn [sim_mem]. rewrite Z.eqb_refl. pose proof (lookup_lt_Some _ _ _ Hi).
      rewrite (proj2 (Z.leb_le _ _)), (proj2 (Z.ltb_lt _ _)) by (unfold zlen; lia). cbn [andb].
      replace (Z.to_nat (a + Z.of_nat i - a)) with i by lia. by rewrite Hi.
    + intros o j Hj. unfold rv_mem, rt_sim_view. cbn [sim_mem].
      destruct (Z.eqb_spec 1 o), (Z.leb_spec a j), (Z.ltb_spec j (a + zlen data)); cbn [andb]; try done; lia.
  - intros f. by exists f.
Qed.

Definition ex_rt : psd_common_t := RtCommon [FlashProps 0 0 256 0; FlashProps 1 4194304 256 4096] true 1 (replicate (Z.to_nat HID_REPORT_2_SIZE) 0).
Definition ex_file (size : Z) : sdp_cmd_t := SdpCmd SDP_WRITE_FILE 8192 0 size 0.

Lemma rt_write_session_witness : exists p' f',
  rt_loop 1 2 3 4 3 None ex_rt (World (cmd_report (ex_file 2000) :: (data_report <$> [replicate 1024 7; replicate 976 9]) ++ [cmd_report close_cmd]) [] [] []) =
    Some (0, p', World [] [] ([] ++ complete_reports SDP_WRITE_FILE ++ complete_reports SDP_WRITE_REGISTER) f') /\
  rc_run p' = false /\ holds f' 1 8192 (concat [replicate 1024 7; replicate 976 9]) /\
  only_changed [] f' 1 8192 (8192 + rounded 2000 256).
Proof.
  apply (rt_write_session 256 ltac:(done) ltac:(done) 1 2 3 4 0 (ex_file 2000) [replicate 1024 7; replicate 976 9] None ex_rt
    (FlashProps 1 4194304 256 4096) [] [] []); try done.
  cbn. split_and!; try done. by right. by left.
Defined.

(** The last byte of the padding is that of the report before, for [memset] leaves the
    last byte of the buffer. *)
Example padding_is_stale :
  (fun r => match r with (_, _, w) => (rv_mem (w_fl w) 1 10238, rv_mem (w_fl w) 1 10239) end) <$>
    rt_loop 1 2 3 4 3 None ex_rt (World (cmd_report (ex_file 2000) :: (data_report <$> [replicate 1024 7; replicate 976 9]) ++ [cmd_report close_cmd]) [] [] [])
  = Some (255, 7).
Proof. by vm_compute. Qed.

(** Reports of a quarter of a page: every one is filled up, and after the first one the
    file is taken to be complete. *)
Example short_reports :
  (fun r => match r with (_, _, w) => (length (w_in w), rv_mem (w_fl w) 1 8255, rv_mem (w_fl w) 1 8256) end) <$>
    rt_file_loop 2 9 1 256 256 0 8192 (rc_buff ex_rt) (World (data_report <$> replicate 4 (replicate 64 7)) [] [] []) = Some (3%nat, 7, 255).
Proof. by vm_compute. Qed.
