(* ===== verification/Copy.v ===== *)
(** * Copying and moving files ([psh/cp/cp.c], [psh/mv/mv.c])

    The file system is the class [FsOps]; a stream is known by its descriptor.  A call that
    fails gives the negative [errno].  The loops have fuel. *)

From S2P Require Import Prelude.

Definition EXDEV : Z := 18.
Definition EISDIR : Z := 21.
Definition DEFFILEMODE : Z := 438.
Definition SIZE_BUFF : Z := 256.

Inductive open_how := RdOnly | WrCreat | WrCreatTrunc.

(** Of [struct stat]: the kind, the permissions, the owner, the group and the times. *)
Record fs_stat := FsStat { st_reg : bool; st_dir : bool; st_mode : Z; st_uid : Z; st_gid : Z; st_atim : Z; st_mtim : Z }.

Class FsOps (F : Type) := {
  fs_open : bytes -> open_how -> Z -> F -> Z * F;
  fs_fstat : Z -> F -> option fs_stat * F;
  fs_statpath : bytes -> F -> option fs_stat * F;
  fs_read : Z -> Z -> F -> (Z * bytes) * F;
  fs_write : Z -> bytes -> F -> Z * F;
  fs_close : Z -> F -> F;
  (** Streams: [fread] with [ferror] behind it, [fwrite] likewise. *)
  fs_fdopen : Z -> F -> bool * F;
  fs_setvbuf : Z -> F -> Z * F;
  fs_fread : Z -> Z -> F -> (bytes * bool) * F;
  fs_fwrite : Z -> bytes -> F -> (Z * bool) * F;
  fs_fclose : Z -> F -> F;
  fs_rename : bytes -> bytes -> F -> Z * F;
  fs_unlink : bytes -> F -> Z * F;
  fs_chown : bytes -> Z -> Z -> F -> Z * F;
  fs_chmod : bytes -> Z -> F -> Z * F;
  fs_utimes : bytes -> Z -> Z -> F -> Z * F;
  fs_malloc : F -> bool;
}.

Section copy.
Context {F : Type} `{FsOps F}.
(** [basename]: the name, and what it leaves of its argument. *)
Context (basename : bytes -> bytes * bytes).

(** ** [cp] *)

Fixpoint cp_loop (fuel : nat) (src dst : Z) (f : F) : option (Z * F) :=
  match fuel with
  | O => None
  | Datatypes.S fuel =>
      let '((data, err), f) := fs_fread src SIZE_BUFF f in
      if zlen data =? 0 then Some (if err then EXIT_FAILURE else EXIT_SUCCESS, f)
      else
        let '((wcnt, err), f) := fs_fwrite dst data f in
        if negb (wcnt =? zlen data) then Some (if err then EXIT_FAILURE else EXIT_SUCCESS, f)
        else cp_loop fuel src dst f
  end.

(** The source as a stream, with its attributes. *)
Definition cp_source (path : bytes) (f : F) : option (Z * fs_stat) * F :=
  let '(fd, f) := fs_open path RdOnly 0 f in
  if fd <? 0 then (None, f)
  else
    let '(st, f) := fs_fstat fd f in
    match st with
    | None => (None, fs_close fd f)
    | Some st =>
        if negb (st_reg st) then (None, fs_close fd f)
        else
          let '(ok, f) := fs_fdopen fd f in
          if ok : bool then (Some (fd, st), f) else (None, fs_close fd f)
    end.

(** The descriptor of the target, and its path where that is inside a directory. *)
Definition cp_target (src dst : bytes) (f : F) : option Z * option bytes * F :=
  let '(fd, f) := fs_open dst WrCreat DEFFILEMODE f in
  if 0 <=? fd then (Some fd, None, f)
  else if fd =? - EISDIR then
    if negb (fs_malloc f) then (None, None, f)
    else
      let destpath := dst ++ [47] ++ (basename src).1 in
      let '(fd, f) := fs_open destpath WrCreat DEFFILEMODE f in
      (if fd <? 0 then None else Some fd, Some destpath, f)
  else (None, None, f).

(** What is done with the two files: the result and the path of the target. *)
Definition cp_files (fuel : nat) (src dst : bytes) (f : F) : option (Z * option (fs_stat * bytes) * F) :=
  match cp_source src f with
  | (None, f) => Some (EXIT_FAILURE, None, f)
  | (Some (fds, st), f) =>
      let '(r, f) := fs_setvbuf fds f in
      if r <? 0 then Some (EXIT_FAILURE, None, fs_fclose fds f)
      else
        let '(fdd, destpath, f) := cp_target src dst f in
        match fdd with
        | None => Some (EXIT_FAILURE, None, fs_fclose fds f)
        | Some fdd =>
            let '(ok, f) := fs_fdopen fdd f in
            if negb ok then Some (EXIT_FAILURE, None, fs_fclose fds (fs_close fdd f))
            else
              let '(r, f) := fs_setvbuf fdd f in
              if r <? 0 then Some (EXIT_FAILURE, None, fs_fclose fdd (fs_fclose fds f))
              else
                '(ret, f) ← cp_loop fuel fds fdd f;
                Some (ret, Some (st, default dst destpath), fs_fclose fdd (fs_fclose fds f))
        end
  end.

Definition cp_preserve (st : fs_stat) (path : bytes) (f : F) : Z * F :=
  let '(r1, f) := fs_chown path (st_uid st) (st_gid st) f in
  let '(r2, f) := fs_chmod path (st_mode st) f in
  let '(r3, f) := fs_utimes path (st_atim st) (st_mtim st) f in
  (if (r1 <? 0) || (r2 <? 0) || (r3 <? 0) then EXIT_FAILURE else EXIT_SUCCESS, f).

(** The options of [getopt]: whether attributes are kept, or the exit code. *)
Fixpoint cp_opts (opts : list Z) (preserve : bool) : bool + Z :=
  match opts with
  | [] => inl preserve
  | c :: opts => if c =? 104 then inr EXIT_SUCCESS else if c =? 112 then cp_opts opts true else inr EXIT_FAILURE
  end.

Definition psh_cp (fuel : nat) (opts : list Z) (args : list bytes) (f : F) : option (Z * F) :=
  match cp_opts opts false, args with
  | inr code, _ => Some (code, f)
  | inl preserve, [src; dst] =>
      '(ret, done, f) ← cp_files fuel src dst f;
      match done with
      | Some (st, path) => if (ret =? EXIT_SUCCESS) && preserve then Some (cp_preserve st path f) else Some (ret, f)
      | None => Some (ret, f)
      end
  | inl _, _ => Some (EXIT_FAILURE, f)
  end.

(** ** [mv] *)

(** A chunk is written; [true] where all of it was. *)
Fixpoint mv_write (fuel : nat) (fd : Z) (data : bytes) (f : F) : option (bool * F) :=
  match fuel with
  | O => None
  | Datatypes.S fuel =>
      if 0 <? zlen data then
        let '(wcnt, f) := fs_write fd data f in
        if wcnt <? 0 then if wcnt =? - EINTR then mv_write fuel fd data f else Some (false, f)
        else mv_write fuel fd (drop (Z.to_nat wcnt) data) f
      else Some (true, f)
  end.

Fixpoint mv_loop (fuel n : nat) (fdsrc fddst : Z) (f : F) : option (Z * F) :=
  match fuel with
  | O => None
  | Datatypes.S fuel =>
      let '((cnt, data), f) := fs_read fdsrc SIZE_BUFF f in
      if cnt <? 0 then if cnt =? - EINTR then mv_loop fuel n fdsrc fddst f else Some (EXIT_FAILURE, f)
      else if cnt =? 0 then Some (EXIT_SUCCESS, f)
      else
        '(ok, f) ← mv_write n fddst data f;
        if ok : bool then mv_loop fuel n fdsrc fddst f else Some (EXIT_FAILURE, f)
  end.

Definition psh_mv_copy (fuel n : nat) (srcpath dstpath : bytes) (f : F) : option (Z * F) :=
  let '(fdsrc, f) := fs_open srcpath RdOnly 0 f in
  if fdsrc <? 0 then Some (EXIT_FAILURE, f)
  else
    let '(st, f) := fs_fstat fdsrc f in
    match st with
    | Some st =>
        if negb (st_reg st) then Some (EXIT_FAILURE, fs_close fdsrc f)
        else
          let '(fddst, f) := fs_open dstpath WrCreatTrunc (Z.land (st_mode st) 511) f in
          if fddst <? 0 then Some (EXIT_FAILURE, fs_close fdsrc f)
          else
            '(retval, f) ← mv_loop fuel n fdsrc fddst f;
            let f := fs_close fddst (fs_close fdsrc f) in
            if retval =? EXIT_SUCCESS then
              let '(r, f) := fs_unlink srcpath f in Some (if r <? 0 then EXIT_FAILURE else EXIT_SUCCESS, f)
            else Some (retval, f)
    | None => Some (EXIT_FAILURE, fs_close fdsrc f)
    end.

(** [h] is the one option. *)
Definition psh_mv (fuel n : nat) (opts : list Z) (args : list bytes) (f : F) : option (Z * F) :=
  match opts, args with
  | c :: _, _ => Some (if c =? 104 then EXIT_SUCCESS else EXIT_FAILURE, f)
  | [], [src; target] =>
      let '(st, f) := fs_statpath target f in
      let dir := match st with Some st => st_dir st | None => false end in
      if dir && negb (fs_malloc f) then Some (EXIT_FAILURE, f)
      else
        let '(name, kept) := basename src in
        let dest := if dir then target ++ [47] ++ name else target in
        let src := if dir then kept else src in
        let '(r, f) := fs_rename src dest f in
        if negb (r =? 0) then if r =? - EXDEV then psh_mv_copy fuel n src dest f else Some (EXIT_FAILURE, f)
        else Some (EXIT_SUCCESS, f)
  | [], _ => Some (EXIT_FAILURE, f)
  end.
End copy.
