(* ===== verification/CopySpec.v ===== *)
(** * What copying and moving do to the files

    A file system whose calls may fail or do less than they were asked for.  [cp] leaves
    its source alone and puts its contents over the start of the target, whose end stays;
    [mv] moves a file or leaves it where it was. *)

From stdpp Require Import gmap.
From S2P Require Import Prelude.
From S2P Require Import Copy.

(** ** A file system *)

(** Contents, directories, descriptors with their file and position, and how often calls
    will still be interrupted or write nothing. *)
Class FsView (F : Type) := {
  fv_file : F -> bytes -> option bytes;
  fv_dir : F -> bytes -> bool;
  fv_fd : F -> Z -> option (bytes * Z);
  fv_work : F -> nat;
}.

Definition files_same `{FsView F} (f f' : F) : Prop := (forall p, fv_file f' p = fv_file f p) /\ (forall p, fv_dir f' p = fv_dir f p) /\ (fv_work f' <= fv_work f)%nat.
Definition same `{FsView F} (f f' : F) : Prop := files_same f f' /\ forall d, fv_fd f' d = fv_fd f d.
(** Only the file [p] changed, to [c]. *)
Definition updated `{FsView F} (f f' : F) (p : bytes) (c : option bytes) : Prop :=
  fv_file f' p = c /\ (forall q, q <> p -> fv_file f' q = fv_file f q) /\ (forall q, fv_dir f' q = fv_dir f q) /\ (fv_work f' <= fv_work f)%nat.
(** Only the descriptor [d] changed, to [x]. *)
Definition moved `{FsView F} (f f' : F) (d : Z) (x : option (bytes * Z)) : Prop :=
  fv_fd f' d = x /\ forall e, e <> d -> fv_fd f' e = fv_fd f e.

Definition overwrite (c : bytes) (pos : nat) (d : bytes) : bytes := take pos c ++ d ++ drop (pos + length d) c.

(** Calls may fail; those that succeed do what their manual says, reads and writes for a
    part of the bytes.  Different paths are different files. *)
Class FsLaws (F : Type) `{FsOps F, FsView F} : Prop := {
  fl_stat p f : let '(st, f') := fs_statpath p f in same f f' /\ forall s, st = Some s -> st_dir s = fv_dir f p;
  fl_open_rd p m f : let '(fd, f') := fs_open p RdOnly m f in
    if fd <? 0 then same f f' else fv_fd f fd = None /\ files_same f f' /\ moved f f' fd (Some (p, 0));
  fl_open_wr p trunc m f : let '(fd, f') := fs_open p (if trunc : bool then WrCreatTrunc else WrCreat) m f in
    if fd <? 0 then same f f' /\ (fd = - EISDIR -> fv_dir f p = true)
    else fv_dir f p = false /\ fv_fd f fd = None /\ moved f f' fd (Some (p, 0)) /\
         updated f f' p (Some (if trunc then [] else default [] (fv_file f p)));
  fl_fstat fd p pos f : fv_fd f fd = Some (p, pos) -> let '(st, f') := fs_fstat fd f in same f f' /\
    forall s, st = Some s -> st_reg s = true -> is_Some (fv_file f p);
  fl_read fd p pos c n f : fv_fd f fd = Some (p, pos) -> fv_file f p = Some c -> 0 <= pos <= zlen c -> 0 < n -> let '((r, data), f') := fs_read fd n f in
    if r <? 0 then same f f' /\ (r = - EINTR -> (fv_work f' < fv_work f)%nat)
    else files_same f f' /\ moved f f' fd (Some (p, pos + r)) /\ r <= n /\ zlen data = r /\
         (exists rest, drop (Z.to_nat pos) c = data ++ rest) /\ (r = 0 -> pos = zlen c);
  fl_write fd p pos c data f : fv_fd f fd = Some (p, pos) -> fv_file f p = Some c -> 0 <= pos <= zlen c -> 0 < zlen data ->
    let '(r, f') := fs_write fd data f in
    if r <? 0 then same f f' /\ (r = - EINTR -> (fv_work f' < fv_work f)%nat)
    else 0 <= r <= zlen data /\ (r = 0 -> (fv_work f' < fv_work f)%nat) /\ moved f f' fd (Some (p, pos + r)) /\
         updated f f' p (Some (overwrite c (Z.to_nat pos) (take (Z.to_nat r) data)));
  fl_fread fd p pos c n f : fv_fd f fd = Some (p, pos) -> fv_file f p = Some c -> 0 <= pos <= zlen c -> 0 < n -> let '((data, err), f') := fs_fread fd n f in
    files_same f f' /\ moved f f' fd (Some (p, pos + zlen data)) /\ zlen data <= n /\
    (exists rest, drop (Z.to_nat pos) c = data ++ rest) /\ (data = [] -> err = false -> pos = zlen c);
  fl_fwrite fd p pos c data f : fv_fd f fd = Some (p, pos) -> fv_file f p = Some c -> 0 <= pos <= zlen c -> 0 < zlen data ->
    let '((n, err), f') := fs_fwrite fd data f in 0 <= n <= zlen data /\ (n < zlen data -> err = true) /\
    moved f f' fd (Some (p, pos + n)) /\ updated f f' p (Some (overwrite c (Z.to_nat pos) (take (Z.to_nat n) data)));
  fl_close fd f : files_same f (fs_close fd f) /\ moved f (fs_close fd f) fd None;
  fl_fclose fd f : files_same f (fs_fclose fd f) /\ moved f (fs_fclose fd f) fd None;
  fl_fdopen fd f : same f (fs_fdopen fd f).2;
  fl_setvbuf fd f : same f (fs_setvbuf fd f).2;
  fl_unlink p f : let '(r, f') := fs_unlink p f in if r <? 0 then same f f' else updated f f' p None;
  fl_rename a b f : a <> b -> let '(r, f') := fs_rename a b f in
    if r =? 0 then fv_file f' b = fv_file f a /\ fv_file f' a = None /\ forall q, q <> a -> q <> b -> fv_file f' q = fv_file f q
    else same f f';
  fl_chown p u g f : same f (fs_chown p u g f).2;
  fl_chmod p m f : same f (fs_chmod p m f).2;
  fl_utimes p a m f : same f (fs_utimes p a m f).2;
}.

Lemma overwrite_app c data pos d : Z.of_nat pos <= zlen c -> overwrite (overwrite c pos data) (pos + length data) d = overwrite c pos (data ++ d).
Proof.
  intros Hp. unfold overwrite, zlen in *.
  assert (E : length (take pos c ++ data) = (pos + length data)%nat) by (rewrite length_app, length_take; lia).
  replace (take pos c ++ data ++ drop (pos + length data) c) with ((take pos c ++ data) ++ drop (pos + length data) c) by appeq.
  rewrite <- E at 1. rewrite take_app_length, drop_app_ge by lia. rewrite E, drop_drop, length_app.
  replace (pos + length data + (pos + length data + length d - (pos + length data)))%nat with (pos + (length data + length d))%nat by lia.
  by rewrite <- !(assoc_L (++)).
Qed.
Lemma overwrite_len c pos d : Z.of_nat pos <= zlen c -> Z.of_nat pos + zlen d <= zlen (overwrite c pos d).
Proof. intros Hp. unfold overwrite, zlen in *. rewrite !length_app, length_take. lia. Qed.
Lemma overwrite_nil c pos : Z.of_nat pos <= zlen c -> overwrite c pos [] = c.
Proof. intros Hp. unfold overwrite. cbn [app length]. rewrite Nat.add_0_r. apply take_drop. Qed.

Section copying.
Context {F : Type} `{FsLaws F} (basename : bytes -> bytes * bytes).

Lemma files_same_trans (f g h : F) : files_same f g -> files_same g h -> files_same f h.
Proof. intros (A & B & C) (D & E & G). split_and!; [congruence|congruence|lia]. Qed.
Lemma unchanged_trans (f g h : F) : same f g -> same g h -> same f h.
Proof. intros [A B] [C D]. split; [by eapply files_same_trans|congruence]. Qed.
Lemma same_refl (f : F) : same f f.
Proof. by repeat split. Qed.

(** Two descriptors in the middle of a copy: [done] has been read and written. *)
Definition copying (f : F) (fds fdd : Z) (src dst content old done : bytes) : Prop :=
  fds <> fdd /\ src <> dst /\ fv_fd f fds = Some (src, zlen done) /\ fv_fd f fdd = Some (dst, zlen done) /\
  fv_file f src = Some content /\ fv_file f dst = Some (overwrite old 0 done) /\ exists rest, content = done ++ rest.

Lemma copying_pos f fds fdd src dst content old done : copying f fds fdd src dst content old done ->
  0 <= zlen done <= zlen content /\ 0 <= zlen done <= zlen (overwrite old 0 done) /\ drop (Z.to_nat (zlen done)) content = drop (length done) content.
Proof.
  intros (_ & _ & _ & _ & _ & _ & rest & ->). pose proof (overwrite_len old 0 done). pose proof (zlen_nonneg old). pose proof (zlen_nonneg rest).
  pose proof (zlen_nonneg done). split_and!; try lia; [rewrite zlen_app; lia|]. unfold zlen. by rewrite Nat2Z.id.
Qed.

(** A read behind what is done: the bytes that come next. *)
Lemma next_bytes (done data rest content : bytes) : (exists r, content = done ++ r) -> drop (length done) content = data ++ rest -> content = (done ++ data) ++ rest.
Proof. intros [r ->] E. rewrite drop_app_length in E. by rewrite E, (assoc_L (++)). Qed.

Lemma overwrite_more old done d : overwrite (overwrite old 0 done) (Z.to_nat (zlen done)) d = overwrite old 0 (done ++ d).
Proof. unfold zlen. rewrite Nat2Z.id. apply (overwrite_app old done 0 d). pose proof (zlen_nonneg old). lia. Qed.

Lemma others_kept (f f' : F) src dst c : src <> dst -> updated f f' dst c -> fv_file f' src = fv_file f src.
Proof. intros Hne (_ & Ho & _). by apply Ho. Qed.

(** What a copy may do to the files: only the target changes. *)
Definition only_target (f f' : F) (dst : bytes) : Prop := (forall q, q <> dst -> fv_file f' q = fv_file f q) /\ (forall q, fv_dir f' q = fv_dir f q) /\ (fv_work f' <= fv_work f)%nat.
Lemma target_trans (f g h : F) dst : only_target f g dst -> only_target g h dst -> only_target f h dst.
Proof. intros (A & B & C) (D & E & G). split_and!; [intros q Hq; by rewrite D, A|congruence|lia]. Qed.
Lemma same_target (f f' : F) dst : files_same f f' -> only_target f f' dst.
Proof. intros (A & B & C). by split_and!. Qed.
Lemma updated_target (f f' : F) dst c : updated f f' dst c -> only_target f f' dst.
Proof. intros (_ & A & B & C). by split_and!. Qed.

(** Every read that gives something shortens what is left. *)
Lemma cp_loop_ok fds fdd src dst content old fuel : forall done (f : F), copying f fds fdd src dst content old done ->
  (length content - length done < fuel)%nat -> exists ret f', cp_loop fuel fds fdd f = Some (ret, f') /\ only_target f f' dst /\
  (ret = EXIT_SUCCESS /\ fv_file f' dst = Some (overwrite old 0 content) \/ ret = EXIT_FAILURE).
Proof.
  induction fuel as [|fuel IH]; intros done f Hc Hf; [lia|]. cbn [cp_loop].
  pose proof (copying_pos _ _ _ _ _ _ _ _ Hc) as (Hp1 & Hp2 & Hdrop). destruct Hc as (Hfd & Hne & Hs & Hd & Hcs & Hcd & Hrest).
  pose proof (fl_fread fds src (zlen done) content SIZE_BUFF f Hs Hcs Hp1 ltac:(done)) as Hr.
  destruct (fs_fread fds SIZE_BUFF f) as [[data err] f1]. destruct Hr as (Q1 & (M1 & M1') & Hn & (rest & Er) & Heof).
  rewrite Hdrop in Er. pose proof (next_bytes done data rest content Hrest Er) as Econt.
  destruct (Z.eqb_spec (zlen data) 0) as [Hz|Hz].
  - apply zlen_0_nil in Hz as ->. exists (if err then EXIT_FAILURE else EXIT_SUCCESS), f1. split; [done|]. split; [by apply same_target|].
    destruct err; [by right|left]. split; [done|]. destruct Q1 as (Qf & _). rewrite Qf, Hcd. f_equal. rewrite app_nil_r in Econt.
    specialize (Heof eq_refl eq_refl). rewrite Econt, zlen_app in Heof. assert (rest = []) as -> by (apply zlen_0_nil; lia).
    by rewrite app_nil_r in Econt; subst.
  - pose proof (zlen_nonneg data). destruct Q1 as (Qf & Qd & Qw).
    assert (Hd1 : fv_fd f1 fdd = Some (dst, zlen done)) by (by rewrite M1'). assert (Hcd1 : fv_file f1 dst = Some (overwrite old 0 done)) by (by rewrite Qf).
    pose proof (fl_fwrite fdd dst (zlen done) _ data f1 Hd1 Hcd1 Hp2 ltac:(lia)) as Hw.
    destruct (fs_fwrite fdd data f1) as [[n werr] f2]. destruct Hw as (Hn2 & Hshort & (M2 & M2') & U).
    assert (T2 : only_target f f2 dst) by (eapply target_trans; [by apply same_target|by eapply updated_target]).
    destruct (Z.eqb_spec n (zlen data)) as [->|Hsn]; cbn [negb].
    + assert (Hc2 : copying f2 fds fdd src dst content old (done ++ data)).
      { split_and!; [done|done| | | | |by exists rest].
        - rewrite M2' by done. by rewrite M1, zlen_app.
        - by rewrite M2, zlen_app.
        - rewrite (others_kept f1 f2 src dst _ Hne U). by rewrite Qf.
        - destruct U as (U & _). rewrite U, overwrite_more. by rewrite take_ge by (unfold zlen; lia). }
      destruct (IH (done ++ data) f2 Hc2) as (ret & f' & E & T & Hres).
      { rewrite Econt in Hf |- *. rewrite !length_app in *. unfold zlen in Hz. lia. }
      exists ret, f'. split_and!; [done|by eapply target_trans|done].
    + rewrite Hshort by lia. exists EXIT_FAILURE, f2. split_and!; [done|done|by right].
Qed.

(** The source that is opened: nothing but a new descriptor, or nothing at all. *)
Lemma cp_source_ok src (f : F) : let '(r, f') := cp_source src f in
  match r with
  | Some (fd, _) => files_same f f' /\ fv_fd f' fd = Some (src, 0)
  | None => files_same f f'
  end.
Proof.
  unfold cp_source. pose proof (fl_open_rd src 0 f) as Ho. destruct (fs_open src RdOnly 0 f) as [fd f1]. destruct (fd <? 0); [apply Ho|].
  destruct Ho as (_ & Q1 & (M1 & _)). pose proof (fl_fstat fd src 0 f1 M1) as Hs. destruct (fs_fstat fd f1) as [[st|] f2]; destruct Hs as [[Q2 D2] _].
  2:{ destruct (fl_close fd f2) as [Q3 _]. eauto using files_same_trans. }
  destruct (negb (st_reg st)); [destruct (fl_close fd f2) as [Q3 _]; eauto using files_same_trans|].
  pose proof (fl_fdopen fd f2) as [Q3 D3]. destruct (fs_fdopen fd f2) as [[] f3]; cbn [snd] in *.
  - split; [eauto using files_same_trans|by rewrite D3, D2].
  - destruct (fl_close fd f3) as [Q4 _]. eauto using files_same_trans.
Qed.

(** The path that is written to. *)
Definition target_of (f : F) (src dst : bytes) : bytes := if fv_dir f dst then dst ++ [47] ++ (basename src).1 else dst.

Lemma open_target p m (f : F) : let '(fd, f') := fs_open p WrCreat m f in
  if fd <? 0 then same f f' /\ (fd = - EISDIR -> fv_dir f p = true)
  else fv_dir f p = false /\ fv_fd f fd = None /\ moved f f' fd (Some (p, 0)) /\ updated f f' p (Some (default [] (fv_file f p))).
Proof. apply (fl_open_wr p false). Qed.

Lemma cp_target_ok src dst (f : F) : let '(fdd, path, f') := cp_target basename src dst f in
  match fdd with
  | Some fd => default dst path = target_of f src dst /\ fv_fd f fd = None /\ moved f f' fd (Some (target_of f src dst, 0)) /\
               updated f f' (target_of f src dst) (Some (default [] (fv_file f (target_of f src dst))))
  | None => same f f'
  end.
Proof.
  unfold cp_target, target_of. pose proof (open_target dst DEFFILEMODE f) as Ho. destruct (fs_open dst WrCreat DEFFILEMODE f) as [fd f1].
  destruct (Z.ltb_spec fd 0) as [Hfd|Hfd].
  - rewrite (proj2 (Z.leb_gt 0 fd)) by done. destruct Ho as [Q1 Hdir]. destruct (Z.eqb_spec fd (- EISDIR)) as [E|]; [|done].
    rewrite (Hdir E). destruct (negb (fs_malloc f1)); [done|]. destruct Q1 as [(Qf & Qd & Qw) Q1].
    pose proof (open_target (dst ++ [47] ++ (basename src).1) DEFFILEMODE f1) as Ho. destruct (fs_open _ WrCreat DEFFILEMODE f1) as [fd2 f2].
    destruct (fd2 <? 0); [destruct Ho as [Ho _]; by apply (unchanged_trans f f1); [split; [by split_and!|]|]|].
    destruct Ho as (_ & Hn & (M & M') & (U1 & U2 & U3 & U4)). rewrite Q1 in Hn. split_and!; [done|done| |].
    + split; [done|]. intros e He. by rewrite M', Q1.
    + split_and!; [by rewrite U1, Qf|intros q Hq; by rewrite U2, Qf|congruence|lia].
  - rewrite (proj2 (Z.leb_le 0 fd)) by done. destruct Ho as (Hd & Hn & M & U). by rewrite Hd.
Qed.

(** The two files: the result, and the attributes and the path to give them to. *)
Lemma cp_files_ok fuel src dst content (f : F) : fv_file f src = Some content -> src <> target_of f src dst -> (length content < fuel)%nat ->
  exists ret attrs f', cp_files basename fuel src dst f = Some (ret, attrs, f') /\ (forall q, q <> target_of f src dst -> fv_file f' q = fv_file f q) /\
  (ret = EXIT_SUCCESS -> fv_file f' (target_of f src dst) = Some (content ++ drop (length content) (default [] (fv_file f (target_of f src dst))))).
Proof.
  intros Hc Hne Hfuel. unfold cp_files. set (t := target_of f src dst) in *.
  pose proof (cp_source_ok src f) as Hs. destruct (cp_source src f) as [[[fds st]|] f1].
  2:{ cbn [mbind option_bind]. exists EXIT_FAILURE, None, f1. destruct Hs as (Hs & _). by split_and!. }
  destruct Hs as [(Q1f & Q1d & Q1w) Hfds]. pose proof (fl_setvbuf fds f1) as [(Q2f & Q2d & Q2w) D2]. destruct (fs_setvbuf fds f1) as [r f2]; cbn [snd] in *.
  destruct (r <? 0).
  { cbn [mbind option_bind]. exists EXIT_FAILURE, None, (fs_fclose fds f2). destruct (fl_fclose fds f2) as [(Q & _) _]. split_and!; [done| |done]. intros q _. by rewrite Q, Q2f, Q1f. }
  pose proof (cp_target_ok src dst f2) as Ht. destruct (cp_target basename src dst f2) as [[[fdd|] path] f3].
  2:{ cbn [mbind option_bind]. exists EXIT_FAILURE, None, (fs_fclose fds f3). destruct (fl_fclose fds f3) as [(Q & _) _]. destruct Ht as [(Q3 & _) _].
      split_and!; [done| |done]. intros q _. by rewrite Q, Q3, Q2f, Q1f. }
  assert (Et : target_of f2 src dst = t) by (unfold t, target_of; by rewrite Q2d, Q1d). rewrite Et in Ht. destruct Ht as (Epath & Hfree & (M3 & M3') & U3).
  assert (Hfd : fds <> fdd) by (intros ->; rewrite D2, Hfds in Hfree; done).
  pose proof (fl_fdopen fdd f3) as [(Q4f & Q4d & Q4w) D4]. destruct (fs_fdopen fdd f3) as [ok f4]; cbn [snd] in *.
  assert (K4 : forall q, q <> t -> fv_file f4 q = fv_file f q) by (intros q Hq; destruct U3 as (_ & U3 & _); by rewrite Q4f, U3, Q2f, Q1f).
  destruct (negb ok).
  { cbn [mbind option_bind]. eexists EXIT_FAILURE, None, _. split; [done|]. destruct (fl_close fdd f4) as [(Qa & _) _], (fl_fclose fds (fs_close fdd f4)) as [(Qb & _) _].
    split; [intros q Hq; by rewrite Qb, Qa, K4|done]. }
  pose proof (fl_setvbuf fdd f4) as [(Q5f & Q5d & Q5w) D5]. destruct (fs_setvbuf fdd f4) as [r5 f5]; cbn [snd] in *.
  assert (K5 : forall q, q <> t -> fv_file f5 q = fv_file f q) by (intros q Hq; by rewrite Q5f, K4).
  assert (Kclose : forall g q, fv_file (fs_fclose fdd (fs_fclose fds g)) q = fv_file g q).
  { intros g q. destruct (fl_fclose fdd (fs_fclose fds g)) as [(Qa & _) _], (fl_fclose fds g) as [(Qb & _) _]. by rewrite Qa, Qb. }
  destruct (r5 <? 0).
  { cbn [mbind option_bind]. eexists EXIT_FAILURE, None, _. split; [done|]. split; [intros q Hq; by rewrite Kclose, K5|done]. }
  set (old := default [] (fv_file f t)).
  assert (Hcp : copying f5 fds fdd src t content old []).
  { split_and!; [done|done| | | | |by exists content].
    - by rewrite D5, D4, M3', D2.
    - by rewrite D5, D4.
    - by rewrite K5.
    - destruct U3 as (U3 & _). rewrite Q5f, Q4f, U3, Q2f, Q1f. done. }
  destruct (cp_loop_ok fds fdd src t content old fuel [] f5 Hcp) as (ret & f6 & E & (T6 & _) & Hres); [simpl; lia|].
  rewrite E. cbn [mbind option_bind]. rewrite Epath.
  assert (K6 : forall q, q <> t -> fv_file (fs_fclose fdd (fs_fclose fds f6)) q = fv_file f q) by (intros q Hq; by rewrite Kclose, T6, K5).
  assert (R6 : ret = EXIT_SUCCESS -> fv_file (fs_fclose fdd (fs_fclose fds f6)) t = Some (content ++ drop (length content) old)).
  { intros ->. rewrite Kclose. destruct Hres as [[_ ->]|]; [done|done]. }
  by eexists _, _, _.
Qed.

(** C21: [cp] of a file always ends and leaves every file but its target alone, whatever
    calls fail.  When it succeeds, the contents of the source are at the start of the
    target, which is inside the directory where one is named; what the target held
    behind them is still there. *)
Theorem cp_overwrites fuel opts preserve src dst content (f : F) : cp_opts opts false = inl preserve -> fv_file f src = Some content ->
  src <> target_of f src dst -> (length content < fuel)%nat -> exists ret f',
  psh_cp basename fuel opts [src; dst] f = Some (ret, f') /\ (forall q, q <> target_of f src dst -> fv_file f' q = fv_file f q) /\
  (ret = EXIT_SUCCESS -> fv_file f' (target_of f src dst) = Some (content ++ drop (length content) (default [] (fv_file f (target_of f src dst))))).
Proof.
  intros Ho Hc Hne Hfuel. unfold psh_cp. rewrite Ho.
  destruct (cp_files_ok fuel src dst content f Hc Hne Hfuel) as (ret & attrs & f7 & E & K & R). rewrite E. cbn [mbind option_bind].
  destruct attrs as [[st t]|]; [|by eexists _, _]. destruct ((ret =? EXIT_SUCCESS) && preserve) eqn:Ep; [|by eexists _, _].
  apply andb_true_iff in Ep as [Er%Z.eqb_eq _]. unfold cp_preserve.
  pose proof (fl_chown t (st_uid st) (st_gid st) f7) as [(Q8 & _) _]. destruct (fs_chown t (st_uid st) (st_gid st) f7) as [r8 f8]; cbn [snd] in *.
  pose proof (fl_chmod t (st_mode st) f8) as [(Q9 & _) _]. destruct (fs_chmod t (st_mode st) f8) as [r9 f9]; cbn [snd] in *.
  pose proof (fl_utimes t (st_atim st) (st_mtim st) f9) as [(Q10 & _) _]. destruct (fs_utimes t (st_atim st) (st_mtim st) f9) as [r10 f10]; cbn [snd] in *.
  eexists _, f10. split; [done|]. split; [intros q Hq; by rewrite Q10, Q9, Q8, K|]. intros _. rewrite Q10, Q9, Q8. by apply R.
Qed.

(** ** Moving *)

(** The writes of a chunk: all of it is behind what is there, or an error is reported. *)
Lemma mv_write_ok fdd dst old fuel : forall data w (f : F), (length data + fv_work f < fuel)%nat ->
  fv_fd f fdd = Some (dst, zlen w) -> fv_file f dst = Some (overwrite old 0 w) -> exists ok f',
  mv_write fuel fdd data f = Some (ok, f') /\ only_target f f' dst /\ (forall e, e <> fdd -> fv_fd f' e = fv_fd f e) /\
  (ok = true -> fv_fd f' fdd = Some (dst, zlen (w ++ data)) /\ fv_file f' dst = Some (overwrite old 0 (w ++ data))).
Proof.
  induction fuel as [|fuel IH]; intros data w f Hf Hd Hc; [lia|]. cbn [mv_write]. destruct (Z.ltb_spec 0 (zlen data)) as [Hz|Hz].
  2:{ assert (data = []) as -> by (apply zlen_0_nil; pose proof (zlen_nonneg data); lia). exists true, f. rewrite app_nil_r. split_and!; done. }
  pose proof (overwrite_len old 0 w (zlen_nonneg old)). pose proof (zlen_nonneg w).
  pose proof (fl_write fdd dst (zlen w) _ data f Hd Hc ltac:(lia) Hz) as Hw. destruct (fs_write fdd data f) as [r f1].
  destruct (Z.ltb_spec r 0).
  - destruct Hw as [[Q1 D1] Hint]. destruct (Z.eqb_spec r (- EINTR)) as [E|]; [|exists false, f1; split_and!; by (apply same_target || done)].
    specialize (Hint E). destruct (IH data w f1) as (ok & f' & E' & T & O & R); [lia|by rewrite D1|destruct Q1 as (Q1 & _); by rewrite Q1|].
    exists ok, f'. split_and!; [done|by eapply target_trans; [apply same_target|]|intros e He; by rewrite O, D1|done].
  - destruct Hw as (Hr & Hr0 & (M & M') & U). assert (Hlen : zlen (take (Z.to_nat r) data) = r) by zlia.
    destruct U as (U1 & U2 & U3 & U4). rewrite overwrite_more in U1.
    destruct (IH (drop (Z.to_nat r) data) (w ++ take (Z.to_nat r) data) f1) as (ok & f' & E' & T & O & R);
      [rewrite length_drop; unfold zlen in *; destruct (decide (r = 0)) as [E|]; [specialize (Hr0 E)|]; lia|by rewrite M, zlen_app, Hlen|done|].
    rewrite <- (assoc_L (++)), take_drop in R. exists ok, f'. split_and!; [done| |intros e He; by rewrite O, M'|done].
    eapply target_trans; [|done]. by split_and!.
Qed.

Lemma mv_loop_ok fds fdd src dst content old n fuel : forall done (f : F), copying f fds fdd src dst content old done ->
  (length content - length done + fv_work f < fuel)%nat -> (256 + fv_work f < n)%nat -> exists ret f',
  mv_loop fuel n fds fdd f = Some (ret, f') /\ only_target f f' dst /\
  (ret = EXIT_SUCCESS /\ fv_file f' dst = Some (overwrite old 0 content) \/ ret = EXIT_FAILURE).
Proof.
  induction fuel as [|fuel IH]; intros done f Hc Hf Hn; [lia|]. cbn [mv_loop].
  pose proof (copying_pos _ _ _ _ _ _ _ _ Hc) as (Hp1 & Hp2 & Hdrop). destruct Hc as (Hfd & Hne & Hs & Hd & Hcs & Hcd & Hrest).
  pose proof (fl_read fds src (zlen done) content SIZE_BUFF f Hs Hcs Hp1 ltac:(done)) as Hr.
  destruct (fs_read fds SIZE_BUFF f) as [[r data] f1]. destruct (Z.ltb_spec r 0).
  - destruct Hr as [[Q1 D1] Hint]. pose proof Q1 as (Qf & Qd & Qw). destruct (Z.eqb_spec r (- EINTR)) as [E|].
    2:{ exists EXIT_FAILURE, f1. split_and!; [done|by apply same_target|by right]. }
    specialize (Hint E). destruct (IH done f1) as (ret & f' & E' & T & R); [|lia|lia|].
    { split_and!; try done; rewrite ?D1, ?Qf; done. }
    exists ret, f'. split_and!; [done|by eapply target_trans; [apply same_target|]|done].
  - destruct Hr as (Q1 & (M1 & M1') & Hle & Hlen & (rest & Er) & Heof). pose proof Q1 as (Qf & Qd & Qw). rewrite Hdrop in Er.
    pose proof (next_bytes done data rest content Hrest Er) as Econt. destruct (Z.eqb_spec r 0) as [->|Hr0].
    + apply zlen_0_nil in Hlen as ->. rewrite app_nil_r in Econt. specialize (Heof eq_refl). rewrite Econt, zlen_app in Heof.
      assert (rest = []) as -> by (apply zlen_0_nil; lia). rewrite app_nil_r in Econt. subst content.
      exists EXIT_SUCCESS, f1. split_and!; [done|by apply same_target|left]. by rewrite Qf.
    + destruct (mv_write_ok fdd dst old n data done f1) as (ok & f2 & E2 & T2 & O2 & R2);
        [unfold zlen, SIZE_BUFF in *; lia|by rewrite M1'|by rewrite Qf|].
      rewrite E2. cbn [mbind option_bind]. assert (T : only_target f f2 dst) by (by eapply target_trans; [apply same_target|]).
      pose proof T as (T0 & _ & Tw). destruct ok; [|exists EXIT_FAILURE, f2; split_and!; [done|done|by right]].
      destruct (R2 eq_refl) as [D3 C3]. destruct (IH (done ++ data) f2) as (ret & f' & E' & T' & R'); [| |lia|].
      * split_and!; [done|done| |done| |done|by exists rest]; [by rewrite O2, M1, zlen_app, Hlen|by rewrite T0].
      * rewrite Econt in Hf |- *. rewrite !length_app in *. unfold zlen in Hlen. lia.
      * exists ret, f'. split_and!; [done|by eapply target_trans|done].
Qed.

(** A copy ends; it removes the source after the target holds its contents, or leaves it. *)
Definition moved_file (f f' : F) (ret : Z) (src dest content : bytes) : Prop :=
  (ret = EXIT_SUCCESS /\ fv_file f' dest = Some content /\ fv_file f' src = None \/ ret = EXIT_FAILURE /\ fv_file f' src = Some content) /\
  forall q, q <> src -> q <> dest -> fv_file f' q = fv_file f q.

Lemma moved_failure (f f' : F) src dest content : fv_file f src = Some content -> src <> dest -> only_target f f' dest ->
  moved_file f f' EXIT_FAILURE src dest content.
Proof. intros Hc Hne (T & _). split; [right; split; [done|by rewrite T]|]. intros q _ Hq. by apply T. Qed.

Lemma close_target (f : F) fd dest : only_target f (fs_close fd f) dest.
Proof. destruct (fl_close fd f) as [Q _]. by apply same_target. Qed.

Lemma mv_copy_ok fuel n src dest content (f : F) : fv_file f src = Some content -> src <> dest ->
  (length content + fv_work f < fuel)%nat -> (256 + fv_work f < n)%nat -> exists ret f',
  psh_mv_copy fuel n src dest f = Some (ret, f') /\ moved_file f f' ret src dest content.
Proof.
  intros Hc Hne Hf Hn. unfold psh_mv_copy. pose proof (fl_open_rd src 0 f) as Ho. destruct (fs_open src RdOnly 0 f) as [fds f1].
  destruct (fds <? 0); [destruct Ho as [Q _]; eexists _, _; split; [done|by apply moved_failure; [| |apply same_target]]|].
  destruct Ho as (_ & Q1 & (M1 & _)). pose proof (fl_fstat fds src 0 f1 M1) as Hs. destruct (fs_fstat fds f1) as [st f2]. destruct Hs as [[Q2 D2] _].
  assert (T2 : only_target f f2 dest) by (eapply target_trans; apply same_target; [apply Q1|apply Q2]).
  assert (Hclose : exists ret f', Some (EXIT_FAILURE, fs_close fds f2) = Some (ret, f') /\ moved_file f f' ret src dest content).
  { eexists _, _. split; [done|]. apply moved_failure; [done|done|]. by eapply target_trans, close_target. }
  destruct st as [st|]; [|done]. destruct (negb (st_reg st)); [done|]. clear Hclose.
  pose proof (fl_open_wr dest true (Z.land (st_mode st) 511) f2) as Ho. destruct (fs_open dest WrCreatTrunc _ f2) as [fdd f3].
  destruct (fdd <? 0).
  { destruct Ho as [[Q3 _] _]. eexists _, _. split; [done|]. apply moved_failure; [done|done|].
    eapply target_trans; [done|]. eapply target_trans; [by apply same_target|apply close_target]. }
  destruct Ho as (_ & Hfree & (M3 & M3') & U3). assert (Hfd : fds <> fdd) by (intros ->; rewrite D2, M1 in Hfree; done).
  assert (T3 : only_target f f3 dest) by (eapply target_trans; [done|by eapply updated_target]). pose proof T3 as (T3f & _ & T3w).
  destruct (mv_loop_ok fds fdd src dest content [] n fuel [] f3) as (ret & f4 & E & T4 & R); [|simpl; lia|lia|].
  { split_and!; [done|done|by rewrite M3', D2|done|by rewrite T3f|by destruct U3|by exists content]. }
  rewrite E. cbn [mbind option_bind]. cbv zeta. set (f5 := fs_close fdd (fs_close fds f4)).
  assert (T45 : only_target f4 f5 dest) by (eapply target_trans; apply close_target).
  assert (T5 : only_target f f5 dest) by (eapply target_trans; [done|by eapply target_trans]).
  assert (D5 : fv_file f5 dest = fv_file f4 dest).
  { unfold f5. destruct (fl_close fdd (fs_close fds f4)) as [(Qa & _) _], (fl_close fds f4) as [(Qb & _) _]. by rewrite Qa, Qb. }
  destruct R as [[-> R]| ->]; [|by eexists _, _; split; [done|apply moved_failure]]. change (EXIT_SUCCESS =? EXIT_SUCCESS) with true. cbn iota.
  pose proof (fl_unlink src f5) as Hu. destruct (fs_unlink src f5) as [r f6]. destruct (r <? 0).
  - destruct Hu as [Q6 _]. eexists _, _. split; [done|]. apply moved_failure; [done|done|]. by eapply target_trans, same_target.
  - destruct Hu as (Hu & Hu' & _). destruct T5 as (T5 & _). eexists _, _. split; [done|]. split; [left|intros q Hq Hq'; by rewrite Hu', T5].
    split_and!; [done| |done]. rewrite Hu' by done. rewrite D5, R. unfold overwrite. by rewrite drop_nil, app_nil_r.
Qed.

(** C20: [mv] of a file, whose path [basename] leaves as it is, to another path, when only finitely many calls are interrupted or
    write nothing ([fv_work]; the loop repeats such calls), ends and never loses the
    file, whatever calls fail or do less than they were asked for: it succeeds after the target, which is inside the directory
    where one is named, holds the contents of the source, and the source is gone; or it
    fails and the source is there as it was.  Other files do not change. *)
Theorem mv_keeps_file fuel n src target content (f : F) : fv_file f src = Some content -> (basename src).2 = src ->
  src <> target -> src <> target ++ [47] ++ (basename src).1 -> (length content + fv_work f < fuel)%nat -> (256 + fv_work f < n)%nat -> exists ret f' dest,
  psh_mv basename fuel n [] [src; target] f = Some (ret, f') /\ (dest = target \/ dest = target ++ [47] ++ (basename src).1 /\ fv_dir f target = true) /\
  moved_file f f' ret src dest content.
Proof.
  intros Hc Hb Hne1 Hne2 Hf Hn. unfold psh_mv. pose proof (fl_stat target f) as Hs. destruct (fs_statpath target f) as [st f1]. destruct Hs as [[Q1 _] Hdir].
  destruct (basename src) as [name kept]; cbn [fst snd] in *. subst kept. pose proof Q1 as (Qf & Qd & Qw).
  set (dir := match st with Some st => st_dir st | None => false end).
  assert (Hd : dir = true -> fv_dir f target = true) by (unfold dir; destruct st as [st|]; [intros E; by rewrite <- (Hdir st)|done]).
  set (dest := if dir then target ++ [47] ++ name else target).
  assert (Hdest : dest = target \/ dest = target ++ [47] ++ name /\ fv_dir f target = true) by (unfold dest; destruct dir; [right; split; [done|by apply Hd]|by left]).
  assert (Hne : src <> dest) by (unfold dest; by destruct dir).
  destruct (dir && negb (fs_malloc f1)).
  { exists EXIT_FAILURE, f1, dest. split_and!; [done|done|]. apply moved_failure; [done|done|by apply same_target]. }
  replace (if dir then src else src) with src by (by destruct dir).
  pose proof (fl_rename src dest f1 Hne) as Hr. destruct (fs_rename src dest f1) as [r f2]. destruct (r =? 0); cbn [negb].
  - destruct Hr as (R1 & R2 & R3). exists EXIT_SUCCESS, f2, dest. split_and!; [done|done|]. split; [left; split_and!; [done|by rewrite R1, Qf|done]|].
    intros q Hq Hq'. by rewrite R3, Qf.
  - destruct Hr as [(Q2 & Q2d & Q2w) _]. destruct (r =? - EXDEV).
    + destruct (mv_copy_ok fuel n src dest content f2) as (ret & f' & E & (M & O)); [by rewrite Q2, Qf|done|lia|lia|].
      exists ret, f', dest. split_and!; [done|done|]. split; [done|]. intros q Hq Hq'. by rewrite O, Q2, Qf.
    + exists EXIT_FAILURE, f2, dest. split_and!; [done|done|]. apply moved_failure; [done|done|]. apply same_target. split_and!; [by intros; rewrite Q2, Qf|congruence|lia].
Qed.
End copying.

(** ** A simulated file system

    Two devices; writes take at most a hundred bytes. *)

Record fs_sim := FsSim { fm_files : gmap bytes bytes; fm_dirs : list bytes; fm_fds : list (option (bytes * Z)) }.

Definition fm_fd (f : fs_sim) (d : Z) : option (bytes * Z) := if 0 <=? d then mjoin (fm_fds f !! Z.to_nat d) else None.
Definition fm_set (f : fs_sim) (d : Z) (x : option (bytes * Z)) : fs_sim :=
  if 0 <=? d then FsSim (fm_files f) (fm_dirs f) (<[Z.to_nat d := x]> (fm_fds f)) else f.
Definition fm_open (f : fs_sim) (p : bytes) (files : gmap bytes bytes) : Z * fs_sim :=
  (Z.of_nat (length (fm_fds f)), FsSim files (fm_dirs f) (fm_fds f ++ [Some (p, 0)])).
Definition fm_put (f : fs_sim) (p : bytes) (c : bytes) : fs_sim := FsSim (<[p := c]> (fm_files f)) (fm_dirs f) (fm_fds f).
(** What is read from a descriptor, and what is written to it. *)
Definition fm_get (f : fs_sim) (d n : Z) : bytes * fs_sim :=
  match fm_fd f d with
  | Some (p, pos) =>
      let data := take (Z.to_nat n) (drop (Z.to_nat pos) (default [] (fm_files f !! p))) in (data, fm_set f d (Some (p, pos + zlen data)))
  | None => ([], f)
  end.
Definition fm_store (f : fs_sim) (d : Z) (data : bytes) : fs_sim :=
  match fm_fd f d with
  | Some (p, pos) => fm_set (fm_put f p (overwrite (default [] (fm_files f !! p)) (Z.to_nat pos) data)) d (Some (p, pos + zlen data))
  | None => f
  end.
Definition fm_stat (f : fs_sim) (p : bytes) : fs_stat := FsStat (bool_decide (is_Some (fm_files f !! p))) (bool_decide (p ∈ fm_dirs f)) 420 0 0 0 0.

#[export] Instance fs_sim_ops : FsOps fs_sim := {
  fs_open p how _ f :=
    match how with
    | RdOnly => match fm_files f !! p with Some _ => fm_open f p (fm_files f) | None => (- ENOENT, f) end
    | WrCreat => if bool_decide (p ∈ fm_dirs f) then (- EISDIR, f) else fm_open f p (<[p := default [] (fm_files f !! p)]> (fm_files f))
    | WrCreatTrunc => if bool_decide (p ∈ fm_dirs f) then (- EISDIR, f) else fm_open f p (<[p := []]> (fm_files f))
    end;
  fs_fstat fd f := (match fm_fd f fd with Some (p, _) => Some (fm_stat f p) | None => None end, f);
  fs_statpath p f := (Some (fm_stat f p), f);
  fs_read fd n f := let '(data, f') := fm_get f fd n in ((zlen data, data), f');
  fs_write fd data f := let d := take 100 data in (zlen d, fm_store f fd d);
  fs_close fd f := fm_set f fd None;
  fs_fdopen _ f := (true, f);
  fs_setvbuf _ f := (0, f);
  fs_fread fd n f := let '(data, f') := fm_get f fd n in ((data, false), f');
  fs_fwrite fd data f := ((zlen data, false), fm_store f fd data);
  fs_fclose fd f := fm_set f fd None;
  fs_rename _ _ f := (- EXDEV, f);
  fs_unlink p f := (0, FsSim (delete p (fm_files f)) (fm_dirs f) (fm_fds f));
  fs_chown _ _ _ f := (0, f);
  fs_chmod _ _ f := (0, f);
  fs_utimes _ _ _ f := (0, f);
  fs_malloc _ := true;
}.
#[export] Instance fs_sim_view : FsView fs_sim := {
  fv_file f p := fm_files f !! p; fv_dir f p := bool_decide (p ∈ fm_dirs f); fv_fd := fm_fd; fv_work _ := 0%nat }.

Lemma fm_set_fd f d x : is_Some (fm_fd f d) \/ x = None -> moved f (fm_set f d x) d x.
Proof.
  intros Hd. unfold moved, fv_fd, fs_sim_view, fm_set, fm_fd in *. destruct (Z.leb_spec 0 d).
  - split.
    + cbn [fm_fds]. destruct (decide (Z.to_nat d < length (fm_fds f))%nat) as [Hl|Hl]; [by rewrite list_lookup_insert_eq|].
      destruct Hd as [[y Hy]| ->]; [rewrite lookup_ge_None_2 in Hy by lia; done|]. by rewrite lookup_ge_None_2 by (rewrite length_insert; lia).
    + intros e He. destruct (Z.leb_spec 0 e); [|done]. cbn [fm_fds]. by rewrite list_lookup_insert_ne by lia.
  - split; [|done]. by destruct Hd as [[y Hy]| ->].
Qed.
Lemma fm_set_files f d x : files_same f (fm_set f d x).
Proof. unfold fm_set. by destruct (0 <=? d). Qed.

Lemma fm_open_fd f p files : let '(fd, f') := fm_open f p files in 0 <= fd /\ fm_fd f fd = None /\ moved f f' fd (Some (p, 0)).
Proof.
  unfold fm_open, moved, fv_fd, fs_sim_view, fm_fd. cbn [fm_fds]. split; [lia|]. rewrite !(proj2 (Z.leb_le 0 (Z.of_nat _))) by lia. rewrite Nat2Z.id.
  split_and!; [by rewrite lookup_ge_None_2|by rewrite list_lookup_middle|]. intros e He. destruct (Z.leb_spec 0 e); [|done].
  destruct (decide (Z.to_nat e < length (fm_fds f))%nat); [by rewrite lookup_app_l|]. rewrite !lookup_ge_None_2; [done|lia|rewrite length_app; simpl; lia].
Qed.

Lemma fm_store_ok f d p pos c data : fm_fd f d = Some (p, pos) -> fm_files f !! p = Some c ->
  moved f (fm_store f d data) d (Some (p, pos + zlen data)) /\ updated f (fm_store f d data) p (Some (overwrite c (Z.to_nat pos) data)).
Proof.
  intros Hd Hc. unfold fm_store. rewrite Hd, Hc. set (g := fm_put f p _). assert (Hg : forall e, fm_fd g e = fm_fd f e) by done.
  destruct (fm_set_fd g d (Some (p, pos + zlen data))) as [M M']; [left; rewrite Hg; by eexists|]. split.
  - split; [done|]. intros e He. rewrite M' by done. apply Hg.
  - destruct (fm_set_files g d (Some (p, pos + zlen data))) as (Q & Qd & _). split_and!; [rewrite Q|intros q Hq; rewrite Q|done|done].
    + unfold fv_file, fs_sim_view, g. cbn. by rewrite lookup_insert_eq.
    + unfold fv_file, fs_sim_view, g. cbn. by rewrite lookup_insert_ne.
Qed.

Lemma fm_get_ok f d p pos c n : fm_fd f d = Some (p, pos) -> fm_files f !! p = Some c -> 0 <= pos <= zlen c -> 0 < n ->
  let '(data, f') := fm_get f d n in files_same f f' /\ moved f f' d (Some (p, pos + zlen data)) /\ zlen data <= n /\
    (exists rest, drop (Z.to_nat pos) c = data ++ rest) /\ (data = [] -> pos = zlen c).
Proof.
  intros Hd Hc Hp Hn. unfold fm_get. rewrite Hd, Hc. cbn [default]. change (id c) with c. split_and!; [apply fm_set_files|apply fm_set_fd; left; by eexists|zlia| |].
  - exists (drop (Z.to_nat n) (drop (Z.to_nat pos) c)). by rewrite take_drop.
  - intros E. apply (f_equal zlen) in E. rewrite zlen_take, zlen_drop in E. change (zlen []) with 0 in E. lia.
Qed.

Lemma take_count (data : bytes) : take (Z.to_nat (zlen (take 100 data))) data = take 100 data.
Proof.
  unfold zlen. rewrite Nat2Z.id, length_take. destruct (Nat.min_spec 100 (length data)) as [[? ->]|[? ->]]; [done|]. by rewrite !take_ge by lia.
Qed.

#[export] Instance fs_sim_laws : FsLaws fs_sim.
Proof.
  split.
  - intros p f. cbn. split; [apply same_refl|]. intros s [= <-]. done.
  - intros p m f. cbn. destruct (fm_files f !! p) eqn:E; [|apply same_refl]. pose proof (fm_open_fd f p (fm_files f)) as Ho.
    destruct (fm_open f p (fm_files f)) as [fd f'] eqn:Eo. destruct Ho as (Hfd & Hn & M). rewrite (proj2 (Z.ltb_ge fd 0)) by lia. split; [done|]. split; [|done].
    injection Eo as <- <-. by split_and!.
  - intros p trunc m f.
    assert (G : forall c, let '(fd, f') := if bool_decide (p ∈ fm_dirs f) then (- EISDIR, f) else fm_open f p (<[p := c]> (fm_files f)) in
      if fd <? 0 then same f f' /\ (fd = - EISDIR -> fv_dir f p = true)
      else fv_dir f p = false /\ fv_fd f fd = None /\ moved f f' fd (Some (p, 0)) /\ updated f f' p (Some c)).
    { intros c. destruct (bool_decide (p ∈ fm_dirs f)) eqn:Ed; [by split; [apply same_refl|]|]. pose proof (fm_open_fd f p (<[p := c]> (fm_files f))) as Ho.
      destruct (fm_open f p (<[p := c]> (fm_files f))) as [fd f'] eqn:Eo. destruct Ho as (Hfd & Hn & M). rewrite (proj2 (Z.ltb_ge fd 0)) by lia.
      split; [done|]. split; [done|]. split; [done|]. injection Eo as <- <-. unfold updated, fv_file, fs_sim_view. cbn.
      split_and!; [by rewrite lookup_insert_eq|intros q Hq; by rewrite lookup_insert_ne|done|done]. }
    destruct trunc; cbn; apply G.
  - intros fd p pos f Hfd. cbn in *. rewrite Hfd. split; [apply same_refl|]. intros s [= <-]. cbn. by intros E%bool_decide_eq_true.
  - intros fd p pos c n f Hfd Hc Hp Hn. cbn in *. pose proof (fm_get_ok f fd p pos c n Hfd Hc Hp Hn) as G. destruct (fm_get f fd n) as [data f'].
    destruct G as (Q & M & Hl & Hr & He). rewrite (proj2 (Z.ltb_ge _ 0)) by apply zlen_nonneg. split_and!; try done; try apply Q; try apply M.
    intros E. by apply He, zlen_0_nil.
  - intros fd p pos c data f Hfd Hc Hp Hd. cbn in *. destruct (fm_store_ok f fd p pos c (take 100 data) Hfd Hc) as [M U].
    rewrite (proj2 (Z.ltb_ge _ 0)) by apply zlen_nonneg. rewrite take_count.
    split_and!; [apply zlen_nonneg|zlia|intros E; rewrite zlen_take in E; lia|by destruct M|by destruct M|by destruct U..].
  - intros fd p pos c n f Hfd Hc Hp Hn. cbn in *. pose proof (fm_get_ok f fd p pos c n Hfd Hc Hp Hn) as G. destruct (fm_get f fd n) as [data f'].
    destruct G as (Q & M & Hl & Hr & He). split_and!; try done; try apply Q; try apply M. by intros; apply He.
  - intros fd p pos c data f Hfd Hc Hp Hd. cbn in *. destruct (fm_store_ok f fd p pos c data Hfd Hc) as [M U].
    replace (take (Z.to_nat (zlen data)) data) with data by (rewrite take_ge; [done|unfold zlen; lia]). split_and!; try apply M; try apply U; lia.
  - intros fd f. split; [apply fm_set_files|apply fm_set_fd; by right].
  - intros fd f. split; [apply fm_set_files|apply fm_set_fd; by right].
  - intros. apply same_refl.
  - intros. apply same_refl.
  - intros p f. cbn. unfold updated, fv_file, fs_sim_view. cbn. split_and!; [by rewrite lookup_delete_eq|intros q Hq; by rewrite lookup_delete_ne|done|done].
  - intros a b f _. cbn. apply same_refl.
  - intros. apply same_refl.
  - intros. apply same_refl.
  - intros. apply same_refl.
Qed.

Definition ex_fs : fs_sim := FsSim {[ bstr "a" := replicate 300 7; bstr "b" := replicate 302 9 ]} [bstr "d"] [].

Lemma cp_overwrites_witness : exists ret f', psh_cp (fun p => (p, p)) 301 [] [bstr "a"; bstr "b"] ex_fs = Some (ret, f') /\
  (forall q, q <> target_of (fun p => (p, p)) ex_fs (bstr "a") (bstr "b") -> fv_file f' q = fv_file ex_fs q) /\
  (ret = EXIT_SUCCESS -> fv_file f' (target_of (fun p => (p, p)) ex_fs (bstr "a") (bstr "b")) =
    Some (replicate 300 7 ++ drop (length (replicate 300 7)) (default [] (fv_file ex_fs (target_of (fun p => (p, p)) ex_fs (bstr "a") (bstr "b")))))).
Proof. apply (cp_overwrites (fun p => (p, p)) 301 [] false (bstr "a") (bstr "b") (replicate 300 7) ex_fs); [done|done|done|simpl; lia]. Defined.

(** A longer target keeps its end. *)
Example cp_keeps_tail : (r ← psh_cp (fun p => (p, p)) 301 [] [bstr "a"; bstr "b"] ex_fs; Some (r.1, fm_files r.2 !! bstr "b")) =
  Some (EXIT_SUCCESS, Some (replicate 300 7 ++ [9; 9])).
Proof. by vm_compute. Qed.

Lemma mv_keeps_file_witness : exists ret f' dest, psh_mv (fun p => (p, p)) 301 257 [] [bstr "a"; bstr "d"] ex_fs = Some (ret, f') /\
  (dest = bstr "d" \/ dest = bstr "d" ++ [47] ++ bstr "a" /\ fv_dir ex_fs (bstr "d") = true) /\
  moved_file ex_fs f' ret (bstr "a") dest (replicate 300 7).
Proof. apply (mv_keeps_file (fun p => (p, p)) 301 257 (bstr "a") (bstr "d") (replicate 300 7) ex_fs); [done|done|done|done|simpl; lia|simpl; lia]. Defined.

Example mv_into_directory : (r ← psh_mv (fun p => (p, p)) 301 257 [] [bstr "a"; bstr "d"] ex_fs; Some (r.1, fm_files r.2 !! bstr "d/a", fm_files r.2 !! bstr "a")) =
  Some (EXIT_SUCCESS, Some (replicate 300 7), None).
Proof. by vm_compute. Qed.
