(* ===== verification/Hd.v ===== *)
(** * Dumping files ([psh/hd/hd.c])

    The lines of a dump and the loop over a file.  A call that fails gives the negative
    [errno]; the first component of a result is what is printed. *)

From S2P Require Import Prelude.
From S2P Require Import Clib.

Definition LINE_WIDTH : Z := 16.

Class HdOps (F : Type) := {
  hd_open : bytes -> F -> Z * F;
  (** Whether it is a directory. *)
  hd_fstat : Z -> F -> option bool * F;
  hd_lseek : Z -> Z -> F -> Z * F;
  hd_read : Z -> Z -> F -> (Z * bytes) * F;
  hd_close : Z -> F -> F;
  hd_sigint : F -> bool;
}.

(** ** Lines *)

(** [%02x]. *)
Definition hex2 (b : Z) : bytes := [hexdigit (b / 16); hexdigit (b mod 16)].
Fixpoint hex_columns (i : Z) (data : bytes) : bytes :=
  match data with
  | [] => []
  | b :: data => (if Z.land i 7 =? 0 then [32] else []) ++ hex2 b ++ [32] ++ hex_columns (i + 1) data
  end.
(** [n] empty columns from [i] on. *)
Fixpoint hex_blanks (i : Z) (n : nat) : bytes :=
  match n with
  | O => []
  | Datatypes.S n => (if Z.land i 7 =? 0 then [32; 32; 32; 32] else [32; 32; 32]) ++ hex_blanks (i + 1) n
  end.

Definition hex_line (ofs : Z) (data : bytes) : bytes :=
  hex_pad 8 ofs ++ [32] ++ hex_columns 0 data ++ hex_blanks (zlen data) (Z.to_nat (LINE_WIDTH - zlen data)) ++ [32; 124] ++
  ((fun c => if isprint c then c else 46) <$> data) ++ [124; 10].

Section hd.
Context {F : Type} `{HdOps F} (w : Z).

Fixpoint hexdump_loop (fuel : nat) (data : bytes) (ofs : Z) : bytes :=
  match fuel with
  | O => []
  | Datatypes.S fuel =>
      if zlen data =? 0 then []
      else
        let toprint := Z.min (zlen data) LINE_WIDTH in
        hex_line ofs (take (Z.to_nat toprint) data) ++ hexdump_loop fuel (drop (Z.to_nat toprint) data) (wrapu w (ofs + toprint))
  end.
(** Every line has a byte at least. *)
Definition psh_hexdump (data : bytes) (ofs : Z) : bytes := hexdump_loop (Datatypes.S (length data)) data ofs.

(** ** The command *)

Fixpoint hd_loop (fuel : nat) (fd ofs len : Z) (f : F) : option (bytes * Z * Z * F) :=
  match fuel with
  | O => None
  | Datatypes.S fuel =>
      if negb (len =? 0) && negb (hd_sigint f) then
        let '((n, data), f) := hd_read fd (Z.min len (2 * LINE_WIDTH)) f in
        if n <=? 0 then
          if n =? 0 then Some ([], ofs, len, f)
          else if (n =? - EAGAIN) || (n =? - EINTR) then hd_loop fuel fd ofs len f
          else Some ([], ofs, len, f)
        else
          '(out, ofs', len', f) ← hd_loop fuel fd (ofs + n) (len - n) f;
          Some (psh_hexdump data (wrapu w ofs) ++ out, ofs', len', f)
      else Some ([], ofs, len, f)
  end.

(** A number: digits that are all there is. *)
Definition hd_number (s : bytes) : option Z :=
  match strtoul w s with
  | Some (v, []) => if isdigit (default 0 (head s)) then Some v else None
  | _ => None
  end.

(** Offset and length, or the exit code. *)
Fixpoint hd_opts (opts : list (Z * bytes)) (ofs len : Z) : Z * Z + Z :=
  match opts with
  | [] => inl (ofs, len)
  | (c, arg) :: opts =>
      if c =? 115 then match hd_number arg with Some v => hd_opts opts (s64 v) len | None => inr EXIT_FAILURE end
      else if c =? 110 then match hd_number arg with Some v => hd_opts opts ofs v | None => inr EXIT_FAILURE end
      else if c =? 104 then inr EXIT_SUCCESS
      else inr EXIT_FAILURE
  end.

Definition psh_hd (fuel : nat) (opts : list (Z * bytes)) (args : list bytes) (f : F) : option (bytes * Z * F) :=
  match hd_opts opts 0 (2 ^ w - 1) with
  | inr code => Some ([], code, f)
  | inl (ofs, len) =>
      if len =? 0 then Some ([], EXIT_SUCCESS, f)
      else
        let '(fd, f) := match args with name :: _ => hd_open name f | [] => (0, f) end in
        if fd <? 0 then Some ([], EXIT_FAILURE, f)
        else
          let '(st, f) := hd_fstat fd f in
          if default false st then Some ([], EXIT_FAILURE, f)
          else
            let '(r, f) := if 0 <? ofs then hd_lseek fd ofs f else (0, f) in
            if r <? 0 then Some ([], EXIT_FAILURE, if negb (fd =? 0) then hd_close fd f else f)
            else
              '(out, ofs, len, f) ← hd_loop fuel fd ofs len f;
              let out := out ++ if negb (ofs =? 0) then hex_pad 8 (wrapu w ofs) ++ [10] else [] in
              let f := if negb (fd =? 0) then hd_close fd f else f in
              Some (out, if negb (len =? 0) then EXIT_FAILURE else EXIT_SUCCESS, f)
  end.
End hd.
