(* ===== verification/HdSpec.v ===== *)
(** * What a dump says

    A reader of dumps, and that [hd] of a file gives it back: the rows of its output hold
    the part of the file that was asked for, however its reads are cut. *)

From S2P Require Import Prelude.
From S2P Require Import Clib.
From S2P Require Import Hd.

(** ** Reading a dump *)

Definition unhex (c : Z) : option Z :=
  if isdigit c then Some (c - 48) else if (97 <=? c) && (c <=? 102) then Some (c - 87) else None.

Fixpoint unhex_num (acc : Z) (s : bytes) : Z * bytes :=
  match s with
  | [] => (acc, [])
  | c :: r => match unhex c with Some d => unhex_num (16 * acc + d) r | None => (acc, s) end
  end.

(** The bytes of a line, up to its bar. *)
Fixpoint uncolumns (s : bytes) : option (bytes * bytes) :=
  match s with
  | [] => None
  | a :: r =>
      if a =? 32 then uncolumns r
      else if a =? 124 then Some ([], r)
      else
        match r with
        | [] => None
        | b :: r => x ← unhex a; y ← unhex b; '(d, r) ← uncolumns r; Some (16 * x + y :: d, r)
        end
  end.

(** Rows of an offset and the bytes there, and the offset of the last line. *)
Fixpoint undump (fuel : nat) (s : bytes) : option (list (Z * bytes) * option Z) :=
  match fuel, s with
  | O, _ => None
  | _, [] => Some ([], None)
  | Datatypes.S fuel, _ =>
      let '(ofs, r) := unhex_num 0 s in
      match r with
      | [] => None
      | c :: r =>
          if c =? 10 then Some ([], Some ofs)
          else
            '(d, r) ← uncolumns r;
            '(rows, last) ← undump fuel (drop (length d + 2) r);
            Some ((ofs, d) :: rows, last)
      end
  end.

Lemma unhex_digit d : 0 <= d < 16 -> unhex (hexdigit d) = Some d.
Proof.
  intros Hd. unfold hexdigit, unhex, isdigit. destruct (Z.ltb_spec d 10).
  - rewrite (proj2 (Z.leb_le 48 _)), (proj2 (Z.leb_le _ 57)) by lia. cbn [andb]. f_equal. lia.
  - rewrite (proj2 (Z.leb_gt _ 57)), andb_false_r by lia. rewrite (proj2 (Z.leb_le 97 _)), (proj2 (Z.leb_le _ 102)) by lia. cbn [andb]. f_equal. lia.
Qed.

Lemma hexdigit_print d : 0 <= d < 16 -> (hexdigit d =? 32) = false /\ (hexdigit d =? 124) = false.
Proof. intros Hd. unfold hexdigit. destruct (d <? 10) eqn:E; lia. Qed.

Lemma hex_loop_app fuel : forall x acc tail, hex_loop fuel x acc ++ tail = hex_loop fuel x (acc ++ tail).
Proof. induction fuel as [|fuel IH]; intros x acc tail; [done|]. cbn [hex_loop]. destruct (x / 16 =? 0); [done|]. by rewrite IH. Qed.

Lemma unhex_loop fuel : forall x acc, 0 <= x < 16 ^ Z.of_nat fuel -> unhex_num 0 (hex_loop fuel x acc) = unhex_num x acc.
Proof.
  induction fuel as [|fuel IH]; intros x acc Hx; [by replace x with 0 by (simpl in Hx; lia)|].
  cbn [hex_loop]. rewrite Nat2Z.inj_succ, Z.pow_succ_r in Hx by lia. pose proof (Z.mod_pos_bound x 16 ltac:(lia)).
  destruct (Z.eqb_spec (x / 16) 0) as [E|E].
  - cbn [unhex_num]. rewrite unhex_digit by done. f_equal. dlia.
  - rewrite IH by dlia. cbn [unhex_num]. rewrite unhex_digit by done. f_equal. dlia.
Qed.

Lemma unhex_zeros k s : unhex_num 0 (replicate k 48 ++ s) = unhex_num 0 s.
Proof. by induction k. Qed.

Lemma unhex_pad width x s : 0 <= x < 2 ^ 64 -> unhex_num 0 (hex_pad width x ++ s) = unhex_num x s.
Proof.
  intros Hx. unfold hex_pad. rewrite <- (assoc_L (++)), unhex_zeros, hex_loop_app. by apply unhex_loop.
Qed.

Lemma uncolumns_hex data : forall i s, is_bytes data ->
  uncolumns (hex_columns i data ++ s) = ('(d, r) ← uncolumns s; Some (data ++ d, r)).
Proof.
  induction data as [|b data IH]; intros i s Hb; [cbn; by destruct (uncolumns s) as [[]|]|]. apply Forall_cons in Hb as [Hb Hd].
  cbn [hex_columns]. rewrite <- !(assoc_L (++)).
  assert (E : uncolumns (hex2 b ++ [32] ++ hex_columns (i + 1) data ++ s) = ('(d, r) ← uncolumns s; Some ((b :: data) ++ d, r))).
  { unfold hex2. cbn [app uncolumns]. destruct (hexdigit_print (b / 16)) as [-> ->]; [dlia|].
    rewrite !unhex_digit by dlia. cbn [mbind option_bind Z.eqb Pos.eqb]. rewrite IH by done.
    destruct (uncolumns s) as [[d r]|]; [|done]. cbn [mbind option_bind app]. do 3 f_equal. dlia. }
  destruct (Z.land i 7 =? 0); exact E.
Qed.

Lemma uncolumns_blanks n : forall i s, uncolumns (hex_blanks i n ++ s) = uncolumns s.
Proof. induction n as [|n IH]; intros i s; [done|]. cbn [hex_blanks]. rewrite <- (assoc_L (++)). destruct (Z.land i 7 =? 0); cbn; apply IH. Qed.

Lemma undump_line fuel ofs data s : 0 <= ofs < 2 ^ 64 -> is_bytes data ->
  undump (Datatypes.S fuel) (hex_line ofs data ++ s) = ('(rows, last) ← undump fuel s; Some ((ofs, data) :: rows, last)).
Proof.
  intros Ho Hb. unfold hex_line. rewrite <- !(assoc_L (++)).
  set (r := hex_columns 0 data ++ _). cbn [undump].
  rewrite (unhex_pad 8 ofs ([32] ++ r)) by done. cbn [app unhex_num]. change (unhex 32) with (@None Z). cbn [Z.eqb Pos.eqb].
  destruct (hex_pad 8 ofs ++ 32 :: r) eqn:E; [by destruct (hex_pad 8 ofs)|]. clear E. subst r.
  rewrite uncolumns_hex, uncolumns_blanks by done. cbn [app uncolumns Z.eqb Pos.eqb mbind option_bind]. rewrite app_nil_r.
  do 2 f_equal. change (124 :: 10 :: s) with ([124; 10] ++ s). rewrite (assoc_L (++)). apply drop_app_length'.
  rewrite length_app, length_fmap. done.
Qed.

(** ** The rows of an output *)

Fixpoint contiguous (ofs : Z) (rows : list (Z * bytes)) : Prop :=
  match rows with
  | [] => True
  | (o, d) :: rows => o = ofs /\ 0 < zlen d <= LINE_WIDTH /\ contiguous (ofs + zlen d) rows
  end.
Definition dumped (rows : list (Z * bytes)) : bytes := concat (snd <$> rows).

Definition parses (s : bytes) (rows : list (Z * bytes)) : Prop := (length rows <= length s)%nat /\
  forall fuel tail rest last, undump fuel tail = Some (rest, last) -> undump (length rows + fuel) (s ++ tail) = Some (rows ++ rest, last).

Lemma contiguous_app ofs a : forall b, contiguous ofs a -> contiguous (ofs + zlen (dumped a)) b -> contiguous ofs (a ++ b).
Proof.
  revert ofs. induction a as [|[o d] a IH]; intros ofs b Ha Hb; [by rewrite Z.add_0_r in Hb|]. destruct Ha as (-> & Hd & Ha).
  split_and!; [done|lia|lia|]. apply IH; [done|]. unfold dumped in *. cbn in Hb. rewrite zlen_app in Hb. by rewrite <- Z.add_assoc.
Qed.
Lemma dumped_app a b : dumped (a ++ b) = dumped a ++ dumped b.
Proof. unfold dumped. by rewrite fmap_app, concat_app. Qed.

Lemma parses_nil : parses [] [].
Proof. by split. Qed.
Lemma parses_app s t a b : parses s a -> parses t b -> parses (s ++ t) (a ++ b).
Proof.
  intros [La Pa] [Lb Pb]. split; [rewrite !length_app; lia|]. intros fuel tail rest last E. rewrite length_app, <- Nat.add_assoc, <- !(assoc_L (++)).
  by apply Pa, Pb.
Qed.
Lemma parses_line ofs data : 0 <= ofs < 2 ^ 64 -> is_bytes data -> parses (hex_line ofs data) [(ofs, data)].
Proof.
  intros Ho Hb. split; [unfold hex_line; rewrite !length_app; cbn; lia|]. intros fuel tail rest last E. cbn [length Nat.add].
  by rewrite undump_line, E.
Qed.

Lemma undump_fuel fuel : forall s r k, undump fuel s = Some r -> (fuel <= k)%nat -> undump k s = Some r.
Proof.
  induction fuel as [|fuel IH]; intros s r [|k] E Hk; [done|done|lia|]. destruct s as [|c s]; [done|]. cbn [undump] in E |- *.
  destruct (unhex_num 0 (c :: s)) as [ofs [|x q]]; [done|]. destruct (x =? 10); [done|].
  destruct (uncolumns q) as [[d q']|]; [|done]. cbn [mbind option_bind] in E |- *.
  destruct (undump fuel (drop (length d + 2) q')) as [p|] eqn:E2; [|done]. by rewrite (IH _ _ k E2) by lia.
Qed.

(** A dump of whole lines, and what the last line says. *)
Lemma parses_end s rows : parses s rows -> undump (Datatypes.S (length s)) s = Some (rows, None).
Proof. intros [L P]. specialize (P 1%nat [] [] None eq_refl). rewrite !app_nil_r in P. eapply undump_fuel; [done|lia]. Qed.
Lemma parses_last s rows o : parses s rows -> 0 <= o < 2 ^ 64 ->
  undump (Datatypes.S (length (s ++ hex_pad 8 o ++ [10]))) (s ++ hex_pad 8 o ++ [10]) = Some (rows, Some o).
Proof.
  intros [L P] Ho. assert (E : undump 1 (hex_pad 8 o ++ [10]) = Some ([], Some o)).
  { cbn [undump]. rewrite unhex_pad by done. cbn. by destruct (hex_pad 8 o). }
  specialize (P 1%nat _ _ _ E). rewrite app_nil_r in P. eapply undump_fuel; [done|]. rewrite !length_app. cbn. lia.
Qed.

(** ** Files that are read *)

(** The contents and the position behind a descriptor, whether a call failed or the user
    interrupted, and how often calls will still be interrupted. *)
Class HdView (F : Type) := {
  hv_fd : F -> Z -> option (bytes * Z);
  hv_trouble : F -> bool;
  hv_work : F -> nat;
}.

Definition hv_moved `{HdView F} (f f' : F) (d : Z) (x : option (bytes * Z)) : Prop :=
  hv_fd f' d = x /\ (forall e, e <> d -> hv_fd f' e = hv_fd f e) /\ (hv_work f' <= hv_work f)%nat /\ (hv_trouble f = true -> hv_trouble f' = true).

(** The path [name] is a file with the contents [c].  Reads give a part of what was asked
    for, and nothing at the end of the file alone. *)
Class HdLaws (F : Type) `{HdOps F, HdView F} (name c : bytes) : Prop := {
  hl_open f : let '(fd, f') := hd_open name f in
    if fd <? 0 then hv_trouble f' = true /\ forall e, hv_fd f' e = hv_fd f e else hv_fd f fd = None /\ hv_moved f f' fd (Some (c, 0));
  hl_fstat fd pos f : hv_fd f fd = Some (c, pos) -> let '(st, f') := hd_fstat fd f in st <> Some true /\ hv_moved f f' fd (Some (c, pos));
  hl_lseek fd pos to f : hv_fd f fd = Some (c, pos) -> 0 <= to -> let '(r, f') := hd_lseek fd to f in
    if r <? 0 then hv_trouble f' = true /\ hv_moved f f' fd (Some (c, pos)) else hv_moved f f' fd (Some (c, to));
  hl_read fd pos n f : hv_fd f fd = Some (c, pos) -> 0 <= pos -> 0 < n -> let '((r, data), f') := hd_read fd n f in
    if r <? 0 then hv_moved f f' fd (Some (c, pos)) /\
      (if (r =? - EAGAIN) || (r =? - EINTR) then (hv_work f' < hv_work f)%nat else hv_trouble f' = true)
    else zlen data = r /\ r <= n /\ hv_moved f f' fd (Some (c, pos + r)) /\
      exists rest, drop (Z.to_nat pos) c = data ++ rest /\ (r = 0 -> rest = []);
  hl_close fd f : hv_moved f (hd_close fd f) fd None;
  hl_sigint f : hd_sigint f = true -> hv_trouble f = true;
}.

Section dump.
Context {F : Type} (name c : bytes) `{HdLaws F name c} (w : Z).
Hypothesis Hw : 0 < w <= 64.
Hypothesis Hc : is_bytes c.

Lemma moved_trans (f g h : F) d x y : hv_moved f g d x -> hv_moved g h d y -> hv_moved f h d y.
Proof. intros (_ & A & B & C) (D & E & G & I). split_and!; [done|intros e He; by rewrite E, A|lia|auto]. Qed.

(** A descriptor that was free and is closed again. *)
Lemma closed_again (f g : F) d : hv_fd f d = None -> (forall e, e <> d -> hv_fd g e = hv_fd f e) -> forall e, hv_fd (hd_close d g) e = hv_fd f e.
Proof.
  intros Hd Hg e. destruct (hl_close d g) as (A & B & _). destruct (decide (e = d)) as [->|He]; [by rewrite A|]. by rewrite B, Hg.
Qed.

Lemma offset_fits x : 0 <= x < 2 ^ w -> 0 <= x < 2 ^ 64.
Proof. intros Hx. pose proof (Z.pow_le_mono_r 2 w 64). lia. Qed.

Lemma hexdump_loop_parses fuel : forall data ofs, (length data < fuel)%nat -> is_bytes data -> 0 <= ofs -> ofs + zlen data < 2 ^ w ->
  exists rows, parses (hexdump_loop w fuel data ofs) rows /\ contiguous ofs rows /\ dumped rows = data.
Proof.
  induction fuel as [|fuel IH]; intros data ofs Hf Hb Ho He; [lia|]. cbn [hexdump_loop]. pose proof (zlen_nonneg data).
  destruct (Z.eqb_spec (zlen data) 0) as [E|E]; [apply zlen_0_nil in E as ->; exists []; by split_and!|].
  set (n := Z.to_nat (Z.min (zlen data) LINE_WIDTH)).
  assert (Hn : (0 < n <= length data)%nat) by (unfold n, LINE_WIDTH, zlen in *; lia).
  assert (Hl : zlen (take n data) = Z.min (zlen data) LINE_WIDTH) by (rewrite zlen_take; unfold n, LINE_WIDTH in *; lia).
  assert (Hd : zlen (drop n data) = zlen data - Z.min (zlen data) LINE_WIDTH) by (rewrite zlen_drop; unfold n, LINE_WIDTH in *; lia).
  rewrite wrapu_small by (unfold LINE_WIDTH in *; lia).
  destruct (IH (drop n data) (ofs + Z.min (zlen data) LINE_WIDTH)) as (rows & P & C & E2);
    [rewrite length_drop; lia|by apply Forall_drop|unfold LINE_WIDTH; lia|lia|].
  exists ((ofs, take n data) :: rows). split_and!.
  - apply (parses_app _ _ [_]); [|done]. apply parses_line; [apply offset_fits; lia|by apply Forall_take].
  - cbn. rewrite Hl. split_and!; [done|unfold LINE_WIDTH in *; lia|unfold LINE_WIDTH in *; lia|done].
  - unfold dumped in *. cbn. by rewrite E2, take_drop.
Qed.

(** From a position on the loop prints what follows, until [len] bytes are printed, the
    file ends or there is trouble. *)
Lemma hd_loop_ok fd fuel : forall ofs len (f : F), hv_fd f fd = Some (c, ofs) -> 0 <= ofs -> 0 <= len -> ofs < 2 ^ w -> zlen c < 2 ^ w ->
  (length (drop (Z.to_nat ofs) c) + hv_work f < fuel)%nat -> exists out rows f',
  hd_loop w fuel fd ofs len f = Some (out, ofs + zlen (dumped rows), len - zlen (dumped rows), f') /\ parses out rows /\ contiguous ofs rows /\
  (exists rest, take (Z.to_nat len) (drop (Z.to_nat ofs) c) = dumped rows ++ rest /\ (hv_trouble f' = false -> rest = [])) /\
  (forall e, e <> fd -> hv_fd f' e = hv_fd f e).
Proof.
  induction fuel as [|fuel IH]; intros ofs len f Hfd Ho Hl Hos Hcs Hf; [lia|]. cbn [hd_loop].
  assert (Hend : forall f', (hv_trouble f' = false -> take (Z.to_nat len) (drop (Z.to_nat ofs) c) = []) ->
    (forall e, e <> fd -> hv_fd f' e = hv_fd f e) -> exists out rows f'', Some (@nil Z, ofs, len, f') =
    Some (out, ofs + zlen (dumped rows), len - zlen (dumped rows), f'') /\ parses out rows /\ contiguous ofs rows /\
    (exists rest, take (Z.to_nat len) (drop (Z.to_nat ofs) c) = dumped rows ++ rest /\ (hv_trouble f'' = false -> rest = [])) /\
    (forall e, e <> fd -> hv_fd f'' e = hv_fd f e)).
  { intros f' Hr Hk. exists [], [], f'. cbn. rewrite Z.add_0_r, Z.sub_0_r. split_and!; [done|apply parses_nil|done|by eexists|done]. }
  destruct (negb (len =? 0) && negb (hd_sigint f)) eqn:E.
  2:{ apply Hend; [|done]. intros Ht. apply andb_false_iff in E as [E|E]; apply negb_false_iff in E.
      - apply Z.eqb_eq in E as ->. done.
      - apply hl_sigint in E. congruence. }
  apply andb_true_iff in E as [El%negb_true_iff%Z.eqb_neq _].
  pose proof (hl_read fd ofs (Z.min len (2 * LINE_WIDTH)) f Hfd Ho ltac:(unfold LINE_WIDTH; lia)) as Hr.
  destruct (hd_read fd _ f) as [[r data] f1]. destruct (Z.ltb_spec r 0) as [Hr0|Hr0].
  - destruct Hr as ((M1 & M2 & M3 & M4) & Hr). rewrite (proj2 (Z.leb_le r 0)), (proj2 (Z.eqb_neq r 0)) by lia.
    destruct ((r =? - EAGAIN) || (r =? - EINTR)) eqn:Ei; [|apply Hend; [congruence|done]].
    destruct (IH ofs len f1) as (out & rows & f' & E' & P & C & R & K); [done|done|done|done|done|lia|].
    exists out, rows, f'. split_and!; [done|done|done|done|]. intros e He. by rewrite K, M2.
  - destruct Hr as (Hlen & Hle & (M1 & M2 & M3 & M4) & rest & Er & Hz). destruct (Z.leb_spec r 0) as [Hr1|Hr1].
    + assert (r = 0) as -> by lia. cbn [Z.eqb]. apply Hend; [|done]. intros _. apply zlen_0_nil in Hlen as ->. rewrite Er, Hz by done. apply take_nil.
    + assert (Hs : zlen data + zlen rest = zlen c - ofs) by (rewrite <- zlen_app, <- Er, zlen_drop; pose proof (zlen_nonneg rest);
        assert (0 < zlen (drop (Z.to_nat ofs) c)) by (rewrite Er, zlen_app; lia); rewrite zlen_drop in *; lia).
      pose proof (zlen_nonneg rest). rewrite wrapu_small by lia.
      assert (Hdr : drop (Z.to_nat (ofs + r)) c = rest).
      { rewrite Z2Nat.inj_add, <- drop_drop, Er by lia. subst r. apply drop_zlen_app. }
      assert (Hb : is_bytes data) by (apply (Forall_drop _ (Z.to_nat ofs)) in Hc; rewrite Er in Hc; by apply Forall_app in Hc as [? _]).
      destruct (hexdump_loop_parses (Datatypes.S (length data)) data ofs) as (rows1 & P1 & C1 & D1); [lia|done|done|lia|].
      destruct (IH (ofs + r) (len - r) f1) as (out & rows2 & f' & E' & P2 & C2 & (rest2 & R2 & T2) & K2);
        [done|lia|unfold LINE_WIDTH in *; lia|lia|done|rewrite Hdr; rewrite Er, length_app in Hf; unfold zlen in Hlen; lia|].
      rewrite E'. cbn [mbind option_bind]. exists (psh_hexdump w data ofs ++ out), (rows1 ++ rows2), f'. rewrite dumped_app, D1, zlen_app, Hlen.
      split_and!; [by rewrite Z.add_assoc, Z.sub_add_distr| | | |intros e He; by rewrite K2, M2].
      * by apply parses_app.
      * apply contiguous_app; [done|]. by rewrite D1, Hlen.
      * exists rest2. split; [|done]. rewrite Er, <- (assoc_L (++)), <- R2, Hdr. rewrite take_app_ge by (unfold zlen in *; lia).
        f_equal. f_equal. unfold zlen in *. lia.
Qed.

(** C22: [hd] of a file always ends and gives its descriptor back.  Its output, read by
    the reference reader, is the rows from the offset on of the part of the file that was
    asked for: all of it, with the offset of its end behind it, unless a call failed or
    the user interrupted.  It succeeds then when the length asked for is there. *)
Theorem hd_dumps fuel opts ofs len (f : F) : hd_opts w opts 0 (2 ^ w - 1) = inl (ofs, len) -> 0 <= ofs < 2 ^ w -> 0 < len -> zlen c < 2 ^ w ->
  is_Some (hv_fd f 0) -> (length c + hv_work f < fuel)%nat -> exists out code f' rows last,
  psh_hd w fuel opts [name] f = Some (out, code, f') /\ (forall e, hv_fd f' e = hv_fd f e) /\
  undump (Datatypes.S (length out)) out = Some (rows, last) /\ contiguous ofs rows /\
  (exists rest, take (Z.to_nat len) (drop (Z.to_nat ofs) c) = dumped rows ++ rest /\ (hv_trouble f' = false -> rest = [])) /\
  (hv_trouble f' = false -> (code = EXIT_SUCCESS <-> zlen (dumped rows) = len) /\
    last = if ofs + zlen (dumped rows) =? 0 then None else Some (ofs + zlen (dumped rows))).
Proof.
  intros Hopts Ho Hl Hcs Hin Hf. unfold psh_hd. rewrite Hopts, (proj2 (Z.eqb_neq len 0)) by lia.
  assert (Hfail : forall f', hv_trouble f' = true -> (forall e, hv_fd f' e = hv_fd f e) -> exists out code f'' rows last,
    Some (@nil Z, EXIT_FAILURE, f') = Some (out, code, f'') /\ (forall e, hv_fd f'' e = hv_fd f e) /\
    undump (Datatypes.S (length out)) out = Some (rows, last) /\ contiguous ofs rows /\
    (exists rest, take (Z.to_nat len) (drop (Z.to_nat ofs) c) = dumped rows ++ rest /\ (hv_trouble f'' = false -> rest = [])) /\
    (hv_trouble f'' = false -> (code = EXIT_SUCCESS <-> zlen (dumped rows) = len) /\
      last = if ofs + zlen (dumped rows) =? 0 then None else Some (ofs + zlen (dumped rows)))).
  { intros f' Ht Hk. exists [], EXIT_FAILURE, f', [], None. rewrite Ht. split_and!; try done. by eexists. }
  pose proof (hl_open f) as Hop. destruct (hd_open name f) as [fd f1]. destruct (fd <? 0); [destruct Hop; by apply Hfail|].
  destruct Hop as (Hfree & M1). assert (Hfd : fd <> 0) by (intros ->; destruct Hin as [? Hin]; congruence).
  pose proof (hl_fstat fd 0 f1 (proj1 M1)) as Hst. destruct (hd_fstat fd f1) as [st f2]. destruct Hst as (Hst & M2).
  replace (default false st) with false by (destruct st as [[]|]; done).
  assert (Hseek : let '(r, f3) := if 0 <? ofs then hd_lseek fd ofs f2 else (0, f2) in
    if r <? 0 then hv_trouble f3 = true /\ hv_moved f2 f3 fd (Some (c, 0)) else hv_moved f2 f3 fd (Some (c, ofs))).
  { destruct (Z.ltb_spec 0 ofs); [apply (hl_lseek fd 0 ofs f2 (proj1 M2)); lia|]. replace ofs with 0 by lia. destruct M2 as (M2 & _). by split_and!. }
  destruct (if 0 <? ofs then _ else _) as [r f3]. rewrite (proj2 (Z.eqb_neq fd 0)) by done. cbn [negb].
  pose proof (moved_trans _ _ _ _ _ _ M1 M2) as M. pose proof (hl_close fd f3) as M4. destruct (Z.ltb_spec r 0).
  - destruct Hseek as (Ht & M3). apply Hfail; [by apply M4|]. apply closed_again; [done|]. by apply (moved_trans _ _ _ _ _ _ M M3).
  - pose proof (moved_trans _ _ _ _ _ _ M Hseek) as (Hfd3 & K3 & W3 & _).
    destruct (hd_loop_ok fd fuel ofs len f3) as (out & rows & f4 & E & P & C & (rest & R & T) & K); [done|lia|lia|lia|done|rewrite length_drop; lia|].
    rewrite E. cbn [mbind option_bind]. clear Hfail Hseek. pose proof (hl_close fd f4) as (_ & _ & _ & M5).
    pose proof (zlen_nonneg (dumped rows)). assert (Hz : ofs + zlen (dumped rows) < 2 ^ w).
    { apply (f_equal zlen) in R. rewrite zlen_app, zlen_take, zlen_drop in R. pose proof (zlen_nonneg rest). lia. }
    rewrite wrapu_small by lia. set (o := ofs + zlen (dumped rows)) in *.
    eexists _, _, (hd_close fd f4), rows, (if o =? 0 then None else Some o). split; [done|].
    split; [apply closed_again; [done|]; intros e He; by rewrite K, K3|]. split.
    { destruct (Z.eqb_spec o 0); cbn [negb]; [rewrite app_nil_r; by apply parses_end|]. apply parses_last; [done|]. apply offset_fits. lia. }
    split; [done|]. split.
    + exists rest. split; [done|]. intros Ht. apply T. destruct (hv_trouble f4); [by rewrite M5 in Ht|done].
    + intros _. split; [|done]. destruct (Z.eqb_spec (len - zlen (dumped rows)) 0); cbn [negb]; unfold EXIT_SUCCESS, EXIT_FAILURE; lia.
Qed.
End dump.

(** ** An example *)

(** Every path is a file (or a directory) with the contents [c], whose reads give 20
    bytes at most after the first ones were interrupted. *)
Record hd_sim := HdSim { hs_fd : Z -> option (bytes * Z); hs_trouble : bool; hs_work : nat }.

Definition hs_set (s : hd_sim) (fd : Z) (x : option (bytes * Z)) : hd_sim :=
  HdSim (fun e => if e =? fd then x else hs_fd s e) (hs_trouble s) (hs_work s).
Definition hs_fail (s : hd_sim) : hd_sim := HdSim (hs_fd s) true (hs_work s).

Section example.
Context (c : bytes) (dir : bool).

#[export] Instance hd_sim_ops : HdOps hd_sim := {
  hd_open _ s := match hs_fd s 3 with None => (3, hs_set s 3 (Some (c, 0))) | Some _ => (-1, hs_fail s) end;
  hd_fstat _ s := (Some dir, s);
  hd_lseek fd to s := match hs_fd s fd with Some (c, _) => (to, hs_set s fd (Some (c, to))) | None => (-1, hs_fail s) end;
  hd_read fd n s :=
    match hs_work s, hs_fd s fd with
    | Datatypes.S k, _ => ((- EINTR, []), HdSim (hs_fd s) (hs_trouble s) k)
    | O, Some (c, pos) =>
        let data := take (Z.to_nat (Z.min n 20)) (drop (Z.to_nat pos) c) in ((zlen data, data), hs_set s fd (Some (c, pos + zlen data)))
    | O, None => ((-1, []), hs_fail s)
    end;
  hd_close fd s := hs_set s fd None;
  hd_sigint := hs_trouble;
}.
#[export] Instance hd_sim_view : HdView hd_sim := { hv_fd := hs_fd; hv_trouble := hs_trouble; hv_work := hs_work }.
End example.

Lemma hs_set_moved s fd x : hv_moved s (hs_set s fd x) fd x.
Proof. unfold hv_moved. cbn. rewrite Z.eqb_refl. split_and!; [done|intros e He; by rewrite (proj2 (Z.eqb_neq e fd))|done|done]. Qed.

Lemma hd_sim_laws c name : HdLaws hd_sim (H := hd_sim_ops c false) name c.
Proof.
  split; cbn.
  - intros s. destruct (hs_fd s 3) eqn:E; [done|]. cbn. split; [done|apply hs_set_moved].
  - intros fd pos s Hfd. by split_and!.
  - intros fd pos to s Hfd Hto. rewrite Hfd, (proj2 (Z.ltb_ge to 0)) by done. apply hs_set_moved.
  - intros fd pos n s Hfd Hpos Hn. destruct (hs_work s) eqn:Ew.
    + rewrite Hfd, (proj2 (Z.ltb_ge _ 0)) by apply zlen_nonneg. split_and!; [done|rewrite zlen_take; lia|apply hs_set_moved|].
      eexists. split; [by rewrite take_drop|]. intros E. apply zlen_0_nil, (f_equal zlen) in E. rewrite zlen_take in E. change (zlen []) with 0 in E.
      apply zlen_0_nil. rewrite zlen_drop. lia.
    + rewrite (proj2 (Z.ltb_lt (- EINTR) 0)) by done. change ((- EINTR =? - EAGAIN) || (- EINTR =? - EINTR)) with true. split; [|cbn; lia]. unfold hv_moved. cbn. rewrite Ew. split_and!; [done|done|lia|done].
  - intros fd s. apply hs_set_moved.
  - done.
Qed.

Definition ex_content : bytes := bstr "Hello, Phoenix-RTOS utilities!" ++ [0; 255].
Definition ex_hd : hd_sim := HdSim (fun e => if e =? 0 then Some ([], 0) else None) false 2.

(** The dump of 21 bytes from offset 7 on. *)
Example hd_text : (r ← (@psh_hd _ (hd_sim_ops ex_content false) 64 40 [(115, bstr "7"); (110, bstr "21")] [bstr "f"] ex_hd); Some r.1) = Some (
  bstr "00000007  50 68 6f 65 6e 69 78 2d  52 54 4f 53 20 75 74 69  |Phoenix-RTOS uti|" ++ [10] ++
  bstr "00000017  6c 69 74 69                                       |liti|" ++ [10] ++
  bstr "0000001b  65                                                |e|" ++ [10] ++
  bstr "0000001c" ++ [10], EXIT_SUCCESS).
Proof. by vm_compute. Qed.

(** Without a length the status of a dump is a failure. *)
Example hd_whole_file_fails : (r ← (@psh_hd _ (hd_sim_ops ex_content false) 64 40 [] [bstr "f"] ex_hd); Some r.1.2) = Some EXIT_FAILURE.
Proof. by vm_compute. Qed.

(** A directory that is refused stays open. *)
Example hd_directory_open : (r ← (@psh_hd _ (hd_sim_ops ex_content true) 64 40 [] [bstr "d"] ex_hd); Some (r.1.2, hs_fd r.2 3)) = Some (EXIT_FAILURE, Some (ex_content, 0)).
Proof. by vm_compute. Qed.

Lemma hd_dumps_witness : exists out code f' rows last,
  @psh_hd _ (hd_sim_ops ex_content false) 64 40 [(115, bstr "7"); (110, bstr "21")] [bstr "f"] ex_hd = Some (out, code, f') /\
  (forall e, hv_fd f' e = hv_fd ex_hd e) /\ undump (Datatypes.S (length out)) out = Some (rows, last) /\ contiguous 7 rows /\
  (exists rest, take (Z.to_nat 21) (drop (Z.to_nat 7) ex_content) = dumped rows ++ rest /\ (hv_trouble f' = false -> rest = [])) /\
  (hv_trouble f' = false -> (code = EXIT_SUCCESS <-> zlen (dumped rows) = 21) /\
    last = if 7 + zlen (dumped rows) =? 0 then None else Some (7 + zlen (dumped rows))).
Proof.
  apply (@hd_dumps hd_sim (bstr "f") ex_content (hd_sim_ops ex_content false) hd_sim_view (hd_sim_laws ex_content (bstr "f")) 64);
    [lia|repeat (apply Forall_cons; split; [vm_compute; by split|]); by apply Forall_nil|by vm_compute|lia|lia|by vm_compute|by eexists|vm_compute; lia].
Defined.
