(* ===== verification/Pm.v ===== *)
(** * The process monitor ([psh/pm/pm.c])

    Lists of threads, the comparison of the present one with that of the start, limits of
    memory and the loop.  A buffer of threads is a list of its entries, [None] where
    nothing was written yet.  What is printed is a list of events. *)

From S2P Require Import Prelude.
From S2P Require Import Clib.
From S2P Require Import PcHist.

Definition UINT32_MAX : Z := 4294967295.

Record threadinfo_t := ThreadInfo { ti_pid : Z; ti_vmem : Z; ti_name : bytes }.

Inductive pm_event :=
| Rebooting (reason : bytes) (detail : option bytes)
| Died (pid : Z) (name : bytes)
| MemUse (total maxTotal kernel maxKernel : Z).

Class PmOps (F : Type) := {
  pm_threadcount : F -> Z;
  (** At most as many threads as there is room for. *)
  pm_threadsinfo : Z -> F -> list threadinfo_t * F;
  (** [malloc] and [realloc]. *)
  pm_alloc : F -> bool * F;
  pm_getppid : F -> Z;
  (** [sigint], [sigquit] or [sigstop] is set. *)
  pm_signalled : F -> bool;
  pm_unsignal : F -> F;
  pm_sleep : Z -> F -> F;
  (** [page.alloc] of [meminfo]. *)
  pm_meminfo : F -> Z;
  pm_reset : F -> Z * F;
}.

(** An entry that is there. *)
Definition info_at (info : list (option threadinfo_t)) (i : Z) : option threadinfo_t := x ← rd info i; x.

Section pm.
Context {F : Type} `{PmOps F, Qsort} (w : Z).

(** ** Threads *)

Definition psh_pm_cmppid (t1 t2 : threadinfo_t) : Z := s32 (ti_pid t1 - ti_pid t2).

(** The buffer grows until it is not full: the buffer, its size and the threads, or none
    when there is no memory. *)
Fixpoint threads_loop (fuel : nat) (info : list (option threadinfo_t)) (m : Z) (f : F)
    : option (list (option threadinfo_t) * Z * option (list threadinfo_t) * F) :=
  match fuel with
  | O => None
  | Datatypes.S fuel =>
      let '(ts, f) := pm_threadsinfo m f in
      info ← wr_range info 0 (Some <$> ts);
      if m <=? zlen ts then
        let m := zlen ts * 2 in
        let '(ok, f) := pm_alloc f in
        if ok : bool then threads_loop fuel (take (Z.to_nat m) (info ++ replicate (Z.to_nat m) None)) m f
        else Some (info, m / 2, None, f)
      else Some (info, m, Some ts, f)
  end.

(** The buffer and its size, and what is returned. *)
Definition psh_pm_getThreads (fuel : nat) (pinfo : option (list (option threadinfo_t))) (n : Z) (f : F)
    : option (option (list (option threadinfo_t)) * Z * Z * F) :=
  let '(info, m, f) :=
    match pinfo with
    | Some info => (Some info, n, f)
    | None => let m := Z.max 32 (pm_threadcount f * 2) in let '(ok, f) := pm_alloc f in (if ok : bool then Some (replicate (Z.to_nat m) None) else None, m, f)
    end in
  match info with
  | None => Some (None, n, - ENOMEM, f)
  | Some info =>
      '(info, m, ts, f) ← threads_loop fuel info m f;
      match ts with
      | None => Some (Some info, m, - ENOMEM, f)
      | Some ts => info ← wr_range info 0 (Some <$> qsort psh_pm_cmppid ts); Some (Some info, m, zlen ts, f)
      end
  end.

Definition psh_pm_reboot (reason : bytes) (detail : option bytes) (f : F) : list pm_event * F :=
  let '(_, f) := pm_reset f in ([Rebooting reason detail], f).

Definition psh_pm_getTotal (f : F) : Z := u32 (pm_meminfo f).

(** ** Comparing the lists *)

(** [for (; k < cnt && info[k].pid == pid; k++)] *)
Fixpoint pid_run (fuel : nat) (info : list (option threadinfo_t)) (cnt pid k : Z) : option Z :=
  match fuel with
  | O => None
  | Datatypes.S fuel =>
      if k <? cnt then t ← info_at info k; if ti_pid t =? pid then pid_run fuel info cnt pid (k + 1) else Some k
      else Some k
  end.

(** The configuration. *)
Record pm_t := Pm { pm_restart : bool; pm_ignore_ppid : bool; pm_interval : Z; pm_rebootNoMem : bool; pm_maxTotal : Z; pm_maxKernel : Z }.

Definition pm_died (c : pm_t) (t : threadinfo_t) (f : F) : list pm_event * F :=
  let '(ev, f) := if pm_restart c then psh_pm_reboot (bstr "monitored process died: ") (Some (ti_name t)) f else ([], f) in
  (ev ++ [Died (ti_pid t) (ti_name t)], f).

Fixpoint pm_scan (fuel n : nat) (c : pm_t) (ppid : Z) (itinfo : list (option threadinfo_t)) (itcnt : Z)
    (ctinfo : list (option threadinfo_t)) (ctcnt i j currKernel : Z) (f : F) : option (list pm_event * Z * F) :=
  match fuel with
  | O => None
  | Datatypes.S fuel =>
      if i <? itcnt then
        ti ← info_at itinfo i;
        tc ← info_at ctinfo j;
        tk ← info_at ctinfo i;
        let ipid := ti_pid ti in
        let cpid := ti_pid tc in
        let currKernel := if ti_pid tk =? 0 then u32 (ti_vmem tk) else currKernel in
        let '(ev, f) := if (negb (pm_ignore_ppid c) || negb (ipid =? ppid)) && (ipid <? cpid) then pm_died c ti f else ([], f) in
        i' ← (if ipid <=? cpid then pid_run n itinfo itcnt ipid (i + 1) else Some i);
        j' ← (if cpid <=? ipid then pid_run n ctinfo ctcnt cpid (j + 1) else Some j);
        '(evs, currKernel, f) ← pm_scan fuel n c ppid itinfo itcnt ctinfo ctcnt i' j' currKernel f;
        Some (ev ++ evs, currKernel, f)
      else Some ([], currKernel, f)
  end.

Definition warn_level (limit : Z) : Z := limit - limit / 10.

Definition pm_memory (c : pm_t) (currKernel : Z) (f : F) : list pm_event * F :=
  if pm_rebootNoMem c then
    let currTotal := psh_pm_getTotal f in
    let '(e1, f) := if pm_maxTotal c <? currTotal then psh_pm_reboot (bstr "total mem exceeded limit") None f else ([], f) in
    let '(e2, f) := if pm_maxKernel c <? currKernel then psh_pm_reboot (bstr "kernel mem exceeded limit") None f else ([], f) in
    let e3 := if (warn_level (pm_maxTotal c) <? currTotal) || (warn_level (pm_maxKernel c) <? currKernel)
              then [MemUse currTotal (pm_maxTotal c) currKernel (pm_maxKernel c)] else [] in
    (e1 ++ e2 ++ e3, f)
  else ([], f).

(** What is done after a sleep: the events, the buffer and its size. *)
Definition pm_round (fuel : nat) (c : pm_t) (ppid : Z) (itinfo : list (option threadinfo_t)) (itcnt : Z)
    (ctinfo : option (list (option threadinfo_t))) (ctsize : Z) (f : F)
    : option (list pm_event * option (list (option threadinfo_t)) * Z * F) :=
  '(ctinfo, ctsize, ctcnt, f) ← psh_pm_getThreads fuel ctinfo ctsize f;
  if ctcnt <? 0 then
    let '(ev, f) := if pm_rebootNoMem c && (ctcnt =? - ENOMEM) then psh_pm_reboot (bstr "ENOMEM while getting thread info") None f else ([], f) in
    Some (ev, ctinfo, ctsize, f)
  else
    ct ← ctinfo;
    '(evs, currKernel, f) ← pm_scan fuel fuel c ppid itinfo itcnt ct ctcnt 0 0 0 f;
    let '(mem, f) := pm_memory c currKernel f in
    Some (evs ++ mem, ctinfo, ctsize, f).

Fixpoint pm_loop (rounds fuel : nat) (c : pm_t) (ppid : Z) (itinfo : list (option threadinfo_t)) (itcnt : Z)
    (ctinfo : option (list (option threadinfo_t))) (ctsize : Z) (f : F) : option (list pm_event * F) :=
  match rounds with
  | O => None
  | Datatypes.S rounds =>
      if pm_signalled f then Some ([], f)
      else
        let f := pm_sleep (pm_interval c) f in
        if pm_signalled f then Some ([], f)
        else
          '(ev, ctinfo, ctsize, f) ← pm_round fuel c ppid itinfo itcnt ctinfo ctsize f;
          '(evs, f) ← pm_loop rounds fuel c ppid itinfo itcnt ctinfo ctsize f;
          Some (ev ++ evs, f)
  end.

(** ** The command *)

(** [atoi]. *)
Definition pm_atoi (s : bytes) : Z := match scan_int s with Some (v, _) => v | None => 0 end.

Definition pm_limit (arg : bytes) : option Z := match strtoul10 w arg with Some (v, []) => Some (u32 v) | _ => None end.

(** The configuration, or the exit code. *)
Fixpoint pm_opts (opts : list (Z * bytes)) (c : pm_t) : pm_t + Z :=
  match opts with
  | [] => inl c
  | (o, arg) :: opts =>
      let 'Pm restart ignore interval nomem total kernel := c in
      if o =? 112 then pm_opts opts (Pm restart true interval nomem total kernel)
      else if o =? 114 then pm_opts opts (Pm true ignore interval nomem total kernel)
      else if o =? 116 then pm_opts opts (Pm restart ignore (Z.min 1 (pm_atoi arg)) nomem total kernel)
      else if o =? 109 then match pm_limit arg with Some v => pm_opts opts (Pm restart ignore interval true v kernel) | None => inr EXIT_FAILURE end
      else if o =? 107 then match pm_limit arg with Some v => pm_opts opts (Pm restart ignore interval true total v) | None => inr EXIT_FAILURE end
      else inr (if o =? 104 then EXIT_SUCCESS else EXIT_FAILURE)
  end.

Definition pm_defaults : pm_t := Pm false false 300 false UINT32_MAX UINT32_MAX.

Definition psh_pm (rounds fuel : nat) (opts : list (Z * bytes)) (f : F) : option (list pm_event * Z * F) :=
  match pm_opts opts pm_defaults with
  | inr code => Some ([], code, f)
  | inl c =>
      let ppid := pm_getppid f in
      '(itinfo, _, itcnt, f) ← psh_pm_getThreads fuel None 0 f;
      if itcnt <? 0 then Some ([], EXIT_FAILURE, f)
      else
        itinfo ← itinfo;
        '(evs, f) ← pm_loop rounds fuel c ppid itinfo itcnt None 0 (pm_unsignal f);
        Some (evs, EXIT_SUCCESS, f)
  end.
End pm.
