(* ===== verification/PmSpec.v ===== *)
(** * What the process monitor reports

    Where the process with the highest number still runs, a round reports exactly the
    processes of the start that are gone.  The examples at the end are the rounds in which
    that process is the one that died. *)

From stdpp Require Import sorting.
From S2P Require Import Prelude.
From S2P Require Import Clib.
From S2P Require Import PcHist.
From S2P Require Import PcHistSpec.
From S2P Require Import Pm.

Definition by_pid (t u : threadinfo_t) : Prop := ti_pid t <= ti_pid u.

(** The first thread of every process. *)
Fixpoint firsts (prev : option Z) (l : list threadinfo_t) : list threadinfo_t :=
  match l with
  | [] => []
  | t :: l => if decide (prev = Some (ti_pid t)) then firsts prev l else t :: firsts (Some (ti_pid t)) l
  end.

Definition gone (c : pm_t) (ppid : Z) (cur : list threadinfo_t) (t : threadinfo_t) : Prop :=
  (ti_pid t ∉ (ti_pid <$> cur)) /\ (pm_ignore_ppid c = false \/ ti_pid t <> ppid).
#[export] Instance gone_dec c ppid cur t : Decision (gone c ppid cur t).
Proof. apply _. Defined.

(** What is said of a process that died. *)
Definition died_events (c : pm_t) (t : threadinfo_t) : list pm_event :=
  (if pm_restart c then [Rebooting (bstr "monitored process died: ") (Some (ti_name t))] else []) ++ [Died (ti_pid t) (ti_name t)].

Definition reports (c : pm_t) (ppid : Z) (start cur : list threadinfo_t) : list pm_event :=
  concat (died_events c <$> filter (gone c ppid cur) (firsts None start)).

(** ** Runs of a process *)

Definition other_head (pid : Z) (l : list threadinfo_t) : Prop := match l with [] => True | t :: _ => ti_pid t <> pid end.

Lemma info_at_app a t l junk : info_at ((Some <$> (a ++ t :: l)) ++ junk) (zlen a) = Some t.
Proof.
  unfold info_at. rewrite fmap_app, fmap_cons, <- (assoc_L (++)). cbn [app].
  by rewrite (rd_app (Some <$> a) (Some t) ((Some <$> l) ++ junk)) by (by rewrite zlen_fmap).
Qed.

Lemma zlen_snoc (a : list threadinfo_t) t : zlen (a ++ [t]) = zlen a + 1.
Proof. by rewrite zlen_app. Qed.

Lemma pid_run_spec n pid junk : forall l a, (length l < n)%nat -> exists p s, l = p ++ s /\
  pid_run n ((Some <$> (a ++ l)) ++ junk) (zlen (a ++ l)) pid (zlen a) = Some (zlen (a ++ p)) /\ Forall (fun t => ti_pid t = pid) p /\ other_head pid s.
Proof.
  induction n as [|n IH]; intros l a Hn; [lia|]. cbn [pid_run]. destruct l as [|t l].
  - exists [], []. rewrite !app_nil_r, Z.ltb_irrefl. by split_and!.
  - rewrite (proj2 (Z.ltb_lt _ _)) by (rewrite zlen_app, zlen_cons; pose proof (zlen_nonneg l); lia). rewrite info_at_app. cbn [mbind option_bind].
    destruct (Z.eqb_spec (ti_pid t) pid) as [E|E].
    + destruct (IH l (a ++ [t])) as (p & s & -> & Er & Hp & Hs); [simpl in Hn; lia|]. exists (t :: p), s.
      rewrite zlen_snoc, <- !(assoc_L (++)) in Er. cbn [app] in Er. split_and!; [done|done|by constructor|done].
    + exists [], (t :: l). rewrite app_nil_r. by split_and!.
Qed.

Lemma firsts_run pid p s : Forall (fun t => ti_pid t = pid) p -> other_head pid s -> firsts (Some pid) (p ++ s) = firsts None s.
Proof.
  intros Hp Hs. induction Hp as [|t p Ht _ IH]; cbn.
  - destruct s as [|t s]; [done|]. cbn. rewrite decide_False by (simpl in Hs; congruence). by rewrite decide_False.
  - by rewrite decide_True by congruence.
Qed.

(** Behind a run in an ordered list the numbers are higher. *)
Lemma run_below (t : threadinfo_t) p s : StronglySorted by_pid (t :: p ++ s) -> other_head (ti_pid t) s -> Forall (fun y => ti_pid t < ti_pid y) s.
Proof.
  intros [Hs Ht]%StronglySorted_inv Hh. apply Forall_app in Ht as [_ Ht]. apply StronglySorted_app_1_r in Hs. destruct s as [|u s]; [done|].
  apply Forall_cons in Ht as [Hu _]. apply StronglySorted_inv in Hs as [_ Hs]. unfold by_pid, other_head in *.
  constructor; [lia|]. eapply Forall_impl; [done|]. cbn. intros. lia.
Qed.
Lemma sorted_behind (t : threadinfo_t) p s : StronglySorted by_pid (t :: p ++ s) -> StronglySorted by_pid s.
Proof. intros [Hs _]%StronglySorted_inv. by apply StronglySorted_app_1_r in Hs. Qed.

(** ** A scan *)

Section scan.
Context {F : Type} `{PmOps F} (c : pm_t) (ppid : Z).

Lemma pm_died_events t (f : F) : exists f', pm_died c t f = (died_events c t, f').
Proof. unfold pm_died, died_events, psh_pm_reboot. destruct (pm_restart c); [destruct (pm_reset f)|]; by eexists. Qed.

Lemma gone_bool cur t : ti_pid t ∉ (ti_pid <$> cur) -> negb (pm_ignore_ppid c) || negb (ti_pid t =? ppid) = bool_decide (gone c ppid cur t).
Proof.
  intros Hno. case_bool_decide as Hg; destruct Hg as [_ Hg] || idtac; destruct (pm_ignore_ppid c) eqn:E; cbn [negb orb].
  - destruct (Z.eqb_spec (ti_pid t) ppid); [by destruct Hg|done].
  - done.
  - destruct (Z.eqb_spec (ti_pid t) ppid); [done|]. destruct Hg. by split; [|right].
  - destruct Hg. by split; [|left].
Qed.

Context (n : nat) (start cur : list threadinfo_t) (ijunk cjunk : list (option threadinfo_t)) (top : Z).
Hypothesis Hn : (length start < n)%nat /\ (length cur < n)%nat.
Hypothesis Htop : top ∈ (ti_pid <$> cur).
Hypothesis Hkernel : forall i, 0 <= i < zlen start -> is_Some (info_at ((Some <$> cur) ++ cjunk) i).

(** From two places that begin runs: [li] and [lj] are left, and the present processes
    that were passed are below those that are left. *)
Lemma pm_scan_reports fuel : forall a li b lj kernel (f : F), (length li + length lj < fuel)%nat -> start = a ++ li -> cur = b ++ lj ->
  StronglySorted by_pid li -> StronglySorted by_pid lj -> (forall x y, x ∈ b -> y ∈ li -> ti_pid x < ti_pid y) ->
  Forall (fun y => ti_pid y <= top) li -> exists kernel' f',
  pm_scan fuel n c ppid ((Some <$> start) ++ ijunk) (zlen start) ((Some <$> cur) ++ cjunk) (zlen cur) (zlen a) (zlen b) kernel f =
  Some (concat (died_events c <$> filter (gone c ppid cur) (firsts None li)), kernel', f').
Proof.
  induction fuel as [|fuel IH]; intros a li b lj kernel f Hf Es Ec Si Sj Hb Hli; [lia|]. cbn [pm_scan].
  destruct li as [|t li]; [rewrite Es, app_nil_r, Z.ltb_irrefl; by eexists _, _|].
  assert (Ha : 0 <= zlen a < zlen start) by (rewrite Es, zlen_app, zlen_cons; pose proof (zlen_nonneg a); pose proof (zlen_nonneg li); lia).
  rewrite (proj2 (Z.ltb_lt _ _)) by lia. assert (Ei : info_at ((Some <$> start) ++ ijunk) (zlen a) = Some t) by (rewrite Es; apply info_at_app). rewrite Ei. cbn [mbind option_bind].
  destruct lj as [|u lj].
  { exfalso. rewrite app_nil_r in Ec. subst b. apply list_elem_of_fmap in Htop as (x & -> & Hx). specialize (Hb x t Hx ltac:(by left)).
    apply Forall_cons in Hli as [Hli _]. lia. }
  assert (Ej : info_at ((Some <$> cur) ++ cjunk) (zlen b) = Some u) by (rewrite Ec; apply info_at_app). rewrite Ej. cbn [mbind option_bind]. destruct (Hkernel (zlen a) Ha) as [tk Ek]. rewrite Ek. cbn [mbind option_bind].
  set (kernel1 := if ti_pid tk =? 0 then _ else _). clearbody kernel1.
  destruct (pid_run_spec n (ti_pid t) ijunk li (a ++ [t])) as (p & s & -> & Ep & Hp & Hs); [rewrite Es, length_app in Hn; simpl in Hn; lia|].
  destruct (pid_run_spec n (ti_pid u) cjunk lj (b ++ [u])) as (q & r & -> & Eq & Hq & Hr); [rewrite Ec, length_app in Hn; simpl in Hn; lia|].
  rewrite zlen_snoc, <- !(assoc_L (++)) in Ep. rewrite zlen_snoc, <- !(assoc_L (++)) in Eq. cbn [app] in Ep, Eq. rewrite <- Es in Ep. rewrite <- Ec in Eq.
  pose proof (run_below _ _ _ Si Hs) as Bi. pose proof (run_below _ _ _ Sj Hr) as Bj.
  pose proof (sorted_behind _ _ _ Si) as Si'. pose proof (sorted_behind _ _ _ Sj) as Sj'.
  assert (Hli' : Forall (fun y => ti_pid y <= top) s) by (apply Forall_cons in Hli as [_ Hli]; by apply Forall_app in Hli as [_ Hli]).
  assert (Ef : firsts None (t :: p ++ s) = t :: firsts None s) by (cbn; by rewrite (firsts_run (ti_pid t))).
  assert (Hpass : forall y, ti_pid u < ti_pid y -> forall x, x ∈ b ++ u :: q -> (x ∈ b -> ti_pid x < ti_pid y) -> ti_pid x < ti_pid y).
  { intros y Hy x [Hx|Hx]%elem_of_app Hbx; [by apply Hbx|]. apply elem_of_cons in Hx as [->|Hx]; [done|]. rewrite Forall_forall in Hq. rewrite (Hq x Hx). done. }
  destruct (Z.lt_trichotomy (ti_pid t) (ti_pid u)) as [Hlt|[Heq|Hgt]].
  - rewrite (proj2 (Z.ltb_lt (ti_pid t) (ti_pid u))), andb_true_r, (proj2 (Z.leb_le (ti_pid t) (ti_pid u))), (proj2 (Z.leb_gt (ti_pid u) (ti_pid t))) by lia.
    assert (Hno : ti_pid t ∉ (ti_pid <$> cur)).
    { intros (x & Ex & Hx)%list_elem_of_fmap. rewrite Ec in Hx. apply elem_of_app in Hx as [Hx|Hx]; [specialize (Hb x t Hx ltac:(by left)); lia|].
      apply elem_of_cons in Hx as [->|Hx]; [lia|]. apply StronglySorted_inv in Sj as [_ Sj]. rewrite Forall_forall in Sj. specialize (Sj x Hx). unfold by_pid in Sj. lia. }
    destruct (IH (a ++ t :: p) s b (u :: q ++ r) kernel1 (if decide (gone c ppid cur t) then (pm_died c t f).2 else f)) as (k & f' & E);
      [cbn [length] in Hf |- *; rewrite !length_app in Hf; cbn [length] in Hf; rewrite ?length_app; lia|by rewrite Es; appeq|done|done|done| |done|].
    { intros x y Hx Hy. apply Hb; [done|]. right. apply elem_of_app. by right. }
    exists k, f'. rewrite Ef, filter_cons, Ep, (gone_bool cur t Hno). cbn [mbind option_bind] in E |- *.
    destruct (pm_died_events t f) as [f1 Ed]. rewrite Ed in *. cbn [snd] in E.
    destruct (decide (gone c ppid cur t)) as [Hg|Hg]; [rewrite (bool_decide_true _ Hg)|rewrite (bool_decide_false _ Hg)]; by rewrite E.
  - rewrite Heq, Z.ltb_irrefl, andb_false_r, Z.leb_refl, <- Heq, Ep. cbn [mbind option_bind]. rewrite Heq, Eq. cbn [mbind option_bind].
    destruct (IH (a ++ t :: p) s (b ++ u :: q) r kernel1 f) as (k & f' & E);
      [cbn [length] in Hf |- *; rewrite !length_app in Hf; cbn [length] in Hf; rewrite ?length_app; lia|by rewrite Es; appeq|by rewrite Ec; appeq|done|done| |done|].
    { intros x y Hx Hy. rewrite Forall_forall in Bi. apply (Hpass y); [specialize (Bi y Hy); lia|done|]. intros Hx'. apply Hb; [done|]. right. apply elem_of_app. by right. }
    exists k, f'. rewrite E, Ef, filter_cons, decide_False; [done|]. intros [Hno _]. apply Hno. apply list_elem_of_fmap. exists u. split; [done|].
    rewrite Ec. apply elem_of_app. right. by left.
  - rewrite (proj2 (Z.ltb_ge (ti_pid t) (ti_pid u))), andb_false_r, (proj2 (Z.leb_gt (ti_pid t) (ti_pid u))), (proj2 (Z.leb_le (ti_pid u) (ti_pid t))), Eq by lia. cbn [mbind option_bind].
    destruct (IH a (t :: p ++ s) (b ++ u :: q) r kernel1 f) as (k & f' & E);
      [cbn [length] in Hf |- *; rewrite !length_app in Hf; cbn [length] in Hf; rewrite ?length_app; lia|done|by rewrite Ec; appeq|done|done| |done|].
    { intros x y Hx Hy. apply (Hpass y); [|done|intros Hx'; by apply Hb]. apply StronglySorted_inv in Si as [_ Si]. rewrite Forall_forall in Si.
      apply elem_of_cons in Hy as [->|Hy]; [lia|]. specialize (Si y Hy). unfold by_pid in Si. lia. }
    exists k, f'. by rewrite E.
Qed.
End scan.

(** ** A round *)

Lemma cmppid_small t u : 0 <= ti_pid t < 2 ^ 31 -> 0 <= ti_pid u < 2 ^ 31 -> psh_pm_cmppid t u = ti_pid t - ti_pid u.
Proof. intros Ht Hu. apply wraps_small; lia. Qed.

Section round.
Context {F : Type} `{PmOps F, QsortLaws}.

Lemma cmppid_sorts ts : Forall (fun t => 0 <= ti_pid t < 2 ^ 31) ts -> StronglySorted by_pid (qsort psh_pm_cmppid ts).
Proof.
  intros Hr. rewrite Forall_forall in Hr.
  assert (Hp : forall x, x ∈ qsort psh_pm_cmppid ts -> 0 <= ti_pid x < 2 ^ 31) by (intros x Hx; rewrite (qsort_perm psh_pm_cmppid ts) in Hx; by apply Hr).
  assert (Hs : Sorted (fun x y => psh_pm_cmppid x y <= 0) (qsort psh_pm_cmppid ts)).
  { apply qsort_sorted_on. split.
    - intros x y Hx Hy. rewrite !cmppid_small by auto. lia.
    - intros x y z Hx Hy Hz. rewrite !cmppid_small by auto. lia. }
  apply Sorted_StronglySorted; [intros x y z; unfold by_pid; lia|]. induction Hs as [|x l Hs IH Hx]; [done|].
  constructor; [apply IH; intros y Hy; apply Hp; by right|]. destruct Hx as [|y l Hxy]; constructor. unfold by_pid.
  rewrite cmppid_small in Hxy by (apply Hp; rewrite !elem_of_cons; tauto). lia.
Qed.

(** The threads of a system that fit into the buffer, in order, before what was there. *)
Lemma getThreads_fits fuel buf size cur (f f1 : F) : pm_threadsinfo size f = (cur, f1) -> zlen cur < size -> size <= zlen buf ->
  psh_pm_getThreads (Datatypes.S fuel) (Some buf) size f =
  Some (Some ((Some <$> qsort psh_pm_cmppid cur) ++ drop (length cur) buf), size, zlen cur, f1).
Proof.
  intros E Hlt Hle. unfold psh_pm_getThreads. cbn [threads_loop]. rewrite E.
  assert (W : forall (b : list (option threadinfo_t)) ts, length ts = length cur -> zlen b = zlen buf ->
    wr_range b 0 (Some <$> ts) = Some ((Some <$> ts) ++ drop (length cur) b)).
  { intros b ts Hl Hb. rewrite <- (take_drop (length cur) b) at 1. apply (wr_range_app [] (take (length cur) b)); [done|].
    unfold zlen in *. rewrite length_fmap, length_take. lia. }
  rewrite (W buf cur) by done. cbn [mbind option_bind]. rewrite (proj2 (Z.leb_gt size _)) by lia. cbn [mbind option_bind].
  assert (Hq : length (qsort psh_pm_cmppid cur) = length cur) by (apply Permutation_length, qsort_perm).
  rewrite W; [|done|rewrite zlen_app, zlen_fmap, zlen_drop; unfold zlen in *; lia]. cbn [mbind option_bind].
  rewrite drop_app_ge by (rewrite length_fmap; lia). rewrite length_fmap, Nat.sub_diag, drop_0. done.
Qed.

Lemma memory_silent (c : pm_t) kernel (f : F) : Forall (fun e => forall pid name, e <> Died pid name) (pm_memory c kernel f).1.
Proof.
  unfold pm_memory, psh_pm_reboot. destruct (pm_rebootNoMem c); [|done]. cbn.
  destruct (pm_maxTotal c <? _); [destruct (pm_reset f) as [? g]|]; (destruct (pm_maxKernel c <? kernel); [destruct (pm_reset _)|]); (destruct (_ || _); cbn);
    repeat constructor; done.
Qed.

Lemma info_at_first ts (junk : list (option threadinfo_t)) i : 0 <= i < zlen ts -> is_Some (info_at ((Some <$> ts) ++ junk) i).
Proof.
  intros Hi. destruct (lookup_lt_is_Some_2 ts (Z.to_nat i)) as [t Ht]; [unfold zlen in Hi; lia|]. exists t.
  unfold info_at, rd. rewrite (proj2 (Z.leb_le 0 i)), lookup_app_l, list_lookup_fmap, Ht by (rewrite ?length_fmap; unfold zlen in Hi; lia). done.
Qed.
Lemma info_at_behind ts (buf : list (option threadinfo_t)) k i : k = length ts -> zlen ts <= i -> info_at ((Some <$> ts) ++ drop k buf) i = info_at buf i.
Proof.
  intros -> Hi. unfold info_at, rd. unfold zlen in Hi. rewrite lookup_app_r, length_fmap, lookup_drop by (rewrite length_fmap; lia).
  by replace (length ts + (Z.to_nat i - length ts))%nat with (Z.to_nat i) by lia.
Qed.

(** C13: A round of the monitor stays in its buffers, ends, and reports exactly the
    processes of the start that are gone, each once and in order.  It does so when
    - the threads now running fit in the buffer with room to spare,
    - the entries of the buffer behind them, up to the number of threads at the start,
      were written by earlier rounds; with as many threads as at the start there are
      none, but a first round with fewer reads what was never written
      ([pm_last_undefined]),
    - a process whose number is as high as any of the start still runs,
    - the list of the start is sorted, as [psh_pm] leaves it, and the numbers of the
      processes are between 0 and 2^31. *)
Theorem pm_round_reports fuel (c : pm_t) ppid start ijunk cur buf size (f f1 : F) top :
  StronglySorted by_pid start -> Forall (fun t => 0 <= ti_pid t < 2 ^ 31) cur ->
  pm_threadsinfo size f = (cur, f1) -> zlen cur < size -> size <= zlen buf ->
  (forall i, zlen cur <= i < zlen start -> is_Some (info_at buf i)) ->
  top ∈ cur -> Forall (fun t => ti_pid t <= ti_pid top) start -> (length start + length cur < fuel)%nat ->
  exists mem buf' f', pm_round fuel c ppid ((Some <$> start) ++ ijunk) (zlen start) (Some buf) size f = Some (reports c ppid start cur ++ mem, buf', size, f') /\
  Forall (fun e => forall pid name, e <> Died pid name) mem.
Proof.
  intros Hs Hr E Hlt Hle Hinit Htop Hall Hf. unfold pm_round. destruct fuel as [|fuel]; [lia|].
  rewrite (getThreads_fits fuel buf size cur f f1) by done. cbn [mbind option_bind]. rewrite (proj2 (Z.ltb_ge _ 0)) by apply zlen_nonneg.
  assert (Hq : qsort psh_pm_cmppid cur ≡ₚ cur) by apply qsort_perm. pose proof (Permutation_length Hq) as Hql.
  assert (Hz : zlen (qsort psh_pm_cmppid cur) = zlen cur) by (unfold zlen; by rewrite Hql).
  destruct (pm_scan_reports c ppid (Datatypes.S fuel) start (qsort psh_pm_cmppid cur) ijunk (drop (length cur) buf) (ti_pid top)) with
    (fuel := Datatypes.S fuel) (a := @nil threadinfo_t) (li := start) (b := @nil threadinfo_t) (lj := qsort psh_pm_cmppid cur) (kernel := 0) (f := f1)
    as (kernel & f2 & Es); [lia|rewrite Hq; by apply list_elem_of_fmap_2| |rewrite Hql; lia|done|done|done|by apply cmppid_sorts|by intros x y ?%elem_of_nil|done|].
  - intros i Hi. destruct (Z.lt_ge_cases i (zlen cur)) as [Hc|Hc].
    + apply info_at_first. lia.
    + rewrite info_at_behind by lia. apply Hinit. lia.
  - rewrite Hz in Es. change (zlen (@nil threadinfo_t)) with 0 in Es. rewrite Es. cbn [mbind option_bind].
    pose proof (memory_silent c kernel f2) as Hm. destruct (pm_memory c kernel f2) as [mem f3]. cbn [fst] in Hm.
    exists mem, (Some ((Some <$> qsort psh_pm_cmppid cur) ++ drop (length cur) buf)), f3. split; [|done].
    unfold reports. do 7 f_equal. apply list_filter_iff. intros t. unfold gone. by rewrite Hq.
Qed.
End round.

(** ** An example *)

(** The lists of threads to come; the user stops the monitor behind the last one. *)
Abbreviation pm_sim := (list (list threadinfo_t)).
#[export] Instance pm_sim_ops : PmOps pm_sim := {
  pm_threadcount s := zlen (default [] (head s));
  pm_threadsinfo m s := (take (Z.to_nat m) (default [] (head s)), tail s);
  pm_alloc s := (true, s);
  pm_getppid _ := 1;
  pm_signalled s := match s with [] => true | _ => false end;
  pm_unsignal s := s;
  pm_sleep _ s := s;
  pm_meminfo _ := 4096;
  pm_reset s := (-1, s);
}.

Definition ex_t (pid : Z) (name : string) : threadinfo_t := ThreadInfo pid 100 (bstr name).
Definition ex_start : list threadinfo_t := [ex_t 0 "idle"; ex_t 0 "idle"; ex_t 1 "init"; ex_t 4 "posixsrv"; ex_t 6 "psh"; ex_t 6 "psh"].
(** [posixsrv] died; another program was started. *)
Definition ex_now : list threadinfo_t := [ex_t 6 "psh"; ex_t 0 "idle"; ex_t 7 "top"; ex_t 1 "init"; ex_t 6 "psh"; ex_t 0 "idle"].
(** [psh] died. *)
Definition ex_last : list threadinfo_t := [ex_t 0 "idle"; ex_t 0 "idle"; ex_t 1 "init"; ex_t 4 "posixsrv"].

Example pm_reports_middle : (r ← psh_pm 64 9 40 [(114, [])] [ex_start; ex_start; ex_now]; Some r.1) =
  Some ([Rebooting (bstr "monitored process died: ") (Some (bstr "posixsrv")); Died 4 (bstr "posixsrv")], EXIT_SUCCESS).
Proof. by vm_compute. Qed.

(** The death of the process with the highest number: the comparison goes on behind the
    present threads, where those of the round before still are, and nothing is reported. *)
Example pm_last_missed : (r ← psh_pm 64 9 40 [(114, [])] [ex_start; ex_start; ex_last]; Some r.1) = Some ([], EXIT_SUCCESS).
Proof. by vm_compute. Qed.

(** In the first round nothing was ever written there. *)
Example pm_last_undefined : psh_pm 64 9 40 [(114, [])] [ex_start; ex_last] = None.
Proof. by vm_compute. Qed.

(** Whatever interval is asked for, it is one second at most. *)
Lemma pm_interval_one arg c : exists c', pm_opts 64 [(116, arg)] c = inl c' /\ pm_interval c' <= 1.
Proof. destruct c. cbn. eexists. split; [done|]. cbn. lia. Qed.

Definition ex_pm : pm_t := Pm true false 1 false UINT32_MAX UINT32_MAX.

Lemma pm_round_reports_witness : exists mem buf' f',
  pm_round 40 ex_pm 1 ((Some <$> ex_start) ++ [None]) (zlen ex_start) (Some (replicate 32 None)) 32 [ex_now] =
    Some (reports ex_pm 1 ex_start ex_now ++ mem, buf', 32, f') /\
  Forall (fun e => forall pid name, e <> Died pid name) mem.
Proof.
  apply (pm_round_reports 40 ex_pm 1 ex_start [None] ex_now (replicate 32 None) 32 [ex_now] [] (ex_t 7 "top"));
    [repeat first [apply SSorted_nil | apply SSorted_cons | apply Forall_cons; split | by apply Forall_nil | vm_compute; discriminate]
    |repeat (apply Forall_cons; split; [by vm_compute|]); by apply Forall_nil|done|by vm_compute|by vm_compute
    |change (zlen ex_start) with 6; change (zlen ex_now) with 6; intros; lia
    |by right; right; left
    |repeat (apply Forall_cons; split; [vm_compute; discriminate|]); by apply Forall_nil|vm_compute; lia].
Defined.
