(* ===== verification/Record.v ===== *)
(** * Recording a profile ([prof/record.c], [prof/prof.c])

    The channels of the kernel's trace are drained into memory and written out when the
    trace has stopped.  The kernel, the clock and the file system are the class [RecOps];
    what goes into the information file is text that the operations return. *)

From S2P Require Import Prelude.
From S2P Require Import Prefix.
From S2P Require Import Clib.
From S2P Require Import Event.
From S2P Require Import ReportRun.

Definition RECORD_BUFSZ : Z := 65536.
Definition RECORD_DRAIN_MS : Z := 100.
Definition RECORD_PASS_READS : Z := 32.
Definition RECORD_MEM_MB : Z := 256.
Definition RECORD_WRITE_CHUNK : Z := 1048576.
Definition RECORD_CAP_EVENT : Z := 4194304.
Definition RECORD_CAP_META : Z := 262144.
Definition RECORD_THREADS : Z := 1024.
Definition RECORD_LIBDIRS : bytes := bstr "/bin:/sbin:/usr/bin:/usr/sbin:/lib:/usr/lib:/usr/local/bin:/usr/local/lib:/usr/libexec".
Definition PROF_DEFAULT_DIR : bytes := bstr "/tmp/prof".
Definition PROF_INFO_FILE : bytes := bstr "prof.info".
Definition PATH_MAX : Z := 4096.

(** The bytes of a channel, which are the [len] first ones of a buffer of [cap]. *)
Record record_chan_t := Chan { rc_data : bytes; rc_cap : Z }.
Definition chan_nil : record_chan_t := Chan [] 0.

Record file_id := Oid { od_port : Z; od_id : Z }.
(** The list, its capacity and the room that was allocated. *)
Record record_oids_t := Oids { os_oids : list file_id; os_cap : Z; os_room : Z }.
Definition oids_nil : record_oids_t := Oids [] 0 0.

(** A mapping of a process; [en_oid] where a file is mapped. *)
Record entryinfo_t := Entry { en_vaddr : Z; en_size : Z; en_offs : Z; en_prot : Z; en_oid : option file_id }.
Record thread_t := Thread { t_tid : Z; t_pid : Z; t_ppid : Z; t_name : bytes }.

Record perf_trace_cfg_t := Cfg {
  cf_samplePeriodUs : Z; cf_depth : Z; cf_sampleStack : Z; cf_waitStack : Z; cf_waitMinUs : Z; cf_waitStackMinUs : Z; cf_events : Z }.

(** Constants of the kernel's interface. *)
Class PerfTrace := {
  trace_channel_meta : Z;
  trace_channel_count : Z;
  PERF_TRACE_FLAG_SAMPLE : Z;
  PERF_TRACE_FLAG_ROLLING : Z;
  PERF_TRACE_EV_PROFILE : Z;
  PERF_TRACE_EV_SCHED : Z;
  PERF_TRACE_EV_SYSCALL : Z;
  PERF_TRACE_EV_LOCK : Z;
  PERF_TRACE_EV_IRQ : Z;
  PERF_TRACE_DEPTH_MAX : Z;
  PERF_TRACE_USTACK_MAX : Z;
  PERF_TRACE_WAITSTACK_DEFERRED_MAX : Z;
}.

Class RecOps (F : Type) := {
  rec_perf_start : Z -> perf_trace_cfg_t -> F -> Z * F;
  (** From the buffer of a channel. *)
  rec_perf_read : Z -> Z -> F -> (Z * bytes) * F;
  rec_perf_stop : F -> F;
  rec_perf_finish : F -> F;
  rec_alloc : F -> bool * F;
  (** Seconds and nanoseconds. *)
  rec_clock : F -> (Z * Z) * F;
  rec_usleep : Z -> F -> F;
  rec_stopped : F -> bool;
  (** Files are opened for writing and truncated. *)
  rec_open : bytes -> F -> Z * F;
  rec_write : Z -> bytes -> F -> Z * F;
  rec_close : Z -> F -> Z * F;
  (** Whether it is a regular file, its device and its number. *)
  rec_stat : bytes -> F -> option (bool * Z * Z) * F;
  rec_mkdir : bytes -> F -> Z * F;
  rec_fopen : bytes -> F -> bool * F;
  rec_fclose : bytes -> bytes -> F -> F;
  rec_readdir : bytes -> F -> option (list bytes) * F;
  rec_threadsinfo : Z -> F -> list thread_t * F;
  (** The mappings of a process that fit, and how many there are. *)
  rec_meminfo : Z -> Z -> F -> (list entryinfo_t * Z) * F;
  rec_getpid : F -> Z;
}.

Section record.
Context {F : Type} `{RecOps F, PerfTrace}.

Definition record_nowMs (f : F) : Z * F :=
  let '((sec, nsec), f) := rec_clock f in (u64 (sec * 1000 + nsec / 1000000), f).

(** ** Channels *)

(** [while (cap < need) cap *= 2]; [size_t] has 64 bits. *)
Fixpoint cap_loop (fuel : nat) (cap need : Z) : option Z :=
  match fuel with
  | O => None
  | Datatypes.S fuel => if cap <? need then cap_loop fuel (u64 (cap * 2)) need else Some cap
  end.

Definition record_append (c : record_chan_t) (meta : bool) (buf : bytes) (f : F) : option (Z * record_chan_t * F) :=
  let len := zlen (rc_data c) in
  let n := zlen buf in
  '(ok, c, f) ← (if rc_cap c <? len + n then
    cap ← cap_loop 65 (if rc_cap c =? 0 then if meta then RECORD_CAP_META else RECORD_CAP_EVENT else rc_cap c) (len + n);
    let '(ok, f) := rec_alloc f in
    Some (ok, if ok : bool then Chan (rc_data c) cap else c, f)
  else Some (true, c, f));
  if negb ok then Some (- ENOMEM, c, f)
  else if len + n <=? rc_cap c then Some (0, Chan (rc_data c ++ buf) (rc_cap c), f)
  else None.

Definition is_meta (i : Z) : bool := i mod trace_channel_count =? trace_channel_meta.

(** The reads of one channel from the [k]-th on. *)
Fixpoint drain_reads (fuel : nat) (i : Z) (bounded : bool) (limit k : Z) (c : record_chan_t) (total : Z) (f : F)
    : option (Z * record_chan_t * Z * F) :=
  match fuel with
  | O => None
  | Datatypes.S fuel =>
      if negb bounded || (k <? RECORD_PASS_READS) then
        if limit <? total + RECORD_BUFSZ then Some (- ENOSPC, c, total, f)
        else
          let '((n, buf), f) := rec_perf_read i RECORD_BUFSZ f in
          if n <? 0 then Some (n, c, total, f)
          else
            '(err, c, f) ← (if 0 <? n then record_append c (is_meta i) buf f else Some (0, c, f));
            if err <? 0 then Some (- ENOSPC, c, total, f)
            else
              let total := total + n in
              if n <? RECORD_BUFSZ then Some (0, c, total, f)
              else drain_reads fuel i bounded limit (u32 (k + 1)) c total f
      else Some (0, c, total, f)
  end.

(** The channels from the [i]-th on. *)
Fixpoint record_drain (fuel : nat) (i : Z) (chans : list record_chan_t) (total limit : Z) (bounded : bool) (f : F)
    : option (Z * list record_chan_t * Z * F) :=
  match chans with
  | [] => Some (0, [], total, f)
  | c :: chans =>
      '(err, c, total, f) ← drain_reads fuel i bounded limit 0 c total f;
      if err <? 0 then Some (err, c :: chans, total, f)
      else
        '(err, chans, total, f) ← record_drain fuel (i + 1) chans total limit bounded f;
        Some (err, c :: chans, total, f)
  end.

(** ** Files *)

Fixpoint rec_write_loop (fuel : nat) (fd : Z) (data : bytes) (f : F) : option (bool * F) :=
  match fuel with
  | O => None
  | Datatypes.S fuel =>
      if 0 <? zlen data then
        let n := if zlen data <? RECORD_WRITE_CHUNK then zlen data else RECORD_WRITE_CHUNK in
        let '(ret, f) := rec_write fd (take (Z.to_nat n) data) f in
        if ret <=? 0 then if (ret <? 0) && (ret =? - EINTR) then rec_write_loop fuel fd data f else Some (false, f)
        else rec_write_loop fuel fd (drop (Z.to_nat ret) data) f
      else Some (true, f)
  end.

Definition record_writeFile (fuel : nat) (path data : bytes) (f : F) : option (Z * F) :=
  let '(fd, f) := rec_open path f in
  if fd <? 0 then Some (-1, f)
  else
    '(ok, f) ← rec_write_loop fuel fd data f;
    let '(r, f) := rec_close fd f in
    Some (if negb ok then -1 else if r <? 0 then -1 else 0, f).

Definition channel_path (dir : bytes) (i : Z) : bytes :=
  snprintf PATH_MAX (dir ++ [47] ++ (if is_meta i then bstr "channel_meta" else bstr "channel_event") ++ dec (i / trace_channel_count)).

(** The files of the channels from the [i]-th on; [err] is what is returned so far. *)
Fixpoint record_write (fuel : nat) (dir : bytes) (i : Z) (chans : list record_chan_t) (err : Z) (f : F) : option (Z * F) :=
  match chans with
  | [] => Some (err, f)
  | c :: chans =>
      '(r, f) ← record_writeFile fuel (channel_path dir i) (rc_data c) f;
      record_write fuel dir (i + 1) chans (if r <? 0 then -1 else err) f
  end.

(** ** What is said of the processes *)

(** A capacity that grew without memory is kept: [None] is a write behind the room. *)
Definition record_oidAdd (o : record_oids_t) (oid : file_id) (f : F) : option (record_oids_t * F) :=
  if existsb (fun x => (od_port x =? od_port oid) && (od_id x =? od_id oid)) (os_oids o) then Some (o, f)
  else
    let n := zlen (os_oids o) in
    let '(ok, o, f) :=
      if n =? os_cap o then
        let cap := if os_cap o =? 0 then 64 else os_cap o * 2 in
        let '(ok, f) := rec_alloc f in
        (ok, Oids (os_oids o) cap (if ok : bool then cap else os_room o), f)
      else (true, o, f) in
    if negb ok then Some (o, f)
    else if n <? os_room o then Some (Oids (os_oids o ++ [oid]) (os_cap o) (os_room o), f)
    else None.

(** The mappings of a process, or none without memory. *)
Fixpoint maps_loop (fuel : nat) (pid mapsz : Z) (f : F) : option (option (list entryinfo_t) * F) :=
  match fuel with
  | O => None
  | Datatypes.S fuel =>
      let '(ok, f) := rec_alloc f in
      if negb ok then Some (None, f)
      else
        let '((map, n), f) := rec_meminfo pid mapsz f in
        if n <=? mapsz then Some (Some (take (Z.to_nat n) map), f) else maps_loop fuel pid n f
  end.

Fixpoint maps_lines (pid : Z) (map : list entryinfo_t) (o : record_oids_t) (f : F) : option (bytes * record_oids_t * F) :=
  match map with
  | [] => Some ([], o, f)
  | e :: map =>
      match en_oid e with
      | Some oid =>
          let line := bstr "map " ++ print_int pid ++ bstr " 0x" ++ hex_pad 1 (en_vaddr e) ++ bstr " 0x" ++ hex_pad 1 (en_size e) ++
            bstr " 0x" ++ hex_pad 1 (en_offs e) ++ [32] ++ dec (en_prot e) ++ [32] ++ dec (od_port oid) ++ [32] ++ dec (od_id oid) ++ [10] in
          '(o, f) ← record_oidAdd o oid f;
          '(text, o, f) ← maps_lines pid map o f;
          Some (line ++ text, o, f)
      | None => maps_lines pid map o f
      end
  end.

Definition record_maps (fuel : nat) (pid : Z) (o : record_oids_t) (f : F) : option (bytes * record_oids_t * F) :=
  '(map, f) ← maps_loop fuel pid 16 f;
  match map with Some map => maps_lines pid map o f | None => Some ([], o, f) end.

(** [seen]: the processes of the threads before. *)
Fixpoint processes_maps (fuel : nat) (seen : list Z) (ts : list thread_t) (o : record_oids_t) (f : F) : option (bytes * record_oids_t * F) :=
  match ts with
  | [] => Some ([], o, f)
  | t :: ts =>
      '(a, o, f) ← (if bool_decide (t_pid t ∉ seen) && (0 <? t_pid t) then record_maps fuel (t_pid t) o f else Some ([], o, f));
      '(b, o, f) ← processes_maps fuel (t_pid t :: seen) ts o f;
      Some (a ++ b, o, f)
  end.

Definition thread_line (tag : bytes) (t : thread_t) : bytes :=
  tag ++ [32] ++ dec (t_tid t) ++ [32] ++ print_int (t_pid t) ++ [32] ++ print_int (t_ppid t) ++ [32] ++ take 128 (t_name t) ++ [10].

Definition record_processes (fuel : nat) (tag : bytes) (o : record_oids_t) (f : F) : option (bytes * record_oids_t * F) :=
  let '(ok, f) := rec_alloc f in
  if negb ok then Some ([], o, f)
  else
    let '(ts, f) := rec_threadsinfo RECORD_THREADS f in
    '(text, o, f) ← processes_maps fuel [] ts o f;
    Some (concat (thread_line tag <$> ts) ++ text, o, f).

(** The entries of a directory: the lines and how many files were found. *)
Fixpoint dir_lines (dir : bytes) (names : list bytes) (o : record_oids_t) (found : Z) (f : F) : bytes * Z * F :=
  match names with
  | [] => ([], found, f)
  | name :: names =>
      let path := snprintf PATH_MAX (dir ++ [47] ++ name) in
      let '(st, f) := rec_stat path f in
      let hit := match st with
                 | Some (true, dev, ino) => List.find (fun x => (od_port x =? dev) && (od_id x =? ino)) (os_oids o)
                 | _ => None
                 end in
      match hit with
      | Some x =>
          let '(text, found, f) := dir_lines dir names o (found + 1) f in
          (bstr "file " ++ dec (od_port x) ++ [32] ++ dec (od_id x) ++ [32] ++ path ++ [10] ++ text, found, f)
      | None => dir_lines dir names o found f
      end
  end.

(** The parts between separators; empty ones are skipped. *)
Fixpoint split_on (c : Z) (s acc : bytes) : list bytes :=
  match s with
  | [] => match acc with [] => [] | _ => [reverse acc] end
  | x :: s => if x =? c then match acc with [] => split_on c s [] | _ => reverse acc :: split_on c s [] end else split_on c s (x :: acc)
  end.

Fixpoint dirs_lines (dirs : list bytes) (o : record_oids_t) (found : Z) (f : F) : bytes * F :=
  match dirs with
  | [] => ([], f)
  | dir :: dirs =>
      if found <? zlen (os_oids o) then
        let '(names, f) := rec_readdir dir f in
        match names with
        | None => dirs_lines dirs o found f
        | Some names =>
            let '(a, found, f) := dir_lines dir names o found f in
            let '(b, f) := dirs_lines dirs o found f in
            (a ++ b, f)
        end
      else ([], f)
  end.

Definition record_files (dirs : bytes) (o : record_oids_t) (f : F) : bytes * F :=
  let '(ok, f) := rec_alloc f in
  if negb ok then ([], f) else dirs_lines (split_on 58 dirs []) o 0 f.

(** ** Options *)

Definition class_names : list (bytes * Z) := [
  (bstr "sched", PERF_TRACE_EV_SCHED); (bstr "syscall", PERF_TRACE_EV_SYSCALL); (bstr "lock", PERF_TRACE_EV_LOCK); (bstr "irq", PERF_TRACE_EV_IRQ);
  (bstr "all", Z.lor (Z.lor (Z.lor PERF_TRACE_EV_SCHED PERF_TRACE_EV_SYSCALL) PERF_TRACE_EV_LOCK) PERF_TRACE_EV_IRQ)].

Fixpoint classes_loop (fuel : nat) (p : bytes) (classes : Z) : option Z :=
  match fuel, p with
  | _, [] => Some classes
  | O, _ => None
  | Datatypes.S fuel, _ =>
      let '(name, rest) := match split_chr p 44 with Some (a, b) => (a, drop 1 b) | None => (p, []) end in
      match List.find (fun x => strcmp (fst x) name =? 0) class_names with
      | Some x => classes_loop fuel rest (Z.lor classes (snd x))
      | None => None
      end
  end.
(** Every step takes a character at least; [None] is [-1]. *)
Definition record_classes (list : bytes) (classes : Z) : option Z := classes_loop (length list) list classes.

Record rec_opts_t := RecOpts {
  ro_secs : Z; ro_dir : bytes; ro_pid : Z; ro_cfg : perf_trace_cfg_t; ro_extra : Z; ro_memMb : Z; ro_rolling : bool; ro_libdirs : bytes }.

Definition rec_defaults : rec_opts_t :=
  RecOpts 10 PROF_DEFAULT_DIR 0 (Cfg 2000 16 512 512 1000 10000 0) 0 RECORD_MEM_MB false RECORD_LIBDIRS.

(** [(unsigned int)strtoul(arg, NULL, 0)] *)
Definition rec_ui (arg : bytes) : Z := u32 (default 0 (fst <$> strtoul 64 arg)).

Definition rec_opt (c : Z) (arg : bytes) (o : rec_opts_t) : option rec_opts_t :=
  let 'RecOpts secs dir pid cfg extra mem rolling libs := o in
  let 'Cfg period depth ss ws wmin wsmin ev := cfg in
  if c =? 116 then Some (RecOpts (rec_ui arg) dir pid cfg extra mem rolling libs)
  else if c =? 111 then Some (RecOpts secs arg pid cfg extra mem rolling libs)
  else if c =? 112 then Some (RecOpts secs dir (s32 (strtol arg)) cfg extra mem rolling libs)
  else if c =? 102 then Some (RecOpts secs dir pid (Cfg (rec_ui arg) depth ss ws wmin wsmin ev) extra mem rolling libs)
  else if c =? 100 then Some (RecOpts secs dir pid (Cfg period (rec_ui arg) ss ws wmin wsmin ev) extra mem rolling libs)
  else if c =? 115 then Some (RecOpts secs dir pid (Cfg period depth (rec_ui arg) ws wmin wsmin ev) extra mem rolling libs)
  else if c =? 119 then Some (RecOpts secs dir pid (Cfg period depth ss (rec_ui arg) wmin wsmin ev) extra mem rolling libs)
  else if c =? 98 then Some (RecOpts secs dir pid (Cfg period depth ss ws (rec_ui arg) wsmin ev) extra mem rolling libs)
  else if c =? 66 then Some (RecOpts secs dir pid (Cfg period depth ss ws wmin (rec_ui arg) ev) extra mem rolling libs)
  else if c =? 101 then extra ← record_classes arg extra; Some (RecOpts secs dir pid cfg extra mem rolling libs)
  else if c =? 77 then Some (RecOpts secs dir pid cfg extra (rec_ui arg) rolling libs)
  else if c =? 114 then Some (RecOpts secs dir pid cfg extra mem true libs)
  else if c =? 76 then Some (RecOpts secs dir pid cfg extra mem rolling arg)
  else None.

Fixpoint rec_getopts (opts : list (Z * bytes)) (o : rec_opts_t) : option rec_opts_t :=
  match opts with
  | [] => Some o
  | (c, arg) :: opts => o ← rec_opt c arg o; rec_getopts opts o
  end.

(** The check of the arguments, and the configuration with its events. *)
Definition rec_bad (o : rec_opts_t) : bool :=
  let c := ro_cfg o in
  (ro_secs o =? 0) || (ro_memMb o =? 0) || (PERF_TRACE_DEPTH_MAX <? cf_depth c) || (PERF_TRACE_USTACK_MAX <? cf_sampleStack c) ||
  ((if negb (cf_waitMinUs c =? 0) then PERF_TRACE_WAITSTACK_DEFERRED_MAX else PERF_TRACE_USTACK_MAX) <? cf_waitStack c).

Definition rec_events (o : rec_opts_t) : perf_trace_cfg_t :=
  let 'Cfg period depth ss ws wmin wsmin _ := ro_cfg o in
  Cfg period depth ss ws wmin wsmin
    (Z.lor (Z.lor PERF_TRACE_EV_PROFILE (ro_extra o)) (if wmin =? 0 then PERF_TRACE_EV_SCHED else 0)).

Definition record_info (pid : Z) (c : perf_trace_cfg_t) (secs ncpus : Z) : bytes :=
  bstr "version 3" ++ [10] ++ bstr "pid " ++ print_int pid ++ [10] ++ bstr "cpus " ++ print_int ncpus ++ [10] ++ bstr "seconds " ++ dec secs ++ [10] ++
  bstr "period_us " ++ dec (cf_samplePeriodUs c) ++ [10] ++ bstr "depth " ++ dec (cf_depth c) ++ [10] ++
  bstr "sample_stack " ++ dec (cf_sampleStack c) ++ [10] ++ bstr "wait_stack " ++ dec (cf_waitStack c) ++ [10] ++
  bstr "wait_min_us " ++ dec (cf_waitMinUs c) ++ [10] ++ bstr "wait_stack_min_us " ++ dec (cf_waitStackMinUs c) ++ [10] ++
  bstr "events 0x" ++ hex_pad 1 (cf_events c) ++ [10].

(** ** Recording *)

(** Passes over the channels until the deadline, a signal or an error. *)
Fixpoint record_loop (rounds fuel : nat) (rolling : bool) (limit deadline err now : Z) (chans : list record_chan_t) (total : Z) (f : F)
    : option (Z * list record_chan_t * Z * F) :=
  match rounds with
  | O => None
  | Datatypes.S rounds =>
      if (err =? 0) && negb (rec_stopped f) && (now <? deadline) then
        '(err, chans, total, f) ← (if rolling then Some (err, chans, total, f) else record_drain fuel 0 chans total limit true f);
        let '(now, f) := record_nowMs f in
        let f := if (err =? 0) && (now <? deadline)
                 then rec_usleep (u32 ((if deadline - now <? RECORD_DRAIN_MS then deadline - now else RECORD_DRAIN_MS) * 1000)) f else f in
        let '(now, f) := record_nowMs f in
        record_loop rounds fuel rolling limit deadline err now chans total f
      else Some (err, chans, total, f)
  end.

(** The event mix of the channels from the [i]-th on. *)
Fixpoint mix_chans (i : Z) (chans : list record_chan_t) (mix : prof_mix_t) : option prof_mix_t :=
  match chans with
  | [] => Some mix
  | c :: chans => mix ← prof_mixAdd mix (rc_data c) (zlen (rc_data c)) (i / trace_channel_count); mix_chans (i + 1) chans mix
  end.

(** The exit code, whether the recording was cut short, and the event mix. *)
Record rec_result := RecResult { rr_code : Z; rr_full : bool; rr_mix : option (list mix_row) }.
Definition rec_error : rec_result := RecResult 1 false None.

(** From the start of the trace to its end: an error, whether the limit was reached, the
    channels, and the milliseconds that were recorded. *)
Definition record_trace (fuel : nat) (o : rec_opts_t) (nchans : Z) (f : F) : option (Z * bool * option (list record_chan_t) * Z * F) :=
  let limit := Z.shiftl (ro_memMb o) 20 in
  let '(ok, f) := rec_alloc f in
  let chans := if ok : bool then Some (replicate (Z.to_nat nchans) chan_nil) else None in
  let '(start, f) := record_nowMs f in
  let deadline := u64 (start + ro_secs o * 1000) in
  '(err, cs, total, f) ← record_loop fuel fuel (ro_rolling o) limit deadline (if ok : bool then 0 else - ENOMEM) start (default [] chans) 0 f;
  let full := err =? - ENOSPC in
  let err := if full then 0 else err in
  let f := rec_perf_stop f in
  let '(stopped, f) := record_nowMs f in
  '(err, full, cs, f) ← (if (err =? 0) && ok then
    '(err, cs, total, f) ← record_drain fuel 0 cs total limit false f;
    Some (if err =? - ENOSPC then 0 else err, full || (err =? - ENOSPC), cs, f)
  else Some (err, full, cs, f));
  Some (err, full, if ok : bool then Some cs else None, stopped - start, rec_perf_finish f).

(** What is printed of the recording, and its files. *)
Definition record_finish (fuel : nat) (o : rec_opts_t) (nchans err : Z) (full : bool) (chans : option (list record_chan_t)) (ms : Z)
    (text : bytes) (oids : record_oids_t) (f : F) : option (rec_result * F) :=
  let '(ok, f) := rec_alloc f in
  mix ← (match chans with
         | Some cs =>
             if ok : bool then
               mix ← mix_chans 0 cs mix_init; rows ← prof_mixPrint mix (nchans / trace_channel_count); Some (Some rows)
             else Some None
         | None => Some None
         end);
  let text := text ++ bstr "self " ++ print_int (rec_getpid f) ++ [10] ++
    record_info (ro_pid o) (rec_events o) (ro_secs o) (nchans / trace_channel_count) ++ bstr "recorded_ms " ++ dec (u64 ms) ++ [10] in
  '(err, f) ← (match chans with
               | Some cs => '(r, f) ← record_write fuel (ro_dir o) 0 cs 0 f; Some (if r <? 0 then - EIO else err, f)
               | None => Some (err, f)
               end);
  '(t1, oids, f) ← record_processes fuel (bstr "thread-end") oids f;
  let '(t2, f) := record_files (ro_libdirs o) oids f in
  let f := rec_fclose (snprintf PATH_MAX (ro_dir o ++ [47] ++ PROF_INFO_FILE)) (text ++ t1 ++ t2) f in
  Some (RecResult (if err =? 0 then 0 else 1) full mix, f).

Definition prof_record (fuel : nat) (opts : list (Z * bytes)) (f : F) : option (rec_result * F) :=
  match rec_getopts opts rec_defaults with
  | None => Some (rec_error, f)
  | Some o =>
      if rec_bad o then Some (rec_error, f)
      else
        let '(st, f) := rec_stat (ro_dir o) f in
        let '(r, f) := match st with None => rec_mkdir (ro_dir o) f | Some _ => (0, f) end in
        if r <? 0 then Some (rec_error, f)
        else
          let '(ok, f) := rec_alloc f in
          if negb ok then Some (rec_error, f)
          else
            let path := snprintf PATH_MAX (ro_dir o ++ [47] ++ PROF_INFO_FILE) in
            let '(ok, f) := rec_fopen path f in
            if negb ok then Some (rec_error, f)
            else
              '(text, oids, f) ← record_processes fuel (bstr "thread") oids_nil f;
              let flags := if ro_rolling o then Z.lor PERF_TRACE_FLAG_SAMPLE PERF_TRACE_FLAG_ROLLING else PERF_TRACE_FLAG_SAMPLE in
              let '(nchans, f) := rec_perf_start flags (rec_events o) f in
              if nchans <? 0 then Some (rec_error, rec_fclose path text f)
              else
                '(err, full, chans, ms, f) ← record_trace fuel o nchans f;
                record_finish fuel o nchans err full chans ms text oids f
  end.

(** [main] of [prof]: the report is another part. *)
Definition prof_main (report : list bytes -> F -> option (Z * F)) (record : list bytes -> F -> option (Z * F)) (args : list bytes) (f : F)
    : option (Z * F) :=
  match args with
  | cmd :: args =>
      if strcmp cmd (bstr "record") =? 0 then record args f
      else if strcmp cmd (bstr "report") =? 0 then report args f
      else Some (1, f)
  | [] => Some (1, f)
  end.
End record.
