(* ===== verification/RecordSpec.v ===== *)
(** * What a recording keeps of the trace

    A kernel that traces, a clock and a file system whose calls may fail.  A recording
    that ends without an error has written, for every channel, what the kernel traced: all
    of it unless it was cut short at its limit. *)

From stdpp Require Import sorting.
From S2P Require Import Prelude.
From S2P Require Import Prefix.
From S2P Require Import Clib.
From S2P Require Import Event.
From S2P Require Import EventSpec.
From S2P Require Import PcHist.
From S2P Require Import Report.
From S2P Require Import ReportRun.
From S2P Require Import ReportRunSpec.
From S2P Require Import ReportRows.
From S2P Require Import Record.

(** ** The system *)

(** What was traced on a channel and what of it was read, whether the trace runs, the
    time in milliseconds, files and descriptors, and how often writes will still be
    interrupted.  There are [rv_nchans] channels, and no process has more than [rv_maps]
    mappings. *)
Class RecView (F : Type) := {
  rv_log : F -> Z -> bytes;
  rv_taken : F -> Z -> bytes;
  rv_run : F -> bool;
  rv_now : F -> Z;
  rv_file : F -> bytes -> option bytes;
  rv_fd : F -> Z -> option bytes;
  rv_work : F -> nat;
  rv_nchans : Z;
  rv_maps : Z;
}.

(** Time passes, the trace goes on if it runs, and the files in [P] stay as they are. *)
Record later `{RecView F} (P : bytes -> Prop) (f f' : F) : Prop := {
  la_now : rv_now f <= rv_now f';
  la_run : rv_run f' = rv_run f;
  la_log : forall i, rv_log f i `prefix_of` rv_log f' i;
  la_still : rv_run f = false -> forall i, rv_log f' i = rv_log f i;
  la_work : (rv_work f' <= rv_work f)%nat;
  la_file : forall p, P p -> rv_file f' p = rv_file f p;
}.
Definition anything (p : bytes) : Prop := True.
(** Nothing is read from the trace either. *)
Definition idle `{RecView F} (P : bytes -> Prop) (f f' : F) : Prop := later P f f' /\ forall i, rv_taken f' i = rv_taken f i.

(** Memory suffices.  Every other call may fail, reads give what is there, and writes a
    part of what was given.  Asking for memory or the time is quick, and a trace starts
    when the clock, which stands at its end, has far to go. *)
Class RecLaws (F : Type) `{RecOps F, PerfTrace, RecView F} : Prop := {
  rl_chans : 0 <= rv_nchans < 2 ^ 31;
  rl_alloc f : exists f', rec_alloc f = (true, f') /\ idle anything f f' /\ rv_now f' <= rv_now f + 2 ^ 32;
  rl_start flags cfg f : let '(n, f') := rec_perf_start flags cfg f in
    (rv_work f' <= rv_work f)%nat /\ rv_now f <= rv_now f' /\
    (0 <= n -> n = rv_nchans /\ rv_now f' < 2 ^ 61 /\ rv_run f' = true /\ forall i, rv_taken f' i = [] /\ rv_log f' i = []);
  rl_read i f : let '((n, data), f') := rec_perf_read i RECORD_BUFSZ f in later anything f f' /\ (forall j, j <> i -> rv_taken f' j = rv_taken f j) /\
    if n <? 0 then rv_taken f' i = rv_taken f i
    else zlen data = n /\ n <= RECORD_BUFSZ /\ is_bytes data /\ rv_taken f' i = rv_taken f i ++ data /\ rv_taken f' i `prefix_of` rv_log f' i /\
         (n < RECORD_BUFSZ -> rv_run f = false -> rv_taken f' i = rv_log f' i);
  rl_stop f : let f' := rec_perf_stop f in rv_run f' = false /\ (forall i, rv_taken f' i = rv_taken f i) /\
    (forall i, rv_log f i `prefix_of` rv_log f' i) /\ rv_now f <= rv_now f' /\ (rv_work f' <= rv_work f)%nat;
  rl_finish f : idle anything f (rec_perf_finish f);
  rl_clock f : let '((sec, nsec), f') := rec_clock f in
    0 <= rv_now f' < 2 ^ 63 /\ rv_now f' = sec * 1000 + nsec / 1000000 /\ idle anything f f' /\ rv_now f' <= rv_now f + 2 ^ 32;
  rl_usleep us f : 0 <= us -> idle anything f (rec_usleep us f) /\ Z.min (rv_now f + us / 1000) (2 ^ 62) <= rv_now (rec_usleep us f);
  rl_open p f : let '(fd, f') := rec_open p f in idle (fun q => q <> p) f f' /\ (0 <= fd -> rv_fd f' fd = Some p /\ rv_file f' p = Some []);
  rl_write fd p c data f : rv_fd f fd = Some p -> rv_file f p = Some c -> 0 < zlen data -> let '(r, f') := rec_write fd data f in
    rv_fd f' fd = Some p /\
    if r <? 0 then idle anything f f' /\ (r = - EINTR -> (rv_work f' < rv_work f)%nat)
    else r <= zlen data /\ idle (fun q => q <> p) f f' /\ rv_file f' p = Some (c ++ take (Z.to_nat r) data);
  rl_close fd f : idle anything f (rec_close fd f).2;
  rl_stat p f : idle anything f (rec_stat p f).2;
  rl_mkdir p f : idle anything f (rec_mkdir p f).2;
  rl_fopen p f : idle (fun q => q <> p) f (rec_fopen p f).2;
  rl_fclose p text f : idle (fun q => q <> p) f (rec_fclose p text f);
  rl_readdir p f : idle anything f (rec_readdir p f).2;
  rl_threads n f : idle anything f (rec_threadsinfo n f).2;
  rl_meminfo pid n f : let '((map, k), f') := rec_meminfo pid n f in k <= rv_maps /\ idle anything f f';
}.

Section laws.
Context {F : Type} `{RecLaws F}.

Lemma later_refl P (f : F) : later P f f.
Proof. by split. Qed.
Lemma later_trans P (f g h : F) : later P f g -> later P g h -> later P f h.
Proof.
  intros [A1 A2 A3 A4 A5 A6] [B1 B2 B3 B4 B5 B6]. split; [lia|congruence|intros i; transitivity (rv_log g i); auto| |lia|intros p Hp; by rewrite B6, A6].
  intros Hr i. rewrite B4 by congruence. by apply A4.
Qed.
Lemma later_weaken (P Q : bytes -> Prop) (f g : F) : (forall p, Q p -> P p) -> later P f g -> later Q f g.
Proof. intros HPQ []. split; auto. Qed.

Lemma idle_refl P (f : F) : idle P f f.
Proof. split; [apply later_refl|done]. Qed.
Lemma idle_trans P (f g h : F) : idle P f g -> idle P g h -> idle P f h.
Proof. intros [A B] [C D]. split; [by eapply later_trans|congruence]. Qed.
Lemma idle_all P (f g : F) : idle anything f g -> idle P f g.
Proof. intros [A B]. split; [|done]. by apply (later_weaken anything); [intros; exact I|]. Qed.
Lemma idle_weaken (P Q : bytes -> Prop) (f g : F) : (forall p, Q p -> P p) -> idle P f g -> idle Q f g.
Proof. intros HPQ [A B]. split; [|done]. by apply (later_weaken P). Qed.
Hint Resolve idle_refl idle_all : core.

(** Calls of which only the passing of time is of interest. *)
Lemma now_ok (f : F) : exists f', record_nowMs f = (rv_now f', f') /\ idle anything f f' /\ 0 <= rv_now f' < 2 ^ 63 /\ rv_now f' <= rv_now f + 2 ^ 32.
Proof.
  unfold record_nowMs. pose proof (rl_clock f) as L. destruct (rec_clock f) as [[sec nsec] f']. destruct L as (Hr & E & I & Hq).
  exists f'. rewrite E. split; [|by split_and!; lia || done]. f_equal. apply wrapu_small. lia.
Qed.

(** ** Draining *)

Definition chan_ok (f : F) (i : Z) (c : record_chan_t) : Prop :=
  rc_data c = rv_taken f i /\ is_bytes (rc_data c) /\ 0 <= rc_cap c < 2 ^ 62 /\ zlen (rc_data c) <= rc_cap c /\ rv_taken f i `prefix_of` rv_log f i.

Lemma cap_loop_ok fuel : forall cap need, 0 < cap < 2 ^ 62 -> need < 2 ^ 61 -> need <= cap * 2 ^ (Z.of_nat fuel) ->
  exists cap', cap_loop (Datatypes.S fuel) cap need = Some cap' /\ need <= cap' /\ 0 <= cap' < 2 ^ 62.
Proof.
  induction fuel as [|fuel IH]; intros cap need Hc Hn Hf; rewrite (eq_refl : cap_loop (Datatypes.S _) cap need = if cap <? need then cap_loop _ (u64 (cap * 2)) need else Some cap);
    (destruct (Z.ltb_spec cap need) as [Hlt|Hge]; [|exists cap; split_and!; by (done || lia)]).
  - change (2 ^ Z.of_nat 0) with 1 in Hf. lia.
  - rewrite wrapu_small by lia. apply IH; [lia|done|]. rewrite Nat2Z.inj_succ, Z.pow_succ_r in Hf by lia. lia.
Qed.

Lemma append_ok (f f0 : F) i c meta buf : chan_ok f0 i c -> zlen (rc_data c) + zlen buf < 2 ^ 61 -> is_bytes buf ->
  exists c' f', record_append c meta buf f = Some (0, c', f') /\ idle anything f f' /\ rc_data c' = rc_data c ++ buf /\
  0 <= rc_cap c' < 2 ^ 62 /\ zlen (rc_data c') <= rc_cap c'.
Proof.
  intros (_ & Hb & Hcap & Hlen & _) Hmax Hbuf. unfold record_append. set (len := zlen (rc_data c)) in *. pose proof (zlen_nonneg buf). pose proof (zlen_nonneg (rc_data c)).
  destruct (Z.ltb_spec (rc_cap c) (len + zlen buf)) as [Hlt|Hge].
  - set (cap0 := if rc_cap c =? 0 then _ else _).
    assert (Hc0 : 0 < cap0 < 2 ^ 62) by (unfold cap0, RECORD_CAP_META, RECORD_CAP_EVENT; destruct (Z.eqb_spec (rc_cap c) 0); [destruct meta|]; lia).
    destruct (cap_loop_ok 64 cap0 (len + zlen buf)) as (cap & -> & Hneed & Hcap'); [done|done|change (2 ^ Z.of_nat 64) with (2 ^ 64); lia|].
    cbn [mbind option_bind]. destruct (rl_alloc f) as (f1 & -> & I & _). cbn [negb mbind option_bind rc_cap rc_data].
    rewrite (proj2 (Z.leb_le _ _)) by lia. eexists _, f1. split; [done|]. cbn. rewrite zlen_app. split_and!; try done; lia.
  - cbn [negb mbind option_bind]. rewrite (proj2 (Z.leb_le _ _)) by lia. eexists _, f. split; [done|]. cbn. rewrite zlen_app.
    split_and!; try done; lia.
Qed.

(** One channel: what is read is behind what was, and [total] counts it. *)
Lemma drain_reads_ok fuel i bounded limit : forall k c total (f : F), chan_ok f i c -> 0 <= total <= limit -> limit < 2 ^ 60 -> zlen (rc_data c) <= total ->
  limit < total + RECORD_BUFSZ * Z.of_nat fuel -> exists err c' total' f',
  drain_reads fuel i bounded limit k c total f = Some (err, c', total', f') /\ later anything f f' /\ (forall j, j <> i -> rv_taken f' j = rv_taken f j) /\
  chan_ok f' i c' /\ total' - zlen (rc_data c') = total - zlen (rc_data c) /\ total <= total' <= limit /\
  (err = 0 -> bounded = false -> rv_run f = false -> rv_taken f' i = rv_log f' i) /\ err <= 0.
Proof.
  induction fuel as [|fuel IH]; intros k c total f Hc Ht Hl Hle Hf; [lia|]. cbn [drain_reads].
  destruct (negb bounded || (k <? RECORD_PASS_READS)) eqn:Eb.
  2:{ exists 0, c, total, f. split_and!; try done; try lia. by intros _ ->. }
  destruct (Z.ltb_spec limit (total + RECORD_BUFSZ)) as [Hfull|Hroom].
  { exists (- ENOSPC), c, total, f. by split_and!; try done; try lia. }
  pose proof (rl_read i f) as L. destruct (rec_perf_read i RECORD_BUFSZ f) as [[n data] f1]. destruct L as (L1 & O1 & L).
  destruct (Z.ltb_spec n 0) as [Hn|Hn].
  { exists n, c, total, f1. split_and!; try done; try lia. destruct Hc as (Hd & Hb & Hcap & Hlen & Hp). rewrite <- L in Hd, Hp.
    split_and!; try done; try lia. rewrite L in Hp |- *. etransitivity; [done|apply L1]. }
  destruct L as (Hlen & Hmax & Hbytes & Htaken & Hpre & Heof). pose proof (zlen_nonneg (rc_data c)).
  assert (Happ : exists c' f2, (if 0 <? n then record_append c (is_meta i) data f1 else Some (0, c, f1)) = Some (0, c', f2) /\ idle anything f1 f2 /\
    rc_data c' = rc_data c ++ data /\ 0 <= rc_cap c' < 2 ^ 62 /\ zlen (rc_data c') <= rc_cap c').
  { destruct (Z.ltb_spec 0 n); [apply (append_ok f1 f i); [done|unfold RECORD_BUFSZ in *; lia|done]|].
    assert (data = []) as -> by (apply zlen_0_nil; lia). exists c, f1. rewrite app_nil_r. destruct Hc as (_ & _ & ? & ? & _). split_and!; try done; lia. }
  destruct Happ as (c' & f2 & -> & [L2 T2] & Ed & Hcap & Hfit). cbn [mbind option_bind]. change (0 <? 0) with false. cbv iota.
  assert (Hc' : chan_ok f2 i c').
  { destruct Hc as (Hd & Hb & _). split_and!; try lia; try done; [by rewrite Ed, T2, Htaken, Hd|rewrite Ed; by apply Forall_app|].
    rewrite T2. etransitivity; [done|apply L2]. }
  assert (Lz : zlen (rc_data c') = zlen (rc_data c) + n) by (rewrite Ed, zlen_app; lia).
  assert (L12 : later anything f f2) by (by eapply later_trans).
  assert (O12 : forall j, j <> i -> rv_taken f2 j = rv_taken f j) by (intros j Hj; by rewrite T2, O1).
  destruct (Z.ltb_spec n RECORD_BUFSZ) as [Hshort|Hmore].
  - exists 0, c', (total + n), f2. split_and!; try done; try lia. intros _ _ Hr.
    rewrite T2, (la_still _ _ _ L2) by (by rewrite (la_run _ _ _ L1)). by apply Heof.
  - assert (n = RECORD_BUFSZ) as -> by lia. destruct (IH (u32 (k + 1)) c' (total + RECORD_BUFSZ) f2 Hc') as (err & c2 & t2 & f' & E & L3 & O3 & C3 & S3 & B3 & R3 & Z3);
      [unfold RECORD_BUFSZ in *; lia|done|unfold RECORD_BUFSZ in *; lia|rewrite Nat2Z.inj_succ in Hf; unfold RECORD_BUFSZ in *; lia|].
    exists err, c2, t2, f'. split_and!; try done; try (unfold RECORD_BUFSZ in *; lia).
    + by eapply later_trans.
    + intros j Hj. by rewrite O3, O12.
    + intros He Hbd Hr. apply R3; [done|done|]. by rewrite (la_run _ _ _ L12).
Qed.

(** The channels from [i] on. *)
Definition chans_ok (f : F) (i : Z) (chans : list record_chan_t) : Prop := forall (k : nat) c, chans !! k = Some c -> chan_ok f (i + Z.of_nat k) c.
Definition volume (chans : list record_chan_t) : Z := foldr (fun c n => zlen (rc_data c) + n) 0 chans.

Lemma chans_ok_cons (f : F) i c chans : chans_ok f i (c :: chans) <-> chan_ok f i c /\ chans_ok f (i + 1) chans.
Proof.
  split.
  - intros Hall. split; [by rewrite <- (Z.add_0_r i); apply (Hall 0%nat)|]. intros k x Hx. replace (i + 1 + Z.of_nat k) with (i + Z.of_nat (Datatypes.S k)) by lia. by apply Hall.
  - intros [Hc Hall] [|k] x Hx; [injection Hx as <-; by rewrite Z.add_0_r|]. replace (i + Z.of_nat (Datatypes.S k)) with (i + 1 + Z.of_nat k) by lia. by apply Hall.
Qed.

Lemma volume_nonneg chans : 0 <= volume chans.
Proof. unfold volume. induction chans as [|c chans IH]; cbn; [done|]. pose proof (zlen_nonneg (rc_data c)). lia. Qed.

(** Time alone does not change what a channel has. *)
Lemma chan_later (f g : F) i c : chan_ok f i c -> later anything f g -> rv_taken g i = rv_taken f i -> chan_ok g i c.
Proof. intros (A & B & C & D & E) L T. split_and!; try done; try lia; [congruence|]. rewrite T. etransitivity; [done|apply L]. Qed.
Lemma chans_later (f g : F) i chans : chans_ok f i chans -> later anything f g -> (forall j, i <= j -> rv_taken g j = rv_taken f j) -> chans_ok g i chans.
Proof. intros Hall L T k c Hk. eapply chan_later; [by apply Hall|done|]. apply T. lia. Qed.

Lemma record_drain_ok fuel bounded limit : forall chans i total (f : F), chans_ok f i chans -> volume chans <= total <= limit -> limit < 2 ^ 60 ->
  limit < RECORD_BUFSZ * Z.of_nat fuel -> exists err chans' total' f',
  record_drain fuel i chans total limit bounded f = Some (err, chans', total', f') /\ later anything f f' /\ (forall j, j < i -> rv_taken f' j = rv_taken f j) /\
  chans_ok f' i chans' /\ length chans' = length chans /\ total' - volume chans' = total - volume chans /\ total <= total' <= limit /\
  (err = 0 -> bounded = false -> rv_run f = false -> forall j, i <= j < i + zlen chans -> rv_taken f' j = rv_log f' j) /\ err <= 0.
Proof.
  induction chans as [|c chans IH]; intros i total f Hall Ht Hl Hf.
  { exists 0, [], total, f. split_and!; try done; try lia. intros _ _ _ j Hj. change (zlen []) with 0 in Hj. lia. }
  apply chans_ok_cons in Hall as [Hc Hall]. cbn [record_drain volume foldr] in *. fold (volume chans) in *. pose proof (volume_nonneg chans). pose proof (zlen_nonneg (rc_data c)).
  destruct (drain_reads_ok fuel i bounded limit 0 c total f Hc) as (err & c' & t1 & f1 & -> & L1 & O1 & C1 & S1 & B1 & R1 & Z1); [lia|lia|lia|lia|].
  cbn [mbind option_bind]. assert (Hall1 : chans_ok f1 (i + 1) chans) by (eapply chans_later; [done|done|intros j Hj; apply O1; lia]).
  destruct (Z.ltb_spec err 0) as [He|He].
  - exists err, (c' :: chans), t1, f1. cbn [volume foldr length]. fold (volume chans). split_and!; try done; try lia; [|by apply chans_ok_cons].
    intros j Hj. apply O1. lia.
  - pose proof (zlen_nonneg (rc_data c')).
    destruct (IH (i + 1) t1 f1 Hall1) as (err2 & cs & t2 & f2 & -> & L2 & O2 & C2 & N2 & S2 & B2 & R2 & Z2); [lia|lia|lia|].
    exists err2, (c' :: cs), t2, f2. cbn [volume foldr length]. fold (volume cs). split_and!; try done; try lia.
    + by eapply later_trans.
    + intros j Hj. rewrite O2 by lia. apply O1. lia.
    + apply chans_ok_cons. split; [|done]. eapply chan_later; [done|done|]. apply O2. lia.
    + intros -> Hb Hr j Hj. rewrite zlen_cons in Hj. destruct (Z.eq_dec j i) as [->|Hne].
      * rewrite O2 by lia. rewrite (la_still _ _ _ L2) by (by rewrite (la_run _ _ _ L1)). apply R1; [lia|done|done].
      * apply R2; [done|done|by rewrite (la_run _ _ _ L1)|lia].
Qed.

(** ** The trace *)

(** Every pass that is not the last is followed by a millisecond at least. *)
Lemma record_loop_ok fuel rolling limit deadline rounds : forall err chans total (f : F), chans_ok f 0 chans -> volume chans <= total <= limit -> limit < 2 ^ 60 ->
  limit < RECORD_BUFSZ * Z.of_nat fuel -> deadline - rv_now f < Z.of_nat rounds -> (0 < rounds)%nat -> deadline <= 2 ^ 62 -> err <= 0 -> exists err' chans' total' f',
  record_loop rounds fuel rolling limit deadline err (rv_now f) chans total f = Some (err', chans', total', f') /\ later anything f f' /\
  chans_ok f' 0 chans' /\ length chans' = length chans /\ total' - volume chans' = total - volume chans /\ total <= total' <= limit /\ err' <= 0.
Proof.
  induction rounds as [|rounds IH]; intros err chans total f Hc Ht Hl Hf Hd Hpos Hend He; [lia|]. cbn [record_loop].
  destruct ((err =? 0) && negb (rec_stopped f) && (rv_now f <? deadline)) eqn:Eg.
  2:{ exists err, chans, total, f. split_and!; try done; lia. }
  apply andb_true_iff in Eg as [[->%Z.eqb_eq _]%andb_true_iff Hlt%Z.ltb_lt].
  assert (Hdr : exists err1 cs t1 f1, (if rolling then Some (0, chans, total, f) else record_drain fuel 0 chans total limit true f) = Some (err1, cs, t1, f1) /\
    later anything f f1 /\ chans_ok f1 0 cs /\ length cs = length chans /\ t1 - volume cs = total - volume chans /\ total <= t1 <= limit /\ err1 <= 0).
  { destruct rolling; [exists 0, chans, total, f; split_and!; try done; lia|].
    destruct (record_drain_ok fuel true limit chans 0 total f Hc Ht Hl Hf) as (e & cs & t1 & f1 & E & L & _ & C & N & S & B & _ & Z1). by exists e, cs, t1, f1. }
  destruct Hdr as (err1 & cs & t1 & f1 & -> & L1 & C1 & N1 & S1 & B1 & E1). cbn [mbind option_bind].
  destruct (now_ok f1) as (f2 & -> & [L2 T2] & _). set (us := u32 _).
  assert (Hus : exists f3, (if (err1 =? 0) && (rv_now f2 <? deadline) then rec_usleep us f2 else f2) = f3 /\ idle anything f2 f3 /\
    (err1 = 0 -> rv_now f2 < deadline -> rv_now f2 + 1 <= rv_now f3)).
  { destruct ((err1 =? 0) && (rv_now f2 <? deadline)) eqn:Eu.
    - apply andb_true_iff in Eu as [_ Hu%Z.ltb_lt]. assert (Hr : exists ms, us = ms * 1000 /\ 1 <= ms <= deadline - rv_now f2).
      { unfold us, RECORD_DRAIN_MS. destruct (Z.ltb_spec (deadline - rv_now f2) 100); rewrite wrapu_small by lia; eexists; (split; [done|lia]). }
      destruct Hr as (ms & Eus & Hms). destruct (rl_usleep us f2 ltac:(lia)) as [I Hnow]. eexists. split; [done|]. split; [done|]. intros _ _.
      assert (Ems : us / 1000 = ms) by (rewrite Eus; by apply Z.div_mul). rewrite Ems in Hnow. lia.
    - exists f2. split; [done|]. split; [apply idle_refl|]. intros -> Hu. apply andb_false_iff in Eu as [Eu|Eu]; [done|]. apply Z.ltb_ge in Eu. lia. }
  destruct Hus as (f3 & -> & [L3 T3] & Hnow). destruct (now_ok f3) as (f4 & -> & [L4 T4] & _).
  assert (L14 : later anything f1 f4) by (eapply later_trans; [done|]; by eapply later_trans).
  assert (C4 : chans_ok f4 0 cs) by (eapply chans_later; [done|done|]; intros j _; by rewrite T4, T3, T2).
  pose proof (la_now _ _ _ L1). pose proof (la_now _ _ _ L2). pose proof (la_now _ _ _ L3). pose proof (la_now _ _ _ L4).
  assert (L04 : later anything f f4) by (by eapply later_trans).
  destruct (Z.eqb_spec err1 0) as [->|Hne].
  - destruct (IH 0 cs t1 f4 C4) as (e & cs' & t' & f5 & -> & L5 & C5 & N5 & S5 & B5 & E5);
      [lia|done|done|destruct (Z.lt_ge_cases (rv_now f2) deadline) as [Hu|Hu]; [specialize (Hnow eq_refl Hu)|]; lia|lia|done|done|].
    exists e, cs', t', f5. split_and!; try done; try lia; try congruence. by eapply later_trans.
  - destruct rounds as [|rounds]; [lia|]. cbn [record_loop]. rewrite (proj2 (Z.eqb_neq err1 0)) by done. cbn [andb].
    exists err1, cs, t1, f4. split_and!; try done; lia.
Qed.

(** When the trace has stopped every channel in memory is a prefix of what was traced,
    and all of it if there was no error and no limit was met. *)
Definition traced (f : F) (complete : Prop) (chans : list record_chan_t) : Prop :=
  zlen chans = rv_nchans /\ chans_ok f 0 chans /\ rv_run f = false /\
  (complete -> forall j, 0 <= j < rv_nchans -> rv_taken f j = rv_log f j).

Lemma traced_idle P (f g : F) (complete : Prop) chans : traced f complete chans -> idle P f g -> traced g complete chans.
Proof.
  intros (A & B & C & D) [L T]. split_and!; [done| |by rewrite (la_run _ _ _ L)|].
  - intros k c Hk. destruct (B k c Hk) as (E1 & E2 & E3 & E4 & E5). split_and!; try done; try lia; [by rewrite T|]. rewrite T. etransitivity; [done|apply L].
  - intros Hc j Hj. rewrite T, (la_still _ _ _ L C). by apply D.
Qed.

Lemma record_trace_ok fuel o (f : F) : rv_now f < 2 ^ 61 -> rv_run f = true -> (forall i, rv_taken f i = [] /\ rv_log f i = []) -> 0 < ro_secs o < 2 ^ 32 -> 0 < ro_memMb o < 2 ^ 32 ->
  ro_secs o * 1000 + ro_memMb o * 2 ^ 20 < Z.of_nat fuel -> exists err full chans ms f',
  record_trace fuel o rv_nchans f = Some (err, full, Some chans, ms, f') /\ traced f' (err = 0 /\ full = false) chans /\
  volume chans <= ro_memMb o * 2 ^ 20 /\ (rv_work f' <= rv_work f)%nat.
Proof.
  intros Hstart Hrun Hnil Hsecs Hmem Hfuel. unfold record_trace. pose proof rl_chans as Hn. set (limit := Z.shiftl (ro_memMb o) 20).
  assert (El : limit = ro_memMb o * 2 ^ 20) by (unfold limit; by rewrite Z.shiftl_mul_pow2).
  destruct (rl_alloc f) as (f1 & -> & [L1 T1] & Hq1). destruct (now_ok f1) as (f2 & -> & [L2 T2] & Hnow & Hq2).
  rewrite wrapu_small by lia. cbn [from_option id].
  assert (Hnilc : chans_ok f2 0 (replicate (Z.to_nat rv_nchans) chan_nil)).
  { intros k c [-> _]%lookup_replicate. split_and!; try done; [by rewrite T2, T1, (proj1 (Hnil _))|by apply Forall_nil|].
    rewrite T2, T1, (proj1 (Hnil _)). apply prefix_nil. }
  assert (Hv : volume (replicate (Z.to_nat rv_nchans) chan_nil) = 0) by (unfold volume; generalize (Z.to_nat rv_nchans) as n; intros n; induction n as [|n IH]; cbn; [done|by rewrite IH]).
  destruct (record_loop_ok fuel (ro_rolling o) limit (rv_now f2 + ro_secs o * 1000) fuel 0 (replicate (Z.to_nat rv_nchans) chan_nil) 0 f2 Hnilc)
    as (err & cs & total & f3 & -> & L3 & C3 & N3 & S3 & B3 & E3); [lia|lia|unfold RECORD_BUFSZ; lia|lia|lia|lia|done|].
  cbn [mbind option_bind]. rewrite Hv in S3. destruct (rl_stop f3) as (R4 & T4 & G4 & M4 & W4). set (f4 := rec_perf_stop f3) in *.
  destruct (now_ok f4) as (f5 & -> & I5 & _). assert (C4 : chans_ok f4 0 cs).
  { intros k c Hk. destruct (C3 k c Hk) as (A & B & C & D & E). split_and!; try done; try lia; [congruence|]. rewrite T4. etransitivity; [done|apply G4]. }
  assert (C5 : chans_ok f5 0 cs) by (destruct I5 as [L5 T5]; by eapply chans_later).
  assert (R5 : rv_run f5 = false) by (destruct I5 as [L5 _]; by rewrite (la_run _ _ _ L5)).
  assert (W5 : (rv_work f5 <= rv_work f)%nat).
  { pose proof (la_work _ _ _ L1). pose proof (la_work _ _ _ L2). pose proof (la_work _ _ _ L3). destruct I5 as [L5 _]. pose proof (la_work _ _ _ L5). lia. }
  assert (Hlen : zlen cs = rv_nchans) by (unfold zlen; rewrite N3, length_replicate; lia).
  set (err4 := if err =? - ENOSPC then 0 else err). destruct (Z.eqb_spec err4 0) as [E0|E0]; cbn [andb].
  - destruct (record_drain_ok fuel false limit cs 0 total f5 C5) as (e & cs' & t' & f6 & -> & L6 & _ & C6 & N6 & S6 & B6 & R6 & E6); [lia|lia|unfold RECORD_BUFSZ; lia|].
    cbn [mbind option_bind]. eexists _, _, cs', _, (rec_perf_finish f6). split; [done|]. split; [|split; [lia|]].
    + eapply traced_idle; [|apply rl_finish]. split_and!; [unfold zlen in *; lia|done|by rewrite (la_run _ _ _ L6)|].
      intros [He Hfull] j Hj. apply orb_false_iff in Hfull as [_ Hfull]. rewrite Hfull in He. apply R6; [done|done|done|]. lia.
    + destruct (rl_finish f6) as [L7 _]. pose proof (la_work _ _ _ L6). pose proof (la_work _ _ _ L7). lia.
  - eexists _, _, cs, _, (rec_perf_finish f5). split; [done|]. split; [|split; [lia|]].
    + eapply traced_idle; [|apply rl_finish]. split_and!; [done|done|done|]. by intros [He _].
    + destruct (rl_finish f5) as [L7 _]. pose proof (la_work _ _ _ L7). lia.
Qed.

(** ** Writing *)

Lemma dec_inj a b : 0 <= a < 2 ^ 32 -> 0 <= b < 2 ^ 32 -> dec a = dec b -> a = b.
Proof.
  assert (Hd : forall x, 0 <= x < 2 ^ 32 -> digits 10 0 (dec x) = (x, [])).
  { intros x Hx. unfold dec. destruct (dec_loop_digits 20 x []) as (c & ds & -> & _ & _ & Hd); [split; [lia|]; eapply Z.lt_trans; [apply Hx|by vm_compute]|].
    rewrite Hd. done. }
  intros Ha Hb E. pose proof (Hd a Ha) as Ea. rewrite E, (Hd b Hb) in Ea. by injection Ea.
Qed.

Lemma snprintf_fits text : zlen text < PATH_MAX -> snprintf PATH_MAX text = text.
Proof. intros Ht. unfold snprintf. apply take_ge. unfold zlen, PATH_MAX in *. lia. Qed.

Hypothesis Hcount : trace_channel_count = 2 /\ 0 <= trace_channel_meta < 2.

(** The names as their characters. *)
Ltac names_in E :=
  let x := eval vm_compute in (bstr "channel_meta") in change (bstr "channel_meta") with x in E;
  let y := eval vm_compute in (bstr "channel_event") in change (bstr "channel_event") with y in E.

Lemma path_text dir i : zlen dir <= 4000 ->
  channel_path dir i = dir ++ [47] ++ (if is_meta i then bstr "channel_meta" else bstr "channel_event") ++ dec (i / 2).
Proof.
  intros Hd. unfold channel_path. rewrite (proj1 Hcount). apply snprintf_fits. pose proof (dec_short (i / 2)).
  rewrite !zlen_app. destruct (is_meta i); [change (zlen (bstr "channel_meta")) with 12|change (zlen (bstr "channel_event")) with 13]; change (zlen [47]) with 1; unfold PATH_MAX; lia.
Qed.

(** Different channels have different files, none of which is the information. *)
Lemma path_inj dir i j : zlen dir <= 4000 -> 0 <= i < 2 ^ 31 -> 0 <= j < 2 ^ 31 -> channel_path dir i = channel_path dir j -> i = j.
Proof.
  intros Hd Hi Hj. rewrite !path_text by done. intros E%app_inv_head. injection E as E.
  assert (Hdiv : forall x, 0 <= x < 2 ^ 31 -> 0 <= x / 2 < 2 ^ 32) by (intros x Hx; dlia).
  assert (Hm : is_meta i = is_meta j /\ dec (i / 2) = dec (j / 2)) by (revert E; generalize (dec (i / 2)) (dec (j / 2)); intros a b E; names_in E; destruct (is_meta i), (is_meta j); cbn [app] in E; split; congruence).
  destruct Hm as [Hm Hdec%dec_inj]; [|by apply Hdiv|by apply Hdiv]. unfold is_meta in Hm. destruct Hcount as [Ec Hmeta]. rewrite Ec in Hm.
  pose proof (Z.mod_pos_bound i 2). pose proof (Z.mod_pos_bound j 2). pose proof (Z.div_mod i 2). pose proof (Z.div_mod j 2).
  destruct (Z.eqb_spec (i mod 2) trace_channel_meta), (Z.eqb_spec (j mod 2) trace_channel_meta); try done; lia.
Qed.
Lemma path_info dir i : zlen dir <= 4000 -> channel_path dir i <> snprintf PATH_MAX (dir ++ [47] ++ PROF_INFO_FILE).
Proof.
  intros Hd. rewrite path_text, snprintf_fits by (done || rewrite !zlen_app; change (zlen PROF_INFO_FILE) with 9; change (zlen [47]) with 1; unfold PATH_MAX; lia).
  intros E%app_inv_head. revert E. generalize (dec (i / 2)). intros a E. destruct (is_meta i); discriminate.
Qed.

Lemma rec_write_loop_ok fd p fuel : forall data c (f : F), rv_fd f fd = Some p -> rv_file f p = Some c -> (length data + rv_work f < fuel)%nat ->
  exists ok f', rec_write_loop fuel fd data f = Some (ok, f') /\ idle (fun q => q <> p) f f' /\ (ok = true -> rv_file f' p = Some (c ++ data)).
Proof.
  induction fuel as [|fuel IH]; intros data c f Hfd Hc Hf; [lia|]. cbn [rec_write_loop]. destruct (Z.ltb_spec 0 (zlen data)) as [Hz|Hz].
  2:{ assert (data = []) as -> by (apply zlen_0_nil; pose proof (zlen_nonneg data); lia). exists true, f. rewrite app_nil_r. by split_and!. }
  set (n := if zlen data <? RECORD_WRITE_CHUNK then zlen data else RECORD_WRITE_CHUNK).
  assert (Hn : 0 < n <= zlen data) by (unfold n, RECORD_WRITE_CHUNK; destruct (Z.ltb_spec (zlen data) 1048576); lia).
  assert (Hl : zlen (take (Z.to_nat n) data) = n) by (rewrite zlen_take; lia).
  pose proof (rl_write fd p c (take (Z.to_nat n) data) f Hfd Hc ltac:(lia)) as L. destruct (rec_write fd _ f) as [r f1]. destruct L as [Hfd1 L].
  destruct (Z.leb_spec r 0) as [Hr|Hr]; [destruct (Z.ltb_spec r 0) as [Hr0|Hr0]; cbn [andb]|].
  - destruct L as [I Hint]. destruct (Z.eqb_spec r (- EINTR)) as [Er|]; [|exists false, f1; split_and!; [done|by apply idle_all|done]].
    specialize (Hint Er). destruct (IH data c f1) as (ok & f2 & E2 & I2 & R2); [done|destruct I as [L _]; by rewrite (la_file _ _ _ L)|lia|].
    exists ok, f2. split_and!; [done|eapply idle_trans; [by apply idle_all|done]|done].
  - destruct L as (_ & I & _). exists false, f1. by split_and!.
  - rewrite (proj2 (Z.ltb_ge r 0)) in L by lia. destruct L as (Hle & I & Hc1). rewrite Hl in Hle.
    rewrite take_take, Nat.min_l in Hc1 by lia. destruct I as [L T]. pose proof (la_work _ _ _ L).
    destruct (IH (drop (Z.to_nat r) data) (c ++ take (Z.to_nat r) data) f1) as (ok & f2 & E2 & I2 & R2); [done|done|rewrite length_drop; unfold zlen in *; lia|].
    rewrite <- (assoc_L (++)), take_drop in R2. exists ok, f2. split_and!; [done|eapply idle_trans; [by split|done]|done].
Qed.

Lemma writeFile_ok fuel p data (f : F) : (length data + rv_work f < fuel)%nat -> exists r f', record_writeFile fuel p data f = Some (r, f') /\
  idle (fun q => q <> p) f f' /\ r <= 0 /\ (r = 0 -> rv_file f' p = Some data).
Proof.
  intros Hf. unfold record_writeFile. pose proof (rl_open p f) as L. destruct (rec_open p f) as [fd f1]. destruct L as [I Hfd].
  destruct (Z.ltb_spec fd 0) as [Hneg|Hge]; [exists (-1), f1; by split_and!|]. destruct (Hfd Hge) as [Hfd1 Hc]. destruct I as [L1 T1]. pose proof (la_work _ _ _ L1).
  destruct (rec_write_loop_ok fd p fuel data [] f1 Hfd1 Hc) as (ok & f2 & -> & I2 & R2); [lia|]. cbn [mbind option_bind].
  pose proof (rl_close fd f2) as I3. destruct (rec_close fd f2) as [r f3]. cbn [snd] in I3.
  eexists _, f3. split; [done|]. split; [eapply idle_trans; [by split|]; eapply idle_trans; [done|]; by apply idle_all|].
  destruct ok; cbn [negb]; [|split; [lia|done]]. destruct (r <? 0); split; [lia|done|lia|]. intros _. destruct I3 as [L3 _]. rewrite (la_file _ _ _ L3) by done. by apply R2.
Qed.

Lemma record_write_ok fuel dir limit : zlen dir <= 4000 -> forall chans i err (f : F), 0 <= i -> i + zlen chans <= rv_nchans -> volume chans <= limit ->
  limit + Z.of_nat (rv_work f) < Z.of_nat fuel -> err <= 0 -> exists r f', record_write fuel dir i chans err f = Some (r, f') /\
  idle (fun q => forall j, i <= j < i + zlen chans -> q <> channel_path dir j) f f' /\ r <= 0 /\
  (r = 0 -> err = 0 /\ forall (k : nat) c, chans !! k = Some c -> rv_file f' (channel_path dir (i + Z.of_nat k)) = Some (rc_data c)).
Proof.
  intros Hd. pose proof rl_chans as Hn. induction chans as [|c chans IH]; intros i err f Hi Hlen Hv Hf He.
  { exists err, f. by split_and!. }
  cbn [record_write]. rewrite zlen_cons in Hlen |- *. cbn [volume foldr] in Hv. fold (volume chans) in Hv. pose proof (volume_nonneg chans). pose proof (zlen_nonneg (rc_data c)).
  pose proof (zlen_nonneg chans). destruct (writeFile_ok fuel (channel_path dir i) (rc_data c) f) as (r & f1 & -> & I1 & Hr & R1); [unfold zlen in *; lia|].
  cbn [mbind option_bind]. destruct I1 as [L1 T1]. pose proof (la_work _ _ _ L1).
  destruct (IH (i + 1) (if r <? 0 then -1 else err) f1) as (r2 & f2 & -> & [L2 T2] & Hr2 & R2); [lia|lia|lia|lia|destruct (r <? 0); lia|].
  exists r2, f2. split_and!; [done| |done|].
  - eapply idle_trans; [eapply idle_weaken; [|by split]|eapply idle_weaken; [|by split]]; [|intros q Hq j Hj; apply Hq; lia].
    intros q Hq. apply Hq. lia.
  - intros E. destruct (R2 E) as [He2 Hall]. destruct (Z.ltb_spec r 0); [lia|]. split; [done|]. intros [|k] x Hx.
    + injection Hx as <-. rewrite Z.add_0_r. rewrite (la_file _ _ _ L2); [by apply R1; lia|]. intros j Hj Ej%path_inj; lia.
    + replace (i + Z.of_nat (Datatypes.S k)) with (i + 1 + Z.of_nat k) by lia. by apply Hall.
Qed.

(** ** Processes and files *)

Definition oids_ok (o : record_oids_t) : Prop := zlen (os_oids o) <= os_cap o /\ os_room o = os_cap o.

Lemma oidAdd_ok o oid (f : F) : oids_ok o -> exists o' f', record_oidAdd o oid f = Some (o', f') /\ oids_ok o' /\ idle anything f f'.
Proof.
  intros [Hn Hr]. unfold record_oidAdd. destruct (existsb _ _); [exists o, f; by split_and!|]. pose proof (zlen_nonneg (os_oids o)).
  destruct (Z.eqb_spec (zlen (os_oids o)) (os_cap o)) as [E|E].
  - destruct (rl_alloc f) as (f1 & -> & I & _). cbn [negb os_oids os_cap os_room]. set (cap := if os_cap o =? 0 then _ else _).
    assert (Hc : zlen (os_oids o) < cap) by (unfold cap; destruct (Z.eqb_spec (os_cap o) 0); lia). rewrite (proj2 (Z.ltb_lt _ _)) by done.
    eexists _, f1. split; [done|]. split; [|done]. split; cbn; [rewrite zlen_app; change (zlen [oid]) with 1; lia|done].
  - cbn [negb]. rewrite (proj2 (Z.ltb_lt _ _)) by lia. eexists _, f. split; [done|]. split; [|apply idle_refl].
    split; cbn; [rewrite zlen_app; change (zlen [oid]) with 1; lia|done].
Qed.

Lemma maps_loop_ok pid fuel : forall mapsz (f : F), Z.max 0 (rv_maps - mapsz) < Z.of_nat fuel ->
  exists map f', maps_loop fuel pid mapsz f = Some (map, f') /\ idle anything f f'.
Proof.
  induction fuel as [|fuel IH]; intros mapsz f Hf; [lia|]. cbn [maps_loop]. destruct (rl_alloc f) as (f1 & -> & I1 & _). cbn [negb].
  pose proof (rl_meminfo pid mapsz f1) as L. destruct (rec_meminfo pid mapsz f1) as [[map n] f2]. destruct L as [Hn I2].
  destruct (Z.leb_spec n mapsz) as [Hle|Hgt]; [eexists _, f2; split; [done|]; by eapply idle_trans|].
  destruct (IH n f2) as (m & f3 & E & I3); [lia|]. exists m, f3. split; [done|]. eapply idle_trans; [done|]. by eapply idle_trans.
Qed.

Lemma maps_lines_ok pid map : forall o (f : F), oids_ok o -> exists text o' f', maps_lines pid map o f = Some (text, o', f') /\ oids_ok o' /\ idle anything f f'.
Proof.
  induction map as [|e map IH]; intros o f Ho; [exists [], o, f; by split_and!|]. cbn [maps_lines]. destruct (en_oid e) as [oid|]; [|by apply IH].
  destruct (oidAdd_ok o oid f Ho) as (o1 & f1 & -> & Ho1 & I1). cbn [mbind option_bind]. destruct (IH o1 f1 Ho1) as (text & o2 & f2 & -> & Ho2 & I2).
  cbn [mbind option_bind]. eexists _, o2, f2. split; [done|]. split; [done|]. by eapply idle_trans.
Qed.

Lemma processes_maps_ok fuel ts : rv_maps < Z.of_nat fuel -> (0 < fuel)%nat -> forall seen o (f : F), oids_ok o ->
  exists text o' f', processes_maps fuel seen ts o f = Some (text, o', f') /\ oids_ok o' /\ idle anything f f'.
Proof.
  intros Hf Hpos. induction ts as [|t ts IH]; intros seen o f Ho; [exists [], o, f; by split_and!|]. cbn [processes_maps].
  assert (Hm : exists a o1 f1, (if bool_decide (t_pid t ∉ seen) && (0 <? t_pid t) then record_maps fuel (t_pid t) o f else Some ([], o, f)) = Some (a, o1, f1) /\
    oids_ok o1 /\ idle anything f f1).
  { destruct (_ && _); [|exists [], o, f; by split_and!]. unfold record_maps. destruct (maps_loop_ok (t_pid t) fuel 16 f) as (map & f1 & -> & I1); [lia|].
    cbn [mbind option_bind]. destruct map as [map|]; [|exists [], o, f1; by split_and!]. destruct (maps_lines_ok (t_pid t) map o f1 Ho) as (a & o2 & f2 & -> & Ho2 & I2).
    exists a, o2, f2. split; [done|]. split; [done|]. by eapply idle_trans. }
  destruct Hm as (a & o1 & f1 & -> & Ho1 & I1). cbn [mbind option_bind]. destruct (IH (t_pid t :: seen) o1 f1 Ho1) as (b & o2 & f2 & -> & Ho2 & I2).
  cbn [mbind option_bind]. eexists _, o2, f2. split; [done|]. split; [done|]. by eapply idle_trans.
Qed.

Lemma record_processes_ok fuel tag o (f : F) : rv_maps < Z.of_nat fuel -> (0 < fuel)%nat -> oids_ok o ->
  exists text o' f', record_processes fuel tag o f = Some (text, o', f') /\ oids_ok o' /\ idle anything f f'.
Proof.
  intros Hf Hpos Ho. unfold record_processes. destruct (rl_alloc f) as (f1 & -> & I1 & _). cbn [negb].
  pose proof (rl_threads RECORD_THREADS f1) as I2. destruct (rec_threadsinfo RECORD_THREADS f1) as [ts f2]. cbn [snd] in I2.
  destruct (processes_maps_ok fuel ts Hf Hpos [] o f2 Ho) as (text & o' & f3 & -> & Ho' & I3). cbn [mbind option_bind].
  eexists _, o', f3. split; [done|]. split; [done|]. eapply idle_trans; [done|]. by eapply idle_trans.
Qed.

Lemma dir_lines_idle dir o names : forall found (f : F), idle anything f (dir_lines dir names o found f).2.
Proof.
  induction names as [|name names IH]; intros found f; [apply idle_refl|]. cbn [dir_lines]. set (path := snprintf _ _).
  pose proof (rl_stat path f) as I1. destruct (rec_stat path f) as [st f1]. cbn [snd] in I1.
  destruct (match st with Some _ => _ | None => _ end) as [x|].
  - specialize (IH (found + 1) f1). destruct (dir_lines dir names o (found + 1) f1) as [[text found'] f2]. cbn [snd] in *. by eapply idle_trans.
  - eapply idle_trans; [done|apply IH].
Qed.

Lemma dirs_lines_idle o dirs : forall found (f : F), idle anything f (dirs_lines dirs o found f).2.
Proof.
  induction dirs as [|dir dirs IH]; intros found f; [apply idle_refl|]. cbn [dirs_lines]. destruct (found <? _); [|apply idle_refl].
  pose proof (rl_readdir dir f) as I1. destruct (rec_readdir dir f) as [[names|] f1]; cbn [snd] in I1; [|eapply idle_trans; [done|apply IH]].
  pose proof (dir_lines_idle dir o names found f1) as I2. destruct (dir_lines dir names o found f1) as [[a found'] f2]. cbn [snd] in I2.
  specialize (IH found' f2). destruct (dirs_lines dirs o found' f2) as [b f3]. cbn [snd] in *. eapply idle_trans; [done|]. by eapply idle_trans.
Qed.

Lemma record_files_idle dirs o (f : F) : idle anything f (record_files dirs o f).2.
Proof.
  unfold record_files. destruct (rl_alloc f) as (f1 & -> & I1 & _). cbn [negb]. eapply idle_trans; [done|apply dirs_lines_idle].
Qed.

Lemma mix_chans_ok chans : forall i mix, Forall (fun c => is_bytes (rc_data c)) chans -> exists mix', mix_chans i chans mix = Some mix'.
Proof.
  induction chans as [|c chans IH]; intros i mix Hb; [by eexists|]. apply Forall_cons in Hb as [Hc Hb]. cbn [mix_chans].
  destruct (mixAdd_total (rc_data c) (zlen (rc_data c)) Hc (conj (zlen_nonneg _) (Z.le_refl _)) mix (i / trace_channel_count)) as [m ->]. by apply IH.
Qed.

(** ** A recording *)

(** The file of every channel has what was recorded of it. *)
Definition saved (dir : bytes) (f : F) (complete : Prop) : Prop := forall i, 0 <= i < rv_nchans -> exists c,
  rv_file f (channel_path dir i) = Some c /\ c `prefix_of` rv_log f i /\ (complete -> c = rv_log f i).

Lemma record_finish_ok fuel o err full chans ms text oids (f : F) : traced f (err = 0 /\ full = false) chans -> oids_ok oids -> zlen (ro_dir o) <= 4000 ->
  volume chans + Z.of_nat (rv_work f) < Z.of_nat fuel -> rv_maps < Z.of_nat fuel -> exists code mix f',
  record_finish fuel o rv_nchans err full (Some chans) ms text oids f = Some (RecResult code full mix, f') /\
  (code = 0 -> saved (ro_dir o) f' (full = false)).
Proof.
  intros Htr Ho Hd Hf Hm. unfold record_finish. destruct (rl_alloc f) as (f1 & -> & I1 & _). pose proof Htr as (Hlen & Hch & Hrun & Hall).
  destruct (mix_chans_ok chans 0 mix_init) as [mix ->]; [apply Forall_lookup; intros k c Hk; apply (Hch k c Hk)|]. cbn [mbind option_bind].
  destruct (prof_mixPrint_ok mix (rv_nchans / trace_channel_count)) as [rows ->]. cbn [mbind option_bind]. set (text1 := text ++ _). clearbody text1.
  pose proof (proj1 I1) as L1. pose proof (la_work _ _ _ L1).
  destruct (record_write_ok fuel (ro_dir o) (volume chans) Hd chans 0 0 f1) as (r & f2 & -> & I2 & Hr & R2); [lia|lia|lia|lia|lia|]. cbn [mbind option_bind].
  destruct (record_processes_ok fuel (bstr "thread-end") oids f2 Hm ltac:(pose proof (volume_nonneg chans); lia) Ho) as (t1 & oids2 & f3 & -> & Ho2 & I3). cbn [mbind option_bind].
  pose proof (record_files_idle (ro_libdirs o) oids2 f3) as I4. destruct (record_files (ro_libdirs o) oids2 f3) as [t2 f4]. cbn [snd] in I4.
  set (info := snprintf _ _). pose proof (rl_fclose info (text1 ++ t1 ++ t2) f4) as I5. set (f5 := rec_fclose _ _ _) in *.
  eexists _, _, f5. split; [done|]. intros Hcode i Hi.
  destruct (Z.ltb_spec r 0) as [Hr0|Hr0]; [done|]. destruct (Z.eqb_spec err 0) as [->|]; [|done]. destruct (R2 ltac:(lia)) as [_ Hw].
  destruct (lookup_lt_is_Some_2 chans (Z.to_nat i)) as [c Hc]; [unfold zlen in Hlen; lia|]. specialize (Hw _ _ Hc). rewrite Z2Nat.id, Z.add_0_l in Hw by lia.
  exists (rc_data c). assert (Hfile : rv_file f5 (channel_path (ro_dir o) i) = Some (rc_data c)).
  { destruct I3 as [L3 _], I4 as [L4 _], I5 as [L5 _]. rewrite (la_file _ _ _ L5) by (by apply path_info). by rewrite (la_file _ _ _ L4), (la_file _ _ _ L3). }
  assert (Hany : idle (fun q => False) f f5).
  { eapply idle_trans; [eapply idle_weaken; [|exact I1]; done|]. eapply idle_trans; [eapply idle_weaken; [|exact I2]; done|].
    eapply idle_trans; [eapply idle_weaken; [|exact I3]; done|]. eapply idle_trans; [eapply idle_weaken; [|exact I4]; done|]. eapply idle_weaken; [|exact I5]; done. }
  destruct (traced_idle _ _ _ _ _ Htr Hany) as (_ & Hch5 & _ & Hall5). destruct (Hch5 _ _ Hc) as (Ed & _ & _ & _ & Hp). rewrite Z2Nat.id, Z.add_0_l in * by lia.
  split; [done|]. rewrite Ed. split; [done|]. intros Hfull. by apply Hall5.
Qed.

(** A recording ends, and one without an error has a file for every channel. *)
Lemma recording_saved fuel opts o (f : F) : rec_getopts opts rec_defaults = Some o -> zlen (ro_dir o) <= 4000 ->
  ro_secs o < 2 ^ 32 -> ro_memMb o < 2 ^ 32 -> 0 <= ro_secs o -> 0 <= ro_memMb o ->
  ro_secs o * 1000 + ro_memMb o * 2 ^ 20 + Z.of_nat (rv_work f) + Z.max 0 rv_maps < Z.of_nat fuel -> exists r f',
  prof_record fuel opts f = Some (r, f') /\ (rr_code r = 0 -> saved (ro_dir o) f' (rr_full r = false)).
Proof.
  intros Hopts Hd Hs1 Hm1 Hs0 Hm0 Hf. unfold prof_record. rewrite Hopts.
  assert (Herr : forall g : F, exists r f', Some (rec_error, g) = Some (r, f') /\ (rr_code r = 0 -> saved (ro_dir o) f' (rr_full r = false))) by (intros g; by exists rec_error, g).
  destruct (rec_bad o) eqn:Eb; [apply Herr|]. assert (Hpos : ro_secs o <> 0 /\ ro_memMb o <> 0).
  { unfold rec_bad in Eb. destruct (Z.eqb_spec (ro_secs o) 0); [done|]. by destruct (Z.eqb_spec (ro_memMb o) 0). }
  pose proof (rl_stat (ro_dir o) f) as I1. destruct (rec_stat (ro_dir o) f) as [st f1]. cbn [snd] in I1.
  assert (Hmk : exists r f2, match st with None => rec_mkdir (ro_dir o) f1 | Some _ => (0, f1) end = (r, f2) /\ (rv_work f2 <= rv_work f)%nat).
  { pose proof (la_work _ _ _ (proj1 I1)). destruct st; [by exists 0, f1|]. pose proof (rl_mkdir (ro_dir o) f1) as I2. destruct (rec_mkdir (ro_dir o) f1) as [r f2].
    pose proof (la_work _ _ _ (proj1 I2)). exists r, f2. cbn [snd] in *. split; [done|lia]. }
  destruct Hmk as (r & f2 & -> & W2). destruct (r <? 0); [apply Herr|]. destruct (rl_alloc f2) as (f3 & -> & I3 & _). cbn [negb].
  set (info := snprintf _ _). pose proof (rl_fopen info f3) as I4. destruct (rec_fopen info f3) as [[] f4]; cbn [negb]; [|apply Herr]. cbn [snd] in I4.
  destruct (record_processes_ok fuel (bstr "thread") oids_nil f4) as (text & oids & f5 & -> & Ho & I5); [lia|lia|by split|]. cbn [mbind option_bind].
  set (flags := if ro_rolling o then _ else _). pose proof (rl_start flags (rec_events o) f5) as L. destruct (rec_perf_start flags (rec_events o) f5) as [n f6].
  destruct L as (W6 & _ & L). destruct (Z.ltb_spec n 0) as [Hn|Hn]; [apply Herr|]. destruct (L Hn) as (-> & Hstart & Hrun & Hnil).
  assert (W : (rv_work f6 <= rv_work f)%nat).
  { pose proof (la_work _ _ _ (proj1 I3)). pose proof (la_work _ _ _ (proj1 I4)). pose proof (la_work _ _ _ (proj1 I5)). lia. }
  destruct (record_trace_ok fuel o f6 Hstart Hrun Hnil) as (err & full & chans & ms & f7 & -> & Htr & Hv & W7); [lia|lia|lia|]. cbn [mbind option_bind].
  destruct (record_finish_ok fuel o err full chans ms text oids f7 Htr Ho Hd) as (code & mix & f8 & -> & Hsaved); [lia|lia|].
  by exists (RecResult code full mix), f8.
Qed.

(** C15: A recording whose memory suffices ends.  When it ends without an error there is,
    for every channel, a file with a prefix of what the kernel traced on it until the
    trace was stopped.  If it was not cut short the file has all of it, and the report
    loads from it, event by event, what was traced. *)
Theorem recorded_is_loaded fuel opts o (f : F) : rec_getopts opts rec_defaults = Some o -> zlen (ro_dir o) <= 4000 ->
  0 <= ro_secs o < 2 ^ 32 -> 0 <= ro_memMb o < 2 ^ 32 ->
  ro_secs o * 1000 + ro_memMb o * 2 ^ 20 + Z.of_nat (rv_work f) + Z.max 0 rv_maps < Z.of_nat fuel -> exists r f',
  prof_record fuel opts f = Some (r, f') /\ (rr_code r = 0 -> saved (ro_dir o) f' (rr_full r = false) /\
  forall i es cpu l, rr_full r = false -> 0 <= i < rv_nchans -> rv_log f' i = stream_of es -> bytes_ok (stream_of es) -> Forall whole es -> es <> [] ->
    Sorted Z.le (e_ts <$> es) -> load_wf l -> exists l' new,
    loadStream (rv_file f' (channel_path (ro_dir o) i)) cpu l = Some (0, l') /\ tb_items (ld_evs l') = tb_items (ld_evs l) ++ new /\
    content <$> new = recorded_as <$> es /\ Forall (fun ev => ev_cpu ev = u8 cpu) new).
Proof.
  intros Hopts Hd Hs Hm Hf. destruct (recording_saved fuel opts o f Hopts Hd) as (r & f' & E & Hsaved); [lia|lia|lia|lia|done|].
  exists r, f'. split; [done|]. intros Hcode. specialize (Hsaved Hcode). split; [done|]. intros i es cpu l Hfull Hi Hlog Hb Hw Hne Hsort Hl.
  destruct (Hsaved i Hi) as (c & -> & _ & Hc). rewrite (Hc Hfull), Hlog. apply (load_recording [] es cpu l); try done. intros x Hx. change (zlen []) with 0 in Hx. lia.
Qed.
End laws.

(** ** An example *)

(** What was read of every channel and what is there still, the clock, files, one
    descriptor, interruptions of writes, and the results of allocations to come. *)
Record rec_sim := RecSim {
  rs_taken : Z -> bytes; rs_pend : Z -> bytes; rs_run : bool; rs_now : Z; rs_file : bytes -> option bytes; rs_fd : option bytes; rs_work : nat; rs_mem : list bool }.

(** Every sleep brings an event on the channels of events. *)
Definition ex_event (now : Z) : event := Event (now mod 4294967296) 34 [1; 0].
Definition rs_set (s : rec_sim) (p : bytes) (c : option bytes) : rec_sim :=
  RecSim (rs_taken s) (rs_pend s) (rs_run s) (rs_now s) (fun q => if bool_decide (q = p) then c else rs_file s q) (rs_fd s) (rs_work s) (rs_mem s).
Definition rs_clock (s : rec_sim) : Z := Z.max 0 (Z.min (2 ^ 62) (rs_now s)).

Section sim.
Context (tight : bool).

#[export] Instance rec_sim_ops : RecOps rec_sim := {
  rec_perf_start _ _ s :=
    if rs_clock s <? 2 ^ 61 then (2, RecSim (fun _ => []) (fun _ => []) true (rs_now s) (rs_file s) (rs_fd s) (rs_work s) (rs_mem s)) else (-1, s);
  rec_perf_read i n s :=
    let data := take (Z.to_nat n) (rs_pend s i) in
    if bool_decide (is_bytes data) then
      ((zlen data, data), RecSim (fun j => if j =? i then rs_taken s i ++ data else rs_taken s j)
        (fun j => if j =? i then drop (Z.to_nat n) (rs_pend s i) else rs_pend s j) (rs_run s) (rs_now s) (rs_file s) (rs_fd s) (rs_work s) (rs_mem s))
    else ((-1, []), s);
  rec_perf_stop s := RecSim (rs_taken s) (rs_pend s) false (rs_now s) (rs_file s) (rs_fd s) (rs_work s) (rs_mem s);
  rec_perf_finish s := s;
  rec_alloc s :=
    if tight then
      match rs_mem s with
      | ok :: mem => (ok, RecSim (rs_taken s) (rs_pend s) (rs_run s) (rs_now s) (rs_file s) (rs_fd s) (rs_work s) mem)
      | [] => (true, s)
      end
    else (true, s);
  rec_clock s := ((rs_clock s / 1000, (rs_clock s mod 1000) * 1000000), s);
  rec_usleep us s :=
    RecSim (rs_taken s) (fun j => rs_pend s j ++ if rs_run s && (j mod 2 =? 1) then enc (ex_event (rs_clock s)) else []) (rs_run s)
      (rs_clock s + us / 1000) (rs_file s) (rs_fd s) (rs_work s) (rs_mem s);
  rec_stopped s := false;
  rec_open p s := let s := rs_set s p (Some []) in (3, RecSim (rs_taken s) (rs_pend s) (rs_run s) (rs_now s) (rs_file s) (Some p) (rs_work s) (rs_mem s));
  rec_write _ data s :=
    match rs_work s, rs_fd s with
    | Datatypes.S k, _ => (- EINTR, RecSim (rs_taken s) (rs_pend s) (rs_run s) (rs_now s) (rs_file s) (rs_fd s) k (rs_mem s))
    | O, Some p => let d := take 10 data in (zlen d, rs_set s p (Some (default [] (rs_file s p) ++ d)))
    | O, None => (-1, s)
    end;
  rec_close _ s := (0, s);
  rec_stat p s := (if bool_decide (p = bstr "/bin/psh") then Some (true, 1, 5) else None, s);
  rec_mkdir _ s := (0, s);
  rec_fopen p s := (true, rs_set s p (Some []));
  rec_fclose p text s := rs_set s p (Some text);
  rec_readdir p s := (if bool_decide (p = bstr "/bin") then Some [bstr "cat"; bstr "psh"] else None, s);
  rec_threadsinfo _ s := ([Thread 9 4 1 (bstr "psh"); Thread 10 4 1 (bstr "psh")], s);
  rec_meminfo _ _ s := (([Entry 4096 8192 0 5 (Some (Oid 1 5)); Entry 65536 4096 0 3 None], 2), s);
  rec_getpid _ := 12;
}.
End sim.

#[export] Instance rec_sim_trace : PerfTrace := {
  trace_channel_meta := 0; trace_channel_count := 2; PERF_TRACE_FLAG_SAMPLE := 1; PERF_TRACE_FLAG_ROLLING := 2; PERF_TRACE_EV_PROFILE := 1;
  PERF_TRACE_EV_SCHED := 2; PERF_TRACE_EV_SYSCALL := 4; PERF_TRACE_EV_LOCK := 8; PERF_TRACE_EV_IRQ := 16;
  PERF_TRACE_DEPTH_MAX := 64; PERF_TRACE_USTACK_MAX := 4096; PERF_TRACE_WAITSTACK_DEFERRED_MAX := 1024 }.

#[export] Instance rec_sim_view : RecView rec_sim := {
  rv_log s i := rs_taken s i ++ rs_pend s i; rv_taken := rs_taken; rv_run := rs_run; rv_now := rs_clock; rv_file := rs_file;
  rv_fd s fd := if fd =? 3 then rs_fd s else None; rv_work := rs_work; rv_nchans := 2; rv_maps := 2 }.

Lemma rs_set_idle s p c : idle (fun q => q <> p) s (rs_set s p c).
Proof. split; [|done]. split; cbn; try done. intros q Hq. by rewrite bool_decide_false. Qed.

Lemma rs_clock_range s : 0 <= rs_clock s <= 2 ^ 62.
Proof. unfold rs_clock. lia. Qed.

#[export] Instance rec_sim_laws : RecLaws rec_sim (H := rec_sim_ops false).
Proof.
  split.
  - done.
  - intros s. exists s. split; [done|]. split; [apply idle_refl|lia].
  - intros flags cfg s. cbn. destruct (Z.ltb_spec (rs_clock s) (2 ^ 61)); [|by split_and!]. unfold rs_clock in *. cbn. split_and!; try done; lia.
  - intros i s. unfold rec_perf_read, rec_sim_ops. set (n := Z.to_nat RECORD_BUFSZ). cbv zeta. set (data := take n (rs_pend s i)).
    case_bool_decide as Hb; [|split; [apply later_refl|by split]]. rewrite (proj2 (Z.ltb_ge _ 0)) by apply zlen_nonneg.
    assert (Hd : drop n (rs_pend s i) = [] \/ zlen data = RECORD_BUFSZ).
    { destruct (Nat.le_gt_cases (length (rs_pend s i)) n); [left; by apply drop_ge|right]. unfold data. rewrite zlen_take. unfold n, RECORD_BUFSZ, zlen in *. lia. }
    assert (Hle : zlen data <= RECORD_BUFSZ) by (unfold data; rewrite zlen_take; unfold n, RECORD_BUFSZ; lia).
    assert (Hlog : forall j, (if j =? i then rs_taken s i ++ data else rs_taken s j) ++ (if j =? i then drop n (rs_pend s i) else rs_pend s j) = rs_taken s j ++ rs_pend s j).
    { intros j. destruct (Z.eqb_spec j i) as [->|]; [|done]. unfold data. by rewrite <- (assoc_L (++)), take_drop. }
    split; [split; cbn; try done; intros; by rewrite Hlog|].
    split; [intros j Hj; cbn; by rewrite (proj2 (Z.eqb_neq j i))|]. cbn. rewrite Z.eqb_refl. split_and!; try done; [by eexists|].
    intros Hs _. destruct Hd as [->|Hd]; [by rewrite app_nil_r|lia].
  - intros s. cbn. split_and!; try done.
  - intros s. apply idle_refl.
  - intros s. cbn. pose proof (rs_clock_range s). rewrite Z.div_mul by done. split; [lia|]. split; [pose proof (Z.div_mod (rs_clock s) 1000); lia|].
    split; [apply idle_refl|lia].
  - intros us s Hus. pose proof (Z.div_pos us 1000 Hus). cbn. split; [split; [|done]|unfold rs_clock; cbn; lia]. split; cbn; try done.
    + unfold rs_clock. cbn. lia.
    + intros i. rewrite (assoc_L (++)). by eexists.
    + intros -> i. by rewrite app_nil_r.
  - intros p s. cbn. split; [split; [|done]; split; cbn; try done; intros q Hq; by rewrite bool_decide_false|]. intros _. split; [done|]. by rewrite bool_decide_true.
  - intros fd p c data s Hfd Hc Hz. cbn in Hfd |- *. destruct (Z.eqb_spec fd 3) as [->|]; [|done]. cbn in Hc.
    destruct (rs_work s) eqn:Ew.
    + rewrite Hfd, Hc. cbn [from_option id]. split; [done|]. rewrite (proj2 (Z.ltb_ge _ 0)) by apply zlen_nonneg.
      split; [rewrite zlen_take; lia|]. split; [apply rs_set_idle|]. cbn. rewrite bool_decide_true by done. do 2 f_equal.
      rewrite zlen_take. destruct (Nat.le_gt_cases 10 (length data)); [f_equal; unfold zlen; lia|by rewrite !take_ge by (unfold zlen; lia)].
    + split; [done|]. rewrite (proj2 (Z.ltb_lt (- EINTR) 0)) by done. split; [split; [|done]; split; cbn; try done; lia|]. intros _. cbn. lia.
  - intros fd s. apply idle_refl.
  - intros p s. apply idle_refl.
  - intros p s. apply idle_refl.
  - intros p s. apply rs_set_idle.
  - intros p text s. apply rs_set_idle.
  - intros p s. apply idle_refl.
  - intros n s. apply idle_refl.
  - intros pid n s. cbn. split; [done|apply idle_refl].
Qed.

Definition ex_record_opts : list (Z * bytes) := [(116, bstr "1"); (111, bstr "/p"); (77, bstr "1"); (101, bstr "sched,irq")].
Definition ex_o : rec_opts_t := RecOpts 1 (bstr "/p") 0 (Cfg 2000 16 512 512 1000 10000 0) 18 1 false RECORD_LIBDIRS.
Definition ex_rec : rec_sim := RecSim (fun _ => []) (fun _ => []) false 500 (fun _ => None) None 3 [].

(** A second of a trace with an event in every tenth of it: the file of its channel. *)
Example recording_runs : (r ← @prof_record _ (rec_sim_ops false) _ 200 ex_record_opts ex_rec;
    Some (rr_code r.1, rr_full r.1, rs_file r.2 (bstr "/p/channel_meta0"), rs_file r.2 (bstr "/p/channel_event0"))) =
  Some (0, false, Some [], Some (stream_of (ex_event <$> [500; 600; 700; 800; 900; 1000; 1100; 1200; 1300; 1400]))).
Proof. by vm_compute. Qed.

Example recording_info : (r ← @prof_record _ (rec_sim_ops false) _ 200 ex_record_opts ex_rec;
    t ← rs_file r.2 (bstr "/p/prof.info"); Some (take 42 t, default [] (strstr t (bstr "file ")))) =
  Some (bstr "thread 9 4 1 psh" ++ [10] ++ bstr "thread 10 4 1 psh" ++ [10] ++ bstr "map 4 0", bstr "file 1 5 /bin/psh" ++ [10]).
Proof. by vm_compute. Qed.

(** Without memory for a piece of a channel it is dropped, but what comes behind it is
    recorded: the file has a hole. *)
Definition ex_tight : rec_sim := RecSim (fun _ => []) (fun j => if j =? 0 then [1; 2; 3] else []) true 0 (fun _ => None) None 0 [false].
Definition ex_hole : option (Z * list bytes * bytes) :=
  '(_, chans, total, s) ← @record_drain _ (rec_sim_ops true) _ 5 0 [chan_nil] 0 1048576 true ex_tight;
  let s := RecSim (rs_taken s) (fun j => if j =? 0 then [4; 5] else []) false 0 (rs_file s) None 0 [] in
  '(err, chans, _, s) ← @record_drain _ (rec_sim_ops true) _ 5 0 chans total 1048576 false s;
  Some (err, map rc_data chans, rs_taken s 0).
Example recording_hole : ex_hole = Some (0, [[4; 5]], [1; 2; 3; 4; 5]).
Proof. by vm_compute. Qed.

(** The capacity of the list of files grows even when the list does not: the next file is
    written behind it. *)
Example oids_overrun :
  ('(o, s) ← @record_oidAdd _ (rec_sim_ops true) oids_nil (Oid 1 5) ex_tight; @record_oidAdd _ (rec_sim_ops true) o (Oid 1 6) s) = None.
Proof. by vm_compute. Qed.

Lemma recorded_is_loaded_witness : exists r f',
  @prof_record _ (rec_sim_ops false) _ (Z.to_nat 2000000) ex_record_opts ex_rec = Some (r, f') /\ (rr_code r = 0 -> saved (bstr "/p") f' (rr_full r = false) /\
  forall i es cpu l, rr_full r = false -> 0 <= i < rv_nchans -> rv_log f' i = stream_of es -> bytes_ok (stream_of es) -> Forall whole es -> es <> [] ->
    Sorted Z.le (e_ts <$> es) -> load_wf l -> exists l' new,
    loadStream (rv_file f' (channel_path (bstr "/p") i)) cpu l = Some (0, l') /\ tb_items (ld_evs l') = tb_items (ld_evs l) ++ new /\
    content <$> new = recorded_as <$> es /\ Forall (fun ev => ev_cpu ev = u8 cpu) new).
Proof.
  apply (@recorded_is_loaded rec_sim (rec_sim_ops false) rec_sim_trace rec_sim_view rec_sim_laws (conj eq_refl (conj (Z.le_refl 0) eq_refl)) (Z.to_nat 2000000) ex_record_opts ex_o ex_rec);
    [by vm_compute|by vm_compute|done|done|rewrite Z2Nat.id by done; by vm_compute].
Defined.
